(* ===== verification/_CoqProject ===== *)
-Q . S2P
Prelude.v
DList.v
My402.v
Sched.v
Kmutex.v
Mmobj.v
Vmmap.v
Mmap.v
Page.v
Slab.v
SlabInv.v
SlabSpec.v
SlabPages.v
Ramfs.v
Namev.v
Vfs.v
VfsCalls.v
Fork.v
ProcFiles.v
Proc.v
ProcInv.v
ProcRun.v
ProcLife.v
Bucket.v
QDiv.v
CString.v
Warmup1.v
Printf.v
Scanf.v
Virtterm.v
VirttermSpec.v
VirttermRun.v
Pagetable.v
PagetableSpec.v
PagetableRun.v
PagetableInit.v
PagetableOps.v
