(* ===== verification/Prelude.v ===== *)
(** * A verification of the Weenix kernel and of three smaller C programs

    The repository holds several programs.  This development is about those
    that carry logic of their own in C: the Weenix teaching kernel under
    src/project/Operating_System_Weenix/kernel, the circular list library and
    the bank statement program that uses it under
    src/project/build_form_linked_list, and the token bucket emulation under
    src/project/multiple_Threading-token_bucket.  Paths below are relative to
    the kernel directory unless they start with src.

    ** The program

    Weenix is a single-processor, non-preemptive i386 kernel.  A process owns a
    kernel thread, an address space and a table of open files.  Threads are
    scheduled from one run queue and sleep on wait queues (proc/sched.c);
    mutexes (proc/kmutex.c) are a holder and such a queue.  Only interrupts run
    while a thread is in the middle of kernel code, and they only touch the
    scheduler.  An address space (vm/vmmap.c) is an ordered list of areas; an
    area maps pages of a memory object (mm/mmobj.h), which is anonymous memory
    (vm/anon.c), a copy-on-write layer over another object (vm/shadow.c), or a
    file; the pages themselves are cached in mm/pframe.c, and their frames come
    from the buddy allocator mm/page.c.  The mmap, munmap and brk calls and the
    page fault handler work on these.  System calls on files (fs/vfs_syscall.c,
    fs/open.c, fs/file.c) resolve paths (fs/namev.c) to vnodes (fs/vnode.c) of
    the mounted file system, the in-memory fs/ramfs/ramfs.c.  Fork copies an
    address space and a descriptor table (proc/fork.c), exit gives them up, and
    the parent disposes of the rest in waitpid (proc/proc.c).  Most objects are linked by the macros of util/list.h and
    live as long as a reference counter says.  Small objects come from slab
    allocators (mm/slab.c) on top of the page allocator.  What the kernel
    prints is formatted by util/printf.c and shown by virtual terminals
    (drivers/tty/virtterm.c) on the screen; the keyboard driver feeds the
    current terminal.

    The bank statement program (warmup1.c) reads transactions, sorts them and
    prints a table.  The token bucket emulation (warmup2.c) runs four threads
    over two queues under one mutex.

    ** How the code is modelled

    One C function is one Rocq function of type [M S A] (below): it takes the
    component's state [S] and returns a value and a new state, or stops.  A
    failed KASSERT or a panic is [Stop Assert]; a null or dangling pointer, an
    index out of range or a signed overflow is [Stop Undef].  A theorem that an
    operation returns [Ret] therefore shows that it neither panics nor touches
    memory it does not own, apart from the recorded accesses named below.  Error returns are the negative error numbers of
    the C code.  Pointers to shared objects are keys of finite maps and freed
    objects leave the map, so that aliasing and use after free are visible: an
    access to a freed object is [Stop Undef].  The memory objects are the
    exception, because the code does use them after freeing them ([anon_put],
    [shadow_put], [pframe_free], [vmmap_remove]): [slab_obj_free] leaves the bytes
    where they are, so Mmobj.v keeps the contents of freed objects, performs these
    accesses there and records each in a log ([g_uaf]), until the address is handed
    out again.
    Machine integers are [Z] with their wrap-around written out ([u32],
    [s32]); what cannot be assigned a meaning (overflow of [int]) stops.
    Memory that can run out is a pool in the state, so that failing allocations
    are ordinary runs.  Macros that only print or check debugging levels are
    left out.

    Loops are structural where they walk a list.  Otherwise they carry fuel and
    running out is [Stop Diverge]; every theorem that an operation returns shows
    that the fuel chosen is enough: the length of the area list for
    [vmmap_remove], the number of objects for the walks down a shadow chain
    ([chain_length] in Mmobj.v), the eight block orders for [__page_join], the
    128 entries a directory page can hold, plus one, for reading a directory, the
    1024 entries of a page directory for the loop of [pt_init],
    33 rounds for closing 32 descriptors, the queue's counter for
    [sched_broadcast_on], the 65536 identifiers for [_proc_getid], the number of
    objects in the lists of slabs, the length of the format for [vsnprintf] and
    [vsscanf], the length of the string for [strtok], 64 digits of a number, 4 and 16
    rounds in the division loops, the length of the file for the parser of
    warmup1.c.  The waiting loop of [sched_switch] consumes one
    interrupt per round from a list the theorems quantify over; it is the one
    place where [Diverge] is a real outcome, a machine that idles for ever.

    ** Files, and what is proved

    - Prelude.v: outcomes and the state monad, weakest preconditions, machine
      integers and page arithmetic (include/mm/page.h), error numbers, the
      shared tactics and hints.
    - DList.v (include/util/list.h): the macros on a heap of next and prev
      pointers.  A list head represents a sequence; insertion and removal
      change it as expected and frame all other lists; iteration that unlinks
      as it goes terminates and visits every element.
    - My402.v (src/project/build_form_linked_list/my402list.c): every operation
      against the abstract list of objects; [My402ListFind] on a missing object
      never returns.
    - Sched.v (proc/sched.c, proc/context.c): queue invariant under every
      operation and interrupt, no thread is lost, first-in first-out wake-up,
      when [sched_switch] returns, what a cancelled sleeper gets.
    - Kmutex.v (proc/kmutex.c): mutual exclusion over all interleavings at
      sleeping points, hand-over to the longest waiter, the cancellable lock
      that returns without the mutex.
    - Mmobj.v (mm/pframe.c, vm/anon.c, vm/shadow.c, include/mm/mmobj.h): the
      page cache invariant; [views] says what an object's pages contain,
      resident or not; lookups show exactly that, writes are private to the
      object, the last reference frees an object with its pages.  The object of
      a file is the interface [FileOps].
    - Vmmap.v (vm/vmmap.c): [translate] is the abstract address
      space; [vmmap_remove] removes exactly a range from it in all four cases, and
      from the page directory at least that range;
      [vmmap_find_range] is first fit, the areas' references to their objects
      balance.  A call that may free page frames is a [put_call]: it also takes them
      out of the page directory ([pframe_remove_from_pts]).
    - Mmap.v (vm/mmap.c, vm/brk.c, vm/pagefault.c, api/access.c): munmap removes
      exactly its range, the fault handler checks protection and installs the
      right page (if there is memory for its page table), permission checks agree
      with a page-by-page definition, and the arguments that make mmap and munmap panic.
    - Page.v (mm/page.c): the buddy allocator's free lists and bitmaps represent
      a set of free blocks; allocation and release change that set exactly,
      splitting and joining buddies; a new group stays inside its range.
    - Slab.v, SlabInv.v, SlabSpec.v, SlabPages.v (mm/slab.c): the slab
      allocator and kmalloc over the interface [PageOps] with its laws
      [PageLaws]; whatever clients allocate and free, the objects they hold are apart
      from each other and from all bookkeeping; a free is exact, a double free and a
      damaged red zone are caught, reclaiming gives back exactly the unused slabs.  SlabPages.v shows that the allocator of
      Page.v is such an interface.
    - Pagetable.v, PagetableSpec.v, PagetableRun.v, PagetableInit.v,
      PagetableOps.v (mm/pagetable.c, mm/phys.c): page directories and page
      tables as words of physical memory, with pages from [PageOps].  [mmu] is
      the walk of the processor and [pt_ok] the invariant that ties it to the
      kernel's own pointers.  [pt_init] and [pt_template_init] establish it from the
      tables of boot/paging.h; mapping and unmapping change the translations
      of one page directory exactly as the finite map of Vmmap.v and Mmap.v
      does; creating and destroying a page directory is exact in pages.
    - Ramfs.v (fs/ramfs/ramfs.c, vget/vref/vput of fs/vnode.c): link counts,
      directory entries and in-use vnodes agree in every reachable state;
      adding and removing names is refinement of a finite map from directory
      and name to inode; what is written is read back.
    - Namev.v (fs/namev.c): path resolution equals the walk of the abstract
      directory tree, and takes and drops vnode references exactly.
    - Vfs.v and VfsCalls.v (fs/file.c, fs/open.c, fs/vfs_syscall.c, the special
      files of fs/vnode.c): the open-file and vnode reference counts balance in
      every state reachable by system calls; open, dup, lseek, read, write,
      unlink, rmdir, getdents and mkdir in all their cases.  Devices are the
      interface [Bytedevs].
    - Fork.v (proc/fork.c): the child's address space; copy on write between
      parent and child.
    - ProcFiles.v (proc/fork.c, proc/proc.c): the descriptor table across fork
      and exit.
    - Proc.v (proc/proc.c, proc/kthread.c, the process half of proc/fork.c, the
      start of main/kmain.c): the process table with its tree, identifiers,
      creation, fork, exit, wait and cancellation, on top of Sched.v.  What a
      process uses of memory and files is the interface [KernelRest].
    - ProcInv.v: the invariant that ties table, scheduler and ownership
      together ([kcore]), and what a scheduler step, a new process, an exit and
      the disposal of a dead child do to it; the laws of the interface
      ([KernelLaws]).
    - ProcRun.v: every operation keeps the invariant, from the boot sequence on;
      executions ([kreach]).
    - ProcLife.v: the theorems: the invariant over whole executions, exit
      statuses are delivered once and to the parent, waitpid in all its cases,
      an exit wakes the waiting parent, the zombie init does not notice, fork,
      identifiers.  [book] implements the interface and its laws, with descriptor
      tables and the closing loop of exit.
    - QDiv.v (util/math.c): 64-bit division on 16-bit digits, Knuth's algorithm
      D, equals quotient and remainder for all operands.
    - CString.v (util/string.c): comparison, search, copying, [strtok].
    - Printf.v and Scanf.v (util/printf.c): what [vsnprintf] stores is its text cut
      to the buffer, whatever the buffer; [number] against a reference text;
      numbers that are printed are scanned back; [vsscanf] ends.
    - Virtterm.v, VirttermSpec.v, VirttermRun.v (drivers/tty/virtterm.c,
      screen.c, keyboard.c): the circular scroll buffer implements a list of
      lines; the video memory always shows what a full redraw would draw; the
      system of all operations from [tty_start] on.
    - Bucket.v (src/project/multiple_Threading-token_bucket/warmup2.c): the
      threads as a step relation at the granularity of the mutex; packets leave
      in order, none is served twice, the emulation can always finish.
    - Warmup1.v (src/project/build_form_linked_list/warmup1.c): the whole
      program from the bytes of the file to the printed statement; parsing,
      the stable sort, the columns, and the inputs it does not handle.

    Component invariants are records ([vinv], [vm_inv], [mm_ok], [finv], [wf],
    [kinv]);
    so are [term_ok] of a terminal and the slab invariants; each has a lemma per operation that preserves it, and the reachability
    theorems follow by rule induction.  Executable example states serve as
    witnesses that the hypotheses can hold.

    ** Bounds of the model

    A KASSERT on a pointer that is a state component here (such as
    [curproc != NULL]) has no counterpart.  The page cache is searched by
    (object, page number) as a finite map instead of by hash chains.  For the
    address space components a page directory is one finite map of present user
    pages, which PagetableOps.v relates to the tables in memory, with the flags of
    its page tables; [pd_mem] says whether memory can be had for the next page
    tables, and without it [pt_map] is -ENOMEM as in Pagetable.v.  The reclaiming of
    slabs by a failing page allocation is part of Slab.v and left out of
    Pagetable.v.  The translation buffer is part of the state in Pagetable.v only;
    Mmobj.v records which frames [pframe_free] flushes.
    Page frames are unmapped from the address space at hand, not from those of
    other processes.  The words
    of a free page, where mm/page.c keeps its links, are arbitrary in
    Pagetable.v, and the kernel reaches every page of the allocator by its linear
    mapping.  Theorems about memory contents are for chains
    that end in anonymous memory; file-backed objects go through [FileOps].
    A busy vnode or page makes its user wait; since nobody else runs in between
    this is [Diverge] and shown not to happen.  Names in directories are byte
    lists without NUL.  The slab allocators of processes and threads are the
    list of the objects they will hand out.  A process table call reaches memory
    and files only through [KernelRest], whose operations do not give up the
    processor; the executions of ProcRun.v exclude the exit of init, which ends
    the machine, waits with a null status pointer, and creations that lack a
    resource ([call_ok]); [KernelLaws] is assumed of the books of memory and files,
    which exclude an exit with all 32 descriptors open.  The text [vsnprintf]
    prints is shorter than the address space, and [%n] does not point into the
    buffer.  The screen theorem leaves out characters printed to a terminal of
    more than 100 lines whose screen begins below its cursor ([roomy]); a
    concrete state shows what goes wrong there.  Bucket.v allows every schedule
    of the threads but no clock; in Warmup1.v memory does not run out.

    ** Not modelled

    fs/s5fs, drivers/tty/tty.c, drivers/tty/n_tty.c, drivers/memdevs.c and
    drivers/disk/ata.c are sets of unimplemented stubs, and S5FS, MOUNTING,
    GETCWD, MTP, SHADOWD and UPREEMPT are switched off in Config.mk.  The other
    drivers, boot, interrupt set-up and the device part of main are register
    and port accesses.  api/syscall.c only copies arguments in front of the
    functions modelled here; api/exec.c and api/elf32.c load programs through
    [vmmap_map] and are not modelled.  pageoutd, vnode page caching and
    file-backed mappings are behind [FileOps].  The kernel shell, the test
    suites, the user programs and their C library are clients.  Of warmup2.c
    times, statistics and the reading of the trace file are left out, of
    warmup1.c opening the file.  The onion router and the auction platform are
    socket programs; the remaining projects are in other languages.

    ** Further work

    One kernel state in which the address spaces and tables of all processes
    share the stores of Mmobj.v and Vfs.v, as an instance of [KernelRest] and
    [KernelLaws]; program loading (api/elf32.c); the argument copying of
    api/syscall.c. *)

From stdpp Require Export base tactics numbers list gmap sets.
From Stdlib Require Export ZArith Lia Bool.

#[global] Open Scope Z_scope.

Declare Scope kernel_scope.
Delimit Scope kernel_scope with kernel.
#[global] Open Scope kernel_scope.

Create HintDb weenix.
Create Rewrite HintDb weenix.

(** [lia] with quotients and remainders by constants expanded. *)
Ltac dlia := Z.to_euclidean_division_equations; lia.

(** ** Machine integers *)

(** The kernel is a 32-bit i386 kernel: [uint32_t], [uintptr_t] and [size_t]
    are 32 bits wide, [int] and [off_t] are signed 32 bits. *)
Definition two32 : Z := 4294967296.

Definition u32 (z : Z) : Z := z mod two32.

Definition s32 (z : Z) : Z := (z + 2147483648) mod two32 - 2147483648.

Definition s8 (z : Z) : Z := (z + 128) mod 256 - 128.

Definition is_u32 (z : Z) : Prop := 0 <= z < two32.

Definition is_s32 (z : Z) : Prop := - 2147483648 <= z < 2147483648.

Lemma u32_range z : 0 <= u32 z < two32.
Proof. apply Z.mod_pos_bound. done. Qed.

Lemma u32_small z : is_u32 z -> u32 z = z.
Proof. unfold is_u32, u32. apply Z.mod_small. Qed.

Lemma s32_small z : is_s32 z -> s32 z = z.
Proof. unfold is_s32, s32, two32. intros. rewrite Z.mod_small; lia. Qed.

Lemma s8_small z : -128 <= z < 128 -> s8 z = z.
Proof. unfold s8. intros. rewrite Z.mod_small; lia. Qed.

#[export] Hint Resolve u32_range : weenix.
#[export] Hint Rewrite u32_small s32_small using (unfold is_u32, is_s32, two32 in *; lia) : weenix.

(** ** Page arithmetic (include/mm/page.h, include/mm/mm.h) *)

Definition PAGE_SHIFT : Z := 12.
Definition PAGE_SIZE : Z := 4096.
Definition PAGE_NSIZES : nat := 8.
Definition USER_MEM_LOW : Z := 4194304.      (* 0x00400000 *)
Definition USER_MEM_HIGH : Z := 3221225472.  (* 0xc0000000 *)

Definition ADDR_TO_PN (x : Z) : Z := Z.shiftr (u32 x) PAGE_SHIFT.
Definition PN_TO_ADDR (x : Z) : Z := u32 (Z.shiftl (u32 x) PAGE_SHIFT).
Definition PAGE_MASK : Z := 4294963200.      (* 0xfffff000 *)
Definition PAGE_ALIGN_DOWN (x : Z) : Z := Z.land (u32 x) PAGE_MASK.
Definition PAGE_ALIGN_UP (x : Z) : Z := u32 (Z.land (u32 (x - 1)) PAGE_MASK + PAGE_SIZE).
Definition PAGE_OFFSET (x : Z) : Z := Z.land (u32 x) 4095.
Definition PAGE_ALIGNED (x : Z) : bool := (u32 x mod PAGE_SIZE =? 0).

Lemma ADDR_TO_PN_div x : ADDR_TO_PN x = u32 x / 4096.
Proof. unfold ADDR_TO_PN. by rewrite Z.shiftr_div_pow2. Qed.

Lemma PAGE_OFFSET_mod x : PAGE_OFFSET x = u32 x mod 4096.
Proof. unfold PAGE_OFFSET. change 4095 with (Z.ones 12). by rewrite Z.land_ones. Qed.

Lemma PAGE_ALIGN_DOWN_eq x : PAGE_ALIGN_DOWN x = 4096 * (u32 x / 4096).
Proof.
  unfold PAGE_ALIGN_DOWN. pose proof (u32_range x) as Hr. unfold two32 in Hr.
  assert (Z.land (u32 x) PAGE_MASK = Z.ldiff (u32 x) (Z.ones 12)) as ->.
  { apply Z.bits_inj'. intros n Hn. rewrite Z.land_spec, Z.ldiff_spec.
    change PAGE_MASK with (Z.ldiff (Z.ones 32) (Z.ones 12)). rewrite Z.ldiff_spec.
    destruct (decide (n < 32)) as [Hlt|Hge].
    - by rewrite Z.ones_spec_low by lia.
    - rewrite (Z.bits_above_log2 (u32 x)); [done|lia|].
      destruct (decide (u32 x = 0)) as [->|?]; [simpl; lia|].
      apply Z.log2_lt_pow2; [lia|]. apply Z.lt_le_trans with (2^32); [lia|].
      apply Z.pow_le_mono_r; lia. }
  rewrite Z.ldiff_ones_r by lia. rewrite Z.shiftr_div_pow2, Z.shiftl_mul_pow2 by lia.
  change (2 ^ 12) with 4096. lia.
Qed.

Lemma PN_TO_ADDR_mul x : 0 <= x < 1048576 -> PN_TO_ADDR x = 4096 * x.
Proof.
  intros. unfold PN_TO_ADDR. rewrite Z.shiftl_mul_pow2 by (unfold PAGE_SHIFT; lia).
  rewrite (u32_small x) by (unfold is_u32, two32; lia).
  rewrite u32_small; unfold is_u32, two32, PAGE_SHIFT; lia.
Qed.

(** ** Outcomes *)

(** What can stop the kernel: a failed [KASSERT] or a [panic], or an access the
    C standard leaves undefined (a null or dangling pointer, an index out of
    range).  [Diverge] is the outcome of a loop whose fuel ran out. *)
Inductive fault : Type :=
| Assert
| Undef
| Diverge.

Inductive outcome (A : Type) : Type :=
| Ret (a : A)
| Stop (f : fault).
Arguments Ret {A} a.
Arguments Stop {A} f.

#[export] Instance fault_eq_dec : EqDecision fault.
Proof. solve_decision. Defined.

(** A C function without side effects is a function into outcomes. *)
Definition obind {A B} (m : outcome A) (k : A -> outcome B) : outcome B :=
  match m with Ret a => k a | Stop f => Stop f end.

Notation "'let?' x ':=' m 'in' k" := (obind m (fun x => k))
  (at level 10, x pattern, m at level 100, k at level 200) : kernel_scope.

(** The result of a signed computation, undefined when it is not an [int]. *)
Definition as_int (z : Z) : outcome Z :=
  if (-2147483648 <=? z) && (z <? 2147483648) then Ret z else Stop Undef.

Lemma as_int_ok z : -2147483648 <= z < 2147483648 -> as_int z = Ret z.
Proof. intros. unfold as_int. by rewrite (proj2 (Z.leb_le _ _)), (proj2 (Z.ltb_lt _ _)) by lia. Qed.

(** State passing with faults: one C function is one [M S A]. *)
Definition M (S A : Type) : Type := S -> outcome (A * S).

Section monad.
Context {S : Type}.

Definition ret {A} (a : A) : M S A := fun s => Ret (a, s).

Definition bind {A B} (m : M S A) (k : A -> M S B) : M S B := fun s =>
  match m s with
  | Ret (a, s') => k a s'
  | Stop f => Stop f
  end.

Definition stop {A} (f : fault) : M S A := fun _ => Stop f.

Definition gets {A} (f : S -> A) : M S A := fun s => Ret (f s, s).

Definition modify (f : S -> S) : M S unit := fun s => Ret (tt, f s).

(** [KASSERT(b)]. *)
Definition KASSERT (b : bool) : M S unit := if b then ret tt else stop Assert.

(** Dereference of something that may be null or dangling. *)
Definition deref {A} (o : option A) : M S A :=
  match o with
  | Some a => ret a
  | None => stop Undef
  end.

(** [m] returns normally, in a state and with a value that satisfy [Q]. *)
Definition wp {A} (m : M S A) (Q : A -> S -> Prop) (s : S) : Prop :=
  match m s with
  | Ret (a, s') => Q a s'
  | Stop _ => False
  end.
End monad.

Notation "'let!' x ':=' m 'in' k" := (bind m (fun x => k))
  (at level 10, x pattern, m at level 100, k at level 200) : kernel_scope.
Notation "m ';;;' k" := (bind m (fun _ => k))
  (at level 199, k at level 199, right associativity) : kernel_scope.

Section wp.
Context {S : Type}.
Implicit Types s : S.

Lemma wp_ret {A} (a : A) Q s : wp (ret a) Q s <-> Q a s.
Proof. done. Qed.

Lemma wp_bind {A B} (m : M S A) (k : A -> M S B) Q s :
  wp (bind m k) Q s <-> wp m (fun a s' => wp (k a) Q s') s.
Proof. unfold wp, bind. destruct (m s) as [[a s']|f]; done. Qed.

Lemma wp_gets {A} (f : S -> A) Q s : wp (gets f) Q s <-> Q (f s) s.
Proof. done. Qed.

Lemma wp_modify f (Q : unit -> S -> Prop) s : wp (modify f) Q s <-> Q tt (f s).
Proof. done. Qed.

Lemma wp_KASSERT b (Q : unit -> S -> Prop) s : wp (KASSERT b) Q s <-> b = true /\ Q tt s.
Proof. destruct b; unfold wp; simpl; naive_solver. Qed.

Lemma wp_deref {A} (o : option A) Q s :
  wp (deref o) Q s <-> exists a, o = Some a /\ Q a s.
Proof. destruct o; unfold wp; simpl; naive_solver. Qed.

Lemma wp_mono {A} (m : M S A) (Q Q' : A -> S -> Prop) s :
  (forall a s', Q a s' -> Q' a s') -> wp m Q s -> wp m Q' s.
Proof. unfold wp. destruct (m s) as [[a s']|]; naive_solver. Qed.

Lemma wp_run {A} (m : M S A) Q s :
  wp m Q s -> exists a s', m s = Ret (a, s') /\ Q a s'.
Proof. unfold wp. destruct (m s) as [[a s']|]; naive_solver. Qed.

Lemma wp_intro {A} (m : M S A) (Q : A -> S -> Prop) s a s' :
  m s = Ret (a, s') -> Q a s' -> wp m Q s.
Proof. unfold wp. by intros ->. Qed.
End wp.

(** Symbolic execution of a sequence of operations with known results. *)
Lemma bind_eq {S A B} (m : M S A) (k : A -> M S B) s a s' :
  m s = Ret (a, s') -> bind m k s = k a s'.
Proof. unfold bind. by intros ->. Qed.

Lemma bind_bind {S A B C} (m : M S A) (k : A -> M S B) (k' : B -> M S C) s :
  bind (bind m k) k' s = bind m (fun a => bind (k a) k') s.
Proof. unfold bind. by destruct (m s) as [[a s']|]. Qed.

Lemma bind_ret {S A B} (a : A) (k : A -> M S B) s : bind (ret a) k s = k a s.
Proof. done. Qed.

Lemma bind_gets {S A B} (f : S -> A) (k : A -> M S B) s : bind (gets f) k s = k (f s) s.
Proof. done. Qed.

Lemma bind_modify {S B} f (k : unit -> M S B) s : bind (modify f) k s = k tt (f s).
Proof. done. Qed.

Lemma bind_assert {S B} b (k : unit -> M S B) s : b = true -> bind (KASSERT b) k s = k tt s.
Proof. by intros ->. Qed.

Lemma bind_deref {S A B} (a : A) (k : A -> M S B) s : bind (deref (Some a)) k s = k a s.
Proof. done. Qed.

(** Running a component's operation on its part of a larger state. *)
Definition zoom {S T A : Type} (get : S -> T) (put : T -> S -> S) (m : M T A) : M S A :=
  fun s => match m (get s) with
           | Ret (a, t) => Ret (a, put t s)
           | Stop f => Stop f
           end.

Lemma wp_zoom {S T A} (get : S -> T) (put : T -> S -> S) (m : M T A) Q s :
  wp (zoom get put m) Q s <-> wp m (fun a t => Q a (put t s)) (get s).
Proof. unfold wp, zoom. destruct (m (get s)) as [[a t]|f]; done. Qed.

(** [m] either returns with [Q] or stops only for want of an event. *)
Definition wpd {S A} (m : M S A) (Q : A -> S -> Prop) (s : S) : Prop :=
  match m s with
  | Ret (a, s') => Q a s'
  | Stop f => f = Diverge
  end.

Lemma wpd_bind {S A B} (m : M S A) (k : A -> M S B) Q s :
  wpd (bind m k) Q s <-> wpd m (fun a s' => wpd (k a) Q s') s.
Proof. unfold wpd, bind. destruct (m s) as [[a s']|f]; done. Qed.

Lemma wpd_mono {S A} (m : M S A) (Q Q' : A -> S -> Prop) s :
  (forall a s', Q a s' -> Q' a s') -> wpd m Q s -> wpd m Q' s.
Proof. unfold wpd. destruct (m s) as [[a s']|]; naive_solver. Qed.

Lemma wp_wpd {S A} (m : M S A) (Q : A -> S -> Prop) s : wp m Q s -> wpd m Q s.
Proof. unfold wp, wpd. destruct (m s) as [[a s']|]; naive_solver. Qed.

Ltac wp_step :=
  first [ rewrite wp_bind | rewrite wp_ret | rewrite wp_gets | rewrite wp_modify
        | rewrite wp_KASSERT | rewrite wp_deref ]; cbv beta.
Ltac wp_steps := repeat wp_step.

(** ** Removing one element from a list without duplicates *)

Section remove_one.
Context {A : Type} `{EqDecision A}.
Implicit Types (l : list A) (t : A).

Lemma filter_ne_id l t : t ∉ l -> filter (fun u => u <> t) l = l.
Proof.
  induction l as [|x l IH]; intros Hn; [done|].
  rewrite filter_cons_True by set_solver. f_equal. set_solver.
Qed.

Lemma filter_ne_split l1 l2 t :
  NoDup (l1 ++ t :: l2) -> filter (fun u => u <> t) (l1 ++ t :: l2) = l1 ++ l2.
Proof.
  intros (_ & Hd & H2)%NoDup_app. apply NoDup_cons in H2 as [Hn _].
  rewrite filter_app, filter_cons_False by naive_solver.
  rewrite !filter_ne_id; [done|done|]. intros Hin. apply (Hd _ Hin). set_solver.
Qed.

Lemma length_filter_ne l t :
  NoDup l -> t ∈ l -> (length (filter (fun u => u <> t) l) + 1 = length l)%nat.
Proof.
  intros Hnd (l1 & l2 & ->)%list_elem_of_split.
  rewrite filter_ne_split by done. rewrite !length_app. simpl. lia.
Qed.
End remove_one.

(** ** Error numbers (include/errno.h) *)

Definition ENOENT : Z := 2.
Definition EINTR : Z := 4.
Definition EBADF : Z := 9.
Definition ECHILD : Z := 10.
Definition ENOMEM : Z := 12.
Definition EACCES : Z := 13.
Definition EFAULT : Z := 14.
Definition EEXIST : Z := 17.
Definition ENOTDIR : Z := 20.
Definition EISDIR : Z := 21.
Definition EINVAL : Z := 22.
Definition EMFILE : Z := 24.
Definition ENOSPC : Z := 28.
Definition ENAMETOOLONG : Z := 36.
Definition ENOTEMPTY : Z := 39.
