(* ===== verification/DList.v ===== *)
(** * The intrusive circular list of include/util/list.h

    Every queue and table of the kernel (run queue, process list, vmareas,
    page groups) is a circular doubly linked list with a sentinel.  This file
    models the macros of list.h on a heap of links and proves that they
    implement the list operations the other files of the development use:
    [ring h a ps] says that the sentinel [a] heads the sequence [ps]. *)

From S2P Require Import Prelude.

Abbreviation loc := Z (only parsing).

Definition NULL : loc := 0.

(** The two fields of [list_link_t], one map per field; a link is allocated
    when both maps are defined on it. *)
Record lheap := mk_lheap {
  l_next : gmap loc loc;
  l_prev : gmap loc loc
}.

Section macros.
Definition get_next (p : loc) : M lheap loc := fun h => deref (l_next h !! p) h.
Definition get_prev (p : loc) : M lheap loc := fun h => deref (l_prev h !! p) h.

Definition set_next (p q : loc) : M lheap unit := fun h =>
  match l_next h !! p with
  | Some _ => Ret (tt, mk_lheap (<[p := q]> (l_next h)) (l_prev h))
  | None => Stop Undef
  end.

Definition set_prev (p q : loc) : M lheap unit := fun h =>
  match l_prev h !! p with
  | Some _ => Ret (tt, mk_lheap (l_next h) (<[p := q]> (l_prev h)))
  | None => Stop Undef
  end.

Definition list_link_init (link : loc) : M lheap unit :=
  set_prev link NULL ;;; set_next link NULL.

Definition list_link_is_linked (link : loc) : M lheap bool :=
  let! n := get_next link in
  if bool_decide (n = NULL) then ret false
  else let! p := get_prev link in ret (negb (bool_decide (p = NULL))).

Definition list_init (l : loc) : M lheap unit :=
  set_prev l l ;;; set_next l l.

Definition list_empty (l : loc) : M lheap bool :=
  let! n := get_next l in ret (bool_decide (n = l)).

Definition list_insert_before (old new : loc) : M lheap unit :=
  set_next new old ;;;
  let! op := get_prev old in
  set_prev new op ;;;
  let! op' := get_prev old in
  set_next op' new ;;;
  set_prev old new.

Definition list_insert_head (l link : loc) : M lheap unit :=
  let! n := get_next l in list_insert_before n link.

Definition list_insert_tail (l link : loc) : M lheap unit :=
  list_insert_before l link.

Definition list_remove (link : loc) : M lheap unit :=
  let! prev := get_prev link in
  let! next := get_next link in
  set_next prev next ;;;
  set_prev next prev ;;;
  set_prev link NULL ;;;
  set_next link NULL.

Definition list_remove_head (l : loc) : M lheap unit :=
  let! n := get_next l in list_remove n.

Definition list_remove_tail (l : loc) : M lheap unit :=
  let! p := get_prev l in list_remove p.

(** The loop of [list_iterate_begin .. list_iterate_end] over a body: [__next]
    is read before the body runs, so the body may unlink the current item. *)
Fixpoint list_iterate (fuel : nat) (l link : loc) (body : loc -> M lheap unit) : M lheap unit :=
  match fuel with
  | O => stop Diverge
  | S fuel =>
      if bool_decide (link = l) then ret tt
      else
        let! next := get_next link in
        body link ;;;
        list_iterate fuel l next body
  end.

Definition list_iterate_begin (fuel : nat) (l : loc) (body : loc -> M lheap unit) : M lheap unit :=
  let! first := get_next l in list_iterate fuel l first body.
End macros.

(** ** Representation *)

(** Consecutive links of [s] point at each other. *)
Fixpoint path (h : lheap) (s : list loc) : Prop :=
  match s with
  | u :: (v :: _) as t => l_next h !! u = Some v /\ l_prev h !! v = Some u /\ path h t
  | _ => True
  end.

(** The sentinel [a] heads the circular list of the links [ps]. *)
Definition ring (h : lheap) (a : loc) (ps : list loc) : Prop :=
  NoDup (a :: ps) /\ path h (a :: ps ++ [a]).

(** [link] is allocated. *)
Definition allocated (h : lheap) (p : loc) : Prop :=
  is_Some (l_next h !! p) /\ is_Some (l_prev h !! p).

(** Only the links in [s] were written. *)
Definition same_except (h h' : lheap) (s : list loc) : Prop :=
  forall p, p ∉ s -> l_next h' !! p = l_next h !! p /\ l_prev h' !! p = l_prev h !! p.

Lemma path_app h s u t : path h (s ++ u :: t) <-> path h (s ++ [u]) /\ path h (u :: t).
Proof.
  induction s as [|x s IH]; [simpl; tauto|].
  destruct s as [|y s]; simpl in *; [destruct t; tauto|]. tauto.
Qed.

Lemma path_two h s u v t :
  path h (s ++ u :: v :: t) <->
  path h (s ++ [u]) /\ (l_next h !! u = Some v /\ l_prev h !! v = Some u) /\ path h (v :: t).
Proof. rewrite path_app. simpl. tauto. Qed.

(** A path depends on [l_next] of all but its last link and on [l_prev] of
    all but its first. *)
Lemma path_frame h h' s u :
  (forall z, z ∈ s -> l_next h' !! z = l_next h !! z) ->
  (forall z, z ∈ tail (s ++ [u]) -> l_prev h' !! z = l_prev h !! z) ->
  path h (s ++ [u]) -> path h' (s ++ [u]).
Proof.
  induction s as [|x s IH]; [done|]. intros Hn Hp.
  destruct s as [|y s]; simpl in *; intros (H1 & H2 & H3).
  - rewrite Hn, Hp by set_solver. done.
  - rewrite Hn, Hp by set_solver. repeat split; [done..|].
    apply IH; [set_solver..|done].
Qed.

Lemma wp_get_next p Q h q : l_next h !! p = Some q -> Q q h -> wp (get_next p) Q h.
Proof. unfold get_next, wp. intros ->. done. Qed.

Lemma wp_get_prev p Q h q : l_prev h !! p = Some q -> Q q h -> wp (get_prev p) Q h.
Proof. unfold get_prev, wp. intros ->. done. Qed.

Lemma wp_set_next p q (Q : unit -> lheap -> Prop) h :
  is_Some (l_next h !! p) ->
  Q tt (mk_lheap (<[p := q]> (l_next h)) (l_prev h)) -> wp (set_next p q) Q h.
Proof. unfold set_next, wp. intros [? ->]. done. Qed.

Lemma wp_set_prev p q (Q : unit -> lheap -> Prop) h :
  is_Some (l_prev h !! p) ->
  Q tt (mk_lheap (l_next h) (<[p := q]> (l_prev h))) -> wp (set_prev p q) Q h.
Proof. unfold set_prev, wp. intros [? ->]. done. Qed.

(** Lookup in an updated field map, with the side condition decided. *)
Lemma lookup_insert_is_Some (m : gmap loc loc) p q r :
  is_Some (m !! r) -> is_Some (<[p := q]> m !! r).
Proof. rewrite lookup_insert. case_decide; eauto. Qed.

#[export] Hint Resolve lookup_insert_is_Some : weenix.

(** A ring split at an edge: [x -> y] is the edge between [l1] and [l2]. *)
Lemma ring_edge a (l1 l2 : list loc) :
  exists s1 x y s2, a :: l1 = s1 ++ [x] /\ l2 ++ [a] = y :: s2 /\ y = hd a l2.
Proof.
  destruct (@exists_last _ (a :: l1)) as (s1 & x & Hx); [done|].
  destruct l2 as [|y l2]; simpl; [by eexists s1, x, a, []|].
  by eexists s1, x, y, (l2 ++ [a]).
Qed.

Section insert.
Variables (h : lheap) (s1 s2 : list loc) (x y n : loc).
Hypothesis Hnd1 : NoDup (s1 ++ [x]).
Hypothesis Hn : n ∉ s1 ++ [x] ++ y :: s2.
Hypothesis Hy : y ∉ tail (s1 ++ [x]).
Hypothesis Hnd2 : NoDup (y :: s2).
Hypothesis Hx : x ∉ removelast (y :: s2).
Hypothesis Hpath : path h (s1 ++ x :: y :: s2).
Let h' := mk_lheap (<[x := n]> (<[n := y]> (l_next h))) (<[y := n]> (<[n := x]> (l_prev h))).

Lemma path_insert : path h' (s1 ++ x :: n :: y :: s2).
Proof.
  apply path_two in Hpath as (P1 & _ & P2).
  apply path_two. split; [|split].
  - eapply path_frame; [| |exact P1]; simpl; intros z Hz.
    + rewrite !lookup_insert_ne; [done|set_solver|].
      intros ->. apply NoDup_app in Hnd1. set_solver.
    + rewrite !lookup_insert_ne; [done|..].
      * intros ->. apply Hn. destruct s1; set_solver.
      * intros ->. done.
  - simpl. rewrite lookup_insert_eq. split; [done|].
    rewrite lookup_insert_ne by set_solver. by rewrite lookup_insert_eq.
  - assert (path h' (y :: s2)) as Hp2.
    { destruct (@exists_last _ (y :: s2)) as (t & w & Ht); [done|].
      rewrite Ht in *. rewrite removelast_last in Hx.
      eapply path_frame; [| |exact P2]; simpl; intros z Hz.
      - rewrite !lookup_insert_ne; [done|set_solver|]. by intros ->.
      - rewrite !lookup_insert_ne; [done|..].
        + intros ->. apply Hn. destruct t; set_solver.
        + intros ->. destruct t as [|t0 t]; simpl in *; [set_solver|].
          injection Ht as -> ->. by apply NoDup_cons in Hnd2 as [? _]. }
    split; [|split]; [..|exact Hp2]; simpl.
    + rewrite lookup_insert_ne by set_solver. by rewrite lookup_insert_eq.
    + by rewrite lookup_insert_eq.
Qed.
End insert.

Section remove.
Variables (h : lheap) (s1 s2 : list loc) (x p y : loc).
Hypothesis Hnd1 : NoDup (s1 ++ [x]).
Hypothesis Hp : p ∉ s1 ++ [x] ++ y :: s2.
Hypothesis Hy : y ∉ tail (s1 ++ [x]).
Hypothesis Hnd2 : NoDup (y :: s2).
Hypothesis Hx : x ∉ removelast (y :: s2).
Hypothesis Hpath : path h (s1 ++ x :: p :: y :: s2).
Let h' := mk_lheap (<[p := NULL]> (<[x := y]> (l_next h)))
                   (<[p := NULL]> (<[y := x]> (l_prev h))).

Lemma path_remove : path h' (s1 ++ x :: y :: s2).
Proof.
  apply path_two in Hpath as (P1 & _ & _ & _ & P2).
  apply path_two. split; [|split].
  - eapply path_frame; [| |exact P1]; simpl; intros z Hz.
    + rewrite !lookup_insert_ne; [done| |set_solver].
      intros ->. apply NoDup_app in Hnd1. set_solver.
    + rewrite !lookup_insert_ne; [done|..].
      * intros ->. done.
      * intros ->. apply Hp. destruct s1; set_solver.
  - simpl. rewrite !(lookup_insert_ne _ p) by set_solver. by rewrite !lookup_insert_eq.
  - destruct (@exists_last _ (y :: s2)) as (t & w & Ht); [done|].
    change (path h (y :: s2)) in P2.
    rewrite Ht in *. rewrite removelast_last in Hx.
    eapply path_frame; [| |exact P2]; simpl; intros z Hz.
    + rewrite !lookup_insert_ne; [done| |set_solver]. by intros ->.
    + rewrite !lookup_insert_ne; [done|..].
      * intros ->. destruct t as [|t0 t]; simpl in *; [set_solver|].
        injection Ht as -> ->. by apply NoDup_cons in Hnd2 as [? _].
      * intros ->. apply Hp. destruct t; set_solver.
Qed.
End remove.

(** The disequalities a ring gives around the edge [x -> y]. *)
Lemma ring_edge_facts a (l1 l2 s1 s2 : list loc) x y :
  NoDup (a :: l1 ++ l2) -> a :: l1 = s1 ++ [x] -> l2 ++ [a] = y :: s2 ->
  NoDup (s1 ++ [x]) /\ (y ∉ tail (s1 ++ [x])) /\ NoDup (y :: s2) /\ x ∉ removelast (y :: s2).
Proof.
  intros Hnd E1 E2. rewrite <- E1, <- E2. simpl.
  rewrite removelast_last. pose proof Hnd as Hnd'.
  apply NoDup_cons in Hnd as [Ha Hnd]. apply NoDup_app in Hnd as (N1 & Nd & N2).
  assert (x ∈ a :: l1) as Hx by (rewrite E1; set_solver).
  assert (y = a \/ y ∈ l2) as Hyy.
  { assert (y ∈ l2 ++ [a]) by (rewrite E2; set_solver). set_solver. }
  repeat split.
  - apply NoDup_cons. set_solver.
  - set_solver.
  - apply NoDup_app. split; [done|]. split; [set_solver|]. apply NoDup_singleton.
  - set_solver.
Qed.


Lemma same_except_refl h s : same_except h h s.
Proof. by intros p Hp. Qed.

Lemma same_except_trans h1 h2 h3 s : same_except h1 h2 s -> same_except h2 h3 s -> same_except h1 h3 s.
Proof.
  intros H1 H2 p Hp. destruct (H1 p Hp) as [E1 E2], (H2 p Hp) as [E3 E4].
  by rewrite E3, E4.
Qed.

Lemma same_except_weaken h h' s t : (forall p, p ∈ s -> p ∈ t) -> same_except h h' s -> same_except h h' t.
Proof. intros Hst H p Hp. apply H. auto. Qed.

Lemma cons_app_split {A} (a x : A) l s :
  a :: l = s ++ [x] -> forall t, a :: l ++ t = s ++ x :: t.
Proof. intros E t. change (a :: l ++ t) with ((a :: l) ++ t). by rewrite E, <- app_assoc. Qed.

(** The heap after [new] is linked between [x] and [y], and after [p] is
    unlinked from between them. *)
Definition linked (h : lheap) (x n y : loc) : lheap :=
  mk_lheap (<[x := n]> (<[n := y]> (l_next h))) (<[y := n]> (<[n := x]> (l_prev h))).

Definition unlinked (h : lheap) (x p y : loc) : lheap :=
  mk_lheap (<[p := NULL]> (<[x := y]> (l_next h))) (<[p := NULL]> (<[y := x]> (l_prev h))).

(** The links around the edge between [l1] and [l2] in a ring. *)
Lemma ring_edge_lookup h a l1 l2 :
  ring h a (l1 ++ l2) ->
  exists x, x ∈ a :: l1 /\ (forall d, List.last (a :: l1) d = x) /\
    hd a l2 ∈ a :: l2 /\
    l_next h !! x = Some (hd a l2) /\ l_prev h !! hd a l2 = Some x.
Proof.
  intros [Hnd Hpath]. destruct (ring_edge a l1 l2) as (s1 & x & y & s2 & E1 & E2 & ->).
  pose proof (cons_app_split _ _ _ _ E1) as Ea.
  rewrite <- app_assoc, E2, Ea in Hpath.
  apply path_two in Hpath as (_ & (Nx & Py) & _).
  exists x. rewrite E1. split; [set_solver|]. split; [intros; apply last_last|].
  split; [destruct l2; set_solver|done].
Qed.

Lemma ring_insert h a l1 l2 n x :
  ring h a (l1 ++ l2) -> n ∉ a :: l1 ++ l2 -> List.last (a :: l1) a = x ->
  ring (linked h x n (hd a l2)) a (l1 ++ n :: l2) /\
  same_except h (linked h x n (hd a l2)) (n :: a :: l1 ++ l2).
Proof.
  intros [Hnd Hpath] Hn Hx.
  destruct (ring_edge a l1 l2) as (s1 & x' & y & s2 & E1 & E2 & ->).
  rewrite E1, last_last in Hx. subst x'.
  pose proof (ring_edge_facts _ _ _ _ _ _ _ Hnd E1 E2) as (F1 & F2 & F3 & F4).
  pose proof (cons_app_split _ _ _ _ E1) as Ea.
  rewrite <- app_assoc, E2, Ea in Hpath.
  assert (n ∉ s1 ++ [x] ++ hd a l2 :: s2) as Hn'.
  { rewrite app_assoc, <- E1, <- E2. set_solver. }
  assert (x ∈ a :: l1) by (rewrite E1; set_solver).
  assert (hd a l2 ∈ a :: l2) by (destruct l2; set_solver).
  split; [split|].
  - apply NoDup_cons in Hnd as [? Hnd]. apply NoDup_app in Hnd as (? & ? & ?).
    apply NoDup_cons. split; [set_solver|]. apply NoDup_app.
    split; [done|]. split; [set_solver|]. apply NoDup_cons. set_solver.
  - rewrite <- app_assoc. simpl app. rewrite E2, Ea. by apply path_insert.
  - intros p Hp. simpl. rewrite !lookup_insert_ne; set_solver.
Qed.

Lemma ring_remove_nodup h a l1 p l2 :
  ring h a (l1 ++ p :: l2) -> p ∉ a :: l1 ++ l2 /\ NoDup (a :: l1 ++ l2).
Proof.
  intros [Hnd _]. apply NoDup_cons in Hnd as [? Hnd].
  apply NoDup_app in Hnd as (? & ? & Hnd). apply NoDup_cons in Hnd as [? ?].
  split; [set_solver|]. apply NoDup_cons. split; [set_solver|]. apply NoDup_app. set_solver.
Qed.

Lemma ring_remove h a l1 p l2 x :
  ring h a (l1 ++ p :: l2) -> List.last (a :: l1) a = x ->
  ring (unlinked h x p (hd a l2)) a (l1 ++ l2) /\
  same_except h (unlinked h x p (hd a l2)) (a :: l1 ++ p :: l2).
Proof.
  intros Hr Hx. destruct (ring_remove_nodup _ _ _ _ _ Hr) as [Hp Hnd']. destruct Hr as [Hnd Hpath].
  destruct (ring_edge a l1 l2) as (s1 & x' & y & s2 & E1 & E2 & ->).
  rewrite E1, last_last in Hx. subst x'.
  pose proof (ring_edge_facts _ _ _ _ _ _ _ Hnd' E1 E2) as (F1 & F2 & F3 & F4).
  pose proof (cons_app_split _ _ _ _ E1) as Ea.
  rewrite <- app_assoc in Hpath. simpl app in Hpath. rewrite E2, Ea in Hpath.
  assert (p ∉ s1 ++ [x] ++ hd a l2 :: s2) as Hp'.
  { rewrite app_assoc, <- E1, <- E2. set_solver. }
  assert (x ∈ a :: l1) by (rewrite E1; set_solver).
  assert (hd a l2 ∈ a :: l2) by (destruct l2; set_solver).
  split; [split; [done|]|].
  - rewrite <- app_assoc, E2, Ea. by apply path_remove.
  - intros q Hq. simpl. rewrite !lookup_insert_ne; set_solver.
Qed.

(** A ring survives writes to links that are not on it. *)
Lemma ring_same_except h h' a ps s :
  ring h a ps -> same_except h h' s -> (forall p, p ∈ s -> p ∉ a :: ps) -> ring h' a ps.
Proof.
  intros [Hnd Hpath] Hs Hd. split; [done|].
  change (a :: ps ++ [a]) with ((a :: ps) ++ [a]) in *.
  eapply path_frame; [..|exact Hpath]; intros z Hz; apply Hs; intros Hin;
    apply (Hd z Hin); simpl in Hz; set_solver.
Qed.

Lemma insert_before_ring h a l1 l2 n :
  ring h a (l1 ++ l2) -> n ∉ a :: l1 ++ l2 -> allocated h n ->
  wp (list_insert_before (hd a l2) n)
     (fun _ h' => ring h' a (l1 ++ n :: l2) /\ same_except h h' (n :: a :: l1 ++ l2)) h.
Proof.
  intros Hr Hn [An1 An2].
  destruct (ring_edge_lookup _ _ _ _ Hr) as (x & Hxin & Hlast & Hyin & Nx & Py).
  assert (x <> n /\ hd a l2 <> n) as [Hxn Hyn] by set_solver.
  unfold list_insert_before. wp_steps.
  apply wp_set_next; [done|]. wp_steps. apply (wp_get_prev _ _ _ x); [done|]. wp_steps.
  apply wp_set_prev; [done|]. wp_steps. simpl.
  apply (wp_get_prev _ _ _ x); simpl; [by rewrite lookup_insert_ne|]. wp_steps.
  apply wp_set_next; simpl; [eauto with weenix|]. apply wp_set_prev; simpl; [eauto with weenix|].
  by apply ring_insert.
Qed.

Lemma remove_ring h a l1 p l2 :
  ring h a (l1 ++ p :: l2) ->
  wp (list_remove p)
     (fun _ h' => ring h' a (l1 ++ l2) /\ same_except h h' (a :: l1 ++ p :: l2) /\
                  l_next h' !! p = Some NULL /\ l_prev h' !! p = Some NULL) h.
Proof.
  intros Hr.
  destruct (ring_edge_lookup h a l1 (p :: l2) Hr) as (x & Hxin & Hlast & _ & Nx & Px).
  assert (ring h a ((l1 ++ [p]) ++ l2)) as Hr2 by by rewrite <- app_assoc.
  destruct (ring_edge_lookup h a (l1 ++ [p]) l2 Hr2) as (p' & _ & Hlast' & Hyin & Np & Py).
  specialize (Hlast' a). rewrite app_comm_cons, last_last in Hlast'. subst p'.
  simpl in Nx, Px. unfold list_remove. wp_steps.
  apply (wp_get_prev _ _ _ x); [done|]. wp_steps.
  apply (wp_get_next _ _ _ (hd a l2)); [done|]. wp_steps.
  apply wp_set_next; [eauto|]. wp_steps. apply wp_set_prev; simpl; [eauto|]. wp_steps.
  apply wp_set_prev; simpl; [eauto with weenix|]. apply wp_set_next; simpl; [eauto with weenix|].
  destruct (ring_remove h a l1 p l2 x Hr (Hlast a)) as [? ?].
  do 2 (split; [done|]). by rewrite !lookup_insert_eq.
Qed.

(** ** Iteration *)

(** Loop rule of [list_iterate_begin]: [I done todo] holds with the links still
    to visit in [todo]; the link after the current one is read before the body. *)
Lemma iterate_rule (I : list loc -> list loc -> lheap -> Prop) body a todo done h fuel :
  (length todo < fuel)%nat -> NoDup (a :: todo) ->
  (forall d p t h1, I d (p :: t) h1 -> done ++ todo = d ++ p :: t ->
     l_next h1 !! p = Some (hd a t) /\ wp (body p) (fun _ h2 => I (d ++ [p]) t h2) h1) ->
  I done todo h ->
  wp (list_iterate fuel a (hd a todo) body) (fun _ h' => I (done ++ todo) [] h') h.
Proof.
  revert done h fuel. induction todo as [|p t IH]; intros done h fuel Hf Hnd Hb HI;
    (destruct fuel as [|fuel]; [simpl in Hf; lia|]); simpl.
  - rewrite bool_decide_true by done. by rewrite app_nil_r.
  - apply NoDup_cons in Hnd as [Ha Hnd]. apply NoDup_cons in Hnd as [Hp Hnd].
    rewrite bool_decide_false by set_solver.
    destruct (Hb done p t h HI eq_refl) as [Hnx Hw].
    wp_steps. apply (wp_get_next _ _ _ (hd a t)); [done|]. wp_steps.
    eapply wp_mono; [|exact Hw]. intros ? h2 HI2. simpl in HI2 |- *.
    replace (done ++ p :: t) with ((done ++ [p]) ++ t) by by rewrite <- app_assoc.
    apply IH; [simpl in Hf; lia|apply NoDup_cons; set_solver| |done].
    intros d q t' h3 HI3 E. apply (Hb d q t' h3 HI3). rewrite <- E, <- app_assoc. done.
Qed.

Lemma ring_next_hd h a l1 p l2 :
  ring h a (l1 ++ p :: l2) -> l_next h !! p = Some (hd a l2).
Proof.
  intros Hr. assert (ring h a ((l1 ++ [p]) ++ l2)) as Hr2 by by rewrite <- app_assoc.
  destruct (ring_edge_lookup _ _ _ _ Hr2) as (p' & _ & Hlast & _ & ? & _).
  specialize (Hlast a). rewrite app_comm_cons, last_last in Hlast. by subst p'.
Qed.

Lemma ring_first h a ps : ring h a ps -> l_next h !! a = Some (hd a ps).
Proof.
  intros Hr. destruct (ring_edge_lookup h a [] ps Hr) as (x & _ & Hlast & _ & ? & _).
  specialize (Hlast a). simpl in Hlast. by subst x.
Qed.

(** ** What the other components rely on *)

(** [list_insert_head] and [list_insert_tail] never fault on a link that is
    allocated and not yet on the list, put it first and last respectively, keep
    the order of the others, and write no link outside the list. *)
Theorem list_insert_correct h a ps n :
  ring h a ps -> n ∉ a :: ps -> allocated h n ->
  wp (list_insert_head a n)
     (fun _ h' => ring h' a (n :: ps) /\ same_except h h' (n :: a :: ps)) h /\
  wp (list_insert_tail a n)
     (fun _ h' => ring h' a (ps ++ [n]) /\ same_except h h' (n :: a :: ps)) h.
Proof.
  intros Hr Hn Ha. split.
  - unfold list_insert_head. wp_steps. apply (wp_get_next _ _ _ (hd a ps)); [by apply ring_first|].
    by apply (insert_before_ring h a [] ps n).
  - unfold list_insert_tail. pose proof (insert_before_ring h a ps [] n) as H.
    rewrite app_nil_r in H. by apply H.
Qed.

(** [list_remove] takes exactly the given link off the list it is on,
    leaves it with null pointers, and writes no link outside the list. *)
Theorem list_remove_correct h a l1 p l2 :
  ring h a (l1 ++ p :: l2) ->
  wp (list_remove p)
     (fun _ h' => ring h' a (l1 ++ l2) /\ same_except h h' (a :: l1 ++ p :: l2) /\
                  l_next h' !! p = Some NULL /\ l_prev h' !! p = Some NULL) h.
Proof. apply remove_ring. Qed.

(** iterating over a list while unlinking every visited item terminates
    without a fault (in one step per item) and leaves the list empty. *)
Theorem list_iterate_unlink_all h a ps fuel :
  ring h a ps -> (length ps < fuel)%nat ->
  wp (list_iterate_begin fuel a list_remove)
     (fun _ h' => ring h' a [] /\ same_except h h' (a :: ps)) h.
Proof.
  intros Hr Hf. unfold list_iterate_begin. wp_steps.
  apply (wp_get_next _ _ _ (hd a ps)); [by apply ring_first|].
  eapply wp_mono; [|apply (iterate_rule
    (fun _ todo h1 => ring h1 a todo /\ same_except h h1 (a :: ps)) list_remove a ps [] h fuel)];
    [by intros ? ? ?|done|by destruct Hr| |by split].
  intros d p t h1 [Hr1 Hs] E. split; [by apply (ring_next_hd h1 a [])|].
  eapply wp_mono; [|by apply (remove_ring h1 a [] p t)].
  intros ? h2 (Hr2 & Hs2 & _). split; [done|].
  eapply same_except_trans; [done|]. eapply same_except_weaken; [|done].
  simpl in *. subst ps. set_solver.
Qed.

(** Witnesses: a three-link list. *)
Definition demo_heap : lheap :=
  mk_lheap (list_to_map [(1, 10); (10, 20); (20, 30); (30, 1); (40, 0)])
           (list_to_map [(1, 30); (10, 1); (20, 10); (30, 20); (40, 0)]).

Lemma demo_ring : ring demo_heap 1 [10; 20; 30].
Proof. split; [apply (bool_decide_unpack _); vm_compute; exact I|vm_compute; tauto]. Qed.

Lemma list_insert_correct_witness :
  wp (list_insert_head 1 40) (fun _ h' => ring h' 1 [40; 10; 20; 30]) demo_heap.
Proof.
  eapply wp_mono; [|apply (list_insert_correct demo_heap 1 [10; 20; 30] 40)].
  - by intros ? h' [? _].
  - apply demo_ring.
  - apply (bool_decide_unpack _). vm_compute. exact I.
  - split; vm_compute; eauto.
Defined.

Lemma list_remove_correct_witness :
  wp (list_remove 20) (fun _ h' => ring h' 1 [10; 30]) demo_heap.
Proof.
  eapply wp_mono; [|apply (list_remove_correct demo_heap 1 [10] 20 [30] demo_ring)].
  by intros ? h' [? _].
Defined.

Lemma list_iterate_unlink_all_witness :
  wp (list_iterate_begin 4 1 list_remove) (fun _ h' => ring h' 1 []) demo_heap.
Proof.
  eapply wp_mono; [|apply (list_iterate_unlink_all demo_heap 1 [10; 20; 30] 4 demo_ring)].
  - by intros ? h' [? _].
  - simpl. lia.
Defined.
