(* ===== verification/My402.v ===== *)
(** * The doubly linked list of build_form_linked_list/my402list.c

    The list is the same circular structure as the kernel's, but its elements
    are allocated by the list itself and carry a [void *obj].  Every function
    of the file is modelled on the heap of links of [DList] with one more
    field map; [repr s ps xs] relates the heap to the sequence [xs] of objects
    held by the elements [ps]. *)

From S2P Require Import Prelude DList.

(** The list structure and the elements reachable from it. *)
Record mylist := mk_mylist {
  m_links : lheap;          (* next / prev of every live element *)
  m_obj : gmap loc Z;       (* obj *)
  num_members : Z
}.

Section my402.
(** [&(list -> anchor)] *)
Variable anchor : loc.

Definition TRUE : Z := 1.
Definition FALSE : Z := 0.

Definition links {A} (m : M lheap A) : M mylist A := fun s =>
  match m (m_links s) with
  | Ret (a, h) => Ret (a, mk_mylist h (m_obj s) (num_members s))
  | Stop f => Stop f
  end.

Definition set_obj (p : loc) (o : Z) : M mylist unit :=
  modify (fun s => mk_mylist (m_links s) (<[p := o]> (m_obj s)) (num_members s)).

Definition get_obj (p : loc) : M mylist Z := fun s => deref (m_obj s !! p) s.

Definition set_num (f : Z -> Z) : M mylist unit :=
  modify (fun s => mk_mylist (m_links s) (m_obj s) (f (num_members s))).

(** [malloc(sizeof(My402ListElem))]: some block that is not live; the fields
    hold nothing of use until they are written. *)
Definition new_loc (s : mylist) : loc :=
  fresh (NULL :: anchor :: elements (dom (l_next (m_links s)) ∪ dom (l_prev (m_links s)))).

Definition malloc : M mylist loc := fun s =>
  let p := new_loc s in
  Ret (p, mk_mylist (mk_lheap (<[p := NULL]> (l_next (m_links s))) (<[p := NULL]> (l_prev (m_links s))))
                    (m_obj s) (num_members s)).

Definition free (p : loc) : M mylist unit :=
  modify (fun s =>
    mk_mylist (mk_lheap (delete p (l_next (m_links s))) (delete p (l_prev (m_links s))))
              (delete p (m_obj s)) (num_members s)).

Definition My402ListInit : M mylist Z :=
  links (set_next anchor anchor) ;;;
  links (set_prev anchor anchor) ;;;
  set_num (fun _ => 0) ;;;
  ret TRUE.

Definition My402ListAppend (obj : Z) : M mylist Z :=
  let! last := malloc in
  set_obj last obj ;;;
  let! ap := links (get_prev anchor) in
  links (set_prev last ap) ;;;
  links (set_next last anchor) ;;;
  let! ap' := links (get_prev anchor) in
  links (set_next ap' last) ;;;
  links (set_prev anchor last) ;;;
  set_num (fun n => s32 (n + 1)) ;;;
  ret TRUE.

Definition My402ListPrepend (obj : Z) : M mylist Z :=
  let! first := malloc in
  set_obj first obj ;;;
  links (set_prev first anchor) ;;;
  let! an := links (get_next anchor) in
  links (set_next first an) ;;;
  let! an' := links (get_next anchor) in
  links (set_prev an' first) ;;;
  links (set_next anchor first) ;;;
  set_num (fun n => s32 (n + 1)) ;;;
  ret TRUE.

Definition My402ListInsertAfter (obj : Z) (to : loc) : M mylist Z :=
  let! from := malloc in
  set_obj from obj ;;;
  let! tn := links (get_next to) in
  links (set_next from tn) ;;;
  links (set_prev from to) ;;;
  let! tn' := links (get_next to) in
  links (set_prev tn' from) ;;;
  links (set_next to from) ;;;
  set_num (fun n => s32 (n + 1)) ;;;
  ret TRUE.

Definition My402ListInsertBefore (obj : Z) (to : loc) : M mylist Z :=
  let! from := malloc in
  set_obj from obj ;;;
  links (set_next from to) ;;;
  let! tp := links (get_prev to) in
  links (set_prev from tp) ;;;
  let! tp' := links (get_prev to) in
  links (set_next tp' from) ;;;
  links (set_prev to from) ;;;
  set_num (fun n => s32 (n + 1)) ;;;
  ret TRUE.

Definition My402ListLength : M mylist Z := gets num_members.

Definition My402ListEmpty : M mylist Z :=
  let! n := gets num_members in ret (if n =? 0 then TRUE else FALSE).

Definition My402ListFirst : M mylist loc :=
  let! num := My402ListEmpty in
  if num =? 1 then ret NULL else links (get_next anchor).

Definition My402ListLast : M mylist loc :=
  let! num := My402ListEmpty in
  if num =? 1 then ret NULL else links (get_prev anchor).

Definition My402ListNext (next : loc) : M mylist loc :=
  let! n := links (get_next next) in
  if bool_decide (n = anchor) then ret NULL else links (get_next next).

Definition My402ListPrev (prev : loc) : M mylist loc :=
  let! p := links (get_prev prev) in
  if bool_decide (p = anchor) then ret NULL else links (get_prev prev).

Definition My402ListUnlink (middle : loc) : M mylist unit :=
  let! mn := links (get_next middle) in
  let! mp := links (get_prev middle) in
  links (set_prev mn mp) ;;;
  let! mp' := links (get_prev middle) in
  let! mn' := links (get_next middle) in
  links (set_next mp' mn') ;;;
  free middle ;;;
  set_num (fun n => s32 (n - 1)).

(** The loop of [My402ListUnlinkAll], one unit of fuel per test of its
    condition. *)
Fixpoint unlink_all_loop (fuel : nat) : M mylist unit :=
  match fuel with
  | O => stop Diverge
  | S fuel =>
      let! an := links (get_next anchor) in
      let! ap := links (get_prev anchor) in
      if negb (bool_decide (an = anchor)) || negb (bool_decide (ap = anchor)) then
        let! p := links (get_next anchor) in
        let! an1 := links (get_next anchor) in
        let! ann := links (get_next an1) in
        links (set_prev ann anchor) ;;;
        let! an2 := links (get_next anchor) in
        let! ann2 := links (get_next an2) in
        links (set_next anchor ann2) ;;;
        free p ;;;
        unlink_all_loop fuel
      else ret tt
  end.

Definition My402ListUnlinkAll (fuel : nat) : M mylist unit :=
  unlink_all_loop fuel ;;; set_num (fun _ => 0).

(** The loop of [My402ListFind]; [p] starts at the anchor. *)
Fixpoint find_loop (fuel : nat) (obj : Z) (p : loc) : M mylist loc :=
  match fuel with
  | O => stop Diverge
  | S fuel =>
      let! an := links (get_next anchor) in
      if negb (bool_decide (an = anchor)) then
        let! o := get_obj p in
        if o =? obj then ret p
        else let! q := links (get_next p) in find_loop fuel obj q
      else ret NULL
  end.

Definition My402ListFind (fuel : nat) (obj : Z) : M mylist loc := find_loop fuel obj anchor.

(** ** Representation *)

(** The elements [ps] hold the objects [xs], in order. *)
Record repr (s : mylist) (ps : list loc) (xs : list Z) : Prop := {
  repr_ring : ring (m_links s) anchor ps;
  repr_obj : Forall2 (fun p x => m_obj s !! p = Some x) ps xs;
  repr_num : num_members s = Z.of_nat (length xs);
  repr_small : Z.of_nat (length xs) < 2147483647;
  repr_nonnull : anchor <> NULL /\ NULL ∉ ps
}.

Lemma wp_links {A} (m : M lheap A) Q s :
  wp (links m) Q s <-> wp m (fun a h => Q a (mk_mylist h (m_obj s) (num_members s))) (m_links s).
Proof. unfold wp, links. destruct (m (m_links s)) as [[a h]|]; done. Qed.

Lemma wp_get_obj p (Q : Z -> mylist -> Prop) s o : m_obj s !! p = Some o -> Q o s -> wp (get_obj p) Q s.
Proof. unfold get_obj, wp. intros ->. done. Qed.

Lemma new_loc_fresh s ps xs :
  repr s ps xs -> new_loc s <> NULL /\ (new_loc s ∉ anchor :: ps) .
Proof.
  intros [Hr _ _ _ _]. unfold new_loc.
  pose proof (infinite_is_fresh (NULL :: anchor ::
    elements (dom (l_next (m_links s)) ∪ dom (l_prev (m_links s))))) as Hf.
  set (n := fresh _) in *. split; [set_solver|]. intros [->|Hin]%elem_of_cons; [set_solver|].
  apply Hf. do 2 right. apply elem_of_elements, elem_of_union_l, elem_of_dom.
  apply list_elem_of_split in Hin as (l1 & l2 & ->).
  rewrite (ring_next_hd _ _ _ _ _ Hr). eauto.
Qed.

(** The heap after [malloc] returned [n]. *)
Definition alloc_links (h : lheap) (n : loc) : lheap :=
  mk_lheap (<[n := NULL]> (l_next h)) (<[n := NULL]> (l_prev h)).

Lemma alloc_links_ring h n ps :
  ring h anchor ps -> n ∉ anchor :: ps -> ring (alloc_links h n) anchor ps.
Proof.
  intros Hr Hn. apply (ring_same_except h _ _ _ [n] Hr); [|set_solver].
  intros p Hp. simpl. rewrite !lookup_insert_ne; set_solver.
Qed.

Lemma Forall2_insert_other (m : gmap loc Z) n o ps xs :
  n ∉ ps -> Forall2 (fun p x => m !! p = Some x) ps xs ->
  Forall2 (fun p x => <[n := o]> m !! p = Some x) ps xs.
Proof.
  intros Hn HF. apply Forall2_same_length_lookup_2; [by eapply Forall2_length|].
  intros i p x Hp Hx. rewrite lookup_insert_ne; [exact (Forall2_lookup_lr _ _ _ _ _ _ HF Hp Hx)|].
  intros ->. apply Hn. by eapply list_elem_of_lookup_2.
Qed.

(** Linking a fresh element between [l1] and [l2]: the four insertions of
    the file all end in this state. *)
Lemma repr_insert s l1 l2 xs1 xs2 n o x :
  repr s (l1 ++ l2) (xs1 ++ xs2) -> length l1 = length xs1 ->
  Z.of_nat (length (xs1 ++ xs2)) + 1 < 2147483647 ->
  n <> NULL -> n ∉ anchor :: l1 ++ l2 -> List.last (anchor :: l1) anchor = x ->
  repr (mk_mylist (linked (alloc_links (m_links s) n) x n (hd anchor l2))
                  (<[n := o]> (m_obj s)) (s32 (num_members s + 1)))
       (l1 ++ n :: l2) (xs1 ++ o :: xs2).
Proof.
  intros [Hr Ho Hnum Hsm [Ha0 Hnn]] Hlen Hroom Hn0 Hn Hx. constructor; simpl.
  - apply ring_insert; [by apply alloc_links_ring|done|done].
  - apply Forall2_app_inv in Ho as [Ho1 Ho2]; [|done].
    apply Forall2_app; [apply Forall2_insert_other; [set_solver|done]|].
    constructor; [by rewrite lookup_insert_eq|].
    apply Forall2_insert_other; [set_solver|done].
  - rewrite Hnum. rewrite s32_small by (unfold is_s32; lia).
    rewrite !length_app in *. simpl. lia.
  - rewrite !length_app in *. simpl. lia.
  - split; [done|]. set_solver.
Qed.

(** The edge around the insertion point, in the heap [malloc] left. *)
Lemma alloc_edge s l1 l2 xs n :
  repr s (l1 ++ l2) xs -> n ∉ anchor :: l1 ++ l2 ->
  exists x, List.last (anchor :: l1) anchor = x /\ x <> n /\ hd anchor l2 <> n /\
    l_next (m_links s) !! x = Some (hd anchor l2) /\
    l_prev (m_links s) !! hd anchor l2 = Some x.
Proof.
  intros Hrep Hn. destruct (ring_edge_lookup _ _ _ _ (repr_ring _ _ _ Hrep))
    as (x & Hxin & Hlast & Hyin & ? & ?).
  exists x. split; [apply Hlast|]. set_solver.
Qed.

Ltac mstep :=
  wp_steps; try rewrite wp_links; simpl;
  first
    [ eapply wp_get_next; [simpl; rewrite ?lookup_insert_ne by congruence; eassumption|]
    | eapply wp_get_prev; [simpl; rewrite ?lookup_insert_ne by congruence; eassumption|]
    | apply wp_set_next; [simpl; rewrite ?lookup_insert_ne by congruence;
                          rewrite ?lookup_insert_eq; eauto with weenix|]
    | apply wp_set_prev; [simpl; rewrite ?lookup_insert_ne by congruence;
                          rewrite ?lookup_insert_eq; eauto with weenix|]
    | unfold set_obj; wp_steps | unfold set_num; wp_steps ]; simpl.

Lemma wp_malloc (Q : loc -> mylist -> Prop) s :
  Q (new_loc s)
    (mk_mylist (alloc_links (m_links s) (new_loc s)) (m_obj s) (num_members s)) ->
  wp malloc Q s.
Proof. done. Qed.

Lemma repr_length s ps xs : repr s ps xs -> length ps = length xs.
Proof. intros Hrep. by eapply Forall2_length, repr_obj. Qed.

(** Run an insertion up to the state of [repr_insert]. *)
Ltac run_insert Hrep Hn :=
  let x := fresh "x" in let Hx := fresh "Hx" in
  destruct (alloc_edge _ _ _ _ _ Hrep Hn) as (x & Hx & ? & ? & ? & ?);
  simpl in *; subst x; wp_steps; apply wp_malloc; wp_steps; repeat mstep.

Lemma append_spec s ps xs o :
  repr s ps xs -> Z.of_nat (length xs) + 1 < 2147483647 ->
  wp (My402ListAppend o) (fun r s' => r = TRUE /\ exists n, repr s' (ps ++ [n]) (xs ++ [o])) s.
Proof.
  intros Hrep Hroom. destruct (new_loc_fresh _ _ _ Hrep) as [Hn0 Hn].
  pose proof (repr_length _ _ _ Hrep) as Hl.
  rewrite <- (app_nil_r ps) in Hrep, Hn. rewrite <- (app_nil_r xs) in Hrep.
  unfold My402ListAppend. run_insert Hrep Hn. split; [done|].
  exists (new_loc s). eapply (repr_insert s ps [] xs []); rewrite ?app_nil_r in *; simpl; eauto.
Qed.

Lemma prepend_spec s ps xs o :
  repr s ps xs -> Z.of_nat (length xs) + 1 < 2147483647 ->
  wp (My402ListPrepend o) (fun r s' => r = TRUE /\ exists n, repr s' (n :: ps) (o :: xs)) s.
Proof.
  intros Hrep Hroom. destruct (new_loc_fresh _ _ _ Hrep) as [Hn0 Hn].
  change ps with ([] ++ ps) in Hrep, Hn. change xs with ([] ++ xs) in Hrep.
  unfold My402ListPrepend. run_insert Hrep Hn. split; [done|].
  exists (new_loc s). by eapply (repr_insert s [] ps [] xs).
Qed.

Lemma insert_after_spec s l1 p l2 xs1 y xs2 o :
  repr s (l1 ++ p :: l2) (xs1 ++ y :: xs2) -> length l1 = length xs1 ->
  Z.of_nat (length (xs1 ++ y :: xs2)) + 1 < 2147483647 ->
  wp (My402ListInsertAfter o p)
     (fun r s' => r = TRUE /\ exists n, repr s' (l1 ++ p :: n :: l2) (xs1 ++ y :: o :: xs2)) s.
Proof.
  intros Hrep Hl Hroom. destruct (new_loc_fresh _ _ _ Hrep) as [Hn0 Hn].
  replace (l1 ++ p :: l2) with ((l1 ++ [p]) ++ l2) in Hrep, Hn by by rewrite <- app_assoc.
  replace (xs1 ++ y :: xs2) with ((xs1 ++ [y]) ++ xs2) in Hrep, Hroom by by rewrite <- app_assoc.
  assert (List.last (anchor :: l1 ++ [p]) anchor = p) as Hlast
    by (rewrite app_comm_cons; apply last_last).
  unfold My402ListInsertAfter.
  destruct (alloc_edge _ _ _ _ _ Hrep Hn) as (x & Hx & ? & ? & ? & ?).
  rewrite Hlast in Hx. subst x.
  wp_steps; apply wp_malloc; wp_steps; repeat mstep. split; [done|].
  exists (new_loc s). eapply (repr_insert s (l1 ++ [p]) l2 (xs1 ++ [y]) xs2) in Hrep; eauto.
  - rewrite <- !app_assoc in Hrep. exact Hrep.
  - rewrite !length_app. simpl. lia.
Qed.

Lemma insert_before_spec s l1 p l2 xs1 y xs2 o :
  repr s (l1 ++ p :: l2) (xs1 ++ y :: xs2) -> length l1 = length xs1 ->
  Z.of_nat (length (xs1 ++ y :: xs2)) + 1 < 2147483647 ->
  wp (My402ListInsertBefore o p)
     (fun r s' => r = TRUE /\ exists n, repr s' (l1 ++ n :: p :: l2) (xs1 ++ o :: y :: xs2)) s.
Proof.
  intros Hrep Hl Hroom. destruct (new_loc_fresh _ _ _ Hrep) as [Hn0 Hn].
  unfold My402ListInsertBefore. run_insert Hrep Hn. split; [done|].
  exists (new_loc s). by eapply (repr_insert s l1 (p :: l2) xs1 (y :: xs2)).
Qed.

(** The heap after [p] is unlinked from between [x] and [y] and freed. *)
Definition freed_links (h : lheap) (x p y : loc) : lheap :=
  mk_lheap (delete p (<[x := y]> (l_next h))) (delete p (<[y := x]> (l_prev h))).

Lemma freed_ring h l1 p l2 x :
  ring h anchor (l1 ++ p :: l2) -> List.last (anchor :: l1) anchor = x ->
  ring (freed_links h x p (hd anchor l2)) anchor (l1 ++ l2).
Proof.
  intros Hr Hx. destruct (ring_remove h anchor l1 p l2 x Hr Hx) as [Hr' _].
  destruct (ring_remove_nodup _ _ _ _ _ Hr) as [Hp _].
  apply (ring_same_except _ _ _ _ [p] Hr'); [|set_solver].
  intros q Hq. simpl. rewrite !lookup_delete_ne, !(lookup_insert_ne _ p); set_solver.
Qed.

Lemma Forall2_delete_other (m : gmap loc Z) n ps xs :
  n ∉ ps -> Forall2 (fun p x => m !! p = Some x) ps xs ->
  Forall2 (fun p x => delete n m !! p = Some x) ps xs.
Proof.
  intros Hn HF. apply Forall2_same_length_lookup_2; [by eapply Forall2_length|].
  intros i p x Hp Hx.
  rewrite lookup_delete_ne; [exact (Forall2_lookup_lr _ _ _ _ _ _ HF Hp Hx)|].
  intros ->. apply Hn. by eapply list_elem_of_lookup_2.
Qed.

(** The two links around an element. *)
Lemma ring_around h l1 p l2 :
  ring h anchor (l1 ++ p :: l2) ->
  exists x, List.last (anchor :: l1) anchor = x /\ x <> p /\ hd anchor l2 <> p /\
    l_next h !! x = Some p /\ l_prev h !! p = Some x /\
    l_next h !! p = Some (hd anchor l2) /\ l_prev h !! hd anchor l2 = Some p.
Proof.
  intros Hr. destruct (ring_remove_nodup _ _ _ _ _ Hr) as [Hp _].
  destruct (ring_edge_lookup h anchor l1 (p :: l2) Hr) as (x & Hxin & Hlast & _ & ? & ?).
  assert (ring h anchor ((l1 ++ [p]) ++ l2)) as Hr2 by by rewrite <- app_assoc.
  destruct (ring_edge_lookup _ _ _ _ Hr2) as (p' & _ & Hlast' & Hyin & ? & ?).
  specialize (Hlast' anchor). rewrite app_comm_cons, last_last in Hlast'. subst p'.
  exists x. split; [apply Hlast|]. set_solver.
Qed.

Lemma unlink_spec s l1 p l2 xs1 y xs2 :
  repr s (l1 ++ p :: l2) (xs1 ++ y :: xs2) -> length l1 = length xs1 ->
  wp (My402ListUnlink p)
     (fun _ s' => repr s' (l1 ++ l2) (xs1 ++ xs2) /\ l_next (m_links s') !! p = None) s.
Proof.
  intros [Hr Ho Hnum Hsm [Ha0 Hnn]] Hl.
  destruct (ring_around _ _ _ _ Hr) as (x & Hx & ? & ? & ? & ? & ? & ?).
  unfold My402ListUnlink, free. repeat mstep. wp_steps. unfold set_num. wp_steps. simpl.
  destruct (ring_remove_nodup _ _ _ _ _ Hr) as [Hp _].
  split; [|by rewrite lookup_delete_eq]. constructor; simpl.
  - by apply freed_ring.
  - apply Forall2_app_inv in Ho as [Ho1 Ho2]; [|done]. inversion Ho2; subst.
    apply Forall2_app; apply Forall2_delete_other; try done; set_solver.
  - rewrite Hnum, !length_app in *. simpl in *. rewrite s32_small; unfold is_s32; lia.
  - rewrite !length_app in *. simpl in *. lia.
  - split; [done|]. set_solver.
Qed.

Lemma unlink_all_loop_spec ps s fuel :
  ring (m_links s) anchor ps -> (length ps < fuel)%nat ->
  wp (unlink_all_loop fuel)
     (fun _ s' => ring (m_links s') anchor [] /\
        (forall p, p ∈ ps \/ l_next (m_links s) !! p = None -> l_next (m_links s') !! p = None)) s.
Proof.
  revert s fuel. induction ps as [|p ps IH]; intros s fuel Hr Hf;
    (destruct fuel as [|fuel]; [simpl in Hf; lia|]); cbn [unlink_all_loop].
  - destruct (ring_edge_lookup _ _ [] [] Hr) as (x & _ & Hx & _ & ? & ?).
    specialize (Hx anchor). simpl in *. subst x.
    mstep. mstep. rewrite bool_decide_true by done. simpl. wp_steps.
    split; [done|]. intros q [Hq|Hq]; [set_solver|done].
  - destruct (ring_around _ [] _ _ Hr) as (x & Hx & ? & ? & ? & ? & ? & ?).
    simpl in Hx. subst x.
    assert (exists w, l_prev (m_links s) !! anchor = Some w) as [w Hw].
    { assert (ring (m_links s) anchor ((p :: ps) ++ [])) as Hr2 by by rewrite app_nil_r.
      destruct (ring_edge_lookup _ _ _ _ Hr2) as (w & _ & _ & _ & _ & Hw). eauto. }
    mstep. mstep. rewrite (bool_decide_false (p = anchor)) by done. simpl.
    repeat mstep. unfold free. wp_steps.
    destruct (ring_remove_nodup _ _ [] _ _ Hr) as [Hp _].
    eapply wp_mono; [|apply IH; [|simpl in Hf; lia]; simpl].
    + simpl. intros ? s' [Hr' Hd]. split; [done|]. intros q Hq. apply Hd.
      destruct (decide (q = p)) as [->|Hqp]; [right; by rewrite lookup_delete_eq|].
      destruct Hq as [Hq|Hq]; [left; set_solver|].
      right. rewrite lookup_delete_ne by done. rewrite lookup_insert_ne by congruence. done.
    + by apply (freed_ring _ [] p ps anchor).
Qed.

Lemma find_step s fuel obj p o n :
  l_next (m_links s) !! anchor = Some n -> n <> anchor ->
  m_obj s !! p = Some o ->
  find_loop (S fuel) obj p s =
    if o =? obj then Ret (p, s)
    else match l_next (m_links s) !! p with
         | Some q => find_loop fuel obj q s
         | None => Stop Undef
         end.
Proof.
  intros Hn Hna Ho. destruct s as [h m num]. simpl in *.
  unfold bind, links, get_next, get_obj. simpl. rewrite Hn. simpl.
  rewrite bool_decide_false by done. simpl. rewrite Ho. simpl.
  destruct (o =? obj); [done|]. by destruct (l_next h !! p) eqn:E; simpl; rewrite E.
Qed.

(** The elements before the first match are skipped. *)
Lemma find_skip s ps xs obj l1 p l2 xs1 x xs2 fuel :
  repr s ps xs -> ps = l1 ++ p :: l2 -> xs = xs1 ++ x :: xs2 -> length l1 = length xs1 ->
  obj ∉ xs1 ->
  find_loop (length l1 + S fuel) obj (hd anchor ps) s = find_loop (S fuel) obj p s.
Proof.
  intros [Hr Ho _ _ _] -> -> Hl Hobj.
  assert (exists n, l_next (m_links s) !! anchor = Some n /\ n <> anchor) as (n & Hn & Hna).
  { exists (hd anchor (l1 ++ p :: l2)). split; [by apply ring_first|].
    destruct Hr as [Hnd _]. apply NoDup_cons in Hnd as [Hnd _].
    intros E. destruct l1 as [|q l1]; simpl in *; subst; set_solver. }
  assert (forall pre, ring (m_links s) anchor (pre ++ l1 ++ p :: l2) ->
    find_loop (length l1 + S fuel) obj (hd anchor (l1 ++ p :: l2)) s = find_loop (S fuel) obj p s)
    as Hgen; [|by apply (Hgen [])].
  clear Hr. revert xs1 Hl Hobj Ho. induction l1 as [|q l1 IH]; intros xs1 Hl Hobj Ho pre Hr; [done|].
  destruct xs1 as [|z xs1]; [done|]. simpl in Ho. inversion Ho; subst.
  cbn [length Nat.add hd app]. erewrite find_step by eauto.
  rewrite (proj2 (Z.eqb_neq z obj)) by set_solver.
  simpl in Hr. rewrite (ring_next_hd _ _ _ _ _ Hr).
  apply (IH xs1) with (pre := pre ++ [q]); [simpl in Hl; lia|set_solver|done|].
  by rewrite <- app_assoc.
Qed.

Lemma first_not_anchor h ps : ring h anchor ps -> ps <> [] -> hd anchor ps <> anchor.
Proof.
  intros [Hnd _] Hne E. apply NoDup_cons in Hnd as [Hnd _].
  destruct ps; simpl in *; subst; set_solver.
Qed.

(** ** Properties *)

(** the four insertions of my402list.c return TRUE and put the object where
    their names say (last, first, right after, right before the given
    element), keeping all the other elements and objects in order and
    [num_members] equal to the number of objects, as long as the [int] count
    has room. *)
Theorem my402_insert_correct s l1 p l2 xs1 y xs2 o :
  repr s (l1 ++ p :: l2) (xs1 ++ y :: xs2) -> length l1 = length xs1 ->
  Z.of_nat (length (xs1 ++ y :: xs2)) + 1 < 2147483647 ->
  wp (My402ListAppend o) (fun r s' => r = TRUE /\
    exists n, repr s' ((l1 ++ p :: l2) ++ [n]) ((xs1 ++ y :: xs2) ++ [o])) s /\
  wp (My402ListPrepend o) (fun r s' => r = TRUE /\
    exists n, repr s' (n :: l1 ++ p :: l2) (o :: xs1 ++ y :: xs2)) s /\
  wp (My402ListInsertAfter o p) (fun r s' => r = TRUE /\
    exists n, repr s' (l1 ++ p :: n :: l2) (xs1 ++ y :: o :: xs2)) s /\
  wp (My402ListInsertBefore o p) (fun r s' => r = TRUE /\
    exists n, repr s' (l1 ++ n :: p :: l2) (xs1 ++ o :: y :: xs2)) s.
Proof.
  intros Hrep Hl Hroom. split; [by apply append_spec|]. split; [by apply prepend_spec|].
  split; [by apply insert_after_spec|by apply insert_before_spec].
Qed.

(** [My402ListUnlink] removes exactly the given element and frees it;
    [My402ListUnlinkAll] terminates (one iteration per element), frees every
    element, and leaves an empty list of length 0. *)
Theorem my402_unlink_correct s l1 p l2 xs1 y xs2 fuel :
  repr s (l1 ++ p :: l2) (xs1 ++ y :: xs2) -> length l1 = length xs1 ->
  (length (l1 ++ p :: l2) < fuel)%nat ->
  wp (My402ListUnlink p)
     (fun _ s' => repr s' (l1 ++ l2) (xs1 ++ xs2) /\ l_next (m_links s') !! p = None) s /\
  wp (My402ListUnlinkAll fuel)
     (fun _ s' => repr s' [] [] /\
        Forall (fun q => l_next (m_links s') !! q = None) (l1 ++ p :: l2)) s.
Proof.
  intros Hrep Hl Hf. split; [by eapply unlink_spec|].
  unfold My402ListUnlinkAll. wp_steps.
  eapply wp_mono; [|apply unlink_all_loop_spec; [apply Hrep|done]].
  simpl. intros ? s' [Hr Hd]. unfold set_num. wp_steps. split.
  - destruct Hrep as [_ _ _ _ [? _]]. by constructor; [| | |simpl|split; [|set_solver]].
  - apply Forall_forall. intros q Hq. apply Hd. by left.
Qed.

(** [My402ListFind] of an object that is on the list returns its first
    element and changes nothing, provided the anchor's own (never written)
    [obj] field does not happen to equal the object. *)
Theorem my402_find_present s l1 p l2 xs1 obj xs2 g fuel :
  repr s (l1 ++ p :: l2) (xs1 ++ obj :: xs2) -> length l1 = length xs1 ->
  obj ∉ xs1 -> m_obj s !! anchor = Some g -> g <> obj ->
  (length l1 + 1 < fuel)%nat ->
  My402ListFind fuel obj s = Ret (p, s).
Proof.
  intros Hrep Hl Hobj Hg Hgo Hf.
  destruct fuel as [|fuel]; [lia|]. unfold My402ListFind.
  pose proof (repr_ring _ _ _ Hrep) as Hr.
  assert (hd anchor (l1 ++ p :: l2) <> anchor) by (eapply first_not_anchor; [done|by destruct l1]).
  erewrite find_step by (try done; by apply ring_first).
  rewrite (proj2 (Z.eqb_neq g obj)) by done. rewrite (ring_first _ _ _ Hr).
  replace fuel with (length l1 + S (fuel - length l1 - 1))%nat by lia.
  rewrite (find_skip s _ _ obj l1 p l2 xs1 obj xs2) by done.
  assert (m_obj s !! p = Some obj) as Hp.
  { destruct Hrep as [_ Ho _ _ _]. apply Forall2_app_inv in Ho as [_ Ho]; [|done].
    by inversion Ho. }
  erewrite find_step by (try done; by apply ring_first). by rewrite Z.eqb_refl.
Qed.

(** [My402ListFind] of an object that is not on a non-empty list never
    returns: the loop tests [anchor.next] instead of the current element and
    walks around the ring for ever, whatever the number of iterations. *)
Theorem my402_find_missing_diverges s ps xs g obj fuel :
  repr s ps xs -> ps <> [] -> m_obj s !! anchor = Some g -> g <> obj -> obj ∉ xs ->
  My402ListFind fuel obj s = Stop Diverge.
Proof.
  intros Hrep Hne Hg Hgo Hobj. unfold My402ListFind.
  pose proof (repr_ring _ _ _ Hrep) as Hr. pose proof (repr_obj _ _ _ Hrep) as Ho.
  pose proof (first_not_anchor _ _ Hr Hne) as Hna.
  enough (forall q, q ∈ anchor :: ps -> find_loop fuel obj q s = Stop Diverge) as Hall
    by (apply Hall; set_solver).
  induction fuel as [|fuel IH]; intros q Hq; [done|].
  assert (exists o t, m_obj s !! q = Some o /\ o <> obj /\
                      l_next (m_links s) !! q = Some t /\ t ∈ anchor :: ps)
    as (o & t & Hqo & Hoo & Hqt & Ht).
  { apply elem_of_cons in Hq as [->|Hq].
    - exists g, (hd anchor ps). split; [done|]. split; [done|].
      split; [by apply ring_first|]. destruct ps; set_solver.
    - apply list_elem_of_lookup in Hq as [i Hi].
      destruct (Forall2_lookup_l _ _ _ _ _ Ho Hi) as (o & Ho1 & Ho2).
      exists o. apply list_elem_of_lookup_2 in Hi as Hin.
      apply list_elem_of_split in Hin as (l1 & l2 & ->).
      exists (hd anchor l2). split; [done|]. apply list_elem_of_lookup_2 in Ho1.
      split; [by intros ->|]. split; [by eapply ring_next_hd|]. destruct l2; set_solver. }
  erewrite find_step by (try done; by apply ring_first).
  rewrite (proj2 (Z.eqb_neq o obj)) by done. rewrite Hqt. by apply IH.
Qed.
End my402.

(** Witnesses: the list at anchor 1 holding the objects 7 and 8. *)
Definition demo_list : mylist :=
  mk_mylist (mk_lheap (list_to_map [(1, 10); (10, 20); (20, 1)])
                      (list_to_map [(1, 20); (10, 1); (20, 10)]))
            (list_to_map [(1, 0); (10, 7); (20, 8)]) 2.

Lemma demo_repr : repr 1 demo_list [10; 20] [7; 8].
Proof.
  constructor.
  - split; [apply (bool_decide_unpack _); vm_compute; exact I|vm_compute; tauto].
  - repeat constructor.
  - done.
  - done.
  - split; [done|]. apply (bool_decide_unpack _). vm_compute. exact I.
Qed.

Lemma my402_insert_correct_witness :
  wp (My402ListInsertAfter 1 9 10) (fun _ s' => exists n, repr 1 s' [10; n; 20] [7; 9; 8]) demo_list.
Proof.
  destruct (my402_insert_correct 1 demo_list [] 10 [20] [] 7 [8] 9 demo_repr eq_refl eq_refl)
    as (_ & _ & H & _).
  eapply wp_mono; [|exact H]. by intros ? s' [_ ?].
Defined.

Lemma my402_unlink_correct_witness :
  wp (My402ListUnlinkAll 1 3) (fun _ s' => repr 1 s' [] []) demo_list.
Proof.
  assert (length ([10] ++ [20]) < 3)%nat as Hf by (simpl; lia).
  destruct (my402_unlink_correct 1 demo_list [10] 20 [] [7] 8 [] 3 demo_repr eq_refl Hf) as [_ H].
  eapply wp_mono; [|exact H]. by intros ? s' [? _].
Defined.

Lemma my402_find_present_witness : My402ListFind 1 3 8 demo_list = Ret (20, demo_list).
Proof.
  apply (my402_find_present 1 demo_list [10] 20 [] [7] 8 [] 0 3);
    [apply demo_repr|done|apply (bool_decide_unpack _); vm_compute; exact I|done|done|simpl; lia].
Defined.

Lemma my402_find_missing_diverges_witness : My402ListFind 1 1000 9 demo_list = Stop Diverge.
Proof.
  apply (my402_find_missing_diverges 1 demo_list [10; 20] [7; 8] 0 9 1000);
    [apply demo_repr|done|done|done|apply (bool_decide_unpack _); vm_compute; exact I].
Defined.
