(* ===== verification/Sched.v ===== *)
(** * Kernel threads and the scheduler

    Models proc/sched.c and the context switch of proc/context.c, with the
    thread record of include/proc/kthread.h.

    A thread and a queue are named by their addresses.  A [ktqueue_t] is the
    sequence of the threads linked on its [tq_list], head first (that the
    macros of util/list.h keep such a sequence is proved in DList.v), together
    with its own counter [tq_size].  [kt_qlink] is the list the thread's link
    is on, [None] when the link is null; nothing forces it to agree with
    [kt_wchan], that is the invariant.

    A call that blocks is modelled up to and including the context switch:
    its final state is the one in which the thread taken off the run queue
    runs, and its value is what the call gives to its caller when the caller
    runs again.  The stack of a thread that is not running holds the interrupt
    level it restores when it is resumed, here [kt_ipl]. *)

From S2P Require Import Prelude.

(** ** Data *)

Inductive kt_states : Type :=
| KT_NO_STATE
| KT_RUN
| KT_SLEEP
| KT_SLEEP_CANCELLABLE
| KT_EXITED.

#[export] Instance kt_states_eq_dec : EqDecision kt_states.
Proof. solve_decision. Defined.

Abbreviation tid := Z (only parsing).
Abbreviation qid := Z (only parsing).

Record kthread : Type := MkThread {
  kt_state : kt_states;
  kt_cancelled : Z;
  kt_wchan : option qid;
  kt_qlink : option qid;
  kt_retval : Z;
  kt_errno : Z;
  kt_proc : Z;
  kt_kstack : Z;
  kt_ipl : Z
}.

Record ktqueue : Type := MkQueue {
  tq_list : list tid;
  tq_size : Z
}.

Record sys : Type := MkSys {
  threads : gmap tid kthread;
  queues : gmap qid ktqueue;
  curthr : tid;
  curproc : Z;
  ipl : Z;
  intr_on : bool
}.

Definition kt_runq : qid := 0.
Definition PID_IDLE : Z := 0.
Definition IPL_LOW : Z := 0.
Definition IPL_HIGH : Z := 255.

Definition set_threads (f : gmap tid kthread -> gmap tid kthread) (s : sys) : sys :=
  MkSys (f (threads s)) (queues s) (curthr s) (curproc s) (ipl s) (intr_on s).
Definition set_queues (f : gmap qid ktqueue -> gmap qid ktqueue) (s : sys) : sys :=
  MkSys (threads s) (f (queues s)) (curthr s) (curproc s) (ipl s) (intr_on s).
Definition set_cur (t : tid) (p : Z) (s : sys) : sys :=
  MkSys (threads s) (queues s) t p (ipl s) (intr_on s).
Definition set_ipl (i : Z) (s : sys) : sys :=
  MkSys (threads s) (queues s) (curthr s) (curproc s) i (intr_on s).
Definition set_intr (b : bool) (s : sys) : sys :=
  MkSys (threads s) (queues s) (curthr s) (curproc s) (ipl s) b.

Definition with_state (x : kt_states) (T : kthread) : kthread :=
  MkThread x (kt_cancelled T) (kt_wchan T) (kt_qlink T) (kt_retval T) (kt_errno T)
    (kt_proc T) (kt_kstack T) (kt_ipl T).
Definition with_cancelled (x : Z) (T : kthread) : kthread :=
  MkThread (kt_state T) x (kt_wchan T) (kt_qlink T) (kt_retval T) (kt_errno T)
    (kt_proc T) (kt_kstack T) (kt_ipl T).
Definition with_wchan (x : option qid) (T : kthread) : kthread :=
  MkThread (kt_state T) (kt_cancelled T) x (kt_qlink T) (kt_retval T) (kt_errno T)
    (kt_proc T) (kt_kstack T) (kt_ipl T).
Definition with_qlink (x : option qid) (T : kthread) : kthread :=
  MkThread (kt_state T) (kt_cancelled T) (kt_wchan T) x (kt_retval T) (kt_errno T)
    (kt_proc T) (kt_kstack T) (kt_ipl T).
Definition with_retval (x : Z) (T : kthread) : kthread :=
  MkThread (kt_state T) (kt_cancelled T) (kt_wchan T) (kt_qlink T) x (kt_errno T)
    (kt_proc T) (kt_kstack T) (kt_ipl T).
Definition with_kstack (x : Z) (T : kthread) : kthread :=
  MkThread (kt_state T) (kt_cancelled T) (kt_wchan T) (kt_qlink T) (kt_retval T) (kt_errno T)
    (kt_proc T) x (kt_ipl T).
Definition with_ipl (x : Z) (T : kthread) : kthread :=
  MkThread (kt_state T) (kt_cancelled T) (kt_wchan T) (kt_qlink T) (kt_retval T) (kt_errno T)
    (kt_proc T) (kt_kstack T) x.

(** Field accesses through a pointer. *)
Definition thr_get (t : tid) : M sys kthread :=
  let! o := gets (fun s => threads s !! t) in deref o.
Definition thr_set (t : tid) (f : kthread -> kthread) : M sys unit :=
  let! T := thr_get t in modify (set_threads <[t := f T]>).
Definition q_get (q : qid) : M sys ktqueue :=
  let! o := gets (fun s => queues s !! q) in deref o.
Definition q_set (q : qid) (f : ktqueue -> ktqueue) : M sys unit :=
  let! Q := q_get q in modify (set_queues <[q := f Q]>).
Definition q_list (f : list tid -> list tid) (Q : ktqueue) : ktqueue :=
  MkQueue (f (tq_list Q)) (tq_size Q).
Definition q_size (d : Z) (Q : ktqueue) : ktqueue :=
  MkQueue (tq_list Q) (tq_size Q + d).

(** [list_insert_head(&q->tq_list, &thr->kt_qlink)]. *)
Definition qlink_insert_head (q : qid) (t : tid) : M sys unit :=
  q_set q (q_list (cons t)) ;;;
  thr_set t (with_qlink (Some q)).

(** [list_remove(&thr->kt_qlink)]: undefined on a link that is null. *)
Definition qlink_remove (t : tid) : M sys unit :=
  let! T := thr_get t in
  let! q := deref (kt_qlink T) in
  q_set q (q_list (filter (fun u => u <> t))) ;;;
  thr_set t (with_qlink None).

(** ** The private queue functions *)

Definition ktqueue_enqueue (q : qid) (t : tid) : M sys unit :=
  let! T := thr_get t in
  KASSERT (bool_decide (kt_wchan T = None)) ;;;
  qlink_insert_head q t ;;;
  thr_set t (with_wchan (Some q)) ;;;
  q_set q (q_size 1).

Definition ktqueue_dequeue (q : qid) : M sys (option tid) :=
  let! Q := q_get q in
  match last (tq_list Q) with
  | None => ret None
  | Some t =>
      qlink_remove t ;;;
      thr_set t (with_wchan None) ;;;
      q_set q (q_size (-1)) ;;;
      ret (Some t)
  end.

(** The queue is [thr->kt_wchan] at the only call, so it may be null. *)
Definition ktqueue_remove (oq : option qid) (t : tid) : M sys unit :=
  let! T := thr_get t in
  KASSERT (bool_decide (is_Some (kt_qlink T))) ;;;
  qlink_remove t ;;;
  thr_set t (with_wchan None) ;;;
  let! q := deref oq in
  q_set q (q_size (-1)).

(** ** The public functions *)

Definition sched_queue_init (q : qid) : M sys unit :=
  modify (set_queues <[q := MkQueue [] 0]>).

Definition sched_init : M sys unit := sched_queue_init kt_runq.

Definition sched_queue_empty (q : qid) : M sys bool :=
  let! Q := q_get q in ret (match tq_list Q with [] => true | _ => false end).

Definition intr_getipl : M sys Z := gets ipl.
Definition intr_setipl (i : Z) : M sys unit := modify (set_ipl i).
Definition intr_disable : M sys unit := modify (set_intr false).

Definition sched_make_runnable (t : tid) : M sys unit :=
  let! T := thr_get t in
  KASSERT (bool_decide (kt_wchan T <> Some kt_runq)) ;;;
  let! oldipl := intr_getipl in
  intr_setipl IPL_HIGH ;;;
  thr_set t (with_state KT_RUN) ;;;
  (if kt_proc T =? PID_IDLE then ret tt else ktqueue_enqueue kt_runq t) ;;;
  intr_setipl oldipl.

Definition sched_wakeup_on (q : qid) : M sys (option tid) :=
  let! o := ktqueue_dequeue q in
  match o with
  | None => ret None
  | Some t =>
      let! T := thr_get t in
      KASSERT (bool_decide (kt_state T = KT_SLEEP) || bool_decide (kt_state T = KT_SLEEP_CANCELLABLE)) ;;;
      thr_set t (with_state KT_RUN) ;;;
      ktqueue_enqueue kt_runq t ;;;
      ret (Some t)
  end.

(** [while (q->tq_size > 0)]; each round takes one thread off [q]. *)
Fixpoint broadcast_loop (fuel : nat) (q : qid) : M sys unit :=
  let! Q := q_get q in
  if 0 <? tq_size Q then
    match fuel with
    | O => stop Diverge
    | S fuel' =>
        let! o := ktqueue_dequeue q in
        let! t := deref o in
        thr_set t (with_state KT_RUN) ;;;
        ktqueue_enqueue kt_runq t ;;;
        broadcast_loop fuel' q
    end
  else ret tt.

Definition sched_broadcast_on (q : qid) : M sys unit :=
  let! Q := q_get q in broadcast_loop (Z.to_nat (tq_size Q)) q.

Definition sched_cancel (t : tid) : M sys unit :=
  thr_set t (with_cancelled 1) ;;;
  let! T := thr_get t in
  if bool_decide (kt_state T = KT_SLEEP_CANCELLABLE) || bool_decide (kt_state T = KT_EXITED)
     || bool_decide (kt_state T = KT_NO_STATE)
  then ktqueue_remove (kt_wchan T) t ;;; sched_make_runnable t
  else ret tt.

(** What the handler of an interrupt does to the scheduler: a device driver
    wakes one sleeper (tty, disk), wakes all of them, or does not touch it. *)
Inductive intr : Type :=
| IWakeup (q : qid)
| IBroadcast (q : qid)
| INone.

Definition intr_handle (e : intr) : M sys unit :=
  match e with
  | IWakeup q => sched_wakeup_on q ;;; ret tt
  | IBroadcast q => sched_broadcast_on q
  | INone => ret tt
  end.

(** [intr_wait] enables interrupts, halts, and the handler of the next
    interrupt runs. *)
Definition intr_wait (e : intr) : M sys unit :=
  modify (set_intr true) ;;; intr_handle e.

(** The [while] loop of [sched_switch], one interrupt of [evs] for each
    iteration; with no further interrupt it waits for ever. *)
Fixpoint wait_runq (evs : list intr) : M sys unit :=
  let! Q := q_get kt_runq in
  if tq_size Q =? 0 then
    intr_disable ;;;
    intr_setipl IPL_LOW ;;;
    match evs with
    | [] => stop Diverge
    | e :: evs' =>
        intr_wait e ;;;
        intr_setipl IPL_HIGH ;;;
        wait_runq evs'
    end
  else ret tt.

(** [context_switch] resumes the new thread after its own call of
    [sched_switch], whose last action is [intr_setipl(oldipl)]; a thread that
    has not run yet starts in [__context_initial_func] at [IPL_LOW]. *)
Definition context_switch (old new : tid) : M sys unit :=
  let! T := thr_get new in
  intr_setipl (kt_ipl T).

Definition sched_switch (evs : list intr) : M sys unit :=
  let! oldipl := intr_getipl in
  let! me := gets curthr in
  thr_set me (with_ipl oldipl) ;;;
  intr_setipl IPL_HIGH ;;;
  wait_runq evs ;;;
  let! oldthr := gets curthr in
  let! o := ktqueue_dequeue kt_runq in
  let! t := deref o in
  let! T := thr_get t in
  modify (set_cur t (kt_proc T)) ;;;
  thr_set t (with_state KT_RUN) ;;;
  context_switch oldthr t.

Definition sched_sleep_on (evs : list intr) (q : qid) : M sys unit :=
  let! me := gets curthr in
  thr_set me (with_state KT_SLEEP) ;;;
  ktqueue_enqueue q me ;;;
  sched_switch evs.

Definition sched_cancellable_sleep_on (evs : list intr) (q : qid) : M sys Z :=
  let! me := gets curthr in
  let! T := thr_get me in
  if kt_cancelled T =? 1 then ret (- EINTR)
  else
    thr_set me (with_wchan None) ;;;
    thr_set me (with_state KT_SLEEP_CANCELLABLE) ;;;
    ktqueue_enqueue q me ;;;
    sched_switch evs ;;;
    ret 0.

(** ** Invariant *)

Definition state_ok (T : kthread) : Prop :=
  match kt_wchan T with
  | Some q => if decide (q = kt_runq) then kt_state T = KT_RUN
              else kt_state T = KT_SLEEP \/ kt_state T = KT_SLEEP_CANCELLABLE
  | None => kt_state T <> KT_SLEEP /\ kt_state T <> KT_SLEEP_CANCELLABLE
  end.

(** Queues and threads agree: a counter counts its list, a list holds no
    thread twice, and a thread is on exactly the queue its [kt_wchan] names. *)
Record qwf (s : sys) : Prop := {
  qwf_runq : is_Some (queues s !! kt_runq);
  qwf_size : forall q Q, queues s !! q = Some Q ->
    tq_size Q = Z.of_nat (length (tq_list Q)) /\ NoDup (tq_list Q);
  qwf_mem : forall q Q t, queues s !! q = Some Q -> t ∈ tq_list Q ->
    exists T, threads s !! t = Some T /\ kt_wchan T = Some q;
  qwf_on : forall t T q, threads s !! t = Some T -> kt_wchan T = Some q ->
    exists Q, queues s !! q = Some Q /\ t ∈ tq_list Q;
  qwf_link : forall t T, threads s !! t = Some T -> kt_qlink T = kt_wchan T
}.

Definition swf (s : sys) : Prop :=
  qwf s /\ forall t T, threads s !! t = Some T -> state_ok T.

(** The running thread exists, is on no queue and belongs to [curproc]. *)
Definition cur_ok (s : sys) : Prop :=
  exists T, threads s !! curthr s = Some T /\ kt_wchan T = None /\
    kt_state T = KT_RUN /\ kt_proc T = curproc s.

Definition wf (s : sys) : Prop := swf s /\ cur_ok s.

(** The threads the scheduler will run again without further help: the running
    one and those on a queue. *)
Definition tracked (s : sys) (t : tid) : Prop :=
  t = curthr s \/ exists T q, threads s !! t = Some T /\ kt_wchan T = Some q.

(** ** Closed forms of the queue operations *)

Section closed_forms.
Implicit Types s : sys.

Lemma wp_thr_get t Q s :
  wp (thr_get t) Q s <-> exists T, threads s !! t = Some T /\ Q T s.
Proof. unfold thr_get. by wp_steps. Qed.

Lemma wp_thr_set t f Q s :
  wp (thr_set t f) Q s <->
  exists T, threads s !! t = Some T /\ Q tt (set_threads <[t := f T]> s).
Proof. unfold thr_set. wp_step. rewrite wp_thr_get. by setoid_rewrite wp_modify. Qed.

Lemma wp_q_get q P s : wp (q_get q) P s <-> exists Q, queues s !! q = Some Q /\ P Q s.
Proof. unfold q_get. by wp_steps. Qed.

Lemma thr_get_eq t T s : threads s !! t = Some T -> thr_get t s = Ret (T, s).
Proof. unfold thr_get, bind, gets. simpl. by intros ->. Qed.

Lemma q_get_eq q Q s : queues s !! q = Some Q -> q_get q s = Ret (Q, s).
Proof. unfold q_get, bind, gets. simpl. by intros ->. Qed.

Lemma thr_set_eq t T f s : threads s !! t = Some T ->
  thr_set t f s = Ret (tt, set_threads <[t := f T]> s).
Proof. intros H. unfold thr_set, bind. by rewrite (thr_get_eq _ _ _ H). Qed.

Lemma q_set_eq q Q f s : queues s !! q = Some Q ->
  q_set q f s = Ret (tt, set_queues <[q := f Q]> s).
Proof. intros H. unfold q_set, bind. by rewrite (q_get_eq _ _ _ H). Qed.
End closed_forms.

(** The effect of putting a thread on a queue and of taking it off. *)
Definition enq (q : qid) (t : tid) (s : sys) : sys :=
  set_queues (alter (fun Q => MkQueue (t :: tq_list Q) (tq_size Q + 1)) q)
    (set_threads (alter (fun T => with_wchan (Some q) (with_qlink (Some q) T)) t) s).

Definition deq (q : qid) (t : tid) (s : sys) : sys :=
  set_queues (alter (fun Q => MkQueue (filter (fun u => u <> t) (tq_list Q)) (tq_size Q + -1)) q)
    (set_threads (alter (fun T => with_wchan None (with_qlink None T)) t) s).

(** The thread leaves [q] and becomes the last of the run queue to run. *)
Definition wake (q : qid) (t : tid) (s : sys) : sys :=
  enq kt_runq t (set_threads (alter (with_state KT_RUN) t) (deq q t s)).

Lemma set_threads_twice f g s : set_threads f (set_threads g s) = set_threads (f ∘ g) s.
Proof. done. Qed.

Lemma set_queues_twice f g s : set_queues f (set_queues g s) = set_queues (f ∘ g) s.
Proof. done. Qed.

Lemma insert_alter {V} (m : gmap Z V) (k : Z) (v : V) (f : V -> V) :
  m !! k = Some v -> <[k := f v]> m = alter f k m.
Proof. intros H. apply map_eq. intros j. destruct (decide (j = k)) as [->|]; by simplify_map_eq. Qed.

Lemma sys_ext s s' :
  threads s = threads s' -> queues s = queues s' -> curthr s = curthr s' ->
  curproc s = curproc s' -> ipl s = ipl s' -> intr_on s = intr_on s' -> s = s'.
Proof. destruct s, s'. simpl. by intros -> -> -> -> -> ->. Qed.

Ltac sys_solve :=
  apply sys_ext; simpl; try done; apply map_eq; intros k;
  match goal with
  | |- context [<[?j := _]> _ !! k] => destruct (decide (k = j)) as [->|]
  | |- context [alter _ ?j _ !! k] => destruct (decide (k = j)) as [->|]
  end; by simplify_map_eq.

(** Symbolic execution: accesses whose target is known, known branches. *)
Ltac known := solve [ unfold enq, deq; simpl; simplify_map_eq; eauto ].
Ltac exec1 :=
  first [ rewrite bind_bind | rewrite bind_ret | rewrite bind_gets | rewrite bind_modify
        | rewrite bind_deref
        | erewrite bind_eq by (first [ apply thr_get_eq | apply thr_set_eq
                                     | apply q_get_eq | apply q_set_eq ]; known)
        | erewrite thr_get_eq by known | erewrite thr_set_eq by known
        | erewrite q_get_eq by known | erewrite q_set_eq by known ]; cbv beta iota.
Ltac exec := cbv beta iota; repeat exec1.

Lemma ktqueue_enqueue_eq q t T Q s :
  threads s !! t = Some T -> kt_wchan T = None -> queues s !! q = Some Q ->
  ktqueue_enqueue q t s = Ret (tt, enq q t s).
Proof.
  intros HT Hw HQ. unfold ktqueue_enqueue, qlink_insert_head. exec.
  rewrite bind_assert by (by apply bool_decide_eq_true_2). exec.
  do 2 f_equal. unfold enq. sys_solve.
Qed.

Lemma qlink_remove_eq q t T Q s :
  threads s !! t = Some T -> kt_qlink T = Some q -> queues s !! q = Some Q ->
  qlink_remove t s =
  Ret (tt, set_queues (alter (q_list (filter (fun u => u <> t))) q)
             (set_threads (alter (with_qlink None) t) s)).
Proof.
  intros HT Hl HQ. unfold qlink_remove. exec. rewrite Hl. exec.
  do 2 f_equal. sys_solve.
Qed.

Lemma ktqueue_remove_eq q t T Q s :
  threads s !! t = Some T -> kt_qlink T = Some q -> queues s !! q = Some Q ->
  ktqueue_remove (Some q) t s = Ret (tt, deq q t s).
Proof.
  intros HT Hl HQ. unfold ktqueue_remove. exec.
  rewrite bind_assert by (apply bool_decide_eq_true_2; rewrite Hl; eauto).
  erewrite bind_eq by (eapply qlink_remove_eq; eauto). exec.
  do 2 f_equal. unfold deq. sys_solve.
Qed.

Lemma ktqueue_dequeue_eq q t T Q s :
  queues s !! q = Some Q -> last (tq_list Q) = Some t ->
  threads s !! t = Some T -> kt_qlink T = Some q ->
  ktqueue_dequeue q s = Ret (Some t, deq q t s).
Proof.
  intros HQ Hlast HT Hl. unfold ktqueue_dequeue. exec. rewrite Hlast.
  erewrite bind_eq by (eapply qlink_remove_eq; eauto). exec.
  unfold ret. do 2 f_equal. unfold deq. sys_solve.
Qed.

Lemma ktqueue_dequeue_nil q n s :
  queues s !! q = Some (MkQueue [] n) -> ktqueue_dequeue q s = Ret (None, s).
Proof. intros HQ. unfold ktqueue_dequeue. by exec. Qed.

(** ** Preservation of the invariant *)

Lemma qwf_enq q t T Q s :
  qwf s -> threads s !! t = Some T -> kt_wchan T = None -> queues s !! q = Some Q ->
  qwf (enq q t s).
Proof.
  intros [Hr Hs Hm Ho Hl] HT Hw HQ.
  assert (Hnot : t ∉ tq_list Q).
  { intros Hin. destruct (Hm _ _ _ HQ Hin) as (T' & ? & ?). naive_solver. }
  split; simpl.
  - destruct (decide (q = kt_runq)) as [->|?]; simplify_map_eq; eauto.
  - intros q' Q' H. destruct (decide (q' = q)) as [->|?]; simplify_map_eq; [|eauto].
    destruct (Hs _ _ HQ). split; [lia|]. by constructor.
  - intros q' Q' u H Hin. destruct (decide (q' = q)) as [->|?]; simplify_map_eq.
    + destruct (decide (u = t)) as [->|?]; simplify_map_eq; [eauto|].
      apply elem_of_cons in Hin as [?|Hin]; [done|]. eauto.
    + destruct (decide (u = t)) as [->|?]; simplify_map_eq; [|eauto].
      destruct (Hm _ _ _ H Hin) as (T' & ? & ?). naive_solver.
  - intros u U q' H Hu. destruct (decide (u = t)) as [->|?]; simplify_map_eq.
    + eexists. split; [reflexivity|]. set_solver.
    + destruct (Ho _ _ _ H Hu) as (Q' & HQ' & Hin).
      destruct (decide (q' = q)) as [->|?]; simplify_map_eq; [|eauto].
      eexists. split; [reflexivity|]. set_solver.
  - intros u U H. destruct (decide (u = t)) as [->|?]; simplify_map_eq; eauto.
Qed.

Lemma qwf_deq q t T s :
  qwf s -> threads s !! t = Some T -> kt_wchan T = Some q -> qwf (deq q t s).
Proof.
  intros [Hr Hs Hm Ho Hl] HT Hw. destruct (Ho _ _ _ HT Hw) as (Q & HQ & Hin).
  split; simpl.
  - destruct (decide (q = kt_runq)) as [->|?]; simplify_map_eq; eauto.
  - intros q' Q' H. destruct (decide (q' = q)) as [->|?]; simplify_map_eq; [|eauto].
    destruct (Hs _ _ HQ). split; [|by apply NoDup_filter].
    pose proof (length_filter_ne (tq_list Q) t). naive_solver lia.
  - intros q' Q' u H Hu. destruct (decide (q' = q)) as [->|?]; simplify_map_eq.
    + apply list_elem_of_filter in Hu as [Hne Hu]. simplify_map_eq. eauto.
    + destruct (decide (u = t)) as [->|?]; simplify_map_eq; [|eauto].
      destruct (Hm _ _ _ H Hu) as (T' & ? & ?). naive_solver.
  - intros u U q' H Hu. destruct (decide (u = t)) as [->|?]; simplify_map_eq.
    destruct (Ho _ _ _ H Hu) as (Q' & HQ' & Hin').
    destruct (decide (q' = q)) as [->|?]; simplify_map_eq; [|eauto].
    eexists. split; [reflexivity|]. simpl. by apply list_elem_of_filter.
  - intros u U H. destruct (decide (u = t)) as [->|?]; simplify_map_eq; eauto.
Qed.

(** Updates of a thread that leave its queue fields alone. *)
Lemma qwf_thr (f : kthread -> kthread) t s :
  (forall T, kt_wchan (f T) = kt_wchan T) -> (forall T, kt_qlink (f T) = kt_qlink T) ->
  qwf s -> qwf (set_threads (alter f t) s).
Proof.
  intros Hf1 Hf2 [Hr Hs Hm Ho Hl]. split; simpl; eauto.
  - intros q Q u H Hin. destruct (Hm _ _ _ H Hin) as (U & ? & ?).
    destruct (decide (u = t)) as [->|?]; simplify_map_eq; eauto.
    eexists. split; [reflexivity|]. by rewrite Hf1.
  - intros u U q. rewrite lookup_alter_Some. intros [(<- & T & HT & ->)|[? ?]] Hq; [|eauto].
    rewrite Hf1 in Hq. eauto.
  - intros u U. rewrite lookup_alter_Some. intros [(_ & T & HT & ->)|[? ?]]; [|eauto].
    rewrite Hf1, Hf2. eauto.
Qed.

Lemma qwf_cur t p s : qwf s -> qwf (set_cur t p s).
Proof. by intros [? ? ? ? ?]; split. Qed.
Lemma qwf_ipl i s : qwf s -> qwf (set_ipl i s).
Proof. by intros [? ? ? ? ?]; split. Qed.
Lemma qwf_intr b s : qwf s -> qwf (set_intr b s).
Proof. by intros [? ? ? ? ?]; split. Qed.
#[export] Hint Resolve qwf_cur qwf_ipl qwf_intr : weenix.

Lemma swf_ipl i s : swf s -> swf (set_ipl i s).
Proof. intros [? ?]. split; auto with weenix. Qed.
Lemma swf_intr b s : swf s -> swf (set_intr b s).
Proof. intros [? ?]. split; auto with weenix. Qed.
#[export] Hint Resolve swf_ipl swf_intr : weenix.

(** Updates that touch neither the queue fields nor the state. *)
Lemma swf_thr (f : kthread -> kthread) t s :
  (forall T, kt_wchan (f T) = kt_wchan T) -> (forall T, kt_qlink (f T) = kt_qlink T) ->
  (forall T, kt_state (f T) = kt_state T) ->
  swf s -> swf (set_threads (alter f t) s).
Proof.
  intros H1 H2 H3 [Hq Hs]. split; [by apply qwf_thr|]. simpl. intros u U.
  rewrite lookup_alter_Some. intros [(_ & T & HT & ->)|[? ?]]; [|eauto].
  unfold state_ok. rewrite H1, H3. by apply (Hs u T).
Qed.

Lemma wake_lookup_ne q t u s : u <> t -> threads (wake q t s) !! u = threads s !! u.
Proof. intros. unfold wake, enq, deq. simpl. by simplify_map_eq. Qed.

(** A woken thread: runnable, on the run queue, everything else as it was. *)
Definition run_thr (T : kthread) : kthread :=
  MkThread KT_RUN (kt_cancelled T) (Some kt_runq) (Some kt_runq) (kt_retval T) (kt_errno T)
    (kt_proc T) (kt_kstack T) (kt_ipl T).

Lemma wake_lookup q t T s :
  threads s !! t = Some T -> threads (wake q t s) !! t = Some (run_thr T).
Proof. intros. unfold wake, enq, deq. simpl. by simplify_map_eq. Qed.

Lemma wake_queue_ne q t q' s :
  q' <> q -> q' <> kt_runq -> queues (wake q t s) !! q' = queues s !! q'.
Proof. intros. unfold wake, enq, deq. simpl. by simplify_map_eq. Qed.

Lemma wake_queue q t Q s :
  q <> kt_runq -> queues s !! q = Some Q ->
  queues (wake q t s) !! q =
  Some (MkQueue (filter (fun u => u <> t) (tq_list Q)) (tq_size Q + -1)).
Proof. intros. unfold wake, enq, deq. simpl. by simplify_map_eq. Qed.

Lemma wake_runq q t R s :
  q <> kt_runq -> queues s !! kt_runq = Some R ->
  queues (wake q t s) !! kt_runq = Some (MkQueue (t :: tq_list R) (tq_size R + 1)).
Proof. intros. unfold wake, enq, deq. simpl. by simplify_map_eq. Qed.

Lemma qwf_wake q t T s :
  qwf s -> q <> kt_runq -> threads s !! t = Some T -> kt_wchan T = Some q -> qwf (wake q t s).
Proof.
  intros Hq Hne HT Hw. destruct (qwf_runq _ Hq) as [R HR].
  eapply qwf_enq with (T := with_state KT_RUN (with_wchan None (with_qlink None T))) (Q := R).
  - apply qwf_thr; [done|done|]. by eapply qwf_deq.
  - simpl. by simplify_map_eq.
  - done.
  - simpl. by simplify_map_eq.
Qed.

Lemma swf_wake q t T s :
  swf s -> q <> kt_runq -> threads s !! t = Some T -> kt_wchan T = Some q -> swf (wake q t s).
Proof.
  intros [Hq Hs] Hne HT Hw. split; [by eapply qwf_wake|].
  intros u U. destruct (decide (u = t)) as [->|Hu].
  - rewrite (wake_lookup _ _ _ _ HT). by intros [= <-].
  - rewrite wake_lookup_ne by done. apply Hs.
Qed.

(** ** Closed forms of the wake-ups *)

Lemma qwf_last q Q t s :
  qwf s -> queues s !! q = Some Q -> last (tq_list Q) = Some t ->
  exists T, threads s !! t = Some T /\ kt_wchan T = Some q /\ kt_qlink T = Some q.
Proof.
  intros Hq HQ Hl. destruct (qwf_mem _ Hq q Q t) as (T & HT & Hw); [done| |].
  { apply last_Some in Hl as [l' ->]. set_solver. }
  exists T. split_and!; [done|done|]. rewrite <- Hw. by apply (qwf_link _ Hq t).
Qed.

Lemma sched_wakeup_on_eq q Q t s :
  swf s -> q <> kt_runq -> queues s !! q = Some Q -> last (tq_list Q) = Some t ->
  sched_wakeup_on q s = Ret (Some t, wake q t s).
Proof.
  intros [Hq Hs] Hne HQ Hl. destruct (qwf_last _ _ _ _ Hq HQ Hl) as (T & HT & Hw & Hk).
  destruct (qwf_runq _ Hq) as [R HR].
  assert (kt_state T = KT_SLEEP \/ kt_state T = KT_SLEEP_CANCELLABLE) as Hst.
  { pose proof (Hs _ _ HT) as H. unfold state_ok in H. rewrite Hw in H. by case_decide. }
  unfold sched_wakeup_on.
  erewrite bind_eq by (eapply ktqueue_dequeue_eq; eauto). exec.
  rewrite bind_assert. 2: { simpl. destruct Hst as [-> | ->]; done. }
  exec. erewrite bind_eq. 2: { eapply ktqueue_enqueue_eq; simpl; by simplify_map_eq. }
  unfold ret. do 2 f_equal. unfold wake. f_equal. unfold deq. sys_solve.
Qed.

Lemma sched_wakeup_on_nil q n s :
  queues s !! q = Some (MkQueue [] n) -> sched_wakeup_on q s = Ret (None, s).
Proof. intros HQ. unfold sched_wakeup_on. by erewrite bind_eq by (by eapply ktqueue_dequeue_nil). Qed.

Definition wake_list (q : qid) (ts : list tid) (s : sys) : sys :=
  foldl (fun s t => wake q t s) s ts.

Lemma swf_wake_last q Q t s :
  swf s -> q <> kt_runq -> queues s !! q = Some Q -> last (tq_list Q) = Some t ->
  swf (wake q t s) /\
  exists l, tq_list Q = l ++ [t] /\ queues (wake q t s) !! q = Some (MkQueue l (tq_size Q + -1)).
Proof.
  intros Hs Hne HQ Hl. destruct (qwf_last _ _ _ _ (proj1 Hs) HQ Hl) as (T & HT & Hw & _).
  split; [by eapply swf_wake|]. apply last_Some in Hl as [l El]. exists l. split; [done|].
  rewrite (wake_queue _ _ _ _ Hne HQ). do 2 f_equal. rewrite El.
  destruct (qwf_size _ (proj1 Hs) _ _ HQ) as [_ Hnd]. rewrite El in Hnd.
  rewrite filter_ne_split by done. by rewrite app_nil_r.
Qed.

Lemma broadcast_loop_eq ts q n s :
  swf s -> q <> kt_runq -> queues s !! q = Some (MkQueue (reverse ts) n) ->
  broadcast_loop (length ts) q s = Ret (tt, wake_list q ts s).
Proof.
  revert s n. induction ts as [|t ts IH]; intros s n Hs Hne HQ;
    destruct (qwf_size _ (proj1 Hs) _ _ HQ) as [Hsz _]; cbn [tq_size tq_list] in Hsz;
    rewrite length_reverse in Hsz; simpl in Hsz; simpl broadcast_loop; exec; simpl.
  - subst. done.
  - rewrite reverse_cons in HQ.
    pose proof (last_snoc t (reverse ts)) as Hl.
    destruct (qwf_last _ _ _ _ (proj1 Hs) HQ Hl) as (T & HT & Hw & Hk).
    destruct (qwf_runq _ (proj1 Hs)) as [R HR].
    erewrite bind_eq by (eapply ktqueue_dequeue_eq; eauto). exec.
    erewrite bind_eq. 2: { eapply ktqueue_enqueue_eq; simpl; by simplify_map_eq. }
    replace (enq _ _ _) with (wake q t s) by (unfold wake; f_equal; unfold deq; sys_solve).
    destruct (swf_wake_last _ _ _ _ Hs Hne HQ Hl) as (Hs' & l & El & HQ').
    simpl in El, HQ'. apply app_inj_tail in El as [El _]. rewrite <- El in HQ'. by eapply IH.
Qed.

Lemma sched_broadcast_on_eq q Q s :
  swf s -> q <> kt_runq -> queues s !! q = Some Q ->
  sched_broadcast_on q s = Ret (tt, wake_list q (reverse (tq_list Q)) s).
Proof.
  intros Hs Hne HQ. unfold sched_broadcast_on. exec.
  destruct (qwf_size _ (proj1 Hs) _ _ HQ) as [Hsz _]. rewrite Hsz, Nat2Z.id.
  rewrite <- length_reverse. eapply broadcast_loop_eq with (n := tq_size Q); [done|done|].
  rewrite reverse_involutive. by destruct Q.
Qed.

(** What a sequence of wake-ups leaves: [q] empty, the threads at the end of the
    run queue in the order they were woken. *)
Lemma wake_list_spec ts q n R s :
  swf s -> q <> kt_runq -> queues s !! q = Some (MkQueue (reverse ts) n) ->
  queues s !! kt_runq = Some R ->
  let s' := wake_list q ts s in
  swf s' /\ queues s' !! q = Some (MkQueue [] 0) /\
  (exists m, queues s' !! kt_runq = Some (MkQueue (reverse ts ++ tq_list R) m)) /\
  (forall t T, t ∈ ts -> threads s !! t = Some T -> threads s' !! t = Some (run_thr T)) /\
  (forall t, t ∉ ts -> threads s' !! t = threads s !! t) /\
  (forall q', q' <> q -> q' <> kt_runq -> queues s' !! q' = queues s !! q') /\
  curthr s' = curthr s /\ curproc s' = curproc s /\ ipl s' = ipl s.
Proof.
  revert s n R. induction ts as [|t ts IH]; intros s n R Hs Hne HQ HR s'.
  { destruct (qwf_size _ (proj1 Hs) _ _ HQ) as [Hsz _]. simpl in Hsz. subst n.
    split_and!; [done|done| |set_solver|done|done|done|done|done]. exists (tq_size R). by destruct R. }
  rewrite reverse_cons in HQ.
  assert (Hl : last (tq_list (MkQueue (reverse ts ++ [t]) n)) = Some t) by apply last_snoc.
  destruct (qwf_last _ _ _ _ (proj1 Hs) HQ Hl) as (T & HT & Hw & Hk).
  destruct (swf_wake_last _ _ _ _ Hs Hne HQ Hl) as (Hs' & l & El & HQ').
  simpl in El, HQ'. apply app_inj_tail in El as [El _]. rewrite <- El in HQ'.
  pose proof (wake_runq q t R s Hne HR) as HR'.
  destruct (IH _ _ _ Hs' Hne HQ' HR') as (H1 & H2 & [m H3] & H4 & H5 & H6 & H7 & H8 & H9).
  assert (Hnd : NoDup (reverse ts ++ [t])) by apply (qwf_size _ (proj1 Hs) _ _ HQ).
  assert (Hnt : t ∉ ts).
  { apply NoDup_app in Hnd as (_ & Hd & _). intros Hin. apply (Hd t); [by apply elem_of_reverse|by apply list_elem_of_singleton]. }
  split_and!; [done|done| | | | |done|done|done].
  - exists m. rewrite reverse_cons, <- app_assoc. done.
  - intros u U Hu HU. destruct (decide (u = t)) as [->|Hut].
    + change s' with (wake_list q ts (wake q t s)). rewrite H5 by done.
      rewrite (wake_lookup _ _ _ _ HT). congruence.
    + apply H4; [by apply elem_of_cons in Hu as [?|?]|]. by rewrite wake_lookup_ne.
  - intros u Hu. change s' with (wake_list q ts (wake q t s)).
    apply not_elem_of_cons in Hu as [? ?]. by rewrite H5, wake_lookup_ne by done.
  - intros q' ? ?. change s' with (wake_list q ts (wake q t s)).
    rewrite H6, wake_queue_ne by done. done.
Qed.

(** ** Making a thread runnable, cancelling it *)

(** The state after [sched_make_runnable t] of a thread that is on no queue. *)
Definition runnable (t : tid) (s : sys) : sys :=
  enq kt_runq t (set_threads (alter (with_state KT_RUN) t) s).

Lemma sched_make_runnable_eq t T s :
  qwf s -> threads s !! t = Some T -> kt_wchan T = None -> kt_proc T <> PID_IDLE ->
  sched_make_runnable t s = Ret (tt, runnable t s).
Proof.
  intros Hq HT Hw Hp. destruct (qwf_runq _ Hq) as [R HR].
  unfold sched_make_runnable. exec.
  rewrite bind_assert by (apply bool_decide_eq_true_2; by rewrite Hw).
  unfold intr_getipl, intr_setipl. exec. rewrite (proj2 (Z.eqb_neq _ _) Hp).
  erewrite bind_eq. 2: { eapply ktqueue_enqueue_eq; simpl; by simplify_map_eq. }
  unfold modify. do 2 f_equal. unfold runnable, enq. sys_solve.
Qed.

(** The idle process's thread is marked but never enqueued. *)
Lemma sched_make_runnable_idle t T s :
  threads s !! t = Some T -> kt_wchan T <> Some kt_runq -> kt_proc T = PID_IDLE ->
  sched_make_runnable t s = Ret (tt, set_threads (alter (with_state KT_RUN) t) s).
Proof.
  intros HT Hw Hp. unfold sched_make_runnable. exec.
  rewrite bind_assert by (by apply bool_decide_eq_true_2).
  unfold intr_getipl, intr_setipl. exec. rewrite Hp. simpl. exec.
  unfold modify. do 2 f_equal. sys_solve.
Qed.

Lemma swf_runnable t T s :
  swf s -> threads s !! t = Some T -> kt_wchan T = None -> swf (runnable t s).
Proof.
  intros [Hq Hs] HT Hw. destruct (qwf_runq _ Hq) as [R HR]. split.
  - eapply qwf_enq with (T := with_state KT_RUN T) (Q := R); simpl; try by simplify_map_eq.
    by apply qwf_thr.
  - intros u U. unfold runnable, enq. simpl. destruct (decide (u = t)) as [->|?]; simplify_map_eq.
    + intros [= <-]. done.
    + apply Hs.
Qed.

Definition cancel_mark (t : tid) (s : sys) : sys := set_threads (alter (with_cancelled 1) t) s.

Lemma sched_cancel_asleep t T q s :
  swf s -> threads s !! t = Some T -> kt_state T = KT_SLEEP_CANCELLABLE ->
  kt_wchan T = Some q -> q <> kt_runq -> kt_proc T <> PID_IDLE ->
  sched_cancel t s = Ret (tt, wake q t (cancel_mark t s)).
Proof.
  intros [Hq Hs] HT Hst Hw Hne Hp.
  pose proof (qwf_link _ Hq _ _ HT) as Hk. rewrite Hw in Hk.
  destruct (qwf_on _ Hq _ _ _ HT Hw) as (Q & HQ & _).
  unfold sched_cancel. exec. simpl. rewrite Hst. simpl. rewrite Hw.
  erewrite bind_eq. 2: { eapply ktqueue_remove_eq; simpl; by simplify_map_eq. }
  erewrite sched_make_runnable_eq.
  - do 2 f_equal. unfold wake, runnable. do 2 f_equal. unfold deq, cancel_mark. sys_solve.
  - eapply qwf_deq; [|simpl; by simplify_map_eq|done].
    replace (set_threads _ s) with (cancel_mark t s) by (unfold cancel_mark; sys_solve).
    by apply qwf_thr.
  - unfold deq. simpl. by simplify_map_eq.
  - done.
  - done.
Qed.

Lemma sched_cancel_running t T s :
  threads s !! t = Some T -> kt_state T = KT_RUN \/ kt_state T = KT_SLEEP ->
  sched_cancel t s = Ret (tt, cancel_mark t s).
Proof.
  intros HT Hst. unfold sched_cancel. exec. simpl.
  destruct Hst as [-> | ->]; simpl; unfold ret; do 2 f_equal; unfold cancel_mark; sys_solve.
Qed.

(** A thread that has exited is on no queue: the removal's assertion fails. *)
Lemma sched_cancel_exited t T s :
  swf s -> threads s !! t = Some T -> kt_state T = KT_EXITED \/ kt_state T = KT_NO_STATE ->
  sched_cancel t s = Stop Assert.
Proof.
  intros [Hq Hs] HT Hst.
  assert (kt_wchan T = None) as Hw.
  { pose proof (Hs _ _ HT) as H. unfold state_ok in H. destruct (kt_wchan T) as [q|]; [|done].
    case_decide; destruct Hst as [Hx|Hx]; rewrite Hx in H; naive_solver. }
  pose proof (qwf_link _ Hq _ _ HT) as Hk. rewrite Hw in Hk.
  unfold sched_cancel. exec. simpl.
  replace (bool_decide (kt_state T = KT_SLEEP_CANCELLABLE) || bool_decide (kt_state T = KT_EXITED)
     || bool_decide (kt_state T = KT_NO_STATE)) with true by (destruct Hst as [-> | ->]; done).
  unfold ktqueue_remove. exec. simpl. rewrite Hk. done.
Qed.

Lemma swf_cancel_mark t s : swf s -> swf (cancel_mark t s).
Proof. by apply swf_thr. Qed.
#[export] Hint Resolve swf_cancel_mark : weenix.

(** ** Waiting and switching *)

(** What the kernel may do to the other threads while one waits: nobody
    appears, disappears or leaves the queues. *)
Record evolve (s s' : sys) : Prop := {
  ev_dom : dom (threads s') = dom (threads s);
  ev_thr : forall t T, threads s !! t = Some T ->
    exists T', threads s' !! t = Some T' /\ kt_proc T' = kt_proc T /\
      kt_cancelled T' = kt_cancelled T /\ kt_ipl T' = kt_ipl T /\
      (kt_wchan T = None -> T' = T) /\ (is_Some (kt_wchan T) -> is_Some (kt_wchan T'));
  ev_q : forall q, is_Some (queues s !! q) -> is_Some (queues s' !! q);
  ev_cur : curthr s' = curthr s
}.

#[export] Instance evolve_preorder : PreOrder evolve.
Proof.
  split.
  - intros s. split; [done| |done|done]. intros t T ->. eauto 10.
  - intros s1 s2 s3 [D1 T1 Q1 C1] [D2 T2 Q2 C2]. split; [congruence| |auto|congruence].
    intros t T HT. destruct (T1 _ _ HT) as (T' & HT' & A1 & A2 & A3 & A4 & A5).
    destruct (T2 _ _ HT') as (T'' & HT'' & B1 & B2 & B3 & B4 & B5).
    exists T''. split_and!; [done|congruence|congruence|congruence| |auto].
    intros Hn. rewrite <- (A4 Hn) in Hn |- *. auto.
Qed.

Lemma evolve_wake q t T s :
  threads s !! t = Some T -> is_Some (kt_wchan T) -> evolve s (wake q t s).
Proof.
  intros HT [q0 Hw]. split.
  - unfold wake, enq, deq. simpl. by rewrite !dom_alter_L.
  - intros u U HU. destruct (decide (u = t)) as [->|Hne].
    + rewrite (wake_lookup _ _ _ _ HT). simplify_eq.
      eexists. split_and!; [done..| |simpl; eauto]. congruence.
    + rewrite wake_lookup_ne by done. eauto 10.
  - intros q' Hq'. unfold wake, enq, deq. simpl.
    by rewrite !lookup_alter_is_Some.
  - done.
Qed.

Lemma evolve_same s s' :
  threads s' = threads s -> queues s' = queues s -> curthr s' = curthr s -> evolve s s'.
Proof. intros H1 H2 H3. split; rewrite ?H1, ?H2; [done| |done|done]. eauto 10. Qed.

(** The queue an interrupt wakes, if any. *)
Definition intr_q (e : intr) : option qid :=
  match e with IWakeup q | IBroadcast q => Some q | INone => None end.

Definition intr_ok (s : sys) (e : intr) : Prop :=
  match intr_q e with
  | Some q => q <> kt_runq /\ is_Some (queues s !! q)
  | None => True
  end.

Lemma intr_ok_evolve s s' e : evolve s s' -> intr_ok s e -> intr_ok s' e.
Proof. unfold intr_ok. intros H. destruct (intr_q e); [|done]. intros [? ?]. split; [done|by apply H]. Qed.

Lemma evolve_wake_list ts q n s :
  swf s -> q <> kt_runq -> queues s !! q = Some (MkQueue (reverse ts) n) ->
  evolve s (wake_list q ts s).
Proof.
  revert s n. induction ts as [|t ts IH]; intros s n Hs Hne HQ; [reflexivity|].
  rewrite reverse_cons in HQ.
  assert (Hl : last (tq_list (MkQueue (reverse ts ++ [t]) n)) = Some t) by apply last_snoc.
  destruct (qwf_last _ _ _ _ (proj1 Hs) HQ Hl) as (T & HT & Hw & Hk).
  destruct (swf_wake_last _ _ _ _ Hs Hne HQ Hl) as (Hs' & l & El & HQ').
  simpl in El, HQ'. apply app_inj_tail in El as [El _]. rewrite <- El in HQ'.
  etrans; [eapply evolve_wake; eauto|]. by eapply IH.
Qed.

Lemma intr_handle_spec e s :
  swf s -> intr_ok s e ->
  exists s', intr_handle e s = Ret (tt, s') /\ swf s' /\ evolve s s'.
Proof.
  intros Hs Hok. destruct e as [q|q|]; simpl; [| |by exists s].
  - destruct Hok as (Hne & [l n] & HQ). destruct (last l) as [t|] eqn:Hl.
    + exists (wake q t s). erewrite bind_eq by (by eapply sched_wakeup_on_eq).
      destruct (qwf_last _ _ _ _ (proj1 Hs) HQ Hl) as (T & HT & Hw & _).
      split_and!; [done|by eapply swf_wake|]. eapply evolve_wake; eauto.
    + apply last_None in Hl as ->. exists s.
      by erewrite bind_eq by (by eapply sched_wakeup_on_nil).
  - destruct Hok as (Hne & Q & HQ). destruct (qwf_runq _ (proj1 Hs)) as [R HR].
    rewrite (sched_broadcast_on_eq _ _ _ Hs Hne HQ). eexists. split; [done|].
    assert (HQ' : queues s !! q = Some (MkQueue (reverse (reverse (tq_list Q))) (tq_size Q))).
    { rewrite reverse_involutive. by destruct Q. }
    split; [by eapply wake_list_spec|by eapply evolve_wake_list].
Qed.

Lemma wait_runq_now evs R s :
  swf s -> queues s !! kt_runq = Some R -> tq_list R <> [] -> wait_runq evs s = Ret (tt, s).
Proof.
  intros Hs HR Hne. destruct (qwf_size _ (proj1 Hs) _ _ HR) as [Hsz _].
  destruct evs; simpl wait_runq; exec; rewrite (proj2 (Z.eqb_neq (tq_size R) 0)); try done;
    destruct (tq_list R); simpl in *; [done|lia|done|lia].
Qed.

Lemma wait_runq_step e evs n s :
  queues s !! kt_runq = Some (MkQueue [] n) -> n = 0 ->
  wait_runq (e :: evs) s =
  (intr_handle e ;;; intr_setipl IPL_HIGH ;;; wait_runq evs) (set_intr true (set_ipl IPL_LOW (set_intr false s))).
Proof.
  intros HR ->. simpl wait_runq. exec. simpl. unfold intr_disable, intr_setipl, intr_wait.
  repeat (rewrite ?bind_modify, ?bind_bind; cbv beta). done.
Qed.

Lemma wait_runq_spec evs s :
  swf s -> Forall (intr_ok s) evs ->
  wpd (wait_runq evs)
    (fun _ s' => swf s' /\ evolve s s' /\
       exists R t, queues s' !! kt_runq = Some R /\ last (tq_list R) = Some t) s.
Proof.
  revert s. induction evs as [|e evs IH]; intros s Hs Hev;
    destruct (qwf_runq _ (proj1 Hs)) as [[l n] HR];
    destruct (qwf_size _ (proj1 Hs) _ _ HR) as [Hsz _]; simpl in Hsz;
    (destruct (decide (l = [])) as [->|Hl];
     [|unfold wpd; erewrite wait_runq_now by done; split_and!; [done|reflexivity|];
       destruct (last l) as [t|] eqn:El; [by eauto|by apply last_None in El]]).
  - unfold wpd. simpl wait_runq. exec. simpl. by subst n.
  - unfold wpd. rewrite (wait_runq_step _ _ _ _ HR Hsz). apply Forall_cons in Hev as [He Hev].
    destruct (intr_handle_spec e (set_intr true (set_ipl IPL_LOW (set_intr false s))))
      as (s' & Hh & Hs' & Hev'); [by auto with weenix|done|].
    rewrite (bind_eq _ _ _ _ _ Hh). unfold intr_setipl. rewrite bind_modify.
    assert (E : evolve s (set_ipl IPL_HIGH s')).
    { etrans; [|etrans; [apply Hev'|]]; by apply evolve_same. }
    specialize (IH (set_ipl IPL_HIGH s')). unfold wpd in IH.
    destruct (wait_runq evs (set_ipl IPL_HIGH s')) as [[? s'']|f].
    + destruct IH as (? & ? & ?); [by auto with weenix| |].
      { eapply Forall_impl; [done|]. intros. by eapply intr_ok_evolve. }
      split_and!; [done|by etrans|done].
    + apply IH; [by auto with weenix|].
      eapply Forall_impl; [done|]. intros. by eapply intr_ok_evolve.
Qed.

(** The state in which thread [t] has just been resumed. *)
Definition dispatch (t : tid) (T : kthread) (s : sys) : sys :=
  set_ipl (kt_ipl T) (set_cur t (kt_proc T) (set_threads (alter (with_state KT_RUN) t) (deq kt_runq t s))).

(** The state in which a thread that gives up the processor starts to wait. *)
Definition parked (s : sys) : sys :=
  set_ipl IPL_HIGH (set_threads (alter (with_ipl (ipl s)) (curthr s)) s).

Lemma swf_parked s : swf s -> swf (parked s).
Proof. intros. apply swf_ipl. by apply swf_thr. Qed.
#[export] Hint Resolve swf_parked : weenix.

Lemma wf_dispatch t T R s :
  swf s -> queues s !! kt_runq = Some R -> last (tq_list R) = Some t ->
  threads s !! t = Some T -> wf (dispatch t T s).
Proof.
  intros [Hq Hs] HR Hl HT. destruct (qwf_last _ _ _ _ Hq HR Hl) as (T' & HT' & Hw & Hk). simplify_eq.
  split; [split|].
  - apply qwf_ipl, qwf_cur, qwf_thr; [done|done|]. by eapply qwf_deq.
  - intros u U. unfold dispatch, deq. simpl. destruct (decide (u = t)) as [->|?]; simplify_map_eq.
    + intros [= <-]. done.
    + apply Hs.
  - eexists. unfold dispatch, deq. simpl. by simplify_map_eq.
Qed.

Lemma sched_switch_eq evs C s s' R t T :
  threads s !! curthr s = Some C ->
  wait_runq evs (parked s) = Ret (tt, s') -> swf s' ->
  queues s' !! kt_runq = Some R -> last (tq_list R) = Some t -> threads s' !! t = Some T ->
  sched_switch evs s = Ret (tt, dispatch t T s').
Proof.
  intros HC Hw Hs HR Hl HT.
  destruct (qwf_last _ _ _ _ (proj1 Hs) HR Hl) as (T' & HT' & Hw' & Hk). simplify_eq.
  unfold sched_switch, intr_getipl, intr_setipl. exec.
  erewrite bind_eq. 2: { rewrite <- Hw. f_equal. unfold parked. sys_solve. }
  exec. erewrite bind_eq by (by eapply ktqueue_dequeue_eq). exec.
  unfold context_switch, intr_setipl. exec. unfold modify. do 2 f_equal.
  unfold dispatch, deq. sys_solve.
Qed.


(** Conversely, a switch that comes back has found a thread. *)
Lemma sched_switch_stuck evs C s f :
  threads s !! curthr s = Some C -> wait_runq evs (parked s) = Stop f -> sched_switch evs s = Stop f.
Proof.
  intros HC Hw. unfold sched_switch, intr_getipl, intr_setipl. exec.
  unfold bind at 1. replace (wait_runq _ _) with (wait_runq evs (parked s)); [by rewrite Hw|].
  f_equal. unfold parked. sys_solve.
Qed.

Lemma sched_switch_inv evs C s s' :
  swf s -> threads s !! curthr s = Some C -> Forall (intr_ok s) evs ->
  sched_switch evs s = Ret (tt, s') ->
  exists s2 R t T, wait_runq evs (parked s) = Ret (tt, s2) /\ swf s2 /\ evolve (parked s) s2 /\
    queues s2 !! kt_runq = Some R /\ last (tq_list R) = Some t /\ threads s2 !! t = Some T /\
    s' = dispatch t T s2.
Proof.
  intros Hs HC Hev E. pose proof (wait_runq_spec evs (parked s)) as H. unfold wpd in H.
  destruct (wait_runq evs (parked s)) as [[[] s2]|f] eqn:Hw.
  - destruct H as (Hs' & Hev' & R & t & HR & Hl); [by auto with weenix|done|].
    destruct (qwf_last _ _ _ _ (proj1 Hs') HR Hl) as (T & HT & _).
    erewrite sched_switch_eq in E by done. injection E as <-. eauto 12.
  - by erewrite sched_switch_stuck in E.
Qed.

Lemma dispatch_tracked t T s u U :
  threads s !! u = Some U -> is_Some (kt_wchan U) -> tracked (dispatch t T s) u.
Proof.
  intros HU [q Hq]. unfold tracked, dispatch, deq. simpl.
  destruct (decide (u = t)) as [->|?]; [by left|right]. simplify_map_eq. eauto.
Qed.

Lemma sched_switch_spec evs s C :
  swf s -> threads s !! curthr s = Some C -> Forall (intr_ok s) evs ->
  wpd (sched_switch evs)
    (fun _ s' => wf s' /\ dom (threads s') = dom (threads s) /\
       forall u U, threads s !! u = Some U -> is_Some (kt_wchan U) -> tracked s' u) s.
Proof.
  intros Hs HC Hev. pose proof (wait_runq_spec evs (parked s)) as H. unfold wpd in *.
  destruct (wait_runq evs (parked s)) as [[[] s']|f] eqn:Hw.
  - destruct H as (Hs' & Hev' & R & t & HR & Hl); [by auto with weenix|done|].
    destruct (qwf_last _ _ _ _ (proj1 Hs') HR Hl) as (T & HT & _).
    erewrite sched_switch_eq by done. split_and!.
    + by eapply wf_dispatch.
    + unfold dispatch, deq. simpl. rewrite !dom_alter_L, (ev_dom _ _ Hev').
      unfold parked. simpl. by rewrite dom_alter_L.
    + intros u U HU Hq.
      assert (exists U', threads (parked s) !! u = Some U' /\ is_Some (kt_wchan U')) as (U' & HU' & Hq').
      { unfold parked. simpl. destruct (decide (u = curthr s)) as [->|?]; simplify_map_eq; eauto. }
      destruct (ev_thr _ _ Hev' _ _ HU') as (U'' & HU'' & _ & _ & _ & _ & Hq'').
      eapply dispatch_tracked; eauto.
  - specialize (H ltac:(auto with weenix) Hev). by erewrite sched_switch_stuck.
Qed.

(** ** Going to sleep *)

(** The running thread on queue [q] in sleeping state [x], before the switch. *)
Definition asleep (x : kt_states) (q : qid) (s : sys) : sys :=
  enq q (curthr s) (set_threads (alter (with_state x) (curthr s)) s).

Lemma swf_asleep x q s :
  wf s -> q <> kt_runq -> is_Some (queues s !! q) -> x = KT_SLEEP \/ x = KT_SLEEP_CANCELLABLE ->
  swf (asleep x q s).
Proof.
  intros [[Hq Hs] (T & HT & Hw & _)] Hne [Q HQ] Hx. split.
  - eapply qwf_enq with (T := with_state x T) (Q := Q); simpl; try by simplify_map_eq.
    by apply qwf_thr.
  - intros u U. unfold asleep, enq. simpl. destruct (decide (u = curthr s)) as [->|?]; simplify_map_eq.
    + intros [= <-]. unfold state_ok. simpl. by rewrite decide_False.
    + apply Hs.
Qed.

Lemma sched_sleep_on_eq evs q s :
  wf s -> is_Some (queues s !! q) ->
  sched_sleep_on evs q s = sched_switch evs (asleep KT_SLEEP q s).
Proof.
  intros [Hs (T & HT & Hw & _)] [Q HQ]. unfold sched_sleep_on. exec.
  erewrite bind_eq. 2: { eapply ktqueue_enqueue_eq; simpl; by simplify_map_eq. }
  f_equal. unfold asleep, enq. sys_solve.
Qed.

Lemma sched_cancellable_sleep_on_eq evs q T s :
  wf s -> is_Some (queues s !! q) -> threads s !! curthr s = Some T -> kt_cancelled T <> 1 ->
  sched_cancellable_sleep_on evs q s =
  (sched_switch evs ;;; ret 0) (asleep KT_SLEEP_CANCELLABLE q s).
Proof.
  intros [Hs (T' & HT & Hw & _)] [Q HQ] HT' Hc. simplify_eq.
  unfold sched_cancellable_sleep_on. exec. rewrite (proj2 (Z.eqb_neq _ _) Hc). exec.
  erewrite bind_eq. 2: { eapply ktqueue_enqueue_eq; simpl; by simplify_map_eq. }
  f_equal. unfold asleep, enq. apply sys_ext; simpl; try done.
  apply map_eq. intros k. destruct (decide (k = curthr s)) as [->|]; simplify_map_eq; [|done].
  destruct T'; simpl in *; by subst.
Qed.

(** The caller and everyone on a queue survive going to sleep. *)
Lemma sleep_switch_spec evs x q s :
  wf s -> q <> kt_runq -> is_Some (queues s !! q) -> x = KT_SLEEP \/ x = KT_SLEEP_CANCELLABLE ->
  Forall (intr_ok s) evs ->
  wpd (sched_switch evs)
    (fun _ s' => wf s' /\ dom (threads s') = dom (threads s) /\
       forall u, tracked s u -> tracked s' u) (asleep x q s).
Proof.
  intros Hwf Hne HQ Hx Hev. pose proof (swf_asleep x q s Hwf Hne HQ Hx) as Hs.
  destruct Hwf as [_ (T & HT & Hw & _)].
  eapply wpd_mono; [|eapply sched_switch_spec with (C := with_wchan (Some q) (with_qlink (Some q) (with_state x T)));
    [done| |]].
  - intros ? s' (H1 & H2 & H3). split_and!; [done| |].
    + rewrite H2. unfold asleep, enq. simpl. by rewrite !dom_alter_L.
    + intros u Hu. destruct (decide (u = curthr s)) as [->|Hn].
      * eapply H3; [unfold asleep, enq; simpl; by simplify_map_eq|]. simpl. eauto.
      * destruct Hu as [?|(U & q' & HU & Hq')]; [done|].
        eapply (H3 u U); [|eauto]. unfold asleep, enq. simpl. by simplify_map_eq.
  - unfold asleep, enq. simpl. by simplify_map_eq.
  - eapply Forall_impl; [done|]. intros e. unfold intr_ok. destruct (intr_q e); [|done].
    intros [? ?]. split; [done|]. unfold asleep, enq. simpl. by apply lookup_alter_is_Some.
Qed.

(** ** The scheduler as a transition system *)

Inductive sched_op : Type :=
| OSleep (evs : list intr) (q : qid)
| OCancellableSleep (evs : list intr) (q : qid)
| OWakeup (q : qid)
| OBroadcast (q : qid)
| OCancel (t : tid)
| OMakeRunnable (t : tid)
| OYield (evs : list intr).

Definition run_op (o : sched_op) : M sys unit :=
  match o with
  | OSleep evs q => sched_sleep_on evs q
  | OCancellableSleep evs q => sched_cancellable_sleep_on evs q ;;; ret tt
  | OWakeup q => sched_wakeup_on q ;;; ret tt
  | OBroadcast q => sched_broadcast_on q
  | OCancel t => sched_cancel t
  | OMakeRunnable t => sched_make_runnable t
  | OYield evs => let! me := gets curthr in sched_make_runnable me ;;; sched_switch evs
  end.

Definition wait_q (s : sys) (q : qid) : Prop := q <> kt_runq /\ is_Some (queues s !! q).

(** The callers' obligations: a wait queue that has been initialised, a live
    thread, and a thread to be made runnable is on no queue and not idle. *)
Definition op_ok (s : sys) (o : sched_op) : Prop :=
  match o with
  | OSleep evs q | OCancellableSleep evs q => wait_q s q /\ Forall (intr_ok s) evs
  | OWakeup q | OBroadcast q => wait_q s q
  | OCancel t => exists T, threads s !! t = Some T /\ kt_state T <> KT_EXITED /\
                   kt_state T <> KT_NO_STATE /\ kt_proc T <> PID_IDLE
  | OMakeRunnable t => exists T, threads s !! t = Some T /\ kt_wchan T = None /\
                         kt_proc T <> PID_IDLE /\ t <> curthr s
  | OYield evs => curproc s <> PID_IDLE /\ Forall (intr_ok s) evs
  end.

Definition survives (s s' : sys) : Prop :=
  wf s' /\ dom (threads s') = dom (threads s) /\ forall t, tracked s t -> tracked s' t.

Lemma survives_evolve s s' :
  wf s -> swf s' -> evolve s s' -> curproc s' = curproc s -> survives s s'.
Proof.
  intros [_ (C & HC & Hw & Hst & Hp)] Hs' [D HT HQ Cu] Hcp. split_and!; [|done|].
  - split; [done|]. destruct (HT _ _ HC) as (C' & HC' & E & _ & _ & Hsame & _).
    rewrite (Hsame Hw) in HC'. exists C. rewrite Cu, Hcp. done.
  - intros t [->|(U & q & HU & Hq)]; [left; congruence|right].
    destruct (HT _ _ HU) as (U' & HU' & _ & _ & _ & _ & H). destruct H as [q' Hq']; eauto.
Qed.

Lemma wake_curproc q t s : curproc (wake q t s) = curproc s.
Proof. done. Qed.

Lemma cancel_survives t T s :
  wf s -> threads s !! t = Some T -> kt_state T <> KT_EXITED -> kt_state T <> KT_NO_STATE ->
  kt_proc T <> PID_IDLE ->
  exists s', sched_cancel t s = Ret (tt, s') /\ survives s s'.
Proof.
  intros Hwf HT H1 H2 Hp. pose proof Hwf as [Hs Hc].
  assert (Hm : survives s (cancel_mark t s)).
  { split_and!; [split; [by auto with weenix|]| |].
    - destruct Hc as (C & HC & Hx). unfold cancel_mark, cur_ok. simpl.
      destruct (decide (curthr s = t)) as [<-|?]; eexists; (split; [by simplify_map_eq|exact Hx]).
    - unfold cancel_mark. simpl. by rewrite dom_alter_L.
    - intros u [->|(U & q & HU & Hq)]; [by left|right]. unfold cancel_mark. simpl.
      destruct (decide (u = t)) as [->|?]; simplify_map_eq; eauto. }
  destruct (kt_state T) eqn:Hst; try done.
  - exists (cancel_mark t s). split; [|done]. eapply sched_cancel_running; eauto.
  - exists (cancel_mark t s). split; [|done]. eapply sched_cancel_running; eauto.
  - pose proof (proj2 Hs _ _ HT) as Hok. unfold state_ok in Hok. rewrite Hst in Hok.
    destruct (kt_wchan T) as [q|] eqn:Hw; [|naive_solver]. case_decide; [done|].
    exists (wake q t (cancel_mark t s)). split; [by eapply sched_cancel_asleep|].
    assert (HT' : threads (cancel_mark t s) !! t = Some (with_cancelled 1 T)).
    { unfold cancel_mark. simpl. by simplify_map_eq. }
    assert (survives (cancel_mark t s) (wake q t (cancel_mark t s))) as (W & D & K).
    { apply survives_evolve; [apply Hm| | |done].
      + eapply swf_wake; [|done|exact HT'|done]. auto with weenix.
      + eapply evolve_wake; [exact HT'|]. simpl. eauto. }
    destruct Hm as (_ & D0 & K0). split_and!; [done|congruence|auto].
Qed.

Lemma wakeup_survives q s :
  wf s -> wait_q s q -> wpd (sched_wakeup_on q ;;; ret tt) (fun _ s' => survives s s') s.
Proof.
  intros Hwf [Hne [[l n] HQ]]. pose proof Hwf as [Hs _]. unfold wpd.
  destruct (last l) as [t|] eqn:Hl.
  - destruct (qwf_last _ _ _ _ (proj1 Hs) HQ Hl) as (T & HT & Hw & _).
    erewrite bind_eq by (by eapply sched_wakeup_on_eq).
    apply survives_evolve; [done| | |done]; [by eapply swf_wake|eapply evolve_wake; eauto].
  - apply last_None in Hl as ->. erewrite bind_eq by (by eapply sched_wakeup_on_nil).
    by split_and!.
Qed.

Lemma broadcast_survives q s :
  wf s -> wait_q s q -> wpd (sched_broadcast_on q) (fun _ s' => survives s s') s.
Proof.
  intros Hwf [Hne [Q HQ]]. pose proof Hwf as [Hs _]. destruct (qwf_runq _ (proj1 Hs)) as [R HR].
  unfold wpd. rewrite (sched_broadcast_on_eq _ _ _ Hs Hne HQ).
  assert (HQ' : queues s !! q = Some (MkQueue (reverse (reverse (tq_list Q))) (tq_size Q))).
  { rewrite reverse_involutive. by destruct Q. }
  destruct (wake_list_spec _ _ _ _ _ Hs Hne HQ' HR) as (? & _ & _ & _ & _ & _ & _ & ? & _).
  apply survives_evolve; [done|done| |done]. by eapply evolve_wake_list.
Qed.

Lemma make_runnable_survives t T s :
  wf s -> threads s !! t = Some T -> kt_wchan T = None -> kt_proc T <> PID_IDLE -> t <> curthr s ->
  wpd (sched_make_runnable t) (fun _ s' => survives s s') s.
Proof.
  intros [Hs Hc] HT Hw Hp Hne. unfold wpd.
  erewrite sched_make_runnable_eq by (done || apply Hs).
  split_and!; [split; [by eapply swf_runnable|]| |].
  - destruct Hc as (C & HC & ?). exists C. unfold runnable, enq. simpl. by simplify_map_eq.
  - unfold runnable, enq. simpl. by rewrite !dom_alter_L.
  - intros u [->|(U & q & HU & Hq)]; [by left|right]. unfold runnable, enq. simpl.
    destruct (decide (u = t)) as [->|?]; simplify_map_eq; eauto.
Qed.

Lemma intr_ok_queues s s' e :
  (forall q, is_Some (queues s !! q) -> is_Some (queues s' !! q)) -> intr_ok s e -> intr_ok s' e.
Proof. unfold intr_ok. intros H. destruct (intr_q e); naive_solver. Qed.

Lemma yield_survives evs s :
  wf s -> curproc s <> PID_IDLE -> Forall (intr_ok s) evs ->
  wpd (run_op (OYield evs)) (fun _ s' => survives s s') s.
Proof.
  intros [Hs (C & HC & Hw & Hst & Ep)] Hp Hev. unfold wpd. simpl. rewrite bind_gets.
  erewrite bind_eq. 2: { eapply sched_make_runnable_eq; [apply Hs|done|done|congruence]. }
  assert (HC' : threads (runnable (curthr s) s) !! curthr s = Some (run_thr C)).
  { unfold runnable, enq. simpl. by simplify_map_eq. }
  eapply (wpd_mono (sched_switch evs)); [|eapply sched_switch_spec; [|exact HC'|]].
  - intros ? s' (W & D & K). split_and!; [done| |].
    { rewrite D. unfold runnable, enq. simpl. by rewrite !dom_alter_L. }
    intros u Hu. destruct (decide (u = curthr s)) as [->|?]; [eapply K; [exact HC'|simpl; eauto]|].
    destruct Hu as [?|(U & q & HU & Hq)]; [done|].
    apply (K u U); [|eauto]. unfold runnable, enq. simpl. by simplify_map_eq.
  - by eapply swf_runnable.
  - eapply Forall_impl; [done|]. intros e. apply intr_ok_queues. intros q.
    unfold runnable, enq. simpl. by rewrite lookup_alter_is_Some.
Qed.

Lemma cancellable_sleep_survives evs q s :
  wf s -> wait_q s q -> Forall (intr_ok s) evs ->
  wpd (run_op (OCancellableSleep evs q)) (fun _ s' => survives s s') s.
Proof.
  intros Hwf [Hne HQ] Hev. pose proof Hwf as [_ (C & HC & _)]. simpl.
  destruct (decide (kt_cancelled C = 1)) as [Ec|Hnc].
  - unfold wpd, sched_cancellable_sleep_on. exec. rewrite Ec. simpl. by split_and!.
  - rewrite wpd_bind. unfold wpd at 1. erewrite sched_cancellable_sleep_on_eq by done.
    pose proof (sleep_switch_spec evs KT_SLEEP_CANCELLABLE q s Hwf Hne HQ (or_intror eq_refl) Hev) as H'.
    unfold wpd, bind in *. destruct (sched_switch _ _) as [[? ?]|]; done.
Qed.

Lemma sched_op_survives o s : wf s -> op_ok s o -> wpd (run_op o) (fun _ s' => survives s s') s.
Proof.
  intros Hwf Hok. destruct o; simpl in Hok.
  - destruct Hok as [[Hne HQ] Hev]. unfold wpd. simpl. rewrite sched_sleep_on_eq by done.
    apply sleep_switch_spec; eauto.
  - destruct Hok. by apply cancellable_sleep_survives.
  - by apply wakeup_survives.
  - by apply broadcast_survives.
  - destruct Hok as (T & HT & H1 & H2 & Hp).
    destruct (cancel_survives t T s Hwf HT H1 H2 Hp) as (s' & E & H). unfold wpd. simpl. by rewrite E.
  - destruct Hok as (T & ? & ? & ? & ?). by eapply make_runnable_survives.
  - destruct Hok. by apply yield_survives.
Qed.

(** ** Deciding the invariant on a concrete state *)

Definition queue_okb (s : sys) (q : qid) (Q : ktqueue) : bool :=
  (tq_size Q =? Z.of_nat (length (tq_list Q))) && bool_decide (NoDup (tq_list Q)) &&
  forallb (fun t => match threads s !! t with
                    | Some T => bool_decide (kt_wchan T = Some q)
                    | None => false
                    end) (tq_list Q).

Definition thread_okb (s : sys) (t : tid) (T : kthread) : bool :=
  bool_decide (kt_qlink T = kt_wchan T) &&
  match kt_wchan T with
  | Some q => match queues s !! q with
              | Some Q => bool_decide (t ∈ tq_list Q)
              | None => false
              end &&
              (if decide (q = kt_runq) then bool_decide (kt_state T = KT_RUN)
               else bool_decide (kt_state T = KT_SLEEP) || bool_decide (kt_state T = KT_SLEEP_CANCELLABLE))
  | None => negb (bool_decide (kt_state T = KT_SLEEP)) && negb (bool_decide (kt_state T = KT_SLEEP_CANCELLABLE))
  end.

Definition wfb (s : sys) : bool :=
  match queues s !! kt_runq with Some _ => true | None => false end &&
  forallb (fun '(q, Q) => queue_okb s q Q) (map_to_list (queues s)) &&
  forallb (fun '(t, T) => thread_okb s t T) (map_to_list (threads s)) &&
  match threads s !! curthr s with
  | Some T => bool_decide (kt_wchan T = None) && bool_decide (kt_state T = KT_RUN) && (kt_proc T =? curproc s)
  | None => false
  end.

Lemma forallb_map {V} (f : Z -> V -> bool) (m : gmap Z V) k v :
  forallb (fun '(k, v) => f k v) (map_to_list m) = true -> m !! k = Some v -> f k v = true.
Proof.
  rewrite forallb_forall. intros H Hk. apply (H (k, v)).
  apply list_elem_of_In, elem_of_map_to_list, Hk.
Qed.

Lemma wfb_wf s : wfb s = true -> wf s.
Proof.
  unfold wfb. rewrite !andb_true_iff. intros [[[Hr HQ] HT] Hc].
  assert (HQ' := fun k v => forallb_map (queue_okb s) _ k v HQ).
  assert (HT' := fun k v => forallb_map (thread_okb s) _ k v HT). clear HQ HT.
  unfold queue_okb in HQ'. unfold thread_okb in HT'.
  repeat setoid_rewrite andb_true_iff in HQ'. setoid_rewrite andb_true_iff in HT'.
  split; [split; [split|]|].
  - destruct (queues s !! kt_runq); [eauto|done].
  - intros q Q H. destruct (HQ' _ _ H) as [[Hs Hn] _]. split; [lia|by apply bool_decide_eq_true in Hn].
  - intros q Q t H Hin. destruct (HQ' _ _ H) as [_ Hf]. rewrite forallb_forall in Hf.
    specialize (Hf t (proj1 (list_elem_of_In _ _) Hin)). destruct (threads s !! t) as [T|]; [|done].
    exists T. split; [done|]. by apply bool_decide_eq_true in Hf.
  - intros t T q H Hq. destruct (HT' _ _ H) as [_ Hx]. rewrite Hq in Hx.
    apply andb_true_iff in Hx as [Hx _]. destruct (queues s !! q) as [Q|]; [|done].
    apply bool_decide_eq_true in Hx. eauto.
  - intros t T H. destruct (HT' _ _ H) as [Hx _]. by apply bool_decide_eq_true in Hx.
  - intros t T H. destruct (HT' _ _ H) as [_ Hx]. unfold state_ok. destruct (kt_wchan T).
    + apply andb_true_iff in Hx as [_ Hx]. case_decide.
      * by apply bool_decide_eq_true in Hx.
      * apply orb_true_iff in Hx as [Hx|Hx]; apply bool_decide_eq_true in Hx; eauto.
    + apply andb_true_iff in Hx as [H1 H2]. apply negb_true_iff, bool_decide_eq_false in H1, H2. done.
  - destruct (threads s !! curthr s) as [T|] eqn:E; [|done]. exists T.
    rewrite !andb_true_iff in Hc. destruct Hc as [[H1 H2] H3].
    apply bool_decide_eq_true in H1, H2. split_and!; [done|done|done|lia].
Qed.

(** ** Theorems *)

(** Executions of the scheduler from a given state. *)
Inductive reach (s0 : sys) : sys -> Prop :=
| reach_refl : reach s0 s0
| reach_step s o s' : reach s0 s -> op_ok s o -> run_op o s = Ret (tt, s') -> reach s0 s'.

(** A running thread, one ready thread and two sleepers on queue 7. *)
Definition demo : sys :=
  MkSys
    (<[1 := MkThread KT_RUN 0 None None 0 0 1 4096 0]>
    (<[2 := MkThread KT_RUN 0 (Some 0) (Some 0) 0 0 2 8192 3]>
    (<[3 := MkThread KT_SLEEP 0 (Some 7) (Some 7) 0 0 3 12288 0]>
    (<[4 := MkThread KT_SLEEP_CANCELLABLE 0 (Some 7) (Some 7) 0 0 4 16384 0]>
    (<[5 := MkThread KT_EXITED 0 None None 0 0 5 20480 0]> ∅)))))
    (<[0 := MkQueue [2] 1]> (<[7 := MkQueue [4; 3] 2]> ∅))
    1 1 5 true.

Lemma demo_wf : wf demo.
Proof. apply wfb_wf. vm_compute. reflexivity. Qed.

(** C20: from a consistent state, no sequence of scheduler operations (sleeps of
    both kinds with any interrupts while waiting, wake-ups, broadcasts,
    cancellations, yields) reaches an inconsistent queue state: every counter
    counts its list, every thread is on exactly the queue it names, sleeping
    threads are on wait queues; no thread that was running or queued is ever
    lost; and no further operation fails an assertion or follows a null
    pointer. *)
Theorem sched_reachable_safe s0 s :
  wf s0 -> reach s0 s ->
  wf s /\ (forall t, tracked s0 t -> tracked s t) /\
  (forall o f, op_ok s o -> run_op o s = Stop f -> f = Diverge).
Proof.
  intros H0 Hr. assert (wf s /\ forall t, tracked s0 t -> tracked s t) as [Hw Ht].
  { induction Hr as [|s o s' _ [Hw Ht] Hok E]; [done|].
    pose proof (sched_op_survives o s Hw Hok) as H. unfold wpd in H. rewrite E in H.
    destruct H as (? & _ & ?). eauto. }
  split_and!; [done|done|]. intros o f Hok E.
  pose proof (sched_op_survives o s Hw Hok) as H. unfold wpd in H. by rewrite E in H.
Qed.

Lemma sched_reachable_safe_witness :
  exists s, reach demo s /\ wf s /\ tracked s 1.
Proof.
  destruct (run_op (OSleep [] 7) demo) as [[[] s]|f] eqn:E.
  2: { vm_compute in E. discriminate E. }
  assert (Hr : reach demo s).
  { eapply reach_step; [apply reach_refl| |exact E]. split; [split; [done|vm_compute; eauto]|constructor]. }
  exists s. destruct (sched_reachable_safe demo s demo_wf Hr) as (Hw & Ht & _).
  split; [exact Hr|]. split; [exact Hw|]. apply Ht. left. reflexivity.
Defined.

(** [sched_sleep_on] with a ready thread puts the caller at the head of the
    wait queue in state KT_SLEEP, remembers its interrupt level, and resumes
    the thread that has been on the run queue longest at that thread's own
    interrupt level, with [curthr] and [curproc] set. *)
Theorem sched_sleep_on_switches evs q s l t T Q n :
  wf s -> q <> kt_runq -> queues s !! q = Some Q ->
  queues s !! kt_runq = Some (MkQueue (l ++ [t]) n) -> threads s !! t = Some T ->
  exists s' C', sched_sleep_on evs q s = Ret (tt, s') /\
    curthr s' = t /\ curproc s' = kt_proc T /\ ipl s' = kt_ipl T /\
    queues s' !! kt_runq = Some (MkQueue l (n - 1)) /\
    queues s' !! q = Some (MkQueue (curthr s :: tq_list Q) (tq_size Q + 1)) /\
    threads s' !! curthr s = Some C' /\ kt_state C' = KT_SLEEP /\ kt_wchan C' = Some q /\
    kt_ipl C' = ipl s /\ wf s'.
Proof.
  intros Hwf Hne HQ HR HT. pose proof Hwf as [Hs (C & HC & Hcw & _)].
  assert (Htc : t <> curthr s).
  { intros ->. destruct (qwf_mem _ (proj1 Hs) _ _ (curthr s) HR) as (T' & ? & ?); [set_solver|]. congruence. }
  assert (Hs1 : swf (asleep KT_SLEEP q s)) by (apply swf_asleep; eauto).
  assert (HR' : queues (parked (asleep KT_SLEEP q s)) !! kt_runq = Some (MkQueue (l ++ [t]) n)).
  { unfold parked, asleep, enq. simpl. by simplify_map_eq. }
  assert (HT' : threads (parked (asleep KT_SLEEP q s)) !! t = Some T).
  { unfold parked, asleep, enq. simpl. by simplify_map_eq. }
  assert (Hl : last (tq_list (MkQueue (l ++ [t]) n)) = Some t) by apply last_snoc.
  assert (Hnd : NoDup (l ++ [t])) by apply (qwf_size _ (proj1 Hs) _ _ HR).
  eexists _, _. rewrite sched_sleep_on_eq by eauto.
  erewrite sched_switch_eq; [| |eapply wait_runq_now; [by auto with weenix|exact HR'|]| |exact HR'|exact Hl|exact HT'].
  - split; [reflexivity|]. split_and!; try reflexivity.
    + unfold dispatch, deq. simpl. simplify_map_eq. rewrite (filter_ne_split l []) by done.
      by rewrite app_nil_r.
    + unfold dispatch, deq. simpl. by simplify_map_eq.
    + unfold dispatch, deq. simpl. by simplify_map_eq.
    + reflexivity.
    + reflexivity.
    + reflexivity.
    + eapply wf_dispatch; [by auto with weenix|exact HR'|exact Hl|exact HT'].
  - unfold asleep, enq. simpl. by simplify_map_eq.
  - simpl. by destruct l.
  - by auto with weenix.
Qed.

Lemma sched_sleep_on_switches_witness :
  exists s' C', sched_sleep_on [] 7 demo = Ret (tt, s') /\ curthr s' = 2 /\ ipl s' = 3 /\
    queues s' !! 7 = Some (MkQueue [1; 4; 3] 3) /\ threads s' !! 1 = Some C' /\ kt_ipl C' = 5.
Proof.
  destruct (sched_sleep_on_switches [] 7 demo [] 2 (MkThread KT_RUN 0 (Some 0) (Some 0) 0 0 2 8192 3)
    (MkQueue [4; 3] 2) 1) as (s' & C' & H1 & H2 & _ & H3 & _ & H4 & H5 & _ & _ & H6 & _);
    [exact demo_wf|discriminate|reflexivity|reflexivity|reflexivity|].
  exists s', C'. exact (conj H1 (conj H2 (conj H3 (conj H4 (conj H5 H6))))).
Defined.

(** [n] wake-ups in a row, with the threads they return. *)
Fixpoint wakeups (n : nat) (q : qid) : M sys (list (option tid)) :=
  match n with
  | O => ret []
  | S n' => let! o := sched_wakeup_on q in let! os := wakeups n' q in ret (o :: os)
  end.

Lemma wakeups_eq ts q n s :
  swf s -> q <> kt_runq -> queues s !! q = Some (MkQueue (reverse ts) n) ->
  wakeups (length ts) q s = Ret (Some <$> ts, wake_list q ts s).
Proof.
  revert s n. induction ts as [|t ts IH]; intros s n Hs Hne HQ; [done|]. simpl wakeups.
  rewrite reverse_cons in HQ.
  assert (Hl : last (tq_list (MkQueue (reverse ts ++ [t]) n)) = Some t) by apply last_snoc.
  destruct (swf_wake_last _ _ _ _ Hs Hne HQ Hl) as (Hs' & l & El & HQ').
  simpl in El, HQ'. apply app_inj_tail in El as [El _]. rewrite <- El in HQ'.
  erewrite bind_eq by (by eapply sched_wakeup_on_eq). by erewrite bind_eq by (by eapply IH).
Qed.

(** wait queues are first-in first-out and so is the run queue: if the
    threads [ts] fell asleep on [q] in this order, as many calls of
    [sched_wakeup_on] return exactly [ts] in this order, one more returns
    NULL, and the run queue gains them in the same order behind the threads
    it had; [sched_broadcast_on] terminates and leaves the very same state. *)
Theorem sched_wakeup_fifo ts q n R s :
  wf s -> q <> kt_runq -> queues s !! q = Some (MkQueue (reverse ts) n) ->
  queues s !! kt_runq = Some R ->
  exists s' m, wakeups (length ts) q s = Ret (Some <$> ts, s') /\
    sched_broadcast_on q s = Ret (tt, s') /\
    sched_wakeup_on q s' = Ret (None, s') /\
    queues s' !! kt_runq = Some (MkQueue (reverse ts ++ tq_list R) m) /\
    (forall t T, t ∈ ts -> threads s !! t = Some T -> threads s' !! t = Some (run_thr T)) /\
    (forall t, t ∉ ts -> threads s' !! t = threads s !! t) /\ wf s'.
Proof.
  intros Hwf Hne HQ HR. pose proof Hwf as [Hs _].
  destruct (wake_list_spec _ _ _ _ _ Hs Hne HQ HR) as (H1 & H2 & [m H3] & H4 & H5 & H6 & H7 & H8 & H9).
  exists (wake_list q ts s), m. split_and!; try done.
  - by eapply wakeups_eq.
  - rewrite (sched_broadcast_on_eq _ _ _ Hs Hne HQ). simpl. by rewrite reverse_involutive.
  - by eapply sched_wakeup_on_nil.
  - apply (survives_evolve s); [done|done| |done]. by eapply evolve_wake_list.
Qed.

Lemma sched_wakeup_fifo_witness :
  exists s' m, wakeups 2 7 demo = Ret ([Some 3; Some 4], s') /\
    sched_broadcast_on 7 demo = Ret (tt, s') /\
    queues s' !! kt_runq = Some (MkQueue [4; 3; 2] m).
Proof.
  destruct (sched_wakeup_fifo [3; 4] 7 2 (MkQueue [2] 1) demo) as (s' & m & H1 & H2 & _ & H3 & _);
    [exact demo_wf|discriminate|reflexivity|reflexivity|].
  exists s', m. exact (conj H1 (conj H2 H3)).
Defined.

(** [sched_cancel] marks the thread; a cancellable sleeper also leaves its
    wait queue and becomes runnable, a thread in an uncancellable sleep or
    running is left where it is, and cancelling a thread that has exited fails
    the assertion of [ktqueue_remove] because such a thread is on no queue. *)
Theorem sched_cancel_cases t T s :
  wf s -> threads s !! t = Some T -> kt_proc T <> PID_IDLE ->
  match kt_state T with
  | KT_SLEEP_CANCELLABLE =>
      exists s' q Q Q' m, sched_cancel t s = Ret (tt, s') /\ wf s' /\
        kt_wchan T = Some q /\ queues s !! q = Some Q /\
        threads s' !! t = Some (run_thr (with_cancelled 1 T)) /\
        queues s' !! q = Some (MkQueue (filter (fun u => u <> t) (tq_list Q)) (tq_size Q + -1)) /\
        queues s !! kt_runq = Some Q' /\ queues s' !! kt_runq = Some (MkQueue (t :: tq_list Q') m)
  | KT_RUN | KT_SLEEP =>
      exists s', sched_cancel t s = Ret (tt, s') /\ wf s' /\ queues s' = queues s /\
        threads s' = <[t := with_cancelled 1 T]> (threads s)
  | KT_EXITED | KT_NO_STATE => sched_cancel t s = Stop Assert
  end.
Proof.
  intros Hwf HT Hp. pose proof Hwf as [Hs _]. destruct (qwf_runq _ (proj1 Hs)) as [R HR].
  assert (Hrun : kt_state T = KT_RUN \/ kt_state T = KT_SLEEP ->
    exists s', sched_cancel t s = Ret (tt, s') /\ wf s' /\ queues s' = queues s /\
        threads s' = <[t := with_cancelled 1 T]> (threads s)).
  { intros Hst. rewrite (sched_cancel_running _ _ _ HT Hst). eexists. split; [done|].
    destruct (cancel_survives t T s Hwf HT) as (s' & E & W & _); try (naive_solver congruence).
    rewrite (sched_cancel_running _ _ _ HT Hst) in E. simplify_eq.
    split_and!; [done|done|]. unfold cancel_mark. simpl. by rewrite (insert_alter _ _ _ _ HT). }
  destruct (kt_state T) eqn:Hst; eauto using sched_cancel_exited.
  pose proof (proj2 Hs _ _ HT) as Hok. unfold state_ok in Hok. rewrite Hst in Hok.
  destruct (kt_wchan T) as [q|] eqn:Hw; [|naive_solver]. case_decide; [done|].
  destruct (qwf_on _ (proj1 Hs) _ _ _ HT Hw) as (Q & HQ & _).
  destruct (cancel_survives t T s Hwf HT) as (s' & E & W & _); [congruence|congruence|done|].
  pose proof (sched_cancel_asleep t T q s Hs HT Hst Hw H Hp) as E'. rewrite E in E'. simplify_eq.
  eexists _, q, Q, R, _. split_and!; try done.
  - erewrite wake_lookup; [done|]. unfold cancel_mark. simpl. by simplify_map_eq.
  - by rewrite (wake_queue _ _ Q) by done.
  - by rewrite (wake_runq _ _ R) by done.
Qed.

Lemma sched_cancel_cases_witness :
  exists s', sched_cancel 4 demo = Ret (tt, s') /\ queues s' !! 7 = Some (MkQueue [3] 1).
Proof.
  destruct (sched_cancel_cases 4 (MkThread KT_SLEEP_CANCELLABLE 0 (Some 7) (Some 7) 0 0 4 16384 0) demo)
    as (s' & q & Q & Q' & m & H1 & _ & H2 & H3 & _ & H4 & _); [exact demo_wf|reflexivity|discriminate|].
  exists s'. split; [exact H1|]. injection H2 as <-. injection H3 as <-. exact H4.
Defined.

(** a thread that is cancelled while in a cancellable sleep gets 0 from
    [sched_cancellable_sleep_on], not -EINTR: the flag is tested only before
    the sleep.  A thread already cancelled gets -EINTR without sleeping. *)
Theorem sched_cancelled_sleeper_gets_zero evs q s C Q l t T n :
  wf s -> q <> kt_runq -> queues s !! q = Some Q ->
  threads s !! curthr s = Some C ->
  queues s !! kt_runq = Some (MkQueue (l ++ [t]) n) -> threads s !! t = Some T ->
  (kt_cancelled C = 1 -> sched_cancellable_sleep_on evs q s = Ret (- EINTR, s)) /\
  (kt_cancelled C = 0 -> kt_proc C <> PID_IDLE ->
   exists s1 s2 C2, sched_cancellable_sleep_on evs q s = Ret (0, s1) /\ curthr s1 = t /\
     sched_cancel (curthr s) s1 = Ret (tt, s2) /\
     threads s2 !! curthr s = Some C2 /\ kt_cancelled C2 = 1 /\ kt_wchan C2 = Some kt_runq).
Proof.
  intros Hwf Hne HQ HC HR HT. pose proof Hwf as [Hs (C' & HC' & Hcw & _)]. simplify_eq. split; intros Hc.
  { unfold sched_cancellable_sleep_on. exec. by rewrite Hc. }
  intros Hp. set (x := KT_SLEEP_CANCELLABLE).
  assert (Htc : t <> curthr s).
  { intros ->. destruct (qwf_mem _ (proj1 Hs) _ _ (curthr s) HR) as (T' & ? & ?); [set_solver|]. congruence. }
  assert (Hs1 : swf (asleep x q s)) by (apply swf_asleep; eauto).
  assert (HR' : queues (parked (asleep x q s)) !! kt_runq = Some (MkQueue (l ++ [t]) n)).
  { unfold parked, asleep, enq. simpl. by simplify_map_eq. }
  assert (HT' : threads (parked (asleep x q s)) !! t = Some T).
  { unfold parked, asleep, enq. simpl. by simplify_map_eq. }
  assert (Hl : last (tq_list (MkQueue (l ++ [t]) n)) = Some t) by apply last_snoc.
  assert (Hw : wf (dispatch t T (parked (asleep x q s)))).
  { eapply wf_dispatch; [by auto with weenix|exact HR'|exact Hl|exact HT']. }
  set (C1 := with_ipl (ipl s) (with_wchan (Some q) (with_qlink (Some q) (with_state x C)))).
  assert (HC1 : threads (dispatch t T (parked (asleep x q s))) !! curthr s = Some C1).
  { unfold dispatch, deq, parked, asleep, enq. simpl. by simplify_map_eq. }
  eexists _, _, _. split_and!.
  - rewrite (sched_cancellable_sleep_on_eq _ _ _ _ Hwf (mk_is_Some _ _ HQ) HC) by lia.
    erewrite bind_eq; [reflexivity|]. eapply sched_switch_eq; [| |exact (swf_parked _ Hs1)|exact HR'|exact Hl|exact HT'].
    + unfold asleep, enq. simpl. by simplify_map_eq.
    + eapply wait_runq_now; [by auto with weenix|exact HR'|]. simpl. by destruct l.
  - done.
  - eapply (sched_cancel_asleep _ C1 q); [apply Hw|exact HC1|done..].
  - erewrite wake_lookup; [reflexivity|]. unfold cancel_mark. simpl.
    apply lookup_alter_Some. left. split; [done|]. exists C1. split; [exact HC1|reflexivity].
  - done.
  - done.
Qed.

Lemma sched_cancelled_sleeper_gets_zero_witness :
  exists s1 s2 C2, sched_cancellable_sleep_on [] 7 demo = Ret (0, s1) /\
     sched_cancel 1 s1 = Ret (tt, s2) /\ threads s2 !! 1 = Some C2 /\ kt_cancelled C2 = 1.
Proof.
  destruct (sched_cancelled_sleeper_gets_zero [] 7 demo (MkThread KT_RUN 0 None None 0 0 1 4096 0)
    (MkQueue [4; 3] 2) [] 2 (MkThread KT_RUN 0 (Some 0) (Some 0) 0 0 2 8192 3) 1) as [_ H];
    [exact demo_wf|discriminate|reflexivity|reflexivity|reflexivity|reflexivity|].
  destruct H as (s1 & s2 & C2 & H1 & _ & H2 & H3 & H4 & _); [reflexivity|discriminate|].
  exists s1, s2, C2. exact (conj H1 (conj H2 (conj H3 H4))).
Defined.

(** ** When a switch comes back *)

Definition nonempty_q (s : sys) (q : qid) : Prop :=
  exists Q, queues s !! q = Some Q /\ tq_list Q <> [].

#[export] Instance nonempty_q_dec s q : Decision (nonempty_q s q).
Proof.
  unfold nonempty_q. destruct (queues s !! q) as [Q|]; [|right; naive_solver].
  destruct (tq_list Q) as [|t l] eqn:E; [right; naive_solver congruence|].
  left. exists Q. by rewrite E.
Defined.

Lemma intr_busy_dec s e :
  {exists q, intr_q e = Some q /\ nonempty_q s q} + {~ exists q, intr_q e = Some q /\ nonempty_q s q}.
Proof.
  destruct (intr_q e) as [q|]; [|right; naive_solver].
  destruct (decide (nonempty_q s q)); [left; eauto|right; naive_solver].
Qed.

Lemma handle_idle e s :
  swf s -> intr_ok s e -> (forall q, intr_q e = Some q -> ~ nonempty_q s q) ->
  intr_handle e s = Ret (tt, s).
Proof.
  intros Hs Hok Hn. destruct e as [q|q|]; simpl; [| |done];
    destruct Hok as (Hne & [l m] & HQ);
    (destruct (decide (l = [])) as [->|Hl]; [|exfalso; apply (Hn q eq_refl); by eexists]).
  - by erewrite bind_eq by (by eapply sched_wakeup_on_nil).
  - by rewrite (sched_broadcast_on_eq _ _ _ Hs Hne HQ).
Qed.

Lemma handle_busy e q s s' :
  swf s -> intr_ok s e -> intr_q e = Some q -> nonempty_q s q ->
  intr_handle e s = Ret (tt, s') -> nonempty_q s' kt_runq.
Proof.
  intros Hs Hok Hq (Q & HQ & Hl) E. destruct (qwf_runq _ (proj1 Hs)) as [R HR].
  destruct e as [q'|q'|]; simplify_eq/=; destruct Hok as [Hne _].
  - destruct (last (tq_list Q)) as [t|] eqn:El; [|by apply last_None in El].
    erewrite bind_eq in E by (by eapply sched_wakeup_on_eq). injection E as <-.
    eexists. split; [by apply wake_runq|]. done.
  - rewrite (sched_broadcast_on_eq _ _ _ Hs Hne HQ) in E. simplify_eq.
    assert (HQ' : queues s !! q = Some (MkQueue (reverse (reverse (tq_list Q))) (tq_size Q))).
    { rewrite reverse_involutive. by destruct Q. }
    destruct (wake_list_spec _ _ _ _ _ Hs Hne HQ' HR) as (_ & _ & [m H3] & _).
    eexists. split; [done|]. simpl. rewrite reverse_involutive. by destruct (tq_list Q).
Qed.

Lemma wait_runq_returns evs s :
  swf s -> Forall (intr_ok s) evs ->
  (exists s', wait_runq evs s = Ret (tt, s')) <->
  nonempty_q s kt_runq \/ Exists (fun e => exists q, intr_q e = Some q /\ nonempty_q s q) evs.
Proof.
  revert s. induction evs as [|e evs IH]; intros s Hs Hev;
    destruct (qwf_runq _ (proj1 Hs)) as [[l n] HR];
    destruct (qwf_size _ (proj1 Hs) _ _ HR) as [Hsz _]; simpl in Hsz;
    (destruct (decide (l = [])) as [->|Hl];
      [|split; [intros _; left; eexists; eauto|intros _; exists s; by eapply wait_runq_now]]).
  - split; [|intros [(Q & HQ & ?)|H]; [by simplify_eq|by inversion H]].
    intros [s' E]. simpl wait_runq in E. rewrite (bind_eq _ _ _ _ _ (q_get_eq _ _ _ HR)) in E.
    simpl in E. by subst n.
  - apply Forall_cons in Hev as [He Hev]. rewrite (wait_runq_step _ _ _ _ HR Hsz).
    set (s1 := set_intr true (set_ipl IPL_LOW (set_intr false s))).
    assert (Hs1 : swf s1) by (unfold s1; auto with weenix).
    destruct (intr_handle_spec e s1 Hs1 He) as (s2 & Hh & Hs2 & Hev2).
    rewrite (bind_eq _ _ _ _ _ Hh). unfold intr_setipl. rewrite bind_modify.
    assert (Hn : forall q, nonempty_q s1 q <-> nonempty_q s q) by done.
    rewrite Exists_cons, IH; [|by auto with weenix|].
    2: { eapply Forall_impl; [exact Hev|]. intros x Hx.
         apply (intr_ok_evolve s1); [|done]. etrans; [exact Hev2|by apply evolve_same]. }
    destruct (intr_busy_dec s e) as [(q & Eq & Hq)|Hb].
    + split; [intros _; right; left; eauto|intros _; left].
      exact (handle_busy e q s1 s2 Hs1 He Eq Hq Hh).
    + assert (Hni : forall q, intr_q e = Some q -> ~ nonempty_q s q).
      { intros q Eq Hq. apply Hb. eauto. }
      rewrite (handle_idle e s1 Hs1 He Hni) in Hh. simplify_eq.
      split; [intros [?|?]; [by left|by right; right]|].
      intros [?|[(q & Eq & Hq)|?]]; [by left|by destruct (Hni q Eq)|by right].
Qed.

(** [sched_switch] with an empty run queue waits for interrupts at IPL_LOW
    and comes back exactly when one of them wakes a thread: it returns if and
    only if the run queue is not empty or an interrupt that occurs wakes a
    wait queue with a sleeper; otherwise it waits for ever, and it never ends
    in a failed assertion. *)
Theorem sched_switch_returns_iff evs s C :
  swf s -> threads s !! curthr s = Some C -> Forall (intr_ok s) evs ->
  ((exists s', sched_switch evs s = Ret (tt, s')) <->
   nonempty_q s kt_runq \/ Exists (fun e => exists q, intr_q e = Some q /\ nonempty_q s q) evs) /\
  (forall f, sched_switch evs s = Stop f -> f = Diverge).
Proof.
  intros Hs HC Hev. split.
  - rewrite <- (wait_runq_returns evs (parked s)); [|by auto with weenix|done].
    pose proof (wait_runq_spec evs (parked s)) as H. unfold wpd in H.
    destruct (wait_runq evs (parked s)) as [[[] s']|f] eqn:Hw.
    + destruct H as (Hs' & Hev' & R & t & HR & Hl); [by auto with weenix|done|].
      destruct (qwf_last _ _ _ _ (proj1 Hs') HR Hl) as (T & HT & _).
      split; intros _; [by eexists|]. eexists. by eapply sched_switch_eq.
    + split; [|by intros [? ?]]. intros [s' E]. by erewrite sched_switch_stuck in E.
  - intros f E. pose proof (sched_switch_spec evs s C Hs HC Hev) as H. unfold wpd in H. by rewrite E in H.
Qed.

(** Everybody asleep on queue 7. *)
Definition demo_idle : sys :=
  MkSys
    (<[1 := MkThread KT_SLEEP 0 (Some 7) (Some 7) 0 0 1 4096 0]> ∅)
    (<[0 := MkQueue [] 0]> (<[7 := MkQueue [1] 1]> (<[8 := MkQueue [] 0]> ∅)))
    1 1 0 true.

Lemma demo_idle_swf : swf demo_idle.
Proof.
  split; [split|].
  - vm_compute. eauto.
  - intros q Q H. unfold demo_idle in H. simpl in H.
    rewrite !lookup_insert_Some in H. destruct_and?; naive_solver (eauto using NoDup_nil_2, NoDup_singleton).
  - intros q Q t H Hin. unfold demo_idle in *. simpl in *. rewrite !lookup_insert_Some in H.
    destruct H as [[<- <-]|[_ [[<- <-]|[_ [[<- <-]|[_ H]]]]]]; [set_solver| |set_solver|done].
    apply list_elem_of_singleton in Hin as ->. eexists. split; reflexivity.
  - intros t T q H Hq. unfold demo_idle in *. simpl in *. rewrite lookup_insert_Some in H.
    destruct H as [[<- <-]|[_ H]]; [|done]. injection Hq as <-. eexists. split; [reflexivity|set_solver].
  - intros t T H. unfold demo_idle in H. simpl in H. rewrite lookup_insert_Some in H. naive_solver.
  - intros t T H. unfold demo_idle in H. simpl in H. rewrite lookup_insert_Some in H.
    destruct H as [[<- <-]|[_ H]]; [|done]. vm_compute. eauto.
Qed.

Lemma sched_switch_returns_iff_witness :
  (exists s', sched_switch [INone; IWakeup 8; IWakeup 7] demo_idle = Ret (tt, s')) /\
  ~ (exists s', sched_switch [INone; IWakeup 8] demo_idle = Ret (tt, s')).
Proof.
  split.
  - destruct (sched_switch_returns_iff [INone; IWakeup 8; IWakeup 7] demo_idle
      (MkThread KT_SLEEP 0 (Some 7) (Some 7) 0 0 1 4096 0)) as [[_ H] _];
      [exact demo_idle_swf|reflexivity| |apply H].
    + repeat constructor; vm_compute; eauto; discriminate.
    + right. right. right. left. exists 7. split; [reflexivity|].
      eexists. split; [reflexivity|discriminate].
  - intros [s' E]. vm_compute in E. discriminate E.
Defined.
