(* ===== verification/Kmutex.v ===== *)
(** * Kernel mutexes

    Models proc/kmutex.c on top of the scheduler.  [km_waitq] is the first
    field of [kmutex_t], so a mutex and its wait queue have the same address
    and one name here. *)

From S2P Require Import Prelude Sched.

Abbreviation mid := Z (only parsing).

(** [mutexes] gives the [km_holder] of every mutex. *)
Record ksys : Type := MkK {
  ksched : sys;
  mutexes : gmap mid (option tid)
}.

Definition km_waitq (m : mid) : qid := m.

Definition put_sched (s : sys) (k : ksys) : ksys := MkK s (mutexes k).
Definition sched_call {A} (m : M sys A) : M ksys A := zoom ksched put_sched m.

Definition km_holder (m : mid) : M ksys (option tid) :=
  let! o := gets (fun k => mutexes k !! m) in deref o.
Definition km_holder_set (m : mid) (h : option tid) : M ksys unit :=
  modify (fun k => MkK (ksched k) (<[m := h]> (mutexes k))).

Definition kmutex_init (m : mid) : M ksys unit :=
  km_holder_set m None ;;;
  sched_call (sched_queue_init (km_waitq m)).

Definition kmutex_lock (evs : list intr) (m : mid) : M ksys unit :=
  let! me := gets (fun k => curthr (ksched k)) in
  let! h := km_holder m in
  KASSERT (bool_decide (Some me <> h)) ;;;
  match h with
  | None => km_holder_set m (Some me)
  | Some _ => sched_call (sched_sleep_on evs (km_waitq m))
  end.

Definition kmutex_lock_cancellable (evs : list intr) (m : mid) : M ksys Z :=
  let! me := gets (fun k => curthr (ksched k)) in
  let! h := km_holder m in
  KASSERT (bool_decide (Some me <> h)) ;;;
  match h with
  | Some _ => sched_call (sched_cancellable_sleep_on evs (km_waitq m)) ;;; ret tt
  | None => km_holder_set m (Some me)
  end ;;;
  ret 0.

Definition kmutex_unlock (m : mid) : M ksys unit :=
  let! me := gets (fun k => curthr (ksched k)) in
  let! h := km_holder m in
  if bool_decide (h = Some me) then
    KASSERT (bool_decide (Some me = h)) ;;;
    let! t := sched_call (sched_wakeup_on (km_waitq m)) in
    km_holder_set m t
  else
    KASSERT (bool_decide (Some me <> h)).

(** ** Queues the scheduler's other users leave alone *)

(** [P] selects the wait queues of the mutexes. *)
Section frame.
Variable P : qid -> Prop.
Hypothesis P_runq : ~ P kt_runq.

Record framed (s s' : sys) : Prop := {
  fr_q : forall q, P q -> queues s' !! q = queues s !! q;
  fr_t : forall t T q, threads s !! t = Some T -> kt_wchan T = Some q -> P q ->
    exists T', threads s' !! t = Some T' /\ kt_wchan T' = Some q /\ kt_state T' = kt_state T
}.

#[export] Instance framed_preorder : PreOrder framed.
Proof.
  split.
  - intros s. split; eauto.
  - intros s1 s2 s3 [Q1 T1] [Q2 T2]. split.
    + intros q Hq. by rewrite Q2, Q1.
    + intros t T q HT Hw Hq. destruct (T1 _ _ _ HT Hw Hq) as (T' & HT' & Hw' & <-). eauto.
Qed.

(** A thread that is on no protected queue may be changed at will. *)
Lemma framed_thr t T f s :
  threads s !! t = Some T -> (forall q, kt_wchan T = Some q -> ~ P q) ->
  framed s (set_threads (alter f t) s).
Proof.
  intros HT Hq. split; [done|]. intros u U q HU Hw HP. simpl.
  destruct (decide (u = t)) as [->|?]; simplify_map_eq; [by destruct (Hq q)|eauto].
Qed.

(** Changes of fields that are neither the state nor the queue. *)
Lemma framed_field t f s :
  (forall T, kt_wchan (f T) = kt_wchan T) -> (forall T, kt_state (f T) = kt_state T) ->
  framed s (set_threads (alter f t) s).
Proof.
  intros H1 H2. split; [done|]. intros u U q HU Hw HP. simpl.
  destruct (decide (u = t)) as [->|?]; simplify_map_eq; [|eauto].
  exists (f U). by rewrite H1, H2.
Qed.

Lemma framed_queue q f s : ~ P q -> framed s (set_queues (alter f q) s).
Proof.
  intros Hq. split; simpl; [|eauto]. intros q' Hq'. rewrite lookup_alter_ne; [done|by intros ->].
Qed.

Lemma framed_same s s' : threads s' = threads s -> queues s' = queues s -> framed s s'.
Proof. intros H1 H2. split; rewrite ?H1, ?H2; eauto. Qed.

Lemma framed_enq q t T s :
  ~ P q -> threads s !! t = Some T -> (forall q', kt_wchan T = Some q' -> ~ P q') -> framed s (enq q t s).
Proof. intros Hq HT Hw. unfold enq. etrans; [by eapply framed_thr|by apply framed_queue]. Qed.

Lemma framed_deq q t T s :
  ~ P q -> threads s !! t = Some T -> kt_wchan T = Some q -> framed s (deq q t s).
Proof.
  intros Hq HT Hw. unfold deq. etrans; [eapply framed_thr; [done|]|by apply framed_queue].
  naive_solver.
Qed.

Lemma framed_wake q t T s :
  ~ P q -> threads s !! t = Some T -> kt_wchan T = Some q -> framed s (wake q t s).
Proof.
  intros Hq HT Hw. unfold wake. etrans; [by eapply framed_deq|].
  assert (HT' : threads (deq q t s) !! t = Some (with_wchan None (with_qlink None T))).
  { unfold deq. simpl. by simplify_map_eq. }
  etrans; [by eapply framed_thr|].
  eapply (framed_enq _ _ (with_state KT_RUN (with_wchan None (with_qlink None T)))); [done| |done].
  unfold deq. simpl. by simplify_map_eq.
Qed.

Lemma framed_wake_list ts q n s :
  ~ P q -> swf s -> q <> kt_runq -> queues s !! q = Some (MkQueue (reverse ts) n) ->
  framed s (wake_list q ts s).
Proof.
  intros HP. revert s n. induction ts as [|t ts IH]; intros s n Hs Hne HQ; [reflexivity|].
  rewrite reverse_cons in HQ.
  assert (Hl : last (tq_list (MkQueue (reverse ts ++ [t]) n)) = Some t) by apply last_snoc.
  destruct (qwf_last _ _ _ _ (proj1 Hs) HQ Hl) as (T & HT & Hw & Hk).
  destruct (swf_wake_last _ _ _ _ Hs Hne HQ Hl) as (Hs' & l & El & HQ').
  simpl in El, HQ'. apply app_inj_tail in El as [El _]. rewrite <- El in HQ'.
  etrans; [by eapply framed_wake|]. by eapply IH.
Qed.

Definition intr_safe (e : intr) : Prop := forall q, intr_q e = Some q -> ~ P q.

Lemma framed_handle e s s' :
  swf s -> intr_ok s e -> intr_safe e -> intr_handle e s = Ret (tt, s') -> framed s s'.
Proof.
  intros Hs Hok Hsafe E. destruct e as [q|q|]; simpl in E.
  - destruct Hok as (Hne & [l n] & HQ). destruct (last l) as [t|] eqn:Hl.
    + erewrite bind_eq in E by (by eapply sched_wakeup_on_eq). injection E as <-.
      destruct (qwf_last _ _ _ _ (proj1 Hs) HQ Hl) as (T & HT & Hw & _).
      eapply framed_wake; eauto.
    + apply last_None in Hl as ->. erewrite bind_eq in E by (by eapply sched_wakeup_on_nil).
      by injection E as <-.
  - destruct Hok as (Hne & Q & HQ). rewrite (sched_broadcast_on_eq _ _ _ Hs Hne HQ) in E.
    injection E as <-. apply (framed_wake_list _ _ (tq_size Q)); [by apply Hsafe|done|done|].
    rewrite reverse_involutive. by destruct Q.
  - by injection E as <-.
Qed.

Lemma framed_wait evs s s' :
  swf s -> Forall (intr_ok s) evs -> Forall intr_safe evs ->
  wait_runq evs s = Ret (tt, s') -> framed s s'.
Proof.
  revert s. induction evs as [|e evs IH]; intros s Hs Hok Hsafe E;
    destruct (qwf_runq _ (proj1 Hs)) as [[l n] HR];
    destruct (qwf_size _ (proj1 Hs) _ _ HR) as [Hsz _]; simpl in Hsz;
    (destruct (decide (l = [])) as [->|Hl];
     [|rewrite (wait_runq_now _ _ _ Hs HR Hl) in E; by injection E as <-]).
  - simpl wait_runq in E. rewrite (bind_eq _ _ _ _ _ (q_get_eq _ _ _ HR)) in E. simpl in E. by subst n.
  - rewrite (wait_runq_step _ _ _ _ HR Hsz) in E.
    apply Forall_cons in Hok as [He Hok]. apply Forall_cons in Hsafe as [Se Hsafe].
    set (s1 := set_intr true (set_ipl IPL_LOW (set_intr false s))) in E.
    assert (Hs1 : swf s1) by (unfold s1; auto with weenix).
    destruct (intr_handle_spec e s1 Hs1 He) as (s2 & Hh & Hs2 & Hev2).
    rewrite (bind_eq _ _ _ _ _ Hh) in E. unfold intr_setipl in E. rewrite bind_modify in E.
    etrans; [by apply (framed_same s s1)|]. etrans; [by eapply framed_handle|].
    etrans; [|eapply IH; [|..|exact E]]; [by apply framed_same|by auto with weenix| |done].
    eapply Forall_impl; [exact Hok|]. intros x Hx. apply (intr_ok_evolve s1); [|done].
    etrans; [exact Hev2|by apply evolve_same].
Qed.

Lemma framed_dispatch t T R s :
  swf s -> queues s !! kt_runq = Some R -> last (tq_list R) = Some t ->
  threads s !! t = Some T -> framed s (dispatch t T s).
Proof.
  intros Hs HR Hl HT.
  destruct (qwf_last _ _ _ _ (proj1 Hs) HR Hl) as (T' & HT' & Hw & _). simplify_eq.
  unfold dispatch. etrans; [by eapply framed_deq|].
  transitivity (set_threads (alter (with_state KT_RUN) t) (deq kt_runq t s));
    [|by apply framed_same].
  eapply framed_thr; [unfold deq; simpl; by simplify_map_eq|done].
Qed.

Lemma framed_switch evs s s' C :
  swf s -> threads s !! curthr s = Some C -> Forall (intr_ok s) evs -> Forall intr_safe evs ->
  sched_switch evs s = Ret (tt, s') -> framed s s'.
Proof.
  intros Hs HC Hok Hsafe E.
  destruct (sched_switch_inv _ _ _ _ Hs HC Hok E) as (s2 & R & t & T & Hw & Hs2 & _ & HR & Hl & HT & ->).
  etrans; [|by eapply framed_dispatch]. etrans; [|eapply framed_wait; [..|exact Hw]];
    [|by auto with weenix|done|done].
  transitivity (set_threads (alter (with_ipl (ipl s)) (curthr s)) s);
    [by apply framed_field|by apply framed_same].
Qed.

Lemma framed_asleep x q s : wf s -> ~ P q -> framed s (asleep x q s).
Proof.
  intros [_ (C & HC & Hw & _)] Hq. unfold asleep.
  etrans; [eapply framed_thr; [exact HC|]|eapply framed_enq; [done| |]].
  - intros q'. by rewrite Hw.
  - simpl. by simplify_map_eq.
  - simpl. by rewrite Hw.
Qed.

Lemma framed_sleep evs x q s s' :
  wf s -> wait_q s q -> x = KT_SLEEP \/ x = KT_SLEEP_CANCELLABLE -> ~ P q ->
  Forall (intr_ok s) evs -> Forall intr_safe evs ->
  sched_switch evs (asleep x q s) = Ret (tt, s') -> framed s s'.
Proof.
  intros Hwf [Hne HQ] Hx HP Hok Hsafe E. pose proof Hwf as [_ (C & HC & _)].
  etrans; [by apply (framed_asleep x q)|]. eapply framed_switch; [| | |exact Hsafe|exact E].
  - by apply swf_asleep.
  - unfold asleep, enq. simpl. by simplify_map_eq.
  - eapply Forall_impl; [exact Hok|]. intros e. apply intr_ok_queues. intros q'.
    unfold asleep, enq. simpl. by rewrite lookup_alter_is_Some.
Qed.

(** The operation touches no protected queue; a cancelled thread on one is in
    an uncancellable sleep. *)
Definition op_safe (s : sys) (o : sched_op) : Prop :=
  match o with
  | OSleep evs q | OCancellableSleep evs q => ~ P q /\ Forall intr_safe evs
  | OWakeup q | OBroadcast q => ~ P q
  | OCancel t => forall T q, threads s !! t = Some T -> kt_wchan T = Some q -> P q -> kt_state T = KT_SLEEP
  | OMakeRunnable t => True
  | OYield evs => Forall intr_safe evs
  end.

Lemma framed_cancel t T s s' :
  wf s -> threads s !! t = Some T -> kt_proc T <> PID_IDLE -> op_safe s (OCancel t) ->
  sched_cancel t s = Ret (tt, s') -> framed s s'.
Proof.
  intros Hwf HT Hp Hsafe E. pose proof Hwf as [Hs _].
  assert (Hm : framed s (cancel_mark t s)) by by apply framed_field.
  destruct (kt_state T) eqn:Hst.
  1, 5: rewrite (sched_cancel_exited t T s Hs HT) in E; [done|auto].
  1, 2: rewrite (sched_cancel_running t T s HT) in E; [by injection E as <-|auto].
  pose proof (proj2 Hs _ _ HT) as Hok. unfold state_ok in Hok. rewrite Hst in Hok.
  destruct (kt_wchan T) as [q|] eqn:Hw; [|naive_solver]. case_decide; [done|].
  rewrite (sched_cancel_asleep t T q s) in E by done. injection E as <-.
  etrans; [exact Hm|]. eapply (framed_wake _ _ (with_cancelled 1 T)); [| |done].
  - intros HPq. specialize (Hsafe _ _ HT Hw HPq). congruence.
  - unfold cancel_mark. simpl. by simplify_map_eq.
Qed.

Lemma framed_runnable t T s :
  threads s !! t = Some T -> kt_wchan T = None -> framed s (runnable t s).
Proof.
  intros HT Hw. unfold runnable. etrans; [eapply framed_thr; [exact HT|]|eapply framed_enq; [done| |]].
  - intros q'. by rewrite Hw.
  - simpl. by simplify_map_eq.
  - simpl. by rewrite Hw.
Qed.

Lemma framed_op o s s' :
  wf s -> op_ok s o -> op_safe s o -> run_op o s = Ret (tt, s') -> framed s s'.
Proof.
  intros Hwf Hok Hsafe E. pose proof Hwf as [Hs (C & HC & Hcw & Hst & Hcp)].
  destruct o as [evs q|evs q|q|q|t|t|evs]; simpl in Hok, Hsafe; simpl run_op in E.
  - destruct Hok as [Hq Hev], Hsafe as [HP Hse]. rewrite sched_sleep_on_eq in E by (done || apply Hq).
    eapply (framed_sleep evs KT_SLEEP q); eauto.
  - destruct Hok as [Hq Hev], Hsafe as [HP Hse]. destruct (decide (kt_cancelled C = 1)) as [Ec|Hnc].
    + unfold sched_cancellable_sleep_on in E. rewrite !bind_bind, bind_gets in E.
      rewrite bind_bind, (bind_eq _ _ _ _ _ (thr_get_eq _ _ _ HC)), Ec in E. by injection E as <-.
    + unfold bind at 1 in E.
      rewrite (sched_cancellable_sleep_on_eq _ _ _ _ Hwf (proj2 Hq) HC Hnc) in E. unfold bind in E.
      destruct (sched_switch _ _) as [[[] s2]|] eqn:E2; [|done]. injection E as <-.
      eapply (framed_sleep evs KT_SLEEP_CANCELLABLE q); eauto.
  - eapply (framed_handle (IWakeup q)); [done|exact Hok| |exact E]. intros q' [= <-]. done.
  - eapply (framed_handle (IBroadcast q)); [done|exact Hok| |exact E]. intros q' [= <-]. done.
  - destruct Hok as (T & HT & _ & _ & Hp). exact (framed_cancel t T s s' Hwf HT Hp Hsafe E).
  - destruct Hok as (T & HT & Hw & Hp & _).
    rewrite (sched_make_runnable_eq t T s (proj1 Hs) HT Hw Hp) in E. injection E as <-. by eapply framed_runnable.
  - destruct Hok as [Hp Hev]. rewrite bind_gets in E.
    rewrite (bind_eq _ _ _ _ _ (sched_make_runnable_eq _ C s (proj1 Hs) HC Hcw ltac:(congruence))) in E.
    etrans; [by eapply framed_runnable|]. eapply framed_switch; [by eapply swf_runnable| | |exact Hsafe|exact E].
    + unfold runnable, enq. simpl. by simplify_map_eq.
    + eapply Forall_impl; [exact Hev|]. intros e. apply intr_ok_queues. intros q.
      unfold runnable, enq. simpl. by rewrite lookup_alter_is_Some.
Qed.
End frame.

(** ** Clients of the mutexes *)

(** The history the code does not record: which thread has returned from
    locking which mutex, and which thread is inside a call of [kmutex_lock]
    that had to sleep. *)
Record world : Type := MkWorld {
  kst : ksys;
  held : gset (tid * mid);
  pending : gmap tid mid
}.

Definition wcur (w : world) : tid := curthr (ksched (kst w)).
Definition is_mutex (w : world) (m : mid) : Prop := is_Some (mutexes (kst w) !! m).

(** One step of the running thread [t].  It calls [kmutex_lock] (and, when it
    is scheduled again, returns from it), calls [kmutex_unlock] on a mutex it
    has locked, or makes any other use of the scheduler that leaves the wait
    queues of the mutexes alone. *)
Inductive wstep (w : world) : world -> Prop :=
| step_lock_free m k' :
    pending w !! wcur w = None -> mutexes (kst w) !! m = Some None ->
    (forall evs, kmutex_lock evs m (kst w) = Ret (tt, k')) ->
    wstep w (MkWorld k' ({[(wcur w, m)]} ∪ held w) (pending w))
| step_lock_wait evs m h k' :
    pending w !! wcur w = None -> (wcur w, m) ∉ held w -> mutexes (kst w) !! m = Some (Some h) ->
    Forall (intr_ok (ksched (kst w))) evs -> Forall (intr_safe (is_mutex w)) evs ->
    kmutex_lock evs m (kst w) = Ret (tt, k') ->
    wstep w (MkWorld k' (held w) (<[wcur w := m]> (pending w)))
| step_lock_return m :
    pending w !! wcur w = Some m ->
    wstep w (MkWorld (kst w) ({[(wcur w, m)]} ∪ held w) (delete (wcur w) (pending w)))
| step_unlock m k' :
    pending w !! wcur w = None -> (wcur w, m) ∈ held w ->
    kmutex_unlock m (kst w) = Ret (tt, k') ->
    wstep w (MkWorld k' (held w ∖ {[(wcur w, m)]}) (pending w))
| step_other o k' :
    pending w !! wcur w = None ->
    op_ok (ksched (kst w)) o -> op_safe (is_mutex w) (ksched (kst w)) o ->
    sched_call (run_op o) (kst w) = Ret (tt, k') ->
    wstep w (MkWorld k' (held w) (pending w)).

(** The wait queue [l] of a mutex with holder [h]. *)
Record mutex_ok (w : world) (m : mid) (h : option tid) (l : list tid) : Prop := {
  mo_wait : forall t, t ∈ l -> pending w !! t = Some m /\
    exists T, threads (ksched (kst w)) !! t = Some T /\ kt_state T = KT_SLEEP;
  mo_free : h = None -> l = [];
  mo_held : forall t, h = Some t -> (t ∉ l) /\ ((t, m) ∈ held w \/ pending w !! t = Some m);
  mo_pending : forall t, pending w !! t = Some m -> t ∈ l \/ h = Some t
}.

Record winv (w : world) : Prop := {
  wi_wf : wf (ksched (kst w));
  wi_runq : ~ is_mutex w kt_runq;
  wi_mutex : forall m h, mutexes (kst w) !! m = Some h ->
    exists Q, queues (ksched (kst w)) !! m = Some Q /\ mutex_ok w m h (tq_list Q);
  wi_held : forall t m, (t, m) ∈ held w ->
    mutexes (kst w) !! m = Some (Some t) /\ pending w !! t <> Some m;
  wi_pending : forall t m, pending w !! t = Some m -> is_mutex w m
}.

Lemma winv_cur_not_waiting w m Q :
  winv w -> queues (ksched (kst w)) !! m = Some Q -> wcur w ∉ tq_list Q.
Proof.
  intros [Hwf _ _ _ _] HQ Hin. destruct Hwf as [[Hq _] (C & HC & Hw & _)].
  destruct (qwf_mem _ Hq _ _ _ HQ Hin) as (T & HT & HTw). unfold wcur in HT. congruence.
Qed.

(** A change of the scheduler state that leaves the mutexes' queues alone. *)
Lemma mutex_ok_framed w s' m h Q :
  qwf (ksched (kst w)) -> is_mutex w m -> queues (ksched (kst w)) !! m = Some Q ->
  framed (is_mutex w) (ksched (kst w)) s' ->
  mutex_ok w m h (tq_list Q) ->
  queues s' !! m = Some Q /\ mutex_ok (MkWorld (put_sched s' (kst w)) (held w) (pending w)) m h (tq_list Q).
Proof.
  intros Hq Hm HQ Hfr [H1 H2 H3 H4]. split; [by etrans; [exact (fr_q _ _ _ Hfr m Hm)|]|].
  split; simpl; [|done..]. intros t Ht. destruct (H1 t Ht) as (Hp & T & HT & Hst).
  destruct (qwf_mem _ Hq _ _ _ HQ Ht) as (T' & HT' & Hw). simplify_eq.
  destruct (fr_t _ _ _ Hfr _ _ _ HT Hw Hm) as (T' & HT'' & _ & Hst'). split; [done|].
  exists T'. by rewrite Hst'.
Qed.

Lemma winv_framed w s' :
  winv w -> wf s' -> framed (is_mutex w) (ksched (kst w)) s' ->
  winv (MkWorld (put_sched s' (kst w)) (held w) (pending w)).
Proof.
  intros [Hwf Hr Hm Hh Hp] Hwf' Hfr. split; simpl; [done|done| |done|done].
  intros m h Hmh. destruct (Hm _ _ Hmh) as (Q & HQ & Hok). exists Q.
  apply mutex_ok_framed; try done; [apply Hwf|by eexists].
Qed.

(** The other mutexes do not notice what happens to the queue of [m] and to a
    thread [u] that waits for none of them. *)
Lemma mutex_ok_other w w' m h Q u :
  queues (ksched (kst w)) !! m = Some Q -> queues (ksched (kst w')) !! m = Some Q ->
  (forall t, t <> u -> threads (ksched (kst w')) !! t = threads (ksched (kst w)) !! t) ->
  (forall t, t <> u -> pending w' !! t = pending w !! t) ->
  (pending w !! u <> Some m) -> (pending w' !! u <> Some m) ->
  (forall t, (t, m) ∈ held w' <-> (t, m) ∈ held w) ->
  mutex_ok w m h (tq_list Q) -> mutex_ok w' m h (tq_list Q).
Proof.
  intros HQ HQ' Ht Hp Hu Hu' Hh [H1 H2 H3 H4].
  assert (Hnu : u ∉ tq_list Q) by (intros Hin; by destruct (H1 u Hin)).
  split; [|done| |].
  - intros t Hin. destruct (decide (t = u)) as [->|?]; [done|]. rewrite Hp, Ht by done. auto.
  - intros t E. destruct (H3 t E) as [? Hor]. split; [done|]. rewrite Hh.
    destruct (decide (t = u)) as [->|?]; [|by rewrite Hp]. destruct Hor; [by left|done].
  - intros t E. destruct (decide (t = u)) as [->|?]; [done|]. rewrite Hp in E by done. auto.
Qed.

Lemma asleep_lookup x q s C :
  threads s !! curthr s = Some C ->
  exists C', threads (asleep x q s) !! curthr s = Some C' /\ kt_state C' = x.
Proof. intros HC. unfold asleep, enq. simpl. simplify_map_eq. eauto. Qed.

Lemma asleep_lookup_ne x q s t :
  t <> curthr s -> threads (asleep x q s) !! t = threads s !! t.
Proof. intros. unfold asleep, enq. simpl. by simplify_map_eq. Qed.

Lemma asleep_queue x q s Q :
  queues s !! q = Some Q ->
  queues (asleep x q s) !! q = Some (MkQueue (curthr s :: tq_list Q) (tq_size Q + 1)).
Proof. intros HQ. unfold asleep, enq. simpl. by simplify_map_eq. Qed.

Lemma asleep_queue_ne x q s q' :
  q' <> q -> queues (asleep x q s) !! q' = queues s !! q'.
Proof. intros. unfold asleep, enq. simpl. by simplify_map_eq. Qed.

(** The caller of [kmutex_lock] on its way into the wait queue. *)
Lemma winv_asleep w m h :
  winv w -> pending w !! wcur w = None -> ((wcur w, m) ∉ held w) ->
  mutexes (kst w) !! m = Some (Some h) ->
  let s1 := asleep KT_SLEEP m (ksched (kst w)) in
  let w1 := MkWorld (put_sched s1 (kst w)) (held w) (<[wcur w := m]> (pending w)) in
  forall m' h', mutexes (kst w) !! m' = Some h' ->
    exists Q, queues s1 !! m' = Some Q /\ mutex_ok w1 m' h' (tq_list Q).
Proof.
  intros Hw Hpn Hnh Hmh s1 w1 m' h' Hmh'. pose proof Hw as [Hwf Hr Hm Hh Hp].
  destruct Hwf as [_ (C & HC & _)]. destruct (Hm _ _ Hmh') as (Q & HQ & Hok).
  pose proof (winv_cur_not_waiting _ _ _ Hw HQ) as Hcur.
  destruct (decide (m' = m)) as [->|Hne].
  - simplify_eq. exists (MkQueue (wcur w :: tq_list Q) (tq_size Q + 1)).
    split; [by apply asleep_queue|]. destruct Hok as [H1 H2 H3 H4].
    assert (h <> wcur w) as Hhc.
    { intros ->. destruct (H3 _ eq_refl) as [_ [?|?]]; [done|congruence]. }
    split; unfold w1, put_sched; cbn [kst held pending ksched tq_list].
    + intros t [->|Hin]%elem_of_cons.
      * split; [by simplify_map_eq|]. destruct (asleep_lookup KT_SLEEP m _ _ HC) as (C' & ? & ?). eauto.
      * assert (t <> wcur w) by (by intros ->). rewrite lookup_insert_ne by done.
        unfold s1. rewrite asleep_lookup_ne by done. auto.
    + done.
    + intros t [= <-]. destruct (H3 _ eq_refl) as [? Hor]. split; [set_solver|].
      by rewrite lookup_insert_ne by done.
    + intros t. destruct (decide (t = wcur w)) as [->|?]; [set_solver|].
      rewrite lookup_insert_ne by done. intros E. destruct (H4 _ E); [set_solver|auto].
  - exists Q. assert (HQ' : queues s1 !! m' = Some Q) by (unfold s1; by rewrite asleep_queue_ne).
    split; [done|]. eapply (mutex_ok_other w _ _ _ _ (wcur w)); simpl; try done.
    + intros t Ht. by apply asleep_lookup_ne.
    + intros t Ht. by rewrite lookup_insert_ne.
    + by rewrite Hpn.
    + rewrite lookup_insert_eq. congruence.
Qed.

Lemma kmutex_lock_wait evs m h k :
  mutexes k !! m = Some (Some h) -> h <> curthr (ksched k) ->
  kmutex_lock evs m k = sched_call (sched_sleep_on evs (km_waitq m)) k.
Proof.
  intros Hm Hne. unfold kmutex_lock, km_holder. rewrite bind_gets, bind_bind, bind_gets, Hm, bind_deref.
  rewrite bind_assert; [done|]. apply bool_decide_eq_true_2. congruence.
Qed.

Lemma kmutex_lock_free evs m k :
  mutexes k !! m = Some None ->
  kmutex_lock evs m k = Ret (tt, MkK (ksched k) (<[m := Some (curthr (ksched k))]> (mutexes k))).
Proof.
  intros Hm. unfold kmutex_lock, km_holder. by rewrite bind_gets, bind_bind, bind_gets, Hm, bind_deref.
Qed.

Lemma winv_lock_wait w evs m h k' :
  winv w -> pending w !! wcur w = None -> ((wcur w, m) ∉ held w) ->
  mutexes (kst w) !! m = Some (Some h) ->
  Forall (intr_ok (ksched (kst w))) evs -> Forall (intr_safe (is_mutex w)) evs ->
  kmutex_lock evs m (kst w) = Ret (tt, k') ->
  winv (MkWorld k' (held w) (<[wcur w := m]> (pending w))).
Proof.
  intros Hw Hpn Hnh Hmh Hok Hsafe E.
  pose proof (winv_asleep w m h Hw Hpn Hnh Hmh) as Hm1. cbv zeta in Hm1.
  pose proof Hw as [Hwf Hr Hm Hh Hp]. destruct (Hm _ _ Hmh) as (Q & HQ & Hmok).
  assert (Hne : m <> kt_runq) by (intros ->; apply Hr; by eexists).
  assert (Hhc : h <> wcur w).
  { intros ->. destruct (mo_held _ _ _ _ Hmok _ eq_refl) as [_ [?|?]]; [done|congruence]. }
  rewrite (kmutex_lock_wait _ _ h _ Hmh Hhc) in E. unfold sched_call, zoom, km_waitq in E.
  rewrite (sched_sleep_on_eq _ _ _ Hwf (mk_is_Some _ _ HQ)) in E. set (s1 := asleep KT_SLEEP m (ksched (kst w))) in *.
  destruct (sched_switch evs s1) as [[[] s']|] eqn:Es; [|done]. injection E as <-.
  assert (Hs1 : swf s1) by (apply swf_asleep; eauto).
  pose proof Hwf as [Hs (C & HC & _)]. destruct (asleep_lookup KT_SLEEP m _ _ HC) as (C1 & HC1 & _).
  assert (Hok1 : Forall (intr_ok s1) evs).
  { eapply Forall_impl; [exact Hok|]. intros e. apply intr_ok_queues. intros q.
    unfold s1, asleep, enq. simpl. by rewrite lookup_alter_is_Some. }
  assert (Hwf' : wf s').
  { pose proof (sched_switch_spec evs s1 C1 Hs1 HC1 Hok1) as H1. unfold wpd in H1. rewrite Es in H1. apply H1. }
  pose proof (framed_switch _ Hr _ _ _ _ Hs1 HC1 Hok1 Hsafe Es) as Hfr.
  set (w1 := MkWorld (put_sched s1 (kst w)) (held w) (<[wcur w := m]> (pending w))) in *.
  split; simpl; [done|done| | |].
  - intros m' h' Hmh'. destruct (Hm1 _ _ Hmh') as (Q' & HQ' & Hok'). exists Q'.
    apply (mutex_ok_framed w1 s' m' h' Q'); [apply Hs1|by eexists|done|exact Hfr|done].
  - intros t m' Hin. destruct (Hh _ _ Hin). split; [done|].
    destruct (decide (t = wcur w)) as [->|?]; [|by rewrite lookup_insert_ne].
    rewrite lookup_insert_eq. congruence.
  - intros t m'. destruct (decide (t = wcur w)) as [->|?].
    + rewrite lookup_insert_eq. intros [= <-]. by eexists.
    + rewrite lookup_insert_ne by done. apply Hp.
Qed.

Lemma kmutex_unlock_eq m Q k :
  swf (ksched k) -> m <> kt_runq -> queues (ksched k) !! m = Some Q ->
  mutexes k !! m = Some (Some (curthr (ksched k))) ->
  kmutex_unlock m k =
  match last (tq_list Q) with
  | Some t => Ret (tt, MkK (wake m t (ksched k)) (<[m := Some t]> (mutexes k)))
  | None => Ret (tt, MkK (ksched k) (<[m := None]> (mutexes k)))
  end.
Proof.
  intros Hs Hne HQ Hm. unfold kmutex_unlock, km_holder.
  rewrite bind_gets, bind_bind, bind_gets, Hm, bind_deref.
  rewrite bool_decide_eq_true_2 by done. rewrite ?bind_assert by done.
  unfold sched_call, zoom, bind, km_waitq. destruct (last (tq_list Q)) as [t|] eqn:Hl.
  - by rewrite (sched_wakeup_on_eq _ _ _ _ Hs Hne HQ Hl).
  - apply last_None in Hl. destruct Q as [l n]. simpl in Hl. subst l.
    by rewrite (sched_wakeup_on_nil _ _ _ HQ).
Qed.

Lemma winv_unlock_free w m Q :
  winv w -> pending w !! wcur w = None -> (wcur w, m) ∈ held w ->
  queues (ksched (kst w)) !! m = Some Q -> tq_list Q = [] ->
  winv (MkWorld (MkK (ksched (kst w)) (<[m := None]> (mutexes (kst w))))
          (held w ∖ {[(wcur w, m)]}) (pending w)).
Proof.
  intros Hw Hpn Hin HQ Hl. pose proof Hw as [Hwf Hr Hm Hh Hp].
  destruct (Hh _ _ Hin) as [Hmh _]. destruct (Hm _ _ Hmh) as (Q' & HQ' & Hok). simplify_eq.
  assert (Hmx : forall m', is_mutex w m' <-> is_Some (<[m := None]> (mutexes (kst w)) !! m')).
  { intros m'. unfold is_mutex. destruct (decide (m' = m)) as [->|?]; simplify_map_eq; [|done].
    split; eauto. }
  split; cbn [kst held pending ksched mutexes].
  - done.
  - intros Hx. by apply Hr, Hmx.
  - intros m' h'. destruct (decide (m' = m)) as [->|Hne]; simplify_map_eq.
    + intros [= <-]. exists Q. split; [done|]. rewrite Hl. split; [set_solver|done|done|].
      simpl. intros t E. destruct (mo_pending _ _ _ _ Hok _ E) as [?|?]; [rewrite Hl in *; set_solver|congruence].
    + intros Hm'. destruct (Hm _ _ Hm') as (Q' & HQ' & Hok'). exists Q'. split; [done|].
      eapply (mutex_ok_other w _ _ _ _ (wcur w)); simpl; try done; try (by rewrite Hpn).
      intros t. set_solver.
  - intros t m' Ht. destruct (Hh t m') as [? ?]; [set_solver|]. split; [|done].
    rewrite lookup_insert_ne; [done|]. intros <-. simplify_eq. set_solver.
  - intros t m' Ht. by apply Hmx, (Hp t).
Qed.

Lemma winv_unlock_handoff w m Q t :
  winv w -> pending w !! wcur w = None -> (wcur w, m) ∈ held w ->
  queues (ksched (kst w)) !! m = Some Q -> last (tq_list Q) = Some t ->
  winv (MkWorld (MkK (wake m t (ksched (kst w))) (<[m := Some t]> (mutexes (kst w))))
          (held w ∖ {[(wcur w, m)]}) (pending w)).
Proof.
  intros Hw Hpn Hin HQ Hl. pose proof Hw as [Hwf Hr Hm Hh Hp]. pose proof Hwf as [Hs _].
  destruct (Hh _ _ Hin) as [Hmh _]. destruct (Hm _ _ Hmh) as (Q' & HQ' & Hok). simplify_eq.
  assert (Hne : m <> kt_runq) by (intros ->; apply Hr; by eexists).
  destruct (qwf_last _ _ _ _ (proj1 Hs) HQ Hl) as (T & HT & HTw & _).
  destruct (swf_wake_last _ _ _ _ Hs Hne HQ Hl) as (Hs' & l & El & HQ').
  assert (Hnd : NoDup (l ++ [t])) by (rewrite <- El; apply (qwf_size _ (proj1 Hs) _ _ HQ)).
  apply NoDup_app in Hnd as (_ & Hd & _).
  assert (Htl : t ∉ l) by (intros ?; eapply Hd; [done|set_solver]).
  assert (Hpt : pending w !! t = Some m) by (apply (mo_wait _ _ _ _ Hok); rewrite El; set_solver).
  assert (Hmx : forall m', is_mutex w m' <-> is_Some (<[m := Some t]> (mutexes (kst w)) !! m')).
  { intros m'. unfold is_mutex. destruct (decide (m' = m)) as [->|?]; simplify_map_eq; [|done].
    split; eauto. }
  split; cbn [kst held pending ksched mutexes].
  - apply (survives_evolve (ksched (kst w))); [done|done| |done]. eapply evolve_wake; eauto.
  - intros Hx. by apply Hr, Hmx.
  - intros m' h'. destruct (decide (m' = m)) as [->|Hnm];
      [rewrite lookup_insert_eq|rewrite lookup_insert_ne by done].
    + intros [= <-]. eexists. split; [exact HQ'|]. destruct Hok as [H1 H2 H3 H4].
      split; cbn [kst held pending ksched tq_list].
      * intros u Hu. assert (u <> t) by (by intros ->). rewrite wake_lookup_ne by done.
        apply H1. rewrite El. set_solver.
      * done.
      * intros u [= <-]. auto.
      * intros u Hu. destruct (H4 _ Hu) as [Hx|[= <-]]; [|congruence].
        rewrite El in Hx. set_solver.
    + intros Hm'. destruct (Hm _ _ Hm') as (Q' & HQ'' & Hok'). exists Q'.
      assert (m' <> kt_runq) by (intros ->; apply Hr; by eexists).
      assert (queues (wake m t (ksched (kst w))) !! m' = Some Q') as HQw by (by rewrite wake_queue_ne).
      split; [done|]. eapply (mutex_ok_other w _ _ _ _ t); cbn [kst held pending ksched]; try done.
      * intros u Hu. by apply wake_lookup_ne.
      * congruence.
      * congruence.
      * intros u. set_solver.
  - intros u m' Hu. destruct (Hh u m') as [? ?]; [set_solver|]. split; [|done].
    rewrite lookup_insert_ne; [done|]. intros <-. simplify_eq. set_solver.
  - intros u m' Hu. by apply Hmx, (Hp u).
Qed.

Lemma winv_lock_free w m :
  winv w -> pending w !! wcur w = None -> mutexes (kst w) !! m = Some None ->
  winv (MkWorld (MkK (ksched (kst w)) (<[m := Some (wcur w)]> (mutexes (kst w))))
          ({[(wcur w, m)]} ∪ held w) (pending w)).
Proof.
  intros Hw Hpn Hmh. pose proof Hw as [Hwf Hr Hm Hh Hp].
  destruct (Hm _ _ Hmh) as (Q & HQ & Hok).
  pose proof (mo_free _ _ _ _ Hok eq_refl) as Hl.
  assert (Hmx : forall m', is_mutex w m' <-> is_Some (<[m := Some (wcur w)]> (mutexes (kst w)) !! m')).
  { intros m'. unfold is_mutex. destruct (decide (m' = m)) as [->|?]; simplify_map_eq; [|done].
    split; eauto. }
  split; cbn [kst held pending ksched mutexes].
  - done.
  - intros Hx. by apply Hr, Hmx.
  - intros m' h'. destruct (decide (m' = m)) as [->|Hne];
      [rewrite lookup_insert_eq|rewrite lookup_insert_ne by done].
    + intros [= <-]. exists Q. split; [done|]. rewrite Hl. split; simpl; [set_solver|done| |].
      * intros t [= <-]. split; [set_solver|]. left. set_solver.
      * intros t E. destruct (mo_pending _ _ _ _ Hok _ E) as [?|?]; [rewrite Hl in *; set_solver|done].
    + intros Hm'. destruct (Hm _ _ Hm') as (Q' & HQ' & Hok'). exists Q'. split; [done|].
      eapply (mutex_ok_other w _ _ _ _ (wcur w)); simpl; try done; try (by rewrite Hpn).
      intros t. set_solver.
  - intros t m' [Ht|Ht]%elem_of_union.
    + apply elem_of_singleton in Ht as [= -> ->]. rewrite lookup_insert_eq, Hpn. done.
    + destruct (Hh t m' Ht) as [? ?]. rewrite lookup_insert_ne; [done|]. intros <-. congruence.
  - intros t m' Ht. by apply Hmx, (Hp t).
Qed.

Lemma winv_lock_return w m :
  winv w -> pending w !! wcur w = Some m ->
  mutexes (kst w) !! m = Some (Some (wcur w)) /\
  winv (MkWorld (kst w) ({[(wcur w, m)]} ∪ held w) (delete (wcur w) (pending w))).
Proof.
  intros Hw Hpn. pose proof Hw as [Hwf Hr Hm Hh Hp].
  destruct (Hp _ _ Hpn) as [h Hmh]. destruct (Hm _ _ Hmh) as (Q & HQ & Hok).
  pose proof (winv_cur_not_waiting _ _ _ Hw HQ) as Hcur.
  assert (h = Some (wcur w)) as -> by (by destruct (mo_pending _ _ _ _ Hok _ Hpn)).
  split; [done|]. split; cbn [kst held pending]; [done|done| | |].
  - intros m' h' Hm'. destruct (Hm _ _ Hm') as (Q' & HQ' & Hok'). exists Q'. split; [done|].
    destruct (decide (m' = m)) as [->|Hne].
    + simplify_eq. destruct Hok' as [H1 H2 H3 H4]. split; cbn [kst held pending].
      * intros t Ht. rewrite lookup_delete_ne; [auto|by intros <-].
      * done.
      * intros t [= <-]. split; [done|]. left. set_solver.
      * intros t. rewrite lookup_delete_Some. intros [_ E]. auto.
    + eapply (mutex_ok_other w _ _ _ _ (wcur w)); cbn [kst held pending]; try done.
      * intros t Ht. by rewrite lookup_delete_ne.
      * congruence.
      * by rewrite lookup_delete_eq.
      * intros t. set_solver.
  - intros t m' [Ht|Ht]%elem_of_union.
    + apply elem_of_singleton in Ht as [= -> ->]. by rewrite lookup_delete_eq.
    + destruct (Hh t m' Ht) as [? ?]. split; [done|]. rewrite lookup_delete_Some. naive_solver.
  - intros t m'. rewrite lookup_delete_Some. intros [_ E]. by apply (Hp t).
Qed.

Lemma wstep_inv w w' : winv w -> wstep w w' -> winv w'.
Proof.
  intros Hw Hstep. pose proof Hw as [Hwf Hr Hm Hh Hp].
  destruct Hstep as [m k' Hpn Hmh E|evs m h k' Hpn Hnh Hmh Hok Hs E|m Hpn|m k' Hpn Hin E|o k' Hpn Hok Hs E].
  - specialize (E []). rewrite (kmutex_lock_free _ _ _ Hmh) in E. injection E as <-.
    by apply winv_lock_free.
  - by eapply winv_lock_wait.
  - by apply winv_lock_return.
  - destruct (Hh _ _ Hin) as [Hmh _]. destruct (Hm _ _ Hmh) as (Q & HQ & _).
    assert (Hne : m <> kt_runq) by (intros ->; apply Hr; by eexists).
    rewrite (kmutex_unlock_eq m Q _ (proj1 Hwf) Hne HQ Hmh) in E.
    destruct (last (tq_list Q)) as [t|] eqn:Hl; injection E as <-.
    + by apply (winv_unlock_handoff w m Q t).
    + apply (winv_unlock_free w m Q); try done. by apply last_None.
  - unfold sched_call, zoom in E. destruct (run_op o (ksched (kst w))) as [[[] s']|] eqn:Eo; [|done].
    injection E as <-. apply winv_framed; [done| |by eapply framed_op].
    pose proof (sched_op_survives o _ Hwf Hok) as H. unfold wpd in H. rewrite Eo in H. apply H.
Qed.

Inductive wreach (w0 : world) : world -> Prop :=
| wreach_refl : wreach w0 w0
| wreach_step w w' : wreach w0 w -> wstep w w' -> wreach w0 w'.

Lemma wreach_inv w0 w : winv w0 -> wreach w0 w -> winv w.
Proof. intros H0. induction 1 as [|w w' _ IH Hs]; [done|]. by eapply wstep_inv. Qed.

(** ** Theorems *)

(** No mutex is locked and nobody waits for one. *)
Definition fresh (k : ksys) : Prop :=
  wf (ksched k) /\ mutexes k !! kt_runq = None /\
  forall m h, mutexes k !! m = Some h -> h = None /\ queues (ksched k) !! m = Some (MkQueue [] 0).

Lemma fresh_winv k : fresh k -> winv (MkWorld k ∅ ∅).
Proof.
  intros (Hwf & Hr & Hm). split; simpl; [done| | |set_solver|done].
  - unfold is_mutex. simpl. rewrite Hr. by intros [? ?].
  - intros m h Hmh. destruct (Hm _ _ Hmh) as [-> HQ]. eexists. split; [done|].
    split; simpl; [set_solver|done|done|done].
Qed.

(** C19: mutual exclusion.  Starting with all mutexes free, whatever the threads
    do with [kmutex_lock], [kmutex_unlock] and the rest of the scheduler (other
    sleeps, wake-ups, cancellations, interrupts), two threads never both have
    returned from [kmutex_lock] of a mutex without unlocking it; a thread that
    returns from [kmutex_lock] is the holder; and as long as a thread waits
    for a mutex somebody holds it.  The threads asleep on a mutex's queue are exactly
    those inside its [kmutex_lock] to which it has not been handed yet. *)
Theorem kmutex_mutual_exclusion k w :
  fresh k -> wreach (MkWorld k ∅ ∅) w ->
  (forall m t t', (t, m) ∈ held w -> (t', m) ∈ held w -> t = t') /\
  (forall m, pending w !! wcur w = Some m -> mutexes (kst w) !! m = Some (Some (wcur w))) /\
  (forall m t, pending w !! t = Some m -> exists h, mutexes (kst w) !! m = Some (Some h) /\
     ((h, m) ∈ held w \/ pending w !! h = Some m)) /\
  (forall m h, mutexes (kst w) !! m = Some h -> exists Q, queues (ksched (kst w)) !! m = Some Q /\
     forall t, t ∈ tq_list Q <-> pending w !! t = Some m /\ h <> Some t).
Proof.
  intros Hf Hr. pose proof (wreach_inv _ _ (fresh_winv k Hf) Hr) as Hw. split_and!.
  - intros m t t' H1 H2. apply (wi_held _ Hw) in H1 as [H1 _]. apply (wi_held _ Hw) in H2 as [H2 _]. congruence.
  - intros m Hp. by apply winv_lock_return.
  - intros m t Hp. destruct (wi_pending _ Hw _ _ Hp) as [h Hmh].
    destruct (wi_mutex _ Hw _ _ Hmh) as (Q & HQ & Hok).
    destruct h as [h|].
    + exists h. split; [done|]. by apply (mo_held _ _ _ _ Hok).
    + rewrite (mo_free _ _ _ _ Hok eq_refl) in Hok.
      destruct (mo_pending _ _ _ _ Hok _ Hp) as [?|?]; [set_solver|done].
  - intros m h Hmh. destruct (wi_mutex _ Hw _ _ Hmh) as (Q & HQ & Hok). exists Q. split; [done|]. intros t. split.
    + intros Ht. split; [by apply (mo_wait _ _ _ _ Hok)|]. intros ->. by destruct (mo_held _ _ _ _ Hok t eq_refl) as [Hn _].
    + intros [Hp Hne]. by destruct (mo_pending _ _ _ _ Hok _ Hp).
Qed.

(** Two threads, one mutex (100) and an empty wait queue for it. *)
Definition demo_k : ksys :=
  MkK (MkSys
    (<[1 := MkThread KT_RUN 0 None None 0 0 1 4096 0]>
    (<[2 := MkThread KT_RUN 0 (Some 0) (Some 0) 0 0 2 8192 0]> ∅))
    (<[0 := MkQueue [2] 1]> (<[100 := MkQueue [] 0]> ∅))
    1 1 0 true) (<[100 := None]> ∅).

Lemma demo_k_fresh : fresh demo_k.
Proof.
  split; [apply wfb_wf; vm_compute; reflexivity|]. split; [reflexivity|].
  intros m h. unfold demo_k. simpl. rewrite lookup_insert_Some, lookup_empty.
  intros [[<- <-]|[_ ?]]; [|done]. split; reflexivity.
Qed.

Lemma kmutex_mutual_exclusion_witness :
  exists w, wreach (MkWorld demo_k ∅ ∅) w /\ (1, 100) ∈ held w /\
    forall t, (t, 100) ∈ held w -> t = 1.
Proof.
  destruct (kmutex_lock [] 100 demo_k) as [[[] k']|] eqn:E; [|vm_compute in E; discriminate E].
  assert (Hr : wreach (MkWorld demo_k ∅ ∅) (MkWorld k' ({[(1, 100)]} ∪ ∅) ∅)).
  { eapply wreach_step; [apply wreach_refl|]. apply (step_lock_free (MkWorld demo_k ∅ ∅)); [reflexivity|reflexivity|].
    intros evs. rewrite <- E. reflexivity. }
  eexists. split; [exact Hr|].
  destruct (kmutex_mutual_exclusion demo_k _ demo_k_fresh Hr) as (Hx & _ & _ & _).
  assert (H1 : (1, 100) ∈ held (MkWorld k' ({[(1, 100)]} ∪ ∅) ∅)) by (simpl; set_solver).
  split; [exact H1|]. intros t Ht. exact (Hx 100 t 1 Ht H1).
Defined.

(** [kmutex_unlock] by the holder gives the mutex to the thread that has
    waited longest, takes it off the wait queue and makes it runnable; without
    waiters the mutex becomes free; it never blocks.  A call by any other
    thread changes nothing. *)
Theorem kmutex_unlock_handoff m h k Q R :
  wf (ksched k) -> m <> kt_runq -> mutexes k !! m = Some h ->
  queues (ksched k) !! m = Some Q -> queues (ksched k) !! kt_runq = Some R ->
  exists k', kmutex_unlock m k = Ret (tt, k') /\ curthr (ksched k') = curthr (ksched k) /\
    if decide (h = Some (curthr (ksched k))) then
      match last (tq_list Q) with
      | Some t => exists l n r, tq_list Q = l ++ [t] /\ mutexes k' !! m = Some (Some t) /\
          queues (ksched k') !! m = Some (MkQueue l n) /\
          queues (ksched k') !! kt_runq = Some (MkQueue (t :: tq_list R) r)
      | None => mutexes k' !! m = Some None /\ ksched k' = ksched k
      end
    else k' = k.
Proof.
  intros [Hs _] Hne Hm HQ HR. case_decide as Hh.
  - subst h. rewrite (kmutex_unlock_eq m Q k Hs Hne HQ Hm).
    destruct (last (tq_list Q)) as [t|] eqn:Hl; eexists; (split; [done|]); (split; [done|]); simpl.
    + destruct (swf_wake_last _ _ _ _ Hs Hne HQ Hl) as (_ & l & El & HQ').
      exists l, (tq_size Q + -1), (tq_size R + 1).
      split_and!; [done|by simplify_map_eq|done|]. by apply wake_runq.
    + by simplify_map_eq.
  - exists k. split_and!; [|done|done]. unfold kmutex_unlock, km_holder.
    rewrite bind_gets, bind_bind, bind_gets, Hm, bind_deref.
    rewrite bool_decide_eq_false_2 by done. unfold KASSERT.
    by rewrite bool_decide_eq_true_2 by congruence.
Qed.

Definition demo_held : ksys :=
  MkK (MkSys
    (<[1 := MkThread KT_RUN 0 None None 0 0 1 4096 0]>
    (<[2 := MkThread KT_SLEEP 0 (Some 100) (Some 100) 0 0 2 8192 0]>
    (<[3 := MkThread KT_SLEEP 0 (Some 100) (Some 100) 0 0 3 12288 0]>
    (<[4 := MkThread KT_RUN 0 (Some 0) (Some 0) 0 0 4 16384 0]> ∅))))
    (<[0 := MkQueue [4] 1]> (<[100 := MkQueue [3; 2] 2]> ∅))
    1 1 0 true) (<[100 := Some 1]> ∅).

Lemma demo_held_wf : wf (ksched demo_held).
Proof. apply wfb_wf. vm_compute. reflexivity. Qed.

Lemma kmutex_unlock_handoff_witness :
  exists k', kmutex_unlock 100 demo_held = Ret (tt, k') /\ mutexes k' !! 100 = Some (Some 2).
Proof.
  destruct (kmutex_unlock_handoff 100 (Some 1) demo_held (MkQueue [3; 2] 2) (MkQueue [4] 1))
    as (k' & E & _ & H); [exact demo_held_wf|discriminate|reflexivity|reflexivity|reflexivity|].
  exists k'. split; [exact E|]. simpl in H. destruct H as (l & n & r & _ & H & _). exact H.
Defined.

(** [kmutex_lock_cancellable] drops the result of the sleep: a caller that
    has been cancelled gets 0 although the mutex still belongs to somebody
    else. *)
Theorem kmutex_lock_cancellable_without_lock evs m h k C :
  mutexes k !! m = Some (Some h) -> h <> curthr (ksched k) ->
  threads (ksched k) !! curthr (ksched k) = Some C -> kt_cancelled C = 1 ->
  kmutex_lock_cancellable evs m k = Ret (0, k) /\ mutexes k !! m <> Some (Some (curthr (ksched k))).
Proof.
  intros Hm Hne HC Hc. split; [|congruence].
  unfold kmutex_lock_cancellable, km_holder.
  rewrite bind_gets, bind_bind, bind_gets, Hm, bind_deref.
  rewrite bind_assert by (apply bool_decide_eq_true_2; congruence). rewrite bind_bind.
  assert (E : sched_cancellable_sleep_on evs (km_waitq m) (ksched k) = Ret (- EINTR, ksched k)).
  { unfold sched_cancellable_sleep_on. rewrite bind_gets, (bind_eq _ _ _ _ _ (thr_get_eq _ _ _ HC)). by rewrite Hc. }
  unfold sched_call, zoom, bind. rewrite E. destruct k. done.
Qed.

Definition demo_cancelled : ksys :=
  MkK (MkSys (<[1 := MkThread KT_RUN 1 None None 0 0 1 4096 0]> ∅)
    (<[0 := MkQueue [] 0]> (<[100 := MkQueue [] 0]> ∅)) 1 1 0 true) (<[100 := Some 2]> ∅).

Lemma kmutex_lock_cancellable_without_lock_witness :
  kmutex_lock_cancellable [] 100 demo_cancelled = Ret (0, demo_cancelled).
Proof.
  apply (kmutex_lock_cancellable_without_lock [] 100 2 demo_cancelled (MkThread KT_RUN 1 None None 0 0 1 4096 0));
    [reflexivity|discriminate|reflexivity|reflexivity].
Defined.
