(* ===== verification/Mmobj.v ===== *)
(** * Memory objects, page frames, anonymous and shadow objects

    Models the page cache of mm/pframe.c and the memory objects of vm/anon.c
    and vm/shadow.c with the macros of include/mm/mmobj.h.

    An object is named by its address, a page frame by its identity: the object
    and the page number (the hash chains of [pframe_hash] are searched by
    exactly these two fields, so the table is a finite map here).  The paging
    lists hold identities.  A page holds its 4096 bytes.  Physical memory is a
    count of page frames that can still be allocated; [obj_pool] is the
    addresses the object allocators hand out.  An object with a single user at
    a time never finds a busy page; waiting for one is [Stop Diverge].

    The code touches objects it has just freed: [anon_put] and [shadow_put] count
    down in the object after [slab_obj_free], [pframe_free] unlinks the page frame
    after freeing it.  [slab_obj_free] leaves the bytes of an object as they are and
    its page mapped, so these accesses hit the old contents.  The model keeps the
    contents of freed objects ([g_objs]) until the address is handed out again,
    performs the accesses there and records each of them ([g_uaf]).  An access to an
    address that is neither an object nor a freed one is [Stop Undef].

    Page tables belong to the address spaces, above this file.
    [pframe_remove_from_pts] records the areas it walks ([g_unmap]); Vmmap.v removes
    the entries.  The translation buffer itself is not part of the state; [g_flushed]
    records the frames [pframe_free] flushes it for. *)

From S2P Require Import Prelude.

Inductive okind : Type :=
| Anon
| Shadow
| Vnode.

(** The union [mmo_un]: only a shadow object has a bottom object there. *)
Inductive mmo_union : Type :=
| mmo_vmas (l : list Z)
| mmo_bottom_obj (o : Z).

Record mmobj : Type := MkObj {
  mmo_ops : okind;
  mmo_refcount : Z;
  mmo_nrespages : Z;
  mmo_respages : list Z;
  mmo_un : mmo_union;
  mmo_shadowed : option Z
}.

Abbreviation pfid := (Z * Z)%type (only parsing).

Record pframe : Type := MkPf {
  pf_data : list Z;
  pf_busy : bool;
  pf_dirty : bool;
  pf_pincount : Z
}.

(** Accesses to freed memory: the counter of an object, the link of a page frame,
    the list of areas in an object, a field of an area. *)
Inductive uaf : Type :=
| FreedObjCount (o : Z)
| FreedPframeLink (k : Z * Z)
| FreedObjList (o i : Z)
| FreedVmaRead (i : Z).

Record gone_log : Type := MkGone {
  g_objs : gmap Z mmobj;
  g_uaf : list uaf;
  g_unmap : list (option (list Z) * Z);
  g_flushed : list (Z * Z)
}.

Record mm : Type := MkMm {
  objs : gmap Z mmobj;
  pframes : gmap pfid pframe;
  alloc_list : list pfid;
  pinned_list : list pfid;
  nallocated : Z;
  npinned : Z;
  obj_pool : list Z;
  page_pool : nat;
  anon_count : Z;
  shadow_count : Z;
  gone : gone_log
}.

Definition set_objs (f : gmap Z mmobj -> gmap Z mmobj) (s : mm) : mm :=
  MkMm (f (objs s)) (pframes s) (alloc_list s) (pinned_list s) (nallocated s) (npinned s)
    (obj_pool s) (page_pool s) (anon_count s) (shadow_count s) (gone s).
Definition set_pframes (f : gmap pfid pframe -> gmap pfid pframe) (s : mm) : mm :=
  MkMm (objs s) (f (pframes s)) (alloc_list s) (pinned_list s) (nallocated s) (npinned s)
    (obj_pool s) (page_pool s) (anon_count s) (shadow_count s) (gone s).
Definition set_lists (fa fp : list pfid -> list pfid) (da dp : Z) (s : mm) : mm :=
  MkMm (objs s) (pframes s) (fa (alloc_list s)) (fp (pinned_list s)) (nallocated s + da) (npinned s + dp)
    (obj_pool s) (page_pool s) (anon_count s) (shadow_count s) (gone s).
Definition set_pool (p : list Z) (s : mm) : mm :=
  MkMm (objs s) (pframes s) (alloc_list s) (pinned_list s) (nallocated s) (npinned s)
    p (page_pool s) (anon_count s) (shadow_count s) (gone s).
Definition set_pages (n : nat) (s : mm) : mm :=
  MkMm (objs s) (pframes s) (alloc_list s) (pinned_list s) (nallocated s) (npinned s)
    (obj_pool s) n (anon_count s) (shadow_count s) (gone s).
Definition set_counts (a h : Z) (s : mm) : mm :=
  MkMm (objs s) (pframes s) (alloc_list s) (pinned_list s) (nallocated s) (npinned s)
    (obj_pool s) (page_pool s) a h (gone s).

Definition set_gone (f : gone_log -> gone_log) (s : mm) : mm :=
  MkMm (objs s) (pframes s) (alloc_list s) (pinned_list s) (nallocated s) (npinned s)
    (obj_pool s) (page_pool s) (anon_count s) (shadow_count s) (f (gone s)).

Definition log_uaf (e : uaf) (g : gone_log) : gone_log := MkGone (g_objs g) (e :: g_uaf g) (g_unmap g) (g_flushed g).
Definition log_unmap (e : option (list Z) * Z) (g : gone_log) : gone_log := MkGone (g_objs g) (g_uaf g) (e :: g_unmap g) (g_flushed g).
Definition log_flush (k : Z * Z) (g : gone_log) : gone_log := MkGone (g_objs g) (g_uaf g) (g_unmap g) (k :: g_flushed g).
Definition set_gone_objs (f : gmap Z mmobj -> gmap Z mmobj) (g : gone_log) : gone_log := MkGone (f (g_objs g)) (g_uaf g) (g_unmap g) (g_flushed g).

Definition with_refcount (r : Z) (ob : mmobj) : mmobj :=
  MkObj (mmo_ops ob) r (mmo_nrespages ob) (mmo_respages ob) (mmo_un ob) (mmo_shadowed ob).
Definition with_respages (n : Z) (l : list Z) (ob : mmobj) : mmobj :=
  MkObj (mmo_ops ob) (mmo_refcount ob) n l (mmo_un ob) (mmo_shadowed ob).
Definition with_un (u : mmo_union) (ob : mmobj) : mmobj :=
  MkObj (mmo_ops ob) (mmo_refcount ob) (mmo_nrespages ob) (mmo_respages ob) u (mmo_shadowed ob).
Definition with_shadowed (h : option Z) (ob : mmobj) : mmobj :=
  MkObj (mmo_ops ob) (mmo_refcount ob) (mmo_nrespages ob) (mmo_respages ob) (mmo_un ob) h.

Definition pf_set_data (d : list Z) (p : pframe) : pframe :=
  MkPf d (pf_busy p) (pf_dirty p) (pf_pincount p).
Definition pframe_set_busy (b : bool) (p : pframe) : pframe :=
  MkPf (pf_data p) b (pf_dirty p) (pf_pincount p).
Definition pframe_set_dirty (b : bool) (p : pframe) : pframe :=
  MkPf (pf_data p) (pf_busy p) b (pf_pincount p).
Definition pf_set_pincount (n : Z) (p : pframe) : pframe :=
  MkPf (pf_data p) (pf_busy p) (pf_dirty p) n.

Definition obj_get (o : Z) : M mm mmobj := let! x := gets (fun s => objs s !! o) in deref x.
Definition obj_set (o : Z) (f : mmobj -> mmobj) : M mm unit :=
  let! ob := obj_get o in modify (set_objs <[o := f ob]>).
Definition pf_get (k : pfid) : M mm pframe := let! x := gets (fun s => pframes s !! k) in deref x.
Definition pf_set (k : pfid) (f : pframe -> pframe) : M mm unit :=
  let! p := pf_get k in modify (set_pframes <[k := f p]>).

Definition zero_page : list Z := replicate 4096 0.

(** A fresh page frame holds the pattern MM_POISON_ALLOC. *)
Definition poison_page : list Z := replicate 4096 187.
#[global] Opaque zero_page poison_page.

(** [mmobj_init] of include/mm/mmobj.h. *)
Definition mmobj_init (k : okind) : mmobj := MkObj k 0 0 [] (mmo_vmas []) None.

(** The operations of a vnode's object (fs/vnode.c), which depend on the file
    system behind it. *)
Class FileOps : Type := {
  file_ref : Z -> M mm unit;
  file_put : Z -> M mm unit;
  file_lookuppage : Z -> Z -> bool -> M mm (Z * option pfid);
  file_fillpage : Z -> pfid -> M mm Z;
  file_dirtypage : Z -> pfid -> M mm Z
}.

Section ops.
Context `{FileOps}.

(** [anon_ref], [shadow_ref]. *)
Definition anon_ref (o : Z) : M mm unit :=
  let! ob := obj_get o in
  KASSERT ((0 <? mmo_refcount ob) && match mmo_ops ob with Anon => true | _ => false end) ;;;
  obj_set o (with_refcount (mmo_refcount ob + 1)) ;;;
  modify (fun s => set_counts (anon_count s + 1) (shadow_count s) s).

Definition shadow_ref (o : Z) : M mm unit :=
  let! ob := obj_get o in
  KASSERT ((0 <? mmo_refcount ob) && match mmo_ops ob with Shadow => true | _ => false end) ;;;
  obj_set o (with_refcount (mmo_refcount ob + 1)).

(** [o->mmo_ops->ref(o)]. *)
Definition mmo_ref (o : Z) : M mm unit :=
  let! ob := obj_get o in
  match mmo_ops ob with
  | Anon => anon_ref o
  | Shadow => shadow_ref o
  | Vnode => file_ref o
  end.

Definition obj_alloc : M mm (option Z) :=
  let! p := gets obj_pool in
  match p with
  | [] => ret None
  | o :: p' => modify (set_pool p') ;;; modify (set_gone (set_gone_objs (delete o))) ;;; ret (Some o)
  end.

Definition anon_create : M mm (option Z) :=
  let! x := obj_alloc in
  match x with
  | None => ret None
  | Some o =>
      modify (set_objs <[o := mmobj_init Anon]>) ;;;
      obj_set o (with_refcount 1) ;;;
      modify (fun s => set_counts (anon_count s + 1) (shadow_count s) s) ;;;
      ret (Some o)
  end.

Definition shadow_create : M mm (option Z) :=
  let! x := obj_alloc in
  match x with
  | None => ret None
  | Some o =>
      modify (set_objs <[o := mmobj_init Shadow]>) ;;;
      modify (fun s => set_counts (anon_count s) 1 s) ;;;
      obj_set o (with_refcount 1) ;;;
      ret (Some o)
  end.

(** ** Page frames *)

Definition pframe_get_resident (o n : Z) : M mm (option pfid) :=
  let! x := gets (fun s => pframes s !! (o, n)) in
  match x with
  | None => ret None
  | Some p =>
      (if pf_pincount p =? 0
       then modify (set_lists (fun l => filter (fun k => k <> (o, n)) l ++ [(o, n)]) id 0 0)
       else ret tt) ;;;
      ret (Some (o, n))
  end.

Definition pframe_alloc (o n : Z) : M mm (option pfid) :=
  let! free := gets page_pool in
  match free with
  | O => ret None
  | S free' =>
      modify (set_pages free') ;;;
      modify (set_lists (fun l => l ++ [(o, n)]) id 1 0) ;;;
      modify (set_pframes <[(o, n) := MkPf poison_page false false 0]>) ;;;
      mmo_ref o ;;;
      let! ob := obj_get o in
      obj_set o (with_respages (mmo_nrespages ob + 1) (n :: mmo_respages ob)) ;;;
      ret (Some (o, n))
  end.

Definition pframe_pin (k : pfid) : M mm unit :=
  let! p := pf_get k in
  KASSERT (0 <=? pf_pincount p) ;;;
  (if pf_pincount p =? 0
   then modify (set_lists (filter (fun x => x <> k)) (fun l => l ++ [k]) (-1) 1)
   else ret tt) ;;;
  pf_set k (pf_set_pincount (pf_pincount p + 1)).

Definition pframe_unpin (k : pfid) : M mm unit :=
  let! p := pf_get k in
  pf_set k (pf_set_pincount (pf_pincount p - 1)) ;;;
  (if pf_pincount p - 1 =? 0
   then modify (set_lists (fun l => l ++ [k]) (filter (fun x => x <> k)) 1 (-1))
   else ret tt).

Definition anon_fillpage (k : pfid) : M mm Z :=
  let! p := pf_get k in
  KASSERT (pf_busy p) ;;;
  KASSERT (pf_pincount p =? 0) ;;;
  pf_set k (pf_set_data zero_page) ;;;
  pframe_pin k ;;;
  ret 0.

(** The loop of [shadow_fillpage] down the chain below [o]. *)
Fixpoint shadow_fill_loop (fuel : nat) (o : Z) (k : pfid) : M mm Z :=
  match fuel with
  | O => stop Diverge
  | S fuel' =>
      let! ob := obj_get o in
      match mmo_shadowed ob with
      | None =>
          match mmo_ops ob with
          | Anon => anon_fillpage k
          | Vnode => file_fillpage o k
          | Shadow => stop Diverge
          end
      | Some o' =>
          let! ob' := obj_get o' in
          if bool_decide (snd k ∈ mmo_respages ob') then
            let! p' := pf_get (o', snd k) in
            pf_set k (pf_set_data (pf_data p')) ;;;
            ret 0
          else shadow_fill_loop fuel' o' k
      end
  end.

(** A chain is no longer than the number of objects. *)
Definition chain_fuel : M mm nat := gets (fun s => S (size (objs s))).

Definition shadow_fillpage (o : Z) (k : pfid) : M mm Z :=
  let! p := pf_get k in
  KASSERT (pf_busy p) ;;;
  KASSERT (pf_pincount p =? 0) ;;;
  let! fuel := chain_fuel in
  shadow_fill_loop fuel o k.

Definition pframe_fill (k : pfid) : M mm Z :=
  pf_set k (pframe_set_busy true) ;;;
  let! ob := obj_get (fst k) in
  let! r := match mmo_ops ob with
            | Anon => anon_fillpage k
            | Shadow => shadow_fillpage (fst k) k
            | Vnode => file_fillpage (fst k) k
            end in
  pf_set k (pframe_set_busy false) ;;;
  ret r.

(** The value of [pframe_get] and the page stored through [result]. *)
Definition pframe_get (o n : Z) : M mm (Z * option pfid) :=
  let! x := pframe_get_resident o n in
  match x with
  | None =>
      let! y := pframe_alloc o n in
      match y with
      | None => ret (-1, None)
      | Some k => pframe_fill k ;;; ret (0, Some k)
      end
  | Some k =>
      let! p := pf_get k in
      if pf_busy p then stop Diverge else ret (0, Some k)
  end.

Definition anon_lookuppage (o n : Z) (forwrite : bool) : M mm (Z * option pfid) := pframe_get o n.

(** The search of [shadow_lookuppage] for a resident page, and the bottom
    object when there is none. *)
Fixpoint shadow_search (fuel : nat) (o n : Z) (forwrite : bool) : M mm (pfid + Z) :=
  match fuel with
  | O => stop Diverge
  | S fuel' =>
      let! ob := obj_get o in
      match mmo_shadowed ob with
      | None => ret (inr o)
      | Some o' =>
          if bool_decide (n ∈ mmo_respages ob) && negb forwrite then ret (inl (o, n))
          else shadow_search fuel' o' n forwrite
      end
  end.

Definition shadow_lookuppage (o n : Z) (forwrite : bool) : M mm (Z * option pfid) :=
  let! fuel := chain_fuel in
  let! x := shadow_search fuel o n forwrite in
  match x with
  | inl k => ret (0, Some k)
  | inr b =>
      let! ob := obj_get b in
      let! r := match mmo_ops ob with
                | Anon => anon_lookuppage b n forwrite
                | Vnode => file_lookuppage b n forwrite
                | Shadow => stop Diverge
                end in
      if (fst r <? 0) && forwrite then ret (fst r, None)
      else if forwrite then pframe_get o n
      else ret r
  end.

(** [o->mmo_ops->lookuppage]; [pframe_lookup]. *)
Definition pframe_lookup (o n : Z) (forwrite : bool) : M mm (Z * option pfid) :=
  let! ob := obj_get o in
  match mmo_ops ob with
  | Anon => anon_lookuppage o n forwrite
  | Shadow => shadow_lookuppage o n forwrite
  | Vnode => file_lookuppage o n forwrite
  end.

Definition anon_dirtypage (k : pfid) : M mm Z :=
  let! p := pf_get k in
  (if pf_pincount p =? 0 then pframe_pin k else ret tt) ;;;
  pf_set k (pframe_set_dirty true) ;;;
  ret 0.

Definition shadow_dirtypage (k : pfid) : M mm Z := anon_dirtypage k.

Definition pframe_dirty (k : pfid) : M mm Z :=
  let! p := pf_get k in
  KASSERT (negb (pf_busy p)) ;;;
  pf_set k (pframe_set_busy true) ;;;
  let! ob := obj_get (fst k) in
  let! r := match mmo_ops ob with
            | Anon => anon_dirtypage k
            | Shadow => shadow_dirtypage k
            | Vnode => file_dirtypage (fst k) k
            end in
  (if r =? 0 then pf_set k (pframe_set_dirty true) else ret tt) ;;;
  pf_set k (pframe_set_busy false) ;;;
  ret r.

(** ** Giving objects and pages back *)

(** [mmobj_bottom_vmas]: the areas on the list of the bottom object; nothing when the
    union does not hold what is read from it. *)
Definition un_vmas (ob : mmobj) : option (list Z) := match mmo_un ob with mmo_vmas l => Some l | mmo_bottom_obj _ => None end.
Definition bottom_vmas (o : Z) (s : mm) : option (list Z) :=
  match objs s !! o with
  | None => None
  | Some ob =>
      match mmo_shadowed ob with
      | None => un_vmas ob
      | Some _ => match mmo_un ob with mmo_bottom_obj b => objs s !! b ≫= un_vmas | mmo_vmas _ => None end
      end
  end.

Definition pframe_remove_from_pts (k : pfid) : M mm unit :=
  modify (fun s => set_gone (log_unmap (bottom_vmas (fst k) s, snd k)) s).

(** [tlb_flush(pf->pf_addr)]. *)
Definition tlb_flush_frame (k : pfid) : M mm unit := modify (set_gone (log_flush k)).

(** [pframe_free], with the [put] operation it ends with. *)
Definition pframe_free_with (put : Z -> M mm unit) (k : pfid) : M mm unit :=
  let! p := pf_get k in
  KASSERT (pf_pincount p =? 0) ;;;
  KASSERT (negb (pf_busy p)) ;;;
  tlb_flush_frame k ;;;
  pframe_remove_from_pts k ;;;
  modify (set_pframes (delete k)) ;;;
  modify (set_lists (filter (fun x => x <> k)) id (-1) 0) ;;;
  modify (fun s => set_pages (S (page_pool s)) s) ;;;
  let! ob := obj_get (fst k) in
  modify (set_gone (log_uaf (FreedPframeLink k))) ;;;
  obj_set (fst k) (with_respages (mmo_nrespages ob - 1) (filter (fun n => n <> snd k) (mmo_respages ob))) ;;;
  put (fst k).

(** [while (pframe_is_pinned(pf)) pframe_unpin(pf)]. *)
Fixpoint unpin_loop (fuel : nat) (k : pfid) : M mm unit :=
  let! p := pf_get k in
  if pf_pincount p =? 0 then ret tt
  else match fuel with
       | O => stop Diverge
       | S fuel' => pframe_unpin k ;;; unpin_loop fuel' k
       end.

Definition uncache_page (put : Z -> M mm unit) (k : pfid) : M mm unit :=
  let! p := pf_get k in
  unpin_loop (Z.to_nat (pf_pincount p)) k ;;;
  let! p' := pf_get k in
  (if pf_busy p' then stop Diverge else ret tt) ;;;
  pframe_free_with put k.

Fixpoint uncache_all (put : Z -> M mm unit) (o : Z) (ns : list Z) : M mm unit :=
  match ns with
  | [] => ret tt
  | n :: ns' => uncache_page put (o, n) ;;; uncache_all put o ns'
  end.

(** [slab_obj_free] of an object: its bytes stay. *)
Definition obj_free (o : Z) : M mm unit :=
  let! ob := obj_get o in
  modify (set_objs (delete o)) ;;;
  modify (set_gone (set_gone_objs <[o := ob]>)) ;;;
  modify (fun s => set_pool (o :: obj_pool s) s).

(** [o->mmo_refcount--] where the object may have been freed. *)
Definition obj_count_down (o : Z) : M mm unit :=
  let! x := gets (fun s => objs s !! o) in
  match x with
  | Some ob => modify (set_objs <[o := with_refcount (mmo_refcount ob - 1) ob]>)
  | None =>
      let! y := gets (fun s => g_objs (gone s) !! o) in
      let! ob := deref y in
      modify (set_gone (set_gone_objs <[o := with_refcount (mmo_refcount ob - 1) ob]>)) ;;;
      modify (set_gone (log_uaf (FreedObjCount o)))
  end.

(** [anon_put] and [shadow_put].  [pframe_free] calls [put] again for the
    page's own reference; that inner call never uncaches, so two levels are
    enough.  The final decrement comes after [slab_obj_free] when the object was
    given back. *)
Fixpoint put_obj (fuel : nat) (o : Z) : M mm unit :=
  match fuel with
  | O => stop Diverge
  | S fuel' =>
      let! ob := obj_get o in
      match mmo_ops ob with
      | Vnode => file_put o
      | _ =>
          KASSERT (0 <? mmo_refcount ob) ;;;
          (if mmo_refcount ob - 1 =? mmo_nrespages ob
           then uncache_all (put_obj fuel') o (mmo_respages ob) ;;; obj_free o
           else ret tt) ;;;
          obj_count_down o ;;;
          modify (fun s => match mmo_ops ob with
                           | Anon => set_counts (anon_count s - 1) (shadow_count s) s
                           | _ => set_counts (anon_count s) (shadow_count s - 1) s
                           end)
      end
  end.

Definition anon_put (o : Z) : M mm unit := put_obj 2 o.
Definition shadow_put (o : Z) : M mm unit := put_obj 2 o.

(** [o->mmo_ops->put(o)]. *)
Definition mmo_put (o : Z) : M mm unit := put_obj 2 o.
Definition pframe_free (k : pfid) : M mm unit := pframe_free_with mmo_put k.
End ops.

(** ** Symbolic execution *)

Lemma obj_get_eq o ob s : objs s !! o = Some ob -> obj_get o s = Ret (ob, s).
Proof. unfold obj_get, bind, gets. simpl. by intros ->. Qed.
Lemma obj_set_eq o ob f s : objs s !! o = Some ob -> obj_set o f s = Ret (tt, set_objs <[o := f ob]> s).
Proof. intros E. unfold obj_set, bind. by rewrite (obj_get_eq _ _ _ E). Qed.
Lemma pf_get_eq k p s : pframes s !! k = Some p -> pf_get k s = Ret (p, s).
Proof. unfold pf_get, bind, gets. simpl. by intros ->. Qed.
Lemma pf_set_eq k p f s : pframes s !! k = Some p -> pf_set k f s = Ret (tt, set_pframes <[k := f p]> s).
Proof. intros E. unfold pf_set, bind. by rewrite (pf_get_eq _ _ _ E). Qed.

Ltac known := solve [ simpl; simplify_map_eq; eauto ].
Ltac exec1 :=
  first [ rewrite bind_bind | rewrite bind_ret | rewrite bind_gets | rewrite bind_modify
        | rewrite bind_deref
        | rewrite bind_assert by known
        | erewrite bind_eq by (first [ apply obj_get_eq | apply obj_set_eq
                                     | apply pf_get_eq | apply pf_set_eq ]; known)
        | erewrite obj_get_eq by known | erewrite obj_set_eq by known
        | erewrite pf_get_eq by known | erewrite pf_set_eq by known ]; cbv beta iota.
Ltac exec := cbv beta iota; repeat exec1.

(** ** Invariant *)

Record mm_ok (s : mm) : Prop := {
  ok_res : forall o ob n, objs s !! o = Some ob ->
    (n ∈ mmo_respages ob <-> is_Some (pframes s !! (o, n)));
  ok_cnt : forall o ob, objs s !! o = Some ob ->
    NoDup (mmo_respages ob) /\ mmo_nrespages ob = Z.of_nat (length (mmo_respages ob)) /\
    mmo_nrespages ob < mmo_refcount ob;
  ok_pf : forall k p, pframes s !! k = Some p ->
    pf_busy p = false /\ 0 <= pf_pincount p /\ is_Some (objs s !! fst k) /\
    (pf_pincount p = 0 -> k ∈ alloc_list s) /\ (0 < pf_pincount p -> k ∈ pinned_list s);
  ok_lists : NoDup (alloc_list s ++ pinned_list s) /\
    nallocated s = Z.of_nat (length (alloc_list s)) /\ npinned s = Z.of_nat (length (pinned_list s));
  ok_alloc : forall k, k ∈ alloc_list s -> exists p, pframes s !! k = Some p /\ pf_pincount p = 0;
  ok_pin : forall k, k ∈ pinned_list s -> exists p, pframes s !! k = Some p /\ 0 < pf_pincount p
}.

Lemma ok_ref s o ob : mm_ok s -> objs s !! o = Some ob -> 0 < mmo_refcount ob.
Proof. intros Hok Ho. destruct (ok_cnt _ Hok _ _ Ho) as (_ & ? & ?). lia. Qed.

(** What the pages of an object contain, resident or not. *)
Inductive views (s : mm) : Z -> Z -> list Z -> Prop :=
| views_res o n p : pframes s !! (o, n) = Some p -> views s o n (pf_data p)
| views_up o n ob o' d :
    pframes s !! (o, n) = None -> objs s !! o = Some ob -> mmo_shadowed ob = Some o' ->
    views s o' n d -> views s o n d
| views_zero o n ob :
    pframes s !! (o, n) = None -> objs s !! o = Some ob -> mmo_shadowed ob = None ->
    mmo_ops ob = Anon -> views s o n zero_page.

(** The shadow chain of an object, down to an anonymous one. *)
Inductive chain (s : mm) : Z -> list Z -> Prop :=
| chain_bottom o ob :
    objs s !! o = Some ob -> mmo_shadowed ob = None -> mmo_ops ob = Anon -> chain s o [o]
| chain_shadow o ob o' l :
    objs s !! o = Some ob -> mmo_ops ob = Shadow -> mmo_shadowed ob = Some o' ->
    chain s o' l -> chain s o (o :: l).

Lemma views_det s o n d d' : views s o n d -> views s o n d' -> d = d'.
Proof.
  intros V. revert d'. induction V; intros d'' V'; inversion V'; simplify_eq; auto.
Qed.

Lemma chain_det s o l l' : chain s o l -> chain s o l' -> l = l'.
Proof.
  intros C. revert l'. induction C; intros l'' C'; inversion C'; simplify_eq; [done|]. f_equal. auto.
Qed.

Lemma chain_sub s o l x : chain s o l -> x ∈ l -> exists l', chain s x l' /\ (length l' <= length l)%nat.
Proof.
  induction 1 as [o ob|o ob o' l Ho Hs Hsh C IH]; intros Hx.
  - apply list_elem_of_singleton in Hx as ->. exists [o]. split; [by econstructor|done].
  - apply elem_of_cons in Hx as [->|Hx].
    + exists (o :: l). split; [by econstructor|done].
    + destruct (IH Hx) as (l' & ? & ?). exists l'. split; [done|]. simpl. lia.
Qed.

Lemma chain_nodup s o l : chain s o l -> NoDup l.
Proof.
  induction 1 as [o ob|o ob o' l Ho Hs Hsh C IH]; [apply NoDup_singleton|].
  constructor; [|done]. intros Hin. destruct (chain_sub _ _ _ _ C Hin) as (l' & C' & Hl).
  assert (Heq : l' = o :: l) by (eapply chain_det; [done|by econstructor]). subst l'. simpl in Hl. lia.
Qed.

Lemma chain_live s o l x : chain s o l -> x ∈ l -> is_Some (objs s !! x).
Proof.
  intros C Hx. destruct (chain_sub _ _ _ _ C Hx) as (l' & C' & _). inversion C'; eauto.
Qed.

(** The fuel of the chain loops is enough. *)
Lemma chain_length s o l : chain s o l -> (length l <= size (objs s))%nat.
Proof.
  intros C. rewrite <- size_dom. rewrite <- (size_list_to_set (C := gset Z) l) by by eapply chain_nodup.
  apply subseteq_size. intros x Hx%elem_of_list_to_set. apply elem_of_dom. by eapply chain_live.
Qed.

Lemma chain_hd s o l : chain s o l -> exists l', l = o :: l'.
Proof. inversion 1; eauto. Qed.

(** ** Bringing a page in *)

Definition add_page (n : Z) (ob : mmobj) : mmobj :=
  MkObj (mmo_ops ob) (mmo_refcount ob + 1) (mmo_nrespages ob + 1) (n :: mmo_respages ob)
    (mmo_un ob) (mmo_shadowed ob).

(** The state with page [k] resident, holding [d], pinned once or not. *)
Definition new_page (k : pfid) (d : list Z) (pin : bool) (ac : Z) (s : mm) : mm :=
  MkMm (alter (add_page (snd k)) (fst k) (objs s))
    (<[k := MkPf d false false (if pin then 1 else 0)]> (pframes s))
    (if pin then alloc_list s else alloc_list s ++ [k])
    (if pin then pinned_list s ++ [k] else pinned_list s)
    (nallocated s + if pin then 0 else 1) (npinned s + if pin then 1 else 0)
    (obj_pool s) (pred (page_pool s)) (anon_count s + ac) (shadow_count s) (gone s).

Lemma mm_ext s s' :
  objs s = objs s' -> pframes s = pframes s' -> alloc_list s = alloc_list s' ->
  pinned_list s = pinned_list s' -> nallocated s = nallocated s' -> npinned s = npinned s' ->
  obj_pool s = obj_pool s' -> page_pool s = page_pool s' -> anon_count s = anon_count s' ->
  shadow_count s = shadow_count s' -> gone s = gone s' -> s = s'.
Proof. destruct s, s'. simpl. by intros -> -> -> -> -> -> -> -> -> -> ->. Qed.

Ltac map_solve :=
  apply map_eq; intros ?i;
  match goal with
  | |- context [<[?j := _]> _ !! ?i] => destruct (decide (i = j)) as [->|]
  | |- context [alter _ ?j _ !! ?i] => destruct (decide (i = j)) as [->|]
  end; by simplify_map_eq.

Lemma not_resident s o n : mm_ok s -> pframes s !! (o, n) = None -> ((o, n) ∉ alloc_list s) /\ ((o, n) ∉ pinned_list s).
Proof.
  intros Hok Hn. split; intros Hin.
  - apply (ok_alloc _ Hok) in Hin as (p & Hp & _). congruence.
  - apply (ok_pin _ Hok) in Hin as (p & Hp & _). congruence.
Qed.

Section pages.
Context `{FileOps}.

(** The object's own reference counter goes up with every page. *)
Definition ref_count_delta (ob : mmobj) : Z := match mmo_ops ob with Anon => 1 | _ => 0 end.

Lemma pframe_alloc_eq o ob n free s :
  mm_ok s -> objs s !! o = Some ob -> mmo_ops ob <> Vnode -> page_pool s = S free ->
  pframe_alloc o n s =
  Ret (Some (o, n), new_page (o, n) poison_page false (ref_count_delta ob) s).
Proof.
  intros Hok Ho Hk Hp. pose proof (ok_ref _ _ _ Hok Ho) as Hr. apply Z.ltb_lt in Hr.
  unfold pframe_alloc. rewrite bind_gets, Hp. unfold mmo_ref. exec. unfold ref_count_delta, new_page.
  destruct (mmo_ops ob) eqn:Eo; [| |done]; unfold anon_ref, shadow_ref; exec.
  - rewrite bind_assert by (simpl; by rewrite Hr, Eo). exec. unfold ret. do 2 f_equal.
    apply mm_ext; simpl; rewrite ?Hp; try done; try lia; map_solve.
  - rewrite bind_assert by (simpl; by rewrite Hr, Eo). exec. unfold ret. do 2 f_equal.
    apply mm_ext; simpl; rewrite ?Hp; try done; try lia; map_solve.
Qed.

(** The page as [pframe_alloc] leaves it, marked busy by [pframe_fill]. *)
Definition fresh_page (k : pfid) (ac : Z) (s : mm) : mm :=
  set_pframes <[k := MkPf poison_page true false 0]>
    (new_page k poison_page false ac s).

Lemma filter_snoc_id (l : list pfid) k : k ∉ l -> filter (fun x => x <> k) (l ++ [k]) = l.
Proof.
  intros Hk. rewrite filter_app, filter_ne_id by done.
  rewrite filter_cons_False by naive_solver. by rewrite filter_nil, app_nil_r.
Qed.

(** Filling with zeroes pins the page. *)
Lemma anon_fillpage_eq k ac s :
  k ∉ alloc_list s ->
  (anon_fillpage k ;;; pf_set k (pframe_set_busy false)) (fresh_page k ac s) =
  Ret (tt, new_page k zero_page true ac s).
Proof.
  intros Hk. unfold anon_fillpage, pframe_pin, fresh_page. exec. simpl.
  exec. do 2 f_equal. unfold new_page. apply mm_ext; simpl; try done; try lia.
  - rewrite !insert_insert_eq. done.
  - by apply filter_snoc_id.
Qed.

Lemma new_page_obj o n d pin ac s x ob :
  objs s !! x = Some ob ->
  exists ob', objs (new_page (o, n) d pin ac s) !! x = Some ob' /\
    mmo_ops ob' = mmo_ops ob /\ mmo_shadowed ob' = mmo_shadowed ob /\ mmo_un ob' = mmo_un ob /\
    mmo_refcount ob' - mmo_nrespages ob' = mmo_refcount ob - mmo_nrespages ob /\
    (x <> o -> ob' = ob).
Proof.
  intros Hx. simpl. destruct (decide (x = o)) as [->|Hne]; simplify_map_eq.
  - eexists. split; [done|]. simpl. split_and!; [done..|lia|done].
  - exists ob. split_and!; done.
Qed.

(** The copy-on-write fill takes the page the object used to see. *)
Lemma shadow_fill_eq o n s l x fuel d :
  mm_ok s -> pframes s !! (o, n) = None ->
  chain s x l -> pframes s !! (x, n) = None -> views s x n d -> (o ∉ tail l) ->
  (length l <= fuel)%nat ->
  exists pin, (shadow_fill_loop fuel x (o, n) ;;; pf_set (o, n) (pframe_set_busy false))
                (fresh_page (o, n) 0 s) =
              Ret (tt, new_page (o, n) d pin 0 s).
Proof.
  intros Hok Hon C. revert fuel d. induction C as [x ob Hx Hs Hk|x ob x' l Hx Hk Hs C IH];
    intros fuel d Hn V Hnl Hf; (destruct fuel as [|fuel]; [simpl in Hf; lia|]);
    destruct (new_page_obj o n poison_page false 0 s x ob Hx) as (ob1 & Hx1 & Ek & Es & _ & _ & _);
    simpl shadow_fill_loop; rewrite bind_bind;
    rewrite (bind_eq _ _ _ _ _ (obj_get_eq _ _ _ (Hx1 : objs (fresh_page (o, n) 0 s) !! x = Some ob1))).
  - rewrite Es, Hs, Ek, Hk. exists true.
    assert (d = zero_page) as -> by (inversion V; congruence).
    apply anon_fillpage_eq. by apply not_resident.
  - rewrite Es, Hs. destruct (chain_hd _ _ _ C) as [l' El].
    assert (Hne : x' <> o) by (intros ->; apply Hnl; rewrite El; simpl; set_solver).
    assert (V' : views s x' n d) by (inversion V; congruence).
    assert (exists ob', objs s !! x' = Some ob') as [ob' Hx'] by (inversion C; eauto).
    assert (Hf1 : objs (fresh_page (o, n) 0 s) !! x' = Some ob') by (simpl; by simplify_map_eq).
    rewrite bind_bind, (bind_eq _ _ _ _ _ (obj_get_eq _ _ _ Hf1)).
    case_bool_decide as Hin; simpl snd in *.
    + exists false. apply (ok_res _ Hok _ _ _ Hx') in Hin as [p' Hp'].
      assert (d = pf_data p') as -> by (inversion V'; congruence).
      assert (Hf2 : pframes (fresh_page (o, n) 0 s) !! (x', n) = Some p').
      { simpl. by rewrite !lookup_insert_ne by congruence. }
      rewrite bind_bind, (bind_eq _ _ _ _ _ (pf_get_eq _ _ _ Hf2)).
      unfold fresh_page. exec. do 2 f_equal. unfold new_page. apply mm_ext; simpl; try done.
      by rewrite !insert_insert_eq.
    + apply IH; try done.
      * destruct (pframes s !! (x', n)) eqn:E; [|done]. exfalso. apply Hin. apply (ok_res _ Hok _ _ _ Hx'). eauto.
      * rewrite El in Hnl |- *. simpl in Hnl |- *. set_solver.
      * simpl in Hf. lia.
Qed.

(** What a lookup may change: counters of the object, the order of the
    allocation list, and a page that appears with the contents seen before. *)
Record grow (s s' : mm) : Prop := {
  gr_obj : forall x ob, objs s !! x = Some ob ->
    exists ob', objs s' !! x = Some ob' /\ mmo_ops ob' = mmo_ops ob /\
      mmo_shadowed ob' = mmo_shadowed ob /\ mmo_un ob' = mmo_un ob /\
      mmo_refcount ob' - mmo_nrespages ob' = mmo_refcount ob - mmo_nrespages ob;
  gr_dom : forall x, is_Some (objs s' !! x) -> is_Some (objs s !! x);
  gr_old : forall k p, pframes s !! k = Some p ->
    exists p', pframes s' !! k = Some p' /\ pf_data p' = pf_data p;
  gr_new : forall x n p', pframes s !! (x, n) = None -> pframes s' !! (x, n) = Some p' ->
    forall d, views s x n d -> pf_data p' = d;
  gr_ok : mm_ok s'
}.

Lemma grow_views s s' x n d : grow s s' -> views s x n d -> views s' x n d.
Proof.
  intros G V. pose proof V as V0. induction V as [x n p Hp|x n ob x' d Hn Hx Hs V IH|x n ob Hn Hx Hs Hk].
  - destruct (gr_old _ _ G _ _ Hp) as (p' & Hp' & <-). by constructor.
  - destruct (pframes s' !! (x, n)) as [p'|] eqn:E.
    + rewrite <- (gr_new _ _ G _ _ _ Hn E _ V0). by constructor.
    + destruct (gr_obj _ _ G _ _ Hx) as (ob' & Hx' & _ & Hs' & _).
      eapply views_up; [done|done|by rewrite Hs'|]. by apply IH.
  - destruct (pframes s' !! (x, n)) as [p'|] eqn:E.
    + rewrite <- (gr_new _ _ G _ _ _ Hn E _ V0). by constructor.
    + destruct (gr_obj _ _ G _ _ Hx) as (ob' & Hx' & Hk' & Hs' & _).
      eapply views_zero; [done|done|by rewrite Hs'|by rewrite Hk'].
Qed.

Lemma grow_chain s s' x l : grow s s' -> chain s x l -> chain s' x l.
Proof.
  intros G C. induction C as [x ob Hx Hs Hk|x ob x' l Hx Hk Hs C IH];
    destruct (gr_obj _ _ G _ _ Hx) as (ob' & Hx' & Hk' & Hs' & _).
  - eapply chain_bottom; [done|by rewrite Hs'|by rewrite Hk'].
  - eapply chain_shadow; [done|by rewrite Hk'|by rewrite Hs'|done].
Qed.

Lemma grow_refl s : mm_ok s -> grow s s.
Proof. intros. split; eauto 10. intros x n p' H1 H2. congruence. Qed.

Lemma grow_trans s1 s2 s3 : grow s1 s2 -> grow s2 s3 -> grow s1 s3.
Proof.
  intros G1 G2. split.
  - intros x ob Hx. destruct (gr_obj _ _ G1 _ _ Hx) as (ob' & Hx' & ? & ? & ? & ?).
    destruct (gr_obj _ _ G2 _ _ Hx') as (ob'' & Hx'' & ? & ? & ? & ?).
    exists ob''. split_and!; [done|congruence..|lia].
  - intros x Hx. by apply (gr_dom _ _ G1), (gr_dom _ _ G2).
  - intros k p Hp. destruct (gr_old _ _ G1 _ _ Hp) as (p' & Hp' & <-). by apply (gr_old _ _ G2).
  - intros x n p' Hn Hp' d V. destruct (pframes s2 !! (x, n)) as [p2|] eqn:E.
    + destruct (gr_old _ _ G2 _ _ E) as (p3 & Hp3 & Ed). simplify_eq. rewrite Ed. by apply (gr_new _ _ G1 _ _ _ Hn E).
    + apply (gr_new _ _ G2 _ _ _ E Hp'). by eapply grow_views.
  - apply (gr_ok _ _ G2).
Qed.

Lemma mm_ok_new_page o ob n d pin ac s :
  mm_ok s -> objs s !! o = Some ob -> pframes s !! (o, n) = None -> mm_ok (new_page (o, n) d pin ac s).
Proof.
  intros Hok Ho Hn. destruct (not_resident _ _ _ Hok Hn) as [Ha Hp].
  destruct Hok as [Hres Hcnt Hpf (Hnd & Hna & Hnp) Hal Hpi].
  apply NoDup_app in Hnd as (Hnd1 & Hd & Hnd2).
  split; simpl.
  - intros x obx m Hx. destruct (decide (x = o)) as [->|Hne]; simplify_map_eq.
    + simpl. destruct (decide (m = n)) as [->|Hm].
      * rewrite lookup_insert_eq. split; [eauto|set_solver].
      * rewrite lookup_insert_ne by congruence. rewrite <- (Hres _ _ m Ho). set_solver.
    + rewrite lookup_insert_ne by congruence. by apply Hres.
  - intros x obx Hx. destruct (decide (x = o)) as [->|Hne]; simplify_map_eq; [|by eapply Hcnt].
    simpl. destruct (Hcnt _ _ Ho) as (H1 & H2 & H3). split_and!; [|lia|lia].
    constructor; [|done]. rewrite (Hres _ _ _ Ho), Hn. by intros [? ?].
  - intros k p. destruct (decide (k = (o, n))) as [->|Hk].
    + rewrite lookup_insert_eq. intros [= <-]. simpl. simplify_map_eq.
      destruct pin; split_and!; try done; try lia; eauto; set_solver.
    + rewrite lookup_insert_ne by done. intros Hp'. destruct (Hpf _ _ Hp') as (H1 & H2 & H3 & H4 & H5).
      split_and!; [done|done|by apply lookup_alter_is_Some| |]; intros Hx;
        destruct pin; rewrite ?elem_of_app; auto.
  - destruct pin; rewrite ?length_app; simpl; (split_and!; [|lia|lia]).
    + rewrite app_assoc. apply NoDup_app. split_and!; [by apply NoDup_app| |apply NoDup_singleton].
      intros k [?|?]%elem_of_app ->%list_elem_of_singleton; done.
    + rewrite <- app_assoc. apply NoDup_app. split_and!; [done| |].
      * intros k Hk [->|?]%elem_of_cons; [done|]. by eapply Hd.
      * by constructor.
  - intros k Hk. assert (Hk' : k ∈ alloc_list s \/ (pin = false /\ k = (o, n))).
    { destruct pin; [by left|]. apply elem_of_app in Hk as [?|?%list_elem_of_singleton]; auto. }
    destruct Hk' as [Hk'|[-> ->]].
    + destruct (Hal _ Hk') as (p & Hkp & Hz). exists p. rewrite lookup_insert_ne; [done|]. by intros <-.
    + rewrite lookup_insert_eq. eauto.
  - intros k Hk. assert (Hk' : k ∈ pinned_list s \/ (pin = true /\ k = (o, n))).
    { destruct pin; [|by left]. apply elem_of_app in Hk as [?|?%list_elem_of_singleton]; auto. }
    destruct Hk' as [Hk'|[-> ->]].
    + destruct (Hpi _ Hk') as (p & Hkp & Hz). exists p. rewrite lookup_insert_ne; [done|]. by intros <-.
    + rewrite lookup_insert_eq. eexists. split; [done|]. simpl. lia.
Qed.

Lemma grow_new_page o ob n d pin ac s :
  mm_ok s -> objs s !! o = Some ob -> pframes s !! (o, n) = None -> views s o n d ->
  grow s (new_page (o, n) d pin ac s).
Proof.
  intros Hok Ho Hn V. split.
  - intros x obx Hx. destruct (new_page_obj o n d pin ac s x obx Hx) as (ob' & ? & ? & ? & ? & ? & _). eauto 10.
  - intros x. simpl. by rewrite lookup_alter_is_Some.
  - intros k p Hp. simpl. rewrite lookup_insert_ne; [eauto|]. intros <-. congruence.
  - intros x m p' Hx. simpl. destruct (decide ((x, m) = (o, n))) as [[= -> ->]|Hne].
    + rewrite lookup_insert_eq. intros [= <-] d' V'. simpl. by eapply views_det.
    + rewrite lookup_insert_ne by done. congruence.
  - by eapply mm_ok_new_page.
Qed.

(** A hit moves an unpinned page to the end of the allocation list. *)
Definition touch (k : pfid) (s : mm) : mm :=
  set_lists (fun l => filter (fun x => x <> k) l ++ [k]) id 0 0 s.

Lemma grow_touch k p s : mm_ok s -> pframes s !! k = Some p -> pf_pincount p = 0 -> grow s (touch k s).
Proof.
  intros Hok Hk Hz. destruct Hok as [Hres Hcnt Hpf (Hnd & Hna & Hnp) Hal Hpi].
  destruct (Hpf _ _ Hk) as (_ & _ & _ & Hin & _). specialize (Hin Hz).
  apply NoDup_app in Hnd as (Hnd1 & Hd & Hnd2).
  assert (Hiff : forall x, x ∈ filter (fun x => x <> k) (alloc_list s) ++ [k] <-> x ∈ alloc_list s).
  { intros x. rewrite elem_of_app, list_elem_of_filter, list_elem_of_singleton.
    destruct (decide (x = k)) as [->|]; naive_solver. }
  split; [eauto 10|done|eauto| |]; [intros x n p' H1 H2; simpl in H2; congruence|].
  split; simpl; try done.
  - intros k' p' Hk'. destruct (Hpf _ _ Hk') as (? & ? & ? & ? & ?).
    split_and!; [done|done|done| |done]. intros. apply Hiff. auto.
  - split_and!; [| |unfold id; lia].
    + apply NoDup_app. split_and!; [|intros x Hx%Hiff; by apply Hd|done].
      apply NoDup_app. split_and!; [by apply NoDup_filter| |apply NoDup_singleton].
      intros x [? ?]%list_elem_of_filter ->%list_elem_of_singleton. done.
    + rewrite length_app. simpl. pose proof (length_filter_ne (alloc_list s) k Hnd1 Hin). lia.
  - intros k' Hk'%Hiff. by apply Hal.
Qed.

(** [pframe_get] gives the page the object sees, resident from then on, and
    fails only when memory is exhausted. *)
Lemma pframe_get_spec o n l d s :
  mm_ok s -> chain s o l -> views s o n d ->
  match pframes s !! (o, n), page_pool s with
  | None, O => pframe_get o n s = Ret (-1, None, s)
  | _, _ => exists s' p, pframe_get o n s = Ret (0, Some (o, n), s') /\ grow s s' /\
              pframes s' !! (o, n) = Some p /\ pf_data p = d /\
              (page_pool s <= S (page_pool s'))%nat
  end.
Proof.
  intros Hok C V. unfold pframe_get, pframe_get_resident.
  destruct (pframes s !! (o, n)) as [p|] eqn:Hp.
  - destruct (ok_pf _ Hok _ _ Hp) as (Hb & Hpc & _).
    assert (d = pf_data p) as -> by (inversion V; congruence).
    rewrite bind_bind, bind_gets, Hp. destruct (Z.eqb_spec (pf_pincount p) 0) as [Hz|Hz].
    + exists (touch (o, n) s), p. exec. rewrite Hb.
      split_and!; [done|by eapply grow_touch|done|done|simpl; lia].
    + exists s, p. exec. rewrite Hb. split_and!; [done|by apply grow_refl|done|done|lia].
  - destruct (page_pool s) as [|free] eqn:Hf; rewrite bind_bind, bind_gets, Hp, bind_ret.
    { unfold pframe_alloc. by rewrite bind_bind, bind_gets, Hf. }
    assert (exists ob, objs s !! o = Some ob /\ mmo_ops ob <> Vnode) as (ob & Ho & Hk).
    { inversion C; eexists; split; eauto; congruence. }
    erewrite bind_eq by (by eapply pframe_alloc_eq). unfold pframe_fill.
    destruct (new_page_obj o n poison_page false (ref_count_delta ob) s o ob Ho) as (ob1 & Ho1 & Ek & _).
    rewrite !bind_bind. erewrite bind_eq.
    2: { apply pf_set_eq with (p := MkPf poison_page false false 0). simpl. by rewrite lookup_insert_eq. }
    change (set_pframes _ _) with (fresh_page (o, n) (ref_count_delta ob) s).
    rewrite bind_bind, (bind_eq _ _ _ _ _ (obj_get_eq _ _ _ (Ho1 : objs (fresh_page (o, n) _ s) !! o = _))).
    rewrite Ek. unfold ref_count_delta. destruct (mmo_ops ob) eqn:Eo; [| |done].
    + assert (d = zero_page) as ->.
      { inversion C; simplify_eq; inversion V; congruence. }
      exists (new_page (o, n) zero_page true 1 s), (MkPf zero_page false false 1).
      pose proof (anon_fillpage_eq (o, n) 1 s (proj1 (not_resident _ _ _ Hok Hp))) as E.
      split_and!; [|by eapply grow_new_page|simpl; by rewrite lookup_insert_eq|done|simpl; lia].
      unfold bind in E |- *. destruct (anon_fillpage (o, n) _) as [[r s1]|]; [|done].
      by rewrite E.
    + destruct (chain_hd _ _ _ C) as [l' El].
      destruct (shadow_fill_eq o n s l o (S (size (objs s))) d) as [pin E]; try done.
      { pose proof (chain_nodup _ _ _ C) as Hnd. rewrite El in Hnd |- *. simpl. by apply NoDup_cons in Hnd as [? _]. }
      { pose proof (chain_length _ _ _ C). lia. }
      exists (new_page (o, n) d pin 0 s), (MkPf d false false (if pin then 1 else 0)).
      split_and!; [|by eapply grow_new_page|simpl; by rewrite lookup_insert_eq|done|simpl; lia].
      unfold shadow_fillpage. rewrite !bind_bind. erewrite bind_eq.
      2: { apply pf_get_eq. simpl. by rewrite lookup_insert_eq. }
      unfold chain_fuel. rewrite bind_bind, bind_assert by done.
      rewrite bind_bind, bind_assert by done. rewrite bind_bind, bind_gets.
      replace (size (objs (fresh_page (o, n) 0 s))) with (size (objs s)).
      2: { unfold fresh_page, new_page. simpl. by rewrite <- !size_dom, dom_alter_L. }
      unfold bind in E |- *. simpl fst. destruct (shadow_fill_loop _ o (o, n) _) as [[r s1]|]; [|done].
      by rewrite E.
Qed.

(** ** Lookups through a shadow chain *)

Lemma views_total s o n l : chain s o l -> exists d, views s o n d.
Proof.
  induction 1 as [x ob Hx Hs Hk|x ob x' l Hx Hk Hs C [d V]];
    (destruct (pframes s !! (x, n)) as [p|] eqn:E; [eexists; by constructor|]).
  - exists zero_page. by eapply views_zero.
  - exists d. by eapply views_up.
Qed.

Lemma shadow_search_read s o n l d fuel :
  mm_ok s -> chain s o l -> views s o n d -> (length l <= fuel)%nat ->
  (exists x p, shadow_search fuel o n false s = Ret (inl (x, n), s) /\
     pframes s !! (x, n) = Some p /\ pf_data p = d) \/
  (exists b, shadow_search fuel o n false s = Ret (inr b, s) /\ chain s b [b] /\ views s b n d).
Proof.
  intros Hok C. revert fuel. induction C as [x ob Hx Hs Hk|x ob x' l Hx Hk Hs C IH];
    intros fuel V Hf; (destruct fuel as [|fuel]; [simpl in Hf; lia|]);
    simpl shadow_search; rewrite (bind_eq _ _ _ _ _ (obj_get_eq _ _ _ Hx)), Hs.
  - right. exists x. split_and!; [done|by econstructor|done].
  - case_bool_decide as Hin; simpl.
    + left. apply (ok_res _ Hok _ _ _ Hx) in Hin as [p Hp]. exists x, p.
      split_and!; [done|done|]. inversion V; congruence.
    + apply IH; [|simpl in Hf; lia]. rewrite (ok_res _ Hok _ _ _ Hx) in Hin.
      inversion V; simplify_eq; [|done]. exfalso. apply Hin. eauto.
Qed.

Lemma shadow_search_write s o n l fuel :
  chain s o l -> (length l <= fuel)%nat ->
  exists b, shadow_search fuel o n true s = Ret (inr b, s) /\ chain s b [b].
Proof.
  intros C. revert fuel. induction C as [x ob Hx Hs Hk|x ob x' l Hx Hk Hs C IH];
    intros fuel Hf; (destruct fuel as [|fuel]; [simpl in Hf; lia|]);
    simpl shadow_search; rewrite (bind_eq _ _ _ _ _ (obj_get_eq _ _ _ Hx)), Hs.
  - exists x. split; [done|by econstructor].
  - rewrite andb_false_r. apply IH. simpl in Hf. lia.
Qed.

Lemma chain_bottom_inv s b : chain s b [b] -> exists ob, objs s !! b = Some ob /\ mmo_ops ob = Anon.
Proof. inversion 1 as [? ob|? ? ? ? ? ? ? C]; eauto. by apply chain_hd in C as [? ?]. Qed.

(** The result of a lookup: the page with contents [d], or out of memory. *)
Definition found (s s' : mm) (n : Z) (d : list Z) (r : Z) (k : option pfid) : Prop :=
  grow s s' /\
  ((r = 0 /\ exists x p, k = Some (x, n) /\ pframes s' !! (x, n) = Some p /\ pf_data p = d) \/
   (r = -1 /\ k = None)).

Lemma pframe_get_found o n l d s :
  mm_ok s -> chain s o l -> views s o n d ->
  exists s' r k, pframe_get o n s = Ret (r, k, s') /\ found s s' n d r k /\
    (page_pool s <= S (page_pool s'))%nat /\ (r = 0 -> k = Some (o, n)) /\
    (r = -1 -> page_pool s = O /\ s' = s).
Proof.
  intros Hok C V. pose proof (pframe_get_spec o n l d s Hok C V) as Hg.
  destruct (pframes s !! (o, n)) as [p|] eqn:Hp; [|destruct (page_pool s) as [|free] eqn:Hf].
  2: { exists s, (-1), None. split_and!; [done|split; [by apply grow_refl|by right]|lia|done|done]. }
  all: destruct Hg as (s' & p' & E & G & Hp' & Ed & Hle); exists s', 0, (Some (o, n));
    (split_and!; [done|split; [done|left; eauto 10]|lia|done|done]).
Qed.

Lemma pframe_lookup_read o n l d s :
  mm_ok s -> chain s o l -> views s o n d ->
  exists s' r k, pframe_lookup o n false s = Ret (r, k, s') /\ found s s' n d r k /\
    (r = -1 -> page_pool s = O).
Proof.
  intros Hok C V. unfold pframe_lookup.
  assert (exists ob, objs s !! o = Some ob /\ (mmo_ops ob = Anon \/ mmo_ops ob = Shadow)) as (ob & Ho & Hk).
  { inversion C; eauto. }
  rewrite (bind_eq _ _ _ _ _ (obj_get_eq _ _ _ Ho)). destruct Hk as [-> | ->].
  - destruct (pframe_get_found o n l d s Hok C V) as (s' & r & k & E & Hf & _ & _ & Hm).
    exists s', r, k. split_and!; [exact E|done|]. naive_solver.
  - unfold shadow_lookuppage, chain_fuel. rewrite bind_gets.
    pose proof (chain_length _ _ _ C) as Hl.
    destruct (shadow_search_read s o n l d (S (size (objs s)))) as [(x & p & E & Hp & Hd)|(b & E & Cb & Vb)];
      try done; [lia| |]; rewrite (bind_eq _ _ _ _ _ E).
    + exists s, 0, (Some (x, n)). split_and!; [done|split; [by apply grow_refl|left; eauto 10]|done].
    + destruct (chain_bottom_inv _ _ Cb) as (obb & Hb & Ekb).
      rewrite (bind_eq _ _ _ _ _ (obj_get_eq _ _ _ Hb)), Ekb.
      destruct (pframe_get_found b n [b] d s Hok Cb Vb) as (s' & r & k & Eg & Hf & _ & _ & Hm).
      unfold anon_lookuppage. rewrite (bind_eq _ _ _ _ _ Eg), andb_false_r.
      exists s', r, k. split_and!; [done|done|naive_solver].
Qed.

Lemma pframe_lookup_write o n l d s :
  mm_ok s -> chain s o l -> views s o n d -> (2 <= page_pool s)%nat ->
  exists s' p, pframe_lookup o n true s = Ret (0, Some (o, n), s') /\ grow s s' /\
    pframes s' !! (o, n) = Some p /\ pf_data p = d.
Proof.
  intros Hok C V Hpool. unfold pframe_lookup.
  assert (exists ob, objs s !! o = Some ob /\ (mmo_ops ob = Anon \/ mmo_ops ob = Shadow)) as (ob & Ho & Hk).
  { inversion C; eauto. }
  rewrite (bind_eq _ _ _ _ _ (obj_get_eq _ _ _ Ho)). destruct Hk as [-> | ->].
  - destruct (pframe_get_found o n l d s Hok C V) as (s' & r & k & E & [G Hr] & _ & Hk0 & Hm).
    destruct Hr as [(-> & x & p & -> & Hp & Hd)|[-> ->]]; [|destruct (Hm eq_refl); lia].
    specialize (Hk0 eq_refl). simplify_eq. eauto 10.
  - unfold shadow_lookuppage, chain_fuel. rewrite bind_gets.
    pose proof (chain_length _ _ _ C) as Hl.
    destruct (shadow_search_write s o n l (S (size (objs s))) C) as (b & E & Cb); [lia|].
    rewrite (bind_eq _ _ _ _ _ E). destruct (chain_bottom_inv _ _ Cb) as (obb & Hb & Ekb).
    rewrite (bind_eq _ _ _ _ _ (obj_get_eq _ _ _ Hb)), Ekb.
    destruct (views_total s b n [b] Cb) as [db Vb].
    destruct (pframe_get_found b n [b] db s Hok Cb Vb) as (s1 & r & k & Eg & [G1 Hr] & Hp1 & _ & Hm).
    destruct Hr as [(-> & _)|[-> _]]; [|destruct (Hm eq_refl); lia].
    unfold anon_lookuppage. rewrite (bind_eq _ _ _ _ _ Eg). simpl.
    destruct (pframe_get_found o n l d s1 (gr_ok _ _ G1) (grow_chain _ _ _ _ G1 C) (grow_views _ _ _ _ _ G1 V))
      as (s2 & r2 & k2 & Eg2 & [G2 Hr2] & _ & Hk2 & Hm2).
    destruct Hr2 as [(-> & x & p & -> & Hp & Hd)|[-> ->]]; [|destruct (Hm2 eq_refl); lia].
    specialize (Hk2 eq_refl). simplify_eq. exists s2, p. split_and!; [done|by eapply grow_trans|done|done].
Qed.

(** Storing into a page the object owns. *)
Definition store_page (k : pfid) (d : list Z) (s : mm) : mm :=
  set_pframes (alter (pf_set_data d) k) s.

Lemma store_views o n d' s p x m d lx :
  pframes s !! (o, n) = Some p -> chain s x lx -> (m <> n \/ (o ∉ lx)) ->
  views s x m d -> views (store_page (o, n) d' s) x m d.
Proof.
  intros Hp C Hor V. revert lx C Hor.
  induction V as [x m px Hx|x m ob x' d Hn Hx Hs V IH|x m ob Hn Hx Hs Hk]; intros lx C Hor.
  - apply (views_res (store_page (o, n) d' s)). unfold store_page. simpl.
    rewrite lookup_alter_ne; [done|]. intros [= -> ->].
    destruct (chain_hd _ _ _ C) as [l' ->]. set_solver.
  - inversion C; simplify_eq.
    eapply views_up; [|exact Hx|exact Hs|eapply IH; [done|set_solver]].
    unfold store_page. simpl. rewrite lookup_alter_ne; [done|]. intros [= -> ->]. congruence.
  - eapply views_zero; [|exact Hx|done|done]. unfold store_page. simpl.
    rewrite lookup_alter_ne; [done|]. intros [= -> ->]. congruence.
Qed.
End pages.

(** ** Dropping references *)

(** The state without page [k] of object [fst k], and without the reference
    the page held. *)
Definition drop_page (k : pfid) (da dh : Z) (s : mm) : mm :=
  MkMm (alter (fun ob => MkObj (mmo_ops ob) (mmo_refcount ob - 1) (mmo_nrespages ob - 1)
                 (filter (fun n => n <> snd k) (mmo_respages ob)) (mmo_un ob) (mmo_shadowed ob))
          (fst k) (objs s))
    (delete k (pframes s))
    (filter (fun x => x <> k) (alloc_list s)) (filter (fun x => x <> k) (pinned_list s))
    (Z.of_nat (length (filter (fun x => x <> k) (alloc_list s))))
    (Z.of_nat (length (filter (fun x => x <> k) (pinned_list s))))
    (obj_pool s) (S (page_pool s)) (anon_count s + da) (shadow_count s + dh)
    (log_uaf (FreedPframeLink k) (log_unmap (bottom_vmas (fst k) s, snd k) (log_flush k (gone s)))).

Lemma mm_ok_drop_page o ob n p da dh s :
  mm_ok s -> objs s !! o = Some ob -> pframes s !! (o, n) = Some p ->
  mm_ok (drop_page (o, n) da dh s).
Proof.
  intros [Hres Hcnt Hpf (Hnd & Hna & Hnp) Hal Hpi] Ho Hp.
  assert (Hin : n ∈ mmo_respages ob) by (apply (Hres _ _ _ Ho); eauto).
  split; simpl.
  - intros x obx m Hx. destruct (decide (x = o)) as [->|Hne]; simplify_map_eq.
    + simpl. rewrite list_elem_of_filter. destruct (decide (m = n)) as [->|Hm].
      * rewrite lookup_delete_eq. split; [naive_solver|by intros [? ?]].
      * rewrite lookup_delete_ne by congruence. rewrite <- (Hres _ _ m Ho). naive_solver.
    + rewrite lookup_delete_ne by congruence. by apply Hres.
  - intros x obx Hx. destruct (decide (x = o)) as [->|Hne]; simplify_map_eq; [|by eapply Hcnt].
    simpl. destruct (Hcnt _ _ Ho) as (H1 & H2 & H3).
    pose proof (length_filter_ne _ _ H1 Hin). split_and!; [by apply NoDup_filter|lia|lia].
  - intros k q. destruct (decide (k = (o, n))) as [->|Hk]; [by rewrite lookup_delete_eq|].
    rewrite lookup_delete_ne by done. intros Hq. destruct (Hpf _ _ Hq) as (H1 & H2 & H3 & H4 & H5).
    split_and!; [done|done|by apply lookup_alter_is_Some| |]; intros; apply list_elem_of_filter; auto.
  - apply NoDup_app in Hnd as (Hnd1 & Hd & Hnd2). split_and!; [|done|done].
    apply NoDup_app. split_and!; [by apply NoDup_filter| |by apply NoDup_filter].
    intros k [_ Hk]%list_elem_of_filter [_ Hk']%list_elem_of_filter. by eapply Hd.
  - intros k [Hk Hin']%list_elem_of_filter. rewrite lookup_delete_ne by done. by apply Hal.
  - intros k [Hk Hin']%list_elem_of_filter. rewrite lookup_delete_ne by done. by apply Hpi.
Qed.

Section put.
Context `{FileOps}.

(** A page with its pin count brought to zero. *)
Definition unpinned (k : pfid) (p : pframe) (s : mm) : mm :=
  set_lists (fun l => l ++ [k]) (filter (fun x => x <> k)) 1 (-1)
    (set_pframes <[k := pf_set_pincount 0 p]> s).

Lemma unpin_loop_eq k c p s :
  pframes s !! k = Some p -> pf_pincount p = Z.of_nat (S c) ->
  unpin_loop (S c) k s = Ret (tt, unpinned k p s).
Proof.
  revert p s. induction c as [|c IH]; intros p s Hk Hc.
  - simpl unpin_loop. exec. rewrite Hc. simpl. unfold pframe_unpin. exec. rewrite Hc. simpl. exec.
    unfold ret. do 2 f_equal.
  - change (unpin_loop (S (S c)) k) with
      (let! p := pf_get k in if pf_pincount p =? 0 then ret tt else pframe_unpin k ;;; unpin_loop (S c) k).
    exec. rewrite (proj2 (Z.eqb_neq _ _)) by lia.
    assert (E : pframe_unpin k s = Ret (tt, set_pframes <[k := pf_set_pincount (pf_pincount p - 1) p]> s)).
    { unfold pframe_unpin. exec. rewrite (proj2 (Z.eqb_neq _ _)) by lia. done. }
    rewrite (bind_eq _ _ _ _ _ E).
    rewrite (IH (pf_set_pincount (pf_pincount p - 1) p)); [|simpl; by simplify_map_eq|simpl; lia].
    do 2 f_equal. unfold unpinned. apply mm_ext; simpl; try done. by rewrite insert_insert_eq.
Qed.

(** The state in which [pframe_free] starts, whatever the pin count was. *)
Definition unpinned_any (k : pfid) (p : pframe) (s : mm) : mm :=
  if pf_pincount p =? 0 then s else unpinned k p s.

Lemma unpin_all_eq k p s :
  pframes s !! k = Some p -> 0 <= pf_pincount p ->
  unpin_loop (Z.to_nat (pf_pincount p)) k s = Ret (tt, unpinned_any k p s).
Proof.
  intros Hk Hc. unfold unpinned_any. destruct (Z.eqb_spec (pf_pincount p) 0) as [Hz|Hz].
  - rewrite Hz. simpl. exec. by rewrite Hz.
  - destruct (Z.to_nat (pf_pincount p)) as [|c] eqn:E; [lia|]. apply unpin_loop_eq; [done|lia].
Qed.

Definition put_delta (ob : mmobj) : Z * Z := match mmo_ops ob with Anon => (-1, 0) | _ => (0, -1) end.

(** A reference that is not the last only goes down. *)
Definition unref (o : Z) (da dh : Z) (s : mm) : mm :=
  set_counts (anon_count s + da) (shadow_count s + dh)
    (set_objs (alter (fun ob => with_refcount (mmo_refcount ob - 1) ob) o) s).

Lemma obj_count_live o ob s : objs s !! o = Some ob ->
  obj_count_down o s = Ret (tt, set_objs (alter (fun ob => with_refcount (mmo_refcount ob - 1) ob) o) s).
Proof.
  intros Ho. unfold obj_count_down. rewrite bind_gets, Ho. unfold modify. do 2 f_equal.
  apply mm_ext; simpl; try done. map_solve.
Qed.

Lemma obj_count_gone o ob s : objs s !! o = None -> g_objs (gone s) !! o = Some ob ->
  obj_count_down o s = Ret (tt, set_gone (log_uaf (FreedObjCount o)) (set_gone (set_gone_objs <[o := with_refcount (mmo_refcount ob - 1) ob]>) s)).
Proof. intros Ho Hg. unfold obj_count_down. by rewrite bind_gets, Ho, bind_gets, Hg, bind_deref, bind_modify. Qed.

Lemma put_obj_unref fuel o ob s :
  objs s !! o = Some ob -> mmo_ops ob <> Vnode -> 0 < mmo_refcount ob ->
  mmo_refcount ob - 1 <> mmo_nrespages ob ->
  put_obj (S fuel) o s = Ret (tt, unref o (put_delta ob).1 (put_delta ob).2 s).
Proof.
  intros Ho Hk Hr Hne. simpl put_obj. exec.
  apply Z.ltb_lt in Hr. apply Z.eqb_neq in Hne. unfold put_delta.
  destruct (mmo_ops ob) eqn:Eo; [| |done]; rewrite bind_assert by done; rewrite Hne; exec;
    rewrite (bind_eq _ _ _ _ _ (obj_count_live o ob s Ho)); unfold modify; do 2 f_equal; unfold unref; apply mm_ext; simpl; try done; lia.
Qed.

Lemma uncache_page_eq fuel o ob n p s :
  mm_ok s -> objs s !! o = Some ob -> mmo_ops ob <> Vnode -> pframes s !! (o, n) = Some p ->
  uncache_page (put_obj (S fuel)) (o, n) s =
  Ret (tt, drop_page (o, n) (put_delta ob).1 (put_delta ob).2 s).
Proof.
  intros Hok Ho Hk Hp. destruct (ok_pf _ Hok _ _ Hp) as (Hb & Hpc & _ & Hal & Hpi).
  destruct (ok_cnt _ Hok _ _ Ho) as (Hnd & Hlen & Hlt).
  destruct (ok_lists _ Hok) as (Hndl & Hna & Hnp). apply NoDup_app in Hndl as (Hnd1 & Hd & Hnd2).
  unfold uncache_page. exec. rewrite (bind_eq _ _ _ _ _ (unpin_all_eq _ _ _ Hp Hpc)).
  unfold unpinned_any. destruct (Z.eqb_spec (pf_pincount p) 0) as [Hz|Hz].
  - exec. rewrite Hb. unfold pframe_free_with, tlb_flush_frame, pframe_remove_from_pts. exec.
    rewrite bind_assert by (simpl; lia). rewrite bind_assert by (simpl; by rewrite Hb). exec. simpl fst. exec.
    etrans; [eapply put_obj_unref; [simpl; by simplify_map_eq|done|simpl; lia|simpl; lia]|].
    specialize (Hal Hz). assert (Hnp' : (o, n) ∉ pinned_list s) by (by apply Hd).
    pose proof (length_filter_ne _ _ Hnd1 Hal).
    do 2 f_equal. unfold unref, drop_page, put_delta. simpl.
    rewrite (filter_ne_id (pinned_list s)) by done.
    apply mm_ext; simpl; try done; try lia.
    map_solve.
  - assert (Hpos : 0 < pf_pincount p) by lia. specialize (Hpi Hpos).
    assert (Hna' : (o, n) ∉ alloc_list s) by (intros Hx; by eapply Hd).
    pose proof (length_filter_ne _ _ Hnd2 Hpi).
    unfold unpinned. exec. cbn [pf_busy pf_set_pincount]. rewrite Hb. unfold pframe_free_with, tlb_flush_frame, pframe_remove_from_pts. exec.
    rewrite bind_assert by (simpl; by rewrite Hb). exec. simpl fst. exec.
    etrans; [eapply put_obj_unref; [simpl; by simplify_map_eq|done|simpl; lia|simpl; lia]|].
    do 2 f_equal. unfold unref, drop_page, put_delta.
    rewrite (filter_ne_id (alloc_list s)) by done.
    apply mm_ext; simpl; try done; try lia.
    + map_solve.
    + by rewrite delete_insert_eq.
    + by apply filter_snoc_id.
Qed.

Definition drop_pages (o : Z) (da dh : Z) (ns : list Z) (s : mm) : mm :=
  foldl (fun s n => drop_page (o, n) da dh s) s ns.

Lemma drop_page_obj o n da dh s x :
  x <> o -> objs (drop_page (o, n) da dh s) !! x = objs s !! x.
Proof. intros. simpl. by simplify_map_eq. Qed.

Lemma bottom_drop_page o n da dh s : bottom_vmas o (drop_page (o, n) da dh s) = bottom_vmas o s.
Proof.
  unfold bottom_vmas. simpl. rewrite lookup_alter_eq. destruct (objs s !! o) as [ob|]; [|done]. simpl.
  destruct (mmo_shadowed ob); [|done]. destruct (mmo_un ob) as [|b]; [done|].
  destruct (decide (b = o)) as [->|]; [|by rewrite lookup_alter_ne]. rewrite lookup_alter_eq. by destruct (objs s !! o).
Qed.

(** What uncaching records: every page's mappings, and a link of every freed frame. *)
Lemma drop_pages_gone o da dh ns : forall s,
  gone (drop_pages o da dh ns s) = MkGone (g_objs (gone s))
    (rev (map (fun n => FreedPframeLink (o, n)) ns) ++ g_uaf (gone s))
    (rev (map (fun n => (bottom_vmas o s, n)) ns) ++ g_unmap (gone s))
    (rev (map (fun n => (o, n)) ns) ++ g_flushed (gone s)).
Proof.
  induction ns as [|n ns IH]; intros s; [by destruct s as [?????????? []]|].
  change (drop_pages o da dh (n :: ns) s) with (drop_pages o da dh ns (drop_page (o, n) da dh s)).
  rewrite IH, bottom_drop_page. simpl. by rewrite <- !app_assoc.
Qed.

Lemma uncache_all_eq fuel o ns ob s :
  mm_ok s -> objs s !! o = Some ob -> mmo_ops ob <> Vnode -> mmo_respages ob = ns ->
  uncache_all (put_obj (S fuel)) o ns s =
    Ret (tt, drop_pages o (put_delta ob).1 (put_delta ob).2 ns s) /\
  let s' := drop_pages o (put_delta ob).1 (put_delta ob).2 ns s in
  mm_ok s' /\
  (exists ob', objs s' !! o = Some ob' /\ mmo_respages ob' = [] /\ mmo_ops ob' = mmo_ops ob /\
     mmo_refcount ob' = mmo_refcount ob - mmo_nrespages ob) /\
  (forall x, x <> o -> objs s' !! x = objs s !! x) /\
  (forall x m, x <> o -> pframes s' !! (x, m) = pframes s !! (x, m)) /\
  page_pool s' = (page_pool s + length ns)%nat /\ obj_pool s' = obj_pool s.
Proof.
  revert ob s. induction ns as [|n ns IH]; intros ob s Hok Ho Hk Hns.
  { destruct (ok_cnt _ Hok _ _ Ho) as (_ & Hlen & _). rewrite Hns in Hlen. simpl in Hlen.
    split; [done|]. simpl. split_and!; [done| |done|done|lia|done].
    exists ob. split_and!; [done|done|done|lia]. }
  assert (exists p, pframes s !! (o, n) = Some p) as [p Hp].
  { apply (ok_res _ Hok _ _ n Ho). rewrite Hns. set_solver. }
  destruct (ok_cnt _ Hok _ _ Ho) as (Hnd & Hlen & _). rewrite Hns in Hnd. apply NoDup_cons in Hnd as [Hnin Hnd].
  simpl. rewrite (bind_eq _ _ _ _ _ (uncache_page_eq fuel o ob n p s Hok Ho Hk Hp)).
  set (s1 := drop_page (o, n) (put_delta ob).1 (put_delta ob).2 s).
  set (ob1 := MkObj (mmo_ops ob) (mmo_refcount ob - 1) (mmo_nrespages ob - 1)
               (filter (fun m => m <> n) (mmo_respages ob)) (mmo_un ob) (mmo_shadowed ob)).
  assert (Ho1 : objs s1 !! o = Some ob1) by (simpl; by simplify_map_eq).
  assert (Hns1 : mmo_respages ob1 = ns).
  { simpl. rewrite Hns. rewrite filter_cons_False by naive_solver. by apply filter_ne_id. }
  destruct (IH ob1 s1) as (E & H1 & (ob' & Ho' & Hr' & Hk' & Hrc) & H3 & H4 & H5 & H6); try done.
  { by eapply mm_ok_drop_page. }
  split; [exact E|]. split_and!; [exact H1| | | | |].
  - exists ob'. split_and!; [exact Ho'|done|done|]. simpl in Hrc. lia.
  - intros x Hx. etrans; [by apply H3|]. by apply drop_page_obj.
  - intros x m Hx. etrans; [by apply H4|]. simpl. rewrite lookup_delete_ne; [done|]. congruence.
  - etrans; [exact H5|]. simpl. lia.
  - exact H6.
Qed.
End put.

Lemma mm_ok_gone f s : mm_ok s -> mm_ok (set_gone f s).
Proof. by intros [H1 H2 H3 H4 H5 H6]; split. Qed.

Lemma mm_ok_delete o ob s da dh :
  mm_ok s -> objs s !! o = Some ob -> mmo_respages ob = [] ->
  mm_ok (set_counts da dh (set_pool (o :: obj_pool s) (set_objs (delete o) s))) /\
  forall n, pframes s !! (o, n) = None.
Proof.
  intros [Hres Hcnt Hpf Hl Hal Hpi] Ho Hr.
  assert (Hno : forall n, pframes s !! (o, n) = None).
  { intros n. destruct (pframes s !! (o, n)) eqn:E; [|done]. exfalso.
    assert (n ∈ mmo_respages ob) by (apply (Hres _ _ _ Ho); eauto). rewrite Hr in *. set_solver. }
  split; [|done]. split; simpl; try done.
  - intros x obx n [Hne Hx]%lookup_delete_Some. by apply Hres.
  - intros x obx [Hne Hx]%lookup_delete_Some. by eapply Hcnt.
  - intros [x n] p Hp. destruct (Hpf _ _ Hp) as (? & ? & ? & ? & ?). simpl in *.
    split_and!; [done|done| |done|done]. rewrite lookup_delete_ne; [done|]. intros <-. by rewrite Hno in Hp.
Qed.

Lemma mm_ok_unref o ob s da dh :
  mm_ok s -> objs s !! o = Some ob -> mmo_nrespages ob < mmo_refcount ob - 1 -> mm_ok (unref o da dh s).
Proof.
  intros [Hres Hcnt Hpf Hl Hal Hpi] Ho Hr. split; simpl; try done.
  - intros x obx n Hx. destruct (decide (x = o)) as [->|?]; simplify_map_eq; by eapply Hres.
  - intros x obx Hx. destruct (decide (x = o)) as [->|?]; simplify_map_eq; [|by eapply Hcnt].
    destruct (Hcnt _ _ Ho) as (? & ? & ?). simpl. split_and!; [done|done|lia].
  - intros k p Hp. destruct (Hpf _ _ Hp) as (? & ? & ? & ? & ?).
    split_and!; [done|done|by apply lookup_alter_is_Some|done|done].
Qed.

(** The record of a [put] that frees the object. *)
Definition put_gone (o : Z) (ns : list Z) (s s' : mm) : Prop :=
  g_uaf (gone s') = FreedObjCount o :: rev (map (fun n => FreedPframeLink (o, n)) ns) ++ g_uaf (gone s) /\
  g_unmap (gone s') = rev (map (fun n => (bottom_vmas o s, n)) ns) ++ g_unmap (gone s) /\
  g_flushed (gone s') = rev (map (fun n => (o, n)) ns) ++ g_flushed (gone s).

Lemma mmo_put_spec `{FileOps} o ob s :
  mm_ok s -> objs s !! o = Some ob -> mmo_ops ob <> Vnode ->
  exists s', mmo_put o s = Ret (tt, s') /\ mm_ok s' /\
    (forall x, x <> o -> objs s' !! x = objs s !! x) /\
    (forall x m, x <> o -> pframes s' !! (x, m) = pframes s !! (x, m)) /\
    if decide (mmo_refcount ob - mmo_nrespages ob = 1) then
      objs s' !! o = None /\ (forall m, pframes s' !! (o, m) = None) /\
      page_pool s' = (page_pool s + length (mmo_respages ob))%nat /\ obj_pool s' = o :: obj_pool s /\
      put_gone o (mmo_respages ob) s s'
    else
      objs s' !! o = Some (with_refcount (mmo_refcount ob - 1) ob) /\ pframes s' = pframes s /\ gone s' = gone s.
Proof.
  intros Hok Ho Hk. destruct (ok_cnt _ Hok _ _ Ho) as (Hnd & Hlen & Hlt). unfold mmo_put.
  case_decide as Hc.
  - destruct (uncache_all_eq 0 o _ ob s Hok Ho Hk eq_refl) as (E & H1 & (ob' & Ho' & Hr' & _ & _) & H3 & H4 & H5 & H6).
    pose proof (drop_pages_gone o (put_delta ob).1 (put_delta ob).2 (mmo_respages ob) s) as Hg.
    set (s1 := drop_pages o _ _ _ s) in *.
    destruct (mm_ok_delete o ob' s1 (anon_count s1 + (put_delta ob).1) (shadow_count s1 + (put_delta ob).2) H1 Ho' Hr') as [Hok' Hno].
    set (s2 := set_pool (o :: obj_pool s1) (set_gone (set_gone_objs <[o := ob']>) (set_objs (delete o) s1))).
    assert (Ef : (uncache_all (put_obj 1) o (mmo_respages ob) ;;; obj_free o) s = Ret (tt, s2)).
    { rewrite (bind_eq _ _ _ _ _ E). unfold obj_free. by rewrite (bind_eq _ _ _ _ _ (obj_get_eq _ _ _ Ho')). }
    assert (Ec : obj_count_down o s2 = Ret (tt, set_gone (log_uaf (FreedObjCount o)) (set_gone (set_gone_objs <[o := with_refcount (mmo_refcount ob' - 1) ob']>) s2))).
    { apply obj_count_gone; simpl; by simplify_map_eq. }
    eexists. split; [|split; [|]].
    + change (put_obj 2 o s) with ((let! ob := obj_get o in
        match mmo_ops ob with
        | Vnode => file_put o
        | _ =>
            KASSERT (0 <? mmo_refcount ob) ;;;
            (if mmo_refcount ob - 1 =? mmo_nrespages ob
             then uncache_all (put_obj 1) o (mmo_respages ob) ;;; obj_free o
             else ret tt) ;;;
            obj_count_down o ;;;
            modify (fun s => match mmo_ops ob with
                             | Anon => set_counts (anon_count s - 1) (shadow_count s) s
                             | _ => set_counts (anon_count s) (shadow_count s - 1) s
                             end)
        end) s).
      rewrite (bind_eq _ _ _ _ _ (obj_get_eq _ _ _ Ho)).
      instantiate (1 := set_gone (log_uaf (FreedObjCount o)) (set_gone (set_gone_objs <[o := with_refcount (mmo_refcount ob' - 1) ob']>)
        (set_gone (set_gone_objs <[o := ob']>) (set_counts (anon_count s1 + (put_delta ob).1) (shadow_count s1 + (put_delta ob).2) (set_pool (o :: obj_pool s1) (set_objs (delete o) s1)))))).
      unfold put_delta.
      destruct (mmo_ops ob) eqn:Eo; [| |done]; rewrite bind_assert by lia;
        rewrite (proj2 (Z.eqb_eq _ _)) by lia; rewrite (bind_eq _ _ _ _ _ Ef), (bind_eq _ _ _ _ _ Ec);
        unfold modify; do 2 f_equal; apply mm_ext; simpl; try done; lia.
    + by do 3 apply mm_ok_gone.
    + simpl. split_and!; [intros x Hx; rewrite lookup_delete_ne by done; auto|auto|
        by rewrite lookup_delete_eq|done|done|by rewrite H6|]. unfold put_gone. simpl. by rewrite Hg.
  - rewrite (put_obj_unref 1 o ob s Ho Hk) by lia. eexists. split; [done|].
    split; [eapply mm_ok_unref; [done|done|lia]|]. simpl.
    split_and!; [intros x Hx; by simplify_map_eq|done|by simplify_map_eq|done|done].
Qed.

(** ** Theorems *)

(** Reading through a chain of shadow objects.  [pframe_lookup] for reading
    on any object whose chain ends in an anonymous object returns the page of
    the first object in the chain that has it, or a zero-filled page brought
    into the bottom object, and fails only when no page frame is free.  It
    always terminates, and no object in the system sees a different page
    afterwards; the page lists and reference counts stay consistent. *)
Theorem shadow_lookup_reads_view `{FileOps} o n l d s :
  mm_ok s -> chain s o l -> views s o n d ->
  exists s' r k, pframe_lookup o n false s = Ret (r, k, s') /\
    (r = 0 /\ (exists x p, k = Some (x, n) /\ pframes s' !! (x, n) = Some p /\ pf_data p = d) \/
     r = -1 /\ page_pool s = O) /\
    mm_ok s' /\ (forall x m e, views s x m e -> views s' x m e).
Proof.
  intros Hok C V. destruct (pframe_lookup_read o n l d s Hok C V) as (s' & r & k & E & [G Hr] & Hm).
  exists s', r, k. split_and!; [done| |by apply (gr_ok _ _ G)|by intros; eapply grow_views].
  destruct Hr as [Hr|[-> _]]; [by left|right; auto].
Qed.

(** Vnode objects are not used by the examples. *)
Definition no_files : FileOps :=
  Build_FileOps (fun _ => stop Undef) (fun _ => stop Undef) (fun _ _ _ => stop Undef)
    (fun _ _ => stop Undef) (fun _ _ => stop Undef).

Definition page_of (b : Z) : list Z := [b].

(** Shadow objects 10 and 20 above the anonymous object 1, which has page 5. *)
Definition demo : mm :=
  MkMm (<[10 := MkObj Shadow 1 0 [] (mmo_bottom_obj 1) (Some 1)]>
       (<[20 := MkObj Shadow 1 0 [] (mmo_bottom_obj 1) (Some 1)]>
       (<[1 := MkObj Anon 3 1 [5] (mmo_vmas []) None]> ∅)))
    (<[(1, 5) := MkPf (page_of 7) false false 1]> ∅) [] [(1, 5)] 0 1 [30; 40] 4 3 1 (MkGone ∅ [] [] []).

Lemma demo_ok : mm_ok demo.
Proof.
  split.
  - intros o ob n. unfold demo. simpl. rewrite !lookup_insert_Some, lookup_empty.
    intros [[<- <-]|[? [[<- <-]|[? [[<- <-]|[? ?]]]]]]; simpl; rewrite ?list_elem_of_singleton.
    + split; [set_solver|]. rewrite lookup_insert_ne by congruence. by intros [? ?].
    + split; [set_solver|]. rewrite lookup_insert_ne by congruence. by intros [? ?].
    + split; [intros ->; rewrite lookup_insert_eq; eauto|]. intros [p Hp].
      rewrite lookup_insert_Some, lookup_empty in Hp. naive_solver.
    + done.
  - intros o ob. unfold demo. simpl. rewrite !lookup_insert_Some, lookup_empty.
    intros [[<- <-]|[? [[<- <-]|[? [[<- <-]|[? ?]]]]]]; simpl;
      split_and!; try lia; auto using NoDup_nil_2, NoDup_singleton; done.
  - intros k p. unfold demo. simpl. rewrite lookup_insert_Some, lookup_empty.
    intros [[<- <-]|[? ?]]; [|done]. simpl. split_and!; [done|lia|eauto|lia|set_solver].
  - unfold demo. simpl. split_and!; [apply NoDup_singleton|done|done].
  - intros k. unfold demo. simpl. set_solver.
  - intros k. unfold demo. simpl. intros ->%list_elem_of_singleton. rewrite lookup_insert_eq. eexists. split; [done|]. simpl. lia.
Qed.

Lemma demo_chain : chain demo 10 [10; 1].
Proof. eapply chain_shadow; [reflexivity|reflexivity|reflexivity|]. by eapply chain_bottom. Qed.

Lemma demo_view : views demo 10 5 (page_of 7).
Proof.
  eapply views_up; [reflexivity|reflexivity|reflexivity|].
  exact (views_res demo 1 5 (MkPf (page_of 7) false false 1) eq_refl).
Qed.

Lemma shadow_lookup_reads_view_witness :
  exists s' k, @pframe_lookup no_files 10 5 false demo = Ret (0, k, s') /\ mm_ok s'.
Proof.
  destruct (@shadow_lookup_reads_view no_files 10 5 [10; 1] (page_of 7) demo demo_ok demo_chain demo_view)
    as (s' & r & k & E & Hr & Hok & _).
  exists s', k. destruct Hr as [(-> & _)|[_ H]]; [exact (conj E Hok)|discriminate H].
Defined.

(** C13: copy on write.  In a store of anonymous and shadow objects, with two page
    frames free, [pframe_lookup] for writing gives the object a page of
    its own holding what it saw before, and a store into that page is seen
    through this object.  No object whose shadow chain does not contain it
    sees the store, at any page, and no object at all sees it at another page:
    a private mapping's writes never show up
    in the object it shadows or in another process's shadow object.  An object that
    shadows the written one, and has no page of its own there, does see it. *)
Theorem shadow_write_isolated `{FileOps} o n l d d' s :
  mm_ok s -> chain s o l -> views s o n d -> (2 <= page_pool s)%nat ->
  exists s' p, pframe_lookup o n true s = Ret (0, Some (o, n), s') /\
    pframes s' !! (o, n) = Some p /\ pf_data p = d /\
    views (store_page (o, n) d' s') o n d' /\
    (forall x lx m e, chain s x lx -> (m <> n \/ (o ∉ lx)) -> views s x m e ->
       views (store_page (o, n) d' s') x m e).
Proof.
  intros Hok C V Hpool. destruct (pframe_lookup_write o n l d s Hok C V Hpool) as (s' & p & E & G & Hp & Hd).
  exists s', p. split_and!; [done|done|done| |].
  - change d' with (pf_data (pf_set_data d' p)) at 2. constructor. unfold store_page. simpl. by simplify_map_eq.
  - intros x lx m e Cx Hor Vx. eapply store_views; [done|by eapply grow_chain|done|by eapply grow_views].
Qed.

Lemma shadow_write_isolated_witness :
  exists s', @pframe_lookup no_files 10 5 true demo = Ret (0, Some (10, 5), s') /\
    views (store_page (10, 5) (page_of 9) s') 10 5 (page_of 9) /\
    views (store_page (10, 5) (page_of 9) s') 20 5 (page_of 7).
Proof.
  destruct (@shadow_write_isolated no_files 10 5 [10; 1] (page_of 7) (page_of 9) demo demo_ok demo_chain demo_view)
    as (s' & p & E & _ & _ & V & Hx); [simpl; lia|].
  exists s'. split; [exact E|]. split; [exact V|].
  apply (Hx 20 [20; 1]).
  - eapply chain_shadow; [reflexivity|reflexivity|reflexivity|]. eapply chain_bottom; reflexivity.
  - right. intros Hin. apply elem_of_cons in Hin as [Hin|Hin]; [discriminate Hin|].
    apply list_elem_of_singleton in Hin. discriminate Hin.
  - eapply views_up; [reflexivity|reflexivity|reflexivity|].
    exact (views_res demo 1 5 (MkPf (page_of 7) false false 1) eq_refl).
Defined.

(** [anon_put] and [shadow_put].  While somebody else refers to the object
    only its counter goes down; with the last reference beyond those of its
    own pages gone, every page is unpinned and uncached, the page frames
    and the object's memory are given back, and nothing else changes; the mappings
    of each page are removed, each frame is unlinked after it was freed, and the last
    decrement is done in the freed object.  The call
    terminates, fails no assertion and keeps the page lists consistent. *)
Theorem mmobj_put_releases `{FileOps} o ob s :
  mm_ok s -> objs s !! o = Some ob -> mmo_ops ob <> Vnode ->
  exists s', mmo_put o s = Ret (tt, s') /\ mm_ok s' /\
    (forall x, x <> o -> objs s' !! x = objs s !! x) /\
    (forall x m, x <> o -> pframes s' !! (x, m) = pframes s !! (x, m)) /\
    if decide (mmo_refcount ob - mmo_nrespages ob = 1) then
      objs s' !! o = None /\ (forall m, pframes s' !! (o, m) = None) /\
      page_pool s' = (page_pool s + length (mmo_respages ob))%nat /\ obj_pool s' = o :: obj_pool s /\
      put_gone o (mmo_respages ob) s s'
    else
      objs s' !! o = Some (with_refcount (mmo_refcount ob - 1) ob) /\ pframes s' = pframes s /\ gone s' = gone s.
Proof. apply mmo_put_spec. Qed.

Lemma mmobj_put_releases_witness :
  exists s', @mmo_put no_files 10 demo = Ret (tt, s') /\ objs s' !! 10 = None /\ obj_pool s' = [10; 30; 40].
Proof.
  destruct (@mmobj_put_releases no_files 10 (MkObj Shadow 1 0 [] (mmo_bottom_obj 1) (Some 1)) demo demo_ok)
    as (s' & E & _ & _ & _ & H); [reflexivity|discriminate|].
  exists s'. split; [exact E|]. simpl in H. destruct H as (H1 & _ & _ & H2 & _). split; [exact H1|exact H2].
Defined.
