(* ===== verification/Vmmap.v ===== *)
(** * Address spaces

    Models vm/vmmap.c and the user part of mm/pagetable.c; the system calls and
    checks on top of them are in Mmap.v.

    A [vmmap_t] is the sequence of its areas; an area carries its address
    [vma_id].  Area descriptors come from [vma_pool]; a descriptor that is
    freed keeps its contents (the slab allocator does not touch them), it only
    becomes available again; [vmmap_remove] reads a field of one it has just freed,
    and unlinks it from a list whose head may be in a freed object.  Both are
    recorded with the other accesses to freed memory of Mmobj.v.  [vma_olink] says whether the area is on the list
    of its bottom object, [vmm_proc] whether the map knows its process.  A page
    directory is the finite map from virtual page numbers to page-table entries
    with the flags of its page tables; an entry whose table is not there does not
    occur; whether memory can be had for the next page
    tables is the list [pd_mem].  Memory objects are those of
    Mmobj.v. *)

From S2P Require Import Prelude Mmobj.

Record vmarea : Type := MkVma {
  vma_id : Z;
  vma_start : Z;
  vma_end : Z;
  vma_off : Z;
  vma_prot : Z;
  vma_flags : Z;
  vma_obj : option Z;
  vma_olink : bool
}.

Record pagedir : Type := MkPd {
  pd_ptes : gmap Z Z;
  pd_tables : gmap Z Z;
  pd_mem : list bool
}.

Record vms : Type := MkVms {
  vmm_list : list vmarea;
  vma_pool : list Z;
  pd : pagedir;
  vmm : mm;
  vmm_proc : bool
}.

Abbreviation ptes s := (pd_ptes (pd s)).

Definition set_list (l : list vmarea) (s : vms) : vms := MkVms l (vma_pool s) (pd s) (vmm s) (vmm_proc s).
Definition set_vpool (p : list Z) (s : vms) : vms := MkVms (vmm_list s) p (pd s) (vmm s) (vmm_proc s).
Definition set_pd (d : pagedir) (s : vms) : vms := MkVms (vmm_list s) (vma_pool s) d (vmm s) (vmm_proc s).
Definition set_vmm (m : mm) (s : vms) : vms := MkVms (vmm_list s) (vma_pool s) (pd s) m (vmm_proc s).
Definition with_ptes (m : gmap Z Z) (d : pagedir) : pagedir := MkPd m (pd_tables d) (pd_mem d).
Definition set_ptes (m : gmap Z Z) (s : vms) : vms := set_pd (with_ptes m (pd s)) s.
Definition mm_call {A} (m : M mm A) : M vms A := zoom vmm set_vmm m.

Definition with_end (e : Z) (a : vmarea) : vmarea :=
  MkVma (vma_id a) (vma_start a) e (vma_off a) (vma_prot a) (vma_flags a) (vma_obj a) (vma_olink a).
Definition with_start (st off : Z) (a : vmarea) : vmarea :=
  MkVma (vma_id a) st (vma_end a) off (vma_prot a) (vma_flags a) (vma_obj a) (vma_olink a).
Definition with_obj (o : option Z) (a : vmarea) : vmarea :=
  MkVma (vma_id a) (vma_start a) (vma_end a) (vma_off a) (vma_prot a) (vma_flags a) o (vma_olink a).
Definition with_olink (b : bool) (a : vmarea) : vmarea :=
  MkVma (vma_id a) (vma_start a) (vma_end a) (vma_off a) (vma_prot a) (vma_flags a) (vma_obj a) b.

Definition PROT_NONE : Z := 0.
Definition PROT_READ : Z := 1.
Definition PROT_WRITE : Z := 2.
Definition PROT_EXEC : Z := 4.
Definition MAP_SHARED : Z := 1.
Definition MAP_PRIVATE : Z := 2.
Definition MAP_FIXED : Z := 4.
Definition MAP_ANON : Z := 8.
Definition VMMAP_DIR_LOHI : Z := 1.
Definition VMMAP_DIR_HILO : Z := 2.

(** A flag test [x & m] in a condition. *)
Definition has (x m : Z) : bool := negb (Z.land x m =? 0).

(** The user part of an address space in pages. *)
Definition LOW_PN : Z := ADDR_TO_PN USER_MEM_LOW.
Definition HIGH_PN : Z := ADDR_TO_PN USER_MEM_HIGH.

(** ** Page tables *)

Definition PT_ENTRY_COUNT : Z := 1024.
Definition vaddr_to_pdindex (vaddr : Z) : Z := ADDR_TO_PN vaddr / PT_ENTRY_COUNT.
Definition vaddr_to_ptindex (vaddr : Z) : Z := ADDR_TO_PN vaddr mod PT_ENTRY_COUNT.

(** The entries of the page table that covers a page number. *)
Definition same_pt (vaddr pn : Z) : bool := pn / PT_ENTRY_COUNT =? vaddr_to_pdindex vaddr.

Definition pt_unmap (vaddr : Z) : M vms unit :=
  KASSERT (PAGE_ALIGNED vaddr) ;;;
  KASSERT ((USER_MEM_LOW <=? vaddr) && (vaddr <? USER_MEM_HIGH)) ;;;
  modify (fun s => set_ptes (delete (ADDR_TO_PN vaddr) (ptes s)) s).

(** The entries [pt_unmap_range] clears: from [vlow] to the end of its page
    table, from the start of [vhigh]'s page table to [vhigh], and every page
    table in between. *)
Definition unmap_hits (vlow vhigh pn : Z) : bool :=
  let il := vaddr_to_ptindex vlow in
  let ih := vaddr_to_ptindex vhigh in
  let vlow' := u32 (vlow + PAGE_SIZE * ((PT_ENTRY_COUNT - il) mod PT_ENTRY_COUNT)) in
  let vhigh' := u32 (vhigh - PAGE_SIZE * ih) in
  (same_pt vlow pn && negb (il =? 0) && (il <=? pn mod PT_ENTRY_COUNT))
  || (same_pt vhigh pn && negb (ih =? 0) && (pn mod PT_ENTRY_COUNT <? ih))
  || ((vaddr_to_pdindex vlow' <=? pn / PT_ENTRY_COUNT) && (pn / PT_ENTRY_COUNT <? vaddr_to_pdindex vhigh')).

(** The page tables that lie between the ends, which are freed. *)
Definition tables_hit (vlow vhigh i : Z) : bool :=
  let vlow' := u32 (vlow + PAGE_SIZE * ((PT_ENTRY_COUNT - vaddr_to_ptindex vlow) mod PT_ENTRY_COUNT)) in
  let vhigh' := u32 (vhigh - PAGE_SIZE * vaddr_to_ptindex vhigh) in
  (vaddr_to_pdindex vlow' <=? i) && (i <? vaddr_to_pdindex vhigh').

Definition pd_clear (vlow vhigh : Z) (d : pagedir) : pagedir :=
  MkPd (filter (fun e => unmap_hits vlow vhigh (fst e) = false) (pd_ptes d))
    (filter (fun e => tables_hit vlow vhigh (fst e) = false) (pd_tables d)) (pd_mem d).

Definition pt_unmap_range (vlow vhigh : Z) : M vms unit :=
  KASSERT (vlow <? vhigh) ;;;
  KASSERT (PAGE_ALIGNED vlow && PAGE_ALIGNED vhigh) ;;;
  KASSERT ((USER_MEM_LOW <=? vlow) && (vhigh <=? USER_MEM_HIGH)) ;;;
  modify (fun s => set_pd (pd_clear vlow vhigh (pd s)) s).

(** ** Areas *)

Definition vmarea_alloc : M vms (option Z) :=
  let! p := gets vma_pool in
  match p with
  | [] => ret None
  | i :: p' => modify (set_vpool p') ;;; ret (Some i)
  end.

Definition vmarea_free (i : Z) : M vms unit := modify (fun s => set_vpool (i :: vma_pool s) s).

(** [vmmap_insert]: before the first area that starts at or after the new
    one's end. *)
Fixpoint insert_area (new : vmarea) (l : list vmarea) : list vmarea :=
  match l with
  | [] => [new]
  | t :: l' => if vma_end new <=? vma_start t then new :: t :: l' else t :: insert_area new l'
  end.

Definition vmmap_insert (new : vmarea) : M vms unit :=
  modify (fun s => set_list (insert_area new (vmm_list s)) s).

(** The areas from low to high, with the end of the previous one. *)
Fixpoint find_lohi (npages prev_end : Z) (l : list vmarea) : option Z :=
  match l with
  | [] => if npages <=? u32 (HIGH_PN - prev_end) then Some prev_end else None
  | a :: l' => if npages <=? u32 (vma_start a - prev_end) then Some prev_end
               else find_lohi npages (vma_end a) l'
  end.

(** The areas from high to low ([list_iterate_reverse]). *)
Fixpoint find_hilo (npages prev_end : Z) (l : list vmarea) : option Z :=
  match l with
  | [] => if npages <=? u32 (prev_end - LOW_PN) then Some (u32 (prev_end - npages)) else None
  | a :: l' => if npages <=? u32 (prev_end - vma_end a) then Some (u32 (prev_end - npages))
               else find_hilo npages (vma_start a) l'
  end.

Definition vmmap_find_range (l : list vmarea) (npages dir : Z) : Z :=
  let r := if dir =? VMMAP_DIR_LOHI then find_lohi npages LOW_PN l
           else if dir =? VMMAP_DIR_HILO then find_hilo npages HIGH_PN (reverse l)
           else None in
  match r with
  | Some v => s32 v
  | None => - EINVAL
  end.

Definition covers (vfn : Z) (a : vmarea) : bool := (vma_start a <=? vfn) && (vfn <? vma_end a).

Fixpoint vmmap_lookup (l : list vmarea) (vfn : Z) : option vmarea :=
  match l with
  | [] => None
  | a :: l' => if covers vfn a then Some a else vmmap_lookup l' vfn
  end.

Fixpoint range_empty_loop (startvfn endvfn : Z) (l : list vmarea) : bool :=
  match l with
  | [] => true
  | a :: l' => if (startvfn <? vma_end a) && (vma_start a <? endvfn) then false
               else range_empty_loop startvfn endvfn l'
  end.

Definition vmmap_is_range_empty (startvfn npages : Z) : M vms bool :=
  let endvfn := u32 (startvfn + npages) in
  KASSERT ((startvfn <? endvfn) && (LOW_PN <=? startvfn) && (endvfn <=? HIGH_PN)) ;;;
  gets (fun s => range_empty_loop startvfn endvfn (vmm_list s)).

(** ** Cloning *)

Fixpoint clone_loop (l : list vmarea) (acc : list vmarea) : M vms (option (list vmarea)) :=
  match l with
  | [] => ret (Some acc)
  | a :: l' =>
      let! i := vmarea_alloc in
      match i with
      | None => ret None
      | Some i =>
          clone_loop l' (insert_area (MkVma i (vma_start a) (vma_end a) (vma_off a) (vma_prot a)
                                        (vma_flags a) None false) acc)
      end
  end.

(** The areas of the new address space, [None] when memory runs out. *)
Definition vmmap_clone : M vms (option (list vmarea)) :=
  let! l := gets vmm_list in clone_loop l [].

(** ** Unmapping *)

(** Fields of the area with address [i], and its successor on the list. *)
Fixpoint find_area (i : Z) (l : list vmarea) : option vmarea :=
  match l with
  | [] => None
  | a :: l' => if decide (vma_id a = i) then Some a else find_area i l'
  end.
Definition area_get (i : Z) : M vms vmarea := let! l := gets vmm_list in deref (find_area i l).
Definition area_set (i : Z) (f : vmarea -> vmarea) : M vms unit :=
  modify (fun s => set_list (map (fun a => if decide (vma_id a = i) then f a else a) (vmm_list s)) s).
Fixpoint next_area (i : Z) (l : list vmarea) : option Z :=
  match l with
  | a :: ((b :: _) as l') => if decide (vma_id a = i) then Some (vma_id b) else next_area i l'
  | _ => None
  end.

(** ** Page frames that are freed *)

(** [pframe_remove_from_pts] for page [n] of an object, on the areas [ids] it walks:
    those of this address space; the map must know its process. *)
Fixpoint remove_from_pts (ids : list Z) (n : Z) : M vms unit :=
  match ids with
  | [] => ret tt
  | i :: ids' =>
      let! l := gets vmm_list in
      let! pr := gets vmm_proc in
      match find_area i l with
      | Some a =>
          if (vma_off a <=? n) && (n <? u32 (vma_off a + u32 (vma_end a - vma_start a))) && pr
          then pt_unmap (PN_TO_ADDR (u32 (vma_start a + n - vma_off a))) else ret tt
      | None => ret tt
      end ;;;
      remove_from_pts ids' n
  end.

Fixpoint sync_pts (log : list (option (list Z) * Z)) : M vms unit :=
  match log with
  | [] => ret tt
  | (x, n) :: log' =>
      let! ids := (match x with Some ids => ret ids | None => stop Undef end) in
      remove_from_pts ids n ;;; sync_pts log'
  end.

(** A call that may free page frames, with the removal of their mappings. *)
Definition put_call {A} (m : M mm A) : M vms A :=
  mm_call (modify (set_gone (fun g => MkGone (g_objs g) (g_uaf g) [] (g_flushed g)))) ;;;
  let! r := mm_call m in
  let! log := gets (fun s => g_unmap (gone (vmm s))) in
  sync_pts (rev log) ;;;
  ret r.

Section vm.
Context `{FileOps}.

(** [do { ref(o); o = o->mmo_shadowed; } while (o != NULL)]. *)
Fixpoint ref_chain (fuel : nat) (o : Z) : M mm unit :=
  match fuel with
  | O => stop Diverge
  | S fuel' =>
      mmo_ref o ;;;
      let! ob := obj_get o in
      match mmo_shadowed ob with
      | None => ret tt
      | Some o' => ref_chain fuel' o'
      end
  end.

(** [do { t = o; o = o->mmo_shadowed; put(t); } while (o != NULL)]. *)
Fixpoint put_chain (fuel : nat) (o : Z) : M mm unit :=
  match fuel with
  | O => stop Diverge
  | S fuel' =>
      let! ob := obj_get o in
      mmo_put o ;;;
      match mmo_shadowed ob with
      | None => ret tt
      | Some o' => put_chain fuel' o'
      end
  end.

Definition vma_ref (o : option Z) : M mm unit :=
  match o with None => ret tt | Some o => let! f := chain_fuel in ref_chain f o end.
Definition vma_put (o : option Z) : M mm unit :=
  match o with None => ret tt | Some o => let! f := chain_fuel in put_chain f o end.

(** [list_insert_tail(&o->mmo_un.mmo_vmas, ...)]: undefined when the union
    holds a bottom object instead. *)
Definition vmas_insert_tail (o i : Z) : M mm unit :=
  let! ob := obj_get o in
  match mmo_un ob with
  | mmo_vmas l => obj_set o (with_un (mmo_vmas (l ++ [i])))
  | mmo_bottom_obj _ => stop Undef
  end.

Definition un_bottom_obj (o : Z) : M mm Z :=
  let! ob := obj_get o in
  match mmo_un ob with
  | mmo_vmas _ => stop Undef
  | mmo_bottom_obj b => ret b
  end.

(** [mmobj_bottom_obj]. *)
Definition mmobj_bottom_obj (o : Z) : M mm Z :=
  let! ob := obj_get o in
  match mmo_shadowed ob with
  | None => ret o
  | Some _ => un_bottom_obj o
  end.

(** [list_remove(&vma->vma_olink)]; the list may belong to an object that has
    just been freed. *)
Definition drop_vma (i : Z) (ob : mmobj) : mmobj :=
  match mmo_un ob with
  | mmo_vmas l => with_un (mmo_vmas (filter (fun j => j <> i) l)) ob
  | mmo_bottom_obj _ => ob
  end.
Definition holds_vma (i : Z) (ob : mmobj) : bool :=
  match mmo_un ob with mmo_vmas l => bool_decide (i ∈ l) | mmo_bottom_obj _ => false end.

Definition olink_remove (a : vmarea) : M vms unit :=
  (if vma_olink a then ret tt else stop Undef) ;;;
  mm_call (modify (set_objs (fmap (drop_vma (vma_id a))))) ;;;
  mm_call (modify (set_gone (fun g =>
    MkGone (drop_vma (vma_id a) <$> g_objs g)
      (map (fun o => FreedObjList o (vma_id a)) (map fst (filter (fun x => holds_vma (vma_id a) x.2 = true) (map_to_list (g_objs g)))) ++ g_uaf g)
      (g_unmap g) (g_flushed g)))).

(** [vma->vma_end] of an area that has been freed: its bytes are still there. *)
Definition freed_vma_end (a : vmarea) : M vms Z :=
  mm_call (modify (set_gone (log_uaf (FreedVmaRead (vma_id a))))) ;;; ret (vma_end a).

(** The body of the loop of [vmmap_remove] for the area at [i]; [Some e] is an
    early return with value [e]. *)
Definition remove_body (lopage npages : Z) (i : Z) : M vms (option Z) :=
  let hipage := u32 (lopage + npages) in
  let! a := area_get i in
  let start_vfn := vma_start a in
  let end_vfn := vma_end a in
  if (start_vfn <? lopage) && (hipage <? end_vfn) then
    let! n := vmarea_alloc in
    match n with
    | None => ret (Some (- ENOMEM))
    | Some j =>
        mm_call (vma_ref (vma_obj a)) ;;;
        area_set i (with_end lopage) ;;;
        let nstart := u32 (lopage + npages) in
        vmmap_insert (MkVma j nstart end_vfn (u32 (vma_off a + u32 (nstart - start_vfn)))
                        (vma_prot a) (vma_flags a) (vma_obj a) true) ;;;
        let! o := deref (vma_obj a) in
        let! b := mm_call (un_bottom_obj o) in
        mm_call (vmas_insert_tail b j) ;;;
        pt_unmap_range (PN_TO_ADDR lopage) (PN_TO_ADDR hipage) ;;;
        ret None
    end
  else if (start_vfn <? lopage) && (lopage <? end_vfn) then
    pt_unmap_range (PN_TO_ADDR lopage) (PN_TO_ADDR end_vfn) ;;;
    area_set i (with_end lopage) ;;;
    ret None
  else if (hipage <? end_vfn) && (start_vfn <? hipage) && (lopage <=? start_vfn) then
    pt_unmap_range (PN_TO_ADDR start_vfn) (PN_TO_ADDR hipage) ;;;
    area_set i (with_start hipage (u32 (vma_off a + u32 (hipage - start_vfn)))) ;;;
    ret None
  else if (end_vfn <=? hipage) && (lopage <=? start_vfn) then
    put_call (vma_put (vma_obj a)) ;;;
    modify (fun s => set_list (filter (fun x => vma_id x <> i) (vmm_list s)) s) ;;;
    olink_remove a ;;;
    vmarea_free i ;;;
    let! e := freed_vma_end a in
    pt_unmap_range (PN_TO_ADDR start_vfn) (PN_TO_ADDR e) ;;;
    ret None
  else ret None.

(** [list_iterate_begin]: the successor is read before the body runs. *)
Fixpoint remove_loop (fuel : nat) (lopage npages : Z) (cur : option Z) : M vms Z :=
  match cur with
  | None => ret 0
  | Some i =>
      match fuel with
      | O => stop Diverge
      | S fuel' =>
          let! nxt := gets (fun s => next_area i (vmm_list s)) in
          let! r := remove_body lopage npages i in
          match r with
          | Some e => ret e
          | None => remove_loop fuel' lopage npages nxt
          end
      end
  end.

Definition vmmap_remove (lopage npages : Z) : M vms Z :=
  let! empty := vmmap_is_range_empty lopage npages in
  if empty then ret 0
  else
    let! l := gets vmm_list in
    remove_loop (length l) lopage npages (head (map vma_id l)).

(** The [vmmap_t] itself is freed afterwards. *)
Definition vmmap_destroy : M vms unit :=
  vmmap_remove LOW_PN (ADDR_TO_PN (USER_MEM_HIGH - USER_MEM_LOW)) ;;; ret tt.
End vm.

(** ** References held by the areas *)

(** Number of the chains in [Ls] that contain object [x]. *)
Definition occ (x : Z) (Ls : list (list Z)) : nat := length (filter (fun l => x ∈ l) Ls).
Definition cnt (x : Z) (C : list Z) : nat := length (filter (fun y => y = x) C).

(** The store is consistent, [Ls] are chains of live objects, and every object
    has a reference for each chain through it and for each of [C], besides those
    of its resident pages. *)
Record own (Ls : list (list Z)) (C : list Z) (m : mm) : Prop := {
  own_ok : mm_ok m;
  own_chain : forall l, l ∈ Ls -> exists o, chain m o l;
  own_live : forall x, x ∈ C -> exists ob, objs m !! x = Some ob /\ mmo_ops ob <> Vnode;
  own_refs : forall x ob, objs m !! x = Some ob ->
    Z.of_nat (occ x Ls + cnt x C) <= mmo_refcount ob - mmo_nrespages ob
}.

Lemma cnt_cons_eq x C : cnt x (x :: C) = S (cnt x C).
Proof. unfold cnt. by rewrite filter_cons_True. Qed.
Lemma cnt_cons_ne x y C : y <> x -> cnt x (y :: C) = cnt x C.
Proof. intros. unfold cnt. by rewrite filter_cons_False. Qed.
Lemma cnt_app x C D : cnt x (C ++ D) = (cnt x C + cnt x D)%nat.
Proof. unfold cnt. by rewrite filter_app, length_app. Qed.
Lemma cnt_nodup x l : NoDup l -> cnt x l = if decide (x ∈ l) then 1%nat else 0%nat.
Proof.
  induction 1 as [|y l Hy Hnd IH]; [case_decide; [set_solver|done]|].
  destruct (decide (y = x)) as [->|Hne].
  - rewrite cnt_cons_eq, IH, (decide_False _ _ Hy), decide_True by set_solver. done.
  - rewrite cnt_cons_ne, IH by done. by rewrite (decide_ext (x ∈ l) (x ∈ y :: l)) by set_solver.
Qed.
Lemma occ_cons x l Ls : occ x (l :: Ls) = ((if decide (x ∈ l) then 1 else 0) + occ x Ls)%nat.
Proof. unfold occ. rewrite filter_cons. by case_decide. Qed.
Lemma occ_app x Ls Ls' : occ x (Ls ++ Ls') = (occ x Ls + occ x Ls')%nat.
Proof. unfold occ. by rewrite filter_app, length_app. Qed.
Lemma occ_elem x l Ls : l ∈ Ls -> x ∈ l -> (1 <= occ x Ls)%nat.
Proof.
  intros (L1 & L2 & ->)%list_elem_of_split Hx. rewrite occ_app, occ_cons, decide_True by done. lia.
Qed.

(** Chains only depend on the kind and the shadowed object of their members. *)
Lemma chain_same m m' o l :
  chain m o l ->
  (forall x ob, x ∈ l -> objs m !! x = Some ob ->
     exists ob', objs m' !! x = Some ob' /\ mmo_ops ob' = mmo_ops ob /\ mmo_shadowed ob' = mmo_shadowed ob) ->
  chain m' o l.
Proof.
  induction 1 as [x ob Hx Hs Hk|x ob x' l Hx Hk Hs C IH]; intros Hsame;
    (destruct (Hsame x ob) as (ob' & Hx' & Ek & Es); [set_solver|done|]).
  - eapply chain_bottom; [done|congruence|congruence].
  - eapply chain_shadow; [done|by rewrite Ek|by rewrite Es|]. apply IH. set_solver.
Qed.

(** The union of every object on a chain: the bottom object of a shadow object, a list
    of areas in the bottom object itself. *)
Definition un_shape (u : mmo_union) : option Z := match u with mmo_vmas _ => None | mmo_bottom_obj b => Some b end.
Definition un_chain (m : mm) (l : list Z) : Prop :=
  forall x ob, x ∈ l -> objs m !! x = Some ob ->
    un_shape (mmo_un ob) = match mmo_shadowed ob with None => None | Some _ => last l end.
Definition keep_un (m m' : mm) : Prop :=
  forall x ob', objs m' !! x = Some ob' -> exists ob, objs m !! x = Some ob /\
    mmo_ops ob' = mmo_ops ob /\ mmo_shadowed ob' = mmo_shadowed ob /\ un_shape (mmo_un ob') = un_shape (mmo_un ob).

Lemma un_chain_keep m m' l : keep_un m m' -> un_chain m l -> un_chain m' l.
Proof. intros Hk Hu x ob' Hx Ho. destruct (Hk _ _ Ho) as (ob & Ho' & _ & -> & ->). by apply (Hu x). Qed.

Lemma keep_un_refl m : keep_un m m.
Proof. intros x ob Hx. eauto. Qed.

Lemma keep_un_trans m1 m2 m3 : keep_un m1 m2 -> keep_un m2 m3 -> keep_un m1 m3.
Proof.
  intros H12 H23 x ob3 Hx. destruct (H23 _ _ Hx) as (ob2 & Hx2 & -> & -> & ->). by apply H12.
Qed.

Lemma chain_last m o l : chain m o l -> exists b ob, last l = Some b /\ objs m !! b = Some ob /\ mmo_shadowed ob = None /\ b ∈ l.
Proof.
  induction 1 as [x ob Hx Hs Hk|x ob x' l Hx Hk Hs C (b & obb & El & Hb & Hn & Hin)]; [exists x, ob; set_solver|].
  exists b, obb. split_and!; [|done|done|set_solver]. destruct l; [done|exact El].
Qed.

(** What [pframe_remove_from_pts] reads is there. *)
Lemma un_chain_bottom m o l x : chain m o l -> un_chain m l -> x ∈ l -> is_Some (bottom_vmas x m).
Proof.
  intros Ch Hu Hx. destruct (chain_live _ _ _ _ Ch Hx) as [ob Ho]. destruct (chain_last _ _ _ Ch) as (b & obb & El & Hb & Hn & Hin).
  unfold bottom_vmas. rewrite Ho. pose proof (Hu _ _ Hx Ho) as Ex. destruct (mmo_shadowed ob).
  - rewrite El in Ex. destruct (mmo_un ob); [done|]. injection Ex as ->. rewrite Hb. simpl.
    specialize (Hu _ _ Hin Hb). rewrite Hn in Hu. unfold un_vmas. destruct (mmo_un obb); [eauto|done].
  - unfold un_vmas. destruct (mmo_un ob); [eauto|done].
Qed.

Lemma chain_kind m o l x : chain m o l -> x ∈ l -> exists ob, objs m !! x = Some ob /\ mmo_ops ob <> Vnode.
Proof.
  intros C Hx. destruct (chain_sub _ _ _ _ C Hx) as (l' & C' & _).
  inversion C'; subst; (eexists; split; [eassumption|congruence]).
Qed.

(** A chain owned once more is its members owned once more. *)
Lemma own_split Ls C m o l : chain m o l -> own (l :: Ls) C m <-> own Ls (l ++ C) m.
Proof.
  intros Ch. pose proof (chain_nodup _ _ _ Ch) as Hnd.
  assert (Hc : forall x, (occ x (l :: Ls) + cnt x C = occ x Ls + cnt x (l ++ C))%nat).
  { intros x. rewrite occ_cons, cnt_app, (cnt_nodup _ _ Hnd). case_decide; lia. }
  split; intros [H1 H2 H3 H4]; split; try done.
  - intros l' Hl'. apply H2. set_solver.
  - intros x [Hx|Hx]%elem_of_app; [by eapply chain_kind|by apply H3].
  - intros x ob Hx. rewrite <- Hc. by apply H4.
  - intros l' [->|Hl']%elem_of_cons; eauto.
  - intros x Hx. apply H3. set_solver.
  - intros x ob Hx. rewrite Hc. by apply H4.
Qed.

Section refs.
Context `{FileOps}.

(** Everything recorded for the page tables can be carried out. *)
Definition unmaps_ok (m : mm) : Prop := Forall (fun e : option (list Z) * Z => is_Some e.1) (g_unmap (gone m)).

(** Dropping one reference. *)
Lemma own_put Ls C x m :
  own Ls (x :: C) m ->
  exists m', mmo_put x m = Ret (tt, m') /\ own Ls C m' /\
    (forall y, y <> x -> objs m' !! y = objs m !! y) /\ keep_un m m' /\
    (is_Some (bottom_vmas x m) -> unmaps_ok m -> unmaps_ok m').
Proof.
  intros [Hok Hch Hlv Hrf]. destruct (Hlv x) as (ob & Hx & Hk); [set_solver|].
  destruct (mmo_put_spec x ob m Hok Hx Hk) as (m' & E & Hok' & Ho & _ & Hcase).
  pose proof (Hrf _ _ Hx) as Hr. rewrite cnt_cons_eq in Hr.
  exists m'. split; [done|]. split; [|split; [done|split]].
  2: { intros y oby Hy. destruct (decide (y = x)) as [->|Hne]; [|rewrite Ho in Hy by done; eauto].
    case_decide; [destruct Hcase as (Hg & _); congruence|]. destruct Hcase as (Hs & _). rewrite Hs in Hy. simplify_eq. by exists ob. }
  2: { intros [ids Hb] Hlog. unfold unmaps_ok in *. case_decide.
    - destruct Hcase as (_ & _ & _ & _ & _ & -> & _). apply Forall_app. split; [|done]. apply Forall_rev. rewrite Forall_fmap. apply Forall_forall.
      intros n _. simpl. by rewrite Hb.
    - by destruct Hcase as (_ & _ & ->). }
  case_decide as Hc.
  - destruct Hcase as (Hgone & _).
    assert (Hno : forall l, l ∈ Ls -> x ∉ l).
    { intros l Hl Hin. pose proof (occ_elem _ _ _ Hl Hin). lia. }
    assert (HnC : x ∉ C).
    { intros (C1 & C2 & ->)%list_elem_of_split. rewrite cnt_app, cnt_cons_eq in Hr. lia. }
    split; [done| | |].
    + intros l Hl. destruct (Hch l Hl) as [o Co]. exists o. eapply chain_same; [exact Co|].
      intros y oby Hy Hoby. exists oby. rewrite Ho; [done|]. intros ->. by eapply Hno.
    + intros y Hy. rewrite Ho by (by intros ->). apply Hlv. set_solver.
    + intros y oby Hy. destruct (decide (y = x)) as [->|Hne]; [congruence|].
      rewrite Ho in Hy by done. specialize (Hrf _ _ Hy). rewrite cnt_cons_ne in Hrf by done. lia.
  - destruct Hcase as (Hstay & _). split; [done| | |].
    + intros l Hl. destruct (Hch l Hl) as [o Co]. exists o. eapply chain_same; [exact Co|].
      intros y oby Hy Hoby. destruct (decide (y = x)) as [->|Hne]; [|rewrite Ho by done; eauto].
      simplify_eq. eauto.
    + intros y Hy. destruct (decide (y = x)) as [->|Hne]; [eauto|]. rewrite Ho by done. apply Hlv. set_solver.
    + intros y oby Hy. destruct (decide (y = x)) as [->|Hne].
      * simplify_eq. simpl. lia.
      * rewrite Ho in Hy by done. specialize (Hrf _ _ Hy). rewrite cnt_cons_ne in Hrf by done. lia.
Qed.

Lemma put_chain_own Ls C o l m fuel :
  chain m o l -> own Ls (l ++ C) m -> (length l <= fuel)%nat ->
  exists m', put_chain fuel o m = Ret (tt, m') /\ own Ls C m' /\ keep_un m m' /\ (un_chain m l -> unmaps_ok m -> unmaps_ok m').
Proof.
  revert o m fuel.
  induction l as [|x l IH]; intros o m fuel Ch Hown Hf; [by apply chain_hd in Ch as [? ?]|].
  destruct fuel as [|fuel]; [simpl in Hf; lia|].
  pose proof (chain_nodup _ _ _ Ch) as Hnd. apply NoDup_cons in Hnd as [Hx Hnd].
  destruct (own_put _ _ _ _ Hown) as (m' & E & Hown' & Hsame & Hkeep & Hlog).
  assert (Hlog1 : un_chain m (x :: l) -> unmaps_ok m -> unmaps_ok m').
  { intros Hu. apply Hlog. eapply un_chain_bottom; [exact Ch|exact Hu|set_solver]. }
  inversion Ch as [? ob Ho Hs|? ob o' ? Ho Hk Hs C']; subst; simpl;
    rewrite (bind_eq _ _ _ _ _ (obj_get_eq _ _ _ Ho)), (bind_eq _ _ _ _ _ E), Hs; [by exists m'|].
  destruct (IH o' m' fuel) as (m2 & E2 & Hown2 & Hkeep2 & Hlog2); [|done|simpl in Hf; lia|].
  { eapply chain_same; [exact C'|]. intros y oby Hy Hoby. exists oby. rewrite Hsame; [done|]. by intros ->. }
  exists m2. split_and!; [done|done|by eapply keep_un_trans|]. intros Hu Hm. apply Hlog2; [|by apply Hlog1].
  eapply un_chain_keep; [exact Hkeep|]. intros y oby Hy Hoby. rewrite (Hu y oby) by (done || set_solver).
  destruct (mmo_shadowed oby); [|done]. destruct (chain_hd _ _ _ C') as [l' ->]. done.
Qed.

(** Taking one more reference. *)
Lemma own_ref Ls C x ob m :
  own Ls C m -> objs m !! x = Some ob -> mmo_ops ob <> Vnode ->
  exists m', mmo_ref x m = Ret (tt, m') /\ own Ls (x :: C) m' /\
    objs m' = <[x := with_refcount (mmo_refcount ob + 1) ob]> (objs m).
Proof.
  intros [Hok Hch Hlv Hrf] Hx Hk. pose proof (ok_ref _ _ _ Hok Hx) as Hpos. apply Z.ltb_lt in Hpos.
  set (ob' := with_refcount (mmo_refcount ob + 1) ob).
  assert (exists m', mmo_ref x m = Ret (tt, m') /\ objs m' = <[x := ob']> (objs m) /\
    pframes m' = pframes m /\ alloc_list m' = alloc_list m /\ pinned_list m' = pinned_list m /\
    nallocated m' = nallocated m /\ npinned m' = npinned m) as (m' & E & Eo & Ep & Ea & Epi & En & Enp).
  { unfold mmo_ref. rewrite (bind_eq _ _ _ _ _ (obj_get_eq _ _ _ Hx)).
    destruct (mmo_ops ob) eqn:Ek; [| |done]; unfold anon_ref, shadow_ref;
      rewrite (bind_eq _ _ _ _ _ (obj_get_eq _ _ _ Hx)), Ek;
      rewrite bind_assert by (by rewrite Hpos).
    - rewrite (bind_eq _ _ _ _ _ (obj_set_eq _ _ _ _ Hx)). eexists. split; [done|]. done.
    - rewrite (obj_set_eq _ _ _ _ Hx). eexists. split; [done|]. done. }
  exists m'. split_and!; [done| |done].
  assert (Hobj : forall y oby, objs m !! y = Some oby -> exists oby', objs m' !! y = Some oby' /\
    mmo_ops oby' = mmo_ops oby /\ mmo_shadowed oby' = mmo_shadowed oby).
  { intros y oby Hy. rewrite Eo. destruct (decide (y = x)) as [->|Hne]; simplify_map_eq; eauto. }
  destruct Hok as [R1 R2 R3 R4 R5 R6]. split; [split| | |]; rewrite ?Eo, ?Ep, ?Ea, ?Epi, ?En, ?Enp; try done.
  - intros y oby n Hy. destruct (decide (y = x)) as [->|Hne]; simplify_map_eq; [|by apply R1]. by apply R1.
  - intros y oby Hy. destruct (decide (y = x)) as [->|Hne]; simplify_map_eq; [|by eapply R2].
    destruct (R2 _ _ Hx) as (? & ? & ?). simpl. split_and!; [done|done|lia].
  - intros k p Hp. destruct (R3 _ _ Hp) as (? & ? & ? & ? & ?). split_and!; try done.
    apply lookup_insert_is_Some'. auto.
  - intros l Hl. destruct (Hch l Hl) as [o Co]. exists o. eapply chain_same; [exact Co|]. eauto.
  - intros y [->|Hy]%elem_of_cons; [exists ob'; by simplify_map_eq|].
    destruct (Hlv y Hy) as (oby & Hoby & Hky). destruct (decide (y = x)) as [->|Hne]; simplify_map_eq; eauto.
  - intros y oby Hy. destruct (decide (y = x)) as [->|Hne]; simplify_map_eq.
    + specialize (Hrf _ _ Hx). rewrite cnt_cons_eq. simpl. lia.
    + specialize (Hrf _ _ Hy). rewrite cnt_cons_ne by done. lia.
Qed.

Lemma ref_chain_own Ls C o l m fuel :
  chain m o l -> own Ls C m -> (length l <= fuel)%nat ->
  exists m', ref_chain fuel o m = Ret (tt, m') /\ own Ls (reverse l ++ C) m' /\
    (forall y oby, objs m !! y = Some oby -> exists oby', objs m' !! y = Some oby' /\
       mmo_ops oby' = mmo_ops oby /\ mmo_shadowed oby' = mmo_shadowed oby /\ mmo_un oby' = mmo_un oby) /\ keep_un m m'.
Proof.
  revert o m C fuel.
  induction l as [|x l IH]; intros o m C fuel Ch Hown Hf; [by apply chain_hd in Ch as [? ?]|].
  destruct fuel as [|fuel]; [simpl in Hf; lia|].
  inversion Ch as [? ob Ho Hs Hk|? ob o' ? Ho Hk Hs C']; subst; simpl;
    (destruct (own_ref Ls C x ob m) as (m1 & E & Hown1 & Eo); [done|done|congruence|]);
    set (ob1 := with_refcount _ ob) in *;
    assert (Hsame : forall y oby, objs m !! y = Some oby -> exists oby', objs m1 !! y = Some oby' /\
       mmo_ops oby' = mmo_ops oby /\ mmo_shadowed oby' = mmo_shadowed oby /\ mmo_un oby' = mmo_un oby)
      by (intros y oby Hy; rewrite Eo; destruct (decide (y = x)) as [->|Hne]; simplify_map_eq; eauto 10);
    assert (Hkeep : keep_un m m1)
      by (intros y oby; rewrite Eo; destruct (decide (y = x)) as [->|Hne]; intros; simplify_map_eq; eauto 10);
    rewrite (bind_eq _ _ _ _ _ E);
    rewrite (bind_eq _ _ _ _ _ (obj_get_eq x ob1 m1 ltac:(rewrite Eo; by rewrite lookup_insert_eq)));
    simpl; rewrite Hs.
  - exists m1. by split_and!.
  - destruct (IH o' m1 (x :: C) fuel) as (m2 & E2 & Hown2 & Hsame2 & Hkeep2); [|done|simpl in Hf; lia|].
    + eapply chain_same; [exact C'|]. intros y oby _ Hy. destruct (Hsame y oby Hy) as (? & ? & ? & ? & _). eauto.
    + exists m2. split_and!; [done| | |].
      * rewrite reverse_cons, <- app_assoc. done.
      * intros y oby Hy. destruct (Hsame y oby Hy) as (oby1 & Hy1 & <- & <- & <-). by apply Hsame2.
      * by eapply keep_un_trans.
Qed.

Lemma own_perm Ls C C' m : C ≡ₚ C' -> own Ls C m -> own Ls C' m.
Proof.
  intros Hp [H1 H2 H3 H4]. split; try done.
  - intros x Hx. apply H3. by rewrite Hp.
  - intros x ob Hx. specialize (H4 _ _ Hx). unfold cnt in *. by rewrite <- Hp.
Qed.

(** The areas' references: taking and dropping a whole chain. *)
Lemma vma_ref_own Ls o l m :
  chain m o l -> own Ls [] m ->
  exists m', vma_ref (Some o) m = Ret (tt, m') /\ own (l :: Ls) [] m' /\ chain m' o l /\
    (forall y oby, objs m !! y = Some oby -> exists oby', objs m' !! y = Some oby' /\
       mmo_ops oby' = mmo_ops oby /\ mmo_shadowed oby' = mmo_shadowed oby /\ mmo_un oby' = mmo_un oby) /\ keep_un m m'.
Proof.
  intros Ch Hown. pose proof (chain_length _ _ _ Ch) as Hl.
  destruct (ref_chain_own Ls [] o l m (S (size (objs m))) Ch Hown) as (m' & E & Hown' & Hsame & Hkeep); [lia|].
  assert (Ch' : chain m' o l).
  { eapply chain_same; [exact Ch|]. intros y oby _ Hy. destruct (Hsame y oby Hy) as (? & ? & ? & ? & _). eauto. }
  exists m'. split_and!; [exact E| |done|done|done]. apply (own_split _ _ _ o); [done|].
  eapply own_perm; [|exact Hown']. by rewrite reverse_Permutation.
Qed.

Lemma vma_put_own Ls o l m :
  chain m o l -> own (l :: Ls) [] m ->
  exists m', vma_put (Some o) m = Ret (tt, m') /\ own Ls [] m' /\ keep_un m m' /\ (un_chain m l -> unmaps_ok m -> unmaps_ok m').
Proof.
  intros Ch Hown. pose proof (chain_length _ _ _ Ch) as Hl.
  apply (own_split _ _ _ o) in Hown; [|done].
  destruct (put_chain_own Ls [] o l m (S (size (objs m))) Ch Hown) as (m' & E & Hown'); [lia|].
  by exists m'.
Qed.
End refs.

(** ** Well-formed maps and what they mean *)

(** Areas lie in user memory, in order and without overlap. *)
Definition in_user (a : vmarea) : Prop := LOW_PN <= vma_start a /\ vma_start a < vma_end a /\ vma_end a <= HIGH_PN.
Definition before (a b : vmarea) : Prop := vma_end a <= vma_start b.

Fixpoint ordered (l : list vmarea) : Prop :=
  match l with
  | [] => True
  | a :: l' => Forall (before a) l' /\ ordered l'
  end.

Definition areas_ok (l : list vmarea) : Prop := Forall in_user l /\ ordered l.

Lemma LOW_PN_eq : LOW_PN = 1024.
Proof. reflexivity. Qed.
Lemma HIGH_PN_eq : HIGH_PN = 786432.
Proof. reflexivity. Qed.

Ltac pn := unfold in_user, before in *; rewrite ?LOW_PN_eq, ?HIGH_PN_eq in *.

Lemma ordered_app l1 l2 :
  ordered (l1 ++ l2) <-> ordered l1 /\ ordered l2 /\ Forall (fun a => Forall (before a) l2) l1.
Proof.
  induction l1 as [|a l1 IH]; simpl; [naive_solver|].
  rewrite IH, Forall_app, Forall_cons. naive_solver.
Qed.

Lemma areas_ok_app l1 l2 :
  areas_ok (l1 ++ l2) <-> areas_ok l1 /\ areas_ok l2 /\ Forall (fun a => Forall (before a) l2) l1.
Proof. unfold areas_ok. rewrite Forall_app, ordered_app. naive_solver. Qed.

Lemma areas_ok_cons a l :
  areas_ok (a :: l) <-> in_user a /\ Forall (before a) l /\ areas_ok l.
Proof. unfold areas_ok. rewrite Forall_cons. simpl. naive_solver. Qed.

Lemma areas_ok_nil : areas_ok [].
Proof. done. Qed.

(** The abstract address space: what is mapped at a page, and how. *)
Definition translate (l : list vmarea) (vfn : Z) : option (option Z * Z * Z * Z) :=
  match vmmap_lookup l vfn with
  | Some a => Some (vma_obj a, vma_off a + (vfn - vma_start a), vma_prot a, vma_flags a)
  | None => None
  end.

Lemma covers_spec v a : covers v a = true <-> vma_start a <= v < vma_end a.
Proof. unfold covers. rewrite andb_true_iff. lia. Qed.

Lemma lookup_app l1 l2 v :
  vmmap_lookup (l1 ++ l2) v = match vmmap_lookup l1 v with Some a => Some a | None => vmmap_lookup l2 v end.
Proof. induction l1 as [|a l1 IH]; simpl; [done|]. by destruct (covers v a). Qed.

Lemma lookup_none l v : (forall a, a ∈ l -> ~ (vma_start a <= v < vma_end a)) -> vmmap_lookup l v = None.
Proof.
  induction l as [|a l IH]; intros Hn; simpl; [done|].
  destruct (covers v a) eqn:E; [|apply IH; set_solver].
  apply covers_spec in E. exfalso. apply (Hn a); [set_solver|done].
Qed.

Lemma lookup_some_in l v a : vmmap_lookup l v = Some a -> a ∈ l /\ vma_start a <= v < vma_end a.
Proof.
  induction l as [|b l IH]; simpl; [done|]. destruct (covers v b) eqn:E.
  - intros [= ->]. apply covers_spec in E. split; [set_solver|done].
  - intros H. destruct (IH H). split; [set_solver|done].
Qed.

Lemma lookup_in l v a : areas_ok l -> a ∈ l -> vma_start a <= v < vma_end a -> vmmap_lookup l v = Some a.
Proof.
  induction l as [|b l IH]; [set_solver|]. rewrite areas_ok_cons. intros (Hu & Hb & Hok) Hin Hv. simpl.
  destruct (covers v b) eqn:E.
  - apply elem_of_cons in Hin as [->|Hin]; [done|]. exfalso. apply covers_spec in E.
    rewrite Forall_forall in Hb. specialize (Hb a Hin). pn. lia.
  - apply elem_of_cons in Hin as [->|Hin]; [|by apply IH]. exfalso.
    apply Bool.not_true_iff_false in E. by apply E, covers_spec.
Qed.

(** ** Inserting *)

Definition disjoint_from (new a : vmarea) : Prop := vma_end new <= vma_start a \/ vma_end a <= vma_start new.

Lemma insert_area_split new l :
  in_user new -> areas_ok l -> Forall (disjoint_from new) l ->
  exists l1 l2, l = l1 ++ l2 /\ insert_area new l = l1 ++ new :: l2 /\
    Forall (fun a => before a new) l1 /\ Forall (before new) l2.
Proof.
  intros Hu. induction l as [|a l IH]; intros Hok Hd; [by exists [], []|].
  apply areas_ok_cons in Hok as (Hua & Hba & Hok). apply Forall_cons in Hd as [Hda Hd]. simpl.
  destruct (Z.leb_spec (vma_end new) (vma_start a)) as [Hle|Hlt].
  - exists [], (a :: l). split_and!; [done|done|done|]. constructor; [done|].
    eapply Forall_impl; [exact Hba|]. intros b Hb. pn. lia.
  - destruct IH as (l1 & l2 & -> & E & H1 & H2); [done|done|].
    exists (a :: l1), l2. split_and!; [done|by rewrite E| |done].
    constructor; [|done]. unfold disjoint_from, before in *. lia.
Qed.

Lemma areas_ok_insert new l :
  in_user new -> areas_ok l -> Forall (disjoint_from new) l -> areas_ok (insert_area new l).
Proof.
  intros Hu Hok Hd. destruct (insert_area_split new l Hu Hok Hd) as (l1 & l2 & -> & -> & H1 & H2).
  apply areas_ok_app in Hok as (Hok1 & Hok2 & H12). apply areas_ok_app. split_and!; [done| |].
  - by apply areas_ok_cons.
  - rewrite Forall_forall in H1, H12 |- *. intros a Ha. constructor; [by apply H1|by apply H12].
Qed.

Lemma lookup_insert_area new l v :
  in_user new -> areas_ok l -> Forall (disjoint_from new) l ->
  vmmap_lookup (insert_area new l) v = if covers v new then Some new else vmmap_lookup l v.
Proof.
  intros Hu Hok Hd. destruct (insert_area_split new l Hu Hok Hd) as (l1 & l2 & -> & -> & H1 & H2).
  rewrite !lookup_app. simpl. destruct (covers v new) eqn:E; [|done].
  apply covers_spec in E. rewrite lookup_none; [done|]. intros a Ha.
  rewrite Forall_forall in H1. specialize (H1 a Ha). pn. lia.
Qed.

(** ** Empty ranges *)

(** No page of [lo, hi) is mapped. *)
Definition range_free (l : list vmarea) (lo hi : Z) : Prop :=
  forall v, lo <= v < hi -> vmmap_lookup l v = None.

Lemma range_free_areas l lo hi :
  areas_ok l -> lo < hi ->
  range_free l lo hi <-> Forall (fun a => vma_end a <= lo \/ hi <= vma_start a) l.
Proof.
  intros Hok Hlt. rewrite Forall_forall. split.
  - intros Hf a Ha. destruct (decide (vma_end a <= lo)) as [|Hl]; [by left|].
    destruct (decide (hi <= vma_start a)) as [|Hh]; [by right|]. exfalso.
    assert (Hu : in_user a) by (destruct Hok as [Hu _]; rewrite Forall_forall in Hu; auto).
    assert (Hm := Hf (Z.max lo (vma_start a)) ltac:(lia)).
    rewrite (lookup_in l _ a) in Hm; [done|done|done|]. pn. lia.
  - intros Hf v Hv. apply lookup_none. intros a Ha. specialize (Hf a Ha). lia.
Qed.

Lemma range_empty_loop_spec lo hi l :
  range_empty_loop lo hi l = true <-> Forall (fun a => vma_end a <= lo \/ hi <= vma_start a) l.
Proof.
  induction l as [|a l IH]; simpl; [done|]. rewrite Forall_cons, <- IH.
  destruct (Z.ltb_spec lo (vma_end a)), (Z.ltb_spec (vma_start a) hi); simpl; naive_solver lia.
Qed.

Lemma vmmap_is_range_empty_eq lo n s :
  LOW_PN <= lo -> 0 < n -> lo + n <= HIGH_PN ->
  vmmap_is_range_empty lo n s = Ret (range_empty_loop lo (lo + n) (vmm_list s), s).
Proof.
  intros H1 H2 H3. unfold vmmap_is_range_empty.
  rewrite (u32_small (lo + n)) by (unfold is_u32, two32; pn; lia).
  rewrite bind_assert; [done|]. rewrite !andb_true_iff. pn. lia.
Qed.

(** ** First fit *)

Definition avoids (v n : Z) (a : vmarea) : Prop := vma_end a <= v \/ v + n <= vma_start a.

(** [n] pages from [v] are in user memory and unmapped. *)
Definition free_at (l : list vmarea) (v n : Z) : Prop :=
  LOW_PN <= v /\ v + n <= HIGH_PN /\ Forall (avoids v n) l.

Ltac small := rewrite u32_small by (unfold is_u32, two32; pn; lia).

Lemma find_lohi_spec n prev l :
  0 < n -> LOW_PN <= prev <= HIGH_PN -> areas_ok l -> Forall (fun a => prev <= vma_start a) l ->
  match find_lohi n prev l with
  | Some v => prev <= v /\ free_at l v n /\ forall w, prev <= w -> free_at l w n -> v <= w
  | None => forall w, prev <= w -> ~ free_at l w n
  end.
Proof.
  intros Hn. revert prev. induction l as [|a l IH]; intros prev Hp Hok Hge; simpl.
  - small. destruct (Z.leb_spec n (HIGH_PN - prev)).
    + split_and!; [lia| |lia]. split_and!; [lia|lia|done].
    + intros w Hw (H1 & H2 & _). lia.
  - apply areas_ok_cons in Hok as (Hu & Hb & Hok). apply Forall_cons in Hge as [Ha Hge].
    small. destruct (Z.leb_spec n (vma_start a - prev)) as [Hfit|Hno].
    + split_and!; [lia| |lia]. split_and!; [lia|pn; lia|]. constructor; [right; lia|].
      eapply Forall_impl; [exact Hb|]. intros b Hb'. right. pn. lia.
    + assert (Hab : forall w, prev <= w -> free_at (a :: l) w n -> vma_end a <= w).
      { intros w Hw (_ & _ & Hf). apply Forall_cons in Hf as [[?|?] _]; lia. }
      specialize (IH (vma_end a) ltac:(pn; lia) Hok Hb).
      destruct (find_lohi n (vma_end a) l) as [v|].
      * destruct IH as (Hv & (F1 & F2 & F3) & Hmin). split_and!; [pn; lia| |].
        { split_and!; [done|done|]. constructor; [left; lia|done]. }
        intros w Hw Hf. apply Hmin; [by apply Hab|]. destruct Hf as (? & ? & Hf).
        apply Forall_cons in Hf as [_ Hf]. done.
      * intros w Hw Hf. apply (IH w); [by apply Hab|]. destruct Hf as (? & ? & Hf).
        apply Forall_cons in Hf as [_ Hf]. done.
Qed.

Lemma find_hilo_spec n prev l :
  0 < n -> LOW_PN <= prev <= HIGH_PN -> areas_ok (reverse l) -> Forall (fun a => vma_end a <= prev) l ->
  match find_hilo n prev l with
  | Some v => v + n <= prev /\ free_at l v n /\ forall w, w + n <= prev -> free_at l w n -> w <= v
  | None => forall w, w + n <= prev -> ~ free_at l w n
  end.
Proof.
  intros Hn. revert prev. induction l as [|a l IH]; intros prev Hp Hok Hge; simpl.
  - small. destruct (Z.leb_spec n (prev - LOW_PN)).
    + small. split_and!; [lia| |lia]. split_and!; [lia|lia|done].
    + intros w Hw (H1 & H2 & _). lia.
  - rewrite reverse_cons in Hok. apply areas_ok_app in Hok as (Hok & Hua & Hb).
    apply areas_ok_cons in Hua as (Hu & _ & _). apply Forall_cons in Hge as [Ha Hge].
    assert (Hba : Forall (fun b => vma_end b <= vma_start a) l).
    { rewrite Forall_forall in Hb |- *. intros b Hin. specialize (Hb b).
      rewrite elem_of_reverse, Forall_singleton in Hb. pn. auto. }
    small. destruct (Z.leb_spec n (prev - vma_end a)) as [Hfit|Hno].
    + small. split_and!; [lia| |lia]. split_and!; [pn; lia|lia|]. constructor; [left; lia|].
      eapply Forall_impl; [exact Hba|]. intros b Hb'. left. pn. lia.
    + assert (Hab : forall w, w + n <= prev -> free_at (a :: l) w n -> w + n <= vma_start a).
      { intros w Hw (_ & _ & Hf). apply Forall_cons in Hf as [[?|?] _]; lia. }
      specialize (IH (vma_start a) ltac:(pn; lia) Hok Hba).
      destruct (find_hilo n (vma_start a) l) as [v|].
      * destruct IH as (Hv & (F1 & F2 & F3) & Hmax). split_and!; [pn; lia| |].
        { split_and!; [done|done|]. constructor; [right; lia|done]. }
        intros w Hw Hf. apply Hmax; [by apply Hab|]. destruct Hf as (? & ? & Hf).
        apply Forall_cons in Hf as [_ Hf]. done.
      * intros w Hw Hf. apply (IH w); [by apply Hab|]. destruct Hf as (? & ? & Hf).
        apply Forall_cons in Hf as [_ Hf]. done.
Qed.

Lemma vmmap_find_range_spec l n dir :
  areas_ok l -> 0 < n -> dir = VMMAP_DIR_LOHI \/ dir = VMMAP_DIR_HILO ->
  let r := vmmap_find_range l n dir in
  (r = - EINVAL /\ forall w, ~ free_at l w n) \/
  (free_at l r n /\ forall w, free_at l w n -> if dir =? VMMAP_DIR_LOHI then r <= w else w <= r).
Proof.
  intros Hok Hn Hdir. unfold vmmap_find_range.
  assert (Hu : Forall in_user l) by apply Hok.
  destruct Hdir as [-> | ->]; simpl.
  - pose proof (find_lohi_spec n LOW_PN l Hn ltac:(pn; lia) Hok) as H.
    specialize (H ltac:(eapply Forall_impl; [exact Hu|]; intros a Ha; pn; lia)).
    destruct (find_lohi n LOW_PN l) as [v|].
    + destruct H as (H1 & Hf & Hmin). right. pose proof Hf as (F1 & F2 & _).
      rewrite s32_small by (unfold is_s32; pn; lia). split; [done|]. intros w Hw. apply Hmin; [apply Hw|done].
    + left. split; [done|]. intros w Hw. apply (H w); [apply Hw|done].
  - pose proof (find_hilo_spec n HIGH_PN (reverse l) Hn ltac:(pn; lia)) as H.
    rewrite reverse_involutive in H. specialize (H Hok).
    specialize (H ltac:(apply Forall_reverse; eapply Forall_impl; [exact Hu|]; intros a Ha; pn; lia)).
    assert (Hfr : forall w, free_at (reverse l) w n <-> free_at l w n).
    { intros w. unfold free_at. by rewrite Forall_reverse. }
    destruct (find_hilo n HIGH_PN (reverse l)) as [v|].
    + destruct H as (H1 & Hf & Hmax). apply Hfr in Hf. right. pose proof Hf as (F1 & F2 & _).
      rewrite s32_small by (unfold is_s32; pn; lia). split; [done|]. intros w Hw.
      apply Hmax; [apply Hw|by apply Hfr].
    + left. split; [done|]. intros w Hw. apply (H w); [apply Hw|by apply Hfr].
Qed.

(** ** The page table under [pt_unmap_range] *)

Lemma ADDR_TO_PN_TO_ADDR p : 0 <= p < 1048576 -> ADDR_TO_PN (PN_TO_ADDR p) = p.
Proof.
  intros. rewrite PN_TO_ADDR_mul, ADDR_TO_PN_div by done. rewrite u32_small by (unfold is_u32, two32; lia).
  rewrite Z.mul_comm. by apply Z.div_mul.
Qed.

(** In pages: the bounds of the whole page tables [pt_unmap_range] drops. *)
Lemma unmap_hits_pn lo hi v :
  0 <= lo < 1047552 -> 0 <= hi < 1048576 ->
  unmap_hits (PN_TO_ADDR lo) (PN_TO_ADDR hi) v = true <->
  (v / 1024 = lo / 1024 /\ lo mod 1024 <> 0 /\ lo mod 1024 <= v mod 1024) \/
  (v / 1024 = hi / 1024 /\ hi mod 1024 <> 0 /\ v mod 1024 < hi mod 1024) \/
  ((lo + 1023) / 1024 <= v / 1024 < hi / 1024).
Proof.
  intros Hlo Hhi. unfold unmap_hits, same_pt, vaddr_to_pdindex, vaddr_to_ptindex, PT_ENTRY_COUNT, PAGE_SIZE.
  rewrite !ADDR_TO_PN_TO_ADDR by lia. rewrite !PN_TO_ADDR_mul by lia. rewrite !ADDR_TO_PN_div.
  set (d := (1024 - lo mod 1024) mod 1024).
  assert (Hd : lo + d = 1024 * ((lo + 1023) / 1024)) by (unfold d; dlia).
  assert (Hdr : 0 <= d < 1024) by (unfold d; dlia).
  rewrite (u32_small (4096 * lo + 4096 * d)) by (unfold is_u32, two32; lia).
  rewrite (u32_small (4096 * hi - 4096 * (hi mod 1024))) by (unfold is_u32, two32; dlia).
  rewrite !u32_small by (unfold is_u32, two32; dlia).
  replace ((4096 * lo + 4096 * d) / 4096 / 1024) with ((lo + 1023) / 1024) by dlia.
  replace ((4096 * hi - 4096 * (hi mod 1024)) / 4096 / 1024) with (hi / 1024) by dlia.
  rewrite !orb_true_iff, !andb_true_iff, !negb_true_iff. lia.
Qed.

Lemma unmap_hits_range lo hi v :
  LOW_PN <= lo -> hi <= HIGH_PN -> lo <= v < hi -> unmap_hits (PN_TO_ADDR lo) (PN_TO_ADDR hi) v = true.
Proof. intros H1 H2 Hv. pn. apply unmap_hits_pn; [lia|lia|]. dlia. Qed.

(** The entries left by [pt_unmap_range]. *)
Definition unmapped (lo hi : Z) (m : gmap Z Z) : gmap Z Z :=
  filter (fun e => unmap_hits (PN_TO_ADDR lo) (PN_TO_ADDR hi) (fst e) = false) m.

Lemma unmapped_none lo hi m v :
  LOW_PN <= lo -> hi <= HIGH_PN -> lo <= v < hi -> unmapped lo hi m !! v = None.
Proof.
  intros. unfold unmapped. apply map_lookup_filter_None. right. intros x _. simpl.
  by rewrite unmap_hits_range.
Qed.

Lemma unmapped_sub lo hi m v e : unmapped lo hi m !! v = Some e -> m !! v = Some e.
Proof. unfold unmapped. rewrite map_lookup_filter_Some. naive_solver. Qed.

Definition pd_unmapped (lo hi : Z) (d : pagedir) : pagedir := pd_clear (PN_TO_ADDR lo) (PN_TO_ADDR hi) d.

Lemma pd_unmapped_some lo hi d v e :
  LOW_PN <= lo -> hi <= HIGH_PN -> pd_ptes (pd_unmapped lo hi d) !! v = Some e ->
  pd_ptes d !! v = Some e /\ ~ (lo <= v < hi).
Proof.
  intros Hlo Hhi Hv. change (unmapped lo hi (pd_ptes d) !! v = Some e) in Hv.
  split; [by eapply unmapped_sub|]. intros Hr. by rewrite unmapped_none in Hv.
Qed.

Lemma pd_unmapped_sub lo hi d : pd_ptes (pd_unmapped lo hi d) ⊆ pd_ptes d.
Proof. apply map_filter_subseteq. Qed.

Lemma pt_unmap_range_eq lo hi s :
  LOW_PN <= lo -> lo < hi -> hi <= HIGH_PN ->
  pt_unmap_range (PN_TO_ADDR lo) (PN_TO_ADDR hi) s = Ret (tt, set_pd (pd_unmapped lo hi (pd s)) s).
Proof.
  intros H1 H2 H3. pn. unfold pt_unmap_range, PAGE_ALIGNED, PAGE_SIZE, USER_MEM_LOW, USER_MEM_HIGH.
  rewrite !PN_TO_ADDR_mul by lia. rewrite !u32_small by (unfold is_u32, two32; lia).
  rewrite bind_assert by lia. rewrite bind_assert by (rewrite andb_true_iff; split; dlia).
  rewrite bind_assert by (rewrite andb_true_iff; lia).
  unfold modify, pd_unmapped. by rewrite !PN_TO_ADDR_mul by lia.
Qed.

(** ** Unmapping a range *)

(** The offsets of an area's pages do not wrap around. *)
Definition off_ok (a : vmarea) : Prop := 0 <= vma_off a /\ vma_off a + (vma_end a - vma_start a) <= two32.

(** An area has its object's chain and is on the list of its bottom object. *)
Definition area_obj (m : mm) (a : vmarea) (ol : list Z) : Prop :=
  vma_olink a = true /\ exists o, vma_obj a = Some o /\ chain m o ol.

Record vm_inv (Ls : list (list Z)) (s : vms) : Prop := {
  vi_areas : areas_ok (vmm_list s);
  vi_ids : NoDup (map vma_id (vmm_list s) ++ vma_pool s);
  vi_off : Forall off_ok (vmm_list s);
  vi_own : own Ls [] (vmm s);
  vi_objs : Forall2 (area_obj (vmm s)) (vmm_list s) Ls;
  vi_un : forall ol, ol ∈ Ls -> un_chain (vmm s) ol;
  vi_ptes : forall v e, ptes s !! v = Some e -> exists a, vmmap_lookup (vmm_list s) v = Some a
}.

(** What is left of area [a] when [lo, lo + n) is taken out of it. *)
Record pieces (lo n : Z) (a : vmarea) (c : list vmarea) : Prop := {
  pc_in : Forall (fun p => vma_start a <= vma_start p /\ vma_start p < vma_end p /\ vma_end p <= vma_end a) c;
  pc_ord : ordered c;
  pc_view : Forall (fun p => vma_obj p = vma_obj a /\ vma_prot p = vma_prot a /\ vma_flags p = vma_flags a /\
                      vma_off p - vma_start p = vma_off a - vma_start a /\ vma_olink p = vma_olink a) c;
  pc_cov : forall v, ~ (lo <= v < lo + n) -> vma_start a <= v < vma_end a -> exists p, p ∈ c /\ vma_start p <= v < vma_end p;
  pc_avoid : Forall (avoids lo n) c
}.

Lemma pieces_areas lo n a c l1 l2 :
  pieces lo n a c -> areas_ok (l1 ++ a :: l2) -> areas_ok (l1 ++ c ++ l2).
Proof.
  intros [Hin Hord _ _ _] (H1 & H2 & H12)%areas_ok_app.
  apply areas_ok_cons in H2 as (Hu & Ha & H2). rewrite Forall_forall in Hin.
  apply areas_ok_app. split_and!; [done| |].
  - apply areas_ok_app. split_and!; [|done|].
    + split; [|done]. apply Forall_forall. intros p Hp. specialize (Hin p Hp). pn. lia.
    + apply Forall_forall. intros p Hp. specialize (Hin p Hp). eapply Forall_impl; [exact Ha|].
      intros b Hb. pn. lia.
  - eapply Forall_impl; [exact H12|]. intros b (Hb & Hb2)%Forall_cons. apply Forall_app. split; [|done].
    apply Forall_forall. intros p Hp. specialize (Hin p Hp). pn. lia.
Qed.

Lemma pieces_translate lo n a c l1 l2 v :
  pieces lo n a c -> areas_ok (l1 ++ a :: l2) -> ~ (lo <= v < lo + n) ->
  translate (l1 ++ c ++ l2) v = translate (l1 ++ a :: l2) v.
Proof.
  intros Hpc Hok Hv. pose proof (pieces_areas _ _ _ _ _ _ Hpc Hok) as Hok'.
  destruct Hpc as [Hin _ Hvw Hcov _]. rewrite Forall_forall in Hin, Hvw. unfold translate.
  destruct (vmmap_lookup (l1 ++ a :: l2) v) as [b|] eqn:E.
  - apply lookup_some_in in E as [Hb Hbv].
    assert (Hb' : b ∈ l1 ++ l2 \/ b = a) by set_solver.
    destruct Hb' as [Hb'| ->].
    + rewrite (lookup_in _ v b Hok'); [done|set_solver|done].
    + destruct (Hcov v Hv Hbv) as (p & Hp & Hpv).
      rewrite (lookup_in _ v p Hok'); [|set_solver|done].
      destruct (Hvw p Hp) as (-> & -> & -> & Ho & _). do 4 f_equal. lia.
  - rewrite lookup_none; [done|]. intros b Hb Hbv.
    assert (Hb' : b ∈ l1 ++ l2 \/ b ∈ c) by set_solver. destruct Hb' as [Hb'|Hb'].
    + rewrite (lookup_in _ v b Hok) in E; [done|set_solver|done].
    + specialize (Hin b Hb'). rewrite (lookup_in _ v a Hok) in E; [done|set_solver|lia].
Qed.

Lemma pieces_off lo n a c : pieces lo n a c -> off_ok a -> Forall off_ok c.
Proof.
  intros [Hin _ Hvw _ _] Ho. rewrite Forall_forall in Hin, Hvw |- *. intros p Hp.
  specialize (Hin p Hp). destruct (Hvw p Hp) as (_ & _ & _ & He & _). unfold off_ok in *. lia.
Qed.

Lemma chain_top_eq m m' o o' l : chain m o l -> chain m' o' l -> o = o'.
Proof. intros (? & ?)%chain_hd (? & ?)%chain_hd. congruence. Qed.

Lemma area_obj_own m m' a ol Ls : area_obj m a ol -> own Ls [] m' -> ol ∈ Ls -> area_obj m' a ol.
Proof.
  intros (Hl & o & Ho & Ch) Hown Hin. split; [done|]. exists o. split; [done|].
  destruct (own_chain _ _ _ Hown _ Hin) as [o' Ch']. by rewrite (chain_top_eq _ _ _ _ _ Ch Ch').
Qed.

(** Replacing an area by its pieces. *)
Lemma vm_inv_pieces lo n s a c l1 l2 L1 ol L2 s' :
  vm_inv (L1 ++ ol :: L2) s -> vmm_list s = l1 ++ a :: l2 -> length l1 = length L1 ->
  pieces lo n a c ->
  vmm_list s' = l1 ++ c ++ l2 ->
  NoDup (map vma_id (vmm_list s') ++ vma_pool s') ->
  own (L1 ++ replicate (length c) ol ++ L2) [] (vmm s') -> keep_un (vmm s) (vmm s') ->
  (forall v e, ptes s' !! v = Some e -> ptes s !! v = Some e /\ ~ (lo <= v < lo + n /\ vma_start a <= v < vma_end a)) ->
  vm_inv (L1 ++ replicate (length c) ol ++ L2) s'.
Proof.
  intros [Ha Hid Hof Hown Hob Hun Hpt] El Hlen Hpc El' Hid' Hown' Hkeep Hpt'.
  rewrite El in *. rewrite El' in *.
  split; rewrite ?El'; try done.
  - by eapply pieces_areas.
  - apply Forall_app in Hof as [Hof1 Hof2]. apply Forall_cons in Hof2 as [Hofa Hof2].
    apply Forall_app. split; [done|]. apply Forall_app. split; [by eapply pieces_off|done].
  - apply Forall2_app_inv in Hob as [Hob1 Hob2]; [|done]. apply Forall2_cons in Hob2 as [Hoba Hob2].
    assert (Htr : forall l L, Forall2 (area_obj (vmm s)) l L -> (forall x, x ∈ L -> x ∈ L1 ++ replicate (length c) ol ++ L2) ->
      Forall2 (area_obj (vmm s')) l L).
    { induction 1 as [|x y l L Hxy Hl IH]; intros Hsub; constructor.
      - eapply area_obj_own; [done|exact Hown'|]. apply Hsub. set_solver.
      - apply IH. intros z Hz. apply Hsub. set_solver. }
    apply Forall2_app; [apply Htr; [done|set_solver]|].
    apply Forall2_app; [|apply Htr; [done|set_solver]].
    apply Forall2_same_length_lookup_2; [by rewrite length_replicate|].
    intros i p y Hp Hy. apply lookup_replicate in Hy as [-> Hi].
    assert (Hpin : p ∈ c) by (by eapply list_elem_of_lookup_2).
    assert (Hoin : ol ∈ L1 ++ replicate (length c) ol ++ L2).
    { apply elem_of_app. right. apply elem_of_app. left. apply elem_of_replicate. split; [done|lia]. }
    pose proof (pc_view _ _ _ _ Hpc) as Hvw. rewrite Forall_forall in Hvw. destruct (Hvw p Hpin) as (Eo & _ & _ & _ & Elk).
    destruct (area_obj_own _ _ _ _ _ Hoba Hown' Hoin) as (Hl & o & Ho & Ch).
    split; [congruence|]. exists o. split; [congruence|done].
  - intros x Hx. eapply un_chain_keep; [exact Hkeep|]. apply Hun.
    rewrite !elem_of_app, elem_of_replicate in Hx. rewrite elem_of_app, elem_of_cons. naive_solver.
  - intros v e Hv. destruct (Hpt' _ _ Hv) as [Hv1 Hv2]. destruct (Hpt _ _ Hv1) as [b Hb].
    apply lookup_some_in in Hb as [Hb Hbv].
    assert (Hok' : areas_ok (l1 ++ c ++ l2)) by (by eapply pieces_areas).
    assert (Hb' : b ∈ l1 ++ l2 \/ b = a) by set_solver. destruct Hb' as [Hb'| ->].
    + exists b. apply lookup_in; [done|set_solver|done].
    + destruct (pc_cov _ _ _ _ Hpc v) as (p & Hp & Hpv); [naive_solver|done|].
      exists p. apply lookup_in; [done|set_solver|done].
Qed.

Section remove.
Context `{FileOps}.

Lemma find_area_in i l a : find_area i l = Some a -> a ∈ l.
Proof.
  induction l as [|b l IH]; simpl; [done|]. case_decide; intros E; [injection E as ->; set_solver|].
  apply elem_of_cons. right. by apply IH.
Qed.

(** The area at the cursor of the iteration. *)
Lemma ids_split l1 a l2 :
  NoDup (map vma_id (l1 ++ a :: l2)) ->
  (forall b, b ∈ l1 -> vma_id b <> vma_id a) /\ (forall b, b ∈ l2 -> vma_id b <> vma_id a).
Proof.
  rewrite map_app. simpl. intros (_ & Hd & Hnd)%NoDup_app. apply NoDup_cons in Hnd as [Hn _]. split; intros b Hb E.
  - apply (Hd (vma_id b)); [by apply list_elem_of_fmap_2|rewrite E; set_solver].
  - apply Hn. rewrite <- E. by apply list_elem_of_fmap_2.
Qed.

Lemma find_area_split l1 a l2 :
  (forall b, b ∈ l1 -> vma_id b <> vma_id a) -> find_area (vma_id a) (l1 ++ a :: l2) = Some a.
Proof.
  induction l1 as [|b l1 IH]; intros Hb; simpl; [by rewrite decide_True|].
  rewrite decide_False by (apply Hb; set_solver). apply IH. set_solver.
Qed.

Lemma map_id_other i f (l : list vmarea) :
  (forall b, b ∈ l -> vma_id b <> i) -> map (fun b => if decide (vma_id b = i) then f b else b) l = l.
Proof.
  induction l as [|b l IH]; intros Hb; simpl; [done|].
  rewrite decide_False by (apply Hb; set_solver). f_equal. apply IH. set_solver.
Qed.

Lemma area_set_split l1 a l2 f s :
  vmm_list s = l1 ++ a :: l2 -> NoDup (map vma_id (l1 ++ a :: l2)) ->
  area_set (vma_id a) f s = Ret (tt, set_list (l1 ++ f a :: l2) s).
Proof.
  intros El [H1 H2]%ids_split. unfold area_set, modify. do 2 f_equal. f_equal. rewrite El, map_app. simpl.
  rewrite decide_True by done. by rewrite !map_id_other.
Qed.

Lemma next_area_split l1 a l2 :
  (forall b, b ∈ l1 -> vma_id b <> vma_id a) -> next_area (vma_id a) (l1 ++ a :: l2) = head (map vma_id l2).
Proof.
  induction l1 as [|b l1 IH]; intros Hb.
  - simpl. destruct l2 as [|c l2]; simpl; [done|]. by rewrite decide_True.
  - specialize (IH ltac:(intros x Hx; apply Hb; set_solver)).
    destruct l1 as [|c l1]; simpl in *; rewrite decide_False by (apply Hb; set_solver); exact IH.
Qed.

Lemma filter_id_split l1 a l2 :
  NoDup (map vma_id (l1 ++ a :: l2)) -> filter (fun x => vma_id x <> vma_id a) (l1 ++ a :: l2) = l1 ++ l2.
Proof.
  intros [H1 H2]%ids_split.
  assert (Hid : forall l : list vmarea, (forall b, b ∈ l -> vma_id b <> vma_id a) -> filter (fun x => vma_id x <> vma_id a) l = l).
  { induction l as [|b l IH]; intros Hb; [done|]. rewrite filter_cons_True by (apply Hb; set_solver).
    f_equal. apply IH. set_solver. }
  rewrite filter_app, filter_cons_False by naive_solver. by rewrite !Hid.
Qed.

(** Objects that differ in the union only. *)
Lemma own_un Ls C f m :
  (forall ob, exists u, f ob = with_un u ob) -> own Ls C m -> own Ls C (set_objs (fmap f) m).
Proof.
  intros Hf [[R1 R2 R3 R4 R5 R6] Hch Hlv Hrf].
  assert (Hl : forall x ob', (f <$> objs m) !! x = Some ob' -> exists ob u, objs m !! x = Some ob /\ ob' = with_un u ob).
  { intros x ob' Hx. apply lookup_fmap_Some in Hx as (ob & <- & Hx). destruct (Hf ob) as [u Hu]. eauto. }
  assert (Hfw : forall x ob, objs m !! x = Some ob -> exists u, (f <$> objs m) !! x = Some (with_un u ob)).
  { intros x ob Hx. destruct (Hf ob) as [u Hu]. exists u. by rewrite lookup_fmap, Hx, <- Hu. }
  split; [split| | |]; simpl; try done.
  - intros x ob' n (ob & u & Hx & ->)%Hl. exact (R1 _ _ _ Hx).
  - intros x ob' (ob & u & Hx & ->)%Hl. exact (R2 _ _ Hx).
  - intros k p Hp. destruct (R3 _ _ Hp) as (? & ? & [ob Ho] & ? & ?). split_and!; try done.
    destruct (Hfw _ _ Ho). eauto.
  - intros l Hl'. destruct (Hch l Hl') as [o Co]. exists o. eapply chain_same; [exact Co|].
    intros y oby _ Hy. destruct (Hfw _ _ Hy) as [u Hu]. simpl. eauto.
  - intros x Hx. destruct (Hlv x Hx) as (ob & Ho & Hk). destruct (Hfw _ _ Ho) as [u Hu]. eauto.
  - intros x ob' (ob & u & Hx & ->)%Hl. exact (Hrf _ _ Hx).
Qed.

Lemma own_un1 Ls C x ob u m :
  objs m !! x = Some ob -> own Ls C m -> own Ls C (set_objs <[x := with_un u ob]> m).
Proof.
  intros Hx [[R1 R2 R3 R4 R5 R6] Hch Hlv Hrf].
  assert (Hl : forall y ob', <[x := with_un u ob]> (objs m) !! y = Some ob' -> exists oby v, objs m !! y = Some oby /\ ob' = with_un v oby).
  { intros y ob' Hy. destruct (decide (y = x)) as [->|Hne]; simplify_map_eq; [eauto|].
    exists ob', (mmo_un ob'). split; [done|]. by destruct ob'. }
  assert (Hfw : forall y oby, objs m !! y = Some oby -> exists v, <[x := with_un u ob]> (objs m) !! y = Some (with_un v oby)).
  { intros y oby Hy. destruct (decide (y = x)) as [->|Hne]; simplify_map_eq; [eauto|].
    exists (mmo_un oby). by destruct oby. }
  split; [split| | |]; simpl; try done.
  - intros y ob' n (oby & v & Hy & ->)%Hl. exact (R1 _ _ _ Hy).
  - intros y ob' (oby & v & Hy & ->)%Hl. exact (R2 _ _ Hy).
  - intros k p Hp. destruct (R3 _ _ Hp) as (? & ? & [oby Ho] & ? & ?). split_and!; try done.
    destruct (Hfw _ _ Ho). eauto.
  - intros l Hl'. destruct (Hch l Hl') as [o Co]. exists o. eapply chain_same; [exact Co|].
    intros y oby _ Hy. destruct (Hfw _ _ Hy) as [v Hv]. simpl. eauto.
  - intros y Hy. destruct (Hlv y Hy) as (oby & Ho & Hk). destruct (Hfw _ _ Ho) as [v Hv]. eauto.
  - intros y ob' (oby & v & Hy & ->)%Hl. exact (Hrf _ _ Hy).
Qed.

Lemma keep_un_fmap f m :
  (forall ob, exists u, f ob = with_un u ob /\ un_shape u = un_shape (mmo_un ob)) -> keep_un m (set_objs (fmap f) m).
Proof.
  intros Hf x ob' Hx. simpl in Hx. apply lookup_fmap_Some in Hx as (ob & <- & Hx).
  destruct (Hf ob) as (u & -> & Eu). eauto.
Qed.

Lemma keep_un_insert x ob u m :
  objs m !! x = Some ob -> un_shape u = un_shape (mmo_un ob) -> keep_un m (set_objs <[x := with_un u ob]> m).
Proof.
  intros Hx Eu y oby Hy. simpl in Hy. destruct (decide (y = x)) as [->|Hne]; simplify_map_eq; eauto.
Qed.

Lemma own_gone f Ls C m : own Ls C m -> own Ls C (set_gone f m).
Proof.
  intros [H1 H2 H3 H4]. split; [by apply mm_ok_gone| |exact H3|exact H4].
  intros l Hl. destruct (H2 l Hl) as [o Ch]. exists o. eapply chain_same; [exact Ch|]. eauto.
Qed.

Lemma drop_vma_un i ob : exists u, drop_vma i ob = with_un u ob /\ un_shape u = un_shape (mmo_un ob).
Proof.
  unfold drop_vma. destruct (mmo_un ob) as [vs|b] eqn:E; [by eauto|].
  exists (mmo_un ob). rewrite E. split; [|done]. destruct ob. simpl in E. by subst.
Qed.

(** Removing mappings only takes page-table entries away. *)
Lemma remove_from_pts_ok ids n s :
  areas_ok (vmm_list s) -> Forall off_ok (vmm_list s) ->
  exists m, remove_from_pts ids n s = Ret (tt, set_ptes m s) /\ m ⊆ ptes s.
Proof.
  intros Hok Hoff. revert s Hok Hoff. induction ids as [|i ids IH]; intros s Hok Hoff.
  { exists (ptes s). split; [|done]. by destruct s as [? ? []]. }
  simpl. rewrite !bind_gets.
  assert (exists m1, (match find_area i (vmm_list s) with
      | Some a => if (vma_off a <=? n) && (n <? u32 (vma_off a + u32 (vma_end a - vma_start a))) && vmm_proc s
                  then pt_unmap (PN_TO_ADDR (u32 (vma_start a + n - vma_off a))) else ret tt
      | None => ret tt end) s = Ret (tt, set_ptes m1 s) /\ m1 ⊆ ptes s) as (m1 & E1 & H1).
  { assert (Hid : s = set_ptes (ptes s) s) by by destruct s as [? ? []].
    destruct (find_area i (vmm_list s)) as [a|] eqn:Ea; [|exists (ptes s); by rewrite <- Hid].
    destruct (_ && _) eqn:Ec; [|exists (ptes s); by rewrite <- Hid].
    apply find_area_in in Ea. rewrite Forall_forall in Hoff. destruct (Hoff a Ea) as [Ho1 Ho2].
    destruct Hok as [Hu _]. rewrite Forall_forall in Hu. destruct (Hu a Ea) as (U1 & U2 & U3).
    rewrite !andb_true_iff, Z.leb_le, Z.ltb_lt in Ec. destruct Ec as [[Ec1 Ec2] _]. unfold two32 in *. pn.
    rewrite (u32_small (vma_end a - vma_start a)) in Ec2 by (unfold is_u32, two32; lia).
    assert (Hlt : n < vma_off a + (vma_end a - vma_start a)).
    { destruct (decide (vma_off a + (vma_end a - vma_start a) = 4294967296)) as [E|E]; [rewrite E in Ec2; change (u32 4294967296) with 0 in Ec2; lia|].
      rewrite u32_small in Ec2 by (unfold is_u32, two32; lia). done. }
    rewrite u32_small by (unfold is_u32, two32; lia).
    exists (delete (vma_start a + n - vma_off a) (ptes s)). split; [|apply delete_subseteq].
    unfold pt_unmap, PAGE_ALIGNED, PAGE_SIZE, USER_MEM_LOW, USER_MEM_HIGH.
    rewrite ADDR_TO_PN_TO_ADDR by lia. rewrite PN_TO_ADDR_mul by lia. rewrite !u32_small by (unfold is_u32, two32; lia).
    rewrite bind_assert by dlia. by rewrite bind_assert by lia. }
  rewrite (bind_eq _ _ _ _ _ E1). destruct (IH (set_ptes m1 s) Hok Hoff) as (m2 & -> & H2).
  exists m2. split; [done|]. by etrans.
Qed.

Lemma sync_pts_ok log s :
  areas_ok (vmm_list s) -> Forall off_ok (vmm_list s) -> Forall (fun e : option (list Z) * Z => is_Some e.1) log ->
  exists m, sync_pts log s = Ret (tt, set_ptes m s) /\ m ⊆ ptes s.
Proof.
  intros Hok Hoff Hlog. revert s Hok Hoff. induction Hlog as [|[x n] log [ids Hx] Hlog IH]; intros s Hok Hoff.
  { exists (ptes s). split; [|done]. by destruct s as [? ? []]. }
  simpl in *. subst x. rewrite bind_ret.
  destruct (remove_from_pts_ok ids n s Hok Hoff) as (m1 & E1 & H1). rewrite (bind_eq _ _ _ _ _ E1).
  destruct (IH (set_ptes m1 s) Hok Hoff) as (m2 & -> & H2). exists m2. split; [done|]. by etrans.
Qed.

(** A call that frees page frames: the memory objects change as by the call alone, and
    mappings only go away. *)
Definition fresh_log (m : mm) : mm := set_gone (fun g => MkGone (g_objs g) (g_uaf g) [] (g_flushed g)) m.

Lemma put_call_ok {A} (f : M mm A) r m' s :
  areas_ok (vmm_list s) -> Forall off_ok (vmm_list s) ->
  f (fresh_log (vmm s)) = Ret (r, m') -> unmaps_ok m' ->
  exists m, put_call f s = Ret (r, set_ptes m (set_vmm m' s)) /\ m ⊆ ptes s.
Proof.
  intros Hok Hoff Ef Hlog. unfold put_call, mm_call at 1. unfold zoom at 1.
  rewrite (bind_eq _ _ _ tt (set_vmm (fresh_log (vmm s)) s)) by done.
  rewrite (bind_eq _ _ _ r (set_vmm m' s)) by (unfold mm_call, zoom; simpl; by rewrite Ef).
  rewrite bind_gets. destruct (sync_pts_ok (rev (g_unmap (gone m'))) (set_vmm m' s) Hok Hoff) as (m & E & Hm).
  { by apply Forall_rev. }
  exists m. split; [|done]. simpl. by rewrite (bind_eq _ _ _ _ _ E).
Qed.

Lemma own_chains_perm Ls Ls' C m : Ls ≡ₚ Ls' -> own Ls C m -> own Ls' C m.
Proof.
  intros Hp [H1 H2 H3 H4]. split; try done.
  - intros l Hl. apply H2. by rewrite Hp.
  - intros x ob Hx. specialize (H4 _ _ Hx). unfold occ in *. by rewrite <- Hp.
Qed.

(** One round of the loop on area [a]: what remains of it avoids the range,
    and pages outside the range are mapped as before. *)
Definition step_ok (lo n : Z) (l1 l2 : list vmarea) (L1 L2 : list (list Z)) (s s' : vms) : Prop :=
  exists c L, vmm_list s' = l1 ++ c ++ l2 /\ Forall (avoids lo n) c /\ length L = length c /\
    vm_inv (L1 ++ L ++ L2) s' /\ ptes s' ⊆ ptes s /\
    forall v, ~ (lo <= v < lo + n) -> translate (vmm_list s') v = translate (vmm_list s) v.

Section body.
Variables (lo n : Z) (s : vms) (a : vmarea) (l1 l2 : list vmarea) (L1 L2 : list (list Z)) (ol : list Z).
Hypothesis Hlo : LOW_PN <= lo.
Hypothesis Hn : 0 < n.
Hypothesis Hhi : lo + n <= HIGH_PN.
Hypothesis Hinv : vm_inv (L1 ++ ol :: L2) s.
Hypothesis El : vmm_list s = l1 ++ a :: l2.
Hypothesis Hlen : length l1 = length L1.

Lemma body_facts :
  in_user a /\ off_ok a /\ area_obj (vmm s) a ol /\ NoDup (map vma_id (l1 ++ a :: l2)) /\
  u32 (lo + n) = lo + n /\ area_get (vma_id a) s = Ret (a, s) /\ areas_ok (l1 ++ a :: l2).
Proof.
  destruct Hinv as [Ha Hid Hof _ Hob _ _]. rewrite El in *.
  apply NoDup_app in Hid as (Hid & _ & _).
  assert (Hin : a ∈ l1 ++ a :: l2) by set_solver.
  split_and!; try done.
  - destruct Ha as [Hu _]. rewrite Forall_forall in Hu. auto.
  - rewrite Forall_forall in Hof. auto.
  - apply Forall2_app_inv in Hob as [_ Hob]; [|done]. by apply Forall2_cons in Hob as [? _].
  - by small.
  - unfold area_get. rewrite bind_gets, El. rewrite find_area_split; [done|]. by apply ids_split in Hid as [? _].
Qed.

(** Nothing of the area is in the range. *)
Lemma body_miss :
  avoids lo n a -> remove_body lo n (vma_id a) s = Ret (None, s) /\ step_ok lo n l1 l2 L1 L2 s s.
Proof.
  intros Hav. destruct body_facts as (Hu & Ho & _ & _ & E32 & Eg & _). split.
  - unfold remove_body. rewrite E32, (bind_eq _ _ _ _ _ Eg).
    unfold avoids in Hav. pn.
    destruct (Z.ltb_spec (vma_start a) lo), (Z.ltb_spec (lo + n) (vma_end a)), (Z.ltb_spec lo (vma_end a)),
      (Z.ltb_spec (vma_start a) (lo + n)), (Z.leb_spec lo (vma_start a)), (Z.leb_spec (vma_end a) (lo + n));
      simpl; try done; lia.
  - exists [a], [ol]. split_and!; [done|by constructor|done|done|done|done].
Qed.

(** Case 2: the range covers the end of the area. *)
Lemma body_tail :
  vma_start a < lo -> lo < vma_end a -> vma_end a <= lo + n ->
  exists s', remove_body lo n (vma_id a) s = Ret (None, s') /\ step_ok lo n l1 l2 L1 L2 s s'.
Proof.
  intros H1 H2 H3. destruct body_facts as (Hu & Ho & _ & Hid & E32 & Eg & Hok). pose proof Hu as (U1 & U2 & U3).
  set (s1 := set_pd (pd_unmapped lo (vma_end a) (pd s)) s).
  set (a' := with_end lo a).
  assert (Hpc : pieces lo n a [a']).
  { split; simpl.
    - constructor; [simpl; lia|done].
    - done.
    - constructor; [done|done].
    - intros v Hv Hva. exists a'. split; [set_solver|]. simpl. lia.
    - constructor; [left; simpl; lia|done]. }
  exists (set_list (l1 ++ a' :: l2) s1). split.
  - unfold remove_body. rewrite E32, (bind_eq _ _ _ _ _ Eg).
    rewrite (proj2 (Z.ltb_lt _ _) H1), (proj2 (Z.ltb_ge _ _) H3), (proj2 (Z.ltb_lt _ _) H2). simpl.
    rewrite (bind_eq _ _ _ _ _ (pt_unmap_range_eq lo (vma_end a) s Hlo H2 U3)).
    erewrite bind_eq by (by eapply (area_set_split l1 a l2)). done.
  - exists [a'], [ol]. split_and!; [done|apply Hpc|done| |by apply pd_unmapped_sub|].
    + eapply (vm_inv_pieces lo n s a [a'] l1 l2 L1 ol L2); try done.
      * simpl. pose proof (vi_ids _ _ Hinv) as Hx. rewrite El, !map_app in Hx. rewrite !map_app. done.
      * apply (vi_own _ _ Hinv).
      * apply keep_un_refl.
      * intros v e Hv. apply pd_unmapped_some in Hv as [Hv Hr]; [split; [done|lia]|lia..].
    + intros v Hv. simpl vmm_list. rewrite El. by apply (pieces_translate lo n a [a']).
Qed.

(** Case 3: the range covers the start of the area. *)
Lemma body_head :
  lo <= vma_start a -> vma_start a < lo + n -> lo + n < vma_end a ->
  exists s', remove_body lo n (vma_id a) s = Ret (None, s') /\ step_ok lo n l1 l2 L1 L2 s s'.
Proof.
  intros H1 H2 H3. destruct body_facts as (Hu & Ho & _ & Hid & E32 & Eg & Hok). pose proof Hu as (U1 & U2 & U3).
  destruct Ho as [Ho1 Ho2]. unfold two32 in Ho2.
  set (s1 := set_pd (pd_unmapped (vma_start a) (lo + n) (pd s)) s).
  set (a' := with_start (lo + n) (vma_off a + (lo + n - vma_start a)) a).
  assert (Hpc : pieces lo n a [a']).
  { split; simpl.
    - constructor; [simpl; lia|done].
    - done.
    - constructor; [simpl; split_and!; [done|done|done|lia|done]|done].
    - intros v Hv Hva. exists a'. split; [set_solver|]. simpl. lia.
    - constructor; [right; simpl; lia|done]. }
  exists (set_list (l1 ++ a' :: l2) s1). split.
  - unfold remove_body. rewrite E32, (bind_eq _ _ _ _ _ Eg).
    rewrite (proj2 (Z.ltb_ge _ _) H1). simpl.
    rewrite (proj2 (Z.ltb_lt _ _) H3), (proj2 (Z.ltb_lt _ _) H2), (proj2 (Z.leb_le _ _) H1). simpl.
    rewrite (bind_eq _ _ _ _ _ (pt_unmap_range_eq (vma_start a) (lo + n) s ltac:(lia) H2 Hhi)).
    rewrite (u32_small (lo + n - vma_start a)) by (unfold is_u32, two32; pn; lia).
    rewrite (u32_small (vma_off a + _)) by (unfold is_u32, two32; pn; lia).
    erewrite bind_eq by (by eapply (area_set_split l1 a l2)). done.
  - exists [a'], [ol]. split_and!; [done|apply Hpc|done| |by apply pd_unmapped_sub|].
    + eapply (vm_inv_pieces lo n s a [a'] l1 l2 L1 ol L2); try done.
      * simpl. pose proof (vi_ids _ _ Hinv) as Hx. rewrite El, !map_app in Hx. rewrite !map_app. done.
      * apply (vi_own _ _ Hinv).
      * apply keep_un_refl.
      * intros v e Hv. apply pd_unmapped_some in Hv as [Hv Hr]; [split; [done|lia]|lia..].
    + intros v Hv. simpl vmm_list. rewrite El. by apply (pieces_translate lo n a [a']).
Qed.

Lemma mm_modify {B} f (k : unit -> M vms B) t : bind (mm_call (modify f)) k t = k tt (set_vmm (f (vmm t)) t).
Proof. done. Qed.

(** Case 4: the range covers the whole area. *)
Lemma put_area o :
  area_obj (vmm s) a ol -> vma_obj a = Some o -> chain (vmm s) o ol ->
  exists m' m, put_call (vma_put (vma_obj a)) s = Ret (tt, set_ptes m (set_vmm m' s)) /\ m ⊆ ptes s /\
    own (L1 ++ L2) [] m' /\ keep_un (vmm s) m'.
Proof.
  intros (Hlk & _) Eo Ch. pose proof Hinv as [Hok _ Hoff Hown _ Hun _].
  assert (Chf : chain (fresh_log (vmm s)) o ol) by (eapply chain_same; [exact Ch|eauto]).
  destruct (vma_put_own (L1 ++ L2) o ol (fresh_log (vmm s))) as (m' & Ep & Hown' & Hkeep & Hlog); [done| |].
  { apply own_gone. eapply own_chains_perm; [|exact Hown]. by rewrite Permutation_middle. }
  destruct (put_call_ok (vma_put (Some o)) tt m' s Hok Hoff Ep) as (m & E & Hm).
  { apply Hlog; [|by constructor]. intros x ob Hx Hob. assert (Hol : un_chain (vmm s) ol) by (apply Hun; set_solver). by apply (Hol x). }
  rewrite Eo. exists m', m. by split_and!.
Qed.

Lemma body_whole :
  lo <= vma_start a -> vma_end a <= lo + n ->
  exists s', remove_body lo n (vma_id a) s = Ret (None, s') /\ step_ok lo n l1 l2 L1 L2 s s'.
Proof.
  intros H1 H2. destruct body_facts as (Hu & Ho & (Hlk & o & Eo & Ch) & Hid & E32 & Eg & Hok).
  pose proof Hu as (U1 & U2 & U3).
  destruct (put_area o) as (m' & pm & Ep & Hpm & Hown & Hkeep); [by split; eauto|done|done|].
  assert (Hpc : pieces lo n a []).
  { split; try done. intros v Hv Hva. lia. }
  unfold remove_body. rewrite E32, (bind_eq _ _ _ _ _ Eg).
  rewrite (proj2 (Z.ltb_ge _ _) H1), (proj2 (Z.ltb_ge _ _) H2), (proj2 (Z.leb_le _ _) H1), (proj2 (Z.leb_le _ _) H2). simpl.
  rewrite (bind_eq _ _ _ _ _ Ep), bind_modify. unfold olink_remove. rewrite Hlk, bind_bind, bind_ret, bind_bind, mm_modify.
  rewrite mm_modify. unfold vmarea_free. rewrite bind_modify.
  unfold freed_vma_end. rewrite bind_bind, mm_modify, bind_ret.
  erewrite bind_eq by (apply pt_unmap_range_eq; done). eexists. split; [done|].
  exists [], []. split_and!; [simpl; rewrite El; by apply filter_id_split|done|done| | |].
  - eapply (vm_inv_pieces lo n s a [] l1 l2 L1 ol L2); try done.
    + simpl. rewrite El. by apply filter_id_split.
    + simpl. rewrite El, filter_id_split by done. pose proof (vi_ids _ _ Hinv) as Hx. rewrite El, !map_app in Hx. rewrite map_app. simpl in *.
      eapply NoDup_Permutation_proper; [|exact Hx]. rewrite <- !app_assoc. apply Permutation_app_head.
      symmetry. apply Permutation_middle.
    + simpl. apply own_gone, own_gone, own_un; [|done]. intros ob. destruct (drop_vma_un (vma_id a) ob) as (u & -> & _). eauto.
    + simpl. eapply keep_un_trans; [exact Hkeep|]. apply (keep_un_fmap (drop_vma (vma_id a))), drop_vma_un.
    + intros v e Hv. apply pd_unmapped_some in Hv as [Hv Hr]; [split; [by eapply lookup_weaken|lia]|lia..].
  - etrans; [apply pd_unmapped_sub|done].
  - intros v Hv. simpl vmm_list. rewrite El, filter_id_split by done. by apply (pieces_translate lo n a []).
Qed.

(** The object of a private mapping: a shadow object that knows the bottom. *)
Definition private_obj (m : mm) (x : vmarea) : Prop :=
  exists o ob b obb vs, vma_obj x = Some o /\ objs m !! o = Some ob /\ mmo_un ob = mmo_bottom_obj b /\
    objs m !! b = Some obb /\ mmo_un obb = mmo_vmas vs.

Lemma insert_area_after l3 l4 new :
  Forall (fun x => vma_start x < vma_end new) l3 -> Forall (before new) l4 ->
  insert_area new (l3 ++ l4) = l3 ++ new :: l4.
Proof.
  intros H3 H4. induction H3 as [|x l3 Hx H3 IH]; simpl.
  - destruct H4 as [|y l4 Hy H4]; simpl; [done|]. by rewrite (proj2 (Z.leb_le _ _) Hy).
  - rewrite (proj2 (Z.leb_gt _ _) Hx). by rewrite IH.
Qed.

(** Case 1: the range lies inside the area, which is split in two. *)
Lemma body_split j pool :
  vma_start a < lo -> lo + n < vma_end a -> private_obj (vmm s) a -> vma_pool s = j :: pool ->
  exists s', remove_body lo n (vma_id a) s = Ret (None, s') /\ step_ok lo n l1 l2 L1 L2 s s'.
Proof.
  intros H1 H2 (o & ob & b & obb & vs & Eo & Hob & Hun & Hobb & Hunb) Epool.
  destruct body_facts as (Hu & Ho & (Hlk & o' & Eo' & Ch) & Hid & E32 & Eg & Hok). simplify_eq.
  pose proof Hu as (U1 & U2 & U3). destruct Ho as [Ho1 Ho2]. unfold two32 in Ho2.
  destruct (vma_ref_own (L1 ++ ol :: L2) o ol (vmm s) Ch (vi_own _ _ Hinv)) as (m1 & Er & Hown & _ & Hsame & Hkeep).
  destruct (Hsame _ _ Hob) as (ob1 & Hob1 & _ & _ & Hun1).
  destruct (Hsame _ _ Hobb) as (obb1 & Hobb1 & _ & _ & Hunb1).
  set (a' := with_end lo a).
  set (new := MkVma j (lo + n) (vma_end a) (vma_off a + (lo + n - vma_start a)) (vma_prot a) (vma_flags a) (vma_obj a) true).
  assert (Hpc : pieces lo n a [a'; new]).
  { split; simpl.
    - repeat constructor; simpl; lia.
    - split; [|done]. constructor; [unfold before; simpl; lia|done].
    - constructor; [done|]. constructor; [simpl; split_and!; [done|done|done|lia|done]|done].
    - intros v Hv Hva. destruct (decide (v < lo)).
      + exists a'. split; [set_solver|]. simpl. lia.
      + exists new. split; [set_solver|]. simpl. lia.
    - constructor; [left; simpl; lia|]. constructor; [right; simpl; lia|done]. }
  assert (Hins : insert_area new (l1 ++ a' :: l2) = l1 ++ [a'; new] ++ l2).
  { apply areas_ok_app in Hok as (Hok1 & Hok2 & H12). apply areas_ok_cons in Hok2 as (_ & Hbl2 & _).
    change (l1 ++ a' :: l2) with (l1 ++ [a'] ++ l2). rewrite app_assoc.
    rewrite insert_area_after; [by rewrite <- app_assoc| |].
    - apply Forall_app. split; [|constructor; [simpl; lia|done]]. destruct Hok1 as [Hu1 _].
      rewrite Forall_forall in H12, Hu1 |- *. intros x Hx. specialize (H12 x Hx). specialize (Hu1 x Hx).
      apply Forall_cons in H12 as [? _]. simpl. pn. lia.
    - eapply Forall_impl; [exact Hbl2|]. intros x Hx. unfold before in *. simpl. lia. }
  set (m2 := set_objs <[b := with_un (mmo_vmas (vs ++ [j])) obb1]> m1).
  exists (MkVms (l1 ++ [a'; new] ++ l2) pool (pd_unmapped lo (lo + n) (pd s)) m2 (vmm_proc s)). split.
  - unfold remove_body. rewrite E32, (bind_eq _ _ _ _ _ Eg).
    rewrite (proj2 (Z.ltb_lt _ _) H1), (proj2 (Z.ltb_lt _ _) H2). simpl.
    unfold vmarea_alloc. rewrite bind_bind, bind_gets, Epool, bind_bind, bind_modify, bind_ret, Eo.
    unfold mm_call at 1. unfold zoom at 1. rewrite (bind_eq _ _ _ tt (set_vmm m1 (set_vpool pool s)))
      by (change (vmm (set_vpool pool s)) with (vmm s); by rewrite Er).
    erewrite bind_eq by (eapply (area_set_split l1 a l2); done).
    unfold vmmap_insert. rewrite bind_modify, bind_deref.
    rewrite (u32_small (lo + n - vma_start a)) by (unfold is_u32, two32; pn; lia).
    rewrite (u32_small (vma_off a + _)) by (unfold is_u32, two32; pn; lia).
    rewrite <- Eo. change (MkVma j _ _ _ _ _ _ _) with new. simpl vmm_list.
    change (with_end lo a) with a'. rewrite Hins.
    set (s2 := set_list _ _). assert (Em : vmm s2 = m1) by done.
    assert (Eb : mm_call (un_bottom_obj o) s2 = Ret (b, s2)).
    { unfold mm_call, zoom, un_bottom_obj. rewrite Em, (bind_eq _ _ _ _ _ (obj_get_eq _ _ _ Hob1)), Hun1, Hun. done. }
    rewrite (bind_eq _ _ _ _ _ Eb).
    assert (Et : mm_call (vmas_insert_tail b j) s2 = Ret (tt, set_vmm m2 s2)).
    { unfold mm_call, zoom, vmas_insert_tail. rewrite Em, (bind_eq _ _ _ _ _ (obj_get_eq _ _ _ Hobb1)), Hunb1, Hunb.
      by rewrite (obj_set_eq _ _ _ _ Hobb1). }
    rewrite (bind_eq _ _ _ _ _ Et).
    erewrite bind_eq by (apply pt_unmap_range_eq; lia). done.
  - exists [a'; new], [ol; ol]. split_and!; [done|apply Hpc|done| |by apply pd_unmapped_sub|].
    + eapply (vm_inv_pieces lo n s a [a'; new] l1 l2 L1 ol L2); try done.
      * simpl. pose proof (vi_ids _ _ Hinv) as Hx. rewrite El, Epool, !map_app in Hx. rewrite map_app. simpl in *.
        eapply NoDup_Permutation_proper; [|exact Hx]. rewrite <- !app_assoc. apply Permutation_app_head. simpl.
        constructor. apply Permutation_middle.
      * simpl. apply own_un1; [done|]. eapply own_chains_perm; [|exact Hown]. by rewrite Permutation_middle.
      * simpl. eapply keep_un_trans; [exact Hkeep|]. apply keep_un_insert; [done|]. by rewrite Hunb1, Hunb.
      * intros v e Hv. apply pd_unmapped_some in Hv as [Hv Hr]; [split; [done|lia]|lia..].
    + intros v Hv. simpl vmm_list. rewrite El. by apply (pieces_translate lo n a [a'; new]).
Qed.

(** Every case. *)
Lemma body_ok :
  (vma_start a < lo -> lo + n < vma_end a -> private_obj (vmm s) a /\ vma_pool s <> []) ->
  exists s', remove_body lo n (vma_id a) s = Ret (None, s') /\ step_ok lo n l1 l2 L1 L2 s s' /\
    (s' = s \/ lo < vma_end a).
Proof.
  intros Hsplit. destruct (decide (vma_end a <= lo)) as [Hm1|Hm1].
  { destruct body_miss as [E Hs]; [by left|]. eauto. }
  destruct (decide (lo + n <= vma_start a)) as [Hm2|Hm2].
  { destruct body_miss as [E Hs]; [by right|]. eauto. }
  destruct (decide (vma_start a < lo)) as [Hs|Hs]; destruct (decide (lo + n < vma_end a)) as [He|He].
  - destruct (Hsplit Hs He) as [Hp Hpool]. destruct (vma_pool s) as [|j pool] eqn:Ep; [done|].
    destruct (body_split j pool Hs He Hp Ep) as (s' & E & Hst). exists s'. split_and!; [done|done|right; lia].
  - destruct body_tail as (s' & E & Hst); [lia|lia|lia|]. exists s'. split_and!; [done|done|right; lia].
  - destruct body_head as (s' & E & Hst); [lia|lia|lia|]. exists s'. split_and!; [done|done|right; lia].
  - destruct body_whole as (s' & E & Hst); [lia|lia|]. exists s'. split_and!; [done|done|right; lia].
Qed.
End body.

Lemma remove_loop_ok lo n fuel l2 : forall l1 L1 L2 s,
  LOW_PN <= lo -> 0 < n -> lo + n <= HIGH_PN ->
  vm_inv (L1 ++ L2) s -> vmm_list s = l1 ++ l2 -> length l1 = length L1 -> (length l2 <= fuel)%nat ->
  Forall (avoids lo n) l1 ->
  (forall a, a ∈ l2 -> vma_start a < lo -> lo + n < vma_end a -> private_obj (vmm s) a /\ vma_pool s <> []) ->
  exists s' Ls, remove_loop fuel lo n (head (map vma_id l2)) s = Ret (0, s') /\ vm_inv Ls s' /\
    Forall (avoids lo n) (vmm_list s') /\ ptes s' ⊆ ptes s /\
    forall v, ~ (lo <= v < lo + n) -> translate (vmm_list s') v = translate (vmm_list s) v.
Proof.
  revert fuel. induction l2 as [|a l2 IH]; intros fuel l1 L1 L2 s Hlo Hn Hhi Hinv El Hlen Hf Hav Hsp.
  { rewrite app_nil_r in El. exists s, (L1 ++ L2). destruct fuel; simpl; rewrite El; by split_and!. }
  destruct fuel as [|fuel]; [simpl in Hf; lia|].
  assert (exists ol L2', L2 = ol :: L2') as (ol & L2' & ->).
  { pose proof (Forall2_length _ _ _ (vi_objs _ _ Hinv)) as Hl. rewrite El, !length_app in Hl. simpl in Hl.
    destruct L2 as [|ol L2']; [simpl in Hl; lia|eauto]. }
  destruct (body_ok lo n s a l1 l2 L1 L2' ol Hlo Hn Hhi Hinv El Hlen) as (s' & E & (c & L & El' & Hc & HL & Hinv' & Hsub & Htr) & Hor).
  { apply Hsp. set_solver. }
  assert (Hnext : next_area (vma_id a) (vmm_list s) = head (map vma_id l2)).
  { rewrite El. apply next_area_split. pose proof (vi_ids _ _ Hinv) as Hid. rewrite El in Hid.
    apply NoDup_app in Hid as (Hid & _ & _). by apply ids_split in Hid as [? _]. }
  destruct (IH fuel (l1 ++ c) (L1 ++ L) L2' s') as (s'' & Ls & E2 & H1 & H2 & Hsub2 & H3); try done.
  - by rewrite <- app_assoc.
  - by rewrite <- app_assoc.
  - rewrite !length_app. lia.
  - simpl in Hf. lia.
  - apply Forall_app. by split.
  - intros x Hx Hxs Hxe. destruct Hor as [->|Hor]; [apply Hsp; [set_solver|done|done]|]. exfalso.
    pose proof (vi_areas _ _ Hinv) as Hok. rewrite El in Hok. apply areas_ok_app in Hok as (_ & Hok & _).
    apply areas_ok_cons in Hok as (_ & Hb & _). rewrite Forall_forall in Hb. specialize (Hb x Hx). unfold before in Hb. lia.
  - exists s'', Ls. simpl remove_loop. rewrite bind_gets, Hnext, (bind_eq _ _ _ _ _ E).
    split_and!; [done|done|done|by etrans|]. intros v Hv. by rewrite H3, Htr.
Qed.

Lemma vmmap_remove_ok lo n Ls s :
  LOW_PN <= lo -> 0 < n -> lo + n <= HIGH_PN -> vm_inv Ls s ->
  (forall a, a ∈ vmm_list s -> vma_start a < lo -> lo + n < vma_end a -> private_obj (vmm s) a /\ vma_pool s <> []) ->
  exists s' Ls', vmmap_remove lo n s = Ret (0, s') /\ vm_inv Ls' s' /\
    (forall v, translate (vmm_list s') v = if decide (lo <= v < lo + n) then None else translate (vmm_list s) v) /\
    (forall v, lo <= v < lo + n -> ptes s' !! v = None) /\ ptes s' ⊆ ptes s.
Proof.
  intros Hlo Hn Hhi Hinv Hsp. unfold vmmap_remove.
  rewrite (bind_eq _ _ _ _ _ (vmmap_is_range_empty_eq lo n s Hlo Hn Hhi)).
  assert (Hfin : forall s' Ls', vm_inv Ls' s' -> Forall (avoids lo n) (vmm_list s') -> ptes s' ⊆ ptes s ->
    (forall v, ~ (lo <= v < lo + n) -> translate (vmm_list s') v = translate (vmm_list s) v) ->
    (forall v, translate (vmm_list s') v = if decide (lo <= v < lo + n) then None else translate (vmm_list s) v) /\
    (forall v, lo <= v < lo + n -> ptes s' !! v = None) /\ ptes s' ⊆ ptes s).
  { intros s' Ls' Hinv' Hav Hsub Htr.
    assert (Hnone : forall v, lo <= v < lo + n -> vmmap_lookup (vmm_list s') v = None).
    { intros v Hv. apply lookup_none. intros a Ha. rewrite Forall_forall in Hav.
      specialize (Hav a Ha). unfold avoids in Hav. lia. }
    split_and!; [intros v|intros v|done].
    - case_decide as Hv; [|auto]. unfold translate. by rewrite Hnone.
    - intros Hv. destruct (ptes s' !! v) as [e|] eqn:E; [|done].
      destruct (vi_ptes _ _ Hinv' _ _ E) as [a Ha]. by rewrite Hnone in Ha. }
  destruct (range_empty_loop lo (lo + n) (vmm_list s)) eqn:Ee.
  - apply range_empty_loop_spec in Ee. exists s, Ls. split; [done|]. split; [done|]. by eapply Hfin.
  - rewrite bind_gets.
    destruct (remove_loop_ok lo n (length (vmm_list s)) (vmm_list s) [] [] Ls s) as (s' & Ls' & E & H1 & H2 & Hsub & H3); try done.
    exists s', Ls'. split; [done|]. split; [done|]. by eapply Hfin.
Qed.
End remove.

(** ** Theorems *)

(** C37: first fit.  On a well-formed map, [vmmap_find_range] returns -EINVAL
    exactly when no gap of [n] pages exists in user memory; otherwise the
    range it returns lies in user memory, overlaps no area, and no free range
    starts lower (VMMAP_DIR_LOHI) or higher (VMMAP_DIR_HILO). *)
Theorem vmmap_find_range_first_fit l n dir :
  areas_ok l -> 0 < n -> dir = VMMAP_DIR_LOHI \/ dir = VMMAP_DIR_HILO ->
  let r := vmmap_find_range l n dir in
  (r = - EINVAL /\ forall w, ~ free_at l w n) \/
  (free_at l r n /\ forall w, free_at l w n -> if dir =? VMMAP_DIR_LOHI then r <= w else w <= r).
Proof. apply vmmap_find_range_spec. Qed.

(** Ten pages of one private mapping and four of another. *)
Definition demo_areas : list vmarea :=
  [MkVma 1 1024 1034 0 3 2 (Some 10) true; MkVma 2 2000 2004 5 1 2 (Some 20) true].

Lemma demo_areas_ok : areas_ok demo_areas.
Proof. split; [repeat constructor; discriminate|]. simpl. split; [repeat constructor; discriminate|]. split; [constructor|done]. Qed.

Lemma vmmap_find_range_first_fit_witness :
  areas_ok demo_areas /\ free_at demo_areas 1034 100 /\ 1034 = vmmap_find_range demo_areas 100 VMMAP_DIR_LOHI.
Proof.
  split; [exact demo_areas_ok|].
  destruct (vmmap_find_range_first_fit demo_areas 100 VMMAP_DIR_LOHI demo_areas_ok) as [[E _]|[Hf _]];
    [lia|left; reflexivity|vm_compute in E; discriminate E|].
  split; [exact Hf|reflexivity].
Defined.

Definition demo_vm : vms :=
  MkVms demo_areas [7; 8] (MkPd (<[1026 := 5]> (<[1030 := 5]> (<[2001 := 5]> ∅))) {[1 := 7]} []) Mmobj.demo true.

Lemma demo_own : own [[10; 1]; [20; 1]] [] Mmobj.demo.
Proof.
  split.
  - exact Mmobj.demo_ok.
  - intros l [->|[->|?%not_elem_of_nil]%elem_of_cons]%elem_of_cons; [| |done].
    + exists 10. exact Mmobj.demo_chain.
    + exists 20. eapply chain_shadow; [reflexivity|reflexivity|reflexivity|]. by eapply chain_bottom.
  - intros x ?%not_elem_of_nil. done.
  - intros x ob. unfold Mmobj.demo. simpl. rewrite !lookup_insert_Some, lookup_empty.
    intros [[<- <-]|[? [[<- <-]|[? [[<- <-]|[? ?]]]]]]; vm_compute; try discriminate; done.
Qed.

Lemma demo_vm_inv : vm_inv [[10; 1]; [20; 1]] demo_vm.
Proof.
  split.
  - exact demo_areas_ok.
  - apply (bool_decide_unpack _). vm_compute. exact I.
  - repeat constructor; vm_compute; discriminate.
  - exact demo_own.
  - constructor; [|constructor; [|constructor]].
    + split; [done|]. exists 10. split; [done|exact Mmobj.demo_chain].
    + split; [done|]. exists 20. split; [done|]. eapply chain_shadow; [reflexivity|reflexivity|reflexivity|].
      by eapply chain_bottom.
  - intros l [->|[->|?%not_elem_of_nil]%elem_of_cons]%elem_of_cons; [| |done]; intros x ob Hx Ho;
      (apply elem_of_cons in Hx as [->|Hx]; [|apply list_elem_of_singleton in Hx as ->]);
      vm_compute in Ho; injection Ho as <-; reflexivity.
  - intros v e. unfold demo_vm. simpl. rewrite !lookup_insert_Some, lookup_empty.
    intros [[<- _]|[_ [[<- _]|[_ [[<- _]|[_ H]]]]]]; [..|discriminate H]; eexists; vm_compute; reflexivity.
Qed.

(** C8: [vmmap_remove] of pages [lo, lo + n) of user memory, on a well-formed
    address space, returns 0.  In the map, what is mapped is exactly the old
    mapping outside the range: every page keeps its object, its page within the
    object, its protection and its flags, and every page of the range is
    unmapped, whichever of the four cases each area falls in.  In the page
    directory, no entry of the range is left and no entry is new; entries outside
    the range may go as well (those of page frames freed with an object, and those
    [pt_unmap_range] clears beside the range), to be set again by a fault.  The
    areas stay ordered and disjoint and hold one reference to each object of their
    chains.  It assumes, where an area is split, that a descriptor for the
    second half can be had and that the area is a private mapping. *)
Theorem vmmap_remove_exact `{FileOps} lo n Ls s :
  LOW_PN <= lo -> 0 < n -> lo + n <= HIGH_PN -> vm_inv Ls s ->
  (forall a, a ∈ vmm_list s -> vma_start a < lo -> lo + n < vma_end a ->
     private_obj (vmm s) a /\ vma_pool s <> []) ->
  exists s' Ls', vmmap_remove lo n s = Ret (0, s') /\ vm_inv Ls' s' /\
    (forall v, translate (vmm_list s') v = if decide (lo <= v < lo + n) then None else translate (vmm_list s) v) /\
    (forall v, lo <= v < lo + n -> ptes s' !! v = None) /\ ptes s' ⊆ ptes s.
Proof. apply vmmap_remove_ok. Qed.

Lemma vmmap_remove_exact_witness :
  exists s', @vmmap_remove no_files 1028 4 demo_vm = Ret (0, s') /\
    translate (vmm_list s') 1027 = translate (vmm_list demo_vm) 1027 /\ ptes s' !! 1030 = None.
Proof.
  destruct (@vmmap_remove_exact no_files 1028 4 [[10; 1]; [20; 1]] demo_vm) as (s' & Ls' & E & _ & Ht & Hp & _);
    [vm_compute; discriminate|lia|vm_compute; discriminate|exact demo_vm_inv| |].
  - intros a Ha H1 H2. split; [|discriminate].
    apply elem_of_cons in Ha as [->|Ha].
    + exists 10, (MkObj Shadow 1 0 [] (mmo_bottom_obj 1) (Some 1)), 1, (MkObj Anon 3 1 [5] (mmo_vmas []) None), [].
      repeat split; reflexivity.
    + apply list_elem_of_singleton in Ha as ->. simpl in H1. lia.
  - exists s'. split; [exact E|]. split; [|apply Hp; lia].
    rewrite (Ht 1027). rewrite decide_False by lia. reflexivity.
Defined.

(** unmapping the middle of a shared mapping is undefined behaviour: to put
    the second half on the bottom object's list, [vmmap_remove] follows
    [mmo_bottom_obj] of the area's object, but the object of a shared mapping
    is no shadow object, and its union holds the list itself. *)
Theorem vmmap_split_shared_undefined `{FileOps} lo n s a l o ob vs j pool :
  LOW_PN <= lo -> 0 < n -> lo + n <= HIGH_PN ->
  vmm_list s = a :: l -> vma_start a < lo -> lo + n < vma_end a ->
  vma_obj a = Some o -> objs (vmm s) !! o = Some ob -> mmo_ops ob = Anon -> mmo_shadowed ob = None ->
  mmo_un ob = mmo_vmas vs -> 0 < mmo_refcount ob -> vma_pool s = j :: pool ->
  vmmap_remove lo n s = Stop Undef.
Proof.
  intros Hlo Hn Hhi El H1 H2 Eo Ho Hk Hs Hu Hr Hp. apply Z.ltb_lt in Hr. unfold vmmap_remove.
  rewrite (bind_eq _ _ _ _ _ (vmmap_is_range_empty_eq lo n s Hlo Hn Hhi)), El.
  assert (range_empty_loop lo (lo + n) (a :: l) = false) as ->.
  { simpl. rewrite (proj2 (Z.ltb_lt _ _)) by lia. by rewrite (proj2 (Z.ltb_lt _ _)) by lia. }
  rewrite bind_gets, El. simpl. rewrite bind_gets. unfold remove_body.
  assert (Eg : area_get (vma_id a) s = Ret (a, s)).
  { unfold area_get. rewrite bind_gets, El. simpl. by rewrite decide_True. }
  rewrite bind_bind, (bind_eq _ _ _ _ _ Eg).
  rewrite (u32_small (lo + n)) by (unfold is_u32, two32; pn; lia).
  rewrite (proj2 (Z.ltb_lt _ _) H1), (proj2 (Z.ltb_lt _ _) H2). simpl.
  unfold vmarea_alloc. rewrite !bind_bind, bind_gets, Hp, !bind_bind, bind_modify, bind_ret, Eo.
  set (ob1 := with_refcount (mmo_refcount ob + 1) ob).
  assert (exists m1, vma_ref (Some o) (vmm s) = Ret (tt, m1) /\ objs m1 !! o = Some ob1) as (m1 & Er & Ho1).
  { unfold vma_ref, chain_fuel. rewrite bind_gets. simpl. unfold mmo_ref.
    rewrite bind_bind, (bind_eq _ _ _ _ _ (obj_get_eq _ _ _ Ho)), Hk. unfold anon_ref.
    rewrite bind_bind, (bind_eq _ _ _ _ _ (obj_get_eq _ _ _ Ho)), bind_bind, bind_assert by (by rewrite Hr, Hk).
    rewrite bind_bind, (bind_eq _ _ _ _ _ (obj_set_eq _ _ _ _ Ho)), bind_modify.
    erewrite bind_eq by (apply obj_get_eq; simpl; by rewrite lookup_insert_eq). simpl. rewrite Hs.
    eexists. split; [done|]. simpl. by rewrite lookup_insert_eq. }
  rewrite bind_bind. unfold mm_call at 1. unfold zoom at 1.
  rewrite (bind_eq _ _ _ tt (set_vmm m1 (set_vpool pool s)))
    by (change (vmm (set_vpool pool s)) with (vmm s); by rewrite Er).
  unfold area_set, vmmap_insert, bind, modify, mm_call, zoom, un_bottom_obj. simpl.
  rewrite (bind_eq _ _ _ _ _ (obj_get_eq _ _ _ Ho1)). simpl. by rewrite Hu.
Qed.

(** One shared anonymous mapping of ten pages. *)
Definition demo_shared : vms :=
  MkVms [MkVma 1 1024 1034 0 3 1 (Some 1) true] [7] (MkPd ∅ ∅ [])
    (MkMm (<[1 := MkObj Anon 1 0 [] (mmo_vmas [1]) None]> ∅) ∅ [] [] 0 0 [] 4 1 0 (MkGone ∅ [] [] [])) true.

Lemma vmmap_split_shared_undefined_witness : @vmmap_remove no_files 1028 2 demo_shared = Stop Undef.
Proof.
  apply (@vmmap_split_shared_undefined no_files 1028 2 demo_shared (MkVma 1 1024 1034 0 3 1 (Some 1) true) [] 1
    (MkObj Anon 1 0 [] (mmo_vmas [1]) None) [1] 7 []);
    first [reflexivity|vm_compute; discriminate|vm_compute; reflexivity].
Defined.
