(* ===== verification/Mmap.v ===== *)
(** * Mapping memory: mmap, munmap, brk, page faults, access checks

    Models [vmmap_map], [vmmap_read] and [vmmap_write] of vm/vmmap.c and their
    callers: vm/mmap.c, vm/brk.c, api/access.c, vm/pagefault.c and [pt_map] of
    mm/pagetable.c.

    The operations that belong to a file system ([vn_ops->mmap] and the
    operations of a vnode's object) and the physical address of a page frame
    are parameters. *)

From S2P Require Import Prelude Mmobj Vmmap.

Definition FMODE_READ : Z := 1.
Definition FMODE_WRITE : Z := 2.
Definition FMODE_APPEND : Z := 4.
Definition NFILES : Z := 32.

(** An open file, as far as mapping it goes. *)
Record mfile : Type := MkMFile {
  mf_mode : Z;
  mf_vnode : Z;
  mf_refcount : Z
}.

(** The part of [proc_t] these system calls use. *)
Record pstate : Type := MkP {
  p_vm : vms;
  p_files : gmap Z mfile;
  p_brk : Z;
  p_start_brk : Z
}.

Definition set_vm (v : vms) (s : pstate) : pstate := MkP v (p_files s) (p_brk s) (p_start_brk s).
Definition set_files (m : gmap Z mfile) (s : pstate) : pstate := MkP (p_vm s) m (p_brk s) (p_start_brk s).
Definition set_brk (b : Z) (s : pstate) : pstate := MkP (p_vm s) (p_files s) b (p_start_brk s).
Definition vm_call {A} (m : M vms A) : M pstate A := zoom p_vm set_vm m.

Section mmap.
Context `{FileOps}.
(** [file->vn_ops->mmap(file, vma, &obj)]: an error number and an object. *)
Variable vn_mmap : Z -> vmarea -> M mm (Z * option Z).
(** [pt_virt_to_phys(pf->pf_addr)]. *)
Variable pf_paddr : pfid -> Z.

(** ** vmmap_map *)

(** Part 3 of [vmmap_map]: the object of the new area. *)
Definition map_object (i vmo flags : Z) : M vms (Z * option Z) :=
  if has flags MAP_PRIVATE then
    let! h := mm_call shadow_create in
    match h with
    | None =>
        put_call (mmo_put vmo) ;;;
        vmarea_free i ;;;
        ret (- ENOMEM, None)
    | Some h =>
        mm_call (obj_set h (with_un (mmo_bottom_obj vmo))) ;;;
        mm_call (obj_set h (with_shadowed (Some vmo))) ;;;
        area_set i (with_obj (Some h)) ;;;
        ret (0, Some i)
    end
  else
    area_set i (with_obj (Some vmo)) ;;;
    ret (0, Some i).

(** The value returned and the area stored through [new]. *)
Definition vmmap_map (file : option Z) (lopage npages prot flags off dir : Z) : M vms (Z * option Z) :=
  KASSERT (0 <? npages) ;;;
  KASSERT (Z.land (Z.lnot (Z.lor (Z.lor PROT_READ PROT_WRITE) PROT_EXEC)) prot =? 0) ;;;
  KASSERT (has MAP_SHARED flags || has MAP_PRIVATE flags) ;;;
  KASSERT ((lopage =? 0) || (LOW_PN <=? lopage)) ;;;
  KASSERT ((lopage =? 0) || (u32 (lopage + npages) <=? HIGH_PN)) ;;;
  KASSERT (PAGE_ALIGNED off) ;;;
  let! newvma := vmarea_alloc in
  match newvma with
  | None => ret (- ENOMEM, None)
  | Some i =>
      let! start :=
        (if lopage =? 0 then
           let! l := gets vmm_list in
           let err := vmmap_find_range l npages dir in
           if err <? 0 then vmarea_free i ;;; ret (inl err) else ret (inr err)
         else
           let! empty := vmmap_is_range_empty lopage npages in
           if empty then ret (inr lopage)
           else
             let! err := vmmap_remove lopage npages in
             if err <? 0 then vmarea_free i ;;; ret (inl err) else ret (inr lopage)) in
      match start with
      | inl err => ret (err, None)
      | inr st =>
          let new := MkVma i st (u32 (st + npages)) (u32 (Z.quot off PAGE_SIZE)) prot flags None false in
          vmmap_insert new ;;;
          let! vmo :=
            match file with
            | Some vn =>
                let! r := mm_call (vn_mmap vn new) in
                if fst r <? 0 then vmarea_free i ;;; ret (inl (fst r))
                else let! o := deref (snd r) in ret (inr o)
            | None =>
                let! o := mm_call anon_create in
                match o with
                | None => vmarea_free i ;;; ret (inl (- ENOMEM))
                | Some o => ret (inr o)
                end
            end in
          match vmo with
          | inl err => ret (err, None)
          | inr vmo =>
              let! r := map_object i vmo flags in
              if fst r <? 0 then ret r
              else
                let! b := mm_call (mmobj_bottom_obj vmo) in
                mm_call (vmas_insert_tail b i) ;;;
                area_set i (with_olink true) ;;;
                ret (0, Some i)
          end
      end
  end.

(** ** mmap(2) and munmap(2) *)

Definition fget_file (fd : Z) : M pstate (option mfile) :=
  if (fd <? 0) || (NFILES <=? fd) then ret None
  else
    let! o := gets (fun s => p_files s !! fd) in
    match o with
    | None => ret None
    | Some f =>
        modify (fun s => set_files (<[fd := MkMFile (mf_mode f) (mf_vnode f) (mf_refcount f + 1)]> (p_files s)) s) ;;;
        ret (Some f)
    end.

Definition fput_file (fd : Z) : M pstate unit :=
  let! o := gets (fun s => p_files s !! fd) in
  let! f := deref o in
  modify (fun s => set_files (<[fd := MkMFile (mf_mode f) (mf_vnode f) (mf_refcount f - 1)]> (p_files s)) s).

(** [None] when no file has to be released. *)
Definition mmap_file (prot flags fd addr off : Z) : M pstate (Z + option Z) :=
  if has flags MAP_ANON then ret (inr None)
  else
    let! f := (if (fd <? 0) || (NFILES <? fd) then ret None else fget_file fd) in
    match f with
    | None => ret (inl (- EBADF))
    | Some f =>
        if (has flags MAP_SHARED && has prot PROT_WRITE
            && negb (Z.land (mf_mode f) (Z.lor FMODE_READ FMODE_WRITE) =? Z.lor FMODE_READ FMODE_WRITE))
           || (has flags MAP_PRIVATE && negb (has (mf_mode f) FMODE_READ))
        then fput_file fd ;;; ret (inl (- EACCES))
        else if negb (PAGE_ALIGNED off) || negb (PAGE_ALIGNED addr) then ret (inl (- EINVAL))
        else if has prot PROT_WRITE && has (mf_mode f) FMODE_APPEND
        then fput_file fd ;;; ret (inl (- EACCES))
        else ret (inr (Some (mf_vnode f)))
    end.

(** The value returned and the address stored through [ret]. *)
Definition do_mmap (addr len prot flags fd off : Z) : M pstate (Z * option Z) :=
  if (len <=? 0) || (USER_MEM_HIGH - USER_MEM_LOW <? len) then ret (- EINVAL, None)
  else if negb (has flags MAP_SHARED || has flags MAP_PRIVATE || has flags MAP_FIXED || has flags MAP_ANON)
  then ret (- EINVAL, None)
  else if (addr =? 0) && has flags MAP_FIXED then ret (- EINVAL, None)
  else if negb (addr =? 0) && ((addr <? USER_MEM_LOW) || (USER_MEM_HIGH <? addr)) then ret (- EINVAL, None)
  else
    let lopage := if has flags MAP_FIXED then ADDR_TO_PN addr else 0 in
    if has flags MAP_SHARED && has flags MAP_PRIVATE then ret (- EINVAL, None)
    else if negb (has flags (Z.lor MAP_SHARED MAP_PRIVATE)) then ret (- EINVAL, None)
    else
      let! fr := mmap_file prot flags fd addr off in
      match fr with
      | inl err => ret (err, None)
      | inr vn =>
          let npages := u32 (len - 1 + PAGE_SIZE) / PAGE_SIZE in
          let! r := vm_call (vmmap_map vn lopage npages prot flags off VMMAP_DIR_HILO) in
          (if has flags MAP_ANON then ret tt else fput_file fd) ;;;
          if fst r <? 0 then ret (fst r, None)
          else
            let! i := deref (snd r) in
            let! a := vm_call (area_get i) in
            ret (fst r, Some (PN_TO_ADDR (vma_start a)))
      end.

Definition do_munmap (addr len : Z) : M pstate Z :=
  if negb (PAGE_ALIGNED addr) then ret (- EINVAL)
  else if (len <=? 0) || (USER_MEM_HIGH - USER_MEM_LOW <? len) then ret (- EINVAL)
  else if (addr <? USER_MEM_LOW) || (USER_MEM_HIGH <? u32 (addr + len)) then ret (- EINVAL)
  else
    let npage := u32 (len - 1 + PAGE_SIZE) / PAGE_SIZE in
    vm_call (vmmap_remove (ADDR_TO_PN addr) npage).

(** ** brk(2) *)

(** [pframe_get(obj, pn, &pf); memset(pf->pf_addr, 0, PAGE_SIZE);] for each
    page: a failed [pframe_get] leaves [pf] unset. *)
Fixpoint brk_zero (o : Z) (pns : list Z) : M mm unit :=
  match pns with
  | [] => ret tt
  | pn :: pns' =>
      let! r := pframe_get o pn in
      let! k := deref (snd r) in
      pf_set k (pf_set_data zero_page) ;;;
      brk_zero o pns'
  end.

(** The value returned and the break stored through [ret]. *)
Definition do_brk (addr : Z) : M pstate (Z * option Z) :=
  let! brk := gets p_brk in
  let! start_brk := gets p_start_brk in
  let ovfn := ADDR_TO_PN (PAGE_ALIGN_UP brk) in
  let nvfn := ADDR_TO_PN (PAGE_ALIGN_UP addr) in
  let! l := gets (fun s => vmm_list (p_vm s)) in
  let! vmarea := deref (vmmap_lookup l (u32 (ovfn - 1))) in
  let npn := s32 (nvfn - vma_start vmarea + vma_off vmarea) in
  let opn := s32 (ovfn - vma_start vmarea + vma_off vmarea) in
  if addr =? 0 then ret (0, Some brk)
  else if (addr <? start_brk) || (USER_MEM_HIGH <? addr) then ret (- ENOMEM, None)
  else if ovfn <? nvfn then
    let! empty := vm_call (vmmap_is_range_empty ovfn (nvfn - ovfn)) in
    if negb empty then ret (- ENOMEM, None)
    else
      let! o := deref (vma_obj vmarea) in
      vm_call (mm_call (brk_zero o (seqZ opn (npn - opn)))) ;;;
      vm_call (area_set (vma_id vmarea) (with_end nvfn)) ;;;
      modify (set_brk addr) ;;;
      ret (0, Some addr)
  else if nvfn <? ovfn then
    vm_call (area_set (vma_id vmarea) (with_end nvfn)) ;;;
    vm_call (pt_unmap_range (PAGE_ALIGN_UP addr) (PAGE_ALIGN_UP brk)) ;;;
    modify (set_brk addr) ;;;
    ret (0, Some addr)
  else
    modify (set_brk addr) ;;;
    ret (0, Some addr).

(** ** Access checks *)

Definition addr_perm (l : list vmarea) (vaddr perm : Z) : bool :=
  match vmmap_lookup l (ADDR_TO_PN vaddr) with
  | None => false
  | Some a =>
      if has perm PROT_READ && negb (has (vma_prot a) PROT_READ) then false
      else if has perm PROT_WRITE && negb (has (vma_prot a) PROT_WRITE) then false
      else if has perm PROT_EXEC && negb (has (vma_prot a) PROT_EXEC) then false
      else true
  end.

(** [while (temp < len)], one byte at a time; [n] bytes are left. *)
Fixpoint range_perm_loop (n : nat) (l : list vmarea) (vaddr temp perm : Z) : bool :=
  match n with
  | O => true
  | S n' => if addr_perm l (u32 (vaddr + temp)) perm
            then range_perm_loop n' l vaddr (temp + 1) perm else false
  end.

Definition range_perm (l : list vmarea) (avaddr len perm : Z) : bool :=
  range_perm_loop (Z.to_nat len) l avaddr 0 perm.

(** ** Copying from and to user memory *)

(** [memcpy] of [n] bytes from offset [off] of a page frame, and to it:
    undefined beyond the end of the frame. *)
Definition pf_bytes (k : pfid) (off n : Z) : M mm (list Z) :=
  let! p := pf_get k in
  if off + n <=? PAGE_SIZE then ret (take (Z.to_nat n) (drop (Z.to_nat off) (pf_data p)))
  else stop Undef.
Definition pf_store (k : pfid) (off : Z) (bytes : list Z) : M mm unit :=
  let! p := pf_get k in
  if off + Z.of_nat (length bytes) <=? PAGE_SIZE
  then pf_set k (pf_set_data (take (Z.to_nat off) (pf_data p) ++ bytes
                              ++ drop (Z.to_nat off + length bytes) (pf_data p)))
  else stop Undef.

(** The first page and the number of pages the loops run over. *)
Definition copy_pages (a : vmarea) (vaddr count : Z) : Z * Z :=
  let p_no := ADDR_TO_PN (u32 (vaddr + count)) in
  let startvfn := ADDR_TO_PN vaddr in
  let startpage := u32 (vma_off a + u32 (startvfn - vma_start a)) in
  let endpage := u32 (u32 (startpage + p_no) - startvfn) in
  (startpage, if count mod PAGE_SIZE =? 0 then endpage else u32 (endpage + 1)).

(** One page of [vmmap_read] and the rest; [acc] is what [buf] holds so far. *)
Fixpoint read_loop (fuel : nat) (o startpage endpage page offset count remain : Z) (acc : list Z) :
    M mm (Z * list Z) :=
  if page <? endpage then
    match fuel with
    | O => stop Diverge
    | S fuel' =>
        let! r := pframe_lookup o page true in
        if fst r <? 0 then ret (fst r, acc)
        else
          let! k := deref (snd r) in
          if page =? startpage then
            let! bytes := pf_bytes k offset remain in
            if PAGE_SIZE - offset <=? remain then
              let copy := PAGE_SIZE - offset in
              read_loop fuel' o startpage endpage (page + 1) offset count (count - copy)
                (acc ++ take (Z.to_nat copy) bytes)
            else ret (0, acc ++ bytes)
          else
            let remain' := if page <? endpage - 1 then PAGE_SIZE else remain in
            let! bytes := pf_bytes k 0 remain' in
            read_loop fuel' o startpage endpage (page + 1) offset count (count - remain') (acc ++ bytes)
    end
  else ret (0, acc).

(** The value returned and the bytes stored in [buf]. *)
Definition vmmap_read (vaddr count : Z) : M vms (Z * list Z) :=
  if count =? 0 then ret (0, [])
  else
    let! l := gets vmm_list in
    match vmmap_lookup l (ADDR_TO_PN vaddr) with
    | None => ret (- EFAULT, [])
    | Some a =>
        let! o := deref (vma_obj a) in
        let '(startpage, endpage) := copy_pages a vaddr count in
        mm_call (read_loop (S (Z.to_nat (endpage - startpage))) o startpage endpage startpage
                   (PAGE_OFFSET vaddr) count count [])
    end.

Fixpoint write_loop (fuel : nat) (o startpage endpage page offset count remain : Z) (buf : list Z) : M mm Z :=
  if page <? endpage then
    match fuel with
    | O => stop Diverge
    | S fuel' =>
        let! r := pframe_lookup o page true in
        if fst r <? 0 then ret (fst r)
        else
          let! k := deref (snd r) in
          if page =? startpage then
            pf_store k offset (take (Z.to_nat remain) buf) ;;;
            if remain <=? PAGE_SIZE - offset then ret 0
            else
              let copy := PAGE_SIZE - offset in
              pframe_dirty k ;;;
              write_loop fuel' o startpage endpage (page + 1) offset count (count - copy) (drop (Z.to_nat copy) buf)
          else
            pf_store k 0 (take (Z.to_nat remain) buf) ;;;
            pframe_dirty k ;;;
            write_loop fuel' o startpage endpage (page + 1) offset count (count - remain) (drop (Z.to_nat remain) buf)
    end
  else ret 0.

Definition vmmap_write (vaddr : Z) (buf : list Z) : M vms Z :=
  let count := Z.of_nat (length buf) in
  if count =? 0 then ret 0
  else
    let! l := gets vmm_list in
    match vmmap_lookup l (ADDR_TO_PN vaddr) with
    | None => ret (- EFAULT)
    | Some a =>
        let! o := deref (vma_obj a) in
        let '(startpage, endpage) := copy_pages a vaddr count in
        mm_call (write_loop (S (Z.to_nat (endpage - startpage))) o startpage endpage startpage
                   (PAGE_OFFSET vaddr) count count buf)
    end.

Definition copy_from_user (uaddr nbytes : Z) : M pstate (Z * list Z) :=
  let! l := gets (fun s => vmm_list (p_vm s)) in
  if negb (range_perm l uaddr nbytes PROT_READ) then ret (- EFAULT, [])
  else vm_call (vmmap_read uaddr nbytes).

Definition copy_to_user (uaddr : Z) (bytes : list Z) : M pstate Z :=
  let! l := gets (fun s => vmm_list (p_vm s)) in
  if negb (range_perm l uaddr (Z.of_nat (length bytes)) PROT_WRITE) then ret (- EFAULT)
  else vm_call (vmmap_write uaddr bytes).

(** ** Page faults *)

Definition FAULT_WRITE : Z := 2.
Definition FAULT_EXEC : Z := 16.
Definition PT_PRESENT : Z := 1.
Definition PT_WRITE : Z := 2.
Definition PT_USER : Z := 4.
Definition PD_PRESENT : Z := 1.
Definition PD_WRITE : Z := 2.
Definition PD_USER : Z := 4.

(** The page table for entry [index] of the directory: one that is there gets the
    flags added, a missing one is allocated if memory can be had. *)
Definition pt_get_table (index pdflags : Z) : M vms bool :=
  let! d := gets pd in
  match pd_tables d !! index with
  | Some fl => modify (set_pd (MkPd (pd_ptes d) (<[index := Z.lor fl pdflags]> (pd_tables d)) (pd_mem d))) ;;; ret true
  | None =>
      match pd_mem d with
      | true :: more =>
          KASSERT (Z.land pdflags (PAGE_SIZE - 1) =? pdflags) ;;;
          modify (set_pd (MkPd (pd_ptes d) (<[index := pdflags]> (pd_tables d)) more)) ;;; ret true
      | _ => modify (set_pd (MkPd (pd_ptes d) (pd_tables d) (tail (pd_mem d)))) ;;; ret false
      end
  end.

Definition pt_map (vaddr paddr pdflags ptflags : Z) : M vms Z :=
  KASSERT (PAGE_ALIGNED vaddr && PAGE_ALIGNED paddr) ;;;
  KASSERT ((USER_MEM_LOW <=? vaddr) && (vaddr <? USER_MEM_HIGH)) ;;;
  let! table := pt_get_table (vaddr_to_pdindex vaddr) pdflags in
  if negb table then ret (- ENOMEM)
  else
    KASSERT (Z.land ptflags (PAGE_SIZE - 1) =? ptflags) ;;;
    modify (fun s => set_ptes (<[ADDR_TO_PN vaddr := Z.lor paddr ptflags]> (ptes s)) s) ;;;
    ret 0.

(** [do_exit(EFAULT)] does not return; the value of [pt_map] is not looked at. *)
Inductive fault_result : Type :=
| Killed (status : Z)
| Resumed.

Definition handle_pagefault (vaddr cause : Z) : M vms fault_result :=
  let vfn := ADDR_TO_PN vaddr in
  let! l := gets vmm_list in
  match vmmap_lookup l vfn with
  | None => ret (Killed EFAULT)
  | Some v =>
      if vfn =? 0 then ret (Killed EFAULT)
      else if has cause FAULT_WRITE && negb (has (vma_prot v) PROT_WRITE) then ret (Killed EFAULT)
      else if has cause FAULT_EXEC && negb (has (vma_prot v) PROT_EXEC) then ret (Killed EFAULT)
      else if negb (has (vma_prot v) PROT_READ) then ret (Killed EFAULT)
      else
        let pagenum := u32 (vfn - vma_start v + vma_off v) in
        let! o := deref (vma_obj v) in
        if Z.land cause FAULT_WRITE =? FAULT_WRITE then
          let! r := mm_call (pframe_lookup o pagenum true) in
          if fst r <? 0 then ret (Killed EFAULT)
          else
            let! k := deref (snd r) in
            mm_call (pframe_dirty k) ;;;
            pt_map (PAGE_ALIGN_DOWN vaddr) (PAGE_ALIGN_DOWN (pf_paddr k))
              (Z.lor (Z.lor PD_PRESENT PD_USER) PD_WRITE) (Z.lor (Z.lor PT_PRESENT PT_USER) PT_WRITE) ;;;
            ret Resumed
        else
          let! r := mm_call (pframe_lookup o pagenum false) in
          if fst r <? 0 then ret (Killed EFAULT)
          else
            let! k := deref (snd r) in
            pt_map (PAGE_ALIGN_DOWN vaddr) (PAGE_ALIGN_DOWN (pf_paddr k))
              (Z.lor PD_PRESENT PD_USER) (Z.lor PT_PRESENT PT_USER) ;;;
            ret Resumed
  end.
End mmap.

(** ** Access checks by page *)

(** What [addr_perm] asks of a page. *)
Definition page_perm (l : list vmarea) (perm pn : Z) : Prop :=
  exists a, vmmap_lookup l pn = Some a /\
    forall f, f ∈ [PROT_READ; PROT_WRITE; PROT_EXEC] -> has perm f = true -> has (vma_prot a) f = true.

Lemma addr_perm_spec l vaddr perm : addr_perm l vaddr perm = true <-> page_perm l perm (ADDR_TO_PN vaddr).
Proof.
  unfold addr_perm, page_perm. destruct (vmmap_lookup l (ADDR_TO_PN vaddr)) as [a|]; [|naive_solver].
  assert (Hc : (forall f, f ∈ [PROT_READ; PROT_WRITE; PROT_EXEC] -> has perm f = true -> has (vma_prot a) f = true) <->
    (has perm PROT_READ = true -> has (vma_prot a) PROT_READ = true) /\
    (has perm PROT_WRITE = true -> has (vma_prot a) PROT_WRITE = true) /\
    (has perm PROT_EXEC = true -> has (vma_prot a) PROT_EXEC = true)).
  { split; [intros Hf; split_and!; apply Hf; set_solver|]. intros (H1 & H2 & H3) f Hf.
    repeat setoid_rewrite elem_of_cons in Hf. destruct Hf as [->|[->|[->|Hf%not_elem_of_nil]]]; done. }
  transitivity ((has perm PROT_READ = true -> has (vma_prot a) PROT_READ = true) /\
    (has perm PROT_WRITE = true -> has (vma_prot a) PROT_WRITE = true) /\
    (has perm PROT_EXEC = true -> has (vma_prot a) PROT_EXEC = true)); [|naive_solver].
  destruct (has perm PROT_READ), (has perm PROT_WRITE), (has perm PROT_EXEC),
    (has (vma_prot a) PROT_READ), (has (vma_prot a) PROT_WRITE), (has (vma_prot a) PROT_EXEC); simpl; naive_solver.
Qed.

Lemma range_perm_loop_spec n l vaddr temp perm :
  range_perm_loop n l vaddr temp perm = true <->
  forall i, temp <= i < temp + Z.of_nat n -> addr_perm l (u32 (vaddr + i)) perm = true.
Proof.
  revert temp. induction n as [|n IH]; intros temp; simpl; [split; [lia|done]|].
  destruct (addr_perm l (u32 (vaddr + temp)) perm) eqn:E.
  - rewrite IH. split; intros Hi i Hr.
    + destruct (decide (i = temp)) as [->|]; [done|]. apply Hi. lia.
    + apply Hi. lia.
  - split; [done|]. intros Hi. rewrite Hi in E; [done|lia].
Qed.

Lemma range_perm_pages l vaddr len perm :
  0 <= vaddr -> 0 <= len -> vaddr + len <= two32 ->
  range_perm l vaddr len perm = true <->
  forall pn, vaddr < 4096 * (pn + 1) -> 4096 * pn < vaddr + len -> 0 < len -> page_perm l perm pn.
Proof.
  intros Hv Hl Hr. unfold range_perm, two32 in *. rewrite range_perm_loop_spec. rewrite Z2Nat.id by done.
  split.
  - intros Hi pn H1 H2 H3. set (i := Z.max 0 (4096 * pn - vaddr)).
    assert (Hri : 0 <= i < 0 + len) by lia. specialize (Hi i Hri). apply addr_perm_spec in Hi.
    rewrite (u32_small (vaddr + i)) in Hi by (unfold is_u32, two32; lia).
    rewrite ADDR_TO_PN_div, u32_small in Hi by (unfold is_u32, two32; lia).
    replace ((vaddr + i) / 4096) with pn in Hi; [done|]. unfold i. dlia.
  - intros Hp i Hi. rewrite (u32_small (vaddr + i)) by (unfold is_u32, two32; lia).
    apply addr_perm_spec. rewrite ADDR_TO_PN_div, u32_small by (unfold is_u32, two32; lia).
    apply Hp; [dlia|dlia|lia].
Qed.

(** ** Dirtying a page *)

Section dirty.
Context `{FileOps}.

Lemma pframe_dirty_data k p ob s :
  mm_ok s -> pframes s !! k = Some p -> objs s !! fst k = Some ob -> mmo_ops ob <> Vnode ->
  exists s' p', pframe_dirty k s = Ret (0, s') /\ objs s' = objs s /\
    pframes s' = <[k := p']> (pframes s) /\ pf_data p' = pf_data p.
Proof.
  intros Hok Hk Ho Hkind. destruct (ok_pf _ Hok _ _ Hk) as (Hb & Hpc & _). apply Z.leb_le in Hpc.
  unfold pframe_dirty. rewrite (bind_eq _ _ _ _ _ (pf_get_eq _ _ _ Hk)), bind_assert by (by rewrite Hb).
  rewrite (bind_eq _ _ _ _ _ (pf_set_eq _ _ _ _ Hk)).
  erewrite bind_eq by (apply obj_get_eq; exact Ho).
  assert (exists s1 p1, (match mmo_ops ob with
            | Anon => anon_dirtypage k | Shadow => shadow_dirtypage k | Vnode => file_dirtypage (fst k) k
            end) (set_pframes <[k := pframe_set_busy true p]> s) = Ret (0, s1) /\
      objs s1 = objs s /\ pframes s1 = <[k := p1]> (pframes s) /\ pf_data p1 = pf_data p) as (s1 & p1 & E & Eo & Ep & Ed).
  { destruct (mmo_ops ob); [| |done]; unfold shadow_dirtypage, anon_dirtypage, pframe_pin;
      (erewrite bind_eq by (apply pf_get_eq; simpl; by rewrite lookup_insert_eq)); simpl;
      (destruct (Z.eqb_spec (pf_pincount p) 0) as [Hz|Hz];
       [rewrite bind_bind; (erewrite bind_eq by (apply pf_get_eq; simpl; by rewrite lookup_insert_eq)); simpl;
        rewrite bind_bind, bind_assert by done; rewrite Hz; simpl; rewrite bind_bind, bind_modify;
        (erewrite bind_eq by (apply pf_set_eq; simpl; by rewrite lookup_insert_eq))
       |rewrite bind_ret]);
      (erewrite bind_eq by (apply pf_set_eq; simpl; by rewrite ?lookup_insert_eq));
      eexists _, _; (split; [done|]); simpl; rewrite ?insert_insert_eq; done. }
  rewrite (bind_eq _ _ _ _ _ E). simpl.
  rewrite (bind_eq _ _ _ _ _ (pf_set_eq k p1 _ s1 ltac:(rewrite Ep; by rewrite lookup_insert_eq))).
  erewrite bind_eq by (apply pf_set_eq; simpl; by rewrite lookup_insert_eq).
  eexists _, _. split; [done|]. simpl. rewrite Ep, !insert_insert_eq. done.
Qed.
End dirty.

Lemma land_2 c : Z.land c 2 = if Z.testbit c 1 then 2 else 0.
Proof.
  apply Z.bits_inj'. intros n Hn. rewrite Z.land_spec.
  assert (H2 : Z.testbit 2 n = (n =? 1)).
  { change 2 with (2 ^ 1). rewrite Z.pow2_bits_eqb by lia. apply Z.eqb_sym. }
  rewrite H2. destruct (Z.eqb_spec n 1) as [->|Hne].
  - destruct (Z.testbit c 1); reflexivity.
  - rewrite andb_false_r. destruct (Z.testbit c 1); [|by rewrite Z.bits_0].
    by rewrite H2.
Qed.

Lemma write_fault_eq c : (Z.land c FAULT_WRITE =? FAULT_WRITE) = has c FAULT_WRITE.
Proof. unfold has, FAULT_WRITE. rewrite land_2. by destruct (Z.testbit c 1). Qed.

Lemma PAGE_ALIGN_DOWN_aligned x : PAGE_ALIGNED (PAGE_ALIGN_DOWN x) = true.
Proof.
  unfold PAGE_ALIGNED, PAGE_SIZE. rewrite PAGE_ALIGN_DOWN_eq. pose proof (u32_range x) as Hr. unfold two32 in Hr.
  rewrite u32_small by (unfold is_u32, two32; dlia). apply Z.eqb_eq. rewrite Z.mul_comm. by apply Z.mod_mul.
Qed.

Definition perm_bits_ok (cause prot : Z) : bool :=
  implb (has cause FAULT_WRITE) (has prot PROT_WRITE) && implb (has cause FAULT_EXEC) (has prot PROT_EXEC)
  && has prot PROT_READ.

(** [pt_map] finds a page table for the address, or memory for one. *)
Definition table_ready (vaddr : Z) (d : pagedir) : bool :=
  match pd_tables d !! vaddr_to_pdindex vaddr with
  | Some _ => true
  | None => match pd_mem d with true :: _ => true | _ => false end
  end.

Section fault.
Context `{FileOps}.
Variable pf_paddr : pfid -> Z.

Definition map_entry (vaddr e : Z) (s s' : vms) : Prop :=
  if table_ready vaddr (pd s) then ptes s' = <[ADDR_TO_PN vaddr := e]> (ptes s) else ptes s' = ptes s.

Lemma pt_map_ok vaddr k pdflags flags s :
  USER_MEM_LOW <= vaddr < USER_MEM_HIGH -> Z.land pdflags 4095 = pdflags -> Z.land flags 4095 = flags ->
  exists d, pt_map (PAGE_ALIGN_DOWN vaddr) (PAGE_ALIGN_DOWN (pf_paddr k)) pdflags flags s =
      Ret (if table_ready vaddr (pd s) then 0 else - ENOMEM, set_pd d s) /\
    map_entry vaddr (Z.lor (PAGE_ALIGN_DOWN (pf_paddr k)) flags) s (set_pd d s).
Proof.
  intros Hv Hpf Hf. unfold USER_MEM_LOW, USER_MEM_HIGH in *. unfold pt_map.
  rewrite !PAGE_ALIGN_DOWN_aligned, bind_assert by done.
  assert (Hu : u32 vaddr = vaddr) by (apply u32_small; unfold is_u32, two32; lia).
  assert (Epn : ADDR_TO_PN (PAGE_ALIGN_DOWN vaddr) = ADDR_TO_PN vaddr).
  { rewrite (PAGE_ALIGN_DOWN_eq vaddr), Hu, (ADDR_TO_PN_div vaddr), Hu.
    rewrite ADDR_TO_PN_div, u32_small by (unfold is_u32, two32; dlia).
    by rewrite Z.mul_comm, Z.div_mul. }
  rewrite bind_assert.
  2: { rewrite (PAGE_ALIGN_DOWN_eq vaddr), Hu. unfold USER_MEM_LOW, USER_MEM_HIGH. rewrite andb_true_iff. dlia. }
  unfold map_entry, table_ready, pt_get_table, vaddr_to_pdindex. rewrite Epn, bind_bind, bind_gets.
  destruct (pd_tables (pd s) !! (ADDR_TO_PN vaddr / PT_ENTRY_COUNT)) as [fl|].
  - rewrite bind_bind, bind_modify, bind_ret. simpl. rewrite bind_assert by (apply Z.eqb_eq; exact Hf).
    rewrite bind_modify. by eexists.
  - destruct (pd_mem (pd s)) as [|[|] more]; simpl; rewrite bind_bind.
    + rewrite bind_modify, bind_ret. by eexists.
    + rewrite bind_assert by (apply Z.eqb_eq; exact Hpf). rewrite bind_bind, bind_modify, bind_ret. simpl.
      rewrite bind_assert by (apply Z.eqb_eq; exact Hf). rewrite bind_modify. by eexists.
    + rewrite bind_modify, bind_ret. by eexists.
Qed.

Lemma handle_pagefault_denied vaddr cause s :
  (vmmap_lookup (vmm_list s) (ADDR_TO_PN vaddr) = None \/
   exists a, vmmap_lookup (vmm_list s) (ADDR_TO_PN vaddr) = Some a /\ perm_bits_ok cause (vma_prot a) = false) ->
  handle_pagefault pf_paddr vaddr cause s = Ret (Killed EFAULT, s).
Proof.
  unfold handle_pagefault, perm_bits_ok. rewrite bind_gets. intros [->|(a & -> & Hp)]; [done|].
  destruct (ADDR_TO_PN vaddr =? 0); [done|].
  destruct (has cause FAULT_WRITE), (has cause FAULT_EXEC), (has (vma_prot a) PROT_WRITE),
    (has (vma_prot a) PROT_EXEC), (has (vma_prot a) PROT_READ); simpl in *; done.
Qed.

Lemma handle_pagefault_allowed vaddr cause s a o ol d :
  USER_MEM_LOW <= vaddr < USER_MEM_HIGH ->
  vmmap_lookup (vmm_list s) (ADDR_TO_PN vaddr) = Some a -> off_ok a -> perm_bits_ok cause (vma_prot a) = true ->
  mm_ok (vmm s) -> vma_obj a = Some o -> chain (vmm s) o ol ->
  let pn := vma_off a + (ADDR_TO_PN vaddr - vma_start a) in
  views (vmm s) o pn d -> (2 <= page_pool (vmm s))%nat ->
  exists s' k p, handle_pagefault pf_paddr vaddr cause s = Ret (Resumed, s') /\
    pframes (vmm s') !! k = Some p /\ pf_data p = d /\ vmm_list s' = vmm_list s /\
    (has cause FAULT_WRITE = true -> k = (o, pn)) /\
    map_entry vaddr (Z.lor (PAGE_ALIGN_DOWN (pf_paddr k)) (if has cause FAULT_WRITE then 7 else 5)) s s'.
Proof.
  intros Hv Hl Hoff Hp Hok Eo Ch pn V Hpool. pose proof (lookup_some_in _ _ _ Hl) as [_ Hcov].
  assert (Epn : u32 (ADDR_TO_PN vaddr - vma_start a + vma_off a) = pn).
  { unfold pn, off_ok in *. rewrite u32_small; unfold is_u32; lia. }
  assert (Hnz : ADDR_TO_PN vaddr <> 0).
  { unfold USER_MEM_LOW in Hv. rewrite ADDR_TO_PN_div, u32_small by (unfold is_u32, two32, USER_MEM_HIGH in *; lia). dlia. }
  unfold handle_pagefault. rewrite bind_gets, Hl, (proj2 (Z.eqb_neq _ _) Hnz), write_fault_eq.
  unfold perm_bits_ok in Hp. rewrite !andb_true_iff, !implb_true_iff in Hp. destruct Hp as [[Hw Hx] Hr]. rewrite Hr.
  destruct (has cause FAULT_WRITE) eqn:Ew.
  - rewrite (Hw eq_refl). simpl.
    assert ((has cause FAULT_EXEC && negb (has (vma_prot a) PROT_EXEC)) = false) as ->.
    { destruct (has cause FAULT_EXEC); [by rewrite Hx|done]. }
    rewrite Epn, Eo, bind_deref.
    destruct (pframe_lookup_write o pn ol d (vmm s) Hok Ch V Hpool) as (m1 & p & E & G & Hpf & Hd).
    unfold mm_call at 1. unfold zoom at 1.
    rewrite (bind_eq _ _ _ (0, Some (o, pn)) (set_vmm m1 s)) by (by rewrite E). simpl. rewrite bind_ret.
    assert (exists ob, objs m1 !! o = Some ob /\ mmo_ops ob <> Vnode) as (ob & Ho & Hk).
    { destruct (chain_kind _ _ _ o (grow_chain _ _ _ _ G Ch)); [|eauto].
      destruct (chain_hd _ _ _ Ch) as [? ->]. set_solver. }
    destruct (pframe_dirty_data (o, pn) p ob m1 (gr_ok _ _ G) Hpf Ho Hk) as (m2 & p' & Ed & _ & Ep & Edd).
    unfold mm_call at 1. unfold zoom at 1.
    rewrite (bind_eq _ _ _ 0 (set_vmm m2 (set_vmm m1 s))).
    2: { change (vmm (set_vmm m1 s)) with m1. by rewrite Ed. }
    destruct (pt_map_ok vaddr (o, pn) 7 7 (set_vmm m2 (set_vmm m1 s)) Hv eq_refl eq_refl) as (dd & Em & Hm).
    rewrite (bind_eq _ _ _ _ _ Em).
    eexists _, (o, pn), p'. split; [done|]. split; [simpl; by rewrite Ep, lookup_insert_eq|]. split_and!; congruence || done.
  - simpl. assert ((has cause FAULT_EXEC && negb (has (vma_prot a) PROT_EXEC)) = false) as ->.
    { destruct (has cause FAULT_EXEC); [by rewrite Hx|done]. }
    rewrite Epn, Eo, bind_deref.
    destruct (pframe_lookup_read o pn ol d (vmm s) Hok Ch V) as (m1 & r & k & E & [G Hr'] & Hm).
    destruct Hr' as [(-> & x & p & -> & Hpf & Hd)|[-> _]]; [|rewrite Hm in Hpool by done; lia].
    unfold mm_call at 1. unfold zoom at 1.
    rewrite (bind_eq _ _ _ (0, Some (x, pn)) (set_vmm m1 s)) by (by rewrite E). simpl. rewrite bind_ret.
    destruct (pt_map_ok vaddr (x, pn) 5 5 (set_vmm m1 s) Hv eq_refl eq_refl) as (dd & Em & Hme).
    rewrite (bind_eq _ _ _ _ _ Em).
    eexists _, (x, pn), p. split; [done|]. split_and!; done.
Qed.
End fault.

(** ** Theorems *)

(** [range_perm], which tests every byte, grants an access exactly when
    every page that intersects the range is mapped with all the requested
    permissions (read, write, execute); so [copy_from_user] and
    [copy_to_user] refuse everything else with -EFAULT. *)
Theorem range_perm_by_page l vaddr len perm :
  0 <= vaddr -> 0 <= len -> vaddr + len <= two32 ->
  (range_perm l vaddr len perm = true <->
   forall pn, vaddr < 4096 * (pn + 1) -> 4096 * pn < vaddr + len -> 0 < len -> page_perm l perm pn).
Proof. apply range_perm_pages. Qed.

Lemma range_perm_by_page_witness :
  range_perm demo_areas 4194310 8190 PROT_READ = true <->
   forall pn, 4194310 < 4096 * (pn + 1) -> 4096 * pn < 4194310 + 8190 -> 0 < 8190 -> page_perm demo_areas PROT_READ pn.
Proof. apply (range_perm_by_page demo_areas 4194310 8190 PROT_READ); vm_compute; discriminate. Defined.

(** C33: page faults.  A fault at an unmapped address, or one whose area does
    not permit the access, kills the process with EFAULT and changes nothing.
    Otherwise, with two page frames free for the area's object (anonymous
    memory and shadow objects over it), the process resumes, and a frame that
    holds exactly the contents the area's object chain gives the faulting page is
    resident, which after a write is a page of the area's own object.  If the page
    table is there, or memory can be had for it, the faulting page is mapped to that
    frame, writable only if the fault was a write, and no other page-table entry
    changes; if not, no entry changes: the process resumes without a mapping (the
    failure of [pt_map] is ignored) and will fault again. *)
Theorem handle_pagefault_correct `{FileOps} pf_paddr vaddr cause s :
  USER_MEM_LOW <= vaddr < USER_MEM_HIGH -> mm_ok (vmm s) ->
  match vmmap_lookup (vmm_list s) (ADDR_TO_PN vaddr) with
  | None => handle_pagefault pf_paddr vaddr cause s = Ret (Killed EFAULT, s)
  | Some a =>
      if perm_bits_ok cause (vma_prot a) then
        forall o ol d, off_ok a -> vma_obj a = Some o -> chain (vmm s) o ol -> (2 <= page_pool (vmm s))%nat ->
        let pn := vma_off a + (ADDR_TO_PN vaddr - vma_start a) in
        views (vmm s) o pn d ->
        exists s' k p, handle_pagefault pf_paddr vaddr cause s = Ret (Resumed, s') /\
          pframes (vmm s') !! k = Some p /\ pf_data p = d /\ vmm_list s' = vmm_list s /\
          (has cause FAULT_WRITE = true -> k = (o, pn)) /\
          if table_ready vaddr (pd s) then
            ptes s' = <[ADDR_TO_PN vaddr := Z.lor (PAGE_ALIGN_DOWN (pf_paddr k)) (if has cause FAULT_WRITE then 7 else 5)]> (ptes s)
          else ptes s' = ptes s
      else handle_pagefault pf_paddr vaddr cause s = Ret (Killed EFAULT, s)
  end.
Proof.
  intros Hv Hok. destruct (vmmap_lookup (vmm_list s) (ADDR_TO_PN vaddr)) as [a|] eqn:El.
  - destruct (perm_bits_ok cause (vma_prot a)) eqn:Ep.
    + intros o ol d Hoff Eo Ch Hpool pn V. by eapply handle_pagefault_allowed.
    + apply handle_pagefault_denied. eauto.
  - apply handle_pagefault_denied. auto.
Qed.

Lemma handle_pagefault_correct_witness :
  exists s' k p, @handle_pagefault no_files (fun _ => 8192) 4214784 FAULT_WRITE demo_vm = Ret (Resumed, s') /\
    pframes (vmm s') !! k = Some p /\ pf_data p = page_of 7 /\ k = (10, 5) /\ ptes s' !! 1029 = Some 8199.
Proof.
  pose proof (@handle_pagefault_correct no_files (fun _ => 8192) 4214784 FAULT_WRITE demo_vm) as Hx.
  specialize (Hx ltac:(split; [discriminate|reflexivity]) Mmobj.demo_ok). simpl in Hx.
  destruct (Hx 10 [10; 1] (page_of 7)) as (s' & k & p & E & H1 & H2 & _ & H3 & H4).
  - split; vm_compute; discriminate.
  - reflexivity.
  - exact Mmobj.demo_chain.
  - lia.
  - exact Mmobj.demo_view.
  - exists s', k, p. split; [exact E|]. split; [exact H1|]. split; [exact H2|]. split; [apply H3; reflexivity|].
    rewrite H4. reflexivity.
Defined.

(** ** munmap(2) *)

(** [do_munmap] rejects a misaligned address, an empty or oversized length
    and a range outside user memory with -EINVAL and no effect; for a range
    inside user memory it returns 0 and unmaps exactly the pages that
    intersect it (the same assumptions on a split area as for
    [vmmap_remove]). *)
Theorem do_munmap_exact `{FileOps} addr len Ls s :
  0 <= addr < two32 -> 0 <= len -> addr + len < two32 -> vm_inv Ls (p_vm s) ->
  (forall a, a ∈ vmm_list (p_vm s) -> private_obj (vmm (p_vm s)) a /\ vma_pool (p_vm s) <> []) ->
  if PAGE_ALIGNED addr && (0 <? len) && (USER_MEM_LOW <=? addr) && (addr + len <=? USER_MEM_HIGH) then
    exists s' Ls', do_munmap addr len s = Ret (0, s') /\ vm_inv Ls' (p_vm s') /\
      forall v, translate (vmm_list (p_vm s')) v =
        if decide (addr < 4096 * (v + 1) /\ 4096 * v < addr + len) then None
        else translate (vmm_list (p_vm s)) v
  else do_munmap addr len s = Ret (- EINVAL, s).
Proof.
  intros Ha Hl Hw Hinv Hpr. unfold two32 in *. unfold do_munmap.
  destruct (PAGE_ALIGNED addr) eqn:Eal; [|done]. simpl.
  destruct (Z.ltb_spec 0 len) as [Hl0|Hl0]; simpl; [|by rewrite (proj2 (Z.leb_le _ _) Hl0)].
  rewrite (proj2 (Z.leb_gt _ _) Hl0). simpl.
  rewrite (u32_small (addr + len)) by (unfold is_u32, two32; lia).
  destruct (Z.leb_spec USER_MEM_LOW addr) as [Hlo|Hlo]; simpl.
  2: { rewrite (proj2 (Z.ltb_lt _ _) Hlo). simpl. by destruct (_ <? len). }
  rewrite (proj2 (Z.ltb_ge _ _) Hlo). simpl.
  destruct (Z.leb_spec (addr + len) USER_MEM_HIGH) as [Hhi|Hhi]; simpl.
  2: { rewrite (proj2 (Z.ltb_lt _ _) Hhi). by destruct (_ <? len). }
  rewrite (proj2 (Z.ltb_ge _ _) Hhi). rewrite (proj2 (Z.ltb_ge _ len)) by lia.
  unfold PAGE_ALIGNED, PAGE_SIZE in *. rewrite u32_small in Eal by (unfold is_u32, two32; lia).
  apply Z.eqb_eq in Eal. unfold USER_MEM_LOW, USER_MEM_HIGH in *.
  rewrite (u32_small (len - 1 + 4096)) by (unfold is_u32, two32; lia).
  rewrite ADDR_TO_PN_div, u32_small by (unfold is_u32, two32; lia).
  set (lo := addr / 4096). set (n := (len - 1 + 4096) / 4096).
  destruct (vmmap_remove_ok lo n Ls (p_vm s)) as (v' & Ls' & E & Hinv' & Ht & _).
  - rewrite LOW_PN_eq. unfold lo. dlia.
  - unfold n. dlia.
  - rewrite HIGH_PN_eq. unfold lo, n. dlia.
  - done.
  - intros a Hin _ _. by apply Hpr.
  - exists (set_vm v' s), Ls'. split_and!; [|done|].
    + unfold vm_call, zoom. by rewrite E.
    + intros v. simpl. rewrite Ht. apply decide_ext. unfold lo, n. dlia.
Qed.

Lemma do_munmap_exact_witness :
  exists s' Ls', @do_munmap no_files 4194304 40960 (MkP demo_vm ∅ 0 0) = Ret (0, s') /\ vm_inv Ls' (p_vm s').
Proof.
  pose proof (@do_munmap_exact no_files 4194304 40960 [[10; 1]; [20; 1]] (MkP demo_vm ∅ 0 0)) as H.
  destruct H as (s' & Ls' & E & Hinv & _).
  - split; [discriminate|reflexivity].
  - discriminate.
  - reflexivity.
  - exact demo_vm_inv.
  - intros a Ha. split; [|discriminate]. apply elem_of_cons in Ha as [->|Ha].
    + exists 10, (MkObj Shadow 1 0 [] (mmo_bottom_obj 1) (Some 1)), 1, (MkObj Anon 3 1 [5] (mmo_vmas []) None), [].
      repeat split; reflexivity.
    + apply list_elem_of_singleton in Ha as ->.
      exists 20, (MkObj Shadow 1 0 [] (mmo_bottom_obj 1) (Some 1)), 1, (MkObj Anon 3 1 [5] (mmo_vmas []) None), [].
      repeat split; reflexivity.
  - exists s', Ls'. exact (conj E Hinv).
Defined.

Lemma range_empty_panics lo n s :
  HIGH_PN < u32 (lo + n) -> vmmap_is_range_empty lo n s = Stop Assert.
Proof.
  intros Hlt. unfold vmmap_is_range_empty. rewrite (proj2 (Z.leb_gt _ _) Hlt).
  by rewrite andb_false_r.
Qed.

(** a user can make the kernel panic.  When [addr + len] wraps around 32
    bits the range check of [do_munmap] passes and the assertion of
    [vmmap_is_range_empty] fails; an aligned MAP_FIXED request that starts in
    user memory but ends beyond it gets through the checks of [do_mmap] and
    fails an assertion of [vmmap_map]. *)
Theorem vm_syscalls_can_panic `{FileOps} vn_mmap addr len prot s :
  PAGE_ALIGNED addr = true -> 0 < len <= USER_MEM_HIGH - USER_MEM_LOW ->
  (USER_MEM_LOW <= addr < two32 -> two32 <= addr + len -> do_munmap addr len s = Stop Assert) /\
  (USER_MEM_LOW <= addr <= USER_MEM_HIGH -> USER_MEM_HIGH < addr + len -> 0 <= prot < 8 ->
   do_mmap vn_mmap addr len prot (MAP_PRIVATE + MAP_FIXED + MAP_ANON) (-1) 0 s = Stop Assert).
Proof.
  intros Hal Hlen. unfold PAGE_ALIGNED, PAGE_SIZE, USER_MEM_LOW, USER_MEM_HIGH, two32 in *. split.
  - intros Ha Hw. unfold do_munmap. unfold PAGE_ALIGNED, PAGE_SIZE. rewrite Hal. simpl.
    rewrite (proj2 (Z.leb_gt _ _)) by lia. unfold USER_MEM_LOW, USER_MEM_HIGH.
    rewrite !(proj2 (Z.ltb_ge _ _)) by (unfold u32, two32; dlia). simpl.
    rewrite u32_small in Hal by (unfold is_u32, two32; lia). apply Z.eqb_eq in Hal.
    unfold vm_call, zoom, vmmap_remove, bind. rewrite range_empty_panics; [done|].
    unfold PAGE_SIZE. rewrite ADDR_TO_PN_div, HIGH_PN_eq.
    rewrite (u32_small addr), (u32_small (len - 1 + 4096)) by (unfold is_u32, two32; lia).
    rewrite u32_small by (unfold is_u32, two32; dlia). dlia.
  - intros Ha Hw Hp. unfold do_mmap. rewrite (proj2 (Z.leb_gt _ _)) by lia.
    unfold USER_MEM_LOW, USER_MEM_HIGH. rewrite (proj2 (Z.ltb_ge _ len)) by lia. simpl.
    rewrite (proj2 (Z.eqb_neq addr 0)) by lia. simpl.
    rewrite !(proj2 (Z.ltb_ge _ _)) by lia. simpl.
    rewrite u32_small in Hal by (unfold is_u32, two32; lia). apply Z.eqb_eq in Hal.
    unfold mmap_file. simpl. rewrite bind_ret. unfold vm_call, zoom, vmmap_map, PAGE_SIZE.
    rewrite (u32_small (len - 1 + 4096)) by (unfold is_u32, two32; lia).
    rewrite ADDR_TO_PN_div, (u32_small addr) by (unfold is_u32, two32; lia).
    unfold bind at 1. rewrite bind_assert by dlia.
    assert (Hprot : (Z.land (Z.lnot (Z.lor (Z.lor PROT_READ PROT_WRITE) PROT_EXEC)) prot =? 0) = true).
    { assert (prot = 0 \/ prot = 1 \/ prot = 2 \/ prot = 3 \/ prot = 4 \/ prot = 5 \/ prot = 6 \/ prot = 7) as Hc by lia.
      repeat destruct Hc as [->|Hc]; [reflexivity..|]. subst. reflexivity. }
    rewrite bind_assert by exact Hprot. rewrite bind_assert by reflexivity.
    rewrite bind_assert by (rewrite LOW_PN_eq; apply orb_true_iff; right; dlia).
    rewrite HIGH_PN_eq. rewrite (proj2 (Z.eqb_neq (addr / 4096) 0)) by dlia. simpl.
    rewrite (u32_small (addr / 4096 + _)) by (unfold is_u32, two32; dlia).
    by rewrite (proj2 (Z.leb_gt _ 786432)) by dlia.
Qed.

Lemma vm_syscalls_can_panic_witness :
  @do_munmap no_files 4294963200 8192 (MkP demo_vm ∅ 0 0) = Stop Assert /\
  @do_mmap no_files (fun _ _ => stop Undef) 3221221376 8192 3 (MAP_PRIVATE + MAP_FIXED + MAP_ANON) (-1) 0 (MkP demo_vm ∅ 0 0)
  = Stop Assert.
Proof.
  split.
  - refine (proj1 (@vm_syscalls_can_panic no_files (fun _ _ => stop Undef) 4294963200 8192 3 (MkP demo_vm ∅ 0 0) _ _) _ _);
      unfold USER_MEM_LOW, USER_MEM_HIGH, two32; [reflexivity|lia..].
  - refine (proj2 (@vm_syscalls_can_panic no_files (fun _ _ => stop Undef) 3221221376 8192 3 (MkP demo_vm ∅ 0 0) _ _) _ _ _);
      unfold USER_MEM_LOW, USER_MEM_HIGH, two32; [reflexivity|lia..].
Defined.
