(* ===== verification/Page.v ===== *)
(** * The physical page allocator (mm/page.c)

    A binary buddy allocator.  Each page group keeps a free list per order
    0..7 and, per order 1..7, a bitmap with one bit per pair of buddies of the
    order below: the bit is set when exactly one of the two is free.  The
    invariant says that the free blocks and the allocated ones partition the
    group's pages, that the bits and lists agree, and that no two buddies are
    both free; allocation and release keep it and move exactly the pages they
    are asked to move.  The contents of the pages (the poison written by
    [memset]) are not part of the state. *)

From S2P Require Import Prelude.

(** ** State *)

Record pagegroup : Type := MkGroup {
  pg_freelist : gmap nat (list Z);   (* order -> addresses, head first *)
  pg_map : gset (nat * Z);           (* the set bits: (order, index) *)
  pg_bits : gmap nat Z;              (* order -> bits its map has room for *)
  pg_baseaddr : Z;
  pg_endaddr : Z
}.

Record pages : Type := MkPages {
  pagegroup_list : list pagegroup;
  page_freecount : Z
}.

Definition freelist (g : pagegroup) (o : nat) : list Z := default [] (pg_freelist g !! o).
Definition set_freelist (o : nat) (l : list Z) (g : pagegroup) : pagegroup :=
  MkGroup (<[o := l]> (pg_freelist g)) (pg_map g) (pg_bits g) (pg_baseaddr g) (pg_endaddr g).
Definition set_map (m : gset (nat * Z)) (g : pagegroup) : pagegroup :=
  MkGroup (pg_freelist g) m (pg_bits g) (pg_baseaddr g) (pg_endaddr g).

(** An operation on the [i]th group of the list. *)
Definition in_group {A} (i : nat) (m : M pagegroup A) : M pages A := fun s =>
  match pagegroup_list s !! i with
  | None => Stop Undef
  | Some g =>
      match m g with
      | Ret (a, g') => Ret (a, MkPages (<[i := g']> (pagegroup_list s)) (page_freecount s))
      | Stop f => Stop f
      end
  end.

(** ** Bitmaps and free lists *)

Definition in_map (order : nat) (index : Z) (g : pagegroup) : bool :=
  match pg_bits g !! order with
  | Some c => (0 <=? index) && (index <? c)
  | None => false
  end.

Definition bit_flip (order : nat) (index : Z) : M pagegroup unit :=
  let! g := gets id in
  if in_map order index g
  then modify (set_map (if decide ((order, index) ∈ pg_map g)
                        then pg_map g ∖ {[(order, index)]} else pg_map g ∪ {[(order, index)]}))
  else stop Undef.

Definition bit_check (order : nat) (index : Z) : M pagegroup bool :=
  let! g := gets id in
  if in_map order index g then ret (bool_decide ((order, index) ∈ pg_map g)) else stop Undef.

Definition freelist_push (order : nat) (addr : Z) : M pagegroup unit :=
  modify (fun g => set_freelist order (addr :: freelist g order) g).

Definition freelist_pop (order : nat) : M pagegroup Z :=
  let! l := gets (fun g => freelist g order) in
  let! addr := deref (head l) in
  modify (set_freelist order (tail l)) ;;;
  ret addr.

(** [list_remove] of the link stored in the free page at [addr]: it must be on
    one of the free lists. *)
Definition freelist_remove (addr : Z) : M pagegroup unit :=
  let! g := gets id in
  if existsb (fun o => bool_decide (addr ∈ freelist g o)) (seq 0 PAGE_NSIZES)
  then modify (fun g => MkGroup (filter (fun a => a <> addr) <$> pg_freelist g)
                          (pg_map g) (pg_bits g) (pg_baseaddr g) (pg_endaddr g))
  else stop Undef.

(** [1 << order] *)
Definition npages_of (order : nat) : Z := 2 ^ Z.of_nat order.
(** [(1 << order) << PAGE_SHIFT] *)
Definition bytes_of (order : nat) : Z := npages_of order * PAGE_SIZE.

Definition _pagegroup_calculate_index (order : nat) (addr : Z) : M pagegroup Z :=
  let! g := gets id in
  KASSERT (PAGE_ALIGNED addr) ;;;
  KASSERT (order <? PAGE_NSIZES)%nat ;;;
  KASSERT ((pg_baseaddr g <=? addr) && (addr <? pg_endaddr g)) ;;;
  let offset := u32 (addr - pg_baseaddr g) in
  KASSERT (Z.land offset (npages_of order - 1) =? 0) ;;;
  ret (Z.shiftr (Z.shiftr offset (Z.of_nat order)) PAGE_SHIFT).

(** ** Splitting *)

Definition __page_split (order : nat) : M pagegroup unit :=
  KASSERT (0 <? order)%nat ;;;
  KASSERT (order <? PAGE_NSIZES)%nat ;;;
  let! l := gets (fun g => freelist g order) in
  KASSERT (negb (bool_decide (l = []))) ;;;
  let! target := freelist_pop order in
  (if (order <? PAGE_NSIZES - 1)%nat
   then let! index := _pagegroup_calculate_index (order + 1) target in
        bit_flip (order + 1) index
   else ret tt) ;;;
  let! index := _pagegroup_calculate_index order target in
  let! b := bit_check order index in
  KASSERT (negb b) ;;;
  let buddy := u32 (target + bytes_of (order - 1)) in
  freelist_push (order - 1) target ;;;
  freelist_push (order - 1) buddy.

(** [while (norder > order) { __page_split(group, norder); --norder; }] with
    [k = norder - order]. *)
Fixpoint split_down (k order : nat) : M pagegroup unit :=
  match k with
  | O => ret tt
  | S k' => __page_split (order + k) ;;; split_down k' order
  end.

(** The first group that has a free block of the order. *)
Fixpoint group_with (l : list pagegroup) (order : nat) : option nat :=
  match l with
  | [] => None
  | g :: l' => if decide (freelist g order = []) then S <$> group_with l' order else Some O
  end.

(** The two nested searches: orders upwards, groups in the order of the list. *)
Fixpoint find_bigger (l : list pagegroup) (norders : list nat) : option (nat * nat) :=
  match norders with
  | [] => None
  | norder :: norders' =>
      match group_with l norder with
      | Some i => Some (norder, i)
      | None => find_bigger l norders'
      end
  end.

(** ** Freeing *)

Fixpoint __page_join (fuel : nat) (order : nat) (addr : Z) : M pagegroup unit :=
  match fuel with
  | O => stop Diverge
  | S fuel' =>
      if (order <? PAGE_NSIZES - 1)%nat then
        let! index := _pagegroup_calculate_index (order + 1) addr in
        let! b := bit_check (order + 1) index in
        if b then ret tt
        else
          let! g := gets id in
          let offset := u32 (addr - pg_baseaddr g) in
          let sign := if Z.land (Z.shiftr (Z.shiftr offset PAGE_SHIFT) (Z.of_nat order)) 1 =? 0
                      then 1 else -1 in
          let buddy := u32 (addr + bytes_of order * sign) in
          KASSERT (Z.land offset (npages_of order - 1) =? 0) ;;;
          freelist_remove addr ;;;
          freelist_remove buddy ;;;
          let addr' := Z.min addr buddy in
          freelist_push (order + 1) addr' ;;;
          (if (order + 1 <? PAGE_NSIZES - 1)%nat
           then let! index := _pagegroup_calculate_index (order + 2) addr' in
                bit_flip (order + 2) index
           else ret tt) ;;;
          __page_join fuel' (order + 1) addr'
      else ret tt
  end.

Fixpoint _pagegroup_from_address (l : list pagegroup) (addr : Z) : option nat :=
  match l with
  | [] => None
  | g :: l' => if (pg_baseaddr g <=? addr) && (addr <? pg_endaddr g) then Some O
               else S <$> _pagegroup_from_address l' addr
  end.

Definition add_freecount (d : Z) : M pages unit :=
  modify (fun s => MkPages (pagegroup_list s) (u32 (page_freecount s + d))).

Definition _page_free_order (addr : Z) (order : nat) : M pages unit :=
  let! l := gets pagegroup_list in
  match _pagegroup_from_address l addr with
  | None => ret tt
  | Some i =>
      in_group i (freelist_push order addr) ;;;
      add_freecount (npages_of order) ;;;
      if (order <? PAGE_NSIZES - 1)%nat then
        in_group i (let! index := _pagegroup_calculate_index (order + 1) addr in
                    bit_flip (order + 1) index ;;;
                    __page_join PAGE_NSIZES order addr)
      else ret tt
  end.

(** The smallest order with [(1 << order) >= (int)npages]. *)
Fixpoint order_for (orders : list nat) (npages : Z) : option nat :=
  match orders with
  | [] => None
  | o :: orders' => if s32 npages <=? npages_of o then Some o else order_for orders' npages
  end.

Definition page_free_n (start npages : Z) : M pages unit :=
  match order_for (seq 0 PAGE_NSIZES) npages with
  | None => stop Assert
  | Some order => _page_free_order start order
  end.

Definition page_free (addr : Z) : M pages unit := _page_free_order addr 0.

(** ** Allocating *)

(** [slab_allocators_reclaim(0)] gives whole slabs back: the list holds the
    arguments of its calls of [page_free_n]. *)
Fixpoint reclaim (freed : list (Z * Z)) : M pages unit :=
  match freed with
  | [] => ret tt
  | (addr, npages) :: freed' => page_free_n addr npages ;;; reclaim freed'
  end.

(** Without the shadow daemon [num_retrys] is 0: the search is not repeated
    after the slab allocators have been asked to give pages back. *)
Definition _page_split (freed : list (Z * Z)) (order : nat) : M pages (option nat) :=
  let! l := gets pagegroup_list in
  match find_bigger l (seq (order + 1) (PAGE_NSIZES - (order + 1))) with
  | Some (norder, i) =>
      in_group i (split_down (norder - order) order ;;;
                  let! l := gets (fun g => freelist g order) in
                  KASSERT (negb (bool_decide (l = [])))) ;;;
      ret (Some i)
  | None => reclaim freed ;;; ret None
  end.

(** The [found:] part of [_page_alloc_order]. *)
Definition group_take (order : nat) : M pagegroup Z :=
  let! addr := freelist_pop order in
  (if (order <? PAGE_NSIZES - 1)%nat
   then let! index := _pagegroup_calculate_index (order + 1) addr in
        bit_flip (order + 1) index
   else ret tt) ;;;
  ret addr.

Definition page_take (order i : nat) : M pages (option Z) :=
  let! addr := in_group i (group_take order) in
  add_freecount (- npages_of order) ;;;
  ret (Some addr).

Definition _page_alloc_order (freed : list (Z * Z)) (order : nat) : M pages (option Z) :=
  let! l := gets pagegroup_list in
  match group_with l order with
  | Some i => page_take order i
  | None =>
      let! r := _page_split freed order in
      match r with
      | Some i => page_take order i
      | None => ret None
      end
  end.

Definition page_alloc (freed : list (Z * Z)) : M pages (option Z) := _page_alloc_order freed 0.

Definition page_alloc_n (freed : list (Z * Z)) (npages : Z) : M pages (option Z) :=
  match order_for (seq 0 PAGE_NSIZES) npages with
  | None => stop Assert
  | Some order => _page_alloc_order freed order
  end.

Definition page_free_count : M pages Z := gets page_freecount.

(** ** Set-up *)

Definition page_init : pages := MkPages [] 0.

(** [sizeof(struct pagegroup)]: eight list heads, eight map pointers, two
    addresses and a link. *)
Definition sizeof_pagegroup : Z := 112.

(** Bytes of the bitmap of an order. *)
Definition map_bytes (npages : Z) (order : nat) : Z :=
  let count := Z.shiftr npages (Z.of_nat order) in
  let count := u32 (8 * (u32 (count - 1) / 8) + 8) in
  Z.shiftr count 3.

(** The end of the pages after the bitmaps of orders 1..7 are carved out. *)
Definition carve_maps (npages end_ : Z) : Z :=
  foldl (fun e o => u32 (e - map_bytes npages o)) end_ (seq 1 (PAGE_NSIZES - 1)).

(** [npages & (1 << order)] pages are dropped at the end, for orders 0..6. *)
Definition drop_remainder (npages end_ : Z) : Z :=
  foldl (fun e o => if Z.testbit npages (Z.of_nat o) then u32 (e - bytes_of o) else e)
        end_ (seq 0 (PAGE_NSIZES - 1)).

(** [while (current < end)], one block of the largest order at a time. *)
Fixpoint fill_largest (fuel : nat) (current end_ : Z) (acc : list Z) : outcome (list Z) :=
  if current <? end_ then
    match fuel with
    | O => Stop Diverge
    | S fuel' => fill_largest fuel' (u32 (current + bytes_of (PAGE_NSIZES - 1))) end_ (current :: acc)
    end
  else Ret acc.

Definition _pagegroup_create (start end_ : Z) : outcome pagegroup :=
  let npages := Z.shiftr (u32 (end_ - start)) PAGE_SHIFT in
  let end1 := carve_maps npages (u32 (end_ - sizeof_pagegroup)) in
  let end2 := PAGE_ALIGN_DOWN end1 in
  let npages' := Z.shiftr (u32 (end2 - start)) PAGE_SHIFT in
  let end3 := drop_remainder npages' end2 in
  if u32 (end3 - start) mod npages_of (PAGE_NSIZES - 1) =? 0 then
    match fill_largest (S (Z.to_nat ((end3 - start) / bytes_of (PAGE_NSIZES - 1)))) start end3 [] with
    | Stop f => Stop f
    | Ret l => Ret (MkGroup (<[(PAGE_NSIZES - 1)%nat := l]> ∅) ∅
                      (list_to_map ((fun o => (o, 8 * map_bytes npages o)) <$> seq 1 (PAGE_NSIZES - 1)))
                      start end2)
    end
  else Stop Assert.

Definition page_add_range (start end_ : Z) : M pages unit := fun s =>
  match _pagegroup_create (PAGE_ALIGN_DOWN start) (PAGE_ALIGN_DOWN end_) with
  | Stop f => Stop f
  | Ret g =>
      if pg_baseaddr g <? pg_endaddr g
      then Ret (tt, MkPages (pagegroup_list s ++ [g])
                      (u32 (page_freecount s + ADDR_TO_PN (u32 (pg_endaddr g - pg_baseaddr g)))))
      else Ret (tt, s)
  end.

(** ** Blocks *)

(** The block [(o, i)] is the [i]th run of [2^o] pages of a group. *)
Abbreviation block := (nat * Z)%type (only parsing).

Definition inb (b : block) (p : Z) : Prop := p / npages_of b.1 = b.2.

#[export] Instance inb_dec (b : block) (p : Z) : Decision (inb b p) := decide (p / npages_of b.1 = b.2).

Definition valid (N : Z) (b : block) : Prop :=
  (b.1 < PAGE_NSIZES)%nat /\ 0 <= b.2 /\ (b.2 + 1) * npages_of b.1 <= N.

(** The blocks in [B] cut the first [N] pages into disjoint runs. *)
Record partition (N : Z) (B : block -> Prop) : Prop := {
  pt_valid : forall b, B b -> valid N b;
  pt_disj : forall b1 b2 p, B b1 -> B b2 -> inb b1 p -> inb b2 p -> b1 = b2;
  pt_cover : forall p, 0 <= p < N -> exists b, B b /\ inb b p
}.

Lemma npages_of_pos o : 0 < npages_of o.
Proof. unfold npages_of. apply Z.pow_pos_nonneg; lia. Qed.

Lemma npages_of_S o : npages_of (S o) = 2 * npages_of o.
Proof. unfold npages_of. rewrite Nat2Z.inj_succ. apply Z.pow_succ_r. lia. Qed.

Lemma npages_of_mono o o' : (o <= o')%nat -> npages_of o <= npages_of o'.
Proof. intros. unfold npages_of. apply Z.pow_le_mono_r; lia. Qed.

#[export] Hint Resolve npages_of_pos : weenix.

Lemma inb_children o i p : inb (S o, i) p <-> inb (o, 2 * i) p \/ inb (o, 2 * i + 1) p.
Proof.
  unfold inb. simpl. rewrite npages_of_S, Z.mul_comm, <- Z.div_div by (pose proof (npages_of_pos o); lia).
  dlia.
Qed.

Lemma inb_iff o i p : inb (o, i) p <-> i * npages_of o <= p < (i + 1) * npages_of o.
Proof.
  unfold inb. simpl. pose proof (npages_of_pos o). split.
  - intros <-. pose proof (Z.div_mod p (npages_of o)). pose proof (Z.mod_pos_bound p (npages_of o)). nia.
  - intros Hp. symmetry. apply (Z.div_unique _ _ _ (p - i * npages_of o)); nia.
Qed.

Lemma inb_self o i : inb (o, i) (i * npages_of o).
Proof. apply inb_iff. pose proof (npages_of_pos o). nia. Qed.

Lemma valid_children N o i :
  valid N (S o, i) -> valid N (o, 2 * i) /\ valid N (o, 2 * i + 1).
Proof.
  unfold valid. simpl. rewrite npages_of_S. pose proof (npages_of_pos o).
  intros (? & ? & ?). split_and!; try lia; nia.
Qed.

Lemma valid_parent N o i :
  valid N (o, 2 * i + 1) -> 0 <= i -> (S o < PAGE_NSIZES)%nat -> valid N (S o, i).
Proof. unfold valid. simpl. rewrite npages_of_S. intros (? & ? & ?) ? ?. split_and!; try lia; nia. Qed.

Lemma partition_split N (B B' : block -> Prop) o i :
  partition N B -> B (S o, i) ->
  (forall b, B' b <-> (B b /\ b <> (S o, i)) \/ b = (o, 2 * i) \/ b = (o, 2 * i + 1)) ->
  partition N B'.
Proof.
  intros [Hv Hd Hc] Hb Heq. destruct (valid_children _ _ _ (Hv _ Hb)) as [V0 V1]. split.
  - intros b. rewrite Heq. intros [[? _]|[->| ->]]; auto.
  - intros b1 b2 p H1%Heq H2%Heq P1 P2.
    assert (forall b, (b = (o, 2 * i) \/ b = (o, 2 * i + 1)) -> inb b p -> inb (S o, i) p) as Hup.
    { intros b [->| ->] Hin; apply inb_children; auto. }
    destruct H1 as [[H1 N1]|H1], H2 as [[H2 N2]|H2].
    + by apply (Hd _ _ p).
    + destruct N1. by apply (Hd _ _ p); auto; apply (Hup b2).
    + destruct N2. by apply (Hd _ _ p); auto; apply (Hup b1).
    + unfold inb in *. destruct H1 as [->| ->], H2 as [->| ->]; simpl in *; try done; lia.
  - intros p Hp. destruct (Hc p Hp) as (b & Hbb & Hin). destruct (decide (b = (S o, i))) as [->|Hne].
    + apply inb_children in Hin as [Hin|Hin]; [exists (o, 2 * i)|exists (o, 2 * i + 1)]; (split; [apply Heq; auto|done]).
    + exists b. split; [apply Heq; auto|done].
Qed.

Lemma partition_join N (B B' : block -> Prop) o i :
  partition N B -> (S o < PAGE_NSIZES)%nat -> 0 <= i -> B (o, 2 * i) -> B (o, 2 * i + 1) ->
  (forall b, B' b <-> (B b /\ b <> (o, 2 * i) /\ b <> (o, 2 * i + 1)) \/ b = (S o, i)) ->
  partition N B'.
Proof.
  intros [Hv Hd Hc] Ho Hi H0 H1 Heq. split.
  - intros b. rewrite Heq. intros [[? _]| ->]; [auto|]. apply valid_parent; auto.
  - intros b1 b2 p H1'%Heq H2'%Heq P1 P2.
    assert (forall b, B b -> b <> (o, 2 * i) -> b <> (o, 2 * i + 1) -> inb b p -> inb (S o, i) p -> False) as Hx.
    { intros b Hb N0 N1 Hin [Hp|Hp]%inb_children; [apply N0|apply N1]; by apply (Hd _ _ p). }
    destruct H1' as [(? & ? & ?)| ->], H2' as [(? & ? & ?)| ->]; [by apply (Hd _ _ p)| | |done].
    + exfalso; eauto.
    + exfalso; eauto.
  - intros p Hp. destruct (Hc p Hp) as (b & Hbb & Hin).
    destruct (decide (b = (o, 2 * i))) as [->|N0].
    { exists (S o, i). split; [apply Heq; auto|]. apply inb_children; auto. }
    destruct (decide (b = (o, 2 * i + 1))) as [->|N1].
    { exists (S o, i). split; [apply Heq; auto|]. apply inb_children; auto. }
    exists b. split; [apply Heq; auto|done].
Qed.

Lemma partition_iff N (B B' : block -> Prop) :
  partition N B -> (forall b, B' b <-> B b) -> partition N B'.
Proof.
  intros [Hv Hd Hc] Heq. split.
  - intros b Hb%Heq. auto.
  - intros b1 b2 p ?%Heq ?%Heq. by apply Hd.
  - intros p Hp. destruct (Hc p Hp) as (b & ? & ?). exists b. by rewrite Heq.
Qed.

(** No two buddies are both free. *)
Definition maximal (P : gset block) : Prop :=
  forall o i, (o < PAGE_NSIZES - 1)%nat -> (o, 2 * i) ∈ P -> (o, 2 * i + 1) ∈ P -> False.

Lemma maximal_sub P P' : P' ⊆ P -> maximal P -> maximal P'.
Proof. intros Hs Hm o i Ho H0 H1. apply (Hm o i Ho); set_solver. Qed.

(** ** What the lists and bitmaps represent *)

Definition blk (g : pagegroup) (b : block) : Z := pg_baseaddr g + b.2 * npages_of b.1 * PAGE_SIZE.

(** A group of [N] usable pages whose bitmaps are large enough. *)
Record geometry (N : Z) (g : pagegroup) : Prop := {
  ge_pages : 0 <= N /\ N mod 128 = 0;
  ge_base : 0 < pg_baseaddr g /\ pg_baseaddr g mod PAGE_SIZE = 0;
  ge_end : pg_baseaddr g + N * PAGE_SIZE <= pg_endaddr g < two32;
  ge_cap : forall o, (1 <= o < PAGE_NSIZES)%nat -> exists c, pg_bits g !! o = Some c /\ N / npages_of o <= c
}.

(** The free lists hold the blocks of [P], each once. *)
Record lists_ok (g : pagegroup) (P : gset block) : Prop := {
  lo_elem : forall o a, a ∈ freelist g o <-> exists i, (o, i) ∈ P /\ a = blk g (o, i);
  lo_nodup : forall o, NoDup (freelist g o)
}.

(** The bit of a pair of buddies is set when exactly one of them is free. *)
Definition bits_ok (m : gset (nat * Z)) (P : gset block) : Prop :=
  forall o i, (o < PAGE_NSIZES - 1)%nat -> (S o, i) ∈ m <-> ((o, 2 * i) ∈ P <-> (o, 2 * i + 1) ∉ P).

Definition live (P A : gset block) (b : block) : Prop := b ∈ P \/ b ∈ A.

Record ginv (N : Z) (g : pagegroup) (P A : gset block) : Prop := {
  gi_geo : geometry N g;
  gi_lists : lists_ok g P;
  gi_bits : bits_ok (pg_map g) P;
  gi_part : partition N (live P A);
  gi_disj : forall b, b ∈ P -> b ∈ A -> False
}.

(** Pages on the free lists. *)
Definition nfree (g : pagegroup) : Z :=
  foldr (fun o acc => npages_of o * Z.of_nat (length (freelist g o)) + acc) 0 (seq 0 PAGE_NSIZES).

Definition flip (b : nat * Z) (m : gset (nat * Z)) : gset (nat * Z) :=
  if decide (b ∈ m) then m ∖ {[b]} else m ∪ {[b]}.

Lemma elem_of_flip x b m : x ∈ flip b m <-> (if decide (x = b) then b ∉ m else x ∈ m).
Proof. unfold flip. destruct (decide (b ∈ m)), (decide (x = b)); set_solver. Qed.

Lemma freelist_set g o l o' : freelist (set_freelist o l g) o' = if decide (o' = o) then l else freelist g o'.
Proof.
  unfold freelist, set_freelist. simpl. destruct (decide (o' = o)) as [->|Hne].
  - by rewrite lookup_insert_eq.
  - by rewrite lookup_insert_ne by congruence.
Qed.

Lemma nfree_gen (f f' : nat -> Z) o d os :
  NoDup os -> o ∈ os -> f' o = f o + d -> (forall o', o' <> o -> f' o' = f o') ->
  foldr (fun o acc => f' o + acc) 0 os = foldr (fun o acc => f o + acc) 0 os + d.
Proof.
  intros Hnd Hin Hd Hother. induction os as [|x os IH]; [set_solver|].
  apply NoDup_cons in Hnd as [Hx Hnd]. simpl. destruct (decide (x = o)) as [->|Hne].
  - rewrite Hd. enough (foldr (fun o acc => f' o + acc) 0 os = foldr (fun o acc => f o + acc) 0 os) by lia.
    clear IH Hin Hnd. induction os as [|y os IH]; [done|]. simpl.
    rewrite Hother by set_solver. rewrite IH by set_solver. done.
  - rewrite Hother by done. rewrite IH by set_solver. lia.
Qed.

Lemma nfree_set g o l : (o < PAGE_NSIZES)%nat ->
  nfree (set_freelist o l g) = nfree g + npages_of o * (Z.of_nat (length l) - Z.of_nat (length (freelist g o))).
Proof.
  intros Ho. unfold nfree.
  rewrite (nfree_gen (fun o => npages_of o * Z.of_nat (length (freelist g o)))
             (fun o' => npages_of o' * Z.of_nat (length (freelist (set_freelist o l g) o'))) o
             (npages_of o * (Z.of_nat (length l) - Z.of_nat (length (freelist g o))))); [done|..].
  - apply NoDup_seq.
  - apply list_elem_of_In, in_seq. lia.
  - rewrite freelist_set, decide_True by done. lia.
  - intros o' Hne. by rewrite freelist_set, decide_False by done.
Qed.

Lemma nfree_map m g : nfree (set_map m g) = nfree g.
Proof. done. Qed.

(** *** Bits *)

Lemma half_pair i : i = 2 * (i / 2) \/ i = 2 * (i / 2) + 1.
Proof. dlia. Qed.

(** One block changes sides: its pair's bit flips. *)
Lemma bits_flip m P P' o i :
  bits_ok m P -> (forall b, b <> (o, i) -> b ∈ P' <-> b ∈ P) -> ((o, i) ∈ P' <-> (o, i) ∉ P) ->
  bits_ok (flip (S o, i / 2) m) P'.
Proof.
  intros Hb Hother Hself o' j Ho'. rewrite elem_of_flip.
  destruct (decide ((S o', j) = (S o, i / 2))) as [[= -> ->]|Hne].
  - rewrite (Hb o (i / 2)) by done.
    assert (forall b : nat * Z, b ∈ P \/ b ∉ P) as Hdec by (intros b; destruct (decide (b ∈ P)); auto).
    pose proof (Hdec (o, 2 * (i / 2))). pose proof (Hdec (o, 2 * (i / 2) + 1)).
    destruct (half_pair i) as [E|E]; rewrite <- E in *.
    + rewrite (Hother (o, i + 1)) by (intros [= ?]; lia). tauto.
    + rewrite (Hother (o, 2 * (i / 2))) by (intros [= ?]; lia). tauto.
  - rewrite (Hb o' j) by done.
    assert (forall k, k = 2 * j \/ k = 2 * j + 1 -> (o', k) ∈ P' <-> (o', k) ∈ P) as Hk.
    { intros k Hk. apply Hother. intros [= -> <-]. apply Hne. f_equal. dlia. }
    rewrite (Hk (2 * j)), (Hk (2 * j + 1)) by auto. done.
Qed.

(** A block of the largest order has no bit. *)
Lemma bits_largest m P P' o i :
  bits_ok m P -> (PAGE_NSIZES - 1 <= o)%nat -> (forall b, b <> (o, i) -> b ∈ P' <-> b ∈ P) -> bits_ok m P'.
Proof.
  intros Hb Ho Hother o' j Ho'. rewrite (Hb o' j Ho').
  rewrite !(Hother (o', _)) by (intros [= -> ?]; lia). done.
Qed.

(** Two buddies change sides together: their bit stays. *)
Lemma bits_pair m P P' o i :
  bits_ok m P -> (forall b, b <> (o, 2 * i) -> b <> (o, 2 * i + 1) -> b ∈ P' <-> b ∈ P) ->
  ((o, 2 * i) ∈ P <-> (o, 2 * i + 1) ∈ P) -> ((o, 2 * i) ∈ P' <-> (o, 2 * i + 1) ∈ P') ->
  bits_ok m P'.
Proof.
  intros Hb Hother Hp Hp' o' j Ho'. rewrite (Hb o' j Ho').
  destruct (decide ((o', j) = (o, i))) as [[= -> ->]|Hne]; [tauto|].
  assert (forall k, k = 2 * j \/ k = 2 * j + 1 -> (o', k) ∈ P' <-> (o', k) ∈ P) as Hk.
  { intros k Hk. apply Hother; intros [= -> ?]; apply Hne; f_equal; lia. }
  rewrite (Hk (2 * j)), (Hk (2 * j + 1)) by auto. done.
Qed.

(** *** Indices *)

Lemma npages_of_128 o : (o < PAGE_NSIZES)%nat -> 128 mod npages_of o = 0 /\ npages_of o <= 128.
Proof. unfold PAGE_NSIZES. intros Ho. do 8 (destruct o; [by vm_compute|]). lia. Qed.

Lemma calc_index_eq N g o k :
  geometry N g -> (o < PAGE_NSIZES)%nat -> 0 <= k < N ->
  _pagegroup_calculate_index o (pg_baseaddr g + k * PAGE_SIZE) g = Ret (k / npages_of o, g).
Proof.
  intros Hg Ho Hk. destruct (ge_base _ _ Hg) as [Hb0 Hb]. destruct (ge_end _ _ Hg) as [He1 He2].
  unfold _pagegroup_calculate_index, PAGE_SIZE in *. rewrite bind_gets. unfold id.
  rewrite bind_assert.
  2: { unfold PAGE_ALIGNED, PAGE_SIZE. rewrite u32_small by (unfold is_u32; lia).
       apply Z.eqb_eq. rewrite Z.mod_add by lia. done. }
  rewrite bind_assert by (by apply Nat.ltb_lt).
  rewrite bind_assert by (apply andb_true_iff; split; [apply Z.leb_le|apply Z.ltb_lt]; lia).
  replace (pg_baseaddr g + k * 4096 - pg_baseaddr g) with (k * 4096) by lia.
  rewrite u32_small by (unfold is_u32; lia).
  assert (npages_of o - 1 = Z.ones (Z.of_nat o)) as ->.
  { unfold npages_of. rewrite Z.ones_equiv. lia. }
  unfold PAGE_NSIZES in Ho. rewrite bind_assert.
  2: { apply Z.eqb_eq. rewrite Z.land_ones by lia. change 4096 with (2 ^ 12).
       replace 12 with (Z.of_nat o + (12 - Z.of_nat o)) by lia. rewrite Z.pow_add_r by lia.
       rewrite Z.mul_assoc, (Z.mul_comm k), <- Z.mul_assoc, Z.mul_comm.
       apply Z.mod_mul. apply Z.pow_nonzero; lia. }
  unfold ret, PAGE_SHIFT. do 2 f_equal.
  rewrite !Z.shiftr_div_pow2 by lia. fold (npages_of o). change (2 ^ 12) with 4096.
  pose proof (npages_of_pos o). rewrite Z.div_div by lia. rewrite (Z.mul_comm (npages_of o)).
  rewrite <- Z.div_div by lia. by rewrite Z.div_mul by lia.
Qed.

(** The index of a block in the map of its own order and of the one above. *)
Lemma index_self N g o i :
  geometry N g -> valid N (o, i) -> _pagegroup_calculate_index o (blk g (o, i)) g = Ret (i, g).
Proof.
  intros Hg (Ho & Hi & Hn). simpl in *. unfold blk. simpl. pose proof (npages_of_pos o).
  rewrite (calc_index_eq N) by (done || nia). rewrite Z.div_mul by lia. done.
Qed.

Lemma index_parent N g o i :
  geometry N g -> valid N (o, i) -> (S o < PAGE_NSIZES)%nat ->
  _pagegroup_calculate_index (o + 1) (blk g (o, i)) g = Ret (i / 2, g).
Proof.
  intros Hg (Ho & Hi & Hn) HS. simpl in *. unfold blk. simpl. pose proof (npages_of_pos o).
  rewrite (calc_index_eq N) by (done || lia || nia).
  do 2 f_equal. replace (o + 1)%nat with (S o) by lia. rewrite npages_of_S.
  by rewrite Z.div_mul_cancel_r by lia.
Qed.

Lemma in_map_parent N g o i :
  geometry N g -> valid N (o, i) -> (S o < PAGE_NSIZES)%nat -> in_map (S o) (i / 2) g = true.
Proof.
  intros Hg (Ho & Hi & Hn) HS. simpl in *.
  destruct (ge_cap _ _ Hg (S o)) as (c & E & Hc); [lia|]. unfold in_map. rewrite E.
  destruct (ge_pages _ _ Hg) as [HN Hmod]. destruct (npages_of_128 (S o) HS) as [H128 _].
  pose proof (npages_of_pos o) as Hp. rewrite npages_of_S in *.
  apply andb_true_iff. split; [apply Z.leb_le; dlia|]. apply Z.ltb_lt.
  enough (i / 2 < N / (2 * npages_of o)) by lia.
  assert (N = 2 * npages_of o * (N / (2 * npages_of o))) as HNe.
  { pose proof (Z.div_mod N (2 * npages_of o)). enough (N mod (2 * npages_of o) = 0) by lia.
    apply Z.mod_divide; [lia|]. apply (Z.divide_trans _ 128).
    - apply Z.mod_divide; [lia|done].
    - apply Z.mod_divide; [lia|done]. }
  assert (i + 1 <= 2 * (N / (2 * npages_of o))) by nia. dlia.
Qed.

Lemma in_map_self N g o i :
  geometry N g -> valid N (S o, i) -> in_map (S o) i g = true.
Proof.
  intros Hg Hv. destruct (valid_children _ _ _ Hv) as [V _].
  replace i with (2 * i / 2) by (rewrite Z.mul_comm; by apply Z.div_mul).
  apply (in_map_parent N); [done|done|]. by destruct Hv.
Qed.

Lemma bit_flip_eq o i g : in_map o i g = true -> bit_flip o i g = Ret (tt, set_map (flip (o, i) (pg_map g)) g).
Proof. intros E. unfold bit_flip. rewrite bind_gets. unfold id. by rewrite E. Qed.

Lemma bit_check_eq o i g : in_map o i g = true -> bit_check o i g = Ret (bool_decide ((o, i) ∈ pg_map g), g).
Proof. intros E. unfold bit_check. rewrite bind_gets. unfold id. by rewrite E. Qed.

(** *** Lists *)

Lemma blk_inj g b1 b2 : b1.1 = b2.1 -> blk g b1 = blk g b2 -> b1 = b2.
Proof.
  destruct b1 as [o1 i1], b2 as [o2 i2]. unfold blk. simpl. intros -> E.
  pose proof (npages_of_pos o2). unfold PAGE_SIZE in E. f_equal. nia.
Qed.

(** Distinct live blocks start at distinct addresses. *)
Lemma blk_live_inj N g (B : block -> Prop) b1 b2 :
  partition N B -> B b1 -> B b2 -> blk g b1 = blk g b2 -> b1 = b2.
Proof.
  intros Hp H1 H2 E. apply (pt_disj _ _ Hp b1 b2 (b1.2 * npages_of b1.1)); try done.
  - destruct b1. apply inb_self.
  - unfold blk, PAGE_SIZE in E. replace (b1.2 * npages_of b1.1) with (b2.2 * npages_of b2.1) by lia.
    destruct b2. apply inb_self.
Qed.

Lemma lists_push g P b :
  lists_ok g P -> b ∉ P ->
  lists_ok (set_freelist b.1 (blk g b :: freelist g b.1) g) (P ∪ {[b]}).
Proof.
  intros [He Hn] Hb. split.
  - intros o a. rewrite freelist_set. destruct (decide (o = b.1)) as [->|Hne].
    + rewrite elem_of_cons, He. split.
      * intros [->|(i & Hi & ->)]; [exists b.2; destruct b; set_solver|exists i; set_solver].
      * intros (i & Hi & ->). apply elem_of_union in Hi as [Hi|Hi%elem_of_singleton]; [right; eauto|].
        left. by rewrite <- Hi.
    + rewrite He. split; intros (i & Hi & ->); exists i; (split; [|done]); [set_solver|].
      apply elem_of_union in Hi as [Hi|Hi%elem_of_singleton]; [done|]. subst b. done.
  - intros o. rewrite freelist_set. destruct (decide (o = b.1)) as [->|Hne]; [|done].
    apply NoDup_cons. split; [|done]. intros (i & Hi & E)%He.
    apply blk_inj in E; [|done]. apply Hb. by rewrite E.
Qed.

Lemma lists_drop g P o i l :
  lists_ok g P -> (o, i) ∈ P -> NoDup l ->
  (forall a, a ∈ l <-> a ∈ freelist g o /\ a <> blk g (o, i)) ->
  lists_ok (set_freelist o l g) (P ∖ {[(o, i)]}).
Proof.
  intros [He Hn] Hin Hl Heq. split.
  - intros o' a. rewrite freelist_set. destruct (decide (o' = o)) as [->|Hne].
    + rewrite Heq, He. split.
      * intros [(j & Hj & ->) Ha]. exists j. split; [|done]. set_solver.
      * intros (j & Hj & ->). split; [exists j; set_solver|].
        intros E. change (blk g (o, j) = blk g (o, i)) in E. apply blk_inj in E; [|done]. set_solver.
    + rewrite He. split; intros (j & Hj & ->); exists j; (split; [|done]); set_solver.
  - intros o'. rewrite freelist_set. by destruct (decide (o' = o)).
Qed.

(** ** The operations on a group *)

(** Two states of a group that differ only in lists and bits. *)
Definition same_group (g g' : pagegroup) : Prop :=
  pg_baseaddr g' = pg_baseaddr g /\ pg_endaddr g' = pg_endaddr g /\ pg_bits g' = pg_bits g.

Lemma geometry_same N g g' : same_group g g' -> geometry N g -> geometry N g'.
Proof. intros (E1 & E2 & E3) [? ? ? ?]. split; rewrite ?E1, ?E2, ?E3; auto. Qed.

Lemma head_block g P o a rest :
  lists_ok g P -> freelist g o = a :: rest -> exists i, (o, i) ∈ P /\ a = blk g (o, i).
Proof. intros [He _] E. apply He. rewrite E. set_solver. Qed.

Lemma ginv_valid N g P A b : ginv N g P A -> b ∈ P -> valid N b.
Proof. intros Hg Hb. apply (pt_valid _ _ (gi_part _ _ _ _ Hg)). by left. Qed.

(** The state after the head block of a list was taken off and its bit flipped. *)
Definition popped (o : nat) (i : Z) (rest : list Z) (g : pagegroup) : pagegroup :=
  let g1 := set_freelist o rest g in
  if (o <? PAGE_NSIZES - 1)%nat then set_map (flip (S o, i / 2) (pg_map g)) g1 else g1.

Lemma popped_freelist o i rest g o' :
  freelist (popped o i rest g) o' = if decide (o' = o) then rest else freelist g o'.
Proof. rewrite <- (freelist_set g o rest o'). unfold popped. by destruct (o <? _)%nat. Qed.

Lemma popped_same o i rest g : same_group g (popped o i rest g).
Proof. unfold popped. by destruct (o <? _)%nat. Qed.

Lemma popped_nfree o i rest g a :
  (o < PAGE_NSIZES)%nat -> freelist g o = a :: rest ->
  nfree (popped o i rest g) = nfree g - npages_of o.
Proof.
  intros Ho E. assert (nfree (popped o i rest g) = nfree (set_freelist o rest g)) as ->.
  { unfold popped. by destruct (o <? _)%nat. }
  rewrite nfree_set, E by done. simpl length. lia.
Qed.

Lemma freelist_pop_eq o g a rest :
  freelist g o = a :: rest -> freelist_pop o g = Ret (a, set_freelist o rest g).
Proof. intros E. unfold freelist_pop. by rewrite bind_gets, E. Qed.

Lemma pop_flip_eq {B} N g P A o i rest (k : Z -> M pagegroup B) :
  ginv N g P A -> (o, i) ∈ P -> freelist g o = blk g (o, i) :: rest ->
  bind (freelist_pop o) (fun addr =>
    bind (if (o <? PAGE_NSIZES - 1)%nat
          then let! index := _pagegroup_calculate_index (o + 1) addr in bit_flip (o + 1) index
          else ret tt) (fun _ => k addr)) g
  = k (blk g (o, i)) (popped o i rest g).
Proof.
  intros Hg Hin E. pose proof (ginv_valid _ _ _ _ _ Hg Hin) as Hv.
  rewrite (bind_eq _ _ _ _ _ (freelist_pop_eq _ _ _ _ E)).
  unfold popped. destruct (Nat.ltb_spec o (PAGE_NSIZES - 1)) as [Ho|Ho]; [|done].
  rewrite bind_bind. unfold PAGE_NSIZES in *.
  change (blk g (o, i)) with (blk (set_freelist o rest g) (o, i)) at 1.
  assert (geometry N (set_freelist o rest g)) as Hgeo.
  { apply (geometry_same _ g); [done|apply Hg]. }
  rewrite (bind_eq _ _ _ _ _ (index_parent N _ _ _ Hgeo Hv ltac:(unfold PAGE_NSIZES; lia))).
  replace (o + 1)%nat with (S o) by lia.
  assert (in_map (S o) (i / 2) (set_freelist o rest g) = true) as Him.
  { apply (in_map_parent N); [done|done|unfold PAGE_NSIZES; lia]. }
  by rewrite (bind_eq _ _ _ _ _ (bit_flip_eq _ _ _ Him)).
Qed.

Lemma popped_lists g P o i rest :
  lists_ok g P -> (o, i) ∈ P -> freelist g o = blk g (o, i) :: rest ->
  lists_ok (popped o i rest g) (P ∖ {[(o, i)]}).
Proof.
  intros Hl Hin E. assert (lists_ok (set_freelist o rest g) (P ∖ {[(o, i)]})) as H.
  { pose proof (lo_nodup _ _ Hl o) as Hnd. rewrite E in Hnd. apply NoDup_cons in Hnd as [Hn Hnd].
    apply lists_drop; [done..|]. intros a. rewrite E. set_solver. }
  unfold popped. destruct (o <? _)%nat; [|done]. destruct H as [He Hn]. by split.
Qed.

Lemma popped_bits g P o i rest :
  bits_ok (pg_map g) P -> (o, i) ∈ P -> bits_ok (pg_map (popped o i rest g)) (P ∖ {[(o, i)]}).
Proof.
  intros Hb Hin. unfold popped. destruct (Nat.ltb_spec o (PAGE_NSIZES - 1)) as [Ho|Ho]; simpl.
  - apply (bits_flip _ P); [done|set_solver..].
  - apply (bits_largest _ P _ o i); [done|lia|set_solver].
Qed.

(** Taking the head block of a list. *)
Lemma group_take_ok N g P A o a rest :
  ginv N g P A -> freelist g o = a :: rest ->
  exists i g', (o, i) ∈ P /\ a = blk g (o, i) /\ group_take o g = Ret (a, g') /\ same_group g g' /\
    ginv N g' (P ∖ {[(o, i)]}) (A ∪ {[(o, i)]}) /\ nfree g' = nfree g - npages_of o.
Proof.
  intros Hg E. destruct (head_block _ _ _ _ _ (gi_lists _ _ _ _ Hg) E) as (i & Hin & ->).
  pose proof (ginv_valid _ _ _ _ _ Hg Hin) as Hv.
  exists i, (popped o i rest g). split_and!; [done|done|..].
  - unfold group_take. by rewrite (pop_flip_eq N g P A o i rest).
  - apply popped_same.
  - split.
    + apply (geometry_same _ g); [apply popped_same|apply Hg].
    + apply popped_lists; [apply Hg|done|done].
    + apply popped_bits; [apply Hg|done].
    + apply (partition_iff _ _ _ (gi_part _ _ _ _ Hg)). intros b. unfold live.
      pose proof (gi_disj _ _ _ _ Hg b). destruct (decide (b = (o, i))); set_solver.
    + intros b. pose proof (gi_disj _ _ _ _ Hg b). set_solver.
  - apply (popped_nfree _ _ _ _ (blk g (o, i))); [apply Hv|done].
Qed.

Lemma blk_child0 g o i : blk g (o, 2 * i) = blk g (S o, i).
Proof. unfold blk. simpl. rewrite npages_of_S. lia. Qed.

Lemma blk_child1 g o i : blk g (o, 2 * i + 1) = blk g (S o, i) + bytes_of o.
Proof. unfold blk, bytes_of. simpl fst. simpl snd. rewrite npages_of_S. lia. Qed.

Lemma blk_range N g b :
  geometry N g -> valid N b -> pg_baseaddr g <= blk g b /\ blk g b + bytes_of b.1 <= pg_endaddr g < two32.
Proof.
  intros Hg (Ho & Hi & Hn). destruct (ge_end _ _ Hg). unfold blk, bytes_of, PAGE_SIZE in *.
  pose proof (npages_of_pos b.1). nia.
Qed.

(** The free set after a split and after two buddies were joined. *)
Definition split_set (P : gset block) (o : nat) (i : Z) : gset block :=
  P ∖ {[(S o, i)]} ∪ {[(o, 2 * i)]} ∪ {[(o, 2 * i + 1)]}.

Definition pushed (b : block) (g : pagegroup) : pagegroup :=
  set_freelist b.1 (blk g b :: freelist g b.1) g.

Lemma freelist_push_eq g b : freelist_push b.1 (blk g b) g = Ret (tt, pushed b g).
Proof. done. Qed.

Lemma child_not_live N (B : block -> Prop) o i c :
  partition N B -> B (S o, i) -> c = (o, 2 * i) \/ c = (o, 2 * i + 1) -> ~ B c.
Proof.
  intros Hp Hb Hc HB. assert (inb (S o, i) (c.2 * npages_of c.1)) as Hin.
  { apply inb_children. destruct Hc as [->| ->]; [left|right]; apply inb_self. }
  assert (inb c (c.2 * npages_of c.1)) as Hself by (destruct c; apply inb_self).
  pose proof (pt_disj _ _ Hp _ _ _ HB Hb Hself Hin) as ->.
  destruct Hc as [Hc|Hc]; apply (f_equal fst) in Hc; simpl in Hc; lia.
Qed.

(** The state after the head block [(S o, i)] was replaced by its halves. *)
Definition split_group (o : nat) (i : Z) (rest : list Z) (g : pagegroup) : pagegroup :=
  pushed (o, 2 * i + 1) (pushed (o, 2 * i) (popped (S o) i rest g)).

Lemma children_new N g P A o i c :
  ginv N g P A -> (S o, i) ∈ P -> c = (o, 2 * i) \/ c = (o, 2 * i + 1) -> (c ∉ P) /\ (c ∉ A).
Proof.
  intros Hg Hin Hc. assert (~ live P A c) as Hn.
  { apply (child_not_live N _ o i); [apply Hg|by left|done]. }
  unfold live in Hn. tauto.
Qed.

Lemma ginv_split N g P A o i rest :
  ginv N g P A -> (S o, i) ∈ P -> freelist g (S o) = blk g (S o, i) :: rest ->
  ginv N (split_group o i rest g) (split_set P o i) A /\ nfree (split_group o i rest g) = nfree g.
Proof.
  intros Hg Hin E. destruct (ginv_valid _ _ _ _ _ Hg Hin) as (Ho & _ & _). simpl in Ho.
  destruct (children_new N g P A o i (o, 2 * i) Hg Hin ltac:(auto)) as [P0 A0].
  destruct (children_new N g P A o i (o, 2 * i + 1) Hg Hin ltac:(auto)) as [P1 A1].
  assert ((o, 2 * i) <> (o, 2 * i + 1)) as Hne by (intros [= Hx]; lia).
  assert (forall j, (S o, i) <> (o, j)) as HneS by (intros j [= Hx _]; lia).
  unfold split_group. set (g1 := popped (S o) i rest g). split; [split|].
  - apply (geometry_same _ g); [exact (popped_same (S o) i rest g)|apply Hg].
  - apply lists_push; [apply lists_push; [|set_solver]|set_solver]. apply popped_lists; [apply Hg|done..].
  - apply (bits_pair _ (P ∖ {[(S o, i)]}) _ o i); [|unfold split_set; set_solver..].
    apply popped_bits; [apply Hg|done].
  - apply (partition_split N (live P A) _ o i); [apply Hg|by left|]. intros b. unfold live, split_set.
    pose proof (gi_disj _ _ _ _ Hg b) as Hd. rewrite !elem_of_union, elem_of_difference, !elem_of_singleton.
    destruct (decide (b = (S o, i))) as [->|]; [|tauto]. specialize (HneS (2 * i)) as H0. specialize (HneS (2 * i + 1)) as H1.
    tauto.
  - intros b. pose proof (gi_disj _ _ _ _ Hg b). unfold split_set.
    rewrite !elem_of_union, elem_of_difference, !elem_of_singleton. intros [[[? _]| ->]| ->]; auto.
  - unfold pushed. simpl fst. rewrite !nfree_set by lia. rewrite freelist_set, decide_True by done.
    unfold g1. rewrite (popped_nfree _ _ _ _ (blk g (S o, i))) by done.
    rewrite npages_of_S. simpl length. lia.
Qed.

(** Splitting the head block of a list pushes its two halves, the second one
    last. *)
Lemma page_split_ok N g P A o i rest :
  ginv N g P A -> (S o, i) ∈ P -> freelist g (S o) = blk g (S o, i) :: rest ->
  exists g', __page_split (S o) g = Ret (tt, g') /\ same_group g g' /\
    ginv N g' (split_set P o i) A /\ nfree g' = nfree g /\
    freelist g' o = blk g' (o, 2 * i + 1) :: blk g' (o, 2 * i) :: freelist g o.
Proof.
  intros Hg Hin E. pose proof (ginv_valid _ _ _ _ _ Hg Hin) as Hv. pose proof Hv as (Ho & _ & _). simpl in Ho.
  destruct (ginv_split N g P A o i rest Hg Hin E) as [Hg' Hn']. exists (split_group o i rest g).
  split_and!; [|exact (popped_same (S o) i rest g)|done|done|].
  2: { unfold split_group, pushed. simpl fst. rewrite !freelist_set, !decide_True by done.
       do 2 f_equal. by rewrite popped_freelist, decide_False by lia. }
  unfold split_group. set (g1 := popped (S o) i rest g).
  destruct (children_new N g P A o i (o, 2 * i) Hg Hin ltac:(auto)) as [P0 _].
  destruct (children_new N g P A o i (o, 2 * i + 1) Hg Hin ltac:(auto)) as [P1 _].
  assert (bits_ok (pg_map g1) (P ∖ {[(S o, i)]})) as Hb1 by (apply popped_bits; [apply Hg|done]).
  assert (geometry N g1) as Hgeo1 by (apply (geometry_same _ g); [apply popped_same|apply Hg]).
  assert (forall b, blk g1 b = blk g b) as Hblk.
  { intros b. unfold blk. destruct (popped_same (S o) i rest g) as (E1 & _). unfold g1. by rewrite E1. }
  unfold __page_split. rewrite bind_assert by done. rewrite bind_assert by (by apply Nat.ltb_lt).
  rewrite bind_gets, E. rewrite bind_assert by done.
  rewrite (pop_flip_eq N g P A (S o) i rest) by done. fold g1. rewrite <- !Hblk.
  rewrite (bind_eq _ _ _ _ _ (index_self N _ _ _ Hgeo1 Hv)).
  rewrite (bind_eq _ _ _ _ _ (bit_check_eq _ _ _ (in_map_self N _ _ _ Hgeo1 Hv))).
  rewrite bind_assert.
  2: { rewrite bool_decide_eq_false_2; [done|]. rewrite (Hb1 o i) by lia.
       rewrite !elem_of_difference. tauto. }
  replace (S o - 1)%nat with o by lia.
  destruct (blk_range N g1 (S o, i) Hgeo1 Hv) as [Hr1 Hr2]. destruct (ge_base _ _ Hgeo1) as [Hb0 _].
  rewrite u32_small.
  2: { unfold is_u32, bytes_of in *. simpl in Hr2. rewrite npages_of_S in Hr2. unfold PAGE_SIZE in *.
       pose proof (npages_of_pos o). lia. }
  rewrite <- blk_child1, <- blk_child0.
  change o with ((o, 2 * i).1) at 1. rewrite (bind_eq _ _ _ _ _ (freelist_push_eq _ _)).
  change o with ((o, 2 * i + 1).1) at 1.
  change (blk g1 (o, 2 * i + 1)) with (blk (pushed (o, 2 * i) g1) (o, 2 * i + 1)). apply freelist_push_eq.
Qed.

(** The page [p] of the group is free. *)
Definition fpage (P : gset block) (p : Z) : Prop := exists b, b ∈ P /\ inb b p.

Lemma fpage_split P o i p : (S o, i) ∈ P -> fpage (split_set P o i) p <-> fpage P p.
Proof.
  intros Hin. unfold fpage, split_set. split.
  - intros (b & [[[Hb _]%elem_of_difference|Hb%elem_of_singleton]%elem_of_union|Hb%elem_of_singleton]%elem_of_union & Hp).
    + eauto.
    + exists (S o, i). subst b. rewrite inb_children. auto.
    + exists (S o, i). subst b. rewrite inb_children. auto.
  - intros (b & Hb & Hp). destruct (decide (b = (S o, i))) as [->|Hne]; [|exists b; set_solver].
    apply inb_children in Hp as [Hp|Hp]; [exists (o, 2 * i)|exists (o, 2 * i + 1)]; set_solver.
Qed.

Lemma maximal_split N P A o i :
  partition N (live P A) -> (S o, i) ∈ P -> maximal (P ∖ {[(S o, i)]}) ->
  maximal (split_set P o i ∖ {[(o, 2 * i + 1)]}).
Proof.
  intros Hpart Hin Hm o' j Ho'. unfold split_set. intros H0 H1.
  assert ((o, 2 * i + 1) ∉ P) as Hn1.
  { intros Hx. eapply (child_not_live N _ o i); [done|by left|by right|by left]. }
  assert ((o, 2 * i) ∉ P) as Hn0.
  { intros Hx. eapply (child_not_live N _ o i); [done|by left|by left|by left]. }
  destruct (decide ((o', j) = (o, i))) as [[= -> ->]|Hne]; [set_solver|].
  apply (Hm o' j Ho').
  - destruct (decide ((o', 2 * j) = (o, 2 * i))) as [[= -> ?]|]; [|set_solver].
    destruct Hne. f_equal. lia.
  - destruct (decide ((o', 2 * j + 1) = (o, 2 * i))) as [[= -> ?]|]; [lia|set_solver].
Qed.

Lemma split_down_ok N A o k : forall g P i rest,
  ginv N g P A -> maximal (P ∖ {[((o + k)%nat, i)]}) -> ((o + k)%nat, i) ∈ P ->
  freelist g (o + k)%nat = blk g ((o + k)%nat, i) :: rest ->
  exists g' P' i' rest', split_down k o g = Ret (tt, g') /\ same_group g g' /\
    ginv N g' P' A /\ maximal (P' ∖ {[(o, i')]}) /\ (o, i') ∈ P' /\
    freelist g' o = blk g' (o, i') :: rest' /\ nfree g' = nfree g /\
    (forall p, fpage P' p <-> fpage P p).
Proof.
  induction k as [|k IH]; intros g P i rest Hg Hm Hin E.
  - rewrite Nat.add_0_r in *. exists g, P, i, rest. by split_and!.
  - replace (o + S k)%nat with (S (o + k)) in * by lia.
    destruct (page_split_ok N g P A (o + k) i rest Hg Hin E) as (g1 & E1 & Hs1 & Hg1 & Hn1 & Hl1).
    destruct (IH g1 (split_set P (o + k) i) (2 * i + 1)
                (blk g1 ((o + k)%nat, 2 * i) :: freelist g (o + k)) Hg1) as (g' & P' & i' & rest' & E' & Hs' & R).
    + apply (maximal_split N P A); [apply Hg|done|done].
    + unfold split_set. set_solver.
    + exact Hl1.
    + destruct R as (Hg' & Hm' & Hin' & Hl' & Hn' & Hf').
      exists g', P', i', rest'. split_and!; [|..|done|done|done|done|lia|].
      * simpl. replace (o + S k)%nat with (S (o + k)) by lia. by rewrite (bind_eq _ _ _ _ _ E1).
      * destruct Hs1 as (? & ? & ?), Hs' as (? & ? & ?). repeat split; congruence.
      * intros p. rewrite Hf'. by apply fpage_split.
Qed.

(** ** Searching the groups *)

Lemma group_with_spec l o :
  match group_with l o with
  | Some i => exists g a rest, l !! i = Some g /\ freelist g o = a :: rest
  | None => Forall (fun g => freelist g o = []) l
  end.
Proof.
  induction l as [|g l IH]; simpl; [done|]. destruct (decide (freelist g o = [])) as [E|E].
  - destruct (group_with l o) as [i|]; simpl; [|by constructor]. done.
  - destruct (freelist g o) as [|a rest] eqn:E'; [done|]. exists g, a, rest. done.
Qed.

Lemma find_bigger_spec l os :
  match find_bigger l os with
  | Some (o, i) => o ∈ os /\ exists g a rest, l !! i = Some g /\ freelist g o = a :: rest
  | None => Forall (fun g => forall o, o ∈ os -> freelist g o = []) l
  end.
Proof.
  induction os as [|o os IH]; simpl.
  - apply Forall_forall. set_solver.
  - pose proof (group_with_spec l o) as Ho. destruct (group_with l o) as [i|].
    + split; [set_solver|done].
    + destruct (find_bigger l os) as [[o' i]|].
      * destruct IH as [? ?]. split; [set_solver|done].
      * rewrite Forall_forall in *. intros g Hg o'. rewrite elem_of_cons. intros [->|Hin]; auto.
Qed.

(** ** Joining *)

Definition dropped (b : block) (g : pagegroup) : pagegroup :=
  set_freelist b.1 (filter (fun a => a <> blk g b) (freelist g b.1)) g.

Lemma lists_dropped g P b : lists_ok g P -> b ∈ P -> lists_ok (dropped b g) (P ∖ {[b]}).
Proof.
  intros Hl Hb. destruct b as [o i]. apply lists_drop; [done|done|..].
  - apply NoDup_filter, Hl.
  - intros a. simpl. rewrite list_elem_of_filter. tauto.
Qed.

Lemma nfree_dropped g P b :
  lists_ok g P -> b ∈ P -> (b.1 < PAGE_NSIZES)%nat -> nfree (dropped b g) = nfree g - npages_of b.1.
Proof.
  intros Hl Hb Ho. unfold dropped. rewrite nfree_set by done.
  pose proof (length_filter_ne (freelist g b.1) (blk g b) (lo_nodup _ _ Hl _)) as E.
  rewrite <- E; [lia|]. apply (lo_elem _ _ Hl). exists b.2. by destruct b.
Qed.

(** A free page is on the list of its order only. *)
Lemma freelist_remove_eq N g (B : block -> Prop) P b :
  lists_ok g P -> partition N B -> (forall c, c ∈ P -> B c) -> b ∈ P ->
  freelist_remove (blk g b) g = Ret (tt, dropped b g).
Proof.
  intros Hl Hp Hsub Hb.
  assert (blk g b ∈ freelist g b.1) as Hin by (apply (lo_elem _ _ Hl); exists b.2; by destruct b).
  assert (forall o, o <> b.1 -> blk g b ∉ freelist g o) as Hother.
  { intros o Hne (i & Hi & E)%(lo_elem _ _ Hl).
    apply (blk_live_inj N g B) in E; [|auto..]. by subst b. }
  unfold freelist_remove. rewrite bind_gets. unfold id.
  assert (existsb (fun o => bool_decide (blk g b ∈ freelist g o)) (seq 0 PAGE_NSIZES) = true) as ->.
  { apply existsb_exists. exists b.1. split; [|by apply bool_decide_eq_true].
    apply in_seq. destruct (pt_valid _ _ Hp _ (Hsub _ Hb)). lia. }
  unfold modify, dropped, set_freelist. do 3 f_equal. apply map_eq. intros o. rewrite lookup_fmap.
  destruct (decide (o = b.1)) as [->|Hne].
  - rewrite lookup_insert_eq. unfold freelist in *. destruct (pg_freelist g !! b.1); simpl in *; [done|set_solver].
  - rewrite lookup_insert_ne by done. specialize (Hother o Hne). unfold freelist in Hother.
    destruct (pg_freelist g !! o) as [l|]; simpl in *; [|done]. f_equal. by apply filter_ne_id.
Qed.

(** The free set after two buddies were joined. *)
Definition join_set (P : gset block) (o : nat) (i : Z) : gset block :=
  P ∖ {[(o, 2 * i)]} ∖ {[(o, 2 * i + 1)]} ∪ {[(S o, i)]}.

Lemma fpage_join P o i p :
  (o, 2 * i) ∈ P -> (o, 2 * i + 1) ∈ P -> fpage (join_set P o i) p <-> fpage P p.
Proof.
  intros H0 H1. unfold fpage, join_set. split.
  - intros (b & [Hb|Hb%elem_of_singleton]%elem_of_union & Hp); [exists b; set_solver|].
    subst b. apply inb_children in Hp as [Hp|Hp]; eauto.
  - intros (b & Hb & Hp). destruct (decide (b = (o, 2 * i))) as [->|N0].
    { exists (S o, i). rewrite inb_children. set_solver. }
    destruct (decide (b = (o, 2 * i + 1))) as [->|N1].
    { exists (S o, i). rewrite inb_children. set_solver. }
    exists b. set_solver.
Qed.

(** The state after the lists were changed by one step of the loop and the bit
    of the new block was flipped. *)
Definition joined (o : nat) (i : Z) (b c : block) (g : pagegroup) : pagegroup :=
  let g1 := pushed (S o, i) (dropped c (dropped b g)) in
  if (S o <? PAGE_NSIZES - 1)%nat then set_map (flip (S (S o), i / 2) (pg_map g)) g1 else g1.

Definition is_pair (o : nat) (i : Z) (b c : block) : Prop :=
  (b = (o, 2 * i) /\ c = (o, 2 * i + 1)) \/ (b = (o, 2 * i + 1) /\ c = (o, 2 * i)).

Lemma joined_lists g P o i b c :
  lists_ok g P -> is_pair o i b c -> b ∈ P -> c ∈ P -> (S o, i) ∉ P ->
  lists_ok (joined o i b c g) (join_set P o i).
Proof.
  intros Hl Hpair Hb Hc Hn.
  assert (lists_ok (pushed (S o, i) (dropped c (dropped b g))) (join_set P o i)) as H.
  { assert (join_set P o i = P ∖ {[b]} ∖ {[c]} ∪ {[(S o, i)]}) as ->.
    { apply set_eq. intros x. unfold join_set. destruct Hpair as [[-> ->]|[-> ->]]; set_solver. }
    apply lists_push; [|set_solver]. apply lists_dropped; [by apply lists_dropped|].
    assert (c <> b); [|set_solver]. intros ->. destruct Hpair as [[-> Hx]|[-> Hx]]; injection Hx; lia. }
  unfold joined. destruct (S o <? _)%nat; [|done]. destruct H as [? ?]. by split.
Qed.

Lemma joined_bits g P o i b c :
  bits_ok (pg_map g) P -> (o, 2 * i) ∈ P -> (o, 2 * i + 1) ∈ P -> (S o, i) ∉ P ->
  bits_ok (pg_map (joined o i b c g)) (join_set P o i).
Proof.
  intros Hb H0 H1 Hn.
  assert (forall j, (S o, i) <> (o, j)) as Hne by (intros j [= ? ?]; lia).
  assert (bits_ok (pg_map g) (P ∖ {[(o, 2 * i)]} ∖ {[(o, 2 * i + 1)]})) as Hb1.
  { apply (bits_pair _ P _ o i); [done|set_solver..]. }
  unfold joined. destruct (Nat.ltb_spec (S o) (PAGE_NSIZES - 1)) as [Ho|Ho]; simpl.
  - apply (bits_flip _ _ _ (S o) i Hb1); unfold join_set; set_solver.
  - apply (bits_largest _ _ _ (S o) i Hb1); [lia|unfold join_set; set_solver].
Qed.

Lemma joined_same o i b c g : same_group g (joined o i b c g).
Proof. unfold joined. by destruct (S o <? _)%nat. Qed.

(** The buddy of the [k]th block of an order. *)
Definition buddy_of (k : Z) : Z := if Z.even k then k + 1 else k - 1.

Lemma buddy_pair o k : is_pair o (k / 2) (o, k) (o, buddy_of k).
Proof.
  unfold is_pair, buddy_of. rewrite Zeven_mod.
  destruct (half_pair k) as [E|E].
  - left. assert (k mod 2 = 0) as -> by dlia. simpl. split; f_equal; lia.
  - right. assert (k mod 2 = 1) as -> by dlia. simpl. split; f_equal; lia.
Qed.

Lemma buddy_addr N g o k :
  geometry N g -> valid N (o, k) -> valid N (o, buddy_of k) ->
  let offset := u32 (blk g (o, k) - pg_baseaddr g) in
  u32 (blk g (o, k) + bytes_of o *
       (if Z.land (Z.shiftr (Z.shiftr offset PAGE_SHIFT) (Z.of_nat o)) 1 =? 0 then 1 else -1))
  = blk g (o, buddy_of k).
Proof.
  intros Hg Hv Hv'. simpl. destruct (blk_range _ _ _ Hg Hv') as [R1 R2]. destruct (blk_range _ _ _ Hg Hv) as [R3 R4].
  destruct (ge_base _ _ Hg) as [Hb0 _]. pose proof (npages_of_pos o) as Hp.
  assert (0 < bytes_of o) as Hbp by (unfold bytes_of, PAGE_SIZE; lia).
  rewrite (u32_small (blk g (o, k) - _)) by (unfold is_u32; simpl in *; lia).
  replace (blk g (o, k) - pg_baseaddr g) with (k * npages_of o * 4096) by (unfold blk, PAGE_SIZE; simpl; lia).
  rewrite !Z.shiftr_div_pow2 by (unfold PAGE_SHIFT; lia). fold (npages_of o). change (2 ^ PAGE_SHIFT) with 4096.
  rewrite !Z.div_mul by lia. change 1 with (Z.ones 1) at 1. rewrite Z.land_ones by lia. change (2 ^ 1) with 2.
  assert ((if k mod 2 =? 0 then 1 else -1) = buddy_of k - k) as ->.
  { unfold buddy_of. rewrite Zeven_mod.
    assert (k mod 2 = 0 \/ k mod 2 = 1) as [->| ->] by dlia; simpl; lia. }
  assert (blk g (o, k) + bytes_of o * (buddy_of k - k) = blk g (o, buddy_of k)) as ->.
  { unfold blk, bytes_of. simpl. lia. }
  apply u32_small. unfold is_u32. simpl in *. lia.
Qed.

Lemma blk_min g o i b c : is_pair o i b c -> Z.min (blk g b) (blk g c) = blk g (S o, i).
Proof.
  intros Hp. pose proof (blk_child0 g o i). pose proof (blk_child1 g o i). pose proof (npages_of_pos o).
  unfold bytes_of, PAGE_SIZE in *. destruct Hp as [[-> ->]|[-> ->]]; lia.
Qed.

(** One iteration of the loop of [__page_join]. *)
Lemma join_step_eq N g P A fuel o k :
  ginv N g P A -> (S o < PAGE_NSIZES)%nat -> (o, k) ∈ P -> (o, buddy_of k) ∈ P ->
  __page_join (S fuel) o (blk g (o, k)) g
  = __page_join fuel (S o) (blk g (S o, k / 2)) (joined o (k / 2) (o, k) (o, buddy_of k) g).
Proof.
  intros Hg HS Hk Hbud. pose proof (ginv_valid _ _ _ _ _ Hg Hk) as Hv. pose proof (ginv_valid _ _ _ _ _ Hg Hbud) as Hv'.
  pose proof (gi_geo _ _ _ _ Hg) as Hgeo. pose proof (gi_part _ _ _ _ Hg) as Hpart.
  pose proof (buddy_pair o k) as Hpair.
  cbn [__page_join]. rewrite (proj2 (Nat.ltb_lt _ _)) by lia.
  rewrite (bind_eq _ _ _ _ _ (index_parent N _ _ _ Hgeo Hv HS)). replace (o + 1)%nat with (S o) by lia.
  rewrite (bind_eq _ _ _ _ _ (bit_check_eq _ _ _ (in_map_parent N _ _ _ Hgeo Hv HS))).
  rewrite bool_decide_eq_false_2.
  2: { rewrite (gi_bits _ _ _ _ Hg o (k / 2)) by lia. destruct Hpair as [[E1 E2]|[E1 E2]]; rewrite <- E1, <- E2; tauto. }
  rewrite bind_gets. unfold id. rewrite (buddy_addr N) by done.
  rewrite bind_assert.
  2: { destruct (blk_range _ _ _ Hgeo Hv) as [R1 R2]. destruct (ge_base _ _ Hgeo) as [Hb0 _].
       pose proof (npages_of_pos o) as Hnp.
       rewrite u32_small by (unfold is_u32, bytes_of, PAGE_SIZE in *; simpl in *; lia).
       replace (blk g (o, k) - pg_baseaddr g) with (k * npages_of o * 4096) by (unfold blk, PAGE_SIZE; simpl; lia).
       assert (npages_of o - 1 = Z.ones (Z.of_nat o)) as -> by (unfold npages_of; rewrite Z.ones_equiv; lia).
       apply Z.eqb_eq. rewrite Z.land_ones by lia. fold (npages_of o).
       replace (k * npages_of o * 4096) with (k * 4096 * npages_of o) by lia. apply Z.mod_mul. lia. }
  rewrite (bind_eq _ _ _ _ _ (freelist_remove_eq N g (live P A) P (o, k) (gi_lists _ _ _ _ Hg) Hpart
                                (fun c Hc => or_introl Hc) Hk)).
  assert (lists_ok (dropped (o, k) g) (P ∖ {[(o, k)]})) as Hl1 by (apply lists_dropped; [apply Hg|done]).
  assert ((o, buddy_of k) <> (o, k)) as Hne.
  { intros [= E]. revert E. unfold buddy_of. destruct (Z.even k); lia. }
  assert ((o, buddy_of k) ∈ P ∖ {[(o, k)]}) as Hbud1 by set_solver.
  change (blk g (o, buddy_of k)) with (blk (dropped (o, k) g) (o, buddy_of k)) at 1.
  rewrite (bind_eq _ _ _ _ _ (freelist_remove_eq N (dropped (o, k) g) (live P A) _ _ Hl1 Hpart
                                (fun c Hc => or_introl (proj1 (proj1 (elem_of_difference _ _ _) Hc))) Hbud1)).
  rewrite (blk_min g o (k / 2)) by done.
  set (g2 := dropped (o, buddy_of k) (dropped (o, k) g)).
  change (blk g (S o, k / 2)) with (blk g2 (S o, k / 2)).
  rewrite (bind_eq _ _ _ _ _ (freelist_push_eq g2 (S o, k / 2))).
  unfold joined. fold g2. destruct (Nat.ltb_spec (S o) (PAGE_NSIZES - 1)) as [HSS|HSS]; [|done].
  assert (geometry N (pushed (S o, k / 2) g2)) as Hgeo2 by (by apply (geometry_same _ g)).
  assert (valid N (S o, k / 2)) as Hvp.
  { destruct Hv as (_ & Hk0 & _). simpl in Hk0.
    apply valid_parent; [|dlia|done]. destruct Hpair as [[_ <-]|[<- _]]; apply (ginv_valid _ _ _ _ _ Hg); done. }
  rewrite bind_bind. change (blk g2 (S o, k / 2)) with (blk (pushed (S o, k / 2) g2) (S o, k / 2)) at 1.
  replace (o + 2)%nat with (S o + 1)%nat by lia.
  rewrite (bind_eq _ _ _ _ _ (index_parent N _ _ _ Hgeo2 Hvp ltac:(lia))).
  replace (S o + 1)%nat with (S (S o)) by lia.
  by rewrite (bind_eq _ _ _ _ _ (bit_flip_eq _ _ _ (in_map_parent N _ _ _ Hgeo2 Hvp ltac:(lia)))).
Qed.

Lemma parent_not_live N (B : block -> Prop) o i :
  partition N B -> B (o, 2 * i) -> ~ B (S o, i).
Proof. intros Hp Hb HB. eapply child_not_live; [done|exact HB|by left|done]. Qed.

Lemma ginv_join N g P A o k :
  ginv N g P A -> (S o < PAGE_NSIZES)%nat -> (o, k) ∈ P -> (o, buddy_of k) ∈ P ->
  ginv N (joined o (k / 2) (o, k) (o, buddy_of k) g) (join_set P o (k / 2)) A /\
  nfree (joined o (k / 2) (o, k) (o, buddy_of k) g) = nfree g.
Proof.
  intros Hg HS Hk Hbud. pose proof (buddy_pair o k) as Hpair. pose proof (gi_part _ _ _ _ Hg) as Hpart.
  assert ((o, 2 * (k / 2)) ∈ P /\ (o, 2 * (k / 2) + 1) ∈ P) as [H0 H1].
  { destruct Hpair as [[<- <-]|[<- <-]]; done. }
  assert (~ live P A (S o, k / 2)) as Hnew by (apply (parent_not_live N); [done|by left]).
  assert (0 <= k / 2) as Hk0.
  { destruct (ginv_valid _ _ _ _ _ Hg Hk) as (_ & Hk0 & _). simpl in Hk0. dlia. }
  split; [split|].
  - apply (geometry_same _ g); [apply joined_same|apply Hg].
  - apply joined_lists; [apply Hg|done..|]. intros Hx. apply Hnew. by left.
  - apply joined_bits; [apply Hg|done..|]. intros Hx. apply Hnew. by left.
  - apply (partition_join N (live P A) _ o (k / 2)); [done|done|done|by left|by left|].
    intros b. pose proof (gi_disj _ _ _ _ Hg b). unfold live, join_set in *.
    assert (b = (o, 2 * (k / 2)) -> b ∈ P) by (by intros ->).
    assert (b = (o, 2 * (k / 2) + 1) -> b ∈ P) by (by intros ->).
    rewrite elem_of_union, !elem_of_difference, !elem_of_singleton.
    destruct (decide (b = (o, 2 * (k / 2)))), (decide (b = (o, 2 * (k / 2) + 1))); tauto.
  - unfold join_set. intros b [Hb|Hb%elem_of_singleton]%elem_of_union HA.
    + apply (gi_disj _ _ _ _ Hg b); [set_solver|done].
    + subst b. apply Hnew. by right.
  - assert (lists_ok (dropped (o, k) g) (P ∖ {[(o, k)]})) as Hl1 by (apply lists_dropped; [apply Hg|done]).
    assert ((o, buddy_of k) <> (o, k)) as Hne.
    { intros [= E]. revert E. unfold buddy_of. destruct (Z.even k); lia. }
    assert (forall m x, nfree (set_map m x) = nfree x) as Hmap by done. unfold joined.
    transitivity (nfree (pushed (S o, k / 2) (dropped (o, buddy_of k) (dropped (o, k) g)))).
    { by destruct (S o <? _)%nat. }
    unfold pushed. simpl fst. rewrite nfree_set by done.
    assert ((o, buddy_of k) ∈ P ∖ {[(o, k)]}) as Hbud1 by set_solver.
    rewrite (nfree_dropped _ _ _ Hl1 Hbud1) by (simpl; lia).
    rewrite (nfree_dropped _ _ _ (gi_lists _ _ _ _ Hg) Hk) by (simpl; lia). simpl fst.
    simpl length. rewrite npages_of_S. lia.
Qed.

Lemma maximal_join P o k :
  maximal (P ∖ {[(o, k)]}) -> maximal (join_set P o (k / 2) ∖ {[(S o, k / 2)]}).
Proof.
  intros Hm. apply (maximal_sub (P ∖ {[(o, k)]})); [|done].
  pose proof (buddy_pair o k) as Hp. unfold join_set. destruct Hp as [[<- <-]|[<- <-]]; set_solver.
Qed.

Lemma maximal_add P o k :
  maximal (P ∖ {[(o, k)]}) -> (S o < PAGE_NSIZES)%nat -> (o, buddy_of k) ∉ P -> maximal P.
Proof.
  intros Hm HS Hn o' i Ho' H0 H1.
  destruct (decide (o' = o /\ k / 2 = i)) as [[-> <-]|Hne].
  - destruct (buddy_pair o k) as [[E1 E2]|[E1 E2]]; rewrite E2 in Hn; done.
  - apply (Hm o' i Ho'); apply elem_of_difference; (split; [done|]);
      intros [= -> <-]%elem_of_singleton; apply Hne; (split; [done|dlia]).
Qed.

Lemma maximal_largest P o k :
  maximal (P ∖ {[(o, k)]}) -> (PAGE_NSIZES - 1 <= o)%nat -> maximal P.
Proof.
  intros Hm Ho o' i Ho' H0 H1. apply (Hm o' i Ho'); apply elem_of_difference; (split; [done|]);
    intros [= -> ?]%elem_of_singleton; lia.
Qed.

(** The loop of [__page_join] ends after at most seven joins, with no buddies
    left to join. *)
Lemma page_join_ok N A fuel : forall o k g P,
  ginv N g P A -> (o, k) ∈ P -> maximal (P ∖ {[(o, k)]}) -> (PAGE_NSIZES - o <= fuel)%nat ->
  exists g' P', __page_join fuel o (blk g (o, k)) g = Ret (tt, g') /\ same_group g g' /\
    ginv N g' P' A /\ maximal P' /\ nfree g' = nfree g /\ (forall p, fpage P' p <-> fpage P p).
Proof.
  induction fuel as [|fuel IH]; intros o k g P Hg Hk Hm Hf.
  { destruct (ginv_valid _ _ _ _ _ Hg Hk). simpl in *. lia. }
  pose proof (ginv_valid _ _ _ _ _ Hg Hk) as Hv. pose proof (gi_geo _ _ _ _ Hg) as Hgeo.
  destruct (decide (o < PAGE_NSIZES - 1)%nat) as [Ho|Ho].
  2: { exists g, P. split_and!; try done; [|by apply (maximal_largest _ o k); [done|lia]].
       cbn [__page_join]. by rewrite (proj2 (Nat.ltb_ge _ _)) by lia. }
  assert (S o < PAGE_NSIZES)%nat as HS by lia.
  destruct (decide ((o, buddy_of k) ∈ P)) as [Hbud|Hbud].
  - rewrite (join_step_eq N g P A) by done. destruct (ginv_join N g P A o k Hg HS Hk Hbud) as [Hg1 Hn1].
    set (g1 := joined o (k / 2) (o, k) (o, buddy_of k) g) in *.
    assert (same_group g g1) as Hs1 by apply joined_same.
    destruct (IH (S o) (k / 2) g1 (join_set P o (k / 2))) as (g' & P' & E & Hs & Hg' & Hm' & Hn' & Hfp).
    + done.
    + unfold join_set. set_solver.
    + by apply maximal_join.
    + lia.
    + exists g', P'. split_and!; [|..|done|done|lia|].
      * rewrite <- E. f_equal. unfold blk. by destruct Hs1 as (-> & _).
      * destruct Hs1 as (? & ? & ?), Hs as (? & ? & ?). repeat split; congruence.
      * intros p. rewrite Hfp. apply fpage_join; destruct (buddy_pair o k) as [[E1 E2]|[E1 E2]]; congruence.
  - exists g, P. split_and!; try done; [|by apply (maximal_add _ o k)].
    cbn [__page_join]. rewrite (proj2 (Nat.ltb_lt _ _)) by lia.
    rewrite (bind_eq _ _ _ _ _ (index_parent N _ _ _ Hgeo Hv HS)). replace (o + 1)%nat with (S o) by lia.
    rewrite (bind_eq _ _ _ _ _ (bit_check_eq _ _ _ (in_map_parent N _ _ _ Hgeo Hv HS))).
    rewrite bool_decide_eq_true_2; [done|]. apply (proj2 (gi_bits _ _ _ _ Hg o (k / 2) ltac:(lia))).
    destruct (buddy_pair o k) as [[E1 E2]|[E1 E2]]; rewrite <- E1, <- E2; tauto.
Qed.

Lemma push_flip_eq {B} N g o k (cont : M pagegroup B) :
  geometry N g -> valid N (o, k) -> (S o < PAGE_NSIZES)%nat ->
  bind (_pagegroup_calculate_index (o + 1) (blk g (o, k))) (fun index => bit_flip (o + 1) index ;;; cont)
    (pushed (o, k) g)
  = cont (set_map (flip (S o, k / 2) (pg_map g)) (pushed (o, k) g)).
Proof.
  intros Hgeo Hv HS. assert (geometry N (pushed (o, k) g)) as Hgeo1 by (by apply (geometry_same _ g)).
  change (blk g (o, k)) with (blk (pushed (o, k) g) (o, k)) at 1.
  rewrite (bind_eq _ _ _ _ _ (index_parent N _ _ _ Hgeo1 Hv HS)). replace (o + 1)%nat with (S o) by lia.
  by rewrite (bind_eq _ _ _ _ _ (bit_flip_eq _ _ _ (in_map_parent N _ _ _ Hgeo1 Hv HS))).
Qed.

(** An allocated block becomes free: its bit flips unless it is of the largest
    order. *)
Definition freed_block (o : nat) (k : Z) (g : pagegroup) : pagegroup :=
  if (o <? PAGE_NSIZES - 1)%nat then set_map (flip (S o, k / 2) (pg_map g)) (pushed (o, k) g) else pushed (o, k) g.

Lemma ginv_freed N g P A o k :
  ginv N g P A -> (o, k) ∈ A -> ginv N (freed_block o k g) (P ∪ {[(o, k)]}) (A ∖ {[(o, k)]}).
Proof.
  intros Hg Hin. assert ((o, k) ∉ P) as Hn by (intros Hx; by apply (gi_disj _ _ _ _ Hg (o, k))).
  pose proof (lists_push g P (o, k) (gi_lists _ _ _ _ Hg) Hn) as Hl.
  split.
  - apply (geometry_same _ g); [|apply Hg]. unfold freed_block. by destruct (o <? _)%nat.
  - unfold freed_block. destruct (o <? _)%nat; [|done]. destruct Hl. by split.
  - unfold freed_block. destruct (Nat.ltb_spec o (PAGE_NSIZES - 1)); simpl.
    + apply (bits_flip _ P); [apply Hg|set_solver..].
    + apply (bits_largest _ P _ o k); [apply Hg|lia|set_solver].
  - apply (partition_iff _ _ _ (gi_part _ _ _ _ Hg)). intros b. unfold live.
    destruct (decide (b = (o, k))); set_solver.
  - intros b. pose proof (gi_disj _ _ _ _ Hg b). set_solver.
Qed.

Lemma group_free_ok N g P A o k :
  ginv N g P A -> maximal P -> (o, k) ∈ A ->
  exists g' P', (if (o <? PAGE_NSIZES - 1)%nat then
                   (let! index := _pagegroup_calculate_index (o + 1) (blk g (o, k)) in
                    bit_flip (o + 1) index ;;; __page_join PAGE_NSIZES o (blk g (o, k)))
                 else ret tt) (pushed (o, k) g) = Ret (tt, g') /\ same_group g g' /\
    ginv N g' P' (A ∖ {[(o, k)]}) /\ maximal P' /\ nfree g' = nfree g + npages_of o /\
    (forall p, fpage P' p <-> fpage P p \/ inb (o, k) p).
Proof.
  intros Hg Hm Hin. pose proof (pt_valid _ _ (gi_part _ _ _ _ Hg) (o, k) ltac:(by right)) as Hv.
  assert ((o, k) ∉ P) as Hn by (intros Hx; by apply (gi_disj _ _ _ _ Hg (o, k))).
  pose proof (ginv_freed N g P A o k Hg Hin) as Hg1.
  assert (forall p, fpage (P ∪ {[(o, k)]}) p <-> fpage P p \/ inb (o, k) p) as Hfp.
  { intros p. unfold fpage. set_solver. }
  assert (nfree (freed_block o k g) = nfree g + npages_of o) as Hnf.
  { transitivity (nfree (pushed (o, k) g)); [unfold freed_block; by destruct (o <? _)%nat|].
    unfold pushed. rewrite nfree_set by apply Hv. simpl length. simpl fst. lia. }
  assert (same_group g (freed_block o k g)) as Hs1 by (unfold freed_block; by destruct (o <? _)%nat).
  assert (maximal ((P ∪ {[(o, k)]}) ∖ {[(o, k)]})) as Hm1 by (apply (maximal_sub P); [set_solver|done]).
  destruct (page_join_ok N _ PAGE_NSIZES o k (freed_block o k g) _ Hg1 ltac:(set_solver) Hm1 ltac:(lia))
    as (g' & P' & E & Hs & Hg' & Hm' & Hn' & Hfp').
  destruct (decide (o < PAGE_NSIZES - 1)%nat) as [Ho|Ho].
  - exists g', P'. rewrite (proj2 (Nat.ltb_lt _ _)) by done. split_and!; [..|done|done|lia|].
    + rewrite (push_flip_eq N g o k _ (gi_geo _ _ _ _ Hg) Hv ltac:(lia)).
      assert (blk (freed_block o k g) (o, k) = blk g (o, k)) as Eb.
      { unfold blk. by destruct Hs1 as (-> & _). }
      rewrite Eb in E. revert E. unfold freed_block. by rewrite (proj2 (Nat.ltb_lt _ _)) by done.
    + destruct Hs1 as (? & ? & ?), Hs as (? & ? & ?). repeat split; congruence.
    + intros p. by rewrite Hfp'.
  - exists (pushed (o, k) g), (P ∪ {[(o, k)]}). revert Hg1 Hnf Hs1. unfold freed_block.
    rewrite (proj2 (Nat.ltb_ge _ _)) by lia. intros Hg1 Hnf Hs1. split_and!; try done.
    apply (maximal_largest _ o k); [done|lia].
Qed.

(** ** All groups *)

Record ghost : Type := MkGhost {
  gN : Z;                (* pages of the group that can be allocated *)
  gP : gset block;       (* its free blocks *)
  gA : gset block        (* the blocks handed out *)
}.

Definition group_ok (g : pagegroup) (γ : ghost) : Prop := ginv (gN γ) g (gP γ) (gA γ) /\ maximal (gP γ).

(** Free pages as [page_freecount] counts them: the pages after the last
    block of the largest order, which are on no list, are included. *)
Fixpoint total (l : list pagegroup) (G : list ghost) : Z :=
  match l, G with
  | g :: l', γ :: G' => nfree g + ((pg_endaddr g - pg_baseaddr g) / PAGE_SIZE - gN γ) + total l' G'
  | _, _ => 0
  end.

Record pinv (G : list ghost) (s : pages) : Prop := {
  pi_groups : Forall2 group_ok (pagegroup_list s) G;
  pi_apart : forall i j g h, i <> j -> pagegroup_list s !! i = Some g -> pagegroup_list s !! j = Some h ->
    pg_endaddr g <= pg_baseaddr h \/ pg_endaddr h <= pg_baseaddr g;
  pi_count : page_freecount s = u32 (total (pagegroup_list s) G)
}.

Lemma total_insert l G i g g' γ γ' :
  l !! i = Some g -> G !! i = Some γ -> same_group g g' -> gN γ' = gN γ ->
  total (<[i := g']> l) (<[i := γ']> G) = total l G + (nfree g' - nfree g).
Proof.
  intros Hg HG (E1 & E2 & _) EN. revert i G Hg HG. induction l as [|h l IH]; intros i G Hg HG; [done|].
  destruct G as [|δ G]; [done|]. destruct i as [|i]; simpl in *.
  - injection Hg as ->. injection HG as ->. rewrite E1, E2, EN. lia.
  - rewrite IH by done. lia.
Qed.

Lemma u32_add a b : u32 (u32 a + b) = u32 (a + b).
Proof. unfold u32. apply Zplus_mod_idemp_l. Qed.

(** One group and the count change together. *)
Lemma pinv_insert G s i g g' γ γ' d :
  pinv G s -> pagegroup_list s !! i = Some g -> G !! i = Some γ -> same_group g g' -> gN γ' = gN γ ->
  group_ok g' γ' -> nfree g' = nfree g + d ->
  pinv (<[i := γ']> G) (MkPages (<[i := g']> (pagegroup_list s)) (u32 (page_freecount s + d))).
Proof.
  intros [Hf Ha Hc] Hg HG Hs EN Hok Hn. split; simpl.
  - by apply Forall2_insert.
  - assert (forall j h, <[i := g']> (pagegroup_list s) !! j = Some h ->
      exists h0, pagegroup_list s !! j = Some h0 /\ pg_endaddr h = pg_endaddr h0 /\ pg_baseaddr h = pg_baseaddr h0) as Hold.
    { intros j h Hj. destruct (decide (j = i)) as [->|Hne].
      - rewrite list_lookup_insert_eq in Hj by (by eapply lookup_lt_Some). injection Hj as <-.
        destruct Hs as (? & ? & _). eauto.
      - rewrite list_lookup_insert_ne in Hj by done. eauto. }
    intros j k h1 h2 Hne H1 H2. destruct (Hold _ _ H1) as (h1' & L1 & -> & ->), (Hold _ _ H2) as (h2' & L2 & -> & ->).
    by apply (Ha j k).
  - rewrite (total_insert _ _ _ g _ γ) by done. rewrite Hc, u32_add. f_equal. lia.
Qed.

Lemma in_group_eq {A} i (m : M pagegroup A) s g a g' :
  pagegroup_list s !! i = Some g -> m g = Ret (a, g') ->
  in_group i m s = Ret (a, MkPages (<[i := g']> (pagegroup_list s)) (page_freecount s)).
Proof. intros E1 E2. unfold in_group. by rewrite E1, E2. Qed.

Lemma from_address_eq l i g addr :
  l !! i = Some g -> pg_baseaddr g <= addr < pg_endaddr g ->
  (forall j h, j <> i -> l !! j = Some h -> pg_endaddr h <= pg_baseaddr g \/ pg_endaddr g <= pg_baseaddr h) ->
  _pagegroup_from_address l addr = Some i.
Proof.
  revert i. induction l as [|h l IH]; intros i Hi Ha Hap; [done|]. simpl.
  destruct i as [|i].
  - injection Hi as ->. rewrite (proj2 (Z.leb_le _ _)), (proj2 (Z.ltb_lt _ _)) by lia. done.
  - assert ((pg_baseaddr h <=? addr) && (addr <? pg_endaddr h) = false) as ->.
    { apply andb_false_iff. destruct (Hap 0%nat h) as [|]; [done|done|..];
        [right; apply Z.ltb_ge|left; apply Z.leb_gt]; lia. }
    rewrite (IH i); [done|done|done|]. intros j k Hne Hj. apply (Hap (S j)); [congruence|done].
Qed.

(** ** Fragmentation *)

Lemma inb_bigger o o' i p q :
  (o <= o')%nat -> inb (o, i) p -> inb (o, i) q -> p / npages_of o' = q / npages_of o'.
Proof.
  intros Ho Hp Hq. unfold inb in *. simpl in *.
  assert (npages_of o' = npages_of o * 2 ^ (Z.of_nat o' - Z.of_nat o)) as ->.
  { unfold npages_of. rewrite <- Z.pow_add_r by lia. f_equal. lia. }
  pose proof (npages_of_pos o). assert (0 < 2 ^ (Z.of_nat o' - Z.of_nat o)) by (apply Z.pow_pos_nonneg; lia).
  rewrite <- !Z.div_div by lia. by rewrite Hp, Hq.
Qed.

(** Since no two buddies are free, an aligned run of pages that are all free
    lies inside one free block. *)
Lemma free_run_in_block N P A o : forall j,
  partition N (live P A) -> maximal P -> (o < PAGE_NSIZES)%nat ->
  (forall p, inb (o, j) p -> fpage P p) ->
  exists b, b ∈ P /\ (o <= b.1)%nat /\ forall p, inb (o, j) p -> inb b p.
Proof.
  induction o as [|o IH]; intros j Hpart Hm Ho Hall.
  - destruct (Hall j) as (b & Hb & Hin); [unfold inb; simpl; apply Z.div_1_r|].
    exists b. split_and!; [done|lia|]. intros p Hp. unfold inb in Hp. simpl in Hp.
    change (npages_of 0) with 1 in Hp. rewrite Z.div_1_r in Hp. by subst.
  - destruct (IH (2 * j)) as (b0 & Hb0 & Ho0 & Hc0); [done|done|lia|intros; apply Hall, inb_children; auto|].
    destruct (IH (2 * j + 1)) as (b1 & Hb1 & Ho1 & Hc1); [done|done|lia|intros; apply Hall, inb_children; auto|].
    assert (forall b i, b ∈ P -> (S o <= b.1)%nat -> (i = 2 * j \/ i = 2 * j + 1) -> (forall p, inb (o, i) p -> inb b p) ->
      exists b, b ∈ P /\ (S o <= b.1)%nat /\ forall p, inb (S o, j) p -> inb b p) as Hbig.
    { intros b i Hb Hlt Hi Hc. exists b. split_and!; [done|done|]. intros p Hp. unfold inb at 1.
      rewrite (inb_bigger (S o) b.1 j p (i * npages_of o)); [apply (Hc _ (inb_self o i))|done|done|].
      apply inb_children. destruct Hi as [->| ->]; [left|right]; apply inb_self. }
    destruct (decide (S o <= b0.1)%nat) as [|N0]; [eapply (Hbig b0 (2 * j)); auto|].
    destruct (decide (S o <= b1.1)%nat) as [|N1]; [eapply (Hbig b1 (2 * j + 1)); auto|].
    exfalso. assert (forall b i, (o <= b.1)%nat -> ~ (S o <= b.1)%nat -> (forall p, inb (o, i) p -> inb b p) -> b = (o, i)) as Heq.
    { intros [ob ib] i H1 H2 Hc. simpl in *. assert (ob = o) as -> by lia. f_equal.
      specialize (Hc _ (inb_self o i)). pose proof (inb_self o i) as Hs. unfold inb in *. simpl in *. congruence. }
    rewrite (Heq b0 (2 * j)) in Hb0 by done. rewrite (Heq b1 (2 * j + 1)) in Hb1 by done.
    apply (Hm o j); [lia|done|done].
Qed.

(** ** Allocation *)

(** What an allocation of order [o] that succeeds does: block [(o, j)] of group
    [i] leaves the free pages and is handed out. *)
Definition allocated_block (G G' : list ghost) (s s' : pages) (o : nat) (addr : Z) : Prop :=
  exists i j γ γ' g, G !! i = Some γ /\ pagegroup_list s !! i = Some g /\ G' = <[i := γ']> G /\
    pinv G' s' /\ addr = blk g (o, j) /\ gN γ' = gN γ /\ gA γ' = gA γ ∪ {[(o, j)]} /\
    (forall p, inb (o, j) p -> fpage (gP γ) p) /\
    (forall p, fpage (gP γ') p <-> fpage (gP γ) p /\ ~ inb (o, j) p).

Lemma fpage_take N P A o j p :
  partition N (live P A) -> (o, j) ∈ P ->
  fpage (P ∖ {[(o, j)]}) p <-> fpage P p /\ ~ inb (o, j) p.
Proof.
  intros Hp Hin. split.
  - intros (b & [Hb Hne]%elem_of_difference & Hi). split; [by exists b|]. intros Hj. apply Hne.
    apply elem_of_singleton. by apply (pt_disj _ _ Hp b (o, j) p); [left|left|..].
  - intros [(b & Hb & Hi) Hn]. exists b. split; [|done]. apply elem_of_difference. split; [done|].
    by intros ->%elem_of_singleton.
Qed.

(** Taking the head of the list of group [i], after the group was changed to
    [g1] by splits that keep its free pages. *)
Lemma page_take_ok G s i g g1 γ P1 o j rest :
  pinv G s -> pagegroup_list s !! i = Some g -> G !! i = Some γ -> same_group g g1 ->
  ginv (gN γ) g1 P1 (gA γ) -> maximal (P1 ∖ {[(o, j)]}) -> (o, j) ∈ P1 ->
  freelist g1 o = blk g1 (o, j) :: rest -> nfree g1 = nfree g ->
  (forall p, fpage P1 p <-> fpage (gP γ) p) ->
  exists G' s', page_take o i (MkPages (<[i := g1]> (pagegroup_list s)) (page_freecount s)) = Ret (Some (blk g (o, j)), s') /\
    allocated_block G G' s s' o (blk g (o, j)).
Proof.
  intros Hinv Hg HG Hs1 Hg1 Hm1 Hin1 El Hn1 Hfp.
  assert (blk g1 (o, j) = blk g (o, j)) as Eb by (unfold blk; by destruct Hs1 as (-> & _)).
  destruct (group_take_ok _ _ _ _ _ _ _ Hg1 El) as (j' & g2 & Hin' & E' & Et & Hs2 & Hg2 & Hn2).
  apply blk_inj in E'; [|done]. injection E' as <-.
  set (γ' := MkGhost (gN γ) (P1 ∖ {[(o, j)]}) (gA γ ∪ {[(o, j)]})).
  assert (same_group g g2) as Hs by (destruct Hs1 as (? & ? & ?), Hs2 as (? & ? & ?); repeat split; congruence).
  exists (<[i := γ']> G), (MkPages (<[i := g2]> (pagegroup_list s)) (u32 (page_freecount s + - npages_of o))). split.
  - assert (pagegroup_list (MkPages (<[i := g1]> (pagegroup_list s)) (page_freecount s)) !! i = Some g1) as Hl.
    { simpl. apply list_lookup_insert_eq. by eapply lookup_lt_Some. }
    unfold page_take. rewrite (bind_eq _ _ _ _ _ (in_group_eq i _ _ _ _ _ Hl Et)).
    unfold add_freecount. rewrite bind_modify. simpl. by rewrite list_insert_insert_eq, Eb.
  - exists i, j, γ, γ', g. split_and!; try done.
    + apply (pinv_insert _ _ _ g _ γ); try done. lia.
    + intros p Hp. apply Hfp. by exists (o, j).
    + intros p. simpl. rewrite (fpage_take (gN γ) P1 (gA γ)); [|apply Hg1|done]. by rewrite Hfp.
Qed.

Lemma pages_same i g s :
  pagegroup_list s !! i = Some g -> MkPages (<[i := g]> (pagegroup_list s)) (page_freecount s) = s.
Proof. intros E. destruct s. simpl in *. by rewrite list_insert_id. Qed.

Lemma no_block_above l G o :
  Forall2 group_ok l G ->
  Forall (fun g => forall o', (o <= o' < PAGE_NSIZES)%nat -> freelist g o' = []) l ->
  forall γ b, γ ∈ G -> b ∈ gP γ -> (b.1 < o)%nat.
Proof.
  intros H2 Hnil γ b Hγ Hb. apply list_elem_of_lookup in Hγ as (i & Hi).
  destruct (Forall2_lookup_r _ _ _ _ _ H2 Hi) as (g & Hg & [Hok _]).
  destruct (decide (o <= b.1)%nat) as [Ho|]; [|lia].
  destruct (ginv_valid _ _ _ _ _ Hok Hb) as [Hb8 _].
  assert (blk g b ∈ freelist g b.1) as Hin.
  { apply (lo_elem _ _ (gi_lists _ _ _ _ Hok)). exists b.2. by destruct b. }
  rewrite (Forall_lookup_1 _ _ _ _ Hnil Hg b.1) in Hin by lia. set_solver.
Qed.

Lemma page_alloc_order_ok G s freed o :
  pinv G s -> (o < PAGE_NSIZES)%nat ->
  (exists G' s' addr, _page_alloc_order freed o s = Ret (Some addr, s') /\ allocated_block G G' s s' o addr) \/
  ((forall γ b, γ ∈ G -> b ∈ gP γ -> (b.1 < o)%nat) /\
   _page_alloc_order freed o s = (reclaim freed ;;; ret None) s).
Proof.
  intros Hinv Ho. pose proof (pi_groups _ _ Hinv) as H2. unfold _page_alloc_order. rewrite bind_gets.
  pose proof (group_with_spec (pagegroup_list s) o) as Hw. destruct (group_with _ o) as [i|].
  - left. destruct Hw as (g & a & rest & Hg & El).
    destruct (Forall2_lookup_l _ _ _ _ _ H2 Hg) as (γ & HG & [Hok Hm]).
    destruct (head_block _ _ _ _ _ (gi_lists _ _ _ _ Hok) El) as (j & Hin & ->).
    destruct (page_take_ok G s i g g γ (gP γ) o j rest) as (G' & s' & E & Ha); try done.
    { apply (maximal_sub (gP γ)); [set_solver|done]. }
    rewrite pages_same in E by done. by exists G', s', (blk g (o, j)).
  - unfold _page_split. rewrite bind_bind, bind_gets.
    pose proof (find_bigger_spec (pagegroup_list s) (seq (o + 1) (PAGE_NSIZES - (o + 1)))) as Hb.
    destruct (find_bigger _ _) as [[n i]|].
    + left. destruct Hb as [Hn%list_elem_of_In%in_seq (g & a & rest & Hg & El)].
      destruct (Forall2_lookup_l _ _ _ _ _ H2 Hg) as (γ & HG & [Hok Hm]).
      destruct (head_block _ _ _ _ _ (gi_lists _ _ _ _ Hok) El) as (k & Hin & ->).
      replace n with (o + (n - o))%nat in Hin, El by lia.
      destruct (split_down_ok (gN γ) (gA γ) o (n - o) g (gP γ) k rest)
        as (g1 & P1 & j & rest1 & E1 & Hs1 & Hg1 & Hm1 & Hin1 & El1 & Hn1 & Hfp1); try done.
      { apply (maximal_sub (gP γ)); [set_solver|done]. }
      destruct (page_take_ok G s i g g1 γ P1 o j rest1) as (G' & s' & E & Ha); try done.
      exists G', s', (blk g (o, j)). split; [|done]. rewrite bind_bind.
      erewrite bind_eq; [rewrite bind_ret; exact E|]. apply in_group_eq with (g := g); [done|].
      rewrite (bind_eq _ _ _ _ _ E1), bind_gets. by rewrite El1.
    + right. split; [|rewrite bind_bind; unfold bind; by destruct (reclaim freed s) as [[[] ?]|]].
      apply (no_block_above (pagegroup_list s)); [done|]. rewrite Forall_forall in *.
      intros g Hg o' Ho'. destruct (decide (o' = o)) as [->|]; [by apply Hw|].
      apply (Hb g Hg). apply list_elem_of_In, in_seq. lia.
Qed.

Lemma page_free_order_ok G s i γ g o j :
  pinv G s -> G !! i = Some γ -> pagegroup_list s !! i = Some g -> (o, j) ∈ gA γ ->
  exists γ' s', _page_free_order (blk g (o, j)) o s = Ret (tt, s') /\ pinv (<[i := γ']> G) s' /\
    gN γ' = gN γ /\ gA γ' = gA γ ∖ {[(o, j)]} /\
    (forall p, fpage (gP γ') p <-> fpage (gP γ) p \/ inb (o, j) p).
Proof.
  intros Hinv HG Hg Hin. destruct (Forall2_lookup_lr _ _ _ _ _ _ (pi_groups _ _ Hinv) Hg HG) as [Hok Hm].
  destruct (group_free_ok _ _ _ _ _ _ Hok Hm Hin) as (g' & P' & E & Hs & Hg' & Hm' & Hn & Hfp).
  pose proof (pt_valid _ _ (gi_part _ _ _ _ Hok) (o, j) ltac:(by right)) as Hv.
  destruct (blk_range _ _ _ (gi_geo _ _ _ _ Hok) Hv) as [R1 R2]. simpl in R2.
  assert (0 < bytes_of o) as Hbp by (unfold bytes_of, PAGE_SIZE; pose proof (npages_of_pos o); lia).
  exists (MkGhost (gN γ) P' (gA γ ∖ {[(o, j)]})), (MkPages (<[i := g']> (pagegroup_list s)) (u32 (page_freecount s + npages_of o))).
  split_and!; try done; [|by apply (pinv_insert _ _ _ g _ γ)].
  unfold _page_free_order. rewrite bind_gets.
  rewrite (from_address_eq _ i g); [|done|lia|].
  2: { intros k h Hne Hk. by apply (pi_apart _ _ Hinv k i). }
  rewrite (bind_eq _ _ _ _ _ (in_group_eq i _ _ _ _ _ Hg (freelist_push_eq g (o, j)))).
  unfold add_freecount. rewrite bind_modify. cbn [pagegroup_list page_freecount].
  destruct (o <? PAGE_NSIZES - 1)%nat.
  - erewrite in_group_eq; [|simpl; apply list_lookup_insert_eq; by eapply lookup_lt_Some|exact E].
    simpl. by rewrite list_insert_insert_eq.
  - injection E as <-. done.
Qed.

(** ** Adding a range of memory *)

Lemma map_bytes_bounds n o : 0 <= n < 1048576 -> (1 <= o < PAGE_NSIZES)%nat ->
  0 <= map_bytes n o <= n /\ n / npages_of o <= 8 * map_bytes n o.
Proof.
  intros Hn Ho. unfold map_bytes. rewrite !Z.shiftr_div_pow2 by lia. fold (npages_of o). change (2 ^ 3) with 8.
  pose proof (npages_of_pos o) as Hp. set (c := n / npages_of o).
  assert (2 <= npages_of o) as Hp2.
  { etrans; [|apply (npages_of_mono 1 o); lia]. done. }
  assert (0 <= c /\ 2 * c <= n) as [Hc0 Hc].
  { pose proof (Z.mul_div_le n (npages_of o)). pose proof (Z.div_pos n (npages_of o)). unfold c. split; nia. }
  destruct (decide (c = 0)) as [->|Hne].
  { change (u32 (8 * (u32 (0 - 1) / 8) + 8) / 8) with 0. lia. }
  rewrite (u32_small (c - 1)) by (unfold is_u32, two32; lia).
  rewrite u32_small by (unfold is_u32, two32; dlia). dlia.
Qed.

Lemma carve_maps_bounds n e : 0 <= n < 1048576 -> 7 * n <= e < two32 ->
  e - 7 * n <= carve_maps n e <= e.
Proof.
  intros Hn. unfold carve_maps. change 7 with (Z.of_nat (length (seq 1 (PAGE_NSIZES - 1)))).
  assert (forall o, o ∈ seq 1 (PAGE_NSIZES - 1) -> 0 <= map_bytes n o <= n) as Hb.
  { intros o Ho%list_elem_of_In%in_seq. apply map_bytes_bounds; [done|lia]. }
  revert e Hb. generalize (seq 1 (PAGE_NSIZES - 1)). induction l as [|o l IH]; intros e Hb He; simpl; [lia|].
  simpl length in He. destruct (Hb o ltac:(set_solver)) as [H0 H1].
  rewrite u32_small by (unfold is_u32; lia).
  assert (forall o, o ∈ l -> 0 <= map_bytes n o <= n) as Hb' by (intros; apply Hb; set_solver).
  specialize (IH (e - map_bytes n o) Hb'). lia.
Qed.

Lemma drop_remainder_gen n e k : 0 <= n -> n * 4096 <= e < two32 ->
  foldl (fun e o => if Z.testbit n (Z.of_nat o) then u32 (e - bytes_of o) else e) e (seq 0 k)
  = e - (n mod npages_of k) * 4096.
Proof.
  intros Hn He. induction k as [|k IH].
  - simpl. change (npages_of 0) with 1. rewrite Z.mod_1_r. lia.
  - rewrite seq_S, foldl_app, IH. simpl.
    pose proof (npages_of_pos k) as Hp. rewrite npages_of_S, (Z.mul_comm 2), Z.rem_mul_r by lia.
    rewrite Z.testbit_odd, Z.shiftr_div_pow2 by lia. fold (npages_of k). rewrite Zmod_odd.
    pose proof (Z.mod_pos_bound n (npages_of k) Hp). pose proof (Z.mod_le n (npages_of k) Hn Hp).
    destruct (Z.odd (n / npages_of k)) eqn:Eo; [|lia].
    assert (n mod (npages_of k * 2) <= n) as Hle by (apply Z.mod_le; lia).
    rewrite Z.rem_mul_r, Zmod_odd, Eo in Hle by lia.
    unfold bytes_of, PAGE_SIZE. rewrite u32_small by (unfold is_u32; lia). lia.
Qed.

Lemma fill_largest_eq fuel k cur acc :
  0 <= cur -> 0 <= k -> (Z.to_nat k <= fuel)%nat -> cur + k * bytes_of (PAGE_NSIZES - 1) < two32 ->
  fill_largest fuel cur (cur + k * bytes_of (PAGE_NSIZES - 1)) acc
  = Ret (reverse ((fun i => cur + i * bytes_of (PAGE_NSIZES - 1)) <$> seqZ 0 k) ++ acc).
Proof.
  set (w := bytes_of (PAGE_NSIZES - 1)). assert (0 < w) as Hw by (vm_compute; done).
  revert k cur acc. induction fuel as [|fuel IH]; intros k cur acc Hc Hk Hf Hlt.
  - assert (k = 0) as -> by lia. simpl. by rewrite (proj2 (Z.ltb_ge _ _)) by lia.
  - cbn [fill_largest]. destruct (decide (k = 0)) as [->|Hne].
    { by rewrite (proj2 (Z.ltb_ge _ _)) by lia. }
    rewrite (proj2 (Z.ltb_lt _ _)) by nia. fold w. rewrite u32_small by (unfold is_u32; nia).
    replace (cur + k * w) with ((cur + w) + (k - 1) * w) by lia. rewrite IH by (lia || nia).
    rewrite (seqZ_cons 0 k) by lia. change (Z.succ 0) with (1 + 0). rewrite <- fmap_add_seqZ.
    rewrite fmap_cons, reverse_cons, <- app_assoc. simpl.
    replace (cur + 0 * w) with cur by lia. do 3 f_equal. rewrite <- list_fmap_compose.
    replace (k - 1) with (Z.pred k) by lia. apply list_fmap_ext. intros ? x _. simpl. lia.
Qed.

(** All blocks of the largest order among [N] pages. *)
Definition largest_blocks (N : Z) : gset block :=
  list_to_set ((fun i => ((PAGE_NSIZES - 1)%nat, i)) <$> seqZ 0 (N / 128)).

Lemma elem_largest N b : b ∈ largest_blocks N <-> b.1 = (PAGE_NSIZES - 1)%nat /\ 0 <= b.2 < N / 128.
Proof.
  unfold largest_blocks. rewrite elem_of_list_to_set, list_elem_of_fmap. destruct b as [o i]. split.
  - intros (j & [= -> ->] & Hj%elem_of_seqZ). simpl. lia.
  - simpl. intros [-> Hi]. exists i. split; [done|]. apply elem_of_seqZ. lia.
Qed.

Lemma partition_largest N : 0 <= N -> N mod 128 = 0 -> partition N (live (largest_blocks N) ∅).
Proof.
  intros H0 Hm. split.
  - intros [o i] [[Ho Hi]%elem_largest|?]; [|set_solver]. simpl in Ho, Hi. subst o.
    split_and!; simpl; [unfold PAGE_NSIZES; lia|lia|]. change (npages_of 7) with 128. dlia.
  - intros [o1 i1] [o2 i2] p [[Ho1 Hi1]%elem_largest|?] [[Ho2 Hi2]%elem_largest|?]; [|set_solver..].
    simpl in Ho1, Ho2. subst. unfold inb. simpl. congruence.
  - intros p Hp. exists ((PAGE_NSIZES - 1)%nat, p / 128). split; [|done]. left. apply elem_largest. simpl. split; [done|]. dlia.
Qed.

(** A fresh group: everything that makes up whole blocks of the largest order
    is free. *)
Lemma fresh_group_ok N base e bits :
  0 <= N -> N mod 128 = 0 -> 0 < base -> base mod PAGE_SIZE = 0 -> base + N * PAGE_SIZE <= e < two32 ->
  (forall o, (1 <= o < PAGE_NSIZES)%nat -> exists c, bits !! o = Some c /\ N / npages_of o <= c) ->
  let g := MkGroup (<[(PAGE_NSIZES - 1)%nat :=
                     reverse ((fun i => base + i * bytes_of (PAGE_NSIZES - 1)) <$> seqZ 0 (N / 128)) ++ []]> ∅)
             ∅ bits base e in
  group_ok g (MkGhost N (largest_blocks N) ∅) /\ nfree g = N.
Proof.
  intros H0 Hm Hb Hal He Hc g.
  assert (forall o, freelist g o = if decide (o = (PAGE_NSIZES - 1)%nat)
    then reverse ((fun i => base + i * bytes_of (PAGE_NSIZES - 1)) <$> seqZ 0 (N / 128)) else []) as Hfl.
  { intros o. unfold freelist, g. simpl pg_freelist. destruct (decide _) as [->|Hne].
    - rewrite lookup_insert_eq. simpl. by rewrite app_nil_r.
    - rewrite lookup_insert_ne by (by apply not_eq_sym). by rewrite lookup_empty. }
  assert (forall i, base + i * bytes_of (PAGE_NSIZES - 1) = blk g ((PAGE_NSIZES - 1)%nat, i)) as Hblk.
  { intros i. unfold blk, bytes_of. simpl. lia. }
  split; [split|].
  - split; simpl.
    + split; simpl; auto.
    + split.
      * intros o a. rewrite Hfl. destruct (decide _) as [->|Hne].
        -- rewrite elem_of_reverse, list_elem_of_fmap. split.
           ++ intros (i & -> & Hi%elem_of_seqZ). exists i. rewrite elem_largest, Hblk. simpl. split_and!; try lia; done.
           ++ intros (i & [_ Hi]%elem_largest & ->). exists i. simpl in Hi. rewrite Hblk, elem_of_seqZ. split; [done|lia].
        -- split; [set_solver|]. intros (i & [Ho _]%elem_largest & _). simpl in Ho. done.
      * intros o. rewrite Hfl. destruct (decide _); [|constructor]. rewrite reverse_Permutation. apply NoDup_fmap_2_strong; [|apply NoDup_seqZ].
        intros x y _ _. assert (0 < bytes_of (PAGE_NSIZES - 1)) by (vm_compute; done). nia.
    + intros o i Ho. rewrite !elem_largest. simpl. split; [set_solver|]. intros Hx.
      assert (o = PAGE_NSIZES - 1 \/ o <> PAGE_NSIZES - 1)%nat as [|Hne] by lia; [unfold PAGE_NSIZES in *; lia|].
      exfalso. simpl in *. tauto.
    + by apply partition_largest.
    + set_solver.
  - intros o i Ho [E _]%elem_largest. simpl in *. unfold PAGE_NSIZES in Ho. lia.
  - assert (forall o, (o < 7)%nat -> freelist g o = []) as Hnil.
    { intros o Ho. rewrite Hfl. by rewrite decide_False by (unfold PAGE_NSIZES; lia). }
    unfold nfree. unfold PAGE_NSIZES at 1. cbn [seq foldr].
    rewrite (Hnil 0%nat), (Hnil 1%nat), (Hnil 2%nat), (Hnil 3%nat), (Hnil 4%nat), (Hnil 5%nat), (Hnil 6%nat) by lia.
    rewrite Hfl, decide_True by done. rewrite length_reverse, length_fmap, length_seqZ.
    change (npages_of 7) with 128. simpl length. dlia.
Qed.

Lemma pagegroup_create_ok base e :
  0 < base -> base mod 4096 = 0 -> e mod 4096 = 0 -> base + 8192 <= e < two32 ->
  exists g n, _pagegroup_create base e = Ret g /\
    group_ok g (MkGhost (n - n mod 128) (largest_blocks (n - n mod 128)) ∅) /\
    nfree g = n - n mod 128 /\ pg_baseaddr g = base /\ pg_endaddr g = base + n * 4096 /\
    1 <= n /\ base + n * 4096 <= e.
Proof.
  intros Hb Hbm Hem He. unfold two32 in He. set (n0 := (e - base) / 4096).
  assert (2 <= n0 < 1048576 /\ e = base + n0 * 4096) as [Hn0 Ee] by (unfold n0; dlia).
  unfold _pagegroup_create. rewrite (u32_small (e - base)) by (unfold is_u32, two32; lia).
  rewrite !(Z.shiftr_div_pow2 _ PAGE_SHIFT) by (unfold PAGE_SHIFT; lia). change (2 ^ PAGE_SHIFT) with 4096. fold n0.
  unfold sizeof_pagegroup. rewrite (u32_small (e - 112)) by (unfold is_u32, two32; lia).
  pose proof (carve_maps_bounds n0 (e - 112) ltac:(lia) ltac:(unfold two32; lia)) as Hcm.
  rewrite PAGE_ALIGN_DOWN_eq, (u32_small (carve_maps _ _)) by (unfold is_u32, two32; lia).
  set (e2 := 4096 * (carve_maps n0 (e - 112) / 4096)). set (n := (e2 - base) / 4096).
  assert (1 <= n /\ e2 = base + n * 4096 /\ e2 <= e) as (Hn & Ee2 & Hle) by (unfold n, e2; dlia).
  rewrite (u32_small (e2 - base)) by (unfold is_u32, two32; lia). fold n.
  unfold drop_remainder. rewrite drop_remainder_gen by (unfold two32; lia).
  change (npages_of (PAGE_NSIZES - 1)) with 128. set (N := n - n mod 128).
  assert (0 <= N /\ N mod 128 = 0 /\ N <= n) as (HN & HNm & HNn) by (unfold N; dlia).
  assert (e2 - n mod 128 * 4096 = base + (N / 128) * bytes_of (PAGE_NSIZES - 1)) as ->.
  { change (bytes_of (PAGE_NSIZES - 1)) with 524288. unfold N in *. dlia. }
  change (bytes_of (PAGE_NSIZES - 1)) with 524288.
  replace (base + N / 128 * 524288 - base) with (N / 128 * 524288) by lia.
  rewrite (u32_small (N / 128 * 524288)) by (unfold is_u32, two32; dlia).
  rewrite (proj2 (Z.eqb_eq (_ mod 128) 0)) by dlia. change 524288 with (bytes_of (PAGE_NSIZES - 1)).
  rewrite Z.div_mul by (vm_compute; done).
  rewrite fill_largest_eq; [|lia|dlia|lia|change (bytes_of (PAGE_NSIZES - 1)) with 524288; unfold two32; dlia].
  eexists _, n. split; [done|]. edestruct fresh_group_ok as [Hok Hnf]; [exact HN|exact HNm|exact Hb|exact Hbm| | |].
  3: { split_and!; [exact Hok|exact Hnf|done|simpl; lia|lia|lia]. }
  - unfold PAGE_SIZE, two32. lia.
  - intros o Ho. exists (8 * map_bytes n0 o). split.
    + apply elem_of_list_to_map_1.
      * apply (NoDup_seq 1 (PAGE_NSIZES - 1)).
      * apply list_elem_of_fmap. exists o. split; [done|]. apply list_elem_of_In, in_seq. lia.
    + etrans; [|apply (map_bytes_bounds n0 o); [lia|done]]. apply Z.div_le_mono; [apply npages_of_pos|]. unfold n, N in *. dlia.
Qed.

Lemma total_app l G g γ : length l = length G ->
  total (l ++ [g]) (G ++ [γ]) = total l G + total [g] [γ].
Proof.
  revert G. induction l as [|h l IH]; intros [|δ G] Hl; simpl in *; try done.
  rewrite IH by lia. simpl. lia.
Qed.

Lemma page_add_range_ok G s start e :
  pinv G s -> 4096 <= start < two32 -> 0 <= e < two32 ->
  PAGE_ALIGN_DOWN start + 8192 <= PAGE_ALIGN_DOWN e ->
  Forall (fun g => pg_endaddr g <= PAGE_ALIGN_DOWN start \/ PAGE_ALIGN_DOWN e <= pg_baseaddr g) (pagegroup_list s) ->
  exists s' γ n, page_add_range start e s = Ret (tt, s') /\ pinv (G ++ [γ]) s' /\ gA γ = ∅ /\
    1 <= n /\ page_freecount s' = u32 (page_freecount s + n) /\ gN γ = n - n mod 128 /\
    forall p, 0 <= p < gN γ -> fpage (gP γ) p.
Proof.
  intros [Hf Ha Hc] Hs He Hlen Hfree. unfold page_add_range.
  rewrite !PAGE_ALIGN_DOWN_eq, !u32_small in * by (unfold is_u32; lia).
  destruct (pagegroup_create_ok (4096 * (start / 4096)) (4096 * (e / 4096))) as (g & n & E & Hok & Hnf & Eb & Ee & Hn & Hle);
    [dlia|dlia|dlia|unfold two32 in *; dlia|].
  rewrite E, (proj2 (Z.ltb_lt _ _)) by lia.
  eexists _, (MkGhost (n - n mod 128) (largest_blocks (n - n mod 128)) ∅), n.
  split; [done|]. split_and!; [|done|done|..|done|].
  - split; simpl.
    + apply Forall2_app; [done|by constructor].
    + intros i j g1 g2 Hne H1 H2.
      apply lookup_app_Some in H1 as [H1|[L1 H1]], H2 as [H2|[L2 H2]].
      * by apply (Ha i j).
      * apply list_lookup_singleton_Some in H2 as [_ <-]. pose proof (Forall_lookup_1 _ _ _ _ Hfree H1) as Hx. simpl in Hx. lia.
      * apply list_lookup_singleton_Some in H1 as [_ <-]. pose proof (Forall_lookup_1 _ _ _ _ Hfree H2) as Hx. simpl in Hx. lia.
      * apply list_lookup_singleton_Some in H1 as [E1 _], H2 as [E2 _]. lia.
    + rewrite total_app by (by eapply Forall2_length). simpl. rewrite Hc, u32_add. f_equal.
      rewrite Eb, Ee, Hnf. rewrite ADDR_TO_PN_div.
      replace (4096 * (start / 4096) + n * 4096 - 4096 * (start / 4096)) with (n * 4096) by lia.
      rewrite !(u32_small (n * 4096)) by (unfold is_u32, two32 in *; dlia).
      unfold PAGE_SIZE. rewrite !Z.div_mul by lia. simpl. lia.
  - simpl. f_equal. rewrite Eb, Ee, ADDR_TO_PN_div.
    replace (4096 * (start / 4096) + n * 4096 - 4096 * (start / 4096)) with (n * 4096) by lia.
    rewrite !(u32_small (n * 4096)) by (unfold is_u32, two32 in *; dlia). by rewrite Z.div_mul by lia.
  - simpl. intros p Hp. exists ((PAGE_NSIZES - 1)%nat, p / 128). split; [|done].
    apply elem_largest. simpl. split; [done|]. dlia.
Qed.

(** ** Theorems *)

(** The order chosen for [n] pages is the smallest that is large enough. *)
Definition order_of (n : Z) (o : nat) : Prop :=
  (o < PAGE_NSIZES)%nat /\ n <= npages_of o /\ forall o', (o' < o)%nat -> npages_of o' < n.

Lemma order_for_gen n k o0 :
  is_s32 n -> (forall o', (o' < o0)%nat -> npages_of o' < n) ->
  match order_for (seq o0 k) n with
  | Some o => (o0 <= o < o0 + k)%nat /\ n <= npages_of o /\ forall o', (o' < o)%nat -> npages_of o' < n
  | None => forall o', (o' < o0 + k)%nat -> npages_of o' < n
  end.
Proof.
  intros Hn. revert o0. induction k as [|k IH]; intros o0 Hlow; simpl.
  - intros o'. rewrite Nat.add_0_r. auto.
  - rewrite s32_small by done. destruct (Z.leb_spec n (npages_of o0)) as [Hle|Hgt]; [split_and!; [lia..|done]|].
    assert (forall o', (o' < S o0)%nat -> npages_of o' < n) as Hlow'.
    { intros o' Ho'. destruct (decide (o' = o0)) as [->|]; [done|]. apply Hlow. lia. }
    specialize (IH (S o0) Hlow'). destruct (order_for _ n) as [o|].
    + destruct IH as (? & ? & ?). split_and!; [lia..|done].
    + intros o' Ho'. apply IH. lia.
Qed.

Lemma order_for_spec n : is_s32 n ->
  match order_for (seq 0 PAGE_NSIZES) n with
  | Some o => order_of n o
  | None => 128 < n
  end.
Proof.
  intros Hn. pose proof (order_for_gen n PAGE_NSIZES 0 Hn) as H. destruct (order_for _ n) as [o|].
  - destruct H as (H1 & H2 & H3); [lia|]. split_and!; [lia|done|done].
  - apply (H ltac:(lia) 7%nat). unfold PAGE_NSIZES. lia.
Qed.

Lemma order_of_unique n o o' : order_of n o -> order_of n o' -> o = o'.
Proof.
  intros (_ & H1 & H2) (_ & H3 & H4). destruct (Nat.lt_total o o') as [Hlt|[|Hlt]]; [|done|].
  - specialize (H4 _ Hlt). lia.
  - specialize (H2 _ Hlt). lia.
Qed.

(** C27: a request for 1 to 128 pages takes the smallest block size that is
    large enough and either hands out a block all of whose pages were free,
    which no longer are, with everything else unchanged, or finds that no
    aligned run of that many pages is free anywhere: the allocator never fails
    because of fragmentation it could have undone.  In the second case the slab
    allocators are asked to give pages back, but the request fails all the
    same. *)
Theorem page_alloc_n_correct G s freed n :
  pinv G s -> 1 <= n <= 128 ->
  exists o, order_of n o /\
    ((exists G' s' addr, page_alloc_n freed n s = Ret (Some addr, s') /\ allocated_block G G' s s' o addr) \/
     ((forall γ j, γ ∈ G -> exists p, inb (o, j) p /\ ~ fpage (gP γ) p) /\
      page_alloc_n freed n s = (reclaim freed ;;; ret None) s)).
Proof.
  intros Hinv Hn. unfold page_alloc_n. pose proof (order_for_spec n ltac:(unfold is_s32; lia)) as Ho.
  destruct (order_for _ n) as [o|]; [|lia]. exists o. split; [done|].
  destruct (page_alloc_order_ok G s freed o Hinv ltac:(apply Ho)) as [Hs|[Hnone E]]; [by left|right].
  split; [|done]. intros γ j Hγ. pose proof Hγ as (i & Hi)%list_elem_of_lookup.
  destruct (Forall2_lookup_r _ _ _ _ _ (pi_groups _ _ Hinv) Hi) as (g & _ & [Hok Hm]).
  destruct (decide (Forall (fun p => Exists (fun b => inb b p) (elements (gP γ))) (seqZ (j * npages_of o) (npages_of o))))
    as [Hall|Hnot].
  - exfalso. rewrite Forall_seqZ in Hall. setoid_rewrite Exists_exists in Hall.
    destruct (free_run_in_block (gN γ) (gP γ) (gA γ) o j) as (b & Hb & Hbo & _); [apply Hok|done|apply Ho|..].
    + intros p Hp%inb_iff. destruct (Hall p) as (b & Hb & Hin); [lia|]. exists b. split; [by apply elem_of_elements|done].
    + specialize (Hnone γ b Hγ Hb). lia.
  - apply not_Forall_Exists in Hnot; [|intros ?; apply _]. apply Exists_exists in Hnot as (p & Hp%elem_of_seqZ & Hnb).
    exists p. split; [apply inb_iff; lia|]. intros (b & Hb & Hin). apply Hnb, Exists_exists.
    exists b. split; [by apply elem_of_elements|done].
Qed.

(** C28: freeing a block that was handed out makes exactly its pages free again,
    joins it with its free buddies as far as possible and keeps the
    invariant, the count of free pages included. *)
Theorem page_free_n_correct G s i γ g o j n :
  pinv G s -> G !! i = Some γ -> pagegroup_list s !! i = Some g -> (o, j) ∈ gA γ -> order_of n o -> 1 <= n ->
  exists γ' s', page_free_n (blk g (o, j)) n s = Ret (tt, s') /\ pinv (<[i := γ']> G) s' /\
    gN γ' = gN γ /\ gA γ' = gA γ ∖ {[(o, j)]} /\
    (forall p, fpage (gP γ') p <-> fpage (gP γ) p \/ inb (o, j) p).
Proof.
  intros Hinv HG Hg Hin Ho Hn.
  assert (n <= 128) as Hn'.
  { destruct Ho as (Ho & Hle & _). pose proof (npages_of_mono o 7 ltac:(unfold PAGE_NSIZES in Ho; lia)) as Hx.
    change (npages_of 7) with 128 in Hx. lia. }
  unfold page_free_n. pose proof (order_for_spec n ltac:(unfold is_s32; lia)) as Ho'.
  destruct (order_for _ n) as [o'|]; [|lia]. rewrite (order_of_unique _ _ _ Ho' Ho).
  by apply page_free_order_ok.
Qed.

(** adding a range of at least two pages carves the bitmaps and the group
    header out of its end and makes all whole 128-page blocks of the rest
    free; the pages that do not fill such a block are counted as free but are
    on no list, so they can never be allocated. *)
Theorem page_add_range_correct G s start e :
  pinv G s -> 4096 <= start < two32 -> 0 <= e < two32 ->
  PAGE_ALIGN_DOWN start + 8192 <= PAGE_ALIGN_DOWN e ->
  Forall (fun g => pg_endaddr g <= PAGE_ALIGN_DOWN start \/ PAGE_ALIGN_DOWN e <= pg_baseaddr g) (pagegroup_list s) ->
  exists s' γ n, page_add_range start e s = Ret (tt, s') /\ pinv (G ++ [γ]) s' /\ gA γ = ∅ /\
    1 <= n /\ page_freecount s' = u32 (page_freecount s + n) /\ gN γ = n - n mod 128 /\
    forall p, 0 <= p < gN γ -> fpage (gP γ) p.
Proof. apply page_add_range_ok. Qed.

Lemma page_init_ok : pinv [] page_init.
Proof. split; [constructor|intros i j g h _ Hx; done|done]. Qed.

(** One megabyte of memory. *)
Definition demo_pages : pages :=
  match page_add_range 1048576 2097152 page_init with Ret (_, s) => s | Stop _ => page_init end.

Lemma page_add_range_correct_witness :
  exists s' γ n, page_add_range 1048576 2097152 page_init = Ret (tt, s') /\ pinv [γ] s' /\ gN γ = n - n mod 128.
Proof.
  destruct (page_add_range_correct [] page_init 1048576 2097152) as (s' & γ & n & E & Hinv & _ & _ & _ & EN & _).
  - exact page_init_ok.
  - unfold two32. lia.
  - unfold two32. lia.
  - vm_compute. discriminate.
  - constructor.
  - exists s', γ, n. exact (conj E (conj Hinv EN)).
Defined.


Lemma demo_pages_ok : exists γ, pinv [γ] demo_pages.
Proof.
  destruct (page_add_range_ok [] page_init 1048576 2097152) as (s' & γ & n & E & Hinv & _);
    [exact page_init_ok|unfold two32; lia|unfold two32; lia|vm_compute; discriminate|constructor|].
  exists γ. unfold demo_pages. by rewrite E.
Qed.

Lemma order_of_3 : order_of 3 2.
Proof.
  split; [unfold PAGE_NSIZES; lia|]. split; [vm_compute; discriminate|].
  intros o Ho. assert (o = 0 \/ o = 1)%nat as [->| ->] by lia; reflexivity.
Qed.

(** After three pages were allocated there. *)
Lemma demo_allocated : exists G s i j γ g,
  pinv G s /\ G !! i = Some γ /\ pagegroup_list s !! i = Some g /\ (2%nat, j) ∈ gA γ.
Proof.
  destruct demo_pages_ok as [γ0 Hinv].
  destruct (page_alloc_order_ok [γ0] demo_pages [] 2 Hinv) as [(G & s & addr & E & Ha)|[_ E]].
  - unfold PAGE_NSIZES. lia.
  - destruct Ha as (i & j & γ & γ' & g & HG & Hg & -> & Hinv' & _ & _ & HA & _).
    assert (<[i := γ']> [γ0] !! i = Some γ') as HG'.
    { apply list_lookup_insert_eq. by eapply lookup_lt_Some. }
    destruct (Forall2_lookup_r _ _ _ _ _ (pi_groups _ _ Hinv') HG') as (g' & Hg' & _).
    exists (<[i := γ']> [γ0]), s, i, j, γ', g'. refine (conj Hinv' (conj HG' (conj Hg' _))).
    rewrite HA. apply elem_of_union_r, elem_of_singleton_2. reflexivity.
  - exfalso. vm_compute in E. discriminate E.
Qed.

Lemma page_alloc_n_correct_witness :
  exists G, pinv G demo_pages /\ exists o, order_of 3 o /\
    ((exists G' s' addr, page_alloc_n [] 3 demo_pages = Ret (Some addr, s') /\
        allocated_block G G' demo_pages s' o addr) \/
     ((forall γ j, γ ∈ G -> exists p, inb (o, j) p /\ ~ fpage (gP γ) p) /\
      page_alloc_n [] 3 demo_pages = (reclaim [] ;;; ret None) demo_pages)).
Proof.
  destruct demo_pages_ok as [γ Hinv]. exists [γ]. split; [exact Hinv|].
  apply (page_alloc_n_correct [γ] demo_pages [] 3); [exact Hinv|lia].
Defined.

Lemma page_free_n_correct_witness :
  exists G s i γ g j γ' s', pinv G s /\ (2%nat, j) ∈ gA γ /\
    page_free_n (blk g (2%nat, j)) 3 s = Ret (tt, s') /\ pinv (<[i := γ']> G) s'.
Proof.
  destruct demo_allocated as (G & s & i & j & γ & g & Hinv & HG & Hg & Hin).
  destruct (page_free_n_correct G s i γ g 2 j 3 Hinv HG Hg Hin order_of_3 ltac:(lia)) as (γ' & s' & E & Hinv' & _).
  exists G, s, i, γ, g, j, γ', s'. exact (conj Hinv (conj Hin (conj E Hinv'))).
Defined.
