(* ===== verification/Slab.v ===== *)
(** * The slab allocator (mm/slab.c)

    Objects of one size are carved out of blocks of pages.  A block is laid
    out as the objects, each followed by its control block ([slab_bufctl]), and
    then the [struct slab]; free objects are chained through their control
    blocks, an allocated one points back to its slab.  [kmalloc] chooses one of
    thirteen power-of-two allocators and remembers it in the word before the
    memory it returns.  Red zones, the double-free check and the poisoning of
    memory are configured in (include/mm/slab.h, include/mm/mm.h).

    The pages come from an interface, [PageOps] with [PageLaws]; the buddy
    allocator of Page.v is its instance.  The fields that live inside the pages
    are kept per kind of cell and indexed by their address; [layout] states
    that the cells of one block do not overlap. *)

From S2P Require Import Prelude Page.

(** ** What the page allocator offers *)

Class PageOps (P : Type) := {
  pa_alloc_n : Z -> M P (option Z);
  pa_free_n : Z -> Z -> M P unit
}.

(** Two runs of bytes that share none. *)
Definition apart (a la b lb : Z) : Prop := a + la <= b \/ b + lb <= a.

(** [pl_owns R B s]: in [s] exactly the blocks [B] (address and order) are
    handed out, from the ranges [R] of memory. *)
Class PageLaws (P : Type) `{PageOps P} := {
  pl_owns : list (Z * Z) -> gset (Z * nat) -> P -> Prop;
  pl_range R B s a o : pl_owns R B s -> (a, o) ∈ B ->
    (o < PAGE_NSIZES)%nat /\ 0 < a /\ a mod PAGE_SIZE = 0 /\ a + bytes_of o < two32 /\
    exists lo hi, (lo, hi) ∈ R /\ lo <= a /\ a + bytes_of o <= hi;
  pl_apart R B s a o b p : pl_owns R B s -> (a, o) ∈ B -> (b, p) ∈ B ->
    (a, o) = (b, p) \/ apart a (bytes_of o) b (bytes_of p);
  pl_alloc R B s o : pl_owns R B s -> (o < PAGE_NSIZES)%nat ->
    (exists a s', pa_alloc_n (npages_of o) s = Ret (Some a, s') /\ ((a, o) ∉ B) /\
       pl_owns R ({[(a, o)]} ∪ B) s') \/
    pa_alloc_n (npages_of o) s = Ret (None, s);
  pl_free R B s a o : pl_owns R B s -> (a, o) ∈ B ->
    exists s', pa_free_n a (npages_of o) s = Ret (tt, s') /\ pl_owns R (B ∖ {[(a, o)]}) s'
}.

(** ** State *)

(** A pointer is its address; 0 is [NULL]. *)
Record slab : Type := MkSlab {
  s_next : Z;
  s_inuse : Z;
  s_free : Z;
  s_addr : Z
}.

Record slab_allocator : Type := MkAlloc {
  sa_next : Z;
  sa_objsize : Z;
  sa_slabs : Z;
  sa_order : nat;
  sa_slab_nobjs : Z
}.

(** [sb_u] is the union of [sb_next] and [sb_slab]. *)
Record slab_bufctl : Type := MkBuf {
  sb_u : Z;
  sb_free : Z
}.

Record kmem (P : Type) : Type := MkKmem {
  m_alloc : gmap Z slab_allocator;
  m_slab : gmap Z slab;
  m_buf : gmap Z slab_bufctl;
  m_rz : gmap Z Z;                  (* the red-zone words *)
  m_hdr : gmap Z Z;                 (* the first word of kmalloc'ed objects *)
  slab_allocators : Z;              (* head of the list of allocators *)
  kmalloc_allocators : gmap nat Z;  (* the static array *)
  k_pages : P
}.
Arguments MkKmem {P}.
Arguments m_alloc {P}.
Arguments m_slab {P}.
Arguments m_buf {P}.
Arguments m_rz {P}.
Arguments m_hdr {P}.
Arguments slab_allocators {P}.
Arguments kmalloc_allocators {P}.
Arguments k_pages {P}.

Definition SLAB_REDZONE : Z := 3735928559.       (* 0xdeadbeef *)
Definition sizeof_slab : Z := 16.
Definition sizeof_bufctl : Z := 8.
Definition sizeof_allocator : Z := 24.
Definition sizeof_ptr : Z := 4.
Definition SLAB_MAX_ORDER : nat := 5.
(** A word filled with [MM_POISON_FREE] bytes. *)
Definition POISON_FREE_WORD : Z := 3722304989.   (* 0xdddddddd *)

(** ** The size of a slab *)

Definition _slab_size (objsize nobjs : Z) : Z :=
  u32 (nobjs * u32 (objsize + sizeof_bufctl) + sizeof_slab).

(** [PAGE_SIZE << order] *)
Definition block_bytes (order : nat) : Z := u32 (Z.shiftl PAGE_SIZE (Z.of_nat order)).

(** The divisor is zero only for a size of [2^32 - 8]. *)
Definition _slab_nobjs (objsize : Z) (order : nat) : outcome Z :=
  let d := u32 (objsize + sizeof_bufctl) in
  if d =? 0 then Stop Undef else Ret (s32 (u32 (block_bytes order - sizeof_slab) / d)).

Definition _slab_waste (objsize : Z) (order : nat) : outcome Z :=
  match _slab_nobjs objsize order with
  | Ret n => Ret (s32 (u32 (block_bytes order - _slab_size objsize n)))
  | Stop f => Stop f
  end.

(** The smallest order whose block holds one object. *)
Fixpoint min_order (orders : list nat) (minsize : Z) : option nat :=
  match orders with
  | [] => None
  | o :: orders' => if minsize <=? s32 (block_bytes o) then Some o else min_order orders' minsize
  end.

(** The loop over the larger orders. *)
Fixpoint best_order (orders : list nat) (objsize : Z) (best : nat) (waste : Z) : outcome nat :=
  match orders with
  | [] => Ret best
  | o :: orders' =>
      match _slab_waste objsize o with
      | Stop f => Stop f
      | Ret w => if w <? waste then best_order orders' objsize o w
                 else best_order orders' objsize best waste
      end
  end.

(** Order and number of objects per slab. *)
Definition _calc_slab_size (objsize : Z) : outcome (nat * Z) :=
  match min_order (seq 0 PAGE_NSIZES) (s32 (_slab_size objsize 1)) with
  | None => Stop Assert
  | Some minorder =>
      match _slab_waste objsize minorder with
      | Stop f => Stop f
      | Ret w =>
          match best_order (seq (minorder + 1) (SLAB_MAX_ORDER - (minorder + 1))) objsize minorder w with
          | Stop f => Stop f
          | Ret o => match _slab_nobjs objsize o with Ret n => Ret (o, n) | Stop f => Stop f end
          end
      end
  end.

(** ** Operations *)

Section operations.
Context {P : Type} `{PageOps P}.

Abbreviation K := (M (kmem P)).

Definition set_alloc (a : Z) (v : slab_allocator) (s : kmem P) : kmem P :=
  MkKmem (<[a := v]> (m_alloc s)) (m_slab s) (m_buf s) (m_rz s) (m_hdr s)
    (slab_allocators s) (kmalloc_allocators s) (k_pages s).
Definition set_slab (a : Z) (v : slab) (s : kmem P) : kmem P :=
  MkKmem (m_alloc s) (<[a := v]> (m_slab s)) (m_buf s) (m_rz s) (m_hdr s)
    (slab_allocators s) (kmalloc_allocators s) (k_pages s).
Definition set_buf (a : Z) (v : slab_bufctl) (s : kmem P) : kmem P :=
  MkKmem (m_alloc s) (m_slab s) (<[a := v]> (m_buf s)) (m_rz s) (m_hdr s)
    (slab_allocators s) (kmalloc_allocators s) (k_pages s).
Definition set_rz (a v : Z) (s : kmem P) : kmem P :=
  MkKmem (m_alloc s) (m_slab s) (m_buf s) (<[a := v]> (m_rz s)) (m_hdr s)
    (slab_allocators s) (kmalloc_allocators s) (k_pages s).
Definition set_hdr (a v : Z) (s : kmem P) : kmem P :=
  MkKmem (m_alloc s) (m_slab s) (m_buf s) (m_rz s) (<[a := v]> (m_hdr s))
    (slab_allocators s) (kmalloc_allocators s) (k_pages s).
Definition set_head (v : Z) (s : kmem P) : kmem P :=
  MkKmem (m_alloc s) (m_slab s) (m_buf s) (m_rz s) (m_hdr s) v (kmalloc_allocators s) (k_pages s).
Definition set_bucket (i : nat) (v : Z) (s : kmem P) : kmem P :=
  MkKmem (m_alloc s) (m_slab s) (m_buf s) (m_rz s) (m_hdr s)
    (slab_allocators s) (<[i := v]> (kmalloc_allocators s)) (k_pages s).
Definition set_pages (v : P) (s : kmem P) : kmem P :=
  MkKmem (m_alloc s) (m_slab s) (m_buf s) (m_rz s) (m_hdr s)
    (slab_allocators s) (kmalloc_allocators s) v.

Definition in_pages {A} (m : M P A) : K A := zoom k_pages set_pages m.

Definition load_alloc (a : Z) : K slab_allocator := let! s := gets m_alloc in deref (s !! a).
Definition load_slab (a : Z) : K slab := let! s := gets m_slab in deref (s !! a).
Definition load_buf (a : Z) : K slab_bufctl := let! s := gets m_buf in deref (s !! a).
Definition load_rz (a : Z) : K Z := let! s := gets m_rz in deref (s !! a).

(** [obj_bufctl] and [next_obj] *)
Definition obj_bufctl (a : slab_allocator) (obj : Z) : Z := u32 (obj + sa_objsize a).
Definition next_obj (a : slab_allocator) (obj : Z) : Z := u32 (obj + sa_objsize a + sizeof_bufctl).
Definition rear_rz (a : slab_allocator) (obj : Z) : Z := u32 (obj + sa_objsize a - sizeof_ptr).

Definition VERIFY_REDZONES (a : slab_allocator) (obj : Z) : K unit :=
  let! f := load_rz obj in
  KASSERT (f =? SLAB_REDZONE) ;;;
  let! r := load_rz (rear_rz a obj) in
  KASSERT (r =? SLAB_REDZONE).

(** [al] is the allocator's address; the name is not kept. *)
Definition _allocator_init (al size : Z) : K unit := fun s =>
  let objsize := u32 (size + 2 * sizeof_ptr) in
  match _calc_slab_size objsize with
  | Stop f => Stop f
  | Ret (o, n) => Ret (tt, set_head al (set_alloc al (MkAlloc (slab_allocators s) objsize 0 o n) s))
  end.

(** *** Giving pages back *)

(** The page allocator overwrites the memory it gets back. *)
Definition lost {V} (addr bytes : Z) (m : gmap Z V) : gmap Z V :=
  filter (fun kv => ~ (addr <= kv.1 < addr + bytes)) m.

Definition poison (addr bytes : Z) (s : kmem P) : kmem P :=
  MkKmem (lost addr bytes (m_alloc s)) (lost addr bytes (m_slab s)) (lost addr bytes (m_buf s))
    (lost addr bytes (m_rz s)) (lost addr bytes (m_hdr s))
    (slab_allocators s) (kmalloc_allocators s) (k_pages s).

(** [struct slab **prev]: the head field of an allocator or the link of a slab. *)
Inductive prev_ptr : Type := PrevHead (al : Z) | PrevSlab (sp : Z).

Definition store_prev (p : prev_ptr) (v : Z) : K unit :=
  match p with
  | PrevHead al => let! a := load_alloc al in
      modify (set_alloc al (MkAlloc (sa_next a) (sa_objsize a) v (sa_order a) (sa_slab_nobjs a)))
  | PrevSlab sp => let! s := load_slab sp in
      modify (set_slab sp (MkSlab v (s_inuse s) (s_free s) (s_addr s)))
  end.

Definition free_slab (a : slab_allocator) (sl : slab) : K unit :=
  modify (poison (s_addr sl) (bytes_of (sa_order a))) ;;;
  in_pages (pa_free_n (s_addr sl) (npages_of (sa_order a))).

(** The inner loop; the flag says that the target was met. *)
Fixpoint reclaim_slabs (fuel : nat) (target al : Z) (prev : prev_ptr) (sp freed : Z) : K (Z * bool) :=
  if sp =? 0 then ret (freed, false) else
  match fuel with
  | O => stop Diverge
  | S fuel' =>
      let! a := load_alloc al in
      let! sl := load_slab sp in
      let! r := (if s_inuse sl =? 0
                 then store_prev prev (s_next sl) ;;; free_slab a sl ;;;
                      ret (freed + npages_of (sa_order a), prev)
                 else ret (freed, PrevSlab sp)) in
      if (0 <? target) && (target <=? r.1) then ret (r.1, true)
      else reclaim_slabs fuel' target al r.2 (s_next sl) r.1
  end.

Fixpoint reclaim_allocators (fuel : nat) (target al freed : Z) : K Z :=
  if al =? 0 then ret freed else
  match fuel with
  | O => stop Diverge
  | S fuel' =>
      let! a := load_alloc al in
      let! n := gets (fun s => size (m_slab s)) in
      let! r := reclaim_slabs n target al (PrevHead al) (sa_slabs a) freed in
      if r.2 then ret r.1
      else let! a := load_alloc al in reclaim_allocators fuel' target (sa_next a) r.1
  end.

Definition slab_allocators_reclaim (target : Z) : K Z :=
  let! n := gets (fun s => size (m_alloc s)) in
  let! head := gets slab_allocators in
  reclaim_allocators n target head 0.

(** [page_alloc_n]: when it finds no block it calls
    [slab_allocators_reclaim(0)] and then fails (mm/page.c, [_page_split]). *)
Definition kpage_alloc_n (npages : Z) : K (option Z) :=
  let! r := in_pages (pa_alloc_n npages) in
  match r with
  | Some addr => ret (Some addr)
  | None => slab_allocators_reclaim 0 ;;; ret None
  end.

(** *** Growing *)

(** The chaining loop, [n] times; the result is the last object. *)
Fixpoint init_bufs (n : nat) (a : slab_allocator) (obj : Z) : K Z :=
  match n with
  | O => modify (set_buf (obj_bufctl a obj) (MkBuf 0 1)) ;;; ret obj
  | S n' => modify (set_buf (obj_bufctl a obj) (MkBuf (next_obj a obj) 1)) ;;;
            init_bufs n' a (next_obj a obj)
  end.

Fixpoint init_redzones (n : nat) (a : slab_allocator) (obj : Z) : K unit :=
  match n with
  | O => ret tt
  | S n' => modify (set_rz obj SLAB_REDZONE) ;;;
            modify (set_rz (rear_rz a obj) SLAB_REDZONE) ;;;
            init_redzones n' a (next_obj a obj)
  end.

Definition _slab_allocator_grow (al : Z) : K bool :=
  let! a := load_alloc al in
  let! r := kpage_alloc_n (npages_of (sa_order a)) in
  match r with
  | None => ret false
  | Some addr =>
      let! last := init_bufs (Z.to_nat (sa_slab_nobjs a - 1)) a addr in
      let sp := next_obj a last in
      init_redzones (Z.to_nat (sa_slab_nobjs a)) a addr ;;;
      let! a := load_alloc al in
      modify (set_slab sp (MkSlab (sa_slabs a) 0 addr addr)) ;;;
      modify (set_alloc al (MkAlloc (sa_next a) (sa_objsize a) sp (sa_order a) (sa_slab_nobjs a))) ;;;
      ret true
  end.

(** *** Allocating and freeing objects *)

(** [while (slab && (slab->s_inuse == nobjs)) slab = slab->s_next] *)
Fixpoint skip_full (fuel : nat) (nobjs sp : Z) : K Z :=
  if sp =? 0 then ret 0 else
  match fuel with
  | O => stop Diverge
  | S fuel' =>
      let! sl := load_slab sp in
      if s_inuse sl =? nobjs then skip_full fuel' nobjs (s_next sl) else ret sp
  end.

(** The [for (;;)] loop: the slab to allocate from, 0 when there is none. *)
Fixpoint find_room (fuel : nat) (al : Z) : K Z :=
  match fuel with
  | O => stop Diverge
  | S fuel' =>
      let! a := load_alloc al in
      let! n := gets (fun s => size (m_slab s)) in
      let! sp := skip_full n (sa_slab_nobjs a) (sa_slabs a) in
      let! room := (if sp =? 0 then ret false
                    else let! sl := load_slab sp in ret (s_inuse sl <? sa_slab_nobjs a)) in
      if room then ret sp
      else let! grown := _slab_allocator_grow al in
           if grown then find_room fuel' al else ret 0
  end.

Definition slab_obj_alloc (al : Z) : K (option Z) :=
  let! sp := find_room 2 al in
  if sp =? 0 then ret None else
  let! a := load_alloc al in
  let! sl := load_slab sp in
  let obj := s_free sl in
  let! b := load_buf (obj_bufctl a obj) in
  modify (set_slab sp (MkSlab (s_next sl) (s_inuse sl + 1) (sb_u b) (s_addr sl))) ;;;
  modify (set_buf (obj_bufctl a obj) (MkBuf sp 0)) ;;;
  VERIFY_REDZONES a obj ;;;
  ret (Some (u32 (obj + sizeof_ptr))).

Definition slab_obj_free (al obj : Z) : K unit :=
  let! a := load_alloc al in
  let obj := u32 (obj - sizeof_ptr) in
  VERIFY_REDZONES a obj ;;;
  let! b := load_buf (obj_bufctl a obj) in
  KASSERT (sb_free b =? 0) ;;;
  let! sl := load_slab (sb_u b) in
  modify (set_buf (obj_bufctl a obj) (MkBuf (s_free sl) 1)) ;;;
  modify (set_slab (sb_u b) (MkSlab (s_next sl) (s_inuse sl - 1) obj (s_addr sl))).

(** [saa] is the address of the static [slab_allocator_allocator]. *)
Definition slab_allocator_create (saa size : Z) : K Z :=
  let! r := slab_obj_alloc saa in
  match r with
  | None => ret 0
  | Some allocator => _allocator_init allocator size ;;; ret allocator
  end.

(** *** Memory of any size *)

Definition KMALLOC_SIZE_MIN_ORDER : nat := 6.
Definition KMALLOC_SIZE_MAX_ORDER : nat := 18.

(** The loop over the buckets; [i] is the index of [cs]. *)
Fixpoint kmalloc_from (orders : list nat) (i : nat) (size : Z) : K (option Z) :=
  match orders with
  | [] => stop Assert
  | order :: orders' =>
      if size <=? 2 ^ Z.of_nat order then
        let! cs := gets kmalloc_allocators in
        let! al := deref (cs !! i) in
        let! r := slab_obj_alloc al in
        match r with
        | None => ret None
        | Some addr => modify (set_hdr addr al) ;;; ret (Some (u32 (addr + sizeof_ptr)))
        end
      else kmalloc_from orders' (S i) size
  end.

Definition kmalloc_orders : list nat :=
  seq KMALLOC_SIZE_MIN_ORDER (KMALLOC_SIZE_MAX_ORDER - KMALLOC_SIZE_MIN_ORDER + 1).

Definition kmalloc (size : Z) : K (option Z) :=
  kmalloc_from kmalloc_orders 0 (u32 (size + sizeof_ptr)).

(** The header is the first word of the memory that is poisoned. *)
Definition kfree (addr : Z) : K unit :=
  let addr := u32 (addr - sizeof_ptr) in
  let! hdrs := gets m_hdr in
  let! sa := deref (hdrs !! addr) in
  let! _ := load_alloc sa in
  modify (set_hdr addr POISON_FREE_WORD) ;;;
  slab_obj_free sa addr.

Fixpoint create_buckets (saa : Z) (orders : list nat) (i : nat) : K unit :=
  match orders with
  | [] => ret tt
  | order :: orders' =>
      let! al := slab_allocator_create saa (2 ^ Z.of_nat order) in
      modify (set_bucket i al) ;;;
      KASSERT (negb (al =? 0)) ;;;
      create_buckets saa orders' (S i)
  end.

Definition slab_init (saa : Z) : K unit :=
  _allocator_init saa sizeof_allocator ;;;
  create_buckets saa kmalloc_orders 0.
End operations.

(** ** The size calculation *)

(** Bytes of a block that no object can use. *)
Definition waste (objsize : Z) (o : nat) : Z := (bytes_of o - sizeof_slab) mod (objsize + sizeof_bufctl).

Lemma bytes_of_8 o : (o < PAGE_NSIZES)%nat -> 4096 <= bytes_of o <= 524288.
Proof. unfold PAGE_NSIZES. intros. do 8 (destruct o as [|o]; [vm_compute; split; discriminate|]). lia. Qed.

Lemma bytes_of_mono o o' : (o <= o')%nat -> bytes_of o <= bytes_of o'.
Proof. intros. unfold bytes_of, PAGE_SIZE. pose proof (npages_of_mono o o'). lia. Qed.

Lemma block_bytes_eq o : (o < PAGE_NSIZES)%nat -> block_bytes o = bytes_of o.
Proof. unfold PAGE_NSIZES. intros. do 8 (destruct o as [|o]; [reflexivity|]). lia. Qed.

Section sizes.
Variable objsize : Z.
Hypothesis Hsize : 0 <= objsize < 2147483624.

Lemma slab_size_eq n : 0 <= n -> n * (objsize + 8) + 16 < two32 ->
  _slab_size objsize n = n * (objsize + 8) + 16.
Proof.
  intros Hn Hb. unfold _slab_size, sizeof_bufctl, sizeof_slab. rewrite (u32_small (objsize + 8)).
  - apply u32_small. unfold is_u32. nia.
  - unfold is_u32, two32. lia.
Qed.

Lemma slab_nobjs_eq o : (o < PAGE_NSIZES)%nat ->
  _slab_nobjs objsize o = Ret ((bytes_of o - 16) / (objsize + 8)).
Proof.
  intros Ho. pose proof (bytes_of_8 o Ho). unfold _slab_nobjs, sizeof_bufctl, sizeof_slab.
  rewrite block_bytes_eq, (u32_small (objsize + 8)), (u32_small (bytes_of o - 16))
    by (done || unfold is_u32, two32; lia).
  case_match eqn:E; [apply Z.eqb_eq in E; lia|]. rewrite s32_small; [done|].
  assert (0 <= (bytes_of o - 16) / (objsize + 8) <= bytes_of o - 16).
  { split; [apply Z.div_pos; lia|]. apply Z.div_le_upper_bound; nia. }
  unfold is_s32. lia.
Qed.

Lemma slab_fits o : (o < PAGE_NSIZES)%nat ->
  (bytes_of o - 16) / (objsize + 8) * (objsize + 8) + 16 = bytes_of o - waste objsize o /\
  0 <= waste objsize o <= bytes_of o.
Proof.
  intros Ho. pose proof (bytes_of_8 o Ho). unfold waste, sizeof_bufctl, sizeof_slab.
  pose proof (Z.div_mod (bytes_of o - 16) (objsize + 8) ltac:(lia)).
  pose proof (Z.mod_pos_bound (bytes_of o - 16) (objsize + 8) ltac:(lia)).
  assert (0 <= (bytes_of o - 16) / (objsize + 8)) by (apply Z.div_pos; lia). nia.
Qed.

Lemma slab_waste_eq o : (o < PAGE_NSIZES)%nat -> _slab_waste objsize o = Ret (waste objsize o).
Proof.
  intros Ho. pose proof (bytes_of_8 o Ho). destruct (slab_fits o Ho) as [E Hw].
  assert (0 <= (bytes_of o - 16) / (objsize + 8)) by (apply Z.div_pos; lia).
  unfold _slab_waste. rewrite slab_nobjs_eq, block_bytes_eq, slab_size_eq by (done || unfold two32; lia).
  rewrite E. replace (bytes_of o - _) with (waste objsize o) by lia.
  rewrite u32_small, s32_small; unfold is_s32, is_u32, two32; [done|lia..].
Qed.

Lemma min_order_spec k : forall o0, (o0 + k <= PAGE_NSIZES)%nat ->
  match min_order (seq o0 k) (objsize + 24) with
  | Some m => (o0 <= m < o0 + k)%nat /\ objsize + 24 <= bytes_of m /\
      forall o, (o0 <= o < m)%nat -> bytes_of o < objsize + 24
  | None => forall o, (o0 <= o < o0 + k)%nat -> bytes_of o < objsize + 24
  end.
Proof.
  induction k as [|k IH]; intros o0 Hk; simpl; [intros; lia|].
  rewrite block_bytes_eq by lia. pose proof (bytes_of_8 o0 ltac:(lia)).
  rewrite s32_small by (unfold is_s32; lia). destruct (Z.leb_spec (objsize + 24) (bytes_of o0)) as [Hle|Hgt].
  - split_and!; [lia..|]. intros; lia.
  - specialize (IH (S o0) ltac:(lia)). destruct (min_order _ _) as [m|].
    + destruct IH as (? & ? & Hb). split_and!; [lia..|]. intros o ?.
      destruct (decide (o = o0)) as [->|]; [done|]. apply Hb. lia.
    + intros o ?. destruct (decide (o = o0)) as [->|]; [done|]. apply IH. lia.
Qed.

(** [o] is the first order of least waste from [lo] to [hi - 1]. *)
Definition least_waste (lo hi o : nat) : Prop :=
  (lo <= o < hi)%nat /\ (forall o', (lo <= o' < hi)%nat -> waste objsize o <= waste objsize o') /\
  (forall o', (lo <= o' < o)%nat -> waste objsize o < waste objsize o').

Lemma best_order_spec lo k : forall hi best, (hi + k <= PAGE_NSIZES)%nat -> least_waste lo hi best ->
  exists o, best_order (seq hi k) objsize best (waste objsize best) = Ret o /\ least_waste lo (hi + k) o.
Proof.
  induction k as [|k IH]; intros hi best Hk (Hb & Hle & Hlt); simpl.
  - rewrite Nat.add_0_r. by exists best.
  - rewrite slab_waste_eq by lia. rewrite <- Nat.add_succ_comm.
    destruct (Z.ltb_spec (waste objsize hi) (waste objsize best)) as [Hw|Hw]; apply IH; try lia.
    + split_and!; [lia..| |]; intros o' Ho'.
      * destruct (decide (o' = hi)) as [->|]; [done|]. specialize (Hle o'). lia.
      * specialize (Hle o'). lia.
    + split_and!; [lia..| |done]. intros o' Ho'. destruct (decide (o' = hi)) as [->|]; [done|]. apply Hle. lia.
Qed.

Lemma calc_slab_size_ok : objsize <= 524264 ->
  exists m o, (m < PAGE_NSIZES)%nat /\ objsize + 24 <= bytes_of m /\
    (forall o', (o' < m)%nat -> bytes_of o' < objsize + 24) /\
    least_waste m (Nat.max (S m) SLAB_MAX_ORDER) o /\
    _calc_slab_size objsize = Ret (o, (bytes_of o - 16) / (objsize + 8)).
Proof.
  intros Hb. unfold _calc_slab_size. rewrite slab_size_eq, s32_small by (unfold is_s32, two32; lia).
  replace (1 * (objsize + 8) + 16) with (objsize + 24) by lia.
  pose proof (min_order_spec PAGE_NSIZES 0 ltac:(lia)) as Hm. destruct (min_order _ _) as [m|].
  - destruct Hm as (Hm & Hfit & Hlow). exists m. rewrite slab_waste_eq by lia.
    destruct (best_order_spec m (SLAB_MAX_ORDER - (m + 1)) (m + 1) m) as (o & E & Ho).
    + unfold SLAB_MAX_ORDER, PAGE_NSIZES in *. lia.
    + split_and!; [lia..| |]; intros o' Ho'; [|lia]. replace o' with m by lia. done.
    + replace (m + 1 + (SLAB_MAX_ORDER - (m + 1)))%nat with (Nat.max (S m) SLAB_MAX_ORDER) in Ho by lia.
      exists o. rewrite E. pose proof (proj1 Ho). rewrite slab_nobjs_eq by (unfold SLAB_MAX_ORDER, PAGE_NSIZES in *; lia).
      split_and!; [lia|done| |done|done]. intros. apply Hlow. lia.
  - exfalso. specialize (Hm 7%nat ltac:(unfold PAGE_NSIZES; lia)). change (bytes_of 7) with 524288 in Hm. lia.
Qed.

Lemma calc_slab_size_panic : 524264 < objsize -> _calc_slab_size objsize = Stop Assert.
Proof.
  intros Hb. unfold _calc_slab_size. rewrite slab_size_eq, s32_small by (unfold is_s32, two32; lia).
  replace (1 * (objsize + 8) + 16) with (objsize + 24) by lia.
  pose proof (min_order_spec PAGE_NSIZES 0 ltac:(lia)) as Hm. destruct (min_order _ _) as [m|]; [|done].
  destruct Hm as (Hm & Hfit & _). pose proof (bytes_of_8 m ltac:(lia)). lia.
Qed.
End sizes.

(** the size calculation of a slab: up to 524264 bytes per object it picks,
    between the smallest order whose block holds an object and order 4, the
    first order that wastes least, and as many objects as fit with their
    control blocks and the slab header; for larger objects it panics. *)
Theorem calc_slab_size_correct objsize : 0 <= objsize < 2147483624 ->
  (objsize <= 524264 ->
   exists m o n, (m < PAGE_NSIZES)%nat /\ objsize + 24 <= bytes_of m /\
     (forall o', (o' < m)%nat -> bytes_of o' < objsize + 24) /\
     least_waste objsize m (Nat.max (S m) SLAB_MAX_ORDER) o /\
     _calc_slab_size objsize = Ret (o, n) /\ 1 <= n /\
     n * (objsize + sizeof_bufctl) + sizeof_slab <= bytes_of o < (n + 1) * (objsize + sizeof_bufctl) + sizeof_slab) /\
  (524264 < objsize -> _calc_slab_size objsize = Stop Assert).
Proof.
  intros Hs. split; [|by apply calc_slab_size_panic]. intros Hb.
  destruct (calc_slab_size_ok objsize Hs Hb) as (m & o & Hm & Hfit & Hlow & Hl & E).
  exists m, o, ((bytes_of o - 16) / (objsize + 8)). split_and!; try done.
  - apply Z.div_le_lower_bound; [lia|]. pose proof (bytes_of_mono m o ltac:(apply Hl)). lia.
  - unfold sizeof_bufctl, sizeof_slab. pose proof (Z.mul_div_le (bytes_of o - 16) (objsize + 8)). lia.
  - unfold sizeof_bufctl, sizeof_slab. pose proof (Z.mul_succ_div_gt (bytes_of o - 16) (objsize + 8)). lia.
Qed.

Lemma calc_slab_size_correct_witness :
  exists m o n, least_waste 32 m (Nat.max (S m) SLAB_MAX_ORDER) o /\ _calc_slab_size 32 = Ret (o, n) /\ 1 <= n.
Proof.
  destruct (calc_slab_size_correct 32) as [H _]; [lia|].
  destruct H as (m & o & n & _ & _ & _ & Hl & E & Hn & _); [lia|].
  exists m, o, n. exact (conj Hl (conj E Hn)).
Defined.

(** A size close to [2^32] is not refused: the comparison is between signed
    integers, and the slab it describes has no objects. *)
Lemma calc_slab_size_wraps : _calc_slab_size 2147483624 = Ret (0%nat, 0).
Proof. reflexivity. Qed.
