(* ===== verification/SlabInv.v ===== *)
(** * What the slab allocator guarantees (mm/slab.c)

    The blocks of an allocator, their free objects and the allocated ones are
    described by a list of [galloc]; [kinv] relates it to the memory.  Every
    operation of Slab.v keeps [kinv]: allocation hands out an object that was
    not in use, freeing takes back exactly one, and memory returns to the page
    allocator only from blocks without allocated objects. *)

From S2P Require Import Prelude Page Slab.

(** ** Linked structures *)

(** The nodes from [p] up to [q], following [next]. *)
Fixpoint seg (next : Z -> option Z) (p : Z) (l : list Z) (q : Z) : Prop :=
  match l with
  | [] => p = q
  | x :: l' => p = x /\ x <> 0 /\ exists r, next x = Some r /\ seg next r l' q
  end.

Lemma seg_ext next next' l : forall p q,
  (forall x, x ∈ l -> next' x = next x) -> seg next p l q -> seg next' p l q.
Proof.
  induction l as [|x l IH]; intros p q He Hs; simpl in *; [done|].
  destruct Hs as (-> & Hx & r & Hr & Hs). split_and!; [done..|]. exists r.
  split; [rewrite He; [done|set_solver]|]. apply IH; [set_solver|done].
Qed.

Lemma seg_app next l1 l2 : forall p q,
  seg next p (l1 ++ l2) q <-> exists m, seg next p l1 m /\ seg next m l2 q.
Proof.
  induction l1 as [|x l1 IH]; intros p q; simpl; [naive_solver|]. setoid_rewrite IH. naive_solver.
Qed.

(** The link of [h] is changed to [r]. *)
Lemma seg_relink next next' p l1 h l2 m r :
  seg next p (l1 ++ [h]) m -> next' h = Some r -> (forall x, x ∈ l1 ++ l2 -> next' x = next x) ->
  seg next r l2 0 -> seg next' p (l1 ++ h :: l2) 0.
Proof.
  intros (k & Hs & -> & Hh & _)%seg_app Hr Hn Hs2. apply seg_app. exists h. split.
  - eapply seg_ext; [|exact Hs]. intros x Hx. apply Hn, elem_of_app. by left.
  - simpl. split_and!; [done..|]. exists r. split; [done|]. eapply seg_ext; [|exact Hs2].
    intros x Hx. apply Hn, elem_of_app. by right.
Qed.

Lemma seg_nonzero next l p q x : seg next p l q -> x ∈ l -> x <> 0.
Proof.
  revert p. induction l as [|y l IH]; intros p Hs Hx; simpl in *; [set_solver|].
  destruct Hs as (-> & Hy & r & _ & Hs). apply elem_of_cons in Hx as [->|Hx]; [done|by eapply IH].
Qed.

(** A chain of distinct nodes is no longer than the map that holds them. *)
Lemma nodes_bound {V} (m : gmap Z V) (l : list Z) :
  NoDup l -> (forall x, x ∈ l -> is_Some (m !! x)) -> (length l <= size m)%nat.
Proof.
  intros Hnd Hin. rewrite <- size_dom, <- (size_list_to_set (C := gset Z) l Hnd).
  apply subseteq_size. intros x Hx%elem_of_list_to_set. apply elem_of_dom. by apply Hin.
Qed.

(** ** The layout of a block *)

Record geo : Type := Geo { g_size : Z; g_order : nat; g_n : Z }.

Definition stride (γ : geo) : Z := g_size γ + sizeof_bufctl.
Definition obj_at (γ : geo) (addr : Z) (k : nat) : Z := addr + Z.of_nat k * stride γ.
Definition objs (γ : geo) (addr : Z) : list Z := obj_at γ addr <$> seq 0 (Z.to_nat (g_n γ)).
Definition slab_ptr (γ : geo) (addr : Z) : Z := addr + g_n γ * stride γ.

Record sized (γ : geo) : Prop := {
  sz_size : 8 <= g_size γ;
  sz_n : 1 <= g_n γ;
  sz_order : (g_order γ < PAGE_NSIZES)%nat;
  sz_fit : g_n γ * stride γ + sizeof_slab <= bytes_of (g_order γ)
}.

Lemma elem_objs γ addr o : o ∈ objs γ addr <-> exists k, 0 <= k < g_n γ /\ o = addr + k * stride γ.
Proof.
  unfold objs, obj_at. rewrite list_elem_of_fmap. setoid_rewrite elem_of_seq. split.
  - intros (k & -> & Hk). exists (Z.of_nat k). split; [lia|done].
  - intros (k & Hk & ->). exists (Z.to_nat k). split; [|lia]. by rewrite Z2Nat.id by lia.
Qed.

Lemma objs_range γ addr o : sized γ -> o ∈ objs γ addr -> addr <= o /\ o + stride γ <= slab_ptr γ addr.
Proof.
  intros [Hs Hn _ _] (k & Hk & ->)%elem_objs. unfold slab_ptr, stride, sizeof_bufctl in *. nia.
Qed.

Lemma objs_apart γ addr o o' : sized γ -> o ∈ objs γ addr -> o' ∈ objs γ addr ->
  o = o' \/ apart o (stride γ) o' (stride γ).
Proof.
  intros [Hs Hn _ _] (k & Hk & ->)%elem_objs (k' & Hk' & ->)%elem_objs. unfold apart, stride, sizeof_bufctl in *.
  destruct (Z.lt_total k k') as [?|[->|?]]; [right; left; nia|by left|right; right; nia].
Qed.

Lemma objs_nodup γ addr : sized γ -> NoDup (objs γ addr).
Proof.
  intros [Hs _ _ _]. unfold objs. apply NoDup_fmap_2; [|apply NoDup_seq].
  intros k k' E. unfold obj_at, stride, sizeof_bufctl in *. nia.
Qed.

Lemma objs_length γ addr : 0 <= g_n γ -> Z.of_nat (length (objs γ addr)) = g_n γ.
Proof. intros. unfold objs. rewrite length_fmap, length_seq. lia. Qed.

Definition in_block (addr : Z) (o : nat) (p : Z) : Prop := addr <= p < addr + bytes_of o.

(** ** The invariant *)

Record gslab : Type := GS { gs_addr : Z; gs_free : list Z }.
Record galloc : Type := GA { ga_ptr : Z; ga_geo : geo; ga_slabs : list gslab }.

Section invariant.
Context {P : Type} `{PageLaws P}.
Variable saa : Z.               (* the address of slab_allocator_allocator *)
Variable R : list (Z * Z).      (* the memory given to the page allocator *)

(** The link of a free object. *)
Definition fnext (γ : geo) (s : kmem P) (o : Z) : option Z :=
  match m_buf s !! (o + g_size γ) with
  | Some b => if sb_free b =? 1 then Some (sb_u b) else None
  | None => None
  end.

Definition snext (s : kmem P) (p : Z) : option Z := s_next <$> m_slab s !! p.
Definition anext (s : kmem P) (p : Z) : option Z := sa_next <$> m_alloc s !! p.

Record slab_ok (s : kmem P) (B : gset (Z * nat)) (γ : geo) (g : gslab) : Prop := {
  so_page : (gs_addr g, g_order γ) ∈ B;
  so_slab : exists nx fr, m_slab s !! slab_ptr γ (gs_addr g) =
      Some (MkSlab nx (g_n γ - Z.of_nat (length (gs_free g))) fr (gs_addr g)) /\
      seg (fnext γ s) fr (gs_free g) 0;
  so_nodup : NoDup (gs_free g);
  so_sub : gs_free g ⊆ objs γ (gs_addr g);
  so_used : forall o, o ∈ objs γ (gs_addr g) -> o ∉ gs_free g ->
      m_buf s !! (o + g_size γ) = Some (MkBuf (slab_ptr γ (gs_addr g)) 0);
  so_rz : forall o, o ∈ objs γ (gs_addr g) ->
      m_rz s !! o = Some SLAB_REDZONE /\ m_rz s !! (o + g_size γ - sizeof_ptr) = Some SLAB_REDZONE
}.

Definition slab_ptrs (x : galloc) : list Z := (fun g => slab_ptr (ga_geo x) (gs_addr g)) <$> ga_slabs x.

Record alloc_ok (s : kmem P) (B : gset (Z * nat)) (x : galloc) : Prop := {
  ao_sized : sized (ga_geo x);
  ao_alloc : exists nx sl, m_alloc s !! ga_ptr x =
      Some (MkAlloc nx (g_size (ga_geo x)) sl (g_order (ga_geo x)) (g_n (ga_geo x))) /\
      seg (snext s) sl (slab_ptrs x) 0;
  ao_slabs : Forall (slab_ok s B (ga_geo x)) (ga_slabs x)
}.

(** The allocated objects of allocator [al]. *)
Definition obj_live (Γ : list galloc) (al o : Z) : Prop :=
  exists x g, x ∈ Γ /\ ga_ptr x = al /\ g ∈ ga_slabs x /\ o ∈ objs (ga_geo x) (gs_addr g) /\ o ∉ gs_free g.

Definition addrs (Γ : list galloc) : list Z := Γ ≫= fun x => gs_addr <$> ga_slabs x.

Record kinv (Γ : list galloc) (B : gset (Z * nat)) (s : kmem P) : Prop := {
  ki_pages : pl_owns R B (k_pages s);
  ki_chain : seg (anext s) (slab_allocators s) (ga_ptr <$> Γ) 0;
  ki_ptrs : NoDup (ga_ptr <$> Γ);
  ki_allocs : Forall (alloc_ok s B) Γ;
  ki_addrs : NoDup (addrs Γ);
  ki_saa : forall lo hi, (lo, hi) ∈ R -> ~ (lo <= saa < hi);
  ki_own : forall p, p ∈ ga_ptr <$> Γ -> p = saa \/ obj_live Γ saa (p - sizeof_ptr)
}.
End invariant.

Section frames.
Context {P : Type} `{PageLaws P}.
Implicit Types s : kmem P.

(** Outside the block of [addr] the memory of [s'] is that of [s]. *)
Definition same_cells {V} (Q : Z -> Prop) (m m' : gmap Z V) : Prop := forall p, Q p -> m' !! p = m !! p.

Record agree (Q : Z -> Prop) (s s' : kmem P) : Prop := {
  ag_slab : same_cells Q (m_slab s) (m_slab s');
  ag_buf : same_cells Q (m_buf s) (m_buf s');
  ag_rz : same_cells Q (m_rz s) (m_rz s')
}.

Lemma sized_ptr γ addr : sized γ ->
  addr <= slab_ptr γ addr /\ slab_ptr γ addr + sizeof_slab <= addr + bytes_of (g_order γ).
Proof. intros [Hs Hn _ Hf]. unfold slab_ptr, stride, sizeof_bufctl, sizeof_slab in *. nia. Qed.

Lemma ptr_in_block γ addr : sized γ -> in_block addr (g_order γ) (slab_ptr γ addr).
Proof. intros Hs. destruct (sized_ptr γ addr Hs). unfold in_block, sizeof_slab in *. lia. Qed.

(** The cells of an object. *)
Lemma obj_in_block γ addr o d : sized γ -> o ∈ objs γ addr -> 0 <= d <= g_size γ ->
  in_block addr (g_order γ) (o + d).
Proof.
  intros Hs Ho Hd. destruct (objs_range γ addr o Hs Ho), (sized_ptr γ addr Hs).
  unfold in_block, sizeof_slab, stride, sizeof_bufctl in *. lia.
Qed.

Lemma fnext_agree Q s s' γ o : agree Q s s' -> Q (o + g_size γ) -> fnext γ s' o = fnext γ s o.
Proof. intros [_ Hb _] Hq. unfold fnext. by rewrite (Hb _ Hq). Qed.

(** A slab does not depend on memory outside its block. *)
Lemma slab_ok_frame s s' B B' γ g : sized γ ->
  agree (in_block (gs_addr g) (g_order γ)) s s' -> (gs_addr g, g_order γ) ∈ B' ->
  slab_ok s B γ g -> slab_ok s' B' γ g.
Proof.
  intros Hz Ha HB [_ (nx & fr & Hs & Hc) Hn Hsub Hu Hr]. split; try done.
  - exists nx, fr. split; [by rewrite (ag_slab _ _ _ Ha) by (by apply ptr_in_block)|].
    eapply seg_ext; [|exact Hc]. intros o Ho. eapply fnext_agree; [done|].
    apply obj_in_block; [done|by apply Hsub|pose proof (sz_size _ Hz); lia].
  - intros o Ho Hf. rewrite (ag_buf _ _ _ Ha); [by apply Hu|].
    apply obj_in_block; [done..|pose proof (sz_size _ Hz); lia].
  - intros o Ho. destruct (Hr o Ho) as [R1 R2]. pose proof (sz_size _ Hz). unfold sizeof_ptr in *.
    rewrite !(ag_rz _ _ _ Ha); [done|..].
    + replace (o + g_size γ - 4) with (o + (g_size γ - 4)) by lia. apply obj_in_block; [done..|lia].
    + replace o with (o + 0) at 1 by lia. apply obj_in_block; [done..|lia].
Qed.

Lemma agree_sub (Q Q' : Z -> Prop) s s' : (forall p, Q' p -> Q p) -> agree Q s s' -> agree Q' s s'.
Proof. intros Hq [H1 H2 H3]. split; intros p Hp; [apply H1|apply H2|apply H3]; auto. Qed.

(** Different blocks have no address in common. *)
Lemma blocks_apart R B (q : P) a o b p x : pl_owns R B q -> (a, o) ∈ B -> (b, p) ∈ B -> a <> b ->
  in_block a o x -> in_block b p x -> False.
Proof.
  intros Ho Ha Hb Hne Hx Hy. destruct (pl_apart _ _ _ _ _ _ _ Ho Ha Hb) as [E|E]; [congruence|].
  unfold in_block, apart in *. lia.
Qed.

Lemma addrs_split Γ1 Γ2 p γ l1 g l2 :
  addrs (Γ1 ++ GA p γ (l1 ++ g :: l2) :: Γ2) =
  addrs Γ1 ++ ((gs_addr <$> l1) ++ gs_addr g :: (gs_addr <$> l2)) ++ addrs Γ2.
Proof. unfold addrs. rewrite bind_app, bind_cons. simpl. by rewrite fmap_app. Qed.

(** The block of a slab is no other slab's. *)
Lemma addrs_notin Γ1 Γ2 p γ l1 g l2 : NoDup (addrs (Γ1 ++ GA p γ (l1 ++ g :: l2) :: Γ2)) ->
  (gs_addr g ∉ addrs Γ1) /\ (gs_addr g ∉ addrs Γ2) /\ (gs_addr g ∉ gs_addr <$> l1) /\ (gs_addr g ∉ gs_addr <$> l2).
Proof.
  rewrite addrs_split. intros (_ & Hn1 & (Hnd & Hn2 & _)%NoDup_app)%NoDup_app.
  apply NoDup_app in Hnd as (_ & Hl1 & [Hl2 _]%NoDup_cons). split_and!; [|by apply Hn2; set_solver| |done].
  - intros Hx. apply (Hn1 _ Hx). set_solver.
  - intros Hx. apply (Hl1 _ Hx). set_solver.
Qed.

Lemma elem_addrs Γ x g : x ∈ Γ -> g ∈ ga_slabs x -> gs_addr g ∈ addrs Γ.
Proof.
  intros Hx Hg. unfold addrs. apply list_elem_of_bind. exists x. split; [|done].
  by apply list_elem_of_fmap_2.
Qed.

Lemma alloc_page s B x g : alloc_ok s B x -> g ∈ ga_slabs x -> (gs_addr g, g_order (ga_geo x)) ∈ B.
Proof. intros [_ _ Hf] Hg. by apply (so_page _ _ _ _ (proj1 (Forall_forall _ _) Hf g Hg)). Qed.

(** The slabs of an allocator have different headers. *)
Lemma slab_ptrs_nodup s B x : alloc_ok s B x -> NoDup (gs_addr <$> ga_slabs x) -> NoDup (slab_ptrs x).
Proof.
  intros _ Hn. unfold slab_ptrs. rewrite (list_fmap_compose gs_addr (slab_ptr (ga_geo x))) .
  apply NoDup_fmap_2; [|done]. intros a b E. unfold slab_ptr in E. lia.
Qed.

(** An allocator whose blocks are all untouched is unchanged. *)
Lemma alloc_ok_frame (Q : Z -> Prop) s s' B B' x :
  agree Q s s' -> m_alloc s' !! ga_ptr x = m_alloc s !! ga_ptr x ->
  (forall g p, g ∈ ga_slabs x -> in_block (gs_addr g) (g_order (ga_geo x)) p -> Q p) ->
  (forall g, g ∈ ga_slabs x -> (gs_addr g, g_order (ga_geo x)) ∈ B') ->
  alloc_ok s B x -> alloc_ok s' B' x.
Proof.
  intros Ha Hm Hq HB [Hz (nx & sl & Hal & Hc) Hf]. split; [done|..].
  - exists nx, sl. rewrite Hm. split; [done|]. eapply seg_ext; [|exact Hc].
    intros p (g & -> & Hg)%list_elem_of_fmap. unfold snext. rewrite (ag_slab _ _ _ Ha); [done|].
    eapply Hq; [done|]. by apply ptr_in_block.
  - apply Forall_forall. intros g Hg. eapply slab_ok_frame; [done| |by apply HB|by eapply Forall_forall].
    eapply agree_sub; [|exact Ha]. intros p Hp. by eapply Hq.
Qed.

(** The other slabs when the block at [addr], of order [o], may change. *)
Lemma others_apart R B (q : P) s B0 x g addr o p :
  pl_owns R B q -> (addr, o) ∈ B -> (forall b, b ∈ B0 -> b ∈ B) -> alloc_ok s B0 x -> g ∈ ga_slabs x ->
  gs_addr g <> addr -> in_block (gs_addr g) (g_order (ga_geo x)) p -> ~ in_block addr o p.
Proof. intros Hp Ha Hsub Hx Hg Hne H1 H2. eapply blocks_apart; [done|by apply Hsub; eapply alloc_page|..]; done. Qed.
End frames.

(** ** Changing one block *)

Section steps.
Context {P : Type} `{PageLaws P}.
Variable saa : Z.
Variable R : list (Z * Z).
Implicit Types s : kmem P.
Abbreviation kinv := (kinv saa R).

Section one_block.
Variables (Bp : gset (Z * nat)) (q : P) (addr : Z) (o : nat).
Hypothesis Hown : pl_owns R Bp q.
Hypothesis Hblk : (addr, o) ∈ Bp.
Variables (s s' : kmem P) (B B' : gset (Z * nat)).
Hypothesis HB : B ⊆ Bp.
Hypothesis HB' : forall b, b ∈ B -> b <> (addr, o) -> b ∈ B'.
Hypothesis Hag : agree (fun p => ~ in_block addr o p) s s'.

Lemma slab_other γ g : sized γ -> gs_addr g <> addr -> slab_ok s B γ g -> slab_ok s' B' γ g.
Proof.
  intros Hz Hne Hok. pose proof (so_page _ _ _ _ Hok) as Hpg.
  eapply slab_ok_frame; [done| | |exact Hok].
  - eapply agree_sub; [|exact Hag]. intros p Hp Hq.
    eapply (blocks_apart R Bp q addr o); [done|done|by apply HB, Hpg|congruence|done|done].
  - apply HB'; [done|]. congruence.
Qed.

Lemma snext_other γ g B0 : sized γ -> gs_addr g <> addr -> slab_ok s B0 γ g -> B0 ⊆ Bp ->
  snext s' (slab_ptr γ (gs_addr g)) = snext s (slab_ptr γ (gs_addr g)).
Proof.
  intros Hz Hne Hok Hsub. unfold snext. rewrite (ag_slab _ _ _ Hag); [done|].
  intros Hq. eapply (blocks_apart R Bp q addr o); [done|done| | |exact Hq|by apply ptr_in_block].
  - apply Hsub. exact (so_page _ _ _ _ Hok).
  - congruence.
Qed.

Lemma slabs_other γ l : sized γ -> addr ∉ gs_addr <$> l ->
  Forall (slab_ok s B γ) l -> Forall (slab_ok s' B' γ) l.
Proof.
  intros Hz Hn Hf. rewrite Forall_forall in *. intros g Hg. apply slab_other; [done| |by apply Hf].
  intros E. apply Hn. rewrite <- E. by apply list_elem_of_fmap_2.
Qed.

Lemma allocs_other Γ : addr ∉ addrs Γ -> (forall x, x ∈ Γ -> m_alloc s' !! ga_ptr x = m_alloc s !! ga_ptr x) ->
  Forall (alloc_ok s B) Γ -> Forall (alloc_ok s' B') Γ.
Proof.
  intros Hn Hm Hf. rewrite Forall_forall in *. intros x Hx. specialize (Hf x Hx).
  destruct Hf as [Hz (nx & sl & Hal & Hc) Hsl].
  assert (addr ∉ gs_addr <$> ga_slabs x) as Hn'.
  { intros (g & -> & Hg)%list_elem_of_fmap. by eapply Hn, elem_addrs. }
  split; [done| |by apply slabs_other]. exists nx, sl. rewrite Hm by done. split; [done|].
  eapply seg_ext; [|exact Hc]. intros p (g & -> & Hg)%list_elem_of_fmap.
  eapply snext_other; [done| |by eapply Forall_forall|done].
  intros E. apply Hn'. rewrite <- E. by apply list_elem_of_fmap_2.
Qed.
End one_block.

Lemma kinv_split Γ1 x Γ2 B s : kinv (Γ1 ++ x :: Γ2) B s ->
  Forall (alloc_ok s B) Γ1 /\ alloc_ok s B x /\ Forall (alloc_ok s B) Γ2.
Proof. intros [_ _ _ Hf _ _ _]. rewrite Forall_app, Forall_cons in Hf. done. Qed.

Lemma live_split Γ1 x Γ2 al o : obj_live (Γ1 ++ x :: Γ2) al o <->
  obj_live Γ1 al o \/ obj_live [x] al o \/ obj_live Γ2 al o.
Proof.
  unfold obj_live. split.
  - intros (y & g & [Hy|[->|Hy]%elem_of_cons]%elem_of_app & Hl); [left|right; left|right; right];
      eexists _, g; (split; [|exact Hl]); done || by apply list_elem_of_singleton.
  - intros [(y & g & Hy & Hl)|[(y & g & ->%list_elem_of_singleton & Hl)|(y & g & Hy & Hl)]];
      eexists _, g; (split; [|exact Hl]); set_solver.
Qed.

Lemma live_slabs p γ l1 g l2 al o : obj_live [GA p γ (l1 ++ g :: l2)] al o <->
  obj_live [GA p γ (l1 ++ l2)] al o \/ (p = al /\ o ∈ objs γ (gs_addr g) /\ o ∉ gs_free g).
Proof.
  unfold obj_live. setoid_rewrite list_elem_of_singleton. split.
  - intros (x & g' & -> & E & Hg & Ho & Hf). simpl in *.
    apply elem_of_app in Hg as [Hg|[->|Hg]%elem_of_cons]; [left|by right|left];
      eexists _, g'; (split; [done|]); simpl; set_solver.
  - intros [(x & g' & -> & E & Hg & Ho & Hf)|(E & Ho & Hf)]; simpl in *;
      eexists (GA p γ (l1 ++ g :: l2)), _; (split; [done|]); simpl; (split; [done|]); [split; [|by split]|].
    + set_solver.
    + split; [|by split]. set_solver.
Qed.

(** One allocator gets a new list of slabs while memory changes at most in the
    block [(addr, o)]. *)
Lemma kinv_relink Γ1 Γ2 p γ l l' B B' Bp q addr o s s' :
  kinv (Γ1 ++ GA p γ l :: Γ2) B s -> pl_owns R Bp q -> (addr, o) ∈ Bp -> B ⊆ Bp ->
  (forall b, b ∈ B -> b <> (addr, o) -> b ∈ B') ->
  agree (fun q => ~ in_block addr o q) s s' -> (addr ∉ addrs Γ1) -> (addr ∉ addrs Γ2) ->
  (forall r, r <> p -> m_alloc s' !! r = m_alloc s !! r) -> anext s' p = anext s p ->
  slab_allocators s' = slab_allocators s -> pl_owns R B' (k_pages s') ->
  alloc_ok s' B' (GA p γ l') -> NoDup (addrs (Γ1 ++ GA p γ l' :: Γ2)) ->
  (forall r, r ∈ ga_ptr <$> (Γ1 ++ GA p γ l :: Γ2) -> obj_live [GA p γ l] saa (r - sizeof_ptr) ->
     obj_live [GA p γ l'] saa (r - sizeof_ptr)) ->
  kinv (Γ1 ++ GA p γ l' :: Γ2) B' s'.
Proof.
  intros Hinv Hpl Hblk HB HB' Hag Hn1 Hn2 Hm Han Eh Hp' Hx' Hnd Hlive.
  pose proof (kinv_split _ _ _ _ _ Hinv) as (H1 & Hx & H2).
  destruct Hinv as [Hpg Hch Hpt _ Had Hsaa Hown].
  assert (ga_ptr <$> Γ1 ++ GA p γ l' :: Γ2 = ga_ptr <$> Γ1 ++ GA p γ l :: Γ2) as Eptrs by (by rewrite !fmap_app).
  assert (forall x, x ∈ Γ1 \/ x ∈ Γ2 -> m_alloc s' !! ga_ptr x = m_alloc s !! ga_ptr x) as Hm'.
  { intros x Hx0. apply Hm. rewrite fmap_app in Hpt. simpl in Hpt.
    apply NoDup_app in Hpt as (_ & Hd & [Hc _]%NoDup_cons). destruct Hx0 as [Hx0|Hx0].
    - intros E. apply (Hd (ga_ptr x)); [by apply list_elem_of_fmap_2|]. rewrite E. by left.
    - intros <-. apply Hc. by apply list_elem_of_fmap_2. }
  split; rewrite ?Eh, ?Eptrs; try done.
  - eapply seg_ext; [|exact Hch]. intros r _. destruct (decide (r = p)) as [->|Hne]; [done|].
    unfold anext. by rewrite Hm.
  - apply Forall_app; split; [|apply Forall_cons; split; [done|]];
      eapply (allocs_other Bp q addr o); eauto.
  - intros r Hr. destruct (Hown r Hr) as [->|Hl]; [by left|right].
    rewrite live_split in *. specialize (Hlive r Hr). naive_solver.
Qed.

(** A slab's cells change, the links between slabs do not. *)
Lemma kinv_update Γ1 Γ2 p γ l1 g l2 g' B s s' :
  kinv (Γ1 ++ GA p γ (l1 ++ g :: l2) :: Γ2) B s -> gs_addr g' = gs_addr g ->
  m_alloc s' = m_alloc s -> slab_allocators s' = slab_allocators s -> k_pages s' = k_pages s ->
  agree (fun q => ~ in_block (gs_addr g) (g_order γ) q) s s' ->
  snext s' (slab_ptr γ (gs_addr g)) = snext s (slab_ptr γ (gs_addr g)) ->
  slab_ok s' B γ g' ->
  (forall r, r ∈ ga_ptr <$> (Γ1 ++ GA p γ (l1 ++ g :: l2) :: Γ2) -> p = saa ->
     r - sizeof_ptr ∉ gs_free g -> r - sizeof_ptr ∉ gs_free g') ->
  kinv (Γ1 ++ GA p γ (l1 ++ g' :: l2) :: Γ2) B s'.
Proof.
  intros Hinv Ea Em Eh Ep Hag Hsn Hok Hkeep. pose proof (kinv_split _ _ _ _ _ Hinv) as (_ & Hx & _).
  destruct Hx as [Hz (nx & sl & Hal & Hc) Hf]. simpl in *. pose proof Hf as [Hf1 [Hg Hf2]%Forall_cons]%Forall_app.
  pose proof (so_page _ _ _ _ Hg) as HgB. pose proof (ki_pages _ _ _ _ _ Hinv) as Hpg.
  destruct (addrs_notin _ _ _ _ _ _ _ (ki_addrs _ _ _ _ _ Hinv)) as (Hn1 & Hn2 & Hl1 & Hl2).
  eapply (kinv_relink _ _ _ _ _ _ _ _ B (k_pages s) (gs_addr g) (g_order γ)); try done; rewrite ?Ep, ?Em; try done.
  - unfold anext. by rewrite Em.
  - split; simpl; [done|..].
    + exists nx, sl. rewrite Em. split; [done|].
      replace (slab_ptrs _) with (slab_ptrs (GA p γ (l1 ++ g :: l2))).
      2: { unfold slab_ptrs. simpl. rewrite !fmap_app. simpl. by rewrite Ea. }
      eapply seg_ext; [|exact Hc]. intros y (h & -> & Hh)%list_elem_of_fmap. simpl in *.
      destruct (decide (gs_addr h = gs_addr g)) as [->|Hne]; [done|].
      eapply (snext_other B (k_pages s) (gs_addr g) (g_order γ)); [done..| |done].
      exact (proj1 (Forall_forall _ _) Hf h Hh).
    + apply Forall_app; split; [|apply Forall_cons; split; [done|]];
        eapply (slabs_other B (k_pages s) (gs_addr g) (g_order γ)); done.
  - pose proof (ki_addrs _ _ _ _ _ Hinv) as Hnd. by rewrite addrs_split, Ea, <- (addrs_split _ _ p γ).
  - intros r Hr. rewrite !live_slabs, Ea. specialize (Hkeep r Hr). naive_solver.
Qed.

(** ** Taking and returning an object *)

Lemma block_u32 B (q : P) a o p : pl_owns R B q -> (a, o) ∈ B -> in_block a o p -> u32 p = p.
Proof.
  intros Ho Hb Hp. destruct (pl_range _ _ _ _ _ Ho Hb) as (_ & ? & _ & ? & _). unfold in_block in Hp.
  apply u32_small. unfold is_u32. lia.
Qed.

Lemma set_slab_agree s a o p v : in_block a o p -> agree (fun x => ~ in_block a o x) s (set_slab p v s).
Proof. intros Hp. split; intros x Hx; simpl; try done. rewrite lookup_insert_ne; [done|]. intros ->. done. Qed.

Lemma set_buf_agree s a o p v : in_block a o p -> agree (fun x => ~ in_block a o x) s (set_buf p v s).
Proof. intros Hp. split; intros x Hx; simpl; try done. rewrite lookup_insert_ne; [done|]. intros ->. done. Qed.

Lemma set_rz_agree s a o p v : in_block a o p -> agree (fun x => ~ in_block a o x) s (set_rz p v s).
Proof. intros Hp. split; intros x Hx; simpl; try done. rewrite lookup_insert_ne; [done|]. intros ->. done. Qed.

Lemma agree_trans (Q : Z -> Prop) s s' s'' : agree Q s s' -> agree Q s' s'' -> agree Q s s''.
Proof.
  intros [A1 A2 A3] [C1 C2 C3]. split; intros p Hp; [rewrite (C1 p Hp)|rewrite (C2 p Hp)|rewrite (C3 p Hp)];
    [apply A1|apply A2|apply A3]; done.
Qed.

Lemma fnext_set_buf γ s o p v : p <> o + g_size γ -> fnext γ (set_buf p v s) o = fnext γ s o.
Proof. intros Hne. unfold fnext. simpl. by rewrite lookup_insert_ne by done. Qed.

(** The slab after its first free object was taken. *)
Lemma slab_take s B γ addr o F nx fr : sized γ -> slab_ok s B γ (GS addr (o :: F)) ->
  m_slab s !! slab_ptr γ addr = Some (MkSlab nx (g_n γ - Z.of_nat (length (o :: F))) fr addr) ->
  exists u, fr = o /\ m_buf s !! (o + g_size γ) = Some (MkBuf u 1) /\
    slab_ok (set_buf (o + g_size γ) (MkBuf (slab_ptr γ addr) 0)
      (set_slab (slab_ptr γ addr) (MkSlab nx (g_n γ - Z.of_nat (length (o :: F)) + 1) u addr) s)) B γ (GS addr F).
Proof.
  intros Hz [HB (nx' & fr' & Hs & Hc) Hnd Hsub Hu Hr] Hs'. simpl in *. rewrite Hs in Hs'. injection Hs' as -> ->.
  destruct Hc as (-> & Ho0 & u & Hnx & Hc). unfold fnext in Hnx.
  destruct (m_buf s !! (o + g_size γ)) as [[u' f]|] eqn:Eb; [|done]. simpl in Hnx.
  destruct (Z.eqb_spec f 1) as [->|]; [|done]. injection Hnx as ->. exists u. split_and!; [done..|].
  apply NoDup_cons in Hnd as [HoF HF]. split; simpl; try done.
  - exists nx, u. rewrite lookup_insert_eq. split; [do 2 f_equal; lia|].
    eapply seg_ext; [|exact Hc]. intros x Hx. rewrite fnext_set_buf; [done|].
    intros E. assert (x = o) by lia. by subst.
  - intros x Hx. apply Hsub. by right.
  - intros o' Ho' HF'. destruct (decide (o' = o)) as [->|Hne]; [by rewrite lookup_insert_eq|].
    rewrite lookup_insert_ne by lia. apply Hu; [done|]. by apply not_elem_of_cons.
Qed.

(** The slab after an object was put back. *)
Lemma slab_put s B γ addr o F nx inuse fr : sized γ -> slab_ok s B γ (GS addr F) -> o <> 0 ->
  o ∈ objs γ addr -> o ∉ F -> m_slab s !! slab_ptr γ addr = Some (MkSlab nx inuse fr addr) ->
  slab_ok (set_slab (slab_ptr γ addr) (MkSlab nx (inuse - 1) o addr)
     (set_buf (o + g_size γ) (MkBuf fr 1) s)) B γ (GS addr (o :: F)).
Proof.
  intros Hz [HB (nx' & fr' & Hs & Hc) Hnd Hsub Hu Hr] Ho0 Ho HoF Hs'. simpl in *. rewrite Hs in Hs'.
  injection Hs' as -> <- ->. split; simpl; try done.
  - exists nx, o. rewrite lookup_insert_eq. split; [do 2 f_equal; lia|]. split_and!; [done..|].
    exists fr. unfold fnext at 1. simpl. rewrite lookup_insert_eq. split; [done|].
    eapply seg_ext; [|exact Hc]. intros x Hx. apply (fnext_set_buf γ s x). intros E.
    assert (x = o) by lia. by subst.
  - by constructor.
  - intros x [->|Hx]%elem_of_cons; [done|by apply Hsub].
  - intros o' Ho' [Hne HF']%not_elem_of_cons. rewrite lookup_insert_ne by lia. by apply Hu.
Qed.

(** A slab of an allocator, with what the code reads of it. *)
Lemma kinv_slab Γ1 Γ2 p γ l1 g l2 B s : kinv (Γ1 ++ GA p γ (l1 ++ g :: l2) :: Γ2) B s ->
  sized γ /\ slab_ok s B γ g /\ (exists nx sl, m_alloc s !! p = Some (MkAlloc nx (g_size γ) sl (g_order γ) (g_n γ))) /\
  pl_owns R B (k_pages s).
Proof.
  intros Hinv. pose proof (kinv_split _ _ _ _ _ Hinv) as (_ & [Hz (nx & sl & Hal & _) Hf] & _). simpl in *.
  split_and!; [done| |by eauto|by apply Hinv]. by apply Forall_app in Hf as [_ [? _]%Forall_cons].
Qed.

Lemma kinv_take Γ1 Γ2 p γ l1 addr o F l2 B s nx fr :
  kinv (Γ1 ++ GA p γ (l1 ++ GS addr (o :: F) :: l2) :: Γ2) B s ->
  m_slab s !! slab_ptr γ addr = Some (MkSlab nx (g_n γ - Z.of_nat (length (o :: F))) fr addr) ->
  exists u, fr = o /\ m_buf s !! (o + g_size γ) = Some (MkBuf u 1) /\
    kinv (Γ1 ++ GA p γ (l1 ++ GS addr F :: l2) :: Γ2) B
      (set_buf (o + g_size γ) (MkBuf (slab_ptr γ addr) 0)
        (set_slab (slab_ptr γ addr) (MkSlab nx (g_n γ - Z.of_nat (length (o :: F)) + 1) u addr) s)).
Proof.
  intros Hinv Hsl. destruct (kinv_slab _ _ _ _ _ _ _ _ _ Hinv) as (Hz & Hok & _ & _).
  destruct (slab_take s B γ addr o F nx fr Hz Hok Hsl) as (u & Hfr & Hb & Hok').
  exists u. split_and!; [done..|]. eapply kinv_update; [exact Hinv|done..| | |exact Hok'|].
  - simpl. eapply agree_trans; [apply set_slab_agree|apply set_buf_agree].
    + by apply ptr_in_block.
    + apply obj_in_block; [done|apply (so_sub _ _ _ _ Hok); by left|pose proof (sz_size _ Hz); lia].
  - unfold snext. simpl. by rewrite lookup_insert_eq, Hsl.
  - simpl. by intros r _ _ [_ Hr]%not_elem_of_cons.
Qed.

Lemma kinv_put Γ1 Γ2 p γ l1 addr o F l2 B s nx inuse fr :
  kinv (Γ1 ++ GA p γ (l1 ++ GS addr F :: l2) :: Γ2) B s ->
  o ∈ objs γ addr -> o ∉ F -> m_slab s !! slab_ptr γ addr = Some (MkSlab nx inuse fr addr) ->
  (p = saa -> o + sizeof_ptr ∉ ga_ptr <$> (Γ1 ++ GA p γ (l1 ++ GS addr F :: l2) :: Γ2)) ->
  kinv (Γ1 ++ GA p γ (l1 ++ GS addr (o :: F) :: l2) :: Γ2) B
    (set_slab (slab_ptr γ addr) (MkSlab nx (inuse - 1) o addr) (set_buf (o + g_size γ) (MkBuf fr 1) s)).
Proof.
  intros Hinv Ho HoF Hsl Hnot. destruct (kinv_slab _ _ _ _ _ _ _ _ _ Hinv) as (Hz & Hok & _ & Hpg).
  destruct (pl_range _ _ _ _ _ Hpg (so_page _ _ _ _ Hok)) as (_ & Hpos & _). simpl in Hpos.
  destruct (objs_range γ addr o Hz Ho) as [Hlo _].
  eapply kinv_update; [exact Hinv|done..| | |apply slab_put; [done..|lia|done|done|done]|].
  - simpl. eapply agree_trans; [apply set_buf_agree|apply set_slab_agree].
    + apply obj_in_block; [done..|pose proof (sz_size _ Hz); lia].
    + by apply ptr_in_block.
  - unfold snext. simpl. by rewrite lookup_insert_eq, Hsl.
  - simpl. intros r Hr Hp Hf [E|Hx]%elem_of_cons; [|done]. apply (Hnot Hp).
    replace (o + sizeof_ptr) with r by lia. done.
Qed.

(** Reading the red zones of an object. *)
Lemma verify_redzones_ok s B γ g o a : sized γ -> slab_ok s B γ g -> o ∈ objs γ (gs_addr g) ->
  sa_objsize a = g_size γ -> pl_owns R B (k_pages s) -> VERIFY_REDZONES a o s = Ret (tt, s).
Proof.
  intros Hz Hok Ho Ea Hpg. destruct (so_rz _ _ _ _ Hok o Ho) as [R1 R2]. pose proof (sz_size _ Hz).
  unfold VERIFY_REDZONES, load_rz, rear_rz. rewrite bind_bind, bind_gets, R1, bind_deref, Ea.
  rewrite bind_assert by done. rewrite bind_bind, bind_gets.
  replace (o + g_size γ - sizeof_ptr) with (o + (g_size γ - sizeof_ptr)) in * by lia.
  rewrite (block_u32 B (k_pages s) (gs_addr g) (g_order γ)), R2; [done|done|by apply (so_page _ _ _ _ Hok)|].
  apply obj_in_block; [done..|unfold sizeof_ptr; lia].
Qed.

(** ** Giving blocks back *)

(** A slab with no allocated object. *)
Definition idle (γ : geo) (g : gslab) : Prop := Z.of_nat (length (gs_free g)) = g_n γ.

#[export] Instance idle_dec γ g : Decision (idle γ g) := decide (Z.of_nat (length (gs_free g)) = g_n γ).

Lemma idle_all s B γ g o : sized γ -> slab_ok s B γ g -> idle γ g -> o ∈ objs γ (gs_addr g) -> o ∈ gs_free g.
Proof.
  intros Hz Hok Hi Ho. pose proof (sz_n _ Hz).
  assert (gs_free g ≡ₚ objs γ (gs_addr g)) as Hp.
  { apply submseteq_length_Permutation.
    - apply NoDup_submseteq; [by apply Hok|]. intros x Hx. by apply (so_sub _ _ _ _ Hok).
    - pose proof (objs_length γ (gs_addr g) ltac:(lia)). unfold idle in Hi. lia. }
  by rewrite Hp.
Qed.

Definition prev_of (p : Z) (γ : geo) (l : list gslab) : prev_ptr :=
  match last l with
  | Some h => PrevSlab (slab_ptr γ (gs_addr h))
  | None => PrevHead p
  end.

Lemma slab_ok_link s B γ g q sl nx : sized γ -> m_slab s !! q = Some sl -> slab_ok s B γ g ->
  slab_ok (set_slab q (MkSlab nx (s_inuse sl) (s_free sl) (s_addr sl)) s) B γ g.
Proof.
  intros Hz Hq [H1 (nx' & fr & Hs & Hc) H3 H4 H5 H6]. split; try done.
  destruct (decide (q = slab_ptr γ (gs_addr g))) as [->|Hne].
  - rewrite Hq in Hs. injection Hs as ->. exists nx, fr. simpl. by rewrite lookup_insert_eq.
  - exists nx', fr. simpl. by rewrite lookup_insert_ne.
Qed.

Lemma live_idle s B p γ l1 g l2 o : sized γ -> slab_ok s B γ g -> idle γ g ->
  obj_live [GA p γ (l1 ++ g :: l2)] saa o -> obj_live [GA p γ (l1 ++ l2)] saa o.
Proof. intros Hz Hok Hi [?|(_ & Ho & Hf)]%live_slabs; [done|]. by destruct Hf; eapply idle_all. Qed.

(** What the code reads of a slab. *)
Lemma kinv_next Γ1 Γ2 p γ l1 g l2 B s : kinv (Γ1 ++ GA p γ (l1 ++ g :: l2) :: Γ2) B s ->
  exists fr, m_slab s !! slab_ptr γ (gs_addr g) =
    Some (MkSlab (hd 0 (slab_ptrs (GA p γ l2))) (g_n γ - Z.of_nat (length (gs_free g))) fr (gs_addr g)).
Proof.
  intros Hinv. destruct (kinv_slab _ _ _ _ _ _ _ _ _ Hinv) as (_ & Hok & _).
  pose proof (kinv_split _ _ _ _ _ Hinv) as (_ & [_ (nx & sl & _ & Hc) _] & _).
  destruct (so_slab _ _ _ _ Hok) as (nx' & fr & Hs & _). exists fr. rewrite Hs. do 2 f_equal.
  unfold slab_ptrs in *. simpl in *. rewrite fmap_app in Hc. apply seg_app in Hc as (m & _ & Hc). simpl in Hc.
  destruct Hc as (_ & _ & r & Hr & Hc). unfold snext in Hr. rewrite Hs in Hr. simpl in Hr. injection Hr as ->.
  destruct l2 as [|h l2]; simpl in *; [done|]. by destruct Hc as (-> & _).
Qed.

Lemma nodup_drop Γ1 Γ2 p γ l1 g l2 : NoDup (addrs (Γ1 ++ GA p γ (l1 ++ g :: l2) :: Γ2)) ->
  NoDup (addrs (Γ1 ++ GA p γ (l1 ++ l2) :: Γ2)) /\ (gs_addr g ∉ addrs (Γ1 ++ GA p γ (l1 ++ l2) :: Γ2)).
Proof.
  rewrite addrs_split. unfold addrs at 3 4. rewrite bind_app, bind_cons. simpl. rewrite fmap_app.
  fold (addrs Γ1) (addrs Γ2). intros Hnd.
  assert (addrs Γ1 ++ ((gs_addr <$> l1) ++ gs_addr g :: (gs_addr <$> l2)) ++ addrs Γ2 ≡ₚ
          gs_addr g :: (addrs Γ1 ++ ((gs_addr <$> l1) ++ (gs_addr <$> l2)) ++ addrs Γ2)) as Hp by solve_Permutation.
  rewrite Hp in Hnd. apply NoDup_cons in Hnd. tauto.
Qed.

(** The list of slabs around one of them. *)
Lemma kinv_around Γ1 Γ2 p γ l1 g l2 B s :
  kinv (Γ1 ++ GA p γ (l1 ++ g :: l2) :: Γ2) B s ->
  exists nx sl, m_alloc s !! p = Some (MkAlloc nx (g_size γ) sl (g_order γ) (g_n γ)) /\
    seg (snext s) sl (slab_ptrs (GA p γ l1)) (slab_ptr γ (gs_addr g)) /\
    seg (snext s) (hd 0 (slab_ptrs (GA p γ l2))) (slab_ptrs (GA p γ l2)) 0 /\
    Forall (slab_ok s B γ) (l1 ++ l2).
Proof.
  intros Hinv. pose proof (kinv_split _ _ _ _ _ Hinv) as (_ & [_ (nx & sl & Hal & Hc) Hf] & _). simpl in *.
  exists nx, sl. split; [done|]. unfold slab_ptrs in *. simpl in *. rewrite fmap_app in Hc.
  apply seg_app in Hc as (m & Hc1 & Hc). simpl in Hc. destruct Hc as (-> & _ & r & Hr & Hc2). split; [done|].
  rewrite Forall_app, Forall_cons in Hf. rewrite Forall_app. split; [|tauto].
  destruct l2 as [|h l2]; simpl in *; [done|]. by destruct Hc2 as (-> & Hc2).
Qed.

Lemma slab_ptrs_other p γ h l k : gs_addr h ∉ gs_addr <$> l -> k ∈ slab_ptrs (GA p γ l) -> k <> slab_ptr γ (gs_addr h).
Proof.
  intros Hn (g & -> & Hg)%list_elem_of_fmap E. apply Hn. unfold slab_ptr in E. simpl in E.
  replace (gs_addr h) with (gs_addr g) by lia. by apply list_elem_of_fmap_2.
Qed.

(** Unlinking a slab without allocated objects; its block is still owned. *)
Lemma kinv_unlink_head Γ1 Γ2 p γ g l2 B s :
  kinv (Γ1 ++ GA p γ (g :: l2) :: Γ2) B s -> idle γ g ->
  exists s', store_prev (PrevHead p) (hd 0 (slab_ptrs (GA p γ l2))) s = Ret (tt, s') /\
    kinv (Γ1 ++ GA p γ l2 :: Γ2) B s' /\ m_hdr s' = m_hdr s /\ kmalloc_allocators s' = kmalloc_allocators s.
Proof.
  intros Hinv Hi. destruct (kinv_slab _ _ _ _ [] _ _ _ _ Hinv) as (Hz & Hok & _ & Hpg).
  destruct (nodup_drop _ _ _ _ [] _ _ (ki_addrs _ _ _ _ _ Hinv)) as [Hnd _].
  destruct (addrs_notin _ _ _ _ [] _ _ (ki_addrs _ _ _ _ _ Hinv)) as (Hn1 & Hn2 & _ & _).
  destruct (kinv_around _ _ _ _ [] _ _ _ _ Hinv) as (nx & sl & Hal & _ & Hc2 & Hf).
  eexists. split; [unfold store_prev, load_alloc; rewrite bind_bind, bind_gets, Hal, bind_deref; reflexivity|].
  split; [|done].
  eapply (kinv_relink _ _ _ _ _ _ _ _ B (k_pages s) (gs_addr g) (g_order γ)); try done.
  - exact (so_page _ _ _ _ Hok).
  - intros t Ht. simpl. by rewrite lookup_insert_ne.
  - unfold anext. simpl. by rewrite lookup_insert_eq, Hal.
  - split; simpl; [done| |].
    + rewrite lookup_insert_eq. eexists _, _. by split.
    + eapply Forall_impl; [exact Hf|]. intros k Hk.
      eapply slab_ok_frame; [done| |exact (so_page _ _ _ _ Hk)|exact Hk]. done.
  - intros o _. by apply (live_idle s B p γ [] g l2).
Qed.

Lemma kinv_unlink_next Γ1 Γ2 p γ l1 h g l2 B s :
  kinv (Γ1 ++ GA p γ ((l1 ++ [h]) ++ g :: l2) :: Γ2) B s -> idle γ g ->
  exists s', store_prev (PrevSlab (slab_ptr γ (gs_addr h))) (hd 0 (slab_ptrs (GA p γ l2))) s = Ret (tt, s') /\
    kinv (Γ1 ++ GA p γ ((l1 ++ [h]) ++ l2) :: Γ2) B s' /\ m_hdr s' = m_hdr s /\
    kmalloc_allocators s' = kmalloc_allocators s.
Proof.
  intros Hinv Hi. destruct (kinv_slab _ _ _ _ _ _ _ _ _ Hinv) as (Hz & Hok & _ & Hpg).
  destruct (nodup_drop _ _ _ _ _ _ _ (ki_addrs _ _ _ _ _ Hinv)) as [Hnd _].
  destruct (kinv_around _ _ _ _ _ _ _ _ _ Hinv) as (nx & sl & Hal & Hc1 & Hc2 & Hf).
  pose proof (ki_addrs _ _ _ _ _ Hinv) as Had. rewrite <- app_assoc in Had.
  destruct (addrs_notin _ _ _ _ _ _ _ Had) as (Hh1 & Hh2 & Hhl1 & Hhl2).
  assert (slab_ok s B γ h) as Hh by (apply Forall_app in Hf as [[_ [? _]%Forall_cons]%Forall_app _]; done).
  destruct (so_slab _ _ _ _ Hh) as (nh & frh & Hsh & _).
  eexists. split; [unfold store_prev, load_slab; rewrite bind_bind, bind_gets, Hsh, bind_deref; reflexivity|].
  split; [|done].
  eapply (kinv_relink _ _ _ _ _ _ _ _ B (k_pages s) (gs_addr h) (g_order γ)); try done.
  - exact (so_page _ _ _ _ Hh).
  - apply set_slab_agree. by apply ptr_in_block.
  - split; simpl; [done| |].
    + exists nx, sl. split; [done|]. unfold slab_ptrs in *. simpl in *. rewrite <- app_assoc. rewrite !fmap_app in *.
      eapply seg_relink; [exact Hc1|unfold snext; simpl; by rewrite lookup_insert_eq| |exact Hc2].
      intros x Hx. unfold snext. simpl. rewrite lookup_insert_ne; [done|]. apply not_eq_sym.
      apply elem_of_app in Hx as [Hx|Hx]; eapply (slab_ptrs_other p γ); [exact Hhl1|exact Hx| |exact Hx].
      simpl in Hhl2. by apply not_elem_of_cons in Hhl2 as [_ ?].
    + eapply Forall_impl; [exact Hf|]. intros k Hk. by eapply (slab_ok_link _ _ _ _ _ _ _ Hz Hsh).
  - intros o _. by eapply live_idle.
Qed.

Lemma kinv_unlink Γ1 Γ2 p γ l1 g l2 B s :
  kinv (Γ1 ++ GA p γ (l1 ++ g :: l2) :: Γ2) B s -> idle γ g ->
  exists s', store_prev (prev_of p γ l1) (hd 0 (slab_ptrs (GA p γ l2))) s = Ret (tt, s') /\
    kinv (Γ1 ++ GA p γ (l1 ++ l2) :: Γ2) B s' /\ m_hdr s' = m_hdr s /\
    kmalloc_allocators s' = kmalloc_allocators s.
Proof.
  intros Hinv Hi. unfold prev_of. destruct (last l1) as [h|] eqn:El.
  - apply last_Some in El as (l1' & ->). by eapply kinv_unlink_next.
  - apply last_None in El as ->. by eapply kinv_unlink_head.
Qed.

(** The memory of a block that is no slab's is given back. *)
Lemma live_outside Γ B s a o al x d : kinv Γ B s -> (a, o) ∈ B -> a ∉ addrs Γ -> obj_live Γ al x ->
  0 <= d <= 8 -> ~ in_block a o (x + d).
Proof.
  intros Hinv Hb Hn (y & g & Hy & Ep & Hg & Ho & Hf) Hd Hin.
  pose proof (proj1 (Forall_forall _ _) (ki_allocs _ _ _ _ _ Hinv) y Hy) as Hok.
  pose proof (ao_sized _ _ _ Hok) as Hz. pose proof (sz_size _ Hz).
  eapply (blocks_apart R B (k_pages s) a o (gs_addr g)); [apply Hinv|done|by eapply alloc_page| |exact Hin|].
  - intros ->. by eapply Hn, elem_addrs.
  - apply obj_in_block; [done..|lia].
Qed.

Lemma ptr_outside Γ B s a o r : kinv Γ B s -> (a, o) ∈ B -> a ∉ addrs Γ -> r ∈ ga_ptr <$> Γ -> ~ in_block a o r.
Proof.
  intros Hinv Hb Hn Hr Hin. destruct (ki_own _ _ _ _ _ Hinv r Hr) as [->|Hl].
  - destruct (pl_range _ _ _ _ _ (ki_pages _ _ _ _ _ Hinv) Hb) as (_ & _ & _ & _ & lo & hi & HR & ? & ?).
    apply (ki_saa _ _ _ _ _ Hinv lo hi HR). unfold in_block in Hin. lia.
  - eapply (live_outside _ _ _ _ _ _ _ sizeof_ptr Hinv Hb Hn Hl); [unfold sizeof_ptr; lia|].
    by replace (r - sizeof_ptr + sizeof_ptr) with r by lia.
Qed.

Lemma lost_lookup {V} a n (m : gmap Z V) p : ~ (a <= p < a + n) -> lost a n m !! p = m !! p.
Proof.
  intros Hp. unfold lost. destruct (m !! p) as [v|] eqn:E.
  - by apply map_lookup_filter_Some.
  - apply map_lookup_filter_None. by left.
Qed.

Lemma kinv_release Γ B s a o q : kinv Γ B s -> (a, o) ∈ B -> a ∉ addrs Γ ->
  pl_owns R (B ∖ {[(a, o)]}) q -> kinv Γ (B ∖ {[(a, o)]}) (set_pages q (poison a (bytes_of o) s)).
Proof.
  intros Hinv Hb Hn Hq. pose proof (fun r => ptr_outside _ _ _ _ _ r Hinv Hb Hn) as Hout.
  destruct Hinv as [Hpg Hch Hpt Hf Had Hsaa Hown]. split; try done.
  - eapply seg_ext; [|exact Hch]. intros r Hr. unfold anext. simpl. rewrite lost_lookup; [done|by apply Hout].
  - eapply (allocs_other B (k_pages s) a o); [done|done|done| | |done| |exact Hf].
    + intros b Hb' Hne. apply elem_of_difference. by rewrite elem_of_singleton.
    + split; intros p Hp; simpl; by apply lost_lookup.
    + intros x Hx. simpl. apply lost_lookup, Hout. by apply list_elem_of_fmap_2.
Qed.

(** Only slabs without allocated objects disappear. *)
Inductive drops (γ : geo) : list gslab -> list gslab -> Prop :=
| drops_nil : drops γ [] []
| drops_keep g l l' : drops γ l l' -> drops γ (g :: l) (g :: l')
| drops_idle g l l' : idle γ g -> drops γ l l' -> drops γ (g :: l) l'.

Lemma drops_refl γ l : drops γ l l.
Proof. induction l; by constructor. Qed.

(** The headers of allocated objects are kept. *)
Definition hdrs_kept (Γ : list galloc) (s s' : kmem P) : Prop :=
  (forall al o, obj_live Γ al o -> m_hdr s' !! (o + sizeof_ptr) = m_hdr s !! (o + sizeof_ptr)) /\
  kmalloc_allocators s' = kmalloc_allocators s.

Lemma hdrs_kept_trans Γ Γ' s s' s'' : (forall al o, obj_live Γ al o -> obj_live Γ' al o) ->
  hdrs_kept Γ s s' -> hdrs_kept Γ' s' s'' -> hdrs_kept Γ s s''.
Proof.
  intros Hl [H1 E1] [H2 E2]. split; [|congruence]. intros al o Ho. rewrite (H2 al o) by auto. by apply (H1 al).
Qed.

Lemma hdrs_kept_same Γ s s' : m_hdr s' = m_hdr s -> kmalloc_allocators s' = kmalloc_allocators s -> hdrs_kept Γ s s'.
Proof. intros E1 E2. split; [|done]. intros. by rewrite E1. Qed.

(** Blocks that are not slabs stay owned. *)
Definition others_kept (as_ : list Z) (B B' : gset (Z * nat)) : Prop :=
  B' ⊆ B /\ forall a o, (a, o) ∈ B -> a ∉ as_ -> (a, o) ∈ B'.

Lemma free_slab_ok Γ B s a al sl : kinv Γ B s -> (a, sa_order al) ∈ B -> a ∉ addrs Γ -> s_addr sl = a ->
  exists s', free_slab al sl s = Ret (tt, s') /\ kinv Γ (B ∖ {[(a, sa_order al)]}) s' /\ hdrs_kept Γ s s'.
Proof.
  intros Hinv Hb Hn Ea. destruct (pl_free _ _ _ _ _ (ki_pages _ _ _ _ _ Hinv) Hb) as (q & E & Hq).
  eexists. split; [|split; [by apply kinv_release|]].
  - unfold free_slab. rewrite bind_modify. unfold in_pages, zoom. rewrite Ea. simpl. by rewrite E.
  - split; [|done]. intros x o Hl. simpl. apply lost_lookup.
    eapply live_outside; [done..|unfold sizeof_ptr; lia].
Qed.

Lemma live_drop_idle Γ1 Γ2 p γ l1 g l2 B s al o : kinv (Γ1 ++ GA p γ (l1 ++ g :: l2) :: Γ2) B s -> idle γ g ->
  obj_live (Γ1 ++ GA p γ (l1 ++ g :: l2) :: Γ2) al o <-> obj_live (Γ1 ++ GA p γ (l1 ++ l2) :: Γ2) al o.
Proof.
  intros Hinv Hi. destruct (kinv_slab _ _ _ _ _ _ _ _ _ Hinv) as (Hz & Hok & _ & _).
  rewrite !live_split, live_slabs. split; [|tauto].
  intros [?|[[?|(_ & Ho & Hf)]|?]]; [tauto..| |tauto]. destruct Hf. by eapply idle_all.
Qed.

Lemma live_drops Γ1 Γ2 p γ l2 l' : drops γ l2 l' -> forall l1 B s,
  kinv (Γ1 ++ GA p γ (l1 ++ l2) :: Γ2) B s -> forall al o,
  obj_live (Γ1 ++ GA p γ (l1 ++ l2) :: Γ2) al o <-> obj_live (Γ1 ++ GA p γ (l1 ++ l') :: Γ2) al o.
Proof.
  (* one slab at a time, after unlinking it *)
  induction 1 as [|g l l' Hd IH|g l l' Hi Hd IH]; intros l1 B s Hinv al o; [done| |].
  - rewrite !(cons_middle g), !(app_assoc l1) in *. by eapply IH.
  - rewrite (live_drop_idle _ _ _ _ _ _ _ _ _ _ _ Hinv Hi).
    destruct (kinv_unlink _ _ _ _ _ _ _ _ _ Hinv Hi) as (s' & _ & Hinv' & _). by eapply IH.
Qed.

(** What the loop over one allocator's slabs did. *)
Record slabs_reclaimed (Γ1 Γ2 : list galloc) (p : Z) (γ : geo) (l1 l2 l' : list gslab) (B B' : gset (Z * nat))
    (s s' : kmem P) : Prop := {
  sr_inv : kinv (Γ1 ++ GA p γ (l1 ++ l') :: Γ2) B' s';
  sr_drops : drops γ l2 l';
  sr_hdrs : hdrs_kept (Γ1 ++ GA p γ (l1 ++ l2) :: Γ2) s s';
  sr_blocks : others_kept (gs_addr <$> l2) B B'
}.

Definition npages_dropped (γ : geo) (l l' : list gslab) : Z :=
  npages_of (g_order γ) * (Z.of_nat (length l) - Z.of_nat (length l')).

(** One slab: kept, or unlinked and its pages freed. *)
Definition slab_step (a : slab_allocator) (prev : prev_ptr) (sp : Z) (sl : slab) (freed : Z) : M (kmem P) (Z * prev_ptr) :=
  if s_inuse sl =? 0
  then store_prev prev (s_next sl) ;;; free_slab a sl ;;; ret (freed + npages_of (sa_order a), prev)
  else ret (freed, PrevSlab sp).

Lemma drop_slab Γ1 Γ2 p γ l1 g l2 B s a sl freed :
  kinv (Γ1 ++ GA p γ (l1 ++ g :: l2) :: Γ2) B s -> idle γ g -> sa_order a = g_order γ ->
  m_slab s !! slab_ptr γ (gs_addr g) = Some sl ->
  exists B' s', slab_step a (prev_of p γ l1) (slab_ptr γ (gs_addr g)) sl freed s =
      Ret ((freed + npages_of (g_order γ), prev_of p γ l1), s') /\
    slabs_reclaimed Γ1 Γ2 p γ l1 (g :: l2) l2 B B' s s'.
Proof.
  intros Hinv Hi Ea Hsl. destruct (kinv_next _ _ _ _ _ _ _ _ _ Hinv) as (fr & Hsl'). rewrite Hsl in Hsl'.
  injection Hsl' as ->. destruct (kinv_unlink _ _ _ _ _ _ _ _ _ Hinv Hi) as (s1 & E1 & Hinv1 & Eh & Ek).
  destruct (kinv_slab _ _ _ _ _ _ _ _ _ Hinv) as (_ & Hok & _ & _).
  destruct (nodup_drop _ _ _ _ _ _ _ (ki_addrs _ _ _ _ _ Hinv)) as [_ Hn].
  destruct (free_slab_ok _ _ s1 (gs_addr g) a (MkSlab (hd 0 (slab_ptrs (GA p γ l2))) (g_n γ - Z.of_nat (length (gs_free g))) fr (gs_addr g))
    Hinv1) as (s2 & E2 & Hinv2 & Hh); [rewrite Ea; apply Hok|done|done|].
  exists (B ∖ {[(gs_addr g, sa_order a)]}), s2. split.
  - unfold slab_step. simpl. destruct (Z.eqb_spec (g_n γ - Z.of_nat (length (gs_free g))) 0) as [_|Hx]; [|unfold idle in Hi; lia].
    rewrite (bind_eq _ _ _ _ _ E1), (bind_eq _ _ _ _ _ E2). by rewrite Ea.
  - split; [done|by apply drops_idle, drops_refl| |].
    + eapply hdrs_kept_trans; [|by apply hdrs_kept_same|exact Hh].
      intros al o. by rewrite (live_drop_idle _ _ _ _ _ _ _ _ _ _ _ Hinv Hi).
    + split; [set_solver|]. intros x o Hx Hne. apply elem_of_difference. split; [done|].
      intros [= -> ->]%elem_of_singleton. apply Hne. simpl. by left.
Qed.

Definition met (target freed : Z) : bool := (0 <? target) && (target <=? freed).

Lemma sr_drop Γ1 Γ2 p γ l1 g l2 l' B B1 B' s s1 s' :
  kinv (Γ1 ++ GA p γ (l1 ++ g :: l2) :: Γ2) B s -> idle γ g ->
  slabs_reclaimed Γ1 Γ2 p γ l1 (g :: l2) l2 B B1 s s1 -> slabs_reclaimed Γ1 Γ2 p γ l1 l2 l' B1 B' s1 s' ->
  slabs_reclaimed Γ1 Γ2 p γ l1 (g :: l2) l' B B' s s'.
Proof.
  intros Hinv Hi [_ _ Hh1 [HB1 HB1']] [Hi2 Hd2 Hh2 [HB2 HB3]]. split; [done|by constructor| |].
  - eapply hdrs_kept_trans; [|exact Hh1|exact Hh2]. intros al o. by rewrite (live_drop_idle _ _ _ _ _ _ _ _ _ _ _ Hinv Hi).
  - split; [by etrans|]. intros x o Hx Hne. apply HB3; [by apply HB1'|].
    intros Hx2. apply Hne. simpl. by right.
Qed.

Lemma sr_keep Γ1 Γ2 p γ l1 g l2 l' B B' s s' :
  slabs_reclaimed Γ1 Γ2 p γ (l1 ++ [g]) l2 l' B B' s s' ->
  slabs_reclaimed Γ1 Γ2 p γ l1 (g :: l2) (g :: l') B B' s s'.
Proof.
  intros [Hi2 Hd2 Hh2 [HB2 HB3]]. rewrite <- !app_assoc in Hi2, Hh2. simpl in Hi2, Hh2.
  split; [done|by constructor|done|]. split; [done|]. intros x o Hx Hne. apply HB3; [done|].
  intros Hx2. apply Hne. simpl. by right.
Qed.

Lemma sr_none Γ1 Γ2 p γ l1 l2 B s : kinv (Γ1 ++ GA p γ (l1 ++ l2) :: Γ2) B s ->
  slabs_reclaimed Γ1 Γ2 p γ l1 l2 l2 B B s s.
Proof. intros Hinv. split; [done|apply drops_refl|by apply hdrs_kept_same|]. split; [done|]. naive_solver. Qed.

(** One round of the loop. *)
Lemma reclaim_slabs_step Γ1 Γ2 p γ l1 g l2 B s fuel target prev freed :
  kinv (Γ1 ++ GA p γ (l1 ++ g :: l2) :: Γ2) B s ->
  exists a sl, sa_order a = g_order γ /\ m_slab s !! slab_ptr γ (gs_addr g) = Some sl /\
    s_next sl = hd 0 (slab_ptrs (GA p γ l2)) /\ (s_inuse sl = 0 <-> idle γ g) /\
    reclaim_slabs (S fuel) target p prev (slab_ptr γ (gs_addr g)) freed s =
    (let! r := slab_step a prev (slab_ptr γ (gs_addr g)) sl freed in
     if met target r.1 then ret (r.1, true)
     else reclaim_slabs fuel target p r.2 (s_next sl) r.1) s.
Proof.
  intros Hinv. destruct (kinv_slab _ _ _ _ _ _ _ _ _ Hinv) as (Hz & Hok & (nx & hd_ & Hal) & Hpg).
  destruct (kinv_next _ _ _ _ _ _ _ _ _ Hinv) as (fr & Hsl). eexists _, _. split; [|split; [exact Hsl|]].
  - instantiate (1 := MkAlloc nx (g_size γ) hd_ (g_order γ) (g_n γ)). done.
  - split; [done|]. split; [unfold idle; simpl; lia|]. cbn [reclaim_slabs].
    destruct (Z.eqb_spec (slab_ptr γ (gs_addr g)) 0) as [E|_].
    { destruct (pl_range _ _ _ _ _ Hpg (so_page _ _ _ _ Hok)) as (_ & ? & _).
      pose proof (proj1 (sized_ptr γ (gs_addr g) Hz)). lia. }
    unfold load_alloc, load_slab. rewrite bind_bind, bind_gets, Hal, bind_deref.
    by rewrite bind_bind, bind_gets, Hsl, bind_deref.
Qed.

Lemma reclaim_slabs_ok Γ1 Γ2 p γ target l2 : forall l1 B s freed fuel,
  kinv (Γ1 ++ GA p γ (l1 ++ l2) :: Γ2) B s -> (length l2 <= fuel)%nat ->
  exists l' B' s' b,
    reclaim_slabs fuel target p (prev_of p γ l1) (hd 0 (slab_ptrs (GA p γ l2))) freed s =
      Ret ((freed + npages_dropped γ l2 l', b), s') /\
    slabs_reclaimed Γ1 Γ2 p γ l1 l2 l' B B' s s' /\
    (if b : bool then met target (freed + npages_dropped γ l2 l') = true else Forall (fun g => ~ idle γ g) l').
Proof.
  unfold npages_dropped. induction l2 as [|g l2 IH]; intros l1 B s freed fuel Hinv Hfuel.
  { exists [], B, s, false. split; [destruct fuel; simpl; unfold ret; do 3 f_equal; lia|]. split; [by apply sr_none|done]. }
  destruct fuel as [|fuel]; [simpl in Hfuel; lia|]. simpl in Hfuel.
  destruct (reclaim_slabs_step _ _ _ _ _ _ _ _ _ fuel target (prev_of p γ l1) freed Hinv)
    as (a & sl & Ea & Hsl & En & Ei & E).
  change (hd 0 (slab_ptrs (GA p γ (g :: l2)))) with (slab_ptr γ (gs_addr g)). rewrite E, En.
  destruct (decide (idle γ g)) as [Hi|Hi].
  - destruct (drop_slab _ _ _ _ _ _ _ _ _ a sl freed Hinv Hi Ea Hsl) as (B1 & s1 & E1 & Hr1).
    rewrite (bind_eq _ _ _ _ _ E1). cbn [fst snd length].
    destruct (met target (freed + npages_of (g_order γ))) eqn:Em.
    + exists l2, B1, s1, true. replace (npages_of (g_order γ) * _) with (npages_of (g_order γ)) by lia. by split.
    + destruct (IH l1 B1 s1 (freed + npages_of (g_order γ)) fuel (sr_inv _ _ _ _ _ _ _ _ _ _ _ Hr1))
        as (l' & B' & s' & b & E' & Hr & Hb); [lia|].
      exists l', B', s', b. rewrite E'.
      replace (freed + npages_of (g_order γ) * (Z.of_nat (S (length l2)) - Z.of_nat (length l')))
        with (freed + npages_of (g_order γ) + npages_of (g_order γ) * (Z.of_nat (length l2) - Z.of_nat (length l'))) by lia.
      split; [done|]. split; [by eapply sr_drop|done].
  - unfold slab_step. destruct (Z.eqb_spec (s_inuse sl) 0) as [E0|_]; [tauto|]. rewrite bind_ret. cbn [fst snd].
    destruct (met target freed) eqn:Em.
    + exists (g :: l2), B, s, true. split; [unfold ret; do 3 f_equal; lia|].
      split; [by apply sr_none|by replace (freed + _) with freed by lia].
    + destruct (IH (l1 ++ [g]) B s freed fuel) as (l' & B' & s' & b & E' & Hr & Hb); [by rewrite <- app_assoc|lia|].
      exists (g :: l'), B', s', b. unfold prev_of in E' at 1. rewrite last_snoc in E'. rewrite E'. simpl length.
      replace (Z.of_nat (S (length l2)) - Z.of_nat (S (length l'))) with (Z.of_nat (length l2) - Z.of_nat (length l')) by lia.
      split; [done|]. split; [by apply sr_keep|destruct b; [done|by constructor]].
Qed.

(** What happens to an allocator. *)
Definition shrunk (x x' : galloc) : Prop :=
  ga_ptr x' = ga_ptr x /\ ga_geo x' = ga_geo x /\ drops (ga_geo x) (ga_slabs x) (ga_slabs x').

Definition busy (x : galloc) : Prop := Forall (fun g => ~ idle (ga_geo x) g) (ga_slabs x).

(** Pages in slabs. *)
Fixpoint slab_pages (Γ : list galloc) : Z :=
  match Γ with
  | [] => 0
  | x :: Γ' => npages_of (g_order (ga_geo x)) * Z.of_nat (length (ga_slabs x)) + slab_pages Γ'
  end.

Lemma shrunk_refl Γ : Forall2 shrunk Γ Γ.
Proof. induction Γ; constructor; [|done]. split_and!; [done..|apply drops_refl]. Qed.

Lemma alloc_head Γ1 x Γ2 B s : kinv (Γ1 ++ x :: Γ2) B s ->
  exists a, m_alloc s !! ga_ptr x = Some a /\ sa_next a = hd 0 (ga_ptr <$> Γ2) /\
    sa_slabs a = hd 0 (slab_ptrs x) /\ ga_ptr x <> 0.
Proof.
  intros Hinv. pose proof (kinv_split _ _ _ _ _ Hinv) as (_ & [_ (nx & sl & Hal & Hc) _] & _).
  eexists. split; [exact Hal|]. simpl. pose proof (ki_chain _ _ _ _ _ Hinv) as Hch.
  rewrite fmap_app in Hch. apply seg_app in Hch as (m & _ & Hch). simpl in Hch.
  destruct Hch as (_ & Hp & r & Hr & Hch). unfold anext in Hr. rewrite Hal in Hr. injection Hr as ->.
  split_and!; [| |done].
  - destruct Γ2 as [|y Γ2]; simpl in *; [done|]. by destruct Hch as (-> & _).
  - destruct (slab_ptrs x); simpl in *; [done|]. by destruct Hc as (-> & _).
Qed.

Lemma slab_fuel Γ1 x Γ2 B s : kinv (Γ1 ++ x :: Γ2) B s -> (length (ga_slabs x) <= size (m_slab s))%nat.
Proof.
  intros Hinv. pose proof (kinv_split _ _ _ _ _ Hinv) as (_ & Hx & _).
  replace (length (ga_slabs x)) with (length (slab_ptrs x)) by apply length_fmap. apply nodes_bound.
  - eapply slab_ptrs_nodup; [exact Hx|]. pose proof (ki_addrs _ _ _ _ _ Hinv) as Hnd.
    unfold addrs in Hnd. rewrite bind_app, bind_cons in Hnd.
    apply NoDup_app in Hnd as (_ & _ & [? _]%NoDup_app). done.
  - intros p (g & -> & Hg)%list_elem_of_fmap.
    destruct (so_slab _ _ _ _ (proj1 (Forall_forall _ _) (ao_slabs _ _ _ Hx) g Hg)) as (? & ? & -> & _). done.
Qed.

Lemma alloc_fuel Γ B s : kinv Γ B s -> (length Γ <= size (m_alloc s))%nat.
Proof.
  intros Hinv. rewrite <- (length_fmap ga_ptr). apply nodes_bound; [apply Hinv|].
  intros p (x & -> & Hx)%list_elem_of_fmap.
  destruct (ao_alloc _ _ _ (proj1 (Forall_forall _ _) (ki_allocs _ _ _ _ _ Hinv) x Hx)) as (? & ? & -> & _). done.
Qed.

Record reclaimed (Γ1 Γ2 Γ2' : list galloc) (B B' : gset (Z * nat)) (s s' : kmem P) : Prop := {
  rc_inv : kinv (Γ1 ++ Γ2') B' s';
  rc_shrunk : Forall2 shrunk Γ2 Γ2';
  rc_hdrs : hdrs_kept (Γ1 ++ Γ2) s s';
  rc_blocks : others_kept (addrs Γ2) B B'
}.

Lemma rc_none Γ1 Γ2 B s : kinv (Γ1 ++ Γ2) B s -> reclaimed Γ1 Γ2 Γ2 B B s s.
Proof. intros. split; [done|apply shrunk_refl|by apply hdrs_kept_same|]. split; [done|]. naive_solver. Qed.

Lemma rc_cons Γ1 p γ l l' Γ2 Γ2' B B1 B' s s1 s' : kinv (Γ1 ++ GA p γ l :: Γ2) B s ->
  slabs_reclaimed Γ1 Γ2 p γ [] l l' B B1 s s1 -> reclaimed (Γ1 ++ [GA p γ l']) Γ2 Γ2' B1 B' s1 s' ->
  reclaimed Γ1 (GA p γ l :: Γ2) (GA p γ l' :: Γ2') B B' s s'.
Proof.
  intros Hinv [Hi1 Hd1 Hh1 [HB1 HB1']] [Hi2 Hd2 Hh2 [HB2 HB2']]. rewrite <- app_assoc in Hi2, Hh2. simpl in *.
  split; [done|by constructor| |].
  - eapply hdrs_kept_trans; [|exact Hh1|exact Hh2]. intros al o.
    by rewrite (live_drops _ _ _ _ _ _ Hd1 [] _ _ Hinv).
  - split; [by etrans|]. intros a o Ha Hn. unfold addrs in Hn. rewrite bind_cons in Hn. simpl in Hn.
    apply not_elem_of_app in Hn as [Hn1 Hn2]. apply HB2'; [by apply HB1'|done].
Qed.

Lemma reclaim_allocators_ok target Γ2 : forall Γ1 B s freed fuel,
  kinv (Γ1 ++ Γ2) B s -> (length Γ2 <= fuel)%nat ->
  exists Γ2' B' s' n, reclaim_allocators fuel target (hd 0 (ga_ptr <$> Γ2)) freed s = Ret (n, s') /\
    n = freed + slab_pages Γ2 - slab_pages Γ2' /\ reclaimed Γ1 Γ2 Γ2' B B' s s' /\
    (met target n = true \/ Forall busy Γ2').
Proof.
  induction Γ2 as [|[p γ l] Γ2 IH]; intros Γ1 B s freed fuel Hinv Hfuel.
  { exists [], B, s, freed. split; [destruct fuel; done|]. split; [simpl; lia|]. split; [by apply rc_none|by right]. }
  destruct fuel as [|fuel]; [simpl in Hfuel; lia|]. simpl in Hfuel.
  destruct (alloc_head _ _ _ _ _ Hinv) as (a & Hal & _ & Esl & Hp0). simpl in *.
  destruct (Z.eqb_spec p 0) as [|_]; [done|]. unfold load_alloc. rewrite bind_bind, bind_gets, Hal, bind_deref.
  rewrite bind_gets, Esl.
  destruct (reclaim_slabs_ok Γ1 Γ2 p γ target l [] B s freed (size (m_slab s)) Hinv) as (l' & B1 & s1 & b & E1 & Hr1 & Hb1).
  { exact (slab_fuel _ _ _ _ _ Hinv). }
  rewrite (bind_eq _ _ _ _ _ E1). cbn [fst snd]. destruct b.
  - exists (GA p γ l' :: Γ2), B1, s1, (freed + npages_dropped γ l l'). split; [done|].
    split; [unfold npages_dropped; simpl; lia|]. split; [|by left].
    eapply rc_cons; [done|done|]. apply rc_none. rewrite <- app_assoc. apply Hr1.
  - pose proof (sr_inv _ _ _ _ _ _ _ _ _ _ _ Hr1) as Hinv1. simpl in Hinv1.
    destruct (alloc_head _ _ _ _ _ Hinv1) as (a1 & Hal1 & En & _ & _). simpl in *.
    rewrite bind_bind, bind_gets, Hal1, bind_deref, En.
    destruct (IH (Γ1 ++ [GA p γ l']) B1 s1 (freed + npages_dropped γ l l') fuel) as (Γ2' & B' & s' & n & E' & En' & Hr & Hb);
      [by rewrite <- app_assoc|lia|].
    exists (GA p γ l' :: Γ2'), B', s', n. split; [exact E'|]. split; [rewrite En'; unfold npages_dropped; simpl; lia|].
    split; [by eapply rc_cons|]. destruct Hb as [?|?]; [by left|right; by constructor].
Qed.

Lemma reclaim_ok Γ B s target : kinv Γ B s ->
  exists Γ' B' s' n, slab_allocators_reclaim target s = Ret (n, s') /\ n = slab_pages Γ - slab_pages Γ' /\
    reclaimed [] Γ Γ' B B' s s' /\ (met target n = true \/ Forall busy Γ').
Proof.
  intros Hinv. unfold slab_allocators_reclaim. rewrite !bind_gets.
  replace (slab_allocators s) with (hd 0 (ga_ptr <$> Γ)).
  - destruct (reclaim_allocators_ok target Γ [] B s 0 (size (m_alloc s)) Hinv (alloc_fuel _ _ _ Hinv))
      as (Γ' & B' & s' & n & E & En & Hr). exists Γ', B', s', n. split; [done|]. split; [lia|done].
  - pose proof (ki_chain _ _ _ _ _ Hinv) as Hc. destruct Γ; simpl in *; [done|]. by destruct Hc as (-> & _).
Qed.

Lemma shrunk_live_l Γ Γ' al o : Forall2 shrunk Γ Γ' -> obj_live Γ' al o -> obj_live Γ al o.
Proof.
  intros Hs (x' & g & Hx & Ep & Hg & Ho & Hf). apply list_elem_of_lookup in Hx as (i & Hi).
  destruct (Forall2_lookup_r _ _ _ _ _ Hs Hi) as (x & Hx & E1 & E2 & Hd).
  exists x, g. rewrite <- E1, <- E2. split_and!; [by eapply list_elem_of_lookup_2|done| |done|done].
  clear -Hd Hg. induction Hd as [|h l l' _ IH|h l l' _ _ IH]; [done| |right; auto].
  apply elem_of_cons in Hg as [->|Hg]; [by left|right; auto].
Qed.

Lemma shrunk_live_r Γ Γ' B s al o : kinv Γ B s -> Forall2 shrunk Γ Γ' -> obj_live Γ al o -> obj_live Γ' al o.
Proof.
  intros Hinv Hs (x & g & Hx & Ep & Hg & Ho & Hf). pose proof Hx as (i & Hi)%list_elem_of_lookup.
  destruct (Forall2_lookup_l _ _ _ _ _ Hs Hi) as (x' & Hx' & E1 & E2 & Hd).
  pose proof (proj1 (Forall_forall _ _) (ki_allocs _ _ _ _ _ Hinv) x Hx) as [Hz _ Hok].
  exists x', g. rewrite E1, E2. split_and!; [by eapply list_elem_of_lookup_2|done| |done|done].
  clear -Hd Hg Hok Hz Ho Hf. induction Hd as [|h l l' _ IH|h l l' Hi _ IH]; [done| |];
    apply Forall_cons in Hok as [Hh Hok]; apply elem_of_cons in Hg as [->|Hg].
  - by left.
  - right. auto.
  - destruct Hf. by eapply idle_all.
  - auto.
Qed.

(** ** Growing *)

Definition with_buf (m : gmap Z slab_bufctl) (s : kmem P) : kmem P :=
  MkKmem (m_alloc s) (m_slab s) m (m_rz s) (m_hdr s) (slab_allocators s) (kmalloc_allocators s) (k_pages s).
Definition with_rz (m : gmap Z Z) (s : kmem P) : kmem P :=
  MkKmem (m_alloc s) (m_slab s) (m_buf s) m (m_hdr s) (slab_allocators s) (kmalloc_allocators s) (k_pages s).

Section carve.
Variables (a : slab_allocator) (γ : geo) (addr : Z).
Hypothesis Hz : sized γ.
Hypothesis Ea : sa_objsize a = g_size γ.
Hypothesis Hpos : 0 < addr.
Hypothesis Htop : addr + bytes_of (g_order γ) < two32.

Definition nobjs : nat := Z.to_nat (g_n γ).

Lemma obj_at_in k : (k < nobjs)%nat -> obj_at γ addr k ∈ objs γ addr.
Proof. intros Hk. apply elem_objs. exists (Z.of_nat k). unfold nobjs in Hk. split; [lia|done]. Qed.

Lemma obj_at_u32 k d : (k < nobjs)%nat -> 0 <= d <= g_size γ + sizeof_bufctl -> u32 (obj_at γ addr k + d) = obj_at γ addr k + d.
Proof.
  intros Hk Hd. destruct (objs_range γ addr _ Hz (obj_at_in k Hk)), (sized_ptr γ addr Hz).
  apply u32_small. unfold is_u32, stride, sizeof_slab in *. lia.
Qed.

Lemma next_obj_at k : (k < nobjs)%nat -> next_obj a (obj_at γ addr k) = obj_at γ addr (S k).
Proof.
  intros Hk. unfold next_obj. rewrite Ea, <- Z.add_assoc, obj_at_u32 by (done || pose proof (sz_size _ Hz); unfold sizeof_bufctl; lia).
  unfold obj_at, stride. lia.
Qed.

Lemma bufctl_at k : (k < nobjs)%nat -> obj_bufctl a (obj_at γ addr k) = obj_at γ addr k + g_size γ.
Proof. intros Hk. unfold obj_bufctl. rewrite Ea. apply obj_at_u32; [done|]. pose proof (sz_size _ Hz). unfold sizeof_bufctl. lia. Qed.

Lemma rear_rz_at k : (k < nobjs)%nat -> rear_rz a (obj_at γ addr k) = obj_at γ addr k + (g_size γ - sizeof_ptr).
Proof.
  intros Hk. unfold rear_rz. rewrite Ea. replace (_ - sizeof_ptr) with (obj_at γ addr k + (g_size γ - sizeof_ptr)) by lia.
  apply obj_at_u32; [done|]. pose proof (sz_size _ Hz). unfold sizeof_bufctl, sizeof_ptr. lia.
Qed.

Lemma obj_at_inj k k' : (k < nobjs)%nat -> (k' < nobjs)%nat -> k <> k' ->
  apart (obj_at γ addr k) (stride γ) (obj_at γ addr k') (stride γ).
Proof.
  intros Hk Hk' Hne. destruct (objs_apart γ addr _ _ Hz (obj_at_in k Hk) (obj_at_in k' Hk')) as [E|?]; [|done].
  exfalso. unfold obj_at, stride, sizeof_bufctl in E. pose proof (sz_size _ Hz). nia.
Qed.

(** The control blocks from object [k] on. *)
Definition chained (k : nat) (m : gmap Z slab_bufctl) : Prop :=
  forall j, (k <= j < nobjs)%nat ->
    m !! (obj_at γ addr j + g_size γ) = Some (MkBuf (if (S j =? nobjs)%nat then 0 else obj_at γ addr (S j)) 1).

Lemma init_bufs_ok n : forall k s, (k + S n = nobjs)%nat ->
  exists m, init_bufs n a (obj_at γ addr k) s = Ret (obj_at γ addr (nobjs - 1), with_buf m s) /\
    chained k m /\ forall p, (forall j, (k <= j < nobjs)%nat -> p <> obj_at γ addr j + g_size γ) -> m !! p = m_buf s !! p.
Proof.
  induction n as [|n IH]; intros k s Hk; simpl.
  - rewrite bind_modify, bufctl_at by lia. replace (nobjs - 1)%nat with k by lia.
    exists (<[obj_at γ addr k + g_size γ := MkBuf 0 1]> (m_buf s)). split; [done|]. split.
    + intros j Hj. replace j with k by lia. rewrite lookup_insert_eq. destruct (Nat.eqb_spec (S k) nobjs); [done|lia].
    + intros p Hp. apply lookup_insert_ne, not_eq_sym, Hp. lia.
  - rewrite bind_modify, bufctl_at, next_obj_at by lia.
    destruct (IH (S k) (set_buf (obj_at γ addr k + g_size γ) (MkBuf (obj_at γ addr (S k)) 1) s)) as (m & E & Hc & Ho); [lia|].
    exists m. split; [exact E|]. split.
    + intros j Hj. destruct (decide (j = k)) as [->|Hne]; [|apply Hc; lia].
      rewrite Ho; cbn [m_buf set_buf]; [rewrite lookup_insert_eq; destruct (Nat.eqb_spec (S k) nobjs); [lia|done]|].
      intros j Hj'. pose proof (obj_at_inj k j ltac:(lia) ltac:(lia) ltac:(lia)) as Hap.
      unfold apart, stride, sizeof_bufctl in Hap. pose proof (sz_size _ Hz). lia.
    + intros p Hp. rewrite Ho; simpl; [apply lookup_insert_ne, not_eq_sym, Hp; lia|]. intros j Hj. apply Hp. lia.
Qed.

Lemma init_redzones_ok n : forall k s, (k + n = nobjs)%nat ->
  exists m, init_redzones n a (obj_at γ addr k) s = Ret (tt, with_rz m s) /\
    (forall j, (k <= j < nobjs)%nat -> m !! obj_at γ addr j = Some SLAB_REDZONE /\
       m !! (obj_at γ addr j + g_size γ - sizeof_ptr) = Some SLAB_REDZONE) /\
    (forall p, ~ in_block addr (g_order γ) p -> m !! p = m_rz s !! p) /\
    (forall p, m_rz s !! p = Some SLAB_REDZONE -> m !! p = Some SLAB_REDZONE).
Proof.
  induction n as [|n IH]; intros k s Hk; simpl.
  - exists (m_rz s). split; [by destruct s|]. split; [intros; lia|done].
  - pose proof (sz_size _ Hz) as Hs8. rewrite !bind_modify, next_obj_at, rear_rz_at by lia.
    destruct (IH (S k) (set_rz (obj_at γ addr k + (g_size γ - sizeof_ptr)) SLAB_REDZONE
                         (set_rz (obj_at γ addr k) SLAB_REDZONE s))) as (m & E & Hc & Ho & Hm); [lia|].
    simpl in *. exists m. split; [exact E|].
    assert (in_block addr (g_order γ) (obj_at γ addr k) /\ in_block addr (g_order γ) (obj_at γ addr k + (g_size γ - sizeof_ptr))) as [B1 B2].
    { split; [replace (obj_at γ addr k) with (obj_at γ addr k + 0) by lia|];
        (apply obj_in_block; [done|apply obj_at_in; lia|unfold sizeof_ptr; lia]). }
    split_and!.
    + intros j Hj. destruct (decide (j = k)) as [->|Hne]; [|apply Hc; lia]. split; apply Hm.
      * destruct (decide (g_size γ = sizeof_ptr)) as [E0|]; [unfold sizeof_ptr in E0; lia|].
        rewrite lookup_insert_ne by lia. apply lookup_insert_eq.
      * replace (_ - sizeof_ptr) with (obj_at γ addr k + (g_size γ - sizeof_ptr)) by lia. apply lookup_insert_eq.
    + intros p Hp. rewrite Ho by done. rewrite !lookup_insert_ne; [done|..]; by intros <-.
    + intros p Hp. apply Hm. destruct (decide (p = obj_at γ addr k + (g_size γ - sizeof_ptr))) as [->|]; [by rewrite lookup_insert_eq|].
      rewrite lookup_insert_ne by done. destruct (decide (p = obj_at γ addr k)) as [->|]; [by rewrite lookup_insert_eq|].
      by rewrite lookup_insert_ne.
Qed.

(** The free list of a new slab. *)
Lemma chained_seg (s : kmem P) n : forall k, (k + n = nobjs)%nat -> chained k (m_buf s) ->
  seg (fnext γ s) (if (n =? 0)%nat then 0 else obj_at γ addr k) (obj_at γ addr <$> seq k n) 0.
Proof.
  induction n as [|n IH]; intros k Hk Hc; simpl; [done|]. split; [done|]. split.
  { pose proof (sz_size _ Hz). unfold obj_at, stride, sizeof_bufctl. nia. }
  exists (if (n =? 0)%nat then 0 else obj_at γ addr (S k)). split.
  - unfold fnext. rewrite Hc by lia. cbn [sb_free sb_u]. change (1 =? 1) with true. cbn [sb_u]. f_equal. destruct (Nat.eqb_spec (S k) nobjs), (Nat.eqb_spec n 0); (done || lia).
  - apply IH; [lia|]. intros j Hj. apply Hc. lia.
Qed.
End carve.

Lemma bytes_of_pos o : 0 < bytes_of o.
Proof. unfold bytes_of, PAGE_SIZE. pose proof (npages_of_pos o). lia. Qed.

(** A block just handed out is no slab's. *)
Lemma fresh_addr Γ B s q a o : kinv Γ B s -> pl_owns R ({[(a, o)]} ∪ B) q -> (a, o) ∉ B -> a ∉ addrs Γ.
Proof.
  intros Hinv Hq Hn (x & (g & -> & Hg)%list_elem_of_fmap & Hx)%list_elem_of_bind.
  pose proof (alloc_page _ _ _ _ (proj1 (Forall_forall _ _) (ki_allocs _ _ _ _ _ Hinv) x Hx) Hg) as Hb.
  destruct (pl_apart _ _ _ (gs_addr g) o (gs_addr g) (g_order (ga_geo x)) Hq) as [E|Hap]; [set_solver|set_solver|congruence|].
  unfold apart in Hap. pose proof (bytes_of_pos o). pose proof (bytes_of_pos (g_order (ga_geo x))). lia.
Qed.

(** The block that [_slab_allocator_grow] sets up is a slab with all objects free. *)
Lemma new_slab_ok B γ addr mb mr mh ms nx ma hd_ ks q : sized γ -> (addr, g_order γ) ∈ B -> 0 < addr ->
  chained γ addr 0 mb ->
  (forall j, (0 <= j < nobjs γ)%nat -> mr !! obj_at γ addr j = Some SLAB_REDZONE /\
     mr !! (obj_at γ addr j + g_size γ - sizeof_ptr) = Some SLAB_REDZONE) ->
  slab_ok (MkKmem ma (<[slab_ptr γ addr := MkSlab nx 0 addr addr]> ms) mb mr mh hd_ ks q : kmem P) B γ (GS addr (objs γ addr)).
Proof.
  intros Hz HB Hpos Hc Hr. pose proof (sz_n _ Hz) as Hn. split; simpl; try done.
  - exists nx, addr. rewrite lookup_insert_eq. rewrite objs_length by lia. rewrite Z.sub_diag. split; [done|].
    pose proof (chained_seg γ addr Hz Hpos (MkKmem ma (<[slab_ptr γ addr := MkSlab nx 0 addr addr]> ms) mb mr mh hd_ ks q)
      (nobjs γ) 0 eq_refl Hc) as Hs.
    destruct (Nat.eqb_spec (nobjs γ) 0) as [E|_]; [unfold nobjs in E; lia|].
    unfold obj_at at 1 in Hs. rewrite Z.mul_0_l, Z.add_0_r in Hs. exact Hs.
  - by apply objs_nodup.
  - intros o (j & -> & Hj%elem_of_seq)%list_elem_of_fmap. apply Hr. unfold nobjs. lia.
Qed.

Lemma kinv_grow Γ1 Γ2 p γ l B s a nx sl mb mr q :
  kinv (Γ1 ++ GA p γ l :: Γ2) B s -> (a, g_order γ) ∉ B -> pl_owns R ({[(a, g_order γ)]} ∪ B) q ->
  m_alloc s !! p = Some (MkAlloc nx (g_size γ) sl (g_order γ) (g_n γ)) ->
  chained γ a 0 mb -> (forall x, ~ in_block a (g_order γ) x -> mb !! x = m_buf s !! x) ->
  (forall j, (0 <= j < nobjs γ)%nat -> mr !! obj_at γ a j = Some SLAB_REDZONE /\
     mr !! (obj_at γ a j + g_size γ - sizeof_ptr) = Some SLAB_REDZONE) ->
  (forall x, ~ in_block a (g_order γ) x -> mr !! x = m_rz s !! x) ->
  kinv (Γ1 ++ GA p γ (GS a (objs γ a) :: l) :: Γ2) ({[(a, g_order γ)]} ∪ B)
    (set_alloc p (MkAlloc nx (g_size γ) (slab_ptr γ a) (g_order γ) (g_n γ))
      (set_slab (slab_ptr γ a) (MkSlab sl 0 a a) (with_rz mr (with_buf mb (set_pages q s))))).
Proof.
  intros Hinv Hna Hq Hal Hc Hb Hr Hr'. pose proof (kinv_split _ _ _ _ _ Hinv) as (_ & [Hz (nx' & sl' & Hal' & Hch) Hf] & _).
  simpl in *. rewrite Hal in Hal'. injection Hal' as -> ->.
  pose proof (fresh_addr _ _ _ _ _ _ Hinv Hq Hna) as Hfr.
  assert ((a, g_order γ) ∈ ({[(a, g_order γ)]} ∪ B : gset (Z * nat))) as Hin by set_solver.
  destruct (pl_range _ _ _ _ _ Hq Hin) as (_ & Hpos & _).
  set (s' := set_alloc _ _ _).
  assert (agree (fun x => ~ in_block a (g_order γ) x) s s') as Hag.
  { split; intros x Hx; simpl; [|by apply Hb|by apply Hr']. rewrite lookup_insert_ne; [done|].
    intros <-. by apply Hx, ptr_in_block. }
  unfold addrs in Hfr. rewrite bind_app, bind_cons in Hfr.
  apply not_elem_of_app in Hfr as [Hf1 [Hf0 Hf2]%not_elem_of_app]. simpl in Hf0.
  assert (forall b, b ∈ B -> b <> (a, g_order γ) -> b ∈ ({[(a, g_order γ)]} ∪ B : gset (Z * nat))) as HBB by set_solver.
  assert (B ⊆ {[(a, g_order γ)]} ∪ B) as HB by set_solver.
  assert (0 < slab_ptr γ a) by (pose proof (proj1 (sized_ptr γ a Hz)); lia).
  eapply (kinv_relink _ _ _ _ _ _ _ _ ({[(a, g_order γ)]} ∪ B) q a (g_order γ)); try done.
  - intros r Hne. simpl. by rewrite lookup_insert_ne.
  - unfold anext. simpl. by rewrite lookup_insert_eq, Hal.
  - split; simpl; [done| |].
    + rewrite lookup_insert_eq. exists nx', (slab_ptr γ a). split; [done|]. split; [done|]. split; [lia|].
      exists sl'. unfold snext at 1. simpl. rewrite lookup_insert_eq. split; [done|].
      eapply seg_ext; [|exact Hch]. intros x (g & -> & Hg)%list_elem_of_fmap. simpl.
      eapply (snext_other ({[(a, g_order γ)]} ∪ B) q a (g_order γ)); [done..| |exact (proj1 (Forall_forall _ _) Hf g Hg)|done].
      intros E. apply Hf0. rewrite <- E. by apply list_elem_of_fmap_2.
    + constructor; [by apply new_slab_ok|].
      by eapply (slabs_other ({[(a, g_order γ)]} ∪ B) q a (g_order γ)); [..|exact Hf].
  - change (GS a (objs γ a) :: l) with ([] ++ GS a (objs γ a) :: l). rewrite addrs_split. simpl. pose proof (ki_addrs _ _ _ _ _ Hinv) as Hnd.
    unfold addrs in Hnd at 1. rewrite bind_app, bind_cons in Hnd. simpl in Hnd. fold (addrs Γ1) (addrs Γ2) in *.
    rewrite <- Permutation_middle. constructor; [|done]. rewrite !elem_of_app. tauto.
  - intros r _ Hl. change (GS a (objs γ a) :: l) with ([] ++ GS a (objs γ a) :: l). apply live_slabs. by left.
Qed.

Lemma grow_ok Γ1 Γ2 p γ l B s : kinv (Γ1 ++ GA p γ l :: Γ2) B s ->
  (exists a s', _slab_allocator_grow p s = Ret (true, s') /\ ((a, g_order γ) ∉ B) /\
     kinv (Γ1 ++ GA p γ (GS a (objs γ a) :: l) :: Γ2) ({[(a, g_order γ)]} ∪ B) s' /\
     m_hdr s' = m_hdr s /\ kmalloc_allocators s' = kmalloc_allocators s) \/
  (exists Γ' B' s', _slab_allocator_grow p s = Ret (false, s') /\
     reclaimed [] (Γ1 ++ GA p γ l :: Γ2) Γ' B B' s s' /\ Forall busy Γ' /\
     pa_alloc_n (npages_of (g_order γ)) (k_pages s) = Ret (None, k_pages s)).
Proof.
  intros Hinv. pose proof (kinv_split _ _ _ _ _ Hinv) as (_ & [Hz (nx & sl & Hal & _) _] & _). simpl in *.
  unfold _slab_allocator_grow, load_alloc. rewrite bind_bind, bind_gets, Hal, bind_deref. cbn [sa_order sa_slab_nobjs].
  unfold kpage_alloc_n, in_pages. rewrite bind_bind.
  destruct (pl_alloc R B (k_pages s) (g_order γ) (ki_pages _ _ _ _ _ Hinv) (sz_order _ Hz)) as [(a & q & E & Hna & Hq)|E].
  - left. rewrite (bind_eq (zoom _ _ _) _ s (Some a) (set_pages q s)) by (unfold zoom; by rewrite E).
    rewrite bind_ret. pose proof (sz_n _ Hz) as Hn.
    destruct (pl_range _ _ _ a (g_order γ) Hq) as (_ & Hpos & _ & Htop & _); [set_solver|].
    replace (Z.to_nat (g_n γ - 1)) with (nobjs γ - 1)%nat by (unfold nobjs; lia).
    set (al := MkAlloc nx (g_size γ) sl (g_order γ) (g_n γ)) in *.
    assert (a = obj_at γ a 0) as Ea by (unfold obj_at; lia).
    destruct (init_bufs_ok al γ a Hz eq_refl Hpos Htop (nobjs γ - 1) 0 (set_pages q s)) as (mb & Eb & Hc & Hb);
      [unfold nobjs in *; lia|].
    rewrite <- Ea in Eb. rewrite (bind_eq _ _ _ _ _ Eb).
    destruct (init_redzones_ok al γ a Hz eq_refl Hpos Htop (nobjs γ) 0 (with_buf mb (set_pages q s))) as (mr & Er & Hr & Hr' & _); [done|].
    rewrite <- Ea in Er. rewrite (bind_eq _ _ _ _ _ Er), bind_bind, bind_gets. cbn [m_alloc with_rz with_buf set_pages].
    rewrite Hal, bind_deref, !bind_modify. rewrite (next_obj_at al γ a Hz eq_refl Hpos Htop) by (unfold nobjs; lia).
    replace (obj_at γ a (S (nobjs γ - 1))) with (slab_ptr γ a) by (unfold obj_at, slab_ptr, nobjs; do 2 f_equal; lia).
    eexists a, _. split; [reflexivity|]. split; [done|]. split; [|done].
    eapply kinv_grow; try done. intros x Hx. rewrite Hb; [done|]. intros j Hj ->. apply Hx.
    apply obj_in_block; [done|apply obj_at_in; lia|pose proof (sz_size _ Hz); lia].
  - right. rewrite (bind_eq (zoom _ _ _) _ s None (set_pages (k_pages s) s)) by (unfold zoom; by rewrite E).
    replace (set_pages (k_pages s) s) with s by (by destruct s).
    destruct (reclaim_ok _ _ _ 0 Hinv) as (Γ' & B' & s' & n & Er & _ & Hr & [Hm|Hb]); [done|].
    exists Γ', B', s'. split; [|done]. by rewrite bind_bind, (bind_eq _ _ _ _ _ Er), bind_ret.
Qed.

(** ** Allocating *)

Lemma skip_full_ok s B p γ l : forall sp fuel, Forall (slab_ok s B γ) l ->
  seg (snext s) sp (slab_ptrs (GA p γ l)) 0 -> (length l <= fuel)%nat ->
  (exists l1 g l2, l = l1 ++ g :: l2 /\ gs_free g <> [] /\
     skip_full fuel (g_n γ) sp s = Ret (slab_ptr γ (gs_addr g), s) /\ slab_ptr γ (gs_addr g) <> 0) \/
  (Forall (fun g => gs_free g = []) l /\ skip_full fuel (g_n γ) sp s = Ret (0, s)).
Proof.
  unfold slab_ptrs. simpl. induction l as [|g l IH]; intros sp fuel Hf Hs Hfuel; simpl in *.
  { subst sp. right. split; [done|]. by destruct fuel. }
  apply Forall_cons in Hf as [Hg Hf]. destruct Hs as (-> & Hnz & r & Hr & Hs).
  destruct fuel as [|fuel]; [lia|]. destruct (so_slab _ _ _ _ Hg) as (nx & fr & Hsl & _).
  unfold snext in Hr. rewrite Hsl in Hr. injection Hr as ->.
  assert (skip_full (S fuel) (g_n γ) (slab_ptr γ (gs_addr g)) s =
    if g_n γ - Z.of_nat (length (gs_free g)) =? g_n γ then skip_full fuel (g_n γ) r s
    else Ret (slab_ptr γ (gs_addr g), s)) as E.
  { simpl. destruct (Z.eqb_spec (slab_ptr γ (gs_addr g)) 0); [done|]. unfold load_slab.
    rewrite bind_bind, bind_gets, Hsl, bind_deref. simpl. by destruct (_ =? _). }
  destruct (Z.eqb_spec (g_n γ - Z.of_nat (length (gs_free g))) (g_n γ)) as [E0|E0].
  - assert (gs_free g = []) as Hnil by (apply nil_length_inv; lia).
    destruct (IH r fuel Hf Hs) as [(l1 & h & l2 & -> & Hh & Es & Hz)|[Ha Es]]; [lia|left|right].
    + exists (g :: l1), h, l2. split_and!; [done..| |done]. by rewrite E.
    + split; [by constructor|]. by rewrite E.
  - left. exists [], g, l. split_and!; [done| |by rewrite E|done]. intros Hx. rewrite Hx in E0. simpl in E0. lia.
Qed.

(** One round of [find_room]: a slab with a free object, or growing. *)
Lemma find_room_step Γ1 Γ2 p γ l B s fuel : kinv (Γ1 ++ GA p γ l :: Γ2) B s ->
  (exists l1 g l2, l = l1 ++ g :: l2 /\ gs_free g <> [] /\
     find_room (S fuel) p s = Ret (slab_ptr γ (gs_addr g), s) /\ slab_ptr γ (gs_addr g) <> 0) \/
  (Forall (fun g => gs_free g = []) l /\
   find_room (S fuel) p s = (let! grown := _slab_allocator_grow p in if grown then find_room fuel p else ret 0) s).
Proof.
  intros Hinv. pose proof (kinv_split _ _ _ _ _ Hinv) as (_ & [Hz (nx & sl & Hal & Hc) Hf] & _). simpl in *.
  destruct (skip_full_ok s B p γ l sl (size (m_slab s)) Hf Hc) as [(l1 & g & l2 & -> & Hg & Es & Hnz)|[Ha Es]].
  - exact (slab_fuel _ _ _ _ _ Hinv).
  - left. exists l1, g, l2. split_and!; [done..| |done].
    unfold load_alloc. rewrite bind_bind, bind_gets, Hal, bind_deref, bind_gets, (bind_eq _ _ _ _ _ Es).
    destruct (Z.eqb_spec (slab_ptr γ (gs_addr g)) 0); [done|].
    apply Forall_app in Hf as [_ [Hok _]%Forall_cons]. destruct (so_slab _ _ _ _ Hok) as (? & ? & Hsl & _).
    unfold load_slab. rewrite !bind_bind, bind_gets, Hsl, bind_deref, bind_ret. cbn [s_inuse sa_slab_nobjs].
    destruct (Z.ltb_spec (g_n γ - Z.of_nat (length (gs_free g))) (g_n γ)); [done|].
    destruct (gs_free g); [done|]. simpl in *. lia.
  - right. split; [done|]. unfold load_alloc.
    by rewrite bind_bind, bind_gets, Hal, bind_deref, bind_gets, (bind_eq _ _ _ _ _ Es).
Qed.
End steps.
