(* ===== verification/SlabSpec.v ===== *)
(** * Allocating, freeing, and memory of any size (mm/slab.c)

    The theorems about the allocator's calls, from the invariant of SlabInv.v:
    which object an allocation hands out and when it fails, what freeing
    restores, that objects in use never overlap, how [kmalloc] rounds sizes,
    what [slab_init] sets up; and the buddy allocator of Page.v as the source
    of pages. *)

From S2P Require Import Prelude Page Slab SlabInv.

Section calls.
Context {P : Type} `{PageLaws P}.
Variable saa : Z.
Variable R : list (Z * Z).
Implicit Types s : kmem P.
Abbreviation kinv := (kinv saa R).
Abbreviation reclaimed := (reclaimed saa R).

(** ** Objects do not overlap *)

Lemma addrs_inj Γ x g x' g' : NoDup (addrs Γ) -> x ∈ Γ -> g ∈ ga_slabs x -> x' ∈ Γ -> g' ∈ ga_slabs x' ->
  gs_addr g = gs_addr g' -> x = x' /\ g = g'.
Proof.
  intros Hnd Hx Hg Hx' Hg' E. apply list_elem_of_split in Hx as (Γ1 & Γ2 & ->). destruct x as [p γ l]. simpl in Hg.
  apply list_elem_of_split in Hg as (l1 & l2 & ->).
  destruct (addrs_notin _ _ _ _ _ _ _ Hnd) as (N1 & N2 & N3 & N4). rewrite E in *.
  apply elem_of_app in Hx' as [Hx'|[->|Hx']%elem_of_cons].
  - destruct N1. by eapply elem_addrs.
  - simpl in Hg'. apply elem_of_app in Hg' as [Hg'|[->|Hg']%elem_of_cons]; [|done|].
    + destruct N3. by apply list_elem_of_fmap_2.
    + destruct N4. by apply list_elem_of_fmap_2.
  - destruct N2. by eapply elem_addrs.
Qed.

(** The objects of all slabs, in use or not. *)
Definition is_obj (Γ : list galloc) (x : galloc) (g : gslab) (o : Z) : Prop :=
  x ∈ Γ /\ g ∈ ga_slabs x /\ o ∈ objs (ga_geo x) (gs_addr g).

Lemma is_obj_apart Γ B s x g o x' g' o' : kinv Γ B s -> is_obj Γ x g o -> is_obj Γ x' g' o' ->
  (x = x' /\ g = g' /\ o = o') \/ apart o (stride (ga_geo x)) o' (stride (ga_geo x')).
Proof.
  intros Hinv (Hx & Hg & Ho) (Hx' & Hg' & Ho').
  pose proof (proj1 (Forall_forall _ _) (ki_allocs _ _ _ _ _ Hinv) x Hx) as Hok.
  pose proof (proj1 (Forall_forall _ _) (ki_allocs _ _ _ _ _ Hinv) x' Hx') as Hok'.
  destruct (decide (gs_addr g = gs_addr g')) as [E|Hne].
  - destruct (addrs_inj Γ x g x' g' (ki_addrs _ _ _ _ _ Hinv) Hx Hg Hx' Hg' E) as [-> ->].
    destruct (objs_apart _ _ _ _ (ao_sized _ _ _ Hok) Ho Ho') as [->|?]; [by left|by right].
  - right. destruct (pl_apart _ _ _ _ _ _ _ (ki_pages _ _ _ _ _ Hinv) (alloc_page _ _ _ _ Hok Hg) (alloc_page _ _ _ _ Hok' Hg'))
      as [E|Hap]; [congruence|].
    pose proof (objs_range _ _ _ (ao_sized _ _ _ Hok) Ho). pose proof (sized_ptr _ (gs_addr g) (ao_sized _ _ _ Hok)).
    pose proof (objs_range _ _ _ (ao_sized _ _ _ Hok') Ho'). pose proof (sized_ptr _ (gs_addr g') (ao_sized _ _ _ Hok')).
    unfold apart, sizeof_slab in *. lia.
Qed.

Lemma is_obj_inj Γ B s x g x' g' o : kinv Γ B s -> is_obj Γ x g o -> is_obj Γ x' g' o -> x = x' /\ g = g'.
Proof.
  intros Hinv H1 H2. destruct (is_obj_apart _ _ _ _ _ _ _ _ _ Hinv H1 H2) as [(-> & -> & _)|Hap]; [done|].
  pose proof (proj1 (Forall_forall _ _) (ki_allocs _ _ _ _ _ Hinv) x (proj1 H1)) as Hok.
  pose proof (proj1 (Forall_forall _ _) (ki_allocs _ _ _ _ _ Hinv) x' (proj1 H2)) as Hok'.
  pose proof (sz_size _ (ao_sized _ _ _ Hok)). pose proof (sz_size _ (ao_sized _ _ _ Hok')).
  unfold apart, stride, sizeof_bufctl in Hap. lia.
Qed.

Lemma fst_unique {A B} (l : list (A * B)) a x y : NoDup (fst <$> l) -> (a, x) ∈ l -> (a, y) ∈ l -> x = y.
Proof.
  intros Hnd (i & Hi)%list_elem_of_lookup (j & Hj)%list_elem_of_lookup.
  assert (i = j) as <- by (eapply (NoDup_lookup (fst <$> l)); [done|..]; by rewrite list_lookup_fmap, ?Hi, ?Hj). congruence.
Qed.

Definition geos (Γ : list galloc) : list (Z * geo) := (fun x => (ga_ptr x, ga_geo x)) <$> Γ.

(** ** Allocation *)

Record granted (Γ Γ' : list galloc) (B B' : gset (Z * nat)) (s s' : kmem P) (al o : Z) : Prop := {
  gr_inv : kinv Γ' B' s';
  gr_fresh : forall al', ~ obj_live Γ al' o;
  gr_live : forall al' o', obj_live Γ' al' o' <-> obj_live Γ al' o' \/ (al' = al /\ o' = o);
  gr_geos : geos Γ' = geos Γ;
  gr_hdr : m_hdr s' = m_hdr s;
  gr_cs : kmalloc_allocators s' = kmalloc_allocators s;
  gr_blocks : B ⊆ B'
}.

(** The part of [slab_obj_alloc] after the search. *)
Definition take_from (al sp : Z) : M (kmem P) (option Z) :=
  let! a := load_alloc al in
  let! sl := load_slab sp in
  let obj := s_free sl in
  let! b := load_buf (obj_bufctl a obj) in
  modify (set_slab sp (MkSlab (s_next sl) (s_inuse sl + 1) (sb_u b) (s_addr sl))) ;;;
  modify (set_buf (obj_bufctl a obj) (MkBuf sp 0)) ;;;
  VERIFY_REDZONES a obj ;;;
  ret (Some (u32 (obj + sizeof_ptr))).

Lemma take_ok Γ1 Γ2 p γ l1 addr o F l2 B s :
  kinv (Γ1 ++ GA p γ (l1 ++ GS addr (o :: F) :: l2) :: Γ2) B s ->
  exists nx u s', take_from p (slab_ptr γ addr) s = Ret (Some (o + sizeof_ptr), s') /\
    m_slab s !! slab_ptr γ addr = Some (MkSlab nx (g_n γ - Z.of_nat (length (o :: F))) o addr) /\
    m_buf s !! (o + g_size γ) = Some (MkBuf u 1) /\ o ∈ objs γ addr /\
    s' = set_buf (o + g_size γ) (MkBuf (slab_ptr γ addr) 0)
           (set_slab (slab_ptr γ addr) (MkSlab nx (g_n γ - Z.of_nat (length (o :: F)) + 1) u addr) s) /\
    kinv (Γ1 ++ GA p γ (l1 ++ GS addr F :: l2) :: Γ2) B s'.
Proof.
  intros Hinv. destruct (kinv_slab _ _ _ _ _ _ _ _ _ _ _ Hinv) as (Hz & Hok & (nx0 & sl0 & Hal) & Hpg).
  destruct (so_slab _ _ _ _ Hok) as (nx & fr & Hsl & _). simpl in Hsl.
  destruct (kinv_take _ _ _ _ _ _ _ _ _ _ _ _ _ _ _ Hinv Hsl) as (u & -> & Hb & Hinv').
  exists nx, u. eexists. assert (o ∈ objs γ addr) as Ho by (apply (so_sub _ _ _ _ Hok); by left).
  pose proof (sz_size _ Hz) as H8.
  assert (forall d, 0 <= d <= g_size γ -> u32 (o + d) = o + d) as Hu.
  { intros d Hd. eapply (block_u32 R B (k_pages s)); [done|apply (so_page _ _ _ _ Hok)|by apply obj_in_block]. }
  split; [|split_and!; [done..|exact Hinv']].
  unfold take_from, load_alloc, load_slab, load_buf. rewrite bind_bind, bind_gets, Hal, bind_deref.
  rewrite bind_bind, bind_gets, Hsl, bind_deref. cbn [s_free]. unfold obj_bufctl. cbn [sa_objsize].
  rewrite (Hu (g_size γ)) by lia. rewrite bind_bind, bind_gets, Hb, bind_deref, !bind_modify. cbn [s_next s_inuse sb_u s_addr].
  destruct (kinv_slab _ _ _ _ _ _ _ _ _ _ _ Hinv') as (_ & Hok' & _ & Hpg').
  erewrite bind_eq; [|eapply (verify_redzones_ok R); [done|exact Hok'|done|done|done]].
  unfold ret. by rewrite (Hu sizeof_ptr) by (unfold sizeof_ptr; lia).
Qed.

Lemma granted_take Γ1 Γ2 p γ l1 addr o F l2 B s s' :
  kinv (Γ1 ++ GA p γ (l1 ++ GS addr (o :: F) :: l2) :: Γ2) B s -> o ∈ objs γ addr ->
  kinv (Γ1 ++ GA p γ (l1 ++ GS addr F :: l2) :: Γ2) B s' -> m_hdr s' = m_hdr s ->
  kmalloc_allocators s' = kmalloc_allocators s ->
  granted (Γ1 ++ GA p γ (l1 ++ GS addr (o :: F) :: l2) :: Γ2) (Γ1 ++ GA p γ (l1 ++ GS addr F :: l2) :: Γ2) B B s s' p o.
Proof.
  intros Hinv Ho Hinv' Eh Ek. destruct (kinv_slab _ _ _ _ _ _ _ _ _ _ _ Hinv) as (_ & Hok & _ & _).
  pose proof (so_nodup _ _ _ _ Hok) as [HoF _]%NoDup_cons. split; try done.
  - intros al' (x & g & Hx & _ & Hg & Ho' & Hf).
    destruct (is_obj_inj _ _ _ (GA p γ (l1 ++ GS addr (o :: F) :: l2)) (GS addr (o :: F)) x g o Hinv) as [<- <-]; [|done|].
    + split; [apply elem_of_app; right; by left|]. split; [apply elem_of_app; right; by left|done].
    + apply Hf. by left.
  - intros al' o'. rewrite !live_split, !live_slabs. simpl. rewrite not_elem_of_cons. split.
    + intros [?|[[?|(-> & Hx & Hf)]|?]]; [by left; left|by left; right; left; left| |by left; right; right].
      destruct (decide (o' = o)) as [->|Hne]; [by right|]. left. right. left. by right.
    + intros [[?|[[?|(-> & Hx & ? & Hf)]|?]]|[-> ->]]; try tauto.
  - unfold geos. by rewrite !fmap_app.
Qed.

(** An allocator whose objects are all in use. *)
Definition exhausted (Γ : list galloc) (al : Z) : Prop :=
  forall x g, x ∈ Γ -> ga_ptr x = al -> g ∈ ga_slabs x -> gs_free g = [].

(** The page allocator has no block for a slab of [al]. *)
Definition no_pages (Γ : list galloc) (al : Z) (s : kmem P) : Prop :=
  exists γ, (al, γ) ∈ geos Γ /\ pa_alloc_n (npages_of (g_order γ)) (k_pages s) = Ret (None, k_pages s).

(** What the search ends with. *)
Inductive found (Γ : list galloc) (B : gset (Z * nat)) (s : kmem P) (al : Z) : Prop :=
| found_room Γ1 Γ2 γ l1 addr o F l2 B' s' :
    find_room 2 al s = Ret (slab_ptr γ addr, s') -> slab_ptr γ addr <> 0 ->
    kinv (Γ1 ++ GA al γ (l1 ++ GS addr (o :: F) :: l2) :: Γ2) B' s' -> B ⊆ B' ->
    (forall al' o', obj_live (Γ1 ++ GA al γ (l1 ++ GS addr (o :: F) :: l2) :: Γ2) al' o' <-> obj_live Γ al' o') ->
    geos (Γ1 ++ GA al γ (l1 ++ GS addr (o :: F) :: l2) :: Γ2) = geos Γ ->
    m_hdr s' = m_hdr s -> kmalloc_allocators s' = kmalloc_allocators s ->
    (s' = s \/ exhausted Γ al) -> found Γ B s al
| found_none Γ' B' s' :
    find_room 2 al s = Ret (0, s') -> exhausted Γ al -> no_pages Γ al s ->
    reclaimed [] Γ Γ' B B' s s' -> Forall busy Γ' -> found Γ B s al.

Lemma exhausted_one Γ1 Γ2 p γ l B s : kinv (Γ1 ++ GA p γ l :: Γ2) B s ->
  Forall (fun g => gs_free g = []) l -> exhausted (Γ1 ++ GA p γ l :: Γ2) p.
Proof.
  intros Hinv Hf x g Hx Ep Hg. pose proof (ki_ptrs _ _ _ _ _ Hinv) as Hnd. rewrite fmap_app in Hnd.
  apply NoDup_app in Hnd as (_ & Hd & [Hc _]%NoDup_cons).
  apply elem_of_app in Hx as [Hx|[->|Hx]%elem_of_cons].
  - destruct (Hd (ga_ptr x)); [by apply list_elem_of_fmap_2|]. rewrite Ep. by left.
  - simpl in Hg. by eapply Forall_forall in Hf.
  - destruct Hc. simpl. rewrite <- Ep. by apply list_elem_of_fmap_2.
Qed.

Lemma live_new_slab Γ1 Γ2 p γ l a al o :
  obj_live (Γ1 ++ GA p γ (GS a (objs γ a) :: l) :: Γ2) al o <-> obj_live (Γ1 ++ GA p γ l :: Γ2) al o.
Proof.
  change (GS a (objs γ a) :: l) with ([] ++ GS a (objs γ a) :: l). rewrite !live_split, live_slabs. simpl. tauto.
Qed.

Lemma find_room_ok Γ B s al : kinv Γ B s -> al ∈ ga_ptr <$> Γ -> found Γ B s al.
Proof.
  intros Hinv (x & -> & Hx)%list_elem_of_fmap. apply list_elem_of_split in Hx as (Γ1 & Γ2 & ->).
  destruct x as [p γ l]. simpl.
  destruct (find_room_step _ _ _ _ _ _ _ _ _ 1 Hinv) as [(l1 & [addr F] & l2 & -> & HF & E & Hnz)|[Hfull E]].
  - destruct F as [|o F]; [done|]. eapply found_room; [exact E|done|exact Hinv|done..|by left].
  - pose proof (exhausted_one _ _ _ _ _ _ _ Hinv Hfull) as Hex.
    destruct (grow_ok _ _ _ _ _ _ _ _ _ Hinv) as [(a & s1 & Eg & Hna & Hinv1 & Eh & Ek)|(Γ' & B' & s1 & Eg & Hr & Hb & Hnp)].
    + rewrite (bind_eq _ _ _ _ _ Eg) in E.
      pose proof (kinv_split _ _ _ _ _ _ _ Hinv1) as (_ & [Hz _ _] & _). simpl in Hz.
      destruct (find_room_step _ _ _ _ _ _ _ _ _ 0 Hinv1) as [(l1 & [addr F] & l2 & El & HF & E1 & Hnz)|[Hfull' _]].
      * destruct F as [|o F]; [done|]. rewrite El in Hinv1. cbn [gs_addr] in E1, Hnz.
        eapply found_room; [rewrite E; exact E1|done|exact Hinv1|set_solver|..].
        -- intros al' o'. rewrite <- El. apply live_new_slab.
        -- rewrite <- El. unfold geos. by rewrite !fmap_app.
        -- done.
        -- done.
        -- by right.
      * apply Forall_cons in Hfull' as [Hnil _]. simpl in Hnil. pose proof (objs_length γ a) as HL. rewrite Hnil in HL.
        simpl in HL. pose proof (sz_n _ Hz). lia.
    + eapply found_none; [by rewrite E, (bind_eq _ _ _ _ _ Eg)|done| |done..]. exists γ. split; [|done].
      apply (list_elem_of_fmap_2 (fun x => (ga_ptr x, ga_geo x)) _ (GA p γ l)), elem_of_app. right. by left.
Qed.

Lemma alloc_unfold al s sp s' : find_room 2 al s = Ret (sp, s') ->
  slab_obj_alloc al s = (if sp =? 0 then ret None else take_from al sp) s'.
Proof. intros E. unfold slab_obj_alloc. by rewrite (bind_eq _ _ _ _ _ E). Qed.

(** The two outcomes of an allocation. *)
Inductive alloc_result (Γ : list galloc) (B : gset (Z * nat)) (s : kmem P) (al : Z) : Prop :=
| alloc_some o Γ' B' s' :
    slab_obj_alloc al s = Ret (Some (o + sizeof_ptr), s') -> granted Γ Γ' B B' s s' al o -> alloc_result Γ B s al
| alloc_none Γ' B' s' :
    slab_obj_alloc al s = Ret (None, s') -> exhausted Γ al -> no_pages Γ al s ->
    reclaimed [] Γ Γ' B B' s s' -> Forall busy Γ' -> alloc_result Γ B s al.

Lemma slab_obj_alloc_ok Γ B s al : kinv Γ B s -> al ∈ ga_ptr <$> Γ -> alloc_result Γ B s al.
Proof.
  intros Hinv Hal. destruct (find_room_ok Γ B s al Hinv Hal)
    as [Γ1 Γ2 γ l1 addr o F l2 B' s' E Hnz Hinv' HB Hlive Hgeo Eh Ek _|Γ' B' s' E Hex Hnp Hr Hb].
  - destruct (take_ok _ _ _ _ _ _ _ _ _ _ _ Hinv') as (nx & u & s'' & Et & _ & _ & Ho & Es & Hinv'').
    eapply alloc_some.
    + rewrite (alloc_unfold _ _ _ _ E). destruct (Z.eqb_spec (slab_ptr γ addr) 0); [done|]. exact Et.
    + destruct (granted_take _ _ _ _ _ _ _ _ _ _ _ s'' Hinv' Ho Hinv'') as [G1 G2 G3 G4 G5 G6 G7]; [by subst s''..|].
      split; try done; try congruence.
      * intros al' Hl. by apply (G2 al'), Hlive.
      * intros al' o'. by rewrite G3, Hlive.
  - eapply alloc_none; [|done..]. by rewrite (alloc_unfold _ _ _ _ E).
Qed.

(** ** Freeing *)

(** An allocated object, as the memory shows it. *)
Lemma live_split_obj Γ al o : obj_live Γ al o ->
  exists Γ1 Γ2 γ l1 addr F l2, Γ = Γ1 ++ GA al γ (l1 ++ GS addr F :: l2) :: Γ2 /\ o ∈ objs γ addr /\ o ∉ F.
Proof.
  intros (x & g & Hx & <- & Hg & Ho & Hf). apply list_elem_of_split in Hx as (Γ1 & Γ2 & ->). destruct x as [p γ l].
  simpl in *. apply list_elem_of_split in Hg as (l1 & l2 & ->). destruct g as [addr F].
  by exists Γ1, Γ2, γ, l1, addr, F, l2.
Qed.

Lemma free_unfold Γ1 Γ2 p γ l1 addr F l2 B s o : kinv (Γ1 ++ GA p γ (l1 ++ GS addr F :: l2) :: Γ2) B s ->
  o ∈ objs γ addr ->
  slab_obj_free p (o + sizeof_ptr) s =
  (let! b := load_buf (o + g_size γ) in
   KASSERT (sb_free b =? 0) ;;;
   let! sl := load_slab (sb_u b) in
   modify (set_buf (o + g_size γ) (MkBuf (s_free sl) 1)) ;;;
   modify (set_slab (sb_u b) (MkSlab (s_next sl) (s_inuse sl - 1) o (s_addr sl)))) s.
Proof.
  intros Hinv Ho. destruct (kinv_slab _ _ _ _ _ _ _ _ _ _ _ Hinv) as (Hz & Hok & (nx0 & sl0 & Hal) & Hpg).
  pose proof (sz_size _ Hz) as H8.
  assert (forall d, 0 <= d <= g_size γ -> u32 (o + d) = o + d) as Hu.
  { intros d Hd. eapply (block_u32 R B (k_pages s)); [done|apply (so_page _ _ _ _ Hok)|by apply obj_in_block]. }
  unfold slab_obj_free, load_alloc. rewrite bind_bind, bind_gets, Hal, bind_deref. cbn zeta.
  replace (o + sizeof_ptr - sizeof_ptr) with (o + 0) by lia. rewrite Hu by lia. rewrite Z.add_0_r.
  erewrite bind_eq; [|eapply (verify_redzones_ok R); [done|exact Hok|done|done|done]].
  unfold obj_bufctl. cbn [sa_objsize]. by rewrite Hu by lia.
Qed.

Record returned (Γ Γ' : list galloc) (B : gset (Z * nat)) (s s' : kmem P) (al o : Z) : Prop := {
  rt_inv : kinv Γ' B s';
  rt_live : forall al' o', obj_live Γ' al' o' <-> obj_live Γ al' o' /\ o' <> o;
  rt_geos : geos Γ' = geos Γ;
  rt_hdr : m_hdr s' = m_hdr s;
  rt_cs : kmalloc_allocators s' = kmalloc_allocators s
}.

Lemma slab_obj_free_ok Γ B s al o : kinv Γ B s -> obj_live Γ al o ->
  (al = saa -> o + sizeof_ptr ∉ ga_ptr <$> Γ) ->
  exists Γ' s', slab_obj_free al (o + sizeof_ptr) s = Ret (tt, s') /\ returned Γ Γ' B s s' al o.
Proof.
  intros Hinv (Γ1 & Γ2 & γ & l1 & addr & F & l2 & -> & Ho & HF)%live_split_obj Hnot.
  destruct (kinv_slab _ _ _ _ _ _ _ _ _ _ _ Hinv) as (Hz & Hok & _ & _).
  pose proof (so_used _ _ _ _ Hok o Ho HF) as Hb. destruct (so_slab _ _ _ _ Hok) as (nx & fr & Hsl & _). simpl in Hsl, Hb.
  exists (Γ1 ++ GA al γ (l1 ++ GS addr (o :: F) :: l2) :: Γ2). eexists. split.
  - rewrite (free_unfold _ _ _ _ _ _ _ _ _ _ _ Hinv Ho). unfold load_buf, load_slab.
    rewrite bind_bind, bind_gets, Hb, bind_deref. cbn [sb_free sb_u]. rewrite bind_assert by done.
    rewrite bind_bind, bind_gets, Hsl, bind_deref, bind_modify. reflexivity.
  - pose proof (kinv_put _ _ _ _ _ _ _ _ _ _ _ _ _ _ _ _ Hinv Ho HF Hsl Hnot) as Hinv'. split; try done.
    + intros al' o'. rewrite !live_split, !live_slabs. simpl. rewrite not_elem_of_cons.
      assert (forall al'', ~ (obj_live Γ1 al'' o \/ obj_live [GA al γ (l1 ++ l2)] al'' o \/ obj_live Γ2 al'' o)) as Huniq.
      { intros al'' Hl.
        assert (obj_live (Γ1 ++ GA al γ (l1 ++ GS addr (o :: F) :: l2) :: Γ2) al'' o) as (x & g & Hx & _ & Hg & Ho' & Hf)
          by (rewrite live_split, live_slabs; tauto).
        destruct (is_obj_inj _ _ _ (GA al γ (l1 ++ GS addr (o :: F) :: l2)) (GS addr (o :: F)) x g o Hinv') as [<- <-]; [|done|].
        - split; [apply elem_of_app; right; by left|]. split; [apply elem_of_app; right; by left|done].
        - apply Hf. by left. }
      destruct (decide (o' = o)) as [->|Hne]; [|tauto]. specialize (Huniq al'). tauto.
    + unfold geos. by rewrite !fmap_app.
Qed.

Lemma seg_in next l : forall p q x, seg next p l q -> x ∈ l -> is_Some (next x).
Proof.
  induction l as [|y l IH]; intros p q x Hs Hx; simpl in *; [by apply not_elem_of_nil in Hx|].
  destruct Hs as (_ & _ & r & Hr & Hs). apply elem_of_cons in Hx as [->|Hx]; [by rewrite Hr|by eapply IH].
Qed.

(** An object on a free list. *)
Definition obj_free (Γ : list galloc) (al o : Z) : Prop :=
  exists x g, x ∈ Γ /\ ga_ptr x = al /\ g ∈ ga_slabs x /\ o ∈ gs_free g.

Lemma double_free_ok Γ B s al o : kinv Γ B s -> obj_free Γ al o -> slab_obj_free al (o + sizeof_ptr) s = Stop Assert.
Proof.
  intros Hinv (x & g & Hx & <- & Hg & Ho). apply list_elem_of_split in Hx as (Γ1 & Γ2 & ->). destruct x as [p γ l].
  simpl in *. apply list_elem_of_split in Hg as (l1 & l2 & ->). destruct g as [addr F]. simpl in Ho.
  destruct (kinv_slab _ _ _ _ _ _ _ _ _ _ _ Hinv) as (Hz & Hok & _ & _).
  rewrite (free_unfold _ _ _ _ _ _ _ _ _ _ _ Hinv (so_sub _ _ _ _ Hok o Ho)).
  destruct (so_slab _ _ _ _ Hok) as (nx & fr & _ & Hc). destruct (seg_in _ _ _ _ o Hc Ho) as [r Hr]. unfold fnext in Hr.
  destruct (m_buf s !! (o + g_size γ)) as [[u f]|] eqn:Eb; [|done]. simpl in Hr.
  destruct (Z.eqb_spec f 1) as [->|]; [|done]. unfold load_buf. by rewrite bind_bind, bind_gets, Eb, bind_deref.
Qed.

(** C17: an allocation from a well-formed state returns.  It hands out an object
    that no one holds, from a slab with room or a new one, and every other
    object in use stays in use; or it returns null, only when every object of
    the allocator is in use and the page allocator had no block when it was asked.
    It is asked once: the blocks without objects in use then go back to it, but
    the request is not repeated, so null can come back although there are pages
    again. *)
Theorem slab_obj_alloc_correct Γ B s al : kinv Γ B s -> al ∈ ga_ptr <$> Γ ->
  (exists o Γ' B' s', slab_obj_alloc al s = Ret (Some (o + sizeof_ptr), s') /\ granted Γ Γ' B B' s s' al o) \/
  (exists Γ' B' s', slab_obj_alloc al s = Ret (None, s') /\ exhausted Γ al /\ no_pages Γ al s /\
     reclaimed [] Γ Γ' B B' s s' /\ Forall busy Γ').
Proof.
  intros Hinv Hal. destruct (slab_obj_alloc_ok Γ B s al Hinv Hal) as [o Γ' B' s' E Hg|Γ' B' s' E Hex Hnp Hr Hb].
  - left. by exists o, Γ', B', s'.
  - right. by exists Γ', B', s'.
Qed.

(** A red-zone word of the object that is not what it was set to. *)
Lemma redzone_ok Γ B s al γ o v : kinv Γ B s -> (al, γ) ∈ geos Γ -> obj_live Γ al o -> v <> SLAB_REDZONE ->
  slab_obj_free al (o + sizeof_ptr) (set_rz o v s) = Stop Assert /\
  slab_obj_free al (o + sizeof_ptr) (set_rz (o + g_size γ - sizeof_ptr) v s) = Stop Assert.
Proof.
  intros Hinv Hγ (Γ1 & Γ2 & γ' & l1 & addr & F & l2 & -> & Ho & HF)%live_split_obj Hv.
  assert (γ' = γ) as ->.
  { pose proof (ki_ptrs _ _ _ _ _ Hinv) as Hnd. apply list_elem_of_fmap in Hγ as ([p1 γ1 m1] & [= -> ->] & Hx).
    apply list_elem_of_split in Hx as (G1 & G2 & E).
    eapply (fst_unique (geos (Γ1 ++ GA p1 γ' (l1 ++ GS addr F :: l2) :: Γ2)) p1).
    - unfold geos. rewrite <- list_fmap_compose. exact Hnd.
    - unfold geos. rewrite fmap_app. apply elem_of_app. right. by left.
    - rewrite E. unfold geos. rewrite fmap_app. apply elem_of_app. right. by left. }
  destruct (kinv_slab _ _ _ _ _ _ _ _ _ _ _ Hinv) as (Hz & Hok & (nx0 & sl0 & Hal) & Hpg).
  pose proof (sz_size _ Hz) as H8. destruct (so_rz _ _ _ _ Hok o Ho) as [R1 R2].
  assert (forall d, 0 <= d <= g_size γ -> u32 (o + d) = o + d) as Hu.
  { intros d Hd. eapply (block_u32 R B (k_pages s)); [done|apply (so_page _ _ _ _ Hok)|by apply obj_in_block]. }
  assert (Er : u32 (o + g_size γ - sizeof_ptr) = o + g_size γ - sizeof_ptr).
  { replace (o + g_size γ - sizeof_ptr) with (o + (g_size γ - sizeof_ptr)) by lia. apply Hu. unfold sizeof_ptr. lia. }
  assert (E0 : u32 (o + sizeof_ptr - sizeof_ptr) = o).
  { replace (o + sizeof_ptr - sizeof_ptr) with (o + 0) by lia. rewrite Hu by lia. lia. }
  apply Z.eqb_neq in Hv. split; unfold slab_obj_free, load_alloc, VERIFY_REDZONES, load_rz, rear_rz;
    rewrite bind_bind, bind_gets; cbn [m_alloc set_rz]; rewrite Hal, bind_deref; cbn zeta; rewrite E0;
    rewrite !bind_bind, bind_gets; cbn [m_rz set_rz sa_objsize].
  - rewrite lookup_insert_eq, bind_deref. by rewrite Hv.
  - rewrite lookup_insert_ne by (unfold sizeof_ptr; lia). rewrite R1, bind_deref, bind_bind, bind_assert by done.
    rewrite !bind_bind, bind_gets, Er. cbn [m_rz set_rz]. rewrite lookup_insert_eq, bind_deref. by rewrite Hv.
Qed.

(** C23: freeing an object in use (other than the descriptor of an existing
    allocator) takes exactly that object out of use and keeps the invariant; freeing one that is already free, or one with a changed word
    in either red zone, is caught by an assertion. *)
Theorem slab_obj_free_correct Γ B s al o : kinv Γ B s ->
  (obj_live Γ al o -> (al = saa -> o + sizeof_ptr ∉ ga_ptr <$> Γ) ->
     exists Γ' s', slab_obj_free al (o + sizeof_ptr) s = Ret (tt, s') /\ returned Γ Γ' B s s' al o) /\
  (obj_free Γ al o -> slab_obj_free al (o + sizeof_ptr) s = Stop Assert) /\
  (forall γ v, obj_live Γ al o -> (al, γ) ∈ geos Γ -> v <> SLAB_REDZONE ->
     slab_obj_free al (o + sizeof_ptr) (set_rz o v s) = Stop Assert /\
     slab_obj_free al (o + sizeof_ptr) (set_rz (o + g_size γ - sizeof_ptr) v s) = Stop Assert).
Proof.
  intros Hinv. split_and!; [by apply slab_obj_free_ok|by eapply double_free_ok|]. intros γ v Hl Hγ Hv. by eapply redzone_ok.
Qed.

(** ** Clients *)

(** The object handed out is no allocator's structure and not null. *)
Lemma granted_ptr Γ Γ' B B' s s' o : kinv Γ B s -> granted Γ Γ' B B' s s' saa o ->
  o + sizeof_ptr <> 0 /\ (o + sizeof_ptr ∉ ga_ptr <$> Γ').
Proof.
  intros Hinv Hg. pose proof (gr_inv _ _ _ _ _ _ _ _ Hg) as Hinv'.
  assert (obj_live Γ' saa o) as Hl by (apply (gr_live _ _ _ _ _ _ _ _ Hg); by right).
  destruct Hl as (x & g & Hx & Ep & Hgs & Ho & _).
  pose proof (proj1 (Forall_forall _ _) (ki_allocs _ _ _ _ _ Hinv') x Hx) as Hok.
  pose proof (alloc_page _ _ _ _ Hok Hgs) as Hb. pose proof (sz_size _ (ao_sized _ _ _ Hok)).
  destruct (pl_range _ _ _ _ _ (ki_pages _ _ _ _ _ Hinv') Hb) as (_ & Hpos & _ & _ & lo & hi & HR & Hlo & Hhi).
  pose proof (objs_range _ _ _ (ao_sized _ _ _ Hok) Ho).
  pose proof (obj_in_block _ _ _ sizeof_ptr (ao_sized _ _ _ Hok) Ho ltac:(unfold sizeof_ptr; lia)) as Hin.
  unfold in_block in Hin. split; [unfold sizeof_ptr in *; lia|]. intros Hp.
  assert (o + sizeof_ptr ∈ ga_ptr <$> Γ) as Hp'.
  { assert (ga_ptr <$> Γ = ga_ptr <$> Γ') as ->; [|done]. pose proof (gr_geos _ _ _ _ _ _ _ _ Hg) as Eg. unfold geos in Eg.
    apply (f_equal (fmap fst)) in Eg. by rewrite <- !list_fmap_compose in Eg. }
  destruct (ki_own _ _ _ _ _ Hinv _ Hp') as [E|Hl].
  - apply (ki_saa _ _ _ _ _ Hinv lo hi HR). rewrite <- E. lia.
  - replace (o + sizeof_ptr - sizeof_ptr) with o in Hl by lia. by apply (gr_fresh _ _ _ _ _ _ _ _ Hg saa).
Qed.

(** Calls of the clients of the allocators; they hold pairs of an allocator and the
    address it gave them.  [CFree i] frees the [i]-th object they hold, if any. *)
Inductive client_op : Type := CAlloc (al : Z) | CFree (i : nat).

Fixpoint client_run (ops : list client_op) (h : list (Z * Z)) : M (kmem P) (list (Z * Z)) :=
  match ops with
  | [] => ret h
  | CAlloc al :: ops' =>
      let! r := slab_obj_alloc al in
      client_run ops' (match r with Some u => (al, u) :: h | None => h end)
  | CFree i :: ops' =>
      match h !! i with
      | None => client_run ops' h
      | Some (al, u) => slab_obj_free al u ;;; client_run ops' (delete i h)
      end
  end.

Definition op_on (Γ : list galloc) (op : client_op) : Prop :=
  match op with CAlloc al => al ∈ ga_ptr <$> Γ | CFree _ => True end.

(** What the clients hold is in use, held once, nobody else's, and no allocator. *)
Record holds (Γ0 Γ : list galloc) (h : list (Z * Z)) : Prop := {
  hd_live : forall al u, (al, u) ∈ h -> obj_live Γ al (u - sizeof_ptr) /\ (al = saa -> u ∉ ga_ptr <$> Γ);
  hd_once : NoDup (snd <$> h);
  hd_others : forall al o, obj_live Γ0 al o -> obj_live Γ al o /\ (o + sizeof_ptr ∉ snd <$> h)
}.

Lemma geos_ptrs Γ Γ' : geos Γ' = geos Γ -> ga_ptr <$> Γ' = ga_ptr <$> Γ.
Proof. intros E. apply (f_equal (fmap fst)) in E. unfold geos in E. by rewrite <- !list_fmap_compose in E. Qed.

Lemma shrunk_geos Γ Γ' : Forall2 shrunk Γ Γ' -> geos Γ' = geos Γ.
Proof. unfold geos. induction 1 as [|x y Γ Γ' (E1 & E2 & _) _ IH]; [done|]. by rewrite !fmap_cons, IH, E1, E2. Qed.

Lemma holds_alloc Γ0 Γ Γ' B B' s s' h al o : kinv Γ B s -> granted Γ Γ' B B' s s' al o -> holds Γ0 Γ h ->
  holds Γ0 Γ' ((al, o + sizeof_ptr) :: h).
Proof.
  intros Hinv Hg [H1 H2 H3]. pose proof (geos_ptrs _ _ (gr_geos _ _ _ _ _ _ _ _ Hg)) as Ep.
  assert (Hno : forall al' u, (al', u) ∈ h -> u <> o + sizeof_ptr).
  { intros al' u Hu ->. destruct (H1 _ _ Hu) as [Hl _]. replace (o + sizeof_ptr - sizeof_ptr) with o in Hl by lia.
    by apply (gr_fresh _ _ _ _ _ _ _ _ Hg al'). }
  split.
  - intros al' u [[= -> ->]|Hu]%elem_of_cons.
    + split; [|intros ->; by apply (granted_ptr _ _ _ _ _ _ _ Hinv Hg)].
      replace (o + sizeof_ptr - sizeof_ptr) with o by lia. apply (gr_live _ _ _ _ _ _ _ _ Hg). by right.
    + destruct (H1 _ _ Hu) as [Hl Hn]. rewrite Ep. split; [apply (gr_live _ _ _ _ _ _ _ _ Hg); by left|done].
  - rewrite fmap_cons. constructor; [|done]. intros ([al' u] & E & Hu)%list_elem_of_fmap. simpl in E. by eapply Hno.
  - intros al' o' Hl. destruct (H3 _ _ Hl) as [Hl' Hn]. split; [apply (gr_live _ _ _ _ _ _ _ _ Hg); by left|].
    rewrite fmap_cons, not_elem_of_cons. split; [|done]. simpl. intros E. assert (o' = o) as -> by lia.
    by apply (gr_fresh _ _ _ _ _ _ _ _ Hg al').
Qed.

Lemma holds_free Γ0 Γ Γ' B s s' h i al u : returned Γ Γ' B s s' al (u - sizeof_ptr) -> h !! i = Some (al, u) ->
  holds Γ0 Γ h -> holds Γ0 Γ' (delete i h).
Proof.
  intros Hr Hi [H1 H2 H3]. pose proof (geos_ptrs _ _ (rt_geos _ _ _ _ _ _ _ Hr)) as Ep.
  pose proof (delete_Permutation h i _ Hi) as Hp. rewrite Hp, fmap_cons in H2. apply NoDup_cons in H2 as [Hn Hnd]. split.
  - intros al' u' Hu. destruct (H1 al' u') as [Hl Hs]; [rewrite Hp; by right|]. rewrite Ep. split; [|done].
    apply (rt_live _ _ _ _ _ _ _ Hr). split; [done|]. intros E. apply Hn. simpl. assert (u = u') as -> by lia.
    by apply (list_elem_of_fmap_2 snd _ (al', u')).
  - done.
  - intros al' o Hl. destruct (H3 _ _ Hl) as [Hl' Hni]. rewrite Hp, fmap_cons, not_elem_of_cons in Hni. destruct Hni as [Hne Hni].
    split; [|done]. apply (rt_live _ _ _ _ _ _ _ Hr). split; [done|]. simpl in Hne. lia.
Qed.

Lemma holds_reclaimed Γ0 Γ Γ' B s h : kinv Γ B s -> Forall2 shrunk Γ Γ' -> holds Γ0 Γ h -> holds Γ0 Γ' h.
Proof.
  intros Hinv Hs [H1 H2 H3]. split; [|done|].
  - intros al u Hu. destruct (H1 _ _ Hu). rewrite (geos_ptrs _ _ (shrunk_geos _ _ Hs)). split; [by eapply shrunk_live_r|done].
  - intros al o Hl. destruct (H3 _ _ Hl). split; [by eapply shrunk_live_r|done].
Qed.

Lemma client_run_ok Γ0 ops : forall Γ B s h, kinv Γ B s -> geos Γ = geos Γ0 -> Forall (op_on Γ0) ops -> holds Γ0 Γ h ->
  exists h' Γ' B' s', client_run ops h s = Ret (h', s') /\ kinv Γ' B' s' /\ geos Γ' = geos Γ0 /\ holds Γ0 Γ' h'.
Proof.
  induction ops as [|[al|i] ops IH]; intros Γ B s h Hinv Hg Hf Hh; simpl; [by exists h, Γ, B, s| |];
    apply Forall_cons in Hf as [Hop Hf].
  - simpl in Hop. rewrite <- (geos_ptrs _ _ Hg) in Hop.
    destruct (slab_obj_alloc_ok Γ B s al Hinv Hop) as [o Γ' B' s' E Hgr|Γ' B' s' E _ _ [Hi Hs _ _] _]; rewrite (bind_eq _ _ _ _ _ E).
    + eapply IH; [by eapply gr_inv|by rewrite (gr_geos _ _ _ _ _ _ _ _ Hgr)|done|by eapply holds_alloc].
    + eapply IH; [exact Hi|by rewrite <- Hg; apply shrunk_geos|done|exact (holds_reclaimed _ _ _ _ _ _ Hinv Hs Hh)].
  - destruct (h !! i) as [[al u]|] eqn:Ei; [|by eapply IH].
    destruct (hd_live _ _ _ Hh al u) as [Hl Hn]; [by eapply list_elem_of_lookup_2|].
    destruct (slab_obj_free_ok Γ B s al (u - sizeof_ptr) Hinv Hl) as (Γ' & s' & E & Hr).
    { replace (u - sizeof_ptr + sizeof_ptr) with u by lia. done. }
    replace (u - sizeof_ptr + sizeof_ptr) with u in E by lia. rewrite (bind_eq _ _ _ _ _ E).
    eapply IH; [by eapply rt_inv|by rewrite (rt_geos _ _ _ _ _ _ _ Hr)|done|by eapply holds_free].
Qed.

(** The bytes of the object at user address [u], its red zones and control block included. *)
Definition obj_apart (γ : geo) (u : Z) (γ' : geo) (u' : Z) : Prop :=
  apart (u - sizeof_ptr) (stride γ) (u' - sizeof_ptr) (stride γ').

Lemma live_apart Γ B s al o γ al' o' γ' : kinv Γ B s -> obj_live Γ al o -> obj_live Γ al' o' -> o <> o' ->
  (al, γ) ∈ geos Γ -> (al', γ') ∈ geos Γ -> apart o (stride γ) o' (stride γ').
Proof.
  intros Hinv (x & g & Hx & <- & Hg & Ho & _) (x' & g' & Hx' & <- & Hg' & Ho' & _) Hne Hγ Hγ'.
  pose proof (ki_ptrs _ _ _ _ _ Hinv) as Hnd.
  assert (Hu : forall y δ, y ∈ Γ -> (ga_ptr y, δ) ∈ geos Γ -> δ = ga_geo y).
  { intros y δ Hy Hδ. eapply (fst_unique (geos Γ) (ga_ptr y)); [|exact Hδ|].
    - unfold geos. rewrite <- list_fmap_compose. exact Hnd.
    - by apply (list_elem_of_fmap_2 (fun x => (ga_ptr x, ga_geo x))). }
  rewrite (Hu _ _ Hx Hγ), (Hu _ _ Hx' Hγ').
  destruct (is_obj_apart _ _ _ x g o x' g' o' Hinv) as [(_ & _ & ->)|?]; done.
Qed.

(** C18: from a well-formed state in which the clients hold nothing, any sequence
    of their allocations from existing allocators and of frees of what they hold
    returns.  At the end any two different objects they hold are disjoint,
    whichever allocators they come from, red zones and control blocks
    included; each is disjoint from every object that was in use before; and each
    lies in a block of pages the allocator owns, below the slab's header. *)
Theorem objects_separate Γ B s ops : kinv Γ B s -> Forall (op_on Γ) ops ->
  exists h Γ' B' s', client_run ops [] s = Ret (h, s') /\ kinv Γ' B' s' /\ geos Γ' = geos Γ /\
    (forall i j al u γ al' u' γ', i <> j -> h !! i = Some (al, u) -> h !! j = Some (al', u') ->
       (al, γ) ∈ geos Γ -> (al', γ') ∈ geos Γ -> obj_apart γ u γ' u') /\
    (forall al o γ al' u' γ', obj_live Γ al o -> (al', u') ∈ h ->
       (al, γ) ∈ geos Γ -> (al', γ') ∈ geos Γ -> obj_apart γ (o + sizeof_ptr) γ' u') /\
    (forall al u, (al, u) ∈ h -> exists γ a, (al, γ) ∈ geos Γ /\ (a, g_order γ) ∈ B' /\ a + sizeof_ptr <= u /\
       u - sizeof_ptr + stride γ <= slab_ptr γ a /\ slab_ptr γ a + sizeof_slab <= a + bytes_of (g_order γ)).
Proof.
  intros Hinv Hf. destruct (client_run_ok Γ ops Γ B s [] Hinv eq_refl Hf) as (h & Γ' & B' & s' & E & Hi & Hg & [H1 H2 H3]).
  { split; [by intros ? ? ?%not_elem_of_nil|constructor|]. intros. split; [done|apply not_elem_of_nil]. }
  exists h, Γ', B', s'. rewrite <- Hg. split_and!; try done.
  - intros i j al u γ al' u' γ' Hne Hu Hu' Hγ Hγ'. eapply live_apart; [exact Hi|apply H1; by eapply list_elem_of_lookup_2..| |done|done].
    intros Eo. apply Hne. assert (u = u') as -> by lia. eapply (NoDup_lookup (snd <$> h)); [done|..]; by rewrite list_lookup_fmap, ?Hu, ?Hu'.
  - intros al o γ al' u' γ' Hl Hu Hγ Hγ'. unfold obj_apart. destruct (H3 _ _ Hl) as [Hl' Hn].
    replace (o + sizeof_ptr - sizeof_ptr) with o by lia. eapply live_apart; [exact Hi|done|by apply H1| |done|done].
    intros ->. apply Hn. replace (u' - sizeof_ptr + sizeof_ptr) with u' by lia. by apply (list_elem_of_fmap_2 snd _ (al', u')).
  - intros al u Hu. destruct (H1 _ _ Hu) as [(x & g & Hx & <- & Hgs & Ho & _) _].
    pose proof (proj1 (Forall_forall _ _) (ki_allocs _ _ _ _ _ Hi) x Hx) as Hok.
    destruct (objs_range _ _ _ (ao_sized _ _ _ Hok) Ho), (sized_ptr _ (gs_addr g) (ao_sized _ _ _ Hok)).
    exists (ga_geo x), (gs_addr g). split_and!; [by apply (list_elem_of_fmap_2 (fun x => (ga_ptr x, ga_geo x)))|by eapply alloc_page|lia|done..].
Qed.

(** freeing the object just allocated restores the memory exactly: the state
    is the one before the allocation, or, if all slabs were full, the one
    after a slab was added. *)
Theorem alloc_free_roundtrip Γ B s al u s' : kinv Γ B s -> al ∈ ga_ptr <$> Γ ->
  slab_obj_alloc al s = Ret (Some u, s') ->
  exists sp s1, find_room 2 al s = Ret (sp, s1) /\ slab_obj_free al u s' = Ret (tt, s1) /\
    (s1 = s \/ exhausted Γ al).
Proof.
  intros Hinv Hal Ea. destruct (find_room_ok Γ B s al Hinv Hal)
    as [Γ1 Γ2 γ l1 addr o F l2 B' s1 E Hnz Hinv' _ _ _ _ _ Hs1|Γ' B' s1 E Hex Hnp Hr Hb].
  2: { rewrite (alloc_unfold _ _ _ _ E) in Ea. done. }
  rewrite (alloc_unfold _ _ _ _ E) in Ea. destruct (Z.eqb_spec (slab_ptr γ addr) 0); [done|].
  destruct (take_ok _ _ _ _ _ _ _ _ _ _ _ Hinv') as (nx & v & s2 & Et & Hsl & Hb & Ho & Es & Hinv2).
  rewrite Ea in Et. injection Et as -> ->. exists (slab_ptr γ addr), s1. split; [done|]. split; [|done].
  rewrite (free_unfold _ _ _ _ _ _ _ _ _ _ _ Hinv2 Ho), Es. unfold load_buf, load_slab.
  rewrite bind_bind, bind_gets. cbn [m_buf set_buf]. rewrite lookup_insert_eq, bind_deref. cbn [sb_free sb_u].
  rewrite bind_assert by done. rewrite bind_bind, bind_gets. cbn [m_slab set_slab set_buf].
  rewrite lookup_insert_eq, bind_deref, bind_modify. cbn [s_free s_next s_inuse s_addr].
  unfold modify, set_slab, set_buf. simpl. rewrite !insert_insert_eq. do 3 f_equal.
  replace (g_n γ - Z.of_nat (S (length F)) + 1 - 1) with (g_n γ - Z.of_nat (length (o :: F))) by (simpl; lia).
  rewrite !insert_id by done. by destruct s1.
Qed.

(** Reclaiming gives back only blocks without objects in use: what is in use
    stays as it was, the pages counted are the pages the slabs lost, blocks
    that are no slab's stay owned, and it stops early only when a positive
    target is met; otherwise no such block is left. *)
Theorem slab_reclaim_correct Γ B s target : kinv Γ B s ->
  exists Γ' B' s' n, slab_allocators_reclaim target s = Ret (n, s') /\ kinv Γ' B' s' /\
    (forall al o, obj_live Γ' al o <-> obj_live Γ al o) /\ Forall2 shrunk Γ Γ' /\
    n = slab_pages Γ - slab_pages Γ' /\ others_kept (addrs Γ) B B' /\
    ((0 < target /\ target <= n) \/ Forall busy Γ').
Proof.
  intros Hinv. destruct (reclaim_ok saa R Γ B s target Hinv) as (Γ' & B' & s' & n & E & En & [Hi Hs _ Hb] & Hm).
  exists Γ', B', s', n. simpl in Hi. split_and!; try done.
  - intros al o. split; [by apply shrunk_live_l|by eapply shrunk_live_r].
  - destruct Hm as [[H1%Z.ltb_lt H2%Z.leb_le]%andb_true_iff|?]; [by left|by right].
Qed.

(** ** New allocators *)

Definition geo_for (size : Z) : geo :=
  match _calc_slab_size (size + 8) with Ret (o, n) => Geo (size + 8) o n | Stop _ => Geo 0 0 0 end.

Lemma geo_for_ok size : 0 <= size <= 524256 ->
  sized (geo_for size) /\ g_size (geo_for size) = size + 8 /\
  _calc_slab_size (size + 8) = Ret (g_order (geo_for size), g_n (geo_for size)).
Proof.
  intros Hs. destruct (calc_slab_size_ok (size + 8) ltac:(lia) ltac:(lia)) as (m & o & Hm & Hfit & _ & Ho & E).
  unfold geo_for. rewrite E. split_and!; [|done..]. pose proof (proj1 Ho) as Hr.
  assert (o < PAGE_NSIZES)%nat as Ho8 by (unfold SLAB_MAX_ORDER, PAGE_NSIZES in *; lia).
  split; simpl; [lia| |done|].
  - apply Z.div_le_lower_bound; [lia|]. pose proof (bytes_of_mono m o ltac:(lia)). lia.
  - unfold stride, sizeof_bufctl, sizeof_slab. simpl. pose proof (Z.mul_div_le (bytes_of o - 16) (size + 8 + 8)). lia.
Qed.

Definition new_alloc (p : Z) (γ : geo) (s : kmem P) : kmem P :=
  set_head p (set_alloc p (MkAlloc (slab_allocators s) (g_size γ) 0 (g_order γ) (g_n γ)) s).

Lemma allocator_init_ok p size s : 0 <= size <= 524256 ->
  _allocator_init p size s = Ret (tt, new_alloc p (geo_for size) s).
Proof.
  intros Hs. destruct (geo_for_ok size Hs) as (_ & Eg & Ec). unfold _allocator_init, sizeof_ptr.
  rewrite u32_small by (unfold is_u32, two32; lia). change (2 * 4) with 8. rewrite Ec. unfold new_alloc. by rewrite Eg.
Qed.

Lemma live_cons_nil Γ p γ al o : obj_live (GA p γ [] :: Γ) al o <-> obj_live Γ al o.
Proof.
  unfold obj_live. split.
  - intros (x & g & [->|Hx]%elem_of_cons & E & Hg & Hl); [by apply not_elem_of_nil in Hg|by exists x, g].
  - intros (x & g & Hx & Hl). exists x, g. split; [by right|done].
Qed.

Lemma kinv_new_allocator Γ B s p γ : kinv Γ B s -> sized γ -> p <> 0 -> p ∉ ga_ptr <$> Γ -> (p = saa \/ obj_live Γ saa (p - sizeof_ptr)) ->
  kinv (GA p γ [] :: Γ) B (new_alloc p γ s).
Proof.
  intros [Hpg Hch Hpt Hf Had Hsaa Hown] Hz Hp0 Hn Hp. split; simpl; try done.
  - split_and!; [done..|]. exists (slab_allocators s). unfold anext at 1. simpl. rewrite lookup_insert_eq. split; [done|].
    eapply seg_ext; [|exact Hch]. intros r Hr. unfold anext. simpl. rewrite lookup_insert_ne; [done|]. by intros ->.
  - by constructor.
  - constructor.
    + split; simpl; [done| |done]. rewrite lookup_insert_eq. by eexists _, _.
    + rewrite Forall_forall in *. intros x Hx. eapply (alloc_ok_frame (fun _ => True) s); [done| |done| |by apply Hf].
      * simpl. rewrite lookup_insert_ne; [done|]. intros ->. apply Hn. by apply list_elem_of_fmap_2.
      * intros g Hg. eapply alloc_page; [by apply Hf|done].
  - intros r Hr. rewrite live_cons_nil. apply elem_of_cons in Hr as [->|Hr]; [done|by apply Hown].
Qed.

(** creating an allocator adds one with no slabs, whose geometry fits its
    objects, at the address of an object of the allocator of allocators; it
    fails only when that allocation does. *)
Theorem slab_allocator_create_correct Γ B s size : kinv Γ B s -> saa ∈ ga_ptr <$> Γ -> 0 <= size <= 524256 ->
  (exists p Γ' B' s', slab_allocator_create saa size s = Ret (p, s') /\ p <> 0 /\
     kinv (GA p (geo_for size) [] :: Γ') B' s' /\ sized (geo_for size) /\ g_size (geo_for size) = size + 2 * sizeof_ptr /\
     (forall al o, obj_live Γ' al o <-> obj_live Γ al o \/ (al = saa /\ o = p - sizeof_ptr)) /\ geos Γ' = geos Γ) \/
  (exists s', slab_allocator_create saa size s = Ret (0, s') /\ slab_obj_alloc saa s = Ret (None, s')).
Proof.
  intros Hinv Hsaa Hs. destruct (geo_for_ok size Hs) as (Hz & Eg & _). unfold slab_allocator_create.
  destruct (slab_obj_alloc_ok Γ B s saa Hinv Hsaa) as [o Γ' B' s' E Hg|Γ' B' s' E _ Hnp _ _].
  - left. destruct (granted_ptr _ _ _ _ _ _ _ Hinv Hg) as [Hnz Hni].
    exists (o + sizeof_ptr), Γ', B', (new_alloc (o + sizeof_ptr) (geo_for size) s'). split_and!; try done.
    + by rewrite (bind_eq _ _ _ _ _ E), (bind_eq _ _ _ _ _ (allocator_init_ok _ _ _ Hs)).
    + apply kinv_new_allocator; [apply Hg|done..|]. right. replace (o + sizeof_ptr - sizeof_ptr) with o by lia.
      apply (gr_live _ _ _ _ _ _ _ _ Hg). by right.
    + intros al o'. rewrite (gr_live _ _ _ _ _ _ _ _ Hg). by replace (o + sizeof_ptr - sizeof_ptr) with o by lia.
    + apply Hg.
  - right. exists s'. by rewrite (bind_eq _ _ _ _ _ E).
Qed.

(** ** kmalloc and kfree *)

Definition bucket_bytes (i : nat) : Z := 2 ^ Z.of_nat (KMALLOC_SIZE_MIN_ORDER + i).
Definition nbuckets : nat := KMALLOC_SIZE_MAX_ORDER - KMALLOC_SIZE_MIN_ORDER + 1.

(** The allocators behind [kmalloc], one per power of two from 64 to 262144. *)
Definition buckets (Γ : list galloc) (s : kmem P) : Prop :=
  forall i, (i < nbuckets)%nat -> exists al γ, kmalloc_allocators s !! i = Some al /\ (al, γ) ∈ geos Γ /\
    g_size γ = bucket_bytes i + 2 * sizeof_ptr /\ al <> saa.

Lemma buckets_geos Γ Γ' s s' : geos Γ' = geos Γ -> kmalloc_allocators s' = kmalloc_allocators s ->
  buckets Γ s -> buckets Γ' s'.
Proof. intros E1 E2 Hb i Hi. rewrite E1, E2. by apply Hb. Qed.

Lemma kinv_set_hdr Γ B s a v : kinv Γ B s -> kinv Γ B (set_hdr a v s).
Proof.
  intros [Hpg Hch Hpt Hf Had Hsaa Hown]. split; try done. eapply Forall_impl; [exact Hf|]. intros x Hx.
  eapply (alloc_ok_frame (fun _ => True) s); [done..| |exact Hx]. intros g Hg. by eapply alloc_page.
Qed.

(** The smallest bucket of at least [n] bytes. *)
Definition bucket_for (n : Z) (i : nat) : Prop :=
  (i < nbuckets)%nat /\ n <= bucket_bytes i /\ forall j, (j < i)%nat -> bucket_bytes j < n.

Definition kmalloc_bucket (i : nat) : M (kmem P) (option Z) :=
  let! cs := gets kmalloc_allocators in
  let! al := deref (cs !! i) in
  let! r := slab_obj_alloc al in
  match r with
  | None => ret None
  | Some addr => modify (set_hdr addr al) ;;; ret (Some (u32 (addr + sizeof_ptr)))
  end.

Lemma kmalloc_from_eq n k : forall i, (forall j, (j < i)%nat -> bucket_bytes j < n) -> n <= bucket_bytes (i + k) ->
  exists m, (i <= m <= i + k)%nat /\ n <= bucket_bytes m /\ (forall j, (j < m)%nat -> bucket_bytes j < n) /\
    kmalloc_from (seq (KMALLOC_SIZE_MIN_ORDER + i) (S k)) i n = kmalloc_bucket m.
Proof.
  induction k as [|k IH]; intros i Hlow Hn.
  - exists i. rewrite Nat.add_0_r in *. split_and!; [lia..|done|done|]. cbn [seq kmalloc_from]. fold (bucket_bytes i).
    destruct (Z.leb_spec n (bucket_bytes i)); [done|lia].
  - cbn [seq kmalloc_from]. fold (bucket_bytes i). destruct (Z.leb_spec n (bucket_bytes i)) as [Hle|Hgt].
    + exists i. split_and!; [lia..|done|done|done].
    + destruct (IH (S i)) as (m & Hm & Hle & Hl & E).
      * intros j Hj. destruct (decide (j = i)) as [->|]; [done|]. apply Hlow. lia.
      * by replace (S i + k)%nat with (i + S k)%nat by lia.
      * exists m. split_and!; [lia..|done|done|]. rewrite <- E. by replace (S (KMALLOC_SIZE_MIN_ORDER + i)) with (KMALLOC_SIZE_MIN_ORDER + S i)%nat by lia.
Qed.

Lemma kmalloc_eq size : 0 <= size <= 262140 ->
  exists i, bucket_for (size + sizeof_ptr) i /\ kmalloc (P := P) size = kmalloc_bucket i.
Proof.
  intros Hs. unfold kmalloc. rewrite u32_small by (unfold is_u32, two32, sizeof_ptr; lia).
  destruct (kmalloc_from_eq (size + sizeof_ptr) 12 0) as (m & Hm & Hle & Hl & E); [intros; lia| |].
  - change (bucket_bytes (0 + 12)) with 262144. unfold sizeof_ptr. lia.
  - exists m. split; [|exact E]. split_and!; [unfold nbuckets, KMALLOC_SIZE_MAX_ORDER, KMALLOC_SIZE_MIN_ORDER; lia|done|done].
Qed.

Lemma elem_geos Γ al γ : (al, γ) ∈ geos Γ -> exists x, x ∈ Γ /\ ga_ptr x = al /\ ga_geo x = γ.
Proof. intros (x & [= -> ->] & Hx)%list_elem_of_fmap. by exists x. Qed.

Lemma geos_unique Γ B s al γ γ' : kinv Γ B s -> (al, γ) ∈ geos Γ -> (al, γ') ∈ geos Γ -> γ = γ'.
Proof.
  intros Hinv (x & Hx & Ex & <-)%elem_geos (y & Hy & Ey & <-)%elem_geos.
  destruct (ao_alloc _ _ _ (proj1 (Forall_forall _ _) (ki_allocs _ _ _ _ _ Hinv) x Hx)) as (n1 & l1 & H1 & _).
  destruct (ao_alloc _ _ _ (proj1 (Forall_forall _ _) (ki_allocs _ _ _ _ _ Hinv) y Hy)) as (n2 & l2 & H2 & _).
  rewrite Ex in H1. rewrite Ey, H1 in H2. destruct (ga_geo x), (ga_geo y). simpl in H2. congruence.
Qed.

Lemma live_u32 Γ B s al o d : kinv Γ B s -> obj_live Γ al o -> 0 <= d <= 8 -> u32 (o + d) = o + d.
Proof.
  intros Hinv (x & g & Hx & _ & Hg & Ho & _) Hd.
  pose proof (proj1 (Forall_forall _ _) (ki_allocs _ _ _ _ _ Hinv) x Hx) as Hok.
  eapply (block_u32 R B (k_pages s)); [apply Hinv|by eapply alloc_page|].
  apply obj_in_block; [apply Hok|done|]. pose proof (sz_size _ (ao_sized _ _ _ Hok)). lia.
Qed.

Lemma kmalloc_ok Γ B s size : kinv Γ B s -> buckets Γ s -> 0 <= size <= 262140 ->
  exists i al γ, bucket_for (size + sizeof_ptr) i /\ kmalloc_allocators s !! i = Some al /\ (al, γ) ∈ geos Γ /\
   ((exists u Γ' B' s1, kmalloc size s = Ret (Some u, set_hdr (u - sizeof_ptr) al s1) /\
      granted Γ Γ' B B' s s1 al (u - 2 * sizeof_ptr) /\ buckets Γ' s1 /\ kinv Γ' B' (set_hdr (u - sizeof_ptr) al s1) /\
      u + size <= u - 2 * sizeof_ptr + g_size γ - sizeof_ptr) \/
    (exists s', kmalloc size s = Ret (None, s') /\ exhausted Γ al /\ no_pages Γ al s)).
Proof.
  intros Hinv Hb Hs. destruct (kmalloc_eq size Hs) as (i & Hi & ->).
  destruct (Hb i (proj1 Hi)) as (al & γ & Hal & Hγ & Eg & Hsaa). exists i, al, γ. split_and!; [done..|].
  unfold kmalloc_bucket. rewrite bind_gets, Hal, bind_deref.
  destruct (slab_obj_alloc_ok Γ B s al Hinv) as [o Γ' B' s1 E Hg|Γ' B' s1 E Hex Hnp _ _].
  - destruct (elem_geos _ _ _ Hγ) as (x & Hx & <- & _). by apply list_elem_of_fmap_2.
  - left. pose proof (gr_inv _ _ _ _ _ _ _ _ Hg) as Hinv1. exists (o + 2 * sizeof_ptr), Γ', B', s1.
    replace (o + 2 * sizeof_ptr - 2 * sizeof_ptr) with o by lia.
    replace (o + 2 * sizeof_ptr - sizeof_ptr) with (o + sizeof_ptr) by lia. split_and!; [|done|..].
    + rewrite (bind_eq _ _ _ _ _ E), bind_modify. unfold ret. repeat f_equal.
      rewrite <- Z.add_assoc. change (sizeof_ptr + sizeof_ptr) with 8. change (2 * sizeof_ptr) with 8.
      eapply (live_u32 Γ' B' s1 al); [done| |lia]. apply (gr_live _ _ _ _ _ _ _ _ Hg). by right.
    + eapply buckets_geos; [apply Hg|apply Hg|done].
    + by apply kinv_set_hdr.
    + rewrite Eg. destruct Hi as (_ & Hle & _). unfold sizeof_ptr in *. lia.
  - right. exists s1. by rewrite (bind_eq _ _ _ _ _ E).
Qed.

(** [kmalloc] of up to 262140 bytes uses the smallest bucket that holds the
    request and its header word.  When it does not return null, the memory it
    returns is inside an object nobody else holds, the requested bytes end
    before the object's rear red zone, and the header names the allocator. *)
Theorem kmalloc_correct Γ B s size : kinv Γ B s -> buckets Γ s -> 0 <= size <= 262140 ->
  exists i al γ, bucket_for (size + sizeof_ptr) i /\ kmalloc_allocators s !! i = Some al /\ (al, γ) ∈ geos Γ /\
   ((exists u Γ' B' s1, kmalloc size s = Ret (Some u, set_hdr (u - sizeof_ptr) al s1) /\
      granted Γ Γ' B B' s s1 al (u - 2 * sizeof_ptr) /\ buckets Γ' s1 /\ kinv Γ' B' (set_hdr (u - sizeof_ptr) al s1) /\
      u + size <= u - 2 * sizeof_ptr + g_size γ - sizeof_ptr) \/
    (exists s', kmalloc size s = Ret (None, s') /\ exhausted Γ al /\ no_pages Γ al s)).
Proof. apply kmalloc_ok. Qed.

(** [kfree] of memory from [kmalloc] takes exactly that object out of use and
    leaves the headers of all others alone.  Freeing the same memory again is
    not caught by the double-free assertion: the header word has been
    overwritten with poison, which is used as an allocator's address. *)
Theorem kfree_correct Γ B s al o : kinv Γ B s -> obj_live Γ al o -> al <> saa ->
  m_hdr s !! (o + sizeof_ptr) = Some al -> m_alloc s !! POISON_FREE_WORD = None ->
  exists Γ' s', kfree (o + 2 * sizeof_ptr) s = Ret (tt, s') /\ kinv Γ' B s' /\
    (forall al' o', obj_live Γ' al' o' <-> obj_live Γ al' o' /\ o' <> o) /\ geos Γ' = geos Γ /\
    m_hdr s' = <[o + sizeof_ptr := POISON_FREE_WORD]> (m_hdr s) /\
    kfree (o + 2 * sizeof_ptr) s' = Stop Undef.
Proof.
  intros Hinv Hl Hne Hh Hp.
  assert (u32 (o + 2 * sizeof_ptr - sizeof_ptr) = o + sizeof_ptr) as Eu.
  { replace (o + 2 * sizeof_ptr - sizeof_ptr) with (o + 4) by (unfold sizeof_ptr; lia).
    change sizeof_ptr with 4. apply (live_u32 Γ B s al); [done..|lia]. }
  destruct (slab_obj_free_ok Γ B (set_hdr (o + sizeof_ptr) POISON_FREE_WORD s) al o) as (Γ' & s' & E & [Hi Hlv Hge Hhd _]);
    [by apply kinv_set_hdr|done|done|].
  exists Γ', s'. pose proof Hl as (x & g & Hx & Ex & _).
  destruct (ao_alloc _ _ _ (proj1 (Forall_forall _ _) (ki_allocs _ _ _ _ _ Hinv) x Hx)) as (nx & sl & Hal & _). rewrite Ex in Hal.
  split_and!; try done.
  - unfold kfree, load_alloc. rewrite Eu. rewrite bind_gets, Hh, bind_deref, bind_bind, bind_gets, Hal, bind_deref, bind_modify. exact E.
  - unfold kfree, load_alloc. rewrite Eu. rewrite bind_gets, Hhd. cbn [m_hdr set_hdr]. rewrite lookup_insert_eq, bind_deref, bind_bind, bind_gets.
    assert (m_alloc s' = m_alloc s) as ->; [|by rewrite Hp].
    destruct (live_split_obj _ _ _ Hl) as (Γ1 & Γ2 & γ & l1 & addr & F & l2 & -> & Ho & HF).
    rewrite (free_unfold _ _ _ _ _ _ _ _ _ _ _ (kinv_set_hdr _ _ _ _ _ Hinv) Ho) in E.
    unfold load_buf, load_slab, bind, gets, deref, KASSERT, modify, ret, stop in E. simpl in E.
    repeat case_match; simplify_eq. done.
Qed.

Lemma kmalloc_small n : n <= 64 -> kmalloc_from kmalloc_orders 0 n = kmalloc_bucket 0.
Proof.
  intros Hn. destruct (kmalloc_from_eq n 12 0) as (m & Hm & _ & Hl & E); [intros; lia| |].
  - change (bucket_bytes (0 + 12)) with 262144. lia.
  - destruct m as [|m]; [exact E|]. specialize (Hl 0%nat ltac:(lia)). change (bucket_bytes 0) with 64 in Hl. lia.
Qed.

Lemma kmalloc_from_panic n l : forall i, Forall (fun o => 2 ^ Z.of_nat o < n) l ->
  kmalloc_from (P := P) l i n = stop Assert.
Proof.
  induction l as [|o l IH]; intros i Hf; [done|]. apply Forall_cons in Hf as [Ho Hf]. simpl.
  destruct (Z.leb_spec n (2 ^ Z.of_nat o)); [lia|]. by apply IH.
Qed.

(** the header word is added to the size without a check for overflow: a
    request of [2^32 - 4] bytes or more is served like one of 0 bytes, from the
    64-byte bucket; any other request above 262140 bytes panics. *)
Theorem kmalloc_large s size : 262140 < size < two32 ->
  kmalloc size s = if size <? two32 - 4 then Stop Assert else kmalloc 0 s.
Proof.
  intros Hs. unfold kmalloc, sizeof_ptr. destruct (Z.ltb_spec size (two32 - 4)) as [Hlt|Hge].
  - rewrite u32_small by (unfold is_u32; lia). rewrite kmalloc_from_panic; [done|].
    apply Forall_forall. intros o Ho%elem_of_seq. apply Z.le_lt_trans with (2 ^ 18); [apply Z.pow_le_mono_r|]; [lia| |lia].
    unfold KMALLOC_SIZE_MIN_ORDER, KMALLOC_SIZE_MAX_ORDER in Ho. lia.
  - assert (u32 (size + 4) = size + 4 - two32 /\ 0 <= size + 4 - two32 <= 3) as [-> Hr].
    { split; [|unfold two32 in *; lia]. unfold u32. symmetry. apply (Z.mod_unique _ _ 1); unfold two32 in *; lia. }
    change (u32 (0 + 4)) with 4. by rewrite !kmalloc_small by lia.
Qed.

(** ** Set-up *)

(** The memory before [slab_init]: no allocators. *)
Definition boot (q : P) : kmem P := MkKmem ∅ ∅ ∅ ∅ ∅ 0 ∅ q.

Abbreviation γ0 := (geo_for sizeof_allocator).

Lemma boot_ok B q : pl_owns R B q -> saa <> 0 -> (forall lo hi, (lo, hi) ∈ R -> ~ (lo <= saa < hi)) ->
  kinv [GA saa γ0 []] B (new_alloc saa γ0 (boot q)).
Proof.
  intros Hq Hnull Hs. apply kinv_new_allocator; [|apply geo_for_ok; unfold sizeof_allocator; lia|done|by apply not_elem_of_nil|by left].
  split; simpl; try done; [constructor..|]. intros r Hr. by apply not_elem_of_nil in Hr.
Qed.

(** Creating an allocator while the first slab of [saa] has room. *)
Lemma create_room Γ1 a o F B s size : kinv (Γ1 ++ [GA saa γ0 [GS a (o :: F)]]) B s -> 0 <= size <= 524256 ->
  exists s', slab_allocator_create saa size s = Ret (o + sizeof_ptr, s') /\ o + sizeof_ptr <> 0 /\ o + sizeof_ptr <> saa /\
    kinv ((GA (o + sizeof_ptr) (geo_for size) [] :: Γ1) ++ [GA saa γ0 [GS a F]]) B s' /\
    kmalloc_allocators s' = kmalloc_allocators s.
Proof.
  intros Hinv Hs. destruct (find_room_step _ _ _ _ _ _ _ _ _ 1 Hinv) as [(l1 & g & l2 & El & _ & E & Hnz)|[Hf _]].
  2: { by apply Forall_cons in Hf as [? _]. }
  assert (l1 = [] /\ g = GS a (o :: F) /\ l2 = []) as (-> & -> & ->).
  { destruct l1 as [|h l1]; simpl in El; [by simplify_eq|]. injection El as _ El. by destruct l1. }
  cbn [gs_addr] in E, Hnz.
  destruct (take_ok _ _ _ _ [] _ _ _ _ _ _ Hinv) as (nx & u & s1 & Et & _ & _ & Ho & Es & Hinv1).
  pose proof (granted_take Γ1 [] saa γ0 [] a o F [] B s s1 Hinv Ho Hinv1 ltac:(by subst) ltac:(by subst)) as Hg.
  destruct (granted_ptr _ _ _ _ _ _ _ Hinv Hg) as [Hp0 Hni].
  exists (new_alloc (o + sizeof_ptr) (geo_for size) s1). split_and!; [|done| | |by subst s1].
  - unfold slab_allocator_create. rewrite (bind_eq _ _ _ (Some (o + sizeof_ptr)) s1).
    2: { rewrite (alloc_unfold _ _ _ _ E). destruct (Z.eqb_spec (slab_ptr γ0 a) 0); [done|]. exact Et. }
    cbn beta iota. by rewrite (bind_eq _ _ _ _ _ (allocator_init_ok _ _ _ Hs)).
  - intros E'. apply Hni. rewrite E', fmap_app. apply elem_of_app. right. by left.
  - apply kinv_new_allocator; [exact Hinv1|by apply geo_for_ok|done|done|]. right.
    replace (o + sizeof_ptr - sizeof_ptr) with o by lia. apply (gr_live _ _ _ _ _ _ _ _ Hg). by right.
Qed.

Definition buckets_upto (k : nat) (Γ : list galloc) (s : kmem P) : Prop :=
  forall i, (i < k)%nat -> exists al γ, kmalloc_allocators s !! i = Some al /\ (al, γ) ∈ geos Γ /\
    g_size γ = bucket_bytes i + 2 * sizeof_ptr /\ al <> saa.

Lemma create_buckets_ok a B k : forall i Γ1 F s, kinv (Γ1 ++ [GA saa γ0 [GS a F]]) B s -> (k <= length F)%nat ->
  (i + k = nbuckets)%nat -> buckets_upto i Γ1 s ->
  exists Γ s', create_buckets saa (seq (KMALLOC_SIZE_MIN_ORDER + i) k) i s = Ret (tt, s') /\ kinv Γ B s' /\ buckets Γ s'.
Proof.
  induction k as [|k IH]; intros i Γ1 F s Hinv Hk Hi Hb.
  - exists (Γ1 ++ [GA saa γ0 [GS a F]]), s. split_and!; [done..|]. intros j Hj.
    destruct (Hb j ltac:(lia)) as (al & γ & H1 & H2 & H3). exists al, γ. split_and!; [done| |apply H3..].
    unfold geos. rewrite fmap_app. apply elem_of_app. by left.
  - destruct F as [|o F]; [simpl in Hk; lia|]. cbn [seq create_buckets]. fold (bucket_bytes i).
    assert (0 <= bucket_bytes i <= 524256) as Hsz.
    { unfold bucket_bytes. unfold nbuckets, KMALLOC_SIZE_MAX_ORDER, KMALLOC_SIZE_MIN_ORDER in *.
      split; [apply Z.pow_nonneg; lia|]. transitivity (2 ^ 18); [apply Z.pow_le_mono_r; lia|]. vm_compute. discriminate. }
    destruct (create_room _ _ _ _ _ _ _ Hinv Hsz) as (s1 & E & Hp0 & Hps & Hinv1 & Ek).
    rewrite (bind_eq _ _ _ _ _ E), bind_modify, bind_assert by (by apply negb_true_iff, Z.eqb_neq).
    replace (S (KMALLOC_SIZE_MIN_ORDER + i)) with (KMALLOC_SIZE_MIN_ORDER + S i)%nat by lia.
    eapply (IH (S i) _ F).
    + instantiate (1 := GA (o + sizeof_ptr) (geo_for (bucket_bytes i)) [] :: Γ1).
      destruct Hinv1 as [Hpg Hch Hpt Hf Had Hsaa Hown]. split; try done. eapply Forall_impl; [exact Hf|]. intros x Hx.
      eapply (alloc_ok_frame (fun _ => True) s1); [done..| |exact Hx]. intros g Hg. by eapply alloc_page.
    + simpl in Hk. lia.
    + lia.
    + intros j Hj. simpl. destruct (decide (j = i)) as [->|Hne].
      * exists (o + sizeof_ptr), (geo_for (bucket_bytes i)). rewrite lookup_insert_eq. split_and!; [done|by left| |done].
        by destruct (geo_for_ok _ Hsz) as (_ & -> & _).
      * rewrite lookup_insert_ne, Ek by done. destruct (Hb j ltac:(lia)) as (al & γ & H1 & H2 & H3). exists al, γ.
        split_and!; [done| |apply H3..]. by right.
Qed.

(** With room in the first slab the search needs one round. *)
Lemma find_room_first Γ1 Γ2 p γ a o F l B s fuel : kinv (Γ1 ++ GA p γ (GS a (o :: F) :: l) :: Γ2) B s ->
  find_room (S fuel) p s = Ret (slab_ptr γ a, s).
Proof.
  intros Hinv. pose proof (kinv_split _ _ _ _ _ _ _ Hinv) as (_ & [Hz (nx & sl & Hal & Hc) Hf] & _).
  apply Forall_cons in Hf as [Hok _]. destruct (so_slab _ _ _ _ Hok) as (nx' & fr & Hsl & _).
  pose proof (slab_fuel _ _ _ _ _ _ _ Hinv) as Hfu. simpl in *. destruct Hc as (-> & Hnz & _).
  destruct (size (m_slab s)) as [|n] eqn:En; [lia|].
  unfold load_alloc. rewrite bind_bind, bind_gets, Hal, bind_deref, bind_gets, En. cbn [skip_full sa_slabs sa_slab_nobjs].
  destruct (Z.eqb_spec (slab_ptr γ a) 0); [done|]. unfold load_slab.
  rewrite !bind_bind, bind_gets, Hsl, bind_deref. cbn [s_inuse].
  destruct (Z.eqb_spec (g_n γ - Z.of_nat (S (length F))) (g_n γ)); [lia|]. rewrite bind_ret.
  destruct (Z.eqb_spec (slab_ptr γ a) 0); [done|].
  rewrite !bind_bind, bind_gets, Hsl, bind_deref, bind_ret. cbn [s_inuse].
  destruct (Z.ltb_spec (g_n γ - Z.of_nat (S (length F))) (g_n γ)); [done|lia].
Qed.

Lemma create_buckets_congr orders i s s1 : slab_obj_alloc saa s = slab_obj_alloc saa s1 -> orders <> [] ->
  create_buckets saa orders i s = create_buckets saa orders i s1.
Proof.
  intros E Hne. destruct orders as [|o l]; [done|]. simpl. unfold slab_allocator_create. rewrite !bind_bind.
  unfold bind. by rewrite E.
Qed.

Lemma slab_init_ok B q : pl_owns R B q -> saa <> 0 -> (forall lo hi, (lo, hi) ∈ R -> ~ (lo <= saa < hi)) ->
  (exists Γ B' s', slab_init saa (boot q) = Ret (tt, s') /\ kinv Γ B' s' /\ buckets Γ s' /\ B ⊆ B') \/
  (pa_alloc_n 1 q = Ret (None, q) /\ slab_init saa (boot q) = Stop Assert).
Proof.
  intros Hq Hnull Hs. pose proof (boot_ok B q Hq Hnull Hs) as Hinv. unfold slab_init.
  rewrite (bind_eq _ _ _ _ _ (allocator_init_ok saa sizeof_allocator (boot q) ltac:(unfold sizeof_allocator; lia))).
  set (s := new_alloc saa γ0 (boot q)) in *. destruct (geo_for_ok sizeof_allocator ltac:(unfold sizeof_allocator; lia)) as (Hz & _).
  destruct (find_room_step _ _ [] _ _ _ _ _ _ 1 Hinv) as [(l1 & g & l2 & El & _)|[_ E]]; [by destruct l1|].
  destruct (grow_ok _ _ [] _ _ _ _ _ _ Hinv) as [(a & s1 & Eg & Hna & Hinv1 & _ & Ek)|(Γ' & B' & s1 & Eg & _ & _ & Hnp)].
  - left. rewrite (bind_eq _ _ _ _ _ Eg) in E.
    assert (exists F, objs γ0 a = a :: F /\ (nbuckets <= length F)%nat) as (F & EF & HF).
    { unfold objs. change (Z.to_nat (g_n γ0)) with 102%nat. exists (obj_at γ0 a <$> seq 1 101). split; [|rewrite length_fmap, length_seq; unfold nbuckets, KMALLOC_SIZE_MAX_ORDER, KMALLOC_SIZE_MIN_ORDER; lia].
      change (seq 0 102) with (0%nat :: seq 1 101). rewrite fmap_cons. f_equal. unfold obj_at. lia. }
    rewrite EF in Hinv1.
    assert (slab_obj_alloc saa s = slab_obj_alloc saa s1) as Ea.
    { rewrite (find_room_first [] [] saa γ0 a a F [] _ s1 0 Hinv1) in E.
      by rewrite (alloc_unfold _ _ _ _ E), (alloc_unfold _ _ _ _ (find_room_first [] [] saa γ0 a a F [] _ s1 1 Hinv1)). }
    unfold kmalloc_orders. rewrite (create_buckets_congr _ _ _ s1 Ea) by done.
    destruct (create_buckets_ok a _ nbuckets 0 [] (a :: F) s1 Hinv1) as (Γ & s' & Ec & Hi & Hb); [simpl; lia|done|intros i Hi; lia|].
    exists Γ, ({[(a, g_order γ0)]} ∪ B), s'. split; [exact Ec|]. split; [exact Hi|]. split; [exact Hb|apply union_subseteq_r].
  - right. change (npages_of (g_order γ0)) with 1 in Hnp. split; [exact Hnp|].
    rewrite (bind_eq _ _ _ _ _ Eg) in E. unfold kmalloc_orders. simpl. unfold slab_allocator_create. rewrite bind_bind.
    rewrite (bind_eq _ _ _ None s1) by (by rewrite (alloc_unfold _ _ _ _ E)). done.
Qed.

(** with one free page [slab_init] sets up the allocator of allocators and
    the thirteen [kmalloc] buckets, all well formed; without one it panics. *)
Theorem slab_init_correct B q : pl_owns R B q -> saa <> 0 -> (forall lo hi, (lo, hi) ∈ R -> ~ (lo <= saa < hi)) ->
  (exists Γ B' s', slab_init saa (boot q) = Ret (tt, s') /\ kinv Γ B' s' /\ buckets Γ s' /\ B ⊆ B') \/
  (pa_alloc_n 1 q = Ret (None, q) /\ slab_init saa (boot q) = Stop Assert).
Proof. apply slab_init_ok. Qed.
End calls.
