(* ===== verification/SlabPages.v ===== *)
(** * The buddy allocator as the slab allocator's source of pages

    The instance of [PageOps] and [PageLaws] of Slab.v for mm/page.c: blocks
    handed out are disjoint and stay inside the ranges given to
    [page_add_range].  The theorems of SlabSpec.v then hold of the two
    allocators together; the witnesses run them from [slab_init] on one megabyte
    of memory. *)

From S2P Require Import Prelude Page Slab SlabInv SlabSpec.

(** ** The ranges never change *)

Definition range_of (g : pagegroup) : Z * Z := (pg_baseaddr g, pg_endaddr g).
Definition ranges (s : pages) : list (Z * Z) := range_of <$> pagegroup_list s.

Definition keepsg {A} (m : M pagegroup A) : Prop := forall g a g', m g = Ret (a, g') -> range_of g' = range_of g.
Definition keeps {A} (m : M pages A) : Prop := forall s a s', m s = Ret (a, s') -> ranges s' = ranges s.

Lemma keepsg_ret {A} (a : A) : keepsg (ret a).
Proof. by intros g b g' [= _ ->]. Qed.
Lemma keepsg_gets {A} (f : pagegroup -> A) : keepsg (gets f).
Proof. by intros g b g' [= _ ->]. Qed.
Lemma keepsg_stop {A} f : keepsg (stop f : M pagegroup A).
Proof. done. Qed.
Lemma keepsg_bind {A C} (m : M pagegroup A) (k : A -> M pagegroup C) :
  keepsg m -> (forall a, keepsg (k a)) -> keepsg (bind m k).
Proof.
  intros Hm Hk g c g' E. unfold bind in E. destruct (m g) as [[a g1]|] eqn:E1; [|done].
  rewrite (Hk a _ _ _ E). by eapply Hm.
Qed.
Lemma keepsg_modify f : (forall g, range_of (f g) = range_of g) -> keepsg (modify f).
Proof. intros Hf g b g' [= _ <-]. apply Hf. Qed.
Lemma keepsg_KASSERT b : keepsg (KASSERT b).
Proof. destruct b; [apply keepsg_ret|apply keepsg_stop]. Qed.
Lemma keepsg_deref {A} (o : option A) : keepsg (deref o).
Proof. destruct o; [apply keepsg_ret|apply keepsg_stop]. Qed.
Lemma keepsg_if {A} (b : bool) (m m' : M pagegroup A) : keepsg m -> keepsg m' -> keepsg (if b then m else m').
Proof. by destruct b. Qed.

Create HintDb keeps.
#[export] Hint Resolve keepsg_ret keepsg_gets keepsg_stop keepsg_KASSERT keepsg_deref : keeps.

(** Walks through the code of an operation on a group. *)
Ltac keepsg_solve :=
  repeat match goal with
  | |- keepsg (bind _ _) => apply keepsg_bind; [|intros]
  | |- keepsg (if _ then _ else _) => apply keepsg_if
  | |- keepsg (modify _) => apply keepsg_modify; intros; done
  | _ => solve [auto with keeps]
  end.

Lemma keepsg_push o a : keepsg (freelist_push o a).
Proof. unfold freelist_push. keepsg_solve. Qed.
Lemma keepsg_pop o : keepsg (freelist_pop o).
Proof. unfold freelist_pop. keepsg_solve. Qed.
Lemma keepsg_remove a : keepsg (freelist_remove a).
Proof. unfold freelist_remove. keepsg_solve. Qed.
Lemma keepsg_flip o i : keepsg (bit_flip o i).
Proof. unfold bit_flip. keepsg_solve. Qed.
Lemma keepsg_check o i : keepsg (bit_check o i).
Proof. unfold bit_check. keepsg_solve. Qed.
Lemma keepsg_index o a : keepsg (_pagegroup_calculate_index o a).
Proof. unfold _pagegroup_calculate_index. keepsg_solve. Qed.

#[export] Hint Resolve keepsg_push keepsg_pop keepsg_remove keepsg_flip keepsg_check keepsg_index : keeps.

Lemma keepsg_split o : keepsg (__page_split o).
Proof. unfold __page_split. keepsg_solve. Qed.
#[export] Hint Resolve keepsg_split : keeps.

Lemma keepsg_split_down k o : keepsg (split_down k o).
Proof. induction k; simpl; keepsg_solve. Qed.
Lemma keepsg_take o : keepsg (group_take o).
Proof. unfold group_take. keepsg_solve. Qed.
Lemma keepsg_join fuel : forall o a, keepsg (__page_join fuel o a).
Proof. induction fuel; intros o a; cbn [__page_join]; keepsg_solve. Qed.
#[export] Hint Resolve keepsg_split_down keepsg_take keepsg_join : keeps.

Lemma keeps_ret {A} (a : A) : keeps (ret a).
Proof. by intros g b g' [= _ ->]. Qed.
Lemma keeps_gets {A} (f : pages -> A) : keeps (gets f).
Proof. by intros g b g' [= _ ->]. Qed.
Lemma keeps_bind {A C} (m : M pages A) (k : A -> M pages C) : keeps m -> (forall a, keeps (k a)) -> keeps (bind m k).
Proof.
  intros Hm Hk g c g' E. unfold bind in E. destruct (m g) as [[a g1]|] eqn:E1; [|done].
  rewrite (Hk a _ _ _ E). by eapply Hm.
Qed.
Lemma keeps_count d : keeps (add_freecount d).
Proof. by intros s b s' [= _ <-]. Qed.
Lemma keeps_in_group {A} i (m : M pagegroup A) : keepsg m -> keeps (in_group i m).
Proof.
  intros Hm s a s' E. unfold in_group in E. destruct (pagegroup_list s !! i) as [g|] eqn:Eg; [|done].
  destruct (m g) as [[b g']|] eqn:E1; [|done]. injection E as _ <-. unfold ranges. simpl.
  rewrite list_fmap_insert. apply list_insert_id. rewrite list_lookup_fmap, Eg. simpl. by rewrite (Hm _ _ _ E1).
Qed.
#[export] Hint Resolve keeps_ret keeps_gets keeps_count : keeps.

Lemma keeps_page_take o i : keeps (page_take o i).
Proof. unfold page_take. repeat (apply keeps_bind; [|intros]); auto with keeps. apply keeps_in_group. auto with keeps. Qed.

Lemma keeps_alloc o : keeps (_page_alloc_order [] o).
Proof.
  unfold _page_alloc_order. apply keeps_bind; [apply keeps_gets|]. intros l.
  destruct (group_with l o); [apply keeps_page_take|]. apply keeps_bind.
  - unfold _page_split. apply keeps_bind; [apply keeps_gets|]. intros l'. destruct (find_bigger _ _) as [[n i]|].
    + apply keeps_bind; [|intros; apply keeps_ret]. apply keeps_in_group. keepsg_solve.
    + simpl. apply keeps_bind; [apply keeps_ret|intros; apply keeps_ret].
  - intros [i|]; [apply keeps_page_take|apply keeps_ret].
Qed.

Lemma keeps_free a o : keeps (_page_free_order a o).
Proof.
  unfold _page_free_order. apply keeps_bind; [apply keeps_gets|]. intros l.
  destruct (_pagegroup_from_address l a); [|apply keeps_ret].
  repeat (apply keeps_bind; [|intros]); [apply keeps_in_group; auto with keeps|auto with keeps|].
  destruct (o <? PAGE_NSIZES - 1)%nat; [|apply keeps_ret]. apply keeps_in_group. keepsg_solve.
Qed.

(** ** The laws *)

#[export] Instance pages_ops : PageOps pages := {
  pa_alloc_n := page_alloc_n [];
  pa_free_n := page_free_n
}.

(** Block [(o, j)] of group [i] is handed out and starts at [a]. *)
Definition handed_out (G : list ghost) (s : pages) (a : Z) (o : nat) : Prop :=
  exists i j γ g, G !! i = Some γ /\ pagegroup_list s !! i = Some g /\ (o, j) ∈ gA γ /\ a = blk g (o, j).

Definition owns (R : list (Z * Z)) (B : gset (Z * nat)) (s : pages) : Prop :=
  exists G, pinv G s /\ ranges s = R /\ forall a o, (a, o) ∈ B <-> handed_out G s a o.

Lemma group_of G s i γ g : pinv G s -> G !! i = Some γ -> pagegroup_list s !! i = Some g -> ginv (gN γ) g (gP γ) (gA γ).
Proof. intros Hinv HG Hg. by destruct (Forall2_lookup_lr _ _ _ _ _ _ (pi_groups _ _ Hinv) Hg HG). Qed.

Lemma handed_valid G s i γ g o j : pinv G s -> G !! i = Some γ -> pagegroup_list s !! i = Some g -> (o, j) ∈ gA γ ->
  valid (gN γ) (o, j) /\ pg_baseaddr g <= blk g (o, j) /\ blk g (o, j) + bytes_of o <= pg_endaddr g < two32.
Proof.
  intros Hinv HG Hg Hin. pose proof (group_of _ _ _ _ _ Hinv HG Hg) as Hok.
  assert (valid (gN γ) (o, j)) as Hv by (apply (pt_valid _ _ (gi_part _ _ _ _ Hok)); by right).
  split; [done|]. exact (blk_range _ _ _ (gi_geo _ _ _ _ Hok) Hv).
Qed.

(** Blocks of one group that share no page share no byte. *)
Lemma blocks_disjoint g (b1 b2 : nat * Z) : (forall p, inb b1 p -> inb b2 p -> False) ->
  apart (blk g b1) (bytes_of b1.1) (blk g b2) (bytes_of b2.1).
Proof.
  destruct b1 as [o1 i1], b2 as [o2 i2]. intros Hd. unfold apart, blk, bytes_of. simpl.
  pose proof (npages_of_pos o1). pose proof (npages_of_pos o2).
  destruct (decide ((i1 + 1) * npages_of o1 <= i2 * npages_of o2)); [left; unfold PAGE_SIZE; nia|].
  destruct (decide ((i2 + 1) * npages_of o2 <= i1 * npages_of o1)); [right; unfold PAGE_SIZE; nia|].
  exfalso. apply (Hd (Z.max (i1 * npages_of o1) (i2 * npages_of o2))); apply inb_iff; lia.
Qed.

Lemma handed_apart G s a o b p : pinv G s -> handed_out G s a o -> handed_out G s b p ->
  (a, o) = (b, p) \/ apart a (bytes_of o) b (bytes_of p).
Proof.
  intros Hinv (i & j & γ & g & HG & Hg & Hin & ->) (i' & j' & γ' & g' & HG' & Hg' & Hin' & ->).
  destruct (handed_valid _ _ _ _ _ _ _ Hinv HG Hg Hin) as (_ & R1 & R2).
  destruct (handed_valid _ _ _ _ _ _ _ Hinv HG' Hg' Hin') as (_ & R1' & R2').
  destruct (decide (i = i')) as [->|Hne].
  - simplify_eq. destruct (decide ((o, j) = (p, j'))) as [E|Hne]; [left; by simplify_eq|]. right.
    apply (blocks_disjoint g (o, j) (p, j')). intros x H1 H2. apply Hne.
    apply (pt_disj _ _ (gi_part _ _ _ _ (group_of _ _ _ _ _ Hinv HG Hg)) _ _ x); try done; by right.
  - right. destruct (pi_apart _ _ Hinv i i' g g' Hne Hg Hg') as [Hx|Hx]; unfold apart; [left|right]; lia.
Qed.

Lemma order_for_npages o : (o < PAGE_NSIZES)%nat -> order_for (seq 0 PAGE_NSIZES) (npages_of o) = Some o.
Proof. intros. unfold PAGE_NSIZES in *. do 8 (destruct o as [|o]; [reflexivity|]). lia. Qed.

Lemma ranges_lookup s s' i g : ranges s' = ranges s -> pagegroup_list s !! i = Some g ->
  exists g', pagegroup_list s' !! i = Some g' /\ range_of g' = range_of g.
Proof.
  intros E Hg. assert (ranges s' !! i = Some (range_of g)) as Hl by (rewrite E; unfold ranges; by rewrite list_lookup_fmap, Hg).
  unfold ranges in Hl. apply list_lookup_fmap_Some in Hl as (g' & Hg' & E'). by exists g'.
Qed.

Lemma blk_range_of g g' b : range_of g' = range_of g -> blk g' b = blk g b.
Proof. unfold range_of, blk. intros [= -> _]. done. Qed.

(** What changes when the blocks handed out of group [i] change. *)
Lemma handed_update G s s' i γ γ' g a o : G !! i = Some γ -> pagegroup_list s !! i = Some g -> ranges s' = ranges s ->
  handed_out (<[i := γ']> G) s' a o <->
  (exists j, (o, j) ∈ gA γ' /\ a = blk g (o, j)) \/
  (exists i' j γ1 g1, i' <> i /\ G !! i' = Some γ1 /\ pagegroup_list s !! i' = Some g1 /\ (o, j) ∈ gA γ1 /\ a = blk g1 (o, j)).
Proof.
  intros HG Hg Er. split.
  - intros (i' & j & γ1 & g1 & HG1 & Hg1 & Hin & ->). destruct (decide (i' = i)) as [->|Hne].
    + left. rewrite list_lookup_insert_eq in HG1 by (by eapply lookup_lt_Some). simplify_eq.
      destruct (ranges_lookup s s' i g Er Hg) as (g2 & Hg2 & E2). simplify_eq. exists j. split; [done|unfold blk; by rewrite E2].
    + right. rewrite list_lookup_insert_ne in HG1 by done.
      destruct (ranges_lookup s' s i' g1 (eq_sym Er) Hg1) as (g2 & Hg2 & E2).
      exists i', j, γ1, g2. split_and!; try done. symmetry. by apply blk_range_of.
  - intros [(j & Hin & ->)|(i' & j & γ1 & g1 & Hne & HG1 & Hg1 & Hin & ->)].
    + destruct (ranges_lookup s s' i g Er Hg) as (g2 & Hg2 & E2). exists i, j, γ', g2.
      rewrite list_lookup_insert_eq by (by eapply lookup_lt_Some). split_and!; try done. symmetry. by apply blk_range_of.
    + destruct (ranges_lookup s s' i' g1 Er Hg1) as (g2 & Hg2 & E2). exists i', j, γ1, g2.
      rewrite list_lookup_insert_ne by done. split_and!; try done. symmetry. by apply blk_range_of.
Qed.

Lemma handed_cases G s i γ g a o : G !! i = Some γ -> pagegroup_list s !! i = Some g ->
  handed_out G s a o <-> (exists j, (o, j) ∈ gA γ /\ a = blk g (o, j)) \/
  (exists i' j γ1 g1, i' <> i /\ G !! i' = Some γ1 /\ pagegroup_list s !! i' = Some g1 /\ (o, j) ∈ gA γ1 /\ a = blk g1 (o, j)).
Proof. intros HG Hg. rewrite <- (list_insert_id G i γ HG) at 1. by eapply handed_update. Qed.

(** An allocation adds one block. *)
Lemma owns_alloc (G G' : list ghost) (s s' : pages) (B : gset (Z * nat)) (o : nat) (addr : Z) : pinv G s -> ranges s' = ranges s -> allocated_block G G' s s' o addr ->
  (forall a o, (a, o) ∈ B <-> handed_out G s a o) ->
  ((addr, o) ∉ B) /\ forall a p, (a, p) ∈ ({[(addr, o)]} ∪ B : gset (Z * nat)) <-> handed_out G' s' a p.
Proof.
  intros Hinv Er (i & j & γ & γ' & g & HG & Hg & -> & Hinv' & -> & EN & EA & Hfree & _) HB. split.
  - rewrite HB. intros (i' & j' & γ1 & g1 & HG1 & Hg1 & Hin & E).
    destruct (handed_valid _ _ _ _ _ _ _ Hinv HG1 Hg1 Hin) as (_ & R1 & R2).
    destruct (ranges_lookup s s' i g Er Hg) as (g2 & Hg2 & E2).
    assert ((o, j) ∈ gA γ') as Hin' by (rewrite EA; apply elem_of_union_r; by apply elem_of_singleton).
    destruct (handed_valid _ _ _ _ _ _ _ Hinv' (list_lookup_insert_eq G i γ' (lookup_lt_Some _ _ _ HG)) Hg2 Hin') as (_ & R3 & R4).
    rewrite (blk_range_of g g2) in R3, R4 by done. unfold range_of in E2. injection E2 as Eb Ee. pose proof (bytes_of_pos o).
    destruct (decide (i' = i)) as [->|Hne].
    + simplify_eq. assert (j' = j) as -> by (symmetry in E; apply blk_inj in E; [congruence|done]).
      pose proof (group_of _ _ _ _ _ Hinv HG Hg) as Hok. destruct (Hfree (j * npages_of o) (inb_self o j)) as (b & Hb & Hib).
      assert (b = (o, j)) as -> by (apply (pt_disj _ _ (gi_part _ _ _ _ Hok) _ _ (j * npages_of o)); [by left|by right|done|apply inb_self]).
      by eapply (gi_disj _ _ _ _ Hok).
    + destruct (pi_apart _ _ Hinv i' i g1 g Hne Hg1 Hg); lia.
  - intros a p. rewrite (handed_update _ _ _ _ γ _ g) by done. rewrite elem_of_union, elem_of_singleton, HB.
    rewrite (handed_cases G s i γ g) by done. rewrite EA. split.
    + intros [[= -> ->]|[(k & Hk & ->)|?]]; [left; exists j|left; exists k|by right]; (split; [set_solver|done]).
    + intros [(k & [Hk|[= -> ->]%elem_of_singleton]%elem_of_union & ->)|?]; [right; left; by exists k|by left|by right; right].
Qed.

(** Freeing removes one. *)
Lemma owns_free (G : list ghost) (s s' : pages) (B : gset (Z * nat)) (i : nat) (γ γ' : ghost) (g : pagegroup) (o : nat) (j : Z) : pinv G s -> ranges s' = ranges s -> G !! i = Some γ -> pagegroup_list s !! i = Some g ->
  (o, j) ∈ gA γ -> gA γ' = gA γ ∖ {[(o, j)]} -> (forall a o, (a, o) ∈ B <-> handed_out G s a o) ->
  forall a p, (a, p) ∈ B ∖ {[(blk g (o, j), o)]} <-> handed_out (<[i := γ']> G) s' a p.
Proof.
  intros Hinv Er HG Hg Hin EA HB a p. rewrite (handed_update _ _ _ _ γ _ g) by done.
  rewrite elem_of_difference, elem_of_singleton, HB, (handed_cases G s i γ g) by done. rewrite EA. split.
  - intros [[(k & Hk & ->)|?] Hne]; [left; exists k|by right]. split; [|done]. apply elem_of_difference. split; [done|].
    intros [= -> ->]%elem_of_singleton. by apply Hne.
  - intros [(k & [Hk Hne]%elem_of_difference & ->)|(i' & k & γ1 & g1 & Hne & HG1 & Hg1 & Hk & ->)].
    + split; [left; by exists k|]. intros [= E ->]. apply Hne, elem_of_singleton.
      apply blk_inj in E; [done|done].
    + split; [right; by exists i', k, γ1, g1|]. intros [= E ->].
      destruct (handed_valid _ _ _ _ _ _ _ Hinv HG Hg Hin) as (_ & R1 & R2).
      destruct (handed_valid _ _ _ _ _ _ _ Hinv HG1 Hg1 Hk) as (_ & R3 & R4). pose proof (bytes_of_pos o).
      destruct (pi_apart _ _ Hinv i' i g1 g Hne Hg1 Hg); lia.
Qed.

Lemma owns_range R B s a o : owns R B s -> (a, o) ∈ B ->
  (o < PAGE_NSIZES)%nat /\ 0 < a /\ a mod PAGE_SIZE = 0 /\ a + bytes_of o < two32 /\
  exists lo hi, (lo, hi) ∈ R /\ lo <= a /\ a + bytes_of o <= hi.
Proof.
  intros (G & Hinv & <- & HB) (i & j & γ & g & HG & Hg & Hin & ->)%HB.
  destruct (handed_valid _ _ _ _ _ _ _ Hinv HG Hg Hin) as ((Ho & _) & R1 & R2).
  destruct (ge_base _ _ (gi_geo _ _ _ _ (group_of _ _ _ _ _ Hinv HG Hg))) as [Hb0 Hbm]. split_and!; [done|lia| |lia|].
  - unfold blk. rewrite Z.mul_comm, (Z.mul_comm PAGE_SIZE), Z.mod_add by done. done.
  - exists (pg_baseaddr g), (pg_endaddr g). split; [|lia].
    apply list_elem_of_fmap. exists g. split; [done|by eapply list_elem_of_lookup_2].
Qed.

Lemma owns_apart R B s a o b p : owns R B s -> (a, o) ∈ B -> (b, p) ∈ B ->
  (a, o) = (b, p) \/ apart a (bytes_of o) b (bytes_of p).
Proof. intros (G & Hinv & _ & HB) H1%HB H2%HB. by eapply handed_apart. Qed.

Lemma owns_alloc_n R B s o : owns R B s -> (o < PAGE_NSIZES)%nat ->
  (exists a s', page_alloc_n [] (npages_of o) s = Ret (Some a, s') /\ ((a, o) ∉ B) /\ owns R ({[(a, o)]} ∪ B) s') \/
  page_alloc_n [] (npages_of o) s = Ret (None, s).
Proof.
  intros (G & Hinv & <- & HB) Ho. unfold page_alloc_n. rewrite order_for_npages by done.
  destruct (page_alloc_order_ok G s [] o Hinv Ho) as [(G' & s' & a & E & Ha)|[_ E]]; [left|by right].
  pose proof (keeps_alloc o _ _ _ E) as Er. destruct (owns_alloc _ _ _ _ _ _ _ Hinv Er Ha HB) as [Hn HB'].
  exists a, s'. split_and!; [done..|]. exists G'. split_and!; [|done..].
  by destruct Ha as (? & ? & ? & ? & ? & ? & ? & ? & ? & _).
Qed.

Lemma owns_free_n R B s a o : owns R B s -> (a, o) ∈ B ->
  exists s', page_free_n a (npages_of o) s = Ret (tt, s') /\ owns R (B ∖ {[(a, o)]}) s'.
Proof.
  intros Hown Hin. pose proof (proj1 (owns_range _ _ _ _ _ Hown Hin)) as Ho.
  destruct Hown as (G & Hinv & <- & HB). apply HB in Hin as (i & j & γ & g & HG & Hg & Hin & ->).
  destruct (page_free_order_ok _ _ _ _ _ _ _ Hinv HG Hg Hin) as (γ' & s' & E & Hinv' & EN & EA & _).
  exists s'. split; [unfold page_free_n; by rewrite order_for_npages|]. pose proof (keeps_free _ _ _ _ _ E) as Er.
  exists (<[i := γ']> G). split_and!; [done..|]. by eapply owns_free.
Qed.

#[export] Instance pages_laws : PageLaws pages := {
  pl_owns := owns;
  pl_range := owns_range;
  pl_apart := owns_apart;
  pl_alloc := owns_alloc_n;
  pl_free := owns_free_n
}.

(** ** One megabyte of memory *)

(** The static allocator lies below the memory. *)
Definition demo_saa : Z := 4096.
Definition demo_ranges : list (Z * Z) := ranges demo_pages.
Definition demo_boot : kmem pages := boot demo_pages.

Lemma demo_owns : pl_owns demo_ranges ∅ demo_pages.
Proof.
  destruct (page_add_range_ok [] page_init 1048576 2097152) as (s' & γ & n & E & Hinv & HA & _);
    [exact page_init_ok|unfold two32; lia|unfold two32; lia|vm_compute; discriminate|constructor|].
  assert (demo_pages = s') as <- by (unfold demo_pages; by rewrite E).
  exists [γ]. split; [exact Hinv|]. split; [reflexivity|]. intros a o.
  split; [intros Hx; exfalso; exact (not_elem_of_empty _ Hx)|].
  intros (i & j & γ' & g & HG & _ & Hin & _). destruct i; [|done]. injection HG as <-. rewrite HA in Hin. set_solver.
Qed.

Lemma demo_saa_out lo hi : (lo, hi) ∈ demo_ranges -> ~ (lo <= demo_saa < hi).
Proof.
  intros Hin Hr. assert (demo_ranges = [(1048576, 2093056)]) as E by (vm_compute; reflexivity).
  rewrite E in Hin. apply list_elem_of_singleton in Hin as [= -> ->]. unfold demo_saa in Hr. lia.
Qed.

(** A run that returned something other than null. *)
Definition returns_some {A S} (r : outcome (option A * S)) : bool :=
  match r with Ret (Some _, _) => true | _ => false end.

(** After [slab_init]. *)
Definition demo_state : kmem pages :=
  match slab_init demo_saa demo_boot with Ret (_, s) => s | Stop _ => demo_boot end.

Lemma buckets_saa Γ B (s : kmem pages) : kinv demo_saa demo_ranges Γ B s -> buckets demo_saa Γ s -> demo_saa ∈ ga_ptr <$> Γ.
Proof.
  intros Hi Hb. destruct (Hb 0%nat ltac:(unfold nbuckets, KMALLOC_SIZE_MAX_ORDER, KMALLOC_SIZE_MIN_ORDER; lia)) as (al & γ & _ & Hg & _ & Hne).
  apply elem_geos in Hg as (x & Hx & <- & _).
  destruct (ki_own _ _ _ _ _ Hi (ga_ptr x)) as [?|(y & g & Hy & <- & _)]; [by apply list_elem_of_fmap_2|contradiction|].
  by apply list_elem_of_fmap_2.
Qed.

Lemma demo_slab_pages_ok : exists Γ B, kinv demo_saa demo_ranges Γ B demo_state /\ buckets demo_saa Γ demo_state /\
  demo_saa ∈ ga_ptr <$> Γ.
Proof.
  destruct (slab_init_ok demo_saa demo_ranges ∅ demo_pages demo_owns ltac:(discriminate) demo_saa_out)
    as [(Γ & B & s & E & Hi & Hb & _)|[E _]].
  - unfold demo_state, demo_boot. rewrite E. exists Γ, B. split; [exact Hi|]. split; [exact Hb|].
    exact (buckets_saa Γ B s Hi Hb).
  - exfalso. vm_compute in E. discriminate E.
Qed.

(** Three allocations, from the first two [kmalloc] allocators, with a free in between. *)
Definition demo_ops : list client_op :=
  match kmalloc_allocators demo_state !! 0%nat, kmalloc_allocators demo_state !! 1%nat with
  | Some a, Some b => [CAlloc a; CAlloc b; CFree 0; CAlloc a; CAlloc b]
  | _, _ => []
  end.

Lemma objects_separate_witness : exists Γ B h s' al u al' u' γ γ', kinv demo_saa demo_ranges Γ B demo_state /\
  client_run demo_ops [] demo_state = Ret (h, s') /\ length h = 3%nat /\
  h !! 0%nat = Some (al, u) /\ h !! 2%nat = Some (al', u') /\ obj_apart γ u γ' u'.
Proof.
  destruct demo_slab_pages_ok as (Γ & B & Hi & Hb & _).
  destruct (Hb 0%nat ltac:(unfold nbuckets, KMALLOC_SIZE_MAX_ORDER, KMALLOC_SIZE_MIN_ORDER; lia)) as (a & γa & Ea & Ha & _).
  destruct (Hb 1%nat ltac:(unfold nbuckets, KMALLOC_SIZE_MAX_ORDER, KMALLOC_SIZE_MIN_ORDER; lia)) as (b & γb & Eb & Hbb & _).
  assert (Forall (op_on Γ) demo_ops) as Hf.
  { unfold demo_ops. rewrite Ea, Eb. pose proof (list_elem_of_fmap_2 fst _ _ Ha) as Pa. pose proof (list_elem_of_fmap_2 fst _ _ Hbb) as Pb.
    unfold geos in Pa, Pb. rewrite <- list_fmap_compose in Pa, Pb.
    repeat (apply Forall_cons; split; [first [exact Pa|exact Pb|exact I]|]). apply Forall_nil. exact I. }
  destruct (objects_separate demo_saa demo_ranges Γ B demo_state demo_ops Hi Hf) as (h & Γ' & B' & s' & E & _ & _ & Hap & _ & Hin).
  assert (match client_run demo_ops [] demo_state with Ret (h, _) => length h | Stop _ => 0%nat end = 3%nat) as Hl by (vm_compute; reflexivity).
  rewrite E in Hl. destruct h as [|[al u] [|[al1 u1] [|[al' u'] h]]]; try discriminate Hl.
  destruct (Hin al u) as (γ & _ & Hγ & _); [left|].
  destruct (Hin al' u') as (γ' & _ & Hγ' & _); [right; right; left|].
  exists Γ, B, ((al, u) :: (al1, u1) :: (al', u') :: h), s', al, u, al', u', γ, γ'.
  exact (conj Hi (conj E (conj Hl (conj eq_refl (conj eq_refl (Hap 0%nat 2%nat al u γ al' u' γ' ltac:(discriminate) eq_refl eq_refl Hγ Hγ')))))).
Defined.

Lemma slab_obj_alloc_correct_witness : exists Γ B, kinv demo_saa demo_ranges Γ B demo_state /\
  ((exists o Γ' B' s', slab_obj_alloc demo_saa demo_state = Ret (Some (o + sizeof_ptr), s') /\
      granted demo_saa demo_ranges Γ Γ' B B' demo_state s' demo_saa o) \/
   (exists Γ' B' s', slab_obj_alloc demo_saa demo_state = Ret (None, s') /\ exhausted Γ demo_saa /\
      no_pages Γ demo_saa demo_state /\ reclaimed demo_saa demo_ranges [] Γ Γ' B B' demo_state s' /\ Forall busy Γ')).
Proof.
  destruct demo_slab_pages_ok as (Γ & B & Hi & _ & Hs). exists Γ, B. split; [exact Hi|].
  exact (slab_obj_alloc_correct demo_saa demo_ranges Γ B demo_state demo_saa Hi Hs).
Defined.

Lemma alloc_free_roundtrip_witness : exists u s' sp s1, slab_obj_alloc demo_saa demo_state = Ret (Some u, s') /\
  find_room 2 demo_saa demo_state = Ret (sp, s1) /\ slab_obj_free demo_saa u s' = Ret (tt, s1).
Proof.
  destruct demo_slab_pages_ok as (Γ & B & Hi & _ & Hs).
  assert (returns_some (slab_obj_alloc demo_saa demo_state) = true) as Hs' by (vm_compute; reflexivity).
  destruct (slab_obj_alloc demo_saa demo_state) as [[[u|] s']|f] eqn:E; [|discriminate Hs'..].
  destruct (alloc_free_roundtrip demo_saa demo_ranges Γ B demo_state demo_saa u s' Hi Hs E) as (sp & s1 & E1 & E2 & _).
  exists u, s', sp, s1. exact (conj eq_refl (conj E1 E2)).
Defined.

Lemma slab_reclaim_correct_witness : exists Γ B Γ' B' s' n, kinv demo_saa demo_ranges Γ B demo_state /\
  slab_allocators_reclaim 0 demo_state = Ret (n, s') /\ kinv demo_saa demo_ranges Γ' B' s'.
Proof.
  destruct demo_slab_pages_ok as (Γ & B & Hi & _ & _).
  destruct (slab_reclaim_correct demo_saa demo_ranges Γ B demo_state 0 Hi) as (Γ' & B' & s' & n & E & Hi' & _).
  exists Γ, B, Γ', B', s', n. exact (conj Hi (conj E Hi')).
Defined.

Lemma slab_allocator_create_correct_witness : exists Γ B, kinv demo_saa demo_ranges Γ B demo_state /\
  ((exists p Γ' B' s', slab_allocator_create demo_saa 100 demo_state = Ret (p, s') /\ p <> 0 /\
      kinv demo_saa demo_ranges (GA p (geo_for 100) [] :: Γ') B' s') \/
   (exists s', slab_allocator_create demo_saa 100 demo_state = Ret (0, s'))).
Proof.
  destruct demo_slab_pages_ok as (Γ & B & Hi & _ & Hs). exists Γ, B. split; [exact Hi|].
  destruct (slab_allocator_create_correct demo_saa demo_ranges Γ B demo_state 100 Hi Hs)
    as [(p & Γ' & B' & s' & E & Hp & Hi' & _)|(s' & E & _)]; [lia| |].
  - left. exists p, Γ', B', s'. exact (conj E (conj Hp Hi')).
  - right. exists s'. exact E.
Defined.

Lemma kmalloc_correct_witness : exists Γ B i al γ, kinv demo_saa demo_ranges Γ B demo_state /\
  bucket_for 104 i /\ kmalloc_allocators demo_state !! i = Some al /\ (al, γ) ∈ geos Γ.
Proof.
  destruct demo_slab_pages_ok as (Γ & B & Hi & Hb & _).
  destruct (kmalloc_correct demo_saa demo_ranges Γ B demo_state 100 Hi Hb ltac:(lia)) as (i & al & γ & H1 & H2 & H3 & _).
  exists Γ, B, i, al, γ. exact (conj Hi (conj H1 (conj H2 H3))).
Defined.

(** Memory from [kmalloc (100)]. *)
Lemma demo_kmalloc : exists Γ B s al o, kmalloc 100 demo_state = Ret (Some (o + 2 * sizeof_ptr), s) /\
  kinv demo_saa demo_ranges Γ B s /\ obj_live Γ al o /\ al <> demo_saa /\ m_hdr s !! (o + sizeof_ptr) = Some al /\
  m_alloc s !! POISON_FREE_WORD = None.
Proof.
  destruct demo_slab_pages_ok as (Γ & B & Hi & Hb & _).
  destruct (kmalloc_ok demo_saa demo_ranges Γ B demo_state 100 Hi Hb ltac:(lia))
    as (i & al & γ & Hbk & Hal & _ & [(u & Γ' & B' & s1 & E & Hg & _ & Hi' & _)|(s' & E & _)]).
  2: { assert (returns_some (kmalloc 100 demo_state) = true) as Hs by (vm_compute; reflexivity).
       rewrite E in Hs. discriminate Hs. }
  exists Γ', B', (set_hdr (u - sizeof_ptr) al s1), al, (u - 2 * sizeof_ptr).
  replace (u - 2 * sizeof_ptr + 2 * sizeof_ptr) with u by lia.
  replace (u - 2 * sizeof_ptr + sizeof_ptr) with (u - sizeof_ptr) by lia. split; [exact E|]. split; [exact Hi'|].
  split; [|split; [|split]].
  - apply (gr_live _ _ _ _ _ _ _ _ _ _ Hg). right. split; reflexivity.
  - destruct (Hb i (proj1 Hbk)) as (al' & γ' & Hal' & _ & _ & Hne).
    rewrite Hal in Hal'. injection Hal' as ->. exact Hne.
  - cbn [m_hdr set_hdr]. apply lookup_insert_eq.
  - assert (m_alloc (match kmalloc 100 demo_state with Ret (_, s) => s | Stop _ => demo_state end) !! POISON_FREE_WORD = None) as Ha
      by (vm_compute; reflexivity).
    revert Ha. rewrite E. exact (fun Ha => Ha).
Qed.

Lemma slab_obj_free_correct_witness : exists Γ B s al o Γ' s', kinv demo_saa demo_ranges Γ B s /\ obj_live Γ al o /\
  slab_obj_free al (o + sizeof_ptr) s = Ret (tt, s') /\ returned demo_saa demo_ranges Γ Γ' B s s' al o.
Proof.
  destruct demo_kmalloc as (Γ & B & s & al & o & _ & Hi & Hl & Hne & _ & _).
  destruct (proj1 (slab_obj_free_correct demo_saa demo_ranges Γ B s al o Hi) Hl) as (Γ' & s' & E & Hr); [contradiction|].
  exists Γ, B, s, al, o, Γ', s'. exact (conj Hi (conj Hl (conj E Hr))).
Defined.

Lemma kfree_correct_witness : exists Γ B s al o Γ' s', kinv demo_saa demo_ranges Γ B s /\ obj_live Γ al o /\
  kfree (o + 2 * sizeof_ptr) s = Ret (tt, s') /\ kinv demo_saa demo_ranges Γ' B s' /\
  kfree (o + 2 * sizeof_ptr) s' = Stop Undef.
Proof.
  destruct demo_kmalloc as (Γ & B & s & al & o & _ & Hi & Hl & Hne & Hh & Hp).
  destruct (kfree_correct demo_saa demo_ranges Γ B s al o Hi Hl Hne Hh Hp) as (Γ' & s' & E & Hi' & _ & _ & _ & E').
  exists Γ, B, s, al, o, Γ', s'. exact (conj Hi (conj Hl (conj E (conj Hi' E')))).
Defined.

Lemma kmalloc_large_witness : kmalloc 4294967295 demo_state = kmalloc 0 demo_state.
Proof. exact (kmalloc_large demo_state 4294967295 ltac:(unfold two32; lia)). Defined.

Lemma slab_init_correct_witness :
  (exists Γ B' s', slab_init demo_saa (boot demo_pages) = Ret (tt, s') /\ kinv demo_saa demo_ranges Γ B' s' /\
     buckets demo_saa Γ s' /\ ∅ ⊆ B') \/
  (pa_alloc_n 1 demo_pages = Ret (None, demo_pages) /\ slab_init demo_saa (boot demo_pages) = Stop Assert).
Proof. exact (slab_init_correct demo_saa demo_ranges ∅ demo_pages demo_owns ltac:(discriminate) demo_saa_out). Defined.
