(* ===== verification/Ramfs.v ===== *)
(** * In-memory vnodes and the ram file system (fs/vnode.c, fs/ramfs/ramfs.c)

    The state is the inode table of one mounted ram file system and the vnodes
    of it that are in memory; a vnode is named by its inode number, as one file
    system is mounted ([MOUNTING] is off).  The invariant counts links: the
    link count of an inode is the number of directory entries that name it,
    plus one while its vnode is in memory, plus one for the root; so an inode
    lives exactly as long as it can be reached. *)

From S2P Require Import Prelude.

(** Names and paths are C strings: lists of bytes without the final NUL. *)
Abbreviation str := (list Z) (only parsing).
Abbreviation ino := Z (only parsing).

Definition NAME_LEN : Z := 28.
Definition RAMFS_MAX_FILES : Z := 64.
Definition SIZEOF_DIRENT : Z := 32.
Definition RAMFS_MAX_DIRENT : Z := PAGE_SIZE / SIZEOF_DIRENT.
Definition DOT : str := [46].
Definition DOTDOT : str := [46; 46].

Definition S_IFCHR : Z := 256.
Definition S_IFDIR : Z := 512.
Definition S_IFBLK : Z := 1024.
Definition S_IFREG : Z := 2048.
Definition S_TYPE (m : Z) : Z := Z.land m 65280.
Definition S_ISCHR (m : Z) : bool := S_TYPE m =? S_IFCHR.
Definition S_ISDIR (m : Z) : bool := S_TYPE m =? S_IFDIR.
Definition S_ISBLK (m : Z) : bool := S_TYPE m =? S_IFBLK.
Definition S_ISREG (m : Z) : bool := S_TYPE m =? S_IFREG.

(** ** State *)

Record dirent : Type := MkDent {
  rd_ino : ino;
  rd_name : str      (* [] when the slot is free *)
}.

Inductive rtype : Type :=
| RAMFS_TYPE_DATA
| RAMFS_TYPE_DIR
| RAMFS_TYPE_CHR
| RAMFS_TYPE_BLK.

#[export] Instance rtype_eq_dec : EqDecision rtype.
Proof. solve_decision. Defined.

(** What [rf_mem] points to: a page of bytes, a page of entries, or it is the
    device number itself. *)
Inductive rmem : Type :=
| RBytes (bytes : list Z)
| REntries (ents : list dirent)
| RDevid (devid : Z).

Record inode : Type := MkInode {
  rf_size : Z;
  rf_ino : ino;
  rf_mem : rmem;
  rf_mode : rtype;
  rf_linkcount : Z
}.

Record vnode : Type := MkVnode {
  vn_refcount : Z;
  vn_nrespages : Z;
  vn_mode : Z;
  vn_len : Z;
  vn_devid : Z;
  vn_busy : bool
}.

Record ramfs : Type := MkRamfs {
  rfs_inodes : gmap ino inode;
  vnode_inuse : gmap ino vnode;
  kmem : nat;        (* inode structures [kmalloc] can still provide *)
  pmem : nat         (* pages [page_alloc] can still provide *)
}.

Definition fs_root : ino := 0.

Definition set_inodes (f : gmap ino inode -> gmap ino inode) (s : ramfs) : ramfs :=
  MkRamfs (f (rfs_inodes s)) (vnode_inuse s) (kmem s) (pmem s).
Definition set_vnodes (f : gmap ino vnode -> gmap ino vnode) (s : ramfs) : ramfs :=
  MkRamfs (rfs_inodes s) (f (vnode_inuse s)) (kmem s) (pmem s).
Definition set_mem (k p : nat) (s : ramfs) : ramfs :=
  MkRamfs (rfs_inodes s) (vnode_inuse s) k p.

Definition with_size (z : Z) (x : inode) : inode := MkInode z (rf_ino x) (rf_mem x) (rf_mode x) (rf_linkcount x).
Definition with_mem (m : rmem) (x : inode) : inode := MkInode (rf_size x) (rf_ino x) m (rf_mode x) (rf_linkcount x).
Definition with_links (z : Z) (x : inode) : inode := MkInode (rf_size x) (rf_ino x) (rf_mem x) (rf_mode x) z.
Definition with_ref (z : Z) (v : vnode) : vnode :=
  MkVnode z (vn_nrespages v) (vn_mode v) (vn_len v) (vn_devid v) (vn_busy v).
Definition with_len (z : Z) (v : vnode) : vnode :=
  MkVnode (vn_refcount v) (vn_nrespages v) (vn_mode v) z (vn_devid v) (vn_busy v).
Definition with_busy (b : bool) (v : vnode) : vnode :=
  MkVnode (vn_refcount v) (vn_nrespages v) (vn_mode v) (vn_len v) (vn_devid v) b.

Definition vn_get (n : ino) : M ramfs vnode := let! x := gets (fun s => vnode_inuse s !! n) in deref x.
Definition vn_set (n : ino) (f : vnode -> vnode) : M ramfs unit := modify (set_vnodes (alter f n)).
(** [VNODE_TO_RAMFSINODE]: the vnode must be in memory. *)
Definition in_get (n : ino) : M ramfs inode :=
  vn_get n ;;; let! x := gets (fun s => rfs_inodes s !! n) in deref x.
Definition in_set (n : ino) (f : inode -> inode) : M ramfs unit := modify (set_inodes (alter f n)).

(** ** Inodes *)

Definition zero_bytes : list Z := replicate 4096 0.
Definition zero_entries : list dirent := replicate 128 (MkDent 0 []).

Fixpoint first_free (t : gmap ino inode) (slots : list Z) : option ino :=
  match slots with
  | [] => None
  | i :: slots' => match t !! i with None => Some i | Some _ => first_free t slots' end
  end.

Definition ramfs_alloc_inode (type : rtype) (devid : Z) : M ramfs Z :=
  let! t := gets rfs_inodes in
  match first_free t (seqZ 0 RAMFS_MAX_FILES) with
  | None => ret (- ENOSPC)
  | Some i =>
      let! k := gets kmem in
      let! p := gets pmem in
      let install (m : rmem) : M ramfs Z :=
        modify (set_inodes (insert i (MkInode 0 i m type 1))) ;;; ret i in
      match k with
      | O => ret (- ENOSPC)
      | S k' =>
          match type with
          | RAMFS_TYPE_CHR | RAMFS_TYPE_BLK => modify (set_mem k' p) ;;; install (RDevid devid)
          | _ =>
              match p with
              | O => ret (- ENOSPC)      (* the inode is given back *)
              | S p' =>
                  modify (set_mem k' p') ;;;
                  install (if decide (type = RAMFS_TYPE_DIR) then REntries zero_entries else RBytes zero_bytes)
              end
          end
      end
  end.

(** [rfs->rfs_inodes[i]]: an index beyond the table is undefined. *)
Definition table_get (i : Z) : M ramfs (option inode) :=
  if (0 <=? i) && (i <? RAMFS_MAX_FILES) then gets (fun s => rfs_inodes s !! i) else stop Undef.

Definition devid_of (m : rmem) : Z := match m with RDevid d => d | _ => 0 end.

Definition mode_of (x : inode) : Z :=
  match rf_mode x with
  | RAMFS_TYPE_DATA => S_IFREG
  | RAMFS_TYPE_DIR => S_IFDIR
  | RAMFS_TYPE_CHR => S_IFCHR
  | RAMFS_TYPE_BLK => S_IFBLK
  end.

Definition ramfs_read_vnode (vno : ino) : M ramfs unit :=
  let! o := table_get vno in
  KASSERT (match o with Some x => rf_ino x =? vno | None => false end) ;;;
  let! x := deref o in
  in_set vno (with_links (rf_linkcount x + 1)) ;;;
  vn_set vno (fun v => MkVnode (vn_refcount v) (vn_nrespages v) (mode_of x) (rf_size x)
                         (match rf_mode x with
                          | RAMFS_TYPE_CHR | RAMFS_TYPE_BLK => devid_of (rf_mem x)
                          | _ => vn_devid v
                          end) (vn_busy v)).

Definition ramfs_delete_vnode (vno : ino) : M ramfs unit :=
  let! x := in_get vno in
  let links := rf_linkcount x - 1 in
  in_set vno (with_links links) ;;;
  if links =? 0 then
    modify (set_inodes (delete vno)) ;;;
    match rf_mode x with
    | RAMFS_TYPE_DATA | RAMFS_TYPE_DIR => modify (fun s => set_mem (S (kmem s)) (S (pmem s)) s)
    | _ => modify (fun s => set_mem (S (kmem s)) (pmem s) s)
    end
  else ret tt.

Definition ramfs_query_vnode (vno : ino) : M ramfs bool :=
  let! x := in_get vno in ret (1 <? rf_linkcount x).

(** ** Vnodes *)

Definition vref (vno : ino) : M ramfs unit :=
  let! v := vn_get vno in
  KASSERT (0 <? vn_refcount v) ;;;
  vn_set vno (with_ref (vn_refcount v + 1)).

(** A vnode found busy makes the caller sleep.  The structure for a new vnode
    is taken to be available: otherwise the caller yields and tries again. *)
Definition vget (vno : ino) : M ramfs ino :=
  let! o := gets (fun s => vnode_inuse s !! vno) in
  match o with
  | Some v => if vn_busy v then stop Diverge else vref vno ;;; ret vno
  | None =>
      modify (set_vnodes (insert vno (MkVnode 0 0 0 0 0 true))) ;;;
      ramfs_read_vnode vno ;;;
      vn_set vno (with_busy false) ;;;
      vn_set vno (with_ref 1) ;;;
      ret vno
  end.

(** The vnodes of the ram file system have no [fillpage] and no [mmap], so no
    page of them is ever resident and the loop over [mmo_respages] has nothing
    to do. *)
Definition vput (vno : ino) : M ramfs unit :=
  let! v := vn_get vno in
  KASSERT (0 <=? vn_nrespages v) ;;;
  KASSERT (vn_nrespages v <? vn_refcount v) ;;;
  KASSERT (negb (vn_busy v)) ;;;
  (if vn_nrespages v =? vn_refcount v - 1 then
     let! q := ramfs_query_vnode vno in
     if q then ret tt
     else KASSERT (vn_nrespages v =? 0) ;;; KASSERT (vn_refcount v =? 1)
   else ret tt) ;;;
  vn_set vno (with_ref (vn_refcount v - 1)) ;;;
  if 0 <? vn_refcount v - 1 then ret tt
  else
    KASSERT (vn_refcount v - 1 =? 0) ;;;
    KASSERT (vn_nrespages v =? 0) ;;;
    vn_set vno (with_busy true) ;;;
    ramfs_delete_vnode vno ;;;
    modify (set_vnodes (delete vno)).

(** ** Directories *)

Definition name_match (fname name : str) : bool := bool_decide (fname = name).

(** [VNODE_TO_DIRENT]: reading a page of something else is undefined. *)
Definition entries_of (x : inode) : option (list dirent) :=
  match rf_mem x with REntries l => Some l | _ => None end.
Definition dir_get (dir : ino) : M ramfs (list dirent) := let! x := in_get dir in deref (entries_of x).

Fixpoint find_slot (P : dirent -> bool) (l : list dirent) : option nat :=
  match l with
  | [] => None
  | e :: l' => if P e then Some O else S <$> find_slot P l'
  end.

Definition free_slot (e : dirent) : bool := bool_decide (rd_name e = []).

Definition ramfs_lookup (dir : ino) (name : str) : M ramfs (Z * option ino) :=
  let! l := dir_get dir in
  match find_slot (fun e => name_match (rd_name e) name) l with
  | Some i =>
      let! e := deref (l !! i) in
      let! vn := vget (rd_ino e) in
      ret (0, Some vn)
  | None => ret (- ENOENT, None)
  end.

(** The name an entry keeps: at most 27 bytes. *)
Definition stored_name (name : str) : str := take (Z.to_nat (NAME_LEN - 1)) name.

Definition put_entry (i : nat) (e : dirent) (x : inode) : inode :=
  match rf_mem x with REntries l => with_mem (REntries (<[i := e]> l)) x | _ => x end.
Definition set_entry (dir : ino) (i : nat) (e : dirent) : M ramfs unit := in_set dir (put_entry i e).
Definition add_size (dir : ino) (d : Z) : M ramfs unit := in_set dir (fun x => with_size (rf_size x + d) x).

(** The common beginning of the operations that add an entry: the name must be
    new and a slot free. *)
Definition new_slot (dir : ino) (name : str) : M ramfs (option nat) :=
  let! r := ramfs_lookup dir name in
  KASSERT (negb (fst r =? 0)) ;;;
  let! l := dir_get dir in
  ret (find_slot free_slot l).

Definition ramfs_create (dir : ino) (name : str) : M ramfs (Z * option ino) :=
  let! o := new_slot dir name in
  match o with
  | None => ret (- ENOSPC, None)
  | Some i =>
      let! n := ramfs_alloc_inode RAMFS_TYPE_DATA 0 in
      if n <? 0 then ret (n, None)
      else
        let! vn := vget n in
        set_entry dir i (MkDent vn (stored_name name)) ;;;
        add_size dir SIZEOF_DIRENT ;;;
        ret (0, Some vn)
  end.

(** The inode is allocated and entered in the directory. *)
Definition mknod_as (dir : ino) (name : str) (devid : Z) (i : nat) (type : rtype) : M ramfs Z :=
  let! n := ramfs_alloc_inode type devid in
  if n <? 0 then ret n
  else set_entry dir i (MkDent n (stored_name name)) ;;; add_size dir SIZEOF_DIRENT ;;; ret 0.

Definition ramfs_mknod (dir : ino) (name : str) (mode devid : Z) : M ramfs Z :=
  let! o := new_slot dir name in
  match o with
  | None => ret (- ENOSPC)
  | Some i =>
      if S_ISCHR mode then mknod_as dir name devid i RAMFS_TYPE_CHR
      else if S_ISBLK mode then mknod_as dir name devid i RAMFS_TYPE_BLK
      else stop Assert
  end.

Definition ramfs_link (oldvnode dir : ino) (name : str) : M ramfs Z :=
  let! o := new_slot dir name in
  match o with
  | None => ret (- ENOSPC)
  | Some i =>
      set_entry dir i (MkDent oldvnode (stored_name name)) ;;;
      add_size dir SIZEOF_DIRENT ;;;
      let! x := in_get oldvnode in
      in_set oldvnode (with_links (rf_linkcount x + 1)) ;;;
      ret 0
  end.

(** Clear the first entry with the name. *)
Definition clear_entry (dir : ino) (name : str) : M ramfs unit :=
  let! l := dir_get dir in
  match find_slot (fun e => name_match (rd_name e) name) l with
  | Some i =>
      let! e := deref (l !! i) in
      set_entry dir i (MkDent (rd_ino e) [])
  | None => ret tt
  end.

(** [VNODE_TO_RAMFSINODE(vn)->rf_linkcount--] *)
Definition drop_link (vn : ino) : M ramfs unit :=
  let! x := in_get vn in in_set vn (with_links (rf_linkcount x - 1)).

Definition ramfs_unlink (dir : ino) (name : str) : M ramfs Z :=
  let! r := ramfs_lookup dir name in
  KASSERT (fst r =? 0) ;;;
  let! vn := deref (snd r) in
  let! v := vn_get vn in
  KASSERT (negb (S_ISDIR (vn_mode v))) ;;;
  clear_entry dir name ;;;
  add_size dir (- SIZEOF_DIRENT) ;;;
  drop_link vn ;;;
  vput vn ;;;
  ret 0.

Definition ramfs_mkdir (dir : ino) (name : str) : M ramfs Z :=
  let! o := new_slot dir name in
  match o with
  | None => ret (- ENOSPC)
  | Some i =>
      let! n := ramfs_alloc_inode RAMFS_TYPE_DIR 0 in
      if n <? 0 then ret n
      else
        set_entry dir i (MkDent n (stored_name name)) ;;;
        add_size dir SIZEOF_DIRENT ;;;
        set_entry n 0 (MkDent n DOT) ;;;
        set_entry n 1 (MkDent dir DOTDOT) ;;;
        in_set n (with_size (2 * SIZEOF_DIRENT)) ;;;
        ret 0
  end.

(** No entry but "." and "..". *)
Definition empty_dir (l : list dirent) : bool :=
  forallb (fun e => bool_decide (rd_name e = DOT) || bool_decide (rd_name e = DOTDOT) || free_slot e) l.

Definition ramfs_rmdir (dir : ino) (name : str) : M ramfs Z :=
  KASSERT (negb (name_match DOT name) && negb (name_match DOTDOT name)) ;;;
  let! r := ramfs_lookup dir name in
  if negb (fst r =? 0) then ret (fst r)
  else
    let! vn := deref (snd r) in
    let! v := vn_get vn in
    if negb (S_ISDIR (vn_mode v)) then vput vn ;;; ret (- ENOTDIR)
    else
      let! l := dir_get vn in
      if negb (empty_dir l) then vput vn ;;; ret (- ENOTEMPTY)
      else
        clear_entry dir name ;;;
        add_size dir (- SIZEOF_DIRENT) ;;;
        drop_link vn ;;;
        vput vn ;;;
        ret 0.

(** ** Files *)

Definition bytes_of (x : inode) : option (list Z) := match rf_mem x with RBytes l => Some l | _ => None end.

(** The value returned and the bytes copied to [buf]; a [memcpy] that leaves
    the page is undefined. *)
Definition ramfs_read (file : ino) (offset count : Z) : M ramfs (Z * list Z) :=
  let! x := in_get file in
  let! v := vn_get file in
  KASSERT (negb (S_ISDIR (vn_mode v))) ;;;
  let r := Z.max 0 (Z.min (s32 count) (rf_size x - offset)) in
  let! l := deref (bytes_of x) in
  if (r =? 0) || ((0 <=? offset) && (offset + r <=? PAGE_SIZE))
  then ret (r, take (Z.to_nat r) (drop (Z.to_nat offset) l))
  else stop Undef.

(** [count] bytes starting at [buf]; the first of them are written. *)
Definition ramfs_write (file : ino) (offset : Z) (buf : list Z) (count : Z) : M ramfs Z :=
  let! x := in_get file in
  let! v := vn_get file in
  KASSERT (negb (S_ISDIR (vn_mode v))) ;;;
  let r := Z.min (s32 count) (PAGE_SIZE - offset) in
  let! l := deref (bytes_of x) in
  if (0 <=? r) && (0 <=? offset) then
    in_set file (with_mem (RBytes (take (Z.to_nat offset) l ++ take (Z.to_nat r) buf
                                   ++ drop (Z.to_nat (offset + r)) l))) ;;;
    KASSERT (vn_len v =? rf_size x) ;;;
    let len := Z.max (vn_len v) (offset + r) in
    vn_set file (with_len len) ;;;
    in_set file (with_size len) ;;;
    ret r
  else stop Undef.

(** The amount the offset grows and the entry read, if any. *)
Definition ramfs_readdir (dir : ino) (offset : Z) : M ramfs (Z * option (ino * str)) :=
  let! v := vn_get dir in
  KASSERT (S_ISDIR (vn_mode v)) ;;;
  KASSERT (u32 offset mod SIZEOF_DIRENT =? 0) ;;;
  let! l := dir_get dir in
  let i := Z.to_nat (offset / SIZEOF_DIRENT) in
  if offset <? 0 then stop Undef
  else
    match find_slot (fun e => negb (free_slot e)) (drop i l) with
    | None => ret (0, None)
    | Some k =>
        let! e := deref (l !! (i + k)%nat) in
        ret (SIZEOF_DIRENT + Z.of_nat k * SIZEOF_DIRENT, Some (rd_ino e, stored_name (rd_name e)))
    end.

Record stat : Type := MkStat {
  st_mode : Z; st_ino : Z; st_rdev : Z; st_nlink : Z; st_size : Z; st_blksize : Z; st_blocks : Z
}.

Definition ramfs_stat (file : ino) : M ramfs (Z * stat) :=
  let! x := in_get file in
  let! v := vn_get file in
  ret (0, MkStat (vn_mode v) file
            (if (vn_mode v =? S_IFCHR) || (vn_mode v =? S_IFBLK) then devid_of (rf_mem x) else 0)
            (rf_linkcount x - 1) (rf_size x) PAGE_SIZE 1).

(** ** Mounting *)

(** [kmalloc] of the table itself is taken to succeed. *)
Definition ramfs_mount : M ramfs Z :=
  modify (set_inodes (fun _ => ∅)) ;;;
  let! root_ino := ramfs_alloc_inode RAMFS_TYPE_DIR 0 in
  if root_ino <? 0 then ret root_ino
  else
    KASSERT (root_ino =? 0) ;;;
    set_entry root_ino 0 (MkDent 0 DOT) ;;;
    set_entry root_ino 1 (MkDent 0 DOTDOT) ;;;
    in_set root_ino (with_size (2 * SIZEOF_DIRENT)) ;;;
    vget 0 ;;;
    ret 0.

Definition freed_pages (x : inode) : nat :=
  match rf_mode x with RAMFS_TYPE_DATA | RAMFS_TYPE_DIR => 1 | _ => 0 end.

(** The table keeps its pointers to the freed inodes. *)
Definition ramfs_umount : M ramfs Z :=
  vput fs_root ;;;
  modify (fun s => set_mem (kmem s + size (rfs_inodes s))
                     (pmem s + sum_list (freed_pages <$> (map_to_list (rfs_inodes s)).*2)) s) ;;;
  ret 0.

(** ** The invariant *)

(** An entry that counts as a link: "." and ".." do not. *)
Definition good_name (n : str) : Prop := n <> [] /\ n <> DOT /\ n <> DOTDOT.
#[export] Instance good_name_dec n : Decision (good_name n) := _.

Abbreviation linkmap := (gmap (ino * nat) ino) (only parsing).

(** Number of links to an inode. *)
Definition nlinks (L : linkmap) (n : ino) : Z := Z.of_nat (size (filter (fun kv => kv.2 = n) L)).

Definition entry_at (s : ramfs) (d : ino) (i : nat) (e : dirent) : Prop :=
  exists x l, rfs_inodes s !! d = Some x /\ rf_mem x = REntries l /\ l !! i = Some e.

Definition one_if (P : Prop) `{Decision P} : Z := if decide P then 1 else 0.

(** The memory of an inode fits its type. *)
Definition typed (x : inode) : Prop :=
  match rf_mode x with
  | RAMFS_TYPE_DATA => exists l, rf_mem x = RBytes l /\ length l = 4096%nat /\ 0 <= rf_size x <= PAGE_SIZE
  | RAMFS_TYPE_DIR => exists l, rf_mem x = REntries l /\ length l = 128%nat /\
      (forall i j e f, l !! i = Some e -> l !! j = Some f -> rd_name e = rd_name f -> rd_name e <> [] -> i = j)
  | _ => exists d, rf_mem x = RDevid d
  end.

Record inode_ok (p : option ino) (L : linkmap) (s : ramfs) (n : ino) (x : inode) : Prop := {
  ik_num : 0 <= n < RAMFS_MAX_FILES /\ rf_ino x = n;
  ik_typed : typed x;
  ik_count : rf_linkcount x = nlinks L n + one_if (n = fs_root) + one_if (is_Some (vnode_inuse s !! n)) + one_if (p = Some n);
  ik_pos : 1 <= rf_linkcount x
}.

Record vnode_ok (s : ramfs) (n : ino) (v : vnode) : Prop := {
  vk_refs : 1 <= vn_refcount v;
  vk_res : vn_nrespages v = 0;
  vk_busy : vn_busy v = false;
  vk_inode : exists x, rfs_inodes s !! n = Some x /\ vn_mode v = mode_of x /\
      (rf_mode x = RAMFS_TYPE_DATA -> vn_len v = rf_size x)
}.

(** [L] is the map of links of the file system; the inode in [p], if any, has
    been given one link more than it has entries. *)
Record finv (p : option ino) (L : linkmap) (s : ramfs) : Prop := {
  fi_inodes : forall n x, rfs_inodes s !! n = Some x -> inode_ok p L s n x;
  fi_vnodes : forall n v, vnode_inuse s !! n = Some v -> vnode_ok s n v;
  fi_links : forall d i n, L !! (d, i) = Some n <-> exists e, entry_at s d i e /\ good_name (rd_name e) /\ rd_ino e = n;
  fi_target : forall d i n, L !! (d, i) = Some n -> is_Some (rfs_inodes s !! n);
  fi_orphan : forall n, n <> fs_root -> nlinks L n = 0 -> forall i, L !! (n, i) = None;
  fi_root : exists x, rfs_inodes s !! fs_root = Some x /\ rf_mode x = RAMFS_TYPE_DIR /\ is_Some (vnode_inuse s !! fs_root);
  fi_noroot : nlinks L fs_root = 0 /\ p <> Some fs_root
}.

(** References to a vnode. *)
Definition refs (s : ramfs) (n : ino) : Z := match vnode_inuse s !! n with Some v => vn_refcount v | None => 0 end.

Lemma refs_inuse r n : 0 < refs r n -> is_Some (vnode_inuse r !! n).
Proof. unfold refs. destruct (vnode_inuse r !! n); [eauto|lia]. Qed.

Lemma one_if_true (P : Prop) `{Decision P} : P -> one_if P = 1.
Proof. intros HP. unfold one_if. by rewrite decide_True. Qed.

Lemma one_if_false (P : Prop) `{Decision P} : ~ P -> one_if P = 0.
Proof. intros HP. unfold one_if. by rewrite decide_False. Qed.

Lemma one_if_ext (P Q : Prop) `{Decision P} `{Decision Q} : (P <-> Q) -> one_if P = one_if Q.
Proof. intros HPQ. unfold one_if. by apply decide_ext. Qed.

Lemma one_if_some {A} (a : A) : one_if (is_Some (Some a)) = 1.
Proof. apply one_if_true. eauto. Qed.

Lemma one_if_none {A} : one_if (is_Some (@None A)) = 0.
Proof. apply one_if_false. by intros [? ?]. Qed.

Lemma one_if_bounds (P : Prop) `{Decision P} : 0 <= one_if P <= 1.
Proof. unfold one_if. destruct (decide P); lia. Qed.

Lemma nlinks_insert L k n m :
  L !! k = None -> nlinks (<[k := n]> L) m = nlinks L m + one_if (n = m).
Proof.
  intros Hk. unfold nlinks, one_if. destruct (decide (n = m)) as [->|Hne].
  - rewrite map_filter_insert_True by done. rewrite map_size_insert_None; [lia|].
    apply map_lookup_filter_None. by left.
  - rewrite map_filter_insert_not' by (simpl; congruence). lia.
Qed.

Lemma nlinks_delete L k n m :
  L !! k = Some n -> nlinks (delete k L) m = nlinks L m - one_if (n = m).
Proof.
  intros Hk. pose proof (nlinks_insert (delete k L) k n m (lookup_delete_eq _ _)) as E.
  rewrite insert_delete_id in E by done. lia.
Qed.

Lemma nlinks_pos L k n : L !! k = Some n -> 1 <= nlinks L n.
Proof.
  intros Hk. unfold nlinks. enough (size (filter (fun kv => kv.2 = n) L) <> 0%nat) by lia.
  intros E%map_size_empty_iff. assert (filter (fun kv : (ino * nat) * ino => kv.2 = n) L !! k = Some n) as Hf.
  { apply map_lookup_filter_Some. done. }
  rewrite E, lookup_empty in Hf. done.
Qed.

Lemma nlinks_nonneg L n : 0 <= nlinks L n.
Proof. unfold nlinks. lia. Qed.

Lemma ramfs_ext s s' :
  rfs_inodes s = rfs_inodes s' -> vnode_inuse s = vnode_inuse s' -> kmem s = kmem s' -> pmem s = pmem s' -> s = s'.
Proof. destruct s, s'. simpl. congruence. Qed.

(** Only a directory has a page of entries, all with different names. *)
Lemma entries_dir p L s n x l :
  finv p L s -> rfs_inodes s !! n = Some x -> rf_mem x = REntries l ->
  rf_mode x = RAMFS_TYPE_DIR /\ length l = 128%nat /\
  (forall i j e f, l !! i = Some e -> l !! j = Some f -> rd_name e = rd_name f -> rd_name e <> [] -> i = j).
Proof.
  intros Hinv Ex Em. destruct (fi_inodes _ _ _ Hinv _ _ Ex) as [_ Hty _ _]. unfold typed in Hty. rewrite Em in Hty.
  destruct (rf_mode x); [by destruct Hty as (? & ? & _)| |by destruct Hty as (? & ?)..].
  destruct Hty as (l' & [= <-] & ? & ?). done.
Qed.

(** ** References *)

Definition content (x : inode) : Z * ino * rmem * rtype := (rf_size x, rf_ino x, rf_mem x, rf_mode x).
Arguments content : simpl never.

(** Nothing changed but link counts and vnodes. *)
Definition same_content (s s' : ramfs) : Prop :=
  forall m, content <$> rfs_inodes s' !! m = content <$> rfs_inodes s !! m.

#[export] Instance same_content_preorder : PreOrder same_content.
Proof. split; [by intros s m|]. intros s1 s2 s3 H1 H2 m. by rewrite H2, H1. Qed.

Lemma same_content_lookup s s' m x' :
  same_content s s' -> rfs_inodes s' !! m = Some x' -> exists x, rfs_inodes s !! m = Some x /\ content x' = content x.
Proof. intros Hs E. specialize (Hs m). rewrite E in Hs. destruct (rfs_inodes s !! m) as [x|]; [|done]. apply (inj Some) in Hs. eauto. Qed.

Lemma same_content_some s s' m x :
  same_content s s' -> rfs_inodes s !! m = Some x -> exists x', rfs_inodes s' !! m = Some x' /\ content x' = content x.
Proof. intros Hs E. specialize (Hs m). rewrite E in Hs. destruct (rfs_inodes s' !! m) as [x'|]; [|done]. apply (inj Some) in Hs. eauto. Qed.

Lemma content_mode x x' : content x' = content x -> mode_of x' = mode_of x.
Proof. unfold content, mode_of. intros [= _ _ _ E]. by rewrite E. Qed.

Lemma content_typed x x' : content x' = content x -> typed x -> typed x'.
Proof. unfold content, typed. intros [= E1 _ E2 E3]. by rewrite E1, E2, E3. Qed.

Lemma content_ino x x' : content x' = content x -> rf_ino x' = rf_ino x.
Proof. by intros [= _ E _ _]. Qed.

Lemma entry_at_same s s' d i e : same_content s s' -> entry_at s' d i e <-> entry_at s d i e.
Proof.
  intros Hs. unfold entry_at. split; intros (x & l & E & Em & Ei).
  - destruct (same_content_lookup _ _ _ _ Hs E) as (x0 & E0 & [= _ _ Ec _]). exists x0, l. split_and!; congruence.
  - destruct (same_content_some _ _ _ _ Hs E) as (x0 & E0 & [= _ _ Ec _]). exists x0, l. split_and!; congruence.
Qed.

(** The type of an inode. *)
Definition kind (r : ramfs) (n : ino) : option rtype := rf_mode <$> rfs_inodes r !! n.

Lemma kind_same s s' m : same_content s s' -> kind s' m = kind s m.
Proof.
  intros Hs. specialize (Hs m). unfold kind. destruct (rfs_inodes s !! m), (rfs_inodes s' !! m); try done.
  apply (inj Some) in Hs. injection Hs as _ _ _ Hk. simpl. by rewrite Hk.
Qed.

(** The parts of the invariant that do not depend on counts. *)
Lemma finv_intro p p' L s s' :
  finv p L s -> same_content s s' ->
  (forall n x, rfs_inodes s' !! n = Some x ->
     rf_linkcount x = nlinks L n + one_if (n = fs_root) + one_if (is_Some (vnode_inuse s' !! n)) + one_if (p' = Some n) /\
     1 <= rf_linkcount x) ->
  (forall n v, vnode_inuse s' !! n = Some v -> vnode_ok s' n v) ->
  is_Some (vnode_inuse s' !! fs_root) -> p' <> Some fs_root -> finv p' L s'.
Proof.
  intros [Hi Hv Hl Ht Ho Hr Hnr] Hs Hc Hv' Hroot Hp'. split.
  - intros n x E. destruct (same_content_lookup _ _ _ _ Hs E) as (x0 & E0 & Ec). destruct (Hi _ _ E0) as [Hn Hty _ _].
    destruct (Hc _ _ E). split; [|by apply (content_typed x0)|done|done]. rewrite (content_ino _ _ Ec). done.
  - done.
  - intros d i n. rewrite Hl. split; intros (e & He & Hg); exists e; (split; [|done]); by apply (entry_at_same s s').
  - intros d i n E. destruct (Ht _ _ _ E) as [x Ex]. destruct (same_content_some _ _ _ _ Hs Ex) as (x' & Ex' & _). eauto.
  - done.
  - destruct Hr as (x & Ex & Em & _). destruct (same_content_some _ _ _ _ Hs Ex) as (x' & Ex' & [= _ _ _ Ec]).
    exists x'. split_and!; congruence.
  - split; [apply Hnr|done].
Qed.

Definition fresh_vnode (x : inode) : vnode :=
  MkVnode 1 0 (mode_of x) (rf_size x)
    (match rf_mode x with RAMFS_TYPE_CHR | RAMFS_TYPE_BLK => devid_of (rf_mem x) | _ => 0 end) false.

(** A vnode is brought into memory. *)
Definition loaded (n : ino) (x : inode) (s : ramfs) : ramfs :=
  MkRamfs (<[n := with_links (rf_linkcount x + 1) x]> (rfs_inodes s))
    (<[n := fresh_vnode x]> (vnode_inuse s)) (kmem s) (pmem s).

Lemma vget_load n x s :
  vnode_inuse s !! n = None -> rfs_inodes s !! n = Some x -> 0 <= n < RAMFS_MAX_FILES -> rf_ino x = n ->
  vget n s = Ret (n, loaded n x s).
Proof.
  intros Ev Ei Hn Hno. unfold vget. rewrite bind_gets, Ev, bind_modify.
  unfold ramfs_read_vnode, table_get. rewrite (proj2 (andb_true_iff _ _)) by (split; [apply Z.leb_le|apply Z.ltb_lt]; lia).
  rewrite !bind_bind, bind_gets. simpl. rewrite Ei. rewrite bind_bind, bind_assert by (by apply Z.eqb_eq).
  simpl. unfold in_set, vn_set. rewrite bind_bind, bind_ret. rewrite bind_bind, bind_modify.
  rewrite !bind_modify. unfold ret. do 2 f_equal. apply ramfs_ext; simpl; try done.
  - apply map_eq. intros m. destruct (decide (m = n)) as [->|Hne].
    + by rewrite lookup_alter_eq, Ei, lookup_insert_eq.
    + by rewrite lookup_alter_ne, lookup_insert_ne by done.
  - apply map_eq. intros m. destruct (decide (m = n)) as [->|Hne].
    + rewrite !lookup_alter_eq, !lookup_insert_eq. simpl. unfold fresh_vnode. simpl. done.
    + rewrite !lookup_alter_ne, !lookup_insert_ne by done. done.
Qed.

Lemma vget_ref n v s :
  vnode_inuse s !! n = Some v -> vn_busy v = false -> 0 < vn_refcount v ->
  vget n s = Ret (n, set_vnodes (<[n := with_ref (vn_refcount v + 1) v]>) s).
Proof.
  intros Ev Hb Hr. unfold vget, vref, vn_get, vn_set. rewrite bind_gets, Ev, Hb.
  rewrite !bind_bind, bind_gets, Ev. simpl. rewrite bind_ret, bind_bind, bind_assert by (by apply Z.ltb_lt).
  rewrite bind_modify. unfold ret. do 2 f_equal. apply ramfs_ext; simpl; try done.
  apply map_eq. intros m. destruct (decide (m = n)) as [->|Hne].
  - by rewrite lookup_alter_eq, Ev, lookup_insert_eq.
  - by rewrite lookup_alter_ne, lookup_insert_ne by done.
Qed.

Lemma vget_spec p L s n :
  finv p L s -> is_Some (rfs_inodes s !! n) ->
  exists s', vget n s = Ret (n, s') /\ finv p L s' /\ same_content s s' /\ kmem s' = kmem s /\ pmem s' = pmem s /\
    is_Some (vnode_inuse s' !! n) /\ refs s' n = refs s n + 1 /\
    (forall m, m <> n -> vnode_inuse s' !! m = vnode_inuse s !! m).
Proof.
  intros Hinv [x Ex]. destruct (fi_inodes _ _ _ Hinv _ _ Ex) as [[Hn Hno] Hty Hc Hpos].
  destruct (vnode_inuse s !! n) as [v|] eqn:Ev.
  - destruct (fi_vnodes _ _ _ Hinv _ _ Ev) as [Hr Hres Hb Hi].
    set (s' := set_vnodes (<[n := with_ref (vn_refcount v + 1) v]>) s).
    assert (forall m, is_Some (vnode_inuse s' !! m) <-> is_Some (vnode_inuse s !! m)) as Hsome.
    { intros m. unfold s'. simpl. destruct (decide (m = n)) as [->|Hne].
      - rewrite lookup_insert_eq, Ev. split; eauto.
      - by rewrite lookup_insert_ne. }
    exists s'. split_and!; try done.
    + apply vget_ref; [done|done|lia].
    + apply (finv_intro p p L s); [done|done|..].
      * intros m y Ey. destruct (fi_inodes _ _ _ Hinv _ _ Ey) as [_ _ Hcm Hpm]. split; [|done].
        rewrite Hcm. unfold one_if. do 2 f_equal. apply decide_ext. symmetry. apply Hsome.
      * intros m w. unfold s'. simpl. intros [[-> <-]|[Hne Ew]]%lookup_insert_Some.
        -- split; simpl; [lia|done|done|done].
        -- destruct (fi_vnodes _ _ _ Hinv _ _ Ew). by split.
      * apply Hsome. destruct (fi_root _ _ _ Hinv) as (? & _ & _ & ?). done.
      * apply (fi_noroot _ _ _ Hinv).
    + unfold s'. simpl. rewrite lookup_insert_eq. eauto.
    + unfold refs, s'. simpl. rewrite lookup_insert_eq, Ev. done.
    + intros m Hne. unfold s'. simpl. by rewrite lookup_insert_ne.
  - exists (loaded n x s). split_and!; try done.
    + by apply vget_load.
    + apply (finv_intro p p L s); [done|..].
      * intros m. unfold loaded. simpl. destruct (decide (m = n)) as [->|Hne].
        -- by rewrite lookup_insert_eq, Ex.
        -- by rewrite lookup_insert_ne.
      * intros m y. unfold loaded. simpl. intros [[<- <-]|[Hne Ey]]%lookup_insert_Some.
        -- simpl. rewrite lookup_insert_eq, one_if_some. rewrite ?Ev, (one_if_none (A := vnode)) in Hc. lia.
        -- rewrite lookup_insert_ne by done. destruct (fi_inodes _ _ _ Hinv _ _ Ey) as [_ _ Hcm Hpm]. done.
      * intros m w. unfold loaded. simpl. intros [[<- <-]|[Hne Ew]]%lookup_insert_Some.
        -- split; simpl; [lia|done|done|]. eexists. rewrite lookup_insert_eq. split_and!; [done|done|done].
        -- destruct (fi_vnodes _ _ _ Hinv _ _ Ew) as [? ? ? Hi]. split; try done. simpl. by rewrite lookup_insert_ne.
      * unfold loaded. simpl. apply lookup_insert_is_Some. destruct (decide (n = fs_root)); [by left|right].
        split; [done|]. by destruct (fi_root _ _ _ Hinv) as (? & _ & _ & ?).
      * apply (fi_noroot _ _ _ Hinv).
    + intros m. unfold loaded. simpl. destruct (decide (m = n)) as [->|Hne].
      * by rewrite lookup_insert_eq, Ex.
      * by rewrite lookup_insert_ne.
    + unfold loaded. simpl. rewrite lookup_insert_eq. eauto.
    + unfold refs, loaded. simpl. by rewrite lookup_insert_eq, Ev.
    + intros m Hne. unfold loaded. simpl. by rewrite lookup_insert_ne.
Qed.

Lemma in_get_eq n v x s :
  vnode_inuse s !! n = Some v -> rfs_inodes s !! n = Some x -> in_get n s = Ret (x, s).
Proof. intros Ev Ex. unfold in_get, vn_get. rewrite bind_bind, bind_gets, Ev. simpl. by rewrite bind_ret, bind_gets, Ex. Qed.

Lemma vn_get_eq n v s : vnode_inuse s !! n = Some v -> vn_get n s = Ret (v, s).
Proof. intros Ev. unfold vn_get. by rewrite bind_gets, Ev. Qed.

(** A vnode leaves memory, with its inode if it has no links. *)
Definition unloaded (n : ino) (x : inode) (s : ramfs) : ramfs :=
  if rf_linkcount x =? 1
  then MkRamfs (delete n (rfs_inodes s)) (delete n (vnode_inuse s)) (S (kmem s)) (freed_pages x + pmem s)
  else MkRamfs (<[n := with_links (rf_linkcount x - 1) x]> (rfs_inodes s)) (delete n (vnode_inuse s)) (kmem s) (pmem s).

Lemma alter_inserted {A} (f : A -> A) (n : Z) (x : A) (m : gmap Z A) :
  m !! n = Some x -> alter f n m = <[n := f x]> m.
Proof.
  intros E. apply map_eq. intros k. destruct (decide (k = n)) as [->|Hne].
  - by rewrite lookup_alter_eq, E, lookup_insert_eq.
  - by rewrite lookup_alter_ne, lookup_insert_ne.
Qed.

Lemma delete_alter_same {A} (n : Z) (f : A -> A) (m : gmap Z A) : delete n (alter f n m) = delete n m.
Proof.
  apply map_eq. intros k. destruct (decide (k = n)) as [->|Hne].
  - by rewrite !lookup_delete_eq.
  - by rewrite !lookup_delete_ne, lookup_alter_ne by done.
Qed.

Lemma vput_down n v s :
  vnode_inuse s !! n = Some v -> vnode_ok s n v -> 1 < vn_refcount v ->
  vput n s = Ret (tt, set_vnodes (<[n := with_ref (vn_refcount v - 1) v]>) s).
Proof.
  intros Ev [Hr Hres Hb Hi] Hlt. unfold vput. rewrite (bind_eq _ _ _ _ _ (vn_get_eq _ _ _ Ev)).
  rewrite !bind_assert by (rewrite ?Hres, ?Hb; done || (apply Z.ltb_lt; lia)).
  rewrite Hres. rewrite (proj2 (Z.eqb_neq _ _)) by lia. rewrite bind_ret. unfold vn_set. rewrite bind_modify.
  rewrite (proj2 (Z.ltb_lt _ _)) by lia. unfold ret. do 2 f_equal. apply ramfs_ext; simpl; try done.
  by rewrite (alter_inserted _ _ v).
Qed.

Lemma vput_unload n v x s :
  vnode_inuse s !! n = Some v -> vnode_ok s n v -> vn_refcount v = 1 -> rfs_inodes s !! n = Some x ->
  vput n s = Ret (tt, unloaded n x s).
Proof.
  intros Ev [Hr Hres Hb Hi] Hone Ex. unfold vput. rewrite (bind_eq _ _ _ _ _ (vn_get_eq _ _ _ Ev)).
  rewrite !bind_assert by (rewrite ?Hres, ?Hb, ?Hone; done).
  rewrite Hres, Hone. change (0 =? 1 - 1) with true. cbv iota. unfold ramfs_query_vnode. rewrite !bind_bind.
  rewrite (bind_eq _ _ _ _ _ (in_get_eq _ _ _ _ Ev Ex)), bind_ret.
  match goal with |- bind ?m _ s = _ => assert (m s = Ret (tt, s)) as Hm end.
  { destruct (1 <? rf_linkcount x); done. }
  rewrite (bind_eq _ _ _ _ _ Hm). unfold vn_set.
  rewrite bind_modify. change (0 <? 1 - 1) with false. cbv iota. rewrite !bind_assert by done. rewrite bind_modify.
  unfold ramfs_delete_vnode. rewrite !bind_bind.
  set (s1 := set_vnodes (alter (with_busy true) n) _).
  assert (vnode_inuse s1 !! n = Some (with_busy true (with_ref (1 - 1) v))) as Ev1.
  { unfold s1. simpl. by rewrite !lookup_alter_eq, Ev. }
  rewrite (bind_eq _ _ _ _ _ (in_get_eq n _ x s1 Ev1 Ex)).
  unfold in_set. rewrite bind_bind, bind_modify. unfold unloaded.
  replace (rf_linkcount x - 1 =? 0) with (rf_linkcount x =? 1).
  2: { destruct (Z.eqb_spec (rf_linkcount x) 1), (Z.eqb_spec (rf_linkcount x - 1) 0); lia || done. }
  assert (forall f g : vnode -> vnode, delete n (alter f n (alter g n (vnode_inuse s))) = delete n (vnode_inuse s)) as Hdv.
  { intros f g. by rewrite !(delete_alter_same n). }
  destruct (rf_linkcount x =? 1).
  - rewrite bind_bind, bind_modify. unfold freed_pages.
    destruct (rf_mode x); rewrite bind_modify; unfold modify; do 2 f_equal; apply ramfs_ext; simpl; rewrite ?Hdv, ?(delete_alter_same n); done.
  - rewrite bind_ret. unfold modify. do 2 f_equal. apply ramfs_ext; simpl; rewrite ?Hdv; try done.
    by rewrite (alter_inserted _ _ x).
Qed.

(** The inode of a vnode that is given up disappears when nothing links to it
    and this was the last reference. *)
Definition vput_inodes (p : option ino) (L : linkmap) (n : ino) (s s' : ramfs) : Prop :=
  if decide (refs s n = 1 /\ nlinks L n = 0 /\ n <> fs_root /\ p <> Some n)
  then rfs_inodes s' = delete n (rfs_inodes s)
  else same_content s s'.

Lemma finv_delete p L s n x k q :
  finv p L s -> rfs_inodes s !! n = Some x -> nlinks L n = 0 -> n <> fs_root ->
  finv p L (MkRamfs (delete n (rfs_inodes s)) (delete n (vnode_inuse s)) k q).
Proof.
  intros [Hi Hv Hl Ht Ho Hr Hnr] Ex Hnl Hroot. split; simpl.
  - intros m y [Hne Ey]%lookup_delete_Some. destruct (Hi _ _ Ey). split; try done. simpl.
    by rewrite lookup_delete_ne.
  - intros m v [Hne Ev]%lookup_delete_Some. destruct (Hv _ _ Ev). split; try done. simpl. by rewrite lookup_delete_ne.
  - intros d i m. rewrite Hl. unfold entry_at. simpl. split.
    + intros (e & (y & l & Ey & R) & Hg). exists e. split; [|done]. exists y, l. split; [|done].
      rewrite lookup_delete_ne; [done|]. intros ->.
      assert (L !! (d, i) = Some m) as HL by (apply Hl; exists e; split; [by exists y, l|done]).
      by rewrite (Ho d Hroot Hnl i) in HL.
    + intros (e & (y & l & Ey & R) & Hg). exists e. split; [|done]. exists y, l. split; [|done].
      by apply lookup_delete_Some in Ey as [_ ?].
  - intros d i m HL. rewrite lookup_delete_ne; [by apply (Ht d i)|]. intros ->. pose proof (nlinks_pos _ _ _ HL). lia.
  - done.
  - destruct Hr as (y & Ey & Em & Hvr). exists y. rewrite !lookup_delete_ne by done. done.
  - done.
Qed.

Lemma vput_spec p L s n v :
  finv p L s -> vnode_inuse s !! n = Some v -> (n = fs_root -> 1 < refs s n) ->
  exists s', vput n s = Ret (tt, s') /\ finv p L s' /\ vput_inodes p L n s s' /\ refs s' n = refs s n - 1 /\
    (forall m, m <> n -> vnode_inuse s' !! m = vnode_inuse s !! m).
Proof.
  intros Hinv Ev Hroot. pose proof (fi_vnodes _ _ _ Hinv _ _ Ev) as Hvk. pose proof Hvk as [Hr Hres Hb (x & Ex & Hm & Hlen)].
  assert (refs s n = vn_refcount v) as Eref by (unfold refs; by rewrite Ev).
  destruct (fi_inodes _ _ _ Hinv _ _ Ex) as [Hn Hty Hc Hpos].
  pose proof (nlinks_nonneg L n). pose proof (one_if_bounds (n = fs_root)). pose proof (one_if_bounds (p = Some n)).
  rewrite Ev, one_if_some in Hc. unfold vput_inodes.
  destruct (decide (vn_refcount v = 1)) as [Hone|Hmore].
  - assert (n <> fs_root) as Hnr by (intros ->; specialize (Hroot eq_refl); lia).
    rewrite (one_if_false (n = fs_root)) in Hc by done.
    exists (unloaded n x s). split; [by apply (vput_unload n v)|].
    assert (refs (unloaded n x s) n = refs s n - 1) as Er.
    { rewrite Eref, Hone. unfold refs, unloaded. destruct (_ =? 1); simpl; by rewrite lookup_delete_eq. }
    assert (forall m, m <> n -> vnode_inuse (unloaded n x s) !! m = vnode_inuse s !! m) as Ho.
    { intros m Hne. unfold unloaded. destruct (_ =? 1); simpl; by rewrite lookup_delete_ne. }
    destruct (Z.eqb_spec (rf_linkcount x) 1) as [E1|E1].
    + split_and!; try done.
      * unfold unloaded. rewrite (proj2 (Z.eqb_eq _ _) E1). apply (finv_delete p L s n x); [done|done|lia|done].
      * rewrite decide_True; [|split_and!; [lia|lia|done|]; intros Hp; rewrite one_if_true in Hc by done; lia].
        unfold unloaded. by rewrite (proj2 (Z.eqb_eq _ _) E1).
    + assert (same_content s (unloaded n x s)) as Hs.
      { intros m. unfold unloaded. rewrite (proj2 (Z.eqb_neq _ _) E1). simpl. destruct (decide (m = n)) as [->|Hne].
        - by rewrite lookup_insert_eq, Ex.
        - by rewrite lookup_insert_ne. }
      split_and!; try done.
      * apply (finv_intro p p L s); [done|done|..].
        -- unfold unloaded. rewrite (proj2 (Z.eqb_neq _ _) E1). simpl. intros m y [[<- <-]|[Hne Ey]]%lookup_insert_Some.
           ++ simpl. rewrite lookup_delete_eq, (one_if_none (A := vnode)), (one_if_false (n = fs_root)) by done. lia.
           ++ rewrite lookup_delete_ne by done. by destruct (fi_inodes _ _ _ Hinv _ _ Ey).
        -- intros m w Ew. assert (m <> n) as Hne.
           { intros ->. unfold unloaded in Ew. destruct (_ =? 1); simpl in Ew; by rewrite lookup_delete_eq in Ew. }
           rewrite Ho in Ew by done. destruct (fi_vnodes _ _ _ Hinv _ _ Ew) as [? ? ? (y & Ey & My & Ly)].
           destruct (same_content_some _ _ _ _ Hs Ey) as (y' & Ey' & Ec). split; try done. exists y'.
           split; [done|]. rewrite (content_mode _ _ Ec). injection Ec as E2 _ _ E3. rewrite E2, E3. done.
        -- rewrite Ho by done. by destruct (fi_root _ _ _ Hinv) as (? & _ & _ & ?).
        -- apply (fi_noroot _ _ _ Hinv).
      * rewrite decide_False; [done|]. intros (_ & Hz & _ & Hp). rewrite (one_if_false (p = Some n)) in Hc by done. lia.
  - exists (set_vnodes (<[n := with_ref (vn_refcount v - 1) v]>) s).
    rewrite decide_False by (intros [? _]; lia). split_and!; try done.
    + apply vput_down; [done|done|lia].
    + assert (forall m, is_Some (<[n := with_ref (vn_refcount v - 1) v]> (vnode_inuse s) !! m) <-> is_Some (vnode_inuse s !! m)) as Hsome.
      { intros m. destruct (decide (m = n)) as [->|Hne].
        - rewrite lookup_insert_eq, Ev. split; eauto.
        - by rewrite lookup_insert_ne. }
      apply (finv_intro p p L s); [done|done|..]; simpl.
      * intros m y Ey. destruct (fi_inodes _ _ _ Hinv _ _ Ey) as [_ _ Hcm Hpm]. split; [|done].
        rewrite Hcm. do 2 f_equal. apply one_if_ext. symmetry. apply Hsome.
      * intros m w [[<- <-]|[Hne Ew]]%lookup_insert_Some.
        -- split; simpl; [lia|done|done|]. exists x. done.
        -- by destruct (fi_vnodes _ _ _ Hinv _ _ Ew).
      * apply Hsome. by destruct (fi_root _ _ _ Hinv) as (? & _ & _ & ?).
      * apply (fi_noroot _ _ _ Hinv).
    + unfold refs. simpl. by rewrite lookup_insert_eq, Ev.
    + intros m Hne. simpl. by rewrite lookup_insert_ne.
Qed.

(** ** Allocating an inode *)

Lemma first_free_spec t l :
  match first_free t l with Some i => i ∈ l /\ t !! i = None | None => True end.
Proof.
  induction l as [|i l IH]; simpl; [done|]. destruct (t !! i) eqn:E; [|set_solver].
  destruct (first_free t l); set_solver.
Qed.

Definition fresh_mem (type : rtype) (devid : Z) : rmem :=
  match type with
  | RAMFS_TYPE_DATA => RBytes zero_bytes
  | RAMFS_TYPE_DIR => REntries zero_entries
  | _ => RDevid devid
  end.

Definition allocated (n : ino) (type : rtype) (devid : Z) (s s' : ramfs) : Prop :=
  0 <= n < RAMFS_MAX_FILES /\ rfs_inodes s !! n = None /\ vnode_inuse s' = vnode_inuse s /\
  rfs_inodes s' = <[n := MkInode 0 n (fresh_mem type devid) type 1]> (rfs_inodes s).

Lemma alloc_inode_cases type devid s :
  (exists n s', ramfs_alloc_inode type devid s = Ret (n, s') /\ allocated n type devid s s') \/
  ramfs_alloc_inode type devid s = Ret (- ENOSPC, s).
Proof.
  unfold ramfs_alloc_inode. rewrite bind_gets. pose proof (first_free_spec (rfs_inodes s) (seqZ 0 RAMFS_MAX_FILES)) as Hf.
  destruct (first_free _ _) as [i|]; [|by right]. destruct Hf as [Hi%elem_of_seqZ Hnone].
  rewrite !bind_gets. destruct (kmem s) as [|k]; [by right|].
  destruct type; (destruct (pmem s) as [|q]; [try by right|]);
    left; eexists i, _; (split; [reflexivity|]); split_and!; try done; lia.
Qed.

Lemma links_none L p s n i : finv p L s -> rfs_inodes s !! n = None -> L !! (n, i) = None.
Proof.
  intros Hinv Hn. destruct (L !! (n, i)) as [m|] eqn:E; [|done].
  apply (fi_links _ _ _ Hinv) in E as (e & (x & l & Ex & _) & _). congruence.
Qed.

Lemma nlinks_none L p s n : finv p L s -> rfs_inodes s !! n = None -> nlinks L n = 0.
Proof.
  intros Hinv Hn. unfold nlinks. enough (filter (fun kv : (ino * nat) * ino => kv.2 = n) L = ∅) as -> by done.
  apply map_empty. intros [d i]. apply map_lookup_filter_None. right. intros m E Em. simpl in Em. subst m.
  destruct (fi_target _ _ _ Hinv _ _ _ E). congruence.
Qed.

Lemma fresh_typed type devid n c : typed (MkInode 0 n (fresh_mem type devid) type c).
Proof.
  unfold typed. simpl. destruct type; simpl; eauto.
  - eexists. split; [done|]. split; [apply length_replicate|]. unfold PAGE_SIZE. lia.
  - eexists. split; [done|]. split; [apply length_replicate|].
    intros i j e f He Hf _ Hn. apply lookup_replicate in He as [-> _]. done.
Qed.

Lemma finv_alloc L s s' n type devid :
  finv None L s -> allocated n type devid s s' -> finv (Some n) L s'.
Proof.
  intros Hinv (Hn & Hnone & Hv & Hi). pose proof (nlinks_none _ _ _ _ Hinv Hnone) as Hnl.
  assert (n <> fs_root) as Hroot.
  { intros ->. destruct (fi_root _ _ _ Hinv) as (? & ? & _). congruence. }
  assert (vnode_inuse s !! n = None) as Hvn.
  { destruct (vnode_inuse s !! n) as [v|] eqn:Ev; [|done].
    destruct (fi_vnodes _ _ _ Hinv _ _ Ev) as [_ _ _ (x & Ex & _)]. congruence. }
  split.
  - rewrite Hi. intros m x [[<- <-]|[Hne Ex]]%lookup_insert_Some.
    + split; simpl; [done|apply fresh_typed| |lia].
      rewrite Hv, Hvn, Hnl, (one_if_none (A := vnode)), (one_if_true (Some n = Some n)), (one_if_false (n = fs_root)) by done. done.
    + destruct (fi_inodes _ _ _ Hinv _ _ Ex) as [? ? Hc ?]. split; try done.
      rewrite Hv, Hc, (one_if_false (None = Some m)) by done. rewrite (one_if_false (Some n = Some m)) by congruence. done.
  - rewrite Hv. intros m v Ev. destruct (fi_vnodes _ _ _ Hinv _ _ Ev) as [? ? ? (x & Ex & R)]. split; try done.
    exists x. rewrite Hi, lookup_insert_ne by congruence. done.
  - intros d i m. rewrite (fi_links _ _ _ Hinv). unfold entry_at. rewrite Hi.
    split; intros (e & (x & l & Ex & Em & El) & Hg & Eno); exists e; (split; [|done]).
    + exists x, l. rewrite lookup_insert_ne by congruence. done.
    + apply lookup_insert_Some in Ex as [[<- <-]|[_ Ex]]; [|by exists x, l].
      simpl in Em. destruct type; simplify_eq/=. apply lookup_replicate in El as [-> _]. by destruct Hg.
  - intros d i m HL. rewrite Hi. destruct (fi_target _ _ _ Hinv _ _ _ HL) as [x Ex].
    rewrite lookup_insert_ne by congruence. eauto.
  - intros m Hm Hz i. by apply (fi_orphan _ _ _ Hinv).
  - destruct (fi_root _ _ _ Hinv) as (x & Ex & R). exists x. rewrite Hi, Hv, lookup_insert_ne by done. done.
  - split; [apply Hinv|congruence].
Qed.

(** ** Changing an entry *)

Lemma find_slot_spec P l :
  match find_slot P l with
  | Some i => exists e, l !! i = Some e /\ P e = true
  | None => Forall (fun e => P e = false) l
  end.
Proof.
  induction l as [|e l IH]; simpl; [done|]. destruct (P e) eqn:E; [by exists e|].
  destruct (find_slot P l) as [i|]; simpl; [done|by constructor].
Qed.

(** Entry [i] of directory [d] becomes [e] and the size grows by [z]. *)
Definition entry_set (d : ino) (i : nat) (e : dirent) (z : Z) (s : ramfs) : ramfs :=
  set_inodes (alter (fun x => with_size (rf_size x + z) (put_entry i e x)) d) s.

Lemma set_entry_eq d i e z s :
  (set_entry d i e ;;; add_size d z) s = Ret (tt, entry_set d i e z s).
Proof.
  unfold set_entry, add_size, in_set. rewrite bind_modify. unfold modify, entry_set. do 2 f_equal.
  apply ramfs_ext; simpl; try done. apply map_eq. intros m. destruct (decide (m = d)) as [->|Hne].
  - rewrite !lookup_alter_eq. destruct (rfs_inodes s !! d) as [x|]; simpl; [|done].
    f_equal. unfold put_entry. by destruct (rf_mem x).
  - by rewrite !lookup_alter_ne.
Qed.

Lemma entry_set_lookup d i e z s x l m :
  rfs_inodes s !! d = Some x -> rf_mem x = REntries l ->
  rfs_inodes (entry_set d i e z s) !! m =
    if decide (m = d) then Some (with_size (rf_size x + z) (with_mem (REntries (<[i := e]> l)) x)) else rfs_inodes s !! m.
Proof.
  intros Ex Em. unfold entry_set. simpl. destruct (decide (m = d)) as [->|Hne].
  - rewrite lookup_alter_eq, Ex. simpl. unfold put_entry. by rewrite Em.
  - by rewrite lookup_alter_ne.
Qed.

Lemma kind_entry_set d i e z s m : kind (entry_set d i e z s) m = kind s m.
Proof.
  unfold kind, entry_set. simpl. destruct (decide (m = d)) as [->|Hne]; [|by rewrite lookup_alter_ne].
  rewrite lookup_alter_eq. destruct (rfs_inodes s !! d) as [x|]; [|done]. simpl. unfold put_entry. by destruct (rf_mem x).
Qed.

Lemma entry_set_at d i e z s x l d' j f :
  rfs_inodes s !! d = Some x -> rf_mem x = REntries l -> (i < length l)%nat ->
  entry_at (entry_set d i e z s) d' j f <->
  (if decide ((d', j) = (d, i)) then f = e else entry_at s d' j f).
Proof.
  intros Ex Em Hi. unfold entry_at. setoid_rewrite (entry_set_lookup d i e z s x l) at 1; [|done|done].
  destruct (decide (d' = d)) as [->|Hd].
  - split.
    + intros (y & k & [= <-] & [= <-] & Ej). destruct (decide ((d, j) = (d, i))) as [[= ->]|Hne].
      * rewrite list_lookup_insert_eq in Ej by done. congruence.
      * rewrite list_lookup_insert_ne in Ej by congruence. by exists x, l.
    + destruct (decide ((d, j) = (d, i))) as [[= ->]|Hne].
      * intros ->. eexists _, _. split_and!; [done|done|]. by rewrite list_lookup_insert_eq.
      * intros (y & k & Ey & Ek & Ej). rewrite Ex in Ey. injection Ey as <-. rewrite Em in Ek. injection Ek as <-.
        eexists _, _. split_and!; [done|done|]. by rewrite list_lookup_insert_ne by congruence.
  - rewrite decide_False by congruence. done.
Qed.

Lemma entry_set_typed i e z x l n :
  rf_mem x = REntries l -> typed x -> rf_mode x = RAMFS_TYPE_DIR -> l !! i = Some n ->
  (rd_name e <> [] -> Forall (fun f => rd_name f <> rd_name e) l) ->
  typed (with_size (rf_size x + z) (with_mem (REntries (<[i := e]> l)) x)).
Proof.
  intros Em Hty Hd Hi Hnew. unfold typed in *. simpl. rewrite Hd in *. destruct Hty as (k & Ek & Hlen & Huniq).
  rewrite Em in Ek. injection Ek as <-. eexists. split; [done|]. rewrite length_insert. split; [done|].
  assert (i < length l)%nat as Hlt by (by eapply lookup_lt_Some).
  assert (forall j f, j <> i -> l !! j = Some f -> rd_name e <> [] -> rd_name f <> rd_name e) as Hother.
  { intros j f _ Hj Hne. specialize (Hnew Hne). rewrite Forall_lookup in Hnew. by apply (Hnew j). }
  intros a b f g Ha Hb En Hne. destruct (decide (a = i)) as [->|Hai], (decide (b = i)) as [->|Hbi]; [done|..].
  - rewrite list_lookup_insert_eq in Ha by done. injection Ha as <-. rewrite list_lookup_insert_ne in Hb by done.
    destruct (Hother b g); auto.
  - rewrite list_lookup_insert_eq in Hb by done. injection Hb as <-. rewrite list_lookup_insert_ne in Ha by done.
    destruct (Hother a f); auto. by rewrite <- En.
  - rewrite list_lookup_insert_ne in Ha, Hb by done. by apply (Huniq a b f g).
Qed.

(** Everything but the links survives a changed entry. *)
Lemma finv_entry p p' L L' s d i e z x l f :
  finv p L s -> rfs_inodes s !! d = Some x -> rf_mem x = REntries l -> l !! i = Some f ->
  (rd_name e <> [] -> Forall (fun g => rd_name g <> rd_name e) l) ->
  (forall m, nlinks L' m + one_if (p' = Some m) = nlinks L m + one_if (p = Some m)) ->
  (forall d' j n, L' !! (d', j) = Some n <->
     (if decide ((d', j) = (d, i)) then good_name (rd_name e) /\ rd_ino e = n else L !! (d', j) = Some n)) ->
  (good_name (rd_name e) -> is_Some (rfs_inodes s !! rd_ino e)) ->
  (forall n, n <> fs_root -> nlinks L' n = 0 -> forall i, L' !! (n, i) = None) ->
  p' <> Some fs_root ->
  finv p' L' (entry_set d i e z s).
Proof.
  intros Hinv Ex Em Hi Hnew Hcount Hlinks Htarget Horphan Hp'.
  pose proof (entry_set_lookup d i e z s x l) as Hlk.
  destruct (entries_dir _ _ _ _ _ _ Hinv Ex Em) as (Hdir & _ & _).
  assert (forall m, is_Some (rfs_inodes (entry_set d i e z s) !! m) <-> is_Some (rfs_inodes s !! m)) as Hdom.
  { intros m. rewrite Hlk by done. destruct (decide (m = d)) as [->|]; [|done]. rewrite Ex. split; eauto. }
  split.
  - intros m y. rewrite Hlk by done. destruct (decide (m = d)) as [->|Hne].
    + intros [= <-]. destruct (fi_inodes _ _ _ Hinv _ _ Ex) as [Hn Hty Hc Hp]. split; simpl; [done| |specialize (Hcount d); lia|done].
      apply (entry_set_typed _ _ _ _ _ f); done.
    + intros Ey. destruct (fi_inodes _ _ _ Hinv _ _ Ey) as [Hn Hty Hc Hp]. split; try done. specialize (Hcount m). simpl. lia.
  - intros m v Ev. destruct (fi_vnodes _ _ _ Hinv _ _ Ev) as [? ? ? (y & Ey & My & Ly)]. split; try done.
    rewrite Hlk by done. destruct (decide (m = d)) as [->|Hne]; [|by exists y].
    eexists. split; [done|]. assert (y = x) as -> by congruence. split; [done|]. simpl. rewrite Hdir. done.
  - intros d' j n. rewrite Hlinks. assert (i < length l)%nat as Hlt by (by eapply lookup_lt_Some).
    setoid_rewrite (entry_set_at d i e z s x l d' j); [|done|done|done].
    destruct (decide ((d', j) = (d, i))).
    + split; [intros [? ?]; by exists e|]. by intros (g & -> & ?).
    + apply (fi_links _ _ _ Hinv).
  - intros d' j n HL. apply Hdom. apply Hlinks in HL. destruct (decide ((d', j) = (d, i))).
    + destruct HL as [Hg <-]. auto.
    + by apply (fi_target _ _ _ Hinv _ _ _ HL).
  - done.
  - destruct (fi_root _ _ _ Hinv) as (y & Ey & My & Hv). destruct (decide (fs_root = d)) as [<-|Hne].
    + eexists. rewrite Hlk by done. rewrite decide_True by done. split; [done|]. simpl. assert (y = x) as -> by congruence. done.
    + exists y. rewrite Hlk by done. by rewrite decide_False.
  - split; [|done]. destruct (fi_noroot _ _ _ Hinv) as [Hz Hp]. specialize (Hcount fs_root).
    rewrite !one_if_false in Hcount by done. lia.
Qed.

(** ** What a directory holds *)

Definition dlookup (s : ramfs) (d : ino) (nm : str) : option ino :=
  match rfs_inodes s !! d with
  | Some x =>
      match rf_mem x with
      | REntries l => match find_slot (fun e => name_match (rd_name e) nm) l with
                      | Some i => rd_ino <$> l !! i
                      | None => None
                      end
      | _ => None
      end
  | None => None
  end.

Lemma dlookup_iff p L s d nm n :
  finv p L s -> nm <> [] ->
  dlookup s d nm = Some n <-> exists i e, entry_at s d i e /\ rd_name e = nm /\ rd_ino e = n.
Proof.
  intros Hinv Hnm. unfold dlookup, entry_at. destruct (rfs_inodes s !! d) as [x|] eqn:Ex.
  2: { split; [done|]. intros (i & e & (y & l & Ey & _) & _). congruence. }
  destruct (rf_mem x) as [b|l|dv] eqn:Em.
  1, 3: split; [done|]; intros (i & e & (y & l & Ey & El & _) & _); congruence.
  destruct (entries_dir _ _ _ _ _ _ Hinv Ex Em) as (_ & _ & Huniq).
  pose proof (find_slot_spec (fun e => name_match (rd_name e) nm) l) as Hf.
  destruct (find_slot _ l) as [i|].
  - destruct Hf as (e & Ei & He%bool_decide_eq_true). rewrite Ei. simpl. split.
    + intros [= <-]. exists i, e. split; [by exists x, l|done].
    + intros (j & f & (y & k & [= <-] & Ek & Ej) & Hf & <-). rewrite Em in Ek. injection Ek as <-.
      assert (i = j) as ->; [|congruence]. apply (Huniq i j e f); congruence.
  - split; [done|]. intros (j & f & (y & k & [= <-] & Ek & Ej) & Hfn & _). rewrite Em in Ek. injection Ek as <-.
    rewrite Forall_lookup in Hf. specialize (Hf _ _ Ej). by apply bool_decide_eq_false in Hf.
Qed.

Lemma dlookup_same p L p' L' s s' d nm :
  finv p L s -> finv p' L' s' -> same_content s s' -> nm <> [] -> dlookup s' d nm = dlookup s d nm.
Proof.
  intros H1 H2 Hs Hn. apply option_eq. intros n. rewrite (dlookup_iff p' L'), (dlookup_iff p L) by done.
  by setoid_rewrite (entry_at_same s s').
Qed.

Lemma dlookup_alloc p L s s' d nm n type devid :
  finv None L s -> finv p L s' -> allocated n type devid s s' -> nm <> [] -> dlookup s' d nm = dlookup s d nm.
Proof.
  intros H1 H2 (_ & Hnone & _ & Hi) Hn. apply option_eq. intros m. rewrite (dlookup_iff p L), (dlookup_iff None L) by done.
  unfold entry_at. rewrite Hi. split; intros (i & e & (x & l & Ex & Em & El) & R & R').
  - apply lookup_insert_Some in Ex as [[<- <-]|[_ Ex]].
    + simpl in Em. destruct type; simplify_eq/=. apply lookup_replicate in El as [-> _]. done.
    + exists i, e. split; [by exists x, l|done].
  - exists i, e. split; [|done]. exists x, l. rewrite lookup_insert_ne by congruence. done.
Qed.

Lemma dlookup_set p L p' L' s d i e z x l f d' nm :
  finv p L s -> finv p' L' (entry_set d i e z s) ->
  rfs_inodes s !! d = Some x -> rf_mem x = REntries l -> l !! i = Some f -> nm <> [] ->
  (rd_name e = [] \/ rd_name f = []) ->
  dlookup (entry_set d i e z s) d' nm =
    if decide (d' = d /\ rd_name e = nm) then Some (rd_ino e)
    else if decide (d' = d /\ rd_name f = nm) then None else dlookup s d' nm.
Proof.
  intros H1 H2 Ex Em Hi Hn Hone. assert (i < length l)%nat as Hlt by (by eapply lookup_lt_Some).
  assert (entry_at s d i f) as Hf by (by exists x, l).
  assert (forall j g, entry_at s d j g -> rd_name g = nm -> rd_name f = nm -> j = i) as Huniq.
  { intros j g (y & k & Ey & Ek & Ej) E1 E2. rewrite Ex in Ey. injection Ey as <-. rewrite Em in Ek. injection Ek as <-.
    destruct (entries_dir _ _ _ _ _ _ H1 Ex Em) as (_ & _ & Hu). apply (Hu j i g f); congruence. }
  apply option_eq. intros n. rewrite (dlookup_iff p' L') by done.
  setoid_rewrite (entry_set_at d i e z s x l); [|done|done|done].
  destruct (decide (d' = d /\ rd_name e = nm)) as [[-> En]|Hne].
  - assert (rd_name f = []) as Hf0 by (destruct Hone; congruence). split.
    + intros (j & g & Hg & Egn & <-). destruct (decide ((d, j) = (d, i))); [by subst|].
      exfalso.
      pose proof (entry_set_lookup d i e z s x l d Ex Em) as Ex'. rewrite decide_True in Ex' by done.
      destruct (entries_dir _ _ _ _ _ _ H2 Ex' eq_refl) as (_ & _ & Hu). destruct Hg as (y & k & Ey & Ek & Ej).
      rewrite Ex in Ey. injection Ey as <-. rewrite Em in Ek. injection Ek as <-.
      assert (j = i); [|congruence]. apply (Hu j i g e); [|by rewrite list_lookup_insert_eq|congruence|congruence].
      by rewrite list_lookup_insert_ne by congruence.
    + intros [= <-]. exists i, e. rewrite decide_True by done. done.
  - destruct (decide (d' = d /\ rd_name f = nm)) as [[-> Fn]|Hnf].
    + split; [|done]. intros (j & g & Hg & Egn & <-). destruct (decide ((d, j) = (d, i))) as [[= ->]|Hji].
      * subst g. destruct Hne. done.
      * rewrite (Huniq j g) in Hji by done. done.
    + rewrite (dlookup_iff p L) by done. split; intros (j & g & Hg & Egn & <-); exists j, g; (split; [|done]).
      * destruct (decide ((d', j) = (d, i))) as [[= -> ->]|Hji]; [|done]. subst g. destruct Hne. done.
      * destruct (decide ((d', j) = (d, i))) as [[= -> ->]|Hji]; [|done].
        destruct Hg as (y & k & Ey & Ek & Ej). assert (g = f) by congruence. subst g. destruct Hnf. done.
Qed.

(** ** The operations on directories *)

Definition is_dir (s : ramfs) (d : ino) (l : list dirent) : Prop :=
  exists x v, vnode_inuse s !! d = Some v /\ rfs_inodes s !! d = Some x /\ rf_mem x = REntries l.

(** The directory has not been removed. *)
Definition linked (L : linkmap) (d : ino) : Prop := d = fs_root \/ exists k, L !! k = Some d.

Definition new_name (l : list dirent) (nm : str) : Prop :=
  good_name nm /\ (length nm <= 27)%nat /\ Forall (fun e => rd_name e <> nm) l.

Lemma dir_get_eq s d l : is_dir s d l -> dir_get d s = Ret (l, s).
Proof. intros (x & v & Ev & Ex & Em). unfold dir_get. rewrite (bind_eq _ _ _ _ _ (in_get_eq _ _ _ _ Ev Ex)). unfold entries_of. by rewrite Em. Qed.

Lemma find_name_none l nm :
  Forall (fun e => rd_name e <> nm) l -> find_slot (fun e => name_match (rd_name e) nm) l = None.
Proof.
  intros Hf. pose proof (find_slot_spec (fun e => name_match (rd_name e) nm) l) as Hs.
  destruct (find_slot _ l) as [i|]; [|done]. destruct Hs as (e & Ei & He%bool_decide_eq_true).
  rewrite Forall_lookup in Hf. by destruct (Hf _ _ Ei).
Qed.

Lemma lookup_none_eq s d l nm :
  is_dir s d l -> Forall (fun e => rd_name e <> nm) l -> ramfs_lookup d nm s = Ret ((- ENOENT, None), s).
Proof.
  intros Hd Hf. unfold ramfs_lookup. rewrite (bind_eq _ _ _ _ _ (dir_get_eq _ _ _ Hd)). by rewrite find_name_none.
Qed.

Lemma new_slot_eq s d l nm :
  is_dir s d l -> Forall (fun e => rd_name e <> nm) l -> new_slot d nm s = Ret (find_slot free_slot l, s).
Proof.
  intros Hd Hf. unfold new_slot. rewrite (bind_eq _ _ _ _ _ (lookup_none_eq _ _ _ _ Hd Hf)). simpl fst.
  rewrite bind_assert by done. by rewrite (bind_eq _ _ _ _ _ (dir_get_eq _ _ _ Hd)).
Qed.

Lemma stored_name_short nm : (length nm <= 27)%nat -> stored_name nm = nm.
Proof. intros. unfold stored_name, NAME_LEN. apply take_ge. simpl. lia. Qed.

Lemma linked_pos L d : linked L d -> d <> fs_root -> nlinks L d <> 0.
Proof. intros [|[k Hk]] Hr; [done|]. pose proof (nlinks_pos _ _ _ Hk). lia. Qed.

Lemma finv_add_entry L s d l i f n nm z :
  finv (Some n) L s -> is_dir s d l -> l !! i = Some f -> rd_name f = [] -> new_name l nm ->
  is_Some (rfs_inodes s !! n) -> linked L d ->
  finv None (<[(d, i) := n]> L) (entry_set d i (MkDent n nm) z s) /\ L !! (d, i) = None.
Proof.
  intros Hinv (x & v & Ev & Ex & Em) Hi Hf (Hg & Hlen & Hnew) Hn Hlink.
  assert (L !! (d, i) = None) as Hnone.
  { destruct (L !! (d, i)) as [m|] eqn:E; [|done]. apply (fi_links _ _ _ Hinv) in E as (e & (y & k & Ey & Ek & Ei) & He & _).
    assert (e = f) as -> by congruence. by destruct He. }
  split; [|done]. apply (finv_entry (Some n) None L _ s d i _ z x l f); try done.
  - intros m. rewrite nlinks_insert by done. rewrite (one_if_false (None = Some m)) by done.
    rewrite (one_if_ext (Some n = Some m) (n = m)) by (split; congruence). lia.
  - intros d' j m. simpl. destruct (decide ((d', j) = (d, i))) as [[= -> ->]|Hne].
    + rewrite lookup_insert_eq. split; [intros [= ->]; done|by intros [_ ->]].
    + by rewrite lookup_insert_ne.
  - intros m Hm Hz j. rewrite nlinks_insert in Hz by done. pose proof (nlinks_nonneg L m). pose proof (one_if_bounds (n = m)).
    destruct (decide ((d, i) = (m, j))) as [[= -> ->]|Hne].
    + destruct (linked_pos L m Hlink Hm). lia.
    + rewrite lookup_insert_ne by done. apply (fi_orphan _ _ _ Hinv); [done|lia].
Qed.

(** What adding the entry [nm] for inode [n] to directory [d] does. *)
Record added (s s' : ramfs) (d : ino) (nm : str) (n : ino) : Prop := {
  ad_names : forall d' nm', nm' <> [] -> d' <> n ->
    dlookup s' d' nm' = if decide (d' = d /\ nm' = nm) then Some n else dlookup s d' nm';
  ad_others : forall m x, rfs_inodes s !! m = Some x -> m <> d -> m <> n -> 
    exists x', rfs_inodes s' !! m = Some x' /\ content x' = content x
}.

Lemma is_dir_same s s' d l v :
  is_dir s d l -> same_content s s' -> vnode_inuse s' !! d = Some v -> is_dir s' d l.
Proof.
  intros (x & v0 & _ & Ex & Em) Hs Ev. destruct (same_content_some _ _ _ _ Hs Ex) as (x' & Ex' & [= _ _ Ec _]).
  exists x', v. split_and!; congruence.
Qed.

Lemma is_dir_alloc s s' d l n type devid :
  is_dir s d l -> allocated n type devid s s' -> is_dir s' d l /\ d <> n.
Proof.
  intros (x & v & Ev & Ex & Em) (_ & Hnone & Hv & Hi). assert (d <> n) as Hne by congruence. split; [|done].
  exists x, v. rewrite Hv, Hi, lookup_insert_ne by done. done.
Qed.

Lemma free_slot_spec l :
  match find_slot free_slot l with
  | Some i => exists f, l !! i = Some f /\ rd_name f = []
  | None => Forall (fun e => rd_name e <> []) l
  end.
Proof.
  pose proof (find_slot_spec free_slot l) as Hs. destruct (find_slot free_slot l) as [i|].
  - destruct Hs as (f & Ei & Hf%bool_decide_eq_true). eauto.
  - eapply Forall_impl; [exact Hs|]. intros e He. by apply bool_decide_eq_false in He.
Qed.

Lemma added_set L p s0 s d i n nm z x l f :
  finv p L s -> rfs_inodes s !! d = Some x -> rf_mem x = REntries l -> l !! i = Some f -> rd_name f = [] ->
  (exists L', finv None L' (entry_set d i (MkDent n nm) z s)) -> nm <> [] ->
  (forall d' nm', nm' <> [] -> d' <> n -> dlookup s d' nm' = dlookup s0 d' nm') ->
  (forall m y, rfs_inodes s0 !! m = Some y -> m <> d -> m <> n -> exists y', rfs_inodes s !! m = Some y' /\ content y' = content y) ->
  added s0 (entry_set d i (MkDent n nm) z s) d nm n.
Proof.
  intros Hinv Ex Em Hi Hf (L' & Hinv') Hnm Hold Hoth. split.
  - intros d' nm' Hn' Hd'. rewrite (dlookup_set p L None L' s d i _ z x l f) by (done || by right). simpl.
    rewrite Hold by done. destruct (decide (d' = d /\ nm = nm')) as [[-> ->]|Hne].
    + by rewrite decide_True.
    + rewrite (decide_False (P := d' = d /\ nm' = nm)) by naive_solver.
      rewrite decide_False by (intros [_ Hx]; congruence). done.
  - intros m y Ey Hmd Hmn. destruct (Hoth m y) as (y' & Ey' & Ec); [done..|]. exists y'. split; [|done].
    rewrite (entry_set_lookup d i _ z s x l) by done. by rewrite decide_False.
Qed.

Lemma ramfs_create_spec L s d l nm :
  finv None L s -> is_dir s d l -> linked L d -> new_name l nm ->
  ramfs_create d nm s = Ret ((- ENOSPC, None), s) \/
  exists n L' s', ramfs_create d nm s = Ret ((0, Some n), s') /\ finv None L' s' /\ added s s' d nm n /\
    rfs_inodes s !! n = None /\ refs s' n = 1 /\ (forall m, m <> n -> vnode_inuse s' !! m = vnode_inuse s !! m) /\
    exists x, rfs_inodes s' !! n = Some x /\ content x = (0, n, RBytes zero_bytes, RAMFS_TYPE_DATA).
Proof.
  intros Hinv Hd Hlink Hnew. pose proof Hnew as (Hg & Hlen & Hnot). unfold ramfs_create.
  rewrite (bind_eq _ _ _ _ _ (new_slot_eq _ _ _ _ Hd Hnot)).
  pose proof (free_slot_spec l) as Hslot. destruct (find_slot free_slot l) as [i|]; [|by left].
  destruct Hslot as (f & Hi & Hf).
  destruct (alloc_inode_cases RAMFS_TYPE_DATA 0 s) as [(n & s1 & E1 & Ha)|E1]; [|left; by rewrite (bind_eq _ _ _ _ _ E1)].
  right. rewrite (bind_eq _ _ _ _ _ E1). pose proof Ha as (Hn & Hnone & Hv1 & Hi1).
  rewrite (proj2 (Z.ltb_ge _ _)) by lia. pose proof (finv_alloc _ _ _ _ _ _ Hinv Ha) as Hinv1.
  destruct (is_dir_alloc _ _ _ _ _ _ _ Hd Ha) as [Hd1 Hdn].
  assert (rfs_inodes s1 !! n = Some (MkInode 0 n (RBytes zero_bytes) RAMFS_TYPE_DATA 1)) as En1 by (rewrite Hi1; apply lookup_insert_eq).
  destruct (vget_spec _ _ _ n Hinv1 ltac:(eauto)) as (s2 & E2 & Hinv2 & Hs2 & _ & _ & Hvn2 & Hr2 & Hv2).
  rewrite (bind_eq _ _ _ _ _ E2). rewrite stored_name_short by done.
  destruct (same_content_some _ _ _ _ Hs2 En1) as (xn & Exn & Ecn).
  assert (is_dir s2 d l) as Hd2.
  { destruct Hd1 as (x & v & Ev & Ex & Em). apply (is_dir_same s1 s2 d l v); [by exists x, v|done|]. by rewrite Hv2. }
  pose proof Hd2 as (x2 & v2 & Ev2 & Ex2 & Em2).
  destruct (finv_add_entry _ _ _ _ _ _ _ nm SIZEOF_DIRENT Hinv2 Hd2 Hi Hf Hnew ltac:(eauto) Hlink) as [Hinv3 _].
  exists n, (<[(d, i) := n]> L), (entry_set d i (MkDent n nm) SIZEOF_DIRENT s2). split_and!; try done.
  - rewrite <- bind_bind. by rewrite (bind_eq _ _ _ _ _ (set_entry_eq _ _ _ _ _)).
  - apply (added_set L (Some n) s s2 d i n nm _ x2 l f); try done; [eauto|apply Hg|..].
    + intros d' nm' Hn' _. rewrite (dlookup_same (Some n) L (Some n) L s1 s2) by done.
      by apply (dlookup_alloc (Some n) L s s1 _ _ n RAMFS_TYPE_DATA 0).
    + intros m y Ey Hmd Hmn. apply (same_content_some s1 s2); [done|]. rewrite Hi1. by rewrite lookup_insert_ne.
  - unfold refs in *. simpl. rewrite Hr2. rewrite Hv1. destruct (vnode_inuse s !! n) as [v|] eqn:Ev; [|done].
    destruct (fi_vnodes _ _ _ Hinv _ _ Ev) as [_ _ _ (? & ? & _)]. congruence.
  - intros m Hm. simpl. rewrite Hv2 by done. by rewrite Hv1.
  - exists xn. rewrite (entry_set_lookup d i _ _ s2 x2 l) by done. by rewrite decide_False.
Qed.

Definition add_links (z : Z) (n : ino) (s : ramfs) : ramfs :=
  set_inodes (alter (fun x => with_links (rf_linkcount x + z) x) n) s.

Lemma add_links_same z n s : same_content s (add_links z n s).
Proof.
  intros m. unfold add_links. simpl. destruct (decide (m = n)) as [->|Hne].
  - rewrite lookup_alter_eq. by destruct (rfs_inodes s !! n).
  - by rewrite lookup_alter_ne.
Qed.

Lemma add_links_comm z n d i e w s : add_links z n (entry_set d i e w s) = entry_set d i e w (add_links z n s).
Proof.
  apply ramfs_ext; try done. simpl. apply map_eq. intros m.
  assert (forall x, put_entry i e (with_links (rf_linkcount x + z) x) = with_links (rf_linkcount x + z) (put_entry i e x)) as Hp.
  { intros x. unfold put_entry. simpl. by destruct (rf_mem x). }
  assert (forall x, rf_linkcount (put_entry i e x) = rf_linkcount x) as Hp2.
  { intros x. unfold put_entry. by destruct (rf_mem x). }
  destruct (decide (n = m)) as [->|Hn]; destruct (decide (d = m)) as [->|Hd].
  - rewrite !lookup_alter_eq. destruct (rfs_inodes s !! m) as [x|]; simpl; [|done]. by rewrite Hp, Hp2.
  - by rewrite lookup_alter_eq, !(lookup_alter_ne _ _ d), lookup_alter_eq.
  - by rewrite lookup_alter_eq, !(lookup_alter_ne _ _ n), lookup_alter_eq.
  - by rewrite !lookup_alter_ne.
Qed.

(** One link more than entries, and back. *)
Lemma finv_pend L s n z p p' :
  finv p L s -> (forall m, one_if (p' = Some m) = one_if (p = Some m) + (if decide (m = n) then z else 0)) ->
  (is_Some (vnode_inuse s !! n) \/ 0 <= z) -> p' <> Some fs_root -> finv p' L (add_links z n s).
Proof.
  intros Hinv Hp Hz Hroot. apply (finv_intro p p' L s); [done|apply add_links_same|..].
  - intros m y. unfold add_links. simpl. specialize (Hp m). destruct (decide (m = n)) as [->|Hne].
    + rewrite lookup_alter_eq. destruct (rfs_inodes s !! n) as [x|] eqn:Ex; [|done]. intros [= <-]. simpl.
      destruct (fi_inodes _ _ _ Hinv _ _ Ex) as [_ _ Hc Hpos]. split; [lia|].
      destruct Hz as [Hv|Hz]; [|lia]. rewrite (one_if_true (is_Some _)) in Hc by done.
      pose proof (nlinks_nonneg L n). pose proof (one_if_bounds (n = fs_root)). pose proof (one_if_bounds (p' = Some n)). lia.
    + rewrite lookup_alter_ne by done. intros Ey. destruct (fi_inodes _ _ _ Hinv _ _ Ey) as [_ _ Hc Hpos]. split; [lia|done].
  - intros m v Ev. destruct (fi_vnodes _ _ _ Hinv _ _ Ev) as [? ? ? (y & Ey & My & Ly)]. split; try done.
    destruct (same_content_some _ _ _ _ (add_links_same z n s) Ey) as (y' & Ey' & Ec). exists y'. split; [done|].
    rewrite (content_mode _ _ Ec). injection Ec as E2 _ _ E3. rewrite E2, E3. done.
  - by destruct (fi_root _ _ _ Hinv) as (? & _ & _ & ?).
  - done.
Qed.

Lemma ramfs_link_spec L s d l nm n :
  finv None L s -> is_dir s d l -> linked L d -> new_name l nm -> is_Some (vnode_inuse s !! n) -> n <> fs_root ->
  ramfs_link n d nm s = Ret (- ENOSPC, s) \/
  exists L' s', ramfs_link n d nm s = Ret (0, s') /\ finv None L' s' /\ vnode_inuse s' = vnode_inuse s /\
    (forall d' nm', nm' <> [] -> dlookup s' d' nm' = if decide (d' = d /\ nm' = nm) then Some n else dlookup s d' nm').
Proof.
  intros Hinv Hd Hlink Hnew [v Hv] Hnr. pose proof Hnew as (Hg & Hlen & Hnot). unfold ramfs_link.
  rewrite (bind_eq _ _ _ _ _ (new_slot_eq _ _ _ _ Hd Hnot)).
  pose proof (free_slot_spec l) as Hslot. destruct (find_slot free_slot l) as [i|]; [|by left].
  destruct Hslot as (f & Hi & Hf). right. rewrite stored_name_short by done.
  destruct (fi_vnodes _ _ _ Hinv _ _ Hv) as [_ _ _ (xn & Exn & _)].
  assert (finv (Some n) L (add_links 1 n s)) as Hinv1.
  { apply (finv_pend L s n 1 None); [done| |right; lia|congruence]. intros m. rewrite (one_if_false (None = Some m)) by done.
    destruct (decide (m = n)) as [->|]; [by rewrite one_if_true|]. by rewrite one_if_false by congruence. }
  assert (is_dir (add_links 1 n s) d l) as Hd1.
  { pose proof Hd as (x & w & Ew & _ & _). apply (is_dir_same s _ d l w); [done|apply add_links_same|done]. }
  pose proof Hd1 as (x1 & v1 & Ev1 & Ex1 & Em1).
  assert (is_Some (rfs_inodes (add_links 1 n s) !! n)) as Hn1.
  { destruct (same_content_some _ _ _ _ (add_links_same 1 n s) Exn) as (? & ? & _). eauto. }
  destruct (finv_add_entry _ _ _ _ _ _ _ nm SIZEOF_DIRENT Hinv1 Hd1 Hi Hf Hnew Hn1 Hlink) as [Hinv2 _].
  exists (<[(d, i) := n]> L), (entry_set d i (MkDent n nm) SIZEOF_DIRENT (add_links 1 n s)). split_and!; try done.
  - rewrite <- bind_bind. rewrite (bind_eq _ _ _ _ _ (set_entry_eq _ _ _ _ _)).
    set (s2 := entry_set d i (MkDent n nm) SIZEOF_DIRENT s).
    assert (exists x2, rfs_inodes s2 !! n = Some x2) as [x2 Ex2].
    { pose proof Hd as (x & w & _ & Ex & Em). unfold s2. rewrite (entry_set_lookup _ _ _ _ _ x l) by done.
      destruct (decide (n = d)); eauto. }
    rewrite (bind_eq _ _ _ _ _ (in_get_eq n v x2 s2 Hv Ex2)). unfold in_set. rewrite bind_modify. unfold ret. do 2 f_equal.
    rewrite <- add_links_comm. fold s2. clearbody s2. apply ramfs_ext; try done. simpl. apply map_eq. intros m.
    destruct (decide (m = n)) as [->|Hne]; [by rewrite !lookup_alter_eq, Ex2|by rewrite !lookup_alter_ne].
  - intros d' nm' Hn'. rewrite (dlookup_set (Some n) L None _ _ d i _ _ x1 l f _ _ Hinv1 Hinv2) by (done || by right).
    simpl. rewrite (dlookup_same None L (Some n) L s) by (done || apply add_links_same).
    destruct (decide (d' = d /\ nm = nm')) as [[-> ->]|Hne]; [by rewrite decide_True|].
    rewrite (decide_False (P := d' = d /\ nm' = nm)) by naive_solver.
    rewrite decide_False by (intros [_ Hx]; congruence). done.
Qed.

(** ** Finding and removing *)

Lemma dlookup_slot s d l nm n :
  is_dir s d l -> dlookup s d nm = Some n ->
  exists i e, find_slot (fun e => name_match (rd_name e) nm) l = Some i /\ l !! i = Some e /\ rd_name e = nm /\ rd_ino e = n.
Proof.
  intros (x & v & _ & Ex & Em) E. unfold dlookup in E. rewrite Ex, Em in E.
  pose proof (find_slot_spec (fun e => name_match (rd_name e) nm) l) as Hf. destruct (find_slot _ l) as [i|]; [|done].
  destruct Hf as (e & Ei & He%bool_decide_eq_true). rewrite Ei in E. injection E as <-. by exists i, e.
Qed.

Lemma lookup_found_eq s d l nm n s' :
  is_dir s d l -> dlookup s d nm = Some n -> vget n s = Ret (n, s') ->
  ramfs_lookup d nm s = Ret ((0, Some n), s').
Proof.
  intros Hd Hl Hv. destruct (dlookup_slot _ _ _ _ _ Hd Hl) as (i & e & Hf & Ei & _ & <-).
  unfold ramfs_lookup. rewrite (bind_eq _ _ _ _ _ (dir_get_eq _ _ _ Hd)), Hf, Ei. simpl.
  by rewrite bind_ret, (bind_eq _ _ _ _ _ Hv).
Qed.

Lemma clear_entry_eq s d l nm n :
  is_dir s d l -> dlookup s d nm = Some n ->
  exists i e, l !! i = Some e /\ rd_name e = nm /\ rd_ino e = n /\
    forall z, (clear_entry d nm ;;; add_size d z) s = Ret (tt, entry_set d i (MkDent n []) z s).
Proof.
  intros Hd Hl. destruct (dlookup_slot _ _ _ _ _ Hd Hl) as (i & e & Hf & Ei & En & <-).
  exists i, e. split_and!; try done. intros z. unfold clear_entry.
  rewrite bind_bind, (bind_eq _ _ _ _ _ (dir_get_eq _ _ _ Hd)), Hf, Ei. simpl. rewrite bind_bind, bind_ret. apply set_entry_eq.
Qed.

Lemma finv_remove_entry L s d l i e n z :
  finv None L s -> is_dir s d l -> l !! i = Some e -> good_name (rd_name e) -> rd_ino e = n ->
  (forall j, L !! (n, j) = None) ->
  finv (Some n) (delete (d, i) L) (entry_set d i (MkDent n []) z s).
Proof.
  intros Hinv (x & v & Ev & Ex & Em) Hi Hg Hn Hno.
  assert (L !! (d, i) = Some n) as HL.
  { apply (fi_links _ _ _ Hinv). exists e. split; [by exists x, l|done]. }
  apply (finv_entry None (Some n) L _ s d i _ z x l e); try done.
  5: { intros [= ->]. pose proof (nlinks_pos _ _ _ HL). destruct (fi_noroot _ _ _ Hinv). lia. }
  - intros m. rewrite (nlinks_delete L (d, i) n m HL). rewrite (one_if_false (None = Some m)) by done.
    rewrite (one_if_ext (Some n = Some m) (n = m)) by (split; congruence). lia.
  - intros d' j m. simpl. destruct (decide ((d', j) = (d, i))) as [[= -> ->]|Hne].
    + rewrite lookup_delete_eq. split; [done|]. by intros [[? _] _].
    + by rewrite lookup_delete_ne.
  - by intros [? _].
  - intros m Hm Hz j. destruct (decide ((d, i) = (m, j))) as [<-|Hne]; [apply lookup_delete_eq|].
    rewrite lookup_delete_ne by done. destruct (decide (m = n)) as [->|Hmn]; [apply Hno|].
    apply (fi_orphan _ _ _ Hinv); [done|]. rewrite (nlinks_delete L (d, i) n m HL), one_if_false in Hz by congruence. lia.
Qed.

Lemma finv_unpend L s n : finv (Some n) L s -> is_Some (vnode_inuse s !! n) -> finv None L (add_links (-1) n s).
Proof.
  intros Hinv Hv. apply (finv_pend L s n (-1) (Some n)); [done| |by left|done]. intros m.
  rewrite (one_if_false (None = Some m)) by done. destruct (decide (m = n)) as [->|].
  - by rewrite one_if_true.
  - by rewrite one_if_false by congruence.
Qed.

Lemma drop_link_eq n v x s :
  vnode_inuse s !! n = Some v -> rfs_inodes s !! n = Some x -> drop_link n s = Ret (tt, add_links (-1) n s).
Proof.
  intros Ev Ex. unfold drop_link. rewrite (bind_eq _ _ _ _ _ (in_get_eq _ _ _ _ Ev Ex)).
  unfold in_set, modify, add_links. do 2 f_equal. apply ramfs_ext; try done. simpl. apply map_eq. intros m.
  destruct (decide (m = n)) as [->|Hne]; [by rewrite !lookup_alter_eq, Ex|by rewrite !lookup_alter_ne].
Qed.

(** The common end of [ramfs_unlink] and [ramfs_rmdir], after the lookup took
    a reference to the vnode. *)
Lemma remove_tail L s d l nm n :
  finv None L s -> is_dir s d l -> dlookup s d nm = Some n -> good_name nm ->
  is_Some (vnode_inuse s !! n) -> (forall j, L !! (n, j) = None) -> n <> fs_root ->
  exists L' s', (clear_entry d nm ;;; add_size d (- SIZEOF_DIRENT) ;;; drop_link n ;;; vput n ;;; ret 0) s = Ret (0, s') /\
    finv None L' s' /\ refs s' n = refs s n - 1 /\ (forall m, m <> n -> vnode_inuse s' !! m = vnode_inuse s !! m) /\
    (forall m, nlinks L' m = nlinks L m - one_if (n = m)) /\
    (rfs_inodes s' !! n = None <-> refs s n = 1 /\ nlinks L' n = 0) /\
    (forall m, m <> n -> is_Some (rfs_inodes s' !! m) <-> is_Some (rfs_inodes s !! m)) /\
    (forall m, is_Some (rfs_inodes s' !! m) -> kind s' m = kind s m) /\
    (forall d' nm', nm' <> [] -> d' <> n ->
       dlookup s' d' nm' = if decide (d' = d /\ nm' = nm) then None else dlookup s d' nm').
Proof.
  intros Hinv Hd Hl Hg [v Hv] Hno Hnr. destruct (clear_entry_eq _ _ _ _ _ Hd Hl) as (i & e & Hi & En & Ein & Hclear).
  pose proof Hd as (x & w & Ew & Ex & Em).
  set (s1 := entry_set d i (MkDent n []) (- SIZEOF_DIRENT) s).
  assert (finv (Some n) (delete (d, i) L) s1) as Hinv1.
  { apply (finv_remove_entry L s d l i e); try done. by rewrite En. }
  assert (L !! (d, i) = Some n) as HL.
  { apply (fi_links _ _ _ Hinv). exists e. split; [by exists x, l|]. by rewrite En. }
  assert (finv None (delete (d, i) L) (add_links (-1) n s1)) as Hinv2 by (apply finv_unpend; [done|]; simpl; eauto).
  destruct (fi_vnodes _ _ _ Hinv1 n v Hv) as [_ _ _ (xn & Exn & _)].
  destruct (vput_spec None (delete (d, i) L) (add_links (-1) n s1) n v Hinv2 Hv ltac:(done))
    as (s' & E' & Hinv' & Hin' & Hr' & Hv').
  exists (delete (d, i) L), s'.
  assert (forall d' nm', nm' <> [] -> dlookup (add_links (-1) n s1) d' nm' = if decide (d' = d /\ nm' = nm) then None else dlookup s d' nm') as Hdl.
  { intros d' nm' Hn'. rewrite (dlookup_same (Some n) (delete (d, i) L) None (delete (d, i) L) s1) by (done || apply add_links_same).
    unfold s1. rewrite (dlookup_set None L (Some n) (delete (d, i) L) s d i _ _ x l e) by (done || by left). simpl.
    rewrite decide_False by (intros [_ Hx]; congruence). rewrite En.
    destruct (decide (d' = d /\ nm = nm')) as [[-> ->]|Hne]; [by rewrite decide_True|].
    rewrite (decide_False (P := d' = d /\ nm' = nm)) by naive_solver. done. }
  assert (forall m, is_Some (rfs_inodes (add_links (-1) n s1) !! m) <-> is_Some (rfs_inodes s !! m)) as Hdom.
  { intros m. unfold add_links, s1, entry_set. simpl. by rewrite !lookup_alter_is_Some. }
  assert (refs (add_links (-1) n s1) n = refs s n) as Hrs by done.
  split_and!; try done.
  - rewrite <- bind_bind. rewrite (bind_eq _ _ _ _ _ (Hclear _)). fold s1.
    rewrite (bind_eq _ _ _ _ _ (drop_link_eq n v xn s1 Hv Exn)). by rewrite (bind_eq _ _ _ _ _ E').
  - intros m. apply (nlinks_delete L (d, i) n m HL).
  - unfold vput_inodes in Hin'. destruct (decide _) as [(H1 & H2 & _)|Hnot].
    + rewrite Hin', lookup_delete_eq. done.
    + split; [|intros [H1 H2]; destruct Hnot; done]. intros Hgone.
      destruct (proj2 (Hdom n)) as [y Ey]; [by apply (fi_target _ _ _ Hinv _ _ _ HL)|].
      destruct (same_content_some _ _ _ _ Hin' Ey) as (? & ? & _). congruence.
  - intros m Hm. rewrite <- Hdom. unfold vput_inodes in Hin'. destruct (decide _).
    + by rewrite Hin', lookup_delete_ne.
    + specialize (Hin' m). split; intros [y Ey]; rewrite Ey in Hin';
        destruct (rfs_inodes s' !! m), (rfs_inodes (add_links (-1) n s1) !! m); try done; eauto.
  - intros m [y Ey]. rewrite <- (kind_entry_set d i (MkDent n []) (- SIZEOF_DIRENT) s m). fold s1.
    rewrite <- (kind_same _ _ m (add_links_same (-1) n s1)). unfold vput_inodes in Hin'. destruct (decide _).
    + unfold kind. rewrite Hin' in *. apply lookup_delete_Some in Ey as [Hne _]. by rewrite lookup_delete_ne.
    + by apply kind_same.
  - intros d' nm' Hn' Hd'. rewrite <- Hdl by done. unfold vput_inodes in Hin'. destruct (decide _).
    + unfold dlookup. rewrite Hin', lookup_delete_ne; done.
    + by apply (dlookup_same None (delete (d, i) L) None (delete (d, i) L)).
Qed.

(** Taking a reference and giving it back changes nothing. *)
Lemma vget_vput p L s n s1 :
  finv p L s -> is_Some (rfs_inodes s !! n) -> vget n s = Ret (n, s1) -> vput n s1 = Ret (tt, s).
Proof.
  intros Hinv [x Ex] E. destruct (fi_inodes _ _ _ Hinv _ _ Ex) as [[Hn Hno] _ _ Hpos].
  destruct (vget_spec p L s n Hinv ltac:(eauto)) as (s1' & E1 & Hinv1 & _ & _). rewrite E in E1. injection E1 as <-.
  destruct (vnode_inuse s !! n) as [v|] eqn:Ev.
  - destruct (fi_vnodes _ _ _ Hinv _ _ Ev) as [Hr Hres Hb Hi].
    rewrite (vget_ref n v s) in E by (done || lia). injection E as <-.
    set (s1 := set_vnodes _ s) in *.
    assert (vnode_inuse s1 !! n = Some (with_ref (vn_refcount v + 1) v)) as Ev1 by (unfold s1; simpl; by rewrite lookup_insert_eq).
    rewrite (vput_down n _ s1 Ev1 (fi_vnodes _ _ _ Hinv1 _ _ Ev1)) by (simpl; lia). do 2 f_equal.
    apply ramfs_ext; try done. unfold s1. simpl. rewrite insert_insert_eq.
    replace (vn_refcount v + 1 - 1) with (vn_refcount v) by lia. apply insert_id. rewrite Ev. by destruct v.
  - rewrite (vget_load n x s) in E by done. injection E as <-.
    assert (vnode_inuse (loaded n x s) !! n = Some (fresh_vnode x)) as Ev1 by (unfold loaded; simpl; by rewrite lookup_insert_eq).
    assert (rfs_inodes (loaded n x s) !! n = Some (with_links (rf_linkcount x + 1) x)) as Ex1 by (unfold loaded; simpl; by rewrite lookup_insert_eq).
    rewrite (vput_unload n _ _ _ Ev1 (fi_vnodes _ _ _ Hinv1 _ _ Ev1) eq_refl Ex1). do 2 f_equal.
    unfold unloaded. simpl. rewrite (proj2 (Z.eqb_neq _ _)) by lia. apply ramfs_ext; try done; simpl.
    + rewrite insert_insert_eq. apply insert_id. rewrite Ex. f_equal. destruct x. unfold with_links. simpl. f_equal. lia.
    + by rewrite delete_insert_id.
Qed.

Lemma isdir_mode x : S_ISDIR (mode_of x) = bool_decide (rf_mode x = RAMFS_TYPE_DIR).
Proof. unfold mode_of. destruct (rf_mode x); reflexivity. Qed.

(** What removing entry [nm], which names [n], does to the rest. *)
Record removed (L L' : linkmap) (s s' : ramfs) (d : ino) (nm : str) (n : ino) : Prop := {
  re_refs : forall m, refs s' m = refs s m;
  re_gone : rfs_inodes s' !! n = None <-> refs s n = 0 /\ nlinks L' n = 0;
  re_links : forall m, nlinks L' m = nlinks L m - one_if (n = m);
  re_others : forall m, m <> n -> is_Some (rfs_inodes s' !! m) <-> is_Some (rfs_inodes s !! m);
  re_kind : forall m, is_Some (rfs_inodes s' !! m) -> kind s' m = kind s m;
  re_names : forall d' nm', nm' <> [] -> d' <> n ->
    dlookup s' d' nm' = if decide (d' = d /\ nm' = nm) then None else dlookup s d' nm'
}.

Lemma removed_after_vget L L' s s1 s' d nm n :
  finv None L s -> finv None L s1 -> same_content s s1 -> refs s1 n = refs s n + 1 ->
  (forall m, m <> n -> vnode_inuse s1 !! m = vnode_inuse s !! m) ->
  refs s' n = refs s1 n - 1 -> (forall m, m <> n -> vnode_inuse s' !! m = vnode_inuse s1 !! m) ->
  (forall m, nlinks L' m = nlinks L m - one_if (n = m)) ->
  (rfs_inodes s' !! n = None <-> refs s1 n = 1 /\ nlinks L' n = 0) ->
  (forall m, m <> n -> is_Some (rfs_inodes s' !! m) <-> is_Some (rfs_inodes s1 !! m)) ->
  (forall m, is_Some (rfs_inodes s' !! m) -> kind s' m = kind s1 m) ->
  (forall d' nm', nm' <> [] -> d' <> n -> dlookup s' d' nm' = if decide (d' = d /\ nm' = nm) then None else dlookup s1 d' nm') ->
  removed L L' s s' d nm n.
Proof.
  intros H1 H2 Hs Hr1 Hv1 Hr' Hv' Hnl Hgone Hoth Hkd Hnames. split.
  - intros m. destruct (decide (m = n)) as [->|Hne]; [lia|]. unfold refs. by rewrite Hv', Hv1.
  - rewrite Hgone. split; intros [? ?]; (split; [lia|done]).
  - done.
  - intros m Hm. rewrite Hoth by done. specialize (Hs m). split; intros [y Ey]; rewrite Ey in Hs;
      destruct (rfs_inodes s !! m), (rfs_inodes s1 !! m); try done; eauto.
  - intros m Hm. rewrite Hkd by done. by apply kind_same.
  - intros d' nm' Hn' Hd'. rewrite Hnames by done. by rewrite (dlookup_same None L None L s s1).
Qed.

Lemma ramfs_unlink_spec L s d l nm n x :
  finv None L s -> is_dir s d l -> dlookup s d nm = Some n -> good_name nm ->
  rfs_inodes s !! n = Some x -> rf_mode x <> RAMFS_TYPE_DIR ->
  exists L' s', ramfs_unlink d nm s = Ret (0, s') /\ finv None L' s' /\ removed L L' s s' d nm n.
Proof.
  intros Hinv Hd Hl Hg Ex Hmode.
  destruct (vget_spec None L s n Hinv ltac:(eauto)) as (s1 & E1 & Hinv1 & Hs1 & _ & _ & [v1 Hv1] & Hr1 & Ho1).
  pose proof Hd as (xd & vd & Evd & Exd & Emd).
  assert (d <> n) as Hdn.
  { intros ->. destruct (entries_dir _ _ _ _ _ _ Hinv Exd Emd) as (? & _). congruence. }
  assert (is_dir s1 d l) as Hd1 by (apply (is_dir_same s s1 d l vd); [done|done|by rewrite Ho1]).
  assert (dlookup s1 d nm = Some n) as Hl1 by (rewrite (dlookup_same None L None L s s1); [done|done|done|done|apply Hg]).
  assert (n <> fs_root) as Hnr.
  { intros ->. destruct (fi_root _ _ _ Hinv) as (y & Ey & My & _). congruence. }
  destruct (fi_vnodes _ _ _ Hinv1 _ _ Hv1) as [_ _ _ (x1 & Ex1 & Mv1 & _)].
  destruct (same_content_lookup _ _ _ _ Hs1 Ex1) as (x0 & Ex0 & Ec). assert (x0 = x) as -> by congruence.
  assert (forall j, L !! (n, j) = None) as Hno.
  { intros j. destruct (L !! (n, j)) as [m|] eqn:E; [|done].
    apply (fi_links _ _ _ Hinv) in E as (e & (y & k & Ey & Ek & _) & _).
    destruct (entries_dir _ _ _ _ _ _ Hinv Ey Ek) as (? & _). congruence. }
  destruct (remove_tail L s1 d l nm n) as (L' & s' & E' & Hinv' & Hr' & Ho' & Hnl & Hgone & Hoth & Hkd & Hnames); try done.
  exists L', s'. split_and!; [|done|by apply (removed_after_vget L L' s s1)].
  unfold ramfs_unlink. rewrite (bind_eq _ _ _ _ _ (lookup_found_eq _ _ _ _ _ _ Hd Hl E1)). simpl fst. simpl snd.
  rewrite bind_assert by done. simpl. rewrite bind_ret, (bind_eq _ _ _ _ _ (vn_get_eq _ _ _ Hv1)).
  rewrite bind_assert; [done|]. rewrite Mv1, isdir_mode. injection Ec as _ _ _ ->. by rewrite bool_decide_eq_false_2.
Qed.

Lemma empty_dir_spec l e : empty_dir l = true -> e ∈ l -> ~ good_name (rd_name e).
Proof.
  unfold empty_dir. rewrite forallb_forall. intros Hf Hin (H1 & H2 & H3).
  specialize (Hf e (proj1 (list_elem_of_In _ _) Hin)). unfold free_slot in Hf.
  rewrite !orb_true_iff, !bool_decide_eq_true in Hf. tauto.
Qed.

Lemma good_not_dot nm : good_name nm -> negb (name_match DOT nm) && negb (name_match DOTDOT nm) = true.
Proof.
  intros (_ & H1 & H2). unfold name_match. by rewrite !bool_decide_eq_false_2 by congruence.
Qed.

(** [ramfs_rmdir] on every branch: only the removal of an empty directory
    changes anything. *)
Lemma ramfs_rmdir_spec L s d l nm :
  finv None L s -> is_dir s d l -> good_name nm ->
  match dlookup s d nm with
  | None => ramfs_rmdir d nm s = Ret (- ENOENT, s)
  | Some n =>
      match rfs_inodes s !! n with
      | None => False
      | Some x =>
          match rf_mem x with
          | REntries k =>
              if empty_dir k
              then exists L' s', ramfs_rmdir d nm s = Ret (0, s') /\ finv None L' s' /\ removed L L' s s' d nm n
              else ramfs_rmdir d nm s = Ret (- ENOTEMPTY, s)
          | _ => ramfs_rmdir d nm s = Ret (- ENOTDIR, s)
          end
      end
  end.
Proof.
  intros Hinv Hd Hg. unfold ramfs_rmdir. pose proof Hd as (xd & vd & Evd & Exd & Emd).
  destruct (dlookup s d nm) as [n|] eqn:Hl.
  2: { rewrite bind_assert by (by apply good_not_dot).
       assert (Forall (fun e => rd_name e <> nm) l) as Hnot.
       { unfold dlookup in Hl. rewrite Exd, Emd in Hl.
         pose proof (find_slot_spec (fun e => name_match (rd_name e) nm) l) as Hf. destruct (find_slot _ l) as [i|].
         - destruct Hf as (e & Ei & _). by rewrite Ei in Hl.
         - eapply Forall_impl; [exact Hf|]. intros e He. by apply bool_decide_eq_false in He. }
       by rewrite (bind_eq _ _ _ _ _ (lookup_none_eq _ _ _ _ Hd Hnot)). }
  destruct (dlookup_slot _ _ _ _ _ Hd Hl) as (i & e & _ & Ei & En & Ein).
  assert (L !! (d, i) = Some n) as HL.
  { apply (fi_links _ _ _ Hinv). exists e. rewrite En. split; [by exists xd, l|done]. }
  destruct (fi_target _ _ _ Hinv _ _ _ HL) as [x Ex]. rewrite Ex.
  destruct (vget_spec None L s n Hinv ltac:(eauto)) as (s1 & E1 & Hinv1 & Hs1 & _ & _ & [v1 Hv1] & Hr1 & Ho1).
  pose proof (vget_vput _ _ _ _ _ Hinv ltac:(eauto) E1) as Eput.
  destruct (fi_vnodes _ _ _ Hinv1 _ _ Hv1) as [_ _ _ (x1 & Ex1 & Mv1 & _)].
  destruct (same_content_lookup _ _ _ _ Hs1 Ex1) as (x0 & Ex0 & Ec). assert (x0 = x) as -> by congruence.
  rewrite bind_assert by (by apply good_not_dot).
  rewrite (bind_eq _ _ _ _ _ (lookup_found_eq _ _ _ _ _ _ Hd Hl E1)).
  change (negb (fst (0, Some n) =? 0)) with false. cbv iota. cbn [snd].
  rewrite bind_deref, (bind_eq _ _ _ _ _ (vn_get_eq _ _ _ Hv1)). rewrite Mv1, isdir_mode.
  pose proof Ec as [= _ _ Ecm Ecd]. rewrite Ecd.
  destruct (rf_mem x) as [b|k|dv] eqn:Em.
  1, 3: rewrite bool_decide_eq_false_2; [simpl; by rewrite (bind_eq _ _ _ _ _ Eput)|];
    intros Hmode; destruct (fi_inodes _ _ _ Hinv _ _ Ex) as [_ Hty _ _]; unfold typed in Hty; rewrite Hmode, Em in Hty;
    by destruct Hty as (? & ? & _).
  destruct (entries_dir _ _ _ _ _ _ Hinv Ex Em) as (Hdir & _ & _). rewrite bool_decide_eq_true_2 by done.
  change (negb true) with false. cbv iota.
  assert (is_dir s1 n k) as Hdn1 by (exists x1, v1; split_and!; congruence).
  rewrite (bind_eq _ _ _ _ _ (dir_get_eq _ _ _ Hdn1)).
  destruct (empty_dir k) eqn:Hempty; [change (negb true) with false|change (negb false) with true]; cbv iota;
    [|by rewrite (bind_eq _ _ _ _ _ Eput)].
  assert (d <> n) as Hne.
  { intros ->. rewrite Ex in Exd. injection Exd as <-. rewrite Em in Emd. injection Emd as <-.
    apply (empty_dir_spec _ e Hempty); [by eapply list_elem_of_lookup_2|]. by rewrite En. }
  assert (is_dir s1 d l) as Hd1 by (apply (is_dir_same s s1 d l vd); [done|done|by rewrite Ho1]).
  assert (dlookup s1 d nm = Some n) as Hl1 by (rewrite (dlookup_same None L None L s s1); [done|done|done|done|apply Hg]).
  assert (forall j, L !! (n, j) = None) as Hno.
  { intros j. destruct (L !! (n, j)) as [m|] eqn:E; [|done].
    apply (fi_links _ _ _ Hinv) in E as (f & (y & k' & Ey & Ek & Ej) & Hgf & _). assert (k' = k) as -> by congruence.
    destruct (empty_dir_spec _ f Hempty); [by eapply list_elem_of_lookup_2|done]. }
  assert (n <> fs_root) as Hnr.
  { intros ->. pose proof (nlinks_pos _ _ _ HL). destruct (fi_noroot _ _ _ Hinv). lia. }
  destruct (remove_tail L s1 d l nm n) as (L' & s' & E' & Hinv' & Hr' & Ho' & Hnl & Hgone & Hoth & Hkd & Hnames); try done.
  exists L', s'. split_and!; [done|done|by apply (removed_after_vget L L' s s1)].
Qed.

(** The part [ramfs_mknod] and [ramfs_mkdir] share: a fresh inode gets its
    entry. *)
Lemma alloc_entry L s s1 d l nm n i f type devid :
  finv None L s -> is_dir s d l -> linked L d -> new_name l nm -> l !! i = Some f -> rd_name f = [] ->
  allocated n type devid s s1 ->
  let s2 := entry_set d i (MkDent n nm) SIZEOF_DIRENT s1 in
  finv None (<[(d, i) := n]> L) s2 /\ added s s2 d nm n /\ vnode_inuse s2 = vnode_inuse s /\ d <> n /\
  rfs_inodes s2 !! n = Some (MkInode 0 n (fresh_mem type devid) type 1) /\
  (forall z, (set_entry d i (MkDent n (stored_name nm)) ;;; add_size d z) s1 = Ret (tt, entry_set d i (MkDent n nm) z s1)).
Proof.
  intros Hinv Hd Hlink Hnew Hi Hf Ha s2. pose proof Hnew as (Hg & Hlen & Hnot). pose proof Ha as (Hn & Hnone & Hv1 & Hi1).
  pose proof (finv_alloc _ _ _ _ _ _ Hinv Ha) as Hinv1. destruct (is_dir_alloc _ _ _ _ _ _ _ Hd Ha) as [Hd1 Hdn].
  pose proof Hd1 as (x1 & v1 & Ev1 & Ex1 & Em1).
  assert (rfs_inodes s1 !! n = Some (MkInode 0 n (fresh_mem type devid) type 1)) as En1 by (rewrite Hi1; apply lookup_insert_eq).
  destruct (finv_add_entry _ _ _ _ _ _ _ nm SIZEOF_DIRENT Hinv1 Hd1 Hi Hf Hnew ltac:(eauto) Hlink) as [Hinv2 _].
  split_and!; try done.
  - apply (added_set L (Some n) s s1 d i n nm _ x1 l f); try done; [eauto|apply Hg|..].
    + intros d' nm' Hn' _. by apply (dlookup_alloc (Some n) L s s1 _ _ n type devid).
    + intros m y Ey Hmd Hmn. exists y. rewrite Hi1. by rewrite lookup_insert_ne.
  - unfold s2. rewrite (entry_set_lookup d i _ _ s1 x1 l) by done. by rewrite decide_False.
  - intros z. rewrite stored_name_short by done. apply set_entry_eq.
Qed.

Lemma ramfs_mknod_spec L s d l nm mode devid :
  finv None L s -> is_dir s d l -> linked L d -> new_name l nm -> S_ISCHR mode || S_ISBLK mode = true ->
  ramfs_mknod d nm mode devid s = Ret (- ENOSPC, s) \/
  exists n L' s', ramfs_mknod d nm mode devid s = Ret (0, s') /\ finv None L' s' /\ added s s' d nm n /\
    rfs_inodes s !! n = None /\ vnode_inuse s' = vnode_inuse s /\
    exists x, rfs_inodes s' !! n = Some x /\ rf_mem x = RDevid devid /\
      rf_mode x = (if S_ISCHR mode then RAMFS_TYPE_CHR else RAMFS_TYPE_BLK).
Proof.
  intros Hinv Hd Hlink Hnew Hmode. pose proof Hnew as (Hg & Hlen & Hnot). unfold ramfs_mknod.
  rewrite (bind_eq _ _ _ _ _ (new_slot_eq _ _ _ _ Hd Hnot)).
  pose proof (free_slot_spec l) as Hslot. destruct (find_slot free_slot l) as [i|]; [|by left].
  destruct Hslot as (f & Hi & Hf).
  set (type := if S_ISCHR mode then RAMFS_TYPE_CHR else RAMFS_TYPE_BLK).
  assert ((if S_ISCHR mode then mknod_as d nm devid i RAMFS_TYPE_CHR
           else if S_ISBLK mode then mknod_as d nm devid i RAMFS_TYPE_BLK else stop Assert) = mknod_as d nm devid i type) as ->.
  { unfold type. destruct (S_ISCHR mode); [done|]. simpl in Hmode. by rewrite Hmode. }
  unfold mknod_as. destruct (alloc_inode_cases type devid s) as [(n & s1 & E1 & Ha)|E1]; [|left; by rewrite (bind_eq _ _ _ _ _ E1)].
  right. rewrite (bind_eq _ _ _ _ _ E1). pose proof Ha as (Hn & Hnone & _). rewrite (proj2 (Z.ltb_ge _ _)) by lia.
  destruct (alloc_entry _ _ _ _ _ _ _ _ _ _ _ Hinv Hd Hlink Hnew Hi Hf Ha) as (Hinv2 & Hadd & Hv & Hdn & En & Eset).
  eexists n, _, _. split_and!; [|exact Hinv2|done|done|done|].
  - rewrite <- bind_bind. by rewrite (bind_eq _ _ _ _ _ (Eset _)).
  - eexists. split; [exact En|]. unfold type. by destruct (S_ISCHR mode).
Qed.

Lemma set_entry_alone d i e s : set_entry d i e s = Ret (tt, entry_set d i e 0 s).
Proof.
  unfold set_entry, in_set, modify, entry_set. do 2 f_equal. apply ramfs_ext; try done. simpl. apply map_eq. intros m.
  rewrite !lookup_alter. destruct (decide (d = m)); [|done]. destruct (rfs_inodes s !! d) as [x|]; simpl; [|done]. f_equal.
  unfold put_entry, with_size, with_mem. destruct (rf_mem x); simpl; f_equal; destruct x; simpl; f_equal; lia.
Qed.

(** "." and ".." do not count as links. *)
Lemma finv_dot_entry L s d i e z x l f :
  finv None L s -> rfs_inodes s !! d = Some x -> rf_mem x = REntries l -> l !! i = Some f -> rd_name f = [] ->
  ~ good_name (rd_name e) -> Forall (fun g => rd_name g <> rd_name e) l -> finv None L (entry_set d i e z s).
Proof.
  intros Hinv Ex Em Hi Hf Hg Hnew. apply (finv_entry None None L L s d i e z x l f); try done.
  - intros d' j n. destruct (decide ((d', j) = (d, i))) as [[= -> ->]|]; [|done]. split; [|by intros [? _]].
    intros (g & (y & k & Ey & Ek & Ej) & Hgg & _)%(fi_links _ _ _ Hinv). assert (g = f) as -> by congruence. by destruct Hgg.
  - apply (fi_orphan _ _ _ Hinv).
Qed.

Lemma set_entry_size d i e z s x l :
  rfs_inodes s !! d = Some x -> rf_mem x = REntries l -> rf_size x = 0 ->
  (set_entry d i e ;;; in_set d (with_size z)) s = Ret (tt, entry_set d i e z s).
Proof.
  intros Ex Em Hz. unfold set_entry, in_set. rewrite bind_modify. unfold modify, entry_set. do 2 f_equal.
  apply ramfs_ext; try done. simpl. apply map_eq. intros m. destruct (decide (d = m)) as [<-|Hne].
  - rewrite !lookup_alter_eq, Ex. simpl. by rewrite Hz.
  - by rewrite !lookup_alter_ne.
Qed.

Lemma dlookup_other s d i e z x l d' nm :
  rfs_inodes s !! d = Some x -> rf_mem x = REntries l -> d' <> d -> dlookup (entry_set d i e z s) d' nm = dlookup s d' nm.
Proof. intros Ex Em Hne. unfold dlookup. rewrite (entry_set_lookup d i e z s x l) by done. by rewrite decide_False. Qed.

Lemma first_dot_names n e :
  e ∈ <[0%nat := MkDent n DOT]> zero_entries -> rd_name e = DOT \/ rd_name e = [].
Proof.
  intros (k & Hk)%list_elem_of_lookup. destruct (decide (k = 0%nat)) as [->|Hne].
  - rewrite list_lookup_insert_eq in Hk by (unfold zero_entries; rewrite length_replicate; lia). left. by injection Hk as <-.
  - rewrite list_lookup_insert_ne in Hk by done. apply lookup_replicate in Hk as [-> _]. by right.
Qed.

Lemma ramfs_mkdir_spec L s d l nm :
  finv None L s -> is_dir s d l -> linked L d -> new_name l nm ->
  ramfs_mkdir d nm s = Ret (- ENOSPC, s) \/
  exists n L' s', ramfs_mkdir d nm s = Ret (0, s') /\ finv None L' s' /\ added s s' d nm n /\
    rfs_inodes s !! n = None /\ vnode_inuse s' = vnode_inuse s /\
    dlookup s' n DOT = Some n /\ dlookup s' n DOTDOT = Some d /\
    exists x, rfs_inodes s' !! n = Some x /\ rf_mode x = RAMFS_TYPE_DIR.
Proof.
  intros Hinv Hd Hlink Hnew. pose proof Hnew as (Hg & Hlen & Hnot). unfold ramfs_mkdir.
  rewrite (bind_eq _ _ _ _ _ (new_slot_eq _ _ _ _ Hd Hnot)).
  pose proof (free_slot_spec l) as Hslot. destruct (find_slot free_slot l) as [i|]; [|by left].
  destruct Hslot as (f & Hi & Hf).
  destruct (alloc_inode_cases RAMFS_TYPE_DIR 0 s) as [(n & s1 & E1 & Ha)|E1]; [|left; by rewrite (bind_eq _ _ _ _ _ E1)].
  right. rewrite (bind_eq _ _ _ _ _ E1). pose proof Ha as (Hn & Hnone & _). rewrite (proj2 (Z.ltb_ge _ _)) by lia.
  destruct (alloc_entry _ _ _ _ _ _ _ _ _ _ _ Hinv Hd Hlink Hnew Hi Hf Ha) as (Hinv2 & Hadd & Hv & Hdn & En & Eset).
  set (s2 := entry_set d i (MkDent n nm) SIZEOF_DIRENT s1) in *.
  set (x2 := MkInode 0 n (fresh_mem RAMFS_TYPE_DIR 0) RAMFS_TYPE_DIR 1) in *.
  assert (finv None (<[(d, i) := n]> L) (entry_set n 0 (MkDent n DOT) 0 s2)) as Hinv3.
  { apply (finv_dot_entry _ _ _ _ _ _ x2 zero_entries (MkDent 0 [])); try done; [by intros (_ & ? & _)|].
    apply Forall_forall. intros e He. apply elem_of_replicate in He as [-> _]. done. }
  set (s3 := entry_set n 0 (MkDent n DOT) 0 s2) in *.
  set (l3 := <[0%nat := MkDent n DOT]> zero_entries).
  assert (rfs_inodes s3 !! n = Some (with_size 0 (with_mem (REntries l3) x2))) as En3.
  { unfold s3. rewrite (entry_set_lookup _ _ _ _ _ x2 zero_entries) by done. by rewrite decide_True. }
  assert (finv None (<[(d, i) := n]> L) (entry_set n 1 (MkDent d DOTDOT) (2 * SIZEOF_DIRENT) s3)) as Hinv4.
  { apply (finv_dot_entry _ _ _ _ _ _ (with_size 0 (with_mem (REntries l3) x2)) l3 (MkDent 0 [])); try done; [by intros (_ & _ & ?)|].
    apply Forall_forall. intros e He. by destruct (first_dot_names n e He) as [->| ->]. }
  set (s4 := entry_set n 1 (MkDent d DOTDOT) (2 * SIZEOF_DIRENT) s3) in *.
  exists n, (<[(d, i) := n]> L), s4. split_and!; try done.
  - rewrite <- bind_bind. rewrite (bind_eq _ _ _ _ _ (Eset _)). fold s2.
    rewrite (bind_eq _ _ _ _ _ (set_entry_alone _ _ _ _)). fold s3. rewrite <- bind_bind.
    by rewrite (bind_eq _ _ _ _ _ (set_entry_size n 1 (MkDent d DOTDOT) _ _ _ l3 En3 eq_refl eq_refl)).
  - destruct Hadd as [Hnames Hoth]. split.
    + intros d' nm' Hn' Hd'. unfold s4. rewrite (dlookup_other _ _ _ _ _ _ l3 _ _ En3) by done.
      unfold s3. rewrite (dlookup_other _ _ _ _ _ _ zero_entries _ _ En) by done. by apply Hnames.
    + intros m y Ey Hmd Hmn. destruct (Hoth m y) as (y' & Ey' & Ec); [done..|]. exists y'. split; [|done].
      unfold s4. rewrite (entry_set_lookup _ _ _ _ _ _ l3 _ En3), decide_False by done.
      unfold s3. by rewrite (entry_set_lookup _ _ _ _ _ _ zero_entries _ En), decide_False by done.
  - apply (dlookup_iff None (<[(d, i) := n]> L)); [done|done|]. exists 0%nat, (MkDent n DOT). split; [|done].
    unfold s4. apply (entry_set_at _ _ _ _ _ _ l3 _ _ _ En3); [done|unfold l3, zero_entries; rewrite length_insert, length_replicate; lia|].
    rewrite decide_False by congruence. eexists _, l3. done.
  - apply (dlookup_iff None (<[(d, i) := n]> L)); [done|done|]. exists 1%nat, (MkDent d DOTDOT). split; [|done].
    unfold s4. apply (entry_set_at _ _ _ _ _ _ l3 _ _ _ En3); [done|unfold l3, zero_entries; rewrite length_insert, length_replicate; lia|].
    by rewrite decide_True.
  - eexists. split; [unfold s4; rewrite (entry_set_lookup _ _ _ _ _ _ l3 _ En3), decide_True by done; done|done].
Qed.

(** ** File contents *)

(** [n] is a regular file in memory whose page holds [l]. *)
Definition is_file (s : ramfs) (n : ino) (l : list Z) (len : Z) : Prop :=
  exists x v, vnode_inuse s !! n = Some v /\ rfs_inodes s !! n = Some x /\ rf_mode x = RAMFS_TYPE_DATA /\
    rf_mem x = RBytes l /\ rf_size x = len.

Definition overwrite (off : Z) (bytes l : list Z) : list Z :=
  take (Z.to_nat off) l ++ bytes ++ drop (Z.to_nat off + length bytes) l.

Lemma is_file_facts L s n l len :
  finv None L s -> is_file s n l len ->
  length l = 4096%nat /\ 0 <= len <= PAGE_SIZE /\
  exists v, vnode_inuse s !! n = Some v /\ vn_mode v = S_IFREG /\ vn_len v = len.
Proof.
  intros Hinv (x & v & Ev & Ex & Hd & Em & Hs). destruct (fi_inodes _ _ _ Hinv _ _ Ex) as [_ Hty _ _].
  unfold typed in Hty. rewrite Hd in Hty. destruct Hty as (l' & E' & Hlen & Hsz). rewrite Em in E'. injection E' as <-.
  destruct (fi_vnodes _ _ _ Hinv _ _ Ev) as [_ _ _ (y & Ey & My & Ly)]. assert (y = x) as -> by congruence.
  split_and!; [done|lia..|]. exists v. split_and!; [done| |rewrite Ly by done; done]. rewrite My. unfold mode_of. by rewrite Hd.
Qed.

Lemma ramfs_read_eq L s n l len off count :
  finv None L s -> is_file s n l len -> 0 <= off -> 0 <= count < 2147483648 ->
  let r := Z.max 0 (Z.min count (len - off)) in
  ramfs_read n off count s = Ret ((r, take (Z.to_nat r) (drop (Z.to_nat off) l)), s).
Proof.
  intros Hinv Hf Ho Hc r. destruct (is_file_facts _ _ _ _ _ Hinv Hf) as (Hlen & Hsz & v & Ev & Mv & Lv).
  destruct Hf as (x & v' & Ev' & Ex & Hd & Em & Hs). unfold ramfs_read.
  rewrite (bind_eq _ _ _ _ _ (in_get_eq _ _ _ _ Ev Ex)), (bind_eq _ _ _ _ _ (vn_get_eq _ _ _ Ev)).
  rewrite Mv, bind_assert by reflexivity. unfold bytes_of. rewrite Em, bind_deref, Hs.
  rewrite s32_small by (unfold is_s32; lia). fold r.
  assert ((r =? 0) || (0 <=? off) && (off + r <=? PAGE_SIZE) = true) as ->; [|done].
  destruct (Z.eqb_spec r 0); [done|]. simpl. apply andb_true_iff. split; apply Z.leb_le; lia.
Qed.

(** The state after the bytes were stored. *)
Definition stored (n : ino) (off : Z) (bytes : list Z) (len : Z) (s : ramfs) : ramfs :=
  MkRamfs (alter (fun x => match rf_mem x with
                           | RBytes l => with_size len (with_mem (RBytes (overwrite off bytes l)) x)
                           | _ => x
                           end) n (rfs_inodes s))
    (alter (with_len len) n (vnode_inuse s)) (kmem s) (pmem s).

Lemma ramfs_write_eq L s n l len off buf :
  finv None L s -> is_file s n l len -> 0 <= off <= PAGE_SIZE -> Z.of_nat (length buf) < 2147483648 ->
  let r := Z.min (Z.of_nat (length buf)) (PAGE_SIZE - off) in
  ramfs_write n off buf (Z.of_nat (length buf)) s
  = Ret (r, stored n off (take (Z.to_nat r) buf) (Z.max len (off + r)) s).
Proof.
  intros Hinv Hf Ho Hb r. destruct (is_file_facts _ _ _ _ _ Hinv Hf) as (Hlen & Hsz & v & Ev & Mv & Lv).
  destruct Hf as (x & v' & Ev' & Ex & Hd & Em & Hs). unfold ramfs_write.
  rewrite (bind_eq _ _ _ _ _ (in_get_eq _ _ _ _ Ev Ex)), (bind_eq _ _ _ _ _ (vn_get_eq _ _ _ Ev)).
  rewrite Mv, bind_assert by reflexivity. unfold bytes_of. rewrite Em, bind_deref.
  rewrite s32_small by (unfold is_s32; lia). fold r.
  assert ((0 <=? r) && (0 <=? off) = true) as -> by (apply andb_true_iff; split; apply Z.leb_le; lia).
  unfold in_set, vn_set. rewrite bind_modify. rewrite bind_assert by (apply Z.eqb_eq; congruence).
  rewrite !bind_modify. unfold ret. do 2 f_equal. unfold stored. apply ramfs_ext; try done; simpl.
  - apply map_eq. intros m. destruct (decide (m = n)) as [->|Hne]; [|by rewrite !lookup_alter_ne].
    rewrite !lookup_alter_eq, Ex. simpl. rewrite Em. unfold overwrite. rewrite length_take, Lv.
    replace (Z.to_nat off + Z.to_nat r `min` length buf)%nat with (Z.to_nat (off + r)) by lia. done.
  - by rewrite Lv.
Qed.

Lemma overwrite_length off bytes l :
  0 <= off -> (Z.to_nat off + length bytes <= length l)%nat -> length (overwrite off bytes l) = length l.
Proof. intros Ho Hb. unfold overwrite. rewrite !length_app, length_take, length_drop. lia. Qed.

Lemma overwrite_lookup off bytes l i :
  0 <= off -> (Z.to_nat off + length bytes <= length l)%nat ->
  overwrite off bytes l !! i =
    if decide (Z.to_nat off <= i < Z.to_nat off + length bytes)%nat then bytes !! (i - Z.to_nat off)%nat else l !! i.
Proof.
  intros Ho Hb. unfold overwrite. destruct (decide (i < Z.to_nat off)%nat) as [H1|H1].
  - rewrite lookup_app_l by (rewrite length_take; lia). rewrite lookup_take_lt by lia. by rewrite decide_False by lia.
  - rewrite lookup_app_r by (rewrite length_take; lia). rewrite length_take, Nat.min_l by lia.
    destruct (decide (i < Z.to_nat off + length bytes)%nat) as [H2|H2].
    + rewrite lookup_app_l by lia. by rewrite decide_True by lia.
    + rewrite lookup_app_r by lia. rewrite lookup_drop, decide_False by lia. f_equal. lia.
Qed.

Lemma finv_stored L s n l len off bytes :
  finv None L s -> is_file s n l len -> 0 <= off -> off + Z.of_nat (length bytes) <= PAGE_SIZE ->
  let len' := Z.max len (off + Z.of_nat (length bytes)) in
  finv None L (stored n off bytes len' s) /\ is_file (stored n off bytes len' s) n (overwrite off bytes l) len'.
Proof.
  intros Hinv Hf Ho Hb len'. destruct (is_file_facts _ _ _ _ _ Hinv Hf) as (Hlen & Hsz & v & Ev & Mv & Lv).
  destruct Hf as (x & v' & Ev' & Ex & Hd & Em & Hs).
  set (x' := with_size len' (with_mem (RBytes (overwrite off bytes l)) x)).
  assert (forall m, rfs_inodes (stored n off bytes len' s) !! m = if decide (m = n) then Some x' else rfs_inodes s !! m) as Hlk.
  { intros m. unfold stored. simpl. destruct (decide (m = n)) as [->|]; [|by rewrite lookup_alter_ne].
    rewrite lookup_alter_eq, Ex. simpl. by rewrite Em. }
  assert (forall m, vnode_inuse (stored n off bytes len' s) !! m = if decide (m = n) then Some (with_len len' v) else vnode_inuse s !! m) as Hvk.
  { intros m. unfold stored. simpl. destruct (decide (m = n)) as [->|]; [|by rewrite lookup_alter_ne]. by rewrite lookup_alter_eq, Ev. }
  split; [|exists x', (with_len len' v); rewrite Hlk, Hvk, !decide_True by done; done].
  assert (forall d i e, entry_at (stored n off bytes len' s) d i e <-> entry_at s d i e) as Hent.
  { intros d i e. unfold entry_at. rewrite Hlk. destruct (decide (d = n)) as [->|]; [|done]. rewrite Ex.
    split; intros (y & k & [= <-] & Ek & _); simpl in Ek; congruence. }
  destruct Hinv as [Hi Hv Hl Ht Hor Hr Hnr]. split; try done.
  - intros m y. rewrite Hlk. destruct (decide (m = n)) as [->|Hne].
    + intros [= <-]. destruct (Hi _ _ Ex) as [Hn Hty Hc Hp]. split; [done| |rewrite Hvk, decide_True by done|done].
      * unfold typed. simpl. rewrite Hd. eexists. split; [done|]. split; [rewrite overwrite_length; unfold PAGE_SIZE in *; lia|].
        unfold len'. lia.
      * simpl. rewrite Hc, Ev, !one_if_some. done.
    + intros Ey. destruct (Hi _ _ Ey) as [Hn Hty Hc Hp]. split; [done|done| |done]. by rewrite Hvk, decide_False.
  - intros m w. rewrite Hvk. destruct (decide (m = n)) as [->|Hne].
    + intros [= <-]. destruct (Hv _ _ Ev) as [? ? ? (y & Ey & My & Ly)]. assert (y = x) as -> by congruence.
      split; try done. exists x'. rewrite Hlk, decide_True by done. done.
    + intros Ew. destruct (Hv _ _ Ew) as [? ? ? (y & Ey & My & Ly)]. split; try done. exists y. by rewrite Hlk, decide_False.
  - intros d i m. rewrite Hl. by setoid_rewrite Hent.
  - intros d i m HL. rewrite Hlk. destruct (decide (m = n)); [eauto|]. by apply (Ht d i).
  - destruct Hr as (y & Ey & My & [w Ew]). destruct (decide (fs_root = n)) as [<-|Hne]; [congruence|].
    exists y. rewrite Hlk, Hvk, !decide_False by done. eauto.
Qed.

(** ** A freshly mounted file system *)

Definition root_entries : list dirent := [MkDent 0 DOT; MkDent 0 DOTDOT] ++ replicate 126 (MkDent 0 []).
Definition root_inode : inode := MkInode 64 0 (REntries root_entries) RAMFS_TYPE_DIR 2.
Definition mounted (k q : nat) : ramfs :=
  MkRamfs {[fs_root := root_inode]} {[fs_root := MkVnode 1 0 S_IFDIR 64 0 false]} k q.

Lemma ramfs_mount_eq k q : ramfs_mount (MkRamfs ∅ ∅ (S k) (S q)) = Ret (0, mounted k q).
Proof. reflexivity. Qed.

Lemma root_entry_names i e : root_entries !! i = Some e ->
  (i = 0%nat /\ rd_name e = DOT) \/ (i = 1%nat /\ rd_name e = DOTDOT) \/ rd_name e = [].
Proof.
  intros Hi. destruct i as [|[|i]]; [injection Hi as <-; auto..|]. right. right.
  change (root_entries !! S (S i)) with (replicate 126 (MkDent 0 []) !! i) in Hi. apply lookup_replicate in Hi as [-> _]. done.
Qed.

Lemma mounted_ok k q : finv None ∅ (mounted k q).
Proof.
  assert (forall d i e, entry_at (mounted k q) d i e -> ~ good_name (rd_name e)) as Hno.
  { intros d i e (x & l & Ex & El & Ei) (H1 & H2 & H3). simpl in Ex. apply lookup_singleton_Some in Ex as [_ <-].
    injection El as <-. destruct (root_entry_names _ _ Ei) as [[_ ?]|[[_ ?]|?]]; done. }
  split; simpl.
  - intros n x [<- <-]%lookup_singleton_Some. split; simpl; [unfold RAMFS_MAX_FILES; done| | |done].
    + eexists. split; [done|]. split; [done|]. intros i j e f Hi Hj En Hne.
      destruct (root_entry_names _ _ Hi) as [[-> E1]|[[-> E1]|E1]], (root_entry_names _ _ Hj) as [[-> E2]|[[-> E2]|E2]];
        unfold DOT, DOTDOT in *; congruence.
    + rewrite lookup_singleton_eq, one_if_some, one_if_true by done. rewrite (one_if_false (None = Some _)) by done. done.
  - intros n v [<- <-]%lookup_singleton_Some. split; simpl; [lia|done|done|]. exists root_inode.
    rewrite lookup_singleton_eq. done.
  - intros d i n. rewrite lookup_empty. split; [done|]. intros (e & He & Hg & _). by destruct (Hno _ _ _ He).
  - intros d i n. by rewrite lookup_empty.
  - intros n _ _ i. apply lookup_empty.
  - exists root_inode. rewrite !lookup_singleton_eq. eauto.
  - done.
Qed.

(** ** Theorems *)

(** The directory can still be reached from the root. *)
Definition attached (s : ramfs) (d : ino) : Prop :=
  d = fs_root \/ exists d' i e, entry_at s d' i e /\ good_name (rd_name e) /\ rd_ino e = d.

Lemma attached_linked L s d : finv None L s -> attached s d -> linked L d.
Proof.
  intros Hinv [->|(d' & i & e & He & Hg & Hn)]; [by left|right]. exists (d', i). apply (fi_links _ _ _ Hinv). eauto.
Qed.

Inductive fs_op : Type :=
| OpLookup (d : ino) (nm : str)
| OpCreate (d : ino) (nm : str)
| OpMknod (d : ino) (nm : str) (mode devid : Z)
| OpLink (n d : ino) (nm : str)
| OpUnlink (d : ino) (nm : str)
| OpMkdir (d : ino) (nm : str)
| OpRmdir (d : ino) (nm : str)
| OpWrite (n : ino) (off : Z) (buf : list Z)
| OpVput (n : ino).

Definition run_op (o : fs_op) : M ramfs unit :=
  match o with
  | OpLookup d nm => ramfs_lookup d nm ;;; ret tt
  | OpCreate d nm => ramfs_create d nm ;;; ret tt
  | OpMknod d nm mode devid => ramfs_mknod d nm mode devid ;;; ret tt
  | OpLink n d nm => ramfs_link n d nm ;;; ret tt
  | OpUnlink d nm => ramfs_unlink d nm ;;; ret tt
  | OpMkdir d nm => ramfs_mkdir d nm ;;; ret tt
  | OpRmdir d nm => ramfs_rmdir d nm ;;; ret tt
  | OpWrite n off buf => ramfs_write n off buf (Z.of_nat (length buf)) ;;; ret tt
  | OpVput n => vput n
  end.

(** What the callers ensure: they hold the vnodes they pass, directories that
    get new entries have not been removed, names are new where they have to
    be, and a reference that is given up was held. *)
Definition op_pre (s : ramfs) (o : fs_op) : Prop :=
  match o with
  | OpLookup d nm => exists l, is_dir s d l /\ (forall n, dlookup s d nm = Some n -> good_name nm \/ is_Some (rfs_inodes s !! n))
  | OpCreate d nm | OpMkdir d nm => exists l, is_dir s d l /\ attached s d /\ new_name l nm
  | OpMknod d nm mode _ => (exists l, is_dir s d l /\ attached s d /\ new_name l nm) /\ S_ISCHR mode || S_ISBLK mode = true
  | OpLink n d nm => (exists l, is_dir s d l /\ attached s d /\ new_name l nm) /\ is_Some (vnode_inuse s !! n) /\ n <> fs_root
  | OpUnlink d nm => exists l n x, is_dir s d l /\ dlookup s d nm = Some n /\ good_name nm /\
      rfs_inodes s !! n = Some x /\ rf_mode x <> RAMFS_TYPE_DIR
  | OpRmdir d nm => exists l, is_dir s d l /\ good_name nm
  | OpWrite n off buf => exists l len, is_file s n l len /\ 0 <= off <= PAGE_SIZE /\ Z.of_nat (length buf) < 2147483648
  | OpVput n => is_Some (vnode_inuse s !! n) /\ (n = fs_root -> 1 < refs s n)
  end.

Inductive freach (s0 : ramfs) : ramfs -> Prop :=
| freach_refl : freach s0 s0
| freach_step s s' o : freach s0 s -> op_pre s o -> run_op o s = Ret (tt, s') -> freach s0 s'.

Definition ramfs_ok (s : ramfs) : Prop := exists L, finv None L s.

Lemma bind_ret_tt {S A} (m : M S A) s a s' : m s = Ret (a, s') -> (m ;;; ret tt) s = Ret (tt, s').
Proof. intros E. by rewrite (bind_eq _ _ _ _ _ E). Qed.

Lemma lookup_target L s d nm n :
  finv None L s -> dlookup s d nm = Some n -> good_name nm -> is_Some (rfs_inodes s !! n).
Proof.
  intros Hinv E Hg. apply (dlookup_iff None L) in E as (i & e & He & <- & <-); [|done|apply Hg].
  apply (fi_target _ _ _ Hinv d i). apply (fi_links _ _ _ Hinv). eauto.
Qed.

Lemma dlookup_none_names s d l nm : is_dir s d l -> dlookup s d nm = None -> Forall (fun e => rd_name e <> nm) l.
Proof.
  intros (x & v & _ & Ex & Em) Hl. unfold dlookup in Hl. rewrite Ex, Em in Hl.
  pose proof (find_slot_spec (fun e => name_match (rd_name e) nm) l) as Hf. destruct (find_slot _ l) as [i|].
  - destruct Hf as (e & Ei & _). by rewrite Ei in Hl.
  - eapply Forall_impl; [exact Hf|]. intros e He. by apply bool_decide_eq_false in He.
Qed.

Lemma run_op_ok s o : ramfs_ok s -> op_pre s o -> exists s', run_op o s = Ret (tt, s') /\ ramfs_ok s'.
Proof.
  intros [L Hinv] Hpre. destruct o as [d nm|d nm|d nm mode devid|n d nm|d nm|d nm|d nm|n off buf|n]; simpl in *.
  - destruct Hpre as (l & Hd & Ht). destruct (dlookup s d nm) as [n|] eqn:E.
    + assert (is_Some (rfs_inodes s !! n)) as Hn.
      { destruct (Ht n eq_refl) as [Hg|]; [by apply (lookup_target L s d nm)|done]. }
      destruct (vget_spec None L s n Hinv Hn) as (s1 & E1 & Hinv1 & _). exists s1. split; [|by exists L].
      apply (bind_ret_tt _ _ (0, Some n)). by apply (lookup_found_eq s d l).
    + exists s. split; [|by exists L]. apply (bind_ret_tt _ _ (- ENOENT, None)).
      apply (lookup_none_eq s d l); [done|by apply (dlookup_none_names s d)].
  - destruct Hpre as (l & Hd & Ha%(attached_linked L) & Hnew); [|done].
    destruct (ramfs_create_spec L s d l nm Hinv Hd Ha Hnew) as [E|(n & L' & s' & E & Hinv' & _)];
      eexists; (split; [by apply (bind_ret_tt _ _ _ _ E)|]); by eexists.
  - destruct Hpre as ((l & Hd & Ha%(attached_linked L) & Hnew) & Hmode); [|done].
    destruct (ramfs_mknod_spec L s d l nm mode devid Hinv Hd Ha Hnew Hmode) as [E|(n & L' & s' & E & Hinv' & _)];
      eexists; (split; [by apply (bind_ret_tt _ _ _ _ E)|]); by eexists.
  - destruct Hpre as ((l & Hd & Ha%(attached_linked L) & Hnew) & Hv & Hr); [|done].
    destruct (ramfs_link_spec L s d l nm n Hinv Hd Ha Hnew Hv Hr) as [E|(L' & s' & E & Hinv' & _)];
      eexists; (split; [by apply (bind_ret_tt _ _ _ _ E)|]); by eexists.
  - destruct Hpre as (l & n & x & Hd & Hl & Hg & Ex & Hm).
    destruct (ramfs_unlink_spec L s d l nm n x Hinv Hd Hl Hg Ex Hm) as (L' & s' & E & Hinv' & _).
    eexists; (split; [by apply (bind_ret_tt _ _ _ _ E)|]); by eexists.
  - destruct Hpre as (l & Hd & Ha%(attached_linked L) & Hnew); [|done].
    destruct (ramfs_mkdir_spec L s d l nm Hinv Hd Ha Hnew) as [E|(n & L' & s' & E & Hinv' & _)];
      eexists; (split; [by apply (bind_ret_tt _ _ _ _ E)|]); by eexists.
  - destruct Hpre as (l & Hd & Hg). pose proof (ramfs_rmdir_spec L s d l nm Hinv Hd Hg) as H.
    destruct (dlookup s d nm) as [n|]; [|eexists; (split; [by apply (bind_ret_tt _ _ _ _ H)|]); by eexists].
    destruct (rfs_inodes s !! n) as [x|]; [|done].
    destruct (rf_mem x) as [b|k|dv]; [|destruct (empty_dir k); [destruct H as (L' & s' & H & Hinv' & _)|]|];
      eexists; (split; [by apply (bind_ret_tt _ _ _ _ H)|]); by eexists.
  - destruct Hpre as (l & len & Hf & Ho & Hb). pose proof (ramfs_write_eq L s n l len off buf Hinv Hf Ho Hb) as E. simpl in E.
    eexists. split; [by apply (bind_ret_tt _ _ _ _ E)|]. exists L.
    set (r := Z.min (Z.of_nat (length buf)) (PAGE_SIZE - off)) in *.
    assert (Z.of_nat (length (take (Z.to_nat r) buf)) = r) as Hlr by (rewrite length_take; lia).
    destruct (finv_stored L s n l len off (take (Z.to_nat r) buf) Hinv Hf) as [Hinv' _]; [lia|lia|]. by rewrite Hlr in Hinv'.
  - destruct Hpre as [[v Hv] Hr]. destruct (vput_spec None L s n v Hinv Hv Hr) as (s' & E & Hinv' & _).
    exists s'. split; [done|]. by exists L.
Qed.

Lemma freach_ok s0 s : ramfs_ok s0 -> freach s0 s -> ramfs_ok s.
Proof.
  intros H0. induction 1 as [|s s' o Hr IH Hpre E]; [done|].
  destruct (run_op_ok s o IH Hpre) as (s'' & E' & Hok). congruence.
Qed.

(** Some directory has an entry for the inode. *)
Definition named (s : ramfs) (n : ino) : Prop :=
  exists d i e, entry_at s d i e /\ good_name (rd_name e) /\ rd_ino e = n.

Lemma nlinks_zero_iff p L s n : finv p L s -> nlinks L n = 0 <-> ~ named s n.
Proof.
  intros Hinv. split.
  - intros Hz (d & i & e & He). assert (L !! (d, i) = Some n) as HL by (apply (fi_links _ _ _ Hinv); eauto).
    apply nlinks_pos in HL. lia.
  - intros Hn. unfold nlinks. rewrite (proj2 (map_size_empty_iff _)); [done|]. apply map_empty_filter.
    intros [d i] m HL Em. simpl in Em. subst m. apply Hn. apply (fi_links _ _ _ Hinv) in HL as [e He]. by exists d, i, e.
Qed.

(** The directory now has the name, for [n], and no directory changed otherwise. *)
Definition name_added (s s' : ramfs) (d : ino) (nm : str) (n : ino) : Prop :=
  forall d' nm', nm' <> [] -> d' <> n \/ is_Some (rfs_inodes s !! n) ->
    dlookup s' d' nm' = if decide (d' = d /\ nm' = nm) then Some n else dlookup s d' nm'.

Lemma added_name s s' d nm n : added s s' d nm n -> rfs_inodes s !! n = None -> name_added s s' d nm n.
Proof. intros [Ha _] Hn d' nm' H1 [H2|H2]; [by apply Ha|]. rewrite Hn in H2. by destruct H2. Qed.

(** Entering a new name in a directory that has not been removed either
    fails with -ENOSPC and changes nothing, or adds exactly this name: after
    [ramfs_create] it names a fresh empty file whose vnode the caller holds,
    after [ramfs_mkdir] a fresh directory whose "." and ".." are itself and the
    parent, after [ramfs_link] the given inode; every other name of every other
    directory still leads where it did, and the file system stays well formed. *)
Theorem ramfs_new_name_correct s d l nm :
  ramfs_ok s -> is_dir s d l -> attached s d -> new_name l nm ->
  (ramfs_create d nm s = Ret ((- ENOSPC, None), s) \/
   exists n s', ramfs_create d nm s = Ret ((0, Some n), s') /\ ramfs_ok s' /\ rfs_inodes s !! n = None /\
     name_added s s' d nm n /\ is_file s' n zero_bytes 0 /\ refs s' n = 1) /\
  (ramfs_mkdir d nm s = Ret (- ENOSPC, s) \/
   exists n s', ramfs_mkdir d nm s = Ret (0, s') /\ ramfs_ok s' /\ rfs_inodes s !! n = None /\
     name_added s s' d nm n /\ dlookup s' n DOT = Some n /\ dlookup s' n DOTDOT = Some d /\
     vnode_inuse s' = vnode_inuse s) /\
  (forall n, is_Some (vnode_inuse s !! n) -> n <> fs_root ->
   ramfs_link n d nm s = Ret (- ENOSPC, s) \/
   exists s', ramfs_link n d nm s = Ret (0, s') /\ ramfs_ok s' /\ name_added s s' d nm n /\
     vnode_inuse s' = vnode_inuse s).
Proof.
  intros [L Hinv] Hd Ha Hnew. pose proof (attached_linked _ _ _ Hinv Ha) as Hl. split_and!.
  - destruct (ramfs_create_spec L s d l nm Hinv Hd Hl Hnew) as [E|(n & L' & s' & E & Hinv' & Had & Hn & Hr & _ & x & Ex & Hc)];
      [by left|right]. exists n, s'. split_and!; [done|by exists L'|done|by apply added_name| |done].
    unfold refs in Hr. destruct (vnode_inuse s' !! n) as [v|] eqn:Ev; [|lia]. injection Hc as H1 H2 H3 H4. by exists x, v.
  - destruct (ramfs_mkdir_spec L s d l nm Hinv Hd Hl Hnew) as [E|(n & L' & s' & E & Hinv' & Had & Hn & Hv & H1 & H2 & _)];
      [by left|right]. exists n, s'. split_and!; [done|by exists L'|done|by apply added_name|done..].
  - intros n Hv Hr. destruct (ramfs_link_spec L s d l nm n Hinv Hd Hl Hnew Hv Hr) as [E|(L' & s' & E & Hinv' & Hu & Hn)];
      [by left|right]. exists s'. split_and!; [done|by exists L'| |done]. intros d' nm' H1 _. by apply Hn.
Qed.

(** What an unlink or a rmdir leaves behind. *)
Definition name_removed (s s' : ramfs) (d : ino) (nm : str) (n : ino) : Prop :=
  (forall d' nm', nm' <> [] -> d' <> n -> dlookup s' d' nm' = if decide (d' = d /\ nm' = nm) then None else dlookup s d' nm') /\
  (forall m, refs s' m = refs s m) /\
  (rfs_inodes s' !! n = None <-> refs s n = 0 /\ ~ named s' n) /\
  (forall m, m <> n -> is_Some (rfs_inodes s' !! m) <-> is_Some (rfs_inodes s !! m)).

Lemma removed_name L L' s s' d nm n : finv None L' s' -> removed L L' s s' d nm n -> name_removed s s' d nm n.
Proof. intros Hinv' [Hr Hg _ Ho _ Hn]. split_and!; try done. by rewrite Hg, (nlinks_zero_iff None L' s'). Qed.

(** C34: Unlinking a file takes exactly its name out of the directory and no
    reference of any vnode; the inode is freed exactly when no other name is
    left and nobody holds its vnode, and no other inode is.  Removing a
    directory does the same when it has no entries but "." and ".."; for a
    missing name, something that is not a directory or a directory in use the
    call returns -ENOENT, -ENOTDIR or -ENOTEMPTY and changes nothing. *)
Theorem ramfs_remove_name_correct s d l nm :
  ramfs_ok s -> is_dir s d l -> good_name nm ->
  (forall n x, dlookup s d nm = Some n -> rfs_inodes s !! n = Some x -> rf_mode x <> RAMFS_TYPE_DIR ->
     exists s', ramfs_unlink d nm s = Ret (0, s') /\ ramfs_ok s' /\ name_removed s s' d nm n) /\
  match dlookup s d nm with
  | None => ramfs_rmdir d nm s = Ret (- ENOENT, s)
  | Some n => exists x, rfs_inodes s !! n = Some x /\
      match rf_mem x with
      | REntries k => if empty_dir k
                      then exists s', ramfs_rmdir d nm s = Ret (0, s') /\ ramfs_ok s' /\ name_removed s s' d nm n
                      else ramfs_rmdir d nm s = Ret (- ENOTEMPTY, s)
      | _ => ramfs_rmdir d nm s = Ret (- ENOTDIR, s)
      end
  end.
Proof.
  intros [L Hinv] Hd Hg. split.
  - intros n x Hl Ex Hm. destruct (ramfs_unlink_spec L s d l nm n x Hinv Hd Hl Hg Ex Hm) as (L' & s' & E & Hinv' & Hr).
    exists s'. split_and!; [done|by exists L'|by apply (removed_name L L')].
  - pose proof (ramfs_rmdir_spec L s d l nm Hinv Hd Hg) as H. destruct (dlookup s d nm) as [n|]; [|done].
    destruct (rfs_inodes s !! n) as [x|]; [|done]. exists x. split; [done|]. destruct (rf_mem x) as [b|k|dv]; [done| |done].
    destruct (empty_dir k); [|done]. destruct H as (L' & s' & E & Hinv' & Hr).
    exists s'. split_and!; [done|by exists L'|by apply (removed_name L L')].
Qed.

(** A write to a regular file at an offset inside its page stores as many
    bytes as fit, extends the size to the end of what was stored, and changes
    nothing else: reading the range back gives the bytes written, and any other
    read gives the bytes that were in the file before, cut at the new size. *)
Theorem ramfs_write_read s n l len off buf :
  ramfs_ok s -> is_file s n l len -> 0 <= off <= PAGE_SIZE -> Z.of_nat (length buf) < 2147483648 ->
  let r := Z.min (Z.of_nat (length buf)) (PAGE_SIZE - off) in
  let len' := Z.max len (off + r) in
  exists s', ramfs_write n off buf (Z.of_nat (length buf)) s = Ret (r, s') /\ ramfs_ok s' /\
    (forall m, m <> n -> rfs_inodes s' !! m = rfs_inodes s !! m) /\
    ramfs_read n off r s' = Ret ((r, take (Z.to_nat r) buf), s') /\
    (forall off2 count, 0 <= off2 -> 0 <= count < 2147483648 ->
     let r2 := Z.max 0 (Z.min count (len' - off2)) in
     exists bytes, ramfs_read n off2 count s' = Ret ((r2, bytes), s') /\ length bytes = Z.to_nat r2 /\
       forall i, (i < Z.to_nat r2)%nat -> ~ off <= off2 + Z.of_nat i < off + r -> bytes !! i = l !! (Z.to_nat off2 + i)%nat).
Proof.
  intros [L Hinv] Hf Ho Hb r len'. pose proof (ramfs_write_eq L s n l len off buf Hinv Hf Ho Hb) as E.
  cbv zeta in E. fold r len' in E. set (bytes := take (Z.to_nat r) buf) in *.
  destruct (is_file_facts _ _ _ _ _ Hinv Hf) as (Hlen & Hsz & _).
  assert (Z.of_nat (length bytes) = r) as Hlr by (unfold bytes; rewrite length_take; lia).
  destruct (finv_stored L s n l len off bytes Hinv Hf) as [Hinv' Hf']; [lia|lia|]. rewrite Hlr in Hinv', Hf'. fold len' in Hinv', Hf'.
  assert (Z.to_nat off + length bytes <= length l)%nat as Hfit by (unfold PAGE_SIZE in *; lia).
  exists (stored n off bytes len' s). split_and!; [done|by exists L| | |].
  - intros m Hm. simpl. by rewrite lookup_alter_ne.
  - rewrite (ramfs_read_eq L _ n _ len' off r Hinv' Hf') by lia. replace (Z.max 0 (Z.min r (len' - off))) with r by lia.
    do 3 f_equal. unfold overwrite. rewrite drop_app_ge by (rewrite length_take; lia).
    rewrite length_take, Nat.min_l by lia. rewrite Nat.sub_diag, drop_0. rewrite take_app_length' by lia. done.
  - intros off2 count Ho2 Hc r2. eexists. split; [by apply (ramfs_read_eq L _ n _ len' off2 count Hinv' Hf')|]. fold r2.
    rewrite length_take, length_drop, overwrite_length by lia. split; [unfold PAGE_SIZE in *; lia|].
    intros i Hi Hout. rewrite lookup_take_lt, lookup_drop, overwrite_lookup by lia. by rewrite decide_False by lia.
Qed.

(** C16: From a freshly mounted file system, any sequence of lookups, creations,
    links, removals, writes and releases whose callers keep to what they have
    to ensure leads to a well-formed file system: every link count is exact,
    every name leads to an inode, every held vnode has one; and the next such
    operation runs to its end without a failed assertion or a stray access.
    The callers ensure ([op_pre]) that the directory is held and one; that a new name
    fits, is neither "." nor ".." nor taken, and its directory is still in the tree; that
    the name unlinked is that of an existing object other than a directory, the name given to rmdir
    neither empty nor "." nor ".."; that a write goes to a held file, at an offset from 0 to the page
    size, of less than 2^31 bytes; that only held vnodes are linked or released, and not the root's
    last reference.  No caller bounds the offset of a write: see [ramfs_write_beyond_page]. *)
Theorem ramfs_reachable_ok k q s o :
  ramfs_mount (MkRamfs ∅ ∅ (S k) (S q)) = Ret (0, mounted k q) /\
  (freach (mounted k q) s -> op_pre s o -> ramfs_ok s /\ exists s', run_op o s = Ret (tt, s') /\ ramfs_ok s').
Proof.
  split; [apply ramfs_mount_eq|]. intros Hr Hpre. assert (ramfs_ok s) as Hok; [|split; [done|by apply run_op_ok]].
  apply (freach_ok (mounted k q)); [exists ∅; apply mounted_ok|done].
Qed.

(** A write that starts behind the end of the page is undefined: the number
    of bytes computed for it is negative, and [memcpy] gets it as its length. *)
Theorem ramfs_write_beyond_page s n l len off buf :
  ramfs_ok s -> is_file s n l len -> PAGE_SIZE < off -> 0 <= Z.of_nat (length buf) < 2147483648 ->
  ramfs_write n off buf (Z.of_nat (length buf)) s = Stop Undef.
Proof.
  intros [L Hinv] Hf Ho Hb. destruct (is_file_facts _ _ _ _ _ Hinv Hf) as (Hlen & Hsz & v & Ev & Mv & Lv).
  destruct Hf as (x & v' & Ev' & Ex & Hd & Em & Hs). unfold ramfs_write.
  rewrite (bind_eq _ _ _ _ _ (in_get_eq _ _ _ _ Ev Ex)), (bind_eq _ _ _ _ _ (vn_get_eq _ _ _ Ev)).
  rewrite Mv, bind_assert by reflexivity. unfold bytes_of. rewrite Em, bind_deref.
  rewrite s32_small by (unfold is_s32; lia).
  assert ((0 <=? Z.min (Z.of_nat (length buf)) (PAGE_SIZE - off)) = false) as -> by (apply Z.leb_gt; lia). done.
Qed.

(** ** Witnesses *)

(** The states after a mount, and after the creation of "f" and "d" in the root. *)
Definition after (o : fs_op) (s : ramfs) : ramfs := match run_op o s with Ret (_, s') => s' | Stop _ => s end.
Definition ex_mounted : ramfs := mounted 9 9.
Definition ex_file : ramfs := after (OpCreate 0 [102]) ex_mounted.
Definition ex_dirs : ramfs := after (OpMkdir 0 [100]) ex_file.

Lemma after_ok s o : ramfs_ok s -> op_pre s o -> ramfs_ok (after o s).
Proof. intros Hs Ho. destruct (run_op_ok s o Hs Ho) as (s' & E & Hok). unfold after. by rewrite E. Qed.

Lemma root_is_dir s x v l :
  vnode_inuse s !! fs_root = Some v -> rfs_inodes s !! fs_root = Some x -> rf_mem x = REntries l -> is_dir s fs_root l.
Proof. by exists x, v. Qed.

Ltac by_root := eapply root_is_dir; vm_compute; reflexivity.
Ltac by_names :=
  split; [unfold good_name; split_and!; discriminate|split; [simpl; lia|apply (bool_decide_unpack _); vm_compute; exact I]].

Lemma ex_create_pre : op_pre ex_mounted (OpCreate 0 [102]).
Proof. eexists. split; [by_root|]. split; [by left|by_names]. Qed.

Lemma ex_mkdir_pre : op_pre ex_file (OpMkdir 0 [100]).
Proof. eexists. split; [by_root|]. split; [by left|by_names]. Qed.

Lemma ex_file_ok : ramfs_ok ex_file.
Proof. apply after_ok, ex_create_pre. exists ∅. apply mounted_ok. Qed.

Lemma ex_dirs_ok : ramfs_ok ex_dirs.
Proof. apply after_ok, ex_mkdir_pre. apply ex_file_ok. Qed.

Lemma ex_file_is_file : is_file ex_file 1 zero_bytes 0.
Proof. unfold is_file. eexists _, _. split_and!; vm_compute; reflexivity. Qed.

Lemma ramfs_new_name_correct_witness :
  exists n s', ramfs_mkdir 0 [100] ex_file = Ret (0, s') /\ dlookup s' 0 [102] = Some 1 /\ dlookup s' 0 [100] = Some n.
Proof.
  assert (exists l, is_dir ex_file 0 l /\ new_name l [100]) as (l & Hd & Hnew).
  { eexists. split; [by_root|by_names]. }
  destruct (ramfs_new_name_correct ex_file 0 l [100] ex_file_ok Hd (or_introl eq_refl) Hnew)
    as (_ & [E|(n & s' & E & _ & _ & Hadd & _)] & _).
  - assert (match ramfs_mkdir 0 [100] ex_file with Ret (r, _) => r =? 0 | Stop _ => false end = true) as Hr by by vm_compute.
    rewrite E in Hr. by vm_compute in Hr.
  - assert (match ramfs_mkdir 0 [100] ex_file with Ret (_, s1) => bool_decide (dlookup s1 0 [100] = Some 2) | Stop _ => false end
            = true) as Hn by by vm_compute.
    rewrite E in Hn. apply bool_decide_eq_true in Hn. assert (rfs_inodes ex_file !! 2 = None) as H2 by by vm_compute.
    exists 2, s'. split_and!; [done| |done]. destruct (decide (n = 0)) as [->|H0].
    + specialize (Hadd 0 [100] ltac:(done)). rewrite decide_True in Hadd by done. rewrite Hadd in Hn; [done|].
      right. eexists. vm_compute. reflexivity.
    + rewrite Hadd; [|done|by left]. rewrite decide_False by (intros [_ Hx]; done). by vm_compute.
Defined.

Lemma ramfs_remove_name_correct_witness :
  exists s', ramfs_rmdir 0 [100] ex_dirs = Ret (0, s') /\ dlookup s' 0 [100] = None /\ rfs_inodes s' !! 2 = None.
Proof.
  assert (exists l, is_dir ex_dirs 0 l) as (l & Hd) by (eexists; by_root).
  assert (good_name [100]) as Hg by (unfold good_name; split_and!; discriminate).
  destruct (ramfs_remove_name_correct ex_dirs 0 l [100] ex_dirs_ok Hd Hg) as (_ & H).
  assert (dlookup ex_dirs 0 [100] = Some 2) as Hl by by vm_compute. rewrite Hl in H. destruct H as (x & Ex & H).
  assert (rf_mem <$> rfs_inodes ex_dirs !! 2 = Some (REntries (<[0%nat := MkDent 2 DOT]> (<[1%nat := MkDent 0 DOTDOT]> zero_entries)))) as Em
    by by vm_compute.
  rewrite Ex in Em. simpl in Em. apply (inj Some) in Em. rewrite Em in H.
  destruct H as (s' & E & _ & Hn & _ & Hgone & _). exists s'. split_and!; [done| |].
  - rewrite Hn by done. by rewrite decide_True.
  - assert (match ramfs_rmdir 0 [100] ex_dirs with Ret (_, s1) => bool_decide (rfs_inodes s1 !! 2 = None) | Stop _ => false end = true)
      as Hb by by vm_compute.
    rewrite E in Hb. by apply bool_decide_eq_true in Hb.
Defined.

Lemma ramfs_write_read_witness :
  exists s', ramfs_write 1 4 [7; 8; 9] 3 ex_file = Ret (3, s') /\ ramfs_read 1 4 3 s' = Ret ((3, [7; 8; 9]), s').
Proof.
  destruct (ramfs_write_read ex_file 1 zero_bytes 0 4 [7; 8; 9] ex_file_ok ex_file_is_file) as (s' & E & _ & _ & Hr & _);
    [unfold PAGE_SIZE; lia|simpl; lia|]. by exists s'.
Defined.

Lemma ramfs_reachable_ok_witness : ramfs_ok ex_file /\ exists s', run_op (OpMkdir 0 [100]) ex_file = Ret (tt, s') /\ ramfs_ok s'.
Proof.
  apply (proj2 (ramfs_reachable_ok 9 9 ex_file (OpMkdir 0 [100]))); [|exact ex_mkdir_pre].
  apply (freach_step _ ex_mounted _ (OpCreate 0 [102])); [apply freach_refl|exact ex_create_pre|].
  destruct (run_op_ok ex_mounted (OpCreate 0 [102])) as (s' & E & _); [exists ∅; apply mounted_ok|exact ex_create_pre|].
  unfold ex_file, after. by rewrite E.
Defined.

Lemma ramfs_write_beyond_page_witness : ramfs_write 1 4097 [7] 1 ex_file = Stop Undef.
Proof.
  apply (ramfs_write_beyond_page ex_file 1 zero_bytes 0 4097 [7] ex_file_ok ex_file_is_file); [unfold PAGE_SIZE|simpl]; lia.
Defined.
