(* ===== verification/Namev.v ===== *)
(** * Path names (fs/namev.c)

    [dir_namev] walks the directories of a path with [lookup]; [open_namev]
    then looks up, or creates, the last component.  Each step takes a reference
    on the next vnode and gives back the one before it.  The specification is
    [resolve], which follows the entries of the directories and touches no
    reference; the theorem says that the walk finds what [resolve] finds and
    leaves exactly one reference behind, and none when it fails. *)

From S2P Require Import Prelude Ramfs.

Definition MAXPATHLEN : Z := 1024.
Definition O_RDONLY : Z := 0.
Definition O_WRONLY : Z := 1.
Definition O_RDWR : Z := 2.
Definition O_CREAT : Z := 256.
Definition O_TRUNC : Z := 512.
Definition O_APPEND : Z := 1024.
Definition SLASH : Z := 47.

Definition strlen (p : str) : Z := Z.of_nat (length p).

(** ** The operations *)

(** A vnode has a [lookup], a [create], a [mkdir] ... exactly when it is a
    directory: [ramfs_dir_vops] has them, [ramfs_file_vops] and the tables of
    the special files do not. *)
Definition has_dir_ops (v : vnode) : bool := S_ISDIR (vn_mode v).

Definition lookup (dir : ino) (name : str) : M ramfs (Z * option ino) :=
  let! v := vn_get dir in
  if negb (has_dir_ops v) then ret (- ENOTDIR, None)
  else if NAME_LEN <? strlen name then ret (- ENAMETOOLONG, None)
  else if strlen name =? 0 then vget dir ;;; ret (0, Some dir)
  else ramfs_lookup dir name.

(** The components in front of each slash, and what follows the last one. *)
Fixpoint components (p : str) : list str * str :=
  match p with
  | [] => ([], [])
  | c :: p' =>
      let (cs, base) := components p' in
      if c =? SLASH then ([] :: cs, base)
      else match cs with
           | [] => ([], c :: base)
           | x :: cs' => ((c :: x) :: cs', base)
           end
  end.

(** What [dir_namev] returns and leaves in [*name] and [*res_vnode]; [None]
    when it has not written the location. *)
Record namev : Type := MkNamev {
  nv_errno : Z;
  nv_name : option str;
  nv_vnode : option ino
}.

(** The loop over the slashes; [res] is [*res_vnode]. *)
Fixpoint walk (dir : ino) (res : option ino) (cs : list str) (base : str) : M ramfs namev :=
  match cs with
  | [] => ret (MkNamev 0 (Some base) (Some dir))
  | c :: cs' =>
      let! r := lookup dir c in
      if fst r <? 0 then vput dir ;;; ret (MkNamev (fst r) None res)
      else
        vput dir ;;;
        let! next := deref (snd r) in
        walk next (Some next) cs' base
  end.

(** [p_cwd] is the working directory of the current process. *)
Definition dir_namev (p_cwd : ino) (pathname : str) (base : option ino) : M ramfs namev :=
  match pathname with
  | [] => ret (MkNamev (- EINVAL) None None)
  | c :: rest =>
      let root := c =? SLASH in
      let pathname' := if root then rest else pathname in
      let dir := if root then fs_root else match base with None => p_cwd | Some b => b end in
      vget dir ;;;
      if MAXPATHLEN <? strlen pathname' then stop Undef    (* [buffer] overflows *)
      else
        let (cs, last) := components pathname' in
        walk dir (if root then Some dir else None) cs last
  end.

Definition open_namev (p_cwd : ino) (pathname : str) (flag : Z) (base : option ino) : M ramfs (Z * option ino) :=
  let! r := dir_namev p_cwd pathname base in
  if nv_errno r <? 0 then ret (nv_errno r, None)
  else
    let! dir := deref (nv_vnode r) in
    let! name := deref (nv_name r) in
    let! l := lookup dir name in
    let! res :=
      (if (fst l =? - ENOENT) && (Z.land flag O_CREAT =? O_CREAT) then
         let! v := vn_get dir in
         KASSERT (has_dir_ops v) ;;;
         ramfs_create dir name
       else ret l) in
    vput dir ;;;
    ret res.

(** ** The specification *)

Inductive resolved : Type :=
| At (n : ino)
| Err (e : Z)
| Lost.      (* an entry names an inode that is gone: ".." of a removed directory *)

#[export] Instance resolved_eq_dec : EqDecision resolved.
Proof. solve_decision. Defined.

Definition find (s : ramfs) (d : ino) (nm : str) : resolved :=
  match rfs_inodes s !! d with
  | None => Lost
  | Some x =>
      if decide (rf_mode x = RAMFS_TYPE_DIR) then
        if NAME_LEN <? strlen nm then Err ENAMETOOLONG
        else if strlen nm =? 0 then At d
        else match dlookup s d nm with
             | None => Err ENOENT
             | Some n => match rfs_inodes s !! n with Some _ => At n | None => Lost end
             end
      else Err ENOTDIR
  end.

Fixpoint resolve (s : ramfs) (d : ino) (cs : list str) : resolved :=
  match cs with
  | [] => At d
  | c :: cs' => match find s d c with At n => resolve s n cs' | r => r end
  end.

(** ** Taking and giving back references *)

Definition vgot (n : ino) (s : ramfs) : ramfs :=
  match vnode_inuse s !! n with
  | Some v => set_vnodes (<[n := with_ref (vn_refcount v + 1) v]>) s
  | None => match rfs_inodes s !! n with Some x => loaded n x s | None => s end
  end.

Lemma vget_eq L s n : finv None L s -> is_Some (rfs_inodes s !! n) -> vget n s = Ret (n, vgot n s).
Proof.
  intros Hinv [x Ex]. destruct (fi_inodes _ _ _ Hinv _ _ Ex) as [[Hn Hno] _ _ _]. unfold vgot.
  destruct (vnode_inuse s !! n) as [v|] eqn:Ev.
  - destruct (fi_vnodes _ _ _ Hinv _ _ Ev) as [Hr _ Hb _]. apply vget_ref; [done|done|lia].
  - rewrite Ex. by apply vget_load.
Qed.

Record vgot_facts (L : gmap (ino * nat) ino) (s : ramfs) (n : ino) : Prop := {
  vg_inv : finv None L (vgot n s);
  vg_same : same_content s (vgot n s);
  vg_inuse : is_Some (vnode_inuse (vgot n s) !! n);
  vg_refs : refs (vgot n s) n = refs s n + 1;
  vg_others : forall m, m <> n -> vnode_inuse (vgot n s) !! m = vnode_inuse s !! m
}.

Lemma vgot_ok L s n : finv None L s -> is_Some (rfs_inodes s !! n) -> vgot_facts L s n.
Proof.
  intros Hinv Hn. destruct (vget_spec None L s n Hinv Hn) as (s' & E & H1 & H2 & _ & _ & H3 & H4 & H5).
  rewrite (vget_eq L s n Hinv Hn) in E. injection E as <-. by split.
Qed.

Lemma vput_vgot L s n : finv None L s -> is_Some (rfs_inodes s !! n) -> vput n (vgot n s) = Ret (tt, s).
Proof. intros Hinv Hn. apply (vget_vput None L s n); [done|done|]. by apply (vget_eq L). Qed.

Lemma vgot_comm s d n : vgot d (vgot n s) = vgot n (vgot d s).
Proof.
  destruct (decide (d = n)) as [->|Hne]; [done|]. unfold vgot at 2 4.
  destruct (vnode_inuse s !! n) as [v|] eqn:Ev, (vnode_inuse s !! d) as [w|] eqn:Ew.
  - unfold vgot. simpl. rewrite !lookup_insert_ne, Ev, Ew by done. apply ramfs_ext; try done. simpl. by rewrite insert_insert_ne.
  - unfold vgot. simpl. rewrite lookup_insert_ne, Ew by done. destruct (rfs_inodes s !! d) as [x|]; simpl.
    + rewrite lookup_insert_ne, Ev by done. apply ramfs_ext; try done. simpl. by rewrite insert_insert_ne.
    + by rewrite Ev.
  - unfold vgot. destruct (rfs_inodes s !! n) as [x|] eqn:Ex; simpl.
    + rewrite !lookup_insert_ne, Ew, Ev, Ex by done. apply ramfs_ext; try done. simpl. by rewrite insert_insert_ne.
    + by rewrite lookup_insert_ne, Ew, Ev, Ex by done.
  - destruct (rfs_inodes s !! n) as [x|] eqn:Ex, (rfs_inodes s !! d) as [y|] eqn:Ey; unfold vgot; simpl;
      rewrite ?lookup_insert_ne, ?Ev, ?Ew, ?Ex, ?Ey by done; try done.
    apply ramfs_ext; try done; simpl; by rewrite insert_insert_ne.
Qed.

Lemma vgot_some L s n m : finv None L s -> is_Some (rfs_inodes s !! n) -> is_Some (rfs_inodes (vgot n s) !! m) <-> is_Some (rfs_inodes s !! m).
Proof.
  intros Hinv Hn. pose proof (vg_same _ _ _ (vgot_ok L s n Hinv Hn) m) as Hs.
  destruct (rfs_inodes s !! m), (rfs_inodes (vgot n s) !! m); try done; split; eauto.
Qed.

(** A second reference taken later survives the release of the first. *)
Lemma vput_first L s d n :
  finv None L s -> is_Some (rfs_inodes s !! d) -> is_Some (rfs_inodes s !! n) ->
  vput d (vgot n (vgot d s)) = Ret (tt, vgot n s).
Proof.
  intros Hinv Hd Hn. rewrite vgot_comm. apply (vput_vgot L).
  - by apply (vgot_ok L s n).
  - by apply (vgot_some L s n).
Qed.

(** ** The walk follows the specification *)

Lemma find_same L s s' d nm : finv None L s -> finv None L s' -> same_content s s' -> find s' d nm = find s d nm.
Proof.
  intros Hinv Hinv' Hs. unfold find. pose proof (Hs d) as Hd.
  destruct (rfs_inodes s !! d) as [x|], (rfs_inodes s' !! d) as [x'|]; try done.
  apply (inj Some) in Hd. injection Hd as _ _ _ ->. destruct (decide (rf_mode x = RAMFS_TYPE_DIR)); [|done].
  destruct (NAME_LEN <? strlen nm); [done|]. destruct (Z.eqb_spec (strlen nm) 0) as [|Hne]; [done|].
  rewrite (dlookup_same None L None L s s') by (try done; by intros ->). destruct (dlookup s d nm) as [n|]; [|done].
  specialize (Hs n). destruct (rfs_inodes s !! n), (rfs_inodes s' !! n); done.
Qed.

Lemma vget_lost L s n : finv None L s -> rfs_inodes s !! n = None -> exists f, vget n s = Stop f.
Proof.
  intros Hinv Hn. destruct (vnode_inuse s !! n) as [v|] eqn:Ev.
  - destruct (fi_vnodes _ _ _ Hinv _ _ Ev) as [_ _ _ (x & Ex & _)]. congruence.
  - unfold vget. rewrite bind_gets, Ev, bind_modify. unfold ramfs_read_vnode, table_get. rewrite !bind_bind.
    destruct (_ && _); [|by eexists]. rewrite bind_gets. simpl. rewrite Hn. by eexists.
Qed.

Lemma lookup_eq L s d nm :
  finv None L s -> is_Some (vnode_inuse s !! d) ->
  match find s d nm with
  | At n => lookup d nm s = Ret ((0, Some n), vgot n s) /\ is_Some (rfs_inodes s !! n)
  | Err e => lookup d nm s = Ret ((- e, None), s) /\ 0 < e
  | Lost => exists f, lookup d nm s = Stop f
  end.
Proof.
  intros Hinv [v Ev]. destruct (fi_vnodes _ _ _ Hinv _ _ Ev) as [_ _ _ (x & Ex & Hm & _)].
  unfold find, lookup. rewrite Ex, (bind_eq _ _ _ _ _ (vn_get_eq _ _ _ Ev)). unfold has_dir_ops. rewrite Hm, isdir_mode.
  destruct (decide (rf_mode x = RAMFS_TYPE_DIR)) as [Hd|Hd]; [|by rewrite bool_decide_eq_false_2].
  rewrite bool_decide_eq_true_2 by done. simpl. destruct (NAME_LEN <? strlen nm); [done|].
  destruct (Z.eqb_spec (strlen nm) 0) as [|Hne].
  - rewrite (bind_eq _ _ _ _ _ (vget_eq L s d Hinv ltac:(eauto))). eauto.
  - destruct (fi_inodes _ _ _ Hinv _ _ Ex) as [_ Hty _ _]. unfold typed in Hty. rewrite Hd in Hty.
    destruct Hty as (l & El & _). assert (is_dir s d l) as Hdir by (by exists x, v).
    destruct (dlookup s d nm) as [n|] eqn:El2.
    + destruct (rfs_inodes s !! n) as [y|] eqn:Ey.
      * split; [|eauto]. apply (lookup_found_eq s d l); [done|done|]. apply (vget_eq L); eauto.
      * destruct (vget_lost L s n Hinv Ey) as [f Hf]. exists f.
        destruct (dlookup_slot _ _ _ _ _ Hdir El2) as (i & e & Hs & Ei & _ & <-).
        unfold ramfs_lookup. rewrite (bind_eq _ _ _ _ _ (dir_get_eq _ _ _ Hdir)), Hs, Ei. simpl.
        rewrite bind_ret. unfold bind. by rewrite Hf.
    + split; [|done]. apply (lookup_none_eq s d l); [done|]. by apply (dlookup_none_names s d).
Qed.

Definition walked (r : resolved) (base : str) (s : ramfs) (o : outcome (namev * ramfs)) : Prop :=
  match r with
  | At n => o = Ret (MkNamev 0 (Some base) (Some n), vgot n s) /\ is_Some (rfs_inodes s !! n)
  | Err e => (exists res, o = Ret (MkNamev (- e) None res, s)) /\ 0 < e
  | Lost => exists f, o = Stop f
  end.

Lemma walk_eq L s d res cs base :
  finv None L s -> is_Some (rfs_inodes s !! d) -> walked (resolve s d cs) base s (walk d res cs base (vgot d s)).
Proof.
  intros Hinv. revert d res. induction cs as [|c cs IH]; intros d res Hd; simpl; [done|].
  destruct (vgot_ok L s d Hinv Hd) as [Hinv1 Hs1 Hu1 Hr1 Ho1].
  pose proof (lookup_eq L (vgot d s) d c Hinv1 Hu1) as Hl. rewrite (find_same L s (vgot d s)) in Hl by done.
  destruct (find s d c) as [n|e|]; simpl.
  - destruct Hl as [Hl Hn]. apply (vgot_some L s d) in Hn; [|done|done].
    rewrite (bind_eq _ _ _ _ _ Hl). simpl. rewrite (bind_eq _ _ _ _ _ (vput_first L s d n Hinv Hd Hn)), bind_ret. by apply IH.
  - destruct Hl as [Hl He]. split; [|done]. rewrite (bind_eq _ _ _ _ _ Hl). simpl.
    rewrite (proj2 (Z.ltb_lt _ _)) by lia. rewrite (bind_eq _ _ _ _ _ (vput_vgot L s d Hinv Hd)). by eexists.
  - destruct Hl as [f Hl]. exists f. unfold bind. by rewrite Hl.
Qed.

(** Where the walk starts, and what it walks over. *)
Definition absolute (p : str) : bool := match p with c :: _ => c =? SLASH | [] => false end.
Definition relative_part (p : str) : str := if absolute p then tail p else p.
Definition start_of (p_cwd : ino) (base : option ino) (p : str) : ino :=
  if absolute p then fs_root else match base with None => p_cwd | Some b => b end.

Definition resolve_dir (s : ramfs) (p_cwd : ino) (base : option ino) (p : str) : resolved :=
  resolve s (start_of p_cwd base p) (components (relative_part p)).1.
Definition base_name (p : str) : str := (components (relative_part p)).2.

Lemma dir_namev_eq L s p_cwd base p :
  finv None L s -> is_Some (rfs_inodes s !! start_of p_cwd base p) -> p <> [] -> strlen p <= MAXPATHLEN ->
  walked (resolve_dir s p_cwd base p) (base_name p) s (dir_namev p_cwd p base s).
Proof.
  intros Hinv Hd Hne Hlen. destruct p as [|c p]; [done|]. unfold dir_namev, resolve_dir, base_name.
  change (c =? SLASH) with (absolute (c :: p)).
  change (if absolute (c :: p) then p else c :: p) with (relative_part (c :: p)).
  change (if absolute (c :: p) then fs_root else match base with Some b => b | None => p_cwd end) with (start_of p_cwd base (c :: p)).
  rewrite (bind_eq _ _ _ _ _ (vget_eq L s _ Hinv Hd)).
  assert (strlen (relative_part (c :: p)) <= strlen (c :: p)) as Hle.
  { unfold relative_part, strlen. destruct (absolute (c :: p)); simpl; lia. }
  rewrite (proj2 (Z.ltb_ge _ _)) by lia. destruct (components (relative_part (c :: p))) as [cs last].
  by apply (walk_eq L).
Qed.

(** ** Splitting a path *)

Fixpoint join (cs : list str) (base : str) : str :=
  match cs with
  | [] => base
  | c :: cs' => c ++ SLASH :: join cs' base
  end.

Definition no_slash (c : str) : Prop := SLASH ∉ c.

Lemma components_parts p : Forall no_slash (components p).1 /\ no_slash (components p).2 /\ join (components p).1 (components p).2 = p.
Proof.
  induction p as [|c p IH]; [by repeat split; auto; apply not_elem_of_nil|].
  simpl. destruct (components p) as [cs base]. simpl in IH. destruct IH as (H1 & H2 & H3).
  destruct (Z.eqb_spec c SLASH) as [->|Hc].
  - simpl. split_and!; [constructor; [apply not_elem_of_nil|done]|done|by rewrite H3].
  - destruct cs as [|x cs]; simpl in *.
    + split_and!; [done| |by rewrite H3]. apply not_elem_of_cons. done.
    + apply Forall_cons in H1 as [Hx H1]. split_and!; [|done|by rewrite H3].
      constructor; [|done]. apply not_elem_of_cons. done.
Qed.

Lemma components_base base : no_slash base -> components base = ([], base).
Proof.
  induction base as [|c base IH]; [done|]. intros [Hc Hb]%not_elem_of_cons. simpl. rewrite IH by done.
  by rewrite (proj2 (Z.eqb_neq _ _)) by done.
Qed.

Lemma components_join cs base : Forall no_slash cs -> no_slash base -> components (join cs base) = (cs, base).
Proof.
  intros Hcs Hb. induction Hcs as [|c cs Hc _ IH]; simpl; [by apply components_base|].
  induction c as [|a c IHc]; simpl.
  - by rewrite IH.
  - apply not_elem_of_cons in Hc as [Ha Hc]. rewrite IHc by done. by rewrite (proj2 (Z.eqb_neq _ _)) by done.
Qed.

(** ** Opening a path *)

Lemma attached_kept L' s s' d nm n d0 :
  finv None L' s' -> name_added s s' d nm n -> rfs_inodes s !! n = None -> dlookup s d nm = None ->
  (exists L, finv None L s) -> attached s d0 -> attached s' d0.
Proof.
  intros Hinv' Hadd Hn Hnone [L Hinv] [->|(d' & i & e & He & Hg & Hd)]; [by left|right].
  assert (dlookup s d' (rd_name e) = Some d0) as Hl by (apply (dlookup_iff None L); [done|apply Hg|by exists i, e]).
  assert (d' <> n) as Hne by (intros ->; destruct He as (x & l & Ex & _); congruence).
  assert (dlookup s' d' (rd_name e) = Some d0) as Hl'.
  { rewrite Hadd; [|apply Hg|by left]. rewrite decide_False; [done|]. intros [-> E]. congruence. }
  apply (dlookup_iff None L') in Hl' as (j & f & Hf & Hnf & Hif); [|done|apply Hg].
  exists d', j, f. rewrite Hnf. done.
Qed.

Lemma kind_entry L s d nm n : finv None L s -> dlookup s d nm = Some n -> kind s d = Some RAMFS_TYPE_DIR.
Proof.
  intros Hinv Hl. unfold dlookup in Hl. unfold kind. destruct (rfs_inodes s !! d) as [x|] eqn:Ex; [|done].
  destruct (rf_mem x) as [|l|] eqn:El; [done| |done]. simpl. f_equal. by apply (entries_dir None L s d x l).
Qed.

(** What a creation through a path leaves: a new empty file, one reference on
    it, and everybody else's references as they were. *)
Record created (s s' : ramfs) (d : ino) (nm : str) (n : ino) : Prop := {
  cr_ok : ramfs_ok s';
  cr_new : rfs_inodes s !! n = None;
  cr_names : name_added s s' d nm n;
  cr_file : is_file s' n zero_bytes 0;
  cr_ref : refs s' n = 1;
  cr_refs : forall m, m <> n -> refs s' m = refs s m;
  cr_kind : forall m, m <> n -> is_Some (rfs_inodes s !! m) -> kind s' m = kind s m
}.

Lemma create_release L s d l nm :
  finv None L s -> is_dir (vgot d s) d l -> is_Some (rfs_inodes s !! d) -> attached s d -> new_name l nm ->
  (exists n s1 s', ramfs_create d nm (vgot d s) = Ret ((0, Some n), s1) /\ vput d s1 = Ret (tt, s') /\ created s s' d nm n) \/
  ramfs_create d nm (vgot d s) = Ret ((- ENOSPC, None), vgot d s).
Proof.
  intros Hinv Hd Hs Ha Hnew. destruct (vgot_ok L s d Hinv Hs) as [Hinv1 Hs1 Hu1 Hr1 Ho1].
  assert (forall d' nm', nm' <> [] -> dlookup (vgot d s) d' nm' = dlookup s d' nm') as Hdl
    by (intros; by apply (dlookup_same None L None L)).
  assert (attached (vgot d s) d) as Ha1.
  { destruct Ha as [->|(d' & i & e & He & R)]; [by left|right]. exists d', i, e. split; [|done]. by apply (entry_at_same s). }
  destruct (ramfs_create_spec L (vgot d s) d l nm Hinv1 Hd (attached_linked _ _ _ Hinv1 Ha1) Hnew)
    as [E|(n & L' & s1 & E & Hinv2 & Had & Hn & Hrn & Hv & x & Ex & Hc)]; [by right|left].
  pose proof (added_name _ _ _ _ _ Had Hn) as Hadd.
  assert (rfs_inodes s !! n = None) as Hn0.
  { specialize (Hs1 n). rewrite Hn in Hs1. by destruct (rfs_inodes s !! n). }
  assert (d <> n) as Hdn by (intros ->; rewrite Hn0 in Hs; by destruct Hs).
  assert (dlookup (vgot d s) d nm = None) as Hnone.
  { destruct (dlookup (vgot d s) d nm) as [k|] eqn:Ek; [|done].
    destruct (dlookup_slot _ _ _ _ _ Hd Ek) as (i & e & _ & Ei & En & _). destruct Hnew as (_ & _ & Hall).
    by destruct (proj1 (Forall_lookup _ _) Hall i e Ei). }
  assert (attached s1 d) as Ha2 by (apply (attached_kept L' (vgot d s) s1 d nm n); eauto).
  destruct Hu1 as [v Ev]. assert (vnode_inuse s1 !! d = Some v) as Ev1 by (rewrite Hv; done).
  assert (refs s1 d = refs s d + 1) as Hrd by (rewrite <- Hr1; unfold refs; by rewrite Ev, Ev1).
  assert (d = fs_root -> 1 < refs s1 d) as Hroot.
  { intros ->. destruct (fi_root _ _ _ Hinv) as (_ & _ & _ & [w Ew]). pose proof (vk_refs _ _ _ (fi_vnodes _ _ _ Hinv _ _ Ew)).
    rewrite Hrd. unfold refs. rewrite Ew. lia. }
  destruct (vput_spec None L' s1 d v Hinv2 Ev1 Hroot) as (s' & E' & Hinv' & Hvi & Hr' & Ho').
  assert (same_content s1 s') as Hs'.
  { unfold vput_inodes in Hvi. destruct (decide _) as [(_ & Hz & Hnr & _)|]; [|done].
    pose proof (linked_pos L' d (attached_linked _ _ _ Hinv2 Ha2) Hnr). lia. }
  exists n, s1, s'. split_and!; [done|done|]. split.
  - by exists L'.
  - done.
  - intros d' nm' Hn' [Hd'|[y Hy]]; [|congruence]. rewrite (dlookup_same None L' None L' s1 s') by done.
    rewrite Hadd by auto. by rewrite Hdl.
  - destruct (same_content_some _ _ _ _ Hs' Ex) as (x' & Ex' & Hc'). rewrite Hc in Hc'. injection Hc' as H1 H2 H3 H4.
    unfold refs in Hrn. destruct (vnode_inuse s1 !! n) as [w|] eqn:Ew; [|lia]. exists x', w. rewrite Ho' by done. done.
  - unfold refs in *. rewrite Ho' by done. done.
  - intros m Hm. destruct (decide (m = d)) as [->|Hmd]; [lia|]. unfold refs. by rewrite Ho', Hv, Ho1 by done.
  - intros m Hm [y Hy]. rewrite (kind_same s1 s') by done. rewrite <- (kind_same s (vgot d s)) by done.
    destruct (same_content_some _ _ _ _ Hs1 Hy) as (y1 & Hy1 & _). destruct (decide (m = d)) as [->|Hmd].
    + destruct Hd as (z & w & _ & Ez & Em). rewrite (kind_entry L' s1 d nm n); [|done|].
      * unfold kind. rewrite Ez. simpl. f_equal. symmetry. by apply (entries_dir None L (vgot d s) d z l).
      * rewrite Hadd; [by rewrite decide_True|apply Hnew|by left].
    + destruct (ad_others _ _ _ _ _ Had m y1 Hy1 Hmd Hm) as (y2 & Hy2 & Hc2). unfold kind. rewrite Hy1, Hy2. simpl.
      injection Hc2 as _ _ _ Hk. by rewrite Hk.
Qed.

(** What [open_namev] finds. *)
Definition resolve_path (s : ramfs) (p_cwd : ino) (base : option ino) (p : str) : resolved :=
  match resolve_dir s p_cwd base p with At d => find s d (base_name p) | r => r end.

Lemma find_is_dir L s d nm e :
  finv None L s -> find s d nm = Err e -> e = ENOENT ->
  exists x l, rfs_inodes s !! d = Some x /\ rf_mem x = REntries l /\ nm <> [] /\ dlookup s d nm = None.
Proof.
  intros Hinv Hf ->. unfold find in Hf. destruct (rfs_inodes s !! d) as [x|] eqn:Ex; [|done].
  destruct (decide (rf_mode x = RAMFS_TYPE_DIR)) as [Hm|]; [|done]. destruct (NAME_LEN <? strlen nm); [done|].
  destruct (Z.eqb_spec (strlen nm) 0) as [|Hne]; [done|]. destruct (fi_inodes _ _ _ Hinv _ _ Ex) as [_ Hty _ _].
  unfold typed in Hty. rewrite Hm in Hty. destruct Hty as (l & El & _). exists x, l. split_and!; [done|done|by intros ->|].
  destruct (dlookup s d nm) as [n|]; [|done]. by destruct (rfs_inodes s !! n).
Qed.

(** A new file may be entered under the last component of the path. *)
Definition creatable (s : ramfs) (d : ino) (nm : str) : Prop :=
  attached s d /\ good_name nm /\ (length nm <= 27)%nat.

Definition opened (s : ramfs) (p_cwd : ino) (base : option ino) (p : str) (flag : Z) (o : outcome ((Z * option ino) * ramfs)) : Prop :=
  match resolve_dir s p_cwd base p with
  | At d =>
      match find s d (base_name p) with
      | At n => o = Ret ((0, Some n), vgot n s) /\ is_Some (rfs_inodes s !! n)
      | Err e =>
          if decide (e = ENOENT /\ Z.land flag O_CREAT = O_CREAT) then
            creatable s d (base_name p) ->
            o = Ret ((- ENOSPC, None), s) \/
            exists n s', o = Ret ((0, Some n), s') /\ created s s' d (base_name p) n
          else o = Ret ((- e, None), s) /\ 0 < e
      | Lost => exists f, o = Stop f
      end
  | Err e => o = Ret ((- e, None), s) /\ 0 < e
  | Lost => exists f, o = Stop f
  end.

Lemma open_namev_eq L s p_cwd base p flag :
  finv None L s -> is_Some (rfs_inodes s !! start_of p_cwd base p) -> p <> [] -> strlen p <= MAXPATHLEN ->
  opened s p_cwd base p flag (open_namev p_cwd p flag base s).
Proof.
  intros Hinv Hd Hne Hlen. pose proof (dir_namev_eq L s p_cwd base p Hinv Hd Hne Hlen) as Hw.
  unfold opened, open_namev. destruct (resolve_dir s p_cwd base p) as [d|e|]; simpl in Hw.
  2: { destruct Hw as [[res Hw] He]. rewrite (bind_eq _ _ _ _ _ Hw). simpl. by rewrite (proj2 (Z.ltb_lt _ _)) by lia. }
  2: { destruct Hw as [f Hw]. exists f. unfold bind. by rewrite Hw. }
  destruct Hw as [Hw Hs]. rewrite (bind_eq _ _ _ _ _ Hw). simpl. rewrite !bind_ret.
  destruct (vgot_ok L s d Hinv Hs) as [Hinv1 Hs1 Hu1 Hr1 Ho1].
  pose proof (lookup_eq L (vgot d s) d (base_name p) Hinv1 Hu1) as Hl. rewrite (find_same L s (vgot d s)) in Hl by done.
  destruct (find s d (base_name p)) as [n|e|] eqn:Ef.
  - destruct Hl as [Hl Hn]. apply (vgot_some L s d) in Hn; [|done|done]. split; [|done].
    rewrite (bind_eq _ _ _ _ _ Hl). change (fst (0, Some n) =? - ENOENT) with false. cbv iota. simpl andb. cbv iota.
    rewrite bind_ret. by rewrite (bind_eq _ _ _ _ _ (vput_first L s d n Hinv Hs Hn)).
  - destruct Hl as [Hl He]. rewrite (bind_eq _ _ _ _ _ Hl). simpl fst. destruct (decide (e = ENOENT /\ _)) as [[Ee Hf]|Hno].
    + intros (Ha & Hg & Hln). rewrite Ee, Z.eqb_refl, (proj2 (Z.eqb_eq _ _) Hf). simpl andb. cbv iota.
      destruct (find_is_dir L s d _ _ Hinv Ef Ee) as (x & l & Ex & El & Hnm & Hnone). destruct Hu1 as [v Ev].
      destruct (same_content_some _ _ _ _ Hs1 Ex) as (x1 & Ex1 & Hc1). injection Hc1 as _ _ Hm1 _.
      assert (is_dir (vgot d s) d l) as Hdir by (exists x1, v; split_and!; congruence).
      rewrite !bind_bind, (bind_eq _ _ _ _ _ (vn_get_eq _ _ _ Ev)), bind_bind.
      destruct (fi_vnodes _ _ _ Hinv1 _ _ Ev) as [_ _ _ (x2 & Ex2 & Hm2 & _)].
      rewrite bind_assert.
      2: { unfold has_dir_ops. rewrite Hm2, isdir_mode. apply bool_decide_eq_true_2.
           apply (entries_dir None L (vgot d s) d _ l); [done|done|congruence]. }
      assert (new_name l (base_name p)) as Hnew.
      { split_and!; [apply Hg..|done|]. apply (dlookup_none_names (vgot d s) d); [done|].
        by rewrite (dlookup_same None L None L s). }
      destruct (create_release L s d l (base_name p) Hinv Hdir Hs Ha Hnew) as [(n & s1 & s' & E1 & E2 & Hcr)|E1].
      * right. exists n, s'. rewrite (bind_eq _ _ _ _ _ E1), (bind_eq _ _ _ _ _ E2). done.
      * left. rewrite (bind_eq _ _ _ _ _ E1), (bind_eq _ _ _ _ _ (vput_vgot L s d Hinv Hs)). done.
    + split; [|done]. assert ((- e =? - ENOENT) && (Z.land flag O_CREAT =? O_CREAT) = false) as ->.
      { apply andb_false_iff. destruct (Z.eqb_spec (- e) (- ENOENT)) as [E1|]; [right|by left].
        apply Z.eqb_neq. intros E2. apply Hno. split; [lia|done]. }
      rewrite bind_ret, (bind_eq _ _ _ _ _ (vput_vgot L s d Hinv Hs)). done.
  - destruct Hl as [f Hl]. exists f. unfold bind. by rewrite Hl.
Qed.

(** A component that is not "." or "..". *)
Definition plain (c : str) : Prop := c = [] \/ good_name c.

Lemma find_plain L s d c : finv None L s -> is_Some (rfs_inodes s !! d) -> plain c -> find s d c <> Lost.
Proof.
  intros Hinv [x Ex] Hp. unfold find. rewrite Ex. destruct (decide _); [|done]. destruct (NAME_LEN <? strlen c); [done|].
  destruct (Z.eqb_spec (strlen c) 0) as [|Hne]; [done|]. destruct Hp as [->|Hg]; [done|].
  destruct (dlookup s d c) as [n|] eqn:El; [|done]. by destruct (lookup_target L s d c n Hinv El Hg) as [y ->].
Qed.

Lemma find_inode L s d c n : finv None L s -> find s d c = At n -> is_Some (rfs_inodes s !! n).
Proof.
  intros Hinv. unfold find. destruct (rfs_inodes s !! d) as [x|] eqn:Ex; [|done]. destruct (decide _); [|done].
  destruct (_ <? _); [done|]. destruct (_ =? _); [intros [= <-]; eauto|]. destruct (dlookup s d c) as [k|]; [|done].
  destruct (rfs_inodes s !! k) eqn:Ek; [|done]. intros [= <-]. eauto.
Qed.

Lemma resolve_plain L s d cs : finv None L s -> is_Some (rfs_inodes s !! d) -> Forall plain cs -> resolve s d cs <> Lost.
Proof.
  intros Hinv Hd Hp. revert d Hd. induction Hp as [|c cs Hc _ IH]; intros d Hd; [done|]. simpl.
  pose proof (find_plain L s d c Hinv Hd Hc). destruct (find s d c) as [n| |] eqn:Ef; [|done|done].
  apply IH. by apply (find_inode L s d c).
Qed.

Lemma refs_vgot L s d m : finv None L s -> is_Some (rfs_inodes s !! d) -> refs (vgot d s) m = refs s m + one_if (m = d).
Proof.
  intros Hinv Hd. destruct (vgot_ok L s d Hinv Hd) as [_ _ _ Hr Ho]. destruct (decide (m = d)) as [->|Hne].
  - by rewrite one_if_true.
  - rewrite one_if_false by done. unfold refs. rewrite Ho by done. lia.
Qed.

(** ** Removing names through paths *)

Lemma vput_linked L r n :
  finv None L r -> 0 < refs r n -> linked L n -> (n = fs_root -> 1 < refs r n) ->
  exists r', vput n r = Ret (tt, r') /\ finv None L r' /\ same_content r r' /\ (forall m, refs r' m = refs r m - one_if (m = n)).
Proof.
  intros Hinv Hr Hl Hroot. destruct (refs_inuse r n Hr) as [v Ev].
  destruct (vput_spec None L r n v Hinv Ev Hroot) as (r' & E & Hinv' & Hvi & Hrn & Ho). exists r'. split_and!; [done|done| |].
  - unfold vput_inodes in Hvi. destruct (decide _) as [(_ & Hz & Hnr & _)|]; [|done]. by pose proof (linked_pos L n Hl Hnr).
  - intros m. destruct (decide (m = n)) as [->|Hne]; [by rewrite one_if_true|]. rewrite one_if_false by done.
    unfold refs. rewrite Ho by done. lia.
Qed.

Lemma nlinks_nonzero L n : nlinks L n <> 0 -> exists k, L !! k = Some n.
Proof.
  intros Hz. destruct (map_choose (filter (fun kv => kv.2 = n) L)) as (k & m & Hk).
  - intros He. unfold nlinks in Hz. by rewrite He, map_size_empty in Hz.
  - apply map_lookup_filter_Some in Hk as [Hk Hm]. simpl in Hm. subst. eauto.
Qed.

(** A directory that has an entry has not been removed. *)
Lemma entry_linked L r d nm n : finv None L r -> dlookup r d nm = Some n -> good_name nm -> linked L d.
Proof.
  intros Hinv Hl Hg. apply (dlookup_iff None L) in Hl as (i & e & He & En & Ei); [|done|apply Hg].
  assert (L !! (d, i) = Some n) as HL by (apply (fi_links _ _ _ Hinv); exists e; by rewrite En).
  destruct (decide (d = fs_root)) as [->|Hne]; [by left|right]. apply nlinks_nonzero. intros Hz.
  by rewrite (fi_orphan _ _ _ Hinv d Hne Hz i) in HL.
Qed.

Lemma linked_iff L r d : finv None L r -> linked L d <-> d = fs_root \/ named r d.
Proof.
  intros Hinv. unfold linked. split; (intros [?|H]; [by left|right]).
  - destruct H as [[d' i] HL]. apply (fi_links _ _ _ Hinv) in HL as [e He]. by exists d', i, e.
  - destruct H as (d' & i & e & He). exists (d', i). apply (fi_links _ _ _ Hinv). eauto.
Qed.

Lemma removed_linked L L' r r' d nm n :
  finv None L r -> finv None L' r' -> removed L L' r r' d nm n -> d <> n -> linked L d -> linked L' d.
Proof.
  intros Hinv Hinv' Hrm Hne Hl. destruct (decide (d = fs_root)) as [->|Hnr]; [by left|right].
  pose proof (linked_pos L d Hl Hnr) as Hz. assert (nlinks L' d <> 0) as Hz'.
  { rewrite (re_links _ _ _ _ _ _ _ Hrm), one_if_false by done. lia. }
  by apply nlinks_nonzero.
Qed.

Lemma root_refs L r : finv None L r -> 1 <= refs r fs_root.
Proof.
  intros Hinv. destruct (fi_root _ _ _ Hinv) as (_ & _ & _ & [w Ew]). unfold refs. rewrite Ew.
  apply (vk_refs _ _ _ (fi_vnodes _ _ _ Hinv _ _ Ew)).
Qed.

Lemma refs_nonneg L r n : finv None L r -> 0 <= refs r n.
Proof.
  intros Hinv. unfold refs. destruct (vnode_inuse r !! n) as [v|] eqn:Ev; [|lia].
  pose proof (vk_refs _ _ _ (fi_vnodes _ _ _ Hinv _ _ Ev)). lia.
Qed.

Lemma same_some r r' m : same_content r r' -> is_Some (rfs_inodes r' !! m) <-> is_Some (rfs_inodes r !! m).
Proof. intros Hs. specialize (Hs m). destruct (rfs_inodes r !! m), (rfs_inodes r' !! m); try done; split; eauto. Qed.

Lemma same_none r r' m : same_content r r' -> rfs_inodes r' !! m = None <-> rfs_inodes r !! m = None.
Proof. intros Hs. specialize (Hs m). destruct (rfs_inodes r !! m), (rfs_inodes r' !! m); done. Qed.

Lemma vgot_is_dir L r d l :
  finv None L r -> kind r d = Some RAMFS_TYPE_DIR -> (exists x, rfs_inodes r !! d = Some x /\ rf_mem x = REntries l) -> is_dir (vgot d r) d l.
Proof.
  intros Hinv Hk (x & Ex & El). destruct (vgot_ok L r d Hinv ltac:(eauto)) as [_ Hs [v Ev] _ _].
  destruct (same_content_some _ _ _ _ Hs Ex) as (x' & Ex' & Hc). injection Hc as _ _ Hm _. exists x', v. split_and!; congruence.
Qed.

Lemma kind_entries L r d :
  finv None L r -> kind r d = Some RAMFS_TYPE_DIR -> exists x l, rfs_inodes r !! d = Some x /\ rf_mem x = REntries l.
Proof.
  intros Hinv Hk. unfold kind in Hk. destruct (rfs_inodes r !! d) as [x|] eqn:Ex; [|done]. apply (inj Some) in Hk.
  destruct (fi_inodes _ _ _ Hinv _ _ Ex) as [_ Hty _ _]. unfold typed in Hty. rewrite Hk in Hty. destruct Hty as (l & El & _). eauto.
Qed.

(** Nothing of the inodes that are left changed but names and counts. *)
Definition kinds_kept (r r' : ramfs) : Prop := forall m, is_Some (rfs_inodes r' !! m) -> kind r' m = kind r m.

Lemma rmdir_chain L r d nm n :
  finv None L r -> dlookup r d nm = Some n -> good_name nm ->
  match rf_mem <$> rfs_inodes r !! n with
  | Some (REntries k) =>
      if empty_dir k then
        exists r1 r2, ramfs_rmdir d nm (vgot d r) = Ret (0, r1) /\ vput d r1 = Ret (tt, r2) /\ ramfs_ok r2 /\
          name_removed r r2 d nm n /\ kinds_kept r r2
      else ramfs_rmdir d nm (vgot d r) = Ret (- ENOTEMPTY, vgot d r)
  | Some _ => ramfs_rmdir d nm (vgot d r) = Ret (- ENOTDIR, vgot d r)
  | None => False
  end.
Proof.
  intros Hinv Hl Hg. pose proof (kind_entry L r d nm n Hinv Hl) as Hk. destruct (kind_entries L r d Hinv Hk) as (xd & l & Exd & Eld).
  destruct (vgot_ok L r d Hinv ltac:(eauto)) as [Hinv1 Hs1 _ Hr1 Ho1].
  pose proof (vgot_is_dir L r d l Hinv Hk ltac:(eauto)) as Hd1.
  pose proof (ramfs_rmdir_spec L (vgot d r) d l nm Hinv1 Hd1 Hg) as H.
  rewrite (dlookup_same None L None L r (vgot d r)), Hl in H by (try done; apply Hg). pose proof (Hs1 n) as Hn.
  destruct (rfs_inodes (vgot d r) !! n) as [x1|] eqn:Ex1; [|done]. destruct (rfs_inodes r !! n) as [x|] eqn:Ex; [|done].
  apply (inj Some) in Hn. injection Hn as _ _ Hm _. rewrite Hm in H. simpl. destruct (rf_mem x) as [b|k|dv] eqn:Ek; [done| |done].
  destruct (empty_dir k) eqn:Hempty; [|done]. destruct H as (L' & r1 & E1 & Hinv2 & Hrm). pose proof Hrm as [R1 R2 R3 R4 R5 R6].
  assert (d <> n) as Hne.
  { intros ->. rewrite Ex in Exd. injection Exd as <-. rewrite Ek in Eld. injection Eld as <-.
    apply (dlookup_iff None L) in Hl as (i & e & (y & ly & Ey & Ely & Ei) & En & _); [|done|apply Hg].
    assert (ly = k) as -> by congruence. apply (empty_dir_spec _ e Hempty); [by eapply list_elem_of_lookup_2|]. by rewrite En. }
  pose proof (removed_linked L L' _ _ d nm n Hinv1 Hinv2 Hrm Hne (entry_linked L r d nm n Hinv Hl Hg)) as Hlk.
  assert (refs r1 d = refs r d + 1) as Hrd by (rewrite R1; done).
  pose proof (refs_nonneg L r d Hinv) as Hnn.
  destruct (vput_linked L' r1 d Hinv2 ltac:(lia) Hlk) as (r2 & E2 & Hinv3 & Hs2 & Hr2).
  { intros ->. pose proof (root_refs L r Hinv). lia. }
  exists r1, r2. split_and!; [done|done|by exists L'| |].
  - split_and!.
    + intros d' nm' Hn' Hd'. rewrite (dlookup_same None L' None L' r1 r2) by done. rewrite R6 by done.
      by rewrite (dlookup_same None L None L r (vgot d r)).
    + intros m. rewrite Hr2, R1, (refs_vgot L) by eauto. lia.
    + rewrite (same_none r1 r2) by done. rewrite R2, (nlinks_zero_iff None L' r2) by done.
      rewrite (refs_vgot L), one_if_false by eauto. rewrite Z.add_0_r. done.
    + intros m Hm'. rewrite (same_some r1 r2), R4 by done. by apply (vgot_some L).
  - intros m Hm'. rewrite (kind_same r1 r2) by done. rewrite R5 by (by apply (same_some r1 r2)). by apply kind_same.
Qed.

Lemma unlink_chain L r d nm n :
  finv None L r -> dlookup r d nm = Some n -> good_name nm -> kind r n <> Some RAMFS_TYPE_DIR -> is_Some (rfs_inodes r !! n) ->
  exists r1 r2 r3, ramfs_unlink d nm (vgot n (vgot d r)) = Ret (0, r1) /\ vput d r1 = Ret (tt, r2) /\ vput n r2 = Ret (tt, r3) /\
    ramfs_ok r3 /\ name_removed r r3 d nm n /\ kinds_kept r r3.
Proof.
  intros Hinv Hl Hg Hkn Hn. pose proof (kind_entry L r d nm n Hinv Hl) as Hk.
  destruct (kind_entries L r d Hinv Hk) as (xd & l & Exd & Eld).
  assert (d <> n) as Hne by congruence.
  destruct (vgot_ok L r d Hinv ltac:(eauto)) as [Hinv1 Hs1 _ Hr1 Ho1].
  assert (is_Some (rfs_inodes (vgot d r) !! n)) as Hn1 by (by apply (vgot_some L)).
  destruct (vgot_ok L (vgot d r) n Hinv1 Hn1) as [Hinv2 Hs2 _ Hr2 Ho2].
  set (q := vgot n (vgot d r)) in *. assert (same_content r q) as Hsq by (etrans; done).
  assert (is_dir q d l) as Hdq.
  { pose proof (vgot_is_dir L r d l Hinv Hk ltac:(eauto)) as Hd1. pose proof Hd1 as (x & v & Ev & _).
    apply (is_dir_same (vgot d r) q d l v); [done|done|by rewrite Ho2]. }
  assert (refs q n = refs r n + 1 /\ refs q d = refs r d + 1) as [Hqn Hqd].
  { unfold q. rewrite !(refs_vgot L) by (done || eauto). rewrite (one_if_true (n = n)), (one_if_true (d = d)) by done.
    rewrite (one_if_false (n = d)), (one_if_false (d = n)) by congruence. lia. }
  destruct (rfs_inodes q !! n) as [x|] eqn:Ex.
  2: { apply (same_none r q) in Ex; [|done]. rewrite Ex in Hn. by destruct Hn. }
  assert (rf_mode x <> RAMFS_TYPE_DIR) as Hmx.
  { intros Hm. apply Hkn. rewrite <- (kind_same r q n Hsq). unfold kind. by rewrite Ex, <- Hm. }
  assert (dlookup q d nm = Some n) as Hlq by (rewrite (dlookup_same None L None L r q); [done..|apply Hg]).
  destruct (ramfs_unlink_spec L q d l nm n x Hinv2 Hdq Hlq Hg Ex Hmx) as (L' & r1 & E1 & Hinv3 & Hrm). pose proof Hrm as [R1 R2 R3 R4 R5 R6].
  pose proof (removed_linked L L' _ _ d nm n Hinv2 Hinv3 Hrm Hne (entry_linked L r d nm n Hinv Hl Hg)) as Hlk.
  pose proof (refs_nonneg L r d Hinv) as Hnd. pose proof (refs_nonneg L r n Hinv) as Hnn.
  destruct (vput_linked L' r1 d Hinv3 ltac:(rewrite R1; lia) Hlk) as (r2 & E2 & Hinv4 & Hs4 & Hr4).
  { intros ->. pose proof (root_refs L r Hinv). rewrite R1. lia. }
  assert (refs r2 n = refs r n + 1) as Hr2n by (rewrite Hr4, R1, one_if_false by done; lia).
  assert (is_Some (vnode_inuse r2 !! n)) as [v2 Ev2] by (apply refs_inuse; lia).
  destruct (vput_spec None L' r2 n v2 Hinv4 Ev2) as (r3 & E3 & Hinv5 & Hvi & Hr5 & Ho5).
  { intros ->. destruct (fi_root _ _ _ Hinv) as (y & Ey & My & _). unfold kind in Hkn. rewrite Ey in Hkn. simpl in Hkn. congruence. }
  assert (n <> fs_root) as Hnroot.
  { intros ->. destruct (fi_root _ _ _ Hinv) as (y & Ey & My & _). unfold kind in Hkn. rewrite Ey in Hkn. simpl in Hkn. congruence. }
  assert (is_Some (rfs_inodes r1 !! n)) as Hn3.
  { destruct (rfs_inodes r1 !! n); [eauto|]. destruct (proj1 R2 eq_refl). lia. }
  assert (forall m, refs r3 m = refs r m) as Hrefs.
  { intros m. destruct (decide (m = n)) as [->|Hmn]; [lia|]. transitivity (refs r2 m); [unfold refs; by rewrite Ho5|].
    rewrite Hr4, R1. unfold q. rewrite !(refs_vgot L) by (done || eauto). rewrite (one_if_false (m = n)) by done. lia. }
  exists r1, r2, r3. split_and!; [done|done|done|by exists L'| |].
  - split_and!.
    + intros d' nm' Hn' Hd'. transitivity (dlookup r2 d' nm').
      * unfold vput_inodes in Hvi. destruct (decide _); [unfold dlookup; by rewrite Hvi, lookup_delete_ne|by apply (dlookup_same None L' None L')].
      * rewrite (dlookup_same None L' None L' r1 r2) by done. rewrite R6 by done. by rewrite (dlookup_same None L None L r q).
    + done.
    + rewrite <- (nlinks_zero_iff None L' r3) by done. unfold vput_inodes in Hvi. destruct (decide _) as [(H1 & H2 & _)|Hno].
      * rewrite Hvi, lookup_delete_eq. split; [|done]. intros _. split; [lia|done].
      * rewrite (same_none r2 r3), (same_none r1 r2) by done. split; [intros E; rewrite E in Hn3; by destruct Hn3|].
        intros [H1 H2]. destruct Hno. split_and!; [lia|done|done|done].
    + intros m Hm. rewrite <- (same_some r q m Hsq), <- R4 by done. rewrite <- (same_some r1 r2 m Hs4).
      unfold vput_inodes in Hvi. destruct (decide _); [by rewrite Hvi, lookup_delete_ne|by apply same_some].
  - intros m Hm. assert (kind r3 m = kind r2 m /\ is_Some (rfs_inodes r2 !! m)) as [-> Hm2].
    { unfold vput_inodes in Hvi. destruct (decide _).
      - unfold kind. rewrite Hvi in *. destruct Hm as [y [Hmn Ey]%lookup_delete_Some]. rewrite lookup_delete_ne by done. eauto.
      - split; [by apply kind_same|by apply (same_some r2 r3)]. }
    rewrite (kind_same r1 r2) by done. rewrite R5 by (by apply (same_some r1 r2)). by apply kind_same.
Qed.

(** ** Theorems *)

(** Cutting a path at its slashes and putting the parts together again gives
    the path; the parts have no slash in them; and every sequence of such parts
    is what the path made of them is cut into. *)
Theorem path_split_roundtrip p cs base :
  Forall no_slash (components p).1 /\ no_slash (components p).2 /\ join (components p).1 (components p).2 = p /\
  (Forall no_slash cs -> no_slash base -> components (join cs base) = (cs, base)).
Proof. destruct (components_parts p) as (H1 & H2 & H3). split_and!; [done..|apply components_join]. Qed.

(** C22: [dir_namev] finds the directory that following the entries of the
    directories gives, and the last component of the path; it leaves exactly
    one reference more, on that directory.  When a component is missing, too
    long or not a directory it returns the error and every reference is as it
    was.  It stops the kernel only if an entry leads to an inode that is gone,
    which a path without "." and ".." never meets. *)
Theorem dir_namev_correct s p_cwd base p :
  ramfs_ok s -> is_Some (rfs_inodes s !! start_of p_cwd base p) -> p <> [] -> strlen p <= MAXPATHLEN ->
  match resolve_dir s p_cwd base p with
  | At d => exists s', dir_namev p_cwd p base s = Ret (MkNamev 0 (Some (base_name p)) (Some d), s') /\ ramfs_ok s' /\
      same_content s s' /\ forall m, refs s' m = refs s m + one_if (m = d)
  | Err e => exists res, dir_namev p_cwd p base s = Ret (MkNamev (- e) None res, s)
  | Lost => exists f, dir_namev p_cwd p base s = Stop f
  end /\
  (Forall plain (components (relative_part p)).1 -> resolve_dir s p_cwd base p <> Lost).
Proof.
  intros [L Hinv] Hd Hne Hlen. split; [|by apply (resolve_plain L)].
  pose proof (dir_namev_eq L s p_cwd base p Hinv Hd Hne Hlen) as Hw.
  destruct (resolve_dir s p_cwd base p) as [d|e|]; simpl in Hw; [|by destruct Hw as [[res ->] _]; eauto|done].
  destruct Hw as [-> Hs]. destruct (vgot_ok L s d Hinv Hs) as [Hinv1 Hs1 _ _ _].
  exists (vgot d s). split_and!; [done|by exists L|done|]. intros m. by apply (refs_vgot L).
Qed.

(** [open_namev] returns the vnode the whole path leads to with one
    reference more.  A missing last component is created as an empty file when
    the flags ask for it (with one reference, and every other reference as it
    was), unless there is no space, and is an error otherwise; no error changes
    the file system or a reference. *)
Theorem open_namev_correct s p_cwd base p flag :
  ramfs_ok s -> is_Some (rfs_inodes s !! start_of p_cwd base p) -> p <> [] -> strlen p <= MAXPATHLEN ->
  opened s p_cwd base p flag (open_namev p_cwd p flag base s) /\
  forall n, resolve_path s p_cwd base p = At n -> ramfs_ok (vgot n s) /\ forall m, refs (vgot n s) m = refs s m + one_if (m = n).
Proof.
  intros [L Hinv] Hd Hne Hlen. split; [by apply (open_namev_eq L)|]. intros n Hr. unfold resolve_path in Hr.
  destruct (resolve_dir s p_cwd base p) as [d|e|]; [|done|done]. pose proof (find_inode L s _ _ _ Hinv Hr) as Hn.
  split; [exists L; by apply (vgot_ok L s n)|]. intros m. by apply (refs_vgot L).
Qed.

(** ** Witnesses *)

Lemma path_split_roundtrip_witness : components (join [[100]; []] [120]) = ([[100]; []], [120]).
Proof.
  apply (path_split_roundtrip [] [[100]; []] [120]); [|apply (bool_decide_unpack _); by vm_compute].
  apply (bool_decide_unpack _). by vm_compute.
Defined.

Lemma dir_namev_correct_witness :
  exists s', dir_namev 0 [100; 47; 120] None ex_dirs = Ret (MkNamev 0 (Some [120]) (Some 2), s') /\ refs s' 2 = 1.
Proof.
  assert (is_Some (rfs_inodes ex_dirs !! start_of 0 None [100; 47; 120])) as Hs by (eexists; vm_compute; reflexivity).
  destruct (dir_namev_correct ex_dirs 0 None [100; 47; 120] ex_dirs_ok Hs) as [H _]; [done|done|].
  assert (resolve_dir ex_dirs 0 None [100; 47; 120] = At 2) as Hr by by vm_compute. rewrite Hr in H.
  destruct H as (s' & E & _ & _ & Hrefs). exists s'. split; [exact E|]. rewrite Hrefs. by vm_compute.
Defined.

Lemma open_namev_correct_witness : open_namev 0 [102] O_CREAT None ex_dirs = Ret ((0, Some 1), vgot 1 ex_dirs).
Proof.
  assert (is_Some (rfs_inodes ex_dirs !! start_of 0 None [102])) as Hs by (eexists; vm_compute; reflexivity).
  destruct (open_namev_correct ex_dirs 0 None [102] O_CREAT ex_dirs_ok Hs) as [H _]; [done|done|].
  unfold opened in H. assert (resolve_dir ex_dirs 0 None [102] = At 0) as Hr by by vm_compute. rewrite Hr in H.
  assert (find ex_dirs 0 (base_name [102]) = At 1) as Hf by by vm_compute. rewrite Hf in H. apply H.
Defined.
