(* ===== verification/Vfs.v ===== *)
(** * Open files and the system calls on them (fs/file.c, fs/open.c,
    fs/vfs_syscall.c, the special files of fs/vnode.c)

    The state is the mounted file system, the [file_t] objects, and the
    descriptor table and working directory of the current process.  The file
    objects are shared between descriptors, so they live in a map from
    addresses, and a freed one is gone from it.  What the devices do is an
    interface; the calls on directories and paths go through [Namev] and
    [Ramfs].  The invariant counts references on both levels: a file object is
    referenced by its descriptors, a vnode by the file objects, the working
    directory and whoever else holds it. *)

From S2P Require Import Prelude Ramfs Namev.

Definition NFILES : Z := 32.
Definition FMODE_READ : Z := 1.
Definition FMODE_WRITE : Z := 2.
Definition FMODE_APPEND : Z := 4.
Definition SEEK_SET : Z := 0.
Definition SEEK_CUR : Z := 1.
Definition SEEK_END : Z := 2.

(** ** State *)

Record file : Type := MkFile {
  f_pos : Z;
  f_mode : Z;
  f_refcount : Z;
  f_vnode : option ino
}.

Definition with_pos (z : Z) (f : file) : file := MkFile z (f_mode f) (f_refcount f) (f_vnode f).
Definition with_mode (z : Z) (f : file) : file := MkFile (f_pos f) z (f_refcount f) (f_vnode f).
Definition with_count (z : Z) (f : file) : file := MkFile (f_pos f) (f_mode f) z (f_vnode f).
Definition with_vnode (n : ino) (f : file) : file := MkFile (f_pos f) (f_mode f) (f_refcount f) (Some n).

(** The operations of the byte devices, by device number; a device that is not
    registered has none ([vn_cdev] is null then). *)
Class Bytedevs (D : Type) : Type := {
  bytedev_lookup : Z -> bool;
  cd_read : Z -> Z -> Z -> M D (Z * list Z);
  cd_write : Z -> Z -> list Z -> Z -> M D Z
}.

Record vfs {D : Type} : Type := MkVfs {
  vfs_fs : ramfs;
  file_objs : gmap Z file;
  file_mem : nat;             (* file objects the slab allocator can still provide *)
  p_files : list (option Z);
  p_cwd : ino;
  devices : D
}.
Arguments vfs : clear implicits.

Section vfs.
Context {D : Type} `{!Bytedevs D}.
Implicit Types (s : vfs D) (fd a : Z).

Definition set_fs (r : ramfs) s : vfs D := MkVfs D r (file_objs s) (file_mem s) (p_files s) (p_cwd s) (devices s).
Definition set_objs (m : gmap Z file) s : vfs D := MkVfs D (vfs_fs s) m (file_mem s) (p_files s) (p_cwd s) (devices s).
Definition set_fmem (k : nat) s : vfs D := MkVfs D (vfs_fs s) (file_objs s) k (p_files s) (p_cwd s) (devices s).
Definition set_files (l : list (option Z)) s : vfs D := MkVfs D (vfs_fs s) (file_objs s) (file_mem s) l (p_cwd s) (devices s).
Definition set_cwd (n : ino) s : vfs D := MkVfs D (vfs_fs s) (file_objs s) (file_mem s) (p_files s) n (devices s).
Definition set_dev (d : D) s : vfs D := MkVfs D (vfs_fs s) (file_objs s) (file_mem s) (p_files s) (p_cwd s) d.

(** An operation of the file system, and one of a device. *)
Definition on_fs {A} (m : M ramfs A) : M (vfs D) A := zoom vfs_fs set_fs m.
Definition on_dev {A} (m : M D A) : M (vfs D) A := zoom devices set_dev m.

Definition file_get a : M (vfs D) file := let! o := gets (fun s => file_objs s !! a) in deref o.
Definition file_set a (f : file -> file) : M (vfs D) unit := modify (fun s => set_objs (alter f a (file_objs s)) s).
Definition slot_get fd : M (vfs D) (option Z) := let! o := gets (fun s => p_files s !! Z.to_nat fd) in deref o.
Definition slot_set fd (o : option Z) : M (vfs D) unit := modify (fun s => set_files (<[Z.to_nat fd := o]> (p_files s)) s).

(** Signed addition, undefined when it overflows. *)
Definition int_add (x y : Z) : M (vfs D) Z :=
  if (-2147483648 <=? x + y) && (x + y <? 2147483648) then ret (x + y) else stop Undef.

(** ** File objects *)

Definition is_set {A} (o : option A) : bool := match o with Some _ => true | None => false end.

Definition file_asserts (f : file) : bool := (0 <=? f_mode f) && (f_mode f <? 8) && (-1 <=? f_pos f).

Definition fref a : M (vfs D) unit :=
  let! f := file_get a in
  KASSERT (file_asserts f) ;;;
  KASSERT (0 <=? f_refcount f) ;;;
  (if f_refcount f =? 0 then ret tt else KASSERT (is_set (f_vnode f))) ;;;
  file_set a (with_count (f_refcount f + 1)).

(** The address the allocator returns. *)
Definition new_addr (m : gmap Z file) : Z := map_fold (fun k _ z => Z.max (k + 1) z) 1 m.

Definition slab_file : M (vfs D) (option Z) :=
  let! k := gets file_mem in
  match k with
  | O => ret None
  | S k' =>
      let! m := gets file_objs in
      let a := new_addr m in
      modify (fun s => set_fmem k' (set_objs (<[a := MkFile 0 0 0 None]> m) s)) ;;;
      ret (Some a)
  end.

Definition fget fd : M (vfs D) (option Z) :=
  let! o :=
    (if fd =? -1 then slab_file
     else if (fd <? 0) || (NFILES <=? fd) then ret None
     else slot_get fd) in
  match o with
  | Some a => fref a ;;; ret (Some a)
  | None => ret None
  end.

Definition fput (o : option Z) : M (vfs D) unit :=
  KASSERT (is_set o) ;;;
  let! a := deref o in
  let! f := file_get a in
  KASSERT (file_asserts f) ;;;
  KASSERT (0 <? f_refcount f) ;;;
  (if f_refcount f =? 1 then ret tt else KASSERT (is_set (f_vnode f))) ;;;
  file_set a (with_count (f_refcount f - 1)) ;;;
  if f_refcount f - 1 =? 0 then
    match f_vnode f with Some n => on_fs (vput n) | None => ret tt end ;;;
    modify (fun s => set_fmem (S (file_mem s)) (set_objs (delete a (file_objs s)) s))
  else ret tt.

(** ** Opening *)

Fixpoint first_empty (l : list (option Z)) (fd : Z) : option Z :=
  match l with
  | [] => None
  | None :: _ => Some fd
  | Some _ :: l' => first_empty l' (fd + 1)
  end.

Definition get_empty_fd : M (vfs D) Z :=
  let! l := gets p_files in
  match first_empty l 0 with Some fd => ret fd | None => ret (- EMFILE) end.

Definition vnode_of a : M (vfs D) ino := let! f := file_get a in deref (f_vnode f).
Definition mode_of_vnode (n : ino) : M (vfs D) Z := let! v := on_fs (vn_get n) in ret (vn_mode v).

(** The slot is cleared again and the new file object given back. *)
Definition open_undo fd (res_vnode : ino) (err : Z) : M (vfs D) Z :=
  let! o := slot_get fd in
  fput o ;;;
  on_fs (vput res_vnode) ;;;
  slot_set fd None ;;;
  ret err.

Definition open_fill fd (f : option Z) (res_vnode : ino) (mode status : Z) : M (vfs D) Z :=
  let! a := deref f in
  file_set a (with_mode mode) ;;;
  let! o := slot_get fd in
  let! b := deref o in
  (if status =? O_APPEND then
     let! g := file_get b in file_set b (with_mode (Z.lor (f_mode g) FMODE_APPEND))
   else ret tt) ;;;
  file_set b (with_vnode res_vnode) ;;;
  ret fd.

Definition do_open (filename : str) (oflags : Z) : M (vfs D) Z :=
  let! fd := get_empty_fd in
  if fd =? - EMFILE then ret (- EMFILE)
  else
    let! f := fget (-1) in
    slot_set fd f ;;;
    let r_or_w := Z.land oflags 3 in
    let status := Z.land oflags 1792 in
    let! cwd := gets p_cwd in
    let! r := on_fs (open_namev cwd filename status None) in
    if fst r <? 0 then
      let! o := slot_get fd in
      fput o ;;; slot_set fd None ;;; ret (fst r)
    else
      let! res_vnode := deref (snd r) in
      if r_or_w =? O_RDONLY then open_fill fd f res_vnode FMODE_READ status
      else if (r_or_w =? O_WRONLY) || (r_or_w =? O_RDWR) then
        let mode := if r_or_w =? O_WRONLY then FMODE_WRITE else Z.lor FMODE_READ FMODE_WRITE in
        let! a := deref f in
        file_set a (with_mode mode) ;;;
        let! m := mode_of_vnode res_vnode in
        if S_ISDIR m then open_undo fd res_vnode (- EISDIR)
        else open_fill fd f res_vnode mode status
      else open_undo fd res_vnode (- EINVAL).

(** ** Reading, writing and seeking *)

Definition do_lseek fd (offset whence : Z) : M (vfs D) Z :=
  if negb (whence =? SEEK_SET) && negb (whence =? SEEK_CUR) && negb (whence =? SEEK_END) then ret (- EINVAL)
  else if (fd <? 0) || (NFILES <=? fd) then ret (- EBADF)
  else
    let! o := fget fd in
    match o with
    | None => ret (- EBADF)
    | Some a =>
        let! f := file_get a in
        let! modify_val :=
          (if whence =? SEEK_SET then ret offset
           else if whence =? SEEK_CUR then int_add (f_pos f) offset
           else let! n := deref (f_vnode f) in
                let! v := on_fs (vn_get n) in
                int_add (vn_len v) offset) in
        if modify_val <? 0 then fput o ;;; ret (- EINVAL)
        else file_set a (with_pos modify_val) ;;; fput o ;;; ret modify_val
    end.

(** The operations of the special files; the device is found by its number. *)
Definition special_file_read (n : ino) (offset count : Z) : M (vfs D) (Z * list Z) :=
  let! v := on_fs (vn_get n) in
  KASSERT (S_ISCHR (vn_mode v) || S_ISBLK (vn_mode v)) ;;;
  if S_ISCHR (vn_mode v) then
    KASSERT (bytedev_lookup (vn_devid v)) ;;;
    on_dev (cd_read (vn_devid v) offset count)
  else ret (0, []).

Definition special_file_write (n : ino) (offset : Z) (buf : list Z) (count : Z) : M (vfs D) Z :=
  let! v := on_fs (vn_get n) in
  KASSERT (S_ISCHR (vn_mode v) || S_ISBLK (vn_mode v)) ;;;
  if S_ISCHR (vn_mode v) then
    KASSERT (bytedev_lookup (vn_devid v)) ;;;
    on_dev (cd_write (vn_devid v) offset buf count)
  else ret 0.

(** [vn_ops->read] and [vn_ops->write]; a directory has neither. *)
Definition vn_read (n : ino) (offset count : Z) : M (vfs D) (Z * list Z) :=
  let! m := mode_of_vnode n in
  if S_ISREG m then on_fs (ramfs_read n offset count)
  else if S_ISDIR m then stop Undef
  else special_file_read n offset count.

Definition vn_write (n : ino) (offset : Z) (buf : list Z) (count : Z) : M (vfs D) Z :=
  let! m := mode_of_vnode n in
  if S_ISREG m then on_fs (ramfs_write n offset buf count)
  else if S_ISDIR m then stop Undef
  else special_file_write n offset buf count.

(** The number of bytes and the bytes put into the buffer. *)
Definition do_read fd (nbytes : Z) : M (vfs D) (Z * list Z) :=
  let! temp := fget fd in
  match temp with
  | None => ret (- EBADF, [])
  | Some a =>
      let! f := file_get a in
      if negb (Z.land (f_mode f) FMODE_READ =? FMODE_READ) then fput temp ;;; ret (- EBADF, [])
      else
        let! n := deref (f_vnode f) in
        let! m := mode_of_vnode n in
        if S_ISDIR m then fput temp ;;; ret (- EISDIR, [])
        else
          let! r := vn_read n (f_pos f) nbytes in
          do_lseek fd (fst r) SEEK_CUR ;;;
          fput temp ;;;
          ret r
  end.

Definition do_write fd (buf : list Z) (nbytes : Z) : M (vfs D) Z :=
  let! temp := fget fd in
  match temp with
  | None => ret (- EBADF)
  | Some a =>
      let! f := file_get a in
      if negb (Z.land (f_mode f) FMODE_WRITE =? FMODE_WRITE) then fput temp ;;; ret (- EBADF)
      else
        (if Z.land (f_mode f) FMODE_APPEND =? FMODE_APPEND then do_lseek fd 0 SEEK_END ;;; ret tt else ret tt) ;;;
        let! g := file_get a in
        let! n := deref (f_vnode g) in
        let! bytes_write := vn_write n (f_pos g) buf nbytes in
        let! v := on_fs (vn_get n) in
        KASSERT (S_ISCHR (vn_mode v) || S_ISBLK (vn_mode v) || (S_ISREG (vn_mode v) && (f_pos g <=? vn_len v))) ;;;
        do_lseek fd bytes_write SEEK_CUR ;;;
        fput temp ;;;
        ret bytes_write
  end.

(** ** Descriptors *)

Definition bad_fd fd : bool := (fd <? 0) || (NFILES <=? fd).

Definition do_close fd : M (vfs D) Z :=
  if bad_fd fd then ret (- EBADF)
  else
    let! temp := fget fd in
    match temp with
    | None => ret (- EBADF)
    | Some _ => fput temp ;;; slot_set fd None ;;; fput temp ;;; ret 0
    end.

Definition do_dup fd : M (vfs D) Z :=
  if bad_fd fd then ret (- EBADF)
  else
    let! temp := fget fd in
    match temp with
    | None => ret (- EBADF)
    | Some _ =>
        let! new_fd := get_empty_fd in
        if new_fd =? - EMFILE then fput temp ;;; ret (- EMFILE)
        else slot_set new_fd temp ;;; ret new_fd
    end.

Definition do_dup2 (ofd nfd : Z) : M (vfs D) Z :=
  if bad_fd ofd then ret (- EBADF)
  else if bad_fd nfd then ret (- EBADF)
  else
    let! oldf := fget ofd in
    match oldf with
    | None => ret (- EBADF)
    | Some _ =>
        (if negb (ofd =? nfd) then
           let! o := slot_get nfd in
           if is_set o then do_close nfd ;;; ret tt else ret tt
         else fput oldf) ;;;
        slot_set nfd oldf ;;;
        ret nfd
    end.

(** ** Calls on paths *)

Definition at_path (path : str) : M (vfs D) namev :=
  let! cwd := gets p_cwd in on_fs (dir_namev cwd path None).
Definition open_path (path : str) (flag : Z) : M (vfs D) (Z * option ino) :=
  let! cwd := gets p_cwd in on_fs (open_namev cwd path flag None).

Definition do_mknod (path : str) (mode devid : Z) : M (vfs D) Z :=
  if negb (S_ISCHR mode) && negb (S_ISBLK mode) then ret (- EINVAL)
  else
    let! r := at_path path in
    if (nv_errno r =? - ENAMETOOLONG) || (nv_errno r =? - EINVAL) then ret (nv_errno r)
    else
      (* other errors are not looked at; what was not written is read *)
      let! rest := deref (nv_vnode r) in
      let! m := mode_of_vnode rest in
      if negb (S_ISDIR m) then on_fs (vput rest) ;;; ret (- ENOTDIR)
      else
        let! name := deref (nv_name r) in
        let! ent := on_fs (lookup rest name) in
        if negb (fst ent =? - ENOENT) then
          let! result := deref (snd ent) in
          on_fs (vput result) ;;; on_fs (vput rest) ;;; ret (- EEXIST)
        else
          let! made := on_fs (ramfs_mknod rest name mode devid) in
          on_fs (vput rest) ;;;
          ret made.

Definition do_mkdir (path : str) : M (vfs D) Z :=
  let! r := at_path path in
  let! name := deref (nv_name r) in      (* [strlen(name)] comes before the check of the result *)
  if NAME_LEN <? strlen name then
    let! rest := deref (nv_vnode r) in
    on_fs (vput rest) ;;; ret (- ENAMETOOLONG)
  else if nv_errno r <? 0 then ret (nv_errno r)
  else
    let! rest := deref (nv_vnode r) in
    let! m := mode_of_vnode rest in
    if negb (S_ISDIR m) then on_fs (vput rest) ;;; ret (- ENOTDIR)
    else
      on_fs (vput rest) ;;;              (* the directory is given up here and used below *)
      let! ent := on_fs (lookup rest name) in
      if fst ent =? 0 then
        let! result := deref (snd ent) in
        on_fs (vput result) ;;; ret (- EEXIST)
      else on_fs (ramfs_mkdir rest name).

Definition do_rmdir (path : str) : M (vfs D) Z :=
  let! r := at_path path in
  if nv_errno r <? 0 then ret (nv_errno r)
  else
    let! rest := deref (nv_vnode r) in
    let! name := deref (nv_name r) in
    if bool_decide (name = DOT) then on_fs (vput rest) ;;; ret (- EINVAL)
    else if bool_decide (name = DOTDOT) then on_fs (vput rest) ;;; ret (- ENOTEMPTY)
    else
      let! m := mode_of_vnode rest in
      if negb (S_ISDIR m) then on_fs (vput rest) ;;; ret (- ENOTDIR)
      else
        let! rem := on_fs (ramfs_rmdir rest name) in
        on_fs (vput rest) ;;;
        ret rem.

Definition do_unlink (path : str) : M (vfs D) Z :=
  let! r := at_path path in
  if nv_errno r <? 0 then ret (nv_errno r)
  else
    let! rest := deref (nv_vnode r) in
    let! name := deref (nv_name r) in
    let! m := mode_of_vnode rest in
    if negb (S_ISDIR m) then on_fs (vput rest) ;;; ret (- ENOTDIR)
    else
      let! ent := on_fs (lookup rest name) in
      if fst ent <? 0 then on_fs (vput rest) ;;; ret (fst ent)
      else
        let! result := deref (snd ent) in
        let! mr := mode_of_vnode result in
        if S_ISDIR mr then on_fs (vput rest) ;;; on_fs (vput result) ;;; ret (- EISDIR)
        else
          let! rem := on_fs (ramfs_unlink rest name) in
          on_fs (vput rest) ;;;
          on_fs (vput result) ;;;
          ret rem.

Definition do_link (from to : str) : M (vfs D) Z :=
  if (NAME_LEN <? strlen from) || (NAME_LEN <? strlen to) then ret (- ENAMETOOLONG)
  else
    let! err := open_path from 0 in
    if fst err <? 0 then ret (fst err)
    else
      let! res_vnode := deref (snd err) in
      let! m := mode_of_vnode res_vnode in
      if S_ISDIR m then on_fs (vput res_vnode) ;;; ret (- EISDIR)
      else
        let! r := at_path to in
        if nv_errno r <? 0 then on_fs (vput res_vnode) ;;; ret (nv_errno r)
        else
          let! res_vnode2 := deref (nv_vnode r) in
          let! name := deref (nv_name r) in
          let! ent := on_fs (lookup res_vnode2 name) in
          if fst ent =? 0 then
            on_fs (vput res_vnode) ;;; on_fs (vput res_vnode2) ;;; on_fs (vput res_vnode) ;;; ret (- EEXIST)
          else
            let! v2 := on_fs (vn_get res_vnode2) in
            (if has_dir_ops v2 then ret tt else stop Undef) ;;;    (* [link] is null otherwise *)
            let! err3 := on_fs (ramfs_link res_vnode res_vnode2 name) in
            on_fs (vput res_vnode2) ;;;
            on_fs (vput res_vnode) ;;;
            ret err3.

Definition do_rename (oldname newname : str) : M (vfs D) Z :=
  let! retVal := do_link oldname newname in
  if retVal <? 0 then ret retVal else do_unlink oldname.

Definition do_chdir (path : str) : M (vfs D) Z :=
  if MAXPATHLEN <? strlen path then ret (- ENAMETOOLONG)
  else
    let! cwd := gets p_cwd in
    let! r := on_fs (open_namev cwd path O_RDONLY (Some cwd)) in
    if fst r <? 0 then ret (fst r)
    else
      let! newcwd := deref (snd r) in
      let! m := mode_of_vnode newcwd in
      if negb (S_ISDIR m) then on_fs (vput newcwd) ;;; ret (- ENOTDIR)
      else
        on_fs (vput cwd) ;;;
        modify (set_cwd newcwd) ;;;
        on_fs (vref newcwd) ;;;
        on_fs (vput newcwd) ;;;
        ret 0.

Definition SIZEOF_DIRENT_T : Z := 40.

(** The value returned and the entry put into the buffer. *)
Definition do_getdent fd : M (vfs D) (Z * option (ino * str)) :=
  if bad_fd fd then ret (- EBADF, None)
  else
    let! o := fget fd in
    match o with
    | None => ret (- EBADF, None)
    | Some a =>
        let! f := file_get a in
        let! dir_vn := deref (f_vnode f) in
        let! m := mode_of_vnode dir_vn in
        if negb (S_ISDIR m) then fput o ;;; ret (- ENOTDIR, None)
        else
          let! r := on_fs (ramfs_readdir dir_vn (f_pos f)) in
          (if 0 <? fst r then let! pos := int_add (f_pos f) (fst r) in file_set a (with_pos pos) else ret tt) ;;;
          fput o ;;;
          ret (if 0 <? fst r then SIZEOF_DIRENT_T else 0, snd r)
    end.

Definition do_stat (path : str) : M (vfs D) (Z * option stat) :=
  if MAXPATHLEN <? strlen path then ret (- ENAMETOOLONG, None)
  else
    let! r := open_path path O_RDONLY in
    if fst r <? 0 then ret (fst r, None)
    else
      let! n := deref (snd r) in
      let! st := on_fs (ramfs_stat n) in
      on_fs (vput n) ;;;
      ret (fst st, Some (snd st)).

(** ** Running the operations *)

Lemma bind_on_fs {A B} (m : M ramfs A) (k : A -> M (vfs D) B) s x r :
  m (vfs_fs s) = Ret (x, r) -> bind (on_fs m) k s = k x (set_fs r s).
Proof. intros E. unfold bind, on_fs, zoom. by rewrite E. Qed.

Lemma stop_on_fs {A B} (m : M ramfs A) (k : A -> M (vfs D) B) s f : m (vfs_fs s) = Stop f -> bind (on_fs m) k s = Stop f.
Proof. intros E. unfold bind, on_fs, zoom. by rewrite E. Qed.

Lemma set_fs_id s : set_fs (vfs_fs s) s = s.
Proof. by destruct s. Qed.
Lemma set_fs_fs r r' s : set_fs r (set_fs r' s) = set_fs r s.
Proof. done. Qed.
Lemma set_objs_id s : set_objs (file_objs s) s = s.
Proof. by destruct s. Qed.

Lemma bind_mode_of n v s {B} (k : Z -> M (vfs D) B) :
  vnode_inuse (vfs_fs s) !! n = Some v -> bind (mode_of_vnode n) k s = k (vn_mode v) s.
Proof.
  intros Ev. unfold mode_of_vnode. rewrite bind_bind, (bind_on_fs _ _ s v (vfs_fs s)) by (by apply vn_get_eq).
  by rewrite set_fs_id.
Qed.

Lemma bind_file_get {B} a f (k : file -> M (vfs D) B) s : file_objs s !! a = Some f -> bind (file_get a) k s = k f s.
Proof. intros E. unfold file_get. rewrite bind_bind, bind_gets, E. done. Qed.

Lemma bind_slot_get {B} fd o (k : option Z -> M (vfs D) B) s : p_files s !! Z.to_nat fd = Some o -> bind (slot_get fd) k s = k o s.
Proof. intros E. unfold slot_get. rewrite bind_bind, bind_gets, E. done. Qed.

(** ** The invariant *)

(** Descriptors for a file object, file objects for a vnode. *)
Definition nfds (l : list (option Z)) a : Z := Z.of_nat (length (filter (fun o => o = Some a) l)).
Definition users (m : gmap Z file) (n : ino) : Z := Z.of_nat (size (filter (fun kv => f_vnode kv.2 = Some n) m)).

Record file_ok (r : ramfs) (f : file) : Prop := {
  fo_mode : 0 <= f_mode f < 8;
  fo_pos : 0 <= f_pos f < 2147483648;
  fo_count : 1 <= f_refcount f;
  fo_vnode : exists n, f_vnode f = Some n /\ 0 < refs r n /\ (Z.land (f_mode f) FMODE_WRITE = FMODE_WRITE -> kind r n <> Some RAMFS_TYPE_DIR)
}.

(** [X a] and [E n] are the references held elsewhere: by other processes, by
    mappings, and the one the mounted file system has on its root. *)
Record vinv (X : Z -> Z) (E : ino -> Z) s : Prop := {
  vi_fs : ramfs_ok (vfs_fs s);
  vi_len : length (p_files s) = 32%nat;
  vi_slots : forall i a, p_files s !! i = Some (Some a) -> is_Some (file_objs s !! a);
  vi_files : forall a f, file_objs s !! a = Some f -> file_ok (vfs_fs s) f /\ f_refcount f = nfds (p_files s) a + X a;
  vi_refs : forall n, refs (vfs_fs s) n = users (file_objs s) n + one_if (p_cwd s = n) + E n;
  vi_cwd : kind (vfs_fs s) (p_cwd s) = Some RAMFS_TYPE_DIR;
  vi_ext : (forall a, 0 <= X a) /\ (forall n, 0 <= E n) /\ 1 <= E fs_root;
  vi_none : forall a, file_objs s !! a = None -> X a = 0
}.

Lemma nfds_insert l i o o' a :
  l !! i = Some o -> nfds (<[i := o']> l) a = nfds l a - one_if (o = Some a) + one_if (o' = Some a).
Proof.
  intros Hi. pose proof (take_drop_middle _ _ _ Hi) as Hl. apply lookup_lt_Some in Hi as Hlt.
  rewrite (insert_take_drop _ _ o' Hlt). rewrite <- Hl at 3. unfold nfds. rewrite !filter_app, !filter_cons, !length_app.
  unfold one_if. destruct (decide (o = Some a)), (decide (o' = Some a)); simpl; lia.
Qed.

Lemma nfds_pos l i a : l !! i = Some (Some a) -> 1 <= nfds l a.
Proof.
  intros Hi. unfold nfds. assert (Some a ∈ filter (fun o => o = Some a) l) as Hin.
  { apply list_elem_of_filter. split; [done|]. by apply list_elem_of_lookup_2 in Hi. }
  destruct (filter _ l); [by apply not_elem_of_nil in Hin|]. simpl. lia.
Qed.

Lemma nfds_zero l a : (forall i, l !! i <> Some (Some a)) -> nfds l a = 0.
Proof.
  intros Hno. unfold nfds. destruct (filter (fun o => o = Some a) l) as [|o l'] eqn:E; [done|].
  assert (o ∈ filter (fun o => o = Some a) l) as Hin by (rewrite E; left).
  apply list_elem_of_filter in Hin as [-> [i Hi]%list_elem_of_lookup]. by destruct (Hno i).
Qed.

Lemma users_insert m a f n : m !! a = None -> users (<[a := f]> m) n = users m n + one_if (f_vnode f = Some n).
Proof.
  intros Ha. unfold users, one_if. destruct (decide (f_vnode f = Some n)) as [Hn|Hn].
  - rewrite map_filter_insert_True by done. rewrite map_size_insert_None; [lia|]. apply map_lookup_filter_None_2. by left.
  - rewrite map_filter_insert_False by done. rewrite delete_id by done. lia.
Qed.

Lemma users_delete m a f n : m !! a = Some f -> users (delete a m) n = users m n - one_if (f_vnode f = Some n).
Proof.
  intros Ha. rewrite <- (insert_delete_id m a f Ha) at 2. rewrite users_insert by (by rewrite lookup_delete_eq). lia.
Qed.

Lemma users_update m a f f' n : m !! a = Some f -> f_vnode f' = f_vnode f -> users (<[a := f']> m) n = users m n.
Proof.
  intros Ha Hv. rewrite <- insert_delete_eq. rewrite users_insert by (by rewrite lookup_delete_eq).
  rewrite (users_delete m a f) by done. rewrite Hv. lia.
Qed.

Lemma users_pos m a f n : m !! a = Some f -> f_vnode f = Some n -> 1 <= users m n.
Proof. intros Ha Hf. pose proof (users_delete m a f n Ha) as H. rewrite one_if_true in H by done. unfold users in *. lia. Qed.
Lemma users_nonneg m n : 0 <= users m n.
Proof. unfold users. lia. Qed.

Lemma new_addr_bound m a f : m !! a = Some f -> a < new_addr m.
Proof.
  revert a f. unfold new_addr. apply (map_fold_weak_ind (fun z m => forall a f, m !! a = Some f -> a < z)).
  - intros a f. by rewrite lookup_empty.
  - intros k g m' z _ IH a f [[<- _]|[_ Ha]]%lookup_insert_Some; [lia|]. specialize (IH _ _ Ha). lia.
Qed.

Lemma new_addr_fresh m : m !! new_addr m = None.
Proof. destruct (m !! new_addr m) as [f|] eqn:E; [|done]. apply new_addr_bound in E. lia. Qed.

(** ** File objects: what the operations do *)

Definition with_file a (f : file) s : vfs D := set_objs (<[a := f]> (file_objs s)) s.
Definition without_file a (r : ramfs) s : vfs D :=
  MkVfs D r (delete a (file_objs s)) (S (file_mem s)) (p_files s) (p_cwd s) (devices s).

Lemma file_set_eq {B} a f g (k : unit -> M (vfs D) B) s :
  file_objs s !! a = Some f -> bind (file_set a g) k s = k tt (with_file a (g f) s).
Proof. intros E. unfold file_set. rewrite bind_modify. by rewrite (alter_inserted g a f). Qed.

Lemma file_set_end a f g s : file_objs s !! a = Some f -> file_set a g s = Ret (tt, with_file a (g f) s).
Proof. intros E. unfold file_set, modify. by rewrite (alter_inserted g a f). Qed.

Lemma with_file_same a f s : file_objs s !! a = Some f -> with_file a f s = s.
Proof. intros E. unfold with_file. rewrite insert_id by done. apply set_objs_id. Qed.
Lemma with_file_twice a f g s : with_file a g (with_file a f s) = with_file a g s.
Proof. unfold with_file. destruct s. unfold set_objs. simpl. by rewrite insert_insert_eq. Qed.
Lemma with_file_objs a f s : file_objs (with_file a f s) !! a = Some f.
Proof. simpl. by rewrite lookup_insert_eq. Qed.

Lemma file_asserts_ok r f : file_ok r f -> file_asserts f = true.
Proof. intros [Hm Hp _ _]. unfold file_asserts. rewrite !andb_true_iff, !Z.leb_le, Z.ltb_lt. lia. Qed.

Lemma fref_eq a f s :
  file_objs s !! a = Some f -> file_asserts f = true -> 0 <= f_refcount f -> f_refcount f = 0 \/ is_set (f_vnode f) = true ->
  fref a s = Ret (tt, with_file a (with_count (f_refcount f + 1) f) s).
Proof.
  intros Ea Hf Hc Hv. unfold fref. rewrite (bind_file_get _ _ _ _ Ea), !bind_assert by (done || by apply Z.leb_le).
  assert (forall k : unit -> M (vfs D) unit, bind (if f_refcount f =? 0 then ret tt else KASSERT (is_set (f_vnode f))) k s = k tt s) as ->.
  { intros k. destruct (Z.eqb_spec (f_refcount f) 0); [done|]. destruct Hv as [|Hv]; [done|]. by rewrite Hv. }
  by apply file_set_end.
Qed.

Lemma fget_open fd a f s :
  bad_fd fd = false -> p_files s !! Z.to_nat fd = Some (Some a) -> file_objs s !! a = Some f -> file_ok (vfs_fs s) f ->
  fget fd s = Ret (Some a, with_file a (with_count (f_refcount f + 1) f) s).
Proof.
  intros Hfd Hs Ea Hf. unfold fget, bad_fd in *. rewrite Hfd. apply orb_false_iff in Hfd as [Hfd _].
  apply Z.ltb_ge in Hfd. rewrite (proj2 (Z.eqb_neq _ _)) by lia. rewrite (bind_slot_get _ _ _ _ Hs).
  pose proof (fo_count _ _ Hf). destruct (fo_vnode _ _ Hf) as (n & Hn & _).
  rewrite (bind_eq _ _ _ _ _ (fref_eq a f s Ea (file_asserts_ok _ _ Hf) ltac:(lia) ltac:(rewrite Hn; by right))). done.
Qed.

Lemma fget_empty fd s :
  bad_fd fd = false -> p_files s !! Z.to_nat fd = Some None -> fget fd s = Ret (None, s).
Proof.
  intros Hfd Hs. unfold fget, bad_fd in *. rewrite Hfd. apply orb_false_iff in Hfd as [Hfd _].
  apply Z.ltb_ge in Hfd. rewrite (proj2 (Z.eqb_neq _ _)) by lia. by rewrite (bind_slot_get _ _ _ _ Hs).
Qed.

Lemma fput_down a f s :
  file_objs s !! a = Some f -> file_asserts f = true -> 1 < f_refcount f -> is_set (f_vnode f) = true ->
  fput (Some a) s = Ret (tt, with_file a (with_count (f_refcount f - 1) f) s).
Proof.
  intros Ea Hf Hc Hv. unfold fput. rewrite bind_assert, bind_deref by done. rewrite (bind_file_get _ _ _ _ Ea).
  rewrite !bind_assert by (done || (apply Z.ltb_lt; lia)). rewrite (proj2 (Z.eqb_neq _ 1)) by lia.
  rewrite bind_assert by done. rewrite (file_set_eq _ f) by done. by rewrite (proj2 (Z.eqb_neq _ 0)) by lia.
Qed.

Lemma fput_last a f s r :
  file_objs s !! a = Some f -> file_asserts f = true -> f_refcount f = 1 ->
  match f_vnode f with Some n => vput n (vfs_fs s) = Ret (tt, r) | None => r = vfs_fs s end ->
  fput (Some a) s = Ret (tt, without_file a r s).
Proof.
  intros Ea Hf Hc Hv. unfold fput. rewrite bind_assert, bind_deref by done. rewrite (bind_file_get _ _ _ _ Ea).
  rewrite !bind_assert by (done || by rewrite Hc). rewrite Hc. simpl (1 =? 1). cbv iota. rewrite bind_ret.
  rewrite (file_set_eq _ f) by done. simpl (1 - 1 =? 0). cbv iota. destruct (f_vnode f) as [n|].
  - rewrite (bind_on_fs _ _ _ tt r) by done. unfold modify, without_file. do 2 f_equal. unfold set_fmem, set_objs, set_fs. simpl.
    by rewrite delete_insert_eq.
  - subst r. rewrite bind_ret. unfold modify, without_file. do 2 f_equal. unfold set_fmem, set_objs. simpl. by rewrite delete_insert_eq.
Qed.

(** A file object is used for the time of a call. *)
Lemma fput_bumped a f s :
  file_ok (vfs_fs s) f -> fput (Some a) (with_file a (with_count (f_refcount f + 1) f) s) = Ret (tt, with_file a f s).
Proof.
  intros Hf. pose proof (fo_count _ _ Hf). destruct (fo_vnode _ _ Hf) as (n & Hn & _).
  rewrite (fput_down a (with_count (f_refcount f + 1) f)); [|apply with_file_objs|by apply (file_asserts_ok (vfs_fs s) f)|simpl; lia|simpl; by rewrite Hn].
  rewrite with_file_twice. unfold with_count. simpl. do 3 f_equal. destruct f. simpl. f_equal. lia.
Qed.

(** The descriptor [fd] refers to the file object [f] at [a]. *)
Definition open_fd s fd a (f : file) : Prop :=
  bad_fd fd = false /\ p_files s !! Z.to_nat fd = Some (Some a) /\ file_objs s !! a = Some f.

Lemma open_fd_ok X E s fd a f : vinv X E s -> open_fd s fd a f -> file_ok (vfs_fs s) f.
Proof. intros Hinv (_ & _ & Ha). apply (vi_files _ _ _ Hinv _ _ Ha). Qed.

Lemma open_fd_with s fd a f g : open_fd s fd a f -> open_fd (with_file a g s) fd a g.
Proof. intros (H1 & H2 & H3). split_and!; [done|done|apply with_file_objs]. Qed.

(** A descriptor is bad, free or open. *)
Lemma fd_cases X E s fd :
  vinv X E s -> bad_fd fd = true \/ (bad_fd fd = false /\ p_files s !! Z.to_nat fd = Some None) \/ exists a f, open_fd s fd a f.
Proof.
  intros Hinv. destruct (bad_fd fd) eqn:Eb; [by left|right].
  assert (Z.to_nat fd < length (p_files s))%nat as Hlt.
  { rewrite (vi_len _ _ _ Hinv). unfold bad_fd, NFILES in Eb. apply orb_false_iff in Eb as [H1%Z.ltb_ge H2%Z.leb_gt]. lia. }
  apply lookup_lt_is_Some in Hlt as [[a|] Ha]; [right|by left]. destruct (vi_slots _ _ _ Hinv _ _ Ha) as [f Hf].
  by exists a, f.
Qed.

Definition vnode_len (r : ramfs) (n : ino) : Z := match vnode_inuse r !! n with Some v => vn_len v | None => 0 end.

Definition seek_target s (f : file) (offset whence : Z) : Z :=
  if whence =? SEEK_SET then offset
  else if whence =? SEEK_CUR then f_pos f + offset
  else match f_vnode f with Some n => vnode_len (vfs_fs s) n | None => 0 end + offset.

Definition is_whence (w : Z) : Prop := w = SEEK_SET \/ w = SEEK_CUR \/ w = SEEK_END.
Definition is_int (z : Z) : Prop := -2147483648 <= z < 2147483648.

Lemma bind_int_add {B} x y (k : Z -> M (vfs D) B) s : is_int (x + y) -> bind (int_add x y) k s = k (x + y) s.
Proof. intros H. unfold int_add. by rewrite (proj2 (andb_true_iff _ _)) by (rewrite Z.leb_le, Z.ltb_lt; done). Qed.

Lemma do_lseek_eq s fd a f offset whence :
  open_fd s fd a f -> file_ok (vfs_fs s) f -> is_whence whence -> is_int (seek_target s f offset whence) ->
  do_lseek fd offset whence s =
    if seek_target s f offset whence <? 0 then Ret (- EINVAL, s)
    else Ret (seek_target s f offset whence, with_file a (with_pos (seek_target s f offset whence) f) s).
Proof.
  intros Hop Hf Hw Hint. pose proof Hop as (Hb & Hs & Ha). unfold do_lseek.
  assert (negb (whence =? SEEK_SET) && negb (whence =? SEEK_CUR) && negb (whence =? SEEK_END) = false) as ->.
  { by destruct Hw as [->|[->| ->]]. }
  unfold bad_fd in Hb. rewrite Hb. rewrite (bind_eq _ _ _ _ _ (fget_open fd a f s Hb Hs Ha Hf)).
  set (f1 := with_count (f_refcount f + 1) f). rewrite (bind_file_get a f1) by apply with_file_objs.
  assert (forall k : Z -> M (vfs D) Z, bind (if whence =? SEEK_SET then ret offset
       else if whence =? SEEK_CUR then int_add (f_pos f1) offset
       else let! n := deref (f_vnode f1) in let! v := on_fs (vn_get n) in int_add (vn_len v) offset) k (with_file a f1 s)
     = k (seek_target s f offset whence) (with_file a f1 s)) as ->.
  { intros k. unfold seek_target in *. destruct (whence =? SEEK_SET); [done|]. destruct (whence =? SEEK_CUR); [by apply bind_int_add|].
    destruct (fo_vnode _ _ Hf) as (n & Hn & Hr & _). simpl f_vnode. rewrite Hn in *. rewrite bind_bind, bind_deref.
    unfold refs in Hr. unfold vnode_len in *. destruct (vnode_inuse (vfs_fs s) !! n) as [v|] eqn:Ev; [|lia].
    rewrite bind_bind, (bind_on_fs _ _ _ v (vfs_fs s)) by (by apply vn_get_eq). change (set_fs (vfs_fs s) (with_file a f1 s)) with (with_file a f1 s).
    by apply bind_int_add. }
  destruct (Z.ltb_spec (seek_target s f offset whence) 0) as [Hneg|Hpos].
  - rewrite (bind_eq _ _ _ _ _ (fput_bumped a f s Hf)). by rewrite with_file_same.
  - rewrite (file_set_eq a f1) by apply with_file_objs. rewrite with_file_twice.
    set (g := with_pos (seek_target s f offset whence) f). change (with_pos _ f1) with (with_count (f_refcount g + 1) g).
    assert (file_ok (vfs_fs s) g) as Hg.
    { destruct Hf as [H1 H2 H3 H4]. unfold is_int in Hint. by split; simpl; try lia. }
    by rewrite (bind_eq _ _ _ _ _ (fput_bumped a g s Hg)).
Qed.

Lemma file_ok_pos r f z : file_ok r f -> 0 <= z < 2147483648 -> file_ok r (with_pos z f).
Proof. intros [H1 H2 H3 H4] Hz. by split. Qed.

(** Changing the position of an open file keeps the invariant. *)
Lemma vinv_pos X E s a f z : vinv X E s -> file_objs s !! a = Some f -> 0 <= z < 2147483648 -> vinv X E (with_file a (with_pos z f) s).
Proof.
  intros [H1 H2 H3 H4 H5 H6 H7 H8] Ha Hz. split; simpl; try done.
  - intros i b Hb. apply lookup_insert_is_Some'. right. by apply (H3 i).
  - intros b g [[<- <-]|[Hne Hg]]%lookup_insert_Some; [|by apply H4]. destruct (H4 _ _ Ha) as [Hf Hc].
    split; [by apply file_ok_pos|done].
  - intros n. by rewrite (users_update _ a f).
  - intros b [Hb _]%lookup_insert_None. by apply H8.
Qed.

(** ** Reading and writing regular files *)

Definition readable (f : file) : bool := Z.land (f_mode f) FMODE_READ =? FMODE_READ.
Definition writable (f : file) : bool := Z.land (f_mode f) FMODE_WRITE =? FMODE_WRITE.
Definition appends (f : file) : bool := Z.land (f_mode f) FMODE_APPEND =? FMODE_APPEND.

Lemma file_ok_count r f z : file_ok r f -> 1 <= z -> file_ok r (with_count z f).
Proof. intros [H1 H2 H3 H4] Hz. by split. Qed.

(** The file object during a call. *)
Abbreviation used f := (with_count (f_refcount f + 1) f).

Lemma used_ok r f : file_ok r f -> file_ok r (used f).
Proof. intros Hf. apply file_ok_count; [done|]. pose proof (fo_count _ _ Hf). lia. Qed.

Lemma do_read_eq L s fd a f n l len nbytes :
  open_fd s fd a f -> file_ok (vfs_fs s) f -> readable f = true -> f_vnode f = Some n ->
  finv None L (vfs_fs s) -> is_file (vfs_fs s) n l len -> 0 <= nbytes < 2147483648 ->
  let r := Z.max 0 (Z.min nbytes (len - f_pos f)) in
  do_read fd nbytes s = Ret ((r, take (Z.to_nat r) (drop (Z.to_nat (f_pos f)) l)), with_file a (with_pos (f_pos f + r) f) s).
Proof.
  intros Hop Hf Hm Hn Hinv Hfile Hc r. pose proof Hop as (Hb & Hs & Ha). pose proof (fo_pos _ _ Hf) as Hpos.
  destruct (is_file_facts _ _ _ _ _ Hinv Hfile) as (Hlen & Hsz & v & Ev & Mv & Lv).
  unfold do_read. rewrite (bind_eq _ _ _ _ _ (fget_open fd a f s Hb Hs Ha Hf)).
  rewrite (bind_file_get a (used f)) by apply with_file_objs. fold (readable (used f)). change (readable (used f)) with (readable f).
  rewrite Hm. change (negb true) with false. cbv iota. change (f_vnode (used f)) with (f_vnode f). rewrite Hn, bind_deref. rewrite (bind_mode_of n v) by done. rewrite Mv.
  change (S_ISDIR S_IFREG) with false. cbv iota. unfold vn_read. rewrite bind_bind, (bind_mode_of n v) by done. rewrite Mv.
  change (S_ISREG S_IFREG) with true. cbv iota.
  pose proof (ramfs_read_eq L (vfs_fs s) n l len (f_pos f) nbytes Hinv Hfile ltac:(lia) Hc) as Hr. cbv zeta in Hr. fold r in Hr.
  rewrite (bind_on_fs _ _ (with_file a (used f) s) _ (vfs_fs s) Hr).
  change (set_fs (vfs_fs s) (with_file a (used f) s)) with (with_file a (used f) s). simpl fst.
  assert (seek_target (with_file a (used f) s) (used f) r SEEK_CUR = f_pos f + r) as Ht by done.
  assert (0 <= f_pos f + r < 2147483648) as Hbound by (unfold PAGE_SIZE in *; lia).
  rewrite (bind_eq _ _ _ (f_pos f + r) (with_file a (with_pos (f_pos f + r) (used f)) s)).
  2: { rewrite (do_lseek_eq _ fd a (used f)); [|by apply (open_fd_with s fd a f)|by apply used_ok|right; by left|rewrite Ht; unfold is_int; lia].
       rewrite Ht, with_file_twice. by rewrite (proj2 (Z.ltb_ge _ _)) by lia. }
  set (g := with_pos (f_pos f + r) f). change (with_pos (f_pos f + r) (used f)) with (used g).
  by rewrite (bind_eq _ _ _ _ _ (fput_bumped a g s (file_ok_pos _ _ _ Hf Hbound))).
Qed.

(** Where a write goes. *)
Definition write_pos (f : file) (len : Z) : Z := if appends f then len else f_pos f.

Lemma do_write_eq L s fd a f n l len buf :
  open_fd s fd a f -> file_ok (vfs_fs s) f -> writable f = true -> f_vnode f = Some n ->
  finv None L (vfs_fs s) -> is_file (vfs_fs s) n l len -> f_pos f <= PAGE_SIZE -> Z.of_nat (length buf) < 2147483648 ->
  let p := write_pos f len in
  let r := Z.min (Z.of_nat (length buf)) (PAGE_SIZE - p) in
  do_write fd buf (Z.of_nat (length buf)) s =
    Ret (r, with_file a (with_pos (p + r) f) (set_fs (stored n p (take (Z.to_nat r) buf) (Z.max len (p + r)) (vfs_fs s)) s)).
Proof.
  intros Hop Hf Hm Hn Hinv Hfile Hp Hc p r. pose proof Hop as (Hb & Hs & Ha). pose proof (fo_pos _ _ Hf) as Hpos.
  destruct (is_file_facts _ _ _ _ _ Hinv Hfile) as (Hlen & Hsz & v & Ev & Mv & Lv).
  assert (0 <= p <= PAGE_SIZE) as Hpr by (unfold p, write_pos; destruct (appends f); lia).
  unfold do_write. rewrite (bind_eq _ _ _ _ _ (fget_open fd a f s Hb Hs Ha Hf)).
  rewrite (bind_file_get a (used f)) by apply with_file_objs. fold (writable (used f)) (appends (used f)).
  change (writable (used f)) with (writable f). change (appends (used f)) with (appends f).
  rewrite Hm. change (negb true) with false. cbv iota. set (g := with_pos p f).
  assert (file_ok (vfs_fs s) g) as Hg by (apply file_ok_pos; [done|unfold PAGE_SIZE in *; lia]).
  assert (forall k : unit -> M (vfs D) Z, bind (if appends f then do_lseek fd 0 SEEK_END ;;; ret tt else ret tt) k (with_file a (used f) s)
    = k tt (with_file a (used g) s)) as ->.
  { intros k. unfold g, p, write_pos. destruct (appends f); [|by destruct f].
    assert (seek_target (with_file a (used f) s) (used f) 0 SEEK_END = len) as Ht.
    { unfold seek_target. simpl. rewrite Hn. unfold vnode_len. rewrite Ev, Lv. lia. }
    rewrite bind_bind. rewrite (bind_eq _ _ _ len (with_file a (with_pos len (used f)) s)); [done|].
    rewrite (do_lseek_eq _ fd a (used f)); [|by apply (open_fd_with s fd a f)|by apply used_ok|by right; right|rewrite Ht; unfold is_int, PAGE_SIZE in *; lia].
    rewrite Ht, with_file_twice. by rewrite (proj2 (Z.ltb_ge _ _)) by lia. }
  rewrite (bind_file_get a (used g)) by apply with_file_objs. change (f_vnode (used g)) with (f_vnode f). rewrite Hn, bind_deref.
  unfold vn_write. rewrite bind_bind, (bind_mode_of n v) by done. rewrite Mv. change (S_ISREG S_IFREG) with true. cbv iota.
  pose proof (ramfs_write_eq L (vfs_fs s) n l len p buf Hinv Hfile Hpr Hc) as Hw. cbv zeta in Hw. fold r in Hw.
  change (f_pos (used g)) with p. rewrite (bind_on_fs _ _ (with_file a (used g) s) _ _ Hw).
  set (r' := stored n p _ _ _). assert (vnode_inuse r' !! n = Some (with_len (Z.max len (p + r)) v)) as Ev'.
  { unfold r'. simpl. by rewrite lookup_alter_eq, Ev. }
  rewrite (bind_on_fs _ _ (set_fs r' (with_file a (used g) s)) _ r' (vn_get_eq _ _ r' Ev')). simpl vn_mode. rewrite Mv. rewrite bind_assert by (simpl; apply Z.leb_le; lia).
  rewrite set_fs_fs. change (set_fs r' (with_file a (used g) s)) with (with_file a (used g) (set_fs r' s)).
  assert (file_ok r' g) as Hg'.
  { destruct Hg as [G1 G2 G3 (m & Gm & Gr & Gk)]. split; [done|done|done|]. exists m. split_and!; [done| |].
    - unfold refs in *. unfold r'. simpl. destruct (decide (m = n)) as [->|]; [by rewrite lookup_alter_eq, Ev in *|by rewrite lookup_alter_ne].
    - intros Hmode. specialize (Gk Hmode). unfold kind in *. unfold r'. simpl.
      destruct (decide (m = n)) as [->|]; [|by rewrite lookup_alter_ne]. rewrite lookup_alter_eq.
      destruct (rfs_inodes (vfs_fs s) !! n) as [x|]; [|done]. simpl in *. by destruct (rf_mem x). }
  assert (seek_target (with_file a (used g) (set_fs r' s)) (used g) r SEEK_CUR = p + r) as Ht by done.
  assert (0 <= p + r < 2147483648) as Hbound by (unfold PAGE_SIZE in *; lia).
  rewrite (bind_eq _ _ _ (p + r) (with_file a (with_pos (p + r) (used g)) (set_fs r' s))).
  2: { rewrite (do_lseek_eq _ fd a (used g)); [|by apply (open_fd_with (set_fs r' s) fd a f)|by apply used_ok|right; by left|rewrite Ht; unfold is_int; lia].
       rewrite Ht, with_file_twice. by rewrite (proj2 (Z.ltb_ge _ _)) by lia. }
  set (h := with_pos (p + r) f). change (with_pos (p + r) (used g)) with (used h).
  rewrite (bind_eq _ _ _ _ _ (fput_bumped a h (set_fs r' s) ltac:(by apply (file_ok_pos r' g)))). done.
Qed.

(** ** Closing and duplicating descriptors *)

Lemma vput_ok r n :
  ramfs_ok r -> 0 < refs r n -> (n = fs_root -> 1 < refs r n) ->
  exists r', vput n r = Ret (tt, r') /\ ramfs_ok r' /\ (forall m, refs r' m = refs r m - one_if (m = n)) /\
    (forall m, 0 < refs r' m -> kind r' m = kind r m).
Proof.
  intros [L Hinv] Hr Hroot. destruct (refs_inuse r n Hr) as [v Ev].
  destruct (vput_spec None L r n v Hinv Ev Hroot) as (r' & E' & Hinv' & Hvi & Hrn & Ho). exists r'.
  assert (forall m, refs r' m = refs r m - one_if (m = n)) as Hrefs.
  { intros m. destruct (decide (m = n)) as [->|Hne]; [by rewrite one_if_true|].
    rewrite one_if_false by done. unfold refs. rewrite Ho by done. lia. }
  split_and!; [done|by exists L|done|]. intros m Hm. unfold vput_inodes in Hvi.
  destruct (decide _) as [(Hone & _)|_].
  - unfold kind. rewrite Hvi, lookup_delete_ne; [done|]. intros ->. rewrite Hrefs, one_if_true in Hm by done. lia.
  - by apply kind_same.
Qed.

Lemma file_ok_fs r r' f n :
  f_vnode f = Some n -> 0 < refs r' n -> kind r' n = kind r n -> file_ok r f -> file_ok r' f.
Proof.
  intros Hn Hr Hk [H1 H2 H3 (m & Hm & _ & Hd)]. split; try done. exists m. assert (m = n) as -> by congruence.
  by rewrite Hk.
Qed.

Lemma slot_set_eq {B} fd o (k : unit -> M (vfs D) B) s :
  bind (slot_set fd o) k s = k tt (set_files (<[Z.to_nat fd := o]> (p_files s)) s).
Proof. done. Qed.

(** The state after [fput] of the file object at [a]. *)
Lemma fput_vinv X E s a f :
  vinv (fun b => X b + one_if (b = a)) E s -> (forall b, 0 <= X b) -> file_objs s !! a = Some f ->
  exists s', fput (Some a) s = Ret (tt, s') /\ vinv X E s' /\ p_files s' = p_files s /\ p_cwd s' = p_cwd s /\
    (f_refcount f = 1 <-> file_objs s' !! a = None).
Proof.
  intros Hinv HX Ha. destruct (vi_files _ _ _ Hinv _ _ Ha) as [Hf Hc]. pose proof (fo_count _ _ Hf) as Hpos.
  destruct (fo_vnode _ _ Hf) as (n & Hn & Hr & Hk). destruct Hinv as [H1 H2 H3 H4 H5 H6 H7 H8].
  rewrite one_if_true in Hc by done. destruct (decide (f_refcount f = 1)) as [Hone|Hmore].
  - pose proof (users_pos _ _ _ _ Ha Hn) as Hu. pose proof (one_if_bounds (p_cwd s = n)).
    destruct (vput_ok (vfs_fs s) n H1 Hr) as (r' & Ep & Hok & Hrefs & Hkind).
    { intros ->. rewrite H5. lia. }
    exists (without_file a r' s). assert (nfds (p_files s) a = 0) as Hz by (specialize (HX a); unfold nfds in *; lia).
    split_and!; [apply (fput_last a f); [done|by apply (file_asserts_ok (vfs_fs s))|done|by rewrite Hn]| |done|done|].
    2: { simpl. rewrite lookup_delete_eq. done. }
    assert (forall m, refs r' m = users (delete a (file_objs s)) m + one_if (p_cwd s = m) + E m) as Hrefs'.
    { intros m. rewrite Hrefs, H5, (users_delete _ a f) by done. rewrite Hn. rewrite (one_if_ext (Some n = Some m) (m = n)) by naive_solver. lia. }
    split; simpl; try done.
    + intros i b Hb. destruct (decide (b = a)) as [->|Hne]; [apply nfds_pos in Hb; lia|]. rewrite lookup_delete_ne by done. by apply (H3 i).
    + intros b g [Hne Hg]%lookup_delete_Some. destruct (H4 _ _ Hg) as [Hgf Hgc]. destruct (fo_vnode _ _ Hgf) as (m & Hm & _).
      assert (0 < refs r' m) as Hm'.
      { rewrite Hrefs'. pose proof (users_pos (delete a (file_objs s)) b g m ltac:(by rewrite lookup_delete_ne) Hm).
        pose proof (one_if_bounds (p_cwd s = m)). destruct H7 as (_ & HE & _). specialize (HE m). lia. }
      split; [apply (file_ok_fs (vfs_fs s) r' g m); auto|]. rewrite Hgc, one_if_false by done. lia.
    + rewrite Hkind; [done|]. rewrite Hrefs', one_if_true by done. pose proof (users_nonneg (delete a (file_objs s)) (p_cwd s)).
      destruct H7 as (_ & HE & _). specialize (HE (p_cwd s)). lia.
    + split; [done|apply H7].
    + intros b [Hb|Hb]%lookup_delete_None; [subst b; specialize (HX a); lia|]. specialize (H8 b Hb).
      pose proof (one_if_bounds (b = a)). specialize (HX b). lia.
  - exists (with_file a (with_count (f_refcount f - 1) f) s).
    split_and!; [apply fput_down; [done|by apply (file_asserts_ok (vfs_fs s))|lia|by rewrite Hn]| |done|done|].
    2: { simpl. rewrite lookup_insert_eq. done. }
    split; simpl; try done.
    + intros i b Hb. apply lookup_insert_is_Some'. right. by apply (H3 i).
    + intros b g [[<- <-]|[Hne Hg]]%lookup_insert_Some.
      * split; [apply file_ok_count; [done|lia]|]. simpl. lia.
      * destruct (H4 _ _ Hg) as [Hgf Hgc]. split; [done|]. rewrite one_if_false in Hgc by done. lia.
    + intros m. by rewrite (users_update _ a f).
    + split; [done|apply H7].
    + intros b [Hb Hne]%lookup_insert_None. specialize (H8 b Hb). rewrite one_if_false in H8 by done. lia.
Qed.

Lemma vinv_ext X X' E s : (forall a, X a = X' a) -> vinv X E s -> vinv X' E s.
Proof.
  intros HX [H1 H2 H3 H4 H5 H6 H7 H8]. split; try done.
  - intros a f Ha. rewrite <- HX. by apply H4.
  - split; [intros a; rewrite <- HX; apply H7|apply H7].
  - intros a Ha. rewrite <- HX. by apply H8.
Qed.

(** The contents of a slot move between the table and the caller. *)
Lemma vinv_slot X E s i o o' :
  vinv X E s -> p_files s !! i = Some o -> (forall a, o' = Some a -> is_Some (file_objs s !! a)) ->
  (forall a, 0 <= X a + one_if (o = Some a) - one_if (o' = Some a)) ->
  vinv (fun a => X a + one_if (o = Some a) - one_if (o' = Some a)) E (set_files (<[i := o']> (p_files s)) s).
Proof.
  intros [H1 H2 H3 H4 H5 H6 H7 H8] Hi Ho Hx. split; simpl; try done.
  - by rewrite length_insert.
  - intros j a Hj. destruct (decide (j = i)) as [->|Hne].
    + rewrite list_lookup_insert_eq in Hj by (by apply lookup_lt_Some in Hi). injection Hj as ->. by apply Ho.
    + rewrite list_lookup_insert_ne in Hj by done. by apply (H3 j).
  - intros a f Ha. destruct (H4 _ _ Ha) as [Hf Hc]. split; [done|]. rewrite (nfds_insert _ _ o) by done. lia.
  - split; [done|apply H7].
  - intros a Ha. specialize (H8 a Ha). rewrite (one_if_false (o = Some a)), (one_if_false (o' = Some a)); [lia|..].
    + intros E'. destruct (Ho a E') as [f Hf]. congruence.
    + intros ->. destruct (H3 i a Hi) as [f Hf]. congruence.
Qed.

(** Taking one more reference on an open file. *)
Lemma vinv_used X E s a f :
  vinv X E s -> file_objs s !! a = Some f -> vinv (fun b => X b + one_if (b = a)) E (with_file a (used f) s).
Proof.
  intros [H1 H2 H3 H4 H5 H6 H7 H8] Ha. split; simpl; try done.
  - intros i b Hb. apply lookup_insert_is_Some'. right. by apply (H3 i).
  - intros b g [[<- <-]|[Hne Hg]]%lookup_insert_Some.
    + destruct (H4 _ _ Ha) as [Hf Hc]. split; [by apply used_ok|]. simpl. rewrite one_if_true by done. lia.
    + destruct (H4 _ _ Hg) as [Hf Hc]. split; [done|]. rewrite one_if_false by done. lia.
  - intros n. by rewrite (users_update _ a f).
  - split; [|apply H7]. intros b. pose proof (one_if_bounds (b = a)). destruct H7 as [HX _]. specialize (HX b). lia.
  - intros b [Hb Hne]%lookup_insert_None. rewrite one_if_false by done. rewrite H8 by done. lia.
Qed.

Lemma do_close_ok X E s fd a f :
  vinv X E s -> open_fd s fd a f ->
  exists s', do_close fd s = Ret (0, s') /\ vinv X E s' /\ p_files s' = <[Z.to_nat fd := None]> (p_files s) /\
    p_cwd s' = p_cwd s /\ (f_refcount f = 1 <-> file_objs s' !! a = None).
Proof.
  intros Hinv Hop. pose proof (open_fd_ok _ _ _ _ _ _ Hinv Hop) as Hf. pose proof Hop as (Hb & Hs & Ha).
  unfold do_close. rewrite Hb, (bind_eq _ _ _ _ _ (fget_open fd a f s Hb Hs Ha Hf)).
  rewrite (bind_eq _ _ _ _ _ (fput_bumped a f s Hf)), slot_set_eq. rewrite with_file_same by done.
  set (s1 := set_files _ s). destruct (vi_ext _ _ _ Hinv) as [HX _].
  assert (vinv (fun b => X b + one_if (b = a)) E s1) as Hinv1.
  { eapply vinv_ext; [|apply (vinv_slot X E s (Z.to_nat fd) (Some a) None Hinv Hs); [done|]].
    - intros b. simpl. rewrite (one_if_ext (Some a = Some b) (b = a)) by naive_solver. rewrite (one_if_false (None = Some b)) by done. lia.
    - intros b. rewrite (one_if_false (None = Some b)) by done. pose proof (one_if_bounds (Some a = Some b)). specialize (HX b). lia. }
  destruct (fput_vinv X E s1 a f Hinv1 HX Ha) as (s' & E' & Hinv' & Hfiles & Hcwd & Hone).
  exists s'. by rewrite (bind_eq _ _ _ _ _ E').
Qed.

Lemma first_empty_spec l k :
  match first_empty l k with
  | Some fd => k <= fd /\ l !! Z.to_nat (fd - k) = Some None /\ forall i, (i < Z.to_nat (fd - k))%nat -> exists a, l !! i = Some (Some a)
  | None => forall i o, l !! i = Some o -> o <> None
  end.
Proof.
  revert k. induction l as [|[a|] l IH]; intros k; simpl.
  - intros i o. by rewrite lookup_nil.
  - specialize (IH (k + 1)). destruct (first_empty l (k + 1)) as [fd|].
    + destruct IH as (H1 & H2 & H3). replace (Z.to_nat (fd - k)) with (S (Z.to_nat (fd - (k + 1)))) by lia.
      split_and!; [lia|done|]. intros [|i] Hi; [by exists a|]. apply H3. lia.
    + intros [|i] o; simpl; [by intros [= <-]|]. apply IH.
  - rewrite Z.sub_diag. split_and!; [lia|done|]. intros i Hi. simpl in Hi. lia.
Qed.

(** The lowest free descriptor, if any. *)
Definition lowest_free s fd : Prop :=
  bad_fd fd = false /\ p_files s !! Z.to_nat fd = Some None /\ forall i, (i < Z.to_nat fd)%nat -> exists a, p_files s !! i = Some (Some a).
Definition all_used s : Prop := forall i o, p_files s !! i = Some o -> o <> None.

Lemma get_empty_fd_eq s :
  length (p_files s) = 32%nat ->
  (exists fd, get_empty_fd s = Ret (fd, s) /\ lowest_free s fd) \/ (get_empty_fd s = Ret (- EMFILE, s) /\ all_used s).
Proof.
  intros Hlen. unfold get_empty_fd. rewrite bind_gets. pose proof (first_empty_spec (p_files s) 0) as H.
  destruct (first_empty (p_files s) 0) as [fd|]; [left|by right]. destruct H as (H1 & H2 & H3). rewrite Z.sub_0_r in *.
  exists fd. split; [done|]. apply lookup_lt_Some in H2 as Hlt. split_and!; [|done|done]. unfold bad_fd, NFILES.
  apply orb_false_iff. rewrite Z.ltb_ge, Z.leb_gt. lia.
Qed.

Lemma free_not_emfile fd : bad_fd fd = false -> (fd =? - EMFILE) = false.
Proof. intros [H%Z.ltb_ge _]%orb_false_iff. apply Z.eqb_neq. unfold EMFILE. lia. Qed.

(** A descriptor made to refer to the file object that the caller holds. *)
Lemma vinv_install X E s i a :
  vinv (fun b => X b + one_if (b = a)) E s -> (forall b, 0 <= X b) -> p_files s !! i = Some None -> is_Some (file_objs s !! a) ->
  vinv X E (set_files (<[i := Some a]> (p_files s)) s).
Proof.
  intros Hinv HX Hi Ha. eapply vinv_ext; [|apply (vinv_slot _ E s i None (Some a) Hinv Hi)].
  - intros b. simpl. rewrite (one_if_ext (Some a = Some b) (b = a)) by naive_solver. rewrite (one_if_false (None = Some b)) by done. lia.
  - by intros b [= <-].
  - intros b. simpl. rewrite (one_if_ext (Some a = Some b) (b = a)) by naive_solver. rewrite (one_if_false (None = Some b)) by done.
    specialize (HX b). lia.
Qed.

Lemma do_dup_ok X E s fd a f :
  vinv X E s -> open_fd s fd a f ->
  (exists nfd s', do_dup fd s = Ret (nfd, s') /\ lowest_free s nfd /\ vinv X E s' /\
     p_files s' = <[Z.to_nat nfd := Some a]> (p_files s) /\ file_objs s' !! a = Some (used f)) \/
  (do_dup fd s = Ret (- EMFILE, s) /\ all_used s).
Proof.
  intros Hinv Hop. pose proof (open_fd_ok _ _ _ _ _ _ Hinv Hop) as Hf. pose proof Hop as (Hb & Hs & Ha).
  unfold do_dup. rewrite Hb, (bind_eq _ _ _ _ _ (fget_open fd a f s Hb Hs Ha Hf)). set (s1 := with_file a (used f) s).
  destruct (get_empty_fd_eq s1) as [(nfd & Eg & Hfree)|[Eg Hall]]; [by apply (vi_len _ _ _ Hinv)|left|right].
  - pose proof Hfree as (Hnb & Hnone & _). exists nfd. rewrite (bind_eq _ _ _ _ _ Eg), free_not_emfile by done.
    rewrite slot_set_eq. eexists. split_and!; [done|done| |done|simpl; by rewrite lookup_insert_eq].
    apply vinv_install; [by apply vinv_used|apply (vi_ext _ _ _ Hinv)|done|]. simpl. rewrite lookup_insert_eq. eauto.
  - rewrite (bind_eq _ _ _ _ _ Eg), Z.eqb_refl. rewrite (bind_eq _ _ _ _ _ (fput_bumped a f s Hf)).
    by rewrite with_file_same.
Qed.

Lemma do_dup2_ok X E s ofd nfd a f :
  vinv X E s -> open_fd s ofd a f -> bad_fd nfd = false ->
  exists s', do_dup2 ofd nfd s = Ret (nfd, s') /\ vinv X E s' /\ p_files s' = <[Z.to_nat nfd := Some a]> (p_files s) /\ is_Some (file_objs s' !! a).
Proof.
  intros Hinv Hop Hn. pose proof (open_fd_ok _ _ _ _ _ _ Hinv Hop) as Hf. pose proof Hop as (Hb & Hs & Ha).
  unfold do_dup2. rewrite Hb, Hn, (bind_eq _ _ _ _ _ (fget_open ofd a f s Hb Hs Ha Hf)). destruct (vi_ext _ _ _ Hinv) as [HX HE].
  destruct (Z.eqb_spec ofd nfd) as [<-|Hne].
  - change (negb true) with false. cbv iota. rewrite (bind_eq _ _ _ _ _ (fput_bumped a f s Hf)), slot_set_eq, with_file_same by done.
    rewrite list_insert_id by done. assert (set_files (p_files s) s = s) as -> by (by destruct s). exists s. split_and!; eauto.
  - change (negb false) with true. cbv iota. set (s1 := with_file a (used f) s).
    pose proof (vinv_used X E s a f Hinv Ha) as Hinv1. fold s1 in Hinv1.
    assert (Z.to_nat ofd <> Z.to_nat nfd) as Hnat.
    { unfold bad_fd in *. apply orb_false_iff in Hb as [?%Z.ltb_ge _], Hn as [?%Z.ltb_ge _]. lia. }
    destruct (fd_cases _ _ _ nfd Hinv1) as [Hbad|[[_ Hnone]|(b & g & Hop2)]]; [congruence| |].
    + rewrite bind_bind, (bind_slot_get _ _ _ _ Hnone). change (is_set (@None Z)) with false. cbv iota. rewrite bind_ret, slot_set_eq.
      eexists. split_and!; [done| |done|simpl; rewrite lookup_insert_eq; eauto].
      apply vinv_install; [done|done|done|]. simpl. rewrite lookup_insert_eq. eauto.
    + pose proof Hop2 as (_ & Hs2 & _). rewrite bind_bind, (bind_slot_get _ _ _ _ Hs2). change (is_set (Some b)) with true. cbv iota.
      destruct (do_close_ok _ E s1 nfd b g Hinv1 Hop2) as (s2 & E2 & Hinv2 & Hfiles & _ & _).
      rewrite bind_bind, (bind_eq _ _ _ _ _ E2), bind_ret, slot_set_eq. rewrite Hfiles, list_insert_insert_eq.
      assert (is_Some (file_objs s2 !! a)) as Ha2.
      { apply (vi_slots _ _ _ Hinv2 (Z.to_nat ofd)). rewrite Hfiles, list_lookup_insert_ne by done. done. }
      eexists. split_and!; [done| |done|done]. replace (<[Z.to_nat nfd:=Some a]> (p_files s1)) with (<[Z.to_nat nfd:=Some a]> (p_files s2)).
      2: { by rewrite Hfiles, list_insert_insert_eq. }
      apply vinv_install; [done|done| |done]. rewrite Hfiles. apply list_lookup_insert_eq. by apply lookup_lt_Some in Hs2.
Qed.

(** ** Opening a file *)

Definition acc_mode (oflags : Z) : Z := Z.land oflags 3.
Definition status_of (oflags : Z) : Z := Z.land oflags 1792.

(** The state while the path is looked up: an empty file object in the slot. *)
Definition opening fd (f : file) s : vfs D :=
  MkVfs D (vfs_fs s) (<[new_addr (file_objs s) := f]> (file_objs s)) (pred (file_mem s))
    (<[Z.to_nat fd := Some (new_addr (file_objs s))]> (p_files s)) (p_cwd s) (devices s).

Abbreviation blank := (MkFile 0 0 1 None).

Lemma fget_new s k : file_mem s = S k ->
  fget (-1) s = Ret (Some (new_addr (file_objs s)),
    MkVfs D (vfs_fs s) (<[new_addr (file_objs s) := blank]> (file_objs s)) k (p_files s) (p_cwd s) (devices s)).
Proof.
  intros Hk. unfold fget. change (-1 =? -1) with true. cbv iota. unfold slab_file. rewrite bind_bind, bind_gets, Hk.
  rewrite bind_bind, bind_gets, bind_bind, bind_modify, bind_ret. set (a := new_addr (file_objs s)).
  set (s1 := set_fmem k _). assert (file_objs s1 !! a = Some (MkFile 0 0 0 None)) as Ea by (unfold s1; simpl; by rewrite lookup_insert_eq).
  rewrite (bind_eq _ _ _ _ _ (fref_eq a _ s1 Ea eq_refl ltac:(done) ltac:(by left))). unfold ret. do 2 f_equal.
  unfold with_file, s1, set_objs, set_fmem. simpl. by rewrite insert_insert_eq.
Qed.

Section opening.
Context (s : vfs D) (fd : Z) (k : nat) (p : str) (oflags : Z).
Hypothesis Hfree : lowest_free s fd.
Hypothesis Hget : get_empty_fd s = Ret (fd, s).
Hypothesis Hmem : file_mem s = S k.

Let a := new_addr (file_objs s).
Let lookup_result := open_namev (p_cwd s) p (status_of oflags) None (vfs_fs s).

Lemma slot_opening f r : p_files (set_fs r (opening fd f s)) !! Z.to_nat fd = Some (Some a).
Proof. simpl. apply list_lookup_insert_eq. destruct Hfree as (_ & Hs & _). by apply lookup_lt_Some in Hs. Qed.

Lemma obj_opening f r : file_objs (set_fs r (opening fd f s)) !! a = Some f.
Proof. simpl. apply lookup_insert_eq. Qed.

(** The new file object is given back and the slot cleared. *)
Lemma fput_opening r f : f_vnode f = None -> f_refcount f = 1 -> file_asserts f = true ->
  fput (Some a) (set_fs r (opening fd f s)) = Ret (tt, set_files (<[Z.to_nat fd := Some a]> (p_files s)) (set_fs r s)).
Proof.
  intros Hv Hc Hf. rewrite (fput_last a f _ r); [|apply obj_opening|done|done|by rewrite Hv].
  unfold without_file, set_files, set_fs, opening. simpl. do 2 f_equal. rewrite Hmem. simpl.
  by rewrite delete_insert_eq, delete_id by apply new_addr_fresh.
Qed.

Lemma slot_cleared r :
  set_files (<[Z.to_nat fd := None]> (p_files (set_files (<[Z.to_nat fd := Some a]> (p_files s)) (set_fs r s))))
    (set_files (<[Z.to_nat fd := Some a]> (p_files s)) (set_fs r s)) = set_fs r s.
Proof.
  destruct Hfree as (_ & Hs & _). unfold set_files, set_fs. simpl.
  by rewrite list_insert_insert_eq, list_insert_id.
Qed.

Lemma do_open_start (r : Z * option ino) fs' :
  lookup_result = Ret (r, fs') ->
  do_open p oflags s =
    (if fst r <? 0 then
       let! o := slot_get fd in
       fput o ;;; slot_set fd None ;;; ret (fst r)
     else
       let! res_vnode := deref (snd r) in
       if acc_mode oflags =? O_RDONLY then open_fill fd (Some a) res_vnode FMODE_READ (status_of oflags)
       else if (acc_mode oflags =? O_WRONLY) || (acc_mode oflags =? O_RDWR) then
         let mode := if acc_mode oflags =? O_WRONLY then FMODE_WRITE else Z.lor FMODE_READ FMODE_WRITE in
         let! b := deref (Some a) in
         file_set b (with_mode mode) ;;;
         let! m := mode_of_vnode res_vnode in
         if S_ISDIR m then open_undo fd res_vnode (- EISDIR)
         else open_fill fd (Some a) res_vnode mode (status_of oflags)
       else open_undo fd res_vnode (- EINVAL)) (set_fs fs' (opening fd blank s)).
Proof.
  intros Hr. unfold do_open. rewrite (bind_eq _ _ _ _ _ Hget). rewrite free_not_emfile by apply Hfree.
  rewrite (bind_eq _ _ _ _ _ (fget_new s k Hmem)). rewrite slot_set_eq. fold a.
  cbv zeta. rewrite bind_gets. rewrite (bind_on_fs _ _ _ r fs') by exact Hr.
  replace (set_fs fs' (set_files _ _)) with (set_fs fs' (opening fd blank s)); [done|].
  unfold set_fs, opening, set_files. simpl. by rewrite Hmem.
Qed.

Lemma do_open_error e : lookup_result = Ret ((e, None), vfs_fs s) -> e < 0 -> do_open p oflags s = Ret (e, s).
Proof.
  intros Hr He. rewrite (do_open_start _ _ Hr). cbn [fst]. rewrite (proj2 (Z.ltb_lt _ _) He).
  rewrite (bind_slot_get _ _ _ _ (slot_opening _ _)). rewrite (bind_eq _ _ _ _ _ (fput_opening (vfs_fs s) blank eq_refl eq_refl eq_refl)).
  rewrite slot_set_eq, slot_cleared. by rewrite set_fs_id.
Qed.

Lemma open_undo_eq n r r' f err :
  vput n r = Ret (tt, r') -> f_vnode f = None -> f_refcount f = 1 -> file_asserts f = true ->
  open_undo fd n err (set_fs r (opening fd f s)) = Ret (err, set_fs r' s).
Proof.
  intros Hp H1 H2 H3. unfold open_undo. rewrite (bind_slot_get _ _ _ _ (slot_opening _ _)).
  rewrite (bind_eq _ _ _ _ _ (fput_opening r f H1 H2 H3)). rewrite (bind_on_fs _ _ _ tt r') by exact Hp.
  rewrite slot_set_eq. change (set_fs r' (set_files ?l (set_fs r s))) with (set_files l (set_fs r' s)). by rewrite slot_cleared.
Qed.

Definition fill_mode (acc : Z) : Z := if acc =? O_RDONLY then FMODE_READ else if acc =? O_WRONLY then FMODE_WRITE else Z.lor FMODE_READ FMODE_WRITE.
Definition open_mode (oflags : Z) : Z :=
  if status_of oflags =? O_APPEND then Z.lor (fill_mode (acc_mode oflags)) FMODE_APPEND else fill_mode (acc_mode oflags).

Lemma open_fill_eq n r f m :
  open_fill fd (Some a) n m (status_of oflags) (set_fs r (opening fd f s)) =
  Ret (fd, set_fs r (opening fd (with_vnode n (with_mode (if status_of oflags =? O_APPEND then Z.lor m FMODE_APPEND else m) f)) s)).
Proof.
  unfold open_fill. rewrite bind_deref. rewrite (file_set_eq a f) by apply obj_opening.
  assert (forall g h, with_file a g (set_fs r (opening fd h s)) = set_fs r (opening fd g s)) as Hw.
  { intros g h. unfold with_file, set_objs, set_fs, opening. simpl. fold a. by rewrite insert_insert_eq. }
  rewrite Hw, (bind_slot_get _ _ _ _ (slot_opening _ _)), bind_deref. destruct (status_of oflags =? O_APPEND).
  - rewrite bind_bind, (bind_file_get _ _ _ _ (obj_opening _ _)), (file_set_eq a _ _ _ _ (obj_opening _ _)).
    rewrite Hw, (file_set_eq a _ _ _ _ (obj_opening _ _)), Hw. done.
  - rewrite bind_ret, (file_set_eq a _ _ _ _ (obj_opening _ _)), Hw. done.
Qed.

(** The result of [do_open] once the path has led to [n]. *)
Lemma do_open_found n r r' v :
  lookup_result = Ret ((0, Some n), r) -> vnode_inuse r !! n = Some v -> vput n r = Ret (tt, r') ->
  do_open p oflags s =
    if acc_mode oflags =? 3 then Ret (- EINVAL, set_fs r' s)
    else if negb (acc_mode oflags =? O_RDONLY) && S_ISDIR (vn_mode v) then Ret (- EISDIR, set_fs r' s)
    else Ret (fd, set_fs r (opening fd (MkFile 0 (open_mode oflags) 1 (Some n)) s)).
Proof.
  intros Hr Hv Hp. rewrite (do_open_start _ _ Hr). cbn [fst snd]. change (0 <? 0) with false. cbv iota. rewrite bind_deref.
  assert (0 <= acc_mode oflags < 4) as Hacc.
  { unfold acc_mode. change 3 with (Z.ones 2). rewrite Z.land_ones by lia. apply Z.mod_pos_bound. done. }
  assert (forall g h, with_file a g (set_fs r (opening fd h s)) = set_fs r (opening fd g s)) as Hw.
  { intros g h. unfold with_file, set_objs, set_fs, opening. simpl. fold a. by rewrite insert_insert_eq. }
  unfold open_mode, fill_mode.
  destruct (Z.eqb_spec (acc_mode oflags) O_RDONLY) as [H0|H0]; [rewrite H0; simpl; by rewrite open_fill_eq|].
  unfold O_RDONLY, O_WRONLY, O_RDWR in *. simpl negb.
  destruct (Z.eqb_spec (acc_mode oflags) 3) as [H3|H3].
  { rewrite H3. simpl. by apply open_undo_eq. }
  assert (((acc_mode oflags =? 1) || (acc_mode oflags =? 2)) = true) as ->.
  { apply orb_true_iff. rewrite !Z.eqb_eq. lia. }
  rewrite bind_deref. rewrite (file_set_eq a blank) by apply obj_opening. rewrite Hw.
  rewrite (bind_mode_of n v) by done. simpl andb. destruct (S_ISDIR (vn_mode v)).
  - apply open_undo_eq; try done. destruct (acc_mode oflags =? 1); done.
  - rewrite open_fill_eq. done.
Qed.
End opening.

Lemma vinv_inode X E s n : vinv X E s -> 0 < refs (vfs_fs s) n -> is_Some (rfs_inodes (vfs_fs s) !! n).
Proof.
  intros Hinv Hr. destruct (vi_fs _ _ _ Hinv) as [L HL]. destruct (refs_inuse _ _ Hr) as [v Ev].
  destruct (fi_vnodes _ _ _ HL _ _ Ev) as [_ _ _ (x & Ex & _)]. eauto.
Qed.

Lemma vinv_cwd_refs X E s : vinv X E s -> 0 < refs (vfs_fs s) (p_cwd s).
Proof.
  intros Hinv. rewrite (vi_refs _ _ _ Hinv), one_if_true by done. pose proof (users_nonneg (file_objs s) (p_cwd s)).
  destruct (vi_ext _ _ _ Hinv) as (_ & HE & _). specialize (HE (p_cwd s)). lia.
Qed.

Lemma vinv_root_refs X E s : vinv X E s -> 0 < refs (vfs_fs s) fs_root.
Proof.
  intros Hinv. rewrite (vi_refs _ _ _ Hinv). pose proof (users_nonneg (file_objs s) fs_root).
  pose proof (one_if_bounds (p_cwd s = fs_root)). destruct (vi_ext _ _ _ Hinv) as (_ & _ & HE). lia.
Qed.

Lemma vinv_start X E s p : vinv X E s -> is_Some (rfs_inodes (vfs_fs s) !! start_of (p_cwd s) None p).
Proof.
  intros Hinv. apply (vinv_inode X E); [done|]. unfold start_of. destruct (absolute p); [by apply (vinv_root_refs X E)|by apply (vinv_cwd_refs X E)].
Qed.

(** The file system changed, but no reference and no inode that is held. *)
Record fs_step (r r' : ramfs) (delta : ino -> Z) : Prop := {
  fst_ok : ramfs_ok r';
  fst_refs : forall m, refs r' m = refs r m + delta m;
  fst_kind : forall m, 0 < refs r m -> 0 < refs r' m -> kind r' m = kind r m
}.

Lemma vinv_fs X E s r' : vinv X E s -> fs_step (vfs_fs s) r' (fun _ => 0) -> vinv X E (set_fs r' s).
Proof.
  intros Hinv [Hok Hr Hk]. pose proof (vinv_cwd_refs X E s Hinv) as Hc. destruct Hinv as [H1 H2 H3 H4 H5 H6 H7 H8].
  assert (forall m, refs r' m = refs (vfs_fs s) m) as Hr' by (intros m; rewrite Hr; lia). split; simpl; try done.
  - intros a f Ha. destruct (H4 _ _ Ha) as [Hf Hn]. split; [|done]. destruct (fo_vnode _ _ Hf) as (n & Hv & Hp & _).
    apply (file_ok_fs (vfs_fs s) r' f n); [done|by rewrite Hr'|apply Hk; [done|by rewrite Hr']|done].
  - intros n. by rewrite Hr'.
  - rewrite Hk; [done|done|by rewrite Hr'].
Qed.

Lemma vinv_opened X E s fd k r n m :
  vinv X E s -> lowest_free s fd -> file_mem s = S k -> fs_step (vfs_fs s) r (fun m => one_if (m = n)) ->
  0 <= m < 8 -> (Z.land m FMODE_WRITE = FMODE_WRITE -> kind r n <> Some RAMFS_TYPE_DIR) ->
  vinv X E (set_fs r (opening fd (MkFile 0 m 1 (Some n)) s)).
Proof.
  intros Hinv (Hb & Hs & _) Hmem [Hok Hr Hk] Hm Hw. pose proof (vinv_cwd_refs X E s Hinv) as Hc. destruct Hinv as [H1 H2 H3 H4 H5 H6 H7 H8].
  pose proof (new_addr_fresh (file_objs s)) as Hnew. set (a := new_addr (file_objs s)) in *.
  assert (forall b, refs (vfs_fs s) b <= refs r b) as Hle by (intros b; rewrite Hr; pose proof (one_if_bounds (b = n)); lia).
  assert (0 <= refs (vfs_fs s) n) as Hnn.
  { rewrite H5. pose proof (users_nonneg (file_objs s) n). pose proof (one_if_bounds (p_cwd s = n)). destruct H7 as (_ & HE & _). specialize (HE n). lia. }
  split; simpl; fold a; try done.
  - by rewrite length_insert.
  - intros i b Hi. apply lookup_insert_is_Some'. destruct (decide (i = Z.to_nat fd)) as [->|Hne].
    + rewrite list_lookup_insert_eq in Hi by (by apply lookup_lt_Some in Hs). injection Hi as <-. by left.
    + rewrite list_lookup_insert_ne in Hi by done. right. by apply (H3 i).
  - intros b f [[<- <-]|[Hne Hf]]%lookup_insert_Some.
    + split.
      * split; simpl; [lia|lia|lia|]. exists n. split_and!; [done| |done]. rewrite Hr, one_if_true by done. lia.
      * simpl. rewrite (nfds_insert _ _ None) by done. rewrite (one_if_false (None = Some a)), (one_if_true (Some a = Some a)) by done.
        rewrite H8, nfds_zero; [lia| |done]. intros i Hi. destruct (H3 i a Hi). congruence.
    + destruct (H4 _ _ Hf) as [Hfo Hfc]. destruct (fo_vnode _ _ Hfo) as (q & Hq & Hqr & _). split.
      * apply (file_ok_fs (vfs_fs s) r f q); [done| |apply Hk; [done|]|done]; specialize (Hle q); lia.
      * rewrite (nfds_insert _ _ None) by done. rewrite (one_if_false (None = Some b)), (one_if_false (Some a = Some b)) by naive_solver. lia.
  - intros q. rewrite users_insert by done. rewrite Hr, H5. simpl. rewrite (one_if_ext (Some n = Some q) (q = n)) by naive_solver. lia.
  - rewrite Hk; [done|done|]. specialize (Hle (p_cwd s)). lia.
  - intros b [Hb0 _]%lookup_insert_None. by apply H8.
Qed.

Lemma do_open_lost s fd k p oflags f :
  get_empty_fd s = Ret (fd, s) -> bad_fd fd = false -> file_mem s = S k ->
  open_namev (p_cwd s) p (status_of oflags) None (vfs_fs s) = Stop f -> do_open p oflags s = Stop f.
Proof.
  intros Hget Hb Hmem Hl. unfold do_open. rewrite (bind_eq _ _ _ _ _ Hget), free_not_emfile by done.
  rewrite (bind_eq _ _ _ _ _ (fget_new s k Hmem)), slot_set_eq. cbv zeta. rewrite bind_gets. by apply stop_on_fs.
Qed.

Lemma step_vgot L r n : finv None L r -> is_Some (rfs_inodes r !! n) -> fs_step r (vgot n r) (fun m => one_if (m = n)).
Proof.
  intros Hinv Hn. destruct (vgot_ok L r n Hinv Hn) as [H1 H2 _ _ _]. split; [by exists L|intros m; by apply (refs_vgot L)|].
  intros m _ _. by apply kind_same.
Qed.

Lemma refs_absent L r n : finv None L r -> rfs_inodes r !! n = None -> refs r n = 0.
Proof.
  intros Hinv Hn. unfold refs. destruct (vnode_inuse r !! n) as [v|] eqn:Ev; [|done].
  destruct (fi_vnodes _ _ _ Hinv _ _ Ev) as [_ _ _ (x & Ex & _)]. congruence.
Qed.

Lemma refs_inode L r n : finv None L r -> 0 < refs r n -> is_Some (rfs_inodes r !! n).
Proof. intros Hinv Hr. destruct (rfs_inodes r !! n) eqn:E; [eauto|]. rewrite (refs_absent L) in Hr by done. lia. Qed.

Lemma step_created L r r' d nm n : finv None L r -> created r r' d nm n -> fs_step r r' (fun m => one_if (m = n)).
Proof.
  intros Hinv [H1 H2 H3 H4 H5 H6 H7]. pose proof (refs_absent L r n Hinv H2) as Hz. split; [done|..].
  - intros m. destruct (decide (m = n)) as [->|Hne]; [rewrite one_if_true by done; lia|].
    rewrite H6, one_if_false by done. lia.
  - intros m Hm _. apply H7; [intros ->; lia|by apply (refs_inode L)].
Qed.

Lemma vnode_dir r n v : ramfs_ok r -> vnode_inuse r !! n = Some v -> S_ISDIR (vn_mode v) = bool_decide (kind r n = Some RAMFS_TYPE_DIR).
Proof.
  intros [L HL] Ev. destruct (fi_vnodes _ _ _ HL _ _ Ev) as [_ _ _ (x & Ex & Hm & _)]. rewrite Hm, isdir_mode. unfold kind. rewrite Ex.
  apply bool_decide_ext. simpl. split; [by intros ->|by intros [= ->]].
Qed.

Lemma open_mode_bound oflags : 0 <= open_mode oflags < 8.
Proof.
  unfold open_mode, fill_mode. destruct (status_of oflags =? O_APPEND), (acc_mode oflags =? O_RDONLY), (acc_mode oflags =? O_WRONLY); done.
Qed.

Lemma open_mode_write oflags : Z.land (open_mode oflags) FMODE_WRITE = FMODE_WRITE -> (acc_mode oflags =? O_RDONLY) = false.
Proof. unfold open_mode, fill_mode. destruct (acc_mode oflags =? O_RDONLY); [|done]. by destruct (status_of oflags =? O_APPEND). Qed.

(** A descriptor for [n] was opened. *)
Definition opened_as s' fd (oflags : Z) (n : ino) : Prop :=
  exists a, open_fd s' fd a (MkFile 0 (open_mode oflags) 1 (Some n)).

Lemma opened_as_eq s fd oflags n r :
  lowest_free s fd -> opened_as (set_fs r (opening fd (MkFile 0 (open_mode oflags) 1 (Some n)) s)) fd oflags n.
Proof.
  intros Hfree. exists (new_addr (file_objs s)). split_and!; [apply Hfree|by apply slot_opening|apply obj_opening].
Qed.

(** [do_open] when the path has led to [n], which took one reference. *)
Lemma do_open_at X E s fd k p oflags n r :
  vinv X E s -> lowest_free s fd -> get_empty_fd s = Ret (fd, s) -> file_mem s = S k ->
  open_namev (p_cwd s) p (status_of oflags) None (vfs_fs s) = Ret ((0, Some n), r) ->
  fs_step (vfs_fs s) r (fun m => one_if (m = n)) ->
  exists r', vput n r = Ret (tt, r') /\ fs_step (vfs_fs s) r' (fun _ => 0) /\
  if (acc_mode oflags =? 3) then do_open p oflags s = Ret (- EINVAL, set_fs r' s)
  else if negb (acc_mode oflags =? O_RDONLY) && bool_decide (kind r n = Some RAMFS_TYPE_DIR) then do_open p oflags s = Ret (- EISDIR, set_fs r' s)
  else exists s', do_open p oflags s = Ret (fd, s') /\ vinv X E s' /\ vfs_fs s' = r /\ opened_as s' fd oflags n.
Proof.
  intros Hinv Hfree Hget Hmem Hl Hstep. pose proof Hstep as [Hok Hr Hk].
  assert (forall m, 0 <= refs (vfs_fs s) m) as Hnn.
  { intros m. rewrite (vi_refs _ _ _ Hinv). pose proof (users_nonneg (file_objs s) m). pose proof (one_if_bounds (p_cwd s = m)).
    destruct (vi_ext _ _ _ Hinv) as (_ & HE & _). specialize (HE m). lia. }
  assert (0 < refs r n) as Hrn by (rewrite Hr, one_if_true by done; specialize (Hnn n); lia).
  destruct (vput_ok r n Hok Hrn) as (r' & Hp & Hok' & Hr' & Hk').
  { intros ->. pose proof (vinv_root_refs X E s Hinv). rewrite Hr, one_if_true by done. lia. }
  exists r'. split_and!; [done| |].
  { split; [done|intros m; rewrite Hr', Hr; lia|]. intros m Hm Hm'. rewrite Hk' by done. apply Hk; [done|].
    rewrite Hr. pose proof (one_if_bounds (m = n)). lia. }
  destruct (refs_inuse r n Hrn) as [v Ev]. rewrite (do_open_found s fd k p oflags Hfree Hget Hmem n r r' v Hl Ev Hp).
  rewrite <- (vnode_dir r n v) by done.
  destruct (acc_mode oflags =? 3); [done|]. destruct (negb (acc_mode oflags =? O_RDONLY) && S_ISDIR (vn_mode v)) eqn:Ed; [done|].
  eexists. split_and!; [done| |done|by apply opened_as_eq].
  apply (vinv_opened X E s fd k); [done|done|done|done|apply open_mode_bound|]. intros Hw. apply open_mode_write in Hw. rewrite Hw in Ed.
  simpl in Ed. rewrite (vnode_dir r n v) in Ed by done. by apply bool_decide_eq_false in Ed.
Qed.
End vfs.
