(* ===== verification/VfsCalls.v ===== *)
(** * What the file system calls guarantee (fs/open.c, fs/vfs_syscall.c)

    The calls of [Vfs] on every branch.  A call that fails returns the state it
    was given; one that succeeds keeps every reference accounted for, with the
    same references held elsewhere, so nothing leaks and nothing is released
    twice.  The last section has the calls for which this is not so. *)

From S2P Require Import Prelude Ramfs Namev Vfs.

Section calls.
Context {D : Type} `{!Bytedevs D}.
Implicit Types (s : vfs D).

Lemma bind_at_path {B} p (k : namev -> M (vfs D) B) s x r :
  dir_namev (p_cwd s) p None (vfs_fs s) = Ret (x, r) -> bind (at_path p) k s = k x (set_fs r s).
Proof. intros E. unfold at_path. rewrite bind_bind, bind_gets. by apply bind_on_fs. Qed.

Lemma stop_at_path {B} p (k : namev -> M (vfs D) B) s f :
  dir_namev (p_cwd s) p None (vfs_fs s) = Stop f -> bind (at_path p) k s = Stop f.
Proof. intros E. unfold at_path. rewrite bind_bind, bind_gets. by apply stop_on_fs. Qed.

Lemma bind_open_path {B} p flag (k : Z * option ino -> M (vfs D) B) s x r :
  open_namev (p_cwd s) p flag None (vfs_fs s) = Ret (x, r) -> bind (open_path p flag) k s = k x (set_fs r s).
Proof. intros E. unfold open_path. rewrite bind_bind, bind_gets. by apply bind_on_fs. Qed.

Lemma stop_open_path {B} p flag (k : Z * option ino -> M (vfs D) B) s f :
  open_namev (p_cwd s) p flag None (vfs_fs s) = Stop f -> bind (open_path p flag) k s = Stop f.
Proof. intros E. unfold open_path. rewrite bind_bind, bind_gets. by apply stop_on_fs. Qed.

(** One operation of the file system after another. *)
Lemma bind_set_fs {A B} (m : M ramfs A) (k : A -> M (vfs D) B) s q x r :
  m q = Ret (x, r) -> bind (on_fs m) k (set_fs q s) = k x (set_fs r s).
Proof. intros E. by rewrite (bind_on_fs _ _ _ x r). Qed.

Lemma stop_set_fs {A B} (m : M ramfs A) (k : A -> M (vfs D) B) s q f : m q = Stop f -> bind (on_fs m) k (set_fs q s) = Stop f.
Proof. intros E. by apply stop_on_fs. Qed.

(** The mode of a vnode the caller holds. *)
Lemma mode_known q n :
  ramfs_ok q -> 0 < refs q n ->
  exists m, S_ISDIR m = bool_decide (kind q n = Some RAMFS_TYPE_DIR) /\
    forall B (k : Z -> M (vfs D) B) s, bind (mode_of_vnode n) k (set_fs q s) = k m (set_fs q s).
Proof.
  intros Hok Hr. destruct (refs_inuse q n Hr) as [v Ev]. exists (vn_mode v). split; [by apply vnode_dir|]. intros B k s. by apply bind_mode_of.
Qed.

Lemma step_removed r r' d nm n : ramfs_ok r -> ramfs_ok r' -> name_removed r r' d nm n -> kinds_kept r r' -> fs_step r r' (fun _ => 0).
Proof.
  intros _ [L' Hinv'] (_ & Hr & _ & _) Hk. split; [by exists L'|intros m; rewrite Hr; lia|]. intros m _ Hm. apply Hk. by apply (refs_inode L').
Qed.

Lemma find_not_dir (r : ramfs) d nm : is_Some (rfs_inodes r !! d) -> kind r d <> Some RAMFS_TYPE_DIR -> find r d nm = Err ENOTDIR.
Proof.
  intros [x Ex] Hk. unfold find, kind in *. rewrite Ex in *. simpl in Hk. rewrite decide_False by congruence. done.
Qed.

Lemma find_entry (r : ramfs) d nm n : find r d nm = At n -> nm <> [] -> dlookup r d nm = Some n /\ kind r d = Some RAMFS_TYPE_DIR.
Proof.
  unfold find, kind. destruct (rfs_inodes r !! d) as [x|]; [|done]. destruct (decide _) as [Hm|]; [|done].
  destruct (_ <? _); [done|]. destruct (Z.eqb_spec (strlen nm) 0) as [Hz|_]; [by destruct nm|].
  intros Hf _. split; [|simpl; by rewrite Hm]. destruct (dlookup r d nm) as [k|]; [|done]. destruct (rfs_inodes r !! k); congruence.
Qed.

Lemma find_self (r : ramfs) d n : find r d [] = At n -> n = d /\ kind r d = Some RAMFS_TYPE_DIR.
Proof.
  unfold find, kind. destruct (rfs_inodes r !! d) as [x|]; [|done]. destruct (decide _) as [Hm|]; [|done].
  change (NAME_LEN <? strlen []) with false. change (strlen [] =? 0) with true. cbv iota. intros [= ->]. simpl. by rewrite Hm.
Qed.

(** ** Unlinking *)

Lemma do_unlink_eq X E s p :
  vinv X E s -> p <> [] -> strlen p <= MAXPATHLEN -> plain (base_name p) ->
  match resolve_path (vfs_fs s) (p_cwd s) None p with
  | Err e => do_unlink p s = Ret (- e, s)
  | Lost => exists f, do_unlink p s = Stop f
  | At n =>
      if bool_decide (kind (vfs_fs s) n = Some RAMFS_TYPE_DIR) then do_unlink p s = Ret (- EISDIR, s)
      else exists d r', resolve_dir (vfs_fs s) (p_cwd s) None p = At d /\ do_unlink p s = Ret (0, set_fs r' s) /\
        vinv X E (set_fs r' s) /\ name_removed (vfs_fs s) r' d (base_name p) n
  end.
Proof.
  intros Hinv Hne Hlen Hpl. pose proof (vinv_start X E s p Hinv) as Hst. destruct (vi_fs _ _ _ Hinv) as [L HL].
  pose proof (dir_namev_eq L (vfs_fs s) (p_cwd s) None p HL Hst Hne Hlen) as Hw. unfold resolve_path, do_unlink.
  destruct (resolve_dir (vfs_fs s) (p_cwd s) None p) as [d|e|]; simpl in Hw.
  2: { destruct Hw as [[res Hw] He]. rewrite (bind_at_path _ _ _ _ _ Hw). cbn [nv_errno]. rewrite (proj2 (Z.ltb_lt _ _)) by lia.
       by rewrite set_fs_id. }
  2: { destruct Hw as [f Hw]. exists f. by apply stop_at_path. }
  destruct Hw as [Hw Hd]. rewrite (bind_at_path _ _ _ _ _ Hw). cbn [nv_errno]. change (0 <? 0) with false. cbv iota.
  cbn [nv_vnode nv_name]. rewrite !bind_deref. set (r := vfs_fs s) in *. set (nm := base_name p) in *.
  destruct (vgot_ok L r d HL Hd) as [Hinv1 Hs1 Hu1 Hr1 Ho1]. pose proof (refs_nonneg L r d HL) as Hnn.
  assert (ramfs_ok (vgot d r)) as Hok1 by (by exists L).
  destruct (mode_known _ d Hok1 ltac:(lia)) as (m & Em & ->). rewrite Em, (kind_same r (vgot d r)) by done.
  destruct (bool_decide (kind r d = Some RAMFS_TYPE_DIR)) eqn:Ekd; cbn [negb]; cbv iota.
  2: { apply bool_decide_eq_false in Ekd. rewrite (find_not_dir r d nm Hd Ekd).
       rewrite (bind_set_fs _ _ _ _ _ _ (vput_vgot L r d HL Hd)). unfold r. by rewrite set_fs_id. }
  pose proof (lookup_eq L (vgot d r) d nm Hinv1 Hu1) as Hl. rewrite (find_same L r (vgot d r)) in Hl by done.
  destruct (find r d nm) as [n|e|] eqn:Ef.
  2: { destruct Hl as [Hl He]. rewrite (bind_set_fs _ _ _ _ _ _ Hl). cbn [fst]. rewrite (proj2 (Z.ltb_lt _ _)) by lia.
       rewrite (bind_set_fs _ _ _ _ _ _ (vput_vgot L r d HL Hd)). unfold r. by rewrite set_fs_id. }
  2: { destruct Hl as [f Hl]. exists f. by apply stop_set_fs. }
  destruct Hl as [Hl Hn]. apply (vgot_some L r d) in Hn; [|done|done].
  rewrite (bind_set_fs _ _ _ _ _ _ Hl). cbn [fst snd]. change (0 <? 0) with false. cbv iota. rewrite bind_deref.
  assert (is_Some (rfs_inodes (vgot d r) !! n)) as Hn1 by (by apply (vgot_some L)).
  destruct (vgot_ok L (vgot d r) n Hinv1 Hn1) as [Hinv2 Hs2 _ Hr2 Ho2].
  pose proof (refs_nonneg L (vgot d r) n Hinv1) as Hnn1. assert (ramfs_ok (vgot n (vgot d r))) as Hok2 by (by exists L).
  destruct (mode_known _ n Hok2 ltac:(lia)) as (m2 & Em2 & ->).
  rewrite Em2, (kind_same (vgot d r) (vgot n (vgot d r))), (kind_same r (vgot d r)) by done.
  destruct (bool_decide (kind r n = Some RAMFS_TYPE_DIR)) eqn:Ekn.
  - rewrite (bind_set_fs _ _ _ _ _ _ (vput_first L r d n HL Hd Hn)), (bind_set_fs _ _ _ _ _ _ (vput_vgot L r n HL Hn)).
    unfold r. by rewrite set_fs_id.
  - apply bool_decide_eq_false in Ekn.
    assert (nm <> []) as Hnm.
    { intros Hz. rewrite Hz in Ef. apply find_self in Ef as [-> Hkd]. congruence. }
    destruct (find_entry r d nm n Ef Hnm) as [Hdl _]. assert (good_name nm) as Hg by (by destruct Hpl).
    destruct (unlink_chain L r d nm n HL Hdl Hg Ekn Hn) as (r1 & r2 & r3 & E1 & E2 & E3 & Hok3 & Hrem & Hkk).
    exists d, r3. rewrite (bind_set_fs _ _ _ _ _ _ E1), (bind_set_fs _ _ _ _ _ _ E2), (bind_set_fs _ _ _ _ _ _ E3).
    split_and!; [done|done| |done]. apply vinv_fs; [done|]. apply (step_removed r r3 d nm n); [by exists L|done|done|done].
Qed.

(** ** Removing directories *)

Lemma do_rmdir_eq X E s p :
  vinv X E s -> p <> [] -> strlen p <= MAXPATHLEN ->
  match resolve_dir (vfs_fs s) (p_cwd s) None p with
  | Err e => do_rmdir p s = Ret (- e, s)
  | Lost => exists f, do_rmdir p s = Stop f
  | At d =>
      if decide (base_name p = DOT) then do_rmdir p s = Ret (- EINVAL, s)
      else if decide (base_name p = DOTDOT) then do_rmdir p s = Ret (- ENOTEMPTY, s)
      else if decide (kind (vfs_fs s) d = Some RAMFS_TYPE_DIR) then
        base_name p <> [] ->
        match dlookup (vfs_fs s) d (base_name p) with
        | None => do_rmdir p s = Ret (- ENOENT, s)
        | Some n =>
            match rf_mem <$> rfs_inodes (vfs_fs s) !! n with
            | Some (REntries k) =>
                if empty_dir k then
                  exists r', do_rmdir p s = Ret (0, set_fs r' s) /\ vinv X E (set_fs r' s) /\ name_removed (vfs_fs s) r' d (base_name p) n
                else do_rmdir p s = Ret (- ENOTEMPTY, s)
            | Some _ => do_rmdir p s = Ret (- ENOTDIR, s)
            | None => False
            end
        end
      else do_rmdir p s = Ret (- ENOTDIR, s)
  end.
Proof.
  intros Hinv Hne Hlen. pose proof (vinv_start X E s p Hinv) as Hst. destruct (vi_fs _ _ _ Hinv) as [L HL].
  pose proof (dir_namev_eq L (vfs_fs s) (p_cwd s) None p HL Hst Hne Hlen) as Hw. unfold do_rmdir.
  destruct (resolve_dir (vfs_fs s) (p_cwd s) None p) as [d|e|]; simpl in Hw.
  2: { destruct Hw as [[res Hw] He]. rewrite (bind_at_path _ _ _ _ _ Hw). cbn [nv_errno]. rewrite (proj2 (Z.ltb_lt _ _)) by lia.
       by rewrite set_fs_id. }
  2: { destruct Hw as [f Hw]. exists f. by apply stop_at_path. }
  destruct Hw as [Hw Hd]. rewrite (bind_at_path _ _ _ _ _ Hw). cbn [nv_errno]. change (0 <? 0) with false. cbv iota.
  cbn [nv_vnode nv_name]. rewrite !bind_deref. set (r := vfs_fs s) in *. set (nm := base_name p) in *.
  pose proof (vput_vgot L r d HL Hd) as Hput. destruct (vgot_ok L r d HL Hd) as [Hinv1 Hs1 Hu1 Hr1 Ho1].
  pose proof (refs_nonneg L r d HL) as Hnn. assert (ramfs_ok (vgot d r)) as Hok1 by (by exists L).
  assert (forall z : Z, (on_fs (vput d) ;;; ret z) (set_fs (vgot d r) s) = Ret (z, s)) as Hback.
  { intros z. rewrite (bind_set_fs _ _ _ _ _ _ Hput). unfold r. by rewrite set_fs_id. }
  destruct (decide (nm = DOT)) as [Hdot|Hdot]; [by rewrite bool_decide_eq_true_2, Hback|].
  rewrite bool_decide_eq_false_2 by done.
  destruct (decide (nm = DOTDOT)) as [Hdd|Hdd]; [by rewrite bool_decide_eq_true_2, Hback|].
  rewrite bool_decide_eq_false_2 by done.
  destruct (mode_known _ d Hok1 ltac:(lia)) as (m & Em & ->). rewrite Em, (kind_same r (vgot d r)) by done.
  destruct (decide (kind r d = Some RAMFS_TYPE_DIR)) as [Hk|Hk].
  2: { rewrite bool_decide_eq_false_2 by done. cbn [negb]. cbv iota. by rewrite Hback. }
  rewrite bool_decide_eq_true_2 by done. cbn [negb]. cbv iota. intros Hnm. assert (good_name nm) as Hg by done.
  destruct (dlookup r d nm) as [n|] eqn:El.
  - pose proof (rmdir_chain L r d nm n HL El Hg) as Hc. destruct (rf_mem <$> rfs_inodes r !! n) as [[b|k|dv]|]; [..|done].
    + by rewrite (bind_set_fs _ _ _ _ _ _ Hc), Hback.
    + destruct (empty_dir k); [|by rewrite (bind_set_fs _ _ _ _ _ _ Hc), Hback].
      destruct Hc as (r1 & r2 & E1 & E2 & Hok2 & Hrem & Hkk). exists r2.
      rewrite (bind_set_fs _ _ _ _ _ _ E1), (bind_set_fs _ _ _ _ _ _ E2). split_and!; [done| |done].
      apply vinv_fs; [done|]. apply (step_removed r r2 d nm n); [by exists L|done|done|done].
    + by rewrite (bind_set_fs _ _ _ _ _ _ Hc), Hback.
  - destruct (kind_entries L r d HL Hk) as (x & l & Ex & El2). pose proof (vgot_is_dir L r d l HL Hk ltac:(eauto)) as Hdir.
    pose proof (ramfs_rmdir_spec L (vgot d r) d l nm Hinv1 Hdir Hg) as Hc.
    rewrite (dlookup_same None L None L r (vgot d r)), El in Hc by done. by rewrite (bind_set_fs _ _ _ _ _ _ Hc), Hback.
Qed.

(** ** The working directory *)

Lemma vref_vgot r n v : vnode_inuse r !! n = Some v -> 0 < vn_refcount v -> vref n r = Ret (tt, vgot n r).
Proof.
  intros Ev Hr. unfold vref. rewrite (bind_eq _ _ _ _ _ (vn_get_eq _ _ _ Ev)), bind_assert by (by apply Z.ltb_lt).
  unfold vn_set, modify, vgot. rewrite Ev. do 2 f_equal. apply ramfs_ext; try done. simpl. by rewrite (alter_inserted _ _ v).
Qed.

Lemma do_chdir_eq X E s p :
  vinv X E s -> p <> [] -> strlen p <= MAXPATHLEN ->
  match resolve_path (vfs_fs s) (p_cwd s) None p with
  | Err e => do_chdir p s = Ret (- e, s)
  | Lost => exists f, do_chdir p s = Stop f
  | At n =>
      if decide (kind (vfs_fs s) n = Some RAMFS_TYPE_DIR)
      then exists r', do_chdir p s = Ret (0, set_cwd n (set_fs r' s)) /\ vinv X E (set_cwd n (set_fs r' s))
      else do_chdir p s = Ret (- ENOTDIR, s)
  end.
Proof.
  intros Hinv Hne Hlen. pose proof (vinv_start X E s p Hinv) as Hst. destruct (vi_fs _ _ _ Hinv) as [L HL].
  assert (start_of (p_cwd s) (Some (p_cwd s)) p = start_of (p_cwd s) None p) as Hso by (unfold start_of; by destruct (absolute p)).
  assert (opened (vfs_fs s) (p_cwd s) None p O_RDONLY (open_namev (p_cwd s) p O_RDONLY (Some (p_cwd s)) (vfs_fs s))) as Ho.
  { pose proof (open_namev_eq L (vfs_fs s) (p_cwd s) (Some (p_cwd s)) p O_RDONLY HL) as Ho. rewrite Hso in Ho. specialize (Ho Hst Hne Hlen).
    unfold opened, resolve_dir in *. rewrite Hso in Ho. done. }
  unfold do_chdir. rewrite (proj2 (Z.ltb_ge _ _)) by lia. rewrite bind_gets. unfold opened in Ho. unfold resolve_path.
  destruct (resolve_dir (vfs_fs s) (p_cwd s) None p) as [d|e|].
  2: { destruct Ho as [Ho He]. rewrite (bind_on_fs _ _ _ _ _ Ho). cbn [fst]. rewrite (proj2 (Z.ltb_lt _ _)) by lia. by rewrite set_fs_id. }
  2: { destruct Ho as [f Ho]. exists f. by apply stop_on_fs. }
  destruct (find (vfs_fs s) d (base_name p)) as [n|e|].
  2: { rewrite decide_False in Ho by (intros [_ Hx]; done). destruct Ho as [Ho He]. rewrite (bind_on_fs _ _ _ _ _ Ho). cbn [fst].
       rewrite (proj2 (Z.ltb_lt _ _)) by lia. by rewrite set_fs_id. }
  2: { destruct Ho as [f Ho]. exists f. by apply stop_on_fs. }
  destruct Ho as [Ho Hn]. rewrite (bind_on_fs _ _ _ _ _ Ho). cbn [fst snd]. change (0 <? 0) with false. cbv iota. rewrite bind_deref.
  set (r := vfs_fs s) in *. destruct (vgot_ok L r n HL Hn) as [Hinv1 Hs1 Hu1 Hr1 Ho1]. pose proof (refs_nonneg L r n HL) as Hnn.
  destruct (mode_known (vgot n r) n ltac:(by exists L) ltac:(lia)) as (m & Em & ->). rewrite Em, (kind_same r (vgot n r)) by done.
  destruct (decide (kind r n = Some RAMFS_TYPE_DIR)) as [Hk|Hk].
  2: { rewrite bool_decide_eq_false_2 by done. cbn [negb]. rewrite (bind_set_fs _ _ _ _ _ _ (vput_vgot L r n HL Hn)).
       unfold r. by rewrite set_fs_id. }
  rewrite bool_decide_eq_true_2 by done. cbn [negb]. cbv iota. pose proof (vinv_cwd_refs X E s Hinv) as Hc. fold r in Hc.
  assert (forall q, refs (vgot n r) q = refs r q + one_if (q = n)) as Hrq by (intros q; by apply (refs_vgot L)).
  destruct (vput_ok (vgot n r) (p_cwd s)) as (r1 & E1 & Hok1 & Hr1' & Hk1); [by exists L|rewrite Hrq; pose proof (one_if_bounds (p_cwd s = n)); lia|..].
  { intros Hroot. rewrite Hrq. pose proof (one_if_bounds (p_cwd s = n)). pose proof (vi_refs _ _ _ Hinv (p_cwd s)) as Hv. fold r in Hv.
    rewrite one_if_true in Hv by done. pose proof (users_nonneg (file_objs s) (p_cwd s)). destruct (vi_ext _ _ _ Hinv) as (_ & _ & HE).
    rewrite <- Hroot in HE. lia. }
  assert (0 < refs r1 n) as Hn1.
  { rewrite Hr1', Hrq, (one_if_true (n = n)) by done. destruct (decide (n = p_cwd s)) as [->|Hnc]; [rewrite one_if_true by done; lia|].
    rewrite one_if_false by done. lia. }
  pose proof Hok1 as [L1 HL1]. exists r1. rewrite (bind_set_fs _ _ _ _ _ _ E1), bind_modify.
  change (set_cwd n (set_fs r1 s)) with (set_fs r1 (set_cwd n s)).
  destruct (refs_inuse r1 n Hn1) as [v Ev]. assert (0 < vn_refcount v) as Hvc by (unfold refs in Hn1; by rewrite Ev in Hn1).
  rewrite (bind_set_fs _ _ _ _ _ _ (vref_vgot r1 n v Ev Hvc)).
  rewrite (bind_set_fs _ _ _ _ _ _ (vput_vgot L1 r1 n HL1 (refs_inode L1 r1 n HL1 Hn1))). split; [done|].
  destruct Hinv as [H1 H2 H3 H4 H5 H6 H7 H8]. fold r in H4, H5, H6.
  assert (forall q, refs r1 q = users (file_objs s) q + one_if (n = q) + E q) as Hrefs.
  { intros q. rewrite Hr1', Hrq, H5. rewrite (one_if_ext (q = n) (n = q)), (one_if_ext (q = p_cwd s) (p_cwd s = q)) by naive_solver. lia. }
  split; simpl; try done.
  - intros a f Ha. destruct (H4 _ _ Ha) as [Hf Hcf]. split; [|done]. destruct (fo_vnode _ _ Hf) as (q & Hq & _).
    assert (0 < refs r1 q) as Hq1.
    { rewrite Hrefs. pose proof (users_pos _ _ _ _ Ha Hq). pose proof (one_if_bounds (n = q)). destruct H7 as (_ & HE & _). specialize (HE q). lia. }
    apply (file_ok_fs r r1 f q); [done|done| |done]. rewrite Hk1 by done. by apply kind_same.
  - rewrite Hk1 by done. by rewrite (kind_same r (vgot n r)).
Qed.

(** ** Status *)

Lemma loaded_links L r n x :
  finv None L r -> rfs_inodes (vgot n r) !! n = Some x -> is_Some (rfs_inodes r !! n) ->
  rf_linkcount x - 1 = nlinks L n + one_if (n = fs_root).
Proof.
  intros Hinv Ex Hn. destruct (vgot_ok L r n Hinv Hn) as [Hinv1 _ Hu _ _]. destruct (fi_inodes _ _ _ Hinv1 _ _ Ex) as [_ _ Hc _].
  rewrite Hc, (one_if_true (is_Some _)) by done. rewrite (one_if_false (None = Some n)) by done. lia.
Qed.

Lemma ramfs_stat_eq r n v x :
  vnode_inuse r !! n = Some v -> rfs_inodes r !! n = Some x ->
  ramfs_stat n r = Ret ((0, MkStat (vn_mode v) n
    (if (vn_mode v =? S_IFCHR) || (vn_mode v =? S_IFBLK) then devid_of (rf_mem x) else 0) (rf_linkcount x - 1) (rf_size x) PAGE_SIZE 1), r).
Proof.
  intros Ev Ex. unfold ramfs_stat. by rewrite (bind_eq _ _ _ _ _ (in_get_eq _ _ _ _ Ev Ex)), (bind_eq _ _ _ _ _ (vn_get_eq _ _ _ Ev)).
Qed.

Lemma do_stat_eq X E s p :
  vinv X E s -> p <> [] -> strlen p <= MAXPATHLEN ->
  match resolve_path (vfs_fs s) (p_cwd s) None p with
  | Err e => do_stat p s = Ret ((- e, None), s)
  | Lost => exists f, do_stat p s = Stop f
  | At n => exists x st, do_stat p s = Ret ((0, Some st), s) /\ rfs_inodes (vfs_fs s) !! n = Some x /\
      st_mode st = mode_of x /\ st_ino st = n /\ st_size st = rf_size x /\
      exists L, finv None L (vfs_fs s) /\ st_nlink st = nlinks L n + one_if (n = fs_root)
  end.
Proof.
  intros Hinv Hne Hlen. pose proof (vinv_start X E s p Hinv) as Hst. destruct (vi_fs _ _ _ Hinv) as [L HL].
  pose proof (open_namev_eq L (vfs_fs s) (p_cwd s) None p O_RDONLY HL Hst Hne Hlen) as Ho.
  unfold do_stat. rewrite (proj2 (Z.ltb_ge _ _)) by lia. unfold opened in Ho. unfold resolve_path.
  destruct (resolve_dir (vfs_fs s) (p_cwd s) None p) as [d|e|].
  2: { destruct Ho as [Ho He]. rewrite (bind_open_path _ _ _ _ _ _ Ho). cbn [fst]. rewrite (proj2 (Z.ltb_lt _ _)) by lia. by rewrite set_fs_id. }
  2: { destruct Ho as [f Ho]. exists f. by apply stop_open_path. }
  destruct (find (vfs_fs s) d (base_name p)) as [n|e|].
  2: { rewrite decide_False in Ho by (intros [_ Hx]; done). destruct Ho as [Ho He]. rewrite (bind_open_path _ _ _ _ _ _ Ho). cbn [fst].
       rewrite (proj2 (Z.ltb_lt _ _)) by lia. by rewrite set_fs_id. }
  2: { destruct Ho as [f Ho]. exists f. by apply stop_open_path. }
  destruct Ho as [Ho [x Ex]]. rewrite (bind_open_path _ _ _ _ _ _ Ho). cbn [fst snd]. change (0 <? 0) with false. cbv iota. rewrite bind_deref.
  destruct (vgot_ok L (vfs_fs s) n HL ltac:(eauto)) as [Hinv1 Hs1 [v Ev] _ _].
  destruct (same_content_some _ _ _ _ Hs1 Ex) as (x1 & Ex1 & Hc).
  destruct (fi_vnodes _ _ _ Hinv1 _ _ Ev) as [_ _ _ (x2 & Ex2 & Hm & _)]. assert (x2 = x1) as -> by congruence.
  eexists x, _. split_and!.
  - rewrite (bind_set_fs _ _ _ _ _ _ (ramfs_stat_eq _ _ _ _ Ev Ex1)).
    rewrite (bind_set_fs _ _ _ _ _ _ (vput_vgot L (vfs_fs s) n HL ltac:(eauto))). rewrite set_fs_id. cbn [fst snd]. reflexivity.
  - done.
  - simpl. rewrite Hm. by apply content_mode.
  - done.
  - simpl. by injection Hc as -> _ _ _.
  - exists L. split; [done|]. simpl. apply (loaded_links L (vfs_fs s)); eauto.
Qed.

(** ** Reading directories *)

Definition used_slot (e : dirent) : bool := negb (free_slot e).
Definition dent_of (e : dirent) : ino * str := (rd_ino e, stored_name (rd_name e)).

Lemma open_dir_vnode X E s fd a f n :
  vinv X E s -> open_fd s fd a f -> f_vnode f = Some n -> exists v, vnode_inuse (vfs_fs s) !! n = Some v.
Proof.
  intros Hinv Hop Hn. destruct (fo_vnode _ _ (open_fd_ok _ _ _ _ _ _ Hinv Hop)) as (m & Hm & Hr & _). assert (m = n) as -> by congruence.
  by apply refs_inuse.
Qed.

Lemma do_getdent_eq X E s fd a f n l i :
  vinv X E s -> open_fd s fd a f -> f_vnode f = Some n -> is_dir (vfs_fs s) n l -> f_pos f = 32 * Z.of_nat i -> (i <= 128)%nat ->
  match find_slot used_slot (drop i l) with
  | None => do_getdent fd s = Ret ((0, None), s)
  | Some k => exists e, l !! (i + k)%nat = Some e /\
      do_getdent fd s = Ret ((SIZEOF_DIRENT_T, Some (dent_of e)), with_file a (with_pos (32 * Z.of_nat (S (i + k))) f) s)
  end.
Proof.
  intros Hinv Hop Hn Hdir Hpos Hi. pose proof (open_fd_ok _ _ _ _ _ _ Hinv Hop) as Hf. pose proof Hop as (Hb & Hs & Ha).
  destruct (vi_fs _ _ _ Hinv) as [L HL]. pose proof Hdir as (x & v & Ev & Ex & El).
  destruct (entries_dir None L _ _ _ _ HL Ex El) as (Hmode & Hlen & _).
  assert (S_ISDIR (vn_mode v) = true) as Hisd.
  { rewrite (vnode_dir (vfs_fs s) n v); [|by exists L|done]. apply bool_decide_eq_true_2. unfold kind. by rewrite Ex, <- Hmode. }
  unfold do_getdent. rewrite Hb, (bind_eq _ _ _ _ _ (fget_open fd a f s Hb Hs Ha Hf)).
  rewrite (bind_file_get a (with_count (f_refcount f + 1) f)) by apply with_file_objs. cbn [with_count f_vnode f_pos]. rewrite Hn, bind_deref.
  rewrite (bind_mode_of n v) by done. rewrite Hisd. cbn [negb]. cbv iota.
  assert (ramfs_readdir n (f_pos f) (vfs_fs s) =
    match find_slot used_slot (drop i l) with
    | None => Ret ((0, None), vfs_fs s)
    | Some k => bind (deref (l !! (i + k)%nat)) (fun e => ret (SIZEOF_DIRENT + Z.of_nat k * SIZEOF_DIRENT, Some (dent_of e))) (vfs_fs s)
    end) as Hrd.
  { unfold ramfs_readdir. rewrite (bind_eq _ _ _ _ _ (vn_get_eq _ _ _ Ev)), bind_assert by done.
    assert (0 <= f_pos f < 4294967296) as Hp by (destruct Hf as [_ Hp _ _]; lia).
    rewrite u32_small by (unfold is_u32, two32; lia).
    rewrite bind_assert by (rewrite Hpos; unfold SIZEOF_DIRENT; apply Z.eqb_eq; rewrite Z.mul_comm; apply Z_mod_mult).
    rewrite (bind_eq _ _ _ _ _ (dir_get_eq _ _ _ Hdir)). rewrite (proj2 (Z.ltb_ge _ _)) by lia.
    replace (Z.to_nat (f_pos f / SIZEOF_DIRENT)) with i by (rewrite Hpos; unfold SIZEOF_DIRENT; rewrite (Z.mul_comm 32), Z.div_mul by lia; lia).
    change (fun e => negb (free_slot e)) with used_slot. by destruct (find_slot used_slot (drop i l)). }
  pose proof (find_slot_spec used_slot (drop i l)) as Hfs. destruct (find_slot used_slot (drop i l)) as [k|].
  - destruct Hfs as (e & Ek & _). rewrite lookup_drop in Ek. rewrite Ek, bind_deref in Hrd. exists e. split; [done|].
    apply lookup_lt_Some in Ek as Hlt. rewrite (bind_on_fs _ _ (with_file a (with_count (f_refcount f + 1) f) s) _ _ Hrd). cbn [fst snd].
    set (z := SIZEOF_DIRENT + Z.of_nat k * SIZEOF_DIRENT). assert (0 < z) as Hz by (unfold z, SIZEOF_DIRENT; lia).
    rewrite (proj2 (Z.ltb_lt _ _) Hz). rewrite bind_bind, bind_int_add by (unfold is_int, z, SIZEOF_DIRENT; lia).
    change (set_fs (vfs_fs s) (with_file a (with_count (f_refcount f + 1) f) s)) with (with_file a (with_count (f_refcount f + 1) f) s).
    rewrite (file_set_eq a (with_count (f_refcount f + 1) f)) by apply with_file_objs. rewrite with_file_twice.
    replace (f_pos f + z) with (32 * Z.of_nat (S (i + k))) by (unfold z, SIZEOF_DIRENT; lia).
    set (g := with_pos (32 * Z.of_nat (S (i + k))) f).
    change (with_pos (32 * Z.of_nat (S (i + k))) (with_count (f_refcount f + 1) f)) with (with_count (f_refcount g + 1) g).
    rewrite (bind_eq _ _ _ _ _ (fput_bumped a g s ltac:(apply file_ok_pos; [done|lia]))). done.
  - rewrite (bind_on_fs _ _ (with_file a (with_count (f_refcount f + 1) f) s) _ _ Hrd). cbn [fst snd]. change (0 <? 0) with false. cbv iota. rewrite bind_ret.
    change (set_fs (vfs_fs s) (with_file a (with_count (f_refcount f + 1) f) s)) with (with_file a (with_count (f_refcount f + 1) f) s).
    rewrite (bind_eq _ _ _ _ _ (fput_bumped a f s Hf)). by rewrite with_file_same.
Qed.

(** A client that reads a directory until the call returns no entry. *)
Fixpoint read_all (fuel : nat) (fd : Z) : M (vfs D) (list (ino * str)) :=
  match fuel with
  | O => stop Diverge
  | S fuel' =>
      let! r := do_getdent fd in
      match snd r with
      | None => ret []
      | Some e => let! es := read_all fuel' fd in ret (e :: es)
      end
  end.

Lemma find_slot_filter P (l : list dirent) :
  match find_slot P l with
  | None => List.filter P l = []
  | Some k => exists e, l !! k = Some e /\ List.filter P l = e :: List.filter P (drop (S k) l)
  end.
Proof.
  induction l as [|e l IH]; simpl; [done|]. destruct (P e) eqn:He; [by exists e|]. destruct (find_slot P l) as [k|]; simpl; [|done].
  destruct IH as (e' & Hk & ->). by exists e'.
Qed.

Lemma read_all_eq X E n l fuel s fd a f i :
  vinv X E s -> open_fd s fd a f -> f_vnode f = Some n -> is_dir (vfs_fs s) n l -> length l = 128%nat ->
  f_pos f = 32 * Z.of_nat i -> (i <= 128)%nat -> (128 - i < fuel)%nat ->
  exists z, read_all fuel fd s = Ret (dent_of <$> List.filter used_slot (drop i l), with_file a (with_pos z f) s) /\ 0 <= z < 2147483648.
Proof.
  revert s f i. induction fuel as [|fuel IH]; intros s f i Hinv Hop Hn Hd Hlen Hpos Hi Hfuel; [lia|]. simpl.
  pose proof (do_getdent_eq X E s fd a f n l i Hinv Hop Hn Hd Hpos Hi) as Hg. pose proof (find_slot_filter used_slot (drop i l)) as Hf.
  destruct (find_slot used_slot (drop i l)) as [k|].
  - destruct Hg as (e & Ek & Hg). destruct Hf as (e' & Ek' & ->). rewrite lookup_drop in Ek'. assert (e' = e) as -> by congruence.
    apply lookup_lt_Some in Ek as Hlt. rewrite (bind_eq _ _ _ _ _ Hg). cbn [snd]. set (z := 32 * Z.of_nat (S (i + k))) in *.
    destruct (IH (with_file a (with_pos z f) s) (with_pos z f) (S (i + k))) as (w & Hw & Hwr); try done; try lia.
    + apply vinv_pos; [done|apply Hop|unfold z; lia].
    + by apply (open_fd_with s fd a f).
    + rewrite (bind_eq _ _ _ _ _ Hw). rewrite drop_drop. replace (i + S k)%nat with (S (i + k)) by lia.
      exists w. split; [|done]. unfold ret. do 2 f_equal. by rewrite with_file_twice.
  - rewrite (bind_eq _ _ _ _ _ Hg), Hf. simpl. exists (f_pos f). pose proof (fo_pos _ _ (open_fd_ok _ _ _ _ _ _ Hinv Hop)).
    split; [|done]. unfold ret. do 2 f_equal. destruct f. symmetry. apply with_file_same. by destruct Hop as (_ & _ & ?).
Qed.

(** ** All calls together *)

Inductive vop : Type :=
| VOpen (p : str) (oflags : Z)
| VClose (fd : Z)
| VDup (fd : Z)
| VDup2 (ofd nfd : Z)
| VLseek (fd offset whence : Z)
| VRead (fd nbytes : Z)
| VWrite (fd : Z) (buf : list Z)
| VChdir (p : str)
| VUnlink (p : str)
| VRmdir (p : str)
| VStat (p : str).

Definition run_vop (o : vop) : M (vfs D) Z :=
  match o with
  | VOpen p oflags => do_open p oflags
  | VClose fd => do_close fd
  | VDup fd => do_dup fd
  | VDup2 ofd nfd => do_dup2 ofd nfd
  | VLseek fd offset whence => do_lseek fd offset whence
  | VRead fd nbytes => let! r := do_read fd nbytes in ret (fst r)
  | VWrite fd buf => do_write fd buf (Z.of_nat (length buf))
  | VChdir p => do_chdir p
  | VUnlink p => do_unlink p
  | VRmdir p => do_rmdir p
  | VStat p => let! r := do_stat p in ret (fst r)
  end.

(** A path of at most [MAXPATHLEN] bytes that leads through no removed
    directory. *)
Definition path_ok s (p : str) : Prop :=
  p <> [] /\ strlen p <= MAXPATHLEN /\ resolve_path (vfs_fs s) (p_cwd s) None p <> Lost.

(** What the descriptor is open on. *)
Definition open_on s (fd : Z) (P : file -> ino -> Prop) : Prop :=
  forall a f n, open_fd s fd a f -> f_vnode f = Some n -> P f n.

Definition vop_pre s (o : vop) : Prop :=
  match o with
  | VOpen p oflags =>
      path_ok s p /\ file_mem s <> O /\
      forall d, resolve_dir (vfs_fs s) (p_cwd s) None p = At d -> find (vfs_fs s) d (base_name p) = Err ENOENT ->
        creatable (vfs_fs s) d (base_name p)
  | VClose _ | VDup _ | VDup2 _ _ => True
  | VLseek fd offset whence => forall a f, open_fd s fd a f -> is_whence whence -> is_int (seek_target s f offset whence)
  | VRead fd nbytes =>
      fd <> -1 /\ 0 <= nbytes < 2147483648 /\
      open_on s fd (fun f n => kind (vfs_fs s) n = Some RAMFS_TYPE_DATA \/ kind (vfs_fs s) n = Some RAMFS_TYPE_DIR)
  | VWrite fd buf =>
      fd <> -1 /\ Z.of_nat (length buf) < 2147483648 /\
      open_on s fd (fun f n => kind (vfs_fs s) n = Some RAMFS_TYPE_DIR \/ (kind (vfs_fs s) n = Some RAMFS_TYPE_DATA /\ f_pos f <= PAGE_SIZE))
  | VChdir p | VStat p => path_ok s p
  | VUnlink p => path_ok s p /\ plain (base_name p)
  | VRmdir p => path_ok s p /\ base_name p <> []
  end.

Lemma bad_fget fd s : bad_fd fd = true -> fd <> -1 -> fget fd s = Ret (None, s).
Proof. intros Hb Hne. unfold fget, bad_fd in *. rewrite (proj2 (Z.eqb_neq _ _) Hne), Hb. done. Qed.

Lemma fget_none X E s fd : vinv X E s -> fd <> -1 -> fget fd s = Ret (None, s) \/ exists a f, open_fd s fd a f.
Proof.
  intros Hinv Hne. destruct (fd_cases X E s fd Hinv) as [Hb|[[Hb Hs]|H]]; [left; by apply bad_fget|left; by apply fget_empty|by right].
Qed.

Lemma kind_file L r n : finv None L r -> 0 < refs r n -> kind r n = Some RAMFS_TYPE_DATA -> exists l len, is_file r n l len.
Proof.
  intros Hinv Hr Hk. destruct (refs_inuse r n Hr) as [v Ev]. unfold kind in Hk. destruct (rfs_inodes r !! n) as [x|] eqn:Ex; [|done].
  apply (inj Some) in Hk. destruct (fi_inodes _ _ _ Hinv _ _ Ex) as [_ Hty _ _]. unfold typed in Hty. rewrite Hk in Hty.
  destruct Hty as (l & El & _). exists l, (rf_size x), x, v. done.
Qed.

Definition keeps X E s (o : outcome (Z * vfs D)) : Prop := exists v s', o = Ret (v, s') /\ vinv X E s'.

Lemma keeps_same X E s v : vinv X E s -> keeps X E s (Ret (v, s)).
Proof. intros H. by exists v, s. Qed.

Lemma do_open_keeps X E s p oflags : vinv X E s -> vop_pre s (VOpen p oflags) -> keeps X E s (do_open p oflags s).
Proof.
  intros Hinv ((Hne & Hlen & Hlost) & Hmem & Hcr). destruct (file_mem s) as [|k] eqn:Ek; [done|]. clear Hmem.
  destruct (get_empty_fd_eq s (vi_len _ _ _ Hinv)) as [(fd & Hget & Hfree)|[Hget _]].
  2: { unfold do_open. rewrite (bind_eq _ _ _ _ _ Hget), Z.eqb_refl. by apply keeps_same. }
  destruct (vi_fs _ _ _ Hinv) as [L HL]. pose proof (vinv_start X E s p Hinv) as Hst.
  pose proof (open_namev_eq L (vfs_fs s) (p_cwd s) None p (status_of oflags) HL Hst Hne Hlen) as Ho. unfold opened in Ho. unfold resolve_path in Hlost.
  assert (forall n r, open_namev (p_cwd s) p (status_of oflags) None (vfs_fs s) = Ret ((0, Some n), r) ->
    fs_step (vfs_fs s) r (fun m => one_if (m = n)) -> keeps X E s (do_open p oflags s)) as Hat.
  { intros n r Hr Hstep. destruct (do_open_at X E s fd k p oflags n r Hinv Hfree Hget Ek Hr Hstep) as (r' & _ & Hstep' & Hres).
    destruct (acc_mode oflags =? 3); [rewrite Hres; eexists _, _; split; [done|by apply vinv_fs]|].
    destruct (_ && _); [rewrite Hres; eexists _, _; split; [done|by apply vinv_fs]|].
    destruct Hres as (s' & E1 & Hinv' & _). rewrite E1. by eexists _, _. }
  destruct (resolve_dir (vfs_fs s) (p_cwd s) None p) as [d|e|] eqn:Erd; [|destruct Ho as [Ho He]|done].
  - destruct (find (vfs_fs s) d (base_name p)) as [n|e|] eqn:Ef; [| |done].
    + destruct Ho as [Ho Hn]. apply (Hat _ _ Ho). by apply (step_vgot L).
    + destruct (decide _) as [[He _]|_].
      * subst e. destruct (Ho (Hcr d eq_refl Ef)) as [Ho'|(n & r & Ho' & Hc)].
        -- rewrite (do_open_error s fd k p oflags Hfree Hget Ek _ Ho') by done. by apply keeps_same.
        -- apply (Hat _ _ Ho'). by apply (step_created L _ _ d (base_name p)).
      * destruct Ho as [Ho He]. rewrite (do_open_error s fd k p oflags Hfree Hget Ek _ Ho) by lia. by apply keeps_same.
  - rewrite (do_open_error s fd k p oflags Hfree Hget Ek _ Ho) by lia. by apply keeps_same.
Qed.

Lemma do_lseek_keeps X E s fd offset whence : vinv X E s -> vop_pre s (VLseek fd offset whence) -> keeps X E s (do_lseek fd offset whence s).
Proof.
  intros Hinv Hpre. destruct (decide (is_whence whence)) as [Hw|Hw].
  - destruct (fd_cases X E s fd Hinv) as [Hb|[[Hb Hs]|(a & f & Hop)]].
    + unfold do_lseek. unfold bad_fd in Hb. rewrite Hb. destruct (_ && _ && _); by apply keeps_same.
    + unfold do_lseek. pose proof (fget_empty fd s Hb Hs) as Hg. unfold bad_fd in Hb. rewrite Hb.
      destruct (_ && _ && _); [by apply keeps_same|]. rewrite (bind_eq _ _ _ _ _ Hg). by apply keeps_same.
    + pose proof (Hpre a f Hop Hw) as Hint. rewrite (do_lseek_eq s fd a f) by (done || by apply (open_fd_ok X E s fd a)).
      destruct (Z.ltb_spec (seek_target s f offset whence) 0); [by apply keeps_same|]. eexists _, _. split; [done|].
      apply vinv_pos; [done|apply Hop|]. unfold is_int in Hint. lia.
  - unfold do_lseek. assert (negb (whence =? SEEK_SET) && negb (whence =? SEEK_CUR) && negb (whence =? SEEK_END) = true) as ->.
    { rewrite !andb_true_iff, !negb_true_iff, !Z.eqb_neq. unfold is_whence in Hw. tauto. }
    by apply keeps_same.
Qed.

(** A call that finds the file object unusable gives it back and fails. *)
Lemma fput_fail {A} X E s fd a f (v : A) :
  vinv X E s -> open_fd s fd a f -> (fput (Some a) ;;; ret v) (with_file a (with_count (f_refcount f + 1) f) s) = Ret (v, s).
Proof.
  intros Hinv Hop. rewrite (bind_eq _ _ _ _ _ (fput_bumped a f s (open_fd_ok X E s fd a f Hinv Hop))).
  rewrite with_file_same by (by destruct Hop as (_ & _ & ?)). done.
Qed.

Lemma do_read_keeps X E s fd nbytes : vinv X E s -> vop_pre s (VRead fd nbytes) -> keeps X E s ((let! r := do_read fd nbytes in ret (fst r)) s).
Proof.
  intros Hinv (Hfd & Hc & Hon). destruct (fget_none X E s fd Hinv Hfd) as [Hg|(a & f & Hop)].
  { unfold do_read. rewrite bind_bind, (bind_eq _ _ _ _ _ Hg). by apply keeps_same. }
  pose proof (open_fd_ok _ _ _ _ _ _ Hinv Hop) as Hf. pose proof Hop as (Hb & Hs & Ha). destruct (vi_fs _ _ _ Hinv) as [L HL].
  destruct (fo_vnode _ _ Hf) as (n & Hn & Hr & _). destruct (readable f) eqn:Erd.
  2: { unfold do_read. rewrite bind_bind, (bind_eq _ _ _ _ _ (fget_open fd a f s Hb Hs Ha Hf)).
       rewrite bind_bind, (bind_file_get a _) by apply with_file_objs. unfold readable in Erd. cbn [with_count f_mode]. rewrite Erd. cbn [negb]. cbv iota.
       rewrite (bind_eq _ _ _ _ _ (fput_fail X E s fd a f (- EBADF, []) Hinv Hop)). by apply keeps_same. }
  destruct (Hon a f n Hop Hn) as [Hk|Hk].
  - destruct (kind_file L (vfs_fs s) n HL Hr Hk) as (l & len & Hfile).
    pose proof (do_read_eq L s fd a f n l len nbytes Hop Hf Erd Hn HL Hfile Hc) as Hrd. cbv zeta in Hrd.
    rewrite (bind_eq _ _ _ _ _ Hrd). eexists _, _. split; [done|]. apply vinv_pos; [done|done|].
    destruct (is_file_facts _ _ _ _ _ HL Hfile) as (_ & Hsz & _). pose proof (fo_pos _ _ Hf). unfold PAGE_SIZE in *. lia.
  - destruct (refs_inuse _ _ Hr) as [v Ev]. unfold do_read. rewrite bind_bind, (bind_eq _ _ _ _ _ (fget_open fd a f s Hb Hs Ha Hf)).
    rewrite bind_bind, (bind_file_get a _) by apply with_file_objs. unfold readable in Erd. cbn [with_count f_mode f_vnode f_pos]. rewrite Erd. cbn [negb]. cbv iota.
    rewrite bind_bind, Hn, bind_deref. rewrite bind_bind, (bind_mode_of n v) by done.
    rewrite (vnode_dir (vfs_fs s) n v) by (done || by exists L). rewrite bool_decide_eq_true_2 by done.
    rewrite (bind_eq _ _ _ _ _ (fput_fail X E s fd a f (- EISDIR, []) Hinv Hop)). by apply keeps_same.
Qed.

Lemma do_write_bad X E s fd a f buf nbytes :
  vinv X E s -> open_fd s fd a f -> writable f = false -> do_write fd buf nbytes s = Ret (- EBADF, s).
Proof.
  intros Hinv Hop Hw. pose proof (open_fd_ok _ _ _ _ _ _ Hinv Hop) as Hf. pose proof Hop as (Hb & Hs & Ha).
  unfold do_write. rewrite (bind_eq _ _ _ _ _ (fget_open fd a f s Hb Hs Ha Hf)), (bind_file_get a _) by apply with_file_objs.
  unfold writable in Hw. cbn [with_count f_mode]. rewrite Hw. cbn [negb]. cbv iota. by apply (fput_fail X E s fd).
Qed.

Lemma step_stored L r n l len off bytes :
  finv None L r -> is_file r n l len -> 0 <= off -> off + Z.of_nat (length bytes) <= PAGE_SIZE ->
  fs_step r (stored n off bytes (Z.max len (off + Z.of_nat (length bytes))) r) (fun _ => 0).
Proof.
  intros Hinv Hf Ho Hb. destruct (finv_stored L r n l len off bytes Hinv Hf Ho Hb) as [Hinv' _]. split; [by exists L|..].
  - intros m. rewrite Z.add_0_r. unfold refs, stored. simpl. destruct (decide (m = n)) as [->|]; [|by rewrite lookup_alter_ne].
    rewrite lookup_alter_eq. by destruct (vnode_inuse r !! n).
  - intros m _ _. unfold kind, stored. simpl. destruct (decide (m = n)) as [->|]; [|by rewrite lookup_alter_ne].
    rewrite lookup_alter_eq. destruct (rfs_inodes r !! n) as [x|]; [|done]. simpl. by destruct (rf_mem x).
Qed.

Lemma do_write_keeps X E s fd buf : vinv X E s -> vop_pre s (VWrite fd buf) -> keeps X E s (do_write fd buf (Z.of_nat (length buf)) s).
Proof.
  intros Hinv (Hfd & Hc & Hon). destruct (fget_none X E s fd Hinv Hfd) as [Hg|(a & f & Hop)].
  { unfold do_write. rewrite (bind_eq _ _ _ _ _ Hg). by apply keeps_same. }
  pose proof (open_fd_ok _ _ _ _ _ _ Hinv Hop) as Hf. pose proof Hop as (Hb & Hs & Ha). destruct (vi_fs _ _ _ Hinv) as [L HL].
  destruct (fo_vnode _ _ Hf) as (n & Hn & Hr & Hnd). destruct (writable f) eqn:Ew.
  2: { rewrite (do_write_bad X E s fd a f) by done. by apply keeps_same. }
  destruct (Hon a f n Hop Hn) as [Hk|[Hk Hp]]; [by destruct (Hnd (proj1 (Z.eqb_eq _ _) Ew))|].
  destruct (kind_file L (vfs_fs s) n HL Hr Hk) as (l & len & Hfile).
  destruct (is_file_facts _ _ _ _ _ HL Hfile) as (_ & Hsz & _). pose proof (fo_pos _ _ Hf).
  pose proof (do_write_eq L s fd a f n l len buf Hop Hf Ew Hn HL Hfile Hp Hc) as Hwr. cbv zeta in Hwr.
  set (w := write_pos f len) in *. set (r := Z.min (Z.of_nat (length buf)) (PAGE_SIZE - w)) in *.
  assert (0 <= w <= PAGE_SIZE) as Hw by (unfold w, write_pos; destruct (appends f); lia).
  assert (Z.of_nat (length (take (Z.to_nat r) buf)) = r) as Hlr by (rewrite length_take; lia).
  rewrite Hwr. eexists _, _. split; [done|]. apply (vinv_pos X E (set_fs _ s)); [|done|unfold PAGE_SIZE in *; lia].
  apply vinv_fs; [done|]. replace (Z.max len (w + r)) with (Z.max len (w + Z.of_nat (length (take (Z.to_nat r) buf)))) by lia. apply (step_stored L _ n l); [done|done|lia|lia].
Qed.

Lemma run_vop_keeps X E s o : vinv X E s -> vop_pre s o -> keeps X E s (run_vop o s).
Proof.
  intros Hinv Hpre. destruct o as [p oflags|fd|fd|ofd nfd|fd offset whence|fd nbytes|fd buf|p|p|p|p].
  - by apply do_open_keeps.
  - destruct (fd_cases X E s fd Hinv) as [Hb|[[Hb Hs]|(a & f & Hop)]]; simpl.
    + unfold do_close. rewrite Hb. by apply keeps_same.
    + unfold do_close. rewrite Hb, (bind_eq _ _ _ _ _ (fget_empty fd s Hb Hs)). by apply keeps_same.
    + destruct (do_close_ok X E s fd a f Hinv Hop) as (s' & -> & Hinv' & _). by eexists _, _.
  - destruct (fd_cases X E s fd Hinv) as [Hb|[[Hb Hs]|(a & f & Hop)]]; simpl.
    + unfold do_dup. rewrite Hb. by apply keeps_same.
    + unfold do_dup. rewrite Hb, (bind_eq _ _ _ _ _ (fget_empty fd s Hb Hs)). by apply keeps_same.
    + destruct (do_dup_ok X E s fd a f Hinv Hop) as [(nfd & s' & -> & _ & Hinv' & _)|[-> _]]; [by eexists _, _|by apply keeps_same].
  - simpl. destruct (bad_fd nfd) eqn:Hn; [unfold do_dup2; rewrite Hn; destruct (bad_fd ofd); by apply keeps_same|].
    destruct (fd_cases X E s ofd Hinv) as [Hb|[[Hb Hs]|(a & f & Hop)]].
    + unfold do_dup2. rewrite Hb. by apply keeps_same.
    + unfold do_dup2. rewrite Hb, Hn, (bind_eq _ _ _ _ _ (fget_empty ofd s Hb Hs)). by apply keeps_same.
    + destruct (do_dup2_ok X E s ofd nfd a f Hinv Hop Hn) as (s' & -> & Hinv' & _). by eexists _, _.
  - by apply do_lseek_keeps.
  - by apply do_read_keeps.
  - by apply do_write_keeps.
  - destruct Hpre as (Hne & Hlen & Hlost). pose proof (do_chdir_eq X E s p Hinv Hne Hlen) as H. simpl.
    destruct (resolve_path _ _ _ p) as [n|e|]; [|rewrite H; by apply keeps_same|done].
    destruct (decide _); [|rewrite H; by apply keeps_same]. destruct H as (r' & -> & Hinv'). by eexists _, _.
  - destruct Hpre as ((Hne & Hlen & Hlost) & Hpl). pose proof (do_unlink_eq X E s p Hinv Hne Hlen Hpl) as H. simpl.
    destruct (resolve_path _ _ _ p) as [n|e|]; [|rewrite H; by apply keeps_same|done].
    destruct (bool_decide _); [rewrite H; by apply keeps_same|]. destruct H as (d & r' & _ & -> & Hinv' & _). by eexists _, _.
  - destruct Hpre as ((Hne & Hlen & Hlost) & Hnm). pose proof (do_rmdir_eq X E s p Hinv Hne Hlen) as H. simpl. unfold resolve_path in Hlost.
    destruct (resolve_dir _ _ _ p) as [d|e|]; [|rewrite H; by apply keeps_same|done].
    destruct (decide _) as [_|Hd1]; [rewrite H; by apply keeps_same|]. destruct (decide _) as [_|Hd2]; [rewrite H; by apply keeps_same|].
    destruct (decide _) as [Hd3|_]; [|rewrite H; by apply keeps_same]. specialize (H Hnm).
    destruct (dlookup _ d _) as [n|]; [|rewrite H; by apply keeps_same].
    destruct (rf_mem <$> _) as [[b|k|dv]|]; [rewrite H; by apply keeps_same| |rewrite H; by apply keeps_same|done].
    destruct (empty_dir k); [|rewrite H; by apply keeps_same]. destruct H as (r' & -> & Hinv' & _). by eexists _, _.
  - destruct Hpre as (Hne & Hlen & Hlost). pose proof (do_stat_eq X E s p Hinv Hne Hlen) as H. simpl.
    destruct (resolve_path _ _ _ p) as [n|e|]; [destruct H as (x & st & H & _)| |done]; rewrite (bind_eq _ _ _ _ _ H); by apply keeps_same.
Qed.

(** States reached by calls that keep to their preconditions. *)
Inductive vreach s0 : vfs D -> Prop :=
| vreach_refl : vreach s0 s0
| vreach_step s s' o v : vreach s0 s -> vop_pre s o -> run_vop o s = Ret (v, s') -> vreach s0 s'.

Lemma vreach_inv X E s0 s : vinv X E s0 -> vreach s0 s -> vinv X E s.
Proof.
  intros H0. induction 1 as [|s s' o v _ IH Hpre Hrun]; [done|]. destruct (run_vop_keeps X E s o IH Hpre) as (v' & s'' & E' & Hinv').
  congruence.
Qed.

(** ** Making directories *)

Lemma step_added L L' r r' d nm n :
  finv None L r -> finv None L' r' -> added r r' d nm n -> rfs_inodes r !! n = None -> vnode_inuse r' = vnode_inuse r ->
  kind r d = Some RAMFS_TYPE_DIR -> nm <> [] -> fs_step r r' (fun _ => 0).
Proof.
  intros Hinv Hinv' Had Hn Hv Hk Hnm. split; [by exists L'|intros m; unfold refs; rewrite Hv; lia|].
  intros m Hm _. destruct (refs_inode L r m Hinv Hm) as [x Ex]. assert (m <> n) as Hmn by congruence.
  destruct (decide (m = d)) as [->|Hmd].
  - rewrite Hk. apply (kind_entry L' r' d nm n); [done|]. rewrite (ad_names _ _ _ _ _ Had) by done. by rewrite decide_True.
  - destruct (ad_others _ _ _ _ _ Had m x Ex Hmd Hmn) as (x' & Ex' & Hc). unfold kind. rewrite Ex, Ex'. simpl. injection Hc as _ _ _ Hk'. by rewrite Hk'.
Qed.

(** The beginning of [do_mkdir], up to the early release of the directory. *)
Lemma do_mkdir_start X E s p d :
  vinv X E s -> p <> [] -> strlen p <= MAXPATHLEN -> resolve_dir (vfs_fs s) (p_cwd s) None p = At d ->
  strlen (base_name p) <= NAME_LEN -> kind (vfs_fs s) d = Some RAMFS_TYPE_DIR ->
  do_mkdir p s = (let! ent := on_fs (lookup d (base_name p)) in
     if fst ent =? 0 then let! result := deref (snd ent) in on_fs (vput result) ;;; ret (- EEXIST)
     else on_fs (ramfs_mkdir d (base_name p))) s.
Proof.
  intros Hinv Hne Hlen Hrd Hnl Hk. pose proof (vinv_start X E s p Hinv) as Hst. destruct (vi_fs _ _ _ Hinv) as [L HL].
  pose proof (dir_namev_eq L (vfs_fs s) (p_cwd s) None p HL Hst Hne Hlen) as Hw. rewrite Hrd in Hw. destruct Hw as [Hw Hd].
  destruct (vgot_ok L (vfs_fs s) d HL Hd) as [Hinv1 Hs1 _ Hr1 _]. pose proof (refs_nonneg L (vfs_fs s) d HL).
  unfold do_mkdir. rewrite (bind_at_path _ _ _ _ _ Hw). cbn [nv_name nv_errno nv_vnode]. rewrite bind_deref, (proj2 (Z.ltb_ge _ _) Hnl).
  change (0 <? 0) with false. cbv iota. rewrite bind_deref.
  destruct (mode_known (vgot d (vfs_fs s)) d ltac:(by exists L) ltac:(lia)) as (m & Em & ->).
  rewrite Em, (kind_same (vfs_fs s) (vgot d (vfs_fs s))), bool_decide_eq_true_2 by done. cbn [negb]. cbv iota.
  rewrite (bind_set_fs _ _ _ _ _ _ (vput_vgot L (vfs_fs s) d HL Hd)). by rewrite set_fs_id.
Qed.

Lemma vn_get_none r n : refs r n = 0 -> ramfs_ok r -> vn_get n r = Stop Undef.
Proof.
  intros Hz [L HL]. unfold vn_get, refs in *. rewrite bind_gets. destruct (vnode_inuse r !! n) as [v|] eqn:Ev; [|done].
  pose proof (vk_refs _ _ _ (fi_vnodes _ _ _ HL _ _ Ev)). lia.
Qed.

Lemma bind_stop {T A B} (m : M T A) (k : A -> M T B) (t : T) f : m t = Stop f -> bind m k t = Stop f.
Proof. intros E. unfold bind. by rewrite E. Qed.

Lemma resolve_same L (r r' : ramfs) d cs : finv None L r -> finv None L r' -> same_content r r' -> resolve r' d cs = resolve r d cs.
Proof.
  intros H1 H2 Hs. revert d. induction cs as [|c cs IH]; intros d; simpl; [done|]. rewrite (find_same L r r') by done.
  destruct (find r d c); [apply IH|done|done].
Qed.

(** ** Theorems *)

(** C1: From a well-formed state, any sequence of open, close, dup, dup2, lseek,
    read, write, chdir, unlink, rmdir and stat calls that keep to their
    preconditions leaves a state in which every file object is referenced
    exactly by its descriptors and every vnode exactly by the file objects, the
    working directory and the holders there were before; so no call leaks a
    reference or gives one up twice, failed calls included, and the next call that
    keeps to its precondition returns.  The preconditions ([vop_pre]) are what the
    code relies on without a check: a path that is not empty, not longer than
    MAXPATHLEN and leads through directories that are there; memory for a file object and,
    where open creates one, a name that fits and a directory that is still in the
    tree; for unlink a last component other than "." and "..", for rmdir one that is not
    empty; reads and writes on files and directories (no devices), on a descriptor
    other than -1, of less than 2^31 bytes, a write from a position within the page; a
    seek whose sum does not overflow an int.  Outside them calls can panic
    ([directory_calls_can_panic], [ramfs_write_beyond_page]). *)
Theorem vfs_reachable_balanced X E s0 s o :
  vinv X E s0 -> vreach s0 s -> vop_pre s o ->
  vinv X E s /\ exists v s', run_vop o s = Ret (v, s') /\ vinv X E s'.
Proof.
  intros H0 Hr Hpre. pose proof (vreach_inv X E s0 s H0 Hr) as Hinv. split; [done|]. by apply (run_vop_keeps X E).
Qed.

(** A stop of the first part stops the whole. *)
Lemma stop_bind {A B} (m : M (vfs D) A) (k : A -> M (vfs D) B) s :
  (forall a s', m s = Ret (a, s') -> exists f, k a s' = Stop f) -> exists f, bind m k s = Stop f.
Proof. intros Hk. unfold bind. destruct (m s) as [[a s']|f]; [by apply Hk|eauto]. Qed.

(** Without memory for the file object nothing is returned once a descriptor is free. *)
Lemma do_open_no_memory s fd p oflags :
  get_empty_fd s = Ret (fd, s) -> fd <> - EMFILE -> (Z.to_nat fd < length (p_files s))%nat -> file_mem s = O ->
  exists f, do_open p oflags s = Stop f.
Proof.
  intros Hget Hfd Hlt Hmem. unfold do_open. rewrite (bind_eq _ _ _ _ _ Hget), (proj2 (Z.eqb_neq _ _) Hfd).
  assert (fget (-1) s = Ret (None, s)) as Hf by (unfold fget, slab_file; simpl; by rewrite bind_bind, bind_gets, Hmem).
  rewrite (bind_eq _ _ _ _ _ Hf). unfold slot_set. rewrite bind_modify. cbn [set_files]. apply stop_bind. intros cwd s1 Es. unfold gets in Es. injection Es as <- <-.
  apply stop_bind. intros r s2 E2.
  assert (p_files s2 !! Z.to_nat fd = Some None) as Hslot.
  { unfold on_fs, zoom in E2. destruct (open_namev _ _ _ _ _) as [[? ?]|]; [|done]. injection E2 as <- <-. simpl.
    by rewrite list_lookup_insert_eq. }
  destruct (fst r <? 0).
  { unfold slot_get. rewrite bind_bind, bind_gets, Hslot, bind_deref. unfold fput. simpl. eauto. }
  apply stop_bind. intros n s3 E3. assert (s3 = s2) as ->.
  { unfold deref in E3. destruct (snd r); [by injection E3|done]. }
  destruct (_ =? O_RDONLY); [by eauto|]. destruct (_ || _); [by eauto|].
  unfold open_undo, slot_get. rewrite bind_bind, bind_gets, Hslot, bind_deref. unfold fput. simpl. eauto.
Qed.




(** C36: What is written through a descriptor is what is read back: after a
    write of at most the rest of the page, seeking to where it started and
    reading as many bytes gives the bytes, and the position is behind them. *)
Theorem file_write_read X E s fd a f n buf :
  vinv X E s -> open_fd s fd a f -> f_vnode f = Some n -> kind (vfs_fs s) n = Some RAMFS_TYPE_DATA ->
  readable f = true -> writable f = true -> appends f = false -> f_pos f + Z.of_nat (length buf) <= PAGE_SIZE ->
  exists s1 s2 s3,
    do_write fd buf (Z.of_nat (length buf)) s = Ret (Z.of_nat (length buf), s1) /\
    do_lseek fd (f_pos f) SEEK_SET s1 = Ret (f_pos f, s2) /\
    do_read fd (Z.of_nat (length buf)) s2 = Ret ((Z.of_nat (length buf), buf), s3) /\
    vinv X E s3 /\ open_fd s3 fd a (with_pos (f_pos f + Z.of_nat (length buf)) f).
Proof.
  intros Hinv Hop Hn Hk Hrd Hwr Hap Hfit. pose proof (open_fd_ok _ _ _ _ _ _ Hinv Hop) as Hf. pose proof (fo_pos _ _ Hf) as Hpos.
  destruct (vi_fs _ _ _ Hinv) as [L HL]. destruct (fo_vnode _ _ Hf) as (m & Hm & Hr & _). assert (m = n) as -> by congruence.
  destruct (kind_file L (vfs_fs s) n HL Hr Hk) as (l & len & Hfile).
  destruct (is_file_facts _ _ _ _ _ HL Hfile) as (Hll & Hsz & _). set (z := Z.of_nat (length buf)) in *.
  assert (z < 2147483648) as Hz by (unfold PAGE_SIZE in *; lia).
  pose proof (do_write_eq L s fd a f n l len buf Hop Hf Hwr Hn HL Hfile ltac:(lia) Hz) as Hw. cbv zeta in Hw. fold z in Hw.
  unfold write_pos in Hw. rewrite Hap in Hw. replace (Z.min z (PAGE_SIZE - f_pos f)) with z in Hw by lia.
  rewrite (take_ge buf) in Hw by lia.
  destruct (finv_stored L _ n l len (f_pos f) buf HL Hfile ltac:(lia) ltac:(lia)) as [HL1 Hfile1]. fold z in HL1, Hfile1.
  pose proof (step_stored L _ n l len (f_pos f) buf HL Hfile ltac:(lia) ltac:(lia)) as Hstep. fold z in Hstep.
  set (r1 := stored n (f_pos f) buf (Z.max len (f_pos f + z)) (vfs_fs s)) in *.
  pose proof (vinv_fs X E s r1 Hinv Hstep) as Hinv1. assert (file_objs s !! a = Some f) as Ha by (apply Hop).
  set (s1 := with_file a (with_pos (f_pos f + z) f) (set_fs r1 s)) in *.
  assert (vinv X E s1) as Hinv1' by (apply vinv_pos; [done|done|unfold PAGE_SIZE in *; lia]).
  assert (open_fd s1 fd a (with_pos (f_pos f + z) f)) as Hop1 by (by apply (open_fd_with (set_fs r1 s) fd a f)).
  pose proof (do_lseek_eq s1 fd a _ (f_pos f) SEEK_SET Hop1 (open_fd_ok _ _ _ _ _ _ Hinv1' Hop1) ltac:(by left)) as Hl.
  assert (seek_target s1 (with_pos (f_pos f + z) f) (f_pos f) SEEK_SET = f_pos f) as Ht by done. rewrite Ht in Hl.
  specialize (Hl ltac:(unfold is_int, PAGE_SIZE in *; lia)). rewrite (proj2 (Z.ltb_ge _ _)) in Hl by lia.
  assert (with_file a (with_pos (f_pos f) (with_pos (f_pos f + z) f)) s1 = set_fs r1 s) as Hs2.
  { unfold s1. rewrite with_file_twice. replace (with_pos (f_pos f) (with_pos (f_pos f + z) f)) with f by (by destruct f).
    by apply with_file_same. }
  rewrite Hs2 in Hl. assert (open_fd (set_fs r1 s) fd a f) as Hop2 by (split_and!; apply Hop).
  pose proof (do_read_eq L (set_fs r1 s) fd a f n _ _ z Hop2 (open_fd_ok _ _ _ _ _ _ Hinv1 Hop2) Hrd Hn HL1 Hfile1 ltac:(lia)) as Hread.
  cbv zeta in Hread. replace (Z.max 0 (Z.min z (Z.max len (f_pos f + z) - f_pos f))) with z in Hread by lia.
  exists s1, (set_fs r1 s), (with_file a (with_pos (f_pos f + z) f) (set_fs r1 s)). split_and!; [done|done| |done|apply Hop1..].
  rewrite Hread. do 3 f_equal. unfold overwrite. rewrite drop_app_ge by (rewrite length_take; lia).
  rewrite length_take, Nat.min_l by (unfold PAGE_SIZE in *; lia). rewrite Nat.sub_diag, drop_0. apply take_app_length'. lia.
Qed.

(** C35: For a path that is neither empty nor too long: [do_unlink], of a path whose
    last component is neither "." nor "..", removes exactly the name the path gives
    and no reference, and frees the file exactly when no other name and no holder
    is left; it refuses directories with -EISDIR.  [do_rmdir] does the same for an
    empty directory, and refuses "." with -EINVAL, ".." with -ENOTEMPTY, a parent
    that is no directory and something that is no directory with -ENOTDIR, a
    missing name (also one that is too long) with -ENOENT and a directory in use
    with -ENOTEMPTY; a path without a last component, such as the root's, is left
    out (it can panic, [directory_calls_can_panic]).  Every refusal leaves the state as it was;
    where a directory on the way is lost both calls stop. *)
Theorem unlink_rmdir_correct X E s p :
  vinv X E s -> p <> [] -> strlen p <= MAXPATHLEN ->
  (plain (base_name p) ->
  match resolve_path (vfs_fs s) (p_cwd s) None p with
  | Err e => do_unlink p s = Ret (- e, s)
  | Lost => exists f, do_unlink p s = Stop f
  | At n =>
      if bool_decide (kind (vfs_fs s) n = Some RAMFS_TYPE_DIR) then do_unlink p s = Ret (- EISDIR, s)
      else exists d r', resolve_dir (vfs_fs s) (p_cwd s) None p = At d /\ do_unlink p s = Ret (0, set_fs r' s) /\
        vinv X E (set_fs r' s) /\ name_removed (vfs_fs s) r' d (base_name p) n
  end) /\
  match resolve_dir (vfs_fs s) (p_cwd s) None p with
  | Err e => do_rmdir p s = Ret (- e, s)
  | Lost => exists f, do_rmdir p s = Stop f
  | At d =>
      if decide (base_name p = DOT) then do_rmdir p s = Ret (- EINVAL, s)
      else if decide (base_name p = DOTDOT) then do_rmdir p s = Ret (- ENOTEMPTY, s)
      else if negb (bool_decide (kind (vfs_fs s) d = Some RAMFS_TYPE_DIR)) then do_rmdir p s = Ret (- ENOTDIR, s)
      else base_name p <> [] ->
      match dlookup (vfs_fs s) d (base_name p) with
      | None => do_rmdir p s = Ret (- ENOENT, s)
      | Some n => exists x, rfs_inodes (vfs_fs s) !! n = Some x /\
          match rf_mem x with
          | REntries k =>
              if empty_dir k then
                exists r', do_rmdir p s = Ret (0, set_fs r' s) /\ vinv X E (set_fs r' s) /\ name_removed (vfs_fs s) r' d (base_name p) n
              else do_rmdir p s = Ret (- ENOTEMPTY, s)
          | _ => do_rmdir p s = Ret (- ENOTDIR, s)
          end
      end
  end.
Proof.
  intros Hinv Hne Hlen. split; [intros Hpl; by apply do_unlink_eq|]. pose proof (do_rmdir_eq X E s p Hinv Hne Hlen) as H.
  destruct (resolve_dir _ _ _ p) as [d|e|]; [|done|done]. destruct (decide (base_name p = DOT)); [done|].
  destruct (decide (base_name p = DOTDOT)); [done|]. destruct (decide (kind _ _ = _)) as [Hk|Hk].
  - rewrite bool_decide_eq_true_2 by done. simpl. intros Hnm. specialize (H Hnm). destruct (dlookup _ d _) as [i|]; [|done].
    destruct (rfs_inodes (vfs_fs s) !! i) as [x|]; simpl in H; [|done]. exists x. split; [done|]. by destruct (rf_mem x).
  - by rewrite bool_decide_eq_false_2.
Qed.

(** A duplicated descriptor is the lowest free one and shares the file
    object: seeking on either moves both, and closing one leaves the other
    open.  With a full table [do_dup] fails and gives the reference back. *)
Theorem do_dup_shares X E s fd a f pos :
  vinv X E s -> open_fd s fd a f -> 0 <= pos < 2147483648 ->
  (do_dup fd s = Ret (- EMFILE, s) /\ all_used s) \/
  exists nfd s1 s2 s3 f1 f2,
    do_dup fd s = Ret (nfd, s1) /\ lowest_free s nfd /\ vinv X E s1 /\
    do_lseek nfd pos SEEK_SET s1 = Ret (pos, s2) /\ open_fd s2 fd a f1 /\ f_pos f1 = pos /\
    do_close fd s2 = Ret (0, s3) /\ vinv X E s3 /\ open_fd s3 nfd a f2.
Proof.
  intros Hinv Hop Hpos. destruct (do_dup_ok X E s fd a f Hinv Hop) as [(nfd & s1 & E1 & Hfree & Hinv1 & Hfiles & Hobj)|H]; [right|by left].
  pose proof Hfree as (Hnb & Hnone & _). pose proof Hop as (Hb & Hs & _). set (g := with_count (f_refcount f + 1) f) in *.
  assert (Z.to_nat fd <> Z.to_nat nfd) as Hne by congruence. apply lookup_lt_Some in Hnone as Hlt.
  assert (open_fd s1 nfd a g) as Hop1 by (split_and!; [done|rewrite Hfiles; by apply list_lookup_insert_eq|done]).
  assert (open_fd s1 fd a g) as Hop1' by (split_and!; [done|by rewrite Hfiles, list_lookup_insert_ne|done]).
  pose proof (do_lseek_eq s1 nfd a g pos SEEK_SET Hop1 (open_fd_ok _ _ _ _ _ _ Hinv1 Hop1) ltac:(by left)) as Hl.
  assert (seek_target s1 g pos SEEK_SET = pos) as Ht by done. rewrite Ht in Hl.
  specialize (Hl ltac:(unfold is_int; lia)). rewrite (proj2 (Z.ltb_ge _ _)) in Hl by lia.
  set (s2 := with_file a (with_pos pos g) s1) in *. assert (vinv X E s2) as Hinv2 by (apply vinv_pos; done).
  assert (open_fd s2 fd a (with_pos pos g)) as Hop2 by (by apply (open_fd_with s1 fd a g)).
  destruct (do_close_ok X E s2 fd a _ Hinv2 Hop2) as (s3 & E3 & Hinv3 & Hfiles3 & _ & _).
  assert (p_files s3 !! Z.to_nat nfd = Some (Some a)) as Hn3 by (rewrite Hfiles3, list_lookup_insert_ne by done; apply Hop1).
  destruct (vi_slots _ _ _ Hinv3 _ _ Hn3) as [f2 Hf2]. exists nfd, s1, s2, s3, (with_pos pos g), f2. split_and!; done.
Qed.

(** C38: Reading a directory from its beginning, one entry a call, gives every
    used entry of it exactly once and in order, and then no more. *)
Theorem read_directory_complete X E s fd a f n l :
  vinv X E s -> open_fd s fd a f -> f_vnode f = Some n -> f_pos f = 0 -> is_dir (vfs_fs s) n l ->
  exists s', read_all 129 fd s = Ret (dent_of <$> List.filter used_slot l, s') /\ vinv X E s'.
Proof.
  intros Hinv Hop Hn Hpos Hd. destruct (vi_fs _ _ _ Hinv) as [L HL]. pose proof Hd as (x & v & _ & Ex & El).
  destruct (entries_dir None L _ _ _ _ HL Ex El) as (_ & Hlen & _).
  destruct (read_all_eq X E n l 129 s fd a f 0) as (z & Hz & Hr); try done; try lia.
  exists (with_file a (with_pos z f) s). split; [done|]. apply vinv_pos; [done|apply Hop|done].
Qed.

(** [do_mkdir] works on a directory somebody else holds, but it gives up its
    own reference before it is done: in a directory nobody else holds it goes
    on with a freed vnode.  And it reads the uninitialised last component
    whenever the path cannot be followed, instead of returning the error. *)
Theorem do_mkdir_cases X E s p :
  vinv X E s -> p <> [] -> strlen p <= MAXPATHLEN ->
  match resolve_dir (vfs_fs s) (p_cwd s) None p with
  | Err e => do_mkdir p s = Stop Undef
  | Lost => exists f, do_mkdir p s = Stop f
  | At d =>
      strlen (base_name p) <= NAME_LEN -> kind (vfs_fs s) d = Some RAMFS_TYPE_DIR ->
      if decide (refs (vfs_fs s) d = 0) then do_mkdir p s = Stop Undef
      else match find (vfs_fs s) d (base_name p) with
           | At _ => do_mkdir p s = Ret (- EEXIST, s)
           | Err e => creatable (vfs_fs s) d (base_name p) ->
               do_mkdir p s = Ret (- ENOSPC, s) \/
               exists n r', do_mkdir p s = Ret (0, set_fs r' s) /\ vinv X E (set_fs r' s) /\
                 rfs_inodes (vfs_fs s) !! n = None /\ name_added (vfs_fs s) r' d (base_name p) n
           | Lost => exists f, do_mkdir p s = Stop f
           end
  end.
Proof.
  intros Hinv Hne Hlen. pose proof (vinv_start X E s p Hinv) as Hst. destruct (vi_fs _ _ _ Hinv) as [L HL].
  pose proof (dir_namev_eq L (vfs_fs s) (p_cwd s) None p HL Hst Hne Hlen) as Hw.
  destruct (resolve_dir (vfs_fs s) (p_cwd s) None p) as [d|e|] eqn:Erd; simpl in Hw.
  2: { destruct Hw as [[res Hw] _]. unfold do_mkdir. by rewrite (bind_at_path _ _ _ _ _ Hw). }
  2: { destruct Hw as [f Hw]. exists f. by apply stop_at_path. }
  intros Hnl Hk. rewrite (do_mkdir_start X E s p d) by done. set (r := vfs_fs s) in *. set (nm := base_name p) in *.
  destruct (decide (refs r d = 0)) as [Hz|Hz].
  { apply stop_on_fs. unfold lookup. apply bind_stop. apply vn_get_none; [done|by exists L]. }
  assert (0 < refs r d) as Hp by (pose proof (refs_nonneg L r d HL); lia).
  pose proof (lookup_eq L r d nm HL (refs_inuse r d Hp)) as Hl. destruct (find r d nm) as [n|e|] eqn:Ef.
  - destruct Hl as [Hl Hn]. rewrite (bind_on_fs _ _ _ _ _ Hl). cbn [fst snd]. change (0 =? 0) with true. cbv iota. rewrite bind_deref.
    rewrite (bind_set_fs _ _ _ _ _ _ (vput_vgot L r n HL Hn)). unfold r. by rewrite set_fs_id.
  - destruct Hl as [Hl He]. intros (Ha & Hg & H27). rewrite (bind_on_fs _ _ _ _ _ Hl). cbn [fst]. rewrite (proj2 (Z.eqb_neq _ _)) by lia.
    replace (set_fs r s) with s by (unfold r; by rewrite set_fs_id).
    destruct (kind_entries L r d HL Hk) as (x & l & Ex & El). destruct (refs_inuse r d Hp) as [v Ev].
    assert (is_dir r d l) as Hd by (by exists x, v). assert (dlookup r d nm = None) as Hnone.
    { destruct (dlookup r d nm) as [k|] eqn:Ek; [|done]. unfold find in Ef. rewrite Ex, Ek in Ef.
      unfold kind in Hk. rewrite Ex in Hk. simpl in Hk. rewrite decide_True in Ef by congruence.
      rewrite (proj2 (Z.ltb_ge _ _) Hnl) in Ef. destruct (Z.eqb_spec (strlen nm) 0); [done|].
      destruct (lookup_target L r d nm k HL Ek Hg) as [y Ey]. by rewrite Ey in Ef. }
    assert (new_name l nm) as Hnew by (split_and!; [apply Hg..|done|by apply (dlookup_none_names r d)]).
    destruct (ramfs_mkdir_spec L r d l nm HL Hd (attached_linked _ _ _ HL Ha) Hnew)
      as [Em|(n & L' & r' & Em & HL' & Had & Hn & Hv & _)]; [left|right].
    + unfold on_fs, zoom. fold r. rewrite Em. unfold r. by rewrite set_fs_id.
    + exists n, r'. split_and!; [|apply vinv_fs; [done|by apply (step_added L L' r r' d nm n); [..|apply Hg]]|done|by apply added_name].
      unfold on_fs, zoom. fold r. by rewrite Em.
  - destruct Hl as [f Hl]. exists f. by apply stop_on_fs.
Qed.

(** Linking or renaming a file to a name that exists releases the file's
    vnode twice: when nobody else holds the file the second release is of freed
    memory. *)
Theorem link_to_existing_undefined X E s from to n d m :
  vinv X E s -> from <> [] -> to <> [] -> strlen from <= NAME_LEN -> strlen to <= NAME_LEN ->
  resolve_path (vfs_fs s) (p_cwd s) None from = At n -> kind (vfs_fs s) n <> Some RAMFS_TYPE_DIR -> refs (vfs_fs s) n = 0 ->
  resolve_dir (vfs_fs s) (p_cwd s) None to = At d -> find (vfs_fs s) d (base_name to) = At m -> m <> n ->
  do_link from to s = Stop Undef /\ do_rename from to s = Stop Undef.
Proof.
  intros Hinv Hnf Hnt Hlf Hlt Hres Hkn Hz Hrd Hfm Hmn. assert (do_link from to s = Stop Undef) as Hlink; [|by split; [|apply bind_stop]].
  pose proof (vinv_start X E s from Hinv) as Hst. pose proof (vinv_start X E s to Hinv) as Hst2. destruct (vi_fs _ _ _ Hinv) as [L HL].
  assert (strlen from <= MAXPATHLEN /\ strlen to <= MAXPATHLEN) as [Hmf Hmt] by (unfold NAME_LEN, MAXPATHLEN in *; lia).
  pose proof (open_namev_eq L (vfs_fs s) (p_cwd s) None from 0 HL Hst Hnf Hmf) as Ho. unfold opened in Ho. unfold resolve_path in Hres.
  destruct (resolve_dir (vfs_fs s) (p_cwd s) None from) as [d0|e|]; [|done|done]. rewrite Hres in Ho. destruct Ho as [Ho Hn].
  set (r := vfs_fs s) in *. destruct (vgot_ok L r n HL Hn) as [HL1 Hs1 _ Hr1 _].
  assert (is_Some (rfs_inodes (vgot n r) !! start_of (p_cwd s) None to)) as Hst3 by (by apply (vgot_some L)).
  pose proof (dir_namev_eq L (vgot n r) (p_cwd s) None to HL1 Hst3 Hnt Hmt) as Hw.
  unfold resolve_dir in Hrd, Hw. rewrite (resolve_same L r (vgot n r)), Hrd in Hw by done. destruct Hw as [Hw Hd1].
  assert (is_Some (rfs_inodes r !! d)) as Hd by (by apply (vgot_some L r n)).
  assert (is_Some (rfs_inodes r !! m)) as Hm by (by apply (find_inode L r d (base_name to))).
  destruct (vgot_ok L (vgot n r) d HL1 Hd1) as [HL2 Hs2 Hu2 _ _].
  pose proof (lookup_eq L (vgot d (vgot n r)) d (base_name to) HL2 Hu2) as Hl.
  rewrite (find_same L (vgot n r)), (find_same L r (vgot n r)), Hfm in Hl by done. destruct Hl as [Hl _].
  unfold do_link. rewrite (proj2 (Z.ltb_ge _ _) Hlf), (proj2 (Z.ltb_ge _ _) Hlt). cbn [orb]. cbv iota.
  rewrite (bind_open_path _ _ _ _ _ _ Ho). cbn [fst snd]. change (0 <? 0) with false. cbv iota. rewrite bind_deref.
  destruct (mode_known (vgot n r) n ltac:(by exists L) ltac:(lia)) as (md & Em & ->). rewrite Em, (kind_same r (vgot n r)) by done.
  rewrite bool_decide_eq_false_2 by done. rewrite (bind_at_path _ _ (set_fs (vgot n r) s) _ _ Hw), set_fs_fs.
  cbn [nv_errno nv_vnode nv_name]. change (0 <? 0) with false. cbv iota. rewrite !bind_deref.
  rewrite (bind_set_fs _ _ _ _ _ _ Hl). cbn [fst]. change (0 =? 0) with true. cbv iota.
  assert (vput n (vgot m (vgot d (vgot n r))) = Ret (tt, vgot m (vgot d r))) as P1.
  { rewrite (vgot_comm r d n), (vgot_comm (vgot d r) m n). apply (vput_vgot L).
    - apply (vgot_ok L); [by apply (vgot_ok L)|by apply (vgot_some L)].
    - apply (vgot_some L); [by apply (vgot_ok L)|by apply (vgot_some L)|by apply (vgot_some L)]. }
  rewrite (bind_set_fs _ _ _ _ _ _ P1), (bind_set_fs _ _ _ _ _ _ (vput_first L r d m HL Hd Hm)).
  apply stop_set_fs. unfold vput. apply bind_stop. apply vn_get_none; [|exists L; by apply (vgot_ok L)].
  rewrite (refs_vgot L), one_if_false by (done || congruence). lia.
Qed.

(** Two calls any process can make stop the kernel: removing a directory by
    a path that ends in a slash, when the first free entry of the directory is
    left from something that is gone; and reading a directory after seeking to
    a position between two entries. *)
Theorem directory_calls_can_panic X E s p d n fd a f v :
  vinv X E s ->
  (p <> [] -> strlen p <= MAXPATHLEN -> resolve_dir (vfs_fs s) (p_cwd s) None p = At d -> base_name p = [] ->
   kind (vfs_fs s) d = Some RAMFS_TYPE_DIR -> dlookup (vfs_fs s) d [] = Some n -> rfs_inodes (vfs_fs s) !! n = None ->
   exists e, do_rmdir p s = Stop e) /\
  (open_fd s fd a f -> f_vnode f = Some n -> vnode_inuse (vfs_fs s) !! n = Some v -> S_ISDIR (vn_mode v) = true ->
   f_pos f mod 32 <> 0 -> do_getdent fd s = Stop Assert).
Proof.
  intros Hinv. destruct (vi_fs _ _ _ Hinv) as [L HL]. split.
  - intros Hne Hlen Hrd Hb Hk Hdl Hgone. pose proof (vinv_start X E s p Hinv) as Hst.
    pose proof (dir_namev_eq L (vfs_fs s) (p_cwd s) None p HL Hst Hne Hlen) as Hw. rewrite Hrd, Hb in Hw. destruct Hw as [Hw Hd].
    unfold do_rmdir. rewrite (bind_at_path _ _ _ _ _ Hw). cbn [nv_errno nv_vnode nv_name]. change (0 <? 0) with false. cbv iota.
    rewrite !bind_deref. change (bool_decide ([] = DOT)) with false. change (bool_decide ([] = DOTDOT)) with false. cbv iota.
    destruct (vgot_ok L (vfs_fs s) d HL Hd) as [HL1 Hs1 _ Hr1 _]. pose proof (refs_nonneg L (vfs_fs s) d HL).
    destruct (mode_known (vgot d (vfs_fs s)) d ltac:(by exists L) ltac:(lia)) as (m & Em & ->).
    rewrite Em, (kind_same (vfs_fs s) (vgot d (vfs_fs s))), bool_decide_eq_true_2 by done. cbn [negb]. cbv iota.
    destruct (kind_entries L _ d HL Hk) as (x & l & Ex & El). pose proof (vgot_is_dir L _ d l HL Hk ltac:(eauto)) as Hdir.
    assert (dlookup (vgot d (vfs_fs s)) d [] = Some n) as Hdl1.
    { unfold dlookup in *. rewrite Ex, El in Hdl. destruct Hdir as (x1 & v1 & _ & Ex1 & El1). by rewrite Ex1, El1. }
    destruct (vget_lost L (vgot d (vfs_fs s)) n HL1 ltac:(by apply (same_none (vfs_fs s)))) as [e He]. exists e.
    apply stop_set_fs. unfold ramfs_rmdir. rewrite bind_assert by done. apply bind_stop.
    destruct (dlookup_slot _ _ _ _ _ Hdir Hdl1) as (i & en & Hf & Ei & _ & Hen). unfold ramfs_lookup.
    rewrite (bind_eq _ _ _ _ _ (dir_get_eq _ _ _ Hdir)), Hf, Ei, bind_deref, Hen. by apply bind_stop.
  - intros Hop Hn Ev Hisd Hpos. pose proof (open_fd_ok _ _ _ _ _ _ Hinv Hop) as Hf. pose proof Hop as (Hb & Hs & Ha).
    unfold do_getdent. rewrite Hb, (bind_eq _ _ _ _ _ (fget_open fd a f s Hb Hs Ha Hf)).
    rewrite (bind_file_get a (with_count (f_refcount f + 1) f)) by apply with_file_objs. cbn [with_count f_vnode f_pos]. rewrite Hn, bind_deref.
    rewrite (bind_mode_of n v) by done. rewrite Hisd. cbn [negb]. cbv iota. apply stop_on_fs.
    unfold ramfs_readdir. cbn [vfs_fs with_file set_objs]. rewrite (bind_eq _ _ _ _ _ (vn_get_eq _ _ _ Ev)), bind_assert by done.
    pose proof (fo_pos _ _ Hf). rewrite u32_small by (unfold is_u32, two32; lia). unfold SIZEOF_DIRENT.
    by rewrite (proj2 (Z.eqb_neq _ _) Hpos).
Qed.
End calls.

(** ** Witnesses *)

#[local] Instance no_devices : Bytedevs unit := {
  bytedev_lookup := fun _ => false;
  cd_read := fun _ _ _ => ret (0, []);
  cd_write := fun _ _ _ _ => ret 0
}.

(** A process in the root of a file system with one directory, "d". *)
Definition ex_fs : ramfs := vgot 0 (after (OpMkdir 0 [100]) ex_mounted).
Definition ex_ext (n : ino) : Z := one_if (n = 0).
Definition ex_vfs : vfs unit := MkVfs unit ex_fs ∅ 9 (replicate 32 None) 0 tt.
Definition after_v (o : vop) (s : vfs unit) : vfs unit := match run_vop o s with Ret (_, s') => s' | Stop _ => s end.
Definition ex_open : vfs unit := after_v (VOpen [102] 258) ex_vfs.
Definition ex_closed : vfs unit := after_v (VClose 0) ex_open.
Definition ex_dirfd : vfs unit := after_v (VOpen [47] 0) ex_vfs.
Definition ex_between : vfs unit := after_v (VLseek 0 1 0) ex_dirfd.
Definition ex_removed : vfs unit := after_v (VRmdir [100]) ex_vfs.

Abbreviation ok_here := (vinv (fun _ => 0) ex_ext).

Lemma after_v_ok s o : ok_here s -> vop_pre s o -> ok_here (after_v o s) /\ exists v, run_vop o s = Ret (v, after_v o s).
Proof.
  intros Hinv Hpre. destruct (run_vop_keeps _ _ s o Hinv Hpre) as (v & s' & E & H). unfold after_v. rewrite E. eauto.
Qed.

Lemma ex_base_ok : ramfs_ok (after (OpMkdir 0 [100]) ex_mounted).
Proof. apply after_ok; [exists ∅; apply mounted_ok|]. eexists. split; [by_root|]. split; [by left|by_names]. Qed.

Lemma ex_vfs_ok : ok_here ex_vfs.
Proof.
  destruct ex_base_ok as [L HL]. set (r := after (OpMkdir 0 [100]) ex_mounted) in *.
  assert (is_Some (rfs_inodes r !! 0)) as Hr by (eexists; vm_compute; reflexivity).
  destruct (vgot_ok L r 0 HL Hr) as [HL1 Hs1 _ _ _]. split; simpl.
  - by exists L.
  - done.
  - intros i a Hx. change (replicate 32 (@None Z) !! i = Some (Some a)) in Hx. by apply lookup_replicate in Hx as [? _].
  - intros a f. by rewrite lookup_empty.
  - intros n. change ex_fs with (vgot 0 r). rewrite (refs_vgot L r 0 n HL Hr). unfold users. rewrite map_filter_empty, map_size_empty.
    change (Z.of_nat 0) with 0. unfold ex_ext. rewrite (one_if_ext (0 = n) (n = 0)) by naive_solver.
    assert (refs r n = one_if (n = 0)) as ->; [|lia]. unfold refs.
    assert (vnode_inuse r = {[0 := MkVnode 1 0 S_IFDIR 64 0 false]}) as -> by (by vm_compute).
    destruct (decide (n = 0)) as [->|Hne]; [by vm_compute|]. rewrite lookup_singleton_ne, one_if_false by done. done.
  - by vm_compute.
  - split_and!; [done|intros n; apply one_if_bounds|by vm_compute].
  - done.
Qed.

Ltac by_path := split_and!; [done|by vm_compute|by vm_compute].

Lemma ex_open_pre : vop_pre ex_vfs (VOpen [102] 258).
Proof.
  split_and!; [by_path..|done|]. intros d Hd _. vm_compute in Hd. injection Hd as <-.
  split; [by left|]. split; [unfold good_name; split_and!; by vm_compute|by vm_compute; lia].
Qed.

Lemma ex_open_ok : ok_here ex_open.
Proof. by apply after_v_ok, ex_open_pre; apply ex_vfs_ok. Qed.

Lemma ex_closed_ok : ok_here ex_closed.
Proof. apply after_v_ok; [apply ex_open_ok|done]. Qed.

Lemma ex_dirfd_ok : ok_here ex_dirfd.
Proof.
  apply after_v_ok; [apply ex_vfs_ok|]. split_and!; [by_path..|done|]. intros d Hd Hf. vm_compute in Hd. injection Hd as <-.
  vm_compute in Hf. done.
Qed.

Lemma ex_file_fd : open_fd ex_open 0 1 (MkFile 0 3 1 (Some 2)).
Proof. split_and!; by vm_compute. Qed.

Lemma ex_dir_fd : open_fd ex_dirfd 0 1 (MkFile 0 1 1 (Some 0)).
Proof. split_and!; by vm_compute. Qed.

Lemma ex_between_ok : ok_here ex_between.
Proof.
  apply after_v_ok; [apply ex_dirfd_ok|]. intros a f (_ & H1 & H2) _. vm_compute in H1. injection H1 as <-. unfold seek_target, is_int. simpl. lia.
Qed.

Lemma ex_removed_ok : ok_here ex_removed.
Proof. apply after_v_ok; [apply ex_vfs_ok|]. split; [by_path|done]. Qed.

Lemma vfs_reachable_balanced_witness : ok_here ex_open /\ exists v s', run_vop (VClose 0) ex_open = Ret (v, s') /\ ok_here s'.
Proof.
  apply (vfs_reachable_balanced _ _ ex_vfs ex_open (VClose 0)); [exact ex_vfs_ok| |done].
  destruct (after_v_ok ex_vfs (VOpen [102] 258) ex_vfs_ok ex_open_pre) as [_ [v Hv]].
  apply (vreach_step _ ex_vfs _ (VOpen [102] 258) v); [apply vreach_refl|exact ex_open_pre|exact Hv].
Defined.


Lemma file_write_read_witness :
  exists s1 s2 s3, do_write 0 [7; 8; 9] 3 ex_open = Ret (3, s1) /\ do_lseek 0 0 SEEK_SET s1 = Ret (0, s2) /\ do_read 0 3 s2 = Ret ((3, [7; 8; 9]), s3).
Proof.
  destruct (file_write_read _ _ ex_open 0 1 (MkFile 0 3 1 (Some 2)) 2 [7; 8; 9] ex_open_ok ex_file_fd) as (s1 & s2 & s3 & H1 & H2 & H3 & _);
    [by vm_compute..|]. by exists s1, s2, s3.
Defined.

Lemma unlink_rmdir_correct_witness : exists r', do_rmdir [100] ex_vfs = Ret (0, set_fs r' ex_vfs) /\ dlookup r' 0 [100] = None.
Proof.
  destruct (unlink_rmdir_correct _ _ ex_vfs [100] ex_vfs_ok) as [_ H]; [done|by vm_compute|].
  assert (resolve_dir (vfs_fs ex_vfs) (p_cwd ex_vfs) None [100] = At 0) as Hr by by vm_compute. rewrite Hr in H.
  rewrite !decide_False in H by (by vm_compute). rewrite bool_decide_eq_true_2 in H by (by vm_compute). cbn [negb] in H. cbv iota in H.
  specialize (H ltac:(by vm_compute)).
  assert (dlookup (vfs_fs ex_vfs) 0 (base_name [100]) = Some 1) as Hl by by vm_compute. rewrite Hl in H. destruct H as (x & Ex & H).
  assert (rf_mem <$> rfs_inodes (vfs_fs ex_vfs) !! 1 = Some (REntries (<[0%nat := MkDent 1 DOT]> (<[1%nat := MkDent 0 DOTDOT]> zero_entries)))) as Em
    by by vm_compute.
  rewrite Ex in Em. simpl in Em. apply (inj Some) in Em. rewrite Em in H. change (empty_dir _) with true in H. cbv iota in H.
  destruct H as (r' & E & _ & Hn & _). exists r'. split; [done|]. rewrite (Hn 0 [100]) by done. by rewrite decide_True.
Defined.

Lemma do_dup_shares_witness : exists nfd s1, do_dup 0 ex_open = Ret (nfd, s1) /\ lowest_free ex_open nfd.
Proof.
  destruct (do_dup_shares _ _ ex_open 0 1 (MkFile 0 3 1 (Some 2)) 5 ex_open_ok ex_file_fd ltac:(lia)) as [[_ Hall]|(nfd & s1 & _ & _ & _ & _ & E & Hf & _)].
  - by destruct (Hall 1%nat None ltac:(by vm_compute)).
  - by exists nfd, s1.
Defined.

Lemma read_directory_complete_witness :
  exists s', read_all 129 0 ex_dirfd = Ret ([(0, DOT); (0, DOTDOT); (1, [100])], s').
Proof.
  assert (exists l, is_dir (vfs_fs ex_dirfd) 0 l /\ dent_of <$> List.filter used_slot l = [(0, DOT); (0, DOTDOT); (1, [100])]) as (l & Hd & Hl).
  { eexists. split; [by_root|by vm_compute]. }
  destruct (read_directory_complete _ _ ex_dirfd 0 1 (MkFile 0 1 1 (Some 0)) 0 l ex_dirfd_ok ex_dir_fd) as (s' & E & _); [done..|].
  rewrite Hl in E. by exists s'.
Defined.

Lemma do_mkdir_cases_witness : do_mkdir [100; 47; 120] ex_vfs = Stop Undef.
Proof.
  pose proof (do_mkdir_cases _ _ ex_vfs [100; 47; 120] ex_vfs_ok ltac:(done) ltac:(by vm_compute)) as H.
  assert (resolve_dir (vfs_fs ex_vfs) (p_cwd ex_vfs) None [100; 47; 120] = At 1) as Hr by by vm_compute. rewrite Hr in H.
  specialize (H ltac:(by vm_compute) ltac:(by vm_compute)). rewrite decide_True in H by (by vm_compute). exact H.
Defined.

Lemma link_to_existing_undefined_witness : do_rename [102] [100] ex_closed = Stop Undef.
Proof.
  apply (link_to_existing_undefined _ _ ex_closed [102] [100] 2 0 1 ex_closed_ok); by vm_compute.
Defined.

Lemma directory_calls_can_panic_witness : (exists e, do_rmdir [47] ex_removed = Stop e) /\ do_getdent 0 ex_between = Stop Assert.
Proof.
  split.
  - apply (directory_calls_can_panic _ _ ex_removed [47] 0 1 0 1 (MkFile 0 1 1 (Some 0)) (MkVnode 1 0 S_IFDIR 64 0 false) ex_removed_ok); by vm_compute.
  - assert (exists v, vnode_inuse (vfs_fs ex_between) !! 0 = Some v /\ S_ISDIR (vn_mode v) = true) as (v & Hv & Hd)
      by (eexists; split; vm_compute; reflexivity).
    apply (directory_calls_can_panic _ _ ex_between [47] 0 0 0 1 (MkFile 1 1 1 (Some 0)) v ex_between_ok);
      [split_and!; by vm_compute|done|done|done|by vm_compute].
Defined.
