(* ===== verification/Fork.v ===== *)
(** * Copying an address space (proc/fork.c)

    The address-space half of [do_fork]: the parent's map is cloned and each
    area of the clone gets its object, a shared one the parent's own, a private
    one a new shadow object over the parent's, while the parent continues on
    another new shadow object.  The state is the parent's address space
    (Vmmap.v); the child's areas are the result.  The theorem is copy on write
    across processes: both see the memory as it was, and after that neither
    sees what the other stores in its private pages. *)

From S2P Require Import Prelude Mmobj Vmmap.

Section fork.
Context `{FileOps}.

(** [shadow_create] and the two assignments that put the new object on top of
    [old]. *)
Definition new_shadow (old : option Z) : M mm Z :=
  let! x := shadow_create in
  let! o := deref x in
  obj_set o (with_shadowed old) ;;;
  let! old := deref old in
  let! b := un_bottom_obj old in
  obj_set o (with_un (mmo_bottom_obj b)) ;;;
  ret o.

(** The body of the loop for the parent's area at [i] and the child's [c]. *)
Definition fork_area (i : Z) (c : vmarea) : M vms vmarea :=
  let! p := area_get i in
  if vma_start p =? vma_start c then
    if has (vma_flags c) MAP_SHARED then
      let! o := deref (vma_obj p) in
      mm_call (mmo_ref o) ;;;
      mm_call (vmas_insert_tail o (vma_id c)) ;;;
      ret (with_olink true (with_obj (Some o) c))
    else if has (vma_flags c) MAP_PRIVATE then
      let! shadow_child := mm_call (new_shadow (vma_obj p)) in
      let! shadow_parent := mm_call (new_shadow (vma_obj p)) in
      area_set i (with_obj (Some shadow_parent)) ;;;
      let! b := mm_call (mmobj_bottom_obj shadow_child) in
      mm_call (vmas_insert_tail b (vma_id c)) ;;;
      mm_call (vma_ref (vma_obj p)) ;;;
      ret (with_olink true (with_obj (Some shadow_child) c))
    else ret c
  else ret c.

(** The child's list, with the link [l] moving along the parent's. *)
Fixpoint fork_loop (ids : list Z) (cs : list vmarea) : M vms (list vmarea) :=
  match cs with
  | [] => ret []
  | c :: cs' =>
      match ids with
      | [] => stop Undef
      | i :: ids' =>
          let! c' := fork_area i c in
          let! r := fork_loop ids' cs' in
          ret (c' :: r)
      end
  end.

(** The child's areas. *)
Definition fork_vm : M vms (list vmarea) :=
  let! r := vmmap_clone in
  let! cs := deref r in
  let! l := gets vmm_list in
  let! cs' := fork_loop (map vma_id l) cs in
  pt_unmap_range USER_MEM_LOW USER_MEM_HIGH ;;;
  ret cs'.
End fork.

(** ** Cloning *)

Definition child_of (i : Z) (a : vmarea) : vmarea :=
  MkVma i (vma_start a) (vma_end a) (vma_off a) (vma_prot a) (vma_flags a) None false.

Lemma insert_area_last new l :
  Forall (fun t => vma_start t < vma_end new) l -> insert_area new l = l ++ [new].
Proof.
  induction 1 as [|t l Ht Hl IH]; simpl; [done|]. rewrite (proj2 (Z.leb_gt _ _)) by done. by rewrite IH.
Qed.

Lemma clone_loop_eq l : forall acc ids pool s,
  areas_ok l -> Forall (fun t => Forall (fun a => vma_start t < vma_end a) l) acc ->
  vma_pool s = ids ++ pool -> length ids = length l ->
  clone_loop l acc s = Ret (Some (acc ++ zip_with child_of ids l), set_vpool pool s).
Proof.
  induction l as [|a l IH]; intros acc ids pool s Hok Hacc Hp Hlen.
  - destruct ids; [|done]. simpl in *. rewrite app_nil_r. destruct s. simpl in *. by subst.
  - destruct ids as [|i ids]; [done|]. apply areas_ok_cons in Hok as (Hu & Hb & Hok).
    simpl. unfold vmarea_alloc. rewrite bind_bind, bind_gets, Hp. simpl. rewrite bind_bind, bind_modify, bind_ret.
    change (MkVma i _ _ _ _ _ _ _) with (child_of i a).
    rewrite insert_area_last by (eapply Forall_impl; [exact Hacc|]; intros t Ht; by inversion Ht).
    rewrite (IH _ ids pool); [by rewrite <- app_assoc|done| |done|by simpl in Hlen; lia].
    apply Forall_app. split.
    + eapply Forall_impl; [exact Hacc|]. intros t Ht. by inversion Ht.
    + constructor; [|done]. rewrite Forall_forall in Hb |- *. intros b Hin. specialize (Hb b Hin).
      destruct Hok as [Hu' _]. rewrite Forall_forall in Hu'. specialize (Hu' b Hin). simpl. pn. lia.
Qed.

Lemma vmmap_clone_eq ids pool s :
  areas_ok (vmm_list s) -> vma_pool s = ids ++ pool -> length ids = length (vmm_list s) ->
  vmmap_clone s = Ret (Some (zip_with child_of ids (vmm_list s)), set_vpool pool s).
Proof. intros. unfold vmmap_clone. rewrite bind_gets. by rewrite (clone_loop_eq _ [] ids pool). Qed.

(** ** Objects that are added and referenced *)

Definition un_like (u u' : mmo_union) : Prop :=
  match u with
  | mmo_bottom_obj b => u' = mmo_bottom_obj b
  | mmo_vmas _ => exists l, u' = mmo_vmas l
  end.

(** [m'] has the objects of [m] with other counters and area lists, the same
    pages, and maybe more objects. *)
Record ext (m m' : mm) : Prop := {
  ex_obj : forall x ob, objs m !! x = Some ob -> exists ob', objs m' !! x = Some ob' /\
    mmo_ops ob' = mmo_ops ob /\ mmo_shadowed ob' = mmo_shadowed ob /\ un_like (mmo_un ob) (mmo_un ob');
  ex_pf : pframes m' = pframes m;
  ex_pages : page_pool m' = page_pool m
}.

Lemma un_like_refl u : un_like u u.
Proof. destruct u; simpl; eauto. Qed.

Lemma un_like_trans u u' u'' : un_like u u' -> un_like u' u'' -> un_like u u''.
Proof. destruct u; simpl; [intros [vs ->]|intros ->]; naive_solver. Qed.
#[local] Hint Resolve un_like_refl : core.

Lemma ext_refl m : ext m m.
Proof. split; eauto 10. Qed.

Lemma ext_trans m m' m'' : ext m m' -> ext m' m'' -> ext m m''.
Proof.
  intros [A1 A2 A3] [B1 B2 B3]. split; [|congruence..]. intros x ob Hx.
  destruct (A1 _ _ Hx) as (ob' & Hx' & ? & ? & ?). destruct (B1 _ _ Hx') as (ob'' & Hx'' & ? & ? & ?).
  exists ob''. split_and!; [done|congruence|congruence|by eapply un_like_trans].
Qed.

Lemma ext_chain m m' o l : ext m m' -> chain m o l -> chain m' o l.
Proof.
  intros E C. eapply chain_same; [exact C|]. intros x ob _ Hx.
  destruct (ex_obj _ _ E _ _ Hx) as (ob' & ? & ? & ? & _). eauto.
Qed.

Lemma ext_un_chain m m' o l : ext m m' -> chain m o l -> un_chain m l -> un_chain m' l.
Proof.
  intros E C Hu x ob' Hx Hob'. destruct (chain_live _ _ _ _ C Hx) as [ob Hob].
  destruct (ex_obj _ _ E _ _ Hob) as (ob2 & Hob2 & _ & Es & El). simplify_eq. rewrite Es, <- (Hu _ _ Hx Hob).
  destruct (mmo_un ob); simpl in El; [destruct El as [? ->]; done|by rewrite El].
Qed.

Lemma ext_views m m' o n d : ext m m' -> views m o n d -> views m' o n d.
Proof.
  intros [Eo Ep _]. induction 1 as [x n p Hp|x n ob x' d Hn Hx Hs V IH|x n ob Hn Hx Hs Hk].
  - constructor. by rewrite Ep.
  - destruct (Eo _ _ Hx) as (ob' & ? & ? & Hs' & _). rewrite Hs in Hs'. eapply views_up; [by rewrite Ep|done|done|done].
  - destruct (Eo _ _ Hx) as (ob' & ? & ? & ? & _). eapply views_zero; [by rewrite Ep|done|congruence|congruence].
Qed.

(** Addresses the object allocators hand out are not in use. *)
Definition fresh_pool (m : mm) : Prop :=
  NoDup (obj_pool m) /\ forall o, o ∈ obj_pool m -> objs m !! o = None.

Definition shadow_over (old b : Z) : mmobj := MkObj Shadow 1 0 [] (mmo_bottom_obj b) (Some old).

Lemma ext_add m m' o ob :
  objs m !! o = None -> objs m' = <[o := ob]> (objs m) -> pframes m' = pframes m -> page_pool m' = page_pool m ->
  ext m m'.
Proof.
  intros Hn Eo Ep Epp. split; [|done|done]. intros x obx Hx. exists obx.
  rewrite Eo, lookup_insert_ne by congruence. eauto.
Qed.

Lemma occ_zero x Ls : (forall l, l ∈ Ls -> x ∉ l) -> occ x Ls = 0%nat.
Proof.
  induction Ls as [|l Ls IH]; intros Hn; [done|]. rewrite occ_cons, decide_False by (apply Hn; set_solver).
  apply IH. intros l' Hl'. apply Hn. set_solver.
Qed.

Lemma cnt_zero x C : x ∉ C -> cnt x C = 0%nat.
Proof. intros Hn. unfold cnt. induction C as [|y C IH]; [done|]. rewrite filter_cons_False; set_solver. Qed.

Lemma own_add Ls C m m' o old b :
  own Ls C m -> objs m !! o = None -> objs m' = <[o := shadow_over old b]> (objs m) ->
  pframes m' = pframes m -> alloc_list m' = alloc_list m -> pinned_list m' = pinned_list m ->
  nallocated m' = nallocated m -> npinned m' = npinned m -> own Ls (o :: C) m'.
Proof.
  intros [[R1 R2 R3 R4 R5 R6] Hch Hlv Hrf] Hn Eo Ep Ea Epi En Enp.
  assert (Hold : forall x ob, objs m !! x = Some ob -> objs m' !! x = Some ob).
  { intros x ob Hx. rewrite Eo, lookup_insert_ne by congruence. done. }
  assert (HnL : forall l, l ∈ Ls -> o ∉ l).
  { intros l Hl Hin. destruct (Hch l Hl) as [x Cx]. destruct (chain_live _ _ _ _ Cx Hin). congruence. }
  assert (HnC : o ∉ C) by (intros Hin; destruct (Hlv o Hin) as (? & ? & _); congruence).
  split; [split| | |]; rewrite ?Ep, ?Ea, ?Epi, ?En, ?Enp; try done.
  - intros x ob n. rewrite Eo. intros [[<- <-]|[Hne Hx]]%lookup_insert_Some; [|by apply R1].
    simpl. split; [by intros ?%not_elem_of_nil|]. intros [p Hp]. destruct (R3 _ _ Hp) as (_ & _ & [? Hx] & _). simpl in Hx. congruence.
  - intros x ob. rewrite Eo. intros [[<- <-]|[Hne Hx]]%lookup_insert_Some; [|by eapply R2].
    simpl. split_and!; [constructor|done|lia].
  - intros k p Hp. destruct (R3 _ _ Hp) as (? & ? & [? ?] & ? & ?). split_and!; eauto.
  - intros l Hl. destruct (Hch l Hl) as [x Cx]. exists x. eapply chain_same; [exact Cx|]. eauto.
  - intros x [->|Hx]%elem_of_cons; [exists (shadow_over old b); rewrite Eo, lookup_insert_eq; done|].
    destruct (Hlv x Hx) as (ob & ? & ?). eauto.
  - intros x ob. rewrite Eo. intros [[<- <-]|[Hne Hx]]%lookup_insert_Some.
    + rewrite cnt_cons_eq. simpl.
      rewrite (occ_zero _ _ HnL), (cnt_zero _ _ HnC). lia.
    + rewrite cnt_cons_ne by done. by apply Hrf.
Qed.

(** Nothing but counters and the objects changed. *)
Definition same_pages (m m' : mm) : Prop :=
  pframes m' = pframes m /\ page_pool m' = page_pool m /\ obj_pool m' = obj_pool m.

Lemma same_pages_trans m m' m'' : same_pages m m' -> same_pages m' m'' -> same_pages m m''.
Proof. unfold same_pages. intros (-> & -> & ->) (-> & -> & ->). done. Qed.

Section steps.
Context `{FileOps}.

Lemma new_shadow_own Ls C old ob b o pool m :
  own Ls C m -> fresh_pool m -> obj_pool m = o :: pool -> objs m !! old = Some ob -> mmo_un ob = mmo_bottom_obj b ->
  exists m', new_shadow (Some old) m = Ret (o, m') /\ own Ls (o :: C) m' /\ ext m m' /\
    obj_pool m' = pool /\ fresh_pool m' /\ objs m !! o = None /\ objs m' !! o = Some (shadow_over old b) /\
    (forall x, x <> o -> objs m' !! x = objs m !! x).
Proof.
  intros Hown [Hnd Hfr] Hp Hold Hun. rewrite Hp in Hnd, Hfr. apply NoDup_cons in Hnd as [Hno Hnd].
  assert (Hn : objs m !! o = None) by (apply Hfr; set_solver).
  assert (Hne : old <> o) by congruence.
  assert (exists m', new_shadow (Some old) m = Ret (o, m') /\ objs m' = <[o := shadow_over old b]> (objs m) /\
    obj_pool m' = pool /\ pframes m' = pframes m /\ page_pool m' = page_pool m /\ alloc_list m' = alloc_list m /\
    pinned_list m' = pinned_list m /\ nallocated m' = nallocated m /\ npinned m' = npinned m)
    as (m' & E & Eo & Epl & Ep & Epp & Ea & Epi & En & Enp).
  { unfold new_shadow, shadow_create, obj_alloc, un_bottom_obj.
    repeat first [rewrite bind_bind | rewrite bind_gets, Hp | rewrite bind_modify | rewrite bind_ret | rewrite bind_deref
      | erewrite bind_eq by (apply obj_set_eq; simpl; by simplify_map_eq)
      | erewrite bind_eq by (apply obj_get_eq; simpl; by simplify_map_eq)]; rewrite Hun.
    repeat first [rewrite bind_bind | rewrite bind_ret
      | erewrite bind_eq by (apply obj_set_eq; simpl; by simplify_map_eq)].
    eexists. split; [reflexivity|]. simpl. split_and!; try done. by rewrite !insert_insert_eq. }
  exists m'. split_and!; [done|by eapply own_add|by eapply ext_add|done| |done|by rewrite Eo, lookup_insert_eq|].
  - unfold fresh_pool. rewrite Epl, Eo. split; [done|]. intros x Hx. rewrite lookup_insert_ne by (by intros ->).
    apply Hfr. set_solver.
  - intros x Hx. by rewrite Eo, lookup_insert_ne.
Qed.

Lemma mmo_ref_inv x ob m m' :
  mmo_ref x m = Ret (tt, m') -> objs m !! x = Some ob -> mmo_ops ob <> Vnode ->
  objs m' = <[x := with_refcount (mmo_refcount ob + 1) ob]> (objs m) /\ same_pages m m'.
Proof.
  intros E Hx Hk. unfold mmo_ref in E. rewrite (bind_eq _ _ _ _ _ (obj_get_eq _ _ _ Hx)) in E.
  destruct (mmo_ops ob) eqn:Ek; [| |done]; unfold anon_ref, shadow_ref in E;
    rewrite (bind_eq _ _ _ _ _ (obj_get_eq _ _ _ Hx)), Ek in E;
    (destruct (0 <? mmo_refcount ob) eqn:Er; [|done]); simpl in E;
    rewrite bind_ret in E;
    [rewrite (bind_eq _ _ _ _ _ (obj_set_eq _ _ _ _ Hx)) in E|rewrite (obj_set_eq _ _ _ _ Hx) in E];
    injection E as <-; by split_and!.
Qed.

(** Incrementing a counter. *)
Lemma ext_ref x ob m m' :
  objs m !! x = Some ob -> objs m' = <[x := with_refcount (mmo_refcount ob + 1) ob]> (objs m) -> same_pages m m' ->
  ext m m' /\ (fresh_pool m -> fresh_pool m').
Proof.
  intros Hx Eo (Ep & Epp & Epl). split.
  - split; [|done|done]. intros y oby Hy. rewrite Eo. destruct (decide (y = x)) as [->|Hne]; simplify_map_eq; eauto 10.
  - intros [Hnd Hfr]. unfold fresh_pool. rewrite Epl, Eo. split; [done|]. intros o Ho. specialize (Hfr o Ho).
    rewrite lookup_insert_ne by congruence. done.
Qed.

Lemma ref_chain_ext fuel : forall o l m m',
  chain m o l -> ref_chain fuel o m = Ret (tt, m') ->
  ext m m' /\ same_pages m m' /\ (fresh_pool m -> fresh_pool m').
Proof.
  induction fuel as [|fuel IH]; intros o l m m' C E; [done|]. simpl in E.
  assert (exists ob, objs m !! o = Some ob /\ mmo_ops ob <> Vnode) as (ob & Ho & Hk).
  { inversion C; subst; eexists; (split; [eassumption|congruence]). }
  unfold bind at 1 in E. destruct (mmo_ref o m) as [[[] m1]|] eqn:Er; [|done].
  destruct (mmo_ref_inv _ _ _ _ Er Ho Hk) as [Eo Hsp].
  destruct (ext_ref _ _ _ _ Ho Eo Hsp) as [Hx Hf].
  rewrite (bind_eq _ _ _ _ _ (obj_get_eq o _ m1 ltac:(rewrite Eo; apply lookup_insert_eq))) in E. simpl in E.
  inversion C as [? ob' Ho' Hs|? ob' o' l' Ho' Hk' Hs C']; simplify_eq; rewrite Hs in E.
  - injection E as <-. done.
  - destruct (IH o' l' m1 m') as (Hx2 & Hsp2 & Hf2); [by eapply ext_chain|done|].
    split_and!; [by eapply ext_trans|by eapply same_pages_trans|auto].
Qed.

Lemma vmas_insert_tail_ext b i ob vs m :
  objs m !! b = Some ob -> mmo_un ob = mmo_vmas vs ->
  exists m', vmas_insert_tail b i m = Ret (tt, m') /\ ext m m' /\ same_pages m m' /\
    (fresh_pool m -> fresh_pool m') /\ (forall Ls C, own Ls C m -> own Ls C m').
Proof.
  intros Hb Hu. unfold vmas_insert_tail. rewrite (bind_eq _ _ _ _ _ (obj_get_eq _ _ _ Hb)), Hu.
  rewrite (obj_set_eq _ _ _ _ Hb). eexists. split; [reflexivity|]. split_and!; [|done| |].
  - split; [|done|done]. simpl. intros y oby Hy. destruct (decide (y = b)) as [->|Hne]; simplify_map_eq; [|eauto 10].
    eexists. split_and!; [done|done|done|]. rewrite Hu. simpl. eauto.
  - intros [Hnd Hfr]. split; [done|]. simpl. intros o Ho. specialize (Hfr o Ho). rewrite lookup_insert_ne by congruence. done.
  - intros Ls C. by apply own_un1.
Qed.
End steps.

(** ** One area *)

(** What [do_fork] expects of an area: a shared one has an object that is no
    shadow object, a private one a shadow object with its bottom object. *)
Definition forkable (m : mm) (a : vmarea) : Prop :=
  if has (vma_flags a) MAP_SHARED
  then exists o ob vs, vma_obj a = Some o /\ objs m !! o = Some ob /\ mmo_ops ob = Anon /\ mmo_un ob = mmo_vmas vs
  else has (vma_flags a) MAP_PRIVATE = true /\ private_obj m a.

Lemma forkable_ext m m' a : ext m m' -> forkable m a -> forkable m' a.
Proof.
  intros E. unfold forkable. case_match.
  - intros (o & ob & vs & Ha & Ho & Hk & Hu). destruct (ex_obj _ _ E _ _ Ho) as (ob' & Ho' & Hk' & _ & Hu').
    rewrite Hu in Hu'. destruct Hu' as [vs' Hu']. exists o, ob', vs'. split_and!; [done|done|congruence|done].
  - intros (Hp & o & ob & b & obb & vs & Ha & Ho & Hu & Hb & Hub). split; [done|].
    destruct (ex_obj _ _ E _ _ Ho) as (ob' & Ho' & _ & _ & Hu').
    destruct (ex_obj _ _ E _ _ Hb) as (obb' & Hb' & _ & _ & Hub'). rewrite Hu in Hu'. rewrite Hub in Hub'.
    destruct Hub' as [vs' Hub']. exists o, ob', b, obb', vs'. by split_and!.
Qed.

(** Area [a] of store [m] has become [p] in the parent and [c] in the child. *)
Definition forked (m m' : mm) (a p c : vmarea) (olp olc : list Z) : Prop :=
  exists o op oc, vma_obj a = Some o /\ p = with_obj (Some op) a /\
    c = with_olink true (with_obj (Some oc) (child_of (vma_id c) a)) /\
    chain m' op olp /\ chain m' oc olc /\
    (forall n d, views m o n d -> views m' op n d /\ views m' oc n d) /\
    (forall ol, chain m o ol -> un_chain m ol -> un_chain m' olp) /\
    if has (vma_flags a) MAP_SHARED then op = o /\ oc = o else (op ∉ olc) /\ (oc ∉ olp).

Lemma forked_ext m0 m m' m2 a p c olp olc :
  ext m0 m -> ext m' m2 -> forked m m' a p c olp olc -> forked m0 m2 a p c olp olc.
Proof.
  intros E0 E2 (o & op & oc & Ha & Hp & Hc & C1 & C2 & V & U & Hm).
  exists o, op, oc. split_and!; [done|done|done|by eapply ext_chain|by eapply ext_chain| |
    intros ol Ch Hu; eapply ext_un_chain; [exact E2|exact C1|]; eapply U; [by eapply ext_chain|by eapply ext_un_chain]|done].
  intros n d Hv. destruct (V n d) as [V1 V2]; [by eapply ext_views|]. split; by eapply ext_views.
Qed.

(** What the loop leaves for one area: parent's area, child's area, and their
    chains. *)
Abbreviation fork_res := (vmarea * vmarea * list Z * list Z)%type (only parsing).
Definition r_parent (r : fork_res) : vmarea := fst (fst (fst r)).
Definition r_child (r : fork_res) : vmarea := snd (fst (fst r)).
Definition r_pchain (r : fork_res) : list Z := snd (fst r).
Definition r_cchain (r : fork_res) : list Z := snd r.

Section area.
Context `{FileOps}.

Definition pool_left (m : mm) : nat := length (obj_pool m).

(** The result of one round on area [a] at the cursor. *)
Definition area_step (l1 l2 : list vmarea) (a : vmarea) (i : Z) (ol : list Z) (Ls : list (list Z)) (s s' : vms) (c : vmarea) : Prop :=
  exists p olp olc, vma_id c = i /\ vmm_list s' = l1 ++ p :: l2 /\ vma_pool s' = vma_pool s /\ ptes s' = ptes s /\
    ext (vmm s) (vmm s') /\ fresh_pool (vmm s') /\ (pool_left (vmm s) <= pool_left (vmm s') + 2)%nat /\
    forked (vmm s) (vmm s') a p c olp olc /\ own (olp :: olc :: Ls) [] (vmm s').

Section body.
Variables (s : vms) (a : vmarea) (l1 l2 : list vmarea) (i : Z) (o : Z) (ol : list Z) (Ls : list (list Z)).
Hypothesis El : vmm_list s = l1 ++ a :: l2.
Hypothesis Hid : NoDup (map vma_id (l1 ++ a :: l2)).
Hypothesis Ha : vma_obj a = Some o.
Hypothesis Ch : chain (vmm s) o ol.
Hypothesis Hown : own (ol :: Ls) [] (vmm s).
Hypothesis Hfresh : fresh_pool (vmm s).

Lemma at_cursor : area_get (vma_id a) s = Ret (a, s).
Proof. unfold area_get. rewrite bind_gets, El, find_area_split; [done|]. by apply ids_split in Hid as [? _]. Qed.

Lemma with_obj_same : with_obj (Some o) a = a.
Proof. clear -Ha. destruct a. simpl in *. by subst. Qed.

Lemma fork_area_shared :
  forkable (vmm s) a -> has (vma_flags a) MAP_SHARED = true ->
  exists s' c, fork_area (vma_id a) (child_of i a) s = Ret (c, s') /\ area_step l1 l2 a i ol Ls s s' c.
Proof.
  intros Hf Hs. unfold forkable in Hf. rewrite Hs in Hf. destruct Hf as (o' & ob & vs & Ha' & Ho & Hk & Hu).
  assert (o' = o) as -> by congruence.
  destruct (own_ref (ol :: Ls) [] o ob (vmm s)) as (m1 & E1 & Hown1 & Eo1); [done|done|congruence|].
  destruct (mmo_ref_inv _ _ _ _ E1 Ho) as [_ Hsp1]; [congruence|].
  destruct (ext_ref _ _ _ _ Ho Eo1 Hsp1) as [Hx1 Hf1].
  destruct (vmas_insert_tail_ext o i (with_refcount (mmo_refcount ob + 1) ob) vs m1) as (m2 & E2 & Hx2 & Hsp2 & Hf2 & Hown2);
    [by rewrite Eo1, lookup_insert_eq|done|].
  assert (ol = [o]) as -> by (inversion Ch; simplify_eq; congruence).
  pose proof (ext_trans _ _ _ Hx1 Hx2) as Hx. pose proof (same_pages_trans _ _ _ Hsp1 Hsp2) as (_ & _ & Epl).
  assert (Ch2 : chain m2 o [o]) by (by eapply ext_chain).
  exists (set_vmm m2 s), (with_olink true (with_obj (Some o) (child_of i a))). split.
  - unfold fork_area. rewrite (bind_eq _ _ _ _ _ at_cursor). simpl. rewrite Z.eqb_refl, Hs, Ha, bind_deref.
    unfold mm_call at 1, zoom at 1. rewrite (bind_eq _ _ _ tt (set_vmm m1 s)) by (by rewrite E1).
    unfold mm_call, zoom. rewrite (bind_eq _ _ _ tt (set_vmm m2 s)) by (simpl; by rewrite E2). done.
  - exists a, [o], [o]. split_and!; try done; [auto|simpl; unfold pool_left; rewrite Epl; lia| |].
    + exists o, o, o. rewrite Hs. split_and!; try done; [by rewrite with_obj_same| |].
      * intros n d V. split; by eapply ext_views.
      * intros ol' Ch' Hu'. rewrite (chain_det _ _ _ _ Ch' Ch) in Hu'. eapply ext_un_chain; [exact Hx|exact Ch|exact Hu'].
    + simpl. apply (own_split _ [] _ o [o]); [done|]. eapply own_chains_perm, own_perm; [reflexivity|reflexivity|].
      simpl. apply Hown2. exact Hown1.
Qed.

Lemma fork_area_private :
  forkable (vmm s) a -> has (vma_flags a) MAP_SHARED = false -> (2 <= pool_left (vmm s))%nat ->
  exists s' c, fork_area (vma_id a) (child_of i a) s = Ret (c, s') /\ area_step l1 l2 a i ol Ls s s' c.
Proof.
  intros Hf Hs Hpool. unfold forkable in Hf. rewrite Hs in Hf. destruct Hf as (Hp & o' & ob & b & obb & vs & Ha' & Ho & Hu & Hb & Hub).
  assert (o' = o) as -> by congruence. unfold pool_left in Hpool.
  destruct (obj_pool (vmm s)) as [|sc [|sp pool]] eqn:Epool; [simpl in Hpool; lia..|].
  destruct (new_shadow_own _ _ o ob b sc (sp :: pool) (vmm s) Hown Hfresh Epool Ho Hu)
    as (m1 & E1 & Hown1 & Hx1 & Ep1 & Hf1 & Hn1 & Hsc & Hsame1).
  assert (Ho1 : objs m1 !! o = Some ob) by (rewrite Hsame1; [done|congruence]).
  destruct (new_shadow_own _ _ o ob b sp pool m1 Hown1 Hf1 Ep1 Ho1 Hu)
    as (m2 & E2 & Hown2 & Hx2 & Ep2 & Hf2 & Hn2 & Hspo & Hsame2).
  assert (Hsc2 : objs m2 !! sc = Some (shadow_over o b)) by (rewrite Hsame2; [done|congruence]).
  assert (Hb1 : objs m1 !! b = Some obb) by (rewrite Hsame1; [done|congruence]).
  assert (Hb2 : objs m2 !! b = Some obb) by (rewrite Hsame2; [done|congruence]).
  destruct (vmas_insert_tail_ext b i obb vs m2 Hb2 Hub) as (m3 & E3 & Hx3 & (_ & _ & Ep3) & Hf3 & Hown3).
  pose proof (ext_trans _ _ _ Hx1 (ext_trans _ _ _ Hx2 Hx3)) as Hx13.
  assert (Ch3 : chain m3 o ol) by (by eapply ext_chain).
  destruct (ref_chain_own (ol :: Ls) [sp; sc] o ol m3 (S (size (objs m3))) Ch3 (Hown3 _ _ Hown2)) as (m4 & E4 & Hown4 & _);
    [pose proof (chain_length _ _ _ Ch3); lia|].
  destruct (ref_chain_ext _ _ _ _ _ Ch3 E4) as (Hx4 & (_ & _ & Ep4) & Hf4).
  pose proof (ext_trans _ _ _ Hx13 Hx4) as Hx.
  assert (Er4 : vma_ref (Some o) m3 = Ret (tt, m4)) by exact E4.
  assert (Hnew : forall x, objs m2 !! x = Some (shadow_over o b) -> objs (vmm s) !! x = None ->
    chain m4 x (x :: ol) /\ (forall n d, views (vmm s) o n d -> views m4 x n d)).
  { intros x Hx2' Hnx. destruct (ex_obj _ _ (ext_trans _ _ _ Hx3 Hx4) _ _ Hx2') as (obx & Hxx & Hkx & Hshx & _).
    simpl in Hkx, Hshx. split; [eapply chain_shadow; [exact Hxx|exact Hkx|exact Hshx|by eapply ext_chain]|]. intros n d V.
    eapply views_up; [|exact Hxx|exact Hshx|by eapply ext_views]. rewrite (ex_pf _ _ Hx).
    destruct (pframes (vmm s) !! (x, n)) as [p|] eqn:Epf; [|done].
    destruct (ok_pf _ (own_ok _ _ _ Hown) _ _ Epf) as (_ & _ & [? ?] & _). simpl in *. congruence. }
  assert (Hns : objs (vmm s) !! sp = None) by (rewrite <- Hsame1 by congruence; done).
  destruct (Hnew sc Hsc2 Hn1) as [Csc Vsc]. destruct (Hnew sp Hspo Hns) as [Csp Vsp].
  assert (Hnol : forall x, objs (vmm s) !! x = None -> x ∉ ol).
  { intros x Hn Hin. destruct (chain_live _ _ _ _ Ch Hin). congruence. }
  assert (Hunp : forall ol', chain (vmm s) o ol' -> un_chain (vmm s) ol' -> un_chain m4 (sp :: ol)).
  { intros ol' C' Hu'. rewrite (chain_det _ _ _ _ C' Ch) in Hu'.
    eapply (ext_un_chain m2 m4 sp); [exact (ext_trans _ _ _ Hx3 Hx4)|eapply chain_shadow; [exact Hspo|done|done|]|].
    { eapply ext_chain; [exact (ext_trans _ _ _ Hx1 Hx2)|exact Ch]. }
    pose proof (ext_un_chain _ _ _ _ (ext_trans _ _ _ Hx1 Hx2) Ch Hu') as Hu2.
    destruct (chain_hd _ _ _ Ch) as [tl Etl].
    assert (Elast : last ol = Some b).
    { specialize (Hu' o ob ltac:(rewrite Etl; set_solver) Ho). rewrite Hu in Hu'. simpl in Hu'. by destruct (mmo_shadowed ob). }
    assert (Elast' : last (sp :: ol) = Some b) by (rewrite Etl in *; exact Elast).
    intros x obx [->|Hxin]%elem_of_cons Hobx; [assert (obx = shadow_over o b) as -> by congruence; rewrite Elast'; done|].
    rewrite (Hu2 _ _ Hxin Hobx), Elast, Elast'. done. }
  exists (set_list (l1 ++ with_obj (Some sp) a :: l2) (set_vmm m4 s)), (with_olink true (with_obj (Some sc) (child_of i a))). split.
  - unfold fork_area. rewrite (bind_eq _ _ _ _ _ at_cursor). simpl. rewrite Z.eqb_refl, Hs, Hp, Ha.
    unfold mm_call, zoom. rewrite (bind_eq _ _ _ sc (set_vmm m1 s)) by (by rewrite E1).
    rewrite (bind_eq _ _ _ sp (set_vmm m2 s)) by (simpl; by rewrite E2).
    erewrite bind_eq by (eapply (area_set_split l1 a l2); [exact El|exact Hid]).
    set (s2 := set_list _ _).
    rewrite (bind_eq _ _ s2 b s2).
    2: { unfold mmobj_bottom_obj, un_bottom_obj. change (vmm s2) with m2.
         rewrite (bind_eq _ _ _ _ _ (obj_get_eq _ _ _ Hsc2)). simpl.
         rewrite (bind_eq _ _ _ _ _ (obj_get_eq _ _ _ Hsc2)). done. }
    rewrite (bind_eq _ _ s2 tt (set_vmm m3 s2)) by (change (vmm s2) with m2; by rewrite E3).
    rewrite (bind_eq _ _ _ tt (set_vmm m4 s2)) by (change (vmm (set_vmm m3 s2)) with m3; by rewrite Er4). done.
  - exists (with_obj (Some sp) a), (sp :: ol), (sc :: ol). split_and!; try done; [by auto|simpl; unfold pool_left; rewrite Ep4, Ep3, Ep2, Epool; simpl; lia| |].
    + exists o, sp, sc. rewrite Hs. simpl. split_and!; try done; [by eauto| |]; intros [Heq|Hin]%elem_of_cons;
        first [congruence|exact (Hnol _ Hns Hin)|exact (Hnol _ Hn1 Hin)].
    + simpl. apply (own_split _ [] _ sp); [done|]. apply (own_split _ _ _ sc); [done|].
      apply (proj1 (own_split _ _ _ o _ (ext_chain _ _ _ _ Hx4 Ch3))) in Hown4. eapply own_perm; [|exact Hown4].
      rewrite reverse_Permutation. rewrite app_nil_r. simpl. solve_Permutation.
Qed.
End body.

(** ** The loop *)

Definition forked_as (m m' : mm) (a : vmarea) (r : fork_res) : Prop :=
  forked m m' a (r_parent r) (r_child r) (r_pchain r) (r_cchain r).

Lemma forked_as_id m m' a r : forked_as m m' a r -> vma_id (r_parent r) = vma_id a.
Proof. by intros (o & op & oc & _ & -> & _). Qed.

Lemma forked_as_ext m0 m m' m2 a r : ext m0 m -> ext m' m2 -> forked_as m m' a r -> forked_as m0 m2 a r.
Proof. apply forked_ext. Qed.

Lemma fork_loop_ok ps : forall l1 ids L Ls s,
  vmm_list s = l1 ++ ps -> NoDup (map vma_id (l1 ++ ps)) -> length ids = length ps ->
  Forall2 (area_obj (vmm s)) ps L -> Forall (forkable (vmm s)) ps -> own (L ++ Ls) [] (vmm s) ->
  fresh_pool (vmm s) -> (2 * length ps <= pool_left (vmm s))%nat ->
  exists s' R, fork_loop (map vma_id ps) (zip_with child_of ids ps) s = Ret (map r_child R, s') /\
    vmm_list s' = l1 ++ map r_parent R /\ map (fun r => vma_id (r_child r)) R = ids /\
    vma_pool s' = vma_pool s /\ ptes s' = ptes s /\ ext (vmm s) (vmm s') /\
    Forall2 (forked_as (vmm s) (vmm s')) ps R /\
    own (map r_pchain R ++ map r_cchain R ++ Ls) [] (vmm s').
Proof.
  induction ps as [|a ps IH]; intros l1 ids L Ls s El Hid Hlen Hob Hfk Hown Hfr Hpool.
  - destruct ids; [|done]. inversion Hob; subst. exists s, []. simpl. split_and!; try done. apply ext_refl.
  - destruct ids as [|i ids]; [done|]. apply Forall2_cons_inv_l in Hob as (ol & L' & (Hlk & o & Ha & Ch) & Hob & ->).
    apply Forall_cons in Hfk as [Hfa Hfk]. simpl in Hown, Hpool.
    assert (exists s1 c, fork_area (vma_id a) (child_of i a) s = Ret (c, s1) /\ area_step l1 ps a i ol (L' ++ Ls) s s1 c)
      as (s1 & c & E1 & p & olp & olc & Hci & El1 & Ep1 & Ept1 & Hx1 & Hfr1 & Hpl1 & Hfk1 & Hown1).
    { destruct (has (vma_flags a) MAP_SHARED) eqn:Hs;
        [by eapply (fork_area_shared _ _ _ _ _ o)|eapply (fork_area_private _ _ _ _ _ o); try done; lia]. }
    destruct (IH (l1 ++ [p]) ids L' (olp :: olc :: Ls) s1) as (s2 & R & E2 & El2 & Eid2 & Ep2 & Ept2 & Hx2 & HR & Hown2).
    + by rewrite El1, <- app_assoc.
    + destruct Hfk1 as (? & ? & ? & _ & -> & _). rewrite <- app_assoc. rewrite map_app in Hid |- *. exact Hid.
    + by simpl in Hlen; lia.
    + eapply Forall2_impl; [exact Hob|]. intros x l (Hl & ox & Hox & Cx). split; [done|]. exists ox. split; [done|]. by eapply ext_chain.
    + eapply Forall_impl; [exact Hfk|]. intros x. by apply forkable_ext.
    + eapply own_chains_perm; [|exact Hown1]. solve_Permutation.
    + done.
    + lia.
    + exists s2, ((p, c, olp, olc) :: R). split_and!.
      * simpl map. simpl zip_with. simpl fork_loop. rewrite (bind_eq _ _ _ _ _ E1), (bind_eq _ _ _ _ _ E2). done.
      * rewrite El2, <- app_assoc. done.
      * simpl. unfold r_child at 1. simpl. by rewrite Hci, Eid2.
      * congruence.
      * congruence.
      * by eapply ext_trans.
      * constructor; [eapply forked_ext; [apply ext_refl|exact Hx2|exact Hfk1]|].
        eapply Forall2_impl; [exact HR|]. intros x r. apply forked_as_ext; [done|apply ext_refl].
      * eapply own_chains_perm; [|exact Hown2]. simpl. unfold r_pchain at 2, r_cchain at 2. simpl. solve_Permutation.
Qed.
End area.

(** ** Theorem *)

(** The parts of an area that say where and how it maps. *)
Definition same_mapping (a b : vmarea) : Prop :=
  vma_start b = vma_start a /\ vma_end b = vma_end a /\ vma_off b = vma_off a /\
  vma_prot b = vma_prot a /\ vma_flags b = vma_flags a.

(** With two free page frames, a store through [x] never shows through [y]. *)
Definition isolated `{FileOps} (m : mm) (x y : Z) : Prop :=
  forall n d' k e, (2 <= page_pool m)%nat -> views m y k e ->
    exists m', pframe_lookup x n true m = Ret (0, Some (x, n), m') /\
      views (store_page (x, n) d' m') x n d' /\ views (store_page (x, n) d' m') y k e.

Lemma isolated_chain `{FileOps} m x y lx ly :
  mm_ok m -> chain m x lx -> chain m y ly -> x ∉ ly -> isolated m x y.
Proof.
  intros Hok Cx Cy Hn n d' k e Hp V. destruct (views_total _ _ n _ Cx) as [d Vx].
  destruct (pframe_lookup_write x n lx d m Hok Cx Vx Hp) as (m' & p & E & G & Hpf & Hd).
  exists m'. split_and!; [done| |].
  - change d' with (pf_data (pf_set_data d' p)) at 2. constructor. unfold store_page. simpl. by simplify_map_eq.
  - eapply store_views; [done|by eapply grow_chain|by right|by eapply grow_views].
Qed.

Lemma own_sub Ls Ls' m : own (Ls ++ Ls') [] m -> own Ls [] m.
Proof.
  intros [H1 H2 H3 H4]. split; try done.
  - intros l Hl. apply H2. set_solver.
  - intros x ob Hx. specialize (H4 _ _ Hx). rewrite occ_app in H4. lia.
Qed.

Lemma areas_ok_same l l' : Forall2 same_mapping l l' -> areas_ok l -> areas_ok l'.
Proof.
  assert (Hb : forall a b l l', same_mapping a b -> Forall2 same_mapping l l' -> Forall (before a) l -> Forall (before b) l').
  { intros a b k k' (S1 & S2 & _) Hk. induction Hk as [|x y k k' (T1 & T2 & _) Hk IH]; [done|].
    intros (Hx & Hr)%Forall_cons. constructor; [pn; lia|by apply IH]. }
  induction 1 as [|a b l l' Hab Hl IH]; [done|]. rewrite !areas_ok_cons. intros (Hu & Hba & Hok).
  split_and!; [|by eapply Hb|auto]. destruct Hab as (? & ? & _). pn. lia.
Qed.

Lemma lookup_same (l l' : list vmarea) v :
  Forall2 same_mapping l l' -> vmmap_lookup l v = None -> vmmap_lookup l' v = None.
Proof.
  induction 1 as [|a b l l' (S1 & S2 & _) Hl IH]; simpl; [done|]. unfold covers. rewrite S1, S2. by case_match.
Qed.

Lemma lookup_forked (Q : vmarea -> fork_res -> Prop) l R v a :
  (forall x r, Q x r -> same_mapping x (r_parent r) /\ same_mapping x (r_child r)) ->
  Forall2 Q l R -> vmmap_lookup l v = Some a ->
  exists r, Q a r /\ vmmap_lookup (map r_parent R) v = Some (r_parent r) /\
    vmmap_lookup (map r_child R) v = Some (r_child r).
Proof.
  intros HQ. induction 1 as [|x r l R Hx Hl IH]; simpl; [done|].
  destruct (HQ _ _ Hx) as [(P1 & P2 & _) (C1 & C2 & _)]. unfold covers. rewrite P1, P2, C1, C2.
  destruct (_ && _); [|done]. intros [= ->]. eauto.
Qed.

Lemma forked_same m m' a r : forked_as m m' a r -> same_mapping a (r_parent r) /\ same_mapping a (r_child r).
Proof. intros (o & op & oc & _ & Hp & Hc & _). rewrite Hp, Hc. done. Qed.

Lemma Forall2_map_r {A B C} (P : A -> C -> Prop) (f : B -> C) l k :
  Forall2 (fun x y => P x (f y)) l k -> Forall2 P l (map f k).
Proof. induction 1; simpl; by constructor. Qed.

(** Chains of the areas after the loop. *)
Lemma forked_objs m m' l R :
  Forall (fun a => vma_olink a = true) l -> Forall2 (forked_as m m') l R ->
  Forall2 (area_obj m') (map r_parent R) (map r_pchain R) /\ Forall2 (area_obj m') (map r_child R) (map r_cchain R).
Proof.
  intros Hl. induction 1 as [|a r l R Hr HR IH]; simpl; [done|]. apply Forall_cons in Hl as [Ha Hl].
  destruct (IH Hl) as [IH1 IH2]. destruct Hr as (o & op & oc & _ & Hp & Hc & Cp & Cc & _ & _).
  split; (constructor; [|done]).
  - split; [by rewrite Hp|]. exists op. by rewrite Hp.
  - split; [by rewrite Hc|]. exists oc. by rewrite Hc.
Qed.

Lemma forked_un m m' l R Ls :
  Forall2 (area_obj m) l Ls -> (forall ol, ol ∈ Ls -> un_chain m ol) -> Forall2 (forked_as m m') l R ->
  forall ol, ol ∈ map r_pchain R -> un_chain m' ol.
Proof.
  intros Hob Hun HR. revert Ls Hob Hun. induction HR as [|a r l R Hr HR IH]; intros Ls Hob Hun; simpl; [by intros ? ?%not_elem_of_nil|].
  apply Forall2_cons_inv_l in Hob as (ola & L' & (_ & o' & Ha' & Ch) & Hob & ->).
  intros ol [->|Hol]%elem_of_cons; [|eapply IH; [exact Hob| |exact Hol]; intros; apply Hun; set_solver].
  destruct Hr as (o & op & oc & Ha & _ & _ & _ & _ & _ & U & _). simplify_eq. eapply U; [exact Ch|]. apply Hun. set_solver.
Qed.

Lemma fork_start (l : list vmarea) (pool : list Z) :
  (length l <= length pool)%nat -> exists ids pool', pool = ids ++ pool' /\ length ids = length l.
Proof. intros Hl. exists (take (length l) pool), (drop (length l) pool). rewrite take_drop, length_take. split; [done|lia]. Qed.

Lemma pt_unmap_all s : pt_unmap_range USER_MEM_LOW USER_MEM_HIGH s = Ret (tt, set_pd (pd_unmapped LOW_PN HIGH_PN (pd s)) s).
Proof.
  assert (USER_MEM_LOW = PN_TO_ADDR LOW_PN /\ USER_MEM_HIGH = PN_TO_ADDR HIGH_PN) as [-> ->] by (vm_compute; done).
  apply pt_unmap_range_eq; pn; lia.
Qed.

(** The areas after the loop, in the parent and in the child. *)
Lemma forked_areas m m' l R :
  areas_ok l -> Forall off_ok l -> Forall2 (forked_as m m') l R ->
  areas_ok (map r_parent R) /\ areas_ok (map r_child R) /\ Forall off_ok (map r_parent R) /\
  map vma_id (map r_parent R) = map vma_id l /\
  (forall v, vmmap_lookup l v = None ->
     vmmap_lookup (map r_parent R) v = None /\ vmmap_lookup (map r_child R) v = None).
Proof.
  intros Hok Hof HR.
  assert (Hsp : Forall2 same_mapping l (map r_parent R)).
  { apply Forall2_map_r. eapply Forall2_impl; [exact HR|]. intros x r Hr. by apply forked_same in Hr as [? _]. }
  assert (Hsc : Forall2 same_mapping l (map r_child R)).
  { apply Forall2_map_r. eapply Forall2_impl; [exact HR|]. intros x r Hr. by apply forked_same in Hr as [_ ?]. }
  split_and!; [by eapply areas_ok_same|by eapply areas_ok_same| | |intros v Hv; split; by eapply lookup_same].
  - clear -Hof Hsp. induction Hsp as [|a b l l' (S1 & S2 & S3 & _) Hl IH]; [done|].
    apply Forall_cons in Hof as [Ha Hof]. constructor; [unfold off_ok in *; lia|auto].
  - clear -HR. induction HR as [|a r l R Hr HR IH]; simpl; [done|]. by rewrite IH, (forked_as_id _ _ _ _ Hr).
Qed.

(** Every entry of the page table belongs to an area, so none is left. *)
Lemma unmapped_all l (pt : gmap Z Z) :
  areas_ok l -> (forall v e, pt !! v = Some e -> exists a, vmmap_lookup l v = Some a) -> unmapped LOW_PN HIGH_PN pt = ∅.
Proof.
  intros Hok Hpt. apply map_empty. intros v. destruct (unmapped LOW_PN HIGH_PN pt !! v) as [e|] eqn:Ev; [|done].
  destruct (Hpt _ _ (unmapped_sub _ _ _ _ _ Ev)) as [a Ha].
  apply lookup_some_in in Ha as [Hin Hr]. destruct Hok as [Hu _]. rewrite Forall_forall in Hu. specialize (Hu a Hin).
  rewrite unmapped_none in Ev; [done|done|done|]. pn. lia.
Qed.

(** C12: copy on write between processes.  [do_fork] gives the child an address
    space with the same areas.  In the parent and in the child, every page maps
    as before the call and shows the contents it had, an area mapped shared
    refers to the very same object in both, and a store by either process into
    a page of a private area is seen by that process and never by the other.
    The parent's page table is emptied, so that its next store faults.  The
    areas of both processes hold one reference to every object of their chains.
    It assumes an area descriptor for each area and two objects for each private
    one (the code does not check these allocations), and the kinds of objects
    the mapping calls give to areas of anonymous memory. *)
Theorem fork_copy_on_write `{FileOps} Ls s :
  vm_inv Ls s -> Forall (forkable (vmm s)) (vmm_list s) -> fresh_pool (vmm s) ->
  (length (vmm_list s) <= length (vma_pool s))%nat ->
  (2 * length (vmm_list s) <= length (obj_pool (vmm s)))%nat ->
  exists cl s' Lp Lc, fork_vm s = Ret (cl, s') /\
    vm_inv Lp s' /\ ptes s' = ∅ /\ areas_ok cl /\ Forall2 (area_obj (vmm s')) cl Lc /\
    own (Lp ++ Lc) [] (vmm s') /\ NoDup (map vma_id (vmm_list s') ++ map vma_id cl ++ vma_pool s') /\
    forall v, match vmmap_lookup (vmm_list s) v with
              | None => vmmap_lookup (vmm_list s') v = None /\ vmmap_lookup cl v = None
              | Some a =>
                  exists p c o op oc, vmmap_lookup (vmm_list s') v = Some p /\ vmmap_lookup cl v = Some c /\
                    same_mapping a p /\ same_mapping a c /\
                    vma_obj a = Some o /\ vma_obj p = Some op /\ vma_obj c = Some oc /\
                    (forall n d, views (vmm s) o n d -> views (vmm s') op n d /\ views (vmm s') oc n d) /\
                    (if has (vma_flags a) MAP_SHARED then op = o /\ oc = o
                     else isolated (vmm s') op oc /\ isolated (vmm s') oc op)
              end.
Proof.
  intros Hinv Hfk Hfr Hvp Hop. pose proof Hinv as [Hok Hid Hof Hown Hob Hunc Hpt].
  destruct (fork_start (vmm_list s) (vma_pool s) Hvp) as (ids & pool & Epool & Hlen).
  set (s1 := set_vpool pool s).
  destruct (fork_loop_ok (vmm_list s) [] ids Ls [] s1) as (s2 & R & E & El & Eids & Ep & Ept & Hx & HR & Hown2);
    try done; [by apply NoDup_app in Hid as (? & _)|by rewrite app_nil_r|].
  rewrite app_nil_r in Hown2. simpl in El.
  assert (Holk : Forall (fun a => vma_olink a = true) (vmm_list s)).
  { clear -Hob. induction Hob as [|a l k L [Ha _] Hl IH]; by constructor. }
  destruct (forked_objs _ _ _ _ Holk HR) as [Hobp Hobc].
  destruct (forked_areas _ _ _ _ Hok Hof HR) as (Hokp & Hokc & Hofp & Eid & Hnone).
  assert (Hnd : NoDup (map vma_id (map r_parent R) ++ map vma_id (map r_child R) ++ vma_pool s2)).
  { rewrite Eid, map_map, Eids, Ep. simpl. by rewrite <- Epool. }
  assert (Hpte : unmapped LOW_PN HIGH_PN (ptes s2) = ∅) by (rewrite Ept; exact (unmapped_all _ _ Hok Hpt)).
  exists (map r_child R), (set_pd (pd_unmapped LOW_PN HIGH_PN (pd s2)) s2), (map r_pchain R), (map r_cchain R). simpl. rewrite El. split_and!; try done.
  - unfold fork_vm. rewrite (bind_eq _ _ _ _ _ (vmmap_clone_eq ids pool s Hok Epool Hlen)), bind_deref, bind_gets.
    change (vmm_list (set_vpool pool s)) with (vmm_list s). rewrite (bind_eq _ _ _ _ _ E).
    rewrite (bind_eq _ _ _ _ _ (pt_unmap_all s2)). done.
  - split; simpl; rewrite ?El; try done; [|by eapply own_sub|by apply (forked_un _ _ _ _ _ Hob Hunc HR)|].
    + eapply sublist_NoDup; [exact Hnd|]. apply sublist_app; [done|]. by apply sublist_inserts_l.
    + intros v e He. change (unmapped LOW_PN HIGH_PN (ptes s2) !! v = Some e) in He. by rewrite Hpte in He.
  - intros v. destruct (vmmap_lookup (vmm_list s) v) as [a|] eqn:Ev; [|by apply Hnone].
    destruct (lookup_forked _ _ _ _ _ (forked_same _ _) HR Ev) as (r & Hr & Lp & Lc). destruct (forked_same _ _ _ _ Hr) as [S1 S2].
    destruct Hr as (o & op & oc & Ha & Hp & Hc & Cp & Cc & V & _ & Hm).
    exists (r_parent r), (r_child r), o, op, oc. split_and!; try done; [by rewrite Hp|by rewrite Hc|].
    destruct (has (vma_flags a) MAP_SHARED); [done|]. destruct Hm as [N1 N2]. pose proof (own_ok _ _ _ Hown2) as Hmm.
    split; by eapply isolated_chain.
Qed.

(** One private area over the shadow object 10. *)
Definition demo_fork : vms :=
  MkVms [MkVma 1 1024 1034 0 3 2 (Some 10) true] [7; 8] (MkPd (<[1029 := 5]> ∅) {[1 := 7]} []) Mmobj.demo true.

Lemma demo_fork_inv : vm_inv [[10; 1]] demo_fork.
Proof.
  split.
  - split; [repeat constructor; discriminate|]. simpl. split; [constructor|done].
  - apply (bool_decide_unpack _). vm_compute. exact I.
  - repeat constructor; vm_compute; discriminate.
  - exact (own_sub [[10; 1]] [[20; 1]] _ demo_own).
  - constructor; [|constructor]. split; [done|]. exists 10. split; [done|exact Mmobj.demo_chain].
  - intros l ->%list_elem_of_singleton x ob Hx Ho;
      (apply elem_of_cons in Hx as [->|Hx]; [|apply list_elem_of_singleton in Hx as ->]);
      vm_compute in Ho; injection Ho as <-; reflexivity.
  - intros v e. unfold demo_fork. simpl. rewrite lookup_insert_Some, lookup_empty.
    intros [[<- _]|[_ He]]; [|discriminate He]. eexists. vm_compute. reflexivity.
Qed.

Lemma fork_copy_on_write_witness :
  exists cl s' p c op oc, @fork_vm no_files demo_fork = Ret (cl, s') /\
    vmmap_lookup (vmm_list s') 1029 = Some p /\ vmmap_lookup cl 1029 = Some c /\
    vma_obj p = Some op /\ vma_obj c = Some oc /\
    views (vmm s') op 5 (page_of 7) /\ views (vmm s') oc 5 (page_of 7) /\ @isolated no_files (vmm s') oc op.
Proof.
  destruct (@fork_copy_on_write no_files [[10; 1]] demo_fork demo_fork_inv)
    as (cl & s' & Lp & Lc & E & _ & _ & _ & _ & _ & _ & Hv).
  - constructor; [|constructor]. split; [reflexivity|].
    exists 10, (MkObj Shadow 1 0 [] (mmo_bottom_obj 1) (Some 1)), 1, (MkObj Anon 3 1 [5] (mmo_vmas []) None), [].
    repeat split; reflexivity.
  - split; [apply (bool_decide_unpack _); vm_compute; exact I|].
    intros o [->|[->|Ho%not_elem_of_nil]%elem_of_cons]%elem_of_cons; [reflexivity|reflexivity|done].
  - simpl. lia.
  - simpl. lia.
  - specialize (Hv 1029). change (vmmap_lookup (vmm_list demo_fork) 1029) with (Some (MkVma 1 1024 1034 0 3 2 (Some 10) true)) in Hv.
    destruct Hv as (p & c & o & op & oc & Hp & Hc & _ & _ & Ho & Hop & Hoc & Hvw & Hiso).
    injection Ho as <-. destruct (Hvw 5 (page_of 7) Mmobj.demo_view) as [V1 V2]. destruct Hiso as [_ Hi].
    exists cl, s', p, c, op, oc. exact (conj E (conj Hp (conj Hc (conj Hop (conj Hoc (conj V1 (conj V2 Hi))))))).
Defined.
