(* ===== verification/ProcFiles.v ===== *)
(** * Open files across fork and exit (proc/fork.c, proc/proc.c)

    The part of [do_fork] that copies the descriptor table and the working
    directory, and the part of [proc_cleanup] that closes them, over the file
    objects of Vfs.v.  The child's table is the result of the copy; it is equal
    to the parent's, so the state of the child as current process is the state
    after the copy. *)

From S2P Require Import Prelude Ramfs Namev Vfs VfsCalls.

Section procfiles.
Context {D : Type} `{!Bytedevs D}.
Implicit Types (s : vfs D).

(** [for (i = 0; i < NFILES; i++)] of [do_fork], [n] slots from [i] on. *)
Fixpoint fork_slots (n : nat) (i : Z) : M (vfs D) (list (option Z)) :=
  match n with
  | O => ret []
  | S n' =>
      let! o := slot_get i in
      match o with Some a => fref a | None => ret tt end ;;;
      let! r := fork_slots n' (i + 1) in
      ret (o :: r)
  end.

(** The descriptor table and the working directory of the child. *)
Definition fork_files : M (vfs D) (list (option Z) * ino) :=
  let! t := fork_slots 32 0 in
  let! c := gets p_cwd in
  on_fs (vref c) ;;;
  ret (t, c).

(** [while (curproc->p_files[fd]) { do_close(fd); fd++; }]; behind the last
    slot the test reads outside the table. *)
Fixpoint close_loop (fuel : nat) (fd : Z) : M (vfs D) unit :=
  match fuel with
  | O => stop Diverge
  | S fuel' =>
      let! o := slot_get fd in
      match o with
      | None => ret tt
      | Some _ => do_close fd ;;; close_loop fuel' (fd + 1)
      end
  end.

Definition exit_files : M (vfs D) unit :=
  close_loop 33 0 ;;;
  let! c := gets p_cwd in
  on_fs (vput c).

(** ** Copying *)

Lemma nfds_cons o l a : nfds (o :: l) a = one_if (o = Some a) + nfds l a.
Proof. unfold nfds, one_if. rewrite filter_cons. case_decide; simpl; lia. Qed.

Lemma fork_slots_ok n : forall i X E s,
  vinv X E s -> 0 <= i -> (Z.to_nat i + n = 32)%nat ->
  exists s', fork_slots n i s = Ret (drop (Z.to_nat i) (p_files s), s') /\
    vinv (fun a => X a + nfds (drop (Z.to_nat i) (p_files s)) a) E s' /\
    p_files s' = p_files s /\ p_cwd s' = p_cwd s.
Proof.
  induction n as [|n IH]; intros i X E s Hinv Hi Hn; pose proof (vi_len _ _ _ Hinv) as Hlen.
  - rewrite drop_ge by lia. exists s. split_and!; [done| |done|done].
    eapply vinv_ext; [|exact Hinv]. intros a. unfold nfds. simpl. lia.
  - assert (Z.to_nat i < length (p_files s))%nat as Hlt by lia.
    apply lookup_lt_is_Some in Hlt as [o Ho]. pose proof (drop_S _ _ _ Ho) as Hd.
    assert (exists s1, (match o with Some a => fref a | None => ret tt end) s = Ret (tt, s1) /\
      vinv (fun a => X a + one_if (o = Some a)) E s1 /\ p_files s1 = p_files s /\ p_cwd s1 = p_cwd s)
      as (s1 & E1 & Hinv1 & Ef1 & Ec1).
    { destruct o as [a|].
      - destruct (vi_slots _ _ _ Hinv _ _ Ho) as [f Hf]. destruct (vi_files _ _ _ Hinv _ _ Hf) as [Hok _].
        pose proof (fo_count _ _ Hok). destruct (fo_vnode _ _ Hok) as (v & Hv & _).
        exists (with_file a (with_count (f_refcount f + 1) f) s). split_and!; [|eapply vinv_ext; [|by apply vinv_used]|done|done].
        + apply fref_eq; [done|by eapply file_asserts_ok|lia|right; by rewrite Hv].
        + intros b. simpl. by rewrite (one_if_ext (b = a) (Some a = Some b)) by naive_solver.
      - exists s. split_and!; [done| |done|done]. eapply vinv_ext; [|exact Hinv]. intros b.
        rewrite one_if_false by done. lia. }
    destruct (IH (i + 1) (fun a => X a + one_if (o = Some a)) E s1 Hinv1) as (s2 & E2 & Hinv2 & Ef2 & Ec2); [lia|lia|].
    replace (Z.to_nat (i + 1)) with (S (Z.to_nat i)) in * by lia. rewrite Ef1 in *.
    exists s2. split_and!; [| |congruence|congruence].
    + simpl. rewrite (bind_slot_get _ _ _ _ Ho), (bind_eq _ _ _ _ _ E1), (bind_eq _ _ _ _ _ E2), Hd. done.
    + eapply vinv_ext; [|exact Hinv2]. intros a. rewrite Hd, nfds_cons. lia.
Qed.

Lemma fork_files_ok X E s :
  vinv X E s ->
  exists s', fork_files s = Ret ((p_files s, p_cwd s), s') /\
    vinv (fun a => X a + nfds (p_files s) a) (fun n => E n + one_if (p_cwd s = n)) s' /\
    p_files s' = p_files s /\ p_cwd s' = p_cwd s.
Proof.
  intros Hinv. destruct (fork_slots_ok 32 0 X E s Hinv) as (s1 & E1 & Hinv1 & Ef & Ec); [lia|done|].
  simpl in E1, Hinv1. rewrite drop_0 in *.
  pose proof (vinv_cwd_refs _ _ _ Hinv1) as Hr. pose proof (vi_fs _ _ _ Hinv1) as Hok.
  destruct (refs_inuse _ _ Hr) as [v Hv].
  assert (Hvr : 0 < vn_refcount v) by (unfold refs in Hr; by rewrite Hv in Hr).
  exists (set_fs (vgot (p_cwd s1) (vfs_fs s1)) s1). split_and!; [|rewrite <- Ec|done|done].
  - unfold fork_files. rewrite (bind_eq _ _ _ _ _ E1), bind_gets.
    rewrite (bind_on_fs _ _ _ tt _ (vref_vgot _ _ _ Hv Hvr)). rewrite Ec. done.
  - destruct Hok as [L HL]. pose proof (step_vgot L _ _ HL (vinv_inode _ _ _ _ Hinv1 Hr)) as [Hok' Hrf Hkd].
    assert (Hpos : forall m, 0 < refs (vfs_fs s1) m -> 0 < refs (vgot (p_cwd s1) (vfs_fs s1)) m).
    { intros m Hm. rewrite Hrf. pose proof (one_if_bounds (m = p_cwd s1)). lia. }
    destruct Hinv1 as [H1 H2 H3 H4 H5 H6 H7 H8]. split; simpl; try done.
    + intros a f Ha. destruct (H4 _ _ Ha) as [Hf Hc]. split; [|done]. destruct (fo_vnode _ _ Hf) as (n & Hn & Hp & _).
      eapply file_ok_fs; [done|by apply Hpos|by apply Hkd; [|apply Hpos]|done].
    + intros n. rewrite Hrf, H5. rewrite (one_if_ext (n = p_cwd s1) (p_cwd s1 = n)) by naive_solver. lia.
    + rewrite Hkd; [done|done|by apply Hpos].
    + destruct H7 as (HX & HE & HR). split_and!; [done|intros n; pose proof (one_if_bounds (p_cwd s1 = n)); specialize (HE n); lia|].
      pose proof (one_if_bounds (p_cwd s1 = fs_root)). lia.
Qed.

(** ** Closing *)

Lemma fd_small i : 0 <= i -> (Z.to_nat i < 32)%nat -> bad_fd i = false.
Proof. intros H1 H2. unfold bad_fd, NFILES. apply orb_false_iff. rewrite Z.ltb_ge, Z.leb_gt. lia. Qed.

Lemma close_loop_ok n : forall i fuel X E s,
  vinv X E s -> 0 <= i -> (n < fuel)%nat ->
  (forall j, (Z.to_nat i <= j < Z.to_nat i + n)%nat -> exists a, p_files s !! j = Some (Some a)) ->
  p_files s !! (Z.to_nat i + n)%nat = Some None ->
  exists s', close_loop fuel i s = Ret (tt, s') /\ vinv X E s' /\ p_cwd s' = p_cwd s /\
    forall j, p_files s' !! j = if decide (Z.to_nat i <= j < Z.to_nat i + n)%nat then Some None else p_files s !! j.
Proof.
  induction n as [|n IH]; intros i fuel X E s Hinv Hi Hfuel Hop Hend; (destruct fuel as [|fuel]; [lia|]).
  - rewrite Nat.add_0_r in Hend. exists s. simpl. rewrite (bind_slot_get _ _ _ _ Hend).
    split_and!; [done|done|done|]. intros j. by rewrite decide_False by lia.
  - destruct (Hop (Z.to_nat i)) as [a Ha]; [lia|]. destruct (vi_slots _ _ _ Hinv _ _ Ha) as [f Hf].
    apply lookup_lt_Some in Ha as Hlt. rewrite (vi_len _ _ _ Hinv) in Hlt.
    destruct (do_close_ok X E s i a f Hinv) as (s1 & E1 & Hinv1 & Ef1 & Ec1 & _); [split; [by apply fd_small|done]|].
    assert (Hne : forall j, j <> Z.to_nat i -> p_files s1 !! j = p_files s !! j).
    { intros j Hj. by rewrite Ef1, list_lookup_insert_ne. }
    destruct (IH (i + 1) fuel X E s1) as (s2 & E2 & Hinv2 & Ec2 & Ef2); [done|lia|lia| | |].
    + intros j Hj. rewrite Hne by lia. apply Hop. lia.
    + rewrite Hne by lia. by replace (Z.to_nat (i + 1) + n)%nat with (Z.to_nat i + S n)%nat by lia.
    + exists s2. simpl. rewrite (bind_slot_get _ _ _ _ Ha), (bind_eq _ _ _ _ _ E1). split_and!; [done|done|congruence|].
      intros j. rewrite Ef2. replace (Z.to_nat (i + 1)) with (S (Z.to_nat i)) by lia.
      destruct (decide (j = Z.to_nat i)) as [->|Hj].
      * rewrite decide_False by lia. rewrite decide_True by lia. rewrite Ef1.
        apply list_lookup_insert_eq. by rewrite (vi_len _ _ _ Hinv).
      * rewrite Hne by done. by rewrite (decide_ext _ (Z.to_nat i <= j < Z.to_nat i + S n)%nat) by lia.
Qed.

Lemma close_loop_full n : forall i fuel X E s,
  vinv X E s -> 0 <= i -> (Z.to_nat i + n = 32)%nat -> (n < fuel)%nat ->
  (forall j, (Z.to_nat i <= j < 32)%nat -> exists a, p_files s !! j = Some (Some a)) ->
  close_loop fuel i s = Stop Undef.
Proof.
  induction n as [|n IH]; intros i fuel X E s Hinv Hi Hn Hfuel Hop; (destruct fuel as [|fuel]; [lia|]); simpl.
  - unfold slot_get. rewrite bind_bind, bind_gets, lookup_ge_None_2 by (rewrite (vi_len _ _ _ Hinv); lia). done.
  - destruct (Hop (Z.to_nat i)) as [a Ha]; [lia|]. destruct (vi_slots _ _ _ Hinv _ _ Ha) as [f Hf].
    destruct (do_close_ok X E s i a f Hinv) as (s1 & E1 & Hinv1 & Ef1 & _); [split; [apply fd_small; lia|done]|].
    rewrite (bind_slot_get _ _ _ _ Ha), (bind_eq _ _ _ _ _ E1). apply (IH _ _ X E); [done|lia|lia|lia|].
    intros j Hj. rewrite Ef1, list_lookup_insert_ne by lia. apply Hop. lia.
Qed.

(** The slots from the first free one on are left alone. *)
Lemma nfds_none l k a :
  (forall j, (j < k)%nat -> l !! j = Some None \/ l !! j = None) -> nfds l a = nfds (drop k l) a.
Proof.
  revert k. induction l as [|o l IH]; intros [|k] Hn; simpl; try done.
  rewrite nfds_cons. destruct (Hn 0%nat ltac:(lia)) as [[= ->]|?]; [|done]. rewrite one_if_false by done.
  rewrite (IH k); [lia|]. intros j Hj. apply (Hn (S j)). lia.
Qed.

Lemma exit_files_ok X E s k :
  vinv X E s -> lowest_free s k ->
  exists s', exit_files s = Ret (tt, s') /\ ramfs_ok (vfs_fs s') /\
    (forall j, p_files s' !! j = if decide (j < Z.to_nat k)%nat then Some None else p_files s !! j) /\
    (forall a f, file_objs s' !! a = Some f -> 1 <= f_refcount f /\ f_refcount f = nfds (drop (Z.to_nat k) (p_files s)) a + X a) /\
    (forall a, file_objs s' !! a = None -> nfds (drop (Z.to_nat k) (p_files s)) a = 0 /\ X a = 0) /\
    (forall n, refs (vfs_fs s') n = users (file_objs s') n + E n).
Proof.
  intros Hinv (Hb & Hk & Hlt). pose proof (lookup_lt_Some _ _ _ Hk) as Hl. rewrite (vi_len _ _ _ Hinv) in Hl.
  destruct (close_loop_ok (Z.to_nat k) 0 33 X E s Hinv) as (s1 & E1 & Hinv1 & Ec1 & Ef1); [lia|lia| |done|].
  { intros j Hj. apply Hlt. simpl in Hj. lia. }
  simpl in Ef1.
  assert (Ef : forall j, p_files s1 !! j = if decide (j < Z.to_nat k)%nat then Some None else p_files s !! j).
  { intros j. rewrite Ef1. by rewrite (decide_ext _ (j < Z.to_nat k)%nat) by lia. }
  assert (Hdrop : drop (Z.to_nat k) (p_files s1) = drop (Z.to_nat k) (p_files s)).
  { apply list_eq. intros j. rewrite !lookup_drop, Ef. by rewrite decide_False by lia. }
  assert (Hnf : forall a, nfds (p_files s1) a = nfds (drop (Z.to_nat k) (p_files s)) a).
  { intros a. rewrite <- Hdrop. apply nfds_none. intros j Hj. left. by rewrite Ef, decide_True. }
  pose proof (vinv_cwd_refs _ _ _ Hinv1) as Hr. destruct (vi_ext _ _ _ Hinv1) as (HX & HE & HR).
  destruct (vput_ok (vfs_fs s1) (p_cwd s1) (vi_fs _ _ _ Hinv1) Hr) as (r & Ep & Hok & Hrf & _).
  { intros Hroot. rewrite (vi_refs _ _ _ Hinv1). rewrite one_if_true by done.
    pose proof (users_nonneg (file_objs s1) (p_cwd s1)). rewrite Hroot. rewrite Hroot in *. lia. }
  exists (set_fs r s1). split_and!; [|done|done| | |].
  - unfold exit_files. rewrite (bind_eq _ _ _ _ _ E1), bind_gets. unfold on_fs, zoom. by rewrite Ep.
  - intros a f Ha. destruct (vi_files _ _ _ Hinv1 _ _ Ha) as [Hf Hc]. rewrite <- Hnf. split; [apply Hf|done].
  - intros a Ha. split; [|by apply (vi_none _ _ _ Hinv1)]. rewrite <- Hnf. apply nfds_zero. intros i Hi.
    destruct (vi_slots _ _ _ Hinv1 _ _ Hi) as [f Hf]. simpl in Ha. congruence.
  - intros n. simpl. rewrite Hrf, (vi_refs _ _ _ Hinv1). rewrite (one_if_ext (p_cwd s1 = n) (n = p_cwd s1)) by naive_solver. lia.
Qed.

(** ** Theorems *)

(** what an exiting process does to its open files.  [proc_cleanup] closes
    the descriptors below the first free one and gives up the working
    directory; the descriptors above a gap stay open for ever, each keeping
    its reference on the file object.  When all 32 descriptors are open the
    loop reads behind the table. *)
Theorem exit_files_cases X E s :
  vinv X E s ->
  (forall k, lowest_free s k ->
     exists s', exit_files s = Ret (tt, s') /\ ramfs_ok (vfs_fs s') /\
       (forall j, p_files s' !! j = if decide (j < Z.to_nat k)%nat then Some None else p_files s !! j) /\
       (forall a f, file_objs s' !! a = Some f -> 1 <= f_refcount f /\ f_refcount f = nfds (drop (Z.to_nat k) (p_files s)) a + X a) /\
       (forall a, file_objs s' !! a = None -> nfds (drop (Z.to_nat k) (p_files s)) a = 0 /\ X a = 0) /\
       (forall n, refs (vfs_fs s') n = users (file_objs s') n + E n)) /\
  (all_used s -> exit_files s = Stop Undef).
Proof.
  intros Hinv. split; [intros k Hk; by apply exit_files_ok|]. intros Hall. unfold exit_files, bind.
  rewrite (close_loop_full 32 0 33 X E s Hinv); [done|lia|done|lia|].
  intros j Hj. assert (j < length (p_files s))%nat as Hl by (rewrite (vi_len _ _ _ Hinv); lia).
  apply lookup_lt_is_Some in Hl as [[a|] Ho]; [by exists a|]. by apply Hall in Ho.
Qed.

(** a fork and the child's exit.  The child gets the parent's descriptor
    table and working directory, and when it exits without having opened or
    closed anything, every file object is referenced as often as before the
    fork, plus once for each descriptor that lies above the first free one:
    none when the table has no gap. *)
Theorem fork_exit_files X E s k :
  vinv X E s -> lowest_free s k ->
  exists s1 s2, fork_files s = Ret ((p_files s, p_cwd s), s1) /\
    p_files s1 = p_files s /\ p_cwd s1 = p_cwd s /\
    (forall a f, file_objs s1 !! a = Some f -> f_refcount f = 2 * nfds (p_files s) a + X a) /\
    exit_files s1 = Ret (tt, s2) /\
    (forall a, match file_objs s !! a with
               | Some f => exists g, file_objs s2 !! a = Some g /\
                             f_refcount g = f_refcount f + nfds (drop (Z.to_nat k) (p_files s)) a
               | None => file_objs s2 !! a = None
               end) /\
    (forall n, refs (vfs_fs s2) n = users (file_objs s2) n + one_if (p_cwd s = n) + E n).
Proof.
  intros Hinv Hk. destruct (fork_files_ok X E s Hinv) as (s1 & E1 & Hinv1 & Ef1 & Ec1).
  assert (Hk1 : lowest_free s1 k) by (unfold lowest_free in *; by rewrite Ef1).
  destruct (exit_files_ok _ _ s1 k Hinv1 Hk1) as (s2 & E2 & _ & _ & Hf2 & Hn2 & Hr2). rewrite Ef1 in Hf2, Hn2.
  exists s1, s2. split_and!; [done|done|done| |done| |].
  - intros a f Ha. destruct (vi_files _ _ _ Hinv1 _ _ Ha) as [_ Hc]. rewrite Ef1 in Hc. lia.
  - intros a. destruct (file_objs s !! a) as [f|] eqn:Ha.
    + destruct (vi_files _ _ _ Hinv _ _ Ha) as [Hf Hc]. pose proof (fo_count _ _ Hf).
      destruct (file_objs s2 !! a) as [g|] eqn:Hg; [|destruct (Hn2 a Hg); lia].
      exists g. split; [done|]. destruct (Hf2 _ _ Hg). lia.
    + destruct (file_objs s2 !! a) as [g|] eqn:Hg; [|done]. destruct (Hf2 _ _ Hg) as [H1 H2].
      assert (Hz : nfds (p_files s) a = 0).
      { apply nfds_zero. intros i Hi. destruct (vi_slots _ _ _ Hinv _ _ Hi). congruence. }
      pose proof (vi_none _ _ _ Hinv _ Ha) as HX.
      assert (nfds (drop (Z.to_nat k) (p_files s)) a = 0).
      { apply nfds_zero. intros i Hi. rewrite lookup_drop in Hi. destruct (vi_slots _ _ _ Hinv _ _ Hi). congruence. }
      lia.
  - intros n. rewrite Hr2. lia.
Qed.
End procfiles.

#[local] Existing Instance no_devices.

Lemma ex_open_free : lowest_free ex_open 1.
Proof. split_and!; [done|by vm_compute|]. intros [|i] Hi; [exists 1; by vm_compute|simpl in Hi; lia]. Qed.

Lemma exit_files_cases_witness : exists s', exit_files ex_open = Ret (tt, s') /\ file_objs s' = ∅.
Proof.
  destruct (exit_files_cases _ _ ex_open ex_open_ok) as [H _].
  destruct (H 1 ex_open_free) as (s' & E & _ & _ & Hf & _). exists s'. split; [exact E|].
  apply map_empty. intros a. destruct (file_objs s' !! a) as [f|] eqn:Ha; [|done]. exfalso.
  destruct (Hf a f Ha) as [H1 H2]. change (nfds (drop (Z.to_nat 1) (p_files ex_open)) a) with (nfds (drop 1 (p_files ex_open)) a) in H2.
  assert (Hd : drop 1 (p_files ex_open) = replicate 31 None) by by vm_compute. rewrite Hd in H2.
  rewrite (nfds_zero (replicate 31 None) a) in H2; [lia|]. intros i Hi. apply lookup_replicate in Hi as [Hi _]. discriminate Hi.
Defined.

Lemma fork_exit_files_witness :
  exists s1 s2, fork_files ex_open = Ret ((p_files ex_open, p_cwd ex_open), s1) /\ exit_files s1 = Ret (tt, s2) /\
    (f_refcount <$> file_objs s2 !! 1) = Some 1.
Proof.
  destruct (fork_exit_files _ _ ex_open 1 ex_open_ok ex_open_free) as (s1 & s2 & E1 & _ & _ & _ & E2 & Hf & _).
  exists s1, s2. split; [exact E1|]. split; [exact E2|]. specialize (Hf 1).
  destruct ex_file_fd as (_ & _ & Hx). rewrite Hx in Hf. destruct Hf as (g & Hg & Hc). rewrite Hg. simpl. rewrite Hc. by vm_compute.
Defined.
