(* ===== verification/Proc.v ===== *)
(** * Processes and their threads (proc/proc.c, proc/kthread.c)

    The process table: process identifiers, the tree of parents and children,
    exit, waiting for children, cancellation.  A process descriptor is named by
    a number; the first one the slab allocator hands out is the idle process's
    and has number 0 (the scheduler only asks whether a thread belongs to that
    process).  The [p_wait] queue of a process is the scheduler's queue with a
    negative number.  The scheduler is that of Sched.v.

    As there, a call that blocks is modelled up to and including the switch to
    the next thread.  [do_waitpid] goes on after it is woken up; what its
    blocked caller will do then is kept in [k_wait], the part of that thread's
    stack that matters, and [waitpid_resume] is the code behind the sleep.

    What creating and destroying a process does to memory and files is the
    interface [KernelRest]. *)

From S2P Require Import Prelude Sched.

Inductive p_states : Type :=
| PROC_RUNNING
| PROC_DEAD.

#[export] Instance p_states_eq_dec : EqDecision p_states.
Proof. solve_decision. Defined.

Record proc : Type := MkProc {
  p_pid : Z;
  p_comm : list Z;
  p_threads : list tid;
  p_children : list Z;
  p_pproc : option Z;
  p_status : Z;
  p_state : p_states;
  p_pagedir : option Z
}.

Definition PID_INIT : Z := 1.
Definition PROC_MAX_COUNT : Z := 65536.
Definition PROC_NAME_LEN : nat := 256.

(** [strncpy(p->p_comm, name, PROC_NAME_LEN)] with the last byte cleared. *)
Definition comm_of (name : list Z) : list Z := take (PROC_NAME_LEN - 1) name.
Arguments comm_of : simpl never.

Definition with_threads (l : list tid) (P : proc) : proc :=
  MkProc (p_pid P) (p_comm P) l (p_children P) (p_pproc P) (p_status P) (p_state P) (p_pagedir P).
Definition with_children (l : list Z) (P : proc) : proc :=
  MkProc (p_pid P) (p_comm P) (p_threads P) l (p_pproc P) (p_status P) (p_state P) (p_pagedir P).
Definition with_parent (o : option Z) (P : proc) : proc :=
  MkProc (p_pid P) (p_comm P) (p_threads P) (p_children P) o (p_status P) (p_state P) (p_pagedir P).
Definition with_status (z : Z) (P : proc) : proc :=
  MkProc (p_pid P) (p_comm P) (p_threads P) (p_children P) (p_pproc P) z (p_state P) (p_pagedir P).
Definition with_pstate (x : p_states) (P : proc) : proc :=
  MkProc (p_pid P) (p_comm P) (p_threads P) (p_children P) (p_pproc P) (p_status P) x (p_pagedir P).

(** [thr->kt_proc = p]. *)
Definition with_proc (p : Z) (T : kthread) : kthread :=
  MkThread (kt_state T) (kt_cancelled T) (kt_wchan T) (kt_qlink T) (kt_retval T) (kt_errno T)
    p (kt_kstack T) (kt_ipl T).

(** A call of [do_waitpid] that sleeps: for any child, or for the child [p];
    the flag says that the caller passed a place for the status. *)
Inductive wait_call : Type :=
| WaitAny (st : bool)
| WaitPid (p : Z) (st : bool).

(** The parts of the kernel a process uses: page directories
    (mm/pagetable.c), address spaces (vm/vmmap.c), open files and working
    directory ([proc_cleanup]'s loop and [vput], see ProcFiles.v), what [do_fork]
    copies from the parent to the child (Fork.v and ProcFiles.v), kernel stacks
    ([alloc_stack] on mm/page.c).  None of them gives up the processor. *)
Class KernelRest (R : Type) : Type := {
  pt_create_pagedir : M R (option Z);
  pt_destroy_pagedir : Z -> M R unit;
  vmmap_create_for : Z -> M R unit;
  vmmap_destroy_of : Z -> M R unit;
  release_files_of : Z -> M R unit;
  fork_vm_of : Z -> Z -> M R unit;
  fork_files_of : Z -> Z -> M R unit;
  alloc_stack : M R (option Z);
  free_stack : Z -> M R unit
}.

Record ktab {R : Type} : Type := MkK {
  k_sched : sys;
  procs : gmap Z proc;
  _proc_list : list Z;
  next_pid : Z;
  proc_initproc : option Z;
  proc_allocator : list Z;
  kthread_allocator : list Z;
  k_wait : gmap tid wait_call;
  k_rest : R
}.
Arguments ktab : clear implicits.

(** The queue for wait(2) inside the descriptor [a]. *)
Definition p_wait (a : Z) : qid := - (a + 1).

Section proc.
Context {R : Type} `{!KernelRest R}.
Implicit Types (s : ktab R) (a t : Z).

Definition set_sched (x : sys) s : ktab R :=
  MkK R x (procs s) (_proc_list s) (next_pid s) (proc_initproc s) (proc_allocator s) (kthread_allocator s) (k_wait s) (k_rest s).
Definition set_procs (x : gmap Z proc) s : ktab R :=
  MkK R (k_sched s) x (_proc_list s) (next_pid s) (proc_initproc s) (proc_allocator s) (kthread_allocator s) (k_wait s) (k_rest s).
Definition set_plist (x : list Z) s : ktab R :=
  MkK R (k_sched s) (procs s) x (next_pid s) (proc_initproc s) (proc_allocator s) (kthread_allocator s) (k_wait s) (k_rest s).
Definition set_next (x : Z) s : ktab R :=
  MkK R (k_sched s) (procs s) (_proc_list s) x (proc_initproc s) (proc_allocator s) (kthread_allocator s) (k_wait s) (k_rest s).
Definition set_init (x : option Z) s : ktab R :=
  MkK R (k_sched s) (procs s) (_proc_list s) (next_pid s) x (proc_allocator s) (kthread_allocator s) (k_wait s) (k_rest s).
Definition set_pslab (x : list Z) s : ktab R :=
  MkK R (k_sched s) (procs s) (_proc_list s) (next_pid s) (proc_initproc s) x (kthread_allocator s) (k_wait s) (k_rest s).
Definition set_tslab (x : list Z) s : ktab R :=
  MkK R (k_sched s) (procs s) (_proc_list s) (next_pid s) (proc_initproc s) (proc_allocator s) x (k_wait s) (k_rest s).
Definition set_wait (x : gmap tid wait_call) s : ktab R :=
  MkK R (k_sched s) (procs s) (_proc_list s) (next_pid s) (proc_initproc s) (proc_allocator s) (kthread_allocator s) x (k_rest s).
Definition set_rest (x : R) s : ktab R :=
  MkK R (k_sched s) (procs s) (_proc_list s) (next_pid s) (proc_initproc s) (proc_allocator s) (kthread_allocator s) (k_wait s) x.

Definition on_sched {A} (m : M sys A) : M (ktab R) A := zoom k_sched set_sched m.
Definition on_rest {A} (m : M R A) : M (ktab R) A := zoom k_rest set_rest m.
Definition get_curproc : M (ktab R) Z := gets (fun s => curproc (k_sched s)).
Definition get_curthr : M (ktab R) tid := gets (fun s => curthr (k_sched s)).
Definition proc_get a : M (ktab R) proc := let! o := gets (fun s => procs s !! a) in deref o.
Definition proc_set a (f : proc -> proc) : M (ktab R) unit :=
  let! P := proc_get a in modify (fun s => set_procs (<[a := f P]> (procs s)) s).

(** ** Process identifiers *)

Definition has_pid (m : gmap Z proc) (pid : Z) a : bool :=
  match m !! a with Some P => p_pid P =? pid | None => false end.

Definition proc_lookup (pid : Z) : M (ktab R) (option Z) :=
  gets (fun s => List.find (has_pid (procs s) pid) (_proc_list s)).

Fixpoint getid_loop (fuel : nat) (pid : Z) : M (ktab R) Z :=
  match fuel with
  | O => stop Diverge
  | S fuel' =>
      let! used := gets (fun s => existsb (has_pid (procs s) pid) (_proc_list s)) in
      if used then
        let pid' := (pid + 1) mod PROC_MAX_COUNT in
        let! first := gets next_pid in
        if pid' =? first then ret (-1) else getid_loop fuel' pid'
      else
        modify (set_next ((pid + 1) mod PROC_MAX_COUNT)) ;;;
        ret pid
  end.

Definition _proc_getid : M (ktab R) Z :=
  let! pid := gets next_pid in getid_loop (Z.to_nat PROC_MAX_COUNT) pid.

(** ** Creation *)

Definition slab_proc : M (ktab R) Z :=
  let! l := gets proc_allocator in
  match l with [] => stop Undef | a :: l' => modify (set_pslab l') ;;; ret a end.

Definition proc_create (name : list Z) : M (ktab R) Z :=
  let! new := slab_proc in
  modify (fun s => set_procs (<[new := MkProc 0 [] [] [] None 0 PROC_RUNNING None]> (procs s)) s) ;;;
  let! pid := _proc_getid in
  let! l := gets _proc_list in
  KASSERT (negb (pid =? PID_IDLE) || match l with [] => true | _ => false end) ;;;
  let! cur := get_curproc in
  (if pid =? PID_INIT then
     let! C := proc_get cur in
     KASSERT (p_pid C =? PID_IDLE) ;;;
     modify (set_init (Some new))
   else ret tt) ;;;
  let parent := if PID_IDLE <? pid then Some cur else None in
  on_sched (sched_queue_init (p_wait new)) ;;;
  let! pd := on_rest pt_create_pagedir in
  proc_set new (fun _ => MkProc pid (comm_of name) [] [] parent 0 PROC_RUNNING pd) ;;;
  modify (fun s => set_plist (_proc_list s ++ [new]) s) ;;;
  on_rest (vmmap_create_for new) ;;;
  match parent with
  | Some b => proc_set b (fun Q => with_children (p_children Q ++ [new]) Q)
  | None => ret tt
  end ;;;
  ret new.

Definition slab_thread : M (ktab R) (option tid) :=
  let! l := gets kthread_allocator in
  match l with [] => ret None | t :: l' => modify (set_tslab l') ;;; ret (Some t) end.

(** [context_setup]: the arguments are written to the top of the stack, which
    starts the thread at IPL_LOW. *)
Definition context_setup (pd kstack : option Z) : M (ktab R) Z :=
  KASSERT (bool_decide (is_Some pd)) ;;;
  deref kstack.

Definition kthread_create (p : Z) : M (ktab R) tid :=
  let! k1 := slab_thread in
  let! kstack1 := on_rest alloc_stack in
  let! P := proc_get p in
  let! kstack := context_setup (p_pagedir P) kstack1 in
  let! k := deref k1 in
  on_sched (modify (set_threads <[k := MkThread KT_RUN 0 None None 0 0 p kstack IPL_LOW]>)) ;;;
  proc_set p (fun P => with_threads (p_threads P ++ [k]) P) ;;;
  ret k.

(** The copy keeps every field but the stack, also the links of the lists the
    original is on. *)
Definition kthread_clone (thr : tid) : M (ktab R) tid :=
  let! k1 := slab_thread in
  let! T := on_sched (thr_get thr) in
  let! k := deref k1 in
  let! kstack1 := on_rest alloc_stack in
  on_sched (modify (set_threads <[k := with_kstack (default 0 kstack1) T]>)) ;;;
  on_sched (sched_make_runnable k) ;;;
  ret k.

(** The process half of [do_fork].  The new thread starts in [userland_entry],
    which sets IPL_LOW; [fork_setup_stack] writes to its stack. *)
Definition do_fork : M (ktab R) Z :=
  let! me := get_curproc in
  let! P := proc_get me in
  KASSERT (bool_decide (p_state P = PROC_RUNNING)) ;;;
  let! child := proc_create [99; 104; 105; 108; 100; 95; 112; 114; 111; 99] in
  on_rest (fork_vm_of me child) ;;;
  let! thr := get_curthr in
  let! k := kthread_clone thr in
  on_sched (thr_set k (with_proc child)) ;;;
  let! T := on_sched (thr_get k) in
  (if kt_kstack T =? 0 then stop Undef else ret tt) ;;;
  on_sched (thr_set k (with_ipl IPL_LOW)) ;;;
  proc_set child (fun C => with_threads (p_threads C ++ [k]) C) ;;;
  on_rest (fork_files_of me child) ;;;
  let! C := proc_get child in
  ret (p_pid C).

Definition kthread_destroy t : M (ktab R) unit :=
  let! T := on_sched (thr_get t) in
  KASSERT (negb (kt_kstack T =? 0)) ;;;
  on_rest (free_stack (kt_kstack T)) ;;;
  proc_set (kt_proc T) (fun P => with_threads (filter (fun u => u <> t) (p_threads P)) P) ;;;
  on_sched (modify (set_threads (delete t))) ;;;
  modify (fun s => set_tslab (t :: kthread_allocator s) s).

(** ** Exit *)

(** The loop over the children in [proc_cleanup]. *)
Fixpoint reparent (me init : Z) (l : list Z) : M (ktab R) unit :=
  match l with
  | [] => ret tt
  | c :: l' =>
      proc_set c (with_parent (Some init)) ;;;
      proc_set me (fun P => with_children (filter (fun x => x <> c) (p_children P)) P) ;;;
      proc_set init (fun P => with_children (p_children P ++ [c]) P) ;;;
      reparent me init l'
  end.

Definition proc_cleanup (evs : list intr) (status : Z) : M (ktab R) unit :=
  let! i := gets proc_initproc in
  KASSERT (bool_decide (is_Some i)) ;;;
  let! init := deref i in
  let! me := get_curproc in
  let! P := proc_get me in
  KASSERT (1 <=? p_pid P) ;;;
  KASSERT (bool_decide (is_Some (p_pproc P))) ;;;
  let! parent := deref (p_pproc P) in
  on_rest (vmmap_destroy_of me) ;;;
  proc_get parent ;;;
  on_sched (sched_wakeup_on (p_wait parent)) ;;;
  on_rest (release_files_of me) ;;;
  (if negb (p_pid P =? 1) then reparent me init (p_children P) else ret tt) ;;;
  proc_set me (with_status status) ;;;
  proc_set me (with_pstate PROC_DEAD) ;;;
  on_sched (sched_switch evs).

(** The [sched_switch] behind [proc_cleanup] is never reached: the thread is on
    no queue any more. *)
Definition proc_thread_exited (evs : list intr) (retval : Z) : M (ktab R) unit :=
  let! me := get_curproc in
  let! P := proc_get me in
  if negb (p_pid P =? 0) && negb (retval =? 0) then proc_cleanup evs (s32 retval)
  else proc_cleanup evs 0.

Definition kthread_exit (evs : list intr) (retval : Z) : M (ktab R) unit :=
  let! me := get_curthr in
  let! T := on_sched (thr_get me) in
  KASSERT (bool_decide (kt_wchan T = None)) ;;;
  KASSERT (bool_decide (kt_qlink T = None)) ;;;
  let! cp := get_curproc in
  KASSERT (kt_proc T =? cp) ;;;
  on_sched (thr_set me (with_retval retval)) ;;;
  on_sched (thr_set me (with_state KT_EXITED)) ;;;
  proc_thread_exited evs retval.

(** The value says whether the caller is gone. *)
Definition kthread_cancel (evs : list intr) t (retval : Z) : M (ktab R) bool :=
  let! me := get_curthr in
  if t =? me then kthread_exit evs retval ;;; ret true
  else
    on_sched (thr_set t (with_cancelled 1)) ;;;
    on_sched (thr_set t (with_retval retval)) ;;;
    let! T := on_sched (thr_get t) in
    (if bool_decide (kt_state T = KT_SLEEP_CANCELLABLE) then on_sched (sched_cancel t) else ret tt) ;;;
    ret false.

Fixpoint cancel_all (evs : list intr) (l : list tid) (status : Z) : M (ktab R) bool :=
  match l with
  | [] => ret false
  | t :: l' =>
      let! gone := kthread_cancel evs t status in
      if gone then ret true else cancel_all evs l' status
  end.

Definition do_exit (evs : list intr) (status : Z) : M (ktab R) bool :=
  let! me := get_curproc in
  let! P := proc_get me in
  let! gone := cancel_all evs (p_threads P) status in
  if gone then ret true else proc_set me (with_status status) ;;; ret false.

Definition proc_kill (evs : list intr) (p status : Z) : M (ktab R) bool :=
  let! me := get_curproc in
  if p =? me then do_exit evs status
  else let! P := proc_get p in cancel_all evs (p_threads P) status.

Fixpoint kill_others (evs : list intr) (l : list Z) : M (ktab R) unit :=
  match l with
  | [] => ret tt
  | p :: l' =>
      let! P := proc_get p in
      let! cur := get_curproc in
      (if p_pid P =? PID_IDLE then ret tt
       else
         let! b := deref (p_pproc P) in
         let! Q := proc_get b in
         if negb (p_pid Q =? PID_IDLE) && negb (p =? cur) then proc_kill evs p 0 ;;; ret tt else ret tt) ;;;
      kill_others evs l'
  end.

Definition proc_kill_all (evs : list intr) : M (ktab R) bool :=
  let! l := gets _proc_list in
  kill_others evs l ;;;
  let! me := get_curproc in
  let! P := proc_get me in
  if 2 <? p_pid P then proc_kill evs me 0 else ret false.

(** ** Waiting *)

(** What a call of [do_waitpid] does next: return with a value and a status,
    or sleep. *)
Inductive wait_result : Type :=
| WReturn (r : Z) (status : option Z)
| WSleep.

Definition dead_in (m : gmap Z proc) a : bool :=
  match m !! a with Some P => bool_decide (p_state P = PROC_DEAD) | None => false end.

Fixpoint destroy_threads (l : list tid) : M (ktab R) unit :=
  match l with
  | [] => ret tt
  | t :: l' => on_sched (thr_set t (with_state KT_EXITED)) ;;; kthread_destroy t ;;; destroy_threads l'
  end.

(** Disposing of the dead child [p]; [guarded] in the copies of this code that
    look at the status pointer, [checked] in those that check for a page
    directory. *)
Definition reap (guarded checked st : bool) (p : Z) : M (ktab R) wait_result :=
  let! P := proc_get p in
  destroy_threads (p_threads P) ;;;
  (if st || guarded then ret tt else stop Undef) ;;;
  let! me := get_curproc in
  proc_set me (fun Q => with_children (filter (fun x => x <> p) (p_children Q)) Q) ;;;
  modify (fun s => set_plist (filter (fun x => x <> p) (_proc_list s)) s) ;;;
  (if checked then KASSERT (bool_decide (is_Some (p_pagedir P))) else ret tt) ;;;
  let! pd := deref (p_pagedir P) in
  on_rest (pt_destroy_pagedir pd) ;;;
  modify (fun s => set_pslab (p :: proc_allocator s) (set_procs (delete p (procs s)) s)) ;;;
  ret (WReturn (p_pid P) (if st then Some (p_status P) else None)).

(** [sched_sleep_on(&curproc->p_wait)] inside the call [w]. *)
Definition wait_sleep (evs : list intr) (w : wait_call) : M (ktab R) wait_result :=
  let! me := get_curthr in
  let! cp := get_curproc in
  modify (fun s => set_wait (<[me := w]> (k_wait s)) s) ;;;
  on_sched (sched_sleep_on evs (p_wait cp)) ;;;
  ret WSleep.

Definition wait_child (evs : list intr) (p : Z) (st : bool) : M (ktab R) wait_result :=
  let! P := proc_get p in
  if bool_decide (p_state P = PROC_DEAD) then reap false true st p
  else wait_sleep evs (WaitPid p st).

Definition do_waitpid (evs : list intr) (pid : Z) (st : bool) : M (ktab R) wait_result :=
  let! me := get_curproc in
  let! Q := proc_get me in
  let! m := gets procs in
  match p_children Q with
  | [] => ret (WReturn (- ECHILD) None)
  | l =>
      if pid =? -1 then
        match List.find (dead_in m) l with
        | Some p => reap false false st p
        | None => wait_sleep evs (WaitAny st)
        end
      else if 0 <? pid then
        match List.find (has_pid m pid) l with
        | Some p => wait_child evs p st
        | None => ret (WReturn (- ECHILD) None)
        end
      else ret (WReturn (- ECHILD) None)
  end.

(** The running thread goes on with the call it slept in. *)
Definition waitpid_resume (evs : list intr) : M (ktab R) wait_result :=
  let! t := get_curthr in
  let! w := gets (fun s => k_wait s !! t) in
  let! w := deref w in
  modify (fun s => set_wait (delete t (k_wait s)) s) ;;;
  match w with
  | WaitAny st =>
      let! me := get_curproc in
      let! Q := proc_get me in
      let! m := gets procs in
      match List.find (dead_in m) (p_children Q) with
      | Some p => reap true true st p
      | None => wait_sleep evs (WaitAny st)
      end
  | WaitPid p st => wait_child evs p st
  end.

(** ** Booting (main/kmain.c) *)

(** [bootstrap]: the idle process and its thread, which then runs. *)
Definition bootstrap : M (ktab R) unit :=
  let! idle := proc_create [105; 100; 108; 101; 95; 112; 114; 111; 99; 101; 115; 115] in
  on_sched (modify (fun x => set_cur (curthr x) idle x)) ;;;
  let! P := proc_get idle in
  KASSERT (p_pid P =? PID_IDLE) ;;;
  let! thr := kthread_create idle in
  on_sched (modify (fun x => set_cur thr (curproc x) x)) ;;;
  on_sched (sched_make_runnable thr).

Definition initproc_create : M (ktab R) tid :=
  let! init := proc_create [105; 110; 105; 116; 95; 112; 114; 111; 99; 101; 115; 115] in
  let! P := proc_get init in
  KASSERT (p_pid P =? PID_INIT) ;;;
  kthread_create init.

(** [idleproc_run] up to its wait for init. *)
Definition idleproc_start : M (ktab R) unit :=
  let! initthr := initproc_create in
  on_sched (modify (set_intr true)) ;;;
  on_sched (sched_make_runnable initthr).

(** ** Identifiers are unique *)

Definition pid_used s (pid : Z) : Prop :=
  exists a P, a ∈ _proc_list s /\ procs s !! a = Some P /\ p_pid P = pid.

Lemma existsb_pid s pid : existsb (has_pid (procs s) pid) (_proc_list s) = true <-> pid_used s pid.
Proof.
  unfold pid_used, has_pid. rewrite existsb_exists. split.
  - intros (a & Ha & Hp). rewrite <- list_elem_of_In in Ha. destruct (procs s !! a) as [P|] eqn:E; [|done].
    apply Z.eqb_eq in Hp. eauto.
  - intros (a & P & Ha & HP & Hp). exists a. rewrite <- list_elem_of_In, HP. split; [done|]. by apply Z.eqb_eq.
Qed.

(** The [k]-th identifier tried. *)
Definition try_pid s (k : Z) : Z := (next_pid s + k) mod PROC_MAX_COUNT.

Lemma getid_loop_spec fuel : forall k s,
  0 <= next_pid s < PROC_MAX_COUNT -> 0 <= k -> k + Z.of_nat fuel = PROC_MAX_COUNT -> (0 < fuel)%nat ->
  (forall j, 0 <= j < k -> pid_used s (try_pid s j)) ->
  (exists d, 0 <= d < PROC_MAX_COUNT /\ ~ pid_used s (try_pid s d) /\ (forall j, 0 <= j < d -> pid_used s (try_pid s j)) /\
     getid_loop fuel (try_pid s k) s = Ret (try_pid s d, set_next ((try_pid s d + 1) mod PROC_MAX_COUNT) s)) \/
  ((forall j, 0 <= j < PROC_MAX_COUNT -> pid_used s (try_pid s j)) /\ getid_loop fuel (try_pid s k) s = Ret (-1, s)).
Proof.
  induction fuel as [|fuel IH]; intros k s Hn Hk Hf Hpos Hbelow; [lia|]. cbn [getid_loop]. rewrite bind_gets.
  destruct (existsb (has_pid (procs s) (try_pid s k)) (_proc_list s)) eqn:Eu.
  - apply existsb_pid in Eu.
    assert (Hbelow' : forall j, 0 <= j < k + 1 -> pid_used s (try_pid s j)).
    { intros j Hj. destruct (decide (j = k)) as [->|]; [done|]. apply Hbelow. lia. }
    assert (Enext : (try_pid s k + 1) mod PROC_MAX_COUNT = try_pid s (k + 1)).
    { unfold try_pid. rewrite Zplus_mod_idemp_l. f_equal. lia. }
    rewrite bind_gets, Enext. destruct (Z.eqb_spec (try_pid s (k + 1)) (next_pid s)) as [Hw|Hw].
    + assert (k + 1 = PROC_MAX_COUNT) as Hend.
      { destruct (decide (k + 1 = PROC_MAX_COUNT)) as [|Hne]; [done|]. exfalso.
        unfold try_pid, PROC_MAX_COUNT in *. Z.to_euclidean_division_equations. lia. }
      right. split; [|done]. intros j Hj. apply Hbelow'. lia.
    + destruct (decide (fuel = O)) as [->|Hfz].
      * exfalso. apply Hw. unfold try_pid. replace (k + 1) with PROC_MAX_COUNT by lia.
        unfold PROC_MAX_COUNT in *. Z.to_euclidean_division_equations. lia.
      * apply IH; [done|lia|lia|lia|done].
  - left. exists k. split_and!; [lia|lia| |done|done]. intros Hu. apply existsb_pid in Hu. congruence.
Qed.

Lemma getid_spec s :
  0 <= next_pid s < PROC_MAX_COUNT ->
  (exists d, 0 <= d < PROC_MAX_COUNT /\ ~ pid_used s (try_pid s d) /\ (forall j, 0 <= j < d -> pid_used s (try_pid s j)) /\
     _proc_getid s = Ret (try_pid s d, set_next ((try_pid s d + 1) mod PROC_MAX_COUNT) s)) \/
  ((forall pid, 0 <= pid < PROC_MAX_COUNT -> pid_used s pid) /\ _proc_getid s = Ret (-1, s)).
Proof.
  intros Hn. unfold _proc_getid. rewrite bind_gets.
  assert (E0 : try_pid s 0 = next_pid s) by (unfold try_pid; rewrite Z.add_0_r, Z.mod_small; done).
  destruct (getid_loop_spec (Z.to_nat PROC_MAX_COUNT) 0 s Hn) as [(d & H1 & H2 & H3 & E)|[Hall E]].
  - lia.
  - unfold PROC_MAX_COUNT. lia.
  - unfold PROC_MAX_COUNT. lia.
  - intros j Hj. lia.
  - left. exists d. rewrite E0 in E. exact (conj H1 (conj H2 (conj H3 E))).
  - right. rewrite E0 in E. split; [|done]. intros pid Hp.
    assert (pid = try_pid s ((pid - next_pid s) mod PROC_MAX_COUNT)) as ->.
    { unfold try_pid. rewrite Zplus_mod_idemp_r. replace (next_pid s + (pid - next_pid s)) with pid by lia. by rewrite Z.mod_small. }
    apply Hall. by apply Z.mod_pos_bound.
Qed.
End proc.

(** ** The tree of processes *)

(** Following parents leads to the idle process. *)
Inductive rooted (m : gmap Z proc) : Z -> Prop :=
| rooted_idle : rooted m 0
| rooted_up a P b : m !! a = Some P -> p_pproc P = Some b -> rooted m b -> rooted m a.

(** The list of all processes is the table; identifiers are distinct; parents
    and children agree and parents are alive; everything descends from the
    idle process, and init is its child. *)
Record ptree (m : gmap Z proc) (l : list Z) (init : Z) : Prop := {
  pt_list : NoDup l;
  pt_dom : forall a, a ∈ l <-> is_Some (m !! a);
  pt_pid : forall a P, m !! a = Some P -> 0 <= p_pid P < PROC_MAX_COUNT;
  pt_inj : forall a b P Q, m !! a = Some P -> m !! b = Some Q -> p_pid P = p_pid Q -> a = b;
  pt_idle : exists P, m !! 0 = Some P /\ p_pid P = PID_IDLE /\ p_pproc P = None /\ p_state P = PROC_RUNNING;
  pt_init : exists P, m !! init = Some P /\ p_pid P = PID_INIT /\ p_pproc P = Some 0 /\ p_state P = PROC_RUNNING;
  pt_parent : forall a P, m !! a = Some P -> a <> 0 ->
    exists b Q, p_pproc P = Some b /\ m !! b = Some Q /\ a ∈ p_children Q /\ p_state Q = PROC_RUNNING;
  pt_child : forall b Q a, m !! b = Some Q -> a ∈ p_children Q -> exists P, m !! a = Some P /\ p_pproc P = Some b;
  pt_nodup : forall b Q, m !! b = Some Q -> NoDup (p_children Q);
  pt_root : forall a, is_Some (m !! a) -> rooted m a
}.

Lemma rooted_no_loop m a P : rooted m a -> m !! a = Some P -> p_pproc P = Some a -> a = 0.
Proof.
  induction 1 as [|a P' b HP' Hb Hr IH]; intros HP Hs; [done|]. assert (P' = P) as -> by congruence.
  assert (b = a) as -> by congruence. auto.
Qed.

Section tree.
Context (m : gmap Z proc) (l : list Z) (init : Z).
Hypothesis Ht : ptree m l init.

Lemma init_not_idle : init <> 0.
Proof.
  intros ->. destruct (pt_idle _ _ _ Ht) as (P & H1 & _ & H2 & _). destruct (pt_init _ _ _ Ht) as (Q & H3 & _ & H4 & _). congruence.
Qed.

Lemma pid_zero a P : m !! a = Some P -> p_pid P = PID_IDLE -> a = 0.
Proof. intros HP Hp. destruct (pt_idle _ _ _ Ht) as (Q & HQ & Hq & _). eapply pt_inj; [done..|congruence]. Qed.

Lemma pid_one a P : m !! a = Some P -> p_pid P = PID_INIT -> a = init.
Proof. intros HP Hp. destruct (pt_init _ _ _ Ht) as (Q & HQ & Hq & _). eapply pt_inj; [done..|congruence]. Qed.

Lemma not_own_child a P : m !! a = Some P -> a ∉ p_children P.
Proof.
  intros HP Hin. destruct (pt_child _ _ _ Ht _ _ _ HP Hin) as (P' & HP' & Hs). simplify_eq.
  pose proof (rooted_no_loop _ _ _ (pt_root _ _ _ Ht _ (mk_is_Some _ _ HP)) HP Hs) as ->.
  destruct (pt_idle _ _ _ Ht) as (Q & HQ & _ & Hq & _). congruence.
Qed.

Lemma init_not_child a P : m !! a = Some P -> a <> 0 -> init ∉ p_children P.
Proof.
  intros HP Hne Hin. destruct (pt_child _ _ _ Ht _ _ _ HP Hin) as (Q & HQ & Hq).
  destruct (pt_init _ _ _ Ht) as (Q' & HQ' & _ & Hq' & _). congruence.
Qed.

Lemma idle_not_child a P : m !! a = Some P -> 0 ∉ p_children P.
Proof.
  intros HP Hin. destruct (pt_child _ _ _ Ht _ _ _ HP Hin) as (Q & HQ & Hq).
  destruct (pt_idle _ _ _ Ht) as (Q' & HQ' & _ & Hq' & _). congruence.
Qed.

Lemma dead_childless a P : m !! a = Some P -> p_state P = PROC_DEAD -> p_children P = [].
Proof.
  intros HP Hd. destruct (p_children P) as [|c cs] eqn:E; [done|]. exfalso.
  destruct (pt_child _ _ _ Ht a P c HP) as (C & HC & Hc); [rewrite E; set_solver|].
  destruct (pt_parent _ _ _ Ht c C HC) as (b & Q & Hb & HQ & _ & Hr).
  - intros ->. eapply (idle_not_child a P); [done|]. rewrite E. set_solver.
  - congruence.
Qed.
End tree.

(** Tables that differ in nothing the tree depends on. *)
Definition same_node (P P' : proc) : Prop :=
  p_pid P' = p_pid P /\ p_pproc P' = p_pproc P /\ p_children P' = p_children P /\ p_state P' = p_state P.

Lemma ptree_same m l init a P P' :
  ptree m l init -> m !! a = Some P -> same_node P P' -> ptree (<[a := P']> m) l init.
Proof.
  intros Ht HP (E1 & E2 & E3 & E4).
  assert (Hl : forall x X, <[a := P']> m !! x = Some X -> exists Y, m !! x = Some Y /\ same_node Y X).
  { intros x X [[<- <-]|[Hne HX]]%lookup_insert_Some; [by exists P|by exists X]. }
  assert (Hf : forall x Y, m !! x = Some Y -> exists X, <[a := P']> m !! x = Some X /\ same_node Y X).
  { intros x Y HY. destruct (decide (x = a)) as [->|Hne].
    - exists P'. rewrite lookup_insert_eq. simplify_eq. done.
    - exists Y. by rewrite lookup_insert_ne. }
  destruct Ht as [H1 H2 H3 H4 H5 H6 H7 H8 H9 H10]. split; try done.
  - intros x. rewrite H2. split; [intros [Y HY]; destruct (Hf _ _ HY) as (X & ? & _); eauto|].
    intros [X HX]. destruct (Hl _ _ HX) as (Y & ? & _). eauto.
  - intros x X (Y & HY & -> & _)%Hl. eauto.
  - intros x y X1 X2 (Y1 & HY1 & -> & _)%Hl (Y2 & HY2 & -> & _)%Hl. by eapply H4.
  - destruct H5 as (Y & HY & ? & ? & ?). destruct (Hf _ _ HY) as (X & HX & Ex1 & Ex2 & _ & Ex4). exists X. split_and!; congruence.
  - destruct H6 as (Y & HY & ? & ? & ?). destruct (Hf _ _ HY) as (X & HX & Ex1 & Ex2 & _ & Ex4). exists X. split_and!; congruence.
  - intros x X (Y & HY & _ & E & _)%Hl Hne. destruct (H7 _ _ HY Hne) as (b & Q & Hb & HQ & Hin & Hr).
    destruct (Hf _ _ HQ) as (Q' & HQ' & _ & _ & Ec & Es). exists b, Q'. split_and!; [congruence|done|by rewrite Ec|congruence].
  - intros b Q x (Y & HY & _ & _ & Ec & _)%Hl Hin. rewrite Ec in Hin. destruct (H8 _ _ _ HY Hin) as (X & HX & Hp).
    destruct (Hf _ _ HX) as (X' & HX' & _ & E & _). exists X'. split; [done|congruence].
  - intros b Q (Y & HY & _ & _ & Ec & _)%Hl. rewrite Ec. eauto.
  - intros x [X HX]. destruct (Hl _ _ HX) as (Y & HY & _).
    assert (Hr : rooted m x) by eauto. clear X HX Y HY.
    induction Hr as [|x Y b HY Hb Hr IH]; [constructor|]. destruct (Hf _ _ HY) as (X & HX & _ & E & _).
    eapply rooted_up; [exact HX|by rewrite E|done].
Qed.

(** The table with a new child [a] of [b], read backwards and forwards. *)
Lemma add_child_inv (m : gmap Z proc) a b P Q' x X :
  <[b := Q']> (<[a := P]> m) !! x = Some X -> a <> b ->
  (x = a /\ X = P) \/ (x = b /\ X = Q') \/ (x <> a /\ x <> b /\ m !! x = Some X).
Proof. rewrite !lookup_insert_Some. naive_solver. Qed.

Lemma add_child_fwd (m : gmap Z proc) a b P Q x X :
  m !! a = None -> m !! b = Some Q -> m !! x = Some X ->
  exists X', <[b := with_children (p_children Q ++ [a]) Q]> (<[a := P]> m) !! x = Some X' /\ p_pid X' = p_pid X /\
    p_pproc X' = p_pproc X /\ p_state X' = p_state X /\ (forall c, c ∈ p_children X -> c ∈ p_children X').
Proof.
  intros Ha HQ HX. destruct (decide (x = b)) as [->|Hne].
  - eexists. rewrite lookup_insert_eq. simplify_eq. split_and!; try done. simpl. set_solver.
  - exists X. rewrite !lookup_insert_ne by congruence. by split_and!.
Qed.

(** A new child of the running process [b]. *)
Lemma ptree_add m l init a b Q P :
  ptree m l init -> m !! a = None -> a <> 0 -> m !! b = Some Q -> p_state Q = PROC_RUNNING ->
  p_pproc P = Some b -> p_children P = [] -> 0 <= p_pid P < PROC_MAX_COUNT ->
  (forall x X, m !! x = Some X -> p_pid X <> p_pid P) ->
  ptree (<[b := with_children (p_children Q ++ [a]) Q]> (<[a := P]> m)) (l ++ [a]) init.
Proof.
  intros Ht Ha Ha0 HQ Hr Hpp Hch Hpid Hnew. pose proof Ht as [H1 H2 H3 H4 H5 H6 H7 H8 H9 H10].
  assert (Hab : a <> b) by congruence.
  set (Q' := with_children (p_children Q ++ [a]) Q). set (m' := <[b := Q']> (<[a := P]> m)).
  assert (Hl := fun x X (HX : m' !! x = Some X) => add_child_inv m a b P Q' x X HX Hab).
  assert (Hf := fun x X => add_child_fwd m a b P Q x X Ha HQ). fold Q' m' in Hf.
  assert (Hca : forall x X, m !! x = Some X -> a ∉ p_children X).
  { intros x X HX Hin. destruct (H8 _ _ _ HX Hin) as (? & ? & _). congruence. }
  assert (Ha' : m' !! a = Some P) by (unfold m'; rewrite lookup_insert_ne, lookup_insert_eq; done).
  assert (Hb' : m' !! b = Some Q') by (unfold m'; by rewrite lookup_insert_eq).
  assert (Hrm : forall x, rooted m x -> rooted m' x).
  { induction 1 as [|x X c HX Hc _ IH]; [constructor|]. destruct (Hf _ _ HX) as (X' & HX' & _ & E & _).
    eapply rooted_up; [exact HX'|by rewrite E|done]. }
  split.
  - apply NoDup_app. split_and!; [done| |apply NoDup_singleton]. intros x Hx ->%list_elem_of_singleton.
    apply H2 in Hx as [? ?]. congruence.
  - intros x. rewrite elem_of_app, list_elem_of_singleton, H2. unfold m'. rewrite !lookup_insert_is_Some'. naive_solver.
  - intros x X [[-> ->]|[[-> ->]|(_ & _ & HX)]]%Hl; [done|exact (H3 _ _ HQ)|eauto].
  - intros x y X Y [[-> ->]|[[-> ->]|(_ & _ & HX)]]%Hl [[-> ->]|[[-> ->]|(_ & _ & HY)]]%Hl E; [done| | | |done| | | |].
    + by destruct (Hnew _ _ HQ).
    + by destruct (Hnew _ _ HY).
    + by destruct (Hnew _ _ HQ).
    + exact (H4 _ _ _ _ HQ HY E).
    + by destruct (Hnew _ _ HX).
    + exact (H4 _ _ _ _ HX HQ E).
    + exact (H4 _ _ _ _ HX HY E).
  - destruct H5 as (X & HX & ? & ? & ?). destruct (Hf _ _ HX) as (X' & HX' & E1 & E2 & E3 & _). exists X'. split_and!; congruence.
  - destruct H6 as (X & HX & ? & ? & ?). destruct (Hf _ _ HX) as (X' & HX' & E1 & E2 & E3 & _). exists X'. split_and!; congruence.
  - intros x X HX Hne. apply Hl in HX as [[-> ->]|HX]; [exists b, Q'; simpl; split_and!; try done; set_solver|].
    assert (exists X0, m !! x = Some X0 /\ p_pproc X = p_pproc X0) as (X0 & HX0 & Ep).
    { destruct HX as [[-> ->]|(_ & _ & HX)]; eauto. }
    destruct (H7 _ _ HX0 Hne) as (c & C & Hc & HC & Hin & Hrun). destruct (Hf _ _ HC) as (C' & HC' & _ & _ & Es & Hsub).
    exists c, C'. split_and!; [congruence|done|auto|congruence].
  - intros c C x HC Hin. apply Hl in HC as [[-> ->]|[[-> ->]|(Hca' & Hcb & HC)]]; [rewrite Hch in Hin; set_solver| |].
    + simpl in Hin. apply elem_of_app in Hin as [Hin| ->%list_elem_of_singleton]; [|by eauto].
      destruct (H8 _ _ _ HQ Hin) as (X & HX & Hp). destruct (Hf _ _ HX) as (X' & HX' & _ & E & _). exists X'. split; [done|congruence].
    + destruct (H8 _ _ _ HC Hin) as (X & HX & Hp). destruct (Hf _ _ HX) as (X' & HX' & _ & E & _). exists X'. split; [done|congruence].
  - intros c C [[-> ->]|[[-> ->]|(_ & _ & HC)]]%Hl; [rewrite Hch; constructor| |eauto].
    simpl. apply NoDup_app. split_and!; [by apply (H9 b)| |apply NoDup_singleton].
    intros x Hx ->%list_elem_of_singleton. by eapply Hca.
  - intros x Hx. destruct (decide (x = a)) as [->|Hne].
    + eapply rooted_up; [exact Ha'|exact Hpp|]. eauto.
    + apply Hrm, H10. destruct Hx as [X HX]. apply Hl in HX as [[-> _]|[[-> _]|(_ & _ & HX)]]; [done|eauto|eauto].
Qed.

(** What the children of an exiting process [me] do to the table. *)
Fixpoint adopt (me init : Z) (l : list Z) (m : gmap Z proc) : gmap Z proc :=
  match l with
  | [] => m
  | c :: l' =>
      adopt me init l'
        (alter (fun P => with_children (p_children P ++ [c]) P) init
           (alter (fun P => with_children (filter (fun x => x <> c) (p_children P)) P) me
              (alter (with_parent (Some init)) c m)))
  end.

Definition adopted (me init : Z) (l : list Z) (a : Z) (P : proc) : proc :=
  if decide (a = me) then with_children (filter (fun x => x ∉ l) (p_children P)) P
  else if decide (a = init) then with_children (p_children P ++ l) P
  else if decide (a ∈ l) then with_parent (Some init) P
  else P.

Lemma adopt_lookup me init l : forall m a,
  me <> init -> me ∉ l -> init ∉ l -> adopt me init l m !! a = adopted me init l a <$> m !! a.
Proof.
  induction l as [|c l IH]; intros m a Hne Hme Hin; simpl.
  - unfold adopted. destruct (m !! a) as [[]|]; [|done]. unfold fmap, option_fmap, option_map. f_equal.
    destruct (decide (a = me)); [|destruct (decide (a = init)); [|destruct (decide (a ∈ [])); [set_solver|done]]];
      unfold with_children; simpl; f_equal.
    + induction p_children0 as [|x k IHk]; simpl; [done|]. rewrite filter_cons_True by set_solver. by f_equal.
    + by rewrite app_nil_r.
  - assert (c <> me /\ c <> init) as [Hc1 Hc2] by set_solver.
    rewrite IH by set_solver. unfold adopted. destruct (decide (a = me)) as [->|Ha1].
    { rewrite lookup_alter_ne, lookup_alter_eq, lookup_alter_ne by done. destruct (m !! me) as [P|]; [|done]. simpl. f_equal.
      unfold with_children. simpl. f_equal. rewrite list_filter_filter. apply list_filter_iff. set_solver. }
    destruct (decide (a = init)) as [->|Ha2].
    { rewrite lookup_alter_eq, !lookup_alter_ne by done. destruct (m !! init) as [P|]; [|done]. simpl.
      unfold with_children. simpl. by rewrite <- app_assoc. }
    rewrite !lookup_alter_ne by done. destruct (decide (a = c)) as [->|Ha3].
    + rewrite lookup_alter_eq. destruct (m !! c) as [P|]; [|done]. unfold fmap, option_fmap, option_map. f_equal.
      destruct (decide (c ∈ c :: l)); [|set_solver]. by destruct (decide (c ∈ l)).
    + rewrite lookup_alter_ne by done. destruct (m !! a); [|done]. unfold fmap, option_fmap, option_map. f_equal.
      destruct (decide (a ∈ l)), (decide (a ∈ c :: l)); set_solver.
Qed.

(** The table after the exit of [me]. *)
Definition exit_node (me init : Z) (z : Z) (P0 : proc) (a : Z) (P : proc) : proc :=
  if decide (a = me) then with_pstate PROC_DEAD (with_status z (with_children [] P))
  else if decide (a = init) then with_children (p_children P ++ p_children P0) P
  else if decide (a ∈ p_children P0) then with_parent (Some init) P
  else P.

Section exit_node.
Context (me init z : Z) (P0 : proc).
Implicit Types P : proc.

Lemma exit_node_pid a P : p_pid (exit_node me init z P0 a P) = p_pid P.
Proof. unfold exit_node. repeat case_decide; done. Qed.

Lemma exit_node_threads a P : p_threads (exit_node me init z P0 a P) = p_threads P.
Proof. unfold exit_node. repeat case_decide; done. Qed.

Lemma exit_node_pagedir a P : p_pagedir (exit_node me init z P0 a P) = p_pagedir P.
Proof. unfold exit_node. repeat case_decide; done. Qed.

Lemma exit_node_parent a P : a ∉ p_children P0 -> p_pproc (exit_node me init z P0 a P) = p_pproc P.
Proof. unfold exit_node. intros ?. repeat case_decide; done. Qed.

Lemma exit_node_adopted a P :
  me ∉ p_children P0 -> init ∉ p_children P0 -> a ∈ p_children P0 -> p_pproc (exit_node me init z P0 a P) = Some init.
Proof. intros Hme Hin Ha. unfold exit_node. rewrite !decide_False by (by intros ->). by rewrite decide_True. Qed.

Lemma exit_node_other a P :
  a <> me -> p_state (exit_node me init z P0 a P) = p_state P /\
  forall c, c ∈ p_children P -> c ∈ p_children (exit_node me init z P0 a P).
Proof. intros Ha. unfold exit_node. rewrite decide_False by done. repeat case_decide; simpl; split; try done; set_solver. Qed.

Lemma exit_node_child a P c :
  c ∈ p_children (exit_node me init z P0 a P) -> a <> me /\ (c ∈ p_children P \/ (a = init /\ c ∈ p_children P0)).
Proof.
  unfold exit_node. case_decide; [simpl; set_solver|]. case_decide; simpl; [|case_decide; simpl; auto].
  rewrite elem_of_app. naive_solver.
Qed.
End exit_node.

Lemma ptree_exit m m' l init me P z :
  ptree m l init -> m !! me = Some P -> me <> 0 -> me <> init ->
  (forall a, m' !! a = exit_node me init z P a <$> m !! a) -> ptree m' l init.
Proof.
  intros Ht HP Hm0 Hmi Hm'. pose proof Ht as [H1 H2 H3 H4 H5 H6 H7 H8 H9 H10].
  pose proof (not_own_child _ _ _ Ht _ _ HP) as Hown. pose proof (init_not_child _ _ _ Ht _ _ HP Hm0) as Hinch.
  pose proof (idle_not_child _ _ _ Ht _ _ HP) as Hidch. pose proof (init_not_idle _ _ _ Ht) as Hi0.
  set (node := exit_node me init z P).
  assert (Hl : forall a X, m' !! a = Some X -> exists Y, m !! a = Some Y /\ X = node a Y).
  { intros a X HX. rewrite Hm' in HX. apply fmap_Some in HX as (Y & ? & ?). eauto. }
  assert (Hf : forall a Y, m !! a = Some Y -> m' !! a = Some (node a Y)) by (intros a Y HY; by rewrite Hm', HY).
  assert (Epid := exit_node_pid me init z P). assert (Epp := exit_node_parent me init z P).
  assert (Est := fun a Y Ha => proj1 (exit_node_other me init z P a Y Ha)).
  assert (Hsub := fun a Y c Ha => proj2 (exit_node_other me init z P a Y Ha) c).
  assert (Echp := fun a Y => exit_node_adopted me init z P a Y Hown Hinch). assert (Hch := exit_node_child me init z P).
  fold node in Epid, Epp, Est, Hsub, Echp, Hch.
  destruct H6 as (I & HI & HIpid & HIpp & HIst).
  split; try done.
  - intros a. rewrite H2, Hm'. by rewrite fmap_is_Some.
  - intros a X (Y & HY & ->)%Hl. rewrite Epid. eauto.
  - intros a b X Y (X0 & HX0 & ->)%Hl (Y0 & HY0 & ->)%Hl. rewrite !Epid. by eapply H4.
  - destruct H5 as (Y & HY & ? & ? & ?). exists (node 0 Y). rewrite Epid, Est, Epp by done. split_and!; eauto.
  - exists (node init I). rewrite Epid, Est, Epp by done. split_and!; eauto.
  - intros a X (Y & HY & ->)%Hl Ha. destruct (decide (a ∈ p_children P)) as [Hin|Hnin].
    + exists init, (node init I). rewrite Echp, Est by done. split_and!; [done|eauto| |done].
      unfold node, exit_node. rewrite decide_False, decide_True by done. simpl. set_solver.
    + destruct (H7 _ _ HY Ha) as (b & Q & Hb & HQ & Hin & Hrun). exists b, (node b Q).
      assert (b <> me) by (intros ->; simplify_eq). rewrite Epp, Est by done. split_and!; eauto.
  - intros b Q a (Q0 & HQ0 & ->)%Hl Hin. apply Hch in Hin as [Hb [Hin|[-> Hin]]].
    + destruct (H8 _ _ _ HQ0 Hin) as (X & HX & Hp). exists (node a X). split; [eauto|]. rewrite Epp; [done|].
      intros Hc. destruct (H8 _ _ _ HP Hc) as (X' & HX' & Hp'). simplify_eq.
    + destruct (H8 _ _ _ HP Hin) as (X & HX & Hp). exists (node a X). split; [eauto|]. by apply Echp.
  - intros b Q (Q0 & HQ0 & ->)%Hl. unfold node, exit_node. case_decide; [constructor|]. case_decide as Hbi; simpl; [|case_decide; exact (H9 _ _ HQ0)].
    apply NoDup_app. split_and!; [eauto| |eauto]. subst b. intros c Hc1 Hc2.
    destruct (H8 _ _ _ HQ0 Hc1) as (X & HX & Hp). destruct (H8 _ _ _ HP Hc2) as (X' & HX' & Hp'). simplify_eq.
  - assert (Hri : rooted m' init).
    { eapply rooted_up; [by apply Hf|rewrite Epp by done; exact HIpp|constructor]. }
    intros a [X HX]. apply Hl in HX as (Y & HY & _). assert (Hr : rooted m a) by eauto. clear X Y HY.
    induction Hr as [|a Y b HY Hb Hr IH]; [constructor|]. destruct (decide (a ∈ p_children P)) as [Hin|Hnin].
    + eapply rooted_up; [by apply Hf|by apply Echp|done].
    + eapply rooted_up; [by apply Hf|rewrite Epp by done; exact Hb|done].
Qed.

(** A dead child [p] of [me] leaves the table. *)
Lemma ptree_reap m l init me Q p P :
  ptree m l init -> m !! me = Some Q -> p ∈ p_children Q -> m !! p = Some P -> p_state P = PROC_DEAD ->
  ptree (delete p (<[me := with_children (filter (fun x => x <> p) (p_children Q)) Q]> m)) (filter (fun x => x <> p) l) init.
Proof.
  intros Ht HQ Hin HP Hd. pose proof Ht as [H1 H2 H3 H4 H5 H6 H7 H8 H9 H10].
  set (Q' := with_children _ Q). set (m' := delete p _).
  assert (Hpm : p <> me) by (intros ->; exact (not_own_child _ _ _ Ht _ _ HQ Hin)).
  assert (Hrun : forall a A, m !! a = Some A -> p_state A = PROC_RUNNING -> a <> p) by (intros a A HA Hr ->; congruence).
  assert (Hl : forall a X, m' !! a = Some X -> a <> p /\ exists Y, m !! a = Some Y /\ p_pid X = p_pid Y /\ p_pproc X = p_pproc Y /\
    p_state X = p_state Y /\ p_children X = (if decide (a = me) then filter (fun x => x <> p) (p_children Y) else p_children Y)).
  { intros a X. unfold m'. rewrite lookup_delete_Some, lookup_insert_Some. intros (Hne & [[<- <-]|[Hme HX]]); (split; [done|]).
    - exists Q. by rewrite decide_True.
    - exists X. by rewrite decide_False by done. }
  assert (Hf : forall a Y, m !! a = Some Y -> a <> p -> exists X, m' !! a = Some X /\ p_pid X = p_pid Y /\ p_pproc X = p_pproc Y /\
    p_state X = p_state Y /\ (forall c, c <> p -> c ∈ p_children Y -> c ∈ p_children X)).
  { intros a Y HY Hne. unfold m'. rewrite lookup_delete_ne by done. destruct (decide (a = me)) as [->|Hme].
    - exists Q'. rewrite lookup_insert_eq. simplify_eq. split_and!; try done. intros c Hc Hcin. simpl. by apply list_elem_of_filter.
    - exists Y. by rewrite lookup_insert_ne. }
  split.
  - by apply NoDup_filter.
  - intros a. rewrite list_elem_of_filter, H2. split.
    + intros [Hne [Y HY]]. destruct (Hf _ _ HY Hne) as (X & HX & _). eauto.
    + intros [X HX]. apply Hl in HX as (Hne & Y & HY & _). eauto.
  - intros a X (_ & Y & HY & -> & _)%Hl. eauto.
  - intros a b X1 X2 (_ & Y1 & HY1 & -> & _)%Hl (_ & Y2 & HY2 & -> & _)%Hl. by eapply H4.
  - destruct H5 as (Y & HY & ? & ? & ?). destruct (Hf 0 Y HY) as (X & HX & E1 & E2 & E3 & _); [by eapply Hrun|]. exists X. split_and!; congruence.
  - destruct H6 as (Y & HY & ? & ? & ?). destruct (Hf init Y HY) as (X & HX & E1 & E2 & E3 & _); [by eapply Hrun|]. exists X. split_and!; congruence.
  - intros a X (Hne & Y & HY & _ & Ep & _)%Hl Ha. destruct (H7 _ _ HY Ha) as (b & C & Hb & HC & Hca & Hr).
    destruct (Hf b C HC) as (C' & HC' & _ & _ & Es & Hsub); [by eapply Hrun|]. exists b, C'. split_and!; [congruence|done|auto|congruence].
  - intros b C a (Hne & C0 & HC0 & _ & _ & _ & Ec)%Hl Ha. assert (a ∈ p_children C0 /\ a <> p) as [Ha0 Hap].
    { rewrite Ec in Ha. case_decide as Hbm; [by apply list_elem_of_filter in Ha as [? ?]|]. split; [done|]. intros ->.
      destruct (H8 _ _ _ HC0 Ha) as (P1 & HP1 & Hp1). destruct (H8 _ _ _ HQ Hin) as (P2 & HP2 & Hp2). simplify_eq. }
    destruct (H8 _ _ _ HC0 Ha0) as (X & HX & Hp). destruct (Hf a X HX Hap) as (X' & HX' & _ & E & _). exists X'. split; [done|congruence].
  - intros b C (_ & C0 & HC0 & _ & _ & _ & ->)%Hl. case_decide; [apply NoDup_filter|]; eauto.
  - intros a [X HX]. apply Hl in HX as (Hne & Y & HY & _). assert (Hr : rooted m a) by eauto. clear X Y HY.
    induction Hr as [|a Y b HY Hb Hr IH]; [constructor|].
    destruct (decide (a = 0)) as [->|Ha0]; [constructor|].
    destruct (H7 _ _ HY Ha0) as (b' & C & Hb' & HC & _ & Hcr). simplify_eq.
    destruct (Hf a Y HY Hne) as (X & HX & _ & E & _). eapply rooted_up; [exact HX|by rewrite E|]. apply IH. by eapply Hrun.
Qed.
