(* ===== verification/ProcInv.v ===== *)
(** * The invariant of the process table

    The table of Proc.v and the scheduler of Sched.v belong together: [kcore] says
    how, and this file shows what each change of the two keeps of it: a step of
    the scheduler ([quiet]), a new process, an exit, the disposal of a dead
    child.  What a process uses of the rest of the kernel is assumed to keep its
    own books ([KernelLaws]). *)

From S2P Require Import Prelude Sched Proc.

(** ** What scheduling does to a thread *)

(** Nobody appears, disappears, exits or changes its process or stack, and
    nobody starts to wait on a queue of another process. *)
Record quiet (s s' : sys) : Prop := {
  qt_thr : forall t T, threads s !! t = Some T -> exists T', threads s' !! t = Some T' /\
    kt_proc T' = kt_proc T /\ kt_kstack T' = kt_kstack T /\
    (kt_state T' = KT_EXITED <-> kt_state T = KT_EXITED) /\
    (forall q, kt_wchan T' = Some q -> q < 0 -> kt_wchan T = Some q \/ q = p_wait (kt_proc T));
  qt_none : forall t, threads s !! t = None -> threads s' !! t = None;
  qt_queue : forall q, is_Some (queues s !! q) -> is_Some (queues s' !! q)
}.

#[export] Instance quiet_preorder : PreOrder quiet.
Proof.
  split.
  - intros s. split; eauto 10.
  - intros s1 s2 s3 [A1 B1 C1] [A2 B2 C2]. split; [|auto|auto].
    intros t T HT. destruct (A1 _ _ HT) as (T' & HT' & E1 & E2 & E3 & E4).
    destruct (A2 _ _ HT') as (T'' & HT'' & F1 & F2 & F3 & F4).
    exists T''. split_and!; [done|congruence|congruence|by rewrite F3|].
    intros q Hq Hneg. rewrite <- E1. destruct (F4 q Hq Hneg) as [Hq'|]; [|auto]. rewrite E1. auto.
Qed.

Lemma quiet_same s s' : threads s' = threads s -> queues s' = queues s -> quiet s s'.
Proof. intros E1 E2. split; rewrite ?E1, ?E2; eauto 10. Qed.

(** One thread changes. *)
Lemma quiet_thr t T T' s s' :
  threads s !! t = Some T -> threads s' = <[t := T']> (threads s) ->
  (forall q, is_Some (queues s !! q) -> is_Some (queues s' !! q)) ->
  kt_proc T' = kt_proc T -> kt_kstack T' = kt_kstack T -> (kt_state T' = KT_EXITED <-> kt_state T = KT_EXITED) ->
  (forall q, kt_wchan T' = Some q -> q < 0 -> kt_wchan T = Some q \/ q = p_wait (kt_proc T)) -> quiet s s'.
Proof.
  intros HT E HQ H1 H2 H3 H4. split; [| |done]; rewrite E.
  - intros u U HU. destruct (decide (u = t)) as [->|Hne].
    + exists T'. rewrite lookup_insert_eq. assert (U = T) as -> by congruence. done.
    + exists U. rewrite lookup_insert_ne by done. split_and!; auto.
  - intros u HU. rewrite lookup_insert_ne; [done|congruence].
Qed.

(** Enqueueing, dequeueing and waking keep the set of queues. *)
Lemma wake_threads q t T s : threads s !! t = Some T -> threads (wake q t s) = <[t := run_thr T]> (threads s).
Proof.
  intros HT. apply map_eq. intros u. destruct (decide (u = t)) as [->|Hne].
  - by rewrite (wake_lookup _ _ _ _ HT), lookup_insert_eq.
  - by rewrite wake_lookup_ne, lookup_insert_ne.
Qed.

Lemma wake_queues q t s q' : is_Some (queues (wake q t s) !! q') <-> is_Some (queues s !! q').
Proof. unfold wake, enq, deq. simpl. by rewrite !lookup_alter_is_Some. Qed.

Lemma asleep_not_exited T q : state_ok T -> kt_wchan T = Some q -> kt_state T <> KT_EXITED.
Proof. unfold state_ok. intros H Hw. rewrite Hw in H. case_decide; naive_solver congruence. Qed.

Lemma quiet_wake q t T s :
  swf s -> threads s !! t = Some T -> is_Some (kt_wchan T) -> quiet s (wake q t s).
Proof.
  intros Hs HT [q' Hw]. eapply (quiet_thr t T); [done|by apply wake_threads|..].
  - intros q0. by rewrite wake_queues.
  - done.
  - done.
  - pose proof (asleep_not_exited _ _ (proj2 Hs _ _ HT) Hw). simpl. split; [done|]. by intros ?.
  - intros q0 [= <-]. unfold kt_runq. lia.
Qed.

Lemma quiet_wake_list ts q n s :
  swf s -> q <> kt_runq -> queues s !! q = Some (MkQueue (reverse ts) n) -> quiet s (wake_list q ts s).
Proof.
  revert s n. induction ts as [|t ts IH]; intros s n Hs Hne HQ; [reflexivity|].
  rewrite reverse_cons in HQ.
  assert (Hl : last (tq_list (MkQueue (reverse ts ++ [t]) n)) = Some t) by apply last_snoc.
  destruct (qwf_last _ _ _ _ (proj1 Hs) HQ Hl) as (T & HT & Hw & Hk).
  destruct (swf_wake_last _ _ _ _ Hs Hne HQ Hl) as (Hs' & l & El & HQ').
  simpl in El, HQ'. apply app_inj_tail in El as [El _]. rewrite <- El in HQ'.
  etrans; [eapply quiet_wake; eauto|]. by eapply IH.
Qed.

Lemma wakeup_cases q s :
  swf s -> wait_q s q ->
  (exists t T, threads s !! t = Some T /\ kt_wchan T = Some q /\ swf (wake q t s) /\
     sched_wakeup_on q s = Ret (Some t, wake q t s)) \/
  (sched_wakeup_on q s = Ret (None, s) /\ forall t T, threads s !! t = Some T -> kt_wchan T <> Some q).
Proof.
  intros Hs [Hne [[l n] HQ]]. destruct (last l) as [t|] eqn:Hl.
  - left. destruct (qwf_last _ _ _ _ (proj1 Hs) HQ Hl) as (T & HT & Hw & _). exists t, T.
    split_and!; [done|done|by eapply swf_wake|by eapply sched_wakeup_on_eq].
  - right. apply last_None in Hl as ->. split; [by eapply sched_wakeup_on_nil|].
    intros t T HT Hw. destruct (qwf_on _ (proj1 Hs) _ _ _ HT Hw) as (Q & HQ' & Hin). simplify_eq. set_solver.
Qed.

Lemma quiet_wakeup q s o s' : swf s -> wait_q s q -> sched_wakeup_on q s = Ret (o, s') -> quiet s s'.
Proof.
  intros Hs Hq E. destruct (wakeup_cases q s Hs Hq) as [(t & T & HT & Hw & _ & E')|[E' _]]; rewrite E' in E; simplify_eq.
  - eapply quiet_wake; eauto.
  - reflexivity.
Qed.

Lemma quiet_broadcast q s s' : swf s -> wait_q s q -> sched_broadcast_on q s = Ret (tt, s') -> quiet s s'.
Proof.
  intros Hs [Hne [Q HQ]] E. rewrite (sched_broadcast_on_eq _ _ _ Hs Hne HQ) in E. injection E as <-.
  apply (quiet_wake_list _ _ (tq_size Q)); [done|done|]. rewrite reverse_involutive. by destruct Q.
Qed.

Lemma quiet_handle e s s' : swf s -> intr_ok s e -> intr_handle e s = Ret (tt, s') -> quiet s s'.
Proof.
  intros Hs Hok E. destruct e as [q|q|]; simpl in E; [| |by injection E as <-].
  - unfold bind in E. destruct (sched_wakeup_on q s) as [[o s1]|] eqn:Ew; [|done]. injection E as <-.
    eapply quiet_wakeup; [done|exact Hok|done].
  - eapply quiet_broadcast; [done|exact Hok|done].
Qed.

Lemma quiet_wait evs s s' :
  swf s -> Forall (intr_ok s) evs -> wait_runq evs s = Ret (tt, s') -> quiet s s'.
Proof.
  revert s. induction evs as [|e evs IH]; intros s Hs Hok E;
    destruct (qwf_runq _ (proj1 Hs)) as [[l n] HR];
    destruct (qwf_size _ (proj1 Hs) _ _ HR) as [Hsz _]; simpl in Hsz;
    (destruct (decide (l = [])) as [->|Hl];
     [|rewrite (wait_runq_now _ _ _ Hs HR Hl) in E; by injection E as <-]).
  - simpl wait_runq in E. rewrite (bind_eq _ _ _ _ _ (q_get_eq _ _ _ HR)) in E. simpl in E. by subst n.
  - rewrite (wait_runq_step _ _ _ _ HR Hsz) in E. apply Forall_cons in Hok as [He Hok].
    set (s1 := set_intr true (set_ipl IPL_LOW (set_intr false s))) in E.
    assert (Hs1 : swf s1) by (unfold s1; auto with weenix).
    destruct (intr_handle_spec e s1 Hs1 He) as (s2 & Hh & Hs2 & Hev2).
    rewrite (bind_eq _ _ _ _ _ Hh) in E. unfold intr_setipl in E. rewrite bind_modify in E.
    etrans; [by apply (quiet_same s s1)|]. etrans; [by eapply quiet_handle|].
    etrans; [|eapply IH; [|..|exact E]]; [by apply quiet_same|by auto with weenix|].
    eapply Forall_impl; [exact Hok|]. intros x Hx. apply (intr_ok_evolve s1); [|done].
    etrans; [exact Hev2|by apply evolve_same].
Qed.

Lemma quiet_dispatch t T R s :
  swf s -> queues s !! kt_runq = Some R -> last (tq_list R) = Some t -> threads s !! t = Some T ->
  quiet s (dispatch t T s).
Proof.
  intros Hs HR Hl HT. destruct (qwf_last _ _ _ _ (proj1 Hs) HR Hl) as (T' & HT' & Hw & _). simplify_eq.
  eapply (quiet_thr t T (with_state KT_RUN (with_wchan None (with_qlink None T)))); [done|..].
  - apply map_eq. intros u. unfold dispatch, deq. simpl. destruct (decide (u = t)) as [->|]; by simplify_map_eq.
  - intros q. unfold dispatch, deq. simpl. by rewrite lookup_alter_is_Some.
  - done.
  - done.
  - pose proof (asleep_not_exited _ _ (proj2 Hs _ _ HT) Hw). simpl. split; [done|]. by intros ?.
  - done.
Qed.

Lemma quiet_switch evs s s' C :
  swf s -> threads s !! curthr s = Some C -> Forall (intr_ok s) evs -> sched_switch evs s = Ret (tt, s') -> quiet s s'.
Proof.
  intros Hs HC Hok E.
  destruct (sched_switch_inv _ _ _ _ Hs HC Hok E) as (s2 & R & t & T & Hw & Hs2 & _ & HR & Hl & HT & ->).
  etrans; [|by eapply quiet_dispatch]. etrans; [|eapply quiet_wait; [..|exact Hw]]; [|by auto with weenix|done].
  eapply (quiet_thr (curthr s) C (with_ipl (ipl s) C)); [done| |done|done|done|done|by left].
  unfold parked. simpl. by rewrite (insert_alter _ _ _ _ HC).
Qed.

(** A state the running thread may leave behind: it sleeps on a queue that is
    not a process's, or it is on the run queue. *)
Lemma quiet_enq q t T x s :
  threads s !! t = Some T -> 0 <= q \/ q = p_wait (kt_proc T) -> x <> KT_EXITED -> kt_state T <> KT_EXITED ->
  quiet s (enq q t (set_threads (alter (with_state x) t) s)).
Proof.
  intros HT Hq Hx HTx.
  eapply (quiet_thr t T (with_wchan (Some q) (with_qlink (Some q) (with_state x T)))); [done|..].
  - apply map_eq. intros u. unfold enq. simpl. destruct (decide (u = t)) as [->|]; by simplify_map_eq.
  - intros q'. unfold enq. simpl. by rewrite lookup_alter_is_Some.
  - done.
  - done.
  - simpl. split; [done|]. by intros ?.
  - simpl. intros q' [= <-] ?. destruct Hq; [lia|by right].
Qed.

Lemma quiet_cancel t T s s' :
  wf s -> threads s !! t = Some T -> kt_state T <> KT_EXITED -> kt_state T <> KT_NO_STATE -> kt_proc T <> PID_IDLE ->
  sched_cancel t s = Ret (tt, s') -> quiet s s'.
Proof.
  intros [Hs Hc] HT H1 H2 Hp E.
  assert (Hm : quiet s (cancel_mark t s)).
  { eapply (quiet_thr t T (with_cancelled 1 T)); [done| |done|done|done|done|by left]. unfold cancel_mark. simpl. by rewrite (insert_alter _ _ _ _ HT). }
  destruct (kt_state T) eqn:Hst; try done.
  - rewrite (sched_cancel_running _ _ _ HT) in E by auto. by simplify_eq.
  - rewrite (sched_cancel_running _ _ _ HT) in E by auto. by simplify_eq.
  - pose proof (proj2 Hs _ _ HT) as Hok. unfold state_ok in Hok. rewrite Hst in Hok.
    destruct (kt_wchan T) as [q|] eqn:Hw; [|naive_solver]. case_decide; [done|].
    rewrite (sched_cancel_asleep t T q) in E by done. simplify_eq. etrans; [exact Hm|].
    eapply (quiet_wake _ _ (with_cancelled 1 T)); [by auto with weenix| |].
    + unfold cancel_mark. simpl. by simplify_map_eq.
    + simpl. eauto.
Qed.

(** Queues a thread may ask to sleep on. *)
Definition op_public (o : sched_op) : Prop :=
  match o with OSleep _ q | OCancellableSleep _ q => 0 <= q | _ => True end.

Lemma cur_not_exited s T : cur_ok s -> threads s !! curthr s = Some T -> kt_state T <> KT_EXITED.
Proof. intros (C & HC & _ & Hst & _) HT. congruence. Qed.

Lemma quiet_sleep evs x q s s' :
  wf s -> wait_q s q -> 0 <= q -> x = KT_SLEEP \/ x = KT_SLEEP_CANCELLABLE -> Forall (intr_ok s) evs ->
  sched_switch evs (asleep x q s) = Ret (tt, s') -> quiet s s'.
Proof.
  intros Hwf [Hne HQ] Hq Hx Hok E. pose proof Hwf as [_ (C & HC & _ & Hst & _)].
  etrans; [apply (quiet_enq q (curthr s) C x); [done|by left|by destruct Hx as [-> | ->]|congruence]|].
  eapply quiet_switch; [| | |exact E].
  - by apply swf_asleep.
  - unfold asleep, enq. simpl. by simplify_map_eq.
  - eapply Forall_impl; [exact Hok|]. intros e. apply intr_ok_queues. intros q'.
    unfold asleep, enq. simpl. by rewrite lookup_alter_is_Some.
Qed.

Lemma quiet_yield evs s s' :
  wf s -> curproc s <> PID_IDLE -> Forall (intr_ok s) evs -> run_op (OYield evs) s = Ret (tt, s') -> quiet s s'.
Proof.
  intros [Hs (C & HC & Hw & Hst & Ep)] Hp Hok E. simpl in E. rewrite bind_gets in E.
  erewrite bind_eq in E. 2: { eapply sched_make_runnable_eq; [apply Hs|done|done|congruence]. }
  etrans; [apply (quiet_enq kt_runq (curthr s) C KT_RUN); [done|by left|done|congruence]|].
  eapply quiet_switch; [by eapply swf_runnable| | |exact E].
  - unfold runnable, enq. simpl. by simplify_map_eq.
  - eapply Forall_impl; [done|]. intros e. apply intr_ok_queues. intros q.
    unfold enq. simpl. by rewrite lookup_alter_is_Some.
Qed.

Lemma quiet_op o s s' : wf s -> op_ok s o -> op_public o -> run_op o s = Ret (tt, s') ->
  (forall t T, o = OMakeRunnable t -> threads s !! t = Some T -> kt_state T <> KT_EXITED) -> quiet s s'.
Proof.
  intros Hwf Hok Hpub E Hx. pose proof Hwf as [Hs _]. destruct o as [evs q|evs q|q|q|t|t|evs]; simpl in Hok, Hpub.
  - destruct Hok as [Hq Hev]. simpl in E. rewrite sched_sleep_on_eq in E by (done || apply Hq).
    eapply quiet_sleep; [done|done|done|by left|done|exact E].
  - destruct Hok as [Hq Hev]. simpl in E. pose proof Hwf as [_ (C & HC & _)].
    destruct (decide (kt_cancelled C = 1)) as [Ec|Hnc].
    + unfold sched_cancellable_sleep_on in E. rewrite bind_bind, bind_gets in E.
      rewrite bind_bind, (bind_eq _ _ _ _ _ (thr_get_eq _ _ _ HC)), Ec in E. by injection E as <-.
    + unfold bind in E. erewrite sched_cancellable_sleep_on_eq in E by (done || apply Hq). unfold bind in E.
      destruct (sched_switch evs _) as [[[] s1]|] eqn:Esw; [|done]. injection E as <-.
      eapply quiet_sleep; [done|done|done|by right|done|exact Esw].
  - simpl in E. unfold bind in E. destruct (sched_wakeup_on q s) as [[r s1]|] eqn:Ew; [|done]. injection E as <-.
    by eapply quiet_wakeup.
  - by eapply quiet_broadcast.
  - destruct Hok as (T & HT & ? & ? & ?). by eapply quiet_cancel.
  - destruct Hok as (T & HT & Hw & Hp & _). simpl in E. rewrite (sched_make_runnable_eq _ _ _ (proj1 Hs) HT Hw Hp) in E.
    injection E as <-. eapply quiet_enq; [done|by left|done|by eapply Hx].
  - destruct Hok. by eapply quiet_yield.
Qed.

(** ** Threads and queues that appear and disappear *)

Lemma swf_new_queue q s :
  swf s -> q <> kt_runq -> (forall t T, threads s !! t = Some T -> kt_wchan T <> Some q) ->
  swf (set_queues <[q := MkQueue [] 0]> s).
Proof.
  intros [[H1 H2 H3 H4 H5] Hst] Hne Hno. split; [split|exact Hst]; simpl; try done.
  - by rewrite lookup_insert_ne.
  - intros q' Q [[<- <-]|[_ HQ]]%lookup_insert_Some; [split; [done|constructor]|eauto].
  - intros q' Q t [[<- <-]|[_ HQ]]%lookup_insert_Some Hin; [set_solver|eauto].
  - intros t T q' HT Hw. destruct (H4 _ _ _ HT Hw) as (Q & HQ & Hin). exists Q. split; [|done].
    rewrite lookup_insert_ne; [done|]. intros ->. by destruct (Hno _ _ HT).
Qed.

Lemma swf_new_thread t T s :
  swf s -> threads s !! t = None -> kt_wchan T = None -> kt_qlink T = None -> state_ok T ->
  swf (set_threads <[t := T]> s).
Proof.
  intros [[H1 H2 H3 H4 H5] Hst] Ht Hw Hk Hok. split; [split|]; simpl; try done.
  - intros q Q u HQ Hin. destruct (H3 _ _ _ HQ Hin) as (U & HU & ?). exists U. rewrite lookup_insert_ne by congruence. done.
  - intros u U q [[<- <-]|[_ HU]]%lookup_insert_Some Hq; [congruence|eauto].
  - intros u U [[<- <-]|[_ HU]]%lookup_insert_Some; [congruence|eauto].
  - intros u U [[<- <-]|[_ HU]]%lookup_insert_Some; eauto.
Qed.

Lemma swf_del_thread t T s :
  swf s -> threads s !! t = Some T -> kt_wchan T = None -> swf (set_threads (delete t) s).
Proof.
  intros [[H1 H2 H3 H4 H5] Hst] Ht Hw. split; [split|]; simpl; try done.
  - intros q Q u HQ Hin. destruct (H3 _ _ _ HQ Hin) as (U & HU & ?). exists U. rewrite lookup_delete_ne by congruence. done.
  - intros u U q [_ HU]%lookup_delete_Some Hq. eauto.
  - intros u U [_ HU]%lookup_delete_Some. eauto.
  - intros u U [_ HU]%lookup_delete_Some. eauto.
Qed.

(** ** Running the operations of the table *)

Ltac kcbn :=
  cbn [set_sched set_procs set_plist set_next set_init set_pslab set_tslab set_wait set_rest
       k_sched procs _proc_list next_pid proc_initproc proc_allocator kthread_allocator k_wait k_rest].

Section run.
Context {R : Type} `{!KernelRest R}.
Implicit Types (s : ktab R) (a t : Z).

Lemma on_sched_eq {A} (m : M sys A) s v x : m (k_sched s) = Ret (v, x) -> on_sched m s = Ret (v, set_sched x s).
Proof. unfold on_sched, zoom. by intros ->. Qed.

Lemma on_rest_eq {A} (m : M R A) s v r : m (k_rest s) = Ret (v, r) -> on_rest m s = Ret (v, set_rest r s).
Proof. unfold on_rest, zoom. by intros ->. Qed.

Lemma proc_get_eq a P s : procs s !! a = Some P -> proc_get a s = Ret (P, s).
Proof. unfold proc_get, bind, gets. simpl. by intros ->. Qed.

Lemma proc_set_eq a f s : is_Some (procs s !! a) -> proc_set a f s = Ret (tt, set_procs (alter f a (procs s)) s).
Proof.
  intros [P HP]. unfold proc_set, bind. rewrite (proc_get_eq _ _ _ HP). unfold modify. by rewrite (insert_alter _ _ _ _ HP).
Qed.

Lemma thr_set_alter (f : kthread -> kthread) t (x : sys) :
  is_Some (threads x !! t) -> thr_set t f x = Ret (tt, set_threads (alter f t) x).
Proof.
  intros [T HT]. rewrite (thr_set_eq _ _ _ _ HT). do 2 f_equal. apply sys_ext; try done. simpl. by apply insert_alter.
Qed.

(** *** Creation *)

Definition blank : proc := MkProc 0 [] [] [] None 0 PROC_RUNNING None.

(** The state in which [proc_create] asks for an identifier. *)
Definition asking (new : Z) (sl : list Z) s : ktab R := set_procs (<[new := blank]> (procs s)) (set_pslab sl s).

Definition created (name : list Z) (new : Z) (sl : list Z) (pid n pd : Z) (r : R) s : ktab R :=
  let cur := curproc (k_sched s) in
  let m := <[new := MkProc pid (comm_of name) [] [] (if PID_IDLE <? pid then Some cur else None) 0
                      PROC_RUNNING (Some pd)]> (procs s) in
  MkK R (set_queues <[p_wait new := MkQueue [] 0]> (k_sched s))
    (if PID_IDLE <? pid then alter (fun Q => with_children (p_children Q ++ [new]) Q) cur m else m)
    (_proc_list s ++ [new]) n (if pid =? PID_INIT then Some new else proc_initproc s) sl
    (kthread_allocator s) (k_wait s) r.

Lemma proc_create_eq name s new sl pid n pd r1 r2 :
  proc_allocator s = new :: sl ->
  _proc_getid (asking new sl s) = Ret (pid, set_next n (asking new sl s)) ->
  (pid = PID_IDLE -> _proc_list s = []) ->
  (pid = PID_INIT -> exists C, procs s !! curproc (k_sched s) = Some C /\ p_pid C = PID_IDLE) ->
  (0 < pid -> curproc (k_sched s) <> new /\ is_Some (procs s !! curproc (k_sched s))) ->
  pt_create_pagedir (k_rest s) = Ret (Some pd, r1) -> vmmap_create_for new r1 = Ret (tt, r2) ->
  proc_create name s = Ret (new, created name new sl pid n pd r2 s).
Proof.
  intros Hsl Hid Hidle Hinit Hcur Hpd Hvm. unfold proc_create, slab_proc.
  rewrite bind_bind, bind_gets, Hsl, bind_bind, bind_modify, bind_ret, bind_modify.
  rewrite (bind_eq _ _ _ _ _ Hid), bind_gets, bind_assert.
  2: { destruct (Z.eqb_spec pid PID_IDLE) as [E|]; simpl; [by rewrite (Hidle E)|done]. }
  unfold get_curproc. rewrite bind_gets.
  erewrite bind_eq.
  2: { instantiate (1 := if pid =? PID_INIT then set_init (Some new) (set_next n (asking new sl s)) else set_next n (asking new sl s)).
       instantiate (1 := tt). destruct (Z.eqb_spec pid PID_INIT) as [E|]; [|done]. destruct (Hinit E) as (C & HC & Hp).
       destruct Hcur as [Hne _]; [by rewrite E|].
       rewrite (bind_eq _ _ _ C (set_next n (asking new sl s))). 2: { apply proc_get_eq. simpl. by rewrite lookup_insert_ne. }
       by rewrite bind_assert by (by apply Z.eqb_eq). }
  set (s1 := if pid =? PID_INIT then _ else _).
  assert (E1 : s1 = MkK R (k_sched s) (<[new := blank]> (procs s)) (_proc_list s) n (if pid =? PID_INIT then Some new else proc_initproc s)
    sl (kthread_allocator s) (k_wait s) (k_rest s)) by (unfold s1, asking; by destruct (pid =? PID_INIT)).
  rewrite E1. clear s1 E1. cbn zeta.
  erewrite bind_eq by (by apply on_sched_eq). kcbn.
  erewrite bind_eq by (apply on_rest_eq; exact Hpd). kcbn.
  erewrite bind_eq by (apply proc_set_eq; simpl; rewrite lookup_insert_eq; eauto). kcbn. rewrite bind_modify. kcbn.
  erewrite bind_eq by (apply on_rest_eq; exact Hvm). kcbn. unfold created.
  assert (Em : forall P, alter (fun _ => P) new (<[new := blank]> (procs s)) = <[new := P]> (procs s)).
  { intros P. apply map_eq. intros j. destruct (decide (j = new)) as [->|]; by simplify_map_eq. }
  rewrite Em. destruct (Z.ltb_spec PID_IDLE pid) as [Hlt|Hge]; [|done].
  destruct Hcur as [Hne HC]; [done|]. erewrite bind_eq; [done|]. apply proc_set_eq. kcbn. by rewrite lookup_insert_ne.
Qed.

Lemma kthread_create_eq p P pd s k sl ks r :
  kthread_allocator s = k :: sl -> procs s !! p = Some P -> p_pagedir P = Some pd -> alloc_stack (k_rest s) = Ret (Some ks, r) ->
  kthread_create p s =
  Ret (k, MkK R (set_threads <[k := MkThread KT_RUN 0 None None 0 0 p ks IPL_LOW]> (k_sched s))
            (alter (fun P => with_threads (p_threads P ++ [k]) P) p (procs s)) (_proc_list s) (next_pid s) (proc_initproc s)
            (proc_allocator s) sl (k_wait s) r).
Proof.
  intros Hsl HP Hpd Hst. unfold kthread_create, slab_thread. rewrite bind_bind, bind_gets, Hsl, bind_bind, bind_modify, bind_ret.
  erewrite bind_eq by (apply on_rest_eq; exact Hst). erewrite bind_eq by (apply proc_get_eq; exact HP).
  unfold context_setup. rewrite bind_bind, bind_assert by (rewrite Hpd; by apply bool_decide_eq_true_2).
  rewrite !bind_deref. erewrite bind_eq by (by apply on_sched_eq).
  erewrite bind_eq by (apply proc_set_eq; simpl; eauto). done.
Qed.
End run.

(** ** The invariant *)

(** What a process owns: its page directory, the stack of its thread, and until
    it exits its address space and files. *)
Record owns : Type := MkOwns {
  o_pagedir : Z;
  o_stack : Z;
  o_alive : bool
}.

(** What the rest of the kernel promises: [books r o] says that the processes of
    [o] own what [o] says, [room n r] that there is memory for [n] further
    processes; creation, fork, exit and disposal succeed and keep the books.
    The books are the caller's obligation too, and they must rule out what the code
    does not check: the loop that closes the files of a process on exit runs past
    the table when all 32 descriptors are open ([exit_files_cases]), so [books]
    has to say that every live process has a descriptor closed, as those of
    [book] in ProcLife.v do.  A machine that opens the last descriptor leaves
    the scope of these laws. *)
Class KernelLaws (R : Type) `{!KernelRest R} : Type := {
  books : R -> gmap Z owns -> Prop;
  room : nat -> R -> Prop;
  law_create n r o a : books r o -> o !! a = None -> room (S n) r ->
    exists pd ks r1 r2 r3, pt_create_pagedir r = Ret (Some pd, r1) /\ vmmap_create_for a r1 = Ret (tt, r2) /\
      alloc_stack r2 = Ret (Some ks, r3) /\ ks <> 0 /\ books r3 (<[a := MkOwns pd ks true]> o) /\ room n r3;
  law_fork n r o a b B : books r o -> o !! a = None -> o !! b = Some B -> o_alive B = true -> room (S n) r ->
    exists pd ks r1 r2 r3 r4 r5, pt_create_pagedir r = Ret (Some pd, r1) /\ vmmap_create_for a r1 = Ret (tt, r2) /\
      fork_vm_of b a r2 = Ret (tt, r3) /\ alloc_stack r3 = Ret (Some ks, r4) /\ fork_files_of b a r4 = Ret (tt, r5) /\
      ks <> 0 /\ books r5 (<[a := MkOwns pd ks true]> o) /\ room n r5;
  law_exit r o a pd ks : books r o -> o !! a = Some (MkOwns pd ks true) ->
    exists r1 r2, vmmap_destroy_of a r = Ret (tt, r1) /\ release_files_of a r1 = Ret (tt, r2) /\
      books r2 (<[a := MkOwns pd ks false]> o);
  law_reap r o a pd ks : books r o -> o !! a = Some (MkOwns pd ks false) ->
    exists r1 r2, free_stack ks r = Ret (tt, r1) /\ pt_destroy_pagedir pd r1 = Ret (tt, r2) /\ books r2 (delete a o)
}.

(** A blocked wait: the caller has passed a place for the status; a wait for one
    child: the child is still there. *)
Definition wait_ok (P : proc) (w : wait_call) : Prop :=
  match w with WaitAny st => st = true | WaitPid p st => st = true /\ p ∈ p_children P end.

Section invariant.
Context {R : Type} `{!KernelRest R} `{!KernelLaws R}.
Implicit Types (s : ktab R) (a t : Z) (o : gmap Z owns).

(** The process [a] and its thread agree with each other and with the books. *)
Definition proc_ok (x : sys) o a (P : proc) : Prop :=
  0 <= a /\ is_Some (queues x !! p_wait a) /\
  exists t T pd, p_threads P = [t] /\ threads x !! t = Some T /\ kt_proc T = a /\ kt_kstack T <> 0 /\
    (p_state P = PROC_DEAD <-> kt_state T = KT_EXITED) /\ p_pagedir P = Some pd /\
    o !! a = Some (MkOwns pd (kt_kstack T) (bool_decide (p_state P = PROC_RUNNING))).

Record kcore s (init : Z) o : Prop := {
  kc_sched : swf (k_sched s);
  kc_init : proc_initproc s = Some init;
  kc_tree : ptree (procs s) (_proc_list s) init;
  kc_books : books (k_rest s) o;
  kc_proc : forall a P, procs s !! a = Some P -> proc_ok (k_sched s) o a P;
  kc_own : forall a, procs s !! a = None -> o !! a = None;
  kc_thread : forall t T, threads (k_sched s) !! t = Some T -> exists P, procs s !! kt_proc T = Some P /\ p_threads P = [t];
  kc_wchan : forall t T q, threads (k_sched s) !! t = Some T -> kt_wchan T = Some q -> q < 0 -> q = p_wait (kt_proc T);
  kc_pslab : NoDup (proc_allocator s) /\ forall a, a ∈ proc_allocator s -> 0 < a /\ procs s !! a = None;
  kc_tslab : NoDup (kthread_allocator s) /\ forall t, t ∈ kthread_allocator s -> threads (k_sched s) !! t = None;
  kc_next : 0 <= next_pid s < PROC_MAX_COUNT;
  kc_wait : forall t w, k_wait s !! t = Some w -> exists T P, threads (k_sched s) !! t = Some T /\
    kt_state T <> KT_EXITED /\ procs s !! kt_proc T = Some P /\ wait_ok P w
}.

(** Every thread that has not exited runs or waits to run. *)
Definition nobody_lost (x : sys) : Prop :=
  forall t T, threads x !! t = Some T -> kt_state T <> KT_EXITED -> tracked x t.

Definition kinv s : Prop :=
  exists init o, kcore s init o /\ cur_ok (k_sched s) /\ nobody_lost (k_sched s).

Lemma p_wait_inj a b : p_wait a = p_wait b -> a = b.
Proof. unfold p_wait. lia. Qed.

Lemma proc_ok_quiet x x' o a P : quiet x x' -> proc_ok x o a P -> proc_ok x' o a P.
Proof.
  intros Hq (H0 & HQ & t & T & pd & H1 & H2 & H3 & H4 & H5 & H6 & H7). destruct (qt_thr _ _ Hq _ _ H2) as (T' & HT' & E1 & E2 & E3 & _).
  split_and!; [done|by apply (qt_queue _ _ Hq)|]. exists t, T', pd. rewrite E1, E2, E3. done.
Qed.

Lemma quiet_thr_inv x x' t T' : quiet x x' -> threads x' !! t = Some T' ->
  exists T, threads x !! t = Some T /\ kt_proc T' = kt_proc T /\ kt_kstack T' = kt_kstack T /\
    (kt_state T' = KT_EXITED <-> kt_state T = KT_EXITED) /\ (forall q, kt_wchan T' = Some q -> q < 0 -> kt_wchan T = Some q \/ q = p_wait (kt_proc T)).
Proof.
  intros Hq HT'. destruct (threads x !! t) as [T|] eqn:HT.
  - destruct (qt_thr _ _ Hq _ _ HT) as (T2 & HT2 & H). simplify_eq. eauto.
  - rewrite (qt_none _ _ Hq _ HT) in HT'. done.
Qed.

Lemma kcore_quiet s init o x : kcore s init o -> swf x -> quiet (k_sched s) x -> kcore (set_sched x s) init o.
Proof.
  intros [H1 H2 H3 H4 H5 H6 H7 H8 H9 H10 H11 H12] Hx Hq. split; kcbn; try done.
  - intros a P HP. eapply proc_ok_quiet; [exact Hq|eauto].
  - intros t T HT. destruct (quiet_thr_inv _ _ _ _ Hq HT) as (T0 & HT0 & -> & _). eauto.
  - intros t T q HT Hw Hneg. destruct (quiet_thr_inv _ _ _ _ Hq HT) as (T0 & HT0 & -> & _ & _ & Hw0). destruct (Hw0 q); eauto.
  - split; [apply H10|]. intros t Ht. apply (qt_none _ _ Hq). by apply H10.
  - intros t w Hw. destruct (H12 _ _ Hw) as (T & P & HT & Hne & HP & Hok). destruct (qt_thr _ _ Hq _ _ HT) as (T' & HT' & E1 & _ & E3 & _).
    exists T', P. rewrite E1, E3. done.
Qed.

(** A thread is its process's only thread. *)
Lemma only_thread s init o t u T U :
  kcore s init o -> threads (k_sched s) !! t = Some T -> threads (k_sched s) !! u = Some U -> kt_proc T = kt_proc U -> t = u.
Proof.
  intros Hk HT HU E. destruct (kc_thread _ _ _ Hk _ _ HT) as (P & HP & Hp). destruct (kc_thread _ _ _ Hk _ _ HU) as (P' & HP' & Hp').
  rewrite E in HP. simplify_eq. congruence.
Qed.

(** The running process. *)
Lemma cur_proc s init o :
  kcore s init o -> cur_ok (k_sched s) ->
  exists T P, threads (k_sched s) !! curthr (k_sched s) = Some T /\ kt_proc T = curproc (k_sched s) /\ kt_wchan T = None /\
    kt_qlink T = None /\ kt_state T = KT_RUN /\ kt_kstack T <> 0 /\
    procs s !! curproc (k_sched s) = Some P /\ p_threads P = [curthr (k_sched s)] /\ p_state P = PROC_RUNNING.
Proof.
  intros Hk (T & HT & Hw & Hst & Hp). destruct (kc_thread _ _ _ Hk _ _ HT) as (P & HP & Hth). rewrite Hp in HP.
  destruct (kc_proc _ _ _ Hk _ _ HP) as (_ & _ & t & T' & pd & Ht & HT' & _ & Hks & Hd & _).
  assert (t = curthr (k_sched s)) as -> by congruence. simplify_eq. exists T, P. split_and!; try done.
  - rewrite <- Hw. by apply (qwf_link _ (proj1 (kc_sched _ _ _ Hk)) (curthr (k_sched s))).
  - destruct (p_state P); [done|]. rewrite Hst in Hd. by destruct Hd as [Hd _]; specialize (Hd eq_refl).
Qed.

(** *** A new process *)

Lemma kcore_new s init o new sl k sl' pid n pd ks name x' r' Q T' :
  kcore s init o -> proc_allocator s = new :: sl -> kthread_allocator s = k :: sl' ->
  procs s !! curproc (k_sched s) = Some Q -> p_state Q = PROC_RUNNING ->
  0 <= pid < PROC_MAX_COUNT -> 0 <= n < PROC_MAX_COUNT -> (forall a P, procs s !! a = Some P -> p_pid P <> pid) ->
  swf x' -> threads x' = <[k := T']> (threads (k_sched s)) ->
  (forall q, is_Some (queues (k_sched s) !! q) -> is_Some (queues x' !! q)) -> is_Some (queues x' !! p_wait new) ->
  kt_proc T' = new -> kt_kstack T' = ks -> ks <> 0 -> kt_state T' <> KT_EXITED -> (forall q, kt_wchan T' = Some q -> 0 <= q) ->
  books r' (<[new := MkOwns pd ks true]> o) ->
  kcore (MkK R x' (<[curproc (k_sched s) := with_children (p_children Q ++ [new]) Q]>
                     (<[new := MkProc pid name [k] [] (Some (curproc (k_sched s))) 0 PROC_RUNNING (Some pd)]> (procs s)))
           (_proc_list s ++ [new]) n (proc_initproc s) sl sl' (k_wait s) r') init (<[new := MkOwns pd ks true]> o).
Proof.
  intros [H1 H2 H3 H4 H5 H6 H7 H8 H9 H10 H11 H12] Hsl Hsl' HQ Hrun Hpid Hn Hnew Hx Hthr Hqs Hqn Hp Hks Hks0 Hst Hw Hb.
  set (cur := curproc (k_sched s)) in *.
  rewrite Hsl in H9. rewrite Hsl' in H10. destruct H9 as [Hnd9 H9], H10 as [Hnd10 H10].
  destruct (H9 new) as [Hpos Hfresh]; [set_solver|]. assert (Hk : threads (k_sched s) !! k = None) by (apply H10; set_solver).
  assert (Hcn : cur <> new) by congruence.
  assert (Hpres : forall a P, a <> new -> proc_ok (k_sched s) o a P -> proc_ok x' (<[new := MkOwns pd ks true]> o) a P).
  { intros a P Ha (A0 & AQ & t & T & pd' & A1 & A2 & A3). split_and!; [done|by apply Hqs|]. exists t, T, pd'.
    rewrite Hthr, !lookup_insert_ne by congruence. done. }
  split; kcbn; try done.
  - eapply ptree_add; eauto. lia.
  - intros a P [[<- <-]|[Hne [[<- <-]|[Hne' HP]]%lookup_insert_Some]]%lookup_insert_Some.
    + apply Hpres; [done|]. exact (H5 _ _ HQ).
    + split_and!; [lia|done|]. exists k, T', pd. simpl. rewrite Hthr, !lookup_insert_eq. split_and!; try done; [congruence|].
      by rewrite Hks.
    + apply Hpres; eauto.
  - intros a Ha. rewrite !lookup_insert_None in Ha. rewrite lookup_insert_ne; [|naive_solver]. apply H6. naive_solver.
  - intros t T. rewrite Hthr. intros [[<- <-]|[Hne HT]]%lookup_insert_Some.
    + eexists. rewrite Hp, lookup_insert_ne, lookup_insert_eq by done. done.
    + destruct (H7 _ _ HT) as (P & HP & Hth). destruct (decide (kt_proc T = cur)) as [E|Hne'].
      * rewrite E in HP |- *. simplify_eq. eexists. rewrite lookup_insert_eq. done.
      * exists P. rewrite !lookup_insert_ne by congruence. done.
  - intros t T q. rewrite Hthr. intros [[<- <-]|[Hne HT]]%lookup_insert_Some Hq Hneg; [apply Hw in Hq; lia|eauto].
  - apply NoDup_cons in Hnd9 as [Hni Hnd9]. split; [done|]. intros a Ha. destruct (H9 a) as [? ?]; [set_solver|]. split; [done|].
    rewrite !lookup_insert_ne; [done|set_solver|congruence].
  - apply NoDup_cons in Hnd10 as [Hni Hnd10]. split; [done|]. intros t Ht. rewrite Hthr, lookup_insert_ne by set_solver. apply H10. set_solver.
  - intros t w Hwt. destruct (H12 _ _ Hwt) as (T & P & HT & Hne & HP & Hok).
    assert (t <> k) by congruence. assert (kt_proc T <> new) by congruence.
    rewrite Hthr, lookup_insert_ne by done. destruct (decide (kt_proc T = cur)) as [E|Hne'].
    + exists T, (with_children (p_children Q ++ [new]) Q). rewrite E in HP |- *. simplify_eq. rewrite lookup_insert_eq. split_and!; try done.
      destruct w; [done|]. destruct Hok. simpl. set_solver.
    + exists T, P. rewrite !lookup_insert_ne by done. done.
Qed.

(** *** A process exits *)

Definition exited (z : Z) (T : kthread) : kthread := with_state KT_EXITED (with_retval z T).

Lemma kcore_exit s init o me P t T z z' pd ks m' x' r' :
  kcore s init o -> procs s !! me = Some P -> me <> 0 -> me <> init ->
  p_threads P = [t] -> threads (k_sched s) !! t = Some T -> k_wait s !! t = None ->
  o !! me = Some (MkOwns pd ks true) -> books r' (<[me := MkOwns pd ks false]> o) ->
  (forall a, m' !! a = exit_node me init z P a <$> procs s !! a) ->
  quiet (set_threads (alter (exited z') t) (k_sched s)) x' -> swf x' -> (forall T', threads x' !! t = Some T' -> kt_wchan T' = None) ->
  kcore (set_rest r' (set_procs m' (set_sched x' s))) init (<[me := MkOwns pd ks false]> o).
Proof.
  intros [H1 H2 H3 H4 H5 H6 H7 H8 H9 H10 H11 H12] HP Hm0 Hmi Ht HT Hnw Ho Hb Hm' Hq Hx Htw.
  destruct (H5 _ _ HP) as (_ & _ & t0 & T0 & pd0 & E0 & HT0 & Hp0 & Hks0 & Hd0 & Hpd0 & Ho0).
  assert (t0 = t) as -> by congruence. assert (T0 = T) as -> by congruence. subst me.
  rewrite Ho in Ho0. injection Ho0 as <- -> _.
  set (x1 := set_threads (alter (exited z') t) (k_sched s)) in *.
  assert (Hx1 : forall u, threads x1 !! u = (if decide (u = t) then exited z' <$> threads (k_sched s) !! u else threads (k_sched s) !! u)).
  { intros u. unfold x1, set_threads. cbn [threads]. destruct (decide (u = t)) as [->|Hut]; [by rewrite lookup_alter_eq|by rewrite lookup_alter_ne]. }
  assert (Hmine : forall u U, threads (k_sched s) !! u = Some U -> kt_proc U = kt_proc T -> u = t).
  { intros u U HU E. destruct (H7 _ _ HU) as (P' & HP' & Hth). rewrite E in HP'. congruence. }
  split; kcbn; try done.
  - eapply ptree_exit; eauto.
  - intros a X HX. rewrite Hm' in HX. apply fmap_Some in HX as (Y & HY & ->). apply (proc_ok_quiet x1); [done|].
    destruct (H5 _ _ HY) as (A0 & AQ & u & U & pd' & A1 & A2 & A3 & A4 & A5 & A6 & A7). split_and!; [done|done|].
    rewrite exit_node_threads, exit_node_pagedir. destruct (decide (a = kt_proc T)) as [->|Ha].
    + assert (Y = P) as -> by congruence. exists t, (exited z' T), pd. rewrite Hx1, decide_True, HT by done. rewrite lookup_insert_eq.
      unfold exit_node. rewrite decide_True by done. simpl. split_and!; try done.
    + exists u, U, pd'. assert (u <> t) by (intros ->; congruence). rewrite Hx1, decide_False by done. rewrite lookup_insert_ne by done.
      destruct (exit_node_other (kt_proc T) init z P a Y Ha) as [-> _]. done.
  - intros a Ha. rewrite Hm', fmap_None in Ha. rewrite lookup_insert_ne by congruence. auto.
  - intros u U' HU'. destruct (quiet_thr_inv _ _ _ _ Hq HU') as (U & HU & -> & _). rewrite Hx1 in HU.
    assert (exists U0, threads (k_sched s) !! u = Some U0 /\ kt_proc U = kt_proc U0) as (U0 & HU0 & ->).
    { case_decide; [|eauto]. apply fmap_Some in HU as (U0 & ? & ->). eauto. }
    destruct (H7 _ _ HU0) as (Y & HY & Hth). exists (exit_node (kt_proc T) init z P (kt_proc U0) Y).
    rewrite Hm', HY, exit_node_threads. done.
  - intros u U' q HU' Hw Hneg. destruct (quiet_thr_inv _ _ _ _ Hq HU') as (U & HU & -> & _ & _ & Hback). rewrite Hx1 in HU.
    case_decide as Hut; [subst u; rewrite (Htw _ HU') in Hw; done|]. destruct (Hback q); eauto.
  - split; [apply H9|]. intros a Ha. destruct H9 as [_ H9]. destruct (H9 a Ha) as [? Hn]. by rewrite Hm', Hn.
  - split; [apply H10|]. intros u Hu. apply (qt_none _ _ Hq). rewrite Hx1. case_decide; [|by apply H10]. subst u. destruct H10 as [_ H10].
    rewrite (H10 t Hu) in HT. done.
  - intros u w Hw. destruct (H12 _ _ Hw) as (U & Y & HU & Hne & HY & Hok). assert (Hut : u <> t) by congruence.
    assert (HU1 : threads x1 !! u = Some U) by (rewrite Hx1, decide_False; done).
    destruct (qt_thr _ _ Hq _ _ HU1) as (U' & HU' & E1 & _ & E3 & _). exists U', (exit_node (kt_proc T) init z P (kt_proc U) Y).
    rewrite E1, E3, Hm', HY. split_and!; try done. destruct w as [|c st]; [done|]. destruct Hok as [-> Hc]. split; [done|].
    apply exit_node_other; [|done]. intros E. by apply Hut, (Hmine u U).
Qed.

(** *** A dead child is disposed of *)

Lemma kcore_reap s init o me Q p P t T pd r' :
  kcore s init o -> procs s !! me = Some Q -> p ∈ p_children Q -> procs s !! p = Some P -> p_state P = PROC_DEAD ->
  p_threads P = [t] -> threads (k_sched s) !! t = Some T -> p_threads Q = [curthr (k_sched s)] ->
  k_wait s !! curthr (k_sched s) = None -> o !! p = Some (MkOwns pd (kt_kstack T) false) -> books r' (delete p o) ->
  kcore (MkK R (set_threads (delete t) (k_sched s))
           (delete p (<[me := with_children (filter (fun x => x <> p) (p_children Q)) Q]> (procs s)))
           (filter (fun x => x <> p) (_proc_list s)) (next_pid s) (proc_initproc s) (p :: proc_allocator s)
           (t :: kthread_allocator s) (k_wait s) r') init (delete p o).
Proof.
  intros Hkc HQ Hin HP Hd Ht HT Hme Hnw Ho Hb. pose proof Hkc as [H1 H2 H3 H4 H5 H6 H7 H8 H9 H10 H11 H12].
  destruct (H5 _ _ HP) as (Hp0 & _ & t0 & T0 & pd0 & E0 & HT0 & Hpp & _ & Hd0 & Hpd0 & Ho0).
  assert (t0 = t) as -> by congruence. assert (T0 = T) as -> by congruence. subst p.
  assert (Hex : kt_state T = KT_EXITED) by (by apply Hd0).
  assert (Hpm : kt_proc T <> me) by (intros <-; eapply (not_own_child _ _ _ H3); [exact HQ|done]).
  assert (Hpz : kt_proc T <> 0) by (intros E; rewrite E in Hin; eapply (idle_not_child _ _ _ H3); [exact HQ|done]).
  assert (Hmine : forall u U, threads (k_sched s) !! u = Some U -> kt_proc U = kt_proc T -> u = t) by (intros; by eapply only_thread).
  assert (Hlk : forall a X, procs s !! a = Some X -> a <> kt_proc T ->
    exists X', delete (kt_proc T) (<[me := with_children (filter (fun x => x <> kt_proc T) (p_children Q)) Q]> (procs s)) !! a = Some X' /\
      p_threads X' = p_threads X /\ (a <> me -> X' = X)).
  { intros a X HX Ha. rewrite lookup_delete_ne by done. destruct (decide (a = me)) as [->|Ham].
    - eexists. rewrite lookup_insert_eq. split; [done|]. by simplify_eq.
    - exists X. by rewrite lookup_insert_ne. }
  split; kcbn; try done; unfold set_threads, proc_ok; cbn [threads queues].
  - change (swf (set_threads (delete t) (k_sched s))). eapply swf_del_thread; [done|exact HT|]. destruct H1 as [_ Hst]. pose proof (Hst _ _ HT) as Hok. unfold state_ok in Hok.
    rewrite Hex in Hok. destruct (kt_wchan T); [case_decide; naive_solver|done].
  - by eapply ptree_reap.
  - intros a X [Hap [[<- <-]|[Ham HX]]%lookup_insert_Some]%lookup_delete_Some.
    + destruct (H5 _ _ HQ) as (A0 & AQ & u & U & pd' & A1 & A2 & A3). split_and!; [done|done|]. exists u, U, pd'. simpl.
      assert (u <> t) by (intros ->; destruct A3; simplify_eq). rewrite !lookup_delete_ne by done. done.
    + destruct (H5 _ _ HX) as (A0 & AQ & u & U & pd' & A1 & A2 & A3). split_and!; [done|done|]. exists u, U, pd'. simpl.
      assert (u <> t) by (intros ->; destruct A3; simplify_eq). rewrite !lookup_delete_ne by done. done.
  - intros a Ha. destruct (decide (a = kt_proc T)) as [->|Hne]; [by rewrite lookup_delete_eq|]. rewrite lookup_delete_ne by done.
    apply H6. rewrite lookup_delete_ne, lookup_insert_None in Ha by done. naive_solver.
  - intros u U [Hut HU]%lookup_delete_Some. destruct (H7 _ _ HU) as (X & HX & Hth).
    destruct (Hlk _ _ HX) as (X' & HX' & E & _). { intros E. by apply Hut; symmetry; eapply Hmine. }
    exists X'. split; [done|congruence].
  - intros u U q [Hut HU]%lookup_delete_Some. eauto.
  - destruct H9 as [Hnd H9]. split.
    + constructor; [|done]. intros Hp%H9. naive_solver congruence.
    + intros a [->|Ha]%elem_of_cons; [split; [lia|by rewrite lookup_delete_eq]|]. destruct (H9 a Ha) as [? Hn]. split; [done|].
      rewrite lookup_delete_None, lookup_insert_None. right. split; [done|]. congruence.
  - destruct H10 as [Hnd H10]. split.
    + constructor; [|done]. intros Hp%H10. congruence.
    + intros u [->|Hu]%elem_of_cons; [by rewrite lookup_delete_eq|]. rewrite lookup_delete_None. right. by apply H10.
  - intros u w Hw. destruct (H12 _ _ Hw) as (U & X & HU & Hne & HX & Hok). assert (u <> t) by congruence.
    assert (Hum : kt_proc U <> me).
    { intros E. destruct (H7 _ _ HU) as (Y & HY & Hth). rewrite E in HY. simplify_eq. assert (u = curthr (k_sched s)) by congruence. congruence. }
    destruct (Hlk _ _ HX) as (X' & HX' & _ & E); [intros E; eauto|]. rewrite (E Hum) in HX'.
    exists U, X. rewrite lookup_delete_ne by done. done.
Qed.
End invariant.
