(* ===== verification/ProcRun.v ===== *)
(** * Processes over time

    Every operation of Proc.v as a step that keeps the invariant of ProcInv.v,
    starting from the boot sequence: [kcall] are the calls, [kreach] the
    executions.  [Books] at the end is an implementation of [KernelLaws] that
    keeps nothing but the books and checks every call. *)

From S2P Require Import Prelude Sched Proc ProcInv.

Section steps.
Context {R : Type} `{!KernelRest R} `{!KernelLaws R}.
Implicit Types (s : ktab R) (a t : Z) (o : gmap Z owns).

(** ** Steps of the scheduler *)

Lemma intr_ok_quiet x x' evs : quiet x x' -> Forall (intr_ok x) evs -> Forall (intr_ok x') evs.
Proof. intros Hq Hev. eapply Forall_impl; [exact Hev|]. intros e. apply intr_ok_queues, Hq. Qed.

Lemma kinv_quiet s x :
  kinv s -> quiet (k_sched s) x -> survives (k_sched s) x -> kinv (set_sched x s).
Proof.
  intros (init & o & Hk & Hc & Hl) Hq ([Hs Hc'] & _ & Htr). exists init, o. split_and!; [by apply kcore_quiet|done|].
  intros t T' HT' Hne. destruct (quiet_thr_inv _ _ _ _ Hq HT') as (T & HT & _ & _ & E & _). apply Htr, (Hl _ _ HT). by rewrite <- E.
Qed.

(** The processor is given up by a thread that has exited or waits. *)
Lemma switch_kinv evs s init o :
  kcore s init o -> Forall (intr_ok (k_sched s)) evs -> is_Some (threads (k_sched s) !! curthr (k_sched s)) ->
  (forall t T, threads (k_sched s) !! t = Some T -> kt_state T <> KT_EXITED -> is_Some (kt_wchan T)) ->
  wpd (on_sched (sched_switch evs)) (fun _ s' => kinv s' /\ exists x, s' = set_sched x s /\ quiet (k_sched s) x) s.
Proof.
  intros Hk Hev [C HC] Hw. pose proof (sched_switch_spec evs _ C (kc_sched _ _ _ Hk) HC Hev) as H. unfold wpd, on_sched, zoom in *.
  destruct (sched_switch evs (k_sched s)) as [[[] x]|f] eqn:E; [|done]. destruct H as ([Hx Hc] & _ & Htr).
  pose proof (quiet_switch _ _ _ _ (kc_sched _ _ _ Hk) HC Hev E) as Hq. split; [|eauto].
  exists init, o. split_and!; [by apply kcore_quiet|done|].
  intros t T' HT' Hne. destruct (quiet_thr_inv _ _ _ _ Hq HT') as (T & HT & _ & _ & Ex & _). eapply Htr; [exact HT|].
  eapply Hw; [exact HT|]. by rewrite <- Ex.
Qed.

(** ** A new process *)

(** Enough of everything for one more process. *)
Definition can_create s : Prop :=
  proc_allocator s <> [] /\ kthread_allocator s <> [] /\ (exists pid, 0 <= pid < PROC_MAX_COUNT /\ ~ pid_used s pid) /\
  room 1 (k_rest s).

Lemma fresh_pid s init o new sl :
  kcore s init o -> proc_allocator s = new :: sl -> (exists pid, 0 <= pid < PROC_MAX_COUNT /\ ~ pid_used s pid) ->
  exists pid n, _proc_getid (asking new sl s) = Ret (pid, set_next n (asking new sl s)) /\
    1 < pid < PROC_MAX_COUNT /\ 0 <= n < PROC_MAX_COUNT /\ (forall a P, procs s !! a = Some P -> p_pid P <> pid).
Proof.
  intros Hk Hsl (free & Hfree & Hnu). destruct (kc_pslab _ _ _ Hk) as [_ Hfresh].
  destruct (Hfresh new) as [_ Hnone]; [rewrite Hsl; set_solver|]. pose proof (kc_tree _ _ _ Hk) as Ht.
  assert (Hused : forall pid, pid_used (asking new sl s) pid <-> exists a P, procs s !! a = Some P /\ p_pid P = pid).
  { intros pid. unfold pid_used, asking. kcbn. split.
    - intros (a & P & Ha & HP & Hp). apply (pt_dom _ _ _ Ht) in Ha as [P' HP']. rewrite lookup_insert_ne in HP by congruence. eauto.
    - intros (a & P & HP & Hp). exists a, P. split_and!; [apply (pt_dom _ _ _ Ht); eauto| |done]. rewrite lookup_insert_ne; congruence. }
  assert (Hused' : forall pid, pid_used s pid <-> exists a P, procs s !! a = Some P /\ p_pid P = pid).
  { intros pid. unfold pid_used. split; [naive_solver|]. intros (a & P & HP & Hp). exists a, P. split_and!; [|done|done].
    apply (pt_dom _ _ _ Ht). eauto. }
  destruct (getid_spec (asking new sl s)) as [(d & Hd & Hnot & _ & E)|[Hall _]]; [apply (kc_next _ _ _ Hk)| |].
  - eexists _, _. split; [exact E|]. set (pid := try_pid _ d) in *.
    assert (Hr : 0 <= pid < PROC_MAX_COUNT) by (by apply Z.mod_pos_bound).
    rewrite Hused in Hnot.
    assert (pid <> PID_IDLE /\ pid <> PID_INIT) as [? ?].
    { destruct (pt_idle _ _ _ Ht) as (P0 & HP0 & Hp0 & _). destruct (pt_init _ _ _ Ht) as (P1 & HP1 & Hp1 & _).
      split; intros Ep; apply Hnot; [exists 0, P0|exists init, P1]; split; congruence. }
    unfold PID_IDLE, PID_INIT in *. split_and!; [lia|lia|by apply Z.mod_pos_bound..|]. naive_solver.
  - exfalso. apply Hnu, Hused'. rewrite <- Hused. by apply Hall.
Qed.

(** A new wait queue for a descriptor that is not in use. *)
Lemma swf_new_wait s init o new :
  kcore s init o -> 0 < new -> procs s !! new = None -> swf (set_queues <[p_wait new := MkQueue [] 0]> (k_sched s)).
Proof.
  intros Hk Hpos Hnone. apply swf_new_queue; [apply Hk|unfold p_wait, kt_runq; lia|].
  intros t T HT Hw. pose proof (kc_wchan _ _ _ Hk _ _ _ HT Hw) as E. destruct (kc_thread _ _ _ Hk _ _ HT) as (P & HP & _).
  rewrite <- (p_wait_inj new (kt_proc T)) in HP; [congruence|]. apply E. unfold p_wait. lia.
Qed.

Lemma runnable_threads t T x : threads x !! t = Some T -> threads (runnable t x) = <[t := run_thr T]> (threads x).
Proof. intros HT. apply map_eq. intros u. unfold runnable, enq. simpl. destruct (decide (u = t)) as [->|]; by simplify_map_eq. Qed.

Lemma runnable_queues t x q : is_Some (queues (runnable t x) !! q) <-> is_Some (queues x !! q).
Proof. unfold runnable, enq. simpl. by rewrite lookup_alter_is_Some. Qed.

(** [proc_create], [kthread_create], [sched_make_runnable]: how the kernel starts a
    process. *)
Definition spawn (name : list Z) : M (ktab R) Z :=
  let! p := proc_create name in
  let! t := kthread_create p in
  on_sched (sched_make_runnable t) ;;;
  ret p.

(** What a new process looks like to everybody else. *)
Record newborn s s' (p t pid : Z) : Prop := {
  nb_fresh : procs s !! p = None;
  nb_thread : threads (k_sched s) !! t = None;
  nb_pid : forall a P, procs s !! a = Some P -> p_pid P <> pid;
  nb_proc : exists P, procs s' !! p = Some P /\ p_pid P = pid /\ p_threads P = [t] /\ p_children P = [] /\
    p_pproc P = Some (curproc (k_sched s)) /\ p_state P = PROC_RUNNING;
  nb_parent : exists Q Q', procs s !! curproc (k_sched s) = Some Q /\ procs s' !! curproc (k_sched s) = Some Q' /\
    p_children Q' = p_children Q ++ [p];
  nb_others : forall a, a <> p -> a <> curproc (k_sched s) -> procs s' !! a = procs s !! a;
  nb_ready : exists T, threads (k_sched s') !! t = Some T /\ kt_proc T = p /\ kt_wchan T = Some kt_runq;
  nb_cur : curthr (k_sched s') = curthr (k_sched s) /\ curproc (k_sched s') = curproc (k_sched s)
}.

(** The common end of [spawn] and [do_fork]. *)
Lemma kinv_new s init o new sl k sl' pid n pd ks name x' r' Q T' :
  kcore s init o -> cur_ok (k_sched s) -> nobody_lost (k_sched s) ->
  proc_allocator s = new :: sl -> kthread_allocator s = k :: sl' ->
  procs s !! curproc (k_sched s) = Some Q -> p_state Q = PROC_RUNNING ->
  0 <= pid < PROC_MAX_COUNT -> 0 <= n < PROC_MAX_COUNT -> (forall a P, procs s !! a = Some P -> p_pid P <> pid) ->
  swf x' -> threads x' = <[k := T']> (threads (k_sched s)) -> curthr x' = curthr (k_sched s) -> curproc x' = curproc (k_sched s) ->
  (forall q, is_Some (queues (k_sched s) !! q) -> is_Some (queues x' !! q)) -> is_Some (queues x' !! p_wait new) ->
  kt_proc T' = new -> kt_kstack T' = ks -> ks <> 0 -> kt_state T' <> KT_EXITED -> kt_wchan T' = Some kt_runq ->
  books r' (<[new := MkOwns pd ks true]> o) ->
  let s' := MkK R x' (<[curproc (k_sched s) := with_children (p_children Q ++ [new]) Q]>
                     (<[new := MkProc pid name [k] [] (Some (curproc (k_sched s))) 0 PROC_RUNNING (Some pd)]> (procs s)))
           (_proc_list s ++ [new]) n (proc_initproc s) sl sl' (k_wait s) r' in
  kinv s' /\ newborn s s' new k pid.
Proof.
  intros Hk Hc Hl Hsl Hsl' HQ Hrun Hpid Hn Hnew Hx Hthr Hct Hcp Hqs Hqn Hp Hks Hks0 Hst Hw Hb s'.
  destruct (kc_pslab _ _ _ Hk) as [_ Hf]. destruct (Hf new) as [Hpos Hfresh]; [rewrite Hsl; set_solver|].
  destruct (kc_tslab _ _ _ Hk) as [_ Hg]. assert (Hkf : threads (k_sched s) !! k = None) by (apply Hg; rewrite Hsl'; set_solver).
  assert (Hcn : curproc (k_sched s) <> new) by congruence. split.
  - exists init, (<[new := MkOwns pd ks true]> o). split_and!.
    + eapply kcore_new; eauto. intros q Eq. rewrite Hw in Eq. injection Eq as <-. done.
    + destruct Hc as (C & HC & ?). exists C. unfold s'. kcbn. rewrite Hthr, Hct, Hcp, lookup_insert_ne by congruence. done.
    + intros t T. unfold s'. kcbn. rewrite Hthr. intros [[<- <-]|[Hne HT]]%lookup_insert_Some Hex.
      * right. exists T', kt_runq. rewrite Hthr, lookup_insert_eq. done.
      * destruct (Hl _ _ HT Hex) as [E|(U & q & HU & Hq)]; [left; congruence|right]. exists U, q. rewrite Hthr, lookup_insert_ne by done. done.
  - split; unfold s'; kcbn; try done.
    + eexists. rewrite lookup_insert_ne, lookup_insert_eq by done. done.
    + eexists _, _. rewrite lookup_insert_eq. done.
    + intros a Ha Hac. by rewrite !lookup_insert_ne.
    + exists T'. rewrite Hthr, lookup_insert_eq. done.
Qed.

(** What [spawn] and [do_fork] find at the start. *)
Lemma create_setup s init o :
  kcore s init o -> cur_ok (k_sched s) -> can_create s ->
  exists new sl k sl' pid n, proc_allocator s = new :: sl /\ kthread_allocator s = k :: sl' /\
    0 < new /\ procs s !! new = None /\ curproc (k_sched s) <> new /\
    threads (k_sched s) !! k = None /\ curthr (k_sched s) <> k /\
    _proc_getid (asking new sl s) = Ret (pid, set_next n (asking new sl s)) /\
    1 < pid < PROC_MAX_COUNT /\ 0 <= n < PROC_MAX_COUNT /\ (forall a P, procs s !! a = Some P -> p_pid P <> pid).
Proof.
  intros Hk (C & HC & _ & _ & HCp) (Hps & Hts & Hpid & _).
  destruct (proc_allocator s) as [|new sl] eqn:Esl; [done|]. destruct (kthread_allocator s) as [|k sl'] eqn:Esl'; [done|].
  destruct (fresh_pid s init o new sl Hk Esl Hpid) as (pid & n & H).
  destruct (kc_pslab _ _ _ Hk) as [_ Hf]. destruct (Hf new) as [Hpos Hfresh]; [rewrite Esl; set_solver|].
  destruct (kc_tslab _ _ _ Hk) as [_ Hg]. assert (Hkf : threads (k_sched s) !! k = None) by (apply Hg; rewrite Esl'; set_solver).
  destruct (kc_thread _ _ _ Hk _ _ HC) as (P & HP & _).
  exists new, sl, k, sl', pid, n. split_and!; try done; try (apply H); congruence.
Qed.

Lemma proc_create_run name s new sl pid n pd r1 r2 :
  proc_allocator s = new :: sl -> _proc_getid (asking new sl s) = Ret (pid, set_next n (asking new sl s)) -> 1 < pid ->
  curproc (k_sched s) <> new -> is_Some (procs s !! curproc (k_sched s)) ->
  pt_create_pagedir (k_rest s) = Ret (Some pd, r1) -> vmmap_create_for new r1 = Ret (tt, r2) ->
  proc_create name s =
  Ret (new, MkK R (set_queues <[p_wait new := MkQueue [] 0]> (k_sched s))
    (alter (fun Q => with_children (p_children Q ++ [new]) Q) (curproc (k_sched s))
       (<[new := MkProc pid (comm_of name) [] [] (Some (curproc (k_sched s))) 0 PROC_RUNNING (Some pd)]> (procs s)))
    (_proc_list s ++ [new]) n (proc_initproc s) sl (kthread_allocator s) (k_wait s) r2).
Proof.
  intros Esl Hid Hr Hcn HQ L1 L2.
  erewrite proc_create_eq; [|exact Esl|exact Hid|unfold PID_IDLE; lia|unfold PID_INIT; lia|done|exact L1|exact L2].
  unfold created. rewrite (proj2 (Z.ltb_lt PID_IDLE pid)) by (unfold PID_IDLE; lia).
  by rewrite (proj2 (Z.eqb_neq pid PID_INIT)) by (unfold PID_INIT; lia).
Qed.

Lemma child_map s new k pid name pd Q :
  curproc (k_sched s) <> new -> procs s !! curproc (k_sched s) = Some Q ->
  alter (fun P => with_threads (p_threads P ++ [k]) P) new
    (alter (fun Q => with_children (p_children Q ++ [new]) Q) (curproc (k_sched s))
       (<[new := MkProc pid name [] [] (Some (curproc (k_sched s))) 0 PROC_RUNNING (Some pd)]> (procs s))) =
  <[curproc (k_sched s) := with_children (p_children Q ++ [new]) Q]>
    (<[new := MkProc pid name [k] [] (Some (curproc (k_sched s))) 0 PROC_RUNNING (Some pd)]> (procs s)).
Proof.
  intros Hcn HQ. apply map_eq. intros j. destruct (decide (j = new)) as [->|]; [by simplify_map_eq|].
  destruct (decide (j = curproc (k_sched s))) as [->|]; by simplify_map_eq.
Qed.

Lemma spawn_spec name s :
  kinv s -> can_create s ->
  exists p t pid s', spawn name s = Ret (p, s') /\ kinv s' /\ newborn s s' p t pid /\ k_wait s' = k_wait s.
Proof.
  intros (init & o & Hk & Hc & Hl) Hcan.
  destruct (create_setup _ _ _ Hk Hc Hcan) as (new & sl & k & sl' & pid & n & Esl & Esl' & Hpos & Hfresh & Hcn & Hkf & _ & Hid & Hr & Hn & Hnew).
  destruct (cur_proc _ _ _ Hk Hc) as (C & Q & HC & HCp & HCw & _ & _ & _ & HQ & _ & Hrun).
  destruct Hcan as (_ & _ & _ & Hroom).
  destruct (law_create 0 _ _ new (kc_books _ _ _ Hk) (kc_own _ _ _ Hk _ Hfresh) Hroom)
    as (pd & ks & r1 & r2 & r3 & L1 & L2 & L3 & Hks & Hb & _).
  unfold spawn. erewrite bind_eq by (eapply proc_create_run; eauto; lia).
  erewrite bind_eq.
  2: { eapply kthread_create_eq; kcbn; [exact Esl'| | |exact L3]; [by rewrite lookup_alter_ne, lookup_insert_eq by done|done]. }
  kcbn. rewrite (child_map _ _ _ _ _ _ _ Hcn HQ). set (T0 := MkThread _ _ _ _ _ _ _ _ _). set (y := set_threads _ _).
  assert (HT0 : threads y !! k = Some T0) by (unfold y; simpl; by rewrite lookup_insert_eq).
  assert (Hy : swf y) by (apply swf_new_thread; [by eapply swf_new_wait|done..]).
  erewrite bind_eq. 2: { apply on_sched_eq. kcbn. eapply sched_make_runnable_eq; [apply Hy|exact HT0|done|]. simpl. unfold PID_IDLE. lia. }
  kcbn. unfold ret. eexists _, k, pid, _. split; [reflexivity|].
  assert (Hmain := kinv_new s init o new sl k sl' pid n pd ks (comm_of name) (runnable k y) r3 Q (run_thr T0) Hk Hc Hl Esl Esl' HQ Hrun).
  lazymatch goal with |- ?A /\ ?B /\ _ => cut (A /\ B); [by intros [? ?]|] end. apply Hmain; clear Hmain; try done; try lia.
  - by eapply swf_runnable.
  - rewrite (runnable_threads _ _ _ HT0). unfold y. simpl. by rewrite insert_insert_eq.
  - intros q Hq. rewrite runnable_queues. unfold y. simpl. rewrite lookup_insert_is_Some'. by right.
  - rewrite runnable_queues. unfold y. simpl. rewrite lookup_insert_is_Some'. by left.
Qed.

(** ** Fork *)

Lemma kthread_clone_eq t T s k sl ks r :
  kthread_allocator s = k :: sl -> threads (k_sched s) !! t = Some T -> kt_wchan T = None -> kt_proc T <> PID_IDLE ->
  alloc_stack (k_rest s) = Ret (Some ks, r) -> qwf (set_threads <[k := with_kstack ks T]> (k_sched s)) ->
  kthread_clone t s =
  Ret (k, MkK R (runnable k (set_threads <[k := with_kstack ks T]> (k_sched s))) (procs s) (_proc_list s) (next_pid s) (proc_initproc s)
            (proc_allocator s) sl (k_wait s) r).
Proof.
  intros Hsl HT Hw Hp Hst Hq. unfold kthread_clone, slab_thread. rewrite bind_bind, bind_gets, Hsl, bind_bind, bind_modify, bind_ret.
  erewrite bind_eq by (apply on_sched_eq; kcbn; by apply thr_get_eq). kcbn. rewrite bind_deref.
  erewrite bind_eq by (apply on_rest_eq; exact Hst). kcbn.
  erewrite bind_eq by (by apply on_sched_eq). kcbn.
  erewrite bind_eq; [reflexivity|].
  erewrite on_sched_eq; [reflexivity|]. kcbn.
  eapply (sched_make_runnable_eq _ (with_kstack ks T)); [done| |done|done]. simpl. by rewrite lookup_insert_eq.
Qed.

Lemma do_fork_spec s :
  kinv s -> can_create s -> curproc (k_sched s) <> 0 ->
  exists p t pid s', do_fork s = Ret (pid, s') /\ kinv s' /\ newborn s s' p t pid /\ k_wait s' = k_wait s.
Proof.
  intros (init & o & Hk & Hc & Hl) Hcan Hc0.
  destruct (create_setup _ _ _ Hk Hc Hcan) as (new & sl & k & sl' & pid & n & Esl & Esl' & Hpos & Hfresh & Hcn & Hkf & Hck & Hid & Hr & Hn & Hnew).
  destruct (cur_proc _ _ _ Hk Hc) as (C & Q & HC & HCp & HCw & HCk & HCst & _ & HQ & Hth & Hrun).
  destruct Hcan as (_ & _ & _ & Hroom).
  destruct (kc_proc _ _ _ Hk _ _ HQ) as (_ & _ & t0 & T0 & pd0 & E0 & HT0 & _ & _ & _ & _ & Ho).
  destruct (law_fork 0 _ _ new _ _ (kc_books _ _ _ Hk) (kc_own _ _ _ Hk _ Hfresh) Ho) as
    (pd & ks & r1 & r2 & r3 & r4 & r5 & L1 & L2 & L3 & L4 & L5 & Hks & Hb & _); [by rewrite Hrun|done|].
  unfold do_fork, get_curproc, get_curthr. rewrite bind_gets. rewrite (bind_eq _ _ _ _ _ (proc_get_eq _ _ _ HQ)).
  rewrite bind_assert by (by apply bool_decide_eq_true_2).
  erewrite bind_eq by (eapply proc_create_run; eauto; lia).
  erewrite bind_eq by (apply on_rest_eq; exact L3). kcbn. rewrite bind_gets. kcbn.
  set (y0 := set_queues _ (k_sched s)). set (C' := with_kstack ks C).
  assert (Hy : swf (set_threads <[k := C']> y0)).
  { apply swf_new_thread; [by eapply swf_new_wait|done|done|done|]. by apply (proj2 (kc_sched _ _ _ Hk) _ _ HC). }
  erewrite bind_eq.
  2: { eapply kthread_clone_eq; kcbn; [exact Esl'|exact HC|done|rewrite HCp; unfold PID_IDLE; lia|exact L4|apply Hy]. }
  kcbn. fold C'. set (y := runnable k _).
  assert (Hyk : threads y = <[k := run_thr C']> (threads (k_sched s))).
  { unfold y. erewrite runnable_threads by (simpl; by rewrite lookup_insert_eq). simpl. by rewrite insert_insert_eq. }
  assert (Hsy : swf y) by (eapply swf_runnable; [exact Hy| |]; [simpl; by rewrite lookup_insert_eq|done]).
  assert (Hyq : forall q, is_Some (queues y !! q) <-> is_Some (<[p_wait new := MkQueue [] 0]> (queues (k_sched s)) !! q)) by apply runnable_queues.
  assert (Hyc : curthr y = curthr (k_sched s) /\ curproc y = curproc (k_sched s)) by done. clearbody y. clear Hy.
  erewrite bind_eq by (apply on_sched_eq; kcbn; apply thr_set_alter; rewrite Hyk, lookup_insert_eq; eauto). kcbn.
  erewrite bind_eq. 2: { apply on_sched_eq. kcbn. apply thr_get_eq. simpl. rewrite Hyk, lookup_alter_eq, lookup_insert_eq. done. }
  kcbn. rewrite (proj2 (Z.eqb_neq _ 0)) by done. rewrite bind_ret.
  erewrite bind_eq. 2: { apply on_sched_eq. kcbn. apply thr_set_alter. simpl. rewrite Hyk, lookup_alter_eq, lookup_insert_eq. eauto. }
  kcbn. erewrite bind_eq. 2: { apply proc_set_eq. kcbn. rewrite lookup_alter_ne, lookup_insert_eq by done. eauto. }
  kcbn. rewrite (child_map _ _ _ _ _ _ _ Hcn HQ). erewrite bind_eq by (apply on_rest_eq; exact L5). kcbn.
  erewrite bind_eq. 2: { apply proc_get_eq. kcbn. by rewrite lookup_insert_ne, lookup_insert_eq by done. }
  unfold ret. eexists new, k, _, _. split; [reflexivity|]. simpl p_pid.
  set (x' := set_threads _ (set_threads _ y)).
  assert (Hmain := kinv_new s init o new sl k sl' pid n pd ks (comm_of [99; 104; 105; 108; 100; 95; 112; 114; 111; 99]) x' r5 Q
    (with_ipl IPL_LOW (with_proc new (run_thr C'))) Hk Hc Hl Esl Esl' HQ Hrun).
  lazymatch goal with |- ?A /\ ?B /\ _ => cut (A /\ B); [by intros [? ?]|] end. apply Hmain; clear Hmain; try done; try lia.
  - by repeat apply swf_thr.
  - unfold x'. simpl. rewrite Hyk. apply map_eq. intros j. destruct (decide (j = k)) as [->|]; by simplify_map_eq.
  - apply Hyc.
  - apply Hyc.
  - intros q Hq. unfold x'. simpl. rewrite Hyq, lookup_insert_is_Some'. by right.
  - unfold x'. simpl. rewrite Hyq, lookup_insert_is_Some'. by left.
Qed.

(** ** Exit *)

Lemma reparent_eq me init l : forall s,
  (forall c, c ∈ l -> is_Some (procs s !! c)) -> is_Some (procs s !! me) -> is_Some (procs s !! init) ->
  reparent me init l s = Ret (tt, set_procs (adopt me init l (procs s)) s).
Proof.
  induction l as [|c l IH]; intros s Hc Hme Hin; [by destruct s|]. cbn [reparent adopt].
  erewrite bind_eq by (apply proc_set_eq, Hc; set_solver). erewrite bind_eq. 2: { apply proc_set_eq. kcbn. by rewrite lookup_alter_is_Some. }
  erewrite bind_eq. 2: { apply proc_set_eq. kcbn. by rewrite !lookup_alter_is_Some. }
  rewrite IH; [by destruct s|..]; kcbn; [|by rewrite !lookup_alter_is_Some..].
  intros x Hx. rewrite !lookup_alter_is_Some. apply Hc. set_solver.
Qed.

(** The table after the exit of [me]. *)
Definition buried (me init z : Z) (P : proc) (m : gmap Z proc) : gmap Z proc :=
  alter (with_pstate PROC_DEAD) me (alter (with_status z) me (adopt me init (p_children P) m)).

Lemma buried_lookup m l init me z P :
  ptree m l init -> m !! me = Some P -> me <> 0 -> me <> init ->
  forall a, buried me init z P m !! a = exit_node me init z P a <$> m !! a.
Proof.
  intros Ht HP Hm0 Hmi a. pose proof (not_own_child _ _ _ Ht _ _ HP) as Hown. pose proof (init_not_child _ _ _ Ht _ _ HP Hm0) as Hin.
  pose proof (adopt_lookup me init (p_children P) m a Hmi Hown Hin) as Ha. unfold adopted in Ha. unfold buried, exit_node.
  destruct (decide (a = me)) as [->|Hne].
  - rewrite !lookup_alter_eq, Ha, HP. simpl. do 2 f_equal. unfold with_children. f_equal. f_equal.
    apply elem_of_nil_inv. intros x Hx%list_elem_of_filter. naive_solver.
  - by rewrite !lookup_alter_ne, Ha by done.
Qed.

Lemma proc_cleanup_eq evs z s init me P b r1 r2 w x :
  ptree (procs s) (_proc_list s) init -> proc_initproc s = Some init -> curproc (k_sched s) = me ->
  procs s !! me = Some P -> me <> 0 -> me <> init -> p_pproc P = Some b ->
  vmmap_destroy_of me (k_rest s) = Ret (tt, r1) -> sched_wakeup_on (p_wait b) (k_sched s) = Ret (w, x) -> curproc x = me ->
  release_files_of me r1 = Ret (tt, r2) ->
  proc_cleanup evs z s = on_sched (sched_switch evs) (set_rest r2 (set_procs (buried me init z P (procs s)) (set_sched x s))).
Proof.
  intros Ht Hi Hcur HP Hm0 Hmi Hb L1 L2 Hcx L3. pose proof (pt_pid _ _ _ Ht _ _ HP) as Hpid.
  assert (Hp0 : p_pid P <> PID_IDLE) by (intros E; apply Hm0; by eapply pid_zero). unfold PID_IDLE in Hp0.
  assert (Hp1 : p_pid P <> PID_INIT) by (intros E; apply Hmi; by eapply pid_one). unfold PID_INIT in Hp1.
  destruct (pt_parent _ _ _ Ht _ _ HP Hm0) as (b' & B & Eb & HB & _). assert (b' = b) as -> by congruence.
  destruct (pt_init _ _ _ Ht) as (I & HI & _).
  unfold proc_cleanup, get_curproc. rewrite bind_gets, Hi, bind_assert by (by apply bool_decide_eq_true_2). rewrite bind_deref, bind_gets, Hcur.
  rewrite (bind_eq _ _ _ _ _ (proc_get_eq _ _ _ HP)). rewrite bind_assert by (apply Z.leb_le; lia).
  rewrite bind_assert by (rewrite Hb; by apply bool_decide_eq_true_2). rewrite Hb, bind_deref.
  erewrite bind_eq by (apply on_rest_eq; exact L1). erewrite bind_eq by (apply proc_get_eq; exact HB).
  erewrite bind_eq by (apply on_sched_eq; kcbn; exact L2). erewrite bind_eq by (apply on_rest_eq; kcbn; exact L3).
  rewrite (proj2 (Z.eqb_neq _ 1) Hp1). cbn [negb].
  erewrite bind_eq. 2: { apply reparent_eq; kcbn; [|eauto|eauto]. intros c Hc. destruct (pt_child _ _ _ Ht _ _ _ HP Hc) as (X & HX & _). eauto. }
  pose proof (adopt_lookup me init (p_children P) (procs s) me Hmi (not_own_child _ _ _ Ht _ _ HP) (init_not_child _ _ _ Ht _ _ HP Hm0)) as Ha.
  rewrite HP in Ha.
  erewrite bind_eq by (apply proc_set_eq; kcbn; rewrite Ha; eauto).
  erewrite bind_eq by (apply proc_set_eq; kcbn; rewrite lookup_alter_eq, Ha; eauto). done.
Qed.

Lemma do_exit_eq evs status s T P :
  threads (k_sched s) !! curthr (k_sched s) = Some T -> kt_wchan T = None -> kt_qlink T = None -> kt_proc T = curproc (k_sched s) ->
  procs s !! curproc (k_sched s) = Some P -> p_threads P = [curthr (k_sched s)] -> p_pid P <> 0 ->
  do_exit evs status s =
  (proc_cleanup evs (s32 status) ;;; ret true) (set_sched (set_threads (alter (exited status) (curthr (k_sched s))) (k_sched s)) s).
Proof.
  intros HT Hw Hk Hp HP Hth Hpid. set (t := curthr (k_sched s)) in *. set (s0 := set_sched _ s).
  assert (E : kthread_exit evs status s = proc_cleanup evs (s32 status) s0).
  { unfold kthread_exit, get_curthr, get_curproc. rewrite bind_gets. fold t. erewrite bind_eq by (apply on_sched_eq; by apply thr_get_eq).
    rewrite bind_assert by (by apply bool_decide_eq_true_2). rewrite bind_assert by (by apply bool_decide_eq_true_2).
    rewrite bind_gets. kcbn. rewrite bind_assert by (by apply Z.eqb_eq).
    erewrite bind_eq by (apply on_sched_eq; kcbn; apply thr_set_alter; eauto).
    erewrite bind_eq by (apply on_sched_eq; kcbn; apply thr_set_alter; simpl; rewrite lookup_alter_eq, HT; eauto). kcbn.
    replace (set_sched _ (set_sched _ (set_sched _ s))) with s0.
    2: { unfold s0. destruct s. kcbn. unfold set_threads. cbn [threads]. by rewrite alter_alter_eq. }
    unfold proc_thread_exited, get_curproc. rewrite bind_gets. unfold s0 at 1. kcbn. cbn [set_threads curproc].
    erewrite bind_eq by (apply proc_get_eq; exact HP). rewrite (proj2 (Z.eqb_neq _ 0) Hpid). simpl.
    destruct (Z.eqb_spec status 0) as [->|]; done. }
  unfold do_exit, get_curproc. rewrite bind_gets, (bind_eq _ _ _ _ _ (proc_get_eq _ _ _ HP)), Hth. cbn [cancel_all].
  unfold kthread_cancel, get_curthr. rewrite !bind_bind, bind_gets. fold t. rewrite Z.eqb_refl, bind_bind.
  unfold bind at 1. rewrite E. unfold bind. by destruct (proc_cleanup _ _ s0) as [[[] s1]|].
Qed.

(** Everything the exit of [me] does before it gives up the processor. *)
Lemma exit_prepared evs status s init o :
  kcore s init o -> cur_ok (k_sched s) -> nobody_lost (k_sched s) ->
  curproc (k_sched s) <> 0 -> curproc (k_sched s) <> init -> k_wait s !! curthr (k_sched s) = None ->
  exists P b w x r o', procs s !! curproc (k_sched s) = Some P /\ p_pproc P = Some b /\ is_Some (procs s !! b) /\
    sched_wakeup_on (p_wait b) (set_threads (alter (exited status) (curthr (k_sched s))) (k_sched s)) = Ret (w, x) /\
    let s1 := set_rest r (set_procs (buried (curproc (k_sched s)) init (s32 status) P (procs s)) (set_sched x s)) in
    do_exit evs status s = (on_sched (sched_switch evs) ;;; ret true) s1 /\ kcore s1 init o' /\
    quiet (set_threads (alter (exited status) (curthr (k_sched s))) (k_sched s)) x /\
    curthr x = curthr (k_sched s) /\
    (forall u U, threads x !! u = Some U -> kt_state U <> KT_EXITED -> is_Some (kt_wchan U)).
Proof.
  intros Hk Hc Hl Hm0 Hmi Hnw. destruct (cur_proc _ _ _ Hk Hc) as (T & P & HT & Hp & Hw & Hq & Hst & _ & HP & Hth & Hrun).
  pose proof (kc_tree _ _ _ Hk) as Ht. set (me := curproc (k_sched s)) in *. set (t := curthr (k_sched s)) in *.
  destruct (pt_parent _ _ _ Ht _ _ HP Hm0) as (b & B & Hb & HB & _).
  assert (Hpid : p_pid P <> 0) by (intros E; apply Hm0; by eapply pid_zero).
  set (x0 := set_threads (alter (exited status) t) (k_sched s)).
  assert (Hx0t : threads x0 !! t = Some (exited status T)) by (unfold x0, set_threads; cbn [threads]; by rewrite lookup_alter_eq, HT).
  assert (Hx0o : forall u, u <> t -> threads x0 !! u = threads (k_sched s) !! u) by (intros u Hu; unfold x0, set_threads; cbn [threads]; by rewrite lookup_alter_ne).
  assert (Hs0 : swf x0).
  { destruct (kc_sched _ _ _ Hk) as [Hqw Hsx]. split; [by apply qwf_thr|]. intros u U HU. destruct (decide (u = t)) as [->|Hu].
    - rewrite Hx0t in HU. injection HU as <-. unfold state_ok. simpl. by rewrite Hw.
    - rewrite Hx0o in HU by done. eauto. }
  destruct (kc_proc _ _ _ Hk _ _ HB) as (Hb0 & HbQ & _).
  assert (Hwq : wait_q x0 (p_wait b)) by (split; [unfold p_wait, kt_runq; lia|exact HbQ]).
  destruct (kc_proc _ _ _ Hk _ _ HP) as (_ & _ & t1 & T1 & pd & Et1 & HT1 & _ & _ & _ & _ & Ho). rewrite Hrun in Ho. simpl in Ho.
  destruct (law_exit _ _ _ _ _ (kc_books _ _ _ Hk) Ho) as (r1 & r2 & L1 & L2 & Hbk).
  assert (exists w x, sched_wakeup_on (p_wait b) x0 = Ret (w, x) /\ swf x /\ quiet x0 x /\ curthr x = t /\ curproc x = me /\
    (forall T', threads x !! t = Some T' -> kt_wchan T' = None) /\
    (forall u U, threads x !! u = Some U -> kt_state U <> KT_EXITED -> is_Some (kt_wchan U))) as (w & x & Ew & Hx & Hqx & Hxc & Hxp & Hxt & Hxl).
  { assert (Hlost : forall u U, threads x0 !! u = Some U -> kt_state U <> KT_EXITED -> is_Some (kt_wchan U)).
    { intros u U HU Hex. assert (u <> t) by (intros ->; rewrite Hx0t in HU; injection HU as <-; done). rewrite Hx0o in HU by done.
      destruct (Hl _ _ HU Hex) as [?|(U' & q & HU' & Hq')]; [done|]. simplify_eq. eauto. }
    destruct (wakeup_cases _ _ Hs0 Hwq) as [(u & U & HU & HwU & Hsw & E)|[E _]].
    - exists (Some u), (wake (p_wait b) u x0). split_and!; [done|done|by eapply quiet_wake|done|done|..].
      + intros T'. rewrite wake_lookup_ne; [by rewrite Hx0t; intros [= <-]|]. intros <-. rewrite Hx0t in HU. injection HU as <-. simpl in HwU. congruence.
      + intros v V. destruct (decide (v = u)) as [->|Hv]; [rewrite (wake_lookup _ _ _ _ HU); intros [= <-]; simpl; eauto|].
        rewrite wake_lookup_ne by done. apply Hlost.
    - exists None, x0. split_and!; try done. by rewrite Hx0t; intros T' [= <-]. }
  exists P, b, w, x, r2, (<[me := MkOwns pd (kt_kstack T1) false]> o). do 4 (split; [by eauto|]). intros s1. split_and!; try done.
  - erewrite do_exit_eq by done. unfold bind at 1. erewrite proc_cleanup_eq; [done|done|apply Hk|done|done|done|done|done|exact L1|exact Ew|done|exact L2].
  - eapply kcore_exit; [exact Hk|exact HP|done|done|exact Hth|exact HT|done|exact Ho|exact Hbk| |exact Hqx|done|done].
    eapply buried_lookup; [apply Hk|done..].
Qed.

Lemma do_exit_spec evs status s init o :
  kcore s init o -> cur_ok (k_sched s) -> nobody_lost (k_sched s) ->
  curproc (k_sched s) <> 0 -> curproc (k_sched s) <> init -> k_wait s !! curthr (k_sched s) = None ->
  Forall (intr_ok (k_sched s)) evs ->
  wpd (do_exit evs status) (fun b s' => b = true /\ kinv s' /\ k_wait s' = k_wait s /\ proc_initproc s' = Some init /\
    exists P, procs s !! curproc (k_sched s) = Some P /\
      forall a, procs s' !! a = exit_node (curproc (k_sched s)) init (s32 status) P a <$> procs s !! a) s.
Proof.
  intros Hk Hc Hl Hm0 Hmi Hnw Hev.
  destruct (exit_prepared evs status s init o Hk Hc Hl Hm0 Hmi Hnw) as (P & b & w & x & r & o' & HP & _ & _ & _ & E & Hk1 & Hq & Hct & Hlost).
  unfold wpd. rewrite E. set (s1 := set_rest r _) in *.
  destruct Hc as (T & HT & _).
  assert (HT0 : is_Some (threads (set_threads (alter (exited status) (curthr (k_sched s))) (k_sched s)) !! curthr (k_sched s))).
  { unfold set_threads. cbn [threads]. rewrite lookup_alter_eq, HT. eauto. }
  pose proof (switch_kinv evs s1 init o' Hk1) as H. unfold wpd, bind in *.
  destruct (on_sched (sched_switch evs) s1) as [[[] s']|f] eqn:Esw.
  - destruct H as (Hinv & x' & -> & _).
    + by apply (intr_ok_quiet _ _ _ Hq).
    + unfold s1. kcbn. rewrite Hct. destruct HT0 as [T0 HT0]. destruct (qt_thr _ _ Hq _ _ HT0) as (T' & HT' & _). eauto.
    + exact Hlost.
    + simpl. split_and!; [done|done|done|apply Hk|]. exists P. split; [done|]. intros a. unfold s1. kcbn. eapply buried_lookup; [apply Hk|done..].
  - apply H.
    + by apply (intr_ok_quiet _ _ _ Hq).
    + unfold s1. kcbn. rewrite Hct. destruct HT0 as [T0 HT0]. destruct (qt_thr _ _ Hq _ _ HT0) as (T' & HT' & _). eauto.
    + exact Hlost.
Qed.

(** ** Waiting *)

Lemma kcore_wait_insert s init o t T P w :
  kcore s init o -> threads (k_sched s) !! t = Some T -> kt_state T <> KT_EXITED -> procs s !! kt_proc T = Some P -> wait_ok P w ->
  kcore (set_wait (<[t := w]> (k_wait s)) s) init o.
Proof.
  intros [H1 H2 H3 H4 H5 H6 H7 H8 H9 H10 H11 H12] HT Hst HP Hok. split; kcbn; try done.
  intros u v [[<- <-]|[_ Hv]]%lookup_insert_Some; [|by eauto]. exists T, P. done.
Qed.

Lemma kcore_wait_delete s init o t : kcore s init o -> kcore (set_wait (delete t (k_wait s)) s) init o.
Proof.
  intros [H1 H2 H3 H4 H5 H6 H7 H8 H9 H10 H11 H12]. split; kcbn; try done. intros u v [_ Hv]%lookup_delete_Some. eauto.
Qed.

Lemma wait_sleep_spec evs w s init o P :
  kcore s init o -> cur_ok (k_sched s) -> nobody_lost (k_sched s) -> procs s !! curproc (k_sched s) = Some P -> wait_ok P w ->
  Forall (intr_ok (k_sched s)) evs ->
  wpd (wait_sleep evs w) (fun r s' => r = WSleep /\ kinv s' /\ procs s' = procs s /\
    k_wait s' = <[curthr (k_sched s) := w]> (k_wait s)) s.
Proof.
  intros Hk Hc Hl HP Hok Hev. destruct (cur_proc _ _ _ Hk Hc) as (T & P' & HT & Hp & Hw & _ & Hst & _ & HP' & _).
  assert (P' = P) as -> by congruence.
  destruct (kc_proc _ _ _ Hk _ _ HP) as (Ha0 & HQ & _).
  assert (Hne : p_wait (curproc (k_sched s)) <> kt_runq) by (unfold p_wait, kt_runq; lia).
  assert (Hwf : wf (k_sched s)) by (split; [apply Hk|done]).
  set (x := asleep KT_SLEEP (p_wait (curproc (k_sched s))) (k_sched s)).
  assert (Hx : swf x) by (apply swf_asleep; eauto).
  assert (Hq : quiet (k_sched s) x) by (eapply quiet_enq; [exact HT|right; by rewrite Hp|done|congruence]).
  set (s1 := set_sched x (set_wait (<[curthr (k_sched s) := w]> (k_wait s)) s)).
  assert (Hk1 : kcore s1 init o).
  { apply kcore_quiet; [|done|done]. eapply kcore_wait_insert; [done|exact HT|congruence|by rewrite Hp|done]. }
  assert (Hxt : threads x !! curthr (k_sched s) = Some (with_wchan (Some (p_wait (curproc (k_sched s)))) (with_qlink (Some (p_wait (curproc (k_sched s)))) (with_state KT_SLEEP T)))).
  { unfold x, asleep, enq. simpl. by simplify_map_eq. }
  pose proof (switch_kinv evs s1 init o Hk1 (intr_ok_quiet _ _ _ Hq Hev)) as H. unfold wait_sleep, get_curthr, get_curproc.
  unfold wpd in *. rewrite !bind_gets, bind_modify. unfold bind.
  replace (on_sched (sched_sleep_on evs _) _) with (on_sched (sched_switch evs) s1).
  2: { unfold on_sched, zoom, s1. kcbn. by rewrite (sched_sleep_on_eq evs _ _ Hwf HQ). }
  assert (Hlost : forall t T, threads x !! t = Some T -> kt_state T <> KT_EXITED -> is_Some (kt_wchan T)).
  { intros u U HU Hex. destruct (decide (u = curthr (k_sched s))) as [->|Hu]; [rewrite Hxt in HU; injection HU as <-; simpl; eauto|].
    assert (HU' : threads (k_sched s) !! u = Some U) by (unfold x, asleep, enq in HU; simpl in HU; by simplify_map_eq).
    destruct (Hl _ _ HU' Hex) as [?|(U' & q & ? & ?)]; [done|]. simplify_eq. eauto. }
  destruct (on_sched (sched_switch evs) s1) as [[[] s']|f].
  - destruct H as (Hinv & x' & -> & _); [exact (mk_is_Some _ _ Hxt)|done|]. done.
  - apply H; [exact (mk_is_Some _ _ Hxt)|done].
Qed.

(** The table after the child [p] has been disposed of. *)
Definition without (p : Z) s : gmap Z proc :=
  delete p (alter (fun Q => with_children (filter (fun x => x <> p) (p_children Q)) Q) (curproc (k_sched s)) (procs s)).

Lemma destroy_one t T p P s r :
  threads (k_sched s) !! t = Some T -> kt_proc T = p -> procs s !! p = Some P -> kt_kstack T <> 0 -> free_stack (kt_kstack T) (k_rest s) = Ret (tt, r) ->
  destroy_threads [t] s =
  Ret (tt, MkK R (set_threads (delete t) (k_sched s)) (alter (fun P => with_threads (filter (fun u => u <> t) (p_threads P)) P) p (procs s))
    (_proc_list s) (next_pid s) (proc_initproc s) (proc_allocator s) (t :: kthread_allocator s) (k_wait s) r).
Proof.
  intros HT Hp HP Hks L. cbn [destroy_threads]. erewrite bind_eq by (apply on_sched_eq; apply thr_set_alter; eauto).
  unfold kthread_destroy. rewrite !bind_bind.
  erewrite bind_eq. 2: { apply on_sched_eq. kcbn. apply thr_get_eq. simpl. by rewrite lookup_alter_eq, HT. }
  kcbn. rewrite bind_bind, bind_assert by (apply negb_true_iff, Z.eqb_neq; done). rewrite bind_bind.
  erewrite bind_eq by (apply on_rest_eq; exact L). kcbn. rewrite bind_bind.
  erewrite bind_eq by (apply proc_set_eq; simpl; rewrite Hp; eauto). kcbn. rewrite bind_bind.
  erewrite bind_eq by (by apply on_sched_eq). kcbn. rewrite bind_modify. unfold ret. simpl. rewrite Hp.
  do 2 f_equal. unfold set_tslab, set_sched, set_procs, set_rest. kcbn. f_equal. apply sys_ext; try done. simpl. apply map_eq. intros j. destruct (decide (j = t)) as [->|]; by simplify_map_eq.
Qed.

Lemma reap_spec g c s init o Q p P :
  kcore s init o -> cur_ok (k_sched s) -> nobody_lost (k_sched s) -> k_wait s !! curthr (k_sched s) = None ->
  procs s !! curproc (k_sched s) = Some Q -> p ∈ p_children Q -> procs s !! p = Some P -> p_state P = PROC_DEAD ->
  exists s', reap g c true p s = Ret (WReturn (p_pid P) (Some (p_status P)), s') /\ kinv s' /\ procs s' = without p s /\
    (forall t, p_threads P = [t] -> threads (k_sched s') !! t = None) /\ curthr (k_sched s') = curthr (k_sched s) /\
    curproc (k_sched s') = curproc (k_sched s) /\ k_wait s' = k_wait s.
Proof.
  intros Hk Hc Hl Hnw HQ Hin HP Hd. destruct (cur_proc _ _ _ Hk Hc) as (C & Q' & HC & HCp & HCw & _ & HCst & _ & HQ' & HQth & HQr).
  assert (Q' = Q) as -> by congruence. set (me := curproc (k_sched s)) in *.
  assert (Hpm : p <> me) by congruence.
  destruct (kc_proc _ _ _ Hk _ _ HP) as (_ & _ & t & T & pd & Et & HT & Hp & Hks & Hex & Hpd & Ho). rewrite Hd in Ho. simpl in Ho.
  destruct (law_reap _ _ _ _ _ (kc_books _ _ _ Hk) Ho) as (r1 & r2 & L1 & L2 & Hb).
  assert (Htc : t <> curthr (k_sched s)) by (intros ->; assert (T = C) as -> by congruence; rewrite Hd, HCst in Hex; by apply proj1 in Hex; specialize (Hex eq_refl)).
  unfold reap, get_curproc. rewrite (bind_eq _ _ _ _ _ (proc_get_eq _ _ _ HP)), Et.
  erewrite bind_eq by (eapply destroy_one; eauto). cbn [orb]. rewrite bind_ret, bind_gets. kcbn. unfold set_threads at 1. cbn [curproc]. fold me.
  erewrite bind_eq. 2: { apply proc_set_eq. kcbn. rewrite lookup_alter_is_Some. cbn [set_threads curproc]. fold me. eauto. }
  kcbn. rewrite bind_modify. kcbn.
  replace (if c then _ else _) with (@ret (ktab R) unit tt). 2: { destruct c; [|done]. by rewrite Hpd. }
  rewrite bind_ret, Hpd, bind_deref. erewrite bind_eq by (apply on_rest_eq; exact L2). kcbn. rewrite bind_modify. kcbn. unfold ret.
  replace (delete p (alter _ _ (alter _ p _))) with (without p s).
  2: { unfold without. fold me. apply map_eq. intros j. cbn [set_threads curproc]. fold me.
       destruct (decide (j = p)) as [->|]; [by rewrite !lookup_delete_eq|]. rewrite !lookup_delete_ne by done.
       destruct (decide (j = me)) as [->|]; by simplify_map_eq. }
  eexists. split; [reflexivity|]. kcbn. split_and!; try done.
  - exists init, (delete p o). kcbn. split_and!.
    + unfold without. fold me. rewrite <- (insert_alter _ _ _ _ HQ). eapply (kcore_reap s init o me Q p P t T); eauto.
    + exists C. unfold set_threads. cbn [threads curthr curproc]. rewrite lookup_delete_ne by done. done.
    + intros u U. unfold set_threads, tracked. cbn [threads curthr]. intros [Hut HU]%lookup_delete_Some Hne.
      destruct (Hl _ _ HU Hne) as [?|(U' & q & HU' & ?)]; [by left|right]. exists U', q. rewrite lookup_delete_ne by done. done.
  - intros t' [= <-]. unfold set_threads. cbn [threads]. by rewrite lookup_delete_eq.
Qed.

Lemma find_dead (m : gmap Z proc) l p :
  List.find (dead_in m) l = Some p -> p ∈ l /\ exists P, m !! p = Some P /\ p_state P = PROC_DEAD.
Proof.
  intros [Hin Hd]%find_some. split; [by apply list_elem_of_In|]. unfold dead_in in Hd. destruct (m !! p) as [P|]; [|done].
  apply bool_decide_eq_true in Hd. eauto.
Qed.

Lemma find_dead_none (m : gmap Z proc) l p P :
  List.find (dead_in m) l = None -> p ∈ l -> m !! p = Some P -> p_state P = PROC_RUNNING.
Proof.
  intros Hf Hin HP. pose proof (find_none _ _ Hf p (proj1 (list_elem_of_In _ _) Hin)) as Hd. unfold dead_in in Hd. rewrite HP in Hd.
  apply bool_decide_eq_false in Hd. by destruct (p_state P).
Qed.

Lemma find_pid (m : gmap Z proc) pid l p :
  List.find (has_pid m pid) l = Some p -> p ∈ l /\ exists P, m !! p = Some P /\ p_pid P = pid.
Proof.
  intros [Hin Hd]%find_some. split; [by apply list_elem_of_In|]. unfold has_pid in Hd. destruct (m !! p) as [P|]; [|done].
  apply Z.eqb_eq in Hd. eauto.
Qed.

Lemma find_pid_none (m : gmap Z proc) pid l p P :
  List.find (has_pid m pid) l = None -> p ∈ l -> m !! p = Some P -> p_pid P <> pid.
Proof.
  intros Hf Hin HP. pose proof (find_none _ _ Hf p (proj1 (list_elem_of_In _ _) Hin)) as Hd. unfold has_pid in Hd. rewrite HP in Hd.
  by apply Z.eqb_neq in Hd.
Qed.

(** The dead child [p] of the running process is disposed of, and its identifier
    and status are returned. *)
Definition takes s (p : Z) (P : proc) (r : wait_result) s' : Prop :=
  (exists Q, procs s !! curproc (k_sched s) = Some Q /\ p ∈ p_children Q) /\ procs s !! p = Some P /\ p_state P = PROC_DEAD /\
  r = WReturn (p_pid P) (Some (p_status P)) /\ procs s' = without p s /\
  (forall t, p_threads P = [t] -> threads (k_sched s') !! t = None).

(** The possible ends of [waitpid(pid)] up to the first sleep. *)
Inductive wait_post s (pid : Z) : wait_result -> ktab R -> Prop :=
| WPNone :
    (forall Q p P, procs s !! curproc (k_sched s) = Some Q -> p ∈ p_children Q -> procs s !! p = Some P -> pid <> -1 /\ p_pid P <> pid) ->
    wait_post s pid (WReturn (- ECHILD) None) s
| WPTaken p P r s' : takes s p P r s' -> pid = -1 \/ p_pid P = pid -> wait_post s pid r s'
| WPSleep Q w s' :
    procs s !! curproc (k_sched s) = Some Q -> procs s' = procs s -> k_wait s' = <[curthr (k_sched s) := w]> (k_wait s) ->
    match w with
    | WaitAny _ => pid = -1 /\ p_children Q <> [] /\
        forall p P, p ∈ p_children Q -> procs s !! p = Some P -> p_state P = PROC_RUNNING
    | WaitPid p _ => p ∈ p_children Q /\ exists P, procs s !! p = Some P /\ p_pid P = pid /\ p_state P = PROC_RUNNING
    end -> wait_post s pid WSleep s'.

Lemma takes_intro g c s init o Q p P :
  kcore s init o -> cur_ok (k_sched s) -> nobody_lost (k_sched s) -> k_wait s !! curthr (k_sched s) = None ->
  procs s !! curproc (k_sched s) = Some Q -> p ∈ p_children Q -> procs s !! p = Some P -> p_state P = PROC_DEAD ->
  wpd (reap g c true p) (fun r s' => kinv s' /\ takes s p P r s' /\ k_wait s' = k_wait s) s.
Proof.
  intros Hk Hc Hl Hnw HQ Hin HP Hd. destruct (reap_spec g c s init o Q p P Hk Hc Hl Hnw HQ Hin HP Hd) as (s' & E & Hinv & Hpr & Hth & _ & _ & Hkw).
  unfold wpd. rewrite E. split_and!; [done| |done]. unfold takes. eauto 10.
Qed.

Lemma wait_child_spec evs s init o Q p P :
  kcore s init o -> cur_ok (k_sched s) -> nobody_lost (k_sched s) -> k_wait s !! curthr (k_sched s) = None ->
  procs s !! curproc (k_sched s) = Some Q -> p ∈ p_children Q -> procs s !! p = Some P -> Forall (intr_ok (k_sched s)) evs ->
  wpd (wait_child evs p true) (fun r s' => kinv s' /\ wait_post s (p_pid P) r s') s.
Proof.
  intros Hk Hc Hl Hnw HQ Hin HP Hev. unfold wait_child, wpd. rewrite (bind_eq _ _ _ _ _ (proc_get_eq _ _ _ HP)).
  case_bool_decide as Hd.
  - eapply (wpd_mono (reap false true true p)); [|by eapply takes_intro]. intros r s' (? & Ht & _). split; [done|]. eapply WPTaken; eauto.
  - eapply (wpd_mono (wait_sleep evs (WaitPid p true))); [|by eapply wait_sleep_spec].
    intros r s' (-> & Hinv & Hpr & Hkw). split; [done|]. eapply WPSleep; [done|done|exact Hkw|]. split; [done|]. exists P. split_and!; try done.
    by destruct (p_state P).
Qed.

Lemma do_waitpid_spec evs pid s :
  kinv s -> k_wait s !! curthr (k_sched s) = None -> Forall (intr_ok (k_sched s)) evs ->
  wpd (do_waitpid evs pid true) (fun r s' => kinv s' /\ wait_post s pid r s') s.
Proof.
  intros Hinv Hnw Hev. pose proof Hinv as (init & o & Hk & Hc & Hl). destruct (cur_proc _ _ _ Hk Hc) as (C & Q & HC & _ & _ & _ & _ & _ & HQ & _).
  pose proof (kc_tree _ _ _ Hk) as Ht.
  unfold do_waitpid, get_curproc, wpd. rewrite bind_gets, (bind_eq _ _ _ _ _ (proc_get_eq _ _ _ HQ)), bind_gets.
  destruct (p_children Q) as [|c0 cs] eqn:Ech.
  { split; [done|]. constructor. intros Q' p P HQ'. assert (Q' = Q) as -> by congruence. rewrite Ech. set_solver. }
  rewrite <- Ech. destruct (Z.eqb_spec pid (-1)) as [->|Hn1].
  - destruct (List.find (dead_in (procs s)) (p_children Q)) as [p|] eqn:Ef.
    + apply find_dead in Ef as (Hin & P & HP & Hd). eapply (wpd_mono (reap false false true p)); [|by eapply takes_intro].
      intros r s' (? & Htk & _). split; [done|]. eapply WPTaken; eauto.
    + eapply (wpd_mono (wait_sleep evs (WaitAny true))); [|by eapply wait_sleep_spec].
      intros r s' (-> & Hinv' & Hpr & Hkw). split; [done|]. eapply WPSleep; [done|done|exact Hkw|]. split_and!; [done|by rewrite Ech|].
      intros p P Hin HP. by eapply find_dead_none.
  - destruct (Z.ltb_spec 0 pid) as [Hpos|Hneg].
    + destruct (List.find (has_pid (procs s) pid) (p_children Q)) as [p|] eqn:Ef.
      * apply find_pid in Ef as (Hin & P & HP & <-). by eapply wait_child_spec.
      * split; [done|]. constructor. intros Q' p P HQ' Hin HP. assert (Q' = Q) as -> by congruence. split; [done|]. by eapply find_pid_none.
    + split; [done|]. constructor. intros Q' p P HQ' Hin HP. assert (Q' = Q) as -> by congruence. split; [done|]. intros <-.
      assert (p = 0) as ->. { eapply pid_zero; [exact Ht|done|]. pose proof (pt_pid _ _ _ Ht _ _ HP). unfold PID_IDLE. lia. }
      exfalso. eapply idle_not_child; [exact Ht|exact HQ|exact Hin].
Qed.

(** A call that slept goes on: it takes a dead child or sleeps again. *)
Lemma waitpid_resume_spec evs s w :
  kinv s -> k_wait s !! curthr (k_sched s) = Some w -> Forall (intr_ok (k_sched s)) evs ->
  wpd (waitpid_resume evs) (fun r s' => kinv s' /\
    ((exists p P, takes s p P r s') \/ (r = WSleep /\ procs s' = procs s))) s.
Proof.
  intros (init & o & Hk & Hc & Hl) Hw Hev. unfold waitpid_resume, get_curthr, get_curproc, wpd. rewrite !bind_gets, Hw, bind_deref, bind_modify.
  set (s0 := set_wait (delete (curthr (k_sched s)) (k_wait s)) s).
  assert (Hk0 : kcore s0 init o) by (by apply kcore_wait_delete).
  assert (Hnw : k_wait s0 !! curthr (k_sched s0) = None) by (unfold s0; kcbn; by rewrite lookup_delete_eq).
  destruct (cur_proc _ _ _ Hk0 Hc) as (C & Q & HC & HCp & _ & _ & _ & _ & HQ & _). destruct w as [st|p st].
  - rewrite bind_gets, (bind_eq _ _ _ _ _ (proc_get_eq _ _ _ HQ)), bind_gets.
    assert (st = true) as -> by (by destruct (kc_wait _ _ _ Hk _ _ Hw) as (? & ? & _ & _ & _ & ?)).
    destruct (List.find (dead_in (procs s0)) (p_children Q)) as [p|] eqn:Ef.
    + apply find_dead in Ef as (Hin & P & HP & Hd). eapply (wpd_mono (reap true true true p)); [|by eapply takes_intro].
      intros r s' (? & Htk & _). split; [done|]. left. eauto.
    + eapply (wpd_mono (wait_sleep evs (WaitAny true))); [|by eapply wait_sleep_spec]. intros r s' (-> & ? & ? & _). eauto.
  - destruct (kc_wait _ _ _ Hk _ _ Hw) as (T & Q' & HT & _ & HQ' & -> & Hin). unfold s0 in HC, HCp, HQ. revert HC HCp HQ. kcbn. intros HC HCp HQ.
    assert (T = C) as -> by congruence. rewrite HCp in HQ'. assert (Q' = Q) as -> by congruence.
    destruct (pt_child _ _ _ (kc_tree _ _ _ Hk) _ _ _ HQ Hin) as (P & HP & _).
    eapply (wpd_mono (wait_child evs p true)); [|by eapply wait_child_spec]. intros r s' (Hinv & Hpost). split; [done|].
    inversion Hpost as [Hno|p' P' r' s'' Htk _|Q'' w s'' _ Hpr]; subst; [|by left; eauto|by right].
    destruct (Hno Q p P) as [_ Hne]; [done..|]. done.
Qed.

(** ** Killing *)

(** A field that neither queues nor processes depend on. *)
Lemma field_step (f : kthread -> kthread) t T x :
  (forall U, kt_wchan (f U) = kt_wchan U) -> (forall U, kt_qlink (f U) = kt_qlink U) -> (forall U, kt_state (f U) = kt_state U) ->
  (forall U, kt_proc (f U) = kt_proc U) -> (forall U, kt_kstack (f U) = kt_kstack U) ->
  wf x -> threads x !! t = Some T -> quiet x (set_threads (alter f t) x) /\ survives x (set_threads (alter f t) x).
Proof.
  intros H1 H2 H3 H4 H5 [Hs (C & HC & Hcw & Hcs & Hcp)] HT. split.
  - eapply (quiet_thr t T (f T)); [done|cbn [set_threads threads]; by rewrite (insert_alter _ _ _ _ HT)|done|done|done|by rewrite H3|].
    rewrite H1. by left.
  - split_and!.
    + split; [by apply swf_thr|]. unfold cur_ok, set_threads. cbn [threads curthr curproc]. destruct (decide (curthr x = t)) as [E|Hne].
      * exists (f C). rewrite E in HC |- *. rewrite lookup_alter_eq, HC, H1, H3, H4. done.
      * exists C. rewrite lookup_alter_ne by done. done.
    + unfold set_threads. cbn [threads]. by rewrite dom_alter_L.
    + intros u [->|(U & q & HU & Hq)]; [by left|right]. unfold set_threads. cbn [threads]. destruct (decide (u = t)) as [->|Hne].
      * exists (f U), q. rewrite lookup_alter_eq, HU, H1. done.
      * exists U, q. rewrite lookup_alter_ne by done. done.
Qed.

Lemma kthread_cancel_spec evs t T status s :
  kinv s -> threads (k_sched s) !! t = Some T -> t <> curthr (k_sched s) -> kt_proc T <> 0 ->
  exists x, kthread_cancel evs t status s = Ret (false, set_sched x s) /\ quiet (k_sched s) x /\ survives (k_sched s) x /\
    curthr x = curthr (k_sched s) /\ curproc x = curproc (k_sched s).
Proof.
  intros (init & o & Hk & Hc & Hl) HT Hne Hp. assert (Hwf : wf (k_sched s)) by (split; [apply Hk|done]).
  unfold kthread_cancel, get_curthr. rewrite bind_gets, (proj2 (Z.eqb_neq t _) Hne).
  destruct (field_step (with_cancelled 1) t T _ (fun _ => eq_refl) (fun _ => eq_refl) (fun _ => eq_refl) (fun _ => eq_refl) (fun _ => eq_refl) Hwf HT) as [Q1 S1].
  set (x1 := set_threads (alter (with_cancelled 1) t) (k_sched s)) in *.
  assert (HT1 : threads x1 !! t = Some (with_cancelled 1 T)) by (unfold x1, set_threads; cbn [threads]; by rewrite lookup_alter_eq, HT).
  destruct (field_step (with_retval status) t _ _ (fun _ => eq_refl) (fun _ => eq_refl) (fun _ => eq_refl) (fun _ => eq_refl) (fun _ => eq_refl) (proj1 S1) HT1) as [Q2 S2].
  set (x2 := set_threads (alter (with_retval status) t) x1) in *.
  assert (HT2 : threads x2 !! t = Some (with_retval status (with_cancelled 1 T))) by (unfold x2, set_threads; cbn [threads]; by rewrite lookup_alter_eq, HT1).
  assert (Q12 : quiet (k_sched s) x2) by (by etrans).
  assert (S12 : survives (k_sched s) x2) by (destruct S1 as (? & D1 & K1), S2 as (? & D2 & K2); split_and!; [done|congruence|auto]).
  erewrite bind_eq by (apply on_sched_eq; apply thr_set_alter; eauto).
  erewrite bind_eq by (apply on_sched_eq; kcbn; apply thr_set_alter; fold x1; eauto). kcbn. fold x1. fold x2.
  erewrite bind_eq by (apply on_sched_eq; kcbn; by apply thr_get_eq). kcbn.
  cbn [kt_state with_retval with_cancelled]. case_bool_decide as Hst.
  - destruct (cancel_survives t _ x2 (proj1 S12) HT2) as (x3 & E3 & S3); [simpl; congruence|simpl; congruence|done|].
    assert (Q3 : quiet x2 x3) by (eapply (quiet_cancel t _ x2 x3 (proj1 S12) HT2); [simpl; congruence|simpl; congruence|done|done]).
    assert (Hcur3 : curthr x3 = curthr x2 /\ curproc x3 = curproc x2).
    { pose proof (proj2 (proj1 (proj1 S12)) _ _ HT2) as Hok. unfold state_ok in Hok. cbn [kt_wchan kt_state with_retval with_cancelled] in Hok. rewrite Hst in Hok.
      destruct (kt_wchan T) as [q|] eqn:Hw; [|naive_solver]. case_decide; [done|].
      rewrite (sched_cancel_asleep t _ q x2 (proj1 (proj1 S12)) HT2) in E3 by done. by injection E3 as <-. }
    exists x3. erewrite bind_eq by (apply on_sched_eq; exact E3). split; [by destruct s|]. split_and!; [by etrans| |apply Hcur3..].
    destruct S12 as (? & D1 & K1), S3 as (? & D3 & K3). split_and!; [done|congruence|auto].
  - exists x2. split; [by destruct s|]. done.
Qed.

(** Killing another process marks its thread and wakes it from a cancellable
    sleep; the table does not change. *)
Lemma proc_kill_spec evs p P status s :
  kinv s -> procs s !! p = Some P -> p <> 0 -> p <> curproc (k_sched s) ->
  exists x, proc_kill evs p status s = Ret (false, set_sched x s) /\ kinv (set_sched x s) /\ quiet (k_sched s) x /\
    curthr x = curthr (k_sched s) /\ curproc x = curproc (k_sched s).
Proof.
  intros Hinv HP Hp0 Hpc. pose proof Hinv as (init & o & Hk & Hc & _).
  destruct (kc_proc _ _ _ Hk _ _ HP) as (_ & _ & t & T & _ & Et & HT & Hp & _).
  assert (Htc : t <> curthr (k_sched s)). { intros ->. destruct Hc as (C & HC & _ & _ & HCp). congruence. }
  destruct (kthread_cancel_spec evs t T status s Hinv HT Htc) as (x & E & Hq & Hs & Hcur); [congruence|].
  exists x. unfold proc_kill, get_curproc. rewrite bind_gets, (proj2 (Z.eqb_neq p _) Hpc), (bind_eq _ _ _ _ _ (proc_get_eq _ _ _ HP)), Et.
  cbn [cancel_all]. rewrite (bind_eq _ _ _ _ _ E). split; [done|]. split_and!; [by apply kinv_quiet|done|apply Hcur..].
Qed.

Lemma kill_others_spec evs l : forall s,
  kinv s -> (forall p, p ∈ l -> is_Some (procs s !! p)) ->
  exists x, kill_others evs l s = Ret (tt, set_sched x s) /\ kinv (set_sched x s) /\ quiet (k_sched s) x /\
    curthr x = curthr (k_sched s) /\ curproc x = curproc (k_sched s).
Proof.
  induction l as [|p l IH]; intros s Hinv Hl.
  { exists (k_sched s). split; [by destruct s|]. split; [by destruct s|]. by split_and!. }
  destruct (Hl p) as [P HP]; [set_solver|]. cbn [kill_others]. rewrite (bind_eq _ _ _ _ _ (proc_get_eq _ _ _ HP)).
  unfold get_curproc. rewrite bind_gets.
  pose proof Hinv as (init & o & Hk & _). pose proof (kc_tree _ _ _ Hk) as Ht.
  assert (Hl' : forall c, c ∈ l -> is_Some (procs s !! c)) by (intros; apply Hl; set_solver).
  destruct (Z.eqb_spec (p_pid P) PID_IDLE) as [Hp|Hp]; [rewrite bind_ret; by apply IH|].
  assert (Hp0 : p <> 0). { intros ->. destruct (pt_idle _ _ _ Ht) as (P' & HP' & Hp' & _). congruence. }
  destruct (pt_parent _ _ _ Ht _ _ HP Hp0) as (b & B & Hb & HB & _). rewrite Hb, bind_bind, bind_deref, bind_bind.
  rewrite (bind_eq _ _ _ _ _ (proc_get_eq _ _ _ HB)).
  destruct (negb (p_pid B =? PID_IDLE) && negb (p =? curproc (k_sched s))) eqn:Eb; [|rewrite bind_ret; by apply IH].
  apply andb_true_iff in Eb as [_ Eb]. apply negb_true_iff, Z.eqb_neq in Eb.
  destruct (proc_kill_spec evs p P 0 s Hinv HP Hp0 Eb) as (x & E & Hinv' & Hq & Hct & Hcp).
  rewrite bind_bind, (bind_eq _ _ _ _ _ E), bind_ret. destruct (IH (set_sched x s) Hinv' Hl') as (x' & E' & Hinv'' & Hq' & Hct' & Hcp').
  exists x'. rewrite E'. split; [by destruct s|]. split; [by destruct s|]. split_and!; [etrans; [exact Hq|exact Hq']|exact (eq_trans Hct' Hct)|exact (eq_trans Hcp' Hcp)].
Qed.

Lemma exit_inv evs status s init :
  kinv s -> proc_initproc s = Some init -> curproc (k_sched s) <> 0 -> curproc (k_sched s) <> init ->
  k_wait s !! curthr (k_sched s) = None -> Forall (intr_ok (k_sched s)) evs ->
  wpd (do_exit evs status) (fun b s' => b = true /\ kinv s' /\ k_wait s' = k_wait s /\ proc_initproc s' = Some init /\
    exists P, procs s !! curproc (k_sched s) = Some P /\
      forall a, procs s' !! a = exit_node (curproc (k_sched s)) init (s32 status) P a <$> procs s !! a) s.
Proof.
  intros (init' & o & Hk & Hc & Hl) Hi. rewrite (kc_init _ _ _ Hk) in Hi. injection Hi as ->. intros. by eapply do_exit_spec.
Qed.

Lemma proc_kill_all_spec evs s init :
  kinv s -> proc_initproc s = Some init -> k_wait s !! curthr (k_sched s) = None -> Forall (intr_ok (k_sched s)) evs ->
  wpd (proc_kill_all evs) (fun b s' => kinv s' /\
    ((b = false /\ procs s' = procs s) \/
     (b = true /\ exists P, procs s !! curproc (k_sched s) = Some P /\ 2 < p_pid P /\
        forall a, procs s' !! a = exit_node (curproc (k_sched s)) init 0 P a <$> procs s !! a))) s.
Proof.
  intros Hinv Hi Hnw Hev. pose proof Hinv as (init' & o & Hk & Hc & _). rewrite (kc_init _ _ _ Hk) in Hi. injection Hi as ->.
  destruct (cur_proc _ _ _ Hk Hc) as (C & P & _ & _ & _ & _ & _ & _ & HP & _).
  destruct (kill_others_spec evs (_proc_list s) s Hinv) as (x & E & Hinv' & Hq & Hct & Hcp).
  { intros p Hp. by apply (pt_dom _ _ _ (kc_tree _ _ _ Hk)). }
  unfold proc_kill_all, wpd. rewrite bind_gets, (bind_eq _ _ _ _ _ E). unfold get_curproc. rewrite bind_gets. kcbn. rewrite Hcp.
  erewrite bind_eq by (apply proc_get_eq; exact HP). destruct (Z.ltb_spec 2 (p_pid P)) as [Hgt|]; [|split; [done|by left]].
  unfold proc_kill, get_curproc. rewrite bind_gets. kcbn. rewrite Hcp, Z.eqb_refl.
  assert (Hi' : proc_initproc (set_sched x s) = Some init) by apply Hk.
  eapply (wpd_mono (do_exit evs 0)); [|eapply exit_inv; [done|exact Hi'|..]]; kcbn; rewrite ?Hcp, ?Hct; try done.
  - intros b s' (-> & Hk' & _ & _ & P' & HP' & Hx). split; [done|]. right. split; [done|]. exists P. assert (P' = P) as -> by congruence. done.
  - intros E0. rewrite E0 in HP. destruct (pt_idle _ _ _ (kc_tree _ _ _ Hk)) as (P' & HP' & Hp' & _). simplify_eq. unfold PID_IDLE in Hp'. lia.
  - intros E0. rewrite E0 in HP. destruct (pt_init _ _ _ (kc_tree _ _ _ Hk)) as (P' & HP' & Hp' & _). simplify_eq. unfold PID_INIT in Hp'. lia.
  - by apply (intr_ok_quiet _ _ _ Hq).
Qed.

(** ** Executions *)

Inductive kcall : Type :=
| KSpawn (name : list Z)
| KFork
| KExit (evs : list intr) (status : Z)
| KWait (evs : list intr) (pid : Z)
| KResume (evs : list intr)
| KKill (p status : Z)
| KKillAll (evs : list intr)
| KSched (op : sched_op).

Definition wait_value (r : wait_result) : option (Z * option Z) :=
  match r with WReturn v st => Some (v, st) | WSleep => None end.

(** The call made by the running thread, with what a wait that is over returned. *)
Definition run_call (c : kcall) : M (ktab R) (option (Z * option Z)) :=
  match c with
  | KSpawn name => spawn name ;;; ret None
  | KFork => do_fork ;;; ret None
  | KExit evs status => do_exit evs status ;;; ret None
  | KWait evs pid => let! r := do_waitpid evs pid true in ret (wait_value r)
  | KResume evs => let! r := waitpid_resume evs in ret (wait_value r)
  | KKill p status => proc_kill [] p status ;;; ret None
  | KKillAll evs => proc_kill_all evs ;;; ret None
  | KSched op => on_sched (run_op op) ;;; ret None
  end.

(** The callers' obligations: memory and a free identifier for a new process;
    neither the idle process nor init exits, and the idle process does not
    fork; a thread inside [waitpid] goes on with it and does nothing else; a
    wait for something else than a child is on a queue that exists and is no
    process's. *)
Definition call_ok s (c : kcall) : Prop :=
  (match c with KResume _ => is_Some (k_wait s !! curthr (k_sched s)) | _ => k_wait s !! curthr (k_sched s) = None end) /\
  match c with
  | KSpawn _ => can_create s
  | KFork => can_create s /\ curproc (k_sched s) <> 0
  | KExit evs _ => curproc (k_sched s) <> 0 /\ proc_initproc s <> Some (curproc (k_sched s)) /\ Forall (intr_ok (k_sched s)) evs
  | KWait evs _ | KResume evs | KKillAll evs => Forall (intr_ok (k_sched s)) evs
  | KKill p _ => p <> 0 /\ p <> curproc (k_sched s) /\ is_Some (procs s !! p)
  | KSched op => op_ok (k_sched s) op /\ op_public op /\ (forall t, op <> OMakeRunnable t)
  end.

Inductive kreach (s0 : ktab R) : ktab R -> Prop :=
| kreach_refl : kreach s0 s0
| kreach_call s c r s' : kreach s0 s -> call_ok s c -> run_call c s = Ret (r, s') -> kreach s0 s'
| kreach_rest s r : kreach s0 s -> (forall o, books (k_rest s) o -> books r o) -> kreach s0 (set_rest r s).

(** A dead process stays in the table with its identifier and status, unless a
    wait of its parent returns them. *)
Definition zombie_kept s (r : option (Z * option Z)) s' : Prop :=
  forall p P, procs s !! p = Some P -> p_state P = PROC_DEAD ->
    (exists P', procs s' !! p = Some P' /\ p_state P' = PROC_DEAD /\ p_pid P' = p_pid P /\ p_status P' = p_status P) \/
    (r = Some (p_pid P, Some (p_status P)) /\ procs s' !! p = None /\ p_pproc P = Some (curproc (k_sched s))).

Lemma zombie_same s r s' : procs s' = procs s -> zombie_kept s r s'.
Proof. intros E p P HP Hd. left. exists P. by rewrite E. Qed.

Lemma zombie_exit s r s' init me P z :
  ptree (procs s) (_proc_list s) init -> procs s !! me = Some P -> p_state P = PROC_RUNNING ->
  (forall a, procs s' !! a = exit_node me init z P a <$> procs s !! a) -> zombie_kept s r s'.
Proof.
  intros Ht HP Hr E p X HX Hd. left. exists (exit_node me init z P p X). rewrite E, HX. split; [done|].
  unfold exit_node. rewrite decide_False by (intros ->; congruence). repeat case_decide; done.
Qed.

Lemma zombie_newborn s r s' p t pid : newborn s s' p t pid ->
  (exists Q, procs s !! curproc (k_sched s) = Some Q /\ p_state Q = PROC_RUNNING) -> zombie_kept s r s'.
Proof.
  intros Hn (Q & HQ & Hrun) a X HX Hd. left. exists X. rewrite (nb_others _ _ _ _ _ Hn); [done| |congruence].
  pose proof (nb_fresh _ _ _ _ _ Hn). congruence.
Qed.

Lemma zombie_takes s s' p P r init :
  ptree (procs s) (_proc_list s) init -> takes s p P r s' -> zombie_kept s (wait_value r) s'.
Proof.
  intros Ht ((Q & HQ & Hin) & HP & Hd & -> & E & _) a X HX Hdx. rewrite E. unfold without. destruct (decide (a = p)) as [->|Hne].
  - right. assert (X = P) as -> by congruence. split_and!; [done|by rewrite lookup_delete_eq|].
    destruct (pt_child _ _ _ Ht _ _ _ HQ Hin) as (P' & HP' & ?). congruence.
  - left. rewrite lookup_delete_ne by done. destruct (decide (a = curproc (k_sched s))) as [->|Hnc].
    + rewrite lookup_alter_eq, HX. eexists. done.
    + rewrite lookup_alter_ne, HX by done. eauto.
Qed.

Lemma call_spec c s :
  kinv s -> call_ok s c -> wpd (run_call c) (fun r s' => kinv s' /\ zombie_kept s r s') s.
Proof.
  intros Hinv [Hpend Hok]. pose proof Hinv as (init & o & Hk & Hc & Hl). pose proof (kc_tree _ _ _ Hk) as Ht.
  destruct (cur_proc _ _ _ Hk Hc) as (C & Q & _ & _ & _ & _ & _ & _ & HQ & _ & Hrun).
  assert (Hwf : wf (k_sched s)) by (split; [apply Hk|done]).
  destruct c as [name| |evs st|evs pid|evs|p st|evs|op]; simpl in Hpend, Hok; cbn [run_call].
  - destruct (spawn_spec name s Hinv Hok) as (p & t & pid & s' & E & Hinv' & Hn & _). unfold wpd. rewrite (bind_eq _ _ _ _ _ E).
    split; [done|]. eapply zombie_newborn; eauto.
  - destruct Hok as [Hcan Hc0]. destruct (do_fork_spec s Hinv Hcan Hc0) as (p & t & pid & s' & E & Hinv' & Hn & _).
    unfold wpd. rewrite (bind_eq _ _ _ _ _ E). split; [done|]. eapply zombie_newborn; eauto.
  - destruct Hok as (H0 & H1 & Hev). rewrite (kc_init _ _ _ Hk) in H1. rewrite wpd_bind.
    eapply wpd_mono; [|eapply (exit_inv evs st s init); [done|apply Hk|done|congruence|done|done]].
    intros b s' (_ & Hinv' & _ & _ & P & HP & E). split; [done|]. assert (P = Q) as -> by congruence. by eapply zombie_exit.
  - rewrite wpd_bind. eapply wpd_mono; [|by apply do_waitpid_spec]. intros r s' [Hinv' Hpost]. split; [done|].
    destruct Hpost; [by apply zombie_same|by eapply zombie_takes|by apply zombie_same].
  - destruct Hpend as [w Hw]. rewrite wpd_bind. eapply wpd_mono; [|by eapply waitpid_resume_spec].
    intros r s' [Hinv' [(p & P & Htk)|[-> Hpr]]]; (split; [done|]); [by eapply zombie_takes|by apply zombie_same].
  - destruct Hok as (H0 & H1 & [P HP]). destruct (proc_kill_spec [] p P st s Hinv HP H0 H1) as (x & E & Hinv' & _).
    unfold wpd. rewrite (bind_eq _ _ _ _ _ E). split; [done|]. by apply zombie_same.
  - rewrite wpd_bind. eapply wpd_mono; [|by apply (proc_kill_all_spec evs s init); [|apply Hk|..]].
    intros b s' (Hinv' & [[_ E]|(_ & P & HP & _ & E)]); (split; [done|]); [by apply zombie_same|].
    assert (P = Q) as -> by congruence. by eapply zombie_exit.
  - destruct Hok as (Hop & Hpub & Hmr). pose proof (sched_op_survives op _ Hwf Hop) as H. rewrite wpd_bind. unfold wpd, on_sched, zoom in *.
    destruct (run_op op (k_sched s)) as [[[] x]|f] eqn:E; [|done]. split; [|by apply zombie_same].
    apply kinv_quiet; [done| |done]. eapply quiet_op; [done|done|done|exact E|]. intros t T Et. by destruct (Hmr t).
Qed.

Lemma kinv_rest s r : kinv s -> (forall o, books (k_rest s) o -> books r o) -> kinv (set_rest r s).
Proof.
  intros (init & o & [H1 H2 H3 H4 H5 H6 H7 H8 H9 H10 H11 H12] & Hc & Hl) Hb. exists init, o. split_and!; [|done|done].
  split; kcbn; auto.
Qed.

Lemma kreach_inv s0 s : kinv s0 -> kreach s0 s -> kinv s.
Proof.
  intros H0 Hr. induction Hr as [|s c r s' _ IH Hok E|s r _ IH Hb]; [done| |by apply kinv_rest].
  pose proof (call_spec c s IH Hok) as H. unfold wpd in H. rewrite E in H. apply H.
Qed.

(** ** Booting *)

(** Before [bootstrap]: no processes, no threads, only the run queue; the first
    descriptor the allocator hands out is number 0, and there is memory for two
    processes. *)
Record fresh s : Prop := {
  fr_sched : swf (k_sched s) /\ threads (k_sched s) = ∅;
  fr_procs : procs s = ∅ /\ _proc_list s = [] /\ next_pid s = 0 /\ k_wait s = ∅;
  fr_pslab : exists sl, proc_allocator s = 0 :: sl /\ sl <> [] /\ NoDup sl /\ (forall a, a ∈ sl -> 0 < a);
  fr_tslab : NoDup (kthread_allocator s) /\ (2 <= length (kthread_allocator s))%nat;
  fr_books : books (k_rest s) ∅ /\ room 2 (k_rest s)
}.

Lemma getid_next s :
  0 <= next_pid s < PROC_MAX_COUNT -> ~ pid_used s (next_pid s) ->
  _proc_getid s = Ret (next_pid s, set_next ((next_pid s + 1) mod PROC_MAX_COUNT) s).
Proof.
  intros Hn Hu. assert (E0 : try_pid s 0 = next_pid s) by (unfold try_pid; rewrite Z.add_0_r, Z.mod_small; done).
  destruct (getid_spec s Hn) as [(d & Hd & Hnot & Hbelow & E)|[Hall _]]; [|by destruct (Hu (Hall _ Hn))].
  destruct (decide (d = 0)) as [->|Hd0]; [by rewrite E, E0|]. destruct Hu. rewrite <- E0. apply Hbelow. lia.
Qed.

(** The state [bootstrap] leaves. *)
Lemma bootstrap_eq s : fresh s ->
  exists sl k ts pd ks r, proc_allocator s = 0 :: sl /\ kthread_allocator s = k :: ts /\ ks <> 0 /\
    books r {[0 := MkOwns pd ks true]} /\ room 1 r /\
    bootstrap s = Ret (tt, MkK R
      (set_cur k 0 (set_threads <[k := MkThread KT_RUN 0 None None 0 0 0 ks IPL_LOW]> (set_queues <[p_wait 0 := MkQueue [] 0]> (k_sched s))))
      {[0 := MkProc 0 (comm_of [105; 100; 108; 101; 95; 112; 114; 111; 99; 101; 115; 115]) [k] [] None 0 PROC_RUNNING (Some pd)]} [0] 1 (proc_initproc s)
      sl ts ∅ r).
Proof.
  intros [[Hx Hth] (Hpr & Hpl & Hn & Hkw) (sl & Hsl & _ & _ & _) [Hnd Hlen] [Hb Hroom]].
  destruct (kthread_allocator s) as [|k ts] eqn:Ets; [simpl in Hlen; lia|].
  destruct (law_create 1 _ ∅ 0 Hb eq_refl Hroom) as (pd & ks & r1 & r2 & r3 & L1 & L2 & L3 & Hks & Hb' & Hroom').
  exists sl, k, ts, pd, ks, r3. split_and!; try done. unfold bootstrap.
  erewrite bind_eq.
  2: { apply (proc_create_eq _ _ 0 sl 0 1 pd r1 r2); [exact Hsl| |done|done|done|exact L1|exact L2].
       rewrite getid_next; unfold asking; kcbn; rewrite ?Hn; [done|unfold PROC_MAX_COUNT; lia|].
       intros (a & P & Ha & _). revert Ha. kcbn. rewrite Hpl. set_solver. }
  unfold created. rewrite Hpr, Hpl, Hkw. change (0 =? PID_INIT) with false. change (PID_IDLE <? 0) with false. cbn zeta.
  erewrite bind_eq by (by apply on_sched_eq). kcbn.
  erewrite bind_eq. 2: { apply proc_get_eq. kcbn. by rewrite lookup_insert_eq. }
  rewrite bind_assert by done. erewrite bind_eq.
  2: { eapply kthread_create_eq; kcbn; [exact Ets|by rewrite lookup_insert_eq|done|exact L3]. }
  kcbn. erewrite bind_eq by (by apply on_sched_eq). kcbn.
  erewrite on_sched_eq. 2: { kcbn. eapply sched_make_runnable_idle; [simpl; by rewrite lookup_insert_eq|done|done]. }
  unfold set_sched. kcbn. do 2 f_equal. f_equal.
  apply sys_ext; try done. simpl. apply map_eq. intros j. destruct (decide (j = k)) as [->|]; by simplify_map_eq.
Qed.

Lemma ptree_two (A B : proc) i :
  0 < i -> p_pid A = 0 -> p_pproc A = None -> p_state A = PROC_RUNNING -> p_children A = [i] ->
  p_pid B = 1 -> p_pproc B = Some 0 -> p_state B = PROC_RUNNING -> p_children B = [] ->
  ptree (<[0 := A]> {[i := B]}) [0; i] i.
Proof.
  intros Hi A1 A2 A3 A4 B1 B2 B3 B4. set (m := <[0 := A]> {[i := B]} : gmap Z proc).
  assert (H0 : m !! 0 = Some A) by (unfold m; by rewrite lookup_insert_eq).
  assert (H1 : m !! i = Some B) by (unfold m; rewrite lookup_insert_ne by lia; by rewrite lookup_singleton_eq).
  assert (Hm : forall a P, m !! a = Some P -> (a = 0 /\ P = A) \/ (a = i /\ P = B)).
  { intros a P [[<- <-]|[_ [<- <-]%lookup_singleton_Some]]%lookup_insert_Some; auto. }
  split.
  - repeat constructor; set_solver by lia.
  - intros a. split; [intros [->|[->|[]%not_elem_of_nil]%elem_of_cons]%elem_of_cons; eauto|].
    intros [P HP]. apply Hm in HP as [[-> _]|[-> _]]; set_solver.
  - intros a P [[-> ->]|[-> ->]]%Hm; unfold PROC_MAX_COUNT; lia.
  - intros a b P Q [[-> ->]|[-> ->]]%Hm [[-> ->]|[-> ->]]%Hm; lia.
  - exists A. done.
  - exists B. done.
  - intros a P [[-> ->]|[-> ->]]%Hm Ha; [done|]. exists 0, A. rewrite A4. split_and!; try done. set_solver.
  - intros b Q a [[-> ->]|[-> ->]]%Hm; [rewrite A4; intros ->%list_elem_of_singleton; eauto|rewrite B4; set_solver].
  - intros b Q [[-> ->]|[-> ->]]%Hm; [rewrite A4; apply NoDup_singleton|rewrite B4; constructor].
  - intros a [P HP]. apply Hm in HP as [[-> _]|[-> _]]; [constructor|]. eapply rooted_up; [exact H1|exact B2|constructor].
Qed.

(** The invariant of the two processes after boot, the second ready to run. *)
Lemma kinv_two x A B i k0 k1 T0 T1 pd0 pd1 sl ts r :
  swf x -> threads x = <[k1 := T1]> {[k0 := T0]} -> k0 <> k1 -> curthr x = k0 -> curproc x = 0 ->
  is_Some (queues x !! p_wait 0) -> is_Some (queues x !! p_wait i) ->
  0 < i -> p_pid A = 0 -> p_pproc A = None -> p_state A = PROC_RUNNING -> p_children A = [i] -> p_threads A = [k0] -> p_pagedir A = Some pd0 ->
  p_pid B = 1 -> p_pproc B = Some 0 -> p_state B = PROC_RUNNING -> p_children B = [] -> p_threads B = [k1] -> p_pagedir B = Some pd1 ->
  kt_proc T0 = 0 -> kt_state T0 = KT_RUN -> kt_wchan T0 = None -> kt_kstack T0 <> 0 ->
  kt_proc T1 = i -> kt_state T1 = KT_RUN -> kt_wchan T1 = Some kt_runq -> kt_kstack T1 <> 0 ->
  NoDup (0 :: i :: sl) -> (forall a, a ∈ sl -> 0 < a) -> NoDup (k0 :: k1 :: ts) ->
  books r (<[i := MkOwns pd1 (kt_kstack T1) true]> {[0 := MkOwns pd0 (kt_kstack T0) true]}) ->
  kinv (MkK R x (<[0 := A]> {[i := B]}) [0; i] 2 (Some i) sl ts ∅ r).
Proof.
  intros Hx Hth Hk01 Hct Hcp Hq0 Hqi Hi A1 A2 A3 A4 A5 A6 B1 B2 B3 B4 B5 B6 C1 C2 C3 C4 D1 D2 D3 D4 Hnd Hsl Hts Hb.
  set (m := <[0 := A]> {[i := B]} : gmap Z proc).
  assert (H0 : m !! 0 = Some A) by (unfold m; by rewrite lookup_insert_eq).
  assert (H1 : m !! i = Some B) by (unfold m; rewrite lookup_insert_ne by lia; by rewrite lookup_singleton_eq).
  assert (Hm : forall a P, m !! a = Some P -> (a = 0 /\ P = A) \/ (a = i /\ P = B)).
  { intros a P [[<- <-]|[_ [<- <-]%lookup_singleton_Some]]%lookup_insert_Some; auto. }
  assert (E1 : threads x !! k1 = Some T1) by (by rewrite Hth, lookup_insert_eq).
  assert (E0 : threads x !! k0 = Some T0) by (rewrite Hth, lookup_insert_ne by done; by rewrite lookup_singleton_eq).
  assert (Ht : forall t T, threads x !! t = Some T -> (t = k0 /\ T = T0) \/ (t = k1 /\ T = T1)).
  { intros t T. rewrite Hth. intros [[<- <-]|[_ [<- <-]%lookup_singleton_Some]]%lookup_insert_Some; auto. }
  exists i, (<[i := MkOwns pd1 (kt_kstack T1) true]> {[0 := MkOwns pd0 (kt_kstack T0) true]}). split_and!.
  - split; kcbn; try done.
    + by apply ptree_two.
    + intros a P [[-> ->]|[-> ->]]%Hm; (split_and!; [lia|done|]).
      * exists k0, T0, pd0. rewrite A3, C2, lookup_insert_ne, lookup_singleton_eq by lia. done.
      * exists k1, T1, pd1. rewrite B3, D2, lookup_insert_eq. done.
    + intros a Ha. assert (a <> 0) by (intros ->; congruence). assert (a <> i) by (intros ->; congruence).
      by rewrite lookup_insert_ne, lookup_singleton_ne by done.
    + intros t T [[-> ->]|[-> ->]]%Ht; [exists A; by rewrite C1|exists B; by rewrite D1].
    + intros t T q [[-> ->]|[-> ->]]%Ht Hw Hneg; [congruence|]. rewrite D3 in Hw. injection Hw as <-. done.
    + apply NoDup_cons in Hnd as [N0 Hnd]. apply NoDup_cons in Hnd as [N1 Hnd]. split; [done|]. intros a Ha. split; [auto|].
      unfold m. rewrite lookup_insert_ne by set_solver. rewrite lookup_singleton_ne by set_solver. done.
    + apply NoDup_cons in Hts as [N0 Hts]. apply NoDup_cons in Hts as [N1 Hts]. split; [done|]. intros t Htt. rewrite Hth.
      rewrite lookup_insert_ne by set_solver. rewrite lookup_singleton_ne by set_solver. done.
  - exists T0. kcbn. rewrite Hct, Hcp. done.
  - intros t T [[-> ->]|[-> ->]]%Ht _; [by left|right]. exists T1, kt_runq. done.
Qed.

Lemma boot_swf x i k0 k1 T0 T1 :
  swf x -> threads x = ∅ -> 0 < i -> k0 <> k1 -> kt_wchan T0 = None -> kt_qlink T0 = None -> state_ok T0 ->
  kt_wchan T1 = None -> kt_qlink T1 = None -> state_ok T1 ->
  swf (set_threads <[k1 := T1]> (set_queues <[p_wait i := MkQueue [] 0]>
         (set_cur k0 0 (set_threads <[k0 := T0]> (set_queues <[p_wait 0 := MkQueue [] 0]> x))))).
Proof.
  intros Hx Hth Hi Hk W0 L0 S0 W1 L1 S1.
  assert (Hw : forall a, 0 <= a -> p_wait a <> kt_runq) by (intros; unfold p_wait, kt_runq; lia).
  apply swf_new_thread; [|simpl; rewrite Hth; by rewrite lookup_insert_ne|done|done|done].
  apply swf_new_queue; [|apply Hw; lia|].
  - destruct (swf_new_thread k0 T0 (set_queues <[p_wait 0 := MkQueue [] 0]> x)) as [Hq Hs]; [|simpl; by rewrite Hth|done|done|done|].
    + apply swf_new_queue; [done|by apply Hw|]. intros t T. by rewrite Hth.
    + split; [by apply qwf_cur|exact Hs].
  - simpl. rewrite Hth. intros t T [<- <-]%lookup_singleton_Some. by rewrite W0.
Qed.

Lemma boot_spec s : fresh s ->
  exists s', (bootstrap ;;; idleproc_start) s = Ret (tt, s') /\ kinv s' /\ k_wait s' = ∅.
Proof.
  intros Hf. destruct (bootstrap_eq s Hf) as (sl & k0 & ts & pd0 & ks0 & r0 & Hsl & Hts & Hks0 & Hb0 & Hroom & E0).
  destruct Hf as [[Hx Hth] _ (sl' & Hsl' & Hne & Hnd & Hpos) [Hndt Hlen] _]. rewrite Hsl in Hsl'. injection Hsl' as <-. rewrite Hts in Hndt, Hlen.
  destruct sl as [|i sl]; [done|]. destruct ts as [|k1 ts]; [simpl in Hlen; lia|]. assert (Hi : 0 < i) by (apply Hpos; set_solver).
  assert (Hk01 : k0 <> k1) by (apply NoDup_cons in Hndt as [? _]; set_solver).
  destruct (law_create 0 _ _ i Hb0) as (pd1 & ks1 & r1 & r2 & r3 & L1 & L2 & L3 & Hks1 & Hb1 & _); [by rewrite lookup_singleton_ne by lia|done|].
  rewrite (bind_eq _ _ _ _ _ E0). unfold idleproc_start, initproc_create. set (T0 := MkThread _ _ _ _ _ _ _ _ _). set (A := MkProc _ _ _ _ _ _ _ _).
  rewrite bind_bind. erewrite bind_eq.
  2: { apply (proc_create_eq _ _ i sl 1 2 pd1 r1 r2); kcbn; [done| |done| | |exact L1|exact L2].
       - rewrite getid_next; unfold asking; kcbn; [done|unfold PROC_MAX_COUNT; lia|]. intros (a & P & Ha & HP & Hp). revert Ha HP. kcbn.
         intros ->%list_elem_of_singleton. rewrite lookup_insert_ne, lookup_singleton_eq by lia. intros [= <-]. done.
       - intros _. exists A. cbn [set_cur curproc]. by rewrite lookup_singleton_eq.
       - intros _. cbn [set_cur curproc]. rewrite lookup_singleton_eq. split; [lia|eauto]. }
  unfold created. change (1 =? PID_INIT) with true. change (PID_IDLE <? 1) with true. cbn [set_cur curproc]. cbn zeta. kcbn.
  change (curproc (set_cur k0 0 ?z)) with 0. set (x1 := set_queues _ (set_cur k0 0 _)). set (B := MkProc 1 _ _ _ _ _ _ _).
  rewrite bind_bind. erewrite bind_eq. 2: { apply proc_get_eq. kcbn. rewrite lookup_alter_ne by lia. by rewrite lookup_insert_eq. }
  rewrite bind_bind, bind_assert by done. erewrite bind_eq.
  2: { eapply (kthread_create_eq _ B pd1); kcbn; [done| |done|exact L3]. rewrite lookup_alter_ne by lia. by rewrite lookup_insert_eq. }
  kcbn. set (T1 := MkThread _ _ _ _ _ _ i _ _). erewrite bind_eq by (by apply on_sched_eq). kcbn. set (y := set_intr _ _).
  assert (Hyt : threads y = <[k1 := T1]> {[k0 := T0]}) by (unfold y, x1; simpl; by rewrite Hth).
  assert (Hy1 : threads y !! k1 = Some T1) by (by rewrite Hyt, lookup_insert_eq).
  assert (Hy : swf y) by (by apply swf_intr, boot_swf).
  erewrite on_sched_eq. 2: { kcbn. eapply sched_make_runnable_eq; [apply Hy|exact Hy1|done|]. simpl. unfold PID_IDLE. lia. }
  unfold set_sched. kcbn. eexists. split; [reflexivity|]. split; [|done].
  replace (alter _ i (alter _ 0 _)) with (<[0 := with_children [i] A]> {[i := with_threads [k1] B]} : gmap Z proc).
  2: { apply map_eq. intros j. destruct (decide (j = i)) as [->|Hji].
       - rewrite lookup_alter_eq, lookup_alter_ne, lookup_insert_eq, lookup_insert_ne, lookup_singleton_eq by lia. done.
       - rewrite lookup_alter_ne by done. destruct (decide (j = 0)) as [->|Hj0].
         + rewrite lookup_alter_eq, lookup_insert_eq, lookup_insert_ne, lookup_singleton_eq by lia. done.
         + rewrite lookup_alter_ne, !lookup_insert_ne, !lookup_singleton_ne by done. done. }
  eapply (kinv_two _ _ _ i k0 k1 T0 (run_thr T1) pd0 pd1); try done.
  - by eapply swf_runnable.
  - rewrite (runnable_threads _ _ _ Hy1), Hyt. by rewrite insert_insert_eq.
  - rewrite runnable_queues. unfold y, x1. simpl. rewrite !lookup_insert_is_Some'. eauto.
  - rewrite runnable_queues. unfold y, x1. simpl. rewrite !lookup_insert_is_Some'. eauto.
  - constructor; [|done]. intros H0. apply Hpos in H0. lia.
  - intros a Ha. apply Hpos. set_solver.
Qed.
End steps.
