(* ===== verification/ProcLife.v ===== *)
(** * The life of a process

    The theorems on processes: identifiers, the tree and its invariant over
    whole executions from boot, fork, exit and wait.  [book] is an
    implementation of the rest of the kernel that keeps nothing but the books
    and checks every call; a process has a table of descriptors, open or closed,
    which fork copies and exit walks as the code does.  It shows that [KernelLaws]
    can be met and gives the examples. *)

From S2P Require Import Prelude Sched Proc ProcInv ProcRun.

(** ** A kernel that keeps the books *)

Record book : Type := MkBook {
  bk_pds : gset Z;
  bk_stacks : gset Z;
  bk_spaces : gset Z;
  bk_files : gmap Z (list bool);
  bk_next : Z;
  bk_free : nat
}.

(** A block of memory, if there is one. *)
Definition bk_alloc (f : Z -> book -> book) : M book (option Z) :=
  let! b := gets id in
  match bk_free b with
  | O => ret None
  | S n =>
      modify (fun b => f (bk_next b) (MkBook (bk_pds b) (bk_stacks b) (bk_spaces b) (bk_files b) (bk_next b + 1) n)) ;;;
      ret (Some (bk_next b))
  end.

Definition bk_check (p : book -> bool) (f : book -> book) : M book unit :=
  let! b := gets p in KASSERT b ;;; modify f.

(** The loop of [proc_cleanup] over a descriptor table; beyond its end the code reads
    outside it. *)
Fixpoint bk_close (t : list bool) : M book unit :=
  match t with
  | [] => stop Undef
  | false :: _ => ret tt
  | true :: t' => bk_close t'
  end.

Definition bk_set_files (f : gmap Z (list bool) -> gmap Z (list bool)) (b : book) : book :=
  MkBook (bk_pds b) (bk_stacks b) (bk_spaces b) (f (bk_files b)) (bk_next b) (bk_free b).

#[export] Instance book_rest : KernelRest book := {
  pt_create_pagedir := bk_alloc (fun z b => MkBook ({[z]} ∪ bk_pds b) (bk_stacks b) (bk_spaces b) (bk_files b) (bk_next b) (bk_free b));
  pt_destroy_pagedir z := bk_check (fun b => bool_decide (z ∈ bk_pds b))
    (fun b => MkBook (bk_pds b ∖ {[z]}) (bk_stacks b) (bk_spaces b) (bk_files b) (bk_next b) (S (bk_free b)));
  vmmap_create_for a := bk_check (fun b => bool_decide ((a ∉ bk_spaces b) /\ bk_files b !! a = None))
    (fun b => MkBook (bk_pds b) (bk_stacks b) ({[a]} ∪ bk_spaces b) (<[a := replicate 32 false]> (bk_files b)) (bk_next b) (bk_free b));
  vmmap_destroy_of a := bk_check (fun b => bool_decide (a ∈ bk_spaces b))
    (fun b => MkBook (bk_pds b) (bk_stacks b) (bk_spaces b ∖ {[a]}) (bk_files b) (bk_next b) (bk_free b));
  release_files_of a :=
    let! o := gets (fun b => bk_files b !! a) in let! t := deref o in bk_close t ;;; modify (bk_set_files (delete a));
  fork_vm_of a b := bk_check (fun k => bool_decide (a ∈ bk_spaces k /\ b ∈ bk_spaces k)) id;
  fork_files_of a b :=
    let! o := gets (fun k => bk_files k !! a) in let! t := deref o in modify (bk_set_files <[b := t]>);
  alloc_stack := bk_alloc (fun z b => MkBook (bk_pds b) ({[z]} ∪ bk_stacks b) (bk_spaces b) (bk_files b) (bk_next b) (bk_free b));
  free_stack z := bk_check (fun b => bool_decide (z ∈ bk_stacks b))
    (fun b => MkBook (bk_pds b) (bk_stacks b ∖ {[z]}) (bk_spaces b) (bk_files b) (bk_next b) (S (bk_free b)))
}.

Record balanced (b : book) (o : gmap Z owns) : Prop := {
  bal_pd : forall a w, o !! a = Some w -> o_pagedir w ∈ bk_pds b /\ o_pagedir w < bk_next b;
  bal_stack : forall a w, o !! a = Some w -> o_stack w ∈ bk_stacks b /\ o_stack w < bk_next b;
  bal_inj : forall a a' w w', o !! a = Some w -> o !! a' = Some w' -> a <> a' ->
    o_pagedir w <> o_pagedir w' /\ o_stack w <> o_stack w';
  bal_live : forall a w, o !! a = Some w -> o_alive w = true ->
    a ∈ bk_spaces b /\ exists t, bk_files b !! a = Some t /\ false ∈ t;
  bal_dead : forall a, a ∈ bk_spaces b \/ is_Some (bk_files b !! a) -> exists w, o !! a = Some w /\ o_alive w = true;
  bal_next : 0 < bk_next b
}.

Lemma bk_check_eq p f b : p b = true -> bk_check p f b = Ret (tt, f b).
Proof. intros E. unfold bk_check. by rewrite bind_gets, E. Qed.

Lemma bk_alloc_eq f b n : bk_free b = S n ->
  bk_alloc f b = Ret (Some (bk_next b), f (bk_next b) (MkBook (bk_pds b) (bk_stacks b) (bk_spaces b) (bk_files b) (bk_next b + 1) n)).
Proof. intros E. unfold bk_alloc. rewrite bind_gets. unfold id. by rewrite E. Qed.

(** What both kinds of creation leave. *)
Lemma balanced_create b o a n t :
  balanced b o -> o !! a = None -> false ∈ t ->
  balanced (MkBook ({[bk_next b]} ∪ bk_pds b) ({[bk_next b + 1]} ∪ bk_stacks b) ({[a]} ∪ bk_spaces b) (<[a := t]> (bk_files b))
              (bk_next b + 1 + 1) n)
    (<[a := MkOwns (bk_next b) (bk_next b + 1) true]> o).
Proof.
  intros [H1 H2 H3 H4 H5 H6] Ha Ht. split; simpl; try lia.
  - intros x w [[<- <-]|[_ Hw]]%lookup_insert_Some; simpl; [split; [set_solver|lia]|]. destruct (H1 _ _ Hw). split; [set_solver|lia].
  - intros x w [[<- <-]|[_ Hw]]%lookup_insert_Some; simpl; [split; [set_solver|lia]|]. destruct (H2 _ _ Hw). split; [set_solver|lia].
  - intros x y w v [[<- <-]|[_ Hw]]%lookup_insert_Some [[<- <-]|[_ Hv]]%lookup_insert_Some Hne; simpl; try done.
    + destruct (H1 _ _ Hv), (H2 _ _ Hv). lia.
    + destruct (H1 _ _ Hw), (H2 _ _ Hw). lia.
    + by eapply H3.
  - intros x w [[<- <-]|[Hne Hw]]%lookup_insert_Some Hal; [rewrite lookup_insert_eq; split; [set_solver|eauto]|].
    destruct (H4 _ _ Hw Hal). rewrite lookup_insert_ne by done. split; [set_solver|done].
  - intros x Hx. destruct (decide (x = a)) as [->|Hne]; [eexists; by rewrite lookup_insert_eq|].
    rewrite lookup_insert_ne by done. apply H5. destruct Hx as [Hx|Hx]; [left; set_solver|right; by rewrite lookup_insert_ne in Hx].
Qed.

Lemma balanced_fresh b o a : balanced b o -> o !! a = None -> (a ∉ bk_spaces b) /\ bk_files b !! a = None.
Proof.
  intros Hb Ha. split; [intros Hin|apply eq_None_not_Some; intros Hin];
    (destruct (bal_dead _ _ Hb a) as (w & Hw & _); [auto|congruence]).
Qed.

Lemma bk_close_eq t b : false ∈ t -> bk_close t b = Ret (tt, b).
Proof.
  induction t as [|[|] t IH]; intros Hin; [by apply not_elem_of_nil in Hin|apply IH|done].
  by apply elem_of_cons in Hin as [?|?].
Qed.

Lemma bk_release_eq a t b : bk_files b !! a = Some t -> false ∈ t -> release_files_of a b = Ret (tt, bk_set_files (delete a) b).
Proof. intros E Ht. simpl. rewrite bind_gets, E, bind_deref. by rewrite (bind_eq _ _ _ _ _ (bk_close_eq t b Ht)). Qed.

Lemma bk_fork_files_eq p a t b : bk_files b !! p = Some t -> fork_files_of p a b = Ret (tt, bk_set_files <[a := t]> b).
Proof. intros E. simpl. by rewrite bind_gets, E, bind_deref. Qed.

Definition bk_room (n : nat) (b : book) : Prop := (2 * n <= bk_free b)%nat.

Lemma book_create n b o a : balanced b o -> o !! a = None -> bk_room (S n) b ->
  exists pd ks b1 b2 b3, pt_create_pagedir b = Ret (Some pd, b1) /\ vmmap_create_for a b1 = Ret (tt, b2) /\
    alloc_stack b2 = Ret (Some ks, b3) /\ ks <> 0 /\ balanced b3 (<[a := MkOwns pd ks true]> o) /\ bk_room n b3.
Proof.
  unfold bk_room. intros Hb Ha Hr. destruct (bk_free b) as [|[|f]] eqn:Ef; [lia|lia|]. destruct (balanced_fresh _ _ _ Hb Ha) as [Hs Hf].
  eexists _, _, _, _, _. split; [by apply (bk_alloc_eq _ _ (S f))|].
  split; [apply bk_check_eq; by apply bool_decide_eq_true_2|]. split; [by apply (bk_alloc_eq _ _ f)|].
  split_and!; [pose proof (bal_next _ _ Hb); simpl; lia|apply (balanced_create b o a f); [done|done|by left]|simpl; lia].
Qed.

Lemma book_fork n b o a p B : balanced b o -> o !! a = None -> o !! p = Some B -> o_alive B = true -> bk_room (S n) b ->
  exists pd ks b1 b2 b3 b4 b5, pt_create_pagedir b = Ret (Some pd, b1) /\ vmmap_create_for a b1 = Ret (tt, b2) /\
    fork_vm_of p a b2 = Ret (tt, b3) /\ alloc_stack b3 = Ret (Some ks, b4) /\ fork_files_of p a b4 = Ret (tt, b5) /\
    ks <> 0 /\ balanced b5 (<[a := MkOwns pd ks true]> o) /\ bk_room n b5.
Proof.
  unfold bk_room. intros Hb Ha Hp Hal Hr. destruct (bk_free b) as [|[|f]] eqn:Ef; [lia|lia|]. destruct (balanced_fresh _ _ _ Hb Ha) as [Hs Hf].
  destruct (bal_live _ _ Hb _ _ Hp Hal) as (Hps & t & Et & Ht). assert (Hne : a <> p) by congruence.
  eexists _, _, _, _, _, _, _. split; [by apply (bk_alloc_eq _ _ (S f))|].
  split; [apply bk_check_eq; by apply bool_decide_eq_true_2|].
  split; [apply bk_check_eq; apply bool_decide_eq_true_2; simpl; set_solver|]. split; [by apply (bk_alloc_eq _ _ f)|].
  split; [apply (bk_fork_files_eq p a t); simpl; by rewrite lookup_insert_ne|].
  split_and!; [pose proof (bal_next _ _ Hb); simpl; lia| |simpl; lia].
  unfold bk_set_files. simpl. rewrite insert_insert_eq. by apply (balanced_create b o a f).
Qed.

Lemma book_exit b o a pd ks : balanced b o -> o !! a = Some (MkOwns pd ks true) ->
  exists b1 b2, vmmap_destroy_of a b = Ret (tt, b1) /\ release_files_of a b1 = Ret (tt, b2) /\
    balanced b2 (<[a := MkOwns pd ks false]> o).
Proof.
  intros Hb Ha. destruct (bal_live _ _ Hb _ _ Ha eq_refl) as (Hs & t & Et & Ht).
  eexists _, _. split; [apply bk_check_eq; by apply bool_decide_eq_true_2|].
  split; [by apply (bk_release_eq a t)|]. destruct Hb as [H1 H2 H3 H4 H5 H6]. split; simpl; try done.
  - intros x w [[<- <-]|[_ Hw]]%lookup_insert_Some; [by apply (H1 _ _ Ha)|eauto].
  - intros x w [[<- <-]|[_ Hw]]%lookup_insert_Some; [by apply (H2 _ _ Ha)|eauto].
  - intros x y w v [[<- <-]|[_ Hw]]%lookup_insert_Some [[<- <-]|[_ Hv]]%lookup_insert_Some Hne; simpl; try done.
    + exact (H3 _ _ _ _ Ha Hv Hne).
    + exact (H3 _ _ _ _ Hw Ha Hne).
    + by eapply H3.
  - intros x w [[<- <-]|[Hne Hw]]%lookup_insert_Some Hal; [done|]. destruct (H4 _ _ Hw Hal).
    rewrite lookup_delete_ne by done. split; [set_solver|done].
  - intros x Hx. assert (x <> a).
    { intros ->. rewrite lookup_delete_eq in Hx. destruct Hx as [Hx|[? ?]]; [set_solver|done]. }
    rewrite lookup_insert_ne by done. rewrite lookup_delete_ne in Hx by done. apply H5. set_solver.
Qed.

Lemma book_reap b o a pd ks : balanced b o -> o !! a = Some (MkOwns pd ks false) ->
  exists b1 b2, free_stack ks b = Ret (tt, b1) /\ pt_destroy_pagedir pd b1 = Ret (tt, b2) /\ balanced b2 (delete a o).
Proof.
  intros Hb Ha. destruct (bal_pd _ _ Hb _ _ Ha) as [Hp _]. destruct (bal_stack _ _ Hb _ _ Ha) as [Hk _].
  eexists _, _. split; [apply bk_check_eq; by apply bool_decide_eq_true_2|].
  split; [apply bk_check_eq; by apply bool_decide_eq_true_2|]. destruct Hb as [H1 H2 H3 H4 H5 H6]. split; simpl; try done.
  - intros x w [Hne Hw]%lookup_delete_Some. destruct (H3 _ _ _ _ Hw Ha) as [Hd _]; [done|]. simpl in Hd. destruct (H1 _ _ Hw). set_solver.
  - intros x w [Hne Hw]%lookup_delete_Some. destruct (H3 _ _ _ _ Hw Ha) as [_ Hd]; [done|]. simpl in Hd. destruct (H2 _ _ Hw). set_solver.
  - intros x y w v [_ Hw]%lookup_delete_Some [_ Hv]%lookup_delete_Some. by eapply H3.
  - intros x w [_ Hw]%lookup_delete_Some. eauto.
  - intros x Hx. destruct (H5 x Hx) as (w & Hw & Hal). exists w. rewrite lookup_delete_ne; [done|]. intros ->. by simplify_eq.
Qed.

#[export] Instance book_laws : KernelLaws book := {
  books := balanced;
  room := bk_room;
  law_create := book_create;
  law_fork := book_fork;
  law_exit := book_exit;
  law_reap := book_reap
}.

(** ** Examples: runs from boot *)

Definition evs_nil (evs : list intr) : bool := match evs with [] => true | _ => false end.

(** A check that implies [call_ok]. *)
Definition call_okb (s : ktab book) (c : kcall) : bool :=
  (match c, k_wait s !! curthr (k_sched s) with KResume _, Some _ => true | KResume _, None => false | _, Some _ => false | _, None => true end) &&
  match c with
  | KSpawn _ | KFork =>
      match proc_allocator s with [] => false | _ => true end && match kthread_allocator s with [] => false | _ => true end &&
      negb (existsb (has_pid (procs s) (next_pid s)) (_proc_list s)) && (0 <=? next_pid s) && (next_pid s <? PROC_MAX_COUNT) &&
      Nat.leb 2 (bk_free (k_rest s)) && negb (curproc (k_sched s) =? 0)
  | KExit evs _ => negb (curproc (k_sched s) =? 0) && bool_decide (proc_initproc s <> Some (curproc (k_sched s))) && evs_nil evs
  | KWait evs _ | KResume evs | KKillAll evs => evs_nil evs
  | KSched (OYield evs) => negb (curproc (k_sched s) =? 0) && evs_nil evs
  | _ => false
  end.

Lemma evs_nil_ok x evs : evs_nil evs = true -> Forall (intr_ok x) evs.
Proof. by destruct evs. Qed.

Lemma call_okb_ok s c : call_okb s c = true -> call_ok s c.
Proof.
  unfold call_okb, call_ok. rewrite andb_true_iff. intros [H1 H2].
  assert (Hcan : forall b, match proc_allocator s with [] => false | _ => true end && match kthread_allocator s with [] => false | _ => true end &&
      negb (existsb (has_pid (procs s) (next_pid s)) (_proc_list s)) && (0 <=? next_pid s) && (next_pid s <? PROC_MAX_COUNT) &&
      Nat.leb 2 (bk_free (k_rest s)) && negb b = true -> can_create s /\ b = false).
  { intros b. rewrite !andb_true_iff, !negb_true_iff. intros [[[[[[A1 A2] A3] A4] A5] A6] A7]. split; [|done]. unfold can_create. split_and!.
    - by destruct (proc_allocator s).
    - by destruct (kthread_allocator s).
    - exists (next_pid s). split; [lia|]. rewrite <- existsb_pid. congruence.
    - apply Nat.leb_le in A6. unfold room. simpl. unfold bk_room. lia. }
  assert (Hev : forall evs, evs_nil evs = true -> Forall (intr_ok (k_sched s)) evs) by (intros; by apply evs_nil_ok).
  destruct (k_wait s !! curthr (k_sched s)) as [w|] eqn:Ew; destruct c as [n| |evs st|evs p|evs|p st|evs|[]]; try done; split; eauto.
  - by apply Hcan in H2 as [? _].
  - apply Hcan in H2 as [? ?]. split; [done|]. lia.
  - rewrite !andb_true_iff, negb_true_iff in H2. destruct H2 as [[A1 A2] A3]. apply bool_decide_eq_true in A2. split_and!; [lia|done|auto].
  - rewrite andb_true_iff, negb_true_iff in H2. destruct H2 as [A1 A2]. split_and!; [split; [unfold PID_IDLE; lia|auto]|done|done].
Qed.

Fixpoint run_calls (cs : list kcall) (s : ktab book) : option (ktab book) :=
  match cs with
  | [] => Some s
  | c :: cs' =>
      if call_okb s c then
        match run_call c s with Ret (_, s') => run_calls cs' s' | Stop _ => None end
      else None
  end.

Lemma run_calls_reach s0 cs : forall s s', kreach s0 s -> run_calls cs s = Some s' -> kreach s0 s'.
Proof.
  induction cs as [|c cs IH]; simpl; intros s s' Hr E; [by simplify_eq|]. destruct (call_okb s c) eqn:Eo; [|done].
  destruct (run_call c s) as [[r s1]|] eqn:Er; [|done]. eapply IH; [|exact E]. eapply kreach_call; [done|by apply call_okb_ok|exact Er].
Qed.

Definition machine : ktab book :=
  MkK book (MkSys ∅ (<[0 := MkQueue [] 0]> ∅) 0 0 0 false) ∅ [] 0 None [0; 1; 2; 3; 4] [10; 11; 12; 13; 14] ∅ (MkBook ∅ ∅ ∅ ∅ 100 40).

Lemma machine_fresh : fresh machine.
Proof.
  split.
  - split; [|done]. split; [split|]; simpl.
    + by eexists.
    + intros q Q [[<- <-]|[_ H]]%lookup_insert_Some; [split; [done|constructor]|done].
    + intros q Q t [[<- <-]|[_ H]]%lookup_insert_Some; [set_solver|done].
    + done.
    + done.
    + done.
  - done.
  - exists [1; 2; 3; 4]. split_and!; [done|done|apply NoDup_ListNoDup; repeat constructor; simpl; lia|].
    intros a Ha. repeat (apply elem_of_cons in Ha as [->|Ha]; [lia|]). set_solver.
  - split; [apply NoDup_ListNoDup; repeat constructor; simpl; lia|simpl; lia].
  - split; [|unfold room; simpl; unfold bk_room; simpl; lia]. split; simpl; try done; try lia. intros a [Ha|[t Ha]]; [set_solver|done].
Qed.

(** The machine after boot, and after some calls. *)
Definition booted : ktab book := match (bootstrap ;;; idleproc_start) machine with Ret (_, s) => s | Stop _ => machine end.

Definition after (cs : list kcall) : ktab book := default booted (run_calls cs booted).

Lemma booted_eq : (bootstrap ;;; idleproc_start) machine = Ret (tt, booted).
Proof. destruct (boot_spec machine machine_fresh) as (s' & E & _). unfold booted. by rewrite E. Qed.

Lemma booted_inv : kinv booted.
Proof. destruct (boot_spec machine machine_fresh) as (s' & E & H & _). unfold booted. by rewrite E. Qed.

Lemma after_reach cs : is_Some (run_calls cs booted) -> kreach booted (after cs).
Proof. intros [s' E]. unfold after. rewrite E. eapply run_calls_reach; [apply kreach_refl|exact E]. Qed.

Lemma after_inv cs : is_Some (run_calls cs booted) -> kinv (after cs).
Proof. intros H. eapply kreach_inv; [exact booted_inv|by apply after_reach]. Qed.

(** ** Giving up the processor at once *)

Lemma switch_now C x :
  swf x -> threads x !! curthr x = Some C -> nonempty_q x kt_runq ->
  exists t T, (forall evs, sched_switch evs x = Ret (tt, dispatch t T (parked x))) /\ threads (parked x) !! t = Some T /\ kt_wchan T = Some kt_runq.
Proof.
  intros Hx HC (Q & HQ & Hl). destruct (last (tq_list Q)) as [t|] eqn:El; [|by apply last_None in El].
  assert (Hp : swf (parked x)) by auto with weenix.
  destruct (qwf_last (kt_runq) Q t (parked x) (proj1 Hp) HQ El) as (T & HT & Hw & _). exists t, T. split_and!; [|done|done].
  intros evs. eapply sched_switch_eq; [exact HC| |exact Hp|exact HQ|exact El|exact HT]. by eapply wait_runq_now.
Qed.

Section life.
Context {R : Type} `{!KernelRest R} `{!KernelLaws R}.
Implicit Types (s : ktab R) (a t : Z).

(** An exit with somebody ready to run: it does not wait for interrupts, and
    every thread on a queue stays there unless it is the next to run. *)
Lemma exit_now evs status s init o :
  kcore s init o -> cur_ok (k_sched s) -> nobody_lost (k_sched s) ->
  curproc (k_sched s) <> 0 -> curproc (k_sched s) <> init -> k_wait s !! curthr (k_sched s) = None ->
  exists P b w x, procs s !! curproc (k_sched s) = Some P /\ p_pproc P = Some b /\
    sched_wakeup_on (p_wait b) (set_threads (alter (exited status) (curthr (k_sched s))) (k_sched s)) = Ret (w, x) /\
    (nonempty_q x kt_runq -> exists s', do_exit evs status s = Ret (true, s') /\ kinv s' /\
       (forall a, procs s' !! a = exit_node (curproc (k_sched s)) init (s32 status) P a <$> procs s !! a) /\
       forall u U, threads x !! u = Some U -> u <> curthr (k_sched s) ->
         (curthr (k_sched s') = u /\ kt_wchan U = Some kt_runq) \/ threads (k_sched s') !! u = Some U).
Proof.
  intros Hk Hc Hl Hm0 Hmi Hnw.
  destruct (exit_prepared evs status s init o Hk Hc Hl Hm0 Hmi Hnw) as (P & b & w & x & r & o' & HP & Hb & _ & Ew & E & Hk1 & Hq & Hct & Hlost).
  exists P, b, w, x. split_and!; try done. intros Hne. destruct Hc as (C & HC & Hc').
  assert (exists C', threads x !! curthr x = Some C') as [C' HC'].
  { rewrite Hct. destruct (qt_thr _ _ Hq (curthr (k_sched s)) (exited status C)) as (C' & HC' & _); [|eauto].
    unfold set_threads. cbn [threads]. by rewrite lookup_alter_eq, HC. }
  destruct (switch_now C' x (kc_sched _ _ _ Hk1) HC' Hne) as (t & T & Esw & HT & HTw).
  pose proof (switch_kinv [] _ init o' Hk1 (Forall_nil_2 _) (mk_is_Some _ _ HC') Hlost) as Hsw.
  unfold wpd in Hsw. erewrite on_sched_eq in Hsw by (kcbn; exact (Esw [])). destruct Hsw as [Hinv _].
  rewrite E. unfold bind. erewrite on_sched_eq by (kcbn; exact (Esw evs)). eexists. split; [reflexivity|]. split_and!; [done|..].
  - intros a. kcbn. eapply buried_lookup; [apply Hk|done..].
  - intros u U HU Huc. kcbn. assert (HU' : threads (parked x) !! u = Some U).
    { unfold parked, set_threads. cbn [set_ipl threads]. by rewrite lookup_alter_ne by congruence. }
    destruct (decide (u = t)) as [->|Hut]; [left; split; [done|congruence]|right].
    unfold dispatch, deq, set_threads. cbn [set_ipl set_cur set_queues threads]. by rewrite !lookup_alter_ne by done.
Qed.

(** The wake-up in an exit whose parent sleeps. *)
Lemma exited_swf status s init o :
  kcore s init o -> cur_ok (k_sched s) -> swf (set_threads (alter (exited status) (curthr (k_sched s))) (k_sched s)).
Proof.
  intros Hk (C & HC & Hw & _). destruct (kc_sched _ _ _ Hk) as [Hq Hs]. split; [by apply qwf_thr|].
  intros u U. unfold set_threads. cbn [threads]. rewrite lookup_alter_Some. intros [(<- & V & HV & ->)|[_ HU]]; [|eauto].
  assert (V = C) as -> by congruence. unfold state_ok. simpl. by rewrite Hw.
Qed.

Lemma parent_there s init o me P b :
  kcore s init o -> procs s !! me = Some P -> me <> 0 -> p_pproc P = Some b -> 0 <= b /\ is_Some (queues (k_sched s) !! p_wait b).
Proof.
  intros Hk HP Hm0 Hb. destruct (pt_parent _ _ _ (kc_tree _ _ _ Hk) _ _ HP Hm0) as (b' & B & Hb' & HB & _).
  assert (b' = b) as -> by congruence. destruct (kc_proc _ _ _ Hk _ _ HB) as (? & ? & _). done.
Qed.

Lemma exit_wakeup status s init o b u U :
  kcore s init o -> cur_ok (k_sched s) -> threads (k_sched s) !! u = Some U -> kt_wchan U = Some (p_wait b) ->
  0 <= b /\ is_Some (queues (k_sched s) !! p_wait b) ->
  let x0 := set_threads (alter (exited status) (curthr (k_sched s))) (k_sched s) in
  u <> curthr (k_sched s) /\ sched_wakeup_on (p_wait b) x0 = Ret (Some u, wake (p_wait b) u x0) /\
  nonempty_q (wake (p_wait b) u x0) kt_runq /\ threads (wake (p_wait b) u x0) !! u = Some (run_thr U).
Proof.
  intros Hk Hc HU Hw [Hb HQ] x0. pose proof (exited_swf status s init o Hk Hc) as Hs0. fold x0 in Hs0.
  assert (Huc : u <> curthr (k_sched s)) by (intros ->; destruct Hc as (C & HC & HCw & _); congruence).
  assert (HU0 : forall v, v <> curthr (k_sched s) -> threads x0 !! v = threads (k_sched s) !! v).
  { intros v Hv. unfold x0, set_threads. cbn [threads]. by rewrite lookup_alter_ne. }
  assert (Hne : p_wait b <> kt_runq) by (unfold p_wait, kt_runq; lia).
  destruct (wakeup_cases (p_wait b) x0 Hs0 (conj Hne HQ)) as [(v & V & HV & HwV & _ & E)|[_ Hno]].
  2: { destruct (Hno u U); [by rewrite HU0|done]. }
  assert (v = u) as ->.
  { assert (Hvc : v <> curthr (k_sched s)).
    { intros ->. destruct Hc as (C & HC & HCw & _). unfold x0, set_threads in HV. cbn [threads] in HV. rewrite lookup_alter_eq, HC in HV.
      injection HV as <-. simpl in HwV. congruence. }
    rewrite HU0 in HV by done. eapply only_thread; [exact Hk|exact HV|exact HU|]. apply p_wait_inj.
    rewrite <- (kc_wchan _ _ _ Hk _ _ _ HV HwV), <- (kc_wchan _ _ _ Hk _ _ _ HU Hw); [done|unfold p_wait; lia..]. }
  split_and!; [done|done| |apply wake_lookup; by rewrite HU0].
  destruct (qwf_runq _ (proj1 Hs0)) as [Q0 HQ0]. eexists. split; [by apply wake_runq|done].
Qed.

(** It leaves sleepers on other queues asleep, and the run queue non-empty. *)
Lemma exit_leaves_asleep status s init o b d u U w x :
  kcore s init o -> cur_ok (k_sched s) -> threads (k_sched s) !! u = Some U -> kt_wchan U = Some (p_wait d) -> b <> d ->
  0 <= b /\ is_Some (queues (k_sched s) !! p_wait b) -> u <> curthr (k_sched s) -> nonempty_q (k_sched s) kt_runq ->
  sched_wakeup_on (p_wait b) (set_threads (alter (exited status) (curthr (k_sched s))) (k_sched s)) = Ret (w, x) ->
  nonempty_q x kt_runq /\ threads x !! u = Some U.
Proof.
  intros Hk Hc HU Hw Hbd [Hb HQ] Huc Hne Ew. pose proof (exited_swf status s init o Hk Hc) as Hs0. set (x0 := set_threads _ _) in *.
  assert (Hqne : p_wait b <> kt_runq) by (unfold p_wait, kt_runq; lia).
  assert (HU0 : threads x0 !! u = Some U) by (unfold x0, set_threads; cbn [threads]; by rewrite lookup_alter_ne).
  destruct (wakeup_cases (p_wait b) x0 Hs0 (conj Hqne HQ)) as [(v & V & HV & HwV & _ & E)|[E _]]; rewrite E in Ew; injection Ew as <- <-; [|done].
  split.
  - destruct (qwf_runq _ (proj1 Hs0)) as [Q0 HQ0]. eexists. split; [by apply wake_runq|done].
  - rewrite wake_lookup_ne; [done|]. intros ->. rewrite HU0 in HV. injection HV as <-. rewrite Hw in HwV. injection HwV as HwV.
    by apply Hbd, p_wait_inj.
Qed.

(** A matching dead child is taken without sleeping. *)
Lemma waitpid_ready evs pid s Q p P :
  kinv s -> k_wait s !! curthr (k_sched s) = None -> procs s !! curproc (k_sched s) = Some Q -> p ∈ p_children Q ->
  procs s !! p = Some P -> p_state P = PROC_DEAD -> pid = -1 \/ (0 < pid /\ p_pid P = pid) ->
  exists p' P' s', do_waitpid evs pid true s = Ret (WReturn (p_pid P') (Some (p_status P')), s') /\
    takes s p' P' (WReturn (p_pid P') (Some (p_status P'))) s' /\ (0 < pid -> p' = p).
Proof.
  intros (init & o & Hk & Hc & Hl) Hnw HQ Hin HP Hd Hm.
  assert (Htake : forall g c p' P', p' ∈ p_children Q -> procs s !! p' = Some P' -> p_state P' = PROC_DEAD ->
    exists s', reap g c true p' s = Ret (WReturn (p_pid P') (Some (p_status P')), s') /\ takes s p' P' (WReturn (p_pid P') (Some (p_status P'))) s').
  { intros g c p' P' Hin' HP' Hd'. destruct (reap_spec g c s init o Q p' P' Hk Hc Hl Hnw HQ Hin' HP' Hd') as (s' & E & _ & Hpr & Hth & _).
    exists s'. split; [done|]. unfold takes. eauto 10. }
  unfold do_waitpid, get_curproc. rewrite bind_gets, (bind_eq _ _ _ _ _ (proc_get_eq _ _ _ HQ)), bind_gets.
  destruct (p_children Q) as [|c0 cs] eqn:Ech; [set_solver|]. destruct Hm as [->|[Hpos <-]].
  - change (-1 =? -1) with true. cbn iota. destruct (List.find (dead_in (procs s)) (c0 :: cs)) as [p'|] eqn:Ef.
    + apply find_dead in Ef as (Hin' & P' & HP' & Hd'). destruct (Htake false false p' P' Hin' HP' Hd') as (s' & E & Htk).
      exists p', P', s'. split_and!; [done|done|lia].
    + pose proof (find_dead_none _ _ _ _ Ef Hin HP). congruence.
  - rewrite (proj2 (Z.eqb_neq _ (-1))) by lia. rewrite (proj2 (Z.ltb_lt 0 _)) by done.
    destruct (List.find (has_pid (procs s) (p_pid P)) (c0 :: cs)) as [p'|] eqn:Ef.
    + apply find_pid in Ef as (Hin' & P' & HP' & Hp'). assert (p' = p) as -> by (eapply (pt_inj _ _ _ (kc_tree _ _ _ Hk)); done).
      destruct (Htake false true p P Hin HP Hd) as (s' & E & Htk). exists p, P, s'. split_and!; [|done|done].
      unfold wait_child. rewrite (bind_eq _ _ _ _ _ (proc_get_eq _ _ _ HP)). by rewrite bool_decide_eq_true_2.
    + pose proof (find_pid_none _ _ _ _ _ Ef Hin HP). done.
Qed.

(** identifiers: [_proc_getid] always comes back.  It returns the first
    identifier in the cyclic order from [next_pid] that no process has and moves
    [next_pid] behind it, or -1, with nothing changed, exactly when all 65536
    are taken. *)
Theorem proc_getid_correct s :
  0 <= next_pid s < PROC_MAX_COUNT ->
  (exists d, 0 <= d < PROC_MAX_COUNT /\ let pid := (next_pid s + d) mod PROC_MAX_COUNT in
     _proc_getid s = Ret (pid, set_next ((pid + 1) mod PROC_MAX_COUNT) s) /\ ~ pid_used s pid /\
     (forall j, 0 <= j < d -> pid_used s ((next_pid s + j) mod PROC_MAX_COUNT))) \/
  (_proc_getid s = Ret (-1, s) /\ forall pid, 0 <= pid < PROC_MAX_COUNT -> pid_used s pid).
Proof.
  intros Hn. destruct (getid_spec s Hn) as [(d & Hd & Hnot & Hbelow & E)|[Hall E]]; [left|by right].
  exists d. split; [done|]. split_and!; [exact E|exact Hnot|exact Hbelow].
Qed.

(** C6: after boot, whatever sequence of permitted calls the threads make (starting processes,
    fork, exit, wait and the continuation of a wait, killing one or all other
    processes, sleeping, waking, yielding), with any interrupts, the invariant
    of the process table holds: identifiers are unique, parents and children
    agree and form a tree rooted in the idle process, every process has exactly
    one thread, which exits exactly when the process dies, nobody but its own
    thread waits on a process's queue, every live thread runs or is on a queue,
    and what the processes own is what the rest of the kernel thinks they own.
    In each such state no permitted call fails an assertion or follows a bad pointer.
    A call is permitted ([call_ok]) when a new process can be had (a descriptor, a
    thread, an identifier, memory), when neither the idle process nor init
    exits, when the idle process does not fork, when a wait passes a place for
    the status, when a thread inside [waitpid] does nothing but continue it, and when
    sleeping and waking use a queue that exists and is no process's.  Of the rest
    of the kernel it assumes [KernelLaws], which exclude an exit with all 32
    descriptors open; [book] satisfies them. *)
Theorem process_table_invariant s0 :
  fresh s0 ->
  (exists s1, (bootstrap ;;; idleproc_start) s0 = Ret (tt, s1)) /\
  forall s1 s, (bootstrap ;;; idleproc_start) s0 = Ret (tt, s1) -> kreach s1 s ->
    kinv s /\ forall c f, call_ok s c -> run_call c s = Stop f -> f = Diverge.
Proof.
  intros Hf. destruct (boot_spec s0 Hf) as (s1 & E & Hinv & _). split; [eauto|]. intros s1' s E' Hr.
  rewrite E in E'. injection E' as <-. pose proof (kreach_inv _ _ Hinv Hr) as Hs. split; [done|].
  intros c f Hok Ef. pose proof (call_spec c s Hs Hok) as H. unfold wpd in H. by rewrite Ef in H.
Qed.

(** C21: an exit status is neither lost nor delivered twice nor to anybody else: in
    every reachable state a dead process keeps its identifier and status across
    every call, except a wait by its parent that returns exactly this
    identifier and status and removes the process. *)
Theorem exit_status_delivered s0 s c r s' p P :
  kinv s0 -> kreach s0 s -> call_ok s c -> run_call c s = Ret (r, s') ->
  procs s !! p = Some P -> p_state P = PROC_DEAD ->
  (exists P', procs s' !! p = Some P' /\ p_state P' = PROC_DEAD /\ p_pid P' = p_pid P /\ p_status P' = p_status P) \/
  (r = Some (p_pid P, Some (p_status P)) /\ procs s' !! p = None /\ p_pproc P = Some (curproc (k_sched s))).
Proof.
  intros H0 Hr Hok E HP Hd. pose proof (call_spec c s (kreach_inv _ _ H0 Hr) Hok) as H. unfold wpd in H. rewrite E in H.
  by apply H.
Qed.

(** C26: [waitpid]: -ECHILD with nothing changed exactly when no child matches; a
    dead child that matches is removed with its thread, and its identifier and
    status are returned, without sleeping; otherwise the caller sleeps with the
    table unchanged, and every child that matches is alive. *)
Theorem do_waitpid_correct evs pid s :
  kinv s -> k_wait s !! curthr (k_sched s) = None -> Forall (intr_ok (k_sched s)) evs ->
  wpd (do_waitpid evs pid true) (fun r s' => kinv s' /\ wait_post s pid r s') s /\
  (forall Q p P, procs s !! curproc (k_sched s) = Some Q -> p ∈ p_children Q -> procs s !! p = Some P -> p_state P = PROC_DEAD ->
     pid = -1 \/ (0 < pid /\ p_pid P = pid) ->
     exists p' P' s', do_waitpid evs pid true s = Ret (WReturn (p_pid P') (Some (p_status P')), s') /\
       takes s p' P' (WReturn (p_pid P') (Some (p_status P'))) s' /\ (0 < pid -> p' = p)).
Proof.
  intros Hinv Hnw Hev. split; [by apply do_waitpid_spec|]. intros Q p P HQ Hin HP Hd Hm. by eapply waitpid_ready.
Qed.

(** C31: exit with the parent asleep in [waitpid]: the exit does not wait for
    interrupts; the process is dead with its status, its children are init's;
    the parent's thread is the next to run or on the run queue. *)
Theorem do_exit_wakes_parent evs status s init P b u U :
  kinv s -> proc_initproc s = Some init -> curproc (k_sched s) <> 0 -> curproc (k_sched s) <> init ->
  k_wait s !! curthr (k_sched s) = None -> procs s !! curproc (k_sched s) = Some P -> p_pproc P = Some b ->
  threads (k_sched s) !! u = Some U -> kt_wchan U = Some (p_wait b) ->
  exists s', do_exit evs status s = Ret (true, s') /\ kinv s' /\
    (forall a, procs s' !! a = exit_node (curproc (k_sched s)) init (s32 status) P a <$> procs s !! a) /\
    (curthr (k_sched s') = u \/ exists U', threads (k_sched s') !! u = Some U' /\ kt_wchan U' = Some kt_runq).
Proof.
  intros Hinv Hi Hm0 Hmi Hnw HP Hb HU Hw. pose proof Hinv as (init' & o & Hk & Hc & Hl). rewrite (kc_init _ _ _ Hk) in Hi. injection Hi as ->.
  destruct (exit_now evs status s init o Hk Hc Hl Hm0 Hmi Hnw) as (P' & b' & w & x & HP' & Hb' & Ew & Hx).
  assert (P' = P) as -> by congruence. assert (b' = b) as -> by congruence.
  destruct (exit_wakeup status s init o b u U Hk Hc) as (_ & Ex & Hne & HxU); [done|done|by eapply parent_there|].
  rewrite Ex in Ew. injection Ew as <- <-. destruct (Hx Hne) as (s' & E & Hinv' & Hpr & Hthr). exists s'. split_and!; try done.
  destruct (Hthr u _ HxU) as [[<- _]|HU']; [|by left|right; eauto].
  intros ->. destruct Hc as (C & HC & HCw & _). congruence.
Qed.

(** a zombie inherited by init wakes nobody: when a process with a dead child
    exits and its parent is not init, init, asleep in [waitpid(-1)], stays
    asleep although it now has a dead child. *)
Theorem reparented_zombie_unnoticed evs status s init P b c Z u U :
  kinv s -> proc_initproc s = Some init -> curproc (k_sched s) <> 0 -> curproc (k_sched s) <> init ->
  k_wait s !! curthr (k_sched s) = None -> procs s !! curproc (k_sched s) = Some P -> p_pproc P = Some b -> b <> init ->
  c ∈ p_children P -> procs s !! c = Some Z -> p_state Z = PROC_DEAD ->
  threads (k_sched s) !! u = Some U -> kt_wchan U = Some (p_wait init) -> nonempty_q (k_sched s) kt_runq ->
  exists s' I' Z' U', do_exit evs status s = Ret (true, s') /\ kinv s' /\
    procs s' !! init = Some I' /\ c ∈ p_children I' /\ procs s' !! c = Some Z' /\ p_state Z' = PROC_DEAD /\
    threads (k_sched s') !! u = Some U' /\ kt_wchan U' = Some (p_wait init).
Proof.
  intros Hinv Hi Hm0 Hmi Hnw HP Hb Hbi Hin HZ Hd HU Hw Hne. pose proof Hinv as (init' & o & Hk & Hc & Hl).
  rewrite (kc_init _ _ _ Hk) in Hi. injection Hi as ->. pose proof (kc_tree _ _ _ Hk) as Ht.
  destruct (exit_now evs status s init o Hk Hc Hl Hm0 Hmi Hnw) as (P' & b' & w & x & HP' & Hb' & Ew & Hx).
  assert (P' = P) as -> by congruence. assert (b' = b) as -> by congruence.
  assert (Huc : u <> curthr (k_sched s)) by (intros ->; destruct Hc as (C & HC & HCw & _); congruence).
  destruct (exit_leaves_asleep status s init o b init u U w x Hk Hc) as [Hnx HxU]; [done|done|done|by eapply parent_there|done|done|done|].
  destruct (Hx Hnx) as (s' & E & Hinv' & Hpr & Hthr).
  destruct (pt_init _ _ _ Ht) as (I & HI & _).
  destruct (Hthr u _ HxU Huc) as [[_ Hbad]|HU'].
  { rewrite Hw in Hbad. injection Hbad as Hbad. destruct (kc_proc _ _ _ Hk _ _ HI) as (? & _). unfold p_wait, kt_runq in Hbad. lia. }
  exists s', (exit_node (curproc (k_sched s)) init (s32 status) P init I), (exit_node (curproc (k_sched s)) init (s32 status) P c Z), U.
  split_and!; try done; try (rewrite Hpr; by rewrite ?HI, ?HZ).
  - unfold exit_node. rewrite decide_False, decide_True by done. simpl. set_solver.
  - destruct (exit_node_other (curproc (k_sched s)) init (s32 status) P c Z) as [-> _]; [|done].
    intros ->. by apply (not_own_child _ _ _ Ht _ _ HP).
Qed.

(** C32: fork: the call returns the identifier of the child to the caller, which goes
    on running; the child has an identifier no process had, is the caller's last
    child, has one thread, and that thread is on the run queue. *)
Theorem fork_new_process s :
  kinv s -> can_create s -> curproc (k_sched s) <> 0 ->
  exists p t pid s', do_fork s = Ret (pid, s') /\ newborn s s' p t pid /\ kinv s'.
Proof.
  intros Hinv Hcan Hc0. destruct (do_fork_spec s Hinv Hcan Hc0) as (p & t & pid & s' & E & Hinv' & Hn & _). eauto 10.
Qed.
End life.

(** ** The theorems on the example machine *)

(** init runs and sleeps in wait; process 2 runs. *)
Definition two_runs : ktab book := after [KWait [] (-1); KSpawn [65]; KWait [] (-1)].

Lemma two_runs_reach : kreach booted two_runs.
Proof. apply after_reach. vm_compute. by eexists. Qed.

Lemma two_runs_inv : kinv two_runs.
Proof. exact (kreach_inv _ _ booted_inv two_runs_reach). Qed.

Lemma proc_getid_correct_witness : exists pid s', _proc_getid two_runs = Ret (pid, s') /\ ~ pid_used two_runs pid.
Proof.
  destruct (proc_getid_correct two_runs) as [(d & _ & E & Hn & _)|[_ Hall]]; [vm_compute; split; [discriminate|reflexivity]|eauto|].
  exfalso. assert (Hu : pid_used two_runs 5) by (apply Hall; unfold PROC_MAX_COUNT; lia).
  apply existsb_pid in Hu. vm_compute in Hu. discriminate Hu.
Defined.

Lemma process_table_invariant_witness :
  kreach booted two_runs /\ kinv two_runs /\ forall f, run_call (KExit [] 7) two_runs = Stop f -> f = Diverge.
Proof.
  destruct (process_table_invariant machine machine_fresh) as [_ H].
  destruct (H booted two_runs booted_eq two_runs_reach) as [Hinv Hsafe].
  split; [exact two_runs_reach|]. split; [exact Hinv|]. intros f. apply Hsafe. apply call_okb_ok. vm_compute. reflexivity.
Defined.

(** Process 2 has exited with status 7, and init goes on with its wait. *)
Definition zombie_two : ktab book := after [KWait [] (-1); KSpawn [65]; KWait [] (-1); KExit [] 7].

Lemma zombie_two_reach : kreach booted zombie_two.
Proof. apply after_reach. vm_compute. by eexists. Qed.

Definition dead_two : proc := MkProc 2 [65] [12] [] (Some 1) 7 PROC_DEAD (Some 104).

Lemma exit_status_delivered_witness :
  exists s', run_call (KResume []) zombie_two = Ret (Some (2, Some 7), s') /\ procs s' !! 2 = None.
Proof.
  destruct (run_call (KResume []) zombie_two) as [[r s']|f] eqn:E; [|vm_compute in E; discriminate E].
  destruct (exit_status_delivered booted zombie_two (KResume []) r s' 2 dead_two booted_inv zombie_two_reach) as [(P' & HP' & _)|(-> & Hn & _)];
    [apply call_okb_ok; vm_compute; reflexivity|exact E|vm_compute; reflexivity|reflexivity| |].
  - exfalso. vm_compute in E. injection E as <- <-. vm_compute in HP'. discriminate HP'.
  - exists s'. split; [reflexivity|exact Hn].
Defined.

(** init runs and has a dead child. *)
Definition init_runs : ktab book := after [KWait [] (-1); KSpawn [65]; KSched (OYield []); KExit [] 7].

Lemma init_runs_inv : kinv init_runs.
Proof. apply after_inv. vm_compute. by eexists. Qed.

Lemma do_waitpid_correct_witness :
  exists s', do_waitpid [] 2 true init_runs = Ret (WReturn 2 (Some 7), s') /\ procs s' !! 2 = None.
Proof.
  destruct (do_waitpid_correct [] 2 init_runs init_runs_inv) as [_ H]; [vm_compute; reflexivity|constructor|].
  destruct (H (MkProc 1 [105; 110; 105; 116; 95; 112; 114; 111; 99; 101; 115; 115] [11] [2] (Some 0) 0 PROC_RUNNING (Some 102)) 2 dead_two)
    as (p' & P' & s' & E & (_ & HP' & _ & _ & Hpr & _) & Hp'); [vm_compute; reflexivity|simpl; constructor|vm_compute; reflexivity|reflexivity|right; split; reflexivity|].
  rewrite (Hp' eq_refl) in *. assert (HP2 : procs init_runs !! 2 = Some dead_two) by (vm_compute; reflexivity).
  rewrite HP2 in HP'. injection HP' as <-. exists s'. split; [exact E|]. rewrite Hpr. apply lookup_delete_eq.
Defined.

Lemma do_exit_wakes_parent_witness :
  exists s', do_exit [] 7 two_runs = Ret (true, s') /\ kinv s' /\
    (curthr (k_sched s') = 11 \/ exists U', threads (k_sched s') !! 11 = Some U' /\ kt_wchan U' = Some kt_runq).
Proof.
  destruct (do_exit_wakes_parent [] 7 two_runs 1 (MkProc 2 [65] [12] [] (Some 1) 0 PROC_RUNNING (Some 104)) 1 11
    (MkThread KT_SLEEP 0 (Some (-2)) (Some (-2)) 0 0 1 103 0) two_runs_inv) as (s' & E & Hinv & _ & Hw);
    [vm_compute; reflexivity|vm_compute; discriminate|vm_compute; discriminate|vm_compute; reflexivity|vm_compute; reflexivity
    |reflexivity|vm_compute; reflexivity|reflexivity|].
  exists s'. exact (conj E (conj Hinv Hw)).
Defined.

(** Process 4 is dead, its parent 3 runs, 3's parent 2 is ready, init sleeps. *)
Definition three_runs : ktab book :=
  after [KWait [] (-1); KSpawn [65]; KWait [] (-1); KFork; KSched (OYield []); KFork; KSched (OYield []); KSched (OYield []); KExit [] 5].

Lemma three_runs_inv : kinv three_runs.
Proof. apply after_inv. vm_compute. by eexists. Qed.

Lemma reparented_zombie_unnoticed_witness :
  exists s' I' Z' U', do_exit [] 6 three_runs = Ret (true, s') /\
    procs s' !! 1 = Some I' /\ 4 ∈ p_children I' /\ procs s' !! 4 = Some Z' /\ p_state Z' = PROC_DEAD /\
    threads (k_sched s') !! 11 = Some U' /\ kt_wchan U' = Some (p_wait 1).
Proof.
  destruct (reparented_zombie_unnoticed [] 6 three_runs 1
    (MkProc 3 [99; 104; 105; 108; 100; 95; 112; 114; 111; 99] [13] [4] (Some 2) 0 PROC_RUNNING (Some 106)) 2 4
    (MkProc 4 [99; 104; 105; 108; 100; 95; 112; 114; 111; 99] [14] [] (Some 3) 5 PROC_DEAD (Some 108)) 11
    (MkThread KT_SLEEP 0 (Some (-2)) (Some (-2)) 0 0 1 103 0) three_runs_inv) as (s' & I' & Z' & U' & E & _ & H);
    [vm_compute; reflexivity|vm_compute; discriminate|vm_compute; discriminate|vm_compute; reflexivity|vm_compute; reflexivity
    |reflexivity|discriminate|simpl; constructor|vm_compute; reflexivity|reflexivity|vm_compute; reflexivity|reflexivity
    |exists (MkQueue [12] 1); split; [vm_compute; reflexivity|discriminate]|].
  exists s', I', Z', U'. exact (conj E H).
Defined.

Lemma fork_new_process_witness :
  exists p t pid s', do_fork two_runs = Ret (pid, s') /\ newborn two_runs s' p t pid /\ kinv s'.
Proof.
  destruct (call_okb_ok two_runs KFork) as (_ & Hcan & Hc0); [vm_compute; reflexivity|].
  exact (fork_new_process two_runs two_runs_inv Hcan Hc0).
Defined.
