(* ===== verification/Bucket.v ===== *)
(** * The token bucket emulation (multiple_Threading-token_bucket/warmup2.c)

    Three threads share a mutex: [Arrive] puts packets on the queue Q1, [Token]
    fills the bucket, either of them moves the oldest packet of Q1 to Q2 when
    the bucket holds the tokens it needs, and [Server] serves Q2 in order.  A
    state is the shared variables and where each thread is; a step is what a
    thread does between two points at which others can run: a critical
    section, or an unlocked piece of code.  Sleeping only delays a thread, so
    every interleaving of steps is a possible execution; a thread that waits
    for the condition variable has no step until what it waits for holds.

    Unlocked code writes [arrive_num_s] and [packet_drop_s] when a packet is
    dropped.  A critical section of another thread reads [arrive_num_s] once
    and does not write it, so the write happens before or after the section.

    The times, the statistics computed from them, and Control-C are not part of
    the state; the packets' token requirements are given, one per packet. *)

From S2P Require Import Prelude.

(** ** Configuration and state *)

(** [input_parameter.B] and the [P] of [node[0]], [node[1]], ...; the number of
    packets is [input_parameter.n]. *)
Record config : Type := Cfg { cB : Z; cP : list Z }.

Definition cn (c : config) : nat := length (cP c).
Definition need (c : config) (i : nat) : Z := default 0 (cP c !! i).

(** Where each thread is. *)
Inductive arrive_pc : Type := AStart | AAlloc | ALoop (line : nat) | AEnter (line : nat) | ADone.
Inductive token_pc : Type := TWait | TZero | TAlloc | TLoop | TDone | TDead.
Inductive server_pc : Type := SAlloc | SLoop | SServe | SCancel | SHandler | SExit.

#[export] Instance server_pc_eq_dec : EqDecision server_pc.
Proof. solve_decision. Defined.

(** The queues are the lists of packet numbers, the newest first, the oldest
    at [anchor.prev]; [None] is a list that has not been allocated. *)
Record bstate : Type := MkB {
  pcA : arrive_pc;
  pcT : token_pc;
  pcS : server_pc;
  g_a : bool;
  g_b : bool;
  q1 : option (list nat);
  q2 : option (list nat);
  server : option (list nat);
  server_bottle : option nat;
  token_g : Z;
  arrive_num_s : nat;
  packet_drop_s : nat;
  token_drop_s : Z;
  token_produce_s : Z;
  cancelled : bool;     (* handler has called pthread_cancel *)
  m_lost : bool         (* a cancelled thread ended with the mutex locked *)
}.

Definition binit : bstate :=
  MkB AStart TWait SAlloc false false None None None None 0 0 0 0 0 false false.

Definition set_pcA (v : arrive_pc) (s : bstate) : bstate :=
  MkB v (pcT s) (pcS s) (g_a s) (g_b s) (q1 s) (q2 s) (server s) (server_bottle s) (token_g s)
    (arrive_num_s s) (packet_drop_s s) (token_drop_s s) (token_produce_s s) (cancelled s) (m_lost s).
Definition set_pcT (v : token_pc) (s : bstate) : bstate :=
  MkB (pcA s) v (pcS s) (g_a s) (g_b s) (q1 s) (q2 s) (server s) (server_bottle s) (token_g s)
    (arrive_num_s s) (packet_drop_s s) (token_drop_s s) (token_produce_s s) (cancelled s) (m_lost s).
Definition set_pcS (v : server_pc) (s : bstate) : bstate :=
  MkB (pcA s) (pcT s) v (g_a s) (g_b s) (q1 s) (q2 s) (server s) (server_bottle s) (token_g s)
    (arrive_num_s s) (packet_drop_s s) (token_drop_s s) (token_produce_s s) (cancelled s) (m_lost s).

(** ** The oldest packet of Q1 moves to Q2 *)

(** The same lines in [Arrive] and in [Token]. *)
Definition q1_to_q2 (c : config) (s : bstate) : outcome bstate :=
  match q1 s with
  | None => Stop Undef
  | Some l =>
      match last l with
      | None => Ret s
      | Some i =>
          if need c i <=? token_g s then
            match q2 s with
            | None => Stop Undef
            | Some l2 =>
                Ret (MkB (pcA s) (pcT s) (pcS s) (g_a s) true (Some (removelast l)) (Some (i :: l2)) (server s)
                       (server_bottle s) (token_g s - need c i) (arrive_num_s s) (packet_drop_s s)
                       (token_drop_s s) (token_produce_s s) (cancelled s) (m_lost s))
            end
          else Ret s
      end
  end.

(** ** Steps *)

(** A critical section begins only when the mutex can be had. *)
Definition locked {A} (s : bstate) (k : outcome (option A)) : outcome (option A) :=
  if m_lost s then Ret None else k.

Definition then_move (c : config) (s : bstate) (k : bstate -> bstate) : outcome (option bstate) :=
  match q1_to_q2 c s with
  | Ret s' => Ret (Some (k s'))
  | Stop f => Stop f
  end.

(** [Arrive]: the result is [None] when the thread cannot run. *)
Definition arrive_step (c : config) (s : bstate) : outcome (option bstate) :=
  match pcA s with
  | AStart => locked s (Ret (Some
      (MkB AAlloc (pcT s) (pcS s) true (g_b s) (q1 s) (q2 s) (server s) (server_bottle s) (token_g s)
         (arrive_num_s s) (packet_drop_s s) (token_drop_s s) (token_produce_s s) (cancelled s) (m_lost s))))
  | AAlloc => Ret (Some
      (MkB (ALoop 0) (pcT s) (pcS s) (g_a s) (g_b s) (Some []) (q2 s) (server s) (server_bottle s) (token_g s)
         (arrive_num_s s) (packet_drop_s s) (token_drop_s s) (token_produce_s s) (cancelled s) (m_lost s)))
  | ALoop line =>
      if (line =? cn c)%nat then Ret (Some (set_pcA ADone s))
      else if cB c <? need c line
      then Ret (Some
        (MkB (ALoop (S line)) (pcT s) (pcS s) (g_a s) (g_b s) (q1 s) (q2 s) (server s) (server_bottle s) (token_g s)
           (S line) (S (packet_drop_s s)) (token_drop_s s) (token_produce_s s) (cancelled s) (m_lost s)))
      else Ret (Some (set_pcA (AEnter line) s))
  | AEnter line => locked s
      match q1 s with
      | None => Stop Undef
      | Some l => then_move c
          (MkB (pcA s) (pcT s) (pcS s) (g_a s) (g_b s) (Some (line :: l)) (q2 s) (server s) (server_bottle s) (token_g s)
             (S line) (packet_drop_s s) (token_drop_s s) (token_produce_s s) (cancelled s) (m_lost s))
          (set_pcA (ALoop (S line)))
      end
  | ADone => Ret None
  end.

(** A token arrives. *)
Definition token_arrives (c : config) (s : bstate) : bstate :=
  if token_g s <? cB c
  then MkB (pcA s) (pcT s) (pcS s) (g_a s) (g_b s) (q1 s) (q2 s) (server s) (server_bottle s) (token_g s + 1)
         (arrive_num_s s) (packet_drop_s s) (token_drop_s s) (token_produce_s s + 1) (cancelled s) (m_lost s)
  else MkB (pcA s) (pcT s) (pcS s) (g_a s) (g_b s) (q1 s) (q2 s) (server s) (server_bottle s) (token_g s)
         (arrive_num_s s) (packet_drop_s s) (token_drop_s s + 1) (token_produce_s s + 1) (cancelled s) (m_lost s).

Definition is_empty (q : option (list nat)) : bool := match q with Some [] => true | _ => false end.

(** [Token]. *)
Definition token_step (c : config) (s : bstate) : outcome (option bstate) :=
  match pcT s with
  | TWait => locked s (if g_a s then Ret (Some (set_pcT TZero s)) else Ret None)
  | TZero => Ret (Some
      (MkB (pcA s) TAlloc (pcS s) (g_a s) (g_b s) (q1 s) (q2 s) (server s) (server_bottle s) 0
         (arrive_num_s s) (packet_drop_s s) (token_drop_s s) (token_produce_s s) (cancelled s) (m_lost s)))
  | TAlloc => Ret (Some
      (MkB (pcA s) TLoop (pcS s) (g_a s) (g_b s) (q1 s) (Some []) (server s) (server_bottle s) (token_g s)
         (arrive_num_s s) (packet_drop_s s) (token_drop_s s) (token_produce_s s) (cancelled s) (m_lost s)))
  | TLoop => locked s
      (then_move c (token_arrives c s) (fun s' =>
         if is_empty (q1 s') && (arrive_num_s s' =? cn c)%nat then set_pcT TDone s' else s'))
  | TDone => Ret None
  | TDead => Ret None
  end.

(** A cancelled [Token] can end in [usleep]. *)
Definition token_cancelled (s : bstate) : outcome (option bstate) :=
  match pcT s with
  | TLoop => if cancelled s then Ret (Some (set_pcT TDead s)) else Ret None
  | _ => Ret None
  end.

(** It can also end at the [printf] that reports the token, a cancellation point
    too: with the mutex locked. *)
Definition token_cancelled_locked (c : config) (s : bstate) : outcome (option bstate) :=
  match pcT s with
  | TLoop => locked s
      (if cancelled s
       then Ret (Some (MkB (pcA s) TDead (pcS s) (g_a s) (g_b s) (q1 s) (q2 s) (server s) (server_bottle s)
              (token_g (token_arrives c s)) (arrive_num_s s) (packet_drop_s s) (token_drop_s (token_arrives c s))
              (token_produce_s s) (cancelled s) true))
       else Ret None)
  | _ => Ret None
  end.

(** The test for the end of the emulation, in the server's critical section. *)
Definition end_check (c : config) (s : bstate) : bstate :=
  if is_empty (q1 s) && is_empty (q2 s) && (arrive_num_s s =? cn c)%nat then set_pcS SCancel s else set_pcS SLoop s.

(** [Server] and the [handler] it calls at the end. *)
Definition server_step (c : config) (s : bstate) : outcome (option bstate) :=
  match pcS s with
  | SAlloc => Ret (Some
      (MkB (pcA s) (pcT s) SLoop (g_a s) (g_b s) (q1 s) (q2 s) (Some []) (server_bottle s) (token_g s)
         (arrive_num_s s) (packet_drop_s s) (token_drop_s s) (token_produce_s s) (cancelled s) (m_lost s)))
  | SLoop => locked s
      (if g_b s then
         match q2 s with
         | None => Stop Undef
         | Some l2 =>
             match last l2, server_bottle s with
             | Some i, None => Ret (Some
                 (MkB (pcA s) (pcT s) SServe (g_a s) (g_b s) (q1 s) (Some (removelast l2)) (server s) (Some i) (token_g s)
                    (arrive_num_s s) (packet_drop_s s) (token_drop_s s) (token_produce_s s) (cancelled s) (m_lost s)))
             | _, _ => Ret (Some (end_check c s))
             end
         end
       else Ret None)
  | SServe => locked s
      match server_bottle s, server s with
      | Some i, Some l => Ret (Some (end_check c
          (MkB (pcA s) (pcT s) (pcS s) (g_a s) (g_b s) (q1 s) (q2 s) (Some (i :: l)) None (token_g s)
             (arrive_num_s s) (packet_drop_s s) (token_drop_s s) (token_produce_s s) (cancelled s) (m_lost s))))
      | _, _ => Stop Undef
      end
  | SCancel => Ret (Some
      (MkB (pcA s) (pcT s) SHandler (g_a s) (g_b s) (q1 s) (q2 s) (server s) (server_bottle s) (token_g s)
         (arrive_num_s s) (packet_drop_s s) (token_drop_s s) (token_produce_s s) true (m_lost s)))
  | SHandler => locked s
      (match server_bottle s with None => Ret (Some (set_pcS SExit s)) | Some _ => Ret None end)
  | SExit => Ret None
  end.

Inductive thread : Type := ThArrive | ThToken | ThServer | ThCancelPoint | ThCancelLocked.

(** After [exit] nothing runs. *)
Definition bstep (c : config) (t : thread) (s : bstate) : outcome (option bstate) :=
  match pcS s with
  | SExit => Ret None
  | _ =>
      match t with
      | ThArrive => arrive_step c s
      | ThToken => token_step c s
      | ThServer => server_step c s
      | ThCancelPoint => token_cancelled s
      | ThCancelLocked => token_cancelled_locked c s
      end
  end.

(** A schedule; a thread that cannot run is skipped. *)
Fixpoint brun (c : config) (ts : list thread) (s : bstate) : outcome bstate :=
  match ts with
  | [] => Ret s
  | t :: ts' =>
      match bstep c t s with
      | Stop f => Stop f
      | Ret (Some s') => brun c ts' s'
      | Ret None => brun c ts' s
      end
  end.

Inductive breach (c : config) : bstate -> Prop :=
| breach_init : breach c binit
| breach_step t s s' : breach c s -> bstep c t s = Ret (Some s') -> breach c s'.

(** ** Small runs *)

Definition c3 : config := Cfg 3 [1; 9; 2].

Example run_three :
  (pcS <$> match brun c3 ([ThArrive; ThArrive; ThToken; ThToken; ThToken; ThServer] ++
     [ThArrive; ThToken; ThArrive; ThArrive; ThArrive; ThArrive; ThToken; ThServer; ThServer; ThToken; ThToken; ThServer; ThServer; ThServer; ThServer; ThServer; ThServer; ThServer; ThServer]) binit with Ret s => Some s | _ => None end) = Some SExit.
Proof. vm_compute. reflexivity. Qed.

(** [Token] can run before [Arrive] has allocated Q1: it then follows a null
    pointer. *)
Lemma token_before_q1 : brun c3 [ThArrive; ThToken; ThToken; ThToken; ThToken] binit = Stop Undef.
Proof. reflexivity. Qed.

(** ** The invariant *)

Definition accepted (c : config) (i : nat) : Prop := need c i <= cB c.

#[export] Instance accepted_dec c i : Decision (accepted c i) := decide (need c i <= cB c).

Definition qs (q : option (list nat)) : list nat := default [] q.

(** The packets that left Q1, the newest first. *)
Definition past_q1 (s : bstate) : list nat := qs (q2 s) ++ option_list (server_bottle s) ++ qs (server s).

(** The tokens they took. *)
Fixpoint spent (c : config) (l : list nat) : Z :=
  match l with [] => 0 | i :: l' => need c i + spent c l' end.

Lemma spent_app c l l' : spent c (l ++ l') = spent c l + spent c l'.
Proof. induction l; simpl; lia. Qed.

(** The arrivals that were not dropped, the newest first. *)
Definition admitted_upto (c : config) (n : nat) : list nat := reverse (filter (accepted c) (seq 0 n)).

Lemma admitted_S c n :
  admitted_upto c (S n) = (if decide (accepted c n) then [n] else []) ++ admitted_upto c n.
Proof.
  unfold admitted_upto. rewrite seq_S, filter_app, reverse_app. simpl. rewrite filter_cons, filter_nil.
  by destruct (decide (accepted c n)).
Qed.

Definition ndropped (c : config) (n : nat) : nat := length (filter (fun i => ~ accepted c i) (seq 0 n)).

Lemma ndropped_S c n : ndropped c (S n) = (ndropped c n + if decide (accepted c n) then 0 else 1)%nat.
Proof.
  unfold ndropped. rewrite seq_S, filter_app, length_app, filter_cons, filter_nil.
  destruct (decide (accepted c n)) as [Ha|Hn].
  - rewrite decide_False by (intros Hn; exact (Hn Ha)). simpl. lia.
  - rewrite decide_True by exact Hn. simpl. lia.
Qed.

Record binv (c : config) (s : bstate) : Prop := {
  bi_order : qs (q1 s) ++ past_q1 s = admitted_upto c (arrive_num_s s);
  bi_drop : packet_drop_s s = ndropped c (arrive_num_s s);
  bi_tok : 0 <= token_g s <= cB c;
  bi_count : token_produce_s s + (if m_lost s then 1 else 0) = token_drop_s s + token_g s + spent c (past_q1 s);
  bi_A : match pcA s with
         | AStart | AAlloc => q1 s = None /\ arrive_num_s s = 0%nat
         | ALoop l => is_Some (q1 s) /\ arrive_num_s s = l /\ (l <= cn c)%nat
         | AEnter l => is_Some (q1 s) /\ arrive_num_s s = l /\ (l < cn c)%nat /\ accepted c l
         | ADone => is_Some (q1 s) /\ arrive_num_s s = cn c
         end;
  bi_T : match pcT s with
         | TWait | TZero | TAlloc => q2 s = None /\ token_g s = 0
         | TLoop | TDead => is_Some (q2 s)
         | TDone => is_Some (q2 s) /\ q1 s = Some [] /\ arrive_num_s s = cn c
         end;
  bi_S : match pcS s with
         | SAlloc => server s = None /\ server_bottle s = None
         | SLoop => is_Some (server s) /\ server_bottle s = None
         | SServe => is_Some (server s) /\ is_Some (server_bottle s)
         | SCancel | SHandler | SExit =>
             is_Some (server s) /\ server_bottle s = None /\ q1 s = Some [] /\ q2 s = Some [] /\ arrive_num_s s = cn c
         end;
  bi_b : g_b s = true <-> past_q1 s <> [];
  bi_cancel : cancelled s = true -> pcS s = SHandler \/ pcS s = SExit;
  bi_lost : m_lost s = true -> cancelled s = true /\ pcT s = TDead;
  bi_exit : pcS s = SExit -> m_lost s = false;
  bi_run : pcS s = SAlloc \/ pcS s = SLoop \/ g_b s = true;
  bi_go : pcA s <> AStart -> g_a s = true;
  bi_dead : pcT s = TDead -> cancelled s = true
}.

Section safety.
Variable c : config.
Hypothesis HB : 0 <= cB c.
Hypothesis HP : Forall (fun p => 0 <= p) (cP c).

Lemma need_nonneg i : 0 <= need c i.
Proof. unfold need. destruct (cP c !! i) as [p|] eqn:E; simpl; [|lia]. by eapply (Forall_lookup_1 _ _ _ _ HP). Qed.

Lemma binit_ok : binv c binit.
Proof. split; simpl; try done; try lia. by left. Qed.

Lemma last_split (l : list nat) i : last l = Some i -> l = removelast l ++ [i].
Proof. intros (l' & ->)%last_Some. by rewrite removelast_last. Qed.

(** What the move changes. *)
Lemma move_cases s s' : q1_to_q2 c s = Ret s' -> binv c s ->
  s' = s \/ exists l i l2, q1 s = Some (l ++ [i]) /\ q2 s = Some l2 /\ need c i <= token_g s /\
    s' = MkB (pcA s) (pcT s) (pcS s) (g_a s) true (Some l) (Some (i :: l2)) (server s)
           (server_bottle s) (token_g s - need c i) (arrive_num_s s) (packet_drop_s s)
           (token_drop_s s) (token_produce_s s) (cancelled s) (m_lost s).
Proof.
  intros E _. unfold q1_to_q2 in E. destruct (q1 s) as [l|] eqn:E1; [|done].
  destruct (last l) as [i|] eqn:El; [|left; congruence]. destruct (Z.leb_spec (need c i) (token_g s)); [|left; congruence].
  destruct (q2 s) as [l2|]; [|done]. injection E as <-. right. exists (removelast l), i, l2.
  by rewrite <- (last_split _ _ El).
Qed.

(** The move keeps the part of the invariant that does not mention the
    threads' positions, and the positions' conditions when [Arrive] or [Token] runs it. *)
Lemma move_inv s s' : binv c s -> pcT s <> TDone -> (pcS s = SAlloc \/ pcS s = SLoop \/ pcS s = SServe \/ q1 s = Some []) ->
  q1_to_q2 c s = Ret s' -> binv c s'.
Proof.
  intros Hi HT HS E. destruct (move_cases s s' E Hi) as [->|(l & i & l2 & E1 & E2 & Hle & ->)]; [done|].
  destruct Hi as [Ho Hd Ht Hc HA HT' HS' Hb Hca Hlo Hex Hru Hgo Hde]. pose proof (need_nonneg i).
  unfold past_q1 in *. rewrite E1, E2 in *. simpl in *. split; simpl; try done.
  - rewrite <- Ho, <- app_assoc. done.
  - lia.
  - rewrite Hc. lia.
  - destruct (pcA s); try (destruct HA as [? _]; done); destruct HA as (_ & ?); by split.
  - destruct (pcT s); try done; by destruct HT' as [? ?].
  - destruct (pcS s); try done; destruct HS as [?|[?|[?|Hx]]]; try done; injection Hx as Hx; by destruct l.
  - by right; right.
Qed.

Lemma move_pcA v s : q1_to_q2 c (set_pcA v s) =
  match q1_to_q2 c s with Ret s' => Ret (set_pcA v s') | Stop f => Stop f end.
Proof. unfold q1_to_q2. simpl. by repeat case_match; simplify_eq. Qed.

Lemma then_move_Some s k s' : then_move c s k = Ret (Some s') -> exists s1, q1_to_q2 c s = Ret s1 /\ s' = k s1.
Proof. unfold then_move. destruct (q1_to_q2 c s) as [s1|]; [|done]. intros [= <-]. by exists s1. Qed.

Lemma locked_Some {A} s (k : outcome (option A)) x : locked s k = Ret (Some x) -> m_lost s = false /\ k = Ret (Some x).
Proof. unfold locked. by destruct (m_lost s). Qed.

(** An accepted packet is put on Q1. *)
Lemma enter_inv s line l : binv c s -> pcA s = AEnter line -> q1 s = Some l ->
  binv c (MkB (ALoop (S line)) (pcT s) (pcS s) (g_a s) (g_b s) (Some (line :: l)) (q2 s) (server s) (server_bottle s)
    (token_g s) (S line) (packet_drop_s s) (token_drop_s s) (token_produce_s s) (cancelled s) (m_lost s)) /\
  pcT s <> TDone /\ (pcS s = SAlloc \/ pcS s = SLoop \/ pcS s = SServe).
Proof.
  intros [Ho Hd Ht Hc HA HT HS Hb Hca Hlo Hex Hru Hgo Hde] EA E1. rewrite EA in HA. destruct HA as (_ & En & Hlt & Hacc).
  assert (pcT s <> TDone) as HT'. { intros E. rewrite E in HT. destruct HT as (_ & _ & ?). lia. }
  assert (pcS s = SAlloc \/ pcS s = SLoop \/ pcS s = SServe) as HS'.
  { destruct (pcS s); auto; destruct HS as (_ & _ & _ & _ & ?); lia. }
  split; [|done]. rewrite E1, En in *. unfold past_q1 in *. simpl in *. split; simpl; try done.
  - rewrite admitted_S, decide_True by done. simpl. by rewrite <- Ho.
  - rewrite ndropped_S, decide_True by done. lia.
  - by destruct (pcT s).
  - by destruct (pcS s); destruct HS' as [?|[?|?]].
  - intros _. apply Hgo. by rewrite EA.
Qed.

Lemma arrive_ok s s' : binv c s -> arrive_step c s = Ret (Some s') -> binv c s'.
Proof.
  intros Hi E. unfold arrive_step in E. destruct (pcA s) as [| |line|line|] eqn:EA; [| | | |done].
  - apply locked_Some in E as [_ [= <-]]. destruct Hi as [Ho Hd Ht Hc HA HT HS Hb Hca Hlo Hex Hru Hgo Hde]. rewrite EA in HA.
    by split.
  - injection E as <-. destruct Hi as [Ho Hd Ht Hc HA HT HS Hb Hca Hlo Hex Hru Hgo Hde]. rewrite EA in HA. destruct HA as [E1 En].
    rewrite E1 in *. split; simpl; try done.
    + split; [done|]. split; [done|lia].
    + destruct (pcT s); try done. by destruct HT as (_ & ? & _).
    + destruct (pcS s); try done; by destruct HS as (_ & _ & ? & _).
    + intros _. apply Hgo. by rewrite EA.
  - destruct Hi as [Ho Hd Ht Hc HA HT HS Hb Hca Hlo Hex Hru Hgo Hde]. rewrite EA in HA. destruct HA as (Hs1 & En & Hle).
    assert (g_a s = true) as Hga by (apply Hgo; by rewrite EA).
    destruct (Nat.eqb_spec line (cn c)) as [->|Hne]; [injection E as <-; split; simpl; try done|].
    destruct (Z.ltb_spec (cB c) (need c line)) as [Hgt|Hacc]; injection E as <-; split; simpl; try done.
    + unfold past_q1 in *. simpl. rewrite Ho, En, admitted_S, decide_False; [done|]. unfold accepted. lia.
    + rewrite Hd, En, ndropped_S, decide_False; [lia|]. unfold accepted. lia.
    + split; [done|]. split; [done|lia].
    + destruct (pcT s); try done. destruct HT as (_ & _ & ?). lia.
    + destruct (pcS s); try done; destruct HS as (_ & _ & _ & _ & ?); lia.
    + split; [done|]. split; [done|]. split; [lia|done].
  - apply locked_Some in E as [_ E]. destruct (q1 s) as [l|] eqn:E1; [|done].
    destruct (enter_inv s line l Hi EA E1) as (Hi' & HT & HS).
    apply then_move_Some in E as (s1 & E & ->).
    eapply move_inv; [exact Hi'|done|simpl; tauto|].
    match goal with |- q1_to_q2 c ?x = _ => change x with (set_pcA (ALoop (S line)) (MkB (AEnter line) (pcT s) (pcS s) (g_a s) (g_b s) (Some (line :: l)) (q2 s) (server s) (server_bottle s) (token_g s) (S line) (packet_drop_s s) (token_drop_s s) (token_produce_s s) (cancelled s) (m_lost s))) end.
    by rewrite move_pcA, E.
Qed.

Lemma token_arrives_inv s : binv c s -> pcT s = TLoop -> binv c (token_arrives c s).
Proof.
  intros [Ho Hd Ht Hc HA HT HS Hb Hca Hlo Hex Hru Hgo Hde] ET. rewrite ET in HT. unfold token_arrives, past_q1 in *.
  destruct (Z.ltb_spec (token_g s) (cB c)); split; simpl; try done; try lia; rewrite ?ET; try done; unfold past_q1; simpl; lia.
Qed.

Lemma token_ok s s' : binv c s -> token_step c s = Ret (Some s') -> pcS s <> SExit -> binv c s'.
Proof.
  intros Hi E Hne. unfold token_step in E. destruct (pcT s) eqn:ET; [| | | |done..].
  - apply locked_Some in E as [_ E]. destruct (g_a s); [|done]. injection E as <-.
    destruct Hi as [Ho Hd Ht Hc HA HT HS Hb Hca Hlo Hex Hru Hgo Hde]. rewrite ET in *. split; simpl; try done.
    intros [? ?]%Hlo; done.
  - injection E as <-. destruct Hi as [Ho Hd Ht Hc HA HT HS Hb Hca Hlo Hex Hru Hgo Hde]. rewrite ET in *. destruct HT as [E2 E0].
    split; simpl; try done; try (unfold past_q1 in *; simpl in *; lia). intros [? ?]%Hlo; done.
  - injection E as <-. destruct Hi as [Ho Hd Ht Hc HA HT HS Hb Hca Hlo Hex Hru Hgo Hde]. rewrite ET in *. destruct HT as [E2 E0].
    unfold past_q1 in *. rewrite E2 in *. split; simpl; try done.
    + destruct (pcS s); try done; by destruct HS as (_ & _ & _ & ? & _).
    + intros [? ?]%Hlo; done.
  - apply locked_Some in E as [Hlost E]. apply then_move_Some in E as (s1 & E & ->).
    pose proof (token_arrives_inv s Hi ET) as Hi'.
    assert (pcT (token_arrives c s) = TLoop /\ pcS (token_arrives c s) = pcS s /\ q1 (token_arrives c s) = q1 s)
      as (ET' & ES' & E1') by (unfold token_arrives; destruct (_ <? _); by split_and!).
    assert (binv c s1) as Hi1.
    { eapply move_inv; [exact Hi'|by rewrite ET'| |exact E]. rewrite ES', E1'. pose proof (bi_S _ _ Hi) as HS.
      destruct (pcS s); auto; right; right; right; by destruct HS as (_ & _ & ? & _). }
    destruct (is_empty (q1 s1) && (arrive_num_s s1 =? cn c)%nat) eqn:Ee; [|done].
    apply andb_true_iff in Ee as [Ee En%Nat.eqb_eq].
    assert (pcT s1 = TLoop /\ m_lost s1 = false) as [ET1 El1].
    { destruct (move_cases _ _ E Hi') as [->|(? & ? & ? & _ & _ & _ & ->)]; simpl;
        (split; [done|]); unfold token_arrives; by destruct (_ <? _). }
    destruct Hi1 as [Ho Hd Ht Hc HA HT HS Hb Hca Hlo Hex Hru Hgo Hde]. rewrite ET1 in HT. split; simpl; try done.
    + destruct (q1 s1) as [[|]|]; done.
    + by rewrite El1.
Qed.

Lemma cancelled_locked_ok s s' : binv c s -> token_cancelled_locked c s = Ret (Some s') -> pcS s <> SExit -> binv c s'.
Proof.
  intros Hi E Hne. unfold token_cancelled_locked in E. destruct (pcT s) eqn:ET; try done.
  apply locked_Some in E as [Hlost E]. destruct (cancelled s) eqn:Ec; [|done].
  injection E as <-. pose proof (token_arrives_inv s Hi ET) as Hi'.
  destruct Hi as [Ho Hd Ht Hc HA HT HS Hb Hca Hlo Hex Hru Hgo Hde]. rewrite ET in HT.
  destruct Hi' as [_ _ Ht' Hc' _ _ _ _ _ _ _ _ _ _]. split; simpl; try done.
  - unfold token_arrives, past_q1 in *. destruct (token_g s <? cB c); simpl in *; rewrite Hlost in Hc'; lia.
  - intros _. by apply Hca.
Qed.

Lemma cancelled_ok s s' : binv c s -> token_cancelled s = Ret (Some s') -> binv c s'.
Proof.
  intros Hi E. unfold token_cancelled in E. destruct (pcT s) eqn:ET; try done. destruct (cancelled s) eqn:Ec; [|done].
  injection E as <-. destruct Hi as [Ho Hd Ht Hc HA HT HS Hb Hca Hlo Hex Hru Hgo Hde]. rewrite ET in *. split; simpl; try done.
Qed.

Lemma is_empty_true q : is_empty q = true -> q = Some [].
Proof. by destruct q as [[|]|]. Qed.

(** The end of a round of the server. *)
Lemma end_check_ok s : binv c (set_pcS SLoop s) -> g_b s = true -> binv c (end_check c s).
Proof.
  intros Hi Hgb. unfold end_check. destruct (is_empty (q1 s) && is_empty (q2 s) && (arrive_num_s s =? cn c)%nat) eqn:E; [|done].
  apply andb_true_iff in E as [[E1%is_empty_true E2%is_empty_true]%andb_true_iff En%Nat.eqb_eq].
  destruct Hi as [Ho Hd Ht Hc HA HT HS Hb Hca Hlo Hex Hru Hgo Hde]. simpl in *. split; simpl; try done.
  - by destruct HS.
  - intros Hx. destruct (Hca Hx); done.
  - by right; right.
Qed.

Lemma server_ok s s' : binv c s -> server_step c s = Ret (Some s') -> binv c s'.
Proof.
  intros Hi E. unfold server_step in E. pose proof Hi as [Ho Hd Ht Hc HA HT HS Hb Hca Hlo Hex Hru Hgo Hde].
  destruct (pcS s) eqn:ES; [| | | | |done].
  - injection E as <-. destruct HS as [Es Eb]. unfold past_q1 in *. rewrite Es, Eb in *. split; simpl; try done.
    + intros Hx. destruct (Hca Hx); done.
    + by right; left.
  - apply locked_Some in E as [Hl E]. destruct (g_b s) eqn:Eb; [|done]. destruct (q2 s) as [l2|] eqn:E2; [|done].
    destruct HS as [Hss Ebo]. rewrite Ebo in E. destruct (last l2) as [i|] eqn:El.
    + injection E as <-. unfold past_q1 in *. rewrite E2, Ebo in *. simpl in *.
      rewrite (last_split _ _ El), <- app_assoc in Ho, Hc, Hb. split; unfold past_q1; simpl; try done.
      * destruct (pcT s); naive_solver.
      * intros Hx. destruct (Hca Hx); done.
      * by right; right.
    + injection E as <-. apply end_check_ok; [|done]. split; simpl; try done; [by rewrite E2|by rewrite Eb|by right; left].
  - apply locked_Some in E as [Hl E]. destruct HS as [[l Es] [i Ebo]]. rewrite Ebo, Es in E. injection E as <-.
    apply end_check_ok; [|simpl; naive_solver]. unfold past_q1 in *. rewrite Es, Ebo in *. split; simpl; try done.
    + intros Hx. destruct (Hca Hx); done.
    + by right; left.
  - injection E as <-. split; simpl; try done; [by left| |naive_solver]. intros [Hx ?]%Hlo. destruct (Hca Hx); done.
  - apply locked_Some in E as [Hl E]. destruct HS as (Hss & Ebo & HS). rewrite Ebo in E. injection E as <-.
    split; simpl; try done; [by right|naive_solver].
Qed.

Lemma bstep_ok t s s' : binv c s -> bstep c t s = Ret (Some s') -> binv c s'.
Proof.
  intros Hi E. unfold bstep in E. destruct (decide (pcS s = SExit)) as [Ex|Hne]; [by rewrite Ex in E|].
  assert (match t with ThArrive => arrive_step c s | ThToken => token_step c s | ThServer => server_step c s
    | ThCancelPoint => token_cancelled s | ThCancelLocked => token_cancelled_locked c s end = Ret (Some s')) as E' by (destruct (pcS s); done).
  destruct t; [by eapply arrive_ok|by eapply token_ok|by eapply server_ok|by eapply cancelled_ok|by eapply cancelled_locked_ok].
Qed.

Lemma breach_inv s : breach c s -> binv c s.
Proof. induction 1 as [|t s s' _ IH E]; [apply binit_ok|by eapply bstep_ok]. Qed.

(** With Q1 and Q2 allocated no step follows a null pointer. *)
Lemma bstep_no_fault t s f : binv c s -> is_Some (q1 s) -> is_Some (q2 s) -> bstep c t s <> Stop f.
Proof.
  intros Hi [l1 E1] [l2 E2].
  assert (forall s0 k, q1 s0 = Some l1 \/ (exists x, q1 s0 = Some (x :: l1)) -> q2 s0 = Some l2 -> then_move c s0 k <> Stop f) as Hmv.
  { intros s0 k H1 H2. unfold then_move, q1_to_q2. rewrite H2.
    destruct H1 as [->|[x ->]]; repeat case_match; simplify_eq; congruence. }
  unfold bstep. destruct t.
  - assert (arrive_step c s <> Stop f) as Hx; [|by destruct (pcS s)].
    unfold arrive_step, locked. rewrite E1. destruct (pcA s); repeat case_match; try done. apply Hmv; simpl; eauto.
  - assert (token_step c s <> Stop f) as Hx; [|by destruct (pcS s)].
    unfold token_step, locked. destruct (pcT s); repeat case_match; try done.
    all: apply Hmv; unfold token_arrives; destruct (_ <? _); simpl; eauto.
  - assert (server_step c s <> Stop f) as Hx; [|by destruct (pcS s)].
    pose proof (bi_S _ _ Hi) as HS. unfold server_step, locked. rewrite E2. destruct (pcS s); repeat case_match; try done;
      destruct HS as [[? ?] [? ?]]; simplify_eq.
  - assert (token_cancelled s <> Stop f) as Hx; [|by destruct (pcS s)].
    unfold token_cancelled. by repeat case_match.
  - assert (token_cancelled_locked c s <> Stop f) as Hx; [|by destruct (pcS s)].
    unfold token_cancelled_locked, locked. by repeat case_match.
Qed.
End safety.

(** C24: in every reachable state of the emulation the packets that arrived and
    were not dropped are, newest first, those in Q1, in Q2, at the server and
    served: no packet is lost, duplicated or overtaken.  The dropped packets are
    exactly the ones that need more tokens than the bucket holds. *)
Theorem bucket_fifo c s : 0 <= cB c -> Forall (fun p => 0 <= p) (cP c) -> breach c s ->
  qs (q1 s) ++ qs (q2 s) ++ option_list (server_bottle s) ++ qs (server s) =
    reverse (filter (accepted c) (seq 0 (arrive_num_s s))) /\
  packet_drop_s s = length (filter (fun i => ~ accepted c i) (seq 0 (arrive_num_s s))).
Proof. intros HB HP Hr. pose proof (breach_inv c HB HP s Hr) as Hi. split; apply Hi. Qed.

(** the bucket never holds fewer than 0 or more than [B] tokens, and every
    token that arrived was dropped, is in the bucket, or was taken by a packet
    that left Q1. *)
Theorem bucket_tokens c s : 0 <= cB c -> Forall (fun p => 0 <= p) (cP c) -> breach c s -> m_lost s = false ->
  0 <= token_g s <= cB c /\
  token_produce_s s = token_drop_s s + token_g s +
    spent c (qs (q2 s) ++ option_list (server_bottle s) ++ qs (server s)).
Proof.
  intros HB HP Hr Hl. pose proof (breach_inv c HB HP s Hr) as Hi. split; [apply Hi|].
  pose proof (bi_count _ _ Hi) as Hc. rewrite Hl in Hc. unfold past_q1 in Hc. lia.
Qed.

(** when the emulation ends, every packet was either served, in the order of
    arrival, or dropped on arrival. *)
Theorem bucket_exit_complete c s : 0 <= cB c -> Forall (fun p => 0 <= p) (cP c) -> breach c s -> pcS s = SExit ->
  server s = Some (reverse (filter (accepted c) (seq 0 (cn c)))) /\
  packet_drop_s s = length (filter (fun i => ~ accepted c i) (seq 0 (cn c))) /\ q1 s = Some [] /\ q2 s = Some [].
Proof.
  intros HB HP Hr Ex. pose proof (breach_inv c HB HP s Hr) as [Ho Hd _ _ _ _ HS _ _ _ _ _ _ _]. rewrite Ex in HS.
  destruct HS as ([l Es] & Ebo & E1 & E2 & En). unfold past_q1 in Ho. rewrite Es, Ebo, E1, E2, En in *. simpl in Ho.
  split_and!; [f_equal; exact Ho|exact Hd|done|done].
Qed.

(** when no packet is accepted (each needs more than [B] tokens, or there is
    none) the server waits for ever and the emulation never ends. *)
Theorem bucket_all_dropped_hangs c s : 0 <= cB c -> Forall (fun p => 0 <= p) (cP c) ->
  (forall i, (i < cn c)%nat -> ~ accepted c i) -> breach c s -> pcS s = SAlloc \/ pcS s = SLoop.
Proof.
  intros HB HP Hno Hr.
  assert (binv c s /\ (arrive_num_s s <= cn c)%nat) as [Hi Hle].
  { pose proof (breach_inv c HB HP s Hr) as Hi. split; [done|]. pose proof (bi_A _ _ Hi) as HA.
    destruct (pcA s); [destruct HA as [_ ->]; lia..| | |]; destruct HA as (_ & HA); lia. }
  assert (past_q1 s = []) as Hnil.
  { pose proof (bi_order _ _ Hi) as Ho. unfold admitted_upto in Ho.
    assert (filter (accepted c) (seq 0 (arrive_num_s s)) = []) as Ef.
    { destruct (filter (accepted c) (seq 0 (arrive_num_s s))) as [|i l] eqn:E; [done|].
      assert (i ∈ filter (accepted c) (seq 0 (arrive_num_s s))) as [Ha Hin%elem_of_seq]%list_elem_of_filter by (rewrite E; by left).
      destruct (Hno i); [lia|done]. }
    rewrite Ef in Ho. by apply app_nil in Ho as [_ ?]. }
  assert (g_b s = false) as Hb. { destruct (g_b s) eqn:E; [|done]. by apply (bi_b _ _ Hi) in E. }
  destruct (bi_run _ _ Hi) as [?|[?|?]]; [by left|by right|congruence].
Qed.

(** ** The emulation can always be finished *)

Section liveness.
Variable c : config.
Hypothesis HB : 0 <= cB c.
Hypothesis HP : Forall (fun p => 0 <= p) (cP c).

Definition can (s s' : bstate) : Prop := exists ts, brun c ts s = Ret s'.

Lemma brun_app ts ts' s s' : brun c ts s = Ret s' -> brun c (ts ++ ts') s = brun c ts' s'.
Proof.
  revert s. induction ts as [|t ts IH]; intros s E; simpl in *; [congruence|].
  destruct (bstep c t s) as [[s1|]|]; [by apply IH|by apply IH|done].
Qed.

Lemma can_trans s1 s2 s3 : can s1 s2 -> can s2 s3 -> can s1 s3.
Proof. intros [ts E] [ts' E']. exists (ts ++ ts'). by rewrite (brun_app _ _ _ _ E). Qed.

Lemma can_step t s s' : bstep c t s = Ret (Some s') -> can s s'.
Proof. intros E. exists [t]. simpl. by rewrite E. Qed.

(** Steps that lower a measure lead to [Q]. *)
Lemma can_until (Good Q : bstate -> Prop) (f : bstate -> Z) :
  (forall s, Good s -> Q s \/ exists t s', bstep c t s = Ret (Some s') /\ Good s' /\ 0 <= f s' < f s) ->
  forall s, Good s -> exists s', can s s' /\ Good s' /\ Q s'.
Proof.
  intros Hstep s. remember (Z.to_nat (f s)) as n eqn:En.
  assert (Z.to_nat (f s) <= n)%nat as Hn by lia. clear En. revert s Hn.
  induction n as [|n IH]; intros s Hn Hg; (destruct (Hstep s Hg) as [HQ|(t & s' & E & Hg' & Hf)]; [exists s; split; [by exists []|done]|]).
  - lia.
  - destruct (IH s') as (s2 & Hc & Hr); [lia|done|]. exists s2. split; [|done]. eapply can_trans; [by eapply can_step|done].
Qed.

(** The server is at work and nothing was cancelled. *)
Definition running (s : bstate) : Prop :=
  binv c s /\ m_lost s = false /\ (pcS s = SAlloc \/ pcS s = SLoop \/ pcS s = SServe).

Lemma running_bstep s t : running s -> bstep c t s =
  match t with ThArrive => arrive_step c s | ThToken => token_step c s | ThServer => server_step c s
  | ThCancelPoint => token_cancelled s | ThCancelLocked => token_cancelled_locked c s end.
Proof. intros (_ & _ & HS). unfold bstep. by destruct (pcS s); destruct HS as [?|[?|?]]. Qed.

Lemma running_not_cancelled s : running s -> cancelled s = false.
Proof.
  intros (Hi & _ & HS). destruct (cancelled s) eqn:E; [|done]. destruct (bi_cancel _ _ Hi E) as [Ex|Ex]; rewrite Ex in HS;
    by destruct HS as [?|[?|?]].
Qed.

Lemma move_returns s : is_Some (q1 s) -> is_Some (q2 s) -> exists s', q1_to_q2 c s = Ret s'.
Proof. intros [l E1] [l2 E2]. unfold q1_to_q2. rewrite E1, E2. repeat case_match; eauto. Qed.

(** The move leaves alone what the threads' positions depend on. *)
Lemma move_fields s s' : q1_to_q2 c s = Ret s' ->
  pcA s' = pcA s /\ pcT s' = pcT s /\ pcS s' = pcS s /\ m_lost s' = m_lost s /\ (is_Some (q2 s) -> is_Some (q2 s')) /\
  is_Some (q1 s') /\ arrive_num_s s' = arrive_num_s s /\ cancelled s' = cancelled s.
Proof.
  unfold q1_to_q2. intros E. destruct (q1 s) as [l|] eqn:E1; [|done]. destruct (last l); [|simplify_eq; rewrite E1; by split_and!].
  destruct (_ <=? _); [|simplify_eq; rewrite E1; by split_and!]. destruct (q2 s); simplify_eq. simpl. by split_and!.
Qed.

Definition a_rank (s : bstate) : Z :=
  match pcA s with
  | AStart => 2 * Z.of_nat (cn c) + 3
  | AAlloc => 2 * Z.of_nat (cn c) + 2
  | ALoop l => 2 * (Z.of_nat (cn c) - Z.of_nat l) + 1
  | AEnter l => 2 * (Z.of_nat (cn c) - Z.of_nat l)
  | ADone => 0
  end.
Definition t_rank (s : bstate) : Z := match pcT s with TWait => 3 | TZero => 2 | TAlloc => 1 | _ => 0 end.

Definition a_ready (s : bstate) : Prop := is_Some (q1 s).
Definition t_ready (s : bstate) : Prop := is_Some (q2 s).

(** A step that keeps the server's position and loses no mutex. *)
Lemma running_step t s s' : running s -> bstep c t s = Ret (Some s') -> pcS s' = pcS s -> m_lost s' = m_lost s -> running s'.
Proof.
  intros (Hi & Hl & HS) E E1 E2. unfold running. rewrite E1, E2. split; [|done]. exact (bstep_ok c HB HP _ _ _ Hi E).
Qed.

(** [Arrive] allocates Q1. *)
Lemma start_arrive s : running s -> exists s', can s s' /\ running s' /\ a_ready s'.
Proof.
  apply (can_until running a_ready a_rank). intros x Hx. pose proof Hx as (Hi & Hl & HS). pose proof (bi_A _ _ Hi) as HA.
  destruct (pcA x) eqn:EA; try (left; by destruct HA); right; exists ThArrive.
  - assert (exists s', bstep c ThArrive x = Ret (Some s') /\ pcA s' = AAlloc /\ pcS s' = pcS x /\ m_lost s' = m_lost x)
      as (s' & E & E1 & E2 & E3) by (rewrite running_bstep by done; unfold arrive_step, locked; rewrite EA, Hl; by eexists).
    exists s'. split; [done|]. split; [by eapply running_step|]. unfold a_rank. rewrite EA, E1. lia.
  - assert (exists s', bstep c ThArrive x = Ret (Some s') /\ pcA s' = ALoop 0 /\ pcS s' = pcS x /\ m_lost s' = m_lost x)
      as (s' & E & E1 & E2 & E3) by (rewrite running_bstep by done; unfold arrive_step; rewrite EA; by eexists).
    exists s'. split; [done|]. split; [by eapply running_step|]. unfold a_rank. rewrite EA, E1. lia.
Qed.

(** Then [Token] allocates Q2. *)
Lemma start_token s : running s -> a_ready s -> exists s', can s s' /\ (running s' /\ a_ready s') /\ t_ready s'.
Proof.
  intros Hr Ha. apply (can_until (fun s => running s /\ a_ready s) t_ready t_rank); [|by split].
  clear s Hr Ha. intros s [Hr Ha]. pose proof Hr as (Hi & Hl & HS). pose proof (bi_T _ _ Hi) as HT.
  assert (g_a s = true) as Hga.
  { apply (bi_go _ _ Hi). intros E. pose proof (bi_A _ _ Hi) as HA. rewrite E in HA. destruct HA as [E1 _].
    unfold a_ready in Ha. rewrite E1 in Ha. by destruct Ha. }
  destruct (decide (t_rank s = 0)) as [E0|Hne].
  { left. unfold t_rank, t_ready in *. destruct (pcT s); try done; by destruct HT. }
  right. exists ThToken.
  assert (exists s', bstep c ThToken s = Ret (Some s') /\ t_rank s' = t_rank s - 1 /\ pcS s' = pcS s /\ m_lost s' = m_lost s /\ q1 s' = q1 s)
    as (s' & E & E1 & E2 & E3 & E4).
  { rewrite running_bstep by done. unfold token_step, locked, t_rank in *. rewrite Hl, Hga.
    destruct (pcT s); try done; by eexists. }
  exists s'. split; [done|]. rewrite E1. unfold a_ready. rewrite E4. split; [split; [by eapply running_step|done]|].
  unfold t_rank in *. destruct (pcT s); lia.
Qed.

Definition ready (s : bstate) : Prop := running s /\ a_ready s /\ t_ready s.

(** All packets arrive. *)
Lemma all_arrive s : ready s -> exists s', can s s' /\ ready s' /\ pcA s' = ADone.
Proof.
  apply (can_until ready (fun s => pcA s = ADone) a_rank). clear s. intros s (Hr & Ha & Ht).
  pose proof Hr as (Hi & Hl & HS). pose proof (bi_A _ _ Hi) as HA.
  destruct (pcA s) as [| |l|l|] eqn:EA; [..|by left].
  1, 2: destruct HA as [E _]; unfold a_ready in Ha; rewrite E in Ha; by destruct Ha.
  - right. exists ThArrive. destruct HA as (_ & _ & Hle).
    assert (exists s', bstep c ThArrive s = Ret (Some s') /\ 0 <= a_rank s' < a_rank s /\ pcS s' = pcS s /\ m_lost s' = m_lost s /\ q1 s' = q1 s /\ q2 s' = q2 s)
      as (s' & E & E1 & E2 & E3 & E4 & E5).
    { rewrite running_bstep by done. unfold arrive_step. rewrite EA.
      destruct (Nat.eqb_spec l (cn c)); [|destruct (cB c <? need c l)];
        (eexists; split; [reflexivity|]; unfold a_rank; rewrite EA; simpl; split_and!; try done; lia). }
    exists s'. split; [done|]. unfold ready, a_ready, t_ready. rewrite E4, E5. split; [|done]. split; [by eapply running_step|done].
  - right. exists ThArrive. destruct HA as (_ & _ & Hlt & _). destruct Ha as [l1 E1].
    set (s1 := MkB (AEnter l) (pcT s) (pcS s) (g_a s) (g_b s) (Some (l :: l1)) (q2 s) (server s) (server_bottle s) (token_g s)
             (S l) (packet_drop_s s) (token_drop_s s) (token_produce_s s) (cancelled s) false).
    destruct (move_returns s1) as [s2 E2]; [by eexists|done|]. destruct (move_fields _ _ E2) as (_ & _ & M1 & M2 & M3 & M4 & _ & _).
    assert (bstep c ThArrive s = Ret (Some (set_pcA (ALoop (S l)) s2))) as E.
    { rewrite running_bstep by done. unfold arrive_step, locked. rewrite EA, Hl, E1. unfold then_move. fold s1. by rewrite E2. }
    exists (set_pcA (ALoop (S l)) s2). split; [done|]. split; [|unfold a_rank; rewrite EA; simpl; lia].
    split; [eapply running_step; [done|done|exact M1|rewrite Hl; exact M2]|]. split; [exact M4|exact (M3 Ht)].
Qed.

(** The bucket fills until Q1 is empty. *)
Definition q1_rank (s : bstate) : Z := Z.of_nat (length (qs (q1 s))) * (cB c + 1) + (cB c - token_g s).

Definition arrived (s : bstate) : Prop := ready s /\ pcA s = ADone.

Lemma q1_head_accepted s l i : binv c s -> q1 s = Some (l ++ [i]) -> accepted c i.
Proof.
  intros Hi E1. pose proof (bi_order _ _ Hi) as Ho. rewrite E1 in Ho. unfold admitted_upto in Ho. simpl in Ho.
  assert (i ∈ reverse (filter (accepted c) (seq 0 (arrive_num_s s)))) as Hin.
  { rewrite <- Ho. apply elem_of_app. left. apply elem_of_app. right. by left. }
  rewrite elem_of_reverse in Hin. by apply list_elem_of_filter in Hin as [? _].
Qed.

(** A token lowers the rank, with or without a move. *)
Lemma token_rank s s' : binv c s -> pcT s = TLoop -> qs (q1 s) <> [] -> q1_to_q2 c (token_arrives c s) = Ret s' ->
  0 <= q1_rank s' < q1_rank s.
Proof.
  intros Hi ET Hne E. pose proof (token_arrives_inv c s Hi ET) as Hi'. pose proof (bi_tok _ _ Hi) as Ht.
  assert (q1 (token_arrives c s) = q1 s) as E1 by (unfold token_arrives; by destruct (_ <? _)).
  destruct (q1 s) as [l|] eqn:Eq; [|done]. simpl in Hne.
  destruct (exists_last Hne) as (l' & i & ->).
  pose proof (q1_head_accepted s l' i Hi Eq) as Hacc. unfold accepted in Hacc.
  unfold q1_to_q2 in E. rewrite E1, last_snoc, removelast_last in E. unfold q1_rank. rewrite Eq. simpl qs.
  rewrite length_app. simpl length. pose proof (need_nonneg c HP i).
  assert (token_g s <= token_g (token_arrives c s) <= cB c /\ (token_g s < cB c -> token_g (token_arrives c s) = token_g s + 1)) as [Hta Htb].
  { unfold token_arrives. destruct (Z.ltb_spec (token_g s) (cB c)); simpl; lia. }
  destruct (Z.leb_spec (need c i) (token_g (token_arrives c s))) as [Hle|Hgt].
  - destruct (q2 (token_arrives c s)); [|done]. injection E as <-. simpl. nia.
  - injection E as <-. rewrite E1. simpl. rewrite length_app. simpl. nia.
Qed.

Lemma q1_drains s : arrived s -> exists s', can s s' /\ arrived s' /\ q1 s' = Some [].
Proof.
  apply (can_until arrived (fun s => q1 s = Some []) q1_rank). clear s. intros s ((Hr & Ha & Ht) & EA).
  pose proof Hr as (Hi & Hl & HS). pose proof (bi_T _ _ Hi) as HT. pose proof (running_not_cancelled _ Hr) as Hc.
  destruct (decide (qs (q1 s) = [])) as [Hnil|Hne].
  { left. unfold a_ready in Ha. destruct Ha as [l E]. rewrite E in *. simpl in Hnil. by subst. }
  assert (pcT s = TLoop) as ET.
  { unfold t_ready in Ht. destruct (pcT s) eqn:ET0; try done.
    - destruct HT as [E _]. rewrite E in Ht. by destruct Ht.
    - destruct HT as [E _]. rewrite E in Ht. by destruct Ht.
    - destruct HT as [E _]. rewrite E in Ht. by destruct Ht.
    - destruct HT as (_ & E & _). by rewrite E in Hne.
    - by rewrite (bi_dead _ _ Hi ET0) in Hc. }
  right. exists ThToken.
  assert (is_Some (q1 (token_arrives c s)) /\ is_Some (q2 (token_arrives c s)) /\ pcS (token_arrives c s) = pcS s /\
    m_lost (token_arrives c s) = m_lost s /\ pcA (token_arrives c s) = pcA s) as (A1 & A2 & A3 & A4 & A5)
    by (unfold token_arrives; destruct (_ <? _); by split_and!).
  destruct (move_returns _ A1 A2) as [s1 E1]. destruct (move_fields _ _ E1) as (M0 & _ & M1 & M2 & M3 & M4 & _ & _).
  set (s2 := if is_empty (q1 s1) && (arrive_num_s s1 =? cn c)%nat then set_pcT TDone s1 else s1).
  assert (bstep c ThToken s = Ret (Some s2)) as E.
  { rewrite running_bstep by done. unfold token_step, locked. rewrite ET, Hl. unfold then_move. by rewrite E1. }
  assert (q1 s2 = q1 s1 /\ q2 s2 = q2 s1 /\ pcS s2 = pcS s1 /\ m_lost s2 = m_lost s1 /\ pcA s2 = pcA s1 /\ q1_rank s2 = q1_rank s1)
    as (B1 & B2 & B3 & B4 & B5 & B6) by (unfold s2; destruct (_ && _); by split_and!).
  exists s2. split; [done|]. split.
  - split; [|by rewrite B5, M0, A5]. unfold ready, a_ready, t_ready. rewrite B1, B2. split; [|by split; [|apply M3]].
    eapply running_step; [done|done|by rewrite B3, M1|by rewrite B4, M2].
  - rewrite B6. by eapply token_rank.
Qed.

(** The server works off Q2. *)
Definition s_rank (s : bstate) : Z :=
  match pcS s with
  | SLoop => 2 * Z.of_nat (length (qs (q2 s))) + 1
  | SServe => 2 * Z.of_nat (length (qs (q2 s))) + 2
  | _ => 0
  end.

Definition serving (s : bstate) : Prop :=
  binv c s /\ m_lost s = false /\ q1 s = Some [] /\ is_Some (q2 s) /\ arrive_num_s s = cn c /\ g_b s = true /\
  (pcS s = SLoop \/ pcS s = SServe \/ pcS s = SCancel).

(** When all packets have arrived and Q1 is empty, the check looks at Q2 only. *)
Lemma end_check_eq s l : q1 s = Some [] -> arrive_num_s s = cn c -> q2 s = Some l ->
  end_check c s = set_pcS (if l is [] then SCancel else SLoop) s.
Proof. intros E1 En E2. unfold end_check. rewrite E1, E2, En, Nat.eqb_refl. by destruct l. Qed.

Lemma server_serves s : serving s -> exists s', can s s' /\ serving s' /\ pcS s' = SCancel.
Proof.
  apply (can_until serving (fun s => pcS s = SCancel) s_rank). clear s.
  intros s (Hi & Hl & E1 & [l E2] & En & Hb & HS). pose proof (bi_S _ _ Hi) as HS'.
  destruct HS as [ES|[ES|ES]]; [| |by left]; right; exists ThServer; rewrite ES in HS'.
  - destruct HS' as [_ Ebo].
    assert (exists s', bstep c ThServer s = Ret (Some s') /\ m_lost s' = false /\ q1 s' = Some [] /\ is_Some (q2 s') /\
      arrive_num_s s' = cn c /\ g_b s' = true /\ (pcS s' = SLoop \/ pcS s' = SServe \/ pcS s' = SCancel) /\ 0 <= s_rank s' < s_rank s)
      as (s' & E & Hs').
    { unfold bstep. rewrite ES. unfold server_step, locked. rewrite ES, Hl, Hb, E2, Ebo.
      destruct (last l) as [i|] eqn:El.
      - eexists. split; [reflexivity|]. simpl. unfold s_rank. rewrite ES, E2. simpl.
        pose proof (last_split _ _ El) as Els. apply (f_equal length) in Els. rewrite length_app in Els. simpl in Els.
        split_and!; [done..|by right; left|lia|lia].
      - apply last_None in El as ->. eexists. split; [rewrite (end_check_eq s []) by done; reflexivity|]. simpl.
        unfold s_rank. rewrite ES, E2. simpl. split_and!; try done. by right; right. }
    exists s'. split; [done|]. split; [|apply Hs']. split; [exact (bstep_ok c HB HP _ _ _ Hi E)|]. tauto.
  - destruct HS' as [[ls Es] [i Ebo]].
    assert (exists s', bstep c ThServer s = Ret (Some s') /\ m_lost s' = false /\ q1 s' = Some [] /\ is_Some (q2 s') /\
      arrive_num_s s' = cn c /\ g_b s' = true /\ (pcS s' = SLoop \/ pcS s' = SServe \/ pcS s' = SCancel) /\ 0 <= s_rank s' < s_rank s)
      as (s' & E & Hs').
    { unfold bstep. rewrite ES. unfold server_step, locked. rewrite ES, Hl, Ebo, Es.
      eexists. split; [rewrite (end_check_eq _ l) by done; reflexivity|]. unfold s_rank. rewrite ES, E2. simpl. rewrite ?E2.
      destruct l; simpl; split_and!; try done; try lia; auto. }
    exists s'. split; [done|]. split; [|apply Hs']. split; [exact (bstep_ok c HB HP _ _ _ Hi E)|]. tauto.
Qed.

(** [SCancel] is followed by the exit, unless [Token] gets in between. *)
Lemma cancel_exits s : pcS s = SCancel -> m_lost s = false -> server_bottle s = None ->
  exists s', can s s' /\ pcS s' = SExit.
Proof.
  intros ES Hl Ebo. destruct s as [pa pt ps ga gb q q' sv bo tk an pd td tp ca lo]. simpl in *. subst.
  eexists. split; [|by instantiate (1 := MkB pa pt SExit ga gb q q' sv None tk an pd td tp true false)].
  by exists [ThServer; ThServer].
Qed.

Lemma can_inv s s' : binv c s -> can s s' -> binv c s'.
Proof.
  intros Hi [ts E]. revert s Hi E. induction ts as [|t ts IH]; intros s Hi E; simpl in E; [congruence|].
  destruct (bstep c t s) as [[s1|]|] eqn:Es; [|by eapply IH|done]. eapply IH; [|done]. exact (bstep_ok c HB HP _ _ _ Hi Es).
Qed.

Lemma server_starts s : arrived s -> q1 s = Some [] -> (exists i, (i < cn c)%nat /\ accepted c i) ->
  exists s', can s s' /\ serving s'.
Proof.
  intros ((Hr & Ha & Ht) & EA) E1 (i & Hi0 & Hacc). pose proof Hr as (Hi & Hl & HS).
  pose proof (bi_A _ _ Hi) as HA. rewrite EA in HA. destruct HA as [_ En].
  assert (g_b s = true) as Hb.
  { apply (bi_b _ _ Hi). intros Hnil. pose proof (bi_order _ _ Hi) as Ho. rewrite E1, Hnil, En in Ho. simpl in Ho.
    unfold admitted_upto in Ho. assert (i ∈ reverse (filter (accepted c) (seq 0 (cn c)))) as Hin.
    { rewrite elem_of_reverse. apply list_elem_of_filter. split; [done|]. apply elem_of_seq. lia. }
    rewrite <- Ho in Hin. by apply not_elem_of_nil in Hin. }
  destruct HS as [ES|HS].
  - assert (exists s', bstep c ThServer s = Ret (Some s') /\ pcS s' = SLoop /\ m_lost s' = m_lost s /\ q1 s' = q1 s /\
      q2 s' = q2 s /\ arrive_num_s s' = arrive_num_s s /\ g_b s' = g_b s) as (s' & E & F1 & F2 & F3 & F4 & F5 & F6).
    { unfold bstep, server_step. rewrite ES. by eexists. }
    exists s'. split; [by eapply can_step|]. split; [exact (bstep_ok c HB HP _ _ _ Hi E)|].
    rewrite F1, F2, F3, F4, F5, F6. split_and!; try done. by left.
  - exists s. split; [by exists []|]. split_and!; try done. tauto.
Qed.

Lemma running_finishes s : running s -> (exists i, (i < cn c)%nat /\ accepted c i) -> exists s', can s s' /\ pcS s' = SExit.
Proof.
  intros Hr Hex. destruct (start_arrive s Hr) as (s1 & C1 & R1 & A1). destruct (start_token s1 R1 A1) as (s2 & C2 & [R2 A2] & T2).
  destruct (all_arrive s2) as (s3 & C3 & R3 & A3); [done|]. destruct (q1_drains s3) as (s4 & C4 & R4 & E4); [done|].
  destruct (server_starts s4 R4 E4 Hex) as (s5 & C5 & R5). destruct (server_serves s5 R5) as (s6 & C6 & (Hi & Hl & _) & E6).
  pose proof (bi_S _ _ Hi) as HS. rewrite E6 in HS. destruct HS as (_ & Ebo & _).
  destruct (cancel_exits s6 E6 Hl Ebo) as (s7 & C7 & E7). exists s7. split; [|done].
  exact (can_trans _ _ _ C1 (can_trans _ _ _ C2 (can_trans _ _ _ C3 (can_trans _ _ _ C4 (can_trans _ _ _ C5 (can_trans _ _ _ C6 C7)))))).
Qed.

Lemma bucket_finishes s : breach c s -> m_lost s = false -> (exists i, (i < cn c)%nat /\ accepted c i) ->
  exists s', can s s' /\ pcS s' = SExit.
Proof.
  intros Hr Hl Hex. pose proof (breach_inv c HB HP s Hr) as Hi. pose proof (bi_S _ _ Hi) as HS.
  destruct (pcS s) eqn:ES.
  - apply running_finishes; [|done]. split_and!; [done..|by left].
  - apply running_finishes; [|done]. split_and!; [done..|by right; left].
  - apply running_finishes; [|done]. split_and!; [done..|by right; right].
  - apply cancel_exits; [done..|apply HS].
  - destruct HS as (_ & Ebo & _). eexists. split; [|by instantiate (1 := set_pcS SExit s)]. eapply (can_step ThServer).
    unfold bstep, server_step, locked. by rewrite ES, Hl, Ebo.
  - exists s. split; [by exists []|done].
Qed.
End liveness.

(** C29: when some packet needs no more than [B] tokens, the emulation can
    be finished from every reachable state in which the mutex can be had: there
    is a schedule, without any null pointer followed on the way, that reaches
    the exit (by [bucket_exit_complete], with every packet served or dropped).
    When no packet does, it never ends ([bucket_all_dropped_hangs]). *)
Theorem bucket_can_finish c s : 0 <= cB c -> Forall (fun p => 0 <= p) (cP c) -> breach c s -> m_lost s = false ->
  (exists i, (i < cn c)%nat /\ need c i <= cB c) -> exists ts s', brun c ts s = Ret s' /\ pcS s' = SExit.
Proof.
  intros HB HP Hr Hl Hex. destruct (bucket_finishes c HB HP s Hr Hl Hex) as (s' & [ts E] & Ex). by exists ts, s'.
Qed.

(** [handler] cancels [Token] and then locks the mutex.  [Token] can be
    waiting for that mutex: it then ends in the middle of its critical section,
    the mutex stays locked, and no thread ever runs again. *)
Theorem bucket_cancel_deadlock : exists ts s, brun c3 ts binit = Ret s /\ pcS s = SHandler /\
  forall t, bstep c3 t s = Ret None.
Proof.
  exists ([ThArrive; ThArrive; ThToken; ThToken; ThToken; ThServer; ThToken; ThToken; ThToken] ++
    replicate 6 ThArrive ++ replicate 5 ThServer ++ [ThCancelLocked]).
  eexists. split; [vm_compute; reflexivity|]. split; [reflexivity|]. by intros [].
Qed.

(** ** The theorems at concrete states *)

Lemma breach_run c ts s s' : breach c s -> brun c ts s = Ret s' -> breach c s'.
Proof.
  revert s. induction ts as [|t ts IH]; intros s Hr E; simpl in E; [congruence|].
  destruct (bstep c t s) as [[s1|]|] eqn:Es; [|by eapply IH|done]. eapply IH; [|done]. by eapply breach_step.
Qed.

(** Both packets that [c3] accepts have left Q1, the first is at the server. *)
Definition half_ts : list thread :=
  [ThArrive; ThArrive; ThToken; ThToken; ThToken; ThServer; ThToken; ThToken; ThToken] ++ replicate 6 ThArrive ++ [ThServer].
Definition full_ts : list thread := half_ts ++ replicate 5 ThServer.

Definition after (c : config) (ts : list thread) : bstate :=
  match brun c ts binit with Ret s => s | Stop _ => binit end.

Lemma after_reached c ts : breach c (after c ts).
Proof. unfold after. destruct (brun c ts binit) eqn:E; [eapply breach_run; [|done]|]; apply breach_init. Qed.

Lemma c3_B : 0 <= cB c3.
Proof. by vm_compute. Qed.

Lemma c3_P : Forall (fun p => 0 <= p) (cP c3).
Proof. repeat constructor; lia. Qed.

Lemma bucket_fifo_witness : qs (q2 (after c3 half_ts)) = [2%nat] /\ server_bottle (after c3 half_ts) = Some 0%nat /\
  packet_drop_s (after c3 half_ts) = 1%nat.
Proof.
  destruct (bucket_fifo c3 (after c3 half_ts) c3_B c3_P (after_reached _ _)) as [Ho Hd].
  split; [|split]; [vm_compute; reflexivity|vm_compute; reflexivity|exact Hd].
Defined.

Lemma bucket_tokens_witness : 0 <= token_g (after c3 half_ts) <= 3 /\ token_produce_s (after c3 half_ts) = 3.
Proof.
  assert (m_lost (after c3 half_ts) = false) as Hl by (vm_compute; reflexivity).
  destruct (bucket_tokens c3 (after c3 half_ts) c3_B c3_P (after_reached _ _) Hl) as [Hb Hc].
  split; [exact Hb|]. rewrite Hc. vm_compute. reflexivity.
Defined.

Lemma bucket_exit_complete_witness : server (after c3 full_ts) = Some [2; 0]%nat.
Proof.
  assert (pcS (after c3 full_ts) = SExit) as Ex by (vm_compute; reflexivity).
  destruct (bucket_exit_complete c3 (after c3 full_ts) c3_B c3_P (after_reached _ _) Ex) as [Hs _].
  rewrite Hs. vm_compute. reflexivity.
Defined.

Definition c_hang : config := Cfg 3 [9].

Lemma bucket_all_dropped_hangs_witness :
  pcS (after c_hang [ThArrive; ThArrive; ThServer; ThArrive; ThArrive]) = SAlloc \/
  pcS (after c_hang [ThArrive; ThArrive; ThServer; ThArrive; ThArrive]) = SLoop.
Proof.
  apply (bucket_all_dropped_hangs c_hang); [by vm_compute|repeat constructor; lia| |apply after_reached].
  intros i Hi. assert (i = 0%nat) as -> by (unfold cn in Hi; simpl in Hi; lia). vm_compute. congruence.
Defined.

Lemma bucket_can_finish_witness : exists ts s, brun c3 ts (after c3 half_ts) = Ret s /\ pcS s = SExit.
Proof.
  apply (bucket_can_finish c3); [exact c3_B|exact c3_P|apply after_reached|vm_compute; reflexivity|].
  exists 0%nat. split; [unfold cn; simpl; lia|vm_compute; congruence].
Defined.
