(* ===== verification/QDiv.v ===== *)
(** * 64-bit division (util/math.c)

    The compiler turns 64-bit divisions of the 32-bit kernel into calls of
    [__udivdi3], [__umoddi3] and [__divdi3], which rest on [__qdivrem]: Knuth's
    algorithm D on digits of 16 bits.  The user library carries the same code
    (user/lib/libc/quad.c).  The arrays [uspace], [vspace] and [qspace] are
    lists of five cells, [None] where nothing was stored yet; a pointer into
    one is its offset.  An access outside an array, or to a cell nothing was
    stored in, is [Stop Undef].

    The theorems: [__qdivrem] returns quotient and remainder for every pair of
    64-bit numbers with a divisor other than 0, and so do its callers; [log2]
    is the rounded-up logarithm below 2^30. *)

From S2P Require Import Prelude.

(** ** Digits *)

Definition HALF_BITS : Z := 16.
Definition B : Z := 65536.

Definition HHALF (x : Z) : Z := Z.shiftr x HALF_BITS.
Definition LHALF (x : Z) : Z := Z.land x (B - 1).
Definition COMBINE (a b : Z) : Z := Z.lor (u32 (Z.shiftl a HALF_BITS)) b.

Abbreviation digits := (list (option Z)).

Definition rd (p : digits) (i : nat) : outcome Z :=
  match p !! i with Some (Some x) => Ret x | _ => Stop Undef end.

Definition wr (p : digits) (i : nat) (x : Z) : outcome digits :=
  if (i <? length p)%nat then Ret (<[i := Some x]> p) else Stop Undef.

(** [shl(p + k, len, sh)]; the recursion is the [for] loop. *)
Fixpoint shl (p : digits) (k len : nat) (sh : Z) : outcome digits :=
  let? x := rd p k in
  match len with
  | O => wr p k (LHALF (u32 (Z.shiftl x sh)))
  | S len' =>
      let? y := rd p (S k) in
      let? p := wr p k (Z.lor (LHALF (u32 (Z.shiftl x sh))) (Z.shiftr y (HALF_BITS - sh))) in
      shl p (S k) len' sh
  end.

(** ** [__qdivrem] *)

(** [union uu]: the two words of a quad and back. *)
Definition ul_H (q : Z) : Z := Z.shiftr q 32.
Definition ul_L (q : Z) : Z := Z.land q 4294967295.
Definition quad (h l : Z) : Z := Z.lor (Z.shiftl h 32) l.

(** The four digits of a quad, at [p[1..4]]. *)
Definition split_quad (p0 : option Z) (q : Z) : digits :=
  [p0; Some (HHALF (ul_H q)); Some (LHALF (ul_H q)); Some (HHALF (ul_L q)); Some (LHALF (ul_L q))].

Definition join_quad (p : digits) : outcome Z :=
  let? a := rd p 1 in
  let? b := rd p 2 in
  let? c := rd p 3 in
  let? d := rd p 4 in
  Ret (quad (COMBINE a b) (COMBINE c d)).

(** The divisor has one digit [t]. *)
Definition short_div (us : digits) (t : Z) (arq : bool) : outcome (Z * option Z) :=
  let? u1 := rd us 1 in
  let? u2 := rd us 2 in
  let? u3 := rd us 3 in
  let? u4 := rd us 4 in
  let q1 := u1 / t in
  let rbj := COMBINE (u1 mod t) u2 in
  let q2 := rbj / t in
  let rbj := COMBINE (rbj mod t) u3 in
  let q3 := rbj / t in
  let rbj := COMBINE (rbj mod t) u4 in
  let q4 := rbj / t in
  Ret (quad (COMBINE q1 q2) (COMBINE q3 q4), if arq then Some (rbj mod t) else None).

(** [for (n = 4; v[1] == 0; v++) if (--n == 1) ...]: the offset of [v] and [n];
    [n = 1] stands for the exit to the division by one digit. *)
Fixpoint skip_v (fuel : nat) (vs : digits) (v n : nat) : outcome (nat * nat) :=
  let? x := rd vs (v + 1) in
  if x =? 0 then
    match fuel with
    | O => Stop Diverge
    | S fuel' => if (n - 1 =? 1)%nat then Ret (v, 1%nat) else skip_v fuel' vs (v + 1) (n - 1)
    end
  else Ret (v, n).

(** [for (m = 4 - n; u[1] == 0; u++) m--;] *)
Fixpoint skip_u (fuel : nat) (us : digits) (u : nat) (m : Z) : outcome (nat * Z) :=
  let? x := rd us (u + 1) in
  if x =? 0 then
    match fuel with
    | O => Stop Diverge
    | S fuel' => skip_u fuel' us (u + 1) (m - 1)
    end
  else Ret (u, m).

(** [for (i = 4 - m; --i >= 0;) q[i] = 0;] *)
Fixpoint clear_q (i : nat) (qs : digits) : outcome digits :=
  match i with
  | O => Ret qs
  | S i' => let? qs := wr qs i' 0 in clear_q i' qs
  end.

(** [for (t = v[1]; t < B / 2; t <<= 1) d++;] *)
Fixpoint norm_shift (fuel : nat) (t d : Z) : outcome Z :=
  if t <? B / 2 then
    match fuel with
    | O => Stop Diverge
    | S fuel' => norm_shift fuel' (u32 (Z.shiftl t 1)) (d + 1)
    end
  else Ret d.

(** D3: the [while] loop; [big] when it is entered at [qhat_too_big]. *)
Fixpoint adjust (fuel : nat) (v1 v2 uj2 : Z) (big : bool) (qhat rhat : Z) : outcome Z :=
  if big || (COMBINE rhat uj2 <? u32 (v2 * qhat)) then
    match fuel with
    | O => Stop Diverge
    | S fuel' =>
        let qhat := u32 (qhat - 1) in
        let rhat := u32 (rhat + v1) in
        if B <=? rhat then Ret qhat else adjust fuel' v1 v2 uj2 false qhat rhat
    end
  else Ret qhat.

Definition estimate (v1 v2 uj0 uj1 uj2 : Z) : outcome Z :=
  if uj0 =? v1 then adjust 4 v1 v2 uj2 true B uj1
  else let nn := COMBINE uj0 uj1 in adjust 4 v1 v2 uj2 false (nn / v1) (nn mod v1).

(** D4: [i] digits of [u[j..]] and [v] are still to be done; the result is the
    array and the borrow. *)
Fixpoint mulsub (i : nat) (us vs : digits) (u v j : nat) (qhat t : Z) : outcome (digits * Z) :=
  match i with
  | O => Ret (us, t)
  | S i' =>
      let? x := rd us (u + i + j) in
      let? y := rd vs (v + i) in
      let t := u32 (u32 (x - u32 (y * qhat)) - t) in
      let? us := wr us (u + i + j) (LHALF t) in
      mulsub i' us vs u v j qhat (Z.land (u32 (B - HHALF t)) (B - 1))
  end.

(** D6 *)
Fixpoint addback (i : nat) (us vs : digits) (u v j : nat) (t : Z) : outcome (digits * Z) :=
  match i with
  | O => Ret (us, t)
  | S i' =>
      let? x := rd us (u + i + j) in
      let? y := rd vs (v + i) in
      let t := u32 (t + u32 (x + y)) in
      let? us := wr us (u + i + j) (LHALF t) in
      addback i' us vs u v j (HHALF t)
  end.

(** One round of the main loop, D3 to D6: the digit of the quotient. *)
Definition round (us vs : digits) (n u v j : nat) : outcome (digits * Z) :=
  let? v1 := rd vs (v + 1) in
  let? v2 := rd vs (v + 2) in
  let? uj0 := rd us (u + j) in
  let? uj1 := rd us (u + j + 1) in
  let? uj2 := rd us (u + j + 2) in
  let? qhat := estimate v1 v2 uj0 uj1 uj2 in
  let? (us, t) := mulsub n us vs u v j qhat 0 in
  let? x := rd us (u + j) in
  let t := u32 (x - t) in
  let? us := wr us (u + j) (LHALF t) in
  if HHALF t =? 0 then Ret (us, qhat)
  else
    let qhat := u32 (qhat - 1) in
    let? (us, t) := addback n us vs u v j 0 in
    let? x := rd us (u + j) in
    let? us := wr us (u + j) (LHALF (u32 (x + t))) in
    Ret (us, qhat).

(** D2 to D7: [k] rounds from round [j]. *)
Fixpoint rounds (k : nat) (us vs qs : digits) (n u v q j : nat) : outcome (digits * digits) :=
  match k with
  | O => Ret (us, qs)
  | S k' =>
      let? (us, qhat) := round us vs n u v j in
      let? qs := wr qs (q + j) qhat in
      rounds k' us vs qs n u v q (S j)
  end.

(** The remainder, [u[m+1..m+n]] shifted back: [i] from [m + n] down to [m]. *)
Fixpoint unshift (k : nat) (us : digits) (u m : nat) (d : Z) : outcome digits :=
  match k with
  | O => wr us (u + m) 0
  | S k' =>
      let? x := rd us (u + m + k) in
      let? y := rd us (u + m + k - 1) in
      let? us := wr us (u + m + k) (Z.lor (Z.shiftr x d) (LHALF (u32 (Z.shiftl y (HALF_BITS - d))))) in
      unshift k' us u m d
  end.

Definition remainder (us : digits) (n u m : nat) (d : Z) : outcome Z :=
  let? us := if d =? 0 then Ret us else unshift n us u m d in
  join_quad us.

(** The general case: the divisor has [n >= 2] digits, at [v[1..n]].  A negative
    [m] would make the first round store behind [qspace]. *)
Definition long_div (us vs : digits) (v n : nat) (arq : bool) : outcome (Z * option Z) :=
  let? (u, mz) := skip_u 4 us 0 (4 - Z.of_nat n) in
  if mz <? 0 then Stop Undef else
  let m := Z.to_nat mz in
  let? qs := clear_q (4 - m) (replicate 5 None) in
  let? v1 := rd vs (v + 1) in
  let? d := norm_shift 16 v1 0 in
  let? us := if 0 <? d then shl us u (m + n) d else Ret us in
  let? vs := if 0 <? d then shl vs (v + 1) (n - 1) d else Ret vs in
  let? (us, qs) := rounds (m + 1) us vs qs n u v (4 - m) 0 in
  let? r := if arq then (let? r := remainder us n u m d in Ret (Some r)) else Ret None in
  let? q := join_quad qs in
  Ret (q, r).

(** The quotient, and what is stored at [arq] when it is not null; [1 / zero] is
    undefined. *)
Definition __qdivrem (uq vq : Z) (arq : bool) : outcome (Z * option Z) :=
  if vq =? 0 then Stop Undef
  else if uq <? vq then Ret (0, if arq then Some uq else None)
  else
    let us := split_quad (Some 0) uq in
    let vs := split_quad None vq in
    let? (v, n) := skip_v 4 vs 0 4 in
    if (n =? 1)%nat then (let? t := rd vs (v + 2) in short_div us t arq)
    else long_div us vs v n arq.

(** ** The functions the compiler calls *)

Definition two64 : Z := 18446744073709551616.
Definition u64 (z : Z) : Z := z mod two64.
Definition s64 (z : Z) : Z := (z + 9223372036854775808) mod two64 - 9223372036854775808.

Definition __udivdi3 (a b : Z) : outcome Z := let? r := __qdivrem a b false in Ret r.1.

Definition __umoddi3 (a b : Z) : outcome Z :=
  let? r := __qdivrem a b true in
  match r.2 with Some x => Ret x | None => Stop Undef end.

Definition __divdi3 (a b : Z) : outcome Z :=
  let '(ua, neg) := if a <? 0 then (u64 (- u64 a), true) else (a, false) in
  let '(ub, neg) := if b <? 0 then (u64 (- u64 b), negb neg) else (b, neg) in
  let? r := __qdivrem ua ub false in
  Ret (s64 (if neg : bool then u64 (- r.1) else r.1)).

(** [while (current) { current >>= 1; ++result; y <<= 1; }] *)
Fixpoint log2_loop (fuel : nat) (current y result : Z) : outcome (Z * Z) :=
  if current =? 0 then Ret (y, result) else
  match fuel with
  | O => Stop Diverge
  | S fuel' => log2_loop fuel' (Z.shiftr current 1) (s32 (Z.shiftl y 1)) (result + 1)
  end.

(** The loop runs at most 31 times unless [x] is negative, when it never ends. *)
Definition log2 (x : Z) : outcome Z :=
  let? (y, result) := log2_loop 32 x 1 0 in
  Ret (if Z.shiftr y 1 =? x then result - 1 else result).

(** ** Small runs *)

Definition check_div (a b : Z) : bool :=
  match __qdivrem a b true with Ret (q, Some r) => (q =? a / b) && (r =? a mod b) | _ => false end.

Example small_divs : forallb (fun p => check_div p.1 p.2)
  [(7, 2); (5, 9); (18446744073709551615, 1); (18446744073709551615, 65535); (18446744073709551615, 65536);
   (18446744073709551615, 18446744073709551615); (18446744069414584320, 4294967297); (140737488355327, 2147483649);
   (9223372036854775807, 140737488355329); (18446462598732840960, 281470681808895);
   (140733193388032, 2147549183); (9223090561878065152, 140739635838975); (9223231299366420480, 140737488355329)] = true.
Proof. vm_compute. reflexivity. Qed.

Example small_logs : (log2 0, log2 1, log2 5, log2 8, log2 1073741823, log2 1073741824) =
  (Ret (-1), Ret 0, Ret 3, Ret 3, Ret 30, Ret 31).
Proof. vm_compute. reflexivity. Qed.

(** ** Words and halves *)

Lemma land_ones_mod x k : 0 <= k -> Z.land x (2 ^ k - 1) = x mod 2 ^ k.
Proof. intros. rewrite <- Z.land_ones by done. f_equal. rewrite Z.ones_equiv. lia. Qed.

Lemma LHALF_mod x : LHALF x = x mod B.
Proof. exact (land_ones_mod x 16 ltac:(lia)). Qed.

Lemma HHALF_div x : HHALF x = x / B.
Proof. exact (Z.shiftr_div_pow2 x 16 ltac:(lia)). Qed.

(** Bits that do not meet are added. *)
Lemma lor_add a b k : 0 <= k -> 0 <= b < 2 ^ k -> Z.lor (a * 2 ^ k) b = a * 2 ^ k + b.
Proof.
  intros Hk Hb. rewrite <- Z.lxor_lor, Z.add_nocarry_lxor; [done| |].
  all: rewrite <- Z.shiftl_mul_pow2 by done; apply Z.bits_inj'; intros i Hi; rewrite Z.land_spec, Z.bits_0;
    destruct (Z.ltb_spec i k) as [?|?]; [by rewrite Z.shiftl_spec_low|];
    apply andb_false_intro2; rewrite <- (Z.mod_small b (2 ^ k)) by done; by apply Z.mod_pow2_bits_high.
Qed.

Lemma lor_add_l a b k : 0 <= k -> 0 <= b < 2 ^ k -> Z.lor b (a * 2 ^ k) = a * 2 ^ k + b.
Proof. intros. rewrite Z.lor_comm. by apply lor_add. Qed.

Lemma COMBINE_eq a b : 0 <= a < B -> 0 <= b < B -> COMBINE a b = a * B + b.
Proof.
  unfold COMBINE, HALF_BITS, B. intros. rewrite Z.shiftl_mul_pow2 by lia. change (2 ^ 16) with 65536.
  rewrite u32_small by (unfold is_u32, two32; lia). exact (lor_add a b 16 ltac:(lia) ltac:(lia)).
Qed.

Lemma quad_eq h l : 0 <= l < two32 -> quad h l = h * two32 + l.
Proof. intros. unfold quad. rewrite Z.shiftl_mul_pow2 by lia. by apply (lor_add h l 32). Qed.

(** ** Arrays of digits *)

Definition dig (p : digits) (i : nat) : Z := default 0 (mjoin (p !! i)).

(** Cells [k], ..., [k + n - 1] hold digits. *)
Definition ok (p : digits) (k n : nat) : Prop :=
  forall i, (k <= i < k + n)%nat -> exists x, p !! i = Some (Some x) /\ 0 <= x < B.

(** The number they make up, the highest digit first. *)
Fixpoint num (p : digits) (k n : nat) : Z :=
  match n with O => 0 | S n' => num p k n' * B + dig p (k + n') end.

Definition Bp (n : nat) : Z := B ^ Z.of_nat n.

Lemma Bp_S n : Bp (S n) = B * Bp n.
Proof. unfold Bp. rewrite Nat2Z.inj_succ, Z.pow_succ_r by lia. done. Qed.

Lemma Bp_pos n : 0 < Bp n.
Proof. unfold Bp, B. apply Z.pow_pos_nonneg; lia. Qed.

Lemma Bp_add a b : Bp (a + b) = Bp a * Bp b.
Proof. unfold Bp. rewrite Nat2Z.inj_add, Z.pow_add_r by lia. done. Qed.

Lemma rd_ok p k n i : ok p k n -> (k <= i < k + n)%nat -> rd p i = Ret (dig p i) /\ 0 <= dig p i < B.
Proof. intros H Hi. destruct (H i Hi) as (x & E & Hx). unfold rd, dig. rewrite E. simpl. done. Qed.

Lemma wr_eq p i x : (i < length p)%nat -> wr p i x = Ret (<[i := Some x]> p).
Proof. intros H. unfold wr. by destruct (Nat.ltb_spec i (length p)); [|lia]. Qed.

Lemma dig_lookup p p' i : p' !! i = p !! i -> dig p' i = dig p i.
Proof. unfold dig. by intros ->. Qed.

Lemma dig_insert p i x : (i < length p)%nat -> dig (<[i := Some x]> p) i = x.
Proof. intros. unfold dig. by rewrite list_lookup_insert_eq. Qed.

Lemma ok_length p k n : ok p k (S n) -> (k + n < length p)%nat.
Proof. intros H. destruct (H (k + n)%nat ltac:(lia)) as (x & E & _). by apply lookup_lt_Some in E. Qed.

Lemma ok_sub p k n k' n' : ok p k n -> (k <= k')%nat -> (k' + n' <= k + n)%nat -> ok p k' n'.
Proof. intros H ? ? i Hi. apply H. lia. Qed.

Lemma ok_same p p' k n : ok p k n -> (forall i, (k <= i < k + n)%nat -> p' !! i = p !! i) -> ok p' k n.
Proof. intros H E i Hi. rewrite E by done. by apply H. Qed.

Lemma ok_S p k n : ok p k n -> (exists x, p !! (k + n)%nat = Some (Some x) /\ 0 <= x < B) -> ok p k (S n).
Proof. intros H Hx i Hi. destruct (decide (i = (k + n)%nat)) as [->|]; [done|]. apply H. lia. Qed.

Lemma ok_cons p k n : (exists x, p !! k = Some (Some x) /\ 0 <= x < B) -> ok p (S k) n -> ok p k (S n).
Proof. intros Hx H i Hi. destruct (decide (i = k)) as [->|]; [done|]. apply H. lia. Qed.

Lemma num_same p p' k n : (forall i, (k <= i < k + n)%nat -> p' !! i = p !! i) -> num p' k n = num p k n.
Proof.
  induction n as [|n IH]; intros H; [done|]. simpl. rewrite IH by (intros; apply H; lia). f_equal. apply dig_lookup, H. lia.
Qed.

Lemma num_split p k a b : num p k (a + b) = num p k a * Bp b + num p (k + a) b.
Proof.
  induction b as [|b IH]; [rewrite Nat.add_0_r; unfold Bp; simpl; lia|].
  rewrite Nat.add_succ_r. simpl. rewrite IH, Bp_S, Nat.add_assoc. lia.
Qed.

Lemma num_cons p k n : num p k (S n) = dig p k * Bp n + num p (S k) n.
Proof.
  change (S n) with (1 + n)%nat. rewrite num_split. simpl. rewrite Nat.add_0_r, Nat.add_1_r. lia.
Qed.

Lemma num_range p k n : ok p k n -> 0 <= num p k n < Bp n.
Proof.
  induction n as [|n IH]; intros H; [unfold Bp; simpl; lia|]. simpl.
  pose proof (IH (ok_sub _ _ _ k n H ltac:(lia) ltac:(lia))) as Hn.
  destruct (rd_ok p k (S n) (k + n)%nat H ltac:(lia)) as [_ Hd]. rewrite Bp_S. nia.
Qed.

Lemma num_zero p k n : (forall i, (k <= i < k + n)%nat -> dig p i = 0) -> num p k n = 0.
Proof. induction n as [|n IH]; intros H; [done|]. simpl. rewrite IH, H by (intros; try apply H; lia). done. Qed.

(** Storing a digit. *)
Lemma insert_has p i x : (i < length p)%nat -> 0 <= x < B -> exists y, <[i := Some x]> p !! i = Some (Some y) /\ 0 <= y < B.
Proof. intros. exists x. by rewrite list_lookup_insert_eq. Qed.

Ltac cell := rewrite list_lookup_insert_ne by lia; try done.

(** ** D4 and D6 *)

(** One digit of the multiplication and subtraction. *)
Lemma sub_digit x y qhat t : 0 <= x < B -> 0 <= y < B -> 0 <= qhat < B -> 0 <= t < B ->
  let s := u32 (u32 (x - u32 (y * qhat)) - t) in
  let t' := Z.land (u32 (B - HHALF s)) (B - 1) in
  0 <= LHALF s < B /\ 0 <= t' < B /\ LHALF s - t' * B = x - y * qhat - t.
Proof.
  intros Hx Hy Hq Ht s t'. assert (0 <= y * qhat <= (B - 1) * (B - 1)) as Hw by (unfold B in *; nia).
  subst s t'. revert Hw. generalize (y * qhat). intros w Hw. change (Z.land ?a (B - 1)) with (LHALF a).
  rewrite !LHALF_mod, HHALF_div. unfold u32, two32, B in *. dlia.
Qed.

(** What a loop over [us[k..k+n-1]] leaves alone. *)
Definition only (k n : nat) (us us' : digits) : Prop :=
  length us' = length us /\ forall i, ~ (k <= i < k + n)%nat -> us' !! i = us !! i.

Lemma only_trans k n k1 n1 us us1 us2 :
  only k1 n1 us us1 -> only k n us1 us2 -> (k1 >= k)%nat -> (k1 + n1 <= k + n)%nat -> only k n us us2.
Proof. intros [L1 F1] [L2 F2] ? ?. split; [congruence|]. intros i Hi. rewrite F2 by done. apply F1. lia. Qed.

Lemma only_wider k n k1 n1 us us1 : only k1 n1 us us1 -> (k1 >= k)%nat -> (k1 + n1 <= k + n)%nat -> only k n us us1.
Proof. intros [L1 F1] ? ?. split; [done|]. intros i Hi. apply F1. lia. Qed.

Lemma only_insert us i x : only i 1 us (<[i := x]> us).
Proof. split; [by rewrite length_insert|]. intros i' Hi. apply list_lookup_insert_ne. lia. Qed.

(** A loop that stores digit [n] of [us[k..k+n]] and then works on the lower indices. *)
Lemma only_snoc k n us us' x : only k n (<[(k + n)%nat := Some x]> us) us' -> (k + n < length us)%nat -> 0 <= x < B ->
  only k (S n) us us' /\ dig us' (k + n)%nat = x /\ (ok us' k n -> ok us' k (S n)).
Proof.
  intros [L F] Hl Hx. assert (us' !! (k + n)%nat = Some (Some x)) as E.
  { rewrite F by lia. by rewrite list_lookup_insert_eq. }
  split; [|split].
  - split; [by rewrite L, length_insert|]. intros i Hi. rewrite F by lia. cell.
  - unfold dig. by rewrite E.
  - intros H. apply ok_S; [done|]. by exists x.
Qed.

Lemma mulsub_ok n us vs u v j qhat t :
  ok us (u + j + 1) n -> ok vs (v + 1) n -> 0 <= qhat < B -> 0 <= t < B ->
  exists us' t', mulsub n us vs u v j qhat t = Ret (us', t') /\ only (u + j + 1) n us us' /\ ok us' (u + j + 1) n /\
    0 <= t' < B /\ num us' (u + j + 1) n - t' * Bp n = num us (u + j + 1) n - qhat * num vs (v + 1) n - t.
Proof.
  revert us t. induction n as [|n IH]; intros us t Hu Hv Hq Ht.
  { exists us, t. split_and!; try done; try lia. unfold Bp. simpl. lia. }
  cbn [mulsub]. replace (u + S n + j)%nat with (u + j + 1 + n)%nat by lia. replace (v + S n)%nat with (v + 1 + n)%nat by lia.
  destruct (rd_ok us _ _ (u + j + 1 + n)%nat Hu ltac:(lia)) as [-> Hx]. destruct (rd_ok vs _ _ (v + 1 + n)%nat Hv ltac:(lia)) as [-> Hy].
  cbn [obind]. pose proof (ok_length _ _ _ Hu) as Hl. rewrite wr_eq by done. cbn [obind].
  destruct (sub_digit _ _ _ _ Hx Hy Hq Ht) as (Hs & Ht' & Es). revert Hs Ht' Es.
  set (s := u32 (u32 (_ - _) - t)). set (t1 := Z.land _ _). intros Hs Ht' Es.
  destruct (IH (<[(u + j + 1 + n)%nat := Some (LHALF s)]> us) t1) as (us' & t' & E & Fr & Ok' & Hb & En); [|by eapply ok_sub; [exact Hv|lia..]|done|done|].
  { eapply ok_same; [by eapply ok_sub; [exact Hu|lia..]|]. intros. cell. }
  exists us', t'. destruct (only_snoc _ _ _ _ _ Fr Hl Hs) as (F & Ed & Hok). split_and!; try done; [by apply Hok|lia|lia|].
  simpl. rewrite Ed, Bp_S. rewrite (num_same us (<[_ := _]> us)) in En by (intros; cell). nia.
Qed.

Lemma add_digit x y t : 0 <= x < B -> 0 <= y < B -> 0 <= t <= 1 ->
  let s := u32 (t + u32 (x + y)) in
  0 <= LHALF s < B /\ 0 <= HHALF s <= 1 /\ LHALF s + HHALF s * B = x + y + t.
Proof. intros Hx Hy Ht s. subst s. rewrite LHALF_mod, HHALF_div. unfold u32, two32, B in *. dlia. Qed.

Lemma addback_ok n us vs u v j t : ok us (u + j + 1) n -> ok vs (v + 1) n -> 0 <= t <= 1 ->
  exists us' t', addback n us vs u v j t = Ret (us', t') /\ only (u + j + 1) n us us' /\ ok us' (u + j + 1) n /\
    0 <= t' <= 1 /\ num us' (u + j + 1) n + t' * Bp n = num us (u + j + 1) n + num vs (v + 1) n + t.
Proof.
  revert us t. induction n as [|n IH]; intros us t Hu Hv Ht.
  { exists us, t. split_and!; try done; try lia. unfold Bp. simpl. lia. }
  cbn [addback]. replace (u + S n + j)%nat with (u + j + 1 + n)%nat by lia. replace (v + S n)%nat with (v + 1 + n)%nat by lia.
  destruct (rd_ok us _ _ (u + j + 1 + n)%nat Hu ltac:(lia)) as [-> Hx]. destruct (rd_ok vs _ _ (v + 1 + n)%nat Hv ltac:(lia)) as [-> Hy].
  cbn [obind]. pose proof (ok_length _ _ _ Hu) as Hl. rewrite wr_eq by done. cbn [obind].
  destruct (add_digit _ _ _ Hx Hy Ht) as (Hs & Ht' & Es). revert Hs Ht' Es. set (s := u32 (t + _)). intros Hs Ht' Es.
  destruct (IH (<[(u + j + 1 + n)%nat := Some (LHALF s)]> us) (HHALF s)) as (us' & t' & E & Fr & Ok' & Hb & En); [|by eapply ok_sub; [exact Hv|lia..]|done|].
  { eapply ok_same; [by eapply ok_sub; [exact Hu|lia..]|]. intros. cell. }
  exists us', t'. destruct (only_snoc _ _ _ _ _ Fr Hl Hs) as (F & Ed & Hok). split_and!; try done; [by apply Hok|lia|lia|].
  simpl. rewrite Ed, Bp_S. rewrite (num_same us (<[_ := _]> us)) in En by (intros; cell). nia.
Qed.

(** ** D3 *)

Section estimate.
(** [x] is the part of the dividend that a round divides by [V]; [P] is the
    weight of the digits the estimate does not look at. *)
Variables (v1 v2 uj0 uj1 uj2 P V x Vl xl : Z).
Hypothesis (Hv1 : B / 2 <= v1 < B) (Hv2 : 0 <= v2 < B).
Hypothesis (Hu0 : 0 <= uj0 <= v1) (Hu1 : 0 <= uj1 < B) (Hu2 : 0 <= uj2 < B).
Hypothesis (HP : 0 < P) (HVl : 0 <= Vl < P) (Hxl : 0 <= xl < P).
Hypothesis (EV : V = (v1 * B + v2) * P + Vl) (Ex : x = ((uj0 * B + uj1) * B + uj2) * P + xl).
Hypothesis Hx : x < V * B.

Lemma v1_low : 32768 <= v1.
Proof. exact (proj1 Hv1). Qed.

Lemma V_low : B * P <= V.
Proof. pose proof v1_low. unfold B in *. nia. Qed.

Lemma V_pos : 0 < V.
Proof. pose proof V_low. unfold B in *. lia. Qed.

Lemma q_small : x / V < B.
Proof. apply Z.div_lt_upper_bound; [apply V_pos|lia]. Qed.

Lemma estimate_too_big qhat rhat : 0 <= qhat -> qhat * v1 + rhat = uj0 * B + uj1 -> rhat * B + uj2 < v2 * qhat ->
  x / V < qhat.
Proof.
  intros Hq E Hlt. apply Z.div_lt_upper_bound; [apply V_pos|].
  assert ((uj0 * B + uj1) * B + uj2 + 1 <= qhat * (v1 * B + v2)) as H1 by (rewrite <- E; lia).
  assert (((uj0 * B + uj1) * B + uj2 + 1) * P <= qhat * (v1 * B + v2) * P) as H2 by nia.
  assert (0 <= qhat * Vl) by nia. rewrite EV, Ex. lia.
Qed.

Lemma estimate_close qhat rhat : 0 <= qhat < B -> qhat * v1 + rhat = uj0 * B + uj1 -> v2 * qhat <= rhat * B + uj2 ->
  qhat <= x / V + 1.
Proof.
  intros Hq E Hle. cut (qhat - 1 <= x / V); [lia|]. apply Z.div_le_lower_bound; [apply V_pos|].
  assert (qhat * (v1 * B + v2) <= (uj0 * B + uj1) * B + uj2) as H1 by (rewrite <- E; lia).
  assert (qhat * (v1 * B + v2) * P <= ((uj0 * B + uj1) * B + uj2) * P) as H2 by nia.
  assert (qhat * Vl <= B * P) as H3 by nia. pose proof V_low. rewrite Ex. rewrite EV in *. nia.
Qed.

Lemma adjust_ok fuel big qhat rhat : 0 <= qhat <= B -> 0 <= rhat < B -> B <= rhat + Z.of_nat fuel * v1 ->
  qhat * v1 + rhat = uj0 * B + uj1 -> x / V <= qhat -> (big = true -> x / V < qhat) -> (big = false -> qhat < B) -> 0 <= x / V ->
  exists q, adjust fuel v1 v2 uj2 big qhat rhat = Ret q /\ 0 <= q < B /\ x / V <= q <= x / V + 1.
Proof.
  revert big qhat rhat. induction fuel as [|fuel IH]; intros big qhat rhat Hq Hr Hf E Hge Hbig Hsm H0; [lia|].
  cbn [adjust]. rewrite COMBINE_eq by done. rewrite (u32_small (v2 * qhat)) by (unfold is_u32, two32, B in *; nia).
  destruct (big || (rhat * B + uj2 <? v2 * qhat)) eqn:Et.
  - assert (x / V < qhat) as Hlt.
    { apply orb_true_iff in Et as [->|Et%Z.ltb_lt]; [by apply Hbig|]. eapply estimate_too_big; [lia|done|done]. }
    pose proof v1_low. rewrite (u32_small (qhat - 1)), (u32_small (rhat + v1)) by (unfold is_u32, two32, B in *; lia).
    destruct (Z.leb_spec B (rhat + v1)) as [Hbr|Hbr].
    + exists (qhat - 1). split; [done|]. split; [unfold B in *; lia|]. split; [lia|].
      apply (estimate_close (qhat - 1) (rhat + v1)); [unfold B in *; lia|lia|]. unfold B in *. nia.
    + apply IH; try lia; try done.
  - apply orb_false_iff in Et as [-> Et%Z.ltb_ge]. exists qhat. split; [done|]. specialize (Hsm eq_refl).
    split; [lia|]. split; [lia|]. apply (estimate_close qhat rhat); [lia|done|done].
Qed.

Lemma estimate_ok : exists q, estimate v1 v2 uj0 uj1 uj2 = Ret q /\ 0 <= q < B /\ x / V <= q <= x / V + 1.
Proof.
  pose proof v1_low. pose proof q_small.
  assert (0 <= x / V). { apply Z.div_pos; [|apply V_pos]. unfold B in *. nia. }
  unfold estimate. destruct (Z.eqb_spec uj0 v1) as [E|Hne].
  - apply adjust_ok; try done; unfold B in *; lia.
  - rewrite COMBINE_eq by lia. set (nn := uj0 * B + uj1).
    pose proof (Z.div_mod nn v1 ltac:(lia)) as Edm. pose proof (Z.mod_pos_bound nn v1 ltac:(lia)) as Hm.
    assert (0 <= nn / v1 < B) as Hq.
    { split; [apply Z.div_pos; unfold nn, B in *; lia|]. apply Z.div_lt_upper_bound; [lia|]. unfold nn, B in *. nia. }
    apply adjust_ok; try done; try (unfold B in *; lia).
    (* the quotient by the first digit alone is not smaller *)
    apply Z.lt_succ_r, Z.div_lt_upper_bound; [apply V_pos|]. rewrite EV, Ex.
    assert (nn + 1 <= v1 * Z.succ (nn / v1)) as J1 by lia.
    assert ((nn + 1) * (B * P) <= v1 * Z.succ (nn / v1) * (B * P)) as J2 by (unfold B in *; nia).
    unfold nn in *. unfold B in *. nia.
Qed.
End estimate.

(** ** One round *)

Lemma num_front3 p k n : num p k (S (S n)) = (dig p k * B + dig p (S k)) * Bp n + num p (S (S k)) n.
Proof. rewrite !num_cons, Bp_S. lia. Qed.

Section round.
Variables (us vs : digits) (n' u v j : nat).
Local Abbreviation n := (S (S n')).
Local Abbreviation V := (num vs (v + 1) n).
Local Abbreviation x := (num us (u + j) (S n)).
Hypothesis (Hv : ok vs (v + 1) n) (Hu : ok us (u + j) (S n)).
Hypothesis (Hnorm : B / 2 <= dig vs (v + 1)) (Htop : num us (u + j) n < V).

Lemma round_estimate : exists qhat,
  estimate (dig vs (v + 1)) (dig vs (v + 2)) (dig us (u + j)) (dig us (u + j + 1)) (dig us (u + j + 2)) = Ret qhat /\
  0 <= qhat < B /\ x / V <= qhat <= x / V + 1.
Proof.
  destruct (rd_ok _ _ _ (v + 1) Hv ltac:(lia)) as [_ D1]. destruct (rd_ok _ _ _ (v + 2) Hv ltac:(lia)) as [_ D2].
  destruct (rd_ok _ _ _ (u + j) Hu ltac:(lia)) as [_ U0]. destruct (rd_ok _ _ _ (u + j + 1) Hu ltac:(lia)) as [_ U1].
  destruct (rd_ok _ _ _ (u + j + 2) Hu ltac:(lia)) as [_ U2]. destruct (rd_ok _ _ _ (u + j + n)%nat Hu ltac:(lia)) as [_ Ul].
  pose proof (num_range vs (S (S (v + 1))) n' (ok_sub _ _ _ (S (S (v + 1))) n' Hv ltac:(lia) ltac:(lia))) as Rv.
  pose proof (num_range us (S (S (S (u + j)))) n' (ok_sub _ _ _ (S (S (S (u + j)))) n' Hu ltac:(lia) ltac:(lia))) as Ru.
  pose proof (num_range us (S (u + j)) (S n') (ok_sub _ _ _ (S (u + j)) (S n') Hu ltac:(lia) ltac:(lia))) as Ru'.
  pose proof (num_range vs (S (v + 1)) (S n') (ok_sub _ _ _ (S (v + 1)) (S n') Hv ltac:(lia) ltac:(lia))) as Rv'.
  pose proof (Bp_pos n') as HP. pose proof (Bp_pos (S n')) as HP'.
  apply (estimate_ok _ _ _ _ _ (Bp n') V x (num vs (S (S (v + 1))) n') (num us (S (S (S (u + j)))) n')); try done; [lia|..].
  - split; [lia|]. rewrite (num_cons us), (num_cons vs) in Htop. nia.
  - rewrite num_front3. by replace (S (v + 1))%nat with (v + 2)%nat by lia.
  - rewrite num_cons, num_front3, !Bp_S. replace (S (u + j)) with (u + j + 1)%nat by lia.
    replace (S (u + j + 1)) with (u + j + 2)%nat by lia. lia.
  - change (num us (u + j) (S n)) with (num us (u + j) n * B + dig us (u + j + n)). unfold B in *. lia.
Qed.

(** The subtraction leaves [x - qhat * V]: the top digit is used up, or there is
    a borrow and [qhat] is one too large. *)
Lemma round_sub a N t qhat : 0 <= a < B -> 0 <= t < B -> 0 <= N < Bp n -> x / V <= qhat <= x / V + 1 -> 0 < V < Bp n ->
  N - t * Bp n = num us (S (u + j)) n - qhat * V -> a = dig us (u + j) ->
  (a = t /\ qhat = x / V /\ N = x mod V) \/ (a - t = -1 /\ qhat - 1 = x / V /\ N + V = x mod V + Bp n).
Proof.
  intros Ha Ht HN Hq HV E ->. pose proof (num_cons us (u + j) n) as Ex.
  pose proof (Z.div_mod x V ltac:(lia)) as Edm. pose proof (Z.mod_pos_bound x V ltac:(lia)) as Hm.
  destruct (decide (qhat = x / V)) as [Eq|Hne].
  - left. assert (N + (dig us (u + j) - t) * Bp n = x mod V) as Er by (rewrite Eq in E; lia).
    assert (dig us (u + j) - t = 0) as Ed by nia. rewrite Ed in Er. split_and!; lia.
  - right. assert (qhat = x / V + 1) as Eq by lia. assert (N + (dig us (u + j) - t) * Bp n = x mod V - V) as Er by (rewrite Eq in E; lia).
    assert (dig us (u + j) - t = -1) as Ed by nia. rewrite Ed in Er. split_and!; lia.
Qed.

(** Storing the top digit of [us[u+j..]]. *)
Lemma set_top us1 y : only (u + j) (S n) us us1 -> ok us1 (u + j + 1) n -> 0 <= y < B ->
  let us2 := <[(u + j)%nat := Some y]> us1 in
  wr us1 (u + j) y = Ret us2 /\ only (u + j) (S n) us us2 /\ ok us2 (u + j) (S n) /\ dig us2 (u + j) = y /\
  ok us2 (u + j + 1) n /\ num us2 (u + j + 1) n = num us1 (u + j + 1) n.
Proof.
  intros [L F] Ok Hy us2. pose proof (ok_length _ _ _ Hu) as Hl.
  assert (ok us2 (u + j + 1) n) as Ok2 by (eapply ok_same; [exact Ok|]; intros; unfold us2; cell).
  split; [rewrite wr_eq; [done|lia]|]. split; [split; [by unfold us2; rewrite length_insert|]|].
  { intros i Hi. unfold us2. cell. apply F. lia. }
  split; [apply ok_cons; [apply insert_has; [lia|done]|by rewrite <- Nat.add_1_r]|].
  split; [apply dig_insert; lia|]. split; [done|]. apply num_same. intros. unfold us2. cell.
Qed.

(** The digit of the quotient; the remainder stands in the place of the dividend. *)
Lemma round_ok : exists us', round us vs n u v j = Ret (us', x / V) /\ only (u + j) (S n) us us' /\ ok us' (u + j) (S n) /\
  dig us' (u + j) = 0 /\ num us' (S (u + j)) n = x mod V /\ 0 <= x / V < B /\ 0 < V.
Proof.
  destruct round_estimate as (qhat & Eq & Hq & Hest).
  pose proof (num_range _ _ _ Hv) as HVB. pose proof (num_range us (u + j) n (ok_sub _ _ _ (u + j) n Hu ltac:(lia) ltac:(lia))) as Hx0.
  assert (0 < V) as HV by lia. assert (0 <= x / V) as Hq0 by (apply Z.div_pos; [apply (num_range _ _ _ Hu)|done]).
  destruct (mulsub_ok n us vs u v j qhat 0) as (us1 & t1 & E1 & Fr1 & Ok1 & Ht1 & En1); [by eapply ok_sub; [exact Hu|lia..]|done..|].
  destruct (rd_ok _ _ _ (u + j)%nat Hu ltac:(lia)) as [R0 D0].
  assert (us1 !! (u + j)%nat = us !! (u + j)%nat) as Esame by (apply Fr1; lia).
  assert (only (u + j) (S n) us us1) as Fr1' by (eapply only_wider; [exact Fr1|lia..]).
  unfold round. rewrite (proj1 (rd_ok _ _ _ (v + 1)%nat Hv ltac:(lia))), (proj1 (rd_ok _ _ _ (v + 2)%nat Hv ltac:(lia))). cbn [obind].
  rewrite R0, (proj1 (rd_ok _ _ _ (u + j + 1)%nat Hu ltac:(lia))), (proj1 (rd_ok _ _ _ (u + j + 2)%nat Hu ltac:(lia))). cbn [obind].
  rewrite Eq. cbn [obind]. rewrite E1. cbn [obind]. replace (rd us1 (u + j)) with (Ret (dig us (u + j)));
    [|unfold rd, dig; rewrite Esame; destruct (Hu (u + j)%nat ltac:(lia)) as (? & -> & _); done]. cbn [obind].
  pose proof (num_range _ _ _ Ok1) as HN. replace (u + j + 1)%nat with (S (u + j)) in En1, HN by lia. rewrite Z.sub_0_r in En1.
  destruct (round_sub (dig us (u + j)) _ t1 qhat D0 Ht1 HN Hest ltac:(lia) En1 eq_refl) as [(Ea & Eqh & EN)|(Ea & Eqh & EN)].
  - rewrite Ea, Z.sub_diag. change (LHALF (u32 0)) with 0. change (HHALF (u32 0)) with 0.
    destruct (set_top us1 0 Fr1' Ok1) as (W & Fr & Ok & Ed & _ & En); [unfold B; lia|]. rewrite W. cbn [obind Z.eqb]. rewrite Eqh.
    eexists. split; [reflexivity|]. replace (u + j + 1)%nat with (S (u + j)) in En by lia. split_and!; try done; try lia; apply Fr.
  - rewrite Ea. change (LHALF (u32 (-1))) with (B - 1). change (HHALF (u32 (-1)) =? 0) with false. cbv beta iota zeta.
    destruct (set_top us1 (B - 1) Fr1' Ok1) as (W & Fr & Ok & Ed & Ok2 & En); [unfold B; lia|]. rewrite W. cbn [obind].
    destruct (addback_ok n (<[(u + j)%nat := Some (B - 1)]> us1) vs u v j 0 Ok2 Hv ltac:(lia)) as (us3 & t3 & E3 & Fr3 & Ok3 & Ht3 & En3).
    assert (only (u + j) (S n) us us3) as Fr3' by (eapply only_trans; [exact Fr|eapply only_wider; [exact Fr3|lia..]|lia..]).
    assert (rd us3 (u + j) = Ret (B - 1)) as R3.
    { destruct Fr3 as [_ F3]. unfold rd. rewrite F3 by lia. rewrite list_lookup_insert_eq; [done|].
      pose proof (ok_length _ _ _ Hu). rewrite (proj1 Fr1). lia. }
    rewrite E3. cbn [obind]. rewrite R3. cbn [obind]. rewrite En in En3.
    pose proof (num_range _ _ _ Ok3) as HN3. replace (u + j + 1)%nat with (S (u + j)) in En3, HN3 by lia.
    pose proof (Z.mod_pos_bound x V HV) as Hm. assert (t3 = 1) as -> by nia. change (LHALF (u32 (B - 1 + 1))) with 0.
    destruct (set_top us3 0 Fr3' Ok3) as (W4 & Fr4 & Ok4 & Ed4 & _ & En4); [unfold B; lia|]. rewrite W4. cbn [obind].
    rewrite u32_small by (unfold is_u32, two32, B in *; lia). rewrite Eqh.
    eexists. split; [reflexivity|]. replace (u + j + 1)%nat with (S (u + j)) in En4 by lia. split_and!; try done; try lia; apply Fr4.
Qed.
End round.

(** ** The main loop *)

Lemma ok_join p p' k a b : ok p' k a -> ok p k (a + b) -> (forall i, (k + a <= i)%nat -> p' !! i = p !! i) -> ok p' k (a + b).
Proof.
  intros Ha Hb E i Hi. destruct (decide (i < k + a)%nat); [apply Ha; lia|]. rewrite E by lia. by apply Hb.
Qed.

Lemma rounds_ok k us vs qs n' u v q j : let n := S (S n') in let V := num vs (v + 1) n in let X := num us (u + j) (n + k) in
  ok vs (v + 1) n -> B / 2 <= dig vs (v + 1) -> ok us (u + j) (n + k) -> num us (u + j) n < V -> (q + j + k <= length qs)%nat ->
  exists us' qs', rounds k us vs qs n u v q j = Ret (us', qs') /\ only (u + j) (n + k) us us' /\ ok us' (u + j) (n + k) /\
    num us' (u + j) (n + k) = X mod V /\ only (q + j) k qs qs' /\ ok qs' (q + j) k /\ num qs' (q + j) k = X / V.
Proof.
  revert us qs j. induction k as [|k IH]; intros us qs j n V X Hv Hnorm Hu Htop Hl.
  { exists us, qs. unfold X in *. rewrite Nat.add_0_r in *. pose proof (num_range _ _ _ Hu). split_and!; try done.
    - symmetry. apply Z.mod_small. split; [lia|done].
    - intros i Hi. lia.
    - symmetry. apply Z.div_small. split; [lia|done]. }
  destruct (round_ok us vs n' u v j) as (us1 & E1 & [L1 F1] & Ok1 & D1 & N1 & Hq & HV);
    [done|by eapply ok_sub; [exact Hu|lia..]|done..|].
  fold n in E1, N1, HV, Hq, Ok1, F1. fold V in E1, N1, HV, Hq. revert E1 N1 Hq. set (x := num us (u + j) (S n)). intros E1 N1 Hq.
  cbn [rounds]. rewrite E1. cbn [obind]. rewrite wr_eq by lia. cbn [obind].
  assert (ok us1 (S (u + j)) (n + k)) as Ok1'.
  { intros i Hi. destruct (decide (i < u + j + S n)%nat); [apply Ok1; lia|]. rewrite F1 by lia. apply Hu. lia. }
  pose proof (Z.mod_pos_bound x V HV) as Hm. rewrite <- N1 in Hm.
  specialize (IH us1 (<[(q + j)%nat := Some (x / V)]> qs) (S j)). cbv zeta in IH. fold n in IH. fold V in IH.
  rewrite (Nat.add_succ_r u j), (Nat.add_succ_r q j), length_insert in IH.
  destruct (IH Hv Hnorm Ok1' ltac:(apply Hm) ltac:(lia)) as (us' & qs' & E' & [Lu Fu] & Oku & Nu & [Lq Fq] & Okq & Nq).
  rewrite length_insert in Lq. clear IH. unfold only. rewrite (Nat.add_succ_r n k).
  assert (X = V * (x / V * Bp k) + num us1 (S (u + j)) (n + k)) as EX.
  { unfold X. replace (n + S k)%nat with (S n + k)%nat by lia. rewrite num_split, (num_split us1), N1. fold x.
    rewrite (num_same us us1) by (intros; apply F1; lia). replace (S (u + j) + n)%nat with (u + j + S n)%nat by lia.
    pose proof (Z.div_mod x V ltac:(lia)) as Edm. rewrite Edm at 1. lia. }
  exists us', qs'. split; [exact E'|]. rewrite EX, Z.mul_comm, Z.add_comm, Z.mod_add, Z.div_add by lia.
  assert (us' !! (u + j)%nat = us1 !! (u + j)%nat) as Eu0 by (apply Fu; lia).
  assert (qs' !! (q + j)%nat = Some (Some (x / V))) as Eq0 by (rewrite Fq by lia; apply list_lookup_insert_eq; lia).
  split_and!; [congruence| | | |congruence| | |].
  - intros i Hi. rewrite Fu by lia. apply F1. lia.
  - apply ok_cons; [|done]. rewrite Eu0. apply Ok1. lia.
  - rewrite num_cons, (dig_lookup us1 us' _ Eu0), D1. exact Nu.
  - intros i Hi. rewrite Fq by lia. cell.
  - apply ok_cons; [by exists (x / V)|done].
  - rewrite num_cons, Nq. unfold dig. rewrite Eq0. simpl. lia.
Qed.

(** ** Shifting *)

Lemma pow_halves d : 0 <= d <= 16 -> 2 ^ (16 - d) * 2 ^ d = B /\ 0 < 2 ^ d /\ 0 < 2 ^ (16 - d).
Proof.
  intros. split; [|split; apply Z.pow_pos_nonneg; lia]. rewrite <- Z.pow_add_r by lia. by replace (16 - d + d) with 16 by lia.
Qed.

(** The part of a digit that stays and the part that goes to the left. *)
Lemma shl_low x d : 0 <= x < B -> 0 <= d <= 16 ->
  LHALF (u32 (Z.shiftl x d)) = (x mod 2 ^ (16 - d)) * 2 ^ d /\
  x * 2 ^ d = (x mod 2 ^ (16 - d)) * 2 ^ d + x / 2 ^ (16 - d) * B /\
  0 <= (x mod 2 ^ (16 - d)) * 2 ^ d <= B - 2 ^ d.
Proof.
  intros Hx Hd. destruct (pow_halves d Hd) as (Ep & He & Hc). revert Ep He Hc. generalize (2 ^ (16 - d)) as c. intros c Ep He Hc.
  rewrite LHALF_mod, Z.shiftl_mul_pow2 by lia. revert Ep He. generalize (2 ^ d) as e. intros e Ep He.
  pose proof (Z.div_mod x c ltac:(lia)) as Edm. pose proof (Z.mod_pos_bound x c Hc) as Hm.
  rewrite u32_small by (unfold is_u32, two32, B in *; nia).
  assert (x * e = x mod c * e + x / c * B) as E by (rewrite <- Ep; rewrite Edm at 1; ring).
  assert (0 <= x mod c * e <= B - e) as R by nia. split; [|done].
  rewrite E, Z.mod_add by (unfold B; lia). apply Z.mod_small. lia.
Qed.

Lemma shl_digit x y d : 0 <= x < B -> 0 <= y < B -> 0 <= d <= 16 ->
  let z := Z.lor (LHALF (u32 (Z.shiftl x d))) (Z.shiftr y (HALF_BITS - d)) in
  0 <= z < B /\ z = (x mod 2 ^ (16 - d)) * 2 ^ d + y / 2 ^ (16 - d).
Proof.
  intros Hx Hy Hd z. destruct (pow_halves d Hd) as (Ep & He & Hc). destruct (shl_low x d Hx Hd) as (El & _ & R).
  assert (0 <= y / 2 ^ (16 - d) < 2 ^ d) as Hy'.
  { split; [apply Z.div_pos; lia|]. apply Z.div_lt_upper_bound; [done|]. rewrite Ep. lia. }
  assert (z = (x mod 2 ^ (16 - d)) * 2 ^ d + y / 2 ^ (16 - d)) as E.
  { unfold z, HALF_BITS. rewrite El, Z.shiftr_div_pow2 by lia. apply lor_add; [lia|done]. }
  split; [lia|done].
Qed.

Lemma shl_ok len p k d : ok p k (S len) -> 0 <= d <= 16 ->
  exists p', shl p k len d = Ret p' /\ only k (S len) p p' /\ ok p' k (S len) /\
    num p k (S len) * 2 ^ d = num p' k (S len) + dig p k / 2 ^ (16 - d) * Bp (S len).
Proof.
  intros Hp Hd. revert p k Hp. induction len as [|len IH]; intros p k Hp; pose proof (ok_length _ _ _ Hp) as Hl;
    destruct (rd_ok _ _ _ k Hp ltac:(lia)) as [R0 D0]; cbn [shl]; rewrite R0; cbn [obind];
    destruct (shl_low _ d D0 Hd) as (El & Ex & Rx).
  - rewrite wr_eq by lia. pose proof (pow_halves d Hd). eexists. split; [reflexivity|]. split; [apply only_insert|]. split.
    { apply ok_cons; [apply insert_has; [lia|rewrite El; lia]|]. intros i Hi. lia. }
    cbn [num]. rewrite Nat.add_0_r, dig_insert by lia. rewrite El, Bp_S. change (Bp 0) with 1. lia.
  - destruct (rd_ok _ _ _ (S k) Hp ltac:(lia)) as [R1 D1]. rewrite R1. cbn [obind]. rewrite wr_eq by lia. cbn [obind].
    destruct (shl_digit _ _ d D0 D1 Hd) as [Rz Ez]. revert Rz Ez. set (z := Z.lor _ _). intros Rz Ez.
    assert (forall i, i <> k -> <[k := Some z]> p !! i = p !! i) as Es by (intros; apply list_lookup_insert_ne; lia).
    destruct (IH (<[k := Some z]> p) (S k)) as (p' & E & [L F] & Ok & N).
    { eapply ok_same; [by eapply ok_sub; [exact Hp|lia..]|]. intros. apply Es. lia. }
    assert (p' !! k = Some (Some z)) as Ek by (rewrite F by lia; apply list_lookup_insert_eq; lia).
    exists p'. split; [done|]. split; [|split].
    + split; [by rewrite L, length_insert|]. intros i Hi. rewrite F by lia. apply Es. lia.
    + apply ok_cons; [by exists z|done].
    + rewrite (num_cons p), (num_cons p'). rewrite (num_same p (<[k := Some z]> p)) in N by (intros; apply Es; lia).
      rewrite (dig_lookup p (<[k := Some z]> p) (S k)) in N by (apply Es; lia).
      assert (dig p' k = z) as -> by (unfold dig; by rewrite Ek). rewrite (Bp_S (S len)), Ez, Z.mul_add_distr_r, N.
      replace (dig p k * Bp (S len) * 2 ^ d) with (dig p k * 2 ^ d * Bp (S len)) by ring. rewrite Ex. ring.
Qed.

Lemma unshift_digit x y d : 0 <= x < B -> 0 <= y < B -> 0 <= d <= 16 ->
  let z := Z.lor (Z.shiftr x d) (LHALF (u32 (Z.shiftl y (HALF_BITS - d)))) in
  0 <= z < B /\ z * 2 ^ d + x mod 2 ^ d = x + (y mod 2 ^ d) * B.
Proof.
  intros Hx Hy Hd z. destruct (shl_digit y x (16 - d) Hy Hx ltac:(lia)) as [R E]. replace (16 - (16 - d)) with d in E by lia.
  assert (z = Z.lor (LHALF (u32 (Z.shiftl y (16 - d)))) (Z.shiftr x (HALF_BITS - (16 - d)))) as Ez.
  { unfold z, HALF_BITS. rewrite Z.lor_comm. by replace (16 - (16 - d)) with d by lia. }
  rewrite Ez. split; [done|]. rewrite E. destruct (pow_halves d Hd) as (Ep & He & _). rewrite <- Ep.
  pose proof (Z.div_mod x (2 ^ d) ltac:(lia)). lia.
Qed.

Lemma unshift_ok k us u m d : ok us (u + m) (S k) -> 0 <= d <= 16 ->
  exists us', unshift k us u m d = Ret us' /\ only (u + m) (S k) us us' /\ ok us' (u + m) (S k) /\ dig us' (u + m) = 0 /\
    num us' (S (u + m)) k * 2 ^ d + dig us (u + m + k) mod 2 ^ d = (dig us (u + m) mod 2 ^ d) * Bp k + num us (S (u + m)) k.
Proof.
  intros Hu Hd. revert us Hu. induction k as [|k IH]; intros us Hu; pose proof (ok_length _ _ _ Hu) as Hl; cbn [unshift].
  - rewrite wr_eq by lia. eexists. split; [reflexivity|]. split; [apply only_insert|]. split.
    { apply ok_cons; [apply insert_has; [lia|unfold B; lia]|]. intros i Hi. lia. }
    split; [apply dig_insert; lia|]. cbn [num]. rewrite Nat.add_0_r. change (Bp 0) with 1. lia.
  - destruct (rd_ok _ _ _ (u + m + S k)%nat Hu ltac:(lia)) as [-> Dx].
    replace (u + m + S k - 1)%nat with (u + m + k)%nat by lia. destruct (rd_ok _ _ _ (u + m + k)%nat Hu ltac:(lia)) as [-> Dy].
    cbn [obind]. rewrite wr_eq by lia. cbn [obind]. destruct (unshift_digit _ _ d Dx Dy Hd) as [Rz Ez].
    revert Rz Ez. set (z := Z.lor _ _). intros Rz Ez.
    assert (forall i, i <> (u + m + S k)%nat -> <[(u + m + S k)%nat := Some z]> us !! i = us !! i) as Es
      by (intros; apply list_lookup_insert_ne; lia).
    destruct (IH (<[(u + m + S k)%nat := Some z]> us)) as (us' & E & Fr & Ok & D0 & N).
    { eapply ok_same; [by eapply ok_sub; [exact Hu|lia..]|]. intros. apply Es. lia. }
    destruct (only_snoc (u + m) (S k) us us' z Fr Hl Rz) as (Fr' & Ed & Ok').
    exists us'. split; [done|]. split; [done|]. split; [by apply Ok'|]. split; [done|]. cbn [num].
    replace (S (u + m) + k)%nat with (u + m + S k)%nat by lia. rewrite Ed.
    rewrite (num_same us (<[(u + m + S k)%nat := Some z]> us)), !(dig_lookup us (<[(u + m + S k)%nat := Some z]> us)) in N by (intros; apply Es; lia).
    rewrite Bp_S. lia.
Qed.

(** ** Quads and their digits *)

Lemma Bp_4 : Bp 4 = two64.
Proof. reflexivity. Qed.

Lemma split_quad_digits p0 q : 0 <= q < two64 ->
  split_quad p0 q = [p0; Some (q / 281474976710656); Some (q / 4294967296 mod B); Some (q / B mod B); Some (q mod B)].
Proof.
  intros Hq. unfold split_quad, ul_H, ul_L. rewrite !LHALF_mod, !HHALF_div, Z.shiftr_div_pow2 by lia.
  change 4294967295 with (2 ^ 32 - 1). rewrite (land_ones_mod q 32 ltac:(lia)). change (2 ^ 32) with 4294967296.
  rewrite Z.div_div by (unfold B; lia). change (4294967296 * B) with 281474976710656.
  replace (q mod 4294967296 / B) with (q / B mod B) by (unfold B; dlia).
  by replace (q mod 4294967296 mod B) with (q mod B) by (unfold B; dlia).
Qed.

Lemma split_quad_ok p0 q : 0 <= q < two64 ->
  ok (split_quad p0 q) 1 4 /\ num (split_quad p0 q) 1 4 = q /\ length (split_quad p0 q) = 5%nat.
Proof.
  intros Hq. rewrite split_quad_digits by done. split_and!; [| |done].
  - intros i Hi. unfold two64, B in *. destruct i as [|[|[|[|[|]]]]]; [lia| | | | |lia]; (eexists; split; [reflexivity|dlia]).
  - unfold num, dig. simpl. unfold two64, B in *. dlia.
Qed.

Lemma join_quad_ok p : ok p 1 4 -> join_quad p = Ret (num p 1 4).
Proof.
  intros Hp. unfold join_quad. destruct (rd_ok _ _ _ 1%nat Hp ltac:(lia)) as [-> D1]. destruct (rd_ok _ _ _ 2%nat Hp ltac:(lia)) as [-> D2].
  destruct (rd_ok _ _ _ 3%nat Hp ltac:(lia)) as [-> D3]. destruct (rd_ok _ _ _ 4%nat Hp ltac:(lia)) as [-> D4]. cbn [obind].
  rewrite !COMBINE_eq, quad_eq by (unfold two32, B in *; lia). f_equal. unfold num. simpl. unfold two32, B. lia.
Qed.

(** ** Leading zeros *)

Lemma num_zero_inv p k n : ok p k n -> num p k n = 0 -> forall i, (k <= i < k + n)%nat -> dig p i = 0.
Proof.
  induction n as [|n IH]; intros Hp E i Hi; [lia|]. cbn [num] in E.
  assert (ok p k n) as Hn by (eapply ok_sub; [exact Hp|lia..]).
  destruct (rd_ok _ _ _ (k + n)%nat Hp ltac:(lia)) as [_ D]. pose proof (num_range _ _ _ Hn). unfold B in *.
  destruct (decide (i = (k + n)%nat)) as [->|]; [lia|]. apply IH; [done|lia|lia].
Qed.

(** Zeros in front do not count. *)
Lemma num_skip p k a b : (forall i, (k <= i < k + a)%nat -> dig p i = 0) -> num p k (a + b) = num p (k + a) b.
Proof. intros H. rewrite num_split, num_zero by done. lia. Qed.

Lemma skip_v_ok vs : ok vs 1 4 -> exists v n, skip_v 4 vs 0 4 = Ret (v, n) /\ (forall i, (1 <= i <= v)%nat -> dig vs i = 0) /\
  ((n = 1%nat /\ v = 2%nat /\ dig vs 3 = 0) \/ ((2 <= n)%nat /\ (v + n = 4)%nat /\ dig vs (v + 1) <> 0)).
Proof.
  intros Hv. cbn. destruct (rd_ok _ _ _ 1%nat Hv ltac:(lia)) as [-> D1]. cbn [obind].
  destruct (Z.eqb_spec (dig vs 1) 0) as [E1|N1]; [|exists 0%nat, 4%nat; split_and!; [done|intros; lia|right; split_and!; [lia..|done]]].
  destruct (rd_ok _ _ _ 2%nat Hv ltac:(lia)) as [-> D2]. cbn [obind].
  destruct (Z.eqb_spec (dig vs 2) 0) as [E2|N2].
  2: { exists 1%nat, 3%nat. split_and!; [done| |right; split_and!; [lia..|done]]. intros i Hi. by replace i with 1%nat by lia. }
  destruct (rd_ok _ _ _ 3%nat Hv ltac:(lia)) as [-> D3]. cbn [obind].
  destruct (Z.eqb_spec (dig vs 3) 0) as [E3|N3]; exists 2%nat; [exists 1%nat|exists 2%nat].
  all: split_and!; [done|intros i Hi; by destruct (decide (i = 1%nat)) as [->|]; [|replace i with 2%nat by lia]|].
  - left. done.
  - right. split_and!; [lia..|done].
Qed.

Lemma skip_u_ok fuel us u m : ok us 1 4 -> (u + fuel = 4)%nat -> (exists i, (u + 1 <= i <= 4)%nat /\ dig us i <> 0) ->
  (forall i, (1 <= i <= u)%nat -> dig us i = 0) ->
  exists u', skip_u fuel us u m = Ret (u', m - Z.of_nat (u' - u)) /\ (u <= u' <= 3)%nat /\ dig us (u' + 1) <> 0 /\
    (forall i, (1 <= i <= u')%nat -> dig us i = 0).
Proof.
  revert u m. induction fuel as [|fuel IH]; intros u m Hu Hf (i & Hi & Hne) Hz; [lia|]. cbn [skip_u].
  destruct (rd_ok _ _ _ (u + 1)%nat Hu ltac:(lia)) as [-> _]. cbn [obind].
  destruct (Z.eqb_spec (dig us (u + 1)) 0) as [E|N].
  - destruct (IH (u + 1)%nat (m - 1) Hu ltac:(lia)) as (u' & -> & Hr & Hd & Hz').
    + exists i. split; [|done]. destruct (decide (i = (u + 1)%nat)) as [->|]; [done|lia].
    + intros k Hk. destruct (decide (k = (u + 1)%nat)) as [->|]; [done|apply Hz; lia].
    + exists u'. split_and!; [|lia..|done|done]. do 2 f_equal. lia.
  - exists u. split_and!; [|lia..|done|done]. do 2 f_equal. lia.
Qed.

Lemma norm_shift_ok fuel t d : 0 < t < B -> B / 2 <= t * 2 ^ Z.of_nat fuel ->
  exists k, norm_shift fuel t d = Ret (d + k) /\ 0 <= k <= Z.of_nat fuel /\ B / 2 <= t * 2 ^ k < B.
Proof.
  revert t d. induction fuel as [|fuel IH]; intros t d Ht Hf; cbn [norm_shift].
  - rewrite (proj2 (Z.ltb_ge t (B / 2))) by (rewrite Z.mul_1_r in Hf; exact Hf). exists 0. rewrite Z.add_0_r, Z.mul_1_r in *. split_and!; try done; lia.
  - destruct (Z.ltb_spec t (B / 2)) as [Hlt|Hge]; [|exists 0; rewrite Z.add_0_r, Z.mul_1_r; split_and!; try done; lia].
    change (B / 2) with 32768 in *. rewrite Z.shiftl_mul_pow2 by lia. change (2 ^ 1) with 2.
    rewrite u32_small by (unfold is_u32, two32, B in *; lia).
    destruct (IH (t * 2) (d + 1)) as (k & -> & Hk & Hb); [unfold B in *; lia| |].
    { rewrite Nat2Z.inj_succ, Z.pow_succ_r in Hf by lia. lia. }
    exists (k + 1). rewrite Z.pow_add_r by lia. split_and!; [f_equal; lia|lia|lia|lia|lia].
Qed.

Lemma clear_q_keep i qs k x qs' : (i <= k)%nat -> qs !! k = Some x -> clear_q i qs = Ret qs' -> qs' !! k = Some x.
Proof.
  revert qs. induction i as [|i IH]; intros qs Hi E Eq; cbn [clear_q] in Eq; [congruence|].
  unfold wr in Eq. destruct (_ <? _)%nat; [|done]. cbn [obind] in Eq. eapply IH; [lia| |exact Eq]. cell.
Qed.

Lemma clear_q_ok i qs : (i <= length qs)%nat ->
  exists qs', clear_q i qs = Ret qs' /\ length qs' = length qs /\ forall k, (k < i)%nat -> qs' !! k = Some (Some 0).
Proof.
  revert qs. induction i as [|i IH]; intros qs Hl; cbn [clear_q]; [exists qs; split_and!; [done|done|intros; lia]|].
  rewrite wr_eq by lia. cbn [obind].
  destruct (IH (<[i := Some 0]> qs)) as (qs' & E & L & H); [rewrite length_insert; lia|]. rewrite length_insert in L.
  exists qs'. split_and!; [done|done|]. intros k Hk. destruct (decide (k = i)) as [->|]; [|apply H; lia].
  eapply clear_q_keep; [|apply list_lookup_insert_eq|exact E]; lia.
Qed.

(** ** The division *)

Lemma short_div_ok us t arq : ok us 1 4 -> 0 < t < B ->
  short_div us t arq = Ret (num us 1 4 / t, if arq then Some (num us 1 4 mod t) else None).
Proof.
  intros Hu Ht. unfold short_div.
  destruct (rd_ok _ _ _ 1%nat Hu ltac:(lia)) as [-> D1]. destruct (rd_ok _ _ _ 2%nat Hu ltac:(lia)) as [-> D2].
  destruct (rd_ok _ _ _ 3%nat Hu ltac:(lia)) as [-> D3]. destruct (rd_ok _ _ _ 4%nat Hu ltac:(lia)) as [-> D4]. cbn [obind].
  replace (num us 1 4) with (((dig us 1 * B + dig us 2) * B + dig us 3) * B + dig us 4) by (unfold num; simpl; lia).
  generalize dependent (dig us 1). generalize dependent (dig us 2). generalize dependent (dig us 3). generalize dependent (dig us 4).
  intros d D4 c D3 b D2 a D1.
  assert (forall r x, 0 <= r < t -> 0 <= x < B -> COMBINE r x = r * B + x /\ 0 <= (r * B + x) / t < B /\ 0 <= (r * B + x) mod t < t) as Hstep.
  { intros r x Hr Hx. split; [apply COMBINE_eq; lia|]. split; [|apply Z.mod_pos_bound; lia].
    split; [apply Z.div_pos; unfold B in *; lia|]. apply Z.div_lt_upper_bound; [lia|]. unfold B in *. nia. }
  pose proof (Z.mod_pos_bound a t ltac:(lia)) as R0. assert (0 <= a / t < B) as Q0.
  { split; [apply Z.div_pos; lia|]. apply Z.div_lt_upper_bound; [lia|]. nia. }
  destruct (Hstep _ _ R0 D2) as (-> & Q1 & R1). destruct (Hstep _ _ R1 D3) as (-> & Q2 & R2). destruct (Hstep _ _ R2 D4) as (-> & Q3 & R3).
  rewrite !COMBINE_eq, quad_eq by (unfold two32, B in *; lia).
  pose proof (Z.div_mod a t ltac:(lia)) as E0. revert Q1 R1 Q2 R2 Q3 R3.
  set (x1 := a mod t * B + b). intros Q1 R1. set (x2 := x1 mod t * B + c). intros Q2 R2. set (x3 := x2 mod t * B + d). intros Q3 R3.
  pose proof (Z.div_mod x1 t ltac:(lia)) as E1. pose proof (Z.div_mod x2 t ltac:(lia)) as E2. pose proof (Z.div_mod x3 t ltac:(lia)) as E3.
  assert (((a * B + b) * B + c) * B + d = t * ((a / t * B + x1 / t) * two32 + (x2 / t * B + x3 / t)) + x3 mod t) as E.
  { unfold two32, B in *. subst x3. subst x2. subst x1. lia. }
  rewrite <- (Z.div_unique_pos _ _ _ _ R3 E), <- (Z.mod_unique_pos _ _ _ _ R3 E). done.
Qed.

(** Making the first digit of the divisor large. *)
Lemma scaled (b : bool) p k len d : b = (0 <? d) -> ok p k (S len) -> 0 <= d <= 16 -> dig p k * 2 ^ d < B ->
  exists p', (if b then shl p k len d else Ret p) = Ret p' /\ only k (S len) p p' /\ ok p' k (S len) /\
    num p' k (S len) = num p k (S len) * 2 ^ d.
Proof.
  intros -> Hp Hd Hlt. destruct (Z.ltb_spec 0 d) as [Hd0|Hd0].
  - destruct (shl_ok len p k d Hp Hd) as (p' & E & F & Ok & N). exists p'. split_and!; [done..|].
    rewrite Z.div_small in N; [lia|]. destruct (rd_ok _ _ _ k Hp ltac:(lia)) as [_ D0].
    destruct (pow_halves d Hd) as (Ep & He & Hc). split; [lia|]. rewrite <- Ep in Hlt. nia.
  - assert (d = 0) as -> by lia. exists p. split_and!; try done. lia.
Qed.

Lemma top_bound U V a r M N e : U * e = a * M + r -> 0 <= U < N * M -> N <= V -> 0 <= r < M -> 0 < e -> 0 < M -> a < V * e.
Proof.
  intros E HU HN Hr He HM. apply (Z.mul_lt_mono_pos_r M); [done|].
  assert (U * e < N * M * e) as H1 by (apply Z.mul_lt_mono_pos_r; lia).
  assert (N * (M * e) <= V * (M * e)) as H2 by (apply Z.mul_le_mono_nonneg_r; nia). lia.
Qed.

Lemma divisor_low vs v n' : ok vs 1 4 -> (v + S (S n') = 4)%nat -> dig vs (v + 1) <> 0 -> Bp (S n') <= num vs (v + 1) (S (S n')).
Proof.
  intros Hvs Hvn Hv1. rewrite num_cons. destruct (rd_ok _ _ _ (v + 1)%nat Hvs ltac:(lia)) as [_ D].
  pose proof (num_range vs (S (v + 1)) (S n') (ok_sub _ _ _ (S (v + 1)) (S n') Hvs ltac:(lia) ltac:(lia))). pose proof (Bp_pos (S n')). nia.
Qed.

Section long.
Variables (us vs : digits) (n' u v m : nat).
Local Abbreviation n := (S (S n')).
Hypothesis (Hus : ok us 0 5) (Hvs : ok vs 1 4).
Hypothesis (Hvn : (v + n = 4)%nat) (Hun : (u + m + n = 4)%nat).
Hypothesis (Hu0 : forall i, (i <= u)%nat -> dig us i = 0).
Hypothesis (Hv1 : dig vs (v + 1) <> 0).
Local Abbreviation U := (num us u (S (m + n))).
Local Abbreviation V := (num vs (v + 1) n).

Lemma U_high : 0 <= U < Bp (m + n).
Proof. rewrite num_cons, Hu0, Z.mul_0_l by lia. apply num_range. eapply ok_sub; [exact Hus|lia..]. Qed.

Variable d : Z.
Hypothesis (Hd : 0 <= d <= 16) (Hnorm : B / 2 <= dig vs (v + 1) * 2 ^ d < B).

Lemma scaled_norm vs' : ok vs' (v + 1) n -> num vs' (v + 1) n = V * 2 ^ d -> B / 2 <= dig vs' (v + 1).
Proof.
  intros Ok' E. rewrite (num_cons vs' (v + 1)), (num_cons vs (v + 1)) in E.
  pose proof (num_range vs (S (v + 1)) (S n') (ok_sub _ _ _ (S (v + 1)) (S n') Hvs ltac:(lia) ltac:(lia))) as R.
  pose proof (num_range vs' (S (v + 1)) (S n') (ok_sub _ _ _ (S (v + 1)) (S n') Ok' ltac:(lia) ltac:(lia))) as R'.
  pose proof (Bp_pos (S n')). destruct (pow_halves d Hd) as (_ & He & _). change (B / 2) with 32768 in *.
  assert (32768 * Bp (S n') <= dig vs (v + 1) * 2 ^ d * Bp (S n')) as H1 by nia.
  assert (0 <= num vs (S (v + 1)) (S n') * 2 ^ d) as H2 by nia. rewrite Z.mul_add_distr_r in E.
  assert ((32768 - 1) * Bp (S n') < dig vs' (v + 1) * Bp (S n')) as H3 by lia. apply Z.mul_lt_mono_pos_r in H3; lia.
Qed.

Lemma scaled_top us' : ok us' u (S (m + n)) -> num us' u (S (m + n)) = U * 2 ^ d -> num us' u n < V * 2 ^ d.
Proof.
  intros Ok' E. pose proof U_high as HU. pose proof (divisor_low vs v n' Hvs Hvn Hv1) as HV. destruct (pow_halves d Hd) as (_ & He & _).
  assert (num us' u (S (m + n)) = num us' u n * Bp (S m) + num us' (u + n) (S m)) as Es.
  { rewrite <- num_split. f_equal. lia. }
  assert (Bp (m + n) = Bp (S n') * Bp (S m)) as Eb by (rewrite <- Bp_add; f_equal; lia). rewrite Eb in HU. clear Eb.
  pose proof (num_range us' (u + n) (S m) (ok_sub _ _ _ (u + n) (S m) Ok' ltac:(lia) ltac:(lia))) as R. pose proof (Bp_pos (S m)).
  rewrite E in Es. revert Es HU HV R. intros. eapply (top_bound U V _ _ (Bp (S m)) (Bp (S n')) (2 ^ d)); done.
Qed.

(** The remainder is shifted back. *)
Lemma remainder_ok us' : V * 2 ^ d < Bp n -> ok us' 1 4 -> (forall i, (1 <= i < u)%nat -> dig us' i = 0) -> ok us' u (S (m + n)) ->
  num us' u (S (m + n)) = (U mod V) * 2 ^ d -> remainder us' n u m d = Ret (U mod V).
Proof.
  intros Hsm Ok14 Hz Ok' E. pose proof (divisor_low vs v n' Hvs Hvn Hv1) as HV. pose proof (Bp_pos (S n')). destruct (pow_halves d Hd) as (_ & He & _).
  pose proof (Z.mod_pos_bound U V ltac:(lia)) as Hm.
  assert (num us' u (S (m + n)) = num us' u (S m) * Bp n + num us' (S (u + m)) n) as Es.
  { change (S (m + n)) with (S m + n)%nat. rewrite num_split. by replace (u + S m)%nat with (S (u + m)) by lia. }
  assert (ok us' u (S m)) as Okm by (eapply ok_sub; [exact Ok'|lia..]).
  assert (ok us' (S (u + m)) n) as Okn by (eapply ok_sub; [exact Ok'|lia..]).
  assert (num us' u (S m) = 0) as Etop.
  { pose proof (num_range _ _ _ Okm). pose proof (num_range _ _ _ Okn). assert (U mod V * 2 ^ d < V * 2 ^ d) by nia. nia. }
  pose proof (num_zero_inv _ _ _ Okm Etop) as Hz'. rewrite Etop, Z.mul_0_l, Z.add_0_l, E in Es.
  assert (forall p, ok p 1 4 -> (forall i, (1 <= i <= u + m)%nat -> dig p i = 0) -> join_quad p = Ret (num p (S (u + m)) n)) as Hj.
  { intros p Hp Hpz. rewrite join_quad_ok by done. f_equal. replace 4%nat with (u + m + n)%nat by lia. rewrite num_skip; [done|]. intros; apply Hpz; lia. }
  unfold remainder. destruct (Z.eqb_spec d 0) as [->|Hd0]; cbn [obind].
  - rewrite Hj; [f_equal; lia|done|]. intros i Hi. destruct (decide (i < u)%nat); [apply Hz|apply Hz']; lia.
  - destruct (unshift_ok n us' u m d) as (us3 & E3 & [L3 F3] & Ok3 & D3 & N3); [by eapply ok_sub; [exact Ok'|lia..]|done|].
    rewrite E3. cbn [obind]. rewrite Hj.
    + f_equal. rewrite (Hz' (u + m)%nat), Z.mod_0_l, Z.mul_0_l, Z.add_0_l, <- Es in N3 by lia.
      pose proof (Z.mod_pos_bound (dig us' (u + m + n)) (2 ^ d) He). nia.
    + intros i Hi. destruct (decide (u + m <= i)%nat); [apply Ok3; lia|]. rewrite F3 by lia. apply Ok14. lia.
    + intros i Hi. destruct (decide (i = u + m)%nat) as [->|]; [done|]. rewrite (dig_lookup us' us3) by (apply F3; lia).
      destruct (decide (i < u)%nat); [apply Hz|apply Hz']; lia.
Qed.

(** D1 to D7 from the shifted operands. *)
Lemma rounds_scaled us1 vs1 qs : only u (S (m + n)) us us1 -> ok us1 u (S (m + n)) -> num us1 u (S (m + n)) = U * 2 ^ d ->
  ok vs1 (v + 1) n -> num vs1 (v + 1) n = V * 2 ^ d -> length qs = 5%nat -> (forall k, (k < 4 - m)%nat -> qs !! k = Some (Some 0)) ->
  exists us2 qs2, rounds (m + 1) us1 vs1 qs n u v (4 - m) 0 = Ret (us2, qs2) /\ join_quad qs2 = Ret (U / V) /\
    remainder us2 n u m d = Ret (U mod V).
Proof.
  intros [L1 F1] Ok1 N1 Okv Nv Hq Hz. pose proof (divisor_low vs v n' Hvs Hvn Hv1) as HV. pose proof (Bp_pos (S n')). destruct (pow_halves d Hd) as (_ & He & _).
  pose proof (scaled_norm vs1 Okv Nv) as Hn. pose proof (scaled_top us1 Ok1 N1) as Ht. pose proof (num_range _ _ _ Okv) as Rv.
  destruct (rounds_ok (m + 1) us1 vs1 qs n' u v (4 - m) 0) as (us2 & qs2 & E & [L2 F2] & Ok2 & N2 & [Lq Fq] & Okq & Nq);
    rewrite ?Nat.add_0_r in *; replace (n + (m + 1))%nat with (S (m + n)) in * by lia; [done|done|done|by rewrite Nv|lia|].
  rewrite N1, Nv in N2, Nq. rewrite Z.mul_mod_distr_r in N2 by lia. rewrite Z.div_mul_cancel_r in Nq by lia.
  exists us2, qs2. split; [done|].
  assert (forall i, (i < 4 - m)%nat -> qs2 !! i = Some (Some 0)) as Hz2 by (intros i Hi; rewrite Fq by lia; by apply Hz).
  split.
  - rewrite join_quad_ok.
    + f_equal. replace 4%nat with ((3 - m) + (m + 1))%nat by lia. rewrite num_skip by (intros; unfold dig; rewrite Hz2 by lia; done).
      by replace (1 + (3 - m))%nat with (4 - m)%nat by lia.
    + intros i Hi. destruct (decide (i < 4 - m)%nat); [exists 0; rewrite Hz2 by done; unfold B; split; [done|lia]|]. apply Okq. lia.
  - assert (forall i, (i < u)%nat -> us2 !! i = us !! i) as Es by (intros i Hi; rewrite F2, F1 by lia; done).
    apply remainder_ok; [lia| | |done|done].
    + intros i Hi. destruct (decide (i < u)%nat); [rewrite Es by done; apply Hus; lia|]. apply Ok2. lia.
    + intros i Hi. rewrite (dig_lookup us us2) by (apply Es; lia). apply Hu0. lia.
Qed.
End long.

(** Where the dividend starts. *)
Lemma dividend_nonzero us : num us 1 4 <> 0 -> exists i, (0 + 1 <= i <= 4)%nat /\ dig us i <> 0.
Proof.
  intros Hn. destruct (decide (Exists (fun i => dig us i <> 0) [1; 2; 3; 4]%nat)) as [Hex|Hno].
  - apply Exists_exists in Hex as (i & Hi & ?). exists i. split; [|done]. rewrite !elem_of_cons, elem_of_nil in Hi. lia.
  - destruct Hn. apply num_zero. intros i Hi. destruct (decide (dig us i = 0)); [done|]. destruct Hno.
    apply Exists_exists. exists i. split; [|done]. rewrite !elem_of_cons. lia.
Qed.

Lemma dividend_start us n' : ok us 0 5 -> dig us 0 = 0 -> Bp (S n') <= num us 1 4 ->
  exists u m, skip_u 4 us 0 (4 - Z.of_nat (S (S n'))) = Ret (u, Z.of_nat m) /\ (u + m + S (S n') = 4)%nat /\
    (forall i, (i <= u)%nat -> dig us i = 0) /\ num us 1 4 = num us u (S (m + S (S n'))).
Proof.
  intros Hus H0 Hle. pose proof (Bp_pos (S n')) as HP. assert (ok us 1 4) as Hus' by (eapply ok_sub; [exact Hus|lia..]).
  destruct (skip_u_ok 4 us 0 (4 - Z.of_nat (S (S n'))) Hus' eq_refl) as (u & Eu & Hu & Du & Hz); [apply dividend_nonzero; lia|intros; lia|].
  rewrite Nat.sub_0_r in Eu.
  assert (num us 1 4 = num us (1 + u) (4 - u)) as EU.
  { replace 4%nat with (u + (4 - u))%nat at 1 by lia. apply num_skip. intros i Hi. apply Hz. lia. }
  pose proof (num_range us (1 + u) (4 - u) (ok_sub _ _ _ (1 + u)%nat (4 - u)%nat Hus ltac:(lia) ltac:(lia))) as RU.
  assert (S n' < 4 - u)%nat as Hm.
  { apply Nat.nle_gt. intros Hc. assert (Bp (4 - u) <= Bp (S n')); [|lia].
    replace (S n') with (4 - u + (S n' - (4 - u)))%nat by lia. rewrite Bp_add. pose proof (Bp_pos (4 - u)). pose proof (Bp_pos (S n' - (4 - u))). nia. }
  assert (forall i, (i <= u)%nat -> dig us i = 0) as Hz' by (intros [|i] Hi; [done|apply Hz; lia]).
  exists u, (4 - u - S (S n'))%nat. split_and!; [rewrite Eu; do 2 f_equal; lia|lia|done|].
  rewrite EU, num_cons, Hz' by lia. replace (4 - u - S (S n') + S (S n'))%nat with (4 - u)%nat by lia. simpl. lia.
Qed.

Lemma long_div_ok us vs v n arq : ok us 0 5 -> ok vs 1 4 -> dig us 0 = 0 ->
  (2 <= n)%nat -> (v + n = 4)%nat -> dig vs (v + 1) <> 0 -> num vs (v + 1) n <= num us 1 4 ->
  long_div us vs v n arq = Ret (num us 1 4 / num vs (v + 1) n, if arq then Some (num us 1 4 mod num vs (v + 1) n) else None).
Proof.
  intros Hus Hvs H0 Hn Hvn Hv1 Hle. destruct n as [|[|n']]; [lia..|]. clear Hn.
  pose proof (divisor_low vs v n' Hvs Hvn Hv1) as HV. destruct (dividend_start us n' Hus H0 ltac:(lia)) as (u & m & Eu & Hum & Hz & EU).
  unfold long_div. rewrite Eu. cbn [obind]. rewrite (proj2 (Z.ltb_ge _ _)) by lia. rewrite Nat2Z.id.
  destruct (clear_q_ok (4 - m) (replicate 5 None)) as (qs & Eq & Lq & Zq); [simpl; lia|]. rewrite Eq. cbn [obind].
  destruct (rd_ok _ _ _ (v + 1)%nat Hvs ltac:(lia)) as [-> D1]. cbn [obind].
  destruct (norm_shift_ok 16 (dig vs (v + 1)) 0) as (d & -> & Hd & Hb); [lia|change (B / 2) with 32768; change (2 ^ Z.of_nat 16) with 65536; lia|].
  cbn [obind]. rewrite Z.add_0_l.
  destruct (scaled (0 <? d) us u (m + S (S n')) d eq_refl) as (us1 & -> & F1 & Ok1 & N1);
    [by eapply ok_sub; [exact Hus|lia..]|done|rewrite Hz by lia; unfold B; lia|]. cbn [obind].
  destruct (scaled (0 <? d) vs (v + 1) (S (S n') - 1) d eq_refl) as (vs1 & -> & Fv & Okv & Nv);
    [by eapply ok_sub; [exact Hvs|lia..]|done|lia|]. cbn [obind].
  replace (S (S (S n') - 1)) with (S (S n')) in Okv, Nv by lia.
  destruct (rounds_scaled us vs n' u v m Hus Hvs Hvn Hum Hz Hv1 d Hd Hb us1 vs1 qs F1 Ok1 N1 Okv Nv Lq Zq) as (us2 & qs2 & -> & Ej & Er).
  cbn [obind]. rewrite Ej, <- EU in *. destruct arq; [rewrite Er|]; done.
Qed.

Lemma qdivrem_ok uq vq arq : 0 <= uq < two64 -> 0 < vq < two64 ->
  __qdivrem uq vq arq = Ret (uq / vq, if arq then Some (uq mod vq) else None).
Proof.
  intros Hu Hv. unfold __qdivrem. destruct (Z.eqb_spec vq 0) as [?|_]; [lia|].
  destruct (Z.ltb_spec uq vq) as [Hlt|Hge]; [by rewrite Z.div_small, Z.mod_small by lia|].
  destruct (split_quad_ok (Some 0) uq Hu) as (Ou & Nu & Lu). destruct (split_quad_ok None vq ltac:(lia)) as (Ov & Nv & Lv).
  assert (ok (split_quad (Some 0) uq) 0 5) as Ou' by (apply ok_cons; [by exists 0|done]).
  destruct (skip_v_ok _ Ov) as (v & n & -> & Hz & [(-> & -> & E3)|(Hn & Hvn & Hne)]); cbn [obind].
  - destruct (rd_ok _ _ _ 4%nat Ov ltac:(lia)) as [R D]. change (1 =? 1)%nat with true. change (2 + 2)%nat with 4%nat. cbv iota. rewrite R. cbn [obind].
    assert (dig (split_quad None vq) 4 = vq) as Ev.
    { assert (num (split_quad None vq) 1 4 = num (split_quad None vq) 4 1) as Es.
      { apply (num_skip _ 1 3 1). intros i Hi. destruct (decide (i = 3)%nat) as [->|]; [done|apply Hz; lia]. }
      rewrite Nv in Es. cbn [num Nat.add] in Es. lia. }
    rewrite Ev in *.
    rewrite short_div_ok, Nu by (done || lia). done.
  - rewrite (proj2 (Nat.eqb_neq n 1)) by lia.
    assert (num (split_quad None vq) (v + 1) n = vq) as Ev.
    { rewrite <- Nv at 2. replace 4%nat with (v + n)%nat by lia. rewrite num_skip by (intros; apply Hz; lia). f_equal; lia. }
    rewrite long_div_ok, Ev, Nu by (try done; rewrite ?Ev, ?Nu; lia). done.
Qed.

(** C14: Knuth's algorithm on 16-bit digits, with its unrolled case for short
    divisors, computes quotient and remainder of every pair of 64-bit numbers:
    no access leaves the arrays or reads a cell nothing was stored in, and no
    loop runs longer than its bound.  A divisor of 0 is undefined. *)
Theorem qdivrem_correct uq vq arq : 0 <= uq < two64 -> 0 <= vq < two64 ->
  __qdivrem uq vq arq = if vq =? 0 then Stop Undef else Ret (uq / vq, if arq then Some (uq mod vq) else None).
Proof.
  intros Hu Hv. destruct (Z.eqb_spec vq 0) as [->|Hne]; [done|]. by apply qdivrem_ok; [|lia].
Qed.

(** This divisor makes the estimate of D3 one too large: the round adds back. *)
Lemma qdivrem_correct_witness : __qdivrem 9223231299366420480 140737488355329 true = Ret (65534, Some 140737488289794).
Proof.
  rewrite (qdivrem_correct 9223231299366420480 140737488355329 true) by (unfold two64; lia). vm_compute. reflexivity.
Defined.

Lemma u64_opp a : - 9223372036854775808 <= a < 0 -> u64 (- u64 a) = - a.
Proof. intros. unfold u64, two64. dlia. Qed.

Lemma s64_small q : - 9223372036854775808 <= q < 9223372036854775808 -> s64 q = q.
Proof. intros. unfold s64, two64. rewrite Z.mod_small; lia. Qed.

Lemma s64_opp q : 0 <= q <= 9223372036854775808 -> s64 (u64 (- q)) = - q.
Proof. intros. unfold s64, u64, two64. dlia. Qed.

(** A quotient is at most the dividend, and equal to it only for 1. *)
Lemma div_bound x y : 0 <= x -> 0 < y -> 0 <= x / y <= x /\ (y <> 1 -> 0 < x -> x / y < x).
Proof.
  intros Hx Hy. split; [split; [by apply Z.div_pos|apply Z.div_le_upper_bound; nia]|]. intros. apply Z.div_lt; lia.
Qed.

(** the three functions the compiler calls: unsigned quotient and remainder,
    and the signed quotient rounded towards 0, which wraps only for the smallest
    number divided by -1. *)
Theorem quad_division a b : (0 <= a < two64 -> 0 < b < two64 -> __udivdi3 a b = Ret (a / b) /\ __umoddi3 a b = Ret (a mod b)) /\
  (- 9223372036854775808 <= a < 9223372036854775808 -> - 9223372036854775808 <= b < 9223372036854775808 -> b <> 0 ->
   __divdi3 a b = Ret (if (a =? - 9223372036854775808) && (b =? -1) then a else Z.quot a b)).
Proof.
  split.
  { intros Ha Hb. unfold __udivdi3, __umoddi3. rewrite !qdivrem_ok by lia. done. }
  intros Ha Hb Hne. unfold __divdi3.
  destruct (Z.ltb_spec a 0) as [Na|Na], (Z.ltb_spec b 0) as [Nb|Nb]; rewrite ?u64_opp by lia;
    rewrite qdivrem_ok by (unfold two64; lia); cbn [obind fst negb]; f_equal.
  - destruct (div_bound (- a) (- b) ltac:(lia) ltac:(lia)) as [R Rs].
    destruct (Z.eqb_spec a (-9223372036854775808)) as [->|Nm]; [destruct (Z.eqb_spec b (-1)) as [->|N1]; [done|]|]; cbn [andb];
      rewrite s64_small by lia; rewrite <- Z.quot_opp_opp, Z.quot_div_nonneg by lia; done.
  - destruct (div_bound (- a) b ltac:(lia) ltac:(lia)) as [R _]. rewrite s64_opp by lia.
    rewrite (proj2 (Z.eqb_neq b (-1))), andb_false_r by lia.
    rewrite <- (Z.opp_involutive a) at 2. rewrite Z.quot_opp_l, Z.quot_div_nonneg by lia. done.
  - destruct (div_bound a (- b) ltac:(lia) ltac:(lia)) as [R _]. rewrite s64_opp by lia.
    rewrite (proj2 (Z.eqb_neq a _)) by lia. cbn [andb].
    rewrite <- (Z.opp_involutive b) at 2. rewrite Z.quot_opp_r, Z.quot_div_nonneg by lia. done.
  - destruct (div_bound a b ltac:(lia) ltac:(lia)) as [R _]. rewrite s64_small by lia.
    rewrite (proj2 (Z.eqb_neq a _)) by lia. cbn [andb]. rewrite Z.quot_div_nonneg by lia. done.
Qed.

Lemma quad_division_witness : __udivdi3 7 2 = Ret 3 /\ __umoddi3 7 2 = Ret 1 /\ __divdi3 (-7) 2 = Ret (-3) /\
  __divdi3 (-9223372036854775808) (-1) = Ret (-9223372036854775808).
Proof.
  destruct (quad_division 7 2) as [Hu _]. destruct (quad_division (-7) 2) as [_ Hs].
  destruct (quad_division (-9223372036854775808) (-1)) as [_ Hm].
  destruct Hu as [-> ->]; [unfold two64; lia..|]. rewrite Hs, Hm by lia. split_and!; reflexivity.
Defined.

(** ** [log2] *)

(** The number of binary digits. *)
Definition bits (c : Z) : Z := if c =? 0 then 0 else Z.log2 c + 1.

Lemma bits_half c : 0 < c -> bits c = bits (Z.shiftr c 1) + 1.
Proof.
  intros Hc. unfold bits. rewrite (proj2 (Z.eqb_neq c 0)) by lia. destruct (decide (c = 1)) as [->|Hne]; [done|].
  assert (1 <= Z.log2 c) by (apply Z.log2_le_pow2; simpl; lia). rewrite Z.log2_shiftr by lia.
  rewrite (proj2 (Z.eqb_neq (Z.shiftr c 1) 0)); [lia|]. rewrite Z.shiftr_div_pow2 by lia. change (2 ^ 1) with 2. dlia.
Qed.

Lemma log2_loop_ok fuel c r : 0 <= c < 2 ^ Z.of_nat fuel -> 0 <= r -> r + bits c <= 30 ->
  log2_loop fuel c (2 ^ r) r = Ret (2 ^ (r + bits c), r + bits c).
Proof.
  revert c r. induction fuel as [|fuel IH]; intros c r Hc Hr Hb; cbn [log2_loop].
  { simpl in Hc. assert (c = 0) as -> by lia. simpl. by rewrite Z.add_0_r. }
  destruct (Z.eqb_spec c 0) as [->|Hne]; [unfold bits; simpl; by rewrite Z.add_0_r|].
  rewrite bits_half in * by lia. assert (0 <= Z.shiftr c 1) by (apply Z.shiftr_nonneg; lia).
  assert (0 <= bits (Z.shiftr c 1)). { unfold bits. destruct (_ =? 0); [done|]. pose proof (Z.log2_nonneg (Z.shiftr c 1)). lia. }
  rewrite Z.shiftl_mul_pow2 by lia. change (2 ^ 1) with 2. rewrite (Z.mul_comm (2 ^ r) 2), <- Z.pow_succ_r by lia.
  assert (2 ^ Z.succ r <= 2 ^ 30) as Hp by (apply Z.pow_le_mono_r; lia). change (2 ^ 30) with 1073741824 in Hp.
  pose proof (Z.pow_pos_nonneg 2 (Z.succ r) ltac:(lia) ltac:(lia)).
  rewrite s32_small by (unfold is_s32; lia). rewrite <- Z.add_1_r, IH; [by rewrite <- !Z.add_assoc, !(Z.add_comm 1)| |lia|lia].
  rewrite Nat2Z.inj_succ, Z.pow_succ_r in Hc by lia. rewrite Z.shiftr_div_pow2 by lia. change (2 ^ 1) with 2. dlia.
Qed.

(** A negative argument needs more rounds than any bound. *)
Lemma log2_negative fuel x y r : x < 0 -> log2_loop fuel x y r = Stop Diverge.
Proof.
  revert x y r. induction fuel as [|fuel IH]; intros x y r Hx; cbn [log2_loop]; rewrite (proj2 (Z.eqb_neq x 0)) by lia; [done|].
  apply IH. by apply Z.shiftr_neg.
Qed.

(** for 0 < x < 2^30 [log2] returns the logarithm rounded up, and for 0 the
    number -1.  At 2^30 the shift of [y] leaves the range of [int] and the power
    of two is not recognised; for a negative number the loop never ends. *)
Theorem log2_correct x : - 2147483648 <= x < 1073741824 ->
  log2 x = if x <? 0 then Stop Diverge else Ret (if x =? 0 then -1 else Z.log2_up x).
Proof.
  intros Hx. unfold log2. destruct (Z.ltb_spec x 0) as [Hneg|Hpos].
  { by rewrite log2_negative. }
  destruct (Z.eqb_spec x 0) as [->|Hne]; [done|].
  assert (bits x <= 30) as Hb. { unfold bits. rewrite (proj2 (Z.eqb_neq x 0)) by lia. assert (Z.log2 x < 30) by (apply Z.log2_lt_pow2; simpl; lia). lia. }
  pose proof (log2_loop_ok 32 x 0 ltac:(simpl; lia) ltac:(lia) ltac:(lia)) as El. change (2 ^ 0) with 1 in El. rewrite El. cbn [obind]. rewrite Z.add_0_l. f_equal.
  unfold bits. rewrite (proj2 (Z.eqb_neq x 0)) by lia. rewrite Z.pow_add_r by (pose proof (Z.log2_nonneg x); lia).
  rewrite Z.shiftr_div_pow2, Z.div_mul by lia. destruct (Z.eqb_spec (2 ^ Z.log2 x) x) as [E|N].
  - rewrite Z.add_simpl_r. apply Z.log2_log2_up_exact; [lia|]. by exists (Z.log2 x).
  - pose proof (Z.le_log2_log2_up x). pose proof (Z.le_log2_up_succ_log2 x).
    destruct (decide (Z.log2 x = Z.log2_up x)) as [E|]; [|lia]. apply Z.log2_log2_up_exact in E as (b & Eb); [|lia].
    destruct N. rewrite Eb, Z.log2_pow2; [done|]. destruct (decide (0 <= b)); [done|]. rewrite Z.pow_neg_r in Eb; lia.
Qed.

Lemma log2_correct_witness : log2 5 = Ret 3 /\ log2 1073741824 = Ret 31.
Proof. split; [rewrite (log2_correct 5) by lia|]; vm_compute; reflexivity. Defined.
