(* ===== verification/CString.v ===== *)
(** * Strings (util/string.c)

    A [char] is a number from -128 to 127 and a pointer is what is left of the
    object it points into, from there to its end: a read or a store beyond the
    object is [Stop Undef].  Where a function returns a pointer the model
    returns its distance from the argument.  Source and destination of a copy
    are different objects.

    [memcmp], [memcpy] and [memset] are string instructions of the processor:
    one round of the [rep] prefix per byte, with the flags of the comparison.

    The theorems relate the functions to what they do to strings: comparison,
    search, copying, and [strtok] to cutting a string at its separators. *)

From S2P Require Import Prelude.

Abbreviation chars := (list Z).

(** ** The functions *)

(** [repe cmpsb]: the zero flag and the sign flag; [xor %eax, %eax] sets the zero
    flag before the first round. *)
Fixpoint cmpsb (count : nat) (s t : chars) (zf sf : bool) : outcome (bool * bool) :=
  match count with
  | O => Ret (zf, sf)
  | S count' =>
      match s, t with
      | c :: s', d :: t' =>
          let diff := (c - d) mod 256 in
          if diff =? 0 then cmpsb count' s' t' true false else Ret (false, 128 <=? diff)
      | _, _ => Stop Undef
      end
  end.

Definition memcmp (cs ct : chars) (count : nat) : outcome Z :=
  let? (zf, sf) := cmpsb count cs ct true false in
  Ret (if zf then 0 else if sf : bool then -1 else 1).

(** [rep movsb] and [rep stosb]: the destination afterwards. *)
Fixpoint memcpy (dest src : chars) (count : nat) : outcome chars :=
  match count with
  | O => Ret dest
  | S count' =>
      match dest, src with
      | _ :: dest', c :: src' => let? r := memcpy dest' src' count' in Ret (c :: r)
      | _, _ => Stop Undef
      end
  end.

Fixpoint memset (s : chars) (c : Z) (count : nat) : outcome chars :=
  match count with
  | O => Ret s
  | S count' =>
      match s with
      | _ :: s' => let? r := memset s' c count' in Ret (s8 c :: r)
      | [] => Stop Undef
      end
  end.

Fixpoint strncmp (cs ct : chars) (count : nat) : outcome Z :=
  match count with
  | O => Ret 0
  | S count' =>
      match cs, ct with
      | c :: cs', d :: ct' =>
          let res := s8 (c - d) in
          if negb (res =? 0) || (c =? 0) then Ret res else strncmp cs' ct' count'
      | _, _ => Stop Undef
      end
  end.

Fixpoint strcmp (cs ct : chars) : outcome Z :=
  match cs, ct with
  | c :: cs', d :: ct' =>
      let res := s8 (c - d) in
      if negb (res =? 0) || (c =? 0) then Ret res else strcmp cs' ct'
  | _, _ => Stop Undef
  end.

Fixpoint strcpy (dest src : chars) : outcome chars :=
  match dest, src with
  | _ :: dest', c :: src' => let? r := (if c =? 0 then Ret dest' else strcpy dest' src') in Ret (c :: r)
  | _, _ => Stop Undef
  end.

Fixpoint strncpy (dest src : chars) (count : nat) : outcome chars :=
  match count with
  | O => Ret dest
  | S count' =>
      match dest, src with
      | _ :: dest', c :: src' => let? r := (if c =? 0 then Ret dest' else strncpy dest' src' count') in Ret (c :: r)
      | _, _ => Stop Undef
      end
  end.

Fixpoint strnlen (s : chars) (count : nat) : outcome nat :=
  match count with
  | O => Ret 0%nat
  | S count' =>
      match s with
      | [] => Stop Undef
      | c :: s' => if c =? 0 then Ret 0%nat else let? n := strnlen s' count' in Ret (S n)
      end
  end.

Fixpoint strcat (dest src : chars) : outcome chars :=
  match dest with
  | [] => Stop Undef
  | d :: dest' => if d =? 0 then strcpy dest src else let? r := strcat dest' src in Ret (d :: r)
  end.

Fixpoint strlen (s : chars) : outcome nat :=
  match s with
  | [] => Stop Undef
  | c :: s' => if c =? 0 then Ret 0%nat else let? n := strlen s' in Ret (S n)
  end.

Definition further (m : outcome (option nat)) : outcome (option nat) :=
  let? r := m in Ret (S <$> r).

Fixpoint strchr_loop (s : chars) (c : Z) : outcome (option nat) :=
  match s with
  | [] => Stop Undef
  | x :: s' => if x =? c then Ret (Some 0%nat) else if x =? 0 then Ret None else further (strchr_loop s' c)
  end.

Definition strchr (s : chars) (c : Z) : outcome (option nat) := strchr_loop s (s8 c).

Fixpoint strrchr_loop (s : chars) (c : Z) (i : nat) (r : option nat) : outcome (option nat) :=
  match s with
  | [] => Stop Undef
  | x :: s' => if x =? 0 then Ret r else strrchr_loop s' c (S i) (if x =? c then Some i else r)
  end.

Definition strrchr (s : chars) (c : Z) : outcome (option nat) := strrchr_loop s (s8 c) 0 None.

(** [while (l1 >= l2)] *)
Fixpoint strstr_loop (l1 l2 : nat) (s1 s2 : chars) : outcome (option nat) :=
  if (l2 <=? l1)%nat then
    let? r := memcmp s1 s2 l2 in
    if r =? 0 then Ret (Some 0%nat)
    else
      match l1, s1 with
      | S l1', _ :: s1' => further (strstr_loop l1' l2 s1' s2)
      | _, _ => Stop Undef
      end
  else Ret None.

Definition strstr (s1 s2 : chars) : outcome (option nat) :=
  let? l2 := strlen s2 in
  if (l2 =? 0)%nat then Ret (Some 0%nat)
  else let? l1 := strlen s1 in strstr_loop l1 l2 s1 s2.

(** [for (p = set; *p != '\0' && *p != c; ++p)]: whether [*p] is not the end. *)
Fixpoint in_set (set : chars) (c : Z) : outcome bool :=
  match set with
  | [] => Stop Undef
  | p :: set' => if p =? 0 then Ret false else if p =? c then Ret true else in_set set' c
  end.

Fixpoint strpbrk (string brkset : chars) : outcome (option nat) :=
  match string with
  | [] => Stop Undef
  | c :: string' =>
      let? b := in_set brkset c in
      if b : bool then Ret (Some 0%nat) else if c =? 0 then Ret None else further (strpbrk string' brkset)
  end.

Fixpoint strspn (string charset : chars) : outcome nat :=
  match string with
  | [] => Stop Undef
  | c :: string' =>
      if c =? 0 then Ret 0%nat
      else let? b := in_set charset c in
           if b : bool then (let? n := strspn string' charset in Ret (S n)) else Ret 0%nat
  end.

(** [strtok] on the object [b]: [string] and [savept] are offsets in it.  The
    result is the offset of the token, the object and the new [savept]. *)
Definition strtok (b : chars) (savept string : option nat) (sepset : chars) : outcome (option nat * chars * option nat) :=
  match (if string is Some p then Some p else savept) with
  | None => Ret (None, b, savept)
  | Some p =>
      let? n := strspn (drop p b) sepset in
      let q := (p + n)%nat in
      match b !! q with
      | None => Stop Undef
      | Some c =>
          if c =? 0 then Ret (None, b, savept)
          else
            let? r := strpbrk (drop q b) sepset in
            match r with
            | None => Ret (Some q, b, None)
            | Some k => Ret (Some q, <[(q + k)%nat := 0]> b, Some (q + k + 1)%nat)
            end
      end
  end.

(** ** Strings in memory *)

Definition is_char (c : Z) : Prop := -128 <= c < 128.

(** The characters of a string: none of them ends it. *)
Definition is_str (s : chars) : Prop := Forall (fun c => is_char c /\ c <> 0) s.

#[export] Instance is_str_dec s : Decision (is_str s).
Proof. unfold is_str, is_char. apply _. Defined.

(** A pointer to the string [s], whatever follows in the object. *)
Definition cstr (s rest : chars) : chars := s ++ 0 :: rest.

Lemma strlen_cstr s rest : is_str s -> strlen (cstr s rest) = Ret (length s).
Proof.
  unfold cstr. induction 1 as [|c s [_ Hc] _ IH]; [done|]. simpl. rewrite (proj2 (Z.eqb_neq c 0)) by done. by rewrite IH.
Qed.

Lemma strnlen_cstr s rest n : is_str s -> strnlen (cstr s rest) n = Ret (min n (length s)).
Proof.
  unfold cstr. intros Hs. revert n. induction Hs as [|c s [_ Hc] _ IH]; intros [|n]; try done. simpl.
  rewrite (proj2 (Z.eqb_neq c 0)) by done. by rewrite IH.
Qed.

Lemma s8_diff_zero c d : is_char c -> is_char d -> s8 (c - d) = 0 <-> c = d.
Proof. unfold is_char, s8. intros. split; intros; dlia. Qed.

(** The first place where two strings differ, the end counting as 0. *)
Fixpoint str_diff (s t : chars) : Z :=
  match s, t with
  | [], [] => 0
  | c :: s', d :: t' => if c =? d then str_diff s' t' else c - d
  | [], d :: _ => - d
  | c :: _, [] => c
  end.

Lemma str_diff_zero s t : is_str s -> is_str t -> str_diff s t = 0 <-> s = t.
Proof.
  intros Hs. revert t. induction Hs as [|c s [_ Hc] _ IH]; intros t Ht; destruct Ht as [|d t [_ Hd] Ht]; simpl.
  - done.
  - split; [lia|done].
  - split; [lia|done].
  - destruct (Z.eqb_spec c d) as [->|Hne]; [rewrite IH by done; naive_solver|]. split; [lia|naive_solver].
Qed.

Lemma strcmp_cstr s t r r' : is_str s -> is_str t -> strcmp (cstr s r) (cstr t r') = Ret (s8 (str_diff s t)).
Proof.
  unfold cstr. intros Hs. revert t. induction Hs as [|c s [Rc Hc] _ IH]; intros t Ht; destruct Ht as [|d t [Rd Hd] Ht]; simpl.
  - done.
  - by rewrite orb_true_r.
  - rewrite Z.sub_0_r. rewrite (proj2 (Z.eqb_neq (s8 c) 0)); [done|]. rewrite s8_small by done. done.
  - destruct (Z.eqb_spec c d) as [->|Hne].
    + rewrite Z.sub_diag. change (s8 0) with 0. simpl. rewrite (proj2 (Z.eqb_neq d 0)) by done. by apply IH.
    + assert (s8 (c - d) <> 0) as Hn by (by intros E%(proj1 (s8_diff_zero c d Rc Rd))). by rewrite (proj2 (Z.eqb_neq _ _) Hn).
Qed.

Lemma strncmp_cstr s t r r' n : is_str s -> is_str t ->
  strncmp (cstr s r) (cstr t r') n = Ret (s8 (str_diff (take n s) (take n t))).
Proof.
  unfold cstr. intros Hs. revert t n. induction Hs as [|c s [Rc Hc] _ IH]; intros t n Ht; destruct n as [|n];
    destruct Ht as [|d t [Rd Hd] Ht]; simpl; try done.
  - by rewrite orb_true_r.
  - rewrite Z.sub_0_r. rewrite (proj2 (Z.eqb_neq (s8 c) 0)); [done|]. rewrite s8_small by done. done.
  - destruct (Z.eqb_spec c d) as [->|Hne].
    + rewrite Z.sub_diag. change (s8 0) with 0. simpl. rewrite (proj2 (Z.eqb_neq d 0)) by done. by apply IH.
    + assert (s8 (c - d) <> 0) as Hn by (by intros E%(proj1 (s8_diff_zero c d Rc Rd))). by rewrite (proj2 (Z.eqb_neq _ _) Hn).
Qed.

(** ** Comparison *)

Lemma str_diff_range s t : is_str s -> is_str t -> -255 <= str_diff s t <= 255.
Proof.
  unfold is_str, is_char. intros Hs. revert t. induction Hs as [|c s [Rc Hc] _ IH]; intros t Ht; destruct Ht as [|d t [Rd Hd] Ht]; simpl; [lia..|].
  destruct (c =? d); [by apply IH|lia].
Qed.

Lemma s8_str_diff s t : is_str s -> is_str t -> s8 (str_diff s t) = 0 <-> s = t.
Proof.
  intros Hs Ht. rewrite <- str_diff_zero by done. pose proof (str_diff_range s t Hs Ht). unfold s8. split; intros; dlia.
Qed.

Lemma is_str_take n s : is_str s -> is_str (take n s).
Proof. apply Forall_take. Qed.

(** Characters of seven bits. *)
Definition ascii (s : chars) : Prop := Forall (fun c => 0 < c < 128) s.

Lemma ascii_is_str s : ascii s -> is_str s.
Proof. intros H. eapply Forall_impl; [exact H|]. unfold is_char. simpl. intros c Hc. lia. Qed.

Lemma str_diff_ascii s t : ascii s -> ascii t -> -128 < str_diff s t < 128.
Proof.
  intros Hs. revert t. induction Hs as [|c s Hc _ IH]; intros t Ht; destruct Ht as [|d t Hd Ht]; simpl; [lia..|].
  destruct (c =? d); [by apply IH|lia].
Qed.

(** [strcmp] and [strncmp] return 0 exactly when the strings (their first
    [n] characters) are equal, whatever follows them in memory; on strings of
    7-bit characters the result is the difference of the first characters that
    differ, so its sign is the order of the strings. *)
Theorem strcmp_correct s t r r' n : is_str s -> is_str t ->
  (exists x, strcmp (cstr s r) (cstr t r') = Ret x /\ (x = 0 <-> s = t) /\ (ascii s -> ascii t -> x = str_diff s t)) /\
  (exists x, strncmp (cstr s r) (cstr t r') n = Ret x /\ (x = 0 <-> take n s = take n t) /\
     (ascii s -> ascii t -> x = str_diff (take n s) (take n t))).
Proof.
  intros Hs Ht. rewrite strcmp_cstr, strncmp_cstr by done. split; eexists; (split; [reflexivity|split; [by apply s8_str_diff; try apply is_str_take|]]).
  - intros As At. pose proof (str_diff_ascii s t As At). apply s8_small. lia.
  - intros As At. pose proof (str_diff_ascii (take n s) (take n t) (Forall_take _ _ _ As) (Forall_take _ _ _ At)). apply s8_small. lia.
Qed.

(** ** [memcmp] *)

Lemma cmpsb_same n s t : length s = n -> length t = n -> Forall is_char s -> Forall is_char t ->
  forall r r' sf, exists zf sf', cmpsb n (s ++ r) (t ++ r') true sf = Ret (zf, sf') /\ (zf = true <-> s = t).
Proof.
  intros Ls Lt. revert s t Ls Lt. induction n as [|n IH]; intros s t Ls Lt Hs Ht r r' sf.
  { destruct s, t; try done. by exists true, sf. }
  destruct s as [|c s], t as [|d t]; try done. apply Forall_cons in Hs as [Hc Hs], Ht as [Hd Ht]. simpl.
  unfold is_char in Hc, Hd. destruct (Z.eqb_spec ((c - d) mod 256) 0) as [E|Hne].
  - assert (c = d) as -> by dlia. destruct (IH s t ltac:(simpl in *; lia) ltac:(simpl in *; lia) Hs Ht r r' false) as (zf & sf' & -> & Hz).
    exists zf, sf'. split; [done|]. rewrite Hz. split; [by intros ->|congruence].
  - eexists _, _. split; [reflexivity|]. split; [done|]. intros [= -> ->]. by rewrite Z.sub_diag in Hne.
Qed.

Lemma memcmp_zero s t r r' n : length s = n -> length t = n -> Forall is_char s -> Forall is_char t ->
  exists x, memcmp (s ++ r) (t ++ r') n = Ret x /\ (x = 0 <-> s = t).
Proof.
  intros Ls Lt Hs Ht. unfold memcmp. destruct (cmpsb_same n s t Ls Lt Hs Ht r r' false) as (zf & sf & -> & Hz). cbn [obind].
  eexists. split; [reflexivity|]. rewrite <- Hz. by destruct zf, sf.
Qed.

(** The sign flag is not the order of unsigned bytes: 0xff compares below 0x01. *)
Example memcmp_sign : memcmp [-1] [1] 1 = Ret (-1).
Proof. reflexivity. Qed.

(** ** Search *)

(** [s2] starts [s1] at place [k]. *)
Definition occurs_at (s1 s2 : chars) (k : nat) : Prop := take (length s2) (drop k s1) = s2.

Lemma occurs_length s1 s2 k : s2 <> [] -> occurs_at s1 s2 k -> (k + length s2 <= length s1)%nat.
Proof.
  intros Hne E. unfold occurs_at in E. apply (f_equal length) in E. rewrite length_take, length_drop in E.
  assert (0 < length s2)%nat by (destruct s2; [done|simpl; lia]). lia.
Qed.

Lemma is_str_chars s : is_str s -> Forall is_char s.
Proof. intros H. eapply Forall_impl; [exact H|]. by intros c []. Qed.

Lemma strstr_loop_ok s1 s2 r r' : is_str s1 -> is_str s2 -> s2 <> [] ->
  exists o, strstr_loop (length s1) (length s2) (cstr s1 r) (cstr s2 r') = Ret o /\
    match o with
    | Some k => occurs_at s1 s2 k /\ forall j, (j < k)%nat -> ~ occurs_at s1 s2 j
    | None => forall j, ~ occurs_at s1 s2 j
    end.
Proof.
  intros H1 H2 Hne. induction s1 as [|c s1 IH].
  - exists None. simpl. destruct s2 as [|d s2]; [done|]. split; [done|]. intros j E. apply occurs_length in E; [simpl in E; lia|done].
  - apply Forall_cons in H1 as [Hc H1]. cbn [length strstr_loop]. destruct (Nat.leb_spec (length s2) (S (length s1))) as [Hle|Hgt].
    + destruct (memcmp_zero (take (length s2) (c :: s1)) s2 (drop (length s2) (c :: s1) ++ 0 :: r) (0 :: r') (length s2)) as (x & Ex & Hx);
        [rewrite length_take; simpl in *; lia|done|apply Forall_take, is_str_chars; by constructor|by apply is_str_chars|].
      rewrite app_assoc, take_drop in Ex. fold (cstr (c :: s1) r) (cstr s2 r') in Ex. rewrite Ex. cbn [obind]. destruct (Z.eqb_spec x 0) as [E|Hx0].
      * exists (Some 0%nat). split; [done|]. split; [by apply Hx|intros; lia].
      * change (cstr (c :: s1) r) with (c :: cstr s1 r). cbn iota.
        destruct (IH H1) as (o & -> & Ho). exists (S <$> o). split; [done|].
        assert (~ occurs_at (c :: s1) s2 0) as H0 by (intros E; by apply Hx0, Hx).
        destruct o as [k|]; simpl; [split; [apply Ho|]|]; intros [|j]; try done; [|apply Ho]. intros. apply Ho. lia.
    + exists None. split; [done|]. intros j E. apply occurs_length in E; [simpl in E; lia|done].
Qed.

Lemma strchr_ok s r c : is_str s -> is_char c -> c <> 0 ->
  exists o, strchr (cstr s r) c = Ret o /\
    match o with
    | Some k => s !! k = Some c /\ forall j, (j < k)%nat -> s !! j <> Some c
    | None => c ∉ s
    end.
Proof.
  intros Hs Hc Hc0. unfold strchr. rewrite s8_small by done. unfold cstr. induction Hs as [|x s [Rx Hx] _ IH]; cbn [app strchr_loop].
  - rewrite (proj2 (Z.eqb_neq 0 c)) by done. exists None. split; [done|]. apply not_elem_of_nil.
  - destruct (Z.eqb_spec x c) as [->|Hne]; [exists (Some 0%nat); split; [done|]; split; [done|intros; lia]|].
    rewrite (proj2 (Z.eqb_neq x 0)) by done. destruct IH as (o & -> & Ho). exists (S <$> o). split; [done|]. destruct o as [k|]; simpl.
    + split; [apply Ho|]. intros [|j] Hj; simpl; [congruence|]. apply Ho. lia.
    + rewrite elem_of_cons. intros [?|?]; [congruence|done].
Qed.

(** [strstr] finds the first place where the second string occurs in the
    first, and returns null exactly when there is none; [strchr] finds the
    first character equal to its argument. *)
Theorem strstr_correct s1 s2 r r' c : is_str s1 -> is_str s2 -> is_char c -> c <> 0 ->
  (exists o, strstr (cstr s1 r) (cstr s2 r') = Ret o /\
    match o with
    | Some k => occurs_at s1 s2 k /\ forall j, (j < k)%nat -> ~ occurs_at s1 s2 j
    | None => forall j, ~ occurs_at s1 s2 j
    end) /\
  (exists o, strchr (cstr s1 r) c = Ret o /\
    match o with
    | Some k => s1 !! k = Some c /\ forall j, (j < k)%nat -> s1 !! j <> Some c
    | None => c ∉ s1
    end).
Proof.
  intros H1 H2 Hc Hc0. split; [|by apply strchr_ok]. unfold strstr. rewrite !strlen_cstr by done. cbn [obind].
  destruct (Nat.eqb_spec (length s2) 0) as [E|Hne].
  - apply nil_length_inv in E as ->. exists (Some 0%nat). split; [done|]. split; [done|intros; lia].
  - apply strstr_loop_ok; [done..|]. by intros ->.
Qed.

(** ** Copying *)

Lemma strcpy_ok dest s r : is_str s ->
  strcpy dest (cstr s r) = if (length s <? length dest)%nat then Ret (cstr s (drop (S (length s)) dest)) else Stop Undef.
Proof.
  unfold cstr. intros Hs. revert dest. induction Hs as [|c s [_ Hc] _ IH]; intros [|d dest]; try done.
  simpl. rewrite (proj2 (Z.eqb_neq c 0)), IH by done. change (S (length s) <? S (length dest))%nat with (length s <? length dest)%nat.
  by destruct (_ <? _)%nat.
Qed.

Lemma strncpy_ok dest s r n : is_str s -> (n <= length dest)%nat ->
  strncpy dest (cstr s r) n = Ret (if (n <=? length s)%nat then take n s ++ drop n dest else cstr s (drop (S (length s)) dest)).
Proof.
  unfold cstr. intros Hs. revert dest n. induction Hs as [|c s [_ Hc] _ IH]; intros [|d dest] [|n] Hn; simpl in *; try done; [lia..|].
  rewrite (proj2 (Z.eqb_neq c 0)), IH by (done || lia). change (S n <=? S (length s))%nat with (n <=? length s)%nat.
  by destruct (_ <=? _)%nat.
Qed.

Lemma strcat_ok d rest s r : is_str d -> is_str s ->
  strcat (cstr d rest) (cstr s r) =
  if (length s <=? length rest)%nat then Ret (cstr (d ++ s) (drop (length s) rest)) else Stop Undef.
Proof.
  intros Hd Hs. unfold cstr. induction Hd as [|c d [_ Hc] _ IH]; cbn [app strcat].
  - fold (cstr s r). change (0 =? 0) with true. cbn iota. rewrite strcpy_ok by done. cbn [length drop].
    change (length s <? S (length rest))%nat with (length s <=? length rest)%nat. done.
  - rewrite (proj2 (Z.eqb_neq c 0)), IH by done. by destruct (_ <=? _)%nat.
Qed.

(** [strcpy], [strncpy] and [strcat] leave the destination holding the
    string, the part of it that fits in [n] characters (then without an end), or
    the concatenation, with the bytes behind unchanged; when the destination is
    too short the copy runs over its end. *)
Theorem str_copy_correct dest d rest s r n : is_str s -> is_str d -> (n <= length dest)%nat ->
  strcpy dest (cstr s r) = (if (length s <? length dest)%nat then Ret (cstr s (drop (S (length s)) dest)) else Stop Undef) /\
  strncpy dest (cstr s r) n =
    Ret (if (n <=? length s)%nat then take n s ++ drop n dest else cstr s (drop (S (length s)) dest)) /\
  strcat (cstr d rest) (cstr s r) =
    (if (length s <=? length rest)%nat then Ret (cstr (d ++ s) (drop (length s) rest)) else Stop Undef).
Proof. intros Hs Hd Hn. split_and!; [by apply strcpy_ok|by apply strncpy_ok|by apply strcat_ok]. Qed.

(** ** [strtok] *)

Lemma in_set_ok set c r : is_str set -> in_set (cstr set r) c = Ret (bool_decide (c ∈ set)).
Proof.
  unfold cstr. induction 1 as [|p set [_ Hp] _ IH]; cbn [app in_set]; [done|].
  rewrite (proj2 (Z.eqb_neq p 0)) by done. destruct (Z.eqb_spec p c) as [->|Hne].
  - by rewrite bool_decide_true by by left.
  - rewrite IH. f_equal. apply bool_decide_ext. rewrite elem_of_cons. naive_solver.
Qed.

Section tokens.
Variable sep : chars.
Hypothesis Hsep : is_str sep.

(** The maximal pieces without separators. *)
Fixpoint words (s : chars) : list chars :=
  match s with
  | [] => []
  | c :: s' =>
      if bool_decide (c ∈ sep) then words s'
      else
        let ws := words s' in
        match s' with
        | [] => [[c]]
        | d :: _ => if bool_decide (d ∈ sep) then [c] :: ws else match ws with w :: ws' => (c :: w) :: ws' | [] => [[c]] end
        end
  end.

Lemma words_skip u s : Forall (fun c => c ∈ sep) u -> words (u ++ s) = words s.
Proof. induction 1 as [|c u Hc _ IH]; [done|]. simpl. by rewrite bool_decide_true by done. Qed.

Lemma words_word w s : w <> [] -> Forall (fun c => c ∉ sep) w -> match s with [] => True | c :: _ => c ∈ sep end ->
  words (w ++ s) = w :: words s.
Proof.
  intros Hne Hw Hs. induction Hw as [|c w Hc Hw IH]; [done|]. simpl. rewrite bool_decide_false by done.
  destruct w as [|d w]; simpl app in *.
  - destruct s as [|e s]; [done|]. by rewrite bool_decide_true by done.
  - rewrite IH by done. apply Forall_cons in Hw as [Hd _]. by rewrite bool_decide_false by done.
Qed.

(** The string from [s] on: separators, a word, and the rest. *)
Lemma cut s : exists u w t, s = u ++ w ++ t /\ Forall (fun c => c ∈ sep) u /\ Forall (fun c => c ∉ sep) w /\
  match t with [] => True | c :: _ => c ∈ sep end /\ (w = [] -> t = []).
Proof.
  assert (forall s, exists w t, s = w ++ t /\ Forall (fun c => c ∉ sep) w /\ match t with [] => True | c :: _ => c ∈ sep end) as Hw.
  { clear s. induction s as [|c s (w & t & -> & Hw & Ht)]; [by exists [], []|].
    destruct (decide (c ∈ sep)); [exists [], (c :: w ++ t)|exists (c :: w), t]; split_and!; auto. }
  induction s as [|c s (u & w & t & -> & Hu & Hx & Ht & He)]; [by exists [], [], []|].
  destruct (decide (c ∈ sep)) as [Hin|Hin]; [exists (c :: u), w, t; split_and!; auto|].
  destruct (Hw (u ++ w ++ t)) as (w' & t' & -> & Hw' & Ht'). exists [], (c :: w'), t'. split_and!; auto. done.
Qed.

Lemma strspn_ok u s r r' : Forall (fun c => c ∈ sep) u -> is_str u -> match s with [] => True | c :: _ => (c ∉ sep) /\ c <> 0 end ->
  strspn (cstr (u ++ s) r) (cstr sep r') = Ret (length u).
Proof.
  intros Hu Hs Hc. unfold cstr. induction Hu as [|c u Hin _ IH]; cbn [app].
  - destruct s as [|c s]; [done|]. cbn [app strspn]. destruct Hc as [Hc Hc0]. rewrite (proj2 (Z.eqb_neq c 0)) by done.
    fold (cstr sep r'). rewrite in_set_ok by done. cbn [obind]. by rewrite bool_decide_false by done.
  - apply Forall_cons in Hs as [[_ Hc0] Hs]. cbn [strspn]. rewrite (proj2 (Z.eqb_neq c 0)) by done.
    fold (cstr sep r'). rewrite in_set_ok by done. cbn [obind]. rewrite bool_decide_true by done. fold (cstr sep r') in IH. by rewrite IH.
Qed.

Lemma zero_not_sep : ((0 : Z) ∉ sep).
Proof. intros H. apply (proj1 (Forall_forall _ _) Hsep) in H as [_ ?]. done. Qed.

Lemma strpbrk_ok w t r r' : Forall (fun c => c ∉ sep) w -> is_str w -> match t with [] => True | c :: _ => c ∈ sep end ->
  strpbrk (cstr (w ++ t) r) (cstr sep r') = Ret (match t with [] => None | _ => Some (length w) end).
Proof.
  intros Hw Hs Ht. unfold cstr. fold (cstr sep r'). induction Hw as [|c w Hout _ IH]; cbn [app].
  - destruct t as [|c t]; cbn [app strpbrk]; rewrite in_set_ok by done; cbn [obind].
    + rewrite bool_decide_false by apply zero_not_sep. done.
    + by rewrite bool_decide_true by done.
  - apply Forall_cons in Hs as [[_ Hc0] Hs]. cbn [strpbrk]. rewrite in_set_ok by done. cbn [obind]. rewrite bool_decide_false by done.
    rewrite (proj2 (Z.eqb_neq c 0)) by done. rewrite IH by done. by destruct t.
Qed.
(** The string that starts at a pointer. *)
Fixpoint take_str (l : chars) : chars :=
  match l with [] => [] | c :: l' => if c =? 0 then [] else c :: take_str l' end.

Lemma take_str_cstr s r : is_str s -> take_str (cstr s r) = s.
Proof. unfold cstr. induction 1 as [|c s [_ Hc] _ IH]; [done|]. simpl. rewrite (proj2 (Z.eqb_neq c 0)) by done. by rewrite IH. Qed.

(** Calling [strtok] until it returns null: the tokens, each read when it is returned. *)
Fixpoint strtok_all (fuel : nat) (b : chars) (savept string : option nat) (sepset : chars) : outcome (list chars) :=
  match fuel with
  | O => Stop Diverge
  | S fuel' =>
      let? (r, b', savept') := strtok b savept string sepset in
      match r with
      | None => Ret []
      | Some q => let? ts := strtok_all fuel' b' savept' None sepset in Ret (take_str (drop q b') :: ts)
      end
  end.

(** What one call does at offset [p] of the object. *)
Lemma strtok_step b p s r r' savept string : is_str s -> drop p b = cstr s r ->
  (if string is Some p then Some p else savept) = Some p ->
  exists u w t, s = u ++ w ++ t /\ words s = (if decide (w = []) then [] else w :: words t) /\ match t with [] => True | c :: _ => c ∈ sep end /\
    strtok b savept string (cstr sep r') = Ret
      (if decide (w = []) then (None, b, savept)
       else (Some (p + length u)%nat,
             match t with [] => b | _ => <[(p + length u + length w)%nat := 0]> b end,
             match t with [] => None | _ => Some (p + length u + length w + 1)%nat end)).
Proof.
  intros Hs Eb Ep. destruct (cut s) as (u & w & t & -> & Hu & Hw & Ht & He). exists u, w, t.
  apply Forall_app in Hs as [Su [Sw St]%Forall_app]. split; [done|].
  assert (words (u ++ w ++ t) = if decide (w = []) then [] else w :: words t) as Ewords.
  { rewrite words_skip by done. destruct (decide (w = [])) as [->|Hne]; [by rewrite He|by apply words_word]. }
  split; [done|]. split; [done|]. unfold strtok. rewrite Ep, Eb.
  rewrite strspn_ok; [|done|done|].
  2: { destruct w as [|c w]; [by rewrite He|]. simpl. apply Forall_cons in Hw as [? _], Sw as [[_ ?] _]. done. }
  cbn [obind]. assert (drop (p + length u) b = cstr (w ++ t) r) as Eq.
  { rewrite <- drop_drop, Eb. unfold cstr. rewrite <- !app_assoc, drop_app_length. done. }
  assert (b !! (p + length u)%nat = cstr (w ++ t) r !! 0%nat) as El by (rewrite <- Eq, lookup_drop; f_equal; lia). rewrite El, Eq.
  destruct (decide (w = [])) as [->|Hne]; [by rewrite He|]. destruct w as [|c w]; [done|].
  change (cstr ((c :: w) ++ t) r !! 0%nat) with (Some c). cbn iota. rewrite (proj2 (Z.eqb_neq c 0)) by (apply Forall_cons in Sw as [[_ ?] _]; done).
  rewrite strpbrk_ok by done. cbn [obind]. by destruct t.
Qed.

Lemma strtok_all_ok fuel b p s r r' savept string : is_str s -> drop p b = cstr s r ->
  (if string is Some p then Some p else savept) = Some p -> (length s + 2 <= fuel)%nat ->
  strtok_all fuel b savept string (cstr sep r') = Ret (words s).
Proof.
  revert b p s savept string. induction fuel as [|fuel IH]; intros b p s savept string Hs Eb Ep Hf; [lia|].
  destruct (strtok_step b p s r r' savept string Hs Eb Ep) as (u & w & t & -> & -> & Ht & Es).
  cbn [strtok_all]. rewrite Es. cbn [obind]. destruct (decide (w = [])) as [|Hne]; [done|].
  apply Forall_app in Hs as [Su [Sw St]%Forall_app]. rewrite !length_app in Hf.
  assert (drop (p + length u) b = w ++ t ++ 0 :: r) as Eq.
  { rewrite <- drop_drop, Eb. unfold cstr. rewrite <- !app_assoc, drop_app_length. done. }
  destruct t as [|c t].
  - destruct fuel as [|fuel]; [simpl in Hf; lia|]. simpl. rewrite Eq. do 2 f_equal. by apply take_str_cstr.
  - assert (drop (p + length u) (<[(p + length u + length w)%nat := 0]> b) = cstr w (t ++ 0 :: r)) as Eq'.
    { rewrite drop_insert_ge by lia. rewrite Eq. replace (p + length u + length w - (p + length u))%nat with (length w + 0)%nat by lia.
      rewrite insert_app_r. done. }
    apply Forall_cons in St as [_ St]. simpl in Hf.
    rewrite (IH _ (p + length u + length w + 1)%nat t); [|done| |done|].
    + cbn [obind]. rewrite Eq', take_str_cstr by done. do 2 f_equal. simpl. by rewrite bool_decide_true by exact Ht.
    + rewrite <- Nat.add_assoc, <- drop_drop, Eq'. unfold cstr. rewrite <- drop_drop, drop_app_length. done.
    + destruct w; [done|]. simpl in *. lia.
Qed.
End tokens.

(** C25: a call of [strtok] with a string and further calls with null return, one
    after the other, the maximal pieces of the string without separators, and
    then null. *)
Theorem strtok_correct sep s r r' savept : is_str sep -> is_str s ->
  strtok_all (length s + 2) (cstr s r) savept (Some 0%nat) (cstr sep r') = Ret (words sep s).
Proof. intros Hsep Hs. by apply (strtok_all_ok sep Hsep _ _ 0 s r). Qed.

(** ** The theorems at concrete strings *)

Ltac concrete_str := unfold is_str, is_char; repeat (apply Forall_cons; split; [lia|]); apply Forall_nil_2.

(** "ls", "lsa", and "ls -l  /" cut at blanks. *)
Lemma strcmp_correct_witness : strcmp [108; 115; 0] [108; 115; 97; 0; 7] = Ret (-97) /\ strncmp [108; 115; 0] [108; 115; 97; 0; 7] 2 = Ret 0.
Proof.
  assert (is_str [108; 115]) as H1 by concrete_str.
  assert (is_str [108; 115; 97]) as H2 by concrete_str.
  destruct (strcmp_correct [108; 115] [108; 115; 97] [] [7] 2 H1 H2) as [(x & E & _ & Hx) (y & E' & Hy & _)].
  assert (ascii [108; 115]) as A1 by (repeat constructor; lia). assert (ascii [108; 115; 97]) as A2 by (repeat constructor; lia).
  split; [etransitivity; [exact E|]; f_equal; exact (Hx A1 A2)|]. etransitivity; [exact E'|]. f_equal. by apply Hy.
Defined.

Lemma strstr_correct_witness : strstr [97; 98; 97; 98; 99; 0] [97; 98; 99; 0] = Ret (Some 2%nat).
Proof.
  assert (is_str [97; 98; 97; 98; 99]) as H1 by concrete_str.
  assert (is_str [97; 98; 99]) as H2 by concrete_str.
  destruct (strstr_correct [97; 98; 97; 98; 99] [97; 98; 99] [] [] 98 H1 H2 ltac:(unfold is_char; lia) ltac:(lia)) as [(o & E & Ho) _].
  vm_compute. reflexivity.
Defined.

Lemma str_copy_correct_witness : strcpy [1; 1; 1; 1] [97; 98; 0] = Ret [97; 98; 0; 1] /\ strncpy [1; 1; 1; 1] [97; 98; 0] 2 = Ret [97; 98; 1; 1] /\
  strcat [99; 0; 5; 5] [97; 98; 0] = Ret [99; 97; 98; 0] /\ strcpy [1; 1] [97; 98; 0] = Stop Undef.
Proof.
  assert (is_str [97; 98]) as H1 by concrete_str.
  assert (is_str [99]) as H2 by concrete_str.
  destruct (str_copy_correct [1; 1; 1; 1] [99] [5; 5] [97; 98] [] 2 H1 H2 ltac:(simpl; lia)) as (E1 & E2 & E3).
  destruct (str_copy_correct [1; 1] [99] [5; 5] [97; 98] [] 2 H1 H2 ltac:(simpl; lia)) as (E4 & _).
  split; [exact E1|]. split; [exact E2|]. split; [exact E3|exact E4].
Defined.

Lemma strtok_correct_witness : strtok_all 10 [108; 115; 32; 45; 108; 32; 32; 47; 0] None (Some 0%nat) [32; 0] = Ret [[108; 115]; [45; 108]; [47]].
Proof.
  assert (is_str [32]) as H1 by concrete_str.
  assert (is_str [108; 115; 32; 45; 108; 32; 32; 47]) as H2 by concrete_str.
  exact (strtok_correct [32] [108; 115; 32; 45; 108; 32; 32; 47] [] [] None H1 H2).
Defined.
