(* ===== verification/Warmup1.v ===== *)
(** * The bank statement program (build_form_linked_list/warmup1.c)

    The program reads transactions, one per line, sorts them by date and prints
    a statement with running balances.  The model is a function from the bytes
    of the input to what is printed, an [exit] with its reason, or undefined
    behaviour.  What depends on the machine is an argument: [now] is the result
    of [time] and [ctime] the text of a local time.

    A pointer into a string is what is left of the object, as in CString.v, whose
    [strlen], [strchr] and [strcmp] agree with those of the C library; [strncpy]
    and [atoi] are defined here as the C standard has them.  The list of
    transactions is the list of its structures: My402.v is about the list
    itself.  [line_unit_ptr[line]], which lies one element behind the array
    [line_unit_ptr] of [line] elements, is taken to be a variable of its own, and
    [malloc] to succeed. *)

From stdpp Require Import strings sorting.
From Stdlib Require Import Sorted.
From S2P Require Import Prelude CString.

(** A string constant. *)
Definition str (s : string) : chars := (fun a => Z.of_N (Ascii.N_of_ascii a)) <$> String.list_ascii_of_string s.

Definition TAB : Z := 9.
Definition NEWLINE : Z := 10.

(** ** Results *)

(** The calls of [exit(1)]. *)
Inductive reason : Type :=
| TooLarge | BadFirst | MissingField | FutureTime | BadAmount | TooManyFields | NoNewline | SameTime.

Definition P (A : Type) : Type := outcome (reason + A).

Definition pret {A} (a : A) : P A := Ret (inr a).
Definition exits {A} (r : reason) : P A := Ret (inl r).
Definition pbind {A B} (m : P A) (k : A -> P B) : P B :=
  match m with Ret (inr a) => k a | Ret (inl r) => Ret (inl r) | Stop f => Stop f end.
Definition lift {A} (m : outcome A) : P A := match m with Ret a => Ret (inr a) | Stop f => Stop f end.

Notation "'let*' x ':=' m 'in' k" := (pbind m (fun x => k))
  (at level 10, x pattern, m at level 100, k at level 200) : kernel_scope.

(** ** The C library *)

(** [strncpy] fills up with zeros. *)
Fixpoint c_strncpy (src : chars) (n : nat) {struct n} : outcome chars :=
  match n with
  | O => Ret []
  | S n' =>
      match src with
      | [] => Stop Undef
      | c :: src' => if c =? 0 then Ret (replicate n 0) else let? r := c_strncpy src' n' in Ret (c :: r)
      end
  end.

Definition isspace (c : Z) : bool := (c =? 32) || (9 <=? c) && (c <=? 13).
Definition isdigit (c : Z) : bool := (48 <=? c) && (c <=? 57).

Fixpoint atoi_digits (s : chars) (acc : Z) : outcome Z :=
  match s with
  | [] => Stop Undef
  | c :: s' => if isdigit c then atoi_digits s' (10 * acc + (c - 48)) else Ret acc
  end.

(** A value that is not an [int] is undefined. *)
Fixpoint atoi (s : chars) : outcome Z :=
  match s with
  | [] => Stop Undef
  | c :: s' =>
      if isspace c then atoi s'
      else if c =? 45 then (let? n := atoi_digits s' 0 in as_int (- n))
      else if c =? 43 then (let? n := atoi_digits s' 0 in as_int n)
      else let? n := atoi_digits s 0 in as_int n
  end.

(** [printf("%d", z)]; an [int] has at most ten digits. *)
Fixpoint show_digits (fuel : nat) (z : Z) : chars :=
  match fuel with
  | O => []
  | S fuel' => if z <? 10 then [48 + z] else show_digits fuel' (z / 10) ++ [48 + z mod 10]
  end.

Definition show (z : Z) : chars := if z <? 0 then 45 :: show_digits 10 (- z) else show_digits 10 z.

(** [fgets(buf, 1026, fp)]: the line and the rest of the file. *)
Fixpoint fgets_loop (n : nat) (file : chars) : chars * chars :=
  match n, file with
  | S n', c :: file' => if c =? NEWLINE then ([c], file') else let '(l, r) := fgets_loop n' file' in (c :: l, r)
  | _, _ => ([], file)
  end.

Definition fgets (file : chars) : option (chars * chars) :=
  match file with [] => None | _ => Some (fgets_loop 1025 file) end.

(** ** Reading *)

(** The four fields, in the memory [malloc] gave. *)
Record unit_t : Type := Unit { sign : chars; date : chars; amount : chars; descrition : chars }.

Definition check_buf (buf : chars) : outcome bool :=
  match buf with [] => Stop Undef | c :: _ => Ret ((c =? 43) || (c =? 45)) end.

(** The text up to the next tab and the text behind it. *)
Definition field (start : chars) : P (chars * chars) :=
  let* tab := lift (strchr start TAB) in
  match tab with
  | None => exits MissingField
  | Some k => pret (<[k := 0]> start, drop (S k) start)
  end.

Section program.
Variable now : Z.                  (* time() *)
Variable ctime : Z -> chars.       (* the string ctime() returns *)

(** The body of the loop of [parse], for the line in [buf]. *)
Definition parse_line (buf : chars) : P unit_t :=
  let* len := lift (strlen buf) in
  if (100 <=? len)%nat then exits TooLarge else
  let* check1 := lift (check_buf buf) in
  if negb check1 then exits BadFirst else
  let* (s0, rest) := field buf in
  let* sg := lift (c_strncpy s0 3) in
  let* (s1, rest) := field rest in
  let* dt := lift (c_strncpy s1 30) in
  let* t := lift (atoi s1) in
  if now <? t then exits FutureTime else
  let* (s2, rest) := field rest in
  let* am := lift (c_strncpy s2 56) in
  let* x := lift (strchr s2 46) in
  match x with
  | None => Stop Undef
  | Some k =>
      let* xl := lift (strlen (drop k s2)) in
      if negb (xl =? 3)%nat then exits BadAmount else
      let* tab := lift (strchr rest TAB) in
      match tab with
      | Some _ => exits TooManyFields
      | None =>
          let* nl := lift (strchr rest NEWLINE) in
          match nl with
          | None => exits NoNewline
          | Some k =>
              let* ds := lift (c_strncpy (<[k := 0]> rest) 128) in
              pret (Unit sg dt am ds)
          end
      end
  end.

(** [parse]: the newest line first.  A file of [n] bytes has at most [n] lines. *)
Fixpoint parse_loop (fuel : nat) (file : chars) (lst : list unit_t) : P (list unit_t) :=
  match fgets file with
  | None => pret lst
  | Some (l, rest) =>
      match fuel with
      | O => Stop Diverge
      | S fuel' =>
          let* u := parse_line (l ++ replicate (1026 - length l) 0) in
          parse_loop fuel' rest (u :: lst)
      end
  end.

Definition parse (file : chars) : P (list unit_t) := parse_loop (length file) file [].

(** The inner loop of [check_time]. *)
Fixpoint check_date (p : chars) (l : list unit_t) : P unit :=
  match l with
  | [] => pret tt
  | u :: l' =>
      let* r := lift (strcmp p (date u)) in
      if r =? 0 then exits SameTime else check_date p l'
  end.

(** For the empty list the loop starts with the anchor, which has no structure. *)
Fixpoint check_time (l : list unit_t) : P unit :=
  match l with
  | [] => Stop Undef
  | [u] => pret tt
  | u :: l' => let* _ := check_date (date u) l' in check_time l'
  end.

(** ** Sorting *)

(** The inner loop: [k] comparisons from the front, of [a[i]] with [a[i+1]] and
    of the structures at [p] and [p->next]. *)
Fixpoint bubble_pass (k : nat) (a : list Z) (l : list unit_t) : list Z * list unit_t :=
  match k, a, l with
  | S k', x :: y :: a', u :: v :: l' =>
      if y <? x then let '(a2, l2) := bubble_pass k' (x :: a') (u :: l') in (y :: a2, v :: l2)
      else let '(a2, l2) := bubble_pass k' (y :: a') (v :: l') in (x :: a2, u :: l2)
  | _, _, _ => (a, l)
  end.

(** The outer loop, with [n - 1 - j] as counter. *)
Fixpoint bubble_loop (k : nat) (a : list Z) (l : list unit_t) : list Z * list unit_t :=
  match k with
  | O => (a, l)
  | S k' => let '(a2, l2) := bubble_pass k a l in bubble_loop k' a2 l2
  end.

Definition bubble_sort (a : list Z) (n : nat) (l : list unit_t) : list unit_t := (bubble_loop (n - 1) a l).2.

Fixpoint keys (l : list unit_t) : outcome (list Z) :=
  match l with
  | [] => Ret []
  | u :: l' => let? k := atoi (date u) in let? ks := keys l' in Ret (k :: ks)
  end.

(** The arrays [a] and [b] have 300 elements. *)
Definition sortinput (l : list unit_t) : outcome (list unit_t) :=
  if (300 <? length l)%nat then Stop Undef
  else let? b := keys l in Ret (bubble_sort b (length l) l).

(** ** Printing *)

Definition print_process (len x : Z) : chars :=
  let cents := str "." ++ show (Z.rem x 100 ÷ 10) ++ show (Z.rem x 10) in
  let fill z := if (z <? 100) && (9 <? z) then str "0" else if z <=? 9 then str "00" else [] in
  if len <=? 6 then show (x ÷ 100) ++ cents
  else if len <=? 11 then
    let y := x ÷ 100000 in
    let w := (x - y * 100000) ÷ 100 in
    show (x ÷ 100000) ++ str "," ++ fill w ++ show w ++ cents
  else if len =? 12 then
    let z := x ÷ 100000000 in
    let y := (x - z * 100000000) ÷ 100000 in
    let w := (x - z * 100000000 - y * 100000) ÷ 100 in
    show (x ÷ 100000000) ++ str "," ++ fill y ++ show y ++ str "," ++ fill w ++ show w ++ cents
  else str "  ?,???,???.??".

Definition lenhelper (x : Z) : Z :=
  if 1000000000 <=? x then 10 else if 100000000 <=? x then 9 else if 10000000 <=? x then 8
  else if 1000000 <=? x then 7 else if 100000 <=? x then 6 else if 10000 <=? x then 5
  else if 1000 <=? x then 4 else if 100 <=? x then 3 else if 10 <=? x then 2 else 1.

(** [for (j = len; (width - j) != 0; j++) printf(" ");] *)
Definition pad_to (width len : Z) : outcome chars :=
  if len <=? width then Ret (replicate (Z.to_nat (width - len)) 32) else Stop Diverge.

(** [abs] *)
Definition c_abs (z : Z) : outcome Z := as_int (Z.abs z).

(** The new value of [globle] and the balance column. *)
Definition balance (globle x : Z) (u : unit_t) : outcome (Z * chars) :=
  let? r := strcmp (sign u) [43; 0] in
  let? globle := as_int (if r =? 0 then globle + x else globle - x) in
  let? k := (if 0 <? globle then Ret (lenhelper globle) else let? a := c_abs globle in Ret (lenhelper a)) in
  let format_len := if k <=? 5 then k + 1 else if k <=? 8 then k + 2 else if k =? 9 then k + 3 else 0 in
  let? a := c_abs globle in
  let? col :=
    (if (0 <? globle) && (globle <? 1000000000) then
       let? sp := pad_to 14 format_len in
       Ret (sp ++ print_process format_len globle ++ str "  |")
     else if (globle <? 0) && (a <? 1000000000) then
       let? sp := pad_to 12 format_len in
       Ret (str " (" ++ sp ++ print_process format_len a ++ str ") |")
     else Ret (str "  ?,???,???.??  |")) in
  Ret (globle, col ++ [NEWLINE]).

(** Bytes 0 to 10 and 20 to 23 of the text of the date. *)
Definition print_date (u : unit_t) : outcome chars :=
  let? timer := atoi (date u) in
  let? buf := c_strncpy (ctime timer) 26 in
  Ret (take 11 buf ++ take 4 (drop 20 buf)).

Definition print_description (u : unit_t) : outcome chars :=
  let? describle := c_strncpy (descrition u) 24 in
  let? i := strlen (describle ++ [0]) in
  Ret (take i describle ++ replicate (25 - i) 32).

(** [x], and the length [format_len] made from the length of the text. *)
Definition read_amount (u : unit_t) : outcome (Z * Z) :=
  let? amount_len := strlen (amount u) in
  let? decimal := strchr (amount u) 46 in
  match decimal with
  | None => Stop Undef
  | Some k =>
      let? c := atoi (drop (S k) (amount u)) in
      let? w := atoi (<[k := 0]> (amount u)) in
      let? h := as_int (100 * w) in
      let? x := as_int (c + h) in
      let n := Z.of_nat amount_len in
      Ret (x, if n <=? 6 then n else if n <=? 9 then n + 1 else if n =? 10 then n + 2 else n + 3)
  end.

Definition print_line (globle : Z) (u : unit_t) : outcome (Z * chars) :=
  let? dt := print_date u in
  let? ds := print_description u in
  let? (x, format_len) := read_amount u in
  let? r := strcmp (sign u) [43; 0] in
  let am :=
    if r =? 0 then replicate (Z.to_nat (14 - format_len)) 32 ++ print_process format_len x ++ str "  |"
    else str " (" ++ replicate (Z.to_nat (12 - format_len)) 32 ++ print_process format_len x ++ str ") |" in
  let? (globle, bal) := balance globle x u in
  Ret (globle, str "| " ++ dt ++ str " | " ++ ds ++ str "|" ++ am ++ bal).

Fixpoint print_lines (globle : Z) (l : list unit_t) : outcome chars :=
  match l with
  | [] => Ret []
  | u :: l' => let? (globle, row) := print_line globle u in let? rows := print_lines globle l' in Ret (row ++ rows)
  end.

Definition rule : chars := str "+-----------------+--------------------------+----------------+----------------+" ++ [NEWLINE].

Definition print_sign : chars :=
  rule ++ str "|       Date      | Description              |         Amount |        Balance |" ++ [NEWLINE] ++ rule.

Definition PrintStatement (l : list unit_t) : outcome chars :=
  let? rows := print_lines 0 l in
  Ret (print_sign ++ rows ++ rule).

(** [main] after the file was opened: what is printed. *)
Definition main (file : chars) : P chars :=
  let* lst := parse file in
  let* _ := check_time lst in
  let* lst := lift (sortinput lst) in
  lift (PrintStatement lst).
End program.

(** ** A small run *)

Definition row_text (s d a t : string) : chars := str s ++ [TAB] ++ str d ++ [TAB] ++ str a ++ [TAB] ++ str t ++ [NEWLINE].

Definition some_time (t : Z) : chars := str "Thu Jan  1 00:00:00 1970" ++ [NEWLINE; 0].

(** ** The sort *)

Section sort.
Context {A : Type} (key : A -> Z).

(** [bubble_pass] on a list alone. *)
Fixpoint bpass (k : nat) (l : list A) : list A :=
  match k, l with
  | S k', u :: v :: l' => if key v <? key u then v :: bpass k' (u :: l') else u :: bpass k' (v :: l')
  | _, _ => l
  end.

Fixpoint bsort (k : nat) (l : list A) : list A :=
  match k with O => l | S k' => bsort k' (bpass k l) end.

(** A pass carries the largest of the first [k + 1] elements to place [k]. *)
Lemma bpass_spec k l : (k < length l)%nat ->
  exists pre m, bpass k l = pre ++ m :: drop (S k) l /\ length pre = k /\ Permutation (pre ++ [m]) (take (S k) l) /\
    Forall (fun x => key x <= key m) pre.
Proof.
  revert l. induction k as [|k IH]; intros l Hl.
  { destruct l as [|u l]; [simpl in Hl; lia|]. exists [], u. simpl. by destruct l. }
  destruct l as [|u [|v l]]; [simpl in Hl; lia..|]. cbn [bpass].
  destruct (Z.ltb_spec (key v) (key u)) as [Hlt|Hge].
  - destruct (IH (u :: l)) as (pre & m & -> & Hk & Hp & Hm); [simpl in *; lia|].
    exists (v :: pre), m. split_and!; [done|simpl; lia| |].
    + change (Permutation ((v :: pre) ++ [m]) (u :: v :: take k l)). rewrite perm_swap. simpl. by constructor.
    + constructor; [|done]. assert (u ∈ pre ++ [m]) as Hu by (rewrite Hp; by left).
      apply elem_of_app in Hu as [Hu|Hu%list_elem_of_singleton]; [|by subst; lia].
      apply (proj1 (Forall_forall _ _) Hm) in Hu. lia.
  - destruct (IH (v :: l)) as (pre & m & -> & Hk & Hp & Hm); [simpl in *; lia|].
    exists (u :: pre), m. split_and!; [done|simpl; lia| |].
    + change (Permutation ((u :: pre) ++ [m]) (u :: take (S k) (v :: l))). simpl. by constructor.
    + constructor; [|done]. assert (v ∈ pre ++ [m]) as Hv by (rewrite Hp; by left).
      apply elem_of_app in Hv as [Hv|Hv%list_elem_of_singleton]; [|by subst; lia].
      apply (proj1 (Forall_forall _ _) Hm) in Hv. lia.
Qed.

Definition key_le (x y : A) : Prop := key x <= key y.

Lemma bsort_spec k l : (k < length l)%nat ->
  exists l1, bsort k l = l1 ++ drop (S k) l /\ Permutation l1 (take (S k) l) /\ StronglySorted key_le l1.
Proof.
  revert l. induction k as [|k IH]; intros l Hl.
  { destruct l as [|u l]; [simpl in Hl; lia|]. exists [u]. split; [done|]. split; [simpl; done|]. by repeat constructor. }
  destruct (bpass_spec (S k) l Hl) as (pre & m & E & Hk & Hp & Hm). cbn [bsort]. rewrite E.
  assert (k < length (pre ++ m :: drop (S (S k)) l))%nat as Hl' by (rewrite length_app; lia).
  destruct (IH _ Hl') as (l1 & -> & Hp1 & Hs1).
  rewrite drop_app_ge in * by lia. rewrite take_app_le, take_ge in Hp1 by lia. replace (S k - length pre)%nat with 0%nat by lia.
  exists (l1 ++ [m]). split; [by rewrite <- app_assoc|]. split; [by rewrite Hp1, Hp|].
  assert (Forall (fun x => key x <= key m) l1) as Hm1 by (by rewrite Hp1).
  clear - Hs1 Hm1. induction Hs1 as [|x l1 _ IH Hx]; [by repeat constructor|]. apply Forall_cons in Hm1 as [Hx1 Hm1].
  simpl. constructor; [by apply IH|]. apply Forall_app. split; [done|]. by repeat constructor.
Qed.

(** Elements with equal keys keep their order. *)
Lemma bpass_stable k l z : filter (fun x => key x = z) (bpass k l) = filter (fun x => key x = z) l.
Proof.
  revert l. induction k as [|k IH]; intros [|u [|v l]]; try done. cbn [bpass]. destruct (Z.ltb_spec (key v) (key u)) as [Hlt|Hge].
  - rewrite filter_cons, IH, !filter_cons. by repeat case_decide; try lia.
  - by rewrite filter_cons, IH, (filter_cons _ u).
Qed.

Lemma bsort_stable k l z : filter (fun x => key x = z) (bsort k l) = filter (fun x => key x = z) l.
Proof. revert l. induction k as [|k IH]; intros l; [done|]. cbn [bsort]. by rewrite IH, bpass_stable. Qed.

Lemma bsort_sorts l : Permutation (bsort (length l - 1) l) l /\ StronglySorted key_le (bsort (length l - 1) l).
Proof.
  destruct l as [|u l]; [split; [done|constructor]|].
  destruct (bsort_spec (length (u :: l) - 1) (u :: l)) as (l1 & -> & Hp & Hs); [simpl; lia|].
  replace (S (length (u :: l) - 1)) with (length (u :: l)) in * by (simpl; lia).
  rewrite drop_ge, app_nil_r by done. rewrite take_ge in Hp by done. done.
Qed.
End sort.

(** The array of keys and the list stay in step. *)
Lemma bubble_pass_eq key k l : bubble_pass k (key <$> l) l = (key <$> bpass key k l, bpass key k l).
Proof.
  revert l. induction k as [|k IH]; intros [|u [|v l]]; try done. cbn [bubble_pass bpass fmap list_fmap].
  pose proof (IH (u :: l)) as IHu. pose proof (IH (v :: l)) as IHv. cbn [fmap list_fmap] in IHu, IHv. rewrite IHu, IHv.
  by destruct (_ <? _).
Qed.

Lemma bubble_loop_eq key k l : bubble_loop k (key <$> l) l = (key <$> bsort key k l, bsort key k l).
Proof. revert l. induction k as [|k IH]; intros l; [done|]. cbn [bubble_loop bsort]. by rewrite bubble_pass_eq, IH. Qed.

Lemma keys_ok key l : Forall (fun u => atoi (date u) = Ret (key u)) l -> keys l = Ret (key <$> l).
Proof. induction 1 as [|u l E _ IH]; [done|]. simpl. by rewrite E, IH. Qed.

Lemma sortinput_ok key l : (length l <= 300)%nat -> Forall (fun u => atoi (date u) = Ret (key u)) l ->
  sortinput l = Ret (bsort key (length l - 1) l).
Proof.
  intros Hl Hk. unfold sortinput. destruct (Nat.ltb_spec 300 (length l)); [lia|]. rewrite (keys_ok key) by done. cbn [obind].
  unfold bubble_sort. by rewrite bubble_loop_eq.
Qed.

(** [sortinput] returns the transactions it was given, each once, in the
    order of their dates as numbers, and those of the same date in the order they
    had; the array of dates and the list are sorted together. *)
Theorem sortinput_correct key l : (length l <= 300)%nat -> Forall (fun u => atoi (date u) = Ret (key u)) l ->
  exists l', sortinput l = Ret l' /\ Permutation l' l /\ StronglySorted (fun u v => key u <= key v) l' /\
    forall z, filter (fun u => key u = z) l' = filter (fun u => key u = z) l.
Proof.
  intros Hl Hk. exists (bsort key (length l - 1) l). split; [by apply sortinput_ok|].
  destruct (bsort_sorts key l) as [Hp Hs]. split; [done|]. split; [exact Hs|]. intros z. apply bsort_stable.
Qed.

(** ** Numbers as text *)

Lemma show_digits_10 fuel z : 10 <= z -> show_digits (S fuel) z = show_digits fuel (z / 10) ++ [48 + z mod 10].
Proof. intros. cbn [show_digits]. destruct (Z.ltb_spec z 10); [lia|done]. Qed.

Lemma show_digits_1 fuel z : z < 10 -> show_digits (S fuel) z = [48 + z].
Proof. intros. cbn [show_digits]. destruct (Z.ltb_spec z 10); [done|lia]. Qed.

#[local] Arguments show_digits : simpl never.

Lemma pow10_S n : 10 ^ Z.of_nat (S n) = 10 * 10 ^ Z.of_nat n.
Proof. rewrite Nat2Z.inj_succ, Z.pow_succ_r by lia. done. Qed.

(** More fuel than digits does not matter. *)
Lemma show_digits_fuel n m z : 0 <= z < 10 ^ Z.of_nat n -> (n <= m)%nat -> (0 < n)%nat -> show_digits m z = show_digits n z.
Proof.
  revert m z. induction n as [|n IH]; intros m z Hz Hm Hn; [lia|]. destruct m as [|m]; [lia|].
  destruct (decide (z < 10)); [by rewrite !show_digits_1 by lia|]. rewrite !show_digits_10 by lia. f_equal.
  rewrite pow10_S in Hz. destruct n as [|n]; [simpl in Hz; lia|]. apply IH; [|lia|lia]. dlia.
Qed.

Lemma show_digits_length n m z : (if decide (n = 1%nat) then 0 else 10 ^ Z.of_nat (n - 1)) <= z < 10 ^ Z.of_nat n -> (1 <= n <= m)%nat ->
  length (show_digits m z) = n.
Proof.
  revert m z. induction n as [|n IH]; intros m z Hz Hn; [lia|]. destruct m as [|m]; [lia|].
  destruct (decide (S n = 1%nat)) as [E|Hne].
  - injection E as ->. change (10 ^ Z.of_nat 1) with 10 in Hz. rewrite show_digits_1 by lia. done.
  - replace (S n - 1)%nat with n in Hz by lia. destruct n as [|n]; [done|].
    assert (10 <= z) by (rewrite pow10_S in Hz; assert (0 < 10 ^ Z.of_nat n) by (apply Z.pow_pos_nonneg; lia); lia).
    rewrite show_digits_10, length_app by lia. rewrite IH; [simpl; lia| |lia]. rewrite !pow10_S in Hz. rewrite pow10_S.
    replace (S n - 1)%nat with n by lia. case_decide; [injection H0 as ->; simpl in Hz; simpl|]; dlia.
Qed.

Lemma show_digits_chars fuel z : 0 <= z -> Forall (fun c => 48 <= c < 58) (show_digits fuel z).
Proof.
  revert z. induction fuel as [|fuel IH]; intros z Hz; [constructor|]. destruct (decide (z < 10)).
  - rewrite show_digits_1 by lia. repeat constructor; lia.
  - rewrite show_digits_10 by lia. apply Forall_app. split; [apply IH; dlia|]. constructor; [dlia|constructor].
Qed.

Lemma digits_is_str s : Forall (fun c => 48 <= c < 58) s -> is_str s.
Proof. intros H. eapply Forall_impl; [exact H|]. unfold is_char. simpl. intros. lia. Qed.

(** Reading back what was printed. *)
Lemma atoi_digits_show fuel z s acc : 0 <= z < 10 ^ Z.of_nat fuel -> (0 < fuel)%nat ->
  atoi_digits (show_digits fuel z ++ s) acc = atoi_digits s (acc * 10 ^ Z.of_nat (length (show_digits fuel z)) + z).
Proof.
  revert z s acc. induction fuel as [|fuel IH]; intros z s acc Hz Hf; [lia|]. destruct (decide (z < 10)).
  - rewrite show_digits_1 by lia. simpl. unfold isdigit. rewrite (proj2 (Z.leb_le _ _)), (proj2 (Z.leb_le _ _)) by lia. simpl. f_equal. lia.
  - rewrite pow10_S in Hz. destruct fuel as [|fuel]; [simpl in Hz; lia|].
    rewrite show_digits_10, <- app_assoc, IH by (try lia; dlia). simpl app.
    cbn [atoi_digits]. unfold isdigit. rewrite (proj2 (Z.leb_le _ _)), (proj2 (Z.leb_le _ _)) by dlia. cbn [andb].
    f_equal. rewrite length_app, Nat2Z.inj_add, Z.pow_add_r by lia. simpl length. change (10 ^ Z.of_nat 1) with 10. dlia.
Qed.

Lemma show_digits_cons fuel z : (0 < fuel)%nat -> 0 <= z -> exists c s, show_digits fuel z = c :: s /\ 48 <= c < 58.
Proof.
  intros Hf Hz. pose proof (show_digits_chars fuel z Hz) as H. destruct (show_digits fuel z) as [|c s] eqn:E.
  - exfalso. destruct fuel as [|fuel]; [lia|]. destruct (decide (z < 10)); [rewrite show_digits_1 in E by lia; done|].
    rewrite show_digits_10 in E by lia. by apply app_nil in E as [_ ?].
  - apply Forall_cons in H as [Hc _]. by exists c, s.
Qed.

Lemma isdigit_true c : 48 <= c < 58 -> isdigit c = true.
Proof. intros. unfold isdigit. by rewrite (proj2 (Z.leb_le _ _)), (proj2 (Z.leb_le _ _)) by lia. Qed.

(** A number that starts with a digit. *)
Lemma atoi_digit d s : 48 <= d < 58 -> atoi (d :: s) = let? n := atoi_digits (d :: s) 0 in as_int n.
Proof.
  intros Hd. cbn [atoi]. unfold isspace.
  by rewrite (proj2 (Z.eqb_neq d 32)), (proj2 (Z.leb_gt d 13)), andb_false_r, (proj2 (Z.eqb_neq d 45)), (proj2 (Z.eqb_neq d 43)) by lia.
Qed.

Lemma atoi_show z c s : 0 <= z < 2147483648 -> isdigit c = false -> atoi (show_digits 10 z ++ c :: s) = Ret z.
Proof.
  intros Hz Hc. assert (atoi_digits (show_digits 10 z ++ c :: s) 0 = Ret z) as E.
  { rewrite atoi_digits_show by (simpl; lia). simpl. rewrite Hc. done. }
  destruct (show_digits_cons 10 z) as (d & l & El & Hd); [lia..|]. rewrite El in *. cbn [app] in *.
  rewrite atoi_digit, E by done. cbn [obind]. apply as_int_ok. lia.
Qed.

(** ** Amounts as text *)

(** A comma after every third digit from the right. *)
Fixpoint group_rev (l : chars) : chars :=
  match l with
  | a :: b :: c :: l' => match l' with [] => [a; b; c] | _ => a :: b :: c :: 44 :: group_rev l' end
  | _ => l
  end.

Definition group3 (l : chars) : chars := reverse (group_rev (reverse l)).

Definition two_digits (z : Z) : chars := [48 + z / 10; 48 + z mod 10].

(** An amount in cents, as it is printed and as it is written in the input. *)
Definition money (x : Z) : chars := group3 (show_digits 10 (x / 100)) ++ 46 :: two_digits (x mod 100).
Definition plain (x : Z) : chars := show_digits 10 (x / 100) ++ 46 :: two_digits (x mod 100).

Lemma group3_app l a b c : l <> [] -> group3 (l ++ [a; b; c]) = group3 l ++ [44; a; b; c].
Proof.
  intros Hne. unfold group3. rewrite reverse_app. change (reverse [a; b; c]) with [c; b; a]. simpl.
  destruct (reverse l) as [|d r] eqn:E; [by apply (f_equal reverse) in E; rewrite reverse_involutive in E|].
  rewrite <- E. rewrite !reverse_cons. by rewrite <- !app_assoc.
Qed.

Lemma group3_short l : (length l <= 3)%nat -> group3 l = l.
Proof.
  intros Hl. unfold group3. rewrite <- (length_reverse l) in Hl. rewrite <- (reverse_involutive l) at 2. f_equal.
  destruct (reverse l) as [|a [|b [|c [|]]]]; try done. simpl in Hl. lia.
Qed.

(** Three digits at the end. *)
Definition three_digits (z : Z) : chars := [48 + z / 100; 48 + z / 10 mod 10; 48 + z mod 10].

Lemma show_thousands a b : 0 < a < 10000000 -> 0 <= b < 1000 -> show_digits 10 (a * 1000 + b) = show_digits 10 a ++ three_digits b.
Proof.
  intros Ha Hb. rewrite !show_digits_10 by dlia. rewrite <- !app_assoc. unfold three_digits. simpl app. f_equal; [|f_equal; [dlia|f_equal; [dlia|f_equal; dlia]]].
  replace ((a * 1000 + b) / 10 / 10 / 10) with a by dlia. symmetry. apply show_digits_fuel; [simpl; lia|lia|lia].
Qed.

(** The zeros in front of a group that is not the first. *)
Lemma fill_group z : 0 <= z < 1000 ->
  (if (z <? 100) && (9 <? z) then str "0" else if z <=? 9 then str "00" else []) ++ show z = three_digits z.
Proof.
  intros Hz. unfold show, three_digits. rewrite (proj2 (Z.ltb_ge z 0)) by lia. destruct (Z.leb_spec z 9); [|destruct (Z.ltb_spec z 100)].
  - rewrite andb_comm, (proj2 (Z.ltb_ge 9 z)) by lia. simpl andb. rewrite show_digits_1 by lia. simpl. repeat f_equal; dlia.
  - rewrite (proj2 (Z.ltb_lt 9 z)) by lia. simpl andb. rewrite show_digits_10, show_digits_1 by dlia. simpl. repeat f_equal; dlia.
  - simpl andb. rewrite !show_digits_10, show_digits_1 by dlia. simpl. by rewrite Z.div_div by lia.
Qed.

Lemma cents_text x : 0 <= x -> str "." ++ show (Z.rem x 100 ÷ 10) ++ show (Z.rem x 10) = 46 :: two_digits (x mod 100).
Proof.
  intros Hx. rewrite !Z.rem_mod_nonneg, Z.quot_div_nonneg by dlia. unfold show, two_digits.
  rewrite !(proj2 (Z.ltb_ge _ 0)) by dlia. rewrite !show_digits_1 by dlia. simpl.
  by replace (x mod 10) with ((x mod 100) mod 10) by dlia.
Qed.

Lemma show_nonneg z : 0 <= z -> show z = show_digits 10 z.
Proof. intros. unfold show. by rewrite (proj2 (Z.ltb_ge z 0)) by lia. Qed.

Lemma show_small_length z : 0 <= z < 1000 -> (1 <= length (show_digits 10 z) <= 3)%nat.
Proof.
  intros Hz. destruct (decide (z < 10)); [|destruct (decide (z < 100))].
  - rewrite (show_digits_length 1) by (simpl; lia). lia.
  - rewrite (show_digits_length 2) by (simpl; lia). lia.
  - rewrite (show_digits_length 3) by (simpl; lia). lia.
Qed.

Lemma show_small_ne z : 0 <= z < 1000 -> show_digits 10 z <> [].
Proof. intros Hz E. pose proof (show_small_length z Hz) as H. rewrite E in H. simpl in H. lia. Qed.

(** The three forms of an amount. *)
Lemma money_1 x : 0 <= x < 100000 -> money x = show_digits 10 (x / 100) ++ 46 :: two_digits (x mod 100).
Proof. intros. unfold money. rewrite group3_short; [done|]. apply show_small_length. dlia. Qed.

Lemma money_2 x : 100000 <= x < 100000000 ->
  money x = show_digits 10 (x / 100000) ++ 44 :: three_digits (x / 100 mod 1000) ++ 46 :: two_digits (x mod 100).
Proof.
  intros. unfold money. replace (x / 100) with (x / 100000 * 1000 + x / 100 mod 1000) at 1 by dlia.
  rewrite show_thousands by dlia. unfold three_digits at 1. rewrite group3_app by (apply show_small_ne; dlia).
  rewrite group3_short by (apply show_small_length; dlia). by rewrite <- app_assoc.
Qed.

Lemma money_3 x : 100000000 <= x < 1000000000 ->
  money x = show_digits 10 (x / 100000000) ++ 44 :: three_digits (x / 100000 mod 1000) ++ 44 :: three_digits (x / 100 mod 1000) ++ 46 :: two_digits (x mod 100).
Proof.
  intros. unfold money. replace (x / 100) with (x / 100000 * 1000 + x / 100 mod 1000) at 1 by dlia.
  rewrite show_thousands by dlia. replace (x / 100000) with (x / 100000000 * 1000 + x / 100000 mod 1000) at 1 by dlia.
  rewrite show_thousands by dlia. unfold three_digits at 1 2.
  rewrite group3_app by (intros E; apply app_nil in E as [_ ?]; done). rewrite group3_app by (apply show_small_ne; dlia).
  rewrite group3_short by (apply show_small_length; dlia). by rewrite <- !app_assoc.
Qed.

Lemma money_length x : 0 <= x < 1000000000 -> length (money x) =
  if x <? 100000 then (length (show_digits 10 (x / 100)) + 3)%nat
  else if x <? 100000000 then (length (show_digits 10 (x / 100000)) + 7)%nat
  else (length (show_digits 10 (x / 100000000)) + 11)%nat.
Proof.
  intros Hx. destruct (Z.ltb_spec x 100000); [rewrite money_1 by lia; by rewrite length_app|].
  destruct (Z.ltb_spec x 100000000); [rewrite money_2 by lia|rewrite money_3 by lia]; by rewrite length_app.
Qed.

Lemma print_process_ok x : 0 <= x < 1000000000 -> print_process (Z.of_nat (length (money x))) x = money x.
Proof.
  intros Hx. rewrite money_length by done. unfold print_process. rewrite cents_text by lia. rewrite !Z.quot_div_nonneg by dlia.
  destruct (Z.ltb_spec x 100000) as [H1|H1]; [|destruct (Z.ltb_spec x 100000000) as [H2|H2]].
  - pose proof (show_small_length (x / 100) ltac:(dlia)). rewrite (proj2 (Z.leb_le _ 6)) by lia. rewrite show_nonneg by dlia. by rewrite money_1 by lia.
  - pose proof (show_small_length (x / 100000) ltac:(dlia)). rewrite (proj2 (Z.leb_gt _ 6)), (proj2 (Z.leb_le _ 11)) by lia.
    rewrite money_2 by lia. rewrite (show_nonneg (x / 100000)) by dlia. f_equal. change (str ",") with [44]. simpl app. f_equal.
    replace ((x - x / 100000 * 100000) / 100) with (x / 100 mod 1000) by dlia. rewrite app_assoc, fill_group by dlia. done.
  - assert (length (show_digits 10 (x / 100000000)) = 1%nat) as -> by (apply (show_digits_length 1); [simpl; dlia|lia]).
    change (Z.of_nat (1 + 11)) with 12. simpl Z.leb. cbn iota. change (12 =? 12) with true. cbn iota.
    rewrite money_3 by lia. rewrite (show_nonneg (x / 100000000)) by dlia. f_equal. change (str ",") with [44]. simpl app. f_equal.
    replace ((x - x / 100000000 * 100000000) / 100000) with (x / 100000 mod 1000) by dlia. rewrite app_assoc, fill_group by dlia. f_equal.
    simpl app. f_equal. replace ((x - x / 100000000 * 100000000 - x / 100000 mod 1000 * 100000) / 100) with (x / 100 mod 1000) by dlia.
    rewrite app_assoc, fill_group by dlia. done.
Qed.

(** The lengths the program computes. *)
Lemma balance_length x : 100 <= x < 1000000000 ->
  let k := lenhelper x in
  (if k <=? 5 then k + 1 else if k <=? 8 then k + 2 else if k =? 9 then k + 3 else 0) = Z.of_nat (length (money x)) /\
  4 <= Z.of_nat (length (money x)) <= 12.
Proof.
  intros Hx. rewrite money_length by lia. unfold lenhelper. rewrite (proj2 (Z.leb_gt 1000000000 x)) by lia.
  destruct (Z.leb_spec 100000000 x); [|destruct (Z.leb_spec 10000000 x); [|destruct (Z.leb_spec 1000000 x);
    [|destruct (Z.leb_spec 100000 x); [|destruct (Z.leb_spec 10000 x); [|destruct (Z.leb_spec 1000 x); [|rewrite (proj2 (Z.leb_le 100 x)) by lia]]]]]];
  rewrite ?(proj2 (Z.ltb_ge x 100000)), ?(proj2 (Z.ltb_ge x 100000000)), ?(proj2 (Z.ltb_lt x 100000)), ?(proj2 (Z.ltb_lt x 100000000)) by lia;
  match goal with |- context[length (show_digits 10 ?z)] =>
    first [rewrite (show_digits_length 1 10 z) by (simpl; dlia) | rewrite (show_digits_length 2 10 z) by (simpl; dlia) | rewrite (show_digits_length 3 10 z) by (simpl; dlia)] end;
  simpl; lia.
Qed.

Lemma amount_length x : 0 <= x < 1000000000 ->
  let n := Z.of_nat (length (plain x)) in
  (if n <=? 6 then n else if n <=? 9 then n + 1 else if n =? 10 then n + 2 else n + 3) = Z.of_nat (length (money x)) /\ (length (plain x) <= 10)%nat.
Proof.
  intros Hx. rewrite money_length by lia. unfold plain. rewrite length_app. simpl length.
  destruct (Z.ltb_spec x 100000) as [H1|H1]; [|destruct (Z.ltb_spec x 100000000) as [H2|H2]].
  - pose proof (show_small_length (x / 100) ltac:(dlia)). rewrite (proj2 (Z.leb_le _ 6)) by lia. lia.
  - pose proof (show_small_length (x / 100000) ltac:(dlia)). replace (x / 100) with (x / 100000 * 1000 + x / 100 mod 1000) by dlia.
    rewrite show_thousands, length_app by dlia. simpl length. rewrite (proj2 (Z.leb_gt _ 6)), (proj2 (Z.leb_le _ 9)) by lia. lia.
  - rewrite (show_digits_length 7 10 (x / 100)), (show_digits_length 1 10 (x / 100000000)) by (simpl; dlia). simpl. lia.
Qed.

(** ** Transactions and the statement *)

Record txn : Type := Txn { t_plus : bool; t_date : Z; t_cents : Z; t_desc : chars }.

(** The line of a transaction in the input. *)
Definition sign_text (b : bool) : chars := [if b then 43 else 45].
Definition encode (t : txn) : chars :=
  sign_text (t_plus t) ++ TAB :: show_digits 10 (t_date t) ++ TAB :: plain (t_cents t) ++ TAB :: t_desc t ++ [NEWLINE].

(** The structure the program makes of it. *)
Definition fill (n : nat) (s : chars) : chars := s ++ replicate (n - length s) 0.
Definition unit_of (t : txn) : unit_t :=
  Unit (fill 3 (sign_text (t_plus t))) (fill 30 (show_digits 10 (t_date t))) (fill 56 (plain (t_cents t))) (fill 128 (t_desc t)).

(** Its row in the statement, with the new balance. *)
Definition right_in (n : nat) (s : chars) : chars := replicate (n - length s) 32 ++ s.
Definition left_in (n : nat) (s : chars) : chars := s ++ replicate (n - length s) 32.
Definition column (neg : bool) (x : Z) : chars :=
  if neg then str " (" ++ right_in 12 (money x) ++ str ") |" else right_in 14 (money x) ++ str "  |".

Definition new_balance (bal : Z) (t : txn) : Z := if t_plus t then bal + t_cents t else bal - t_cents t.

Definition row (ctime : Z -> chars) (bal : Z) (t : txn) : chars :=
  str "| " ++ take 11 (ctime (t_date t)) ++ take 4 (drop 20 (ctime (t_date t))) ++
  str " | " ++ left_in 25 (take 24 (t_desc t)) ++ str "|" ++
  column (negb (t_plus t)) (t_cents t) ++ column (bal <? 0) (Z.abs bal) ++ [NEWLINE].

Fixpoint rows (ctime : Z -> chars) (bal : Z) (ts : list txn) : chars :=
  match ts with
  | [] => []
  | t :: ts' => row ctime (new_balance bal t) t ++ rows ctime (new_balance bal t) ts'
  end.

(** Balances that the statement has room for. *)
Definition fits (bal : Z) : Prop := 100 <= Z.abs bal < 1000000000.
Fixpoint all_fit (bal : Z) (ts : list txn) : Prop :=
  match ts with [] => True | t :: ts' => fits (new_balance bal t) /\ all_fit (new_balance bal t) ts' end.

(** Transactions of at most 9,999,999.99 with a description of at most 74
    characters. *)
Definition wf (now : Z) (t : txn) : Prop :=
  0 <= t_date t <= now /\ 0 <= t_cents t < 1000000000 /\
  Forall (fun c => is_char c /\ c <> 0 /\ c <> TAB /\ c <> NEWLINE) (t_desc t) /\ (length (t_desc t) <= 74)%nat.

(** ** C strings with known contents *)

Lemma strchr_at s c r : is_str s -> (c ∉ s) -> is_char c -> strchr (s ++ c :: r) c = Ret (Some (length s)).
Proof.
  intros Hs Hc Rc. unfold strchr. rewrite s8_small by done. induction Hs as [|x s [_ Hx] _ IH]; cbn [app strchr_loop].
  - by rewrite Z.eqb_refl.
  - apply not_elem_of_cons in Hc as [Hne Hc]. rewrite (proj2 (Z.eqb_neq x c)), (proj2 (Z.eqb_neq x 0)) by done. by rewrite IH.
Qed.

Lemma strchr_none s c r : is_str s -> (c ∉ s) -> is_char c -> c <> 0 -> strchr (cstr s r) c = Ret None.
Proof. intros Hs Hc Rc H0. destruct (strchr_ok s r c Hs Rc H0) as ([k|] & -> & Ho); [|done]. destruct Ho as [Ho _]. by apply list_elem_of_lookup_2 in Ho. Qed.

Lemma c_strncpy_fill s r n : is_str s -> (length s < n)%nat -> c_strncpy (s ++ 0 :: r) n = Ret (fill n s).
Proof.
  intros Hs. revert n. induction Hs as [|c s [_ Hc] _ IH]; intros [|n] Hn; cbn [app c_strncpy length] in *; try lia.
  - done.
  - rewrite (proj2 (Z.eqb_neq c 0)), IH by (done || lia). done.
Qed.

Lemma c_strncpy_take s r n : is_str s -> (n <= length s)%nat -> c_strncpy (s ++ r) n = Ret (take n s).
Proof.
  intros Hs. revert n. induction Hs as [|c s [_ Hc] _ IH]; intros n Hn.
  - simpl in Hn. by replace n with 0%nat by lia.
  - destruct n as [|n]; [done|]. cbn [app c_strncpy]. simpl in Hn. rewrite (proj2 (Z.eqb_neq c 0)), IH by (done || lia). done.
Qed.

Lemma fill_cstr n s : (length s < n)%nat -> exists r, fill n s = cstr s r.
Proof. intros Hn. unfold fill, cstr. destruct (n - length s)%nat as [|m] eqn:E; [lia|]. by exists (replicate m 0). Qed.

Lemma insert_end (s r : chars) c d : <[length s := d]> (s ++ c :: r) = s ++ d :: r.
Proof. replace (length s) with (length s + 0)%nat by lia. by rewrite insert_app_r. Qed.

Lemma drop_end (s r : chars) c : drop (S (length s)) (s ++ c :: r) = r.
Proof. replace (S (length s)) with (length (s ++ [c])) by (rewrite length_app; simpl; lia). change (c :: r) with ([c] ++ r). by rewrite app_assoc, drop_app_length. Qed.

Lemma field_ok s r : is_str s -> (TAB ∉ s) -> field (s ++ TAB :: r) = pret (s ++ 0 :: r, r).
Proof.
  intros Hs Ht. unfold field. rewrite strchr_at by (try done; unfold is_char, TAB; lia). cbn [lift pbind].
  by rewrite insert_end, drop_end.
Qed.

Lemma two_digits_chars z : 0 <= z < 100 -> Forall (fun c => 48 <= c < 58) (two_digits z).
Proof. intros. unfold two_digits. repeat constructor; dlia. Qed.

Lemma digits_not_in s c : Forall (fun x => 48 <= x < 58) s -> ~ (48 <= c < 58) -> c ∉ s.
Proof. intros Hs Hc Hin. by apply (proj1 (Forall_forall _ _) Hs) in Hin. Qed.

Lemma atoi_two z c s : 0 <= z < 100 -> isdigit c = false -> atoi (two_digits z ++ c :: s) = Ret z.
Proof.
  intros Hz Hc. unfold two_digits. cbn [app]. rewrite atoi_digit by dlia. cbn [atoi_digits]. rewrite !isdigit_true by dlia. rewrite Hc.
  cbn [obind]. rewrite as_int_ok by dlia. f_equal. dlia.
Qed.

(** ** Reading a line *)

Lemma plain_chars x : 0 <= x -> Forall (fun c => 46 <= c < 58 /\ c <> 47) (plain x).
Proof.
  intros Hx. unfold plain. apply Forall_app. split; [|constructor; [lia|]].
  - eapply Forall_impl; [apply show_digits_chars; dlia|]. simpl. lia.
  - eapply Forall_impl; [apply two_digits_chars; dlia|]. simpl. lia.
Qed.

Lemma plain_is_str x : 0 <= x -> is_str (plain x).
Proof. intros Hx. eapply Forall_impl; [by apply plain_chars|]. unfold is_char. simpl. lia. Qed.

Lemma wf_desc now t : wf now t -> is_str (t_desc t) /\ (TAB ∉ t_desc t) /\ (NEWLINE ∉ t_desc t).
Proof.
  intros (_ & _ & Hd & _). split_and!.
  - eapply Forall_impl; [exact Hd|]. simpl. tauto.
  - intros Hin. apply (proj1 (Forall_forall _ _) Hd) in Hin. tauto.
  - intros Hin. apply (proj1 (Forall_forall _ _) Hd) in Hin. tauto.
Qed.

Lemma show_date_length d : 0 <= d < 2147483648 -> (length (show_digits 10 d) <= 10)%nat.
Proof.
  intros Hd. assert (forall fuel z, (length (show_digits fuel z) <= fuel)%nat) as H; [|apply H].
  induction fuel as [|fuel IH]; intros z; [done|]. destruct (decide (z < 10)); [rewrite show_digits_1 by lia; simpl; lia|].
  rewrite show_digits_10, length_app by lia. specialize (IH (z / 10)). simpl. lia.
Qed.

Section parse.
Variable now : Z.
Hypothesis Hnow : now < 2147483648.

Lemma encode_is_str t : wf now t -> is_str (encode t) /\ (length (encode t) < 100)%nat.
Proof.
  intros Hw. destruct (wf_desc now t Hw) as (Hd & _ & _). destruct Hw as (Hdt & Hc & _ & Hl). split.
  - assert (is_char TAB /\ TAB <> 0) as HT by (unfold is_char, TAB; lia). assert (is_char NEWLINE /\ NEWLINE <> 0) as HN by (unfold is_char, NEWLINE; lia).
    unfold encode, sign_text. constructor; [unfold is_char; destruct (t_plus t); lia|]. constructor; [done|]. apply Forall_app. split; [apply digits_is_str, show_digits_chars; lia|].
    constructor; [done|]. apply Forall_app. split; [apply plain_is_str; lia|]. constructor; [done|]. apply Forall_app. split; [done|]. by constructor.
  - unfold encode. pose proof (show_date_length (t_date t) ltac:(lia)). pose proof (proj2 (amount_length (t_cents t) ltac:(lia))).
    rewrite !length_app. cbn [length]. rewrite !length_app. cbn [length]. rewrite !length_app. cbn [length]. rewrite !length_app. simpl. lia.
Qed.

Lemma no_tab d z : is_str d -> (TAB ∉ d) -> strchr (d ++ NEWLINE :: 0 :: z) TAB = Ret None.
Proof.
  intros Hd Ht. change (d ++ NEWLINE :: 0 :: z) with (d ++ [NEWLINE] ++ 0 :: z). rewrite app_assoc. apply (strchr_none (d ++ [NEWLINE])).
  - apply Forall_app. split; [done|]. constructor; [unfold is_char, NEWLINE; lia|constructor].
  - rewrite elem_of_app, elem_of_cons, elem_of_nil. unfold TAB, NEWLINE in *. intros [?|[?|?]]; [done|lia|done].
  - unfold is_char, TAB. lia.
  - unfold TAB. lia.
Qed.

Lemma parse_line_ok t n : wf now t -> (0 < n)%nat -> parse_line now (encode t ++ replicate n 0) = pret (unit_of t).
Proof.
  intros Hw Hn. destruct (encode_is_str t Hw) as [Hs Hl]. destruct (wf_desc now t Hw) as (Hd & HdT & HdN). destruct Hw as (Hdt & Hc & _ & Hl').
  destruct n as [|n]; [lia|]. unfold parse_line. change (replicate (S n) 0) with (0 :: replicate n 0).
  fold (cstr (encode t) (replicate n 0)). rewrite strlen_cstr by done. cbn [lift pbind pret]. rewrite (proj2 (Nat.leb_gt 100 _)) by lia.
  pose proof (show_digits_chars 10 (t_date t) ltac:(lia)) as Dd. pose proof (plain_chars (t_cents t) ltac:(lia)) as Dp.
  pose proof (show_date_length (t_date t) ltac:(lia)). destruct (amount_length (t_cents t) ltac:(lia)) as [_ Hal].
  set (z := replicate n 0). unfold cstr, encode. rewrite <- !app_assoc. cbn [app]. rewrite <- !app_assoc. cbn [app]. rewrite <- !app_assoc. cbn [app].
  assert (check_buf (sign_text (t_plus t) ++ TAB :: show_digits 10 (t_date t) ++ TAB :: plain (t_cents t) ++ TAB :: (t_desc t ++ [NEWLINE]) ++ 0 :: z) = Ret true)
    as -> by (unfold sign_text; by destruct (t_plus t)). cbn [lift pbind pret negb].
  rewrite field_ok; [|unfold sign_text, is_str, is_char; repeat constructor; destruct (t_plus t); lia|].
  2: { unfold sign_text. rewrite elem_of_cons, elem_of_nil. unfold TAB. destruct (t_plus t); lia. }
  cbn [pbind pret]. rewrite c_strncpy_fill; [|unfold sign_text, is_str, is_char; repeat constructor; destruct (t_plus t); lia|simpl; lia].
  cbn [lift pbind pret]. rewrite field_ok by first [by apply digits_is_str|apply digits_not_in; [done|unfold TAB; lia]].
  cbn [pbind pret]. rewrite c_strncpy_fill by first [by apply digits_is_str|lia]. cbn [lift pbind pret].
  rewrite atoi_show by (done || lia). cbn [lift pbind pret]. rewrite (proj2 (Z.ltb_ge now _)) by lia.
  rewrite field_ok; [|apply plain_is_str; lia|intros Hin; apply (proj1 (Forall_forall _ _) Dp) in Hin; unfold TAB in Hin; lia].
  cbn [pbind pret]. rewrite c_strncpy_fill by first [apply plain_is_str; lia|lia]. cbn [lift pbind pret].
  unfold plain at 1 2. rewrite <- !app_assoc. cbn [app].
  rewrite strchr_at by first [apply digits_is_str, show_digits_chars; dlia|unfold is_char; lia|apply digits_not_in; [apply show_digits_chars; dlia|lia]].
  cbn [lift pbind pret]. rewrite drop_app_length. cbn [strlen]. simpl (46 =? 0). cbn iota.
  fold (cstr (two_digits (t_cents t mod 100)) (t_desc t ++ NEWLINE :: 0 :: z)).
  rewrite strlen_cstr by (apply digits_is_str, two_digits_chars; dlia). cbn [obind lift pbind two_digits length Nat.eqb negb].
  rewrite (no_tab (t_desc t) z), strchr_at by (try done; unfold is_char, NEWLINE; lia). cbn [lift pbind].
  rewrite insert_end, c_strncpy_fill by (done || lia). done.
Qed.
(** The line [fgets] returns. *)
Lemma fgets_loop_line n l rest : (NEWLINE ∉ l) -> (length l < n)%nat -> fgets_loop n (l ++ NEWLINE :: rest) = (l ++ [NEWLINE], rest).
Proof.
  revert l. induction n as [|n IH]; intros l Hl Hn; [lia|]. destruct l as [|c l]; [done|].
  apply not_elem_of_cons in Hl as [Hc Hl]. cbn [app fgets_loop]. rewrite (proj2 (Z.eqb_neq c NEWLINE)) by done.
  simpl in Hn. by rewrite IH by (done || lia).
Qed.

Lemma encode_split t : wf now t -> exists l, encode t = l ++ [NEWLINE] /\ (NEWLINE ∉ l).
Proof.
  intros Hw. destruct (wf_desc now t Hw) as (_ & _ & Hd). destruct Hw as (Hdt & Hc & _ & _).
  exists (sign_text (t_plus t) ++ TAB :: show_digits 10 (t_date t) ++ TAB :: plain (t_cents t) ++ TAB :: t_desc t).
  split; [unfold encode; rewrite <- !app_assoc; cbn [app]; rewrite <- !app_assoc; cbn [app]; by rewrite <- !app_assoc|].
  pose proof (show_digits_chars 10 (t_date t) ltac:(lia)) as Dd. pose proof (plain_chars (t_cents t) ltac:(lia)) as Dp.
  unfold sign_text. repeat (rewrite elem_of_app || rewrite elem_of_cons || rewrite elem_of_nil). unfold TAB, NEWLINE in *.
  intros [[Hx|[]]|[Hx|[Hx|[Hx|[Hx|[Hx|Hx]]]]]]; try done; [by destruct (t_plus t)| |].
  - apply (proj1 (Forall_forall _ _) Dd) in Hx. lia.
  - apply (proj1 (Forall_forall _ _) Dp) in Hx. lia.
Qed.

(** The text of several transactions. *)
Definition encode_all (ts : list txn) : chars := mjoin (encode <$> ts).

Lemma encode_all_cons t ts : encode_all (t :: ts) = encode t ++ encode_all ts.
Proof. done. Qed.

Lemma parse_loop_ok fuel ts lst : Forall (wf now) ts -> (length ts <= fuel)%nat ->
  parse_loop now fuel (encode_all ts) lst = pret (reverse (unit_of <$> ts) ++ lst).
Proof.
  intros Hw. revert fuel lst. induction Hw as [|t ts Ht Hw IH]; intros fuel lst Hf; [by destruct fuel|].
  destruct fuel as [|fuel]; [simpl in Hf; lia|]. destruct (encode_split t Ht) as (l & El & Hl). destruct (encode_is_str t Ht) as [_ Hlen].
  assert (fgets (encode_all (t :: ts)) = Some (encode t, encode_all ts)) as Eg.
  { rewrite encode_all_cons, El, <- app_assoc. cbn [app].
    assert (fgets_loop 1025 (l ++ NEWLINE :: encode_all ts) = (l ++ [NEWLINE], encode_all ts)) as E.
    { apply fgets_loop_line; [done|]. rewrite El, length_app in Hlen. simpl in Hlen. lia. }
    unfold fgets. destruct l as [|c l]; cbn [app] in *; by rewrite E. }
  cbn [parse_loop]. rewrite Eg. rewrite parse_line_ok by (done || lia). cbn [pbind pret]. rewrite IH by (simpl in Hf; lia).
  by rewrite fmap_cons, reverse_cons, <- app_assoc.
Qed.

Lemma encode_all_length ts : (length ts <= length (encode_all ts))%nat.
Proof.
  induction ts as [|t ts IH]; [done|]. rewrite encode_all_cons, length_app.
  unfold encode at 1. simpl. lia.
Qed.

Lemma parse_ok ts : Forall (wf now) ts -> parse now (encode_all ts) = pret (reverse (unit_of <$> ts)).
Proof. intros Hw. unfold parse. rewrite parse_loop_ok, app_nil_r by (done || apply encode_all_length). done. Qed.

(** ** Dates *)

Lemma date_key t : wf now t -> atoi (date (unit_of t)) = Ret (t_date t).
Proof.
  intros (Hd & _). cbn [unit_of date]. pose proof (show_date_length (t_date t) ltac:(lia)).
  destruct (fill_cstr 30 (show_digits 10 (t_date t))) as (r & ->); [lia|]. unfold cstr. by apply atoi_show; [lia|].
Qed.

Lemma show_inj a b : 0 <= a < 2147483648 -> 0 <= b < 2147483648 -> show_digits 10 a = show_digits 10 b -> a = b.
Proof.
  intros Ha Hb E. pose proof (atoi_show a 0 [] Ha eq_refl) as E1. pose proof (atoi_show b 0 [] Hb eq_refl) as E2. rewrite E in E1. congruence.
Qed.

Lemma check_date_ok t ts : wf now t -> Forall (wf now) ts -> (t_date t ∉ (t_date <$> ts)) ->
  check_date (date (unit_of t)) (unit_of <$> ts) = pret tt.
Proof.
  intros Ht Hw Hn. induction Hw as [|t' ts Ht' Hw IH]; [done|]. rewrite fmap_cons in Hn. apply not_elem_of_cons in Hn as [Hne Hn].
  rewrite fmap_cons. cbn [check_date]. destruct Ht as (Hd & Ht), Ht' as (Hd' & Ht'). cbn [unit_of date].
  pose proof (show_date_length (t_date t) ltac:(lia)). pose proof (show_date_length (t_date t') ltac:(lia)).
  destruct (fill_cstr 30 (show_digits 10 (t_date t))) as (r & E); [lia|]. destruct (fill_cstr 30 (show_digits 10 (t_date t'))) as (r' & ->); [lia|].
  cbn [unit_of date] in IH. rewrite E in *. assert (is_str (show_digits 10 (t_date t)) /\ is_str (show_digits 10 (t_date t'))) as [S1 S2].
  { split; apply digits_is_str, show_digits_chars; lia. }
  rewrite strcmp_cstr by done. cbn [lift pbind]. rewrite (proj2 (Z.eqb_neq _ 0)); [by apply IH|].
  rewrite s8_str_diff by done. intros Es. apply Hne. by apply show_inj in Es; [|lia..].
Qed.

Lemma check_time_ok ts : ts <> [] -> Forall (wf now) ts -> NoDup (t_date <$> ts) -> check_time (unit_of <$> ts) = pret tt.
Proof.
  intros Hne Hw Hd. induction Hw as [|t ts Ht Hw IH]; [done|]. rewrite fmap_cons in Hd. apply NoDup_cons in Hd as [Hn Hd].
  destruct ts as [|t' ts]; [done|]. rewrite !fmap_cons. cbn [check_time]. rewrite <- fmap_cons, check_date_ok by done.
  cbn [pbind pret]. by apply IH.
Qed.
End parse.

(** ** A row *)

Lemma sign_cmp t : strcmp (sign (unit_of t)) [43; 0] = Ret (if t_plus t then 0 else 2).
Proof. unfold unit_of, sign_text. cbn [sign]. by destruct (t_plus t). Qed.

Lemma balance_ok bal t : 0 <= t_cents t < 1000000000 -> fits (new_balance bal t) -> -2000000000 < bal < 2000000000 ->
  balance bal (t_cents t) (unit_of t) =
  Ret (new_balance bal t, column (new_balance bal t <? 0) (Z.abs (new_balance bal t)) ++ [NEWLINE]).
Proof.
  intros Hc Hf Hb. unfold balance. rewrite sign_cmp. cbn [obind].
  assert ((if (if t_plus t then 0 else 2) =? 0 then bal + t_cents t else bal - t_cents t) = new_balance bal t) as ->
    by (unfold new_balance; by destruct (t_plus t)).
  generalize dependent (new_balance bal t). intros g Hf. unfold fits in Hf.
  destruct (balance_length (Z.abs g) Hf) as [El Hl]. unfold c_abs, pad_to, column, right_in.
  rewrite (as_int_ok g) by lia. cbn [obind]. rewrite !(as_int_ok (Z.abs g)) by lia. cbn [obind].
  destruct (Z.ltb_spec g 0) as [Hn|Hp].
  - rewrite (proj2 (Z.ltb_ge 0 g)) by lia. cbn [obind andb]. rewrite (proj2 (Z.ltb_lt (Z.abs g) _)) by lia. cbn [obind].
    rewrite El, (proj2 (Z.leb_le _ 12)) by lia. cbn [obind]. rewrite print_process_ok by lia. do 3 f_equal. rewrite <- !app_assoc. do 3 f_equal. lia.
  - rewrite (proj2 (Z.ltb_lt 0 g)), (proj2 (Z.ltb_lt g 1000000000)) by lia. cbn [obind andb]. rewrite Z.abs_eq in * by lia.
    rewrite El, (proj2 (Z.leb_le _ 14)) by lia. cbn [obind]. rewrite print_process_ok by lia. do 3 f_equal. rewrite <- !app_assoc. do 2 f_equal. lia.
Qed.

Lemma read_amount_ok t : 0 <= t_cents t < 1000000000 -> read_amount (unit_of t) = Ret (t_cents t, Z.of_nat (length (money (t_cents t)))).
Proof.
  intros Hc. destruct (amount_length (t_cents t) Hc) as [El Hl]. unfold read_amount, unit_of. cbn [amount].
  destruct (fill_cstr 56 (plain (t_cents t))) as (r & Er); [lia|]. rewrite Er. rewrite strlen_cstr by (apply plain_is_str; lia). cbn [obind].
  unfold cstr. rewrite El. unfold plain. rewrite <- !app_assoc. cbn [app].
  rewrite strchr_at by first [apply digits_is_str, show_digits_chars; dlia|unfold is_char; lia|apply digits_not_in; [apply show_digits_chars; dlia|lia]].
  cbn [obind]. rewrite drop_end, insert_end, atoi_two by (done || dlia). cbn [obind]. rewrite atoi_show by (done || dlia). cbn [obind].
  rewrite !as_int_ok by dlia. cbn [obind]. rewrite as_int_ok by dlia. cbn [obind]. do 2 f_equal. dlia.
Qed.

Lemma print_description_ok t : is_str (t_desc t) -> (length (t_desc t) < 128)%nat ->
  print_description (unit_of t) = Ret (left_in 25 (take 24 (t_desc t))).
Proof.
  intros Hd Hl. unfold print_description, left_in, unit_of. cbn [descrition]. destruct (decide (length (t_desc t) < 24)%nat).
  - destruct (fill_cstr 128 (t_desc t) Hl) as (r & ->). unfold cstr. rewrite c_strncpy_fill by done. cbn [obind].
    assert (fill 24 (t_desc t) ++ [0] = cstr (t_desc t) (replicate (24 - length (t_desc t)) 0)) as ->.
    { unfold fill, cstr. rewrite <- app_assoc. f_equal. symmetry. apply replicate_S_end. }
    rewrite strlen_cstr by done. cbn [obind]. unfold fill. by rewrite take_app_length, take_ge by lia.
  - unfold fill. rewrite c_strncpy_take by (done || lia). cbn [obind]. fold (cstr (take 24 (t_desc t)) []).
    rewrite strlen_cstr by (by apply is_str_take). cbn [obind]. by rewrite (take_ge (take 24 (t_desc t))) by done.
Qed.

Section statement.
Variables (now : Z) (ctime : Z -> chars).
Hypothesis Hnow : now < 2147483648.
(** The text of a time has 25 characters: day, month, time and year, and a newline. *)
Hypothesis ctime_text : forall t, 0 <= t <= now -> exists s r, ctime t = cstr s r /\ is_str s /\ length s = 25%nat.

Lemma print_date_ok t : wf now t -> print_date ctime (unit_of t) = Ret (take 11 (ctime (t_date t)) ++ take 4 (drop 20 (ctime (t_date t)))).
Proof.
  intros Hw. unfold print_date. rewrite (date_key now) by done. cbn [obind]. destruct Hw as (Hd & _).
  destruct (ctime_text (t_date t) Hd) as (s & r & -> & Hs & Hl). unfold cstr. rewrite c_strncpy_fill by (done || lia). cbn [obind]. unfold fill.
  do 3 (destruct s as [|? s]; [done|]). do 22 (destruct s as [|? s]; [done|]). by destruct s.
Qed.

Lemma print_line_ok bal t : wf now t -> fits (new_balance bal t) -> -2000000000 < bal < 2000000000 ->
  print_line ctime bal (unit_of t) = Ret (new_balance bal t, row ctime (new_balance bal t) t).
Proof.
  intros Hw Hf Hb. destruct (wf_desc now t Hw) as (Hd & _ & _). pose proof Hw as (_ & Hc & _ & Hl). unfold print_line.
  rewrite print_date_ok, print_description_ok by (done || lia). cbn [obind]. rewrite read_amount_ok by done. cbn [obind].
  rewrite sign_cmp. cbn [obind]. rewrite balance_ok by done. cbn [obind]. unfold row. rewrite print_process_ok by done.
  do 2 f_equal. rewrite <- !app_assoc. do 6 f_equal. unfold column, right_in. destruct (t_plus t); cbn [negb Z.eqb]; rewrite <- !app_assoc; repeat f_equal; lia.
Qed.

Lemma print_lines_ok bal ts : Forall (wf now) ts -> all_fit bal ts -> -2000000000 < bal < 2000000000 ->
  print_lines ctime bal (unit_of <$> ts) = Ret (rows ctime bal ts).
Proof.
  intros Hw. revert bal. induction Hw as [|t ts Ht Hw IH]; intros bal Hf Hb; [done|]. destruct Hf as [Hf Hfs].
  rewrite fmap_cons. cbn [print_lines]. rewrite print_line_ok by done. cbn [obind]. rewrite IH; [done|done|]. unfold fits in Hf. lia.
Qed.
(** The sort of the structures is the sort of the transactions. *)
Definition key_of (u : unit_t) : Z := match atoi (date u) with Ret z => z | Stop _ => 0 end.

Lemma key_of_unit t : wf now t -> key_of (unit_of t) = t_date t.
Proof. intros Hw. unfold key_of. by rewrite (date_key now). Qed.

Lemma bpass_fmap k ts : Forall (wf now) ts ->
  bpass key_of k (unit_of <$> ts) = unit_of <$> bpass t_date k ts /\ Forall (wf now) (bpass t_date k ts).
Proof.
  revert ts. induction k as [|k IH]; intros [|t [|t' ts]] Hw; try done. apply Forall_cons in Hw as [Ht [Ht' Hw]%Forall_cons].
  rewrite !fmap_cons. cbn [bpass]. rewrite !key_of_unit by done. destruct (_ <? _).
  - destruct (IH (t :: ts)) as [E Hf]; [by constructor|]. rewrite fmap_cons in E. rewrite E. split; [done|by constructor].
  - destruct (IH (t' :: ts)) as [E Hf]; [by constructor|]. rewrite fmap_cons in E. rewrite E. split; [done|by constructor].
Qed.

Lemma bsort_fmap k ts : Forall (wf now) ts -> bsort key_of k (unit_of <$> ts) = unit_of <$> bsort t_date k ts.
Proof.
  revert ts. induction k as [|k IH]; intros ts Hw; [done|]. cbn [bsort]. destruct (bpass_fmap (S k) ts Hw) as [-> Hf]. by apply IH.
Qed.

Lemma sort_unique (l1 l2 : list txn) : NoDup (t_date <$> l1) -> Permutation l1 l2 -> StronglySorted (key_le t_date) l1 ->
  StronglySorted (key_le t_date) l2 -> l1 = l2.
Proof.
  intros Hd Hp H1 H2. apply (StronglySorted_unique_strong (key_le t_date)); [|done|done|done].
  intros x y Hx Hy L1 L2. unfold key_le in *. rewrite <- Hp in Hy. assert (t_date x = t_date y) as E by lia.
  apply list_elem_of_lookup in Hx as [i Ei], Hy as [j Ej]. assert (i = j); [|congruence].
  apply (NoDup_lookup (t_date <$> l1) i j (t_date x) Hd); rewrite list_lookup_fmap; [by rewrite Ei|rewrite Ej, E; done].
Qed.

Lemma main_ok ts sorted : ts <> [] -> (length ts <= 300)%nat -> Forall (wf now) ts -> NoDup (t_date <$> ts) ->
  Permutation sorted ts -> StronglySorted (fun a b => t_date a <= t_date b) sorted -> all_fit 0 sorted ->
  main now ctime (encode_all ts) = pret (print_sign ++ rows ctime 0 sorted ++ rule).
Proof.
  intros Hne Hlen Hw Hd Hp Hs Hf. unfold main. rewrite parse_ok by done. cbn [pbind pret]. rewrite <- fmap_reverse.
  assert (Permutation (reverse ts) ts) as Hr by apply reverse_Permutation.
  assert (Forall (wf now) (reverse ts)) as Hwr by (by rewrite Hr).
  rewrite (check_time_ok now); [|done| |done|by rewrite Hr].
  2: { intros E. by rewrite E in Hr; apply Permutation_nil in Hr. }
  cbn [pbind pret]. rewrite (sortinput_ok key_of).
  2: { by rewrite length_fmap, length_reverse. }
  2: { apply Forall_fmap. eapply Forall_impl; [exact Hwr|]. intros t Ht. simpl. rewrite key_of_unit by done. by apply (date_key now). }
  cbn [lift pbind]. rewrite length_fmap, bsort_fmap by done.
  destruct (bsort_sorts t_date (reverse ts)) as [Bp Bs].
  rewrite (sort_unique (bsort t_date (length (reverse ts) - 1) (reverse ts)) sorted); [|by rewrite Bp, Hr|by rewrite Bp, Hr, Hp|done|exact Hs].
  unfold PrintStatement. rewrite print_lines_ok; [done|by rewrite Hp|done|lia].
Qed.
End statement.

(** C15: for every input made of 1 to 300 well-formed transactions ([wf]: a date not in the
    future, an amount below 10,000,000.00, a description of at most 74 characters) with different
    dates, in any order, whose running balances, in the order of the dates, are all at
    least 1.00 and below 10,000,000.00 in absolute value ([all_fit]), the program prints the statement: the transactions in
    the order of their dates, each with its amount and the balance so far, in
    columns with thousands separated by commas.  The reading, the check of the
    dates, the sort and the printing are all part of it.  [ctime_text] says what
    the C library documents of [ctime].  Beyond these balances the rows
    come out wrong ([statement_limits]). *)
Theorem statement_correct now ctime ts sorted : now < 2147483648 ->
  (forall t, 0 <= t <= now -> exists s r, ctime t = cstr s r /\ is_str s /\ length s = 25%nat) ->
  ts <> [] -> (length ts <= 300)%nat -> Forall (wf now) ts -> NoDup (t_date <$> ts) ->
  Permutation sorted ts -> StronglySorted (fun a b => t_date a <= t_date b) sorted -> all_fit 0 sorted ->
  main now ctime (encode_all ts) = pret (print_sign ++ rows ctime 0 sorted ++ rule).
Proof. intros. by apply main_ok. Qed.

(** what [parse] reads from the text of transactions is the list of these
    transactions, the last line first. *)
Theorem parse_roundtrip now ts : now < 2147483648 -> Forall (wf now) ts ->
  parse now (encode_all ts) = pret (unit_of <$> reverse ts).
Proof. intros Hnow Hw. rewrite parse_ok by done. by rewrite fmap_reverse. Qed.

(** ** The width of a row *)

Lemma money_bounds x : 0 <= x < 1000000000 -> (4 <= length (money x) <= 12)%nat.
Proof.
  intros Hx. destruct (decide (100 <= x)); [destruct (balance_length x); lia|].
  rewrite money_length by done. rewrite (proj2 (Z.ltb_lt x 100000)) by lia. pose proof (show_digits_length 1 10 (x / 100)) as ->; [simpl; lia|simpl; dlia|lia].
Qed.

Lemma column_length neg x : 0 <= x < 1000000000 -> length (column neg x) = 17%nat.
Proof.
  intros Hx. pose proof (money_bounds x Hx). unfold column, right_in. destruct neg; rewrite !length_app, length_replicate; simpl; lia.
Qed.

(** every row of the statement of well-formed transactions is as wide as the
    rules around the table, whatever the description, the amount and a balance
    of at least 1.00 and at most 9,999,999.99 are. *)
Theorem row_width now ctime bal t : (forall t, 0 <= t <= now -> exists s r, ctime t = cstr s r /\ is_str s /\ length s = 25%nat) ->
  wf now t -> fits (new_balance bal t) -> -2000000000 < bal < 2000000000 -> now < 2147483648 ->
  exists r, print_line ctime bal (unit_of t) = Ret (new_balance bal t, r) /\ length r = length rule.
Proof.
  intros Hct Hw Hf Hb Hnow. eexists. split; [by apply (print_line_ok now ctime Hnow Hct)|].
  destruct Hw as (Hd & Hc & _ & _). destruct (Hct (t_date t) Hd) as (s & r & E & _ & Hl). unfold fits in Hf.
  unfold row, left_in. rewrite !length_app, !column_length, length_replicate by lia.
  rewrite E. unfold cstr. rewrite !length_take, length_drop, length_app. cbn [length].
  change (length rule) with 81%nat. change (length (str _)) with 2%nat at 1. simpl (length (str _)). lia.
Qed.

(** what the program does outside of these bounds.  With no transaction at
    all the check of the dates follows a null pointer, and an amount without a
    decimal point makes [strlen] do so.  A balance of zero is printed with
    question marks, a balance of less than 1.00 makes the row too wide, and so
    does a withdrawal of 10,000,000.00 or more. *)
Theorem statement_limits :
  main 0 some_time [] = Stop Undef /\
  parse_line 10 (row_text "+" "5" "12" "x" ++ [0]) = Stop Undef /\
  balance 5 5 (unit_of (Txn false 0 5 [])) = Ret (0, str "  ?,???,???.??  |" ++ [NEWLINE]) /\
  (exists r, balance 0 5 (unit_of (Txn true 0 5 [])) = Ret (5, r) /\ length r = 20%nat) /\
  (exists r, print_line some_time 0 (Unit (fill 3 [45]) (fill 30 [53]) (fill 56 (str "10000000.00")) (fill 128 [])) =
     Ret (-1000000000, r) /\ length r = 83%nat).
Proof.
  split; [vm_compute; reflexivity|]. split; [vm_compute; reflexivity|]. split; [vm_compute; reflexivity|].
  split; eexists; (split; [vm_compute; reflexivity|reflexivity]).
Qed.

(** ** The theorems at concrete inputs *)

Definition t_in : txn := Txn true 20 123456 (str "pay").
Definition t_out : txn := Txn false 30 3456 (str "a description of more than 24 characters").

Lemma some_time_text t : exists s r, some_time t = cstr s r /\ is_str s /\ length s = 25%nat.
Proof.
  exists (str "Thu Jan  1 00:00:00 1970" ++ [NEWLINE]), []. split; [done|]. split; [|done].
  vm_compute. repeat (apply Forall_cons; split; [split; [split; congruence|congruence]|]). apply Forall_nil_2.
Qed.

Lemma t_wf : Forall (wf 100) [t_out; t_in].
Proof.
  unfold wf. repeat (apply Forall_cons; split); try apply Forall_nil_2; split_and!; simpl; try lia;
  unfold is_char; repeat (apply Forall_cons; split; [vm_compute; repeat split; congruence|]); apply Forall_nil_2.
Qed.

Lemma t_sorted : StronglySorted (fun a b => t_date a <= t_date b) [t_in; t_out].
Proof. repeat constructor. simpl. lia. Qed.

Lemma t_dates : NoDup (t_date <$> [t_out; t_in]).
Proof. simpl. apply NoDup_cons. split; [|apply NoDup_singleton]. rewrite list_elem_of_singleton. lia. Qed.

Lemma statement_correct_witness : main 100 some_time (encode_all [t_out; t_in]) = pret (print_sign ++
  str "| Thu Jan  1 1970 | pay                      |      1,234.56  |      1,234.56  |" ++ [NEWLINE] ++
  str "| Thu Jan  1 1970 | a description of more th | (       34.56) |      1,200.00  |" ++ [NEWLINE] ++ rule).
Proof.
  rewrite (statement_correct 100 some_time [t_out; t_in] [t_in; t_out]).
  - vm_compute. reflexivity.
  - lia.
  - intros t _. apply some_time_text.
  - done.
  - simpl. lia.
  - apply t_wf.
  - apply t_dates.
  - apply perm_swap.
  - apply t_sorted.
  - simpl. unfold fits, new_balance. simpl. lia.
Defined.

Lemma parse_roundtrip_witness : parse 100 (encode_all [t_out; t_in]) = pret [unit_of t_in; unit_of t_out].
Proof. rewrite (parse_roundtrip 100 [t_out; t_in]) by (lia || apply t_wf). reflexivity. Defined.

Lemma sortinput_correct_witness : exists l, sortinput [unit_of t_out; unit_of t_in] = Ret l /\
  StronglySorted (fun u v => key_of u <= key_of v) l /\ l = [unit_of t_in; unit_of t_out].
Proof.
  destruct (sortinput_correct key_of [unit_of t_out; unit_of t_in]) as (l & E & _ & Hs & _).
  - simpl. lia.
  - repeat constructor.
  - exists l. split; [exact E|]. split; [exact Hs|]. vm_compute in E. injection E as <-. reflexivity.
Defined.

Lemma row_width_witness : exists r, print_line some_time 0 (unit_of t_in) = Ret (123456, r) /\ length r = length rule.
Proof.
  apply (row_width 100 some_time 0 t_in); [intros t _; apply some_time_text| |unfold fits, new_balance; simpl; lia|lia|lia].
  pose proof t_wf as H. apply Forall_cons in H as [_ H]. apply Forall_cons in H as [H _]. exact H.
Defined.
