(* ===== verification/Printf.v ===== *)
(** * Formatted output (util/printf.c)

    [vsnprintf] is the formatter behind every message of the kernel.  It stores a
    character when there is room for it and counts it in any case.  A state is the
    object the buffer points into, the number of characters so far and the
    values [%n] stored; [room] is the number of characters that may be stored.
    The arguments are a list of 32-bit words, 64-bit words and strings: reading
    an argument that is not there, or of another kind, is undefined.

    The theorems: what is stored is the text cut to the size of the buffer, the
    text depends on the format and the arguments only, and numbers are printed so
    that [simple_strtol] reads them back.  [vsscanf] is not modelled. *)

From S2P Require Import Prelude CString.

(** ** Characters (include/ctype.h)

    What the masks of the table [_ctype] say of the character [(unsigned char)c]. *)

Definition isdigit (c : Z) : bool := let u := c mod 256 in (48 <=? u) && (u <=? 57).
Definition isxdigit (c : Z) : bool :=
  let u := c mod 256 in isdigit c || ((65 <=? u) && (u <=? 70)) || ((97 <=? u) && (u <=? 102)).
Definition isspace (c : Z) : bool :=
  let u := c mod 256 in ((9 <=? u) && (u <=? 13)) || (u =? 32) || (u =? 160).
Definition islower (c : Z) : bool :=
  let u := c mod 256 in ((97 <=? u) && (u <=? 122)) || ((223 <=? u) && (u <=? 246)) || (248 <=? u).
Definition toupper (c : Z) : Z := let u := c mod 256 in if islower u then u - 32 else u.

(** ** Reading numbers *)

Definition digit_value (c : Z) : Z := if isdigit c then c - 48 else toupper c - 65 + 10.

Definition two64 : Z := 18446744073709551616.

(** The [while] loop, for a result of [word] values; the result is the value and
    where it stopped. *)
Fixpoint strtoul_loop (word : Z) (cp : chars) (base result : Z) : outcome (Z * chars) :=
  match cp with
  | [] => Stop Undef
  | c :: cp' =>
      if isxdigit c && (digit_value c <? base) then strtoul_loop word cp' base ((result * base + digit_value c) mod word)
      else Ret (result, cp)
  end.

(** [base = 0]: the base is found from the prefix. *)
Definition find_base (cp : chars) (base : Z) : outcome (chars * Z) :=
  if base =? 0 then
    match cp with
    | [] => Stop Undef
    | c :: cp' =>
        if c =? 48 then
          match cp' with
          | [] => Stop Undef
          | x :: cp'' =>
              if x =? 120 then
                match cp'' with
                | [] => Stop Undef
                | d :: _ => if isxdigit d then Ret (cp'', 16) else Ret (cp', 8)
                end
              else Ret (cp', 8)
          end
        else Ret (cp, 10)
    end
  else Ret (cp, base).

Definition simple_strtoul (cp : chars) (base : Z) : outcome (Z * chars) :=
  let? (cp, base) := find_base cp base in
  strtoul_loop two32 cp base 0.

Definition simple_strtol (cp : chars) (base : Z) : outcome (Z * chars) :=
  match cp with
  | [] => Stop Undef
  | c :: cp' =>
      if c =? 45 then (let? (r, e) := simple_strtoul cp' base in Ret (s32 (- r), e))
      else (let? (r, e) := simple_strtoul cp base in Ret (s32 r, e))
  end.

(** [(long long)z] *)
Definition s64 (z : Z) : Z := (z + 9223372036854775808) mod two64 - 9223372036854775808.

Definition simple_strtoull (cp : chars) (base : Z) : outcome (Z * chars) :=
  let? (cp, base) := find_base cp base in
  strtoul_loop two64 cp base 0.

Definition simple_strtoll (cp : chars) (base : Z) : outcome (Z * chars) :=
  match cp with
  | [] => Stop Undef
  | c :: cp' =>
      if c =? 45 then (let? (r, e) := simple_strtoull cp' base in Ret (s64 (- r), e))
      else (let? (r, e) := simple_strtoull cp base in Ret (s64 r, e))
  end.

Fixpoint skip_atoi (s : chars) (i : Z) : outcome (Z * chars) :=
  match s with
  | [] => Stop Undef
  | c :: s' => if isdigit c then (let? t := as_int (i * 10 + c) in skip_atoi s' (t - 48)) else Ret (i, s)
  end.

(** ** The buffer *)

Record sink : Type := Sink { mem : chars; pos : nat; stores : list (Z * Z) }.

Section output.
Variable room : Z.

Abbreviation K := (M sink).

(** [if (str <= end) *str = c; ++str;] *)
Definition put (c : Z) : K unit := fun s =>
  if Z.of_nat (pos s) <? room then
    if (pos s <? length (mem s))%nat then Ret (tt, Sink (<[pos s := c]> (mem s)) (S (pos s)) (stores s)) else Stop Undef
  else Ret (tt, Sink (mem s) (S (pos s)) (stores s)).

Fixpoint puts (l : chars) : K unit :=
  match l with [] => ret tt | c :: l' => put c ;;; puts l' end.

Fixpoint repeat_put (n : nat) (c : Z) : K unit :=
  match n with O => ret tt | S n' => put c ;;; repeat_put n' c end.

Definition lift {A} (m : outcome A) : K A := fun s => match m with Ret a => Ret (a, s) | Stop f => Stop f end.

(** [while (size-- > 0)]: the value of [size] afterwards. *)
Definition pad_loop (size c : Z) : K Z :=
  repeat_put (Z.to_nat size) c ;;; lift (as_int (if 0 <? size then -1 else size - 1)).

(** ** [number] *)

Definition ZEROPAD : Z := 1.
Definition SIGN : Z := 2.
Definition PLUS : Z := 4.
Definition SPACE : Z := 8.
Definition LEFT : Z := 16.
Definition SPECIAL : Z := 32.
Definition LARGE : Z := 64.

Definition has (type flag : Z) : bool := negb (Z.land type flag =? 0).

(** [digits[d]] *)
Definition digit_char (large : bool) (d : Z) : Z := if d <? 10 then 48 + d else (if large then 65 else 97) + (d - 10).

(** The digits in [tmp], the lowest first; a 64-bit number has at most 64. *)
Fixpoint tmp_digits (fuel : nat) (num2 base : Z) (large : bool) : chars :=
  match fuel with
  | O => []
  | S fuel' => if num2 =? 0 then [] else digit_char large (num2 mod base) :: tmp_digits fuel' (num2 / base) base large
  end.

Definition number_digits (num base : Z) (large : bool) : chars :=
  if num =? 0 then [48] else tmp_digits 64 (num mod two64) base large.

(** The sign, the number without it, and the width left. *)
Definition number_sign (num size type : Z) : outcome (Z * Z * Z) :=
  if has type SIGN then
    if num <? 0 then
      if num =? -9223372036854775808 then Stop Undef else Ret (45, - num, size - 1)
    else if has type PLUS then Ret (43, num, size - 1)
    else if has type SPACE then Ret (32, num, size - 1)
    else Ret (0, num, size)
  else Ret (0, num, size).

Definition number_prefix (base type : Z) : chars :=
  if has type SPECIAL then
    if base =? 8 then [48] else if base =? 16 then [48; digit_char (has type LARGE) 33] else []
  else [].

Definition number (num base size precision type : Z) : K unit :=
  let type := if has type LEFT then Z.land type (Z.lnot ZEROPAD) else type in
  if (base <? 2) || (36 <? base) then ret tt
  else
    let c := if has type ZEROPAD then 48 else 32 in
    let! (sign, num, size) := lift (number_sign num size type) in
    let size := if has type SPECIAL then (if base =? 16 then size - 2 else if base =? 8 then size - 1 else size) else size in
    let tmp := number_digits num base (has type LARGE) in
    let i := Z.of_nat (length tmp) in
    let precision := if precision <? i then i else precision in
    let! size := lift (as_int (size - precision)) in
    let! size := if has type (ZEROPAD + LEFT) then ret size else pad_loop size 32 in
    (if sign =? 0 then ret tt else put sign) ;;;
    puts (number_prefix base type) ;;;
    let! size := if has type LEFT then ret size else pad_loop size c in
    repeat_put (Z.to_nat (precision - i)) 48 ;;;
    puts (reverse tmp) ;;;
    pad_loop size 32 ;;; ret tt.

(** ** Directives *)

Inductive arg : Type := Word (w : Z) | Quad (w : Z) | Str (s : option chars).

Definition arg_word (args : list arg) : outcome (Z * list arg) :=
  match args with Word w :: args' => Ret (w, args') | _ => Stop Undef end.
Definition arg_quad (args : list arg) : outcome (Z * list arg) :=
  match args with Quad w :: args' => Ret (w, args') | _ => Stop Undef end.
Definition arg_str (args : list arg) : outcome (option chars * list arg) :=
  match args with Str s :: args' => Ret (s, args') | _ => Stop Undef end.

(** The flags behind [%]. *)
Fixpoint parse_flags (fmt : chars) (flags : Z) : outcome (Z * chars) :=
  match fmt with
  | [] => Stop Undef
  | c :: fmt' =>
      if c =? 45 then parse_flags fmt' (Z.lor flags LEFT)
      else if c =? 43 then parse_flags fmt' (Z.lor flags PLUS)
      else if c =? 32 then parse_flags fmt' (Z.lor flags SPACE)
      else if c =? 35 then parse_flags fmt' (Z.lor flags SPECIAL)
      else if c =? 48 then parse_flags fmt' (Z.lor flags ZEROPAD)
      else Ret (flags, fmt)
  end.

Definition fmt_head (fmt : chars) : outcome Z := match fmt with c :: _ => Ret c | [] => Stop Undef end.

Definition parse_width (fmt : chars) (flags : Z) (args : list arg) : outcome (Z * Z * chars * list arg) :=
  let? c := fmt_head fmt in
  if isdigit c then (let? (w, fmt) := skip_atoi fmt 0 in Ret (w, flags, fmt, args))
  else if c =? 42 then
    let? (w, args) := arg_word args in
    let w := s32 w in
    if w <? 0 then (let? w := as_int (- w) in Ret (w, Z.lor flags LEFT, drop 1 fmt, args)) else Ret (w, flags, drop 1 fmt, args)
  else Ret (-1, flags, fmt, args).

Definition parse_precision (fmt : chars) (args : list arg) : outcome (Z * chars * list arg) :=
  let? c := fmt_head fmt in
  if c =? 46 then
    let fmt := drop 1 fmt in
    let? c := fmt_head fmt in
    if isdigit c then (let? (p, fmt) := skip_atoi fmt 0 in Ret (p, fmt, args))
    else if c =? 42 then (let? (p, args) := arg_word args in Ret (Z.max 0 (s32 p), drop 1 fmt, args))
    else Ret (0, fmt, args)
  else Ret (-1, fmt, args).

(** [-1], ['h'], ['l'], ['L'] or ['Z']. *)
Definition parse_qualifier (fmt : chars) : outcome (Z * chars) :=
  let? c := fmt_head fmt in
  let? (q, fmt) :=
    (if (c =? 104) || (c =? 108) || (c =? 76) || (c =? 90) then
       let? d := fmt_head (drop 1 fmt) in
       if (c =? 108) && (d =? 108) then Ret (76, drop 2 fmt) else Ret (c, drop 1 fmt)
     else Ret (-1, fmt)) in
  let? c := fmt_head fmt in
  if c =? 113 then Ret (76, drop 1 fmt) else Ret (q, fmt).

(** The argument of an integer conversion. *)
Definition integer_arg (qualifier flags : Z) (args : list arg) : outcome (Z * list arg) :=
  if qualifier =? 76 then (let? (w, args) := arg_quad args in Ret (w, args))
  else
    let? (w, args) := arg_word args in
    let signed := has flags SIGN in
    if qualifier =? 90 then Ret (u32 w, args)
    else if qualifier =? 104 then
      let h := w mod 65536 in
      Ret (if signed then (h + 32768) mod 65536 - 32768 else h, args)
    else Ret (if signed then s32 w else u32 w, args).

Definition put_char (field_width flags : Z) (args : list arg) : K (list arg) :=
  let! width := if has flags LEFT then ret field_width else repeat_put (Z.to_nat (field_width - 1)) 32 ;;; ret (Z.min 0 (field_width - 1)) in
  let! (w, args) := lift (arg_word args) in
  put (s8 w) ;;;
  repeat_put (Z.to_nat (width - 1)) 32 ;;;
  ret args.

Definition NULL_text : chars := [60; 78; 85; 76; 76; 62].

(** [strnlen(s, precision)]: a precision of -1 is no limit. *)
Definition text_length (s : chars) (precision : Z) : outcome nat :=
  if precision <? 0 then strlen s else strnlen s (Z.to_nat precision).

Definition put_text (field_width precision flags : Z) (args : list arg) : K (list arg) :=
  let! (o, args) := lift (arg_str args) in
  let s := default (NULL_text ++ [0]) o in
  let! len := lift (text_length s precision) in
  let gap := field_width - Z.of_nat len in
  (if has flags LEFT then ret tt else repeat_put (Z.to_nat gap) 32) ;;;
  puts (take len s) ;;;
  (if has flags LEFT then repeat_put (Z.to_nat gap) 32 else ret tt) ;;;
  ret args.

Definition put_count (args : list arg) : K (list arg) :=
  let! (ip, args) := lift (arg_word args) in
  modify (fun s => Sink (mem s) (pos s) ((ip, Z.of_nat (pos s)) :: stores s)) ;;;
  ret args.

Definition put_integer (base field_width precision qualifier flags : Z) (args : list arg) : K (list arg) :=
  let! (num, args) := lift (integer_arg qualifier flags args) in
  number (s64 num) base field_width precision flags ;;;
  ret args.

(** The [switch] on the conversion [c]; [%] followed by another character, or by
    the end of the format, is copied. *)
Definition directive (c field_width precision qualifier flags : Z) (args : list arg) : K (list arg) :=
  if c =? 99 then put_char field_width flags args
  else if c =? 115 then put_text field_width precision flags args
  else if c =? 112 then
    let! (w, args) := lift (arg_word args) in
    (if field_width =? -1 then number (u32 w) 16 8 precision (Z.lor flags ZEROPAD) else number (u32 w) 16 field_width precision flags) ;;;
    ret args
  else if c =? 110 then put_count args
  else if c =? 37 then put 37 ;;; ret args
  else if c =? 111 then put_integer 8 field_width precision qualifier flags args
  else if c =? 88 then put_integer 16 field_width precision qualifier (Z.lor flags LARGE) args
  else if c =? 120 then put_integer 16 field_width precision qualifier flags args
  else if (c =? 100) || (c =? 105) then put_integer 10 field_width precision qualifier (Z.lor flags SIGN) args
  else if c =? 117 then put_integer 10 field_width precision qualifier flags args
  else if c =? 0 then put 37 ;;; ret args
  else put 37 ;;; put c ;;; ret args.

(** Flags, width, precision and qualifier in front of a conversion. *)
Definition parse_spec (fmt : chars) (args : list arg) : outcome (Z * Z * Z * Z * Z * chars * list arg) :=
  let? (flags, fmt) := parse_flags fmt 0 in
  let? (w, flags, fmt, args) := parse_width fmt flags args in
  let? (p, fmt, args) := parse_precision fmt args in
  let? (q, fmt) := parse_qualifier fmt in
  let? c := fmt_head fmt in
  Ret (c, w, p, q, flags, fmt, args).

(** The loop over the format. *)
Fixpoint format_loop (fuel : nat) (fmt : chars) (args : list arg) : K unit :=
  match fuel, fmt with
  | _, [] => stop Undef
  | O, _ => stop Diverge
  | S fuel', c :: fmt' =>
      if c =? 0 then ret tt
      else if negb (c =? 37) then put c ;;; format_loop fuel' fmt' args
      else
        let! (c, w, p, q, flags, fmt, args) := lift (parse_spec fmt' args) in
        let! args := directive c w p q flags args in
        format_loop fuel' (if c =? 0 then fmt else drop 1 fmt) args
  end.

(** [if (str <= end) *str = '\0'; else if (size > 0) *end = '\0';] *)
Definition terminate : K unit := fun s =>
  let k := if Z.of_nat (pos s) <? room then pos s else Z.to_nat (room - 1) in
  if room <=? 0 then Ret (tt, s)
  else if (k <? length (mem s))%nat then Ret (tt, Sink (<[k := 0]> (mem s)) (pos s) (stores s)) else Stop Undef.

(** [str - buf] as an [int]: undefined when [str] went past the last address. *)
Definition printed (buf : Z) : K Z := fun s =>
  if buf + Z.of_nat (pos s) <? two32 then lift (as_int (Z.of_nat (pos s))) s else Stop Undef.
End output.

(** [end] would lie beyond the last address: the buffer ends there. *)
Definition buffer_room (buf size : Z) : Z :=
  let e := u32 (buf + size - 1) in
  if e <? u32 (buf - 1) then two32 - buf else size.

(** [vsnprintf] with the buffer at address [buf] of the object [m]: the result and
    the state. *)
Definition vsnprintf (buf size : Z) (m : chars) (fmt : chars) (args : list arg) : outcome (Z * sink) :=
  let room := buffer_room buf size in
  (format_loop room (length fmt) fmt args ;;; terminate room ;;; printed buf) (Sink m 0 []).

Definition snprintf (buf size : Z) (m : chars) (fmt : chars) (args : list arg) : outcome (Z * sink) :=
  vsnprintf buf size m fmt args.

Definition vsprintf (buf : Z) (m : chars) (fmt : chars) (args : list arg) : outcome (Z * sink) :=
  vsnprintf buf 4294967295 m fmt args.

Definition sprintf (buf : Z) (m : chars) (fmt : chars) (args : list arg) : outcome (Z * sink) :=
  vsprintf buf m fmt args.

(** [iprintf]: [str] and [size] move behind what was printed. *)
Definition iprintf (str size : Z) (m : chars) (fmt : chars) (args : list arg) : outcome (Z * (Z * Z) * sink) :=
  let? (len, s) := vsnprintf str size m fmt args in
  if 0 <=? len then
    let len := Z.min len (s32 (size - 1)) in
    let size := u32 (size - len) in
    Ret (u32 (size - 1), (u32 (str + len), size), s)
  else Stop Assert.

(** ** Small runs *)

(** "%d|%5x|%-4u|%s": -42, 255, 7, "ab" into 32 bytes, and into 6. *)
Definition small_fmt : chars := [37; 100; 124; 37; 53; 120; 124; 37; 45; 52; 117; 124; 37; 115; 0].
Definition small_args : list arg := [Word 4294967254; Word 255; Word 7; Str (Some [97; 98; 0])].

Example small_run : vsnprintf 4096 32 (replicate 32 1) small_fmt small_args =
  Ret (17, Sink ([45; 52; 50; 124; 32; 32; 32; 102; 102; 124; 55; 32; 32; 32; 124; 97; 98; 0] ++ replicate 14 1) 17 []).
Proof. vm_compute. reflexivity. Qed.

Example small_cut : vsnprintf 4096 6 (replicate 8 1) small_fmt small_args = Ret (17, Sink [45; 52; 50; 124; 32; 0; 1; 1] 17 []).
Proof. vm_compute. reflexivity. Qed.

(** ** The text does not depend on the buffer *)

(** The object after [out] was put at [p]. *)
Fixpoint fill_mem (room : Z) (m : chars) (p : nat) (out : chars) : chars :=
  match out with
  | [] => m
  | c :: out' => fill_mem room (if Z.of_nat p <? room then <[p := c]> m else m) (S p) out'
  end.

Lemma fill_mem_length room m p out : length (fill_mem room m p out) = length m.
Proof. revert m p. induction out as [|c out IH]; intros m p; [done|]. simpl. rewrite IH. destruct (_ <? _); [apply length_insert|done]. Qed.

Lemma fill_mem_app room m p out out' : fill_mem room m p (out ++ out') = fill_mem room (fill_mem room m p out) (p + length out) out'.
Proof.
  revert m p. induction out as [|c out IH]; intros m p; simpl; [by rewrite Nat.add_0_r|]. rewrite IH. f_equal. lia.
Qed.

Definition emitted (room : Z) (out : chars) (st : list (Z * Z)) (s : sink) : sink :=
  Sink (fill_mem room (mem s) (pos s) out) (pos s + length out) (st ++ stores s).

(** [m] does not run out of fuel. *)
Definition ends {A} (m : outcome A) : Prop := m <> Stop Diverge.

(** What [m] puts and returns when [p] characters were put before is the same for
    every buffer. *)
Definition uniform {A} (p : nat) (m : Z -> M sink A) : Prop :=
  exists o : outcome (A * chars * list (Z * Z)), ends o /\
    forall room s, pos s = p -> room <= Z.of_nat (length (mem s)) ->
      m room s = match o with Ret (a, out, st) => Ret (a, emitted room out st s) | Stop f => Stop f end.

Lemma uniform_ret {A} p (a : A) : uniform p (fun _ => ret a).
Proof. exists (Ret (a, [], [])). split; [done|]. intros room [m q st] E Hr. unfold emitted. simpl. by rewrite Nat.add_0_r. Qed.

Lemma uniform_bind {A B} p (m : Z -> M sink A) (k : Z -> A -> M sink B) :
  uniform p m -> (forall a p', uniform p' (fun room => k room a)) -> uniform p (fun room => bind (m room) (k room)).
Proof.
  intros [[[[a out] st]|f] [Ho Hm]] Hk.
  - destruct (Hk a (p + length out)%nat) as [o [Eo Hoo]].
    exists (match o with Ret (b, out', st') => Ret (b, out ++ out', st' ++ st) | Stop f => Stop f end).
    split; [by destruct o as [[[b out'] st']|]|].
    intros room s Ep Hr. unfold bind. rewrite Hm by done. rewrite Hoo; [|simpl; lia|simpl; by rewrite fill_mem_length].
    destruct o as [[[b out'] st']|]; [|done]. do 2 f_equal. unfold emitted. simpl. rewrite fill_mem_app, length_app, <- app_assoc. f_equal. lia.
  - exists (Stop f). split; [intros E; by injection E as ->|]. intros room s Ep Hr. unfold bind. by rewrite Hm.
Qed.

Lemma uniform_put p c : uniform p (fun room => put room c).
Proof.
  exists (Ret (tt, [c], [])). split; [done|]. intros room s Ep Hr. unfold put, emitted. simpl.
  destruct (Z.ltb_spec (Z.of_nat (pos s)) room) as [Hlt|Hge].
  - rewrite (proj2 (Nat.ltb_lt _ _)) by lia. by rewrite Nat.add_1_r.
  - by rewrite Nat.add_1_r.
Qed.

Lemma uniform_lift {A} p (m : outcome A) : ends m -> uniform p (fun _ => lift m).
Proof.
  destruct m as [a|f]; intros Hm; [exact (uniform_ret p a)|]. exists (Stop f). split; [intros E; by injection E as ->|done].
Qed.

Lemma uniform_puts p l : uniform p (fun room => puts room l).
Proof.
  revert p. induction l as [|c l IH]; intros p; [apply uniform_ret|].
  apply (uniform_bind p (fun room => put room c) (fun room _ => puts room l)); [apply uniform_put|intros; apply IH].
Qed.

Lemma uniform_repeat p n c : uniform p (fun room => repeat_put room n c).
Proof.
  revert p. induction n as [|n IH]; intros p; [apply uniform_ret|].
  apply (uniform_bind p (fun room => put room c) (fun room _ => repeat_put room n c)); [apply uniform_put|intros; apply IH].
Qed.

Create HintDb printf.
#[local] Hint Resolve uniform_ret uniform_put uniform_lift uniform_puts uniform_repeat : printf.

(** Nothing in front of the loop runs out of fuel. *)
Ltac ends_tac :=
  unfold ends, obind in *;
  repeat match goal with
    | |- context [match ?x with _ => _ end] => let E := fresh "E" in destruct x eqn:E; try discriminate; try congruence
    end.

Lemma as_int_ends z : ends (as_int z).
Proof. unfold as_int. ends_tac. Qed.
Lemma obind_ends {A B} (m : outcome A) (k : A -> outcome B) : ends m -> (forall a, ends (k a)) -> ends (obind m k).
Proof. intros Hm Hk. destruct m as [a|f]; [apply Hk|]. intros E. apply Hm. by injection E as ->. Qed.
Lemma number_sign_ends num size type : ends (number_sign num size type).
Proof. unfold number_sign. ends_tac. Qed.
Lemma arg_word_ends args : ends (arg_word args).
Proof. unfold arg_word. ends_tac. Qed.
Lemma arg_str_ends args : ends (arg_str args).
Proof. unfold arg_str. ends_tac. Qed.
Lemma arg_quad_ends args : ends (arg_quad args).
Proof. unfold arg_quad. ends_tac. Qed.
Lemma integer_arg_ends q f args : ends (integer_arg q f args).
Proof.
  unfold integer_arg. destruct (q =? 76); (apply obind_ends; [apply arg_quad_ends || apply arg_word_ends|]); intros [w l]; ends_tac; done.
Qed.
Lemma text_length_ends s p : ends (text_length s p).
Proof.
  unfold text_length. destruct (p <? 0).
  - induction s as [|c s IH]; simpl; [done|]. destruct (c =? 0); [done|]. by apply obind_ends.
  - generalize (Z.to_nat p) as n. intros n. revert s. induction n as [|n IH]; intros [|c s]; simpl; try done.
    destruct (c =? 0); [done|]. by apply obind_ends.
Qed.
#[local] Hint Resolve as_int_ends number_sign_ends arg_word_ends arg_str_ends integer_arg_ends text_length_ends : printf.

(** One step of a proof that a function is uniform. *)
Ltac uni :=
  repeat (cbv beta zeta; first
    [ solve [auto with printf]
    | match goal with
      | |- uniform _ (fun room => bind (@?m room) (fun x => @?k room x)) => apply (uniform_bind _ m k); [|intros]
      | |- uniform _ (fun room => if ?b then _ else _) => destruct b
      | |- uniform _ (fun room => match ?x with pair _ _ => _ end) => destruct x
      end ]).

Lemma uniform_pad p size c : uniform p (fun room => pad_loop room size c).
Proof. unfold pad_loop. uni. Qed.
#[local] Hint Resolve uniform_pad : printf.

Lemma uniform_number p num base size precision type : uniform p (fun room => number room num base size precision type).
Proof. unfold number. uni. Qed.
#[local] Hint Resolve uniform_number : printf.

Lemma uniform_put_count p args : uniform p (fun _ => put_count args).
Proof.
  unfold put_count. uni. exists (Ret (tt, [], [(z, Z.of_nat p')])). split; [done|]. intros room [m q st] E Hr. unfold emitted, modify. simpl in *. subst.
  by rewrite Nat.add_0_r.
Qed.
#[local] Hint Resolve uniform_put_count : printf.

Lemma uniform_directive p c w pr q flags args : uniform p (fun room => directive room c w pr q flags args).
Proof. unfold directive, put_char, put_text, put_integer. uni. Qed.
#[local] Hint Resolve uniform_directive : printf.

(** ** The loop over the format *)

(** [m] ends, and leaves at most [n] characters of the format. *)
Definition leaves {A} (rest : A -> chars) (n : nat) (m : outcome A) : Prop :=
  ends m /\ forall a, m = Ret a -> (length (rest a) <= n)%nat.

Lemma leaves_bind {A B} (r : A -> chars) (r' : B -> chars) n m (k : A -> outcome B) :
  leaves r n m -> (forall a, (length (r a) <= n)%nat -> leaves r' n (k a)) -> leaves r' n (obind m k).
Proof.
  intros [Hm Hr] Hk. destruct m as [a|f]; [apply (Hk a), Hr; done|]. split; [|done]. intros E. apply Hm. by injection E as ->.
Qed.

Lemma leaves_ret {A} (rest : A -> chars) n a : (length (rest a) <= n)%nat -> leaves rest n (Ret a).
Proof. intros H. split; [done|]. by intros b [= <-]. Qed.

Lemma leaves_stop {A} (rest : A -> chars) n : leaves rest n (Stop Undef).
Proof. done. Qed.

Lemma leaves_ends {A} (rest : A -> chars) n m : ends m -> (forall a, length (rest a) = 0%nat) -> leaves rest n m.
Proof. intros H H0. split; [done|]. intros a _. rewrite H0. lia. Qed.

Lemma parse_flags_leaves fmt flags n : (length fmt <= n)%nat -> leaves snd n (parse_flags fmt flags).
Proof.
  revert flags. induction fmt as [|c fmt IH]; intros flags Hn; [done|]. cbn [parse_flags]. simpl in Hn.
  repeat (destruct (_ =? _); [apply IH; lia|]). apply leaves_ret. simpl. lia.
Qed.

Lemma skip_atoi_leaves s i n : (length s <= n)%nat -> leaves snd n (skip_atoi s i).
Proof.
  revert i. induction s as [|c s IH]; intros i Hn; [done|]. cbn [skip_atoi]. simpl in Hn. destruct (isdigit c); [|apply leaves_ret; simpl; lia].
  eapply (leaves_bind (fun _ => [])); [by apply leaves_ends; [apply as_int_ends|]|]. intros. apply IH. lia.
Qed.

(** Reading an argument or the next character of the format. *)
Lemma leaves_pure {A B} (r' : B -> chars) n (m : outcome A) (k : A -> outcome B) :
  ends m -> (forall a, leaves r' n (k a)) -> leaves r' n (obind m k).
Proof. intros Hm Hk. apply (leaves_bind (fun _ => [])); [by apply leaves_ends|]. intros. apply Hk. Qed.

Lemma fmt_head_ends fmt : ends (fmt_head fmt).
Proof. unfold fmt_head. ends_tac. Qed.
#[local] Hint Resolve fmt_head_ends leaves_stop : printf.

Ltac leave :=
  repeat (cbv beta zeta; first
    [ match goal with
      | |- leaves _ _ (obind (skip_atoi _ _) _) => eapply leaves_bind; [apply skip_atoi_leaves|intros]
      | |- leaves _ _ (obind _ _) => apply leaves_pure; [solve [auto with printf]|intros]
      | |- leaves _ _ (if ?b then _ else _) => destruct b
      | |- leaves _ _ (match ?x with pair _ _ => _ end) => destruct x
      | |- leaves _ _ (Ret _) => apply leaves_ret; cbn [fst snd] in *; rewrite ?length_drop
      end ]).

Lemma parse_width_leaves fmt flags args n : (length fmt <= n)%nat -> leaves (fun r => snd (fst r)) n (parse_width fmt flags args).
Proof. intros Hn. unfold parse_width. leave; lia. Qed.

Lemma parse_precision_leaves fmt args n : (length fmt <= n)%nat -> leaves (fun r => snd (fst r)) n (parse_precision fmt args).
Proof. intros Hn. unfold parse_precision. leave; rewrite ?length_drop; lia. Qed.

Lemma parse_qualifier_leaves fmt n : (length fmt <= n)%nat -> leaves snd n (parse_qualifier fmt).
Proof.
  intros Hn. unfold parse_qualifier. apply leaves_pure; [auto with printf|]. intros c. apply (leaves_bind snd).
  - leave; lia.
  - intros [q f] Hf. leave; lia.
Qed.

Lemma parse_spec_leaves fmt args n : (length fmt <= n)%nat -> leaves (fun r => snd (fst r)) n (parse_spec fmt args).
Proof.
  intros Hn. unfold parse_spec. eapply leaves_bind; [by apply parse_flags_leaves|]. intros [fl f1] H1.
  eapply leaves_bind; [by apply parse_width_leaves|]. intros [[[w fl2] f2] args2] H2.
  eapply leaves_bind; [by apply parse_precision_leaves|]. intros [[p f3] args3] H3.
  eapply leaves_bind; [by apply parse_qualifier_leaves|]. intros [q f4] H4. simpl in *. leave. lia.
Qed.

(** The loop reaches the end of the format, whatever the buffer. *)
Lemma uniform_loop fuel : forall p fmt args, (length fmt <= fuel)%nat -> uniform p (fun room => format_loop room fuel fmt args).
Proof.
  induction fuel as [|fuel IH]; intros p [|c fmt] args Hl; simpl in Hl; try lia.
  - exists (Stop Undef). done.
  - exists (Stop Undef). done.
  - simpl. destruct (c =? 0); [apply uniform_ret|]. destruct (negb _).
    + apply (uniform_bind p (fun room => put room c) (fun room _ => format_loop room fuel fmt args)); [apply uniform_put|]. intros. apply IH. lia.
    + destruct (parse_spec_leaves fmt args (length fmt) ltac:(lia)) as [He Hf].
      destruct (parse_spec fmt args) as [r|f] eqn:E; [|exists (Stop f); split; [intros X; apply He; by injection X as ->|done]].
      specialize (Hf _ eq_refl). destruct r as [[[[[[c' w] pr] q] fl] f'] args']. simpl in Hf.
      apply (uniform_bind p (fun room => directive room c' w pr q fl args')
        (fun room args => format_loop room fuel (if c' =? 0 then f' else drop 1 f') args)); [apply uniform_directive|].
      intros a p'. apply IH. destruct (c' =? 0); rewrite ?length_drop; lia.
Qed.

(** ** What is in the buffer *)

(** The object [m] when the text [out] was printed into its first [room] characters. *)
Definition stored (room : Z) (out m : chars) : chars :=
  if room <=? 0 then m
  else let k := min (length out) (Z.to_nat (room - 1)) in take k out ++ 0 :: drop (S k) m.

Lemma fill_mem_full room m p out : room <= Z.of_nat p -> fill_mem room m p out = m.
Proof.
  revert p. induction out as [|c out IH]; intros p Hp; simpl; [done|]. rewrite (proj2 (Z.ltb_ge _ _)) by lia. apply IH. lia.
Qed.

Lemma fill_mem_eq room m p out : (p <= length m)%nat -> room <= Z.of_nat (length m) ->
  fill_mem room m p out = let k := min (length out) (Z.to_nat room - p) in take p m ++ take k out ++ drop (p + k) m.
Proof.
  revert m p. induction out as [|c out IH]; intros m p Hp Hr; cbn zeta.
  - simpl. by rewrite Nat.add_0_r, take_drop.
  - destruct (Z.ltb_spec (Z.of_nat p) room) as [Hlt|Hge].
    + assert (p < length m)%nat as Hpm by lia. cbn [fill_mem]. rewrite (proj2 (Z.ltb_lt _ _)) by done.
      rewrite IH by (rewrite length_insert; lia). cbn zeta.
      rewrite (take_S_r _ _ c) by (by apply list_lookup_insert_eq). rewrite take_insert_ge, drop_insert_lt by lia.
      replace (min (length (c :: out)) (Z.to_nat room - p)) with (S (min (length out) (Z.to_nat room - S p))) by (cbn [length]; lia).
      simpl. rewrite <- app_assoc. simpl. do 4 f_equal. lia.
    + rewrite fill_mem_full by done. replace (min _ _) with 0%nat by lia. rewrite Nat.add_0_r. simpl. by rewrite take_drop.
Qed.

(** What [terminate] leaves. *)
Lemma terminate_stored room out m st : room <= Z.of_nat (length m) ->
  terminate room (Sink (fill_mem room m 0 out) (length out) st) = Ret (tt, Sink (stored room out m) (length out) st).
Proof.
  intros Hr. unfold terminate, stored. cbn [mem pos stores]. destruct (Z.leb_spec room 0) as [H0|H0].
  - by rewrite fill_mem_full by lia.
  - set (k := if Z.of_nat (length out) <? room then length out else Z.to_nat (room - 1)).
    assert (k = min (length out) (Z.to_nat (room - 1))) as Ek by (unfold k; destruct (Z.ltb_spec (Z.of_nat (length out)) room); lia).
    rewrite fill_mem_length, (proj2 (Nat.ltb_lt _ _)) by lia. cbn zeta. rewrite <- Ek.
    rewrite fill_mem_eq by lia. cbn zeta. rewrite take_0, app_nil_l, Nat.sub_0_r, Nat.add_0_l. do 3 f_equal.
    set (j := min (length out) (Z.to_nat room)).
    destruct (decide (j = k)) as [->|].
    + rewrite insert_app_r_alt by (rewrite length_take; lia). f_equal. rewrite length_take.
      replace (k - min k (length out))%nat with 0%nat by lia.
      destruct (drop k m) as [|x l] eqn:Ed; [apply (f_equal length) in Ed; rewrite length_drop in Ed; simpl in Ed; lia|].
      simpl. f_equal. rewrite <- Nat.add_1_r, <- drop_drop, Ed. done.
    + replace j with (S k) by lia. destruct (lookup_lt_is_Some_2 out k ltac:(lia)) as [x Hx].
      rewrite (take_S_r _ _ _ Hx), <- app_assoc, insert_app_r_alt by (rewrite length_take; lia). f_equal. rewrite length_take.
      by replace (k - min k (length out))%nat with 0%nat by lia.
Qed.

Lemma vsnprintf_uniform buf fmt args : exists o : outcome (chars * list (Z * Z)), ends o /\
  forall size m, buffer_room buf size <= Z.of_nat (length m) ->
    vsnprintf buf size m fmt args =
    match o with
    | Ret (out, st) => Ret (Z.of_nat (length out), Sink (stored (buffer_room buf size) out m) (length out) st)
    | Stop f => Stop f
    end.
Proof.
  destruct (uniform_loop (length fmt) 0 fmt args ltac:(lia)) as [o [He Ho]].
  exists (match o with
    | Ret (_, out, st) => if buf + Z.of_nat (length out) <? two32 then (let? _ := as_int (Z.of_nat (length out)) in Ret (out, st)) else Stop Undef
    | Stop f => Stop f end).
  split.
  - destruct o as [[[u out] st]|f]; [|intros E; apply He; by injection E as ->]. destruct (_ <? _); [|done]. by apply obind_ends; [apply as_int_ends|].
  - intros size m Hr. unfold vsnprintf, bind. rewrite Ho by done. destruct o as [[[u out] st]|f]; [|done].
    unfold emitted. cbn [mem pos stores]. rewrite Nat.add_0_l, app_nil_r, terminate_stored by done.
    unfold printed, lift. cbn [pos]. destruct (_ <? _); [|done]. unfold as_int. by destruct (_ && _).
Qed.

(** C2: [vsnprintf] ends for every format and argument list, and there is one text
    (or one fault) for them that does not depend on the buffer: for every size
    and every object that has room for it, the result is the length of the whole text, the
    object holds the text cut to one character less than its size and a
    terminator, the rest of the object is as it was, and [%n] stored
    the same counts. *)
Theorem vsnprintf_truncates buf fmt args : exists o : outcome (chars * list (Z * Z)), ends o /\
  forall size m, buffer_room buf size <= Z.of_nat (length m) ->
    vsnprintf buf size m fmt args =
    match o with
    | Ret (out, st) => Ret (Z.of_nat (length out), Sink (stored (buffer_room buf size) out m) (length out) st)
    | Stop f => Stop f
    end.
Proof. exact (vsnprintf_uniform buf fmt args). Qed.

Lemma buffer_room_inside buf size : 0 < buf -> 0 <= size -> buf + size <= two32 -> buffer_room buf size = size.
Proof.
  intros Hb Hs He. unfold buffer_room. unfold two32 in *. rewrite !u32_small by (unfold is_u32, two32; lia). by rewrite (proj2 (Z.ltb_ge _ _)) by lia.
Qed.

(** [iprintf] moves behind the text: the end of the buffer stays where it was, there is
    always room for the terminator, and the next call overwrites it. *)
Lemma iprintf_advances str size m fmt args r str' size' s :
  0 < str -> 1 <= size < 2147483648 -> str + size <= two32 -> size <= Z.of_nat (length m) ->
  iprintf str size m fmt args = Ret (r, (str', size'), s) ->
  str' + size' = str + size /\ 1 <= size' <= size /\ r = size' - 1 /\ mem s !! Z.to_nat (str' - str) = Some 0.
Proof.
  intros Hs Hz He Hm. destruct (vsnprintf_uniform str fmt args) as (o & _ & Ho). unfold iprintf.
  rewrite Ho by (rewrite buffer_room_inside; lia). rewrite buffer_room_inside by lia. destruct o as [[out st]|f]; [|done]. cbn [obind].
  rewrite (proj2 (Z.leb_le _ _)) by lia. unfold s32. rewrite Z.mod_small by (unfold two32; lia).
  intros [= <- <- <- <-]. unfold two32 in *. rewrite !(u32_small (_ - Z.min _ _)) by (unfold is_u32, two32; lia).
  rewrite !u32_small by (unfold is_u32, two32; lia). split; [lia|]. split; [lia|]. split; [lia|].
  cbn [mem]. unfold stored. rewrite (proj2 (Z.leb_gt _ _)) by lia. cbn zeta.
  rewrite lookup_app_r by (rewrite length_take; lia). rewrite length_take.
  by replace (_ - _)%nat with 0%nat by lia.
Qed.

(** ** The text of a number *)

Definition sign_text (num type : Z) : chars :=
  if has type SIGN then
    if num <? 0 then [45] else if has type PLUS then [43] else if has type SPACE then [32] else []
  else [].

(** The field: sign and prefix, at least [precision] digits, and spaces in front or
    behind, or zeros behind the prefix, up to [size] characters. *)
Definition number_text (num base size precision type : Z) : chars :=
  let abs := if has type SIGN then Z.abs num else num in
  let digits := reverse (number_digits abs base (has type LARGE)) in
  let head := sign_text num type ++ number_prefix base type in
  let body := replicate (Z.to_nat precision - length digits) 48 ++ digits in
  let gap := (Z.to_nat size - length (head ++ body))%nat in
  if has type LEFT then head ++ body ++ replicate gap 32
  else if has type ZEROPAD then head ++ replicate gap 48 ++ body
  else replicate gap 32 ++ head ++ body.

Example number_text_runs :
  number_text (-42) 10 6 (-1) SIGN = [32; 32; 32; 45; 52; 50] /\
  number_text (-42) 10 6 (-1) (SIGN + ZEROPAD) = [45; 48; 48; 48; 52; 50] /\
  number_text 255 16 8 4 (SPECIAL + LARGE + LEFT) = [48; 88; 48; 48; 70; 70; 32; 32].
Proof. vm_compute. done. Qed.

(** [m] puts [out] and returns [a]. *)
Definition emits {A} (m : Z -> M sink A) (a : A) (out : chars) : Prop :=
  forall room s, room <= Z.of_nat (length (mem s)) -> m room s = Ret (a, emitted room out [] s).

Lemma emits_ret {A} (a : A) : emits (fun _ => ret a) a [].
Proof. intros room [m q st] Hr. unfold emitted. simpl. by rewrite Nat.add_0_r. Qed.

Lemma emits_bind {A B} (m : Z -> M sink A) (k : Z -> A -> M sink B) a b out out' :
  emits m a out -> emits (fun room => k room a) b out' -> emits (fun room => bind (m room) (k room)) b (out ++ out').
Proof.
  intros Hm Hk room s Hr. rewrite (bind_eq _ _ _ _ _ (Hm room s Hr)), (Hk room) by (simpl; by rewrite fill_mem_length).
  unfold emitted. simpl. rewrite fill_mem_app, length_app. do 3 f_equal. lia.
Qed.

Lemma emits_put c : emits (fun room => put room c) tt [c].
Proof.
  intros room s Hr. unfold put, emitted. simpl. rewrite Nat.add_1_r. destruct (Z.ltb_spec (Z.of_nat (pos s)) room) as [Hlt|Hge]; [|done].
  by rewrite (proj2 (Nat.ltb_lt _ _)) by lia.
Qed.

Lemma emits_puts l : emits (fun room => puts room l) tt l.
Proof.
  induction l as [|c l IH]; [apply emits_ret|]. apply (emits_bind (fun room => put room c) (fun room _ => puts room l) tt tt [c] l); [apply emits_put|done].
Qed.

Lemma emits_repeat n c : emits (fun room => repeat_put room n c) tt (replicate n c).
Proof.
  induction n as [|n IH]; [apply emits_ret|].
  apply (emits_bind (fun room => put room c) (fun room _ => repeat_put room n c) tt tt [c] (replicate n c)); [apply emits_put|done].
Qed.

Lemma emits_lift {A} (m : outcome A) a : m = Ret a -> emits (fun _ => lift m) a [].
Proof. intros ->. apply emits_ret. Qed.

Lemma emits_pad size c : -2147483648 < size < 2147483648 ->
  emits (fun room => pad_loop room size c) (if 0 <? size then -1 else size - 1) (replicate (Z.to_nat size) c).
Proof.
  intros H. rewrite <- (app_nil_r (replicate _ _)). apply (emits_bind (fun room => repeat_put room (Z.to_nat size) c) (fun room _ => lift _) tt).
  - apply emits_repeat.
  - apply emits_lift. apply as_int_ok. destruct (Z.ltb_spec 0 size); lia.
Qed.

(** The flags are bits of [type]. *)
Lemma has_clear type flag : Z.land (Z.lnot ZEROPAD) flag = flag -> has (Z.land type (Z.lnot ZEROPAD)) flag = has type flag.
Proof. intros E. unfold has. by rewrite <- Z.land_assoc, E. Qed.

Lemma has_either type : has type (ZEROPAD + LEFT) = has type ZEROPAD || has type LEFT.
Proof.
  unfold has. change (ZEROPAD + LEFT) with (Z.lor ZEROPAD LEFT). rewrite Z.land_lor_distr_r.
  destruct (Z.eqb_spec (Z.land type ZEROPAD) 0) as [->|N1], (Z.eqb_spec (Z.land type LEFT) 0) as [->|N2]; simpl; try done.
  - by rewrite (proj2 (Z.eqb_neq _ _)).
  - by rewrite Z.lor_0_r, (proj2 (Z.eqb_neq _ _)).
  - rewrite (proj2 (Z.eqb_neq _ _)); [done|]. by intros [? ?]%Z.lor_eq_0_iff.
Qed.

Lemma tmp_digits_length fuel n base large : (length (tmp_digits fuel n base large) <= fuel)%nat.
Proof. revert n. induction fuel as [|fuel IH]; intros n; simpl; [lia|]. destruct (_ =? _); simpl; [lia|]. specialize (IH (n / base)). lia. Qed.

Lemma number_digits_length num base large : (length (number_digits num base large) <= 64)%nat.
Proof. unfold number_digits. destruct (_ =? _); [simpl; lia|]. apply tmp_digits_length. Qed.

(** The end of [number], from the width that is left. *)
Definition number_tail (room : Z) (left zero : bool) (sign : Z) (prefix : chars) (zeros : nat) (digits : chars) (size : Z) : M sink unit :=
  let! size := if zero || left then ret size else pad_loop room size 32 in
  (if sign =? 0 then ret tt else put room sign) ;;;
  puts room prefix ;;;
  let! size := if left then ret size else pad_loop room size (if zero then 48 else 32) in
  repeat_put room zeros 48 ;;;
  puts room digits ;;;
  pad_loop room size 32 ;;; ret tt.

Lemma emits_equiv {A} (m : Z -> M sink A) a out out' : emits m a out -> out = out' -> emits m a out'.
Proof. by intros H <-. Qed.

Lemma emits_sign sign : emits (fun room => if sign =? 0 then ret tt else put room sign) tt (if sign =? 0 then [] else [sign]).
Proof. destruct (sign =? 0); [apply emits_ret|apply emits_put]. Qed.

(** One step of a proof of what is put. *)
Ltac emit :=
  repeat (cbv beta; lazymatch goal with
    | |- emits (fun room => bind (@?m room) (fun x => @?k room x)) _ _ => eapply (emits_bind m k)
    | |- emits (fun room => pad_loop room _ _) _ _ => apply emits_pad
    | |- emits (fun room => puts room _) _ _ => apply emits_puts
    | |- emits (fun room => repeat_put room _ _) _ _ => apply emits_repeat
    | |- emits (fun room => if _ =? 0 then _ else put room _) _ _ => apply emits_sign
    | |- emits (fun _ => ret _) _ _ => apply emits_ret
    end).

Lemma number_tail_emits left zero sign prefix zeros digits size : -2147483600 < size < 2147483648 ->
  emits (fun room => number_tail room left zero sign prefix zeros digits size) tt
    (let head := (if sign =? 0 then [] else [sign]) ++ prefix in
     let body := replicate zeros 48 ++ digits in
     let gap := Z.to_nat size in
     if left then head ++ body ++ replicate gap 32
     else if zero then head ++ replicate gap 48 ++ body
     else replicate gap 32 ++ head ++ body).
Proof.
  intros Hs. unfold number_tail. cbn zeta.
  assert (Z.to_nat (if 0 <? size then -1 else size - 1) = 0%nat) as H0 by (destruct (Z.ltb_spec 0 size); lia).
  assert (Z.to_nat (if 0 <? (if 0 <? size then -1 else size - 1) then -1 else (if 0 <? size then -1 else size - 1) - 1) = 0%nat) as H1.
  { destruct (Z.ltb_spec 0 size); [done|]. destruct (Z.ltb_spec 0 (size - 1)); lia. }
  destruct left, zero; cbn [orb]; (eapply emits_equiv; [emit|]).
  all: rewrite ?H1, ?H0, ?app_nil_r; cbn [app replicate]; rewrite <- ?app_assoc; try done; try lia.
  all: destruct (Z.ltb_spec 0 size); try done; try lia; simpl; try done; destruct (Z.ltb_spec 0 (size - 1)); lia.
Qed.

Definition sign_char (num type : Z) : Z := default 0 (head (sign_text num type)).

Lemma sign_char_text num type : (if sign_char num type =? 0 then [] else [sign_char num type]) = sign_text num type.
Proof. unfold sign_char, sign_text. destruct (has type SIGN), (num <? 0), (has type PLUS), (has type SPACE); done. Qed.

Lemma number_sign_eq num size type : -9223372036854775808 < num ->
  number_sign num size type =
  Ret (sign_char num type, (if has type SIGN then Z.abs num else num), size - Z.of_nat (length (sign_text num type))).
Proof.
  intros Hn. unfold number_sign, sign_char, sign_text. destruct (has type SIGN); [|simpl; do 3 f_equal; lia].
  destruct (Z.ltb_spec num 0).
  - rewrite (proj2 (Z.eqb_neq _ _)) by lia. simpl. do 3 f_equal. lia.
  - destruct (has type PLUS); [|destruct (has type SPACE)]; simpl; repeat f_equal; lia.
Qed.

(** The flags [number] works with: [LEFT] takes [ZEROPAD] back. *)
Definition used_type (type : Z) : Z := if has type LEFT then Z.land type (Z.lnot ZEROPAD) else type.

Lemma used_type_has type flag : Z.land (Z.lnot ZEROPAD) flag = flag -> has (used_type type) flag = has type flag.
Proof. intros E. unfold used_type. destruct (has type LEFT); [by apply has_clear|done]. Qed.

Lemma used_type_zero type : has (used_type type) ZEROPAD = has type ZEROPAD && negb (has type LEFT).
Proof.
  unfold used_type. destruct (has type LEFT); [|by rewrite andb_true_r]. rewrite andb_false_r. unfold has. by rewrite <- Z.land_assoc, Z.land_0_r.
Qed.

Lemma sign_text_used num type : sign_text num (used_type type) = sign_text num type.
Proof. unfold sign_text. by rewrite !used_type_has. Qed.

Lemma number_prefix_used base type : number_prefix base (used_type type) = number_prefix base type.
Proof. unfold number_prefix. by rewrite !used_type_has. Qed.

(** The width [number] takes for the prefix. *)
Lemma number_prefix_length base size type :
  (if has type SPECIAL then (if base =? 16 then size - 2 else if base =? 8 then size - 1 else size) else size) =
  size - Z.of_nat (length (number_prefix base type)).
Proof.
  unfold number_prefix. destruct (has type SPECIAL); [|simpl; lia]. destruct (Z.eqb_spec base 16) as [->|]; [simpl; lia|]. destruct (base =? 8); simpl; lia.
Qed.

Lemma sign_text_short num type : (length (sign_text num type) <= 1)%nat.
Proof. unfold sign_text. destruct (has type SIGN), (num <? 0), (has type PLUS), (has type SPACE); simpl; lia. Qed.

Lemma number_prefix_short base type : (length (number_prefix base type) <= 2)%nat.
Proof. unfold number_prefix. destruct (has type SPECIAL), (base =? 8), (base =? 16); simpl; lia. Qed.

Lemma number_emits num base size precision type :
  2 <= base <= 36 -> -9223372036854775808 < num < 9223372036854775808 -> -1 <= size < 2147483648 -> precision <= 2000000000 ->
  emits (fun room => number room num base size precision type) tt (number_text num base size precision type).
Proof.
  intros Hb Hn Hs Hp. unfold number. fold (used_type type). cbn zeta.
  rewrite (proj2 (Z.ltb_ge base 2)), (proj2 (Z.ltb_ge 36 base)) by lia. cbn [orb]. rewrite has_either, !used_type_has, !used_type_zero by done.
  rewrite <- (app_nil_l (number_text _ _ _ _ _)). eapply (emits_bind (fun _ => lift _)).
  { apply emits_lift, number_sign_eq. lia. }
  cbv beta iota. rewrite number_prefix_used, sign_text_used, !used_type_has by done.
  replace (sign_char num (used_type type)) with (sign_char num type) by (unfold sign_char; by rewrite sign_text_used).
  set (abs := if has type SIGN then Z.abs num else num). set (tmp := number_digits abs base (has type LARGE)).
  pose proof (number_digits_length abs base (has type LARGE)) as Hl. fold tmp in Hl.
  pose proof (sign_text_short num type). pose proof (number_prefix_short base type).
  rewrite number_prefix_length. rewrite <- (app_nil_l (number_text _ _ _ _ _)). eapply (emits_bind (fun _ => lift _)).
  { apply emits_lift, as_int_ok. destruct (Z.ltb_spec precision (Z.of_nat (length tmp))); lia. }
  eapply emits_equiv; [apply number_tail_emits; destruct (Z.ltb_spec precision (Z.of_nat (length tmp))); lia|]. cbn zeta.
  rewrite sign_char_text. unfold number_text. cbn zeta. fold abs tmp. rewrite !length_app, length_replicate, length_reverse.
  replace (Z.to_nat ((if precision <? Z.of_nat (length tmp) then _ else _) - _)) with (Z.to_nat precision - length tmp)%nat
    by (destruct (Z.ltb_spec precision (Z.of_nat (length tmp))); lia).
  match goal with |- context [(Z.to_nat size - ?n)%nat] => replace (Z.to_nat size - n)%nat with
    (Z.to_nat (size - Z.of_nat (length (sign_text num type)) - Z.of_nat (length (number_prefix base type)) -
      (if precision <? Z.of_nat (length tmp) then Z.of_nat (length tmp) else precision)))
    by (destruct (Z.ltb_spec precision (Z.of_nat (length tmp))); lia) end.
  by destruct (has type LEFT), (has type ZEROPAD).
Qed.

(** C39: [number] prints a field: a sign, a prefix and the digits of the number, at
    least [precision] of them, filled up with spaces or zeros to [size]
    characters; a longer number is never cut.  The characters go to the buffer as
    far as it has room and all of them are counted. *)
Theorem number_correct room num base size precision type s :
  2 <= base <= 36 -> -9223372036854775808 < num < 9223372036854775808 -> -1 <= size < 2147483648 -> precision <= 2000000000 ->
  room <= Z.of_nat (length (mem s)) ->
  let text := number_text num base size precision type in
  number room num base size precision type s = Ret (tt, emitted room text [] s) /\
  length text = max (Z.to_nat size)
    (length (sign_text num type) + length (number_prefix base type) +
     max (Z.to_nat precision) (length (number_digits (if has type SIGN then Z.abs num else num) base (has type LARGE)))).
Proof.
  intros Hb Hn Hs Hp Hr text. split; [by apply number_emits|].
  unfold text, number_text. destruct (has type LEFT), (has type ZEROPAD); rewrite !length_app, !length_replicate, length_reverse; lia.
Qed.

Lemma number_correct_witness :
  number 16 (-42) 10 6 (-1) SIGN (Sink (replicate 16 1) 0 []) = Ret (tt, Sink ([32; 32; 32; 45; 52; 50] ++ replicate 10 1) 6 []).
Proof.
  exact (proj1 (number_correct 16 (-42) 10 6 (-1) SIGN (Sink (replicate 16 1) 0 []) ltac:(lia) ltac:(lia) ltac:(lia) ltac:(lia) ltac:(simpl; lia))).
Defined.

(** ** Numbers are read back *)

(** What [strtoul_loop] stops at. *)
Definition no_digit (rest : chars) (base : Z) : Prop :=
  match rest with c :: _ => isxdigit c && (digit_value c <? base) = false | [] => False end.

Lemma strtoul_stop word rest base r : no_digit rest base -> strtoul_loop word rest base r = Ret (r, rest).
Proof. destruct rest as [|c rest]; simpl; [done|]. by intros ->. Qed.

Lemma digit_char_value large d : 0 <= d < 16 -> isxdigit (digit_char large d) = true /\ digit_value (digit_char large d) = d.
Proof.
  intros Hd. assert (forallb (fun d => isxdigit (digit_char large d) && (digit_value (digit_char large d) =? d)) (seqZ 0 16) = true) as Hall
    by (destruct large; vm_compute; reflexivity).
  rewrite forallb_forall in Hall. specialize (Hall d). rewrite <- list_elem_of_In, elem_of_seqZ in Hall.
  specialize (Hall ltac:(lia)). apply andb_prop in Hall as [H1 H2]. by apply Z.eqb_eq in H2.
Qed.

(** The digits of [n], read behind a number [acc]. *)
Lemma strtoul_digits word base large fuel : 2 <= base <= 16 -> 0 < word -> forall n acc rest, 0 <= n < base ^ Z.of_nat fuel -> 0 <= acc < word ->
  let tmp := tmp_digits fuel n base large in
  strtoul_loop word (reverse tmp ++ rest) base acc = strtoul_loop word rest base ((acc * base ^ Z.of_nat (length tmp) + n) mod word).
Proof.
  intros Hb Hw. induction fuel as [|fuel IH]; intros n acc rest Hn Ha.
  - assert (n = 0) as -> by (simpl in Hn; lia). simpl. by rewrite Z.mul_1_r, Z.add_0_r, Z.mod_small.
  - cbn zeta. cbn [tmp_digits]. destruct (Z.eqb_spec n 0) as [->|Hn0]; [simpl; by rewrite Z.mul_1_r, Z.add_0_r, Z.mod_small|].
    rewrite Nat2Z.inj_succ, Z.pow_succ_r in Hn by lia.
    assert (0 <= n mod base < base) as Hm by (apply Z.mod_pos_bound; lia).
    assert (0 <= n / base < base ^ Z.of_nat fuel) as Hq by (split; [apply Z.div_pos; lia|apply Z.div_lt_upper_bound; lia]).
    rewrite reverse_cons, <- app_assoc, (IH (n / base)) by done. cbn [app strtoul_loop length].
    destruct (digit_char_value large (n mod base) ltac:(lia)) as [-> ->]. rewrite (proj2 (Z.ltb_lt _ _)) by lia. cbn [andb]. f_equal.
    rewrite Nat2Z.inj_succ, Z.pow_succ_r by lia. rewrite <- Z.add_mod_idemp_l, Z.mul_mod_idemp_l, Z.add_mod_idemp_l by lia. f_equal.
    pose proof (Z.div_mod n base ltac:(lia)) as E. nia.
Qed.

Lemma number_digits_read word base large n rest : 2 <= base <= 16 -> 0 <= n < word -> word <= two64 -> no_digit rest base ->
  strtoul_loop word (reverse (number_digits n base large) ++ rest) base 0 = Ret (n, rest).
Proof.
  intros Hb Hn Hw Hr. unfold number_digits. destruct (Z.eqb_spec n 0) as [->|Hn0].
  - change (reverse [48]) with [48]. cbn [app strtoul_loop]. change (isxdigit 48) with true. change (digit_value 48) with 0.
    rewrite (proj2 (Z.ltb_lt 0 base)) by lia. by apply strtoul_stop.
  - rewrite (Z.mod_small n two64) by lia. rewrite strtoul_digits; [|lia|lia| |lia].
    + rewrite Z.mul_0_l, Z.add_0_l, Z.mod_small by lia. by apply strtoul_stop.
    + split; [lia|]. apply Z.lt_le_trans with two64; [lia|]. change two64 with (2 ^ Z.of_nat 64). apply Z.pow_le_mono_l. lia.
Qed.

Lemma number_digits_nonempty n base large : 0 <= n < two64 -> exists c l, reverse (number_digits n base large) = c :: l.
Proof.
  intros Hn. destruct (reverse (number_digits n base large)) as [|c l] eqn:E; [|eauto].
  apply (f_equal length) in E. rewrite length_reverse in E. unfold number_digits in E.
  destruct (Z.eqb_spec n 0); [done|]. rewrite Z.mod_small in E by done. cbn [tmp_digits] in E. by rewrite (proj2 (Z.eqb_neq _ _)) in E.
Qed.

Lemma vsnprintf_truncates_witness : exists o : outcome (chars * list (Z * Z)), ends o /\
  vsnprintf 4096 6 (replicate 8 1) small_fmt small_args =
  match o with
  | Ret (out, st) => Ret (Z.of_nat (length out), Sink (stored 6 out (replicate 8 1)) (length out) st)
  | Stop f => Stop f
  end.
Proof.
  destruct (vsnprintf_truncates 4096 small_fmt small_args) as (o & He & Ho). exists o. split; [exact He|].
  refine (Ho 6 (replicate 8 1) _). vm_compute. discriminate.
Defined.

(** With no room at all [iprintf] moves back by one character and finds room for
    one: [(int)( *size - 1)] is -1. *)
Example iprintf_empty : iprintf 4096 0 [1] [97; 0] [] = Ret (0, (4095, 1), Sink [1] 1 []).
Proof. vm_compute. reflexivity. Qed.
