(* ===== verification/Scanf.v ===== *)
(** * Formatted input (util/printf.c)

    [vsscanf] reads values from a string under the control of a format.  An
    argument is a pointer to a number or to an array of characters of a given
    size; the model returns what was stored, in the order of the stores, and a
    store to an argument that is not there, of another kind, or beyond the end
    of an array is undefined.

    The theorems: [vsscanf] ends and stores no more than it was given
    arguments for, and what [vsnprintf] prints for a list of numbers is read
    back by [vsscanf] with the same format. *)

From S2P Require Import Prelude CString Printf.

(** ** The state *)

Inductive target : Type := TNum | TBuf (size : nat).
Inductive stored_value : Type := SInt (z : Z) | SStr (s : chars).

Record scan : Type := Scan { str : chars; sfmt : chars; targets : list target; num : Z; log : list stored_value }.

(** [while (isspace( *p)) ++p;] *)
Fixpoint skip_space (p : chars) : outcome chars :=
  match p with
  | [] => Stop Undef
  | c :: p' => if isspace c then skip_space p' else Ret p
  end.

(** [while (!isspace( *p) && *p) p++;] *)
Fixpoint skip_word (p : chars) : outcome chars :=
  match p with
  | [] => Stop Undef
  | c :: p' => if negb (isspace c) && negb (c =? 0) then skip_word p' else Ret p
  end.

Definition store_num (z : Z) (ts : list target) : outcome (list target * stored_value) :=
  match ts with TNum :: ts' => Ret (ts', SInt z) | _ => Stop Undef end.

Definition store_chars (l : chars) (ts : list target) : outcome (list target * stored_value) :=
  match ts with TBuf n :: ts' => if (length l <=? n)%nat then Ret (ts', SStr l) else Stop Undef | _ => Stop Undef end.

(** ** Conversions *)

(** [do { *s++ = *str++; } while (--field_width > 0 && *str);]: what is copied and
    what is left. *)
Fixpoint take_chars (p : chars) (field_width : Z) : outcome (chars * chars) :=
  match p with
  | [] => Stop Undef
  | c :: p' =>
      if 0 <? field_width - 1 then
        let? d := fmt_head p' in
        if d =? 0 then Ret ([c], p') else (let? (l, r) := take_chars p' (field_width - 1) in Ret (c :: l, r))
      else Ret ([c], p')
  end.

(** [while ( *str && !isspace( *str) && field_width--) *s++ = *str++;] *)
Fixpoint take_word (p : chars) (field_width : Z) : outcome (chars * chars) :=
  match p with
  | [] => Stop Undef
  | c :: p' =>
      if negb (c =? 0) && negb (isspace c) && negb (field_width =? 0)
      then (let? (l, r) := take_word p' (field_width - 1) in Ret (c :: l, r))
      else Ret ([], p)
  end.

(** Width and qualifier: [-1], ['h'], ['l'], ['L'], ['Z'], ['z'], or ['H'] for [hh]. *)
Definition scan_width (f : chars) : outcome (Z * chars) :=
  let? c := fmt_head f in
  if isdigit c then skip_atoi f 0 else Ret (-1, f).

Definition scan_qualifier (f : chars) : outcome (Z * chars) :=
  let? c := fmt_head f in
  if (c =? 104) || (c =? 108) || (c =? 76) || (c =? 90) || (c =? 122) then
    let f := drop 1 f in
    let? d := fmt_head f in
    if c =? d then
      if c =? 104 then Ret (72, drop 1 f) else if c =? 108 then Ret (76, drop 1 f) else Ret (c, f)
    else Ret (c, f)
  else Ret (-1, f).

(** [(short)z] *)
Definition s16 (z : Z) : Z := (z + 32768) mod 65536 - 32768.

(** What an integer conversion stores, and where it stopped. *)
Definition scan_integer (qualifier base : Z) (is_sign : bool) (p : chars) : outcome (Z * chars) :=
  if qualifier =? 72 then
    if is_sign then (let? (v, next) := simple_strtol p base in Ret (s8 v, next))
    else (let? (v, next) := simple_strtoul p base in Ret (v mod 256, next))
  else if qualifier =? 104 then
    if is_sign then (let? (v, next) := simple_strtol p base in Ret (s16 v, next))
    else (let? (v, next) := simple_strtoul p base in Ret (v mod 65536, next))
  else if qualifier =? 108 then (if is_sign then simple_strtol p base else simple_strtoul p base)
  else if qualifier =? 76 then (if is_sign then simple_strtoll p base else simple_strtoull p base)
  else if (qualifier =? 90) || (qualifier =? 122) then simple_strtoul p base
  else if is_sign then simple_strtol p base else simple_strtoul p base.

(** The first character of a number in [base]. *)
Definition starts_number (base digit : Z) : bool :=
  negb ((digit =? 0)
        || ((base =? 16) && negb (isxdigit digit))
        || ((base =? 10) && negb (isdigit digit))
        || ((base =? 8) && (negb (isdigit digit) || (55 <? digit)))
        || ((base =? 0) && negb (isdigit digit))).

(** [None]: the loop ends. *)
Definition put_number (qualifier base : Z) (is_sign : bool) (s : scan) : outcome (option scan) :=
  let? p := skip_space (str s) in
  let? digit := fmt_head p in
  let? digit := if is_sign && (digit =? 45) then fmt_head (drop 1 p) else Ret digit in
  if negb (starts_number base digit) then Ret None
  else
    let? (v, next) := scan_integer qualifier base is_sign p in
    let? (ts, w) := store_num v (targets s) in
    Ret (Some (Scan next (sfmt s) ts (num s + 1) (log s ++ [w]))).

(** The [switch] on the conversion [c]; [pos] is how far [str] is from [buf]. *)
Definition convert (pos : Z) (c field_width qualifier : Z) (s : scan) : outcome (option scan) :=
  if c =? 99 then
    let? (l, p) := take_chars (str s) (if field_width =? -1 then 1 else field_width) in
    let? (ts, w) := store_chars l (targets s) in
    Ret (Some (Scan p (sfmt s) ts (num s + 1) (log s ++ [w])))
  else if c =? 115 then
    let? p := skip_space (str s) in
    let? (l, p) := take_word p (if field_width =? -1 then 2147483647 else field_width) in
    let? (ts, w) := store_chars (l ++ [0]) (targets s) in
    Ret (Some (Scan p (sfmt s) ts (num s + 1) (log s ++ [w])))
  else if c =? 110 then
    let? (ts, w) := store_num pos (targets s) in
    Ret (Some (Scan (str s) (sfmt s) ts (num s) (log s ++ [w])))
  else if c =? 111 then put_number qualifier 8 false s
  else if (c =? 120) || (c =? 88) then put_number qualifier 16 false s
  else if c =? 105 then put_number qualifier 0 true s
  else if c =? 100 then put_number qualifier 10 true s
  else if c =? 117 then put_number qualifier 10 false s
  else if c =? 37 then
    let? d := fmt_head (str s) in
    if d =? 37 then Ret (Some (Scan (drop 1 (str s)) (sfmt s) (targets s) (num s) (log s))) else Ret None
  else Ret None.

(** White space in the format. *)
Definition match_space (s : scan) : outcome scan :=
  let? c := fmt_head (sfmt s) in
  if isspace c then
    let? f := skip_space (sfmt s) in
    let? p := skip_space (str s) in
    Ret (Scan p f (targets s) (num s) (log s))
  else Ret s.

(** A conversion, from behind the [%]. *)
Definition conversion (total : nat) (s : scan) : outcome (option scan) :=
  let? c := fmt_head (sfmt s) in
  if c =? 42 then
    let? f := skip_word (sfmt s) in
    let? p := skip_word (str s) in
    Ret (Some (Scan p f (targets s) (num s) (log s)))
  else
    let? (w, f) := scan_width (sfmt s) in
    let? (q, f) := scan_qualifier f in
    let? c := fmt_head f in
    let? d := fmt_head (str s) in
    if (c =? 0) || (d =? 0) then Ret None
    else convert (Z.of_nat (total - length (str s))) c w q (Scan (str s) (drop 1 f) (targets s) (num s) (log s)).

(** The body of the loop. *)
Definition scan_step (total : nat) (s : scan) : outcome (option scan) :=
  let? s := match_space s in
  let? c := fmt_head (sfmt s) in
  if negb (c =? 37) && negb (c =? 0) then
    let? d := fmt_head (str s) in
    if c =? d then Ret (Some (Scan (drop 1 (str s)) (drop 1 (sfmt s)) (targets s) (num s) (log s))) else Ret None
  else if c =? 0 then Ret None
  else conversion total (Scan (str s) (drop 1 (sfmt s)) (targets s) (num s) (log s)).

(** The loop: it ends at the end of the format or of the string. *)
Fixpoint scan_loop (fuel : nat) (total : nat) (s : scan) : outcome (Z * list stored_value) :=
  let? c := fmt_head (sfmt s) in
  if c =? 0 then Ret (num s, log s)
  else
    let? d := fmt_head (str s) in
    if d =? 0 then Ret (num s, log s)
    else
      match fuel with
      | O => Stop Diverge
      | S fuel' =>
          let? o := scan_step total s in
          match o with
          | Some s' => scan_loop fuel' total s'
          | None => Ret (num s, log s)
          end
      end.

Definition vsscanf (buf fmt : chars) (args : list target) : outcome (Z * list stored_value) :=
  scan_loop (length fmt) (length buf) (Scan buf fmt args 0 []).

Definition sscanf (buf fmt : chars) (args : list target) : outcome (Z * list stored_value) := vsscanf buf fmt args.

(** ** Small runs *)

(** "12 abc -7x" with "%d %s %i%c%n" *)
Example scan_run : sscanf [49; 50; 32; 97; 98; 99; 32; 45; 55; 120; 0] [37; 100; 32; 37; 115; 32; 37; 105; 37; 99; 37; 110; 0]
    [TNum; TBuf 4; TNum; TBuf 1; TNum] = Ret (4, [SInt 12; SStr [97; 98; 99; 0]; SInt (-7); SStr [120]]).
Proof. vm_compute. reflexivity. Qed.

(** An array that is too small, and a literal that does not match. *)
Example scan_fails : sscanf [97; 98; 0] [37; 115; 0] [TBuf 2] = Stop Undef /\
  sscanf [49; 44; 50; 0] [37; 117; 59; 37; 117; 0] [TNum; TNum] = Ret (1, [SInt 1]).
Proof. vm_compute. done. Qed.

(** ** The loop ends *)

(** [m] does not run out of fuel and returns a value with [Q]. *)
Definition lands {A} (Q : A -> Prop) (m : outcome A) : Prop :=
  match m with Ret a => Q a | Stop f => f <> Diverge end.

Lemma lands_bind {A B} (P : A -> Prop) (Q : B -> Prop) m k : lands P m -> (forall a, P a -> lands Q (obind (Ret a) k)) -> lands Q (obind m k).
Proof. destruct m as [a|f]; simpl; [|done]. intros HP Hk. exact (Hk a HP). Qed.

Lemma lands_any {A} (m : outcome A) : ends m -> lands (fun _ => True) m.
Proof. destruct m as [a|f]; [done|]. intros H ->. by apply H. Qed.

(** Reading a number does not run out of fuel. *)
Lemma strtoul_loop_ends word cp base r : ends (strtoul_loop word cp base r).
Proof. revert r. induction cp as [|c cp IH]; intros r; simpl; [done|]. destruct (_ && _); [apply IH|done]. Qed.

Lemma find_base_ends cp base : ends (find_base cp base).
Proof. unfold find_base. ends_tac. Qed.

Lemma simple_strtoul_ends cp base : ends (simple_strtoul cp base) /\ ends (simple_strtoull cp base).
Proof. split; (apply obind_ends; [apply find_base_ends|]; intros [p b]; apply strtoul_loop_ends). Qed.

Lemma simple_strtol_ends cp base : ends (simple_strtol cp base) /\ ends (simple_strtoll cp base).
Proof.
  destruct cp as [|c cp]; [done|]. split; simpl; destruct (c =? 45); (apply obind_ends; [apply simple_strtoul_ends|]; by intros [v e]).
Qed.

Lemma scan_integer_ends q base sg p : ends (scan_integer q base sg p).
Proof.
  destruct (simple_strtoul_ends p base) as [H1 H2], (simple_strtol_ends p base) as [H3 H4].
  unfold scan_integer. repeat (destruct (_ =? _); cbn [orb]); destruct sg; try done; (apply obind_ends; [done|]; by intros [v e]).
Qed.

Lemma skip_space_ends p : ends (skip_space p).
Proof. induction p as [|c p IH]; simpl; [done|]. by destruct (isspace c). Qed.

Lemma take_chars_ends p w : ends (take_chars p w).
Proof.
  revert w. induction p as [|c p IH]; intros w; simpl; [done|]. destruct (0 <? _); [|done].
  apply obind_ends; [apply fmt_head_ends|]. intros d. destruct (d =? 0); [done|]. apply obind_ends; [apply IH|]. by intros [l r].
Qed.

Lemma take_word_ends p w : ends (take_word p w).
Proof.
  revert w. induction p as [|c p IH]; intros w; simpl; [done|]. destruct (_ && _); [|done]. apply obind_ends; [apply IH|]. by intros [l r].
Qed.

Lemma skip_word_ends p : ends (skip_word p).
Proof. induction p as [|c p IH]; simpl; [done|]. by destruct (_ && _). Qed.

Lemma store_num_ends v ts : ends (store_num v ts).
Proof. unfold store_num. ends_tac. Qed.

#[local] Hint Resolve scan_integer_ends skip_space_ends skip_word_ends take_chars_ends take_word_ends store_num_ends fmt_head_ends : printf.

(** What is left of the format behind white space, a word, a width or a qualifier. *)
Lemma skip_space_lands p : lands (fun r => length r <= length p)%nat (skip_space p).
Proof. induction p as [|c p IH]; simpl; [done|]. destruct (isspace c); simpl; [|lia]. destruct (skip_space p); simpl in *; [lia|done]. Qed.

Lemma skip_word_lands p : lands (fun r => length r <= length p)%nat (skip_word p).
Proof. induction p as [|c p IH]; simpl; [done|]. destruct (_ && _); simpl; [|lia]. destruct (skip_word p); simpl in *; [lia|done]. Qed.

Lemma leaves_lands {A} (r : A -> chars) n m : leaves r n m -> lands (fun a => length (r a) <= n)%nat m.
Proof. intros [He Hr]. destruct m as [a|f]; simpl; [by apply Hr|]. intros ->. by apply He. Qed.

Lemma scan_width_lands f : lands (fun r => length r.2 <= length f)%nat (scan_width f).
Proof.
  apply leaves_lands. unfold scan_width. apply leaves_pure; [auto with printf|]. intros c.
  destruct (isdigit c); [by apply skip_atoi_leaves|by apply leaves_ret].
Qed.

Lemma scan_qualifier_lands f : lands (fun r => length r.2 <= length f)%nat (scan_qualifier f).
Proof.
  apply leaves_lands. unfold scan_qualifier. apply leaves_pure; [auto with printf|]. intros c. destruct (_ || _); [|by apply leaves_ret].
  apply leaves_pure; [auto with printf|]. intros d. repeat (destruct (_ =? _)); apply leaves_ret; simpl; rewrite ?length_drop; lia.
Qed.

(** A step uses up arguments as it stores values and never gives back the format. *)
Definition stepped (f : nat) (s : scan) (o : option scan) : Prop :=
  match o with
  | Some s' => (length (sfmt s') <= f)%nat /\
      (length (log s') + length (targets s') = length (log s) + length (targets s))%nat /\
      num s <= num s' <= num s + Z.of_nat (length (log s')) - Z.of_nat (length (log s))
  | None => True
  end.

Lemma store_num_lands v ts : lands (fun r => length ts = S (length r.1)) (store_num v ts).
Proof. destruct ts as [|[|n] ts]; done. Qed.

Lemma store_chars_lands l ts : lands (fun r => length ts = S (length r.1)) (store_chars l ts).
Proof. destruct ts as [|[|n] ts]; simpl; try done. by destruct (_ <=? _)%nat. Qed.

(** Passing a read whose value does not matter. *)
Ltac pass_read := eapply lands_bind; [apply lands_any; solve [auto with printf]|intros ? _; cbn [obind]].

Lemma put_number_stepped q base sg s : lands (stepped (length (sfmt s)) s) (put_number q base sg s).
Proof.
  unfold put_number. pass_read. pass_read. eapply lands_bind; [apply lands_any; destruct (_ && _); [apply fmt_head_ends|done]|intros ? _; cbn [obind]].
  destruct (negb _); [done|]. pass_read. destruct a2 as [v next].
  eapply lands_bind; [apply store_num_lands|]. intros [ts w] Hts. simpl in *. rewrite length_app. simpl. lia.
Qed.

Lemma convert_stepped pos c w q s : lands (stepped (length (sfmt s)) s) (convert pos c w q s).
Proof.
  unfold convert. repeat match goal with |- lands _ (if ?b then _ else _) => destruct b end; try apply put_number_stepped; try done.
  - pass_read. destruct a as [l p]. eapply lands_bind; [apply store_chars_lands|]. intros [ts v] Hts. simpl in *. rewrite length_app. simpl. lia.
  - pass_read. pass_read. destruct a0 as [l p]. eapply lands_bind; [apply store_chars_lands|]. intros [ts v] Hts. simpl in *. rewrite length_app. simpl. lia.
  - eapply lands_bind; [apply store_num_lands|]. intros [ts v] Hts. simpl in *. rewrite length_app. simpl. lia.
  - pass_read. destruct (_ =? _); simpl; [lia|done].
Qed.

Lemma stepped_mono f f' s s' o : stepped f s o -> (f <= f')%nat -> log s = log s' -> targets s = targets s' -> num s = num s' -> stepped f' s' o.
Proof. destruct o as [t|]; simpl; [|done]. intros (H1 & H2 & H3) Hf <- <- <-. lia. Qed.

Lemma lands_mono {A} (P Q : A -> Prop) m : lands P m -> (forall a, P a -> Q a) -> lands Q m.
Proof. destruct m; simpl; eauto. Qed.

Lemma conversion_stepped total s : lands (stepped (length (sfmt s)) s) (conversion total s).
Proof.
  unfold conversion. pass_read. destruct (_ =? _).
  - eapply lands_bind; [apply skip_word_lands|]. intros f Hf. cbn [obind]. pass_read. simpl in *. lia.
  - eapply lands_bind; [apply scan_width_lands|]. intros [w f] Hf. cbn [obind]. eapply lands_bind; [apply scan_qualifier_lands|].
    intros [q g] Hg. cbn [obind]. pass_read. pass_read. destruct (_ || _); [done|].
    eapply lands_mono; [apply convert_stepped|]. intros o Ho. eapply stepped_mono; [exact Ho|simpl in *; rewrite length_drop; lia|done..].
Qed.

Lemma match_space_lands s : lands (fun s' => (length (sfmt s') <= length (sfmt s))%nat /\ targets s' = targets s /\ num s' = num s /\ log s' = log s) (match_space s).
Proof.
  unfold match_space. pass_read. destruct (isspace a); [|done]. eapply lands_bind; [apply skip_space_lands|]. intros f Hf. cbn [obind]. pass_read. done.
Qed.

Lemma scan_step_stepped total s : lands (stepped (length (sfmt s) - 1) s) (scan_step total s).
Proof.
  unfold scan_step. eapply lands_bind; [apply match_space_lands|]. intros s' (Hf & Et & En & El). cbn [obind].
  destruct (sfmt s') as [|c f] eqn:Ef; [done|]. cbn [fmt_head obind drop]. simpl in Hf. destruct (_ && _).
  - pass_read. destruct (_ =? _); [|done]. rewrite drop_0. simpl. rewrite Et, En, El. lia.
  - destruct (_ =? _); [done|]. eapply lands_mono; [apply conversion_stepped|]. intros o Ho.
    eapply stepped_mono; [exact Ho|rewrite drop_0; simpl; lia|done..].
Qed.

Lemma scan_loop_lands total fuel s : (length (sfmt s) <= fuel)%nat ->
  lands (fun r => num s <= r.1 <= num s + Z.of_nat (length r.2) - Z.of_nat (length (log s)) /\
    (length r.2 <= length (log s) + length (targets s))%nat) (scan_loop fuel total s).
Proof.
  revert s. induction fuel as [|fuel IH]; intros s Hf.
  - destruct s as [p [|c f] ts n l]; simpl in *; [done|lia].
  - cbn [scan_loop]. destruct (sfmt s) as [|c f] eqn:Ef; [done|]. simpl in Hf. cbn [fmt_head obind].
    destruct (c =? 0); [simpl; lia|]. pass_read. destruct (_ =? _); [simpl; lia|].
    eapply lands_bind; [apply scan_step_stepped|]. intros [s'|] Ho; cbn [obind]; [|simpl; lia].
    destruct Ho as (H1 & H2 & H3). rewrite Ef in H1. simpl in H1. eapply lands_mono; [apply IH; lia|]. simpl. intros [n l] [H4 H5]. simpl in *. lia.
Qed.

(** C40: [vsscanf] ends for every string, format and arguments; what it returns
    is at most the number of values it stored, and it stores at most one value
    for every argument. *)
Theorem vsscanf_ends buf fmt args :
  match vsscanf buf fmt args with
  | Ret (n, l) => 0 <= n <= Z.of_nat (length l) /\ (length l <= length args)%nat
  | Stop f => f = Undef \/ f = Assert
  end.
Proof.
  pose proof (scan_loop_lands (length buf) (length fmt) (Scan buf fmt args 0 []) ltac:(simpl; lia)) as H.
  unfold vsscanf. destruct (scan_loop _ _ _) as [[n l]|f]; simpl in *; [lia|]. destruct f; auto. done.
Qed.

(** ** What is printed is read back *)

(** The conversions [%d], [%u], [%x] and [%o] with a value each. *)
Definition conv_base (c : Z) : Z := if c =? 111 then 8 else if c =? 120 then 16 else 10.
Definition conv_type (c : Z) : Z := if c =? 100 then SIGN else 0.
Definition conv_ok (p : Z * Z) : Prop :=
  (p.1 = 100 /\ is_s32 p.2) \/ ((p.1 = 117 \/ p.1 = 120 \/ p.1 = 111) /\ is_u32 p.2).

(** The format: the conversions with a space between them. *)
Fixpoint fmt_tail (l : list (Z * Z)) : chars :=
  match l with [] => [0] | p :: l' => 32 :: 37 :: p.1 :: fmt_tail l' end.
Definition number_fmt (l : list (Z * Z)) : chars :=
  match l with [] => [0] | p :: l' => 37 :: p.1 :: fmt_tail l' end.

Definition conv_text (p : Z * Z) : chars := number_text p.2 (conv_base p.1) (-1) (-1) (conv_type p.1).

Fixpoint text_tail (l : list (Z * Z)) : chars :=
  match l with [] => [] | p :: l' => 32 :: conv_text p ++ text_tail l' end.
Definition number_list_text (l : list (Z * Z)) : chars :=
  match l with [] => [] | p :: l' => conv_text p ++ text_tail l' end.

Definition number_args (l : list (Z * Z)) : list arg := map (fun p => Word (u32 p.2)) l.

Lemma conv_cases p : conv_ok p -> exists c z, p = (c, z) /\
  ((c = 100 /\ is_s32 z) \/ (c = 117 /\ is_u32 z) \/ (c = 120 /\ is_u32 z) \/ (c = 111 /\ is_u32 z)).
Proof. destruct p as [c z]. unfold conv_ok. simpl. intros H. exists c, z. split; [done|]. intuition. Qed.

Lemma directive_emits p args : conv_ok p ->
  emits (fun room => directive room p.1 (-1) (-1) (-1) 0 (Word (u32 p.2) :: args)) args (conv_text p).
Proof.
  assert (forall z base t v, 2 <= base <= 36 -> -2147483648 <= z < 4294967296 -> integer_arg (-1) t (Word v :: args) = Ret (z, args) ->
    emits (fun room => put_integer room base (-1) (-1) (-1) t (Word v :: args)) args (number_text z base (-1) (-1) t)) as Hput.
  { intros z base t v Hb Hz Ea. unfold put_integer. rewrite <- (app_nil_l (number_text _ _ _ _ _)). eapply (emits_bind (fun _ => lift _)); [by apply emits_lift|].
    cbv beta iota. rewrite <- (app_nil_r (number_text _ _ _ _ _)). replace (s64 z) with z by (unfold s64, two64; rewrite Z.mod_small; lia).
    eapply (emits_bind (fun room => number room _ _ _ _ _)); [apply number_emits; lia|apply emits_ret]. }
  intros (c & z & -> & H)%conv_cases. unfold conv_text, is_s32, is_u32, two32 in *. simpl fst. simpl snd.
  assert (is_s32 z -> s32 (u32 z) = z) as Es by (unfold is_s32, s32, u32, two32; intros; dlia).
  assert (is_u32 z -> u32 (u32 z) = z) as Eu by (unfold is_u32, u32, two32; intros; dlia).
  destruct H as [[-> Hz]|[[-> Hz]|[[-> Hz]|[-> Hz]]]]; refine (Hput z _ _ _ _ _ _); try lia.
  - change (Ret (s32 (u32 z), args) = Ret (z, args)). by rewrite Es.
  - change (Ret (u32 (u32 z), args) = Ret (z, args)). by rewrite Eu.
  - change (Ret (u32 (u32 z), args) = Ret (z, args)). by rewrite Eu.
  - change (Ret (u32 (u32 z), args) = Ret (z, args)). by rewrite Eu.
Qed.

(** The loop over the format prints one number after the other. *)
Lemma parse_spec_plain p rest args : conv_ok p -> parse_spec (p.1 :: rest) args = Ret (p.1, -1, -1, -1, 0, p.1 :: rest, args).
Proof. intros (c & z & -> & [[-> _]|[[-> _]|[[-> _]|[-> _]]]])%conv_cases; reflexivity. Qed.

Lemma conv_emits p fuel rest args out : conv_ok p -> emits (fun room => format_loop room fuel rest args) tt out ->
  emits (fun room => format_loop room (S fuel) (37 :: p.1 :: rest) (Word (u32 p.2) :: args)) tt (conv_text p ++ out).
Proof.
  intros Hp Hr. cbn [format_loop]. change (37 =? 0) with false. change (negb (37 =? 37)) with false. cbv iota.
  rewrite parse_spec_plain by done. rewrite <- (app_nil_l (conv_text p ++ out)).
  eapply (emits_bind (fun _ => lift _)); [by apply emits_lift|]. cbv beta iota.
  eapply (emits_bind (fun room => directive room _ _ _ _ _ _)); [by apply directive_emits|]. cbv beta.
  replace (p.1 =? 0) with false by (destruct (conv_cases p Hp) as (c & z & -> & [[-> _]|[[-> _]|[[-> _]|[-> _]]]]); done).
  cbn [drop]. by rewrite drop_0.
Qed.

Lemma literal_emits c fuel rest args out : c <> 0 -> c <> 37 -> emits (fun room => format_loop room fuel rest args) tt out ->
  emits (fun room => format_loop room (S fuel) (c :: rest) args) tt (c :: out).
Proof.
  intros H0 H37 Hr. cbn [format_loop]. rewrite (proj2 (Z.eqb_neq _ _) H0), (proj2 (Z.eqb_neq _ _) H37). cbn [negb].
  exact (emits_bind (fun room => put room c) (fun room _ => format_loop room fuel rest args) tt tt [c] out (emits_put c) Hr).
Qed.

Lemma fmt_tail_emits l fuel : Forall conv_ok l -> (length (fmt_tail l) <= fuel)%nat ->
  emits (fun room => format_loop room fuel (fmt_tail l) (number_args l)) tt (text_tail l).
Proof.
  intros Hl. revert fuel. induction Hl as [|p l Hp Hl IH]; intros fuel Hf; cbn [fmt_tail length] in Hf.
  - destruct fuel; [lia|apply emits_ret].
  - destruct fuel as [|[|fuel]]; try lia. cbn [fmt_tail text_tail number_args map].
    apply literal_emits; [done|done|].
    apply conv_emits; [done|]. apply IH. lia.
Qed.

Lemma number_fmt_emits l : Forall conv_ok l ->
  emits (fun room => format_loop room (length (number_fmt l)) (number_fmt l) (number_args l)) tt (number_list_text l).
Proof.
  destruct 1 as [|p l Hp Hl]; [apply emits_ret|]. cbn [number_fmt length number_list_text number_args map]. apply conv_emits; [done|].
  apply fmt_tail_emits; [done|lia].
Qed.

(** *** Reading one number *)

Lemma conv_text_eq p : conv_ok p -> conv_text p = sign_text p.2 (conv_type p.1) ++ reverse (number_digits (Z.abs p.2) (conv_base p.1) false).
Proof.
  intros (c & z & -> & H)%conv_cases. unfold conv_text, number_text. simpl fst. simpl snd.
  assert (is_u32 z -> Z.abs z = z) as Ea by (unfold is_u32, two32; lia).
  destruct H as [[-> Hz]|[[-> Hz]|[[-> Hz]|[-> Hz]]]]; rewrite ?Ea by done; cbn; rewrite ?app_nil_r; done.
Qed.

(** A number ends at the end of the text or at a space. *)
Definition number_end (rest : chars) : Prop := match rest with c :: _ => c = 0 \/ c = 32 | [] => False end.

Lemma number_end_no_digit rest base : number_end rest -> no_digit rest base.
Proof. destruct rest as [|c rest]; [done|]. by intros [-> | ->]. Qed.

Definition first_digit_ok (base c : Z) : bool := starts_number base c && negb (isspace c) && negb (c =? 45) && negb (c =? 0).

Lemma digit_char_first base d : base = 8 \/ base = 10 \/ base = 16 -> 0 <= d < base -> first_digit_ok base (digit_char false d) = true.
Proof.
  intros Hb Hd. assert (forallb (fun d => first_digit_ok base (digit_char false d)) (seqZ 0 base) = true) as Hall
    by (destruct Hb as [->|[->| ->]]; vm_compute; reflexivity).
  rewrite forallb_forall in Hall. specialize (Hall d). rewrite <- list_elem_of_In, elem_of_seqZ in Hall. apply Hall. lia.
Qed.

Lemma number_digits_first base n c l : base = 8 \/ base = 10 \/ base = 16 -> 0 <= n < two64 ->
  reverse (number_digits n base false) = c :: l -> first_digit_ok base c = true.
Proof.
  intros Hb Hn E. assert (Forall (fun c => exists d, 0 <= d < base /\ c = digit_char false d) (number_digits n base false)) as H.
  { unfold number_digits. destruct (n =? 0); [constructor; [exists 0; split; [lia|done]|done]|].
    generalize (n mod two64) as m. generalize 64%nat as f. induction f as [|f IH]; intros m; simpl; [constructor|].
    destruct (m =? 0); [constructor|]. constructor; [|apply IH]. exists (m mod base). split; [apply Z.mod_pos_bound; lia|done]. }
  rewrite <- Forall_reverse, E in H. apply Forall_cons in H as [(d & Hd & ->) _]. by apply digit_char_first.
Qed.

Lemma skip_space_stays c p : isspace c = false -> skip_space (c :: p) = Ret (c :: p).
Proof. simpl. by intros ->. Qed.

Lemma simple_strtoul_reads n base rest : base = 8 \/ base = 10 \/ base = 16 -> 0 <= n < two32 -> number_end rest ->
  simple_strtoul (reverse (number_digits n base false) ++ rest) base = Ret (n, rest).
Proof.
  intros Hb Hn Hr. unfold simple_strtoul, find_base. rewrite (proj2 (Z.eqb_neq base 0)) by lia. cbn [obind].
  apply number_digits_read; [lia|done|by unfold two32, two64|by apply number_end_no_digit].
Qed.

(** The value, with its sign in front or not. *)
Lemma put_number_reads base z ts f n l rest (sg : bool) : base = 8 \/ base = 10 \/ base = 16 -> number_end rest ->
  (if sg then is_s32 z else is_u32 z) ->
  put_number (-1) base sg (Scan ((if z <? 0 then [45] else []) ++ reverse (number_digits (Z.abs z) base false) ++ rest) f (TNum :: ts) n l) =
  Ret (Some (Scan rest f ts (n + 1) (l ++ [SInt z]))).
Proof.
  intros Hb Hr Hz. assert (0 <= Z.abs z < two32) as Ha by (unfold is_s32, is_u32, two32 in *; destruct sg; lia).
  pose proof (simple_strtoul_reads (Z.abs z) base rest Hb Ha Hr) as Hread.
  destruct (number_digits_nonempty (Z.abs z) base false ltac:(unfold two32, two64 in *; lia)) as (c & r & Ec).
  pose proof (number_digits_first base (Z.abs z) c r Hb ltac:(unfold two32, two64 in *; lia) Ec) as Hf.
  unfold first_digit_ok in Hf. rewrite !andb_true_iff, !negb_true_iff in Hf. destruct Hf as [[[Hs Hsp] H45] H0].
  rewrite Ec in *. cbn [app] in *. unfold put_number. cbn [str sfmt targets num log].
  destruct (Z.ltb_spec z 0) as [Hneg|Hpos].
  - destruct sg; [|unfold is_u32 in Hz; lia]. cbn [app]. rewrite skip_space_stays by done. cbn [obind fmt_head drop]. change (45 =? 45) with true. cbn [andb].
    cbn [fmt_head obind]. rewrite Hs. cbn [negb]. unfold scan_integer. cbn. rewrite Hread. cbn. do 6 f_equal.
    unfold s32, is_s32, two32 in *. rewrite Z.mod_small; lia.
  - cbn [app]. rewrite skip_space_stays by done. cbn [obind fmt_head drop]. rewrite H45, andb_false_r. cbn [obind]. rewrite Hs. cbn [negb].
    rewrite Z.abs_eq in Hread by lia. unfold scan_integer. cbn. destruct sg; cbn; rewrite ?H45, Hread; cbn; [|done]. do 6 f_equal.
    unfold s32, is_s32, two32 in *. rewrite Z.mod_small; lia.
Qed.

Lemma conv_base_cases c : conv_base c = 8 \/ conv_base c = 10 \/ conv_base c = 16.
Proof. unfold conv_base. destruct (c =? 111), (c =? 120); auto. Qed.

Lemma conv_text_signed p : conv_ok p ->
  conv_text p = (if p.2 <? 0 then [45] else []) ++ reverse (number_digits (Z.abs p.2) (conv_base p.1) false).
Proof.
  intros H. rewrite conv_text_eq by done. f_equal. apply conv_cases in H as (c & z & -> & H). simpl fst. simpl snd.
  destruct H as [[-> Hz]|[[-> Hz]|[[-> Hz]|[-> Hz]]]]; unfold sign_text; cbn; [by destruct (z <? 0)|..];
    (rewrite (proj2 (Z.ltb_ge z 0)); [done|unfold is_u32 in Hz; lia]).
Qed.

Lemma conv_text_head p : conv_ok p -> exists c r, conv_text p = c :: r /\ isspace c = false /\ (c =? 0) = false.
Proof.
  intros H. rewrite conv_text_signed by done. destruct (p.2 <? 0); [by eexists 45, _|].
  assert (0 <= Z.abs p.2 < two64) as Ha.
  { apply conv_cases in H as (c & z & -> & H). unfold is_s32, is_u32, two32, two64 in *. simpl. lia. }
  destruct (number_digits_nonempty (Z.abs p.2) (conv_base p.1) false Ha) as (c & r & Ec).
  pose proof (number_digits_first _ _ c r (conv_base_cases p.1) Ha Ec) as Hf. unfold first_digit_ok in Hf. rewrite !andb_true_iff, !negb_true_iff in Hf.
  rewrite Ec. exists c, r. split; [done|]. tauto.
Qed.

Lemma conversion_reads total p f ts n l rest : conv_ok p -> number_end rest -> f <> [] ->
  conversion total (Scan (conv_text p ++ rest) (p.1 :: f) (TNum :: ts) n l) = Ret (Some (Scan rest f ts (n + 1) (l ++ [SInt p.2]))).
Proof.
  intros Hp Hr Hf. destruct (conv_text_head p Hp) as (c & r & Ec & _ & Hc0).
  assert (conversion total (Scan (conv_text p ++ rest) (p.1 :: f) (TNum :: ts) n l) =
    convert (Z.of_nat (total - length (conv_text p ++ rest))) p.1 (-1) (-1) (Scan (conv_text p ++ rest) f (TNum :: ts) n l)) as ->.
  { unfold conversion. cbn [str sfmt targets num log]. rewrite Ec. cbn [app fmt_head].
    apply conv_cases in Hp as (k & z & -> & [[-> _]|[[-> _]|[[-> _]|[-> _]]]]); cbn [fst fmt_head obind]; cbn; by rewrite Hc0. }
  rewrite conv_text_signed, <- app_assoc by done. destruct (conv_cases p Hp) as (k & z & -> & H). simpl fst. simpl snd.
  destruct H as [[-> Hz]|[[-> Hz]|[[-> Hz]|[-> Hz]]]]; (apply put_number_reads; [auto|done|done]).
Qed.

Lemma scan_step_reads total p f ts n l rest : conv_ok p -> number_end rest -> f <> [] ->
  scan_step total (Scan (conv_text p ++ rest) (37 :: p.1 :: f) (TNum :: ts) n l) = Ret (Some (Scan rest f ts (n + 1) (l ++ [SInt p.2]))) /\
  scan_step total (Scan (32 :: conv_text p ++ rest) (32 :: 37 :: p.1 :: f) (TNum :: ts) n l) = Ret (Some (Scan rest f ts (n + 1) (l ++ [SInt p.2]))).
Proof.
  intros Hp Hr Hf. destruct (conv_text_head p Hp) as (c & r & Ec & Hsp & _).
  pose proof (conversion_reads total p f ts n l rest Hp Hr Hf) as Hc. split; [exact Hc|].
  unfold scan_step, match_space. cbn [str sfmt targets num log fmt_head obind]. change (isspace 32) with true. cbv iota.
  change (skip_space (32 :: 37 :: p.1 :: f)) with (Ret (37 :: p.1 :: f)). change (skip_space (32 :: conv_text p ++ rest)) with (skip_space (conv_text p ++ rest)).
  rewrite Ec in *. cbn [app]. rewrite skip_space_stays by done. exact Hc.
Qed.

Lemma fmt_tail_nonempty l : fmt_tail l <> [].
Proof. by destruct l. Qed.

Lemma text_tail_end l junk : number_end (text_tail l ++ 0 :: junk).
Proof. destruct l; simpl; auto. Qed.

Lemma scan_tail_reads total junk l : Forall conv_ok l -> forall fuel n lg, (length (fmt_tail l) <= fuel)%nat ->
  scan_loop fuel total (Scan (text_tail l ++ 0 :: junk) (fmt_tail l) (replicate (length l) TNum) n lg) =
  Ret (n + Z.of_nat (length l), lg ++ map (fun p => SInt p.2) l).
Proof.
  induction 1 as [|p l Hp Hl IH]; intros fuel n lg Hf; cbn [fmt_tail length] in Hf.
  - destruct fuel; [lia|]. cbn. by rewrite Z.add_0_r, app_nil_r.
  - destruct fuel as [|fuel]; [lia|]. cbn [text_tail app scan_loop sfmt str fmt_tail fmt_head obind length replicate].
    rewrite <- app_assoc. change (32 =? 0) with false. cbv iota.
    rewrite (proj2 (scan_step_reads total p _ _ _ _ _ Hp (text_tail_end l junk) (fmt_tail_nonempty l))). cbn [obind].
    rewrite IH by lia. rewrite <- app_assoc. cbn [map app]. do 2 f_equal. lia.
Qed.

(** *** The length of the text *)

Lemma tmp_digits_short base large fuel n k : 2 <= base -> 0 <= n < base ^ Z.of_nat k -> (length (tmp_digits fuel n base large) <= k)%nat.
Proof.
  intros Hb. revert n k. induction fuel as [|fuel IH]; intros n k Hn; simpl; [lia|]. destruct (Z.eqb_spec n 0); simpl; [lia|].
  destruct k as [|k]; [simpl in Hn; lia|]. rewrite Nat2Z.inj_succ, Z.pow_succ_r in Hn by lia.
  apply le_n_S, IH. split; [apply Z.div_pos; lia|apply Z.div_lt_upper_bound; lia].
Qed.

Lemma conv_text_short p : conv_ok p -> (length (conv_text p) <= 12)%nat.
Proof.
  intros H. rewrite conv_text_signed by done. rewrite length_app, length_reverse.
  assert (length (if (p.2 <? 0)%Z then [45%Z] else []) <= 1)%nat by (destruct (p.2 <? 0); simpl; lia).
  assert (0 <= Z.abs p.2 < two32) as Ha.
  { apply conv_cases in H as (c & z & -> & H). unfold is_s32, is_u32, two32 in *. simpl. lia. }
  assert (length (number_digits (Z.abs p.2) (conv_base p.1) false) <= 11)%nat; [|lia].
  unfold number_digits. destruct (_ =? 0); [simpl; lia|]. rewrite Z.mod_small by (unfold two32, two64 in *; lia).
  apply tmp_digits_short; destruct (conv_base_cases p.1) as [->|[->| ->]]; unfold two32 in Ha; lia.
Qed.

Lemma number_list_text_short l : Forall conv_ok l -> (length (number_list_text l) <= 13 * length l)%nat.
Proof.
  assert (forall l, Forall conv_ok l -> (length (text_tail l) <= 13 * length l)%nat) as Ht.
  { induction 1 as [|p l' Hp Hl IH]; simpl; [lia|]. rewrite length_app. pose proof (conv_text_short p Hp). lia. }
  destruct 1 as [|p l' Hp Hl]; simpl; [lia|]. rewrite length_app. pose proof (conv_text_short p Hp). specialize (Ht l' Hl). lia.
Qed.

Lemma vsnprintf_numbers l buf size m : Forall conv_ok l -> 13 * Z.of_nat (length l) < buffer_room buf size <= Z.of_nat (length m) ->
  buf + buffer_room buf size <= two32 -> Z.of_nat (length l) <= 100000000 ->
  let text := number_list_text l in
  vsnprintf buf size m (number_fmt l) (number_args l) = Ret (Z.of_nat (length text), Sink (text ++ 0 :: drop (S (length text)) m) (length text) []).
Proof.
  intros Hl [Hlo Hhi] Hb Hn text. pose proof (number_list_text_short l Hl) as Hs. fold text in Hs.
  unfold vsnprintf. erewrite bind_eq by (apply (number_fmt_emits l Hl); exact Hhi). unfold emitted. cbn [mem pos stores]. fold text.
  unfold bind. rewrite Nat.add_0_l, app_nil_r, terminate_stored by done. unfold printed. cbn [pos].
  rewrite (proj2 (Z.ltb_lt _ _)) by lia. rewrite as_int_ok by lia. cbn [lift]. do 2 f_equal. unfold lift. do 2 f_equal.
  unfold stored. rewrite (proj2 (Z.leb_gt _ _)) by lia. rewrite Nat.min_l by lia. by rewrite take_ge by lia.
Qed.

(** C5: A list of numbers printed by [vsnprintf] with the conversions [%d], [%u],
    [%x] and [%o], a space between two of them, is read back by [vsscanf] with the same format:
    every value is stored and the number of values returned. *)
Theorem print_scan_roundtrip l buf size m : Forall conv_ok l ->
  13 * Z.of_nat (length l) < buffer_room buf size <= Z.of_nat (length m) -> buf + buffer_room buf size <= two32 ->
  Z.of_nat (length l) <= 100000000 ->
  exists n s, vsnprintf buf size m (number_fmt l) (number_args l) = Ret (n, s) /\
    vsscanf (mem s) (number_fmt l) (replicate (length l) TNum) = Ret (Z.of_nat (length l), map (fun p => SInt p.2) l).
Proof.
  intros Hl Hr Hb Hn. eexists _, _. split; [by apply vsnprintf_numbers|]. cbn [mem]. unfold vsscanf.
  destruct Hl as [|p l Hp Hl]; [done|]. cbn [number_fmt number_list_text length replicate map].
  set (junk := drop _ m). destruct (conv_text_head p Hp) as (c & r & Ec & _ & Hc0).
  match goal with |- scan_loop _ ?t _ = _ => generalize t; intros total end. rewrite <- app_assoc.
  pose proof (proj1 (scan_step_reads total p (fmt_tail l) (replicate (length l) TNum) 0 [] _ Hp (text_tail_end l junk) (fmt_tail_nonempty l))) as Hstep.
  assert (length (fmt_tail l) <= S (length (fmt_tail l)))%nat as Hfuel by lia. revert Hfuel. generalize (S (length (fmt_tail l))). intros fuel Hfuel.
  cbn [scan_loop sfmt str fmt_head obind]. change (37 =? 0) with false. cbv iota. rewrite Hstep.
  rewrite Ec. cbn [app fmt_head obind]. rewrite Hc0. rewrite scan_tail_reads by done. do 2 f_equal. lia.
Qed.

Lemma print_scan_roundtrip_witness : exists n s,
  vsnprintf 4096 64 (replicate 64 1) (number_fmt [(100, -2147483648); (120, 48879); (111, 8)]) (number_args [(100, -2147483648); (120, 48879); (111, 8)]) = Ret (n, s) /\
  vsscanf (mem s) (number_fmt [(100, -2147483648); (120, 48879); (111, 8)]) (replicate 3 TNum) = Ret (3, [SInt (-2147483648); SInt 48879; SInt 8]).
Proof.
  apply (print_scan_roundtrip [(100, -2147483648); (120, 48879); (111, 8)] 4096 64 (replicate 64 1)).
  - repeat constructor; unfold conv_ok, is_s32, is_u32, two32; simpl; lia.
  - vm_compute. split; [reflexivity|discriminate].
  - vm_compute. discriminate.
  - simpl. lia.
Defined.
