(* ===== verification/Virtterm.v ===== *)
(** * Virtual terminals, screen and keyboard (drivers/tty)

    A virtual terminal keeps its lines in a circular buffer of 125 rows
    (drivers/tty/virtterm.c): [vt_head] and [vt_tail] delimit the history,
    [vt_top] is the first row on the screen and [vt_cursor] the place of the
    next character.  The screen (drivers/tty/screen.c) is the video memory, and
    the cursor of the CRT controller is set by writes to its ports, which the
    model records.  The keyboard driver (drivers/tty/keyboard.c) turns scan
    codes into characters, scrolling and terminal switches.

    A call of a registered callback is recorded; the scan code
    [inb(KEYBOARD_IN_PORT)] is an argument of the interrupt handler.

    The theorems: a terminal is its history of at most 124 lines and every
    character has its effect on that history ([VirttermSpec]); the screen always
    shows what a full redraw would draw. *)

From S2P Require Import Prelude CString.

Definition DISPLAY_WIDTH : Z := 80.
Definition DISPLAY_HEIGHT : Z := 25.
Definition DISPLAY_SIZE : Z := 2000.
Definition SCROLL_BUFSIZE : Z := 10000.
(** Config.mk *)
Definition NTERMS : Z := 3.

(** ** State *)

Record virtterm : Type := Virtterm {
  vt_head : Z; vt_tail : Z; vt_top : Z; vt_cursor : Z;
  vt_buf : chars; vt_tempbuf : chars;
  ttd_ops : bool; ttd_callback : option Z; ttd_callback_arg : Z }.

Record ttys : Type := Ttys {
  vt_terms : list virtterm; vt_curterm : option nat;
  videoram : list Z; ports : list (Z * Z); ipl : Z;
  curmask : Z; keyboard_handler : bool; called : list (Z * Z * Z) }.

Definition with_terms v s := Ttys v (vt_curterm s) (videoram s) (ports s) (ipl s) (curmask s) (keyboard_handler s) (called s).
Definition with_curterm v s := Ttys (vt_terms s) v (videoram s) (ports s) (ipl s) (curmask s) (keyboard_handler s) (called s).
Definition with_video v s := Ttys (vt_terms s) (vt_curterm s) v (ports s) (ipl s) (curmask s) (keyboard_handler s) (called s).
Definition with_ports v s := Ttys (vt_terms s) (vt_curterm s) (videoram s) v (ipl s) (curmask s) (keyboard_handler s) (called s).
Definition with_ipl v s := Ttys (vt_terms s) (vt_curterm s) (videoram s) (ports s) v (curmask s) (keyboard_handler s) (called s).
Definition with_mask v s := Ttys (vt_terms s) (vt_curterm s) (videoram s) (ports s) (ipl s) v (keyboard_handler s) (called s).
Definition with_handler v s := Ttys (vt_terms s) (vt_curterm s) (videoram s) (ports s) (ipl s) (curmask s) v (called s).
Definition with_called v s := Ttys (vt_terms s) (vt_curterm s) (videoram s) (ports s) (ipl s) (curmask s) (keyboard_handler s) v.

Definition with_top v t := Virtterm (vt_head t) (vt_tail t) v (vt_cursor t) (vt_buf t) (vt_tempbuf t) (ttd_ops t) (ttd_callback t) (ttd_callback_arg t).
Definition with_tempbuf v t := Virtterm (vt_head t) (vt_tail t) (vt_top t) (vt_cursor t) (vt_buf t) v (ttd_ops t) (ttd_callback t) (ttd_callback_arg t).
Definition with_callback f a t := Virtterm (vt_head t) (vt_tail t) (vt_top t) (vt_cursor t) (vt_buf t) (vt_tempbuf t) (ttd_ops t) f a.

Abbreviation K := (M ttys).

(** A terminal is its index; [None] is a null pointer. *)
Definition term (i : nat) : K virtterm := let! l := gets vt_terms in deref (l !! i).
Definition term_set (i : nat) (t : virtterm) : K unit := modify (fun s => with_terms (<[i := t]> (vt_terms s)) s).
Definition pure {A} (m : outcome A) : K A := fun s => match m with Ret a => Ret (a, s) | Stop f => Stop f end.

(** [(uint16_t)z] *)
Definition u16 (z : Z) : Z := z mod 65536.

(** ** The screen (drivers/tty/screen.c) *)

Definition CRT_CONTROL_ADDR : Z := 980.
Definition CRT_CONTROL_DATA : Z := 981.
Definition CURSOR_HIGH : Z := 14.
Definition CURSOR_LOW : Z := 15.
Definition DEFAULT_ATTRIB : Z := 15.

(** The page [pt_phys_perm_map] maps holds 2048 cells. *)
Definition VIDEO_CELLS : nat := 2048.

Definition outb (port v : Z) : K unit := modify (fun s => with_ports (ports s ++ [(port, v)]) s).

Definition screen_init (mapped : list Z) : K unit := modify (with_video mapped).

Definition screen_move_cursor (x y : Z) : K unit :=
  let pos := u16 (y mod 256 * DISPLAY_WIDTH + x mod 256) in
  outb CRT_CONTROL_ADDR CURSOR_HIGH ;;;
  outb CRT_CONTROL_DATA (Z.shiftr pos 8) ;;;
  outb CRT_CONTROL_ADDR CURSOR_LOW ;;;
  outb CRT_CONTROL_DATA (Z.land pos 255).

(** [*(videoram + (y * DISPLAY_WIDTH + x)) = (attrib << 8) | c] *)
Definition screen_putchar_attrib (c x y attrib : Z) : K unit :=
  let! v := gets videoram in
  let i := Z.to_nat (y mod 256 * DISPLAY_WIDTH + x mod 256) in
  if (i <? length v)%nat then modify (with_video (<[i := u16 (Z.lor (Z.shiftl (attrib mod 256) 8) c)]> v)) else stop Undef.

Definition screen_putchar (c x y : Z) : K unit := screen_putchar_attrib c x y DEFAULT_ATTRIB.

(** A cell with the default attributes. *)
Definition cell (c : Z) : Z := u16 (Z.lor (Z.shiftl DEFAULT_ATTRIB 8) c).

(** The loops over the 2000 cells: reading beyond [buf] or storing beyond the video
    memory is undefined. *)
Definition screen_putbuf (buf : chars) : K unit :=
  let n := Z.to_nat (DISPLAY_WIDTH * DISPLAY_HEIGHT) in
  let! v := gets videoram in
  if (n <=? length buf)%nat && (n <=? length v)%nat then modify (with_video (map cell (take n buf) ++ drop n v)) else stop Undef.

Definition screen_putbuf_attrib (buf : list Z) : K unit :=
  let n := Z.to_nat (DISPLAY_WIDTH * DISPLAY_HEIGHT) in
  let! v := gets videoram in
  let! r := pure (memcpy v buf n) in
  modify (with_video r).

Definition screen_clear : K unit :=
  let n := Z.to_nat (DISPLAY_WIDTH * DISPLAY_HEIGHT) in
  let! v := gets videoram in
  if (n <=? length v)%nat then modify (with_video (replicate n (cell 32) ++ drop n v)) else stop Undef.

(** ** The circular buffer (drivers/tty/virtterm.c) *)

Definition circ_dist (to from : Z) : Z := Z.rem (to - from + SCROLL_BUFSIZE) SCROLL_BUFSIZE.
Definition next_row (i : Z) : Z := Z.rem ((Z.quot i DISPLAY_WIDTH + 1) * DISPLAY_WIDTH) SCROLL_BUFSIZE.
Definition buf_add (ptr amt : Z) : Z := Z.rem (ptr + amt + SCROLL_BUFSIZE) SCROLL_BUFSIZE.
Definition buf_inc (ptr : Z) : Z := buf_add ptr 1.
Definition buf_dec (ptr : Z) : Z := buf_add ptr (-1).

(** [memset(buf + off, 0, n)] and [memcpy(dst + off, src + from, n)] *)
Definition clear_at (buf : chars) (off n : Z) : outcome chars :=
  if (off <? 0) || (n <? 0) then Stop Undef
  else let? r := memset (drop (Z.to_nat off) buf) 0 (Z.to_nat n) in Ret (take (Z.to_nat off) buf ++ r).

Definition copy_at (dst : chars) (off : Z) (src : chars) (from n : Z) : outcome chars :=
  if (off <? 0) || (from <? 0) || (n <? 0) then Stop Undef
  else let? r := memcpy (drop (Z.to_nat off) dst) (drop (Z.to_nat from) src) (Z.to_nat n) in Ret (take (Z.to_nat off) dst ++ r).

(** What [vt_redraw] copies to [vt_tempbuf]. *)
Definition redraw_buf (t : virtterm) : outcome chars :=
  let top := vt_top t in let tail := vt_tail t in let buf := vt_buf t in
  let? tmp := clear_at (vt_tempbuf t) 0 DISPLAY_SIZE in
  if top <=? tail then
    if tail - top <=? DISPLAY_SIZE then copy_at tmp 0 buf top (tail - top)
    else copy_at tmp 0 buf top DISPLAY_SIZE
  else
    let first_part_size := SCROLL_BUFSIZE - top in
    if DISPLAY_SIZE <=? first_part_size then copy_at tmp 0 buf top DISPLAY_SIZE
    else
      let? tmp := copy_at tmp 0 buf top first_part_size in
      if first_part_size + tail <=? DISPLAY_SIZE then copy_at tmp first_part_size buf 0 tail
      else copy_at tmp first_part_size buf 0 (DISPLAY_SIZE - first_part_size).

Definition curterm : K nat := let! o := gets vt_curterm in deref o.

Definition vt_cursor_redraw : K unit :=
  let! i := curterm in
  let! t := term i in
  let rel_cursor := circ_dist (vt_cursor t) (vt_top t) in
  screen_move_cursor (Z.rem rel_cursor DISPLAY_WIDTH) (Z.quot rel_cursor DISPLAY_WIDTH).

Definition vt_redraw : K unit :=
  let! i := curterm in
  let! t := term i in
  let! tmp := pure (redraw_buf t) in
  term_set i (with_tempbuf tmp t) ;;;
  screen_putbuf tmp ;;;
  vt_cursor_redraw.

(** From [handle_tail]: the cursor moved on from [vt_cursor t] to [new_cursor]. *)
Definition handle_tail (t : virtterm) (buf : chars) (new_cursor : Z) : outcome virtterm :=
  if circ_dist (vt_tail t) (vt_cursor t) <=? circ_dist new_cursor (vt_cursor t) then
    let new_tail := next_row new_cursor in
    let head := if circ_dist (vt_tail t) new_tail <=? circ_dist (vt_tail t) (vt_head t) then next_row new_tail else vt_head t in
    let? buf :=
      (if vt_tail t <=? new_tail then clear_at buf (vt_tail t) (new_tail - vt_tail t)
       else
         let? buf := clear_at buf (vt_tail t) (SCROLL_BUFSIZE - vt_tail t) in
         clear_at buf 0 new_tail) in
    Ret (Virtterm head new_tail (vt_top t) new_cursor buf (vt_tempbuf t) (ttd_ops t) (ttd_callback t) (ttd_callback_arg t))
  else Ret (Virtterm (vt_head t) (vt_tail t) (vt_top t) new_cursor buf (vt_tempbuf t) (ttd_ops t) (ttd_callback t) (ttd_callback_arg t)).

Definition move_cursor (t : virtterm) (new_cursor : Z) : virtterm :=
  Virtterm (vt_head t) (vt_tail t) (vt_top t) new_cursor (vt_buf t) (vt_tempbuf t) (ttd_ops t) (ttd_callback t) (ttd_callback_arg t).

(** The terminal and whether the character is shown. *)
Definition vt_handle_char (t : virtterm) (c : Z) : outcome (virtterm * bool) :=
  let cur := vt_cursor t in
  if c =? 8 then Ret (move_cursor t (if cur =? vt_head t then cur else buf_dec cur), false)
  else if c =? 13 then Ret (move_cursor t (Z.quot cur DISPLAY_WIDTH * DISPLAY_WIDTH), false)
  else if c =? 10 then (let? t := handle_tail t (vt_buf t) (next_row cur) in Ret (t, false))
  else if (0 <=? cur) && (cur <? Z.of_nat (length (vt_buf t))) then
    let? t := handle_tail t (<[Z.to_nat cur := c]> (vt_buf t)) (buf_inc cur) in Ret (t, true)
  else Stop Undef.

(** The cursor is brought onto the screen. *)
Definition show_cursor (t : virtterm) : virtterm :=
  if DISPLAY_SIZE <=? circ_dist (vt_cursor t) (vt_top t)
  then with_top (buf_add (next_row (vt_cursor t)) (- DISPLAY_SIZE)) t else t.

Definition vt_provide_char (ttyd : option nat) (c : Z) : K unit :=
  KASSERT (bool_decide (is_Some ttyd)) ;;;
  let! i := deref ttyd in
  let! t := term i in
  let old_cursor := vt_cursor t in
  let old_top := vt_top t in
  let! (t, can_write_char) := pure (vt_handle_char (show_cursor t) c) in
  term_set i t ;;;
  let! cur := gets vt_curterm in
  if bool_decide (cur = Some i) then
    if old_top =? vt_top t then
      (if can_write_char : bool then
         let rel_cursor := circ_dist old_cursor (vt_top t) in
         screen_putchar c (Z.rem rel_cursor DISPLAY_WIDTH) (Z.quot rel_cursor DISPLAY_WIDTH)
       else ret tt) ;;;
      vt_cursor_redraw
    else vt_redraw
  else ret tt.

Definition keyboard_register_handler : K unit := modify (with_handler true).

(** The loop of [vt_init]: every terminal is empty with one line; the temporary
    buffer keeps what it held. *)
Definition init_term (t : virtterm) : outcome virtterm :=
  let? buf := clear_at (vt_buf t) 0 SCROLL_BUFSIZE in
  Ret (Virtterm 0 DISPLAY_WIDTH 0 0 buf (vt_tempbuf t) true None 0).

Fixpoint init_terms (n : nat) (i : nat) : K unit :=
  match n with
  | O => ret tt
  | S n' =>
      let! t := term i in
      let! t := pure (init_term t) in
      term_set i t ;;;
      init_terms n' (S i)
  end.

Definition vt_init : K unit :=
  init_terms (Z.to_nat NTERMS) 0 ;;;
  modify (with_curterm (Some 0%nat)) ;;;
  vt_redraw ;;;
  keyboard_register_handler.

Definition vt_num_terminals : Z := NTERMS.

(** The address of an element in front of the array is undefined. *)
Definition vt_get_tty_driver (id : Z) : outcome (option nat) :=
  if NTERMS <=? id then Ret None else if id <? 0 then Stop Undef else Ret (Some (Z.to_nat id)).

(** Where [vt_scroll] moves the top of the screen. *)
Definition scrolled_top (t : virtterm) (lines : Z) (scroll_up : bool) : Z :=
  if scroll_up then
    if circ_dist (vt_top t) (vt_head t) <? lines * DISPLAY_WIDTH then vt_head t
    else buf_add (vt_top t) (- lines * DISPLAY_WIDTH)
  else
    if circ_dist (vt_tail t) (vt_top t) <? (lines + 1) * DISPLAY_WIDTH then buf_add (vt_tail t) (- DISPLAY_WIDTH)
    else buf_add (vt_top t) (lines * DISPLAY_WIDTH).

(** The products are [int]s. *)
Definition vt_scroll (lines : Z) (scroll_up : bool) : K unit :=
  let! _ := pure (as_int (lines * DISPLAY_WIDTH)) in
  let! _ := pure (if scroll_up then Ret 0 else as_int ((lines + 1) * DISPLAY_WIDTH)) in
  let! i := curterm in
  let! t := term i in
  term_set i (with_top (scrolled_top t lines scroll_up) t) ;;;
  vt_redraw.

Definition vt_switch (term : Z) : K Z :=
  if (term <? 0) || (NTERMS <=? term) then ret (-1)
  else
    modify (with_curterm (Some (Z.to_nat term))) ;;;
    vt_redraw ;;;
    ret 0.

Fixpoint provide_string (i : nat) (l : chars) : K unit :=
  match l with
  | [] => ret tt
  | c :: l' => vt_provide_char (Some i) c ;;; provide_string i l'
  end.

Definition shutdown_text : chars :=
  [32; 32; 32; 32; 32; 32; 32; 32; 32; 32; 32; 32; 32; 32; 32; 32; 32; 32; 32;
   73; 116; 32; 105; 115; 32; 110; 111; 119; 32; 115; 97; 102; 101; 32; 116; 111; 32; 116; 117; 114; 110; 32; 111; 102; 102; 32;
   121; 111; 117; 114; 32; 99; 111; 109; 112; 117; 116; 101; 114].

Definition vt_print_shutdown : K unit :=
  let! o := gets vt_curterm in
  match o with
  | None => ret tt
  | Some i =>
      let! t := term i in
      KASSERT (ttd_ops t) ;;;
      provide_string i (replicate 20 10) ;;;
      provide_string i shutdown_text ;;;
      provide_string i (replicate 14 10)
  end.

Definition vt_register_callback_handler (ttyd : option nat) (callback : option Z) (arg : Z) : K (option Z) :=
  KASSERT (bool_decide (is_Some ttyd)) ;;;
  let! i := deref ttyd in
  let! t := term i in
  term_set i (with_callback callback arg t) ;;;
  ret (ttd_callback t).

Definition vt_unregister_callback_handler (ttyd : option nat) : K (option Z) :=
  KASSERT (bool_decide (is_Some ttyd)) ;;;
  let! i := deref ttyd in
  let! t := term i in
  term_set i (with_callback None (ttd_callback_arg t) t) ;;;
  ret (ttd_callback t).

Definition INTR_KEYBOARD : Z := 224.

Definition vt_block_io (ttyd : option nat) : K Z :=
  KASSERT (bool_decide (is_Some ttyd)) ;;;
  let! oldipl := gets ipl in
  modify (with_ipl INTR_KEYBOARD) ;;;
  ret oldipl.

Definition vt_unblock_io (ttyd : option nat) (data : Z) : K unit :=
  KASSERT (bool_decide (is_Some ttyd)) ;;;
  let! p := gets ipl in
  KASSERT (p =? INTR_KEYBOARD) ;;;
  modify (with_ipl (data mod 256)).

Definition vt_keyboard_handler (c : Z) : K unit :=
  let! o := gets vt_curterm in
  match o with
  | None => ret tt
  | Some i =>
      let! t := term i in
      match ttd_callback t with
      | Some f => modify (fun s => with_called (called s ++ [(f, ttd_callback_arg t, c)]) s)
      | None => ret tt
      end
  end.

(** ** The keyboard (drivers/tty/keyboard.c) *)

Definition SHIFT_MASK : Z := 1.
Definition CTRL_MASK : Z := 2.
Definition ESC_MASK : Z := 4.
Definition LSHIFT : Z := 42.
Definition RSHIFT : Z := 54.
Definition CTRL : Z := 29.
Definition ESC0 : Z := 224.
Definition ESC1 : Z := 225.
Definition SCROLL_UP : Z := 14.
Definition SCROLL_DOWN : Z := 28.
Definition VT_KEY_LOW : Z := 59.
Definition VT_KEY_HIGH : Z := 68.
Definition BREAK_MASK : Z := 128.
Definition NORMAL_KEY_HIGH : Z := 57.
Definition NO_CHAR : Z := 255.

(** The tables, with the terminator of the string literal. *)
Definition normal_scancodes : chars :=
  [0; 27; 49; 50; 51; 52; 53; 54; 55; 56; 57; 48; 45; 61; 8;
   9; 113; 119; 101; 114; 116; 121; 117; 105; 111; 112; 91; 93; 10; 0;
   97; 115; 100; 102; 103; 104; 106; 107; 108; 59; 39; 96; 0; 92;
   122; 120; 99; 118; 98; 110; 109; 44; 46; 47; 0; 0; 0; 32; 0].

Definition shift_scancodes : chars :=
  [0; 27; 33; 64; 35; 36; 37; 94; 38; 42; 40; 41; 95; 43; 8;
   9; 81; 87; 69; 82; 84; 89; 85; 73; 79; 80; 123; 125; 10; 0;
   65; 83; 68; 70; 71; 72; 74; 75; 76; 58; 34; 126; 0; 124;
   90; 88; 67; 86; 66; 78; 77; 60; 62; 63; 0; 0; 0; 32; 0].

Definition scancode (table : chars) (sc : Z) : outcome Z :=
  match table !! Z.to_nat sc with Some c => Ret c | None => Stop Undef end.

Definition held (mask flag : Z) : bool := negb (Z.land mask flag =? 0).

(** What the interrupt handler does with a scan code: the mask of the held keys, a
    call, and the character for the terminal. *)
Inductive key_action : Type := KNone | KSwitch (term : Z) | KScroll (up : bool) | KChar (c : Z).

Definition key_step (mask code : Z) : outcome (Z * key_action) :=
  let break_code := Z.land code BREAK_MASK in
  let sc := Z.land code (Z.lnot BREAK_MASK) in
  if negb (break_code =? 0) then
    if (sc =? LSHIFT) || (sc =? RSHIFT) then Ret (Z.land mask (Z.lnot SHIFT_MASK), KNone)
    else if sc =? CTRL then Ret (Z.land mask (Z.lnot CTRL_MASK), KNone)
    else Ret (mask, KNone)
  else if (sc =? LSHIFT) || (sc =? RSHIFT) then Ret (Z.lor mask SHIFT_MASK, KNone)
  else if sc =? CTRL then Ret (Z.lor mask CTRL_MASK, KNone)
  else if held mask ESC_MASK then Ret (Z.land mask (Z.lnot ESC_MASK), KNone)
  else if (sc =? ESC0) || (sc =? ESC1) then Ret (Z.lor mask ESC_MASK, KNone)
  else if (VT_KEY_LOW <=? sc) && (sc <=? VT_KEY_HIGH) then Ret (mask, KSwitch (sc - VT_KEY_LOW))
  else if held mask CTRL_MASK && (sc =? SCROLL_DOWN) then Ret (mask, KScroll false)
  else if held mask CTRL_MASK && (sc =? SCROLL_UP) then Ret (mask, KScroll true)
  else if NORMAL_KEY_HIGH <? sc then Ret (mask, KNone)
  else if held mask CTRL_MASK then
    let? c := scancode shift_scancodes sc in
    if (64 <=? c) && (c <? 96) then Ret (mask, KChar (c - 64)) else Ret (mask, KChar NO_CHAR)
  else if held mask SHIFT_MASK then (let? c := scancode shift_scancodes sc in Ret (mask, KChar c))
  else let? c := scancode normal_scancodes sc in Ret (mask, KChar c).

(** The interrupt handler for the scan code [code]. *)
Definition keyboard_intr_handler (code : Z) : K unit :=
  let! mask := gets curmask in
  let! (mask', a) := pure (key_step mask code) in
  modify (with_mask mask') ;;;
  match a with
  | KNone => ret tt
  | KSwitch t => vt_switch t ;;; ret tt
  | KScroll up => vt_scroll DISPLAY_HEIGHT up
  | KChar c =>
      if c =? NO_CHAR then ret tt
      else let! h := gets keyboard_handler in if h : bool then vt_keyboard_handler (s8 c) else ret tt
  end.

(** ** Small runs *)

(** The static state, and the mapped video memory. *)
Definition boot_term : virtterm := Virtterm 0 0 0 0 (replicate (Z.to_nat SCROLL_BUFSIZE) 0) (replicate (Z.to_nat DISPLAY_SIZE) 0) false None 0.
Definition boot_state : ttys := Ttys [boot_term; boot_term; boot_term] None [] [] 0 0 false [].
Definition tty_start : K unit := screen_init (replicate VIDEO_CELLS 0) ;;; vt_init.

Definition row_of (n : nat) (s : ttys) : list Z := take 4 (drop (80 * n) (videoram s)).

(** "ab", a new line and "c", and the scrolled screen. *)
Example vt_run : match (tty_start ;;; provide_string 0 [97; 98; 10; 99]) boot_state with
  | Ret (_, s) => (row_of 0 s, row_of 1 s, drop (length (ports s) - 4) (ports s)) =
      ([3937; 3938; 3840; 3840], [3939; 3840; 3840; 3840], [(980, 14); (981, 0); (980, 15); (981, 81)])
  | Stop _ => False end.
Proof. vm_compute. reflexivity. Qed.

(** Shift and A, then A: two characters for the callback of the current terminal. *)
Example key_run : match (tty_start ;;; vt_register_callback_handler (Some 0%nat) (Some 7) 5 ;;;
    keyboard_intr_handler 42 ;;; keyboard_intr_handler 30 ;;; keyboard_intr_handler 170 ;;; keyboard_intr_handler 30) boot_state with
  | Ret (_, s) => called s = [(7, 5, 65); (7, 5, 97)]
  | Stop _ => False end.
Proof. vm_compute. reflexivity. Qed.
