(* ===== verification/VirttermSpec.v ===== *)
(** * Virtual terminals: the history and the screen

    [hist] is what a terminal is to its user: the text of its lines, from the
    oldest it keeps, and the place of the cursor in it.  [spec_char] is the effect
    of a character.  The first theorem says that [vt_handle_char] on the
    circular buffer implements it; the others relate the video memory and the
    cursor of the CRT controller to the current terminal. *)

From S2P Require Import Prelude CString Virtterm.

Abbreviation W := DISPLAY_WIDTH.
Abbreviation D := DISPLAY_SIZE.
Abbreviation B := SCROLL_BUFSIZE.

(** The constants as numbers, for [lia]. *)
Ltac vlia := unfold DISPLAY_WIDTH, DISPLAY_HEIGHT, DISPLAY_SIZE, SCROLL_BUFSIZE in *; dlia.

(** ** The history *)

(** [n] characters of the circular buffer from [s] on. *)
Definition circ_slice (buf : chars) (s n : Z) : chars := map (fun i => buf !!! Z.to_nat ((s + i) mod B)) (seqZ 0 n).

Record hist : Type := Hist { lines : chars; cur : Z }.

(** Behind the last line a new one begins; of 125 lines the oldest is given up. *)
Definition spec_extend (l : chars) (c : Z) : hist :=
  if Z.of_nat (length l) <=? c then
    let l' := l ++ replicate (Z.to_nat W) 0 in
    if B <=? Z.of_nat (length l') then Hist (drop (Z.to_nat W) l') (c - W) else Hist l' c
  else Hist l c.

Definition spec_char (h : hist) (c : Z) : hist :=
  if c =? 8 then Hist (lines h) (Z.max 0 (cur h - 1))
  else if c =? 13 then Hist (lines h) (cur h / W * W)
  else if c =? 10 then spec_extend (lines h) ((cur h / W + 1) * W)
  else spec_extend (<[Z.to_nat (cur h) := c]> (lines h)) (cur h + 1).

Definition dist (to from : Z) : Z := (to - from) mod B.

Definition hist_of (t : virtterm) : hist :=
  Hist (circ_slice (vt_buf t) (vt_head t) (dist (vt_tail t) (vt_head t))) (dist (vt_cursor t) (vt_head t)).

(** ** The invariant of a terminal *)

Definition row_start (i : Z) : Prop := 0 <= i < B /\ i mod W = 0.

Record term_ok (t : virtterm) : Prop := {
  ok_head : row_start (vt_head t);
  ok_tail : row_start (vt_tail t);
  ok_top : row_start (vt_top t);
  ok_cursor : 0 <= vt_cursor t < B;
  ok_buf : length (vt_buf t) = Z.to_nat B;
  ok_tempbuf : length (vt_tempbuf t) = Z.to_nat D;
  ok_lines : W <= dist (vt_tail t) (vt_head t) <= B - W;
  ok_inside : dist (vt_cursor t) (vt_head t) < dist (vt_tail t) (vt_head t) }.

(** ** Arithmetic of the buffer *)

Lemma circ_dist_eq a b : 0 <= a < B -> 0 <= b < B -> circ_dist a b = dist a b.
Proof. intros. unfold circ_dist, dist. rewrite Z.rem_mod_nonneg by vlia. vlia. Qed.

Lemma next_row_eq i : 0 <= i < B -> next_row i = ((i / W + 1) * W) mod B.
Proof. intros. unfold next_row. rewrite Z.quot_div_nonneg by vlia. rewrite Z.rem_mod_nonneg by vlia. done. Qed.

Lemma buf_add_eq p a : 0 <= p + a + B -> buf_add p a = (p + a) mod B.
Proof. intros. unfold buf_add. rewrite Z.rem_mod_nonneg by vlia. vlia. Qed.

(** ** [memset] and [memcpy] *)

Lemma memset_eq s c n : (n <= length s)%nat -> memset s c n = Ret (replicate n (s8 c) ++ drop n s).
Proof. revert s. induction n as [|n IH]; intros [|x s] H; simpl in *; try lia; try done. by rewrite IH by lia. Qed.

Lemma memcpy_eq dst src n : (n <= length dst)%nat -> (n <= length src)%nat -> memcpy dst src n = Ret (take n src ++ drop n dst).
Proof. revert dst src. induction n as [|n IH]; intros [|x dst] [|y src] H H'; simpl in *; try lia; try done. by rewrite IH by lia. Qed.

Lemma clear_at_eq buf off n : 0 <= off -> 0 <= n -> off + n <= Z.of_nat (length buf) ->
  clear_at buf off n = Ret (take (Z.to_nat off) buf ++ replicate (Z.to_nat n) 0 ++ drop (Z.to_nat (off + n)) buf).
Proof.
  intros Ho Hn Hl. unfold clear_at. rewrite (proj2 (Z.ltb_ge off 0)), (proj2 (Z.ltb_ge n 0)) by lia. cbn [orb].
  rewrite memset_eq by (rewrite length_drop; lia). cbn [obind]. rewrite drop_drop. do 4 f_equal. lia.
Qed.

Lemma copy_at_eq dst off src from n : 0 <= off -> 0 <= from -> 0 <= n -> off + n <= Z.of_nat (length dst) -> from + n <= Z.of_nat (length src) ->
  copy_at dst off src from n = Ret (take (Z.to_nat off) dst ++ take (Z.to_nat n) (drop (Z.to_nat from) src) ++ drop (Z.to_nat (off + n)) dst).
Proof.
  intros Ho Hf Hn Hl Hl'. unfold copy_at. rewrite (proj2 (Z.ltb_ge off 0)), (proj2 (Z.ltb_ge from 0)), (proj2 (Z.ltb_ge n 0)) by lia. cbn [orb].
  rewrite memcpy_eq by (rewrite length_drop; lia). cbn [obind]. rewrite drop_drop. do 4 f_equal. lia.
Qed.

(** ** Slices *)

Lemma circ_slice_length buf s n : 0 <= n -> length (circ_slice buf s n) = Z.to_nat n.
Proof. intros. unfold circ_slice. by rewrite length_map, length_seqZ. Qed.

(** Elements by a number. *)
Definition get (l : chars) (i : Z) : Z := l !!! Z.to_nat i.

Lemma get_app l l' i : 0 <= i -> get (l ++ l') i = if i <? Z.of_nat (length l) then get l i else get l' (i - Z.of_nat (length l)).
Proof.
  intros Hi. unfold get. destruct (Z.ltb_spec i (Z.of_nat (length l))).
  - by rewrite lookup_total_app_l by lia.
  - rewrite lookup_total_app_r by lia. f_equal. lia.
Qed.

Lemma get_replicate n x i : 0 <= i < n -> get (replicate (Z.to_nat n) x) i = x.
Proof. intros. unfold get. by rewrite lookup_total_replicate_2 by lia. Qed.

Lemma get_take l n i : 0 <= i < n -> get (take (Z.to_nat n) l) i = get l i.
Proof. intros. unfold get. by rewrite lookup_total_take_lt by lia. Qed.

Lemma get_drop l n i : 0 <= n -> 0 <= i -> get (drop (Z.to_nat n) l) i = get l (n + i).
Proof. intros. unfold get. rewrite lookup_total_drop. f_equal. lia. Qed.

Lemma get_insert l k c i : 0 <= k < Z.of_nat (length l) -> 0 <= i -> get (<[Z.to_nat k := c]> l) i = if i =? k then c else get l i.
Proof.
  intros Hk Hi. unfold get. destruct (Z.eqb_spec i k) as [->|].
  - by rewrite list_lookup_total_insert_eq by lia.
  - by rewrite list_lookup_total_insert_ne by lia.
Qed.

Lemma get_seq (f : Z -> Z) n i : 0 <= i < n -> get (map f (seqZ 0 n)) i = f i.
Proof.
  intros. unfold get. apply list_lookup_total_correct. rewrite list_lookup_fmap, (proj2 (lookup_seqZ _ _ _ (0 + i))) by lia. done.
Qed.

Lemma get_slice buf s n i : 0 <= i < n -> get (circ_slice buf s n) i = get buf ((s + i) mod B).
Proof. intros. unfold circ_slice. by rewrite get_seq. Qed.

(** A list of [n] elements is given by its elements. *)
Lemma list_eq_Z (l l' : chars) n : length l = Z.to_nat n -> length l' = Z.to_nat n ->
  (forall i, 0 <= i < n -> get l i = get l' i) -> l = l'.
Proof.
  intros Hl Hl' H. apply (list_eq_same_length _ _ (Z.to_nat n)); [done|done|]. intros i x y Hi Hx Hy.
  specialize (H (Z.of_nat i) ltac:(lia)). unfold get in H. rewrite Nat2Z.id in H. apply list_lookup_total_correct in Hx, Hy. congruence.
Qed.

(** A buffer with a row cleared. *)
Definition clear_row (buf : chars) (t : Z) : chars :=
  take (Z.to_nat t) buf ++ replicate (Z.to_nat W) 0 ++ drop (Z.to_nat (t + W)) buf.

Lemma clear_row_length buf t : length buf = Z.to_nat B -> row_start t -> length (clear_row buf t) = Z.to_nat B.
Proof.
  intros Hb [Ht Hm]. unfold clear_row. rewrite !length_app, length_take, length_replicate, length_drop. vlia.
Qed.

Lemma get_clear_row buf t i : length buf = Z.to_nat B -> row_start t -> 0 <= i < B ->
  get (clear_row buf t) i = if (t <=? i) && (i <? t + W) then 0 else get buf i.
Proof.
  intros Hb [Ht Hm] Hi. unfold clear_row. rewrite get_app by lia. rewrite length_take.
  destruct (Z.leb_spec t i), (Z.ltb_spec i (t + W)); cbn [andb].
  - rewrite (proj2 (Z.ltb_ge _ _)) by vlia. rewrite get_app by vlia. rewrite length_replicate, (proj2 (Z.ltb_lt _ _)) by vlia. rewrite get_replicate; vlia.
  - rewrite (proj2 (Z.ltb_ge _ _)) by vlia. rewrite get_app by vlia. rewrite length_replicate, (proj2 (Z.ltb_ge _ _)) by vlia.
    rewrite get_drop by vlia. f_equal. vlia.
  - rewrite (proj2 (Z.ltb_lt _ _)) by vlia. rewrite get_take by vlia. done.
  - vlia.
Qed.

(** What storing, clearing and giving up a row do to the history. *)
Lemma slice_insert buf s n j c : length buf = Z.to_nat B -> 0 <= s < B -> 0 <= j < n -> n <= B ->
  circ_slice (<[Z.to_nat ((s + j) mod B) := c]> buf) s n = <[Z.to_nat j := c]> (circ_slice buf s n).
Proof.
  intros Hb Hs Hj Hn. apply (list_eq_Z _ _ n); [by rewrite circ_slice_length by lia|by rewrite length_insert, circ_slice_length by lia|].
  intros i Hi. rewrite get_slice by done. rewrite get_insert by vlia. rewrite get_insert by (rewrite ?circ_slice_length; lia). rewrite get_slice by done.
  destruct (Z.eqb_spec ((s + i) mod B) ((s + j) mod B)), (Z.eqb_spec i j); try done; vlia.
Qed.

Lemma slice_clear buf s n : length buf = Z.to_nat B -> row_start s -> 0 <= n <= B - W -> n mod W = 0 ->
  circ_slice (clear_row buf ((s + n) mod B)) s (n + W) = circ_slice buf s n ++ replicate (Z.to_nat W) 0.
Proof.
  intros Hb [Hs Hm] Hn Hnm. assert (row_start ((s + n) mod B)) as Ht by (unfold row_start; vlia).
  apply (list_eq_Z _ _ (n + W)); [by rewrite circ_slice_length by vlia|rewrite length_app, length_replicate, circ_slice_length; vlia|].
  intros i Hi. rewrite get_slice by done. rewrite get_clear_row by (done || vlia). rewrite get_app by lia. rewrite circ_slice_length by lia.
  destruct (Z.ltb_spec i (Z.of_nat (Z.to_nat n))).
  - rewrite get_slice by lia.
    destruct (Z.leb_spec ((s + n) mod B) ((s + i) mod B)), (Z.ltb_spec ((s + i) mod B) ((s + n) mod B + W)); cbn [andb]; try done. vlia.
  - rewrite get_replicate by lia. rewrite (proj2 (Z.leb_le _ _)), (proj2 (Z.ltb_lt _ _)) by vlia. done.
Qed.

Lemma slice_drop buf s n : 0 <= s < B -> W <= n -> circ_slice buf ((s + W) mod B) (n - W) = drop (Z.to_nat W) (circ_slice buf s n).
Proof.
  intros Hs Hn. apply (list_eq_Z _ _ (n - W)); [by rewrite circ_slice_length by lia|rewrite length_drop, circ_slice_length; vlia|].
  intros i Hi. rewrite get_drop by vlia. rewrite !get_slice by vlia. f_equal. vlia.
Qed.

(** ** Moving the cursor on *)

(** The terminal when the cursor reached the end of the history. *)
Definition advance (t : virtterm) (buf : chars) (n : Z) : virtterm :=
  Virtterm (if dist (vt_tail t) (vt_head t) =? B - W then (vt_head t + W) mod B else vt_head t)
    ((vt_tail t + W) mod B) (vt_top t) n (clear_row buf (vt_tail t)) (vt_tempbuf t) (ttd_ops t) (ttd_callback t) (ttd_callback_arg t).

Definition stay (t : virtterm) (buf : chars) (n : Z) : virtterm :=
  Virtterm (vt_head t) (vt_tail t) (vt_top t) n buf (vt_tempbuf t) (ttd_ops t) (ttd_callback t) (ttd_callback_arg t).

Lemma clear_at_row buf t : length buf = Z.to_nat B -> row_start t ->
  (if t <=? (t + W) mod B then clear_at buf t ((t + W) mod B - t)
   else let? buf := clear_at buf t (B - t) in clear_at buf 0 ((t + W) mod B)) = Ret (clear_row buf t).
Proof.
  intros Hb [Ht Hm]. destruct (Z.leb_spec t ((t + W) mod B)).
  - replace ((t + W) mod B - t) with W by vlia. by rewrite clear_at_eq by vlia.
  - replace (B - t) with W by vlia. rewrite clear_at_eq by vlia. cbn [obind]. fold (clear_row buf t).
    replace ((t + W) mod B) with 0 by vlia. rewrite clear_at_eq by vlia. reflexivity.
Qed.

Lemma handle_tail_eq t buf n k : term_ok t -> length buf = Z.to_nat B ->
  n = (vt_cursor t + k) mod B -> 1 <= k <= dist (vt_tail t) (vt_cursor t) ->
  handle_tail t buf n = Ret (if n =? vt_tail t then advance t buf n else stay t buf n).
Proof.
  intros [[Hh Hhm] [Ht Htm] _ Hc _ _ Hl Hi] Hb En Hk. assert (0 <= n < B) as Hn by vlia.
  unfold handle_tail. rewrite !circ_dist_eq by done.
  assert (dist n (vt_cursor t) = k) as -> by (unfold dist in *; vlia).
  destruct (Z.eqb_spec n (vt_tail t)) as [E|E].
  - rewrite (proj2 (Z.leb_le _ _)) by (unfold dist in *; vlia). rewrite !next_row_eq, E by done.
    replace ((vt_tail t / W + 1) * W) with (vt_tail t + W) by vlia.
    rewrite clear_at_row by (done || by split). cbn [obind]. unfold advance. do 2 f_equal.
    rewrite !circ_dist_eq by vlia. unfold dist in *.
    destruct (Z.leb_spec ((vt_tail t - (vt_tail t + W) mod B) mod B) ((vt_tail t - vt_head t) mod B)) as [Hle|Hle],
      (Z.eqb_spec ((vt_tail t - vt_head t) mod B) (B - W)) as [Heq|Hne]; try done; try vlia.
    rewrite next_row_eq by vlia. vlia.
  - rewrite (proj2 (Z.leb_gt _ _)) by (unfold dist in *; vlia). done.
Qed.

(** Both keep the invariant and extend the history. *)
Lemma advance_ok t buf : term_ok t -> length buf = Z.to_nat B ->
  let t' := advance t buf (vt_tail t) in
  term_ok t' /\ hist_of t' = spec_extend (circ_slice buf (vt_head t) (dist (vt_tail t) (vt_head t))) (dist (vt_tail t) (vt_head t)).
Proof.
  intros [[Hh Hhm] [Ht Htm] Htop Hc _ Htmp Hl Hi] Hb t'. set (L := dist (vt_tail t) (vt_head t)) in *.
  assert (vt_tail t = (vt_head t + L) mod B /\ L mod W = 0) as [Et Hlm] by (unfold L, dist in *; vlia).
  assert (clear_row buf (vt_tail t) = clear_row buf ((vt_head t + L) mod B)) as Ec by (by f_equal).
  unfold t', advance, spec_extend, hist_of. rewrite circ_slice_length by vlia. rewrite (proj2 (Z.leb_le _ _)) by vlia. cbn zeta.
  rewrite length_app, length_replicate, circ_slice_length by vlia. fold L.
  assert (length (clear_row buf (vt_tail t)) = Z.to_nat B) as Hcl by (apply clear_row_length; [done|by split]).
  destruct (Z.eqb_spec L (B - W)) as [El|El].
  - rewrite (proj2 (Z.leb_le _ _)) by vlia. split.
    + constructor; cbn; try done; unfold row_start, dist; vlia.
    + cbn. rewrite <- slice_clear, <- Et by (done || vlia || by split). rewrite <- slice_drop by vlia. f_equal; [|unfold dist in *; vlia].
      f_equal. unfold dist. vlia.
  - rewrite (proj2 (Z.leb_gt _ _)) by vlia. split.
    + constructor; cbn; try done; unfold row_start, dist in *; vlia.
    + cbn. rewrite <- slice_clear, <- Et by (done || vlia || by split). f_equal. f_equal. unfold dist in *. vlia.
Qed.

Lemma stay_ok t buf n : term_ok t -> length buf = Z.to_nat B -> 0 <= n < B -> dist n (vt_head t) < dist (vt_tail t) (vt_head t) ->
  let t' := stay t buf n in
  term_ok t' /\ hist_of t' = spec_extend (circ_slice buf (vt_head t) (dist (vt_tail t) (vt_head t))) (dist n (vt_head t)).
Proof.
  intros [Hh Ht Htop Hc _ Htmp Hl Hi] Hb Hn Hd t'. split; [by constructor|].
  unfold spec_extend, hist_of, t', stay. cbn. rewrite circ_slice_length by vlia. by rewrite (proj2 (Z.leb_gt _ _)) by vlia.
Qed.

(** ** The effect of a character *)

Definition printable (c : Z) : bool := negb ((c =? 8) || (c =? 13) || (c =? 10)).

Definition written (t : virtterm) (c : Z) : chars := if printable c then <[Z.to_nat (vt_cursor t) := c]> (vt_buf t) else vt_buf t.

Lemma written_length t c : length (written t c) = length (vt_buf t).
Proof. unfold written. destruct (printable c); [apply length_insert|done]. Qed.

Lemma circ_slice_written t c : term_ok t ->
  circ_slice (<[Z.to_nat (vt_cursor t) := c]> (vt_buf t)) (vt_head t) (dist (vt_tail t) (vt_head t)) =
  <[Z.to_nat (dist (vt_cursor t) (vt_head t)) := c]> (lines (hist_of t)).
Proof.
  intros [[Hh Hhm] [Ht Htm] _ Hc Hb _ Hl Hi].
  replace (vt_cursor t) with ((vt_head t + dist (vt_cursor t) (vt_head t)) mod B) at 1 by (unfold dist; vlia).
  apply slice_insert; [done|done|unfold dist in *; vlia|vlia].
Qed.

(** The cursor moves on by [k] and reaches at most the end of the history. *)
Lemma handle_tail_ok t buf k : term_ok t -> length buf = Z.to_nat B -> 1 <= k <= dist (vt_tail t) (vt_cursor t) -> k <= W ->
  exists t', handle_tail t buf ((vt_cursor t + k) mod B) = Ret t' /\ term_ok t' /\
    hist_of t' = spec_extend (circ_slice buf (vt_head t) (dist (vt_tail t) (vt_head t))) (dist (vt_cursor t) (vt_head t) + k) /\
    ((exists n, t' = stay t buf n) \/ (t' = advance t buf (vt_tail t) /\ dist (vt_tail t) (vt_cursor t) <= W)).
Proof.
  intros Hok Hb Hk HkW. eexists. split; [by apply handle_tail_eq with k|]. pose proof Hok as [[Hh Hhm] [Ht Htm] _ Hc _ _ Hl Hi].
  destruct (Z.eqb_spec ((vt_cursor t + k) mod B) (vt_tail t)) as [E|E].
  - rewrite E. destruct (advance_ok t buf Hok Hb) as [H1 H2]. split; [done|]. split.
    + rewrite H2. f_equal. unfold dist in *. vlia.
    + right. split; [done|]. unfold dist in *. vlia.
  - assert (dist ((vt_cursor t + k) mod B) (vt_head t) = dist (vt_cursor t) (vt_head t) + k) as Ed by (unfold dist in *; vlia).
    destruct (stay_ok t buf ((vt_cursor t + k) mod B) Hok Hb ltac:(vlia) ltac:(unfold dist in *; vlia)) as [H1 H2].
    split; [done|]. split; [by rewrite H2, Ed|]. left. by eexists.
Qed.

Lemma handle_char_ok t c : term_ok t -> exists t',
  vt_handle_char t c = Ret (t', printable c) /\ term_ok t' /\ hist_of t' = spec_char (hist_of t) c /\
  ((exists n, t' = stay t (written t c) n) \/ (t' = advance t (written t c) (vt_tail t) /\ dist (vt_tail t) (vt_cursor t) <= W)).
Proof.
  intros Hok. pose proof Hok as [[Hh Hhm] [Ht Htm] _ Hc Hb _ Hl Hi].
  unfold vt_handle_char, spec_char, printable. cbn [lines cur hist_of].
  destruct (Z.eqb_spec c 8) as [->|N8]; [|destruct (Z.eqb_spec c 13) as [->|N13]; [|destruct (Z.eqb_spec c 10) as [->|N10]]]; cbn [orb negb].
  - set (n := if vt_cursor t =? vt_head t then vt_cursor t else buf_dec (vt_cursor t)).
    assert (0 <= n < B /\ dist n (vt_head t) = Z.max 0 (dist (vt_cursor t) (vt_head t) - 1)) as [Hn En].
    { unfold n. destruct (Z.eqb_spec (vt_cursor t) (vt_head t)) as [E|E]; [rewrite E; unfold dist; vlia|].
      unfold buf_dec. rewrite buf_add_eq by vlia. unfold dist in *. vlia. }
    destruct (stay_ok t (vt_buf t) n Hok Hb Hn ltac:(unfold dist in *; vlia)) as [H1 H2].
    eexists. split; [done|]. split; [done|]. split; [|left; by exists n].
    change (move_cursor t n) with (stay t (vt_buf t) n). unfold stay, hist_of. cbn. by rewrite En.
  - set (n := Z.quot (vt_cursor t) W * W).
    assert (0 <= n < B /\ dist n (vt_head t) = dist (vt_cursor t) (vt_head t) / W * W) as [Hn En].
    { unfold n. rewrite Z.quot_div_nonneg by vlia. unfold dist in *. vlia. }
    destruct (stay_ok t (vt_buf t) n Hok Hb Hn ltac:(rewrite En; unfold dist in *; vlia)) as [H1 H2].
    eexists. split; [done|]. split; [done|]. split; [|left; by exists n].
    change (move_cursor t n) with (stay t (vt_buf t) n). unfold stay, hist_of. cbn. by rewrite En.
  - destruct (handle_tail_ok t (vt_buf t) (W - vt_cursor t mod W) Hok Hb ltac:(unfold dist in *; vlia) ltac:(vlia)) as (t' & E & H1 & H2 & H3).
    exists t'. rewrite next_row_eq by done. replace ((vt_cursor t / W + 1) * W) with (vt_cursor t + (W - vt_cursor t mod W)) by vlia.
    rewrite E. split; [done|]. split; [done|]. split; [|done]. rewrite H2. f_equal. unfold dist in *. vlia.
  - rewrite (proj2 (Z.leb_le 0 _)), (proj2 (Z.ltb_lt _ (Z.of_nat _))) by vlia. cbn [andb].
    assert (length (<[Z.to_nat (vt_cursor t) := c]> (vt_buf t)) = Z.to_nat B) as Hb' by (by rewrite length_insert).
    destruct (handle_tail_ok t (<[Z.to_nat (vt_cursor t) := c]> (vt_buf t)) 1 Hok Hb' ltac:(unfold dist in *; vlia) ltac:(vlia)) as (t' & E & H1 & H2 & H3).
    exists t'. unfold buf_inc. rewrite buf_add_eq by vlia. rewrite E. split; [done|]. split; [done|].
    assert (written t c = <[Z.to_nat (vt_cursor t) := c]> (vt_buf t)) as Ew.
    { unfold written, printable. by rewrite (proj2 (Z.eqb_neq c 8)), (proj2 (Z.eqb_neq c 13)), (proj2 (Z.eqb_neq c 10)) by done. }
    rewrite Ew. split; [|done]. by rewrite H2, circ_slice_written.
Qed.

(** C4: The circular buffer implements the history: on a well-formed terminal every
    character is handled, the terminal stays well-formed, and its text and cursor become
    what the character does to a list of lines: backspace stops at the oldest
    character, a new line is empty, and with the 125th line the oldest is given
    up. *)
Theorem vt_handle_char_refines t c : term_ok t -> exists t',
  vt_handle_char t c = Ret (t', printable c) /\ term_ok t' /\ hist_of t' = spec_char (hist_of t) c /\ vt_top t' = vt_top t.
Proof.
  intros Hok. destruct (handle_char_ok t c Hok) as (t' & E & H1 & H2 & H3). exists t'. split; [done|]. split; [done|]. split; [done|].
  by destruct H3 as [[n ->]|[-> _]].
Qed.

(** ** The screen *)

(** What belongs on the screen: the history from the top of the screen on, and nothing
    below its end. *)
Definition view (t : virtterm) : chars :=
  map (fun i => if i <? dist (vt_tail t) (vt_top t) then get (vt_buf t) ((vt_top t + i) mod B) else 0) (seqZ 0 D).

Lemma view_length t : length (view t) = Z.to_nat D.
Proof. unfold view. by rewrite length_map, length_seqZ. Qed.

Lemma get_view t i : 0 <= i < D -> get (view t) i = if i <? dist (vt_tail t) (vt_top t) then get (vt_buf t) ((vt_top t + i) mod B) else 0.
Proof. intros. unfold view. by rewrite get_seq. Qed.

(** Two pieces of the buffer in front of a blank rest. *)
Lemma view_pieces t n m : term_ok t -> 0 <= n -> 0 <= m -> n + m <= D -> vt_top t + n <= B -> m <= B ->
  n + m = Z.min (dist (vt_tail t) (vt_top t)) D -> (m = 0 \/ vt_top t + n = B) ->
  take (Z.to_nat n) (drop (Z.to_nat (vt_top t)) (vt_buf t)) ++ take (Z.to_nat m) (vt_buf t) ++ replicate (Z.to_nat (D - (n + m))) 0 = view t.
Proof.
  intros [_ _ [Ht _] _ Hb _ _ _] Hn Hm Hnm Htn HmB Hmin Hwrap.
  apply (list_eq_Z _ _ D); [|apply view_length|].
  - rewrite !length_app, !length_take, length_drop, length_replicate. vlia.
  - intros i Hi. rewrite get_view by done. rewrite get_app by lia. rewrite length_take, length_drop.
    destruct (Z.ltb_spec i (Z.of_nat (min (Z.to_nat n) (length (vt_buf t) - Z.to_nat (vt_top t))))) as [H1|H1].
    + rewrite get_take, get_drop by vlia. rewrite (proj2 (Z.ltb_lt _ _)) by vlia. f_equal. vlia.
    + rewrite get_app by vlia. rewrite length_take.
      replace (Z.of_nat (min (Z.to_nat n) _)) with n by vlia.
      destruct (Z.ltb_spec (i - n) (Z.of_nat (min (Z.to_nat m) (length (vt_buf t))))) as [H2|H2].
      * rewrite get_take by vlia. rewrite (proj2 (Z.ltb_lt _ _)) by vlia. f_equal. vlia.
      * rewrite get_replicate by vlia. by rewrite (proj2 (Z.ltb_ge _ _)) by vlia.
Qed.

Lemma redraw_buf_view t : term_ok t -> redraw_buf t = Ret (view t).
Proof.
  intros Hok. pose proof Hok as [[Hh Hhm] [Ht Htm] [Hp Hpm] Hc Hb Htmp Hl Hi]. unfold redraw_buf.
  rewrite clear_at_eq by vlia. cbn [obind]. rewrite (drop_ge (vt_tempbuf t)) by vlia. rewrite app_nil_r. change (take (Z.to_nat 0) (vt_tempbuf t)) with (@nil Z).
  cbn [app]. set (blank := replicate (Z.to_nat D) 0). assert (length blank = Z.to_nat D) as Hbl by apply length_replicate.
  assert (forall k, 0 <= k <= D -> drop (Z.to_nat k) blank = replicate (Z.to_nat (D - k)) 0) as Hd.
  { intros k Hk. unfold blank. rewrite drop_replicate. f_equal. vlia. }
  assert (forall k, 0 <= k <= D -> vt_top t + k <= B -> k = Z.min (dist (vt_tail t) (vt_top t)) D ->
    copy_at blank 0 (vt_buf t) (vt_top t) k = Ret (view t)) as Hone.
  { intros k Hk Hk' Em. rewrite copy_at_eq by vlia. rewrite <- (view_pieces t k 0) by (done || vlia || auto). rewrite Hd by vlia.
    change (take (Z.to_nat 0) blank) with (@nil Z). change (take (Z.to_nat 0) (vt_buf t)) with (@nil Z). by rewrite Z.add_0_l, Z.add_0_r. }
  destruct (Z.leb_spec (vt_top t) (vt_tail t)) as [H1|H1].
  - destruct (Z.leb_spec (vt_tail t - vt_top t) D); apply Hone; unfold dist; vlia.
  - destruct (Z.leb_spec D (B - vt_top t)); [apply Hone; unfold dist; vlia|].
    set (n := B - vt_top t). rewrite copy_at_eq by vlia. change (take (Z.to_nat 0) blank) with (@nil Z). cbn [app obind]. rewrite Z.add_0_l, Hd by vlia.
    assert (forall m, 0 <= m -> n + m = Z.min (dist (vt_tail t) (vt_top t)) D ->
      copy_at (take (Z.to_nat n) (drop (Z.to_nat (vt_top t)) (vt_buf t)) ++ replicate (Z.to_nat (D - n)) 0) n (vt_buf t) 0 m = Ret (view t)) as Htwo.
    { intros m Hm Em. assert (length (take (Z.to_nat n) (drop (Z.to_nat (vt_top t)) (vt_buf t))) = Z.to_nat n) as Hln by (rewrite length_take, length_drop; vlia).
      rewrite copy_at_eq by (rewrite ?length_app, ?Hln, ?length_replicate; vlia). rewrite <- (view_pieces t n m) by (done || vlia).
      rewrite take_app_length' by done. change (drop (Z.to_nat 0) (vt_buf t)) with (vt_buf t). do 3 f_equal.
      replace (Z.to_nat (n + m)) with (Z.to_nat n + Z.to_nat m)%nat by vlia. rewrite drop_app_add' by done. rewrite drop_replicate. f_equal. vlia. }
    destruct (Z.leb_spec (n + vt_tail t) D); apply Htwo; unfold dist; vlia.
Qed.

(** ** The controller *)

(** The CRT controller: a write to the address port selects a register, a write to the data
    port sets it. *)
Definition crt_write (r : Z * Z * Z) (p : Z * Z) : Z * Z * Z :=
  let '(index, high, low) := r in
  if p.1 =? CRT_CONTROL_ADDR then (p.2, high, low)
  else if p.1 =? CRT_CONTROL_DATA then
    if index =? CURSOR_HIGH then (index, p.2, low) else if index =? CURSOR_LOW then (index, high, p.2) else r
  else r.

Definition crt_cursor (l : list (Z * Z)) : Z := let '(_, high, low) := foldl crt_write (0, 0, 0) l in high * 256 + low.

Definition cursor_writes (pos : Z) : list (Z * Z) :=
  [(CRT_CONTROL_ADDR, CURSOR_HIGH); (CRT_CONTROL_DATA, Z.shiftr pos 8); (CRT_CONTROL_ADDR, CURSOR_LOW); (CRT_CONTROL_DATA, Z.land pos 255)].

Lemma crt_cursor_writes l pos : 0 <= pos -> crt_cursor (l ++ cursor_writes pos) = pos.
Proof.
  intros Hp. unfold crt_cursor. rewrite foldl_app. destruct (foldl crt_write (0, 0, 0) l) as [[index high] low].
  cbn. rewrite Z.shiftr_div_pow2 by lia. change 255 with (Z.ones 8). rewrite Z.land_ones by lia. change (2 ^ 8) with 256. dlia.
Qed.

Lemma screen_move_cursor_eq x y s : 0 <= x < 80 -> 0 <= y < 256 ->
  screen_move_cursor x y s = Ret (tt, with_ports (ports s ++ cursor_writes (y * W + x)) s).
Proof.
  intros Hx Hy. unfold screen_move_cursor, outb, bind, modify. rewrite !(Z.mod_small _ 256) by lia.
  unfold u16. rewrite Z.mod_small by vlia. destruct s. unfold with_ports. cbn. by rewrite <- !app_assoc.
Qed.

(** ** The system *)

(** The video memory shows the current terminal and the controller its cursor. *)
Definition shown (s : ttys) : Prop := exists i t,
  vt_curterm s = Some i /\ vt_terms s !! i = Some t /\
  length (videoram s) = VIDEO_CELLS /\ take (Z.to_nat D) (videoram s) = map cell (view t) /\
  crt_cursor (ports s) = dist (vt_cursor t) (vt_top t).

Definition tty_ok (s : ttys) : Prop := Z.of_nat (length (vt_terms s)) = NTERMS /\ Forall term_ok (vt_terms s) /\ shown s.

(** Only terminals, video memory and ports may differ. *)
Definition same_rest (s s' : ttys) : Prop :=
  vt_curterm s' = vt_curterm s /\ ipl s' = ipl s /\ curmask s' = curmask s /\ keyboard_handler s' = keyboard_handler s /\ called s' = called s.

Lemma pure_ret {A} (a : A) s : pure (Ret a) s = Ret (a, s).
Proof. done. Qed.

Lemma term_eq i t s : vt_terms s !! i = Some t -> term i s = Ret (t, s).
Proof. intros E. unfold term, bind, gets. by rewrite E. Qed.

Lemma curterm_eq i s : vt_curterm s = Some i -> curterm s = Ret (i, s).
Proof. intros E. unfold curterm, bind, gets. by rewrite E. Qed.

Lemma vt_cursor_redraw_eq i t s : vt_curterm s = Some i -> vt_terms s !! i = Some t -> term_ok t ->
  vt_cursor_redraw s = Ret (tt, with_ports (ports s ++ cursor_writes (dist (vt_cursor t) (vt_top t))) s).
Proof.
  intros Ei Et [_ _ [Hp _] Hc _ _ _ _]. unfold vt_cursor_redraw. rewrite (bind_eq _ _ _ _ _ (curterm_eq _ _ Ei)), (bind_eq _ _ _ _ _ (term_eq _ _ _ Et)).
  rewrite circ_dist_eq by done. set (r := dist (vt_cursor t) (vt_top t)). assert (0 <= r < B) as Hr by (unfold r, dist; vlia).
  rewrite Z.rem_mod_nonneg, Z.quot_div_nonneg by vlia. rewrite screen_move_cursor_eq by vlia. do 5 f_equal. vlia.
Qed.

Lemma screen_putbuf_eq buf s : length buf = Z.to_nat D -> length (videoram s) = VIDEO_CELLS ->
  screen_putbuf buf s = Ret (tt, with_video (map cell buf ++ drop (Z.to_nat D) (videoram s)) s).
Proof.
  intros Hb Hv. unfold screen_putbuf, bind, gets. change (Z.to_nat (W * DISPLAY_HEIGHT)) with (Z.to_nat D). rewrite Hb, Hv.
  change ((Z.to_nat D <=? Z.to_nat D)%nat && (Z.to_nat D <=? VIDEO_CELLS)%nat) with true. by rewrite take_ge by lia.
Qed.

Lemma vt_redraw_eq i t s : vt_curterm s = Some i -> vt_terms s !! i = Some t -> term_ok t -> length (videoram s) = VIDEO_CELLS -> exists s',
  vt_redraw s = Ret (tt, s') /\ vt_terms s' = <[i := with_tempbuf (view t) t]> (vt_terms s) /\ same_rest s s' /\ shown s'.
Proof.
  intros Ei Et Hok Hv. unfold vt_redraw. rewrite (bind_eq _ _ _ _ _ (curterm_eq _ _ Ei)), (bind_eq _ _ _ _ _ (term_eq _ _ _ Et)).
  rewrite redraw_buf_view by done. rewrite (bind_eq _ _ _ _ _ (pure_ret _ _)). unfold term_set. rewrite bind_modify.
  set (s1 := with_terms _ s). rewrite (bind_eq _ _ _ _ _ (screen_putbuf_eq (view t) s1 (view_length t) Hv)). set (s2 := with_video _ s1).
  assert (vt_terms s2 !! i = Some (with_tempbuf (view t) t)) as Et2 by (cbn; apply list_lookup_insert_eq; by eapply lookup_lt_Some).
  assert (term_ok (with_tempbuf (view t) t)) as Hok2 by (destruct Hok; constructor; cbn; try done; apply view_length).
  rewrite (vt_cursor_redraw_eq i _ s2 Ei Et2 Hok2). eexists. split; [done|]. split; [done|]. split; [done|].
  exists i, (with_tempbuf (view t) t). split; [done|]. split; [done|]. cbn [videoram with_ports s2 with_video ports]. split.
  - rewrite length_app, length_map, view_length, length_drop. cbn [s1 with_terms videoram]. rewrite Hv. reflexivity.
  - split; [by rewrite take_app_length' by (by rewrite length_map, view_length)|].
    cbn. apply crt_cursor_writes. unfold dist. vlia.
Qed.

(** ** Characters on the screen *)

(** The screen cannot reach around the buffer past the end of the history: it has at
    most 100 lines, or the screen does not begin below the cursor. *)
Definition roomy (t : virtterm) : Prop :=
  dist (vt_tail t) (vt_head t) + D <= B \/ dist (vt_top t) (vt_head t) <= dist (vt_cursor t) (vt_head t).

Lemma show_cursor_ok t : term_ok t -> let t1 := show_cursor t in
  term_ok t1 /\ hist_of t1 = hist_of t /\ vt_cursor t1 = vt_cursor t /\ dist (vt_cursor t1) (vt_top t1) < D /\ (vt_top t1 = vt_top t -> t1 = t) /\
  (roomy t -> dist (vt_cursor t1) (vt_top t1) + dist (vt_tail t1) (vt_cursor t1) < B).
Proof.
  intros Hok. pose proof Hok as [[Hh Hhm] [Ht Htm] [Hp Hpm] Hc Hb Htmp Hl Hi]. unfold show_cursor. rewrite circ_dist_eq by done.
  destruct (Z.leb_spec D (dist (vt_cursor t) (vt_top t))) as [H|H]; cbn zeta.
  - rewrite next_row_eq by done. rewrite buf_add_eq by vlia.
    set (top := (((vt_cursor t / W + 1) * W) mod B + - D) mod B).
    assert (row_start top /\ dist (vt_cursor t) top < D) as [Htop Hd] by (unfold row_start, top, dist; vlia).
    split; [by constructor|]. split; [done|]. split; [done|]. split; [done|]. split; [cbn; intros E; rewrite E in Hd; lia|].
    cbn. unfold roomy, top, dist in *. intros [Hr|Hr]; vlia.
  - split; [done|]. split; [done|]. split; [done|]. split; [done|]. split; [done|]. unfold roomy, dist in *. intros [Hr|Hr]; vlia.
Qed.

Lemma view_written t c : term_ok t -> let r := dist (vt_cursor t) (vt_top t) in
  r < D -> r + dist (vt_tail t) (vt_cursor t) < B -> forall t',
  (exists n, t' = stay t (written t c) n) \/ (t' = advance t (written t c) (vt_tail t) /\ dist (vt_tail t) (vt_cursor t) <= W) ->
  view t' = if printable c then <[Z.to_nat r := c]> (view t) else view t.
Proof.
  intros Hok r Hr Hw t' Ht'. pose proof Hok as [[Hh Hhm] [Ht Htm] [Hp Hpm] Hc Hb Htmp Hl Hi].
  assert (forall i, 0 <= i < D -> get (written t c) ((vt_top t + i) mod B) =
    if printable c && (i =? r) then c else get (vt_buf t) ((vt_top t + i) mod B)) as Hg.
  { intros i Hi'. unfold written. destruct (printable c); [|done]. rewrite get_insert by vlia. cbn [andb].
    destruct (Z.eqb_spec ((vt_top t + i) mod B) (vt_cursor t)), (Z.eqb_spec i r); try done; unfold r, dist in *; vlia. }
  assert (dist (vt_tail t) (vt_top t) = r + dist (vt_tail t) (vt_cursor t)) as Em by (unfold r, dist in *; vlia).
  assert (1 <= dist (vt_tail t) (vt_cursor t)) as H1 by (unfold dist in *; vlia).
  assert (0 <= r) as Hr0 by (unfold r, dist; vlia).
  apply (list_eq_Z _ _ D); [apply view_length|destruct (printable c); [rewrite length_insert|]; apply view_length|]. intros i Hi'.
  assert (get (if printable c then <[Z.to_nat r := c]> (view t) else view t) i =
    if printable c && (i =? r) then c else get (view t) i) as ->.
  { destruct (printable c); [|done]. rewrite get_insert by (rewrite ?view_length; vlia). done. }
  rewrite !get_view by done. destruct Ht' as [[n ->]|[-> Hlast]]; cbn [stay advance vt_top vt_tail vt_buf].
  - rewrite Hg by done. destruct (printable c); cbn [andb]; [|done]. destruct (Z.eqb_spec i r) as [->|]; [|done]. by rewrite (proj2 (Z.ltb_lt _ _)) by lia.
  - assert (dist ((vt_tail t + W) mod B) (vt_top t) = dist (vt_tail t) (vt_top t) + W) as -> by (unfold dist in *; vlia).
    rewrite get_clear_row by (rewrite ?written_length; done || vlia || by split). rewrite Hg by done.
    assert ((vt_tail t <=? (vt_top t + i) mod B) && ((vt_top t + i) mod B <? vt_tail t + W) =
      (dist (vt_tail t) (vt_top t) <=? i) && (i <? dist (vt_tail t) (vt_top t) + W)) as ->.
    { unfold dist in *. apply eq_true_iff_eq. rewrite !andb_true_iff, !Z.leb_le, !Z.ltb_lt. split; intros; vlia. }
    destruct (Z.ltb_spec i (dist (vt_tail t) (vt_top t) + W)), (Z.leb_spec (dist (vt_tail t) (vt_top t)) i),
      (Z.ltb_spec i (dist (vt_tail t) (vt_top t))); cbn [andb]; try vlia; (destruct (Z.eqb_spec i r); [try lia|rewrite !andb_false_r]); try done; vlia.
Qed.

Lemma screen_putchar_eq c r s : 0 <= r < D -> length (videoram s) = VIDEO_CELLS ->
  screen_putchar c (Z.rem r W) (Z.quot r W) s = Ret (tt, with_video (<[Z.to_nat r := cell c]> (videoram s)) s).
Proof.
  intros Hr Hv. unfold screen_putchar, screen_putchar_attrib, bind, gets.
  rewrite Z.rem_mod_nonneg, Z.quot_div_nonneg by vlia. rewrite !(Z.mod_small _ 256) by vlia.
  replace (r / W * W + r mod W) with r by vlia. rewrite Hv, (proj2 (Nat.ltb_lt _ _)) by (unfold VIDEO_CELLS; vlia). done.
Qed.

(** The terminal, and the screen when it is the current one. *)
Lemma vt_provide_char_ok s i t c : tty_ok s -> vt_terms s !! i = Some t -> (vt_curterm s = Some i -> roomy t) -> exists s' t',
  vt_provide_char (Some i) c s = Ret (tt, s') /\ tty_ok s' /\ vt_terms s' = <[i := t']> (vt_terms s) /\
  hist_of t' = spec_char (hist_of t) c /\ same_rest s s'.
Proof.
  intros (Hn & Hall & k & u & Ek & Eu & Hv & Hscr & Hcrt) Et Hroom. pose proof (Forall_lookup_1 _ _ _ _ Hall Et) as Hok.
  destruct (show_cursor_ok t Hok) as (Hok1 & Hh1 & Hc1 & Hd1 & Htop1 & Hw1). set (t1 := show_cursor t) in *.
  destruct (handle_char_ok t1 c Hok1) as (t' & E & Hok' & Hh' & Hcase).
  assert (vt_top t' = vt_top t1) as Etop by (by destruct Hcase as [[n ->]|[-> _]]).
  unfold vt_provide_char. cbn [bool_decide]. rewrite bind_assert by done. rewrite bind_deref, (bind_eq _ _ _ _ _ (term_eq _ _ _ Et)). fold t1.
  rewrite E, (bind_eq _ _ _ _ _ (pure_ret _ _)). unfold term_set. rewrite bind_modify, bind_gets. set (s1 := with_terms _ s).
  assert (Forall term_ok (vt_terms s1)) as Hall1 by (by apply Forall_insert).
  assert (Z.of_nat (length (vt_terms s1)) = NTERMS) as Hn1 by (cbn; by rewrite length_insert).
  assert (vt_terms s1 !! i = Some t') as Et1 by (cbn; apply list_lookup_insert_eq; by eapply lookup_lt_Some).
  change (vt_curterm s1) with (vt_curterm s). case_bool_decide as Ecur.
  - assert (k = i) as -> by congruence. assert (u = t) as -> by congruence. destruct (Z.eqb_spec (vt_top t) (vt_top t')) as [Eold|Nold].
    + rewrite (Htop1 ltac:(congruence)) in *. pose proof (view_written t c Hok Hd1 (Hw1 (Hroom Ecur)) t' Hcase) as Hview.
      set (r := dist (vt_cursor t) (vt_top t)) in *. rewrite circ_dist_eq by (rewrite <- ?Eold; apply Hok). rewrite <- Eold. fold r.
      assert (0 <= r < D) as Hr by (unfold r, dist in *; vlia).
      assert (exists v, (if printable c then screen_putchar c (Z.rem r W) (Z.quot r W) else ret tt) s1 = Ret (tt, with_video v s1) /\
        length v = VIDEO_CELLS /\ take (Z.to_nat D) v = map cell (view t')) as (v & Ev & Hlv & Htv).
      { rewrite Hview. destruct (printable c).
        - eexists. split; [by apply screen_putchar_eq|]. split; [by rewrite length_insert|]. cbn.
          rewrite take_insert_lt by vlia. rewrite Hscr. exact (eq_sym (list_fmap_insert cell (view t) (Z.to_nat r) c)).
        - exists (videoram s). split; [by destruct s|]. exact (conj Hv Hscr). }
      rewrite (bind_eq _ _ _ _ _ Ev). rewrite (vt_cursor_redraw_eq i t' (with_video v s1) Ecur Et1 Hok').
      eexists _, t'. split; [done|]. split; [|split; [done|split; [by rewrite Hh'|done]]]. split; [done|]. split; [done|].
      exists i, t'. split; [done|]. split; [done|]. split; [done|]. split; [done|]. cbn. apply crt_cursor_writes. unfold dist. vlia.
    + destruct (vt_redraw_eq i t' s1 Ecur Et1 Hok' Hv) as (s' & Es & Ets & Hrest & Hsh). exists s', (with_tempbuf (view t') t').
      rewrite Es. split; [done|]. cbn in Ets. rewrite list_insert_insert_eq in Ets. split; [|split; [done|split; [by rewrite <- Hh1, <- Hh'|done]]].
      split; [by rewrite Ets, length_insert|]. split; [|done]. rewrite Ets. apply Forall_insert; [done|]. destruct Hok'. by constructor.
  - exists s1, t'. split; [done|]. split; [|split; [done|split; [by rewrite <- Hh1, <- Hh'|done]]]. split; [done|]. split; [done|].
    exists k, u. split; [done|]. split; [|done]. cbn. rewrite list_lookup_insert_ne by congruence. done.
Qed.
