(* ===== verification/VirttermRun.v ===== *)
(** * Virtual terminals: start, scrolling, switching and keys

    The operations of the terminal driver as steps of a system that starts with
    [tty_start]: whatever is typed, printed, scrolled or switched, every
    operation succeeds and the screen shows the current terminal. *)

From S2P Require Import Prelude CString Virtterm VirttermSpec.

Lemma map_insert_same {A B} (f : A -> B) l i x y : l !! i = Some x -> f y = f x -> map f (<[i := y]> l) = map f l.
Proof. revert i. induction l as [|z l IH]; intros [|i] E Ef; simplify_eq/=; f_equal; eauto. Qed.

(** ** Scrolling and switching *)

Lemma scrolled_top_row t n up : term_ok t -> 0 <= n < 125 -> row_start (scrolled_top t n up).
Proof.
  intros [[Hh Hhm] [Ht Htm] [Hp Hpm] _ _ _ _ _] Hn. unfold scrolled_top. destruct up; [destruct (_ <? _); [done|]|destruct (_ <? _)];
    rewrite buf_add_eq by vlia; unfold row_start; vlia.
Qed.

Lemma with_top_ok t top : term_ok t -> row_start top -> term_ok (with_top top t).
Proof. intros [] Htop. by constructor. Qed.

Lemma with_tempbuf_ok t : term_ok t -> term_ok (with_tempbuf (view t) t).
Proof. intros []. constructor; cbn; try assumption. apply view_length. Qed.

(** A redraw keeps the invariant, also for a terminal that was just changed. *)
Lemma vt_redraw_ok s i t : Z.of_nat (length (vt_terms s)) = NTERMS -> Forall term_ok (vt_terms s) -> length (videoram s) = VIDEO_CELLS ->
  vt_curterm s = Some i -> vt_terms s !! i = Some t -> exists s',
  vt_redraw s = Ret (tt, s') /\ tty_ok s' /\ map hist_of (vt_terms s') = map hist_of (vt_terms s) /\ same_rest s s'.
Proof.
  intros Hn Hall Hv Ei Et. pose proof (Forall_lookup_1 _ _ _ _ Hall Et) as Hok.
  destruct (vt_redraw_eq i t s Ei Et Hok Hv) as (s' & Es & Ets & Hrest & Hsh). exists s'. split; [done|]. split; [|split; [|done]].
  - split; [by rewrite Ets, length_insert|]. split; [|done]. rewrite Ets. apply Forall_insert; [done|by apply with_tempbuf_ok].
  - rewrite Ets. by eapply map_insert_same.
Qed.

Lemma vt_scroll_ok s n up : tty_ok s -> 0 <= n < 125 -> exists s',
  vt_scroll n up s = Ret (tt, s') /\ tty_ok s' /\ map hist_of (vt_terms s') = map hist_of (vt_terms s) /\ same_rest s s'.
Proof.
  intros (Hn & Hall & i & t & Ei & Et & Hv & _) Hlines. pose proof (Forall_lookup_1 _ _ _ _ Hall Et) as Hok. unfold vt_scroll.
  rewrite (as_int_ok (n * _)) by vlia. rewrite (bind_eq _ _ _ _ _ (pure_ret _ _)).
  replace (if up then Ret 0 else as_int ((n + 1) * DISPLAY_WIDTH)) with (@Ret Z (if up then 0 else (n + 1) * DISPLAY_WIDTH))
    by (destruct up; [done|by rewrite as_int_ok by vlia]).
  rewrite (bind_eq _ _ _ _ _ (pure_ret _ _)), (bind_eq _ _ _ _ _ (curterm_eq _ _ Ei)), (bind_eq _ _ _ _ _ (term_eq _ _ _ Et)).
  unfold term_set. rewrite bind_modify. set (t' := with_top _ t).
  assert (term_ok t') as Hok' by (apply with_top_ok; [done|by apply scrolled_top_row]).
  destruct (vt_redraw_ok (with_terms (<[i := t']> (vt_terms s)) s) i t') as (s' & Es & Hs & Hh & Hr); cbn; try done.
  - by rewrite length_insert.
  - by apply Forall_insert.
  - apply list_lookup_insert_eq. by eapply lookup_lt_Some.
  - exists s'. split; [done|]. split; [done|]. split; [|done]. rewrite Hh. by eapply map_insert_same.
Qed.

Lemma vt_switch_ok s n : tty_ok s -> exists r s', vt_switch n s = Ret (r, s') /\ tty_ok s' /\
  map hist_of (vt_terms s') = map hist_of (vt_terms s) /\ curmask s' = curmask s /\
  if (0 <=? n) && (n <? NTERMS) then r = 0 /\ vt_curterm s' = Some (Z.to_nat n) else r = -1 /\ s' = s.
Proof.
  intros Hs. pose proof Hs as (Hn & Hall & i & t & _ & _ & Hv & _). unfold vt_switch.
  destruct (Z.ltb_spec n 0), (Z.leb_spec NTERMS n), (Z.leb_spec 0 n), (Z.ltb_spec n NTERMS); cbn [orb andb]; try lia; try (by eexists (-1), s).
  destruct (lookup_lt_is_Some_2 (vt_terms s) (Z.to_nat n) ltac:(lia)) as [u Eu]. rewrite bind_modify.
  destruct (vt_redraw_ok (with_curterm (Some (Z.to_nat n)) s) (Z.to_nat n) u) as (s' & Es & Hs' & Hh & Hr); try done.
  exists 0, s'. rewrite (bind_eq _ _ _ _ _ Es). split; [done|]. split; [done|]. split; [done|].
  destruct Hr as (Hr1 & _ & Hr3 & _). by rewrite Hr1, Hr3.
Qed.

(** ** The start *)

Definition blank_hist : hist := Hist (replicate (Z.to_nat DISPLAY_WIDTH) 0) 0.

Definition blank_term (t : virtterm) : virtterm :=
  Virtterm 0 DISPLAY_WIDTH 0 0 (replicate (Z.to_nat SCROLL_BUFSIZE) 0) (vt_tempbuf t) true None 0.

Lemma init_term_eq t : length (vt_buf t) = Z.to_nat SCROLL_BUFSIZE -> init_term t = Ret (blank_term t).
Proof.
  intros Hb. unfold init_term. rewrite clear_at_eq by vlia. cbn [obind]. rewrite drop_ge by vlia. by rewrite app_nil_r.
Qed.

Lemma blank_term_ok t : length (vt_tempbuf t) = Z.to_nat DISPLAY_SIZE -> term_ok (blank_term t).
Proof. intros Ht. constructor; cbn; try done; unfold row_start, dist; try vlia. Qed.

Lemma blank_term_hist t : hist_of (blank_term t) = blank_hist.
Proof. vm_compute. reflexivity. Qed.

Definition static_term (t : virtterm) : Prop := length (vt_buf t) = Z.to_nat SCROLL_BUFSIZE /\ length (vt_tempbuf t) = Z.to_nat DISPLAY_SIZE.

Lemma init_terms_eq n : forall i s, (i + n <= length (vt_terms s))%nat -> Forall static_term (vt_terms s) -> 
  init_terms n i s = Ret (tt, with_terms (take i (vt_terms s) ++ map blank_term (take n (drop i (vt_terms s))) ++ drop (i + n) (vt_terms s)) s).
Proof.
  induction n as [|n IH]; intros i s Hl Hst.
  - simpl. rewrite Nat.add_0_r, take_drop. by destruct s.
  - destruct (lookup_lt_is_Some_2 (vt_terms s) i ltac:(lia)) as [t Et]. cbn [init_terms]. rewrite (bind_eq _ _ _ _ _ (term_eq _ _ _ Et)).
    destruct (Forall_lookup_1 _ _ _ _ Hst Et) as [Hb Htmp]. rewrite (init_term_eq t Hb), (bind_eq _ _ _ _ _ (pure_ret _ _)).
    unfold term_set. rewrite bind_modify. rewrite IH; cbn.
    + f_equal. f_equal. unfold with_terms. cbn. f_equal. rewrite (drop_S _ _ _ Et). cbn [take map].
      rewrite (take_S_r _ _ (blank_term t)) by (apply list_lookup_insert_eq; lia). rewrite take_insert_ge, !drop_insert_lt by lia.
      rewrite <- app_assoc. cbn. do 4 f_equal. lia.
    + rewrite length_insert. lia.
    + apply Forall_insert; [done|]. split; [apply length_replicate|done].
Qed.

Lemma vt_init_ok s : Z.of_nat (length (vt_terms s)) = NTERMS -> Forall static_term (vt_terms s) -> length (videoram s) = VIDEO_CELLS -> exists s',
  vt_init s = Ret (tt, s') /\ tty_ok s' /\ map hist_of (vt_terms s') = replicate (Z.to_nat NTERMS) blank_hist /\ vt_curterm s' = Some 0%nat /\
  keyboard_handler s' = true /\ curmask s' = curmask s.
Proof.
  intros Hn Hst Hv. unfold vt_init. erewrite bind_eq by (apply init_terms_eq; [lia|done]). cbn [Nat.add].
  rewrite take_0, drop_0, app_nil_l, take_ge, drop_ge, app_nil_r by lia. rewrite bind_modify.
  set (s1 := with_curterm _ _). destruct (lookup_lt_is_Some_2 (vt_terms s) 0 ltac:(unfold NTERMS in Hn; lia)) as [t Et].
  destruct (vt_redraw_ok s1 0 (blank_term t)) as (s' & Es & (Hn' & Hall' & Hsh') & Hh & Hr); try done.
  - cbn. by rewrite length_map.
  - cbn. apply Forall_fmap. eapply Forall_impl; [exact Hst|]. intros u [_ Hu]. by apply blank_term_ok.
  - cbn. rewrite (list_lookup_fmap blank_term), Et. done.
  - rewrite (bind_eq _ _ _ _ _ Es). unfold keyboard_register_handler. eexists. split; [done|]. split; [done|].
    destruct Hr as (Hr1 & _ & Hr3 & _). split; [|done]. cbn. rewrite Hh. cbn. rewrite map_map.
    rewrite (map_ext _ (fun _ => blank_hist)) by apply blank_term_hist. rewrite <- Hn, Nat2Z.id.
    clear. induction (vt_terms s) as [|u l IH]; simpl; [done|]. by f_equal.
Qed.

(** ** Keys *)

(** Every scan code is handled; only shift and control are ever held. *)
Lemma key_step_ok mask code : 0 <= mask < 4 -> 0 <= code < 256 -> exists mask' a, key_step mask code = Ret (mask', a) /\ 0 <= mask' < 4.
Proof.
  intros Hm Hc.
  assert (forallb (fun m => forallb (fun c => match key_step m c with Ret (m', _) => (0 <=? m') && (m' <? 4) | Stop _ => false end) (seqZ 0 256)) (seqZ 0 4) = true)
    as Hall by (vm_compute; reflexivity).
  rewrite forallb_forall in Hall. specialize (Hall mask). rewrite <- list_elem_of_In, elem_of_seqZ in Hall. specialize (Hall ltac:(lia)).
  rewrite forallb_forall in Hall. specialize (Hall code). rewrite <- list_elem_of_In, elem_of_seqZ in Hall. specialize (Hall ltac:(lia)).
  destruct (key_step mask code) as [[m' a]|]; [|done]. rewrite andb_true_iff, Z.leb_le, Z.ltb_lt in Hall. by exists m', a.
Qed.

(** The escape state of the keyboard driver is never entered: the break bit is
    taken off before the codes 0xe0 and 0xe1 are looked for, so an escape code
    changes nothing and the key behind it is handled as if it stood alone. *)
Theorem keyboard_escape_dead mask code : 0 <= mask < 4 -> 0 <= code < 256 ->
  key_step mask ESC0 = Ret (mask, KNone) /\ key_step mask ESC1 = Ret (mask, KNone) /\
  exists mask' a, key_step mask code = Ret (mask', a) /\ held mask' ESC_MASK = false.
Proof.
  intros Hm Hc. assert (mask = 0 \/ mask = 1 \/ mask = 2 \/ mask = 3) as Hcases by lia. split; [|split].
  - by destruct Hcases as [->|[->|[->| ->]]].
  - by destruct Hcases as [->|[->|[->| ->]]].
  - destruct (key_step_ok mask code Hm Hc) as (m' & a & E & Hm'). exists m', a. split; [done|].
    assert (m' = 0 \/ m' = 1 \/ m' = 2 \/ m' = 3) as H by lia. by destruct H as [->|[->|[->| ->]]].
Qed.

Lemma keyboard_escape_dead_witness : key_step 2 224 = Ret (2, KNone) /\ exists mask' a, key_step 2 72 = Ret (mask', a) /\ held mask' ESC_MASK = false.
Proof.
  destruct (keyboard_escape_dead 2 72 ltac:(lia) ltac:(lia)) as (H1 & _ & H2). exact (conj H1 H2).
Defined.

(** ** The system *)

Inductive tty_op : Type :=
| OPut (i : nat) (c : Z) | OScroll (n : Z) (up : bool) | OSwitch (n : Z) | OKey (code : Z)
| ORegister (i : nat) (callback : option Z) (arg : Z) | OUnregister (i : nat).

Definition run_op (o : tty_op) : M ttys unit :=
  match o with
  | OPut i c => vt_provide_char (Some i) c
  | OScroll n up => vt_scroll n up
  | OSwitch n => vt_switch n ;;; ret tt
  | OKey code => keyboard_intr_handler code
  | ORegister i f a => vt_register_callback_handler (Some i) f a ;;; ret tt
  | OUnregister i => vt_unregister_callback_handler (Some i) ;;; ret tt
  end.

(** When an operation may be called. *)
Definition allowed (s : ttys) (o : tty_op) : Prop :=
  match o with
  | OPut i c => exists t, vt_terms s !! i = Some t /\ (vt_curterm s = Some i -> roomy t)
  | OScroll n _ => 0 <= n < 125
  | OSwitch _ => True
  | OKey code => 0 <= code < 256
  | ORegister i _ _ | OUnregister i => Z.of_nat i < NTERMS
  end.

(** What an operation does to the histories of the terminals. *)
Definition spec_op (o : tty_op) (l : list hist) : list hist :=
  match o with OPut i c => alter (fun h => spec_char h c) i l | _ => l end.

Inductive tty_reach : ttys -> Prop :=
| reach_start s : tty_start boot_state = Ret (tt, s) -> tty_reach s
| reach_step s o s' : tty_reach s -> allowed s o -> run_op o s = Ret (tt, s') -> tty_reach s'.

Definition tty_inv (s : ttys) : Prop := tty_ok s /\ 0 <= curmask s < 4.

(** The callback of a terminal is no part of what it shows. *)
Lemma with_callback_ok s i t f a : tty_ok s -> vt_terms s !! i = Some t ->
  let s' := with_terms (<[i := with_callback f a t]> (vt_terms s)) s in
  tty_ok s' /\ map hist_of (vt_terms s') = map hist_of (vt_terms s).
Proof.
  intros (Hn & Hall & k & u & Ek & Eu & Hv & Hscr & Hcrt) Et s'. pose proof (Forall_lookup_1 _ _ _ _ Hall Et) as Hok.
  split; [|by eapply map_insert_same]. split; [cbn; by rewrite length_insert|].
  split; [apply Forall_insert; [done|]; destruct Hok; by constructor|].
  destruct (decide (k = i)) as [->|Hne].
  - assert (u = t) as -> by congruence. exists i, (with_callback f a t). split; [done|]. split; [|done].
    cbn. apply list_lookup_insert_eq. by eapply lookup_lt_Some.
  - exists k, u. split; [done|]. split; [|done]. cbn. by rewrite list_lookup_insert_ne.
Qed.

(** A step that leaves the histories alone. *)
Definition quiet (s : ttys) (m : M ttys unit) : Prop := exists s',
  m s = Ret (tt, s') /\ tty_inv s' /\ map hist_of (vt_terms s') = map hist_of (vt_terms s).

Lemma tty_quiet_scroll s n up : tty_inv s -> 0 <= n < 125 -> quiet s (vt_scroll n up).
Proof.
  intros [Hs Hm] Hn. destruct (vt_scroll_ok s n up Hs Hn) as (s' & E & Hs' & Hh & _ & _ & Hc & _).
  exists s'. split; [done|]. split; [split; [done|by rewrite Hc]|done].
Qed.

Lemma tty_quiet_switch s n : tty_inv s -> quiet s (vt_switch n ;;; ret tt).
Proof.
  intros [Hs Hm]. destruct (vt_switch_ok s n Hs) as (r & s' & E & Hs' & Hh & Hc & _). exists s'. rewrite (bind_eq _ _ _ _ _ E).
  split; [done|]. split; [|done]. split; [done|]. by rewrite Hc.
Qed.

Lemma tty_quiet_handler s c : tty_inv s -> quiet s (vt_keyboard_handler c).
Proof.
  intros [Hs Hm]. pose proof Hs as (_ & _ & i & t & Ei & Et & _). unfold quiet, vt_keyboard_handler. rewrite bind_gets, Ei, (bind_eq _ _ _ _ _ (term_eq _ _ _ Et)).
  destruct (ttd_callback t); eexists; (split; [done|split; [by split|done]]).
Qed.

Lemma with_mask_inv s m : tty_inv s -> 0 <= m < 4 -> tty_inv (with_mask m s).
Proof. by intros [Hs _] Hm. Qed.

Lemma tty_quiet_key s code : tty_inv s -> 0 <= code < 256 -> quiet s (keyboard_intr_handler code).
Proof.
  intros Hs Hc. destruct (key_step_ok (curmask s) code (proj2 Hs) Hc) as (m' & a & E & Hm').
  pose proof (with_mask_inv s m' Hs Hm') as Hs1. set (s1 := with_mask m' s) in *.
  enough (quiet s1 (match a with
    | KNone => ret tt | KSwitch t => vt_switch t ;;; ret tt | KScroll up => vt_scroll DISPLAY_HEIGHT up
    | KChar c => if c =? NO_CHAR then ret tt else let! h := gets keyboard_handler in if h : bool then vt_keyboard_handler (s8 c) else ret tt
    end)) as (s' & Es & Hs' & Hh).
  { exists s'. split; [|done]. unfold keyboard_intr_handler. rewrite bind_gets, E, (bind_eq _ _ _ _ _ (pure_ret _ _)). by rewrite bind_modify. }
  assert (quiet s1 (ret tt)) as Hret by (by exists s1).
  destruct a as [|t|up|c]; [done|by apply tty_quiet_switch|apply tty_quiet_scroll; [done|by vlia]|]. destruct (c =? NO_CHAR); [done|].
  destruct (tty_quiet_handler s1 (s8 c) Hs1) as (s' & Es & H). unfold quiet. rewrite bind_gets. destruct (keyboard_handler s1); [by exists s'|done].
Qed.

Lemma tty_quiet_callback s i f : tty_inv s -> Z.of_nat i < NTERMS ->
  (forall t, vt_terms s !! i = Some t -> exists g a r, f (Some i) s = Ret (r, with_terms (<[i := with_callback g a t]> (vt_terms s)) s)) ->
  quiet s (bind (f (Some i)) (fun _ : option Z => ret tt)).
Proof.
  intros [Hs Hm] Hi Hf. pose proof Hs as (Hn & _). destruct (lookup_lt_is_Some_2 (vt_terms s) i ltac:(lia)) as [t Et].
  destruct (Hf t Et) as (g & a & r & E). unfold quiet. rewrite (bind_eq _ _ _ _ _ E). eexists. split; [done|].
  destruct (with_callback_ok s i t g a Hs Et) as [H1 H2]. done.
Qed.

(** Every operation that may be called succeeds, keeps the invariant and does to the
    histories what it should. *)
Lemma tty_run_op_ok s o : tty_inv s -> allowed s o -> exists s',
  run_op o s = Ret (tt, s') /\ tty_inv s' /\ map hist_of (vt_terms s') = spec_op o (map hist_of (vt_terms s)).
Proof.
  intros Hs Ha. destruct o as [i c|n up|n|code|i f a|i]; cbn [allowed run_op spec_op] in *.
  - destruct Ha as (t & Et & Hroom). destruct Hs as [Hok Hm]. destruct (vt_provide_char_ok s i t c Hok Et Hroom) as (s' & t' & E & Hs' & Ets & Hh & Hr).
    exists s'. split; [done|]. split; [split; [done|]; destruct Hr as (_ & _ & -> & _); done|]. rewrite Ets.
    rewrite (list_fmap_insert hist_of), Hh. apply list_eq. intros k. destruct (decide (k = i)) as [->|Hne].
    + rewrite list_lookup_insert_eq by (rewrite length_map; by eapply lookup_lt_Some). by rewrite list_lookup_alter_eq, (list_lookup_fmap hist_of), Et.
    + by rewrite list_lookup_insert_ne, list_lookup_alter_ne.
  - by apply tty_quiet_scroll.
  - by apply tty_quiet_switch.
  - by apply tty_quiet_key.
  - apply (tty_quiet_callback s i (fun d => vt_register_callback_handler d f a) Hs Ha). intros t Et. exists f, a, (ttd_callback t).
    unfold vt_register_callback_handler. rewrite bind_assert, bind_deref, (bind_eq _ _ _ _ _ (term_eq _ _ _ Et)) by done. done.
  - apply (tty_quiet_callback s i vt_unregister_callback_handler Hs Ha). intros t Et. exists None, (ttd_callback_arg t), (ttd_callback t).
    unfold vt_unregister_callback_handler. rewrite bind_assert, bind_deref, (bind_eq _ _ _ _ _ (term_eq _ _ _ Et)) by done. done.
Qed.

Lemma tty_start_ok : exists s, tty_start boot_state = Ret (tt, s) /\ tty_inv s.
Proof.
  unfold tty_start, screen_init. rewrite bind_modify.
  destruct (vt_init_ok (with_video (replicate VIDEO_CELLS 0) boot_state)) as (s & E & Hok & _ & _ & _ & Hm).
  - done.
  - repeat constructor; apply length_replicate.
  - apply length_replicate.
  - exists s. split; [done|]. split; [done|]. rewrite Hm. cbn [curmask with_video boot_state]. lia.
Qed.

Lemma tty_reach_inv s : tty_reach s -> tty_inv s.
Proof.
  induction 1 as [s E|s o s' _ IH Ha E].
  - destruct tty_start_ok as (s0 & E0 & H0). rewrite E in E0. by injection E0 as <-.
  - destruct (tty_run_op_ok s o IH Ha) as (s0 & E0 & H0 & _). rewrite E in E0. by injection E0 as <-.
Qed.

(** C3: From the start, after any run of permitted operations (printing to a terminal,
    keys, scrolling, switching, callbacks), the video
    memory is what a full redraw of the current terminal would draw, cell by
    cell, although [vt_provide_char] usually draws one character only, and the
    controller's cursor is the terminal's; every permitted operation succeeds and
    changes the history of one terminal by one character, or no history at all.
    Permitted ([allowed]) are printing to a terminal that exists and, when it is the
    current one, is [roomy] (its history leaves a screen's worth of the buffer free, or the
    cursor is not above the top of the screen), scrolling by less than
    125 lines, scan codes of one byte, and callbacks of terminals that exist.
    Without room what is printed can be lost from the screen ([screen_lost]). *)
Theorem tty_screen_correct s : tty_reach s -> tty_ok s /\ forall o, allowed s o -> exists s',
  run_op o s = Ret (tt, s') /\ tty_reach s' /\ map hist_of (vt_terms s') = spec_op o (map hist_of (vt_terms s)).
Proof.
  intros Hr. pose proof (tty_reach_inv s Hr) as Hs. split; [apply Hs|]. intros o Ha. destruct (tty_run_op_ok s o Hs Ha) as (s' & E & _ & Hh).
  exists s'. split; [done|]. split; [by eapply reach_step|done].
Qed.

Lemma tty_screen_correct_witness : exists s, tty_ok s /\ exists s', run_op (OKey 30) s = Ret (tt, s').
Proof.
  destruct tty_start_ok as (s & E & _). destruct (tty_screen_correct s (reach_start s E)) as [Hok Hstep]. exists s. split; [exact Hok|].
  destruct (Hstep (OKey 30)) as (s' & E' & _); [simpl; lia|]. exists s'. exact E'.
Defined.

(** A character for the empty terminal. *)
Lemma vt_handle_char_refines_witness : exists t', vt_handle_char (blank_term boot_term) 97 = Ret (t', true) /\ hist_of t' = Hist (97 :: replicate 79 0) 1.
Proof.
  destruct (vt_handle_char_refines (blank_term boot_term) 97) as (t' & E & _ & Hh & _).
  - apply blank_term_ok. apply length_replicate.
  - exists t'. split; [exact E|]. rewrite Hh, blank_term_hist. reflexivity.
Defined.

(** ** The limit *)

(** The screen of the current terminal differs from what a redraw would draw. *)
Definition screen_differs (s : ttys) : bool :=
  match vt_curterm s with
  | Some i =>
      match vt_terms s !! i with
      | Some t => negb (bool_decide (take (Z.to_nat DISPLAY_SIZE) (videoram s) = map cell (view t)))
      | None => false
      end
  | None => false
  end.

(** The terminal after 130 new lines, 9900 backspaces and two characters: the history
    fills the buffer from row 7 around to row 5, the cursor is on its first
    row again, and the screen was moved to begin at the end of the history. *)
Definition deep_term : virtterm :=
  Virtterm 560 480 480 562 (replicate (Z.to_nat SCROLL_BUFSIZE) 0) (replicate (Z.to_nat DISPLAY_SIZE) 0) true None 0.
Definition deep_state : ttys :=
  Ttys [deep_term; blank_term boot_term; blank_term boot_term] (Some 0%nat) (replicate (Z.to_nat DISPLAY_SIZE) (cell 0) ++ replicate 48 0)
    (cursor_writes 82) 0 0 true [].

(** Without [roomy] the screen is lost: the character is drawn although a redraw of
    the terminal would not show it. *)
Example screen_lost : screen_differs deep_state = false /\ match vt_provide_char (Some 0%nat) 120 deep_state with Ret (_, s) => screen_differs s = true | Stop _ => False end.
Proof. vm_compute. done. Qed.
