(* ===== verification/Pagetable.v ===== *)
(** * Two-level page tables (mm/pagetable.c)

    A page directory is two pages: [pd_physical] holds the entries the processor
    reads, with physical addresses and flags, and [pd_virtual] the addresses
    at which the kernel finds the same page tables.  Memory is a map from physical
    page addresses to words.  The kernel reaches a page at the virtual address
    [v] through its linear mapping, as the physical page [v - koff]; a page at any
    physical address it reaches through the last entry of [final_page]
    ([pt_phys_tmp_map]).  Pages are allocated through the interface [PageOps] of
    Slab.v; what the allocator itself writes into free pages is not part of the words.

    This file holds the operations, from [pt_init] on the machine the boot loader
    leaves.  PagetableSpec.v has the walk of the processor and the invariant. *)

From S2P Require Import Prelude Page Slab Vmmap.

Definition PT_PRESENT : Z := 1.
Definition PT_WRITE : Z := 2.
Definition PT_VADDR_SIZE : Z := 4194304.

Definition vaddr_to_offset (vaddr : Z) : Z := Z.land vaddr 4095.

Record pts (P : Type) : Type := Pts {
  mem : gmap Z (list Z);
  current_pagedir : Z; template_pagedir : Z;
  phys_map_count : Z; final_page : Z;
  cr3 : Z; flushed : list Z;
  palloc : P }.
Arguments Pts {P}.
Arguments mem {P}.
Arguments current_pagedir {P}.
Arguments template_pagedir {P}.
Arguments phys_map_count {P}.
Arguments final_page {P}.
Arguments cr3 {P}.
Arguments flushed {P}.
Arguments palloc {P}.

Section model.
Context {P : Type} `{PageOps P}.
(** [&kernel_start - KERNEL_PHYS_BASE] *)
Variable koff : Z.

Abbreviation K := (M (pts P)).

Definition set_words m (s : pts P) := Pts m (current_pagedir s) (template_pagedir s) (phys_map_count s) (final_page s) (cr3 s) (flushed s) (palloc s).
Definition set_current v (s : pts P) := Pts (mem s) v (template_pagedir s) (phys_map_count s) (final_page s) (cr3 s) (flushed s) (palloc s).
Definition set_count v (s : pts P) := Pts (mem s) (current_pagedir s) (template_pagedir s) v (final_page s) (cr3 s) (flushed s) (palloc s).
Definition set_cr3 v (s : pts P) := Pts (mem s) (current_pagedir s) (template_pagedir s) (phys_map_count s) (final_page s) v (flushed s) (palloc s).
Definition set_flushed v (s : pts P) := Pts (mem s) (current_pagedir s) (template_pagedir s) (phys_map_count s) (final_page s) (cr3 s) v (palloc s).
Definition set_template v (s : pts P) := Pts (mem s) (current_pagedir s) v (phys_map_count s) (final_page s) (cr3 s) (flushed s) (palloc s).
Definition set_final v (s : pts P) := Pts (mem s) (current_pagedir s) (template_pagedir s) (phys_map_count s) v (cr3 s) (flushed s) (palloc s).
Definition set_palloc (v : P) (s : pts P) := Pts (mem s) (current_pagedir s) (template_pagedir s) (phys_map_count s) (final_page s) (cr3 s) (flushed s) v.

(** ** Memory *)

Definition phys (v : Z) : Z := v - koff.

(** Word [i] of the page at a physical address. *)
Definition pword (m : gmap Z (list Z)) (p i : Z) : option Z := m !! p ≫= fun l => if 0 <=? i then l !! Z.to_nat i else None.

Definition rd_phys (p i : Z) : K Z := let! m := gets mem in deref (pword m p i).
Definition ld_word (v i : Z) : K Z := rd_phys (phys v) i.

Definition wr_phys (p i x : Z) : K unit :=
  rd_phys p i ;;;
  modify (fun s => set_words (alter (fun l => <[Z.to_nat i := x]> l) p (mem s)) s).
Definition st_word (v i x : Z) : K unit := wr_phys (phys v) i x.

(** [memset(&page[i], 0, n * 4)] *)
Definition zero_words (v i n : Z) : K unit :=
  let! m := gets mem in
  let! l := deref (m !! phys v) in
  if (0 <=? i) && (0 <=? n) && (i + n <=? Z.of_nat (length l))
  then modify (set_words (<[phys v := take (Z.to_nat i) l ++ replicate (Z.to_nat n) 0 ++ drop (Z.to_nat (i + n)) l]> m))
  else stop Undef.

(** [memcpy(dst, src, PAGE_SIZE)] *)
Definition copy_page (dst src : Z) : K unit :=
  let! m := gets mem in
  let! d := deref (m !! phys dst) in
  let! l := deref (m !! phys src) in
  if (1024 <=? length d)%nat && (1024 <=? length l)%nat
  then modify (set_words (<[phys dst := take 1024 l ++ drop 1024 d]> m)) else stop Undef.

Definition on_palloc {A} (m : M P A) : K A := fun s =>
  match m (palloc s) with Ret (a, p) => Ret (a, set_palloc p s) | Stop f => Stop f end.

(** [page_alloc] and [page_free] of one page.  A [page_alloc] that fails also
    reclaims unused slabs before it returns null (mm/page.c); the slab allocators
    are not part of this state, so that a failure leaves unchanged what is: the page
    tables and, up to the pages slabs give back, the page allocator.  [kpage_alloc_n]
    of Slab.v has the reclaiming. *)
Definition table_alloc : K (option Z) := on_palloc (pa_alloc_n 1).
Definition table_free (a : Z) : K unit := on_palloc (pa_free_n a 1).

(** Reloading [cr3] empties the whole translation buffer. *)
Definition tlb_flush_all : K unit := modify (fun s => set_cr3 (cr3 s) s).
Definition tlb_flush (v : Z) : K unit := modify (fun s => set_flushed (v :: flushed s) s).

(** ** Mappings of physical pages *)

Definition pt_phys_tmp_map (paddr : Z) : K Z :=
  KASSERT (PAGE_ALIGNED paddr) ;;;
  let! f := gets final_page in
  st_word f (PT_ENTRY_COUNT - 1) (Z.lor (Z.lor paddr PT_PRESENT) PT_WRITE) ;;;
  let vaddr := 4294967295 - PAGE_SIZE + 1 in
  tlb_flush vaddr ;;;
  ret vaddr.

(** A word of the page the last entry of [final_page] maps. *)
Definition rd_window (i : Z) : K Z :=
  let! f := gets final_page in
  let! e := ld_word f (PT_ENTRY_COUNT - 1) in
  rd_phys (Z.land e PAGE_MASK) i.

Fixpoint perm_loop (n : nat) (i paddr count : Z) : K unit :=
  match n with
  | O => ret tt
  | S n' =>
      let! f := gets final_page in
      st_word f (PT_ENTRY_COUNT - count + i) (Z.lor (Z.lor (u32 (paddr + PAGE_SIZE * i)) PT_PRESENT) PT_WRITE) ;;;
      perm_loop n' (i + 1) paddr count
  end.

Definition pt_phys_perm_map (paddr count : Z) : K Z :=
  KASSERT (PAGE_ALIGNED paddr) ;;;
  let! c := gets phys_map_count in
  let c := u32 (c + count) in
  modify (set_count c) ;;;
  KASSERT (c <? PT_ENTRY_COUNT) ;;;
  perm_loop (Z.to_nat count) 0 paddr c ;;;
  let vaddr := u32 (4294967295 - PAGE_SIZE * c + 1) in
  tlb_flush vaddr ;;;
  ret vaddr.

Definition pt_virt_to_phys (vaddr : Z) : K Z :=
  let! cur := gets current_pagedir in
  let! d := ld_word cur (vaddr_to_pdindex vaddr) in
  pt_phys_tmp_map (Z.land d PAGE_MASK) ;;;
  let! e := rd_window (vaddr_to_ptindex vaddr) in
  ret (u32 (Z.land e PAGE_MASK + vaddr_to_offset vaddr)).

Definition pt_set (pd : Z) : K unit :=
  let! pdir := pt_virt_to_phys pd in
  modify (set_current pd) ;;;
  modify (set_cr3 pdir).

Definition pt_get : K Z := gets current_pagedir.

(** ** User mappings *)

Definition present (e : Z) : bool := negb (Z.land PT_PRESENT e =? 0).

(** [pd->pd_virtual] is the page behind [pd->pd_physical]. *)
Definition pd_virtual (pd : Z) : Z := pd + PAGE_SIZE.

Definition is_flags (f : Z) : bool := Z.land f 4095 =? f.

(** The page table for [index], a new one when there is none; [None] without memory. *)
Definition map_table (pd index pdflags : Z) : K (option Z) :=
  let! d := ld_word pd index in
  if negb (present d) then
    let! r := table_alloc in
    match r with
    | None => ret None
    | Some pt =>
        KASSERT (is_flags pdflags) ;;;
        zero_words pt 0 PT_ENTRY_COUNT ;;;
        let! p := pt_virt_to_phys pt in
        st_word pd index (Z.lor p pdflags) ;;;
        st_word (pd_virtual pd) index pt ;;;
        ret (Some pt)
    end
  else
    st_word pd index (Z.lor d pdflags) ;;;
    let! pt := ld_word (pd_virtual pd) index in
    ret (Some pt).

Definition pt_map (pd vaddr paddr pdflags ptflags : Z) : K Z :=
  KASSERT (PAGE_ALIGNED vaddr && PAGE_ALIGNED paddr) ;;;
  KASSERT ((USER_MEM_LOW <=? vaddr) && (vaddr <? USER_MEM_HIGH)) ;;;
  let! r := map_table pd (vaddr_to_pdindex vaddr) pdflags in
  match r with
  | None => ret (- ENOMEM)
  | Some pt =>
      KASSERT (is_flags ptflags) ;;;
      st_word pt (vaddr_to_ptindex vaddr) (Z.lor paddr ptflags) ;;;
      ret 0
  end.

Definition pt_unmap (pd vaddr : Z) : K unit :=
  KASSERT (PAGE_ALIGNED vaddr) ;;;
  KASSERT ((USER_MEM_LOW <=? vaddr) && (vaddr <? USER_MEM_HIGH)) ;;;
  let index := vaddr_to_pdindex vaddr in
  let! d := ld_word pd index in
  if present d then
    let! pt := ld_word (pd_virtual pd) index in
    st_word pt (vaddr_to_ptindex vaddr) 0
  else ret tt.

(** Part of the page table of [vaddr]: words [i] to [i + n]. *)
Definition clear_part (pd vaddr i n : Z) (nonzero : bool) : K unit :=
  let! d := ld_word pd (vaddr_to_pdindex vaddr) in
  if present d && nonzero then
    let! pt := ld_word (pd_virtual pd) (vaddr_to_pdindex vaddr) in
    zero_words pt i n
  else ret tt.

(** The page tables from [i] on are freed. *)
Fixpoint free_tables (n : nat) (pd i : Z) : K unit :=
  match n with
  | O => ret tt
  | S n' =>
      let! d := ld_word pd i in
      (if present d then
         let! pt := ld_word (pd_virtual pd) i in
         table_free pt ;;;
         st_word (pd_virtual pd) i 0 ;;;
         st_word pd i 0
       else ret tt) ;;;
      free_tables n' pd (i + 1)
  end.

Definition pt_unmap_range (pd vlow vhigh : Z) : K unit :=
  KASSERT (vlow <? vhigh) ;;;
  KASSERT (PAGE_ALIGNED vlow && PAGE_ALIGNED vhigh) ;;;
  KASSERT ((USER_MEM_LOW <=? vlow) && (vhigh <=? USER_MEM_HIGH)) ;;;
  let il := vaddr_to_ptindex vlow in
  clear_part pd vlow il (PT_ENTRY_COUNT - il) (negb (il =? 0)) ;;;
  let vlow' := u32 (vlow + PAGE_SIZE * ((PT_ENTRY_COUNT - il) mod PT_ENTRY_COUNT)) in
  let ih := vaddr_to_ptindex vhigh in
  clear_part pd vhigh 0 ih (negb (ih =? 0)) ;;;
  let vhigh' := u32 (vhigh - PAGE_SIZE * ih) in
  free_tables (Z.to_nat (vaddr_to_pdindex vhigh' - vaddr_to_pdindex vlow')) pd (vaddr_to_pdindex vlow').

(** ** Page directories *)

Definition pt_create_pagedir : K (option Z) :=
  let! r := on_palloc (pa_alloc_n 2) in
  match r with
  | None => ret None
  | Some pdir =>
      let! t := gets template_pagedir in
      copy_page pdir t ;;;
      copy_page (pd_virtual pdir) (pd_virtual t) ;;;
      ret (Some pdir)
  end.

Fixpoint destroy_tables (n : nat) (pd i : Z) : K unit :=
  match n with
  | O => ret tt
  | S n' =>
      let! d := ld_word pd i in
      (if present d then (let! pt := ld_word (pd_virtual pd) i in table_free pt) else ret tt) ;;;
      destroy_tables n' pd (i + 1)
  end.

Definition pt_destroy_pagedir (pdir : Z) : K unit :=
  KASSERT (PAGE_ALIGNED pdir) ;;;
  let first := USER_MEM_LOW / PT_VADDR_SIZE in
  let last := (USER_MEM_HIGH - 1) / PT_VADDR_SIZE in
  KASSERT ((first <? last) && (0 <? first)) ;;;
  destroy_tables (Z.to_nat (last - first + 1)) pdir first ;;;
  on_palloc (pa_free_n pdir 2).

(** ** Start of the kernel *)

Fixpoint fill_loop (n : nat) (pt ptflags pstart i : Z) : K unit :=
  match n with
  | O => ret tt
  | S n' =>
      st_word pt i (Z.land (u32 (i * PAGE_SIZE + pstart)) PAGE_MASK) ;;;
      (let! e := ld_word pt i in st_word pt i (Z.lor e (Z.land ptflags 4095))) ;;;
      fill_loop n' pt ptflags pstart (i + 1)
  end.

(** [cr3] holds a physical address that the kernel also uses as a virtual one: the
    first megabytes of memory are mapped to themselves. *)
Definition _pt_fill_page (pd pt pdflags ptflags vstart pstart : Z) : K unit :=
  KASSERT (negb (pd =? 0) && negb (pt =? 0)) ;;;
  KASSERT (vstart mod PT_VADDR_SIZE =? 0) ;;;
  zero_words pt 0 PT_ENTRY_COUNT ;;;
  fill_loop (Z.to_nat PT_ENTRY_COUNT) pt ptflags pstart 0 ;;;
  let base := vaddr_to_pdindex vstart in
  let table := vaddr_to_pdindex pt in
  let entry := vaddr_to_ptindex pt in
  let! temppdir := gets cr3 in
  let! d := rd_phys temppdir table in
  pt_phys_tmp_map (Z.land d PAGE_MASK) ;;;
  let! e := rd_window entry in
  let page := Z.land e PAGE_MASK in
  st_word pd base (Z.lor page (Z.land pdflags 4095)) ;;;
  st_word (pd_virtual pd) base pt.

(** [pt_template_init] without the registration of the page fault handler. *)
Definition pt_template_init : K unit :=
  let! cur := gets current_pagedir in
  let! t := ld_word (pd_virtual cur) 0 in
  zero_words t 0 PT_ENTRY_COUNT ;;;
  tlb_flush_all ;;;
  let! r := on_palloc (pa_alloc_n 2) in
  modify (set_template (default 0 r)) ;;;
  KASSERT (match r with Some a => negb (a =? 0) | None => false end) ;;;
  let! cur := gets current_pagedir in
  copy_page (default 0 r) cur ;;;
  copy_page (pd_virtual (default 0 r)) (pd_virtual cur).
End model.

Definition KERNEL_PHYS_BASE : Z := 1048576.

(** The map of memory the boot loader leaves behind. *)
Record mmap_entry : Type := MmapEntry { me_baselo : Z; me_lenlo : Z; me_type : Z }.

Fixpoint phys_detect_highmem (mmap : list mmap_entry) : outcome Z :=
  match mmap with
  | [] => Stop Assert
  | e :: mmap' =>
      let base := me_baselo e in
      let length := me_lenlo e in
      if (1 =? me_type e) && (base <=? KERNEL_PHYS_BASE) && (KERNEL_PHYS_BASE <? u32 (base + length))
      then Ret (u32 (base + length)) else phys_detect_highmem mmap'
  end.

Section boot.
Variables (kernel_start kernel_end : Z) (mmap : list mmap_entry).

Abbreviation koff := (kernel_start - KERNEL_PHYS_BASE).
Abbreviation K := (M (pts pages)).

Definition PD_PRESENT : Z := 1.
Definition PD_WRITE : Z := 2.

(** The [do]-[while] loop; the result is the last page table. *)
Fixpoint map_memory (fuel : nat) (pagedir pagetable vaddr paddr physmax : Z) : K Z :=
  match fuel with
  | O => stop Diverge
  | S fuel' =>
      let pagetable := u32 (pagetable + PAGE_SIZE) in
      let vaddr := u32 (vaddr + PT_VADDR_SIZE) in
      let paddr := u32 (paddr + PT_VADDR_SIZE) in
      _pt_fill_page koff pagedir pagetable (Z.lor PD_PRESENT PD_WRITE) (Z.lor PT_PRESENT PT_WRITE) vaddr paddr ;;;
      if paddr <? physmax then map_memory fuel' pagedir pagetable vaddr paddr physmax else ret pagetable
  end.

Definition pt_init : K unit :=
  let! temppdir := gets cr3 in
  let pagedir := kernel_end in
  KASSERT (PAGE_ALIGNED pagedir) ;;;
  zero_words koff pagedir 0 PT_ENTRY_COUNT ;;;
  zero_words koff (pd_virtual pagedir) 0 PT_ENTRY_COUNT ;;;
  let f := u32 (pagedir + 2 * PAGE_SIZE) in
  modify (set_final f) ;;;
  KASSERT (PAGE_ALIGNED f) ;;;
  zero_words koff f 0 PT_ENTRY_COUNT ;;;
  wr_phys temppdir (PT_ENTRY_COUNT - 1) (Z.lor (Z.lor (u32 (f - kernel_start + KERNEL_PHYS_BASE)) PT_PRESENT) PT_WRITE) ;;;
  (let! e := rd_phys temppdir (PT_ENTRY_COUNT - 1) in st_word koff pagedir (PT_ENTRY_COUNT - 1) e) ;;;
  st_word koff (pd_virtual pagedir) (PT_ENTRY_COUNT - 1) f ;;;
  let pagetable := u32 (f + PAGE_SIZE) in
  _pt_fill_page koff pagedir pagetable (Z.lor PD_PRESENT PD_WRITE) (Z.lor PT_PRESENT PT_WRITE) 0 0 ;;;
  let pagetable := u32 (pagetable + PAGE_SIZE) in
  _pt_fill_page koff pagedir pagetable (Z.lor PD_PRESENT PD_WRITE) (Z.lor PT_PRESENT PT_WRITE) kernel_start KERNEL_PHYS_BASE ;;;
  modify (set_current pagedir) ;;;
  pt_set koff pagedir ;;;
  let! physmax := fun s => match phys_detect_highmem mmap with Ret p => Ret (p, s) | Stop e => Stop e end in
  let! pagetable := map_memory (Z.to_nat PT_ENTRY_COUNT) pagedir pagetable kernel_start KERNEL_PHYS_BASE physmax in
  on_palloc (page_add_range (u32 (pagetable + PT_ENTRY_COUNT)) (u32 (physmax + kernel_start - KERNEL_PHYS_BASE))).
End boot.
