(* ===== verification/PagetableSpec.v ===== *)
(** * Page tables: the translations of the processor

    [mmu] walks a page directory as the processor does, by physical addresses.
    [pt_ok] ties the entries of every page directory to the tables the kernel
    keeps for them and to the blocks of the page allocator; it is what makes the
    kernel's view and the processor's view the same.  Every operation keeps it
    and changes the translations of one page directory exactly where it
    should. *)

From S2P Require Import Prelude Page Slab Vmmap Pagetable.

(** ** The walk *)

Abbreviation words := (Z -> Z -> option Z).

Definition mmu (w : words) (dir vaddr : Z) : option Z :=
  match w dir (vaddr_to_pdindex vaddr) with
  | Some d =>
      if present d then
        match w (Z.land d PAGE_MASK) (vaddr_to_ptindex vaddr) with
        | Some e => if present e then Some e else None
        | None => None
        end
      else None
  | None => None
  end.

(** One word, or a run of zeros, stored. *)
Definition upd (p i x : Z) (w : words) : words := fun p' i' => if decide (p' = p /\ i' = i) then Some x else w p' i'.
Definition zeroed (p i n : Z) (w : words) : words := fun p' j => if decide (p' = p /\ i <= j < i + n) then Some 0 else w p' j.

(** ** Entries *)

Lemma land_mask x : is_u32 x -> Z.land x PAGE_MASK = 4096 * (x / 4096).
Proof. intros Hx. rewrite <- (u32_small x Hx) at 1. fold (PAGE_ALIGN_DOWN x). rewrite PAGE_ALIGN_DOWN_eq, u32_small by done. done. Qed.

Lemma land_low x : 0 <= x -> Z.land x 4095 = x mod 4096.
Proof. intros. change 4095 with (Z.ones 12). by rewrite Z.land_ones by lia. Qed.

Lemma is_flags_iff f : is_flags f = true <-> 0 <= f < 4096.
Proof.
  unfold is_flags. rewrite Z.eqb_eq. change 4095 with (Z.ones 12). rewrite Z.land_ones by lia. change (2 ^ 12) with 4096. split; intros; dlia.
Qed.

Lemma mask_flags f : 0 <= f < 4096 -> Z.land f PAGE_MASK = 0.
Proof. intros Hf. rewrite land_mask by (unfold is_u32, two32; lia). dlia. Qed.

(** Flags do not touch the address of an entry. *)
Lemma mask_lor d f : 0 <= f < 4096 -> Z.land (Z.lor d f) PAGE_MASK = Z.land d PAGE_MASK.
Proof. intros Hf. by rewrite Z.land_lor_distr_l, (mask_flags f Hf), Z.lor_0_r. Qed.

Lemma mask_aligned p : is_u32 p -> p mod 4096 = 0 -> Z.land p PAGE_MASK = p.
Proof. intros Hp Hm. rewrite land_mask by done. dlia. Qed.

Lemma present_odd e : present e = Z.odd e.
Proof.
  unfold present, PT_PRESENT. rewrite Z.land_comm. change 1 with (Z.ones 1). rewrite Z.land_ones by lia. change (2 ^ 1) with 2.
  rewrite Zmod_odd. by destruct (Z.odd e).
Qed.

Lemma present_lor d f : present (Z.lor d f) = present d || present f.
Proof. rewrite !present_odd, <- !Z.bit0_odd. apply Z.lor_spec. Qed.

Lemma lor_u32 d f : is_u32 d -> is_u32 f -> is_u32 (Z.lor d f).
Proof.
  unfold is_u32, two32. intros Hd Hf. split; [apply Z.lor_nonneg; lia|]. change 4294967296 with (2 ^ 32).
  destruct (decide (Z.lor d f = 0)) as [->|]; [done|].
  assert (0 <= Z.lor d f) by (apply Z.lor_nonneg; lia). apply Z.log2_lt_pow2; [lia|]. rewrite Z.log2_lor by lia.
  assert (forall x, 0 <= x < 2 ^ 32 -> Z.log2 x < 32) as Hlog.
  { intros x Hx. destruct (decide (x = 0)) as [->|]; [done|]. apply Z.log2_lt_pow2; lia. }
  apply Z.max_lub_lt; apply Hlog; lia.
Qed.

(** ** Indices *)

Definition user_ix (i : Z) : Prop := 1 <= i < 768.

Definition user_addr (v : Z) : Prop := USER_MEM_LOW <= v < USER_MEM_HIGH.

Lemma pdindex_eq v : is_u32 v -> vaddr_to_pdindex v = v / 4194304.
Proof. intros Hv. unfold vaddr_to_pdindex. rewrite ADDR_TO_PN_div, u32_small by done. unfold PT_ENTRY_COUNT. rewrite Z.div_div by lia. done. Qed.

Lemma ptindex_range v : 0 <= vaddr_to_ptindex v < 1024.
Proof. unfold vaddr_to_ptindex, PT_ENTRY_COUNT. apply Z.mod_pos_bound. lia. Qed.

Lemma user_addr_u32 v : user_addr v -> is_u32 v.
Proof. unfold user_addr, is_u32, USER_MEM_LOW, USER_MEM_HIGH, two32. lia. Qed.

Lemma user_pdindex v : user_addr v -> user_ix (vaddr_to_pdindex v).
Proof. intros Hv. rewrite pdindex_eq by (by apply user_addr_u32). unfold user_addr, user_ix, USER_MEM_LOW, USER_MEM_HIGH in *. dlia. Qed.

Lemma indices_inj v v' : vaddr_to_pdindex v = vaddr_to_pdindex v' -> vaddr_to_ptindex v = vaddr_to_ptindex v' -> ADDR_TO_PN v = ADDR_TO_PN v'.
Proof. unfold vaddr_to_pdindex, vaddr_to_ptindex, PT_ENTRY_COUNT. intros. dlia. Qed.

(** ** The invariant *)

(** A page of the allocator's ranges. *)
Definition kpage (R : list (Z * Z)) (a : Z) : Prop :=
  a mod 4096 = 0 /\ 0 < a < two32 /\ exists lo hi, (lo, hi) ∈ R /\ lo <= a /\ a + 4096 <= hi.

(** The blocks handed out lie in the ranges and apart. *)
Definition good (R : list (Z * Z)) (B : gset (Z * nat)) : Prop :=
  (forall a o k, (a, o) ∈ B -> 0 <= k < npages_of o -> kpage R (a + 4096 * k)) /\
  (forall a o b p k l, (a, o) ∈ B -> (b, p) ∈ B -> 0 <= k < npages_of o -> 0 <= l < npages_of p ->
    a + 4096 * k = b + 4096 * l -> (a, o) = (b, p)).

Section inv.
Variables (koff : Z) (R : list (Z * Z)).

Abbreviation phys := (phys koff).

(** [w] is the memory by physical addresses, [cur], [tmpl] and [fin] are the current and
    the template page directory and [final_page], [pds] the page directories in
    use and [B] the blocks of the page allocator. *)
Record pt_ok (B : gset (Z * nat)) (pds : list Z) (cur tmpl fin : Z) (w : words) : Prop := {
  po_good : good R B;
  po_koff : (0 <= koff /\ koff mod 4096 = 0) /\ forall a, kpage R a -> 0 <= phys a;
  po_mem a i : kpage R a -> 0 <= i < 1024 -> exists x, w (phys a) i = Some x /\ is_u32 x;
  po_pds pd : pd ∈ pds -> (pd, 1%nat) ∈ B;
  po_tmpl : (tmpl, 1%nat) ∈ B /\ tmpl ∉ pds;
  po_tmpl_user i d : user_ix i -> w (phys tmpl) i = Some d -> present d = false;
  po_tab pd i d : pd ∈ pds -> user_ix i -> w (phys pd) i = Some d -> present d = true ->
    exists t, w (phys (pd_virtual pd)) i = Some t /\ (t, 0%nat) ∈ B /\ Z.land d PAGE_MASK = phys t;
  po_inj pd i d pd' i' d' t : pd ∈ pds -> user_ix i -> w (phys pd) i = Some d -> present d = true ->
    pd' ∈ pds -> user_ix i' -> w (phys pd') i' = Some d' -> present d' = true ->
    w (phys (pd_virtual pd)) i = Some t -> w (phys (pd_virtual pd')) i' = Some t -> pd = pd' /\ i = i';
  po_kern pd i : pd ∈ pds \/ pd = cur -> 768 <= i < 1024 -> w (phys pd) i = w (phys tmpl) i;
  po_cur : cur ∈ pds \/ (forall a, kpage R a -> phys cur <> phys a) /\ phys cur <> phys fin;
  po_fin : (exists x, w (phys fin) 1023 = Some x) /\ forall a, kpage R a -> phys a <> phys fin;
  po_kmap a : kpage R a -> 768 <= vaddr_to_pdindex a < 1024 /\ exists d e,
    w (phys tmpl) (vaddr_to_pdindex a) = Some d /\ is_u32 d /\ w (Z.land d PAGE_MASK) (vaddr_to_ptindex a) = Some e /\ Z.land e PAGE_MASK = phys a /\
    (forall b, kpage R b -> Z.land d PAGE_MASK <> phys b) /\ Z.land d PAGE_MASK <> phys fin }.

Lemma phys_inj a b : phys a = phys b -> a = b.
Proof. unfold Pagetable.phys. lia. Qed.

Lemma dir_pages B pd : good R B -> (pd, 1%nat) ∈ B -> kpage R pd /\ kpage R (pd_virtual pd).
Proof.
  intros [Hg _] Hin. split.
  - rewrite <- (Z.add_0_r pd), <- (Z.mul_0_r 4096). apply (Hg _ _ 0 Hin). done.
  - unfold pd_virtual, PAGE_SIZE. rewrite <- (Z.mul_1_r 4096). apply (Hg _ _ 1 Hin). done.
Qed.

Lemma table_page B t : good R B -> (t, 0%nat) ∈ B -> kpage R t.
Proof. intros [Hg _] Hin. rewrite <- (Z.add_0_r t), <- (Z.mul_0_r 4096). apply (Hg _ _ 0 Hin). done. Qed.

(** Tables and directories do not share pages. *)
Lemma table_not_dir B t pd : good R B -> (t, 0%nat) ∈ B -> (pd, 1%nat) ∈ B -> phys t <> phys pd /\ phys t <> phys (pd_virtual pd).
Proof.
  intros [_ Hg] Ht Hp. split; intros E%phys_inj.
  - assert ((t, 0%nat) = (pd, 1%nat)); [|done]. apply (Hg _ _ _ _ 0 0 Ht Hp); [done|done|lia].
  - assert ((t, 0%nat) = (pd, 1%nat)); [|done]. unfold pd_virtual, PAGE_SIZE in E. apply (Hg _ _ _ _ 0 1 Ht Hp); [done|done|lia].
Qed.

Lemma dirs_apart B pd pd' : good R B -> (pd, 1%nat) ∈ B -> (pd', 1%nat) ∈ B ->
  phys pd <> phys (pd_virtual pd') /\ (phys pd = phys pd' -> pd = pd') /\ (phys (pd_virtual pd) = phys (pd_virtual pd') -> pd = pd').
Proof.
  intros [_ Hg] Hp Hp'. split; [|split].
  - intros E%phys_inj. unfold pd_virtual, PAGE_SIZE in E.
    assert ((pd, 1%nat) = (pd', 1%nat)) as [= ->] by (apply (Hg _ _ _ _ 0 1 Hp Hp'); [done|done|lia]). lia.
  - apply phys_inj.
  - intros E%phys_inj. unfold pd_virtual in E. lia.
Qed.

Lemma phys_aligned B pds cur tmpl fin w a : pt_ok B pds cur tmpl fin w -> kpage R a -> phys a mod 4096 = 0 /\ is_u32 (phys a).
Proof.
  intros Hok Ha. destruct (po_koff _ _ _ _ _ _ Hok) as [Hk Hp]. specialize (Hp a Ha). destruct Ha as (Hm & Hr & _).
  unfold Pagetable.phys, is_u32, two32 in *. split; dlia.
Qed.

(** ** Changes that keep the invariant *)

Lemma pt_ok_ext B pds cur tmpl fin w w' : (forall p i, w p i = w' p i) -> pt_ok B pds cur tmpl fin w -> pt_ok B pds cur tmpl fin w'.
Proof.
  intros E [a1 a2 a3 a4 a5 a6 a7 a8 a9 a10 a11 a12]. constructor; try done.
  - intros a i H1 H2. rewrite <- E. by apply a3.
  - intros i d. rewrite <- E. apply a6.
  - intros pd i d. rewrite <- !E. apply a7.
  - intros pd i d pd' i' d' t. rewrite <- !E. apply a8.
  - intros pd i. rewrite <- !E. apply a9.
  - by rewrite <- E.
  - intros a H1. destruct (a12 a H1) as (H2 & d & e & Ed & H3 & Ee & H4). split; [done|]. exists d, e. rewrite <- !E. done.
Qed.

(** The page of a table, or [final_page], changes. *)
Lemma pt_ok_table B pds cur tmpl fin w w' q : pt_ok B pds cur tmpl fin w ->
  (exists t, (t, 0%nat) ∈ B /\ q = phys t) \/ q = phys fin ->
  (forall p i, p <> q -> w' p i = w p i) -> (forall i x, w q i = Some x -> exists x', w' q i = Some x' /\ (is_u32 x -> is_u32 x')) ->
  pt_ok B pds cur tmpl fin w'.
Proof.
  intros Hok Hq Hne Hsome. pose proof (po_good _ _ _ _ _ _ Hok) as Hg. pose proof (po_fin _ _ _ _ _ _ Hok) as [Hf Hfin].
  assert (forall pd, (pd, 1%nat) ∈ B -> phys pd <> q /\ phys (pd_virtual pd) <> q) as Hdir.
  { intros pd Hpd. destruct (dir_pages B pd Hg Hpd) as [H1 H2]. destruct Hq as [(t & Ht & ->)| ->]; [|split; by apply Hfin].
    destruct (table_not_dir B t pd Hg Ht Hpd). split; congruence. }
  assert (phys cur <> q) as Hcur.
  { destruct (po_cur _ _ _ _ _ _ Hok) as [Hc|[Hc1 Hc2]]; [by apply Hdir, (po_pds _ _ _ _ _ _ Hok)|].
    destruct Hq as [(t & Ht & ->)| ->]; [|done]. by apply Hc1, (table_page B). }
  destruct (po_tmpl _ _ _ _ _ _ Hok) as [Htm _]. destruct (Hdir _ Htm) as [Htm1 _].
  assert (forall pd i, pd ∈ pds -> w' (phys pd) i = w (phys pd) i /\ w' (phys (pd_virtual pd)) i = w (phys (pd_virtual pd)) i) as Hpds.
  { intros pd i Hpd. destruct (Hdir pd (po_pds _ _ _ _ _ _ Hok pd Hpd)). split; by apply Hne. }
  destruct Hok as [a1 a2 a3 a4 a5 a6 a7 a8 a9 a10 a11 a12]. constructor; try done.
  - intros a i Ha Hi. destruct (a3 a i Ha Hi) as (x & Ex & Hx). destruct (decide (phys a = q)) as [<-|Hn].
    + destruct (Hsome _ _ Ex) as (x' & Ex' & Hx'). eauto.
    + exists x. by rewrite Hne.
  - intros i d Hi. rewrite Hne by done. apply a6. done.
  - intros pd i d Hpd Hi Hd Hpr. destruct (Hpds pd i Hpd) as [E1 E2]. rewrite E1 in Hd. rewrite E2. eauto.
  - intros pd i d pd' i' d' t Hpd Hi Hd Hpr Hpd' Hi' Hd' Hpr' Ht Ht'.
    destruct (Hpds pd i Hpd) as [E1 E2], (Hpds pd' i' Hpd') as [E3 E4]. rewrite E1 in Hd. rewrite E3 in Hd'. rewrite E2 in Ht. rewrite E4 in Ht'. eauto.
  - intros pd i Hpd Hi. rewrite (Hne (phys tmpl)) by done. rewrite <- (a9 pd i Hpd Hi). apply Hne.
    destruct Hpd as [Hpd| ->]; [by apply Hdir, a4|done].
  - split; [|done]. destruct Hf as [x Ex]. destruct (decide (phys fin = q)) as [E|Hn].
    + rewrite E in *. destruct (Hsome _ _ Ex) as (x' & Ex' & _). eauto.
    + exists x. by rewrite Hne.
  - intros a Ha. destruct (a12 a Ha) as (H1 & d & e & Ed & Hd & Ee & H2 & H3 & H4). split; [done|]. exists d, e.
    rewrite (Hne (phys tmpl)) by done. split; [done|]. split; [done|]. split; [|done]. rewrite Hne; [done|].
    destruct Hq as [(t & Ht & ->)| ->]; [by apply H3, (table_page B)|done].
Qed.

(** Entry [i] of a page directory changes, with the blocks of the allocator. *)
Lemma pt_ok_entry B B' pds cur tmpl fin w w' pd i d' t' : pt_ok B pds cur tmpl fin w -> good R B' -> pd ∈ pds -> user_ix i ->
  (forall a, (a, 1%nat) ∈ B -> (a, 1%nat) ∈ B') ->
  (forall pd2 i2 d t, pd2 ∈ pds -> user_ix i2 -> (pd2, i2) <> (pd, i) -> w (phys pd2) i2 = Some d -> present d = true ->
    w (phys (pd_virtual pd2)) i2 = Some t -> (t, 0%nat) ∈ B' /\ (present d' = true -> t <> t')) ->
  (present d' = true -> (t', 0%nat) ∈ B' /\ Z.land d' PAGE_MASK = phys t') -> is_u32 d' -> is_u32 t' ->
  (forall p j, w' p j = if decide (p = phys pd /\ j = i) then Some d' else if decide (p = phys (pd_virtual pd) /\ j = i) then Some t' else w p j) ->
  pt_ok B' pds cur tmpl fin w'.
Proof.
  intros Hok Hg' Hpd Hi HB Hothers Hnew Hd' Ht' Hw. pose proof (po_good _ _ _ _ _ _ Hok) as Hg.
  pose proof (po_pds _ _ _ _ _ _ Hok pd Hpd) as Hin. destruct (dir_pages B pd Hg Hin) as [Hkp Hkv].
  destruct Hok as [a1 a2 a3 a4 [a5 a5'] a6 a7 a8 a9 a10 [a11 a11'] a12].
  assert (forall pd2 j, (pd2, 1%nat) ∈ B -> (pd2, j) <> (pd, i) ->
    w' (phys pd2) j = w (phys pd2) j /\ w' (phys (pd_virtual pd2)) j = w (phys (pd_virtual pd2)) j) as Hsame.
  { intros pd2 j H2 Hne. destruct (dirs_apart B pd pd2 Hg Hin H2) as (H3 & H4 & H5), (dirs_apart B pd2 pd Hg H2 Hin) as (H6 & _).
    rewrite !Hw. split; (rewrite decide_False, decide_False; [done|..]).
    - by intros [E _].
    - intros [E ->]. by rewrite (H4 (eq_sym E)) in Hne.
    - intros [E ->]. by rewrite (H5 (eq_sym E)) in Hne.
    - intros [E _]. by destruct H3. }
  assert (forall p j, p <> phys pd -> p <> phys (pd_virtual pd) -> w' p j = w p j) as Hout by (intros p j Hp Hq; rewrite Hw; rewrite decide_False, decide_False by (by intros [? _]); done).
  assert (w' (phys pd) i = Some d' /\ w' (phys (pd_virtual pd)) i = Some t') as [Ed Et].
  { destruct (dirs_apart B pd pd Hg Hin Hin) as (H3 & _). rewrite !Hw. rewrite decide_True by done. rewrite (decide_False (P := _ = phys pd /\ _)), decide_True by (done || by intros [E _]). done. }
  assert (forall pd2 i2, pd2 ∈ pds -> (pd2, i2) = (pd, i) \/
    (pd2, i2) <> (pd, i) /\ w' (phys pd2) i2 = w (phys pd2) i2 /\ w' (phys (pd_virtual pd2)) i2 = w (phys (pd_virtual pd2)) i2) as Hcase.
  { intros pd2 i2 H2. destruct (decide ((pd2, i2) = (pd, i))); [by left|right]. split; [done|]. by apply Hsame; [apply a4|]. }
  assert (forall j, w' (phys tmpl) j = w (phys tmpl) j) as Htm by (intros j; apply Hsame; [done|by intros [= -> _]]).
  constructor; try done.
  - intros a j Ha Hj. rewrite Hw. destruct (decide _); [eauto|]. destruct (decide _); [eauto|]. by apply a3.
  - intros pd2 H2. by apply HB, a4.
  - split; [by apply HB|done].
  - intros j d. rewrite Htm. apply a6.
  - intros pd2 i2 d H2 Hi2 Hd Hpr. destruct (Hcase pd2 i2 H2) as [[= -> ->]|(Hne & E1 & E2)].
    + assert (d = d') as -> by congruence. exists t'. split; [done|]. by apply Hnew.
    + rewrite E1 in Hd. rewrite E2. destruct (a7 pd2 i2 d H2 Hi2 Hd Hpr) as (t & Et2 & H3 & H4). exists t. split; [done|]. split; [|done].
      by eapply Hothers.
  - intros pd1 i1 d1 pd2 i2 d2 t Hp1 Hi1 Hd1 Hpr1 Hp2 Hi2 Hd2 Hpr2 Ht1 Ht2.
    destruct (Hcase pd1 i1 Hp1) as [[= -> ->]|(Hne1 & E1 & E1')], (Hcase pd2 i2 Hp2) as [[= -> ->]|(Hne2 & E2 & E2')]; [done|..].
    + assert (d1 = d') as -> by congruence. assert (t = t') as -> by congruence. rewrite E2 in Hd2. rewrite E2' in Ht2.
      destruct (Hothers _ _ _ _ Hp2 Hi2 Hne2 Hd2 Hpr2 Ht2) as [_ H]. by destruct (H Hpr1).
    + assert (d2 = d') as -> by congruence. assert (t = t') as -> by congruence. rewrite E1 in Hd1. rewrite E1' in Ht1.
      destruct (Hothers _ _ _ _ Hp1 Hi1 Hne1 Hd1 Hpr1 Ht1) as [_ H]. by destruct (H Hpr2).
    + rewrite E1 in Hd1. rewrite E2 in Hd2. rewrite E1' in Ht1. rewrite E2' in Ht2. by eapply a8.
  - intros pd2 j H2 Hj. rewrite Htm, <- (a9 pd2 j H2 Hj). unfold user_ix in Hi. rewrite Hw. rewrite !decide_False by lia. done.
  - split; [|done]. destruct a11 as [x Ex]. exists x. rewrite Hout; [done|..]; intros E; [by apply (a11' _ Hkp)|by apply (a11' _ Hkv)].
  - intros a Ha. destruct (a12 a Ha) as (H1 & d & e & E1 & H2 & E2 & H3 & H4 & H5). split; [done|]. exists d, e. rewrite Htm.
    split; [done|]. split; [done|]. split; [|done]. rewrite Hout; [done|by apply H4|by apply H4].
Qed.

(** ** The processor's walk *)

(** The walk in terms of the tables the kernel knows. *)
Definition entry_of (o : option Z) : option Z := match o with Some e => if present e then Some e else None | None => None end.

Lemma mmu_table B pds cur tmpl fin w pd v : pt_ok B pds cur tmpl fin w -> pd ∈ pds -> user_addr v ->
  exists d, w (phys pd) (vaddr_to_pdindex v) = Some d /\ is_u32 d /\
    if present d then exists t, w (phys (pd_virtual pd)) (vaddr_to_pdindex v) = Some t /\ (t, 0%nat) ∈ B /\ Z.land d PAGE_MASK = phys t /\
      mmu w (phys pd) v = entry_of (w (phys t) (vaddr_to_ptindex v))
    else mmu w (phys pd) v = None.
Proof.
  intros Hok Hpd Hv. pose proof (user_pdindex v Hv) as Hi. pose proof (po_pds _ _ _ _ _ _ Hok pd Hpd) as Hin.
  destruct (dir_pages B pd (po_good _ _ _ _ _ _ Hok) Hin) as [Hkp Hkv].
  destruct (po_mem _ _ _ _ _ _ Hok pd (vaddr_to_pdindex v) Hkp ltac:(unfold user_ix in Hi; lia)) as (d & Ed & Hd).
  exists d. split; [done|]. split; [done|]. unfold mmu. rewrite Ed. destruct (present d) eqn:Epr; [|done].
  destruct (po_tab _ _ _ _ _ _ Hok pd _ d Hpd Hi Ed Epr) as (t & Et & Ht & Em). exists t. by rewrite Em.
Qed.
End inv.
