(* ===== verification/PagetableRun.v ===== *)
(** * Page tables: the operations

    The operations of Pagetable.v keep the invariant of PagetableSpec.v and change
    the processor's translations as they should, for every page allocator with
    the laws [PageLaws]. *)

From S2P Require Import Prelude Page Slab Vmmap Pagetable PagetableSpec.

Section run.
Context {P : Type} `{PageLaws P}.
Variables (koff : Z) (R : list (Z * Z)).

Abbreviation phys := (phys koff).
Abbreviation K := (M (pts P)).
Abbreviation wd s := (pword (mem s)).

Implicit Types s : pts P.

(** What an operation on page tables leaves alone. *)
Definition same_regs s s' : Prop :=
  current_pagedir s' = current_pagedir s /\ template_pagedir s' = template_pagedir s /\ final_page s' = final_page s /\
  phys_map_count s' = phys_map_count s /\ cr3 s' = cr3 s.

Definition ptinv (B : gset (Z * nat)) (pds : list Z) s : Prop :=
  pl_owns R B (palloc s) /\ pt_ok koff R B pds (current_pagedir s) (template_pagedir s) (final_page s) (wd s).

(** ** Words of memory *)

Lemma ld_word_eq v i x s : wd s (phys v) i = Some x -> ld_word koff v i s = Ret (x, s).
Proof. intros E. unfold ld_word, rd_phys, bind, gets. by rewrite E. Qed.

Lemma pword_alter m p i x y p' i' : pword m p i = Some x ->
  pword (alter (fun l => <[Z.to_nat i := y]> l) p m) p' i' = upd p i y (pword m) p' i'.
Proof.
  intros E. unfold upd. destruct (decide (p' = p /\ i' = i)) as [[-> ->]|Hne].
  - unfold pword in *. rewrite lookup_alter_eq. destruct (m !! p) as [l|]; [|done]. simpl in *. destruct (0 <=? i); [|done].
    apply list_lookup_insert_eq. by eapply lookup_lt_Some.
  - unfold pword in *. destruct (decide (p' = p)) as [->|Hp]; [|by rewrite lookup_alter_ne].
    rewrite lookup_alter_eq. destruct (m !! p) as [l|]; [|done]. simpl in *.
    destruct (Z.leb_spec 0 i); [|done]. destruct (Z.leb_spec 0 i'); [|done]. apply list_lookup_insert_ne. intros E'. apply Hne. split; [done|lia].
Qed.

Lemma st_word_eq v i x y s : wd s (phys v) i = Some x -> exists s', st_word koff v i y s = Ret (tt, s') /\
  (forall p j, wd s' p j = upd (phys v) i y (wd s) p j) /\ same_regs s s' /\ palloc s' = palloc s.
Proof.
  intros E. eexists. unfold st_word, wr_phys. rewrite (bind_eq _ _ _ _ _ (ld_word_eq _ _ _ _ E)). split; [done|]. split; [|done].
  intros p j. cbn. by apply pword_alter with x.
Qed.

Lemma zero_eq v i n s : (forall j, 0 <= j < 1024 -> is_Some (wd s (phys v) j)) -> 0 <= i -> 0 <= n -> i + n <= 1024 ->
  exists s', zero_words koff v i n s = Ret (tt, s') /\ (forall p j, wd s' p j = zeroed (phys v) i n (wd s) p j) /\
    same_regs s s' /\ palloc s' = palloc s.
Proof.
  intros Hall Hi Hn Hle. unfold zero_words. rewrite bind_gets.
  destruct (mem s !! phys v) as [l|] eqn:El; [|destruct (Hall 0 ltac:(lia)) as [x Hx]; unfold pword in Hx; by rewrite El in Hx].
  assert (1024 <= length l)%nat as Hlen.
  { destruct (Hall 1023 ltac:(lia)) as [x Hx]. unfold pword in Hx. rewrite El in Hx. simpl in Hx. apply lookup_lt_Some in Hx. lia. }
  rewrite bind_deref. rewrite (proj2 (Z.leb_le 0 i)), (proj2 (Z.leb_le 0 n)), (proj2 (Z.leb_le _ _)) by lia. cbn [andb].
  eexists. split; [done|]. split; [|done]. intros p j. cbn. unfold pword, zeroed. destruct (decide (p = phys v)) as [->|Hp].
  - rewrite lookup_insert_eq, El. simpl. destruct (Z.leb_spec 0 j); [|by rewrite decide_False by lia].
    destruct (decide (phys v = phys v /\ i <= j < i + n)) as [[_ Hj]|Hj].
    + rewrite lookup_app_r by (rewrite length_take; lia). rewrite length_take, lookup_app_l by (rewrite length_replicate; lia). apply lookup_replicate_2. lia.
    + destruct (decide (j < i)).
      * rewrite lookup_app_l by (rewrite length_take; lia). apply lookup_take_lt. lia.
      * rewrite lookup_app_r by (rewrite length_take; lia). rewrite length_take, lookup_app_r by (rewrite length_replicate; lia).
        rewrite length_replicate, lookup_drop. f_equal. lia.
  - rewrite lookup_insert_ne by done. by rewrite decide_False by naive_solver.
Qed.

Lemma copy_page_eq dst src s : (forall j, 0 <= j < 1024 -> is_Some (wd s (phys dst) j)) -> (forall j, 0 <= j < 1024 -> is_Some (wd s (phys src) j)) ->
  exists s', copy_page koff dst src s = Ret (tt, s') /\ same_regs s s' /\ palloc s' = palloc s /\
    forall p j, wd s' p j = if decide (p = phys dst /\ 0 <= j < 1024) then wd s (phys src) j else wd s p j.
Proof.
  intros Hd Hs. unfold copy_page. rewrite bind_gets.
  assert (forall q, (forall j, 0 <= j < 1024 -> is_Some (wd s q j)) -> exists l, mem s !! q = Some l /\ (1024 <= length l)%nat) as Hpage.
  { intros q Hq. destruct (Hq 1023 ltac:(lia)) as [x Hx]. unfold pword in Hx. destruct (mem s !! q) as [l|]; [|done]. simpl in Hx.
    exists l. split; [done|]. apply lookup_lt_Some in Hx. lia. }
  destruct (Hpage _ Hd) as (ld & Ed & Hld), (Hpage _ Hs) as (ls & Es & Hls). rewrite Ed, bind_deref, Es, bind_deref.
  rewrite (proj2 (Nat.leb_le _ _) Hld), (proj2 (Nat.leb_le _ _) Hls). cbn [andb]. eexists. split; [done|]. split; [done|]. split; [done|].
  intros p j. cbn. unfold pword. destruct (decide (p = phys dst)) as [->|Hne].
  - rewrite lookup_insert_eq, Ed, Es. simpl. destruct (Z.leb_spec 0 j); [|by rewrite decide_False by lia].
    destruct (decide (j < 1024)).
    + rewrite decide_True by lia. rewrite lookup_app_l by (rewrite length_take; lia). apply lookup_take_lt. lia.
    + rewrite decide_False by lia. rewrite lookup_app_r by (rewrite length_take; lia). rewrite length_take, lookup_drop. f_equal. lia.
  - rewrite lookup_insert_ne by done. by rewrite decide_False by (by intros [? _]).
Qed.

(** ** Blocks *)

Lemma owns_good B p : pl_owns R B p -> good R B.
Proof.
  intros Ho. split.
  - intros a o k Hin Hk. destruct (pl_range R B p a o Ho Hin) as (_ & Ha & Hm & Hb & lo & hi & HR & Hlo & Hhi). unfold bytes_of, PAGE_SIZE in *.
    split; [dlia|]. split; [unfold two32 in *; nia|]. exists lo, hi. split; [done|]. nia.
  - intros a o b q k l Ha Hb Hk Hl E. destruct (pl_apart R B p a o b q Ho Ha Hb) as [|Hap]; [done|]. unfold apart, bytes_of, PAGE_SIZE in Hap. nia.
Qed.

Lemma pinv_page B pds s a i : ptinv B pds s -> kpage R a -> 0 <= i < 1024 -> exists x, wd s (phys a) i = Some x /\ is_u32 x.
Proof. intros [_ Hok] Ha Hi. exact (po_mem _ _ _ _ _ _ _ _ Hok a i Ha Hi). Qed.

(** ** Physical addresses *)

Lemma mask_mask d : Z.land (Z.land d PAGE_MASK) PAGE_MASK = Z.land d PAGE_MASK.
Proof. by rewrite <- Z.land_assoc, Z.land_diag. Qed.

Lemma pinv_final B pds s s' x : ptinv B pds s -> is_u32 x -> (forall p i, wd s' p i = upd (phys (final_page s)) 1023 x (wd s) p i) ->
  same_regs s s' -> palloc s' = palloc s -> ptinv B pds s'.
Proof.
  intros [Ho Hok] Hx Hw (E1 & E2 & E3 & _) E4. split; [by rewrite E4|]. rewrite E1, E2, E3.
  eapply pt_ok_table; [exact Hok|by right|..].
  - intros p i Hne. rewrite Hw. unfold upd. by rewrite decide_False by (by intros [? _]).
  - intros i y Hy. rewrite Hw. unfold upd. destruct (decide _) as [[_ ->]|]; eauto.
Qed.

(** A word of any page, read through the last entry of [final_page]. *)
Lemma window_eq s d i e x : wd s (phys (final_page s)) 1023 = Some x -> is_u32 d -> wd s (Z.land d PAGE_MASK) i = Some e -> Z.land d PAGE_MASK <> phys (final_page s) ->
  exists s' v, (forall A (k : Z -> K A), (pt_phys_tmp_map koff (Z.land d PAGE_MASK) ;;; let! r := rd_window koff i in k r) s = k e s') /\ is_u32 v /\
    (forall p j, wd s' p j = upd (phys (final_page s)) 1023 v (wd s) p j) /\ same_regs s s' /\ palloc s' = palloc s.
Proof.
  intros Ex Hd Ee Hfin. set (v := Z.lor (Z.lor (Z.land d PAGE_MASK) PT_PRESENT) PT_WRITE).
  destruct (st_word_eq (final_page s) 1023 x v s Ex) as (s1 & E1 & Hw1 & Hr1 & Hp1). pose proof Hr1 as (_ & _ & Hf1 & _).
  assert (is_u32 (Z.land d PAGE_MASK) /\ Z.land d PAGE_MASK mod 4096 = 0) as [Hm1 Hm2].
  { rewrite land_mask by done. unfold is_u32, two32 in *. split; dlia. }
  assert (is_u32 v) as Hv by (apply lor_u32; [apply lor_u32; [done|]|]; unfold is_u32, two32, PT_PRESENT, PT_WRITE; lia).
  exists (set_flushed (4294963200 :: flushed s1) s1), v. split; [|by repeat (split; [done|])].
  intros A k. assert (pt_phys_tmp_map koff (Z.land d PAGE_MASK) s = Ret (4294963200, set_flushed (4294963200 :: flushed s1) s1)) as Etmp.
  { unfold pt_phys_tmp_map. rewrite bind_assert by (unfold PAGE_ALIGNED, PAGE_SIZE; rewrite u32_small by done; by apply Z.eqb_eq).
    rewrite bind_gets, (bind_eq _ _ _ _ _ E1). done. }
  rewrite (bind_eq _ _ _ _ _ Etmp). unfold rd_window. rewrite bind_bind, bind_gets. cbn [final_page set_flushed]. rewrite Hf1, bind_bind.
  rewrite (bind_eq _ _ _ v (set_flushed (4294963200 :: flushed s1) s1)).
  2:{ apply ld_word_eq. cbn. rewrite Hw1. unfold upd. by rewrite decide_True. }
  assert (Z.land v PAGE_MASK = Z.land d PAGE_MASK) as -> by (unfold v, PT_PRESENT, PT_WRITE; rewrite !mask_lor by lia; apply mask_mask).
  unfold rd_phys. rewrite bind_bind, bind_gets. cbn [mem set_flushed]. rewrite Hw1. unfold upd. rewrite decide_False by (by intros [? _]).
  by rewrite Ee, bind_deref.
Qed.

(** The physical address of a page the current page directory maps. *)
Lemma virt_to_phys_raw s a d e x : wd s (phys (current_pagedir s)) (vaddr_to_pdindex a) = Some d -> wd s (phys (final_page s)) 1023 = Some x -> is_u32 d ->
  wd s (Z.land d PAGE_MASK) (vaddr_to_ptindex a) = Some e -> Z.land d PAGE_MASK <> phys (final_page s) -> Z.land e PAGE_MASK = phys a ->
  is_u32 (phys a) -> a mod 4096 = 0 -> 0 <= a ->
  exists s' v, pt_virt_to_phys koff a s = Ret (phys a, s') /\ is_u32 v /\ (forall p j, wd s' p j = upd (phys (final_page s)) 1023 v (wd s) p j) /\
    same_regs s s' /\ palloc s' = palloc s.
Proof.
  intros Ecur Ex Hd Ee Hfin Em Hu Ha Ha0. destruct (window_eq s d _ e x Ex Hd Ee Hfin) as (s' & v & Ek & Hv & Hrest). exists s', v. split; [|done].
  unfold pt_virt_to_phys. rewrite bind_gets, (bind_eq _ _ _ _ _ (ld_word_eq _ _ _ _ Ecur)), Ek. unfold ret. rewrite Em. unfold vaddr_to_offset.
  rewrite land_low, Ha, Z.add_0_r by lia. by rewrite u32_small.
Qed.

Lemma virt_to_phys_eq B pds s a : ptinv B pds s -> kpage R a -> exists s', pt_virt_to_phys koff a s = Ret (phys a, s') /\
  ptinv B pds s' /\ same_regs s s' /\ palloc s' = palloc s /\ (forall p i, p <> phys (final_page s) -> wd s' p i = wd s p i).
Proof.
  intros Hinv Ha. pose proof Hinv as [_ Hok]. destruct (po_kmap _ _ _ _ _ _ _ _ Hok a Ha) as (Hix & d & e & Ed & Hd & Ee & Em & _ & Hfin).
  destruct (po_fin _ _ _ _ _ _ _ _ Hok) as [[x Ex] _].
  pose proof (po_kern _ _ _ _ _ _ _ _ Hok (current_pagedir s) _ (or_intror eq_refl) Hix) as Ecur. rewrite Ed in Ecur.
  destruct (phys_aligned _ _ _ _ _ _ _ _ a Hok Ha) as [_ Hu]. destruct Ha as (Ham & Har & _).
  destruct (virt_to_phys_raw s a d e x Ecur Ex Hd Ee Hfin Em Hu Ham ltac:(lia)) as (s' & v & E & Hv & Hw & Hr & Hp).
  exists s'. split; [done|]. split; [by eapply pinv_final|]. split; [done|]. split; [done|].
  intros p i Hne. rewrite Hw. unfold upd. by rewrite decide_False by (by intros [? _]).
Qed.

(** ** A page table for an entry *)

Lemma pt_ok_mono B B' pds cur tmpl fin w : pt_ok koff R B pds cur tmpl fin w -> good R B' -> B ⊆ B' -> pt_ok koff R B' pds cur tmpl fin w.
Proof.
  intros [a1 a2 a3 a4 a5 a6 a7 a8 a9 a10 a11 a12] Hg Hsub. constructor; try done.
  - intros pd Hpd. by apply Hsub, a4.
  - split; [by apply Hsub, a5|by apply a5].
  - intros pd i d Hpd Hi Hd Hpr. destruct (a7 pd i d Hpd Hi Hd Hpr) as (t & Et & Ht & Em). exists t. split; [done|]. split; [by apply Hsub|done].
Qed.

(** The page of a table changes. *)
Lemma pinv_table B pds s s' t : ptinv B pds s -> (t, 0%nat) ∈ B -> (forall p i, p <> phys t -> wd s' p i = wd s p i) ->
  (forall i x, wd s (phys t) i = Some x -> exists x', wd s' (phys t) i = Some x' /\ (is_u32 x -> is_u32 x')) ->
  same_regs s s' -> palloc s' = palloc s -> ptinv B pds s'.
Proof.
  intros [Ho Hok] Ht Hne Hs (E1 & E2 & E3 & _) E4. split; [by rewrite E4|]. rewrite E1, E2, E3.
  apply (pt_ok_table koff R B pds _ _ _ (wd s) _ (phys t)); [exact Hok|left; by exists t|exact Hne|exact Hs].
Qed.

(** The walk depends on an entry and on a word of its table. *)
Lemma mmu_same (w w' : words) dir v : w' dir (vaddr_to_pdindex v) = w dir (vaddr_to_pdindex v) ->
  (forall d, w dir (vaddr_to_pdindex v) = Some d -> present d = true -> w' (Z.land d PAGE_MASK) (vaddr_to_ptindex v) = w (Z.land d PAGE_MASK) (vaddr_to_ptindex v)) ->
  mmu w' dir v = mmu w dir v.
Proof. intros E1 E2. unfold mmu. rewrite E1. destruct (w dir _) as [d|]; [|done]. destruct (present d) eqn:Ep; [|done]. by rewrite E2. Qed.

(** Words outside the directories' own pages and outside [q] are all that counts for
    a table. *)
Lemma dir_table B pds s pd i d : ptinv B pds s -> pd ∈ pds -> user_ix i -> wd s (phys pd) i = Some d -> present d = true ->
  exists t, wd s (phys (pd_virtual pd)) i = Some t /\ (t, 0%nat) ∈ B /\ Z.land d PAGE_MASK = phys t /\
    phys t <> phys (final_page s) /\ (forall pd', pd' ∈ pds -> phys t <> phys pd' /\ phys t <> phys (pd_virtual pd')).
Proof.
  intros [Ho Hok] Hpd Hi Hd Hpr. destruct (po_tab _ _ _ _ _ _ _ _ Hok pd i d Hpd Hi Hd Hpr) as (t & Et & Ht & Em).
  pose proof (po_good _ _ _ _ _ _ _ _ Hok) as Hg. exists t. split; [done|]. split; [done|]. split; [done|]. split.
  - apply (po_fin _ _ _ _ _ _ _ _ Hok). by eapply table_page.
  - intros pd' Hpd'. eapply table_not_dir; [exact Hg|exact Ht|]. by apply (po_pds _ _ _ _ _ _ _ _ Hok).
Qed.

(** Directories in use are pages of the allocator with two different pages. *)
Lemma dir_facts B pds s pd : ptinv B pds s -> pd ∈ pds -> kpage R pd /\ kpage R (pd_virtual pd) /\ phys pd <> phys (pd_virtual pd) /\
  phys pd <> phys (final_page s) /\ phys (pd_virtual pd) <> phys (final_page s).
Proof.
  intros [Ho Hok] Hpd. pose proof (po_good _ _ _ _ _ _ _ _ Hok) as Hg. pose proof (po_pds _ _ _ _ _ _ _ _ Hok pd Hpd) as Hin.
  destruct (dir_pages R B pd Hg Hin) as [H1 H2]. destruct (dirs_apart koff R B pd pd Hg Hin Hin) as [H3 _].
  destruct (po_fin _ _ _ _ _ _ _ _ Hok) as [_ Hf]. split; [done|]. split; [done|]. split; [done|]. split; by apply Hf.
Qed.

(** Two words of a directory written, with the blocks that go with them. *)
Lemma pinv_entry B B' pds s s' pd i d' t' : ptinv B pds s -> pl_owns R B' (palloc s') -> pd ∈ pds -> user_ix i ->
  (forall a, (a, 1%nat) ∈ B -> (a, 1%nat) ∈ B') ->
  (forall pd2 i2 d t, pd2 ∈ pds -> user_ix i2 -> (pd2, i2) <> (pd, i) -> wd s (phys pd2) i2 = Some d -> present d = true ->
    wd s (phys (pd_virtual pd2)) i2 = Some t -> (t, 0%nat) ∈ B' /\ (present d' = true -> t <> t')) ->
  (present d' = true -> (t', 0%nat) ∈ B' /\ Z.land d' PAGE_MASK = phys t') -> is_u32 d' -> is_u32 t' ->
  (forall p j, wd s' p j = if decide (p = phys pd /\ j = i) then Some d' else if decide (p = phys (pd_virtual pd) /\ j = i) then Some t' else wd s p j) ->
  same_regs s s' -> ptinv B' pds s'.
Proof.
  intros [Ho Hok] Ho' Hpd Hi HB Hoth Hnew Hd Ht Hw (E1 & E2 & E3 & _). split; [done|]. rewrite E1, E2, E3.
  eapply (pt_ok_entry koff R B B'); eauto. by eapply owns_good.
Qed.

(** Two writes to a directory. *)
Lemma wr_entry B pds s pd i d' t' : ptinv B pds s -> pd ∈ pds -> user_ix i -> exists s',
  (forall A (k : K A), (st_word koff pd i d' ;;; st_word koff (pd_virtual pd) i t' ;;; k) s = k s') /\
  (forall p j, wd s' p j = if decide (p = phys pd /\ j = i) then Some d' else if decide (p = phys (pd_virtual pd) /\ j = i) then Some t' else wd s p j) /\
  same_regs s s' /\ palloc s' = palloc s.
Proof.
  intros Hinv Hpd Hi. destruct (dir_facts _ _ _ _ Hinv Hpd) as (Hk & Hkv & Hne & _).
  destruct (pinv_page _ _ _ _ i Hinv Hk ltac:(unfold user_ix in Hi; lia)) as (x & Ex & _).
  destruct (pinv_page _ _ _ _ i Hinv Hkv ltac:(unfold user_ix in Hi; lia)) as (y & Ey & _).
  destruct (st_word_eq pd i x d' s Ex) as (s1 & E1 & Hw1 & Hr1 & Hp1).
  destruct (st_word_eq (pd_virtual pd) i y t' s1) as (s2 & E2 & Hw2 & Hr2 & Hp2).
  { rewrite Hw1. unfold upd. rewrite decide_False; [done|]. intros [E _]. by rewrite E in Hne. }
  exists s2. split; [intros A k; by rewrite (bind_eq _ _ _ _ _ E1), (bind_eq _ _ _ _ _ E2)|]. split.
  - intros p j. rewrite Hw2. unfold upd. rewrite Hw1. unfold upd. destruct (decide (p = phys pd /\ j = i)) as [[-> ->]|]; [|done].
    rewrite decide_False; [done|]. by intros [? _].
  - split; [|congruence]. destruct Hr1 as (A1 & A2 & A3 & A4 & A5), Hr2 as (B1 & B2 & B3 & B4 & B5). repeat split; congruence.
Qed.

Lemma table_alloc_eq B pds s : ptinv B pds s ->
  table_alloc s = Ret (None, s) \/
  exists t s0, table_alloc s = Ret (Some t, s0) /\ ((t, 0%nat) ∉ B) /\ ptinv ({[(t, 0%nat)]} ∪ B) pds s0 /\ mem s0 = mem s /\ same_regs s s0.
Proof.
  intros [Ho Hok]. unfold table_alloc, on_palloc. change 1 with (npages_of 0).
  destruct (pl_alloc R B (palloc s) 0 Ho) as [(t & p' & E & Hn & Ho')|E]; [unfold PAGE_NSIZES; lia|..].
  - right. exists t, (set_palloc p' s). rewrite E. split; [done|]. split; [done|]. split; [|done]. split; [done|].
    eapply pt_ok_mono; [exact Hok|by eapply owns_good|set_solver].
  - left. rewrite E. by destruct s.
Qed.

(** The entry and its table are there, and no translation changed. *)
Definition table_ready (B : gset (Z * nat)) (pds : list Z) s s' (pd i t : Z) : Prop :=
  ptinv B pds s' /\ same_regs s s' /\ (exists d, wd s' (phys pd) i = Some d /\ present d = true /\ wd s' (phys (pd_virtual pd)) i = Some t) /\
  forall pd' v, pd' ∈ pds -> user_addr v -> mmu (wd s') (phys pd') v = mmu (wd s) (phys pd') v.

Lemma map_table_old B pds s pd i d f : ptinv B pds s -> pd ∈ pds -> user_ix i -> 0 <= f < 4096 -> wd s (phys pd) i = Some d -> present d = true ->
  exists t s', map_table koff pd i f s = Ret (Some t, s') /\ table_ready B pds s s' pd i t.
Proof.
  intros Hinv Hpd Hi Hf Ed Hpr. destruct (dir_table _ _ _ _ _ _ Hinv Hpd Hi Ed Hpr) as (t & Et & Ht & Em & Hfin & Hdirs).
  destruct (dir_facts _ _ _ _ Hinv Hpd) as (Hk & Hkv & Hne & _).
  destruct (pinv_page _ _ _ _ i Hinv Hk ltac:(unfold user_ix in Hi; lia)) as (d0 & Ed0 & Hu). assert (d0 = d) as -> by congruence.
  destruct (pinv_page _ _ _ _ i Hinv Hkv ltac:(unfold user_ix in Hi; lia)) as (t0 & Et0 & Htu). assert (t0 = t) as -> by congruence.
  destruct (st_word_eq pd i d (Z.lor d f) s Ed) as (s' & E & Hw & Hr & Hp).
  assert (forall p j, wd s' p j = if decide (p = phys pd /\ j = i) then Some (Z.lor d f) else if decide (p = phys (pd_virtual pd) /\ j = i) then Some t else wd s p j) as Hw'.
  { intros p j. rewrite Hw. unfold upd. destruct (decide (p = phys pd /\ j = i)); [done|]. by destruct (decide (p = phys (pd_virtual pd) /\ j = i)) as [[-> ->]|]. }
  assert (wd s' (phys (pd_virtual pd)) i = Some t) as Et'.
  { rewrite Hw. unfold upd. rewrite decide_False; [done|]. intros [E' _]. by rewrite E' in Hne. }
  assert (present (Z.lor d f) = true) as Hpr' by (by rewrite present_lor, Hpr).
  exists t, s'. split.
  { unfold map_table. rewrite (bind_eq _ _ _ _ _ (ld_word_eq _ _ _ _ Ed)), Hpr. cbn [negb]. rewrite (bind_eq _ _ _ _ _ E), (bind_eq _ _ _ _ _ (ld_word_eq _ _ _ _ Et')). done. }
  split; [|split; [done|split]].
  - eapply (pinv_entry B B pds s s' pd i (Z.lor d f) t); try done.
    + destruct Hinv as [Ho _]. by rewrite Hp.
    + intros pd2 i2 d2 t2 Hp2 Hi2 Hne2 Hd2 Hpr2 Ht2. destruct (dir_table _ _ _ _ _ _ Hinv Hp2 Hi2 Hd2 Hpr2) as (t2' & Et2 & Hin2 & _).
      assert (t2' = t2) as -> by congruence. split; [done|]. intros _ ->. apply Hne2. destruct Hinv as [_ Hok].
      destruct (po_inj _ _ _ _ _ _ _ _ Hok pd2 i2 d2 pd i d t) as [-> ->]; done.
    + intros _. split; [done|]. by rewrite mask_lor.
    + apply lor_u32; [done|]. unfold is_u32, two32. lia.
  - exists (Z.lor d f). split; [|done]. rewrite Hw. unfold upd. by rewrite decide_True.
  - intros pd' v Hp' Hv. pose proof (user_pdindex v Hv) as Hiv.
    destruct (decide (phys pd' = phys pd /\ vaddr_to_pdindex v = i)) as [[E1 E2]|Hn].
    + apply phys_inj in E1. subst. unfold mmu. rewrite Hw. unfold upd. rewrite decide_True by done. rewrite Hpr', Ed, Hpr, mask_lor by done.
      rewrite Hw. unfold upd. rewrite decide_False; [done|]. rewrite Em. intros [E1 _]. by destruct (Hdirs pd Hpd) as [[] _].
    + apply mmu_same; [rewrite Hw; unfold upd; by rewrite decide_False|]. intros d2 Hd2 Hpr2. rewrite Hw. unfold upd. rewrite decide_False; [done|].
      destruct (dir_table _ _ _ _ _ _ Hinv Hp' Hiv Hd2 Hpr2) as (t2 & _ & _ & -> & _ & Hd'). intros [E1 _]. by destruct (Hd' pd Hpd) as [[] _].
Qed.

(** A fresh table: none of the tables in use. *)
Lemma fresh_table B pds s t pd i d : ptinv B pds s -> (t, 0%nat) ∉ B -> pd ∈ pds -> user_ix i -> wd s (phys pd) i = Some d -> present d = true ->
  wd s (phys (pd_virtual pd)) i <> Some t /\ Z.land d PAGE_MASK <> phys t.
Proof.
  intros Hinv Hn Hpd Hi Hd Hpr. destruct (dir_table _ _ _ _ _ _ Hinv Hpd Hi Hd Hpr) as (t' & Et & Ht & -> & _).
  split; [intros E; rewrite Et in E; by injection E as ->|]. intros E%phys_inj. by subst.
Qed.

(** A new page, cleared, and its physical address. *)
Lemma new_table B pds s f : ptinv B pds s -> 0 <= f < 4096 ->
  table_alloc s = Ret (None, s) \/
  exists t s0 s2, table_alloc s = Ret (Some t, s0) /\
    (forall A (k : Z -> K A), (KASSERT (is_flags f) ;;; zero_words koff t 0 PT_ENTRY_COUNT ;;; let! p := pt_virt_to_phys koff t in k p) s0 = k (phys t) s2) /\
    ((t, 0%nat) ∉ B) /\ kpage R t /\ ptinv ({[(t, 0%nat)]} ∪ B) pds s2 /\ same_regs s s2 /\
    (forall j, 0 <= j < 1024 -> wd s2 (phys t) j = Some 0) /\ (forall p j, p <> phys t -> p <> phys (final_page s) -> wd s2 p j = wd s p j).
Proof.
  intros Hinv Hf. destruct (table_alloc_eq B pds s Hinv) as [E|(t & s0 & E & Hn & Hinv0 & Hm0 & Hr0)]; [by left|right].
  set (B' := {[(t, 0%nat)]} ∪ B) in *. assert ((t, 0%nat) ∈ B') as HtB by set_solver.
  assert (kpage R t) as Hkt by (eapply table_page; [apply (po_good _ _ _ _ _ _ _ _ (proj2 Hinv0))|done]).
  destruct (zero_eq t 0 1024 s0) as (s1 & E1 & Hw1 & Hr1 & Hp1); [|lia|lia|lia|].
  { intros j Hj. destruct (pinv_page _ _ _ _ j Hinv0 Hkt Hj) as (x & Ex & _). eauto. }
  assert (ptinv B' pds s1) as Hinv1.
  { eapply (pinv_table B' pds s0 s1 t); try done.
    - intros p j Hne. rewrite Hw1. unfold zeroed. by rewrite decide_False by (by intros [? _]).
    - intros j x Hx. rewrite Hw1. unfold zeroed. destruct (decide _); [by exists 0|eauto]. }
  destruct (virt_to_phys_eq B' pds s1 t Hinv1 Hkt) as (s2 & E2 & Hinv2 & Hr2 & Hp2 & Hw2).
  assert (final_page s1 = final_page s) as Hfin by (destruct Hr0 as (_ & _ & A3 & _), Hr1 as (_ & _ & B3 & _); congruence).
  exists t, s0, s2. split; [done|]. split.
  { intros A k. rewrite bind_assert by (by apply is_flags_iff). by rewrite (bind_eq _ _ _ _ _ E1), (bind_eq _ _ _ _ _ E2). }
  split; [done|]. split; [done|]. split; [done|]. split.
  { destruct Hr0 as (A1 & A2 & A3 & A4 & A5), Hr1 as (B1 & B2 & B3 & B4 & B5), Hr2 as (C1 & C2 & C3 & C4 & C5). repeat split; congruence. }
  destruct (po_fin _ _ _ _ _ _ _ _ (proj2 Hinv)) as [_ Hf']. specialize (Hf' t Hkt). split.
  - intros j Hj. rewrite Hw2 by (by rewrite Hfin). rewrite Hw1. unfold zeroed. by rewrite decide_True by lia.
  - intros p j Hp Hq. rewrite Hw2 by (by rewrite Hfin). rewrite Hw1. unfold zeroed. rewrite decide_False by (by intros [? _]). by rewrite Hm0.
Qed.

Lemma map_table_new B pds s pd i d f : ptinv B pds s -> pd ∈ pds -> user_ix i -> 0 <= f < 4096 -> present f = true ->
  wd s (phys pd) i = Some d -> present d = false ->
  map_table koff pd i f s = Ret (None, s) \/
  exists t s', map_table koff pd i f s = Ret (Some t, s') /\ table_ready ({[(t, 0%nat)]} ∪ B) pds s s' pd i t.
Proof.
  intros Hinv Hpd Hi Hf Hfp Ed Hpr. unfold map_table. rewrite (bind_eq _ _ _ _ _ (ld_word_eq _ _ _ _ Ed)), Hpr. cbn [negb].
  destruct (new_table B pds s f Hinv Hf) as [E|(t & s0 & s2 & E & Ek & Hn & Hkt & Hinv2 & Hr2 & Hzero & Hout)]; [left; by rewrite (bind_eq _ _ _ _ _ E)|right].
  rewrite (bind_eq _ _ _ _ _ E), Ek. set (B' := {[(t, 0%nat)]} ∪ B) in *. assert ((t, 0%nat) ∈ B') as HtB by set_solver.
  destruct (wr_entry B' pds s2 pd i (Z.lor (phys t) f) t Hinv2 Hpd Hi) as (s3 & E3 & Hw3 & Hr3 & Hp3). rewrite E3. exists t, s3. split; [done|].
  destruct (phys_aligned _ _ _ _ _ _ _ _ t (proj2 Hinv2) Hkt) as [Hal Hu].
  assert (present (Z.lor (phys t) f) = true) as Hpr' by (rewrite present_lor, Hfp; apply orb_true_r).
  assert (Z.land (Z.lor (phys t) f) PAGE_MASK = phys t) as Hmask by (rewrite mask_lor, mask_aligned; done).
  assert (forall pd2, pd2 ∈ pds -> phys t <> phys pd2 /\ phys t <> phys (pd_virtual pd2)) as Hnd.
  { intros pd2 H2. exact (table_not_dir koff R B' t pd2 (po_good _ _ _ _ _ _ _ _ (proj2 Hinv2)) HtB (po_pds _ _ _ _ _ _ _ _ (proj2 Hinv2) pd2 H2)). }
  assert (forall pd2 j, pd2 ∈ pds -> wd s2 (phys pd2) j = wd s (phys pd2) j /\ wd s2 (phys (pd_virtual pd2)) j = wd s (phys (pd_virtual pd2)) j) as Hdir.
  { intros pd2 j H2. destruct (dir_facts _ _ _ _ Hinv H2) as (_ & _ & _ & H4 & H5), (Hnd pd2 H2). split; apply Hout; congruence. }
  split; [|split; [|split]].
  - eapply (pinv_entry B' B' pds s2 s3 pd i (Z.lor (phys t) f) t); try done; [rewrite Hp3; apply Hinv2| |..].
    + intros pd2 i2 d2 t2 Hp2' Hi2 Hne2 Hd2 Hpr2 Ht2. destruct (dir_table _ _ _ _ _ _ Hinv2 Hp2' Hi2 Hd2 Hpr2) as (t2' & Et2 & Hin2 & _).
      assert (t2' = t2) as -> by congruence. split; [done|]. intros _ ->. destruct (Hdir pd2 i2 Hp2') as [H1 H2]. rewrite H1 in Hd2. rewrite H2 in Ht2.
      by destruct (fresh_table _ _ _ t _ _ _ Hinv Hn Hp2' Hi2 Hd2 Hpr2).
    + apply lor_u32; [done|]. unfold is_u32, two32. lia.
    + destruct Hkt as (_ & Hkt & _). unfold is_u32. lia.
  - destruct Hr2 as (C1 & C2 & C3 & C4 & C5), Hr3 as (D1 & D2 & D3 & D4 & D5). repeat split; congruence.
  - exists (Z.lor (phys t) f). rewrite !Hw3. rewrite decide_True by done. split; [done|]. split; [done|].
    destruct (dir_facts _ _ _ _ Hinv Hpd) as (_ & _ & H3 & _). rewrite decide_False by (intros [E' _]; by rewrite E' in H3). by rewrite decide_True.
  - intros pd' v Hp' Hv. pose proof (user_pdindex v Hv) as Hiv.
    destruct (decide (phys pd' = phys pd /\ vaddr_to_pdindex v = i)) as [[E1 E2]|Hne].
    + apply phys_inj in E1. subst pd'. unfold mmu. rewrite E2, Ed, Hpr, Hw3, decide_True, Hpr', Hmask by done. rewrite Hw3.
      destruct (Hnd pd Hpd). rewrite !decide_False by (by intros [? _]). by rewrite Hzero by apply ptindex_range.
    + assert (wd s3 (phys pd') (vaddr_to_pdindex v) = wd s (phys pd') (vaddr_to_pdindex v)) as Esame.
      { rewrite Hw3, decide_False by done. rewrite decide_False; [by apply Hdir|]. intros [E1 _].
        destruct (dirs_apart koff R B' pd' pd (po_good _ _ _ _ _ _ _ _ (proj2 Hinv2))) as [[] _]; try done; by apply (po_pds _ _ _ _ _ _ _ _ (proj2 Hinv2)). }
      apply mmu_same; [done|]. intros d2 Hd2 Hpr2. destruct (dir_table _ _ _ _ _ _ Hinv Hp' Hiv Hd2 Hpr2) as (t2 & _ & _ & Em & Hfin2 & Hd').
      destruct (fresh_table _ _ _ t _ _ _ Hinv Hn Hp' Hiv Hd2 Hpr2) as [_ Hnt]. rewrite Em in *. destruct (Hd' pd Hpd).
      rewrite Hw3, !decide_False by (by intros [? _]). by apply Hout.
Qed.

(** ** Words of a table *)

(** Entry [i] of [pd] leads to the table [t]. *)
Definition tab_at s (pd i t : Z) : Prop :=
  exists d, wd s (phys pd) i = Some d /\ present d = true /\ wd s (phys (pd_virtual pd)) i = Some t.

Lemma same_regs_trans s1 s2 s3 : same_regs s1 s2 -> same_regs s2 s3 -> same_regs s1 s3.
Proof. intros (A1 & A2 & A3 & A4 & A5) (B1 & B2 & B3 & B4 & B5). repeat split; congruence. Qed.

Lemma tab_mmu B pds s pd t v : ptinv B pds s -> pd ∈ pds -> user_addr v -> tab_at s pd (vaddr_to_pdindex v) t ->
  mmu (wd s) (phys pd) v = entry_of (wd s (phys t) (vaddr_to_ptindex v)).
Proof.
  intros [_ Hok] Hpd Hv (d & Ed & Hpr & Et). destruct (mmu_table koff R _ _ _ _ _ _ pd v Hok Hpd Hv) as (d0 & Ed0 & _ & Hm).
  assert (d0 = d) as -> by congruence. rewrite Hpr in Hm. destruct Hm as (t0 & Et0 & _ & _ & Em). by assert (t0 = t) as -> by congruence.
Qed.

(** A table changes: the translations through it change and no others. *)
Lemma table_change B pds s s' pd i t : ptinv B pds s -> pd ∈ pds -> user_ix i -> tab_at s pd i t ->
  (forall p j, p <> phys t -> wd s' p j = wd s p j) ->
  (forall j x, wd s (phys t) j = Some x -> exists x', wd s' (phys t) j = Some x' /\ (is_u32 x -> is_u32 x')) ->
  same_regs s s' -> palloc s' = palloc s ->
  ptinv B pds s' /\ forall pd' v, pd' ∈ pds -> user_addr v ->
    mmu (wd s') (phys pd') v = if decide (pd' = pd /\ vaddr_to_pdindex v = i) then entry_of (wd s' (phys t) (vaddr_to_ptindex v)) else mmu (wd s) (phys pd') v.
Proof.
  intros Hinv Hpd Hi (d & Ed & Hpr & Et) Hout Hin Hr Hp. destruct (dir_table _ _ _ _ _ _ Hinv Hpd Hi Ed Hpr) as (t0 & Et0 & Ht & Em & Hfin & Hdirs).
  assert (t0 = t) as -> by congruence. assert (ptinv B pds s') as Hinv' by (by eapply pinv_table). split; [done|]. intros pd' v Hpd' Hv.
  pose proof (user_pdindex v Hv) as Hiv. destruct (Hdirs pd' Hpd') as [Hn1 Hn2]. destruct (decide _) as [[-> Ei]|Hne].
  - eapply tab_mmu; [done..|]. rewrite Ei. exists d. rewrite !Hout by congruence. done.
  - apply mmu_same; [by apply Hout|]. intros d2 Hd2 Hpr2. apply Hout. intros E.
    destruct (dir_table _ _ _ _ _ _ Hinv Hpd' Hiv Hd2 Hpr2) as (t2 & Et2 & _ & Em2 & _). rewrite Em2 in E. apply phys_inj in E. subst t2.
    apply Hne. destruct Hinv as [_ Hok]. by apply (po_inj _ _ _ _ _ _ _ _ Hok pd' (vaddr_to_pdindex v) d2 pd i d t).
Qed.

(** Where the walk goes: the page and not the address counts. *)
Lemma page_indices v v' : vaddr_to_pdindex v = vaddr_to_pdindex v' /\ vaddr_to_ptindex v = vaddr_to_ptindex v' <-> ADDR_TO_PN v = ADDR_TO_PN v'.
Proof. split; [intros []; by apply indices_inj|]. unfold vaddr_to_pdindex, vaddr_to_ptindex. by intros ->. Qed.

(** One word of a table written. *)
Lemma wr_table B pds s pd t v x : ptinv B pds s -> pd ∈ pds -> user_addr v -> tab_at s pd (vaddr_to_pdindex v) t -> is_u32 x ->
  exists s', st_word koff t (vaddr_to_ptindex v) x s = Ret (tt, s') /\ ptinv B pds s' /\ same_regs s s' /\
    forall pd' v', pd' ∈ pds -> user_addr v' ->
      mmu (wd s') (phys pd') v' = if decide (pd' = pd /\ ADDR_TO_PN v' = ADDR_TO_PN v) then entry_of (Some x) else mmu (wd s) (phys pd') v'.
Proof.
  intros Hinv Hpd Hv Htab Hx. pose proof (user_pdindex v Hv) as Hi. pose proof Htab as (d & Ed & Hpr & Et).
  destruct (dir_table _ _ _ _ _ _ Hinv Hpd Hi Ed Hpr) as (t0 & Et0 & Ht & _). assert (t0 = t) as -> by congruence.
  assert (kpage R t) as Hk by (eapply table_page; [apply (po_good _ _ _ _ _ _ _ _ (proj2 Hinv))|done]).
  destruct (pinv_page _ _ _ _ (vaddr_to_ptindex v) Hinv Hk (ptindex_range v)) as (y & Ey & _).
  destruct (st_word_eq t (vaddr_to_ptindex v) y x s Ey) as (s' & E & Hw & Hr & Hp). exists s'. split; [done|].
  destruct (table_change B pds s s' pd _ t Hinv Hpd Hi Htab) as [Hinv' Hm]; try done.
  { intros p j Hne. rewrite Hw. unfold upd. by rewrite decide_False by (by intros [? _]). }
  { intros j z Hz. rewrite Hw. unfold upd. destruct (decide _); eauto. }
  split; [done|]. split; [done|]. intros pd' v' Hpd' Hv'. rewrite Hm by done. destruct (decide (pd' = pd /\ vaddr_to_pdindex v' = _)) as [[-> Ei]|Hne].
  - rewrite Hw. unfold upd. destruct (decide (ADDR_TO_PN v' = ADDR_TO_PN v)) as [Epn|Hn].
    + rewrite !decide_True; [done|done|]. split; [done|]. by apply page_indices.
    + rewrite !decide_False; [|by intros []|]; [|intros [_ E2]; apply Hn; by apply page_indices].
      symmetry. eapply tab_mmu; [done..|]. by rewrite Ei.
  - rewrite decide_False; [done|]. intros [-> Epn]. apply Hne. split; [done|]. by apply page_indices.
Qed.
End run.
