(* ===== verification/PagetableInit.v ===== *)
(** * Page tables: start of the kernel

    [pt_init] builds the kernel's page directory from the tables of the boot loader
    and gives the rest of memory to the page allocator; [pt_template_init] makes the
    template of all later page directories from it.  After both the invariant
    of PagetableSpec.v holds, so that the theorems of PagetableOps.v apply to
    every page directory created from then on. *)

From S2P Require Import Prelude Page Slab SlabPages Vmmap Pagetable PagetableSpec PagetableRun.

(** ** The template *)

Section template.
Context {P : Type} `{PageLaws P}.
Variables (koff : Z) (R : list (Z * Z)).

Abbreviation phys := (phys koff).
Abbreviation K := (M (pts P)).
Abbreviation wd s := (pword (mem s)).
Abbreviation ptinv := (ptinv koff R).

Implicit Types s : pts P.

(** What [pt_init] leaves: a page directory [cur] outside of the allocator's memory
    that maps all of that memory, nothing for users, and the first
    megabytes through the table [t0]. *)
Record boot_mapped (cur fin t0 : Z) (w : words) : Prop := {
  bm_koff : (0 <= koff /\ koff mod 4096 = 0) /\ forall a, kpage R a -> 0 <= phys a;
  bm_mem a i : kpage R a -> 0 <= i < 1024 -> exists x, w (phys a) i = Some x /\ is_u32 x;
  bm_dir a i : a = cur \/ a = pd_virtual cur \/ a = t0 -> 0 <= i < 1024 -> exists x, w (phys a) i = Some x /\ is_u32 x;
  bm_out a b : a = cur \/ a = pd_virtual cur \/ a = t0 -> kpage R b -> phys a <> phys b;
  bm_t0 : w (phys (pd_virtual cur)) 0 = Some t0 /\ phys t0 <> phys cur /\ phys t0 <> phys (pd_virtual cur) /\ phys t0 <> phys fin;
  bm_user i d : user_ix i -> w (phys cur) i = Some d -> present d = false;
  bm_fin : (exists x, w (phys fin) 1023 = Some x) /\ (forall a, kpage R a -> phys a <> phys fin) /\ phys cur <> phys fin;
  bm_kmap a : kpage R a -> 768 <= vaddr_to_pdindex a < 1024 /\ exists d e,
    w (phys cur) (vaddr_to_pdindex a) = Some d /\ is_u32 d /\ w (Z.land d PAGE_MASK) (vaddr_to_ptindex a) = Some e /\ Z.land e PAGE_MASK = phys a /\
    (forall b, kpage R b -> Z.land d PAGE_MASK <> phys b) /\ Z.land d PAGE_MASK <> phys fin /\ Z.land d PAGE_MASK <> phys t0 }.

(** The template: a copy of [cur] in pages of the allocator. *)
Lemma boot_template B cur fin t0 w w' t : boot_mapped cur fin t0 w -> good R B -> (t, 1%nat) ∈ B ->
  (forall p j, w' p j = if decide (p = phys (pd_virtual t) /\ 0 <= j < 1024) then w (phys (pd_virtual cur)) j
     else if decide (p = phys t /\ 0 <= j < 1024) then w (phys cur) j else if decide (p = phys t0 /\ 0 <= j < 1024) then Some 0 else w p j) ->
  pt_ok koff R B [] cur t fin w'.
Proof.
  intros [b1 b2 b3 b4 (b5 & b6 & b7 & b8) b9 (b10 & b11 & b12) b13] Hg Ht Hw. destruct (dir_pages R B t Hg Ht) as [Hkt Hkv].
  pose proof (dirs_apart koff R B t t Hg Ht Ht) as (Hne & _).
  assert (forall j, 0 <= j < 1024 -> w' (phys t) j = w (phys cur) j) as Hcopy by (intros j Hj; rewrite Hw, decide_False, decide_True by (done || by intros [? _]); done).
  assert (forall p j, p <> phys t0 -> (forall a, kpage R a -> p <> phys a) -> w' p j = w p j) as Hout.
  { intros p j H1 H2. rewrite Hw, !decide_False; [done|..]; intros [E _]; [done|by apply (H2 t)|by apply (H2 (pd_virtual t))]. }
  assert (forall j, w' (phys cur) j = w (phys cur) j) as Hcur by (intros j; apply Hout; [congruence|auto]).
  constructor; try done.
  - intros a i Ha Hi. rewrite Hw. destruct (decide _); [apply b3; auto|]. destruct (decide _); [apply b3; auto|]. destruct (decide _); [by exists 0|by apply b2].
  - intros pd Hpd. by apply not_elem_of_nil in Hpd.
  - split; [done|]. apply not_elem_of_nil.
  - intros i d Hi. rewrite Hcopy by (unfold user_ix in Hi; lia). by apply b9.
  - intros pd i d Hpd. by apply not_elem_of_nil in Hpd.
  - intros pd i d pd' i' d' u Hpd. by apply not_elem_of_nil in Hpd.
  - intros pd i [Hpd| ->] Hi; [by apply not_elem_of_nil in Hpd|]. by rewrite Hcur, Hcopy by lia.
  - right. split; [|done]. intros a Ha. apply b4; auto.
  - split; [|done]. rewrite Hout; [done|congruence|]. intros a Ha. apply not_eq_sym. auto.
  - intros a Ha. destruct (b13 a Ha) as (H1 & d & e & E1 & H2 & E2 & H3 & H4 & H5 & H6). split; [done|]. exists d, e.
    rewrite Hcopy by lia. split; [done|]. split; [done|]. split; [by rewrite Hout|done].
Qed.

(** [pt_template_init] after [pt_init], whatever pages [B] were taken in
    between: the invariant holds, with no page directory in use yet; or there is
    no memory for the template and the kernel stops with a failed assertion. *)
Lemma template_init_ok B s t0 : boot_mapped (current_pagedir s) (final_page s) t0 (wd s) -> pl_owns R B (palloc s) ->
  (pt_template_init koff s = Stop Assert /\ pa_alloc_n 2 (palloc s) = Ret (None, palloc s)) \/
  exists t s', pt_template_init koff s = Ret (tt, s') /\ template_pagedir s' = t /\ pa_alloc_n 2 (palloc s) = Ret (Some t, palloc s') /\ ptinv ({[(t, 1%nat)]} ∪ B) [] s' /\
    current_pagedir s' = current_pagedir s /\ final_page s' = final_page s /\ cr3 s' = cr3 s.
Proof.
  intros Hbm Ho. pose proof Hbm as [b1 b2 b3 b4 (b5 & b6 & b7 & b8) b9 (b10 & b11 & b12) b13]. set (cur := current_pagedir s) in *.
  unfold pt_template_init. rewrite bind_gets, (bind_eq _ _ _ _ _ (ld_word_eq koff _ _ _ _ b5)).
  destruct (zero_eq koff t0 0 1024 s) as (s1 & E1 & Hw1 & (R1 & R2 & R3 & R4 & R5) & Hp1); [|lia..|].
  { intros j Hj. destruct (b3 t0 j) as (x & Ex & _); eauto. }
  rewrite (bind_eq _ _ _ _ _ E1). set (s1' := set_cr3 (cr3 s1) s1). assert (tlb_flush_all s1 = Ret (tt, s1')) as Efl by done. rewrite (bind_eq _ _ _ _ _ Efl).
  destruct (pl_alloc R B (palloc s) 1 Ho) as [(t & p1 & E & Hn & Ho1)|E]; [unfold PAGE_NSIZES; lia|..]; change (npages_of 1) with 2 in E.
  2:{ left. split; [|done]. assert (on_palloc (pa_alloc_n 2) s1' = Ret (None, s1')) as Ea by (unfold on_palloc; cbn; rewrite Hp1, E, <- Hp1; by destruct s1).
      by rewrite (bind_eq _ _ _ _ _ Ea). }
  right. assert (on_palloc (pa_alloc_n 2) s1' = Ret (Some t, set_palloc p1 s1')) as Ea by (unfold on_palloc; cbn; by rewrite Hp1, E).
  rewrite (bind_eq _ _ _ _ _ Ea). set (B' := {[(t, 1%nat)]} ∪ B) in *. assert ((t, 1%nat) ∈ B') as Hin by set_solver. pose proof (owns_good R _ _ Ho1) as Hg.
  destruct (dir_pages R B' t Hg Hin) as [Hkt Hkv]. pose proof (dirs_apart koff R B' t t Hg Hin Hin) as (Hne & _). cbn [default].
  set (s2 := set_template t (set_palloc p1 s1')). rewrite (bind_eq _ _ _ tt s2 eq_refl).
  rewrite bind_assert by (destruct Hkt as (_ & Hkt & _); destruct (Z.eqb_spec t 0); [lia|done]). rewrite bind_gets.
  assert (forall p j, wd s2 p j = zeroed (phys t0) 0 1024 (wd s) p j) as Hw2 by done. assert (current_pagedir s2 = cur) as -> by done.
  assert (forall a, kpage R a \/ a = cur \/ a = pd_virtual cur -> forall j, 0 <= j < 1024 -> is_Some (wd s2 (phys a) j)) as Hmem.
  { intros a Ha j Hj. rewrite Hw2. unfold zeroed. destruct (decide _); [done|]. destruct Ha as [Ha|Ha]; [destruct (b2 a j Ha Hj) as (x & Ex & _)|destruct (b3 a j) as (x & Ex & _); [tauto|done|]]; eauto. }
  destruct (copy_page_eq koff t cur s2) as (s3 & E3 & (Q1 & Q2 & Q3 & _ & Q5) & Hp3 & Hw3); [auto..|]. rewrite (bind_eq _ _ _ _ _ E3).
  destruct (copy_page_eq koff (pd_virtual t) (pd_virtual cur) s3) as (s4 & E4 & (T1 & T2 & T3 & _ & T5) & Hp4 & Hw4).
  { intros j Hj. rewrite Hw3, decide_False; [auto|]. intros [? _]. congruence. }
  { intros j Hj. rewrite Hw3, decide_False; [auto|]. intros [Ex _]. apply (b4 (pd_virtual cur) t); auto. }
  exists t, s4. split; [done|]. split; [by rewrite T2, Q2|]. split; [by rewrite Hp4, Hp3|].
  split; [split; [by rewrite Hp4, Hp3|]|split; [by rewrite T1, Q1|split; [by rewrite T3, Q3|by rewrite T5, Q5]]].
  replace (template_pagedir s4) with t by (by rewrite T2, Q2). replace (final_page s4) with (final_page s) by (by rewrite T3, Q3).
  replace (current_pagedir s4) with cur by (by rewrite T1, Q1). eapply boot_template; [exact Hbm|done|done|].
  intros p j. rewrite Hw4. destruct (decide _) as [[_ Hj]|].
  - rewrite Hw3, decide_False by (intros [Ex _]; apply (b4 (pd_virtual cur) t); auto). rewrite Hw2. unfold zeroed. rewrite decide_False; [done|]. intros [Ex _]. congruence.
  - rewrite Hw3. destruct (decide _) as [[_ Hj]|].
    + rewrite Hw2. unfold zeroed. rewrite decide_False; [done|]. intros [Ex _]. congruence.
    + rewrite Hw2. unfold zeroed. by rewrite Z.add_0_l.
Qed.
End template.

(** ** The kernel's page directory *)

(** The word [j] of a table that maps memory from [ps] on. *)
Definition fill_word (ps j : Z) : Z := Z.lor (Z.land (u32 (j * PAGE_SIZE + ps)) PAGE_MASK) 3.
Definition filled (p lo hi ps : Z) (w : words) : words := fun p' j => if decide (p' = p /\ lo <= j < hi) then Some (fill_word ps j) else w p' j.

Lemma fill_word_u32 ps j : is_u32 (fill_word ps j).
Proof.
  apply lor_u32; [|unfold is_u32, two32; lia]. pose proof (u32_range (j * PAGE_SIZE + ps)) as Hu. rewrite land_mask by done. unfold is_u32, two32 in *. dlia.
Qed.

Lemma fill_word_mask ps j : ps mod 4096 = 0 -> 0 <= j * 4096 + ps < two32 -> Z.land (fill_word ps j) PAGE_MASK = j * 4096 + ps.
Proof.
  intros Hm Hu. unfold fill_word, PAGE_SIZE. rewrite mask_lor, mask_mask by lia. rewrite u32_small by done. rewrite land_mask by done. dlia.
Qed.

Section fill.
Variable koff : Z.
Abbreviation phys := (phys koff).
Abbreviation K := (M (pts pages)).
Abbreviation wd s := (pword (mem s)).
Implicit Types s : pts pages.

Lemma fill_loop_ok n : forall s t ps i, 0 <= i -> i + Z.of_nat n <= 1024 -> (forall j, 0 <= j < 1024 -> is_Some (wd s (phys t) j)) ->
  exists s', fill_loop koff n t 3 ps i s = Ret (tt, s') /\ (forall p j, wd s' p j = filled (phys t) i (i + Z.of_nat n) ps (wd s) p j) /\
    same_regs s s' /\ palloc s' = palloc s.
Proof.
  induction n as [|n IH]; intros s t ps i Hi Hn Hsome.
  - exists s. split; [done|]. split; [|done]. intros p j. unfold filled. rewrite decide_False by lia. done.
  - destruct (Hsome i ltac:(lia)) as [x Ex]. cbn [fill_loop].
    destruct (st_word_eq koff t i x (Z.land (u32 (i * PAGE_SIZE + ps)) PAGE_MASK) s Ex) as (s1 & E1 & Hw1 & Hr1 & Hp1). rewrite (bind_eq _ _ _ _ _ E1).
    assert (wd s1 (phys t) i = Some (Z.land (u32 (i * PAGE_SIZE + ps)) PAGE_MASK)) as Ex1 by (rewrite Hw1; unfold upd; by rewrite decide_True).
    rewrite bind_bind, (bind_eq _ _ _ _ _ (ld_word_eq koff _ _ _ _ Ex1)). change (Z.land 3 4095) with 3. fold (fill_word ps i).
    destruct (st_word_eq koff t i _ (fill_word ps i) s1 Ex1) as (s2 & E2 & Hw2 & Hr2 & Hp2). rewrite (bind_eq _ _ _ _ _ E2).
    assert (forall p j, wd s2 p j = upd (phys t) i (fill_word ps i) (wd s) p j) as Hw.
    { intros p j. rewrite Hw2. unfold upd. destruct (decide _); [done|]. rewrite Hw1. unfold upd. by rewrite decide_False. }
    destruct (IH s2 t ps (i + 1)) as (s' & E & Hw' & Hr' & Hp'); [lia|lia| |].
    { intros j Hj. rewrite Hw. unfold upd. destruct (decide _); [done|by apply Hsome]. }
    exists s'. split; [done|]. split; [|split; [eapply same_regs_trans; [exact Hr1|by eapply same_regs_trans]|congruence]].
    intros p j. rewrite Hw'. unfold filled. rewrite Hw. unfold upd. destruct (decide (p = phys t /\ i <= j < i + Z.of_nat (S n))) as [[-> Hj]|Hj].
    + destruct (decide (j = i)) as [->|]; [rewrite decide_False by lia; by rewrite decide_True|by rewrite decide_True by lia].
    + rewrite !decide_False; [done|..]; intros [-> ?]; apply Hj; lia.
Qed.

(** A table filled and entered in the directory: its physical address comes from the
    tables behind [cr3]. *)
Lemma fill_page_ok s pd t vstart ps d e : pd <> 0 -> t <> 0 -> vstart mod PT_VADDR_SIZE = 0 -> phys t mod 4096 = 0 -> is_u32 (phys t) ->
  (forall a j, a = pd \/ a = pd_virtual pd \/ a = t \/ a = final_page s -> 0 <= j < 1024 -> is_Some (wd s (phys a) j)) ->
  0 <= vaddr_to_pdindex vstart < 1024 -> wd s (cr3 s) (vaddr_to_pdindex t) = Some d -> is_u32 d -> wd s (Z.land d PAGE_MASK) (vaddr_to_ptindex t) = Some e ->
  Z.land e PAGE_MASK = phys t -> cr3 s <> phys t -> Z.land d PAGE_MASK <> phys t -> Z.land d PAGE_MASK <> phys (final_page s) ->
  exists s' v, _pt_fill_page koff pd t 3 3 vstart ps s = Ret (tt, s') /\ is_u32 v /\ same_regs s s' /\ palloc s' = palloc s /\
    forall p j, wd s' p j = upd (phys (pd_virtual pd)) (vaddr_to_pdindex vstart) t (upd (phys pd) (vaddr_to_pdindex vstart) (Z.lor (phys t) 3)
      (upd (phys (final_page s)) 1023 v (filled (phys t) 0 1024 ps (wd s)))) p j.
Proof.
  intros Hpd Ht Hv Hal Hu Hmem Hb Ed Hd Ee Em Hc Hq Hqf. unfold _pt_fill_page. rewrite bind_assert by lia. rewrite bind_assert by lia.
  destruct (zero_eq koff t 0 1024 s) as (s1 & E1 & Hw1 & Hr1 & Hp1); [auto 6|lia..|]. change PT_ENTRY_COUNT with 1024. rewrite (bind_eq _ _ _ _ _ E1).
  destruct (fill_loop_ok 1024 s1 t ps 0) as (s2 & E2 & Hw2 & Hr2 & Hp2); [lia|lia| |].
  { intros j Hj. rewrite Hw1. unfold zeroed. rewrite decide_True by lia. done. }
  change (Z.to_nat 1024) with 1024%nat. rewrite (bind_eq _ _ _ _ _ E2), bind_gets. pose proof (same_regs_trans _ _ _ Hr1 Hr2) as Hr.
  pose proof Hr as (_ & _ & Hf & _ & Hcr). rewrite Hcr.
  assert (forall p j, wd s2 p j = filled (phys t) 0 1024 ps (wd s) p j) as Hw.
  { intros p j. rewrite Hw2. change (0 + Z.of_nat 1024) with 1024. unfold filled. destruct (decide _); [done|]. rewrite Hw1. unfold zeroed. rewrite decide_False by lia. done. }
  assert (forall p j, p <> phys t -> wd s2 p j = wd s p j) as Hout by (intros p j Hp; rewrite Hw; unfold filled; by rewrite decide_False by (by intros [? _])).
  assert (rd_phys (cr3 s) (vaddr_to_pdindex t) s2 = Ret (d, s2)) as Erd by (unfold rd_phys, bind, gets; by rewrite Hout, Ed).
  rewrite (bind_eq _ _ _ _ _ Erd).
  assert (is_Some (wd s2 (phys (final_page s2)) 1023)) as [x Ex].
  { rewrite Hf, Hw. unfold filled. destruct (decide _); [done|]. apply Hmem; [auto 6|lia]. }
  destruct (window_eq koff s2 d (vaddr_to_ptindex t) e x Ex Hd ltac:(by rewrite Hout) ltac:(by rewrite Hf)) as (s3 & v & Ek & Hvu & Hw3 & Hr3 & Hp3).
  rewrite Ek, Em. change (Z.land 3 4095) with 3. rewrite Hf in Hw3.
  assert (forall a, a = pd \/ a = pd_virtual pd -> is_Some (wd s3 (phys a) (vaddr_to_pdindex vstart))) as Hmem3.
  { intros a Ha. rewrite Hw3. unfold upd. destruct (decide _); [done|]. rewrite Hw. unfold filled. destruct (decide _); [done|]. apply Hmem; [tauto|done]. }
  destruct (Hmem3 pd ltac:(auto)) as [y Ey]. destruct (st_word_eq koff pd _ y (Z.lor (phys t) 3) s3 Ey) as (s4 & E4 & Hw4 & Hr4 & Hp4). rewrite (bind_eq _ _ _ _ _ E4).
  destruct (Hmem3 (pd_virtual pd) ltac:(auto)) as [z Ez]. assert (is_Some (wd s4 (phys (pd_virtual pd)) (vaddr_to_pdindex vstart))) as [z' Ez'].
  { rewrite Hw4. unfold upd. by destruct (decide _). }
  destruct (st_word_eq koff (pd_virtual pd) _ z' t s4 Ez') as (s5 & E5 & Hw5 & Hr5 & Hp5).
  exists s5, v. split; [done|]. split; [done|]. split; [eapply same_regs_trans; [exact Hr|eapply same_regs_trans; [exact Hr3|by eapply same_regs_trans]]|]. split; [congruence|].
  intros p j. rewrite Hw5. unfold upd. rewrite Hw4. unfold upd. rewrite Hw3. unfold upd. by rewrite Hw.
Qed.
End fill.

(** The address in link.ld, and the directory and table of boot/paging.h. *)
Definition KERNEL_START : Z := 3221225472.
Definition PAGE_DIRECTORY_BASE : Z := 8192.

Section init.
Variables (ke physmax : Z) (mmap : list mmap_entry).

Abbreviation koff := (KERNEL_START - KERNEL_PHYS_BASE).
Abbreviation phys := (phys koff).
Abbreviation K := (M (pts pages)).
Abbreviation wd s := (pword (mem s)).
Implicit Types s : pts pages.

(** Page table [k] lies behind the directory and [final_page]. *)
Definition tab (k : Z) : Z := ke + 4096 * (3 + k).
(** The tables the loop adds. *)
Definition ntabs : Z := (physmax - KERNEL_PHYS_BASE + PT_VADDR_SIZE - 1) / PT_VADDR_SIZE.

(** Where the kernel ends and how much memory there is: all tables fit in the
    four megabytes the boot loader maps, and three pages are left. *)
Record layout : Prop := {
  lay_end : ke mod 4096 = 0 /\ KERNEL_START <= ke;
  lay_mmap : phys_detect_highmem mmap = Ret physmax;
  lay_max : KERNEL_PHYS_BASE < physmax /\ ntabs <= 254;
  lay_fit : tab (ntabs + 1) + 4096 <= KERNEL_START + PT_VADDR_SIZE;
  lay_room : tab (ntabs + 1) + 12288 <= physmax + koff }.

Definition mem_ok (w : words) : Prop :=
  forall p j, p mod 4096 = 0 -> 0 <= p -> p + 4096 <= physmax -> 0 <= j < 1024 -> exists x, w p j = Some x /\ is_u32 x.

(** The tables the boot loader installed, and memory. *)
Record loader_ran s : Prop := {
  bo_cr3 : cr3 s = PAGE_DIRECTORY_BASE;
  bo_mem : mem_ok (wd s);
  bo_dir : wd s PAGE_DIRECTORY_BASE 768 = Some 16643;
  bo_tab j : 0 <= j < 1024 -> wd s (PAGE_DIRECTORY_BASE + 8192) j = Some (1048835 + 4096 * j);
  bo_palloc : palloc s = page_init }.

Hypothesis Hlay : layout.

Lemma lay_nums : ke mod 4096 = 0 /\ 3221225472 <= ke /\ 1048576 < physmax /\ 1 <= ntabs <= 254 /\ 1048576 + 4194304 * (ntabs - 1) < physmax <= 1048576 + 4194304 * ntabs /\
  ke + 4096 * (ntabs + 5) <= 3225419776 /\ ke + 4096 * (ntabs + 4) + 12288 <= physmax + 3220176896.
Proof.
  destruct Hlay as [[] _ [] H1 H2]. unfold tab, ntabs, KERNEL_START, KERNEL_PHYS_BASE, PT_VADDR_SIZE in *. dlia.
Qed.

(** The tables behind [cr3] map the kernel's first four megabytes. *)
Definition maps_kernel (c q : Z) (w : words) : Prop :=
  exists d, w c 768 = Some d /\ is_u32 d /\ Z.land d PAGE_MASK = q /\
    forall j, 0 <= j < 1024 -> exists e, w q j = Some e /\ Z.land e PAGE_MASK = 1048576 + 4096 * j.

(** The entries of the directory with [m] of the kernel's tables. *)
Definition dirw (m j : Z) : Z :=
  if decide (j = 0) then Z.lor (phys (tab 0)) 3 else if decide (768 <= j < 768 + m) then Z.lor (phys (tab (j - 767))) 3
  else if decide (j = 1023) then Z.lor (phys (ke + 8192)) 3 else 0.

Record ini (m : Z) s : Prop := {
  i_fin : final_page s = ke + 8192;
  i_mem : mem_ok (wd s);
  i_dir j : 0 <= j < 1024 -> wd s (phys ke) j = Some (dirw m j);
  i_t0 : wd s (phys (pd_virtual ke)) 0 = Some (tab 0);
  i_tab k j : 1 <= k <= m -> 0 <= j < 1024 -> wd s (phys (tab k)) j = Some (fill_word (1048576 + 4194304 * (k - 1)) j) }.

Lemma mem_upd p i x w : is_u32 x -> mem_ok w -> mem_ok (upd p i x w).
Proof. intros Hx Hm q j H1 H2 H3 H4. unfold upd. destruct (decide _); [eauto|by apply Hm]. Qed.

Lemma mem_filled p lo hi ps w : mem_ok w -> mem_ok (filled p lo hi ps w).
Proof. intros Hm q j H1 H2 H3 H4. unfold filled. destruct (decide _); [eauto using fill_word_u32|by apply Hm]. Qed.

Lemma mem_ext (w w' : words) : (forall p j, w' p j = w p j) -> mem_ok w -> mem_ok w'.
Proof. intros E Hm q j H1 H2 H3 H4. rewrite E. by apply Hm. Qed.

(** Pages behind the kernel are there. *)
Lemma mem_page w a : mem_ok w -> a mod 4096 = 0 -> ke <= a -> a + 4096 <= physmax + koff -> forall j, 0 <= j < 1024 -> exists x, w (phys a) j = Some x /\ is_u32 x.
Proof.
  intros Hm Ha H1 H2 j Hj. destruct lay_nums as (L1 & L2 & _). unfold Pagetable.phys, KERNEL_START, KERNEL_PHYS_BASE in *. apply Hm; [dlia|lia|lia|done].
Qed.

Lemma tab_index k : 0 <= k <= ntabs + 1 -> vaddr_to_pdindex (tab k) = 768 /\ phys (tab k) = 1048576 + 4096 * vaddr_to_ptindex (tab k) /\ is_u32 (phys (tab k)) /\
  tab k mod 4096 = 0 /\ phys (tab k) mod 4096 = 0 /\ 0 < tab k < two32.
Proof.
  intros Hk. destruct lay_nums as (L1 & L2 & L3 & L4 & L5 & L6 & L7). unfold vaddr_to_ptindex, PT_ENTRY_COUNT. rewrite ADDR_TO_PN_div.
  assert (is_u32 (tab k)) as Hu by (unfold tab, is_u32, two32; lia). rewrite u32_small, pdindex_eq by done.
  unfold Pagetable.phys, tab, is_u32, two32, KERNEL_START, KERNEL_PHYS_BASE. repeat split; dlia.
Qed.

(** One more table. *)
Lemma fill_tab s k vstart ps q : 0 <= k <= ntabs + 1 -> vstart mod PT_VADDR_SIZE = 0 -> 0 <= vaddr_to_pdindex vstart < 1024 ->
  final_page s = ke + 8192 -> mem_ok (wd s) -> maps_kernel (cr3 s) q (wd s) -> cr3 s = PAGE_DIRECTORY_BASE \/ cr3 s = phys ke ->
  q = 16384 \/ (q = phys (tab 1) /\ k <> 1) ->
  exists s' v, _pt_fill_page koff ke (tab k) 3 3 vstart ps s = Ret (tt, s') /\ is_u32 v /\ same_regs s s' /\ palloc s' = palloc s /\ mem_ok (wd s') /\
    forall p j, wd s' p j = upd (phys (pd_virtual ke)) (vaddr_to_pdindex vstart) (tab k) (upd (phys ke) (vaddr_to_pdindex vstart) (Z.lor (phys (tab k)) 3)
      (upd (phys (ke + 8192)) 1023 v (filled (phys (tab k)) 0 1024 ps (wd s)))) p j.
Proof.
  intros Hk Hv Hb Hf Hm (d & Ed & Hd & Eq & Hq) Hc Hqk. destruct (tab_index k Hk) as (Hi & Hp & Hu & Ha & Hpa & Hr). destruct lay_nums as (L1 & L2 & L3 & L4 & L5 & L6 & L7).
  destruct (Hq _ (ptindex_range (tab k))) as (e & Ee & Em). rewrite <- Eq in Ee.
  assert (forall b, ke <= b -> phys b >= 1048576) as Hge by (intros b Hb'; unfold Pagetable.phys, KERNEL_START, KERNEL_PHYS_BASE; lia).
  assert (phys ke <> phys (tab k) /\ PAGE_DIRECTORY_BASE <> phys (tab k) /\ q <> phys (tab k) /\ q <> phys (ke + 8192)) as (Hx1 & Hx2 & Hx3 & Hx4).
  { pose proof (Hge (tab k) ltac:(unfold tab; lia)). pose proof (Hge (ke + 8192) ltac:(lia)). unfold PAGE_DIRECTORY_BASE, Pagetable.phys, tab in *. lia. }
  destruct (fill_page_ok koff s ke (tab k) vstart ps d e) as (s' & v & E & Hvu & Hsr & Hpl & Hw); try done; [lia|lia| |by rewrite Hi|by rewrite Em, <- Hp|destruct Hc as [-> | ->]; done|by rewrite Eq|by rewrite Eq, Hf|].
  { intros a j [->|[->|[->| ->]]] Hj; [..|rewrite Hf].
    all: match goal with |- is_Some (_ (_ ?a) _) => destruct (mem_page (wd s) a Hm) with (j := j) as (x & Ex & _); [unfold tab, pd_virtual, PAGE_SIZE; dlia|unfold tab, pd_virtual, PAGE_SIZE; lia|unfold tab, pd_virtual, PAGE_SIZE, KERNEL_START, KERNEL_PHYS_BASE; lia|done|eauto] end. }
  rewrite Hf in Hw. exists s', v. split; [done|]. split; [done|]. split; [done|]. split; [done|]. split; [|done].
  eapply mem_ext; [exact Hw|]. apply mem_upd; [unfold is_u32; lia|]. apply mem_upd; [apply lor_u32; [done|unfold is_u32, two32; lia]|]. apply mem_upd; [done|]. by apply mem_filled.
Qed.

Ltac pages := unfold Pagetable.phys, pd_virtual, tab, PAGE_SIZE in *.
(** Which of the writes a word comes from. *)
Ltac upds := unfold upd, filled; repeat match goal with
  | |- context [decide ?Q] => first [rewrite (decide_False (P := Q)) by (pages; lia) | rewrite (decide_True (P := Q)) by (pages; lia)] end.

Lemma ini_step m s s' v : 0 <= m <= 254 -> ini m s -> final_page s' = final_page s -> mem_ok (wd s') ->
  (forall p j, wd s' p j = upd (phys (pd_virtual ke)) (768 + m) (tab (m + 1)) (upd (phys ke) (768 + m) (Z.lor (phys (tab (m + 1))) 3)
      (upd (phys (ke + 8192)) 1023 v (filled (phys (tab (m + 1))) 0 1024 (1048576 + 4194304 * m) (wd s)))) p j) ->
  ini (m + 1) s'.
Proof.
  intros Hm [i1 i2 i3 i4 i5] Hf Hmem Hw. constructor; [congruence|done|..].
  - intros j Hj. rewrite Hw. destruct (decide (j = 768 + m)) as [->|Hne].
    + upds. unfold dirw. upds. do 3 f_equal. pages. lia.
    + upds. rewrite i3 by done. f_equal. unfold dirw. destruct (decide (j = 0)); [done|]. destruct (decide (768 <= j < 768 + m)); by upds.
  - rewrite Hw. by upds.
  - intros k j Hk Hj. rewrite Hw. destruct (decide (k = m + 1)) as [->|].
    + upds. do 2 f_equal. lia.
    + upds. apply i5; lia.
Qed.

(** The new directory maps the kernel as the boot loader's tables do. *)
Lemma ini_chain m s : 1 <= m -> m <= 254 -> ini m s -> maps_kernel (phys ke) (phys (tab 1)) (wd s).
Proof.
  intros H1 H2 [i1 i2 i3 i4 i5]. destruct (tab_index 1) as (_ & _ & Hu & _ & Ha & _); [pose proof lay_nums; lia|].
  exists (Z.lor (phys (tab 1)) 3). split; [rewrite i3 by lia; unfold dirw; by upds|]. split; [apply lor_u32; [done|unfold is_u32, two32; lia]|].
  split; [rewrite mask_lor, mask_aligned by (done || lia); done|]. intros j Hj. exists (fill_word 1048576 j). split; [by rewrite i5 by lia|].
  rewrite fill_word_mask; [lia|done|unfold two32; lia].
Qed.

Lemma kernel_slot m : 0 <= m <= 255 -> vaddr_to_pdindex (KERNEL_START + 4194304 * m) = 768 + m.
Proof. intros Hm. rewrite pdindex_eq by (unfold is_u32, two32, KERNEL_START; lia). unfold KERNEL_START. dlia. Qed.

Lemma map_memory_ok fuel : forall m s, 1 <= m <= ntabs -> (Z.to_nat (ntabs - m) < fuel)%nat -> ini m s -> cr3 s = phys ke ->
  exists s', map_memory KERNEL_START fuel ke (tab m) (KERNEL_START + 4194304 * (m - 1)) (1048576 + 4194304 * (m - 1)) physmax s = Ret (tab (ntabs + 1), s') /\
    ini (ntabs + 1) s' /\ same_regs s s' /\ palloc s' = palloc s.
Proof.
  induction fuel as [|fuel IH]; intros m s Hm Hfuel Hini Hc; [lia|]. pose proof lay_nums as (L1 & L2 & L3 & L4 & L5 & L6 & L7).
  destruct (tab_index (m + 1) ltac:(lia)) as (_ & _ & _ & _ & _ & Htr).
  cbn [map_memory]. replace (u32 (tab m + PAGE_SIZE)) with (tab (m + 1)) by (rewrite u32_small; pages; unfold is_u32; lia).
  replace (u32 (KERNEL_START + 4194304 * (m - 1) + PT_VADDR_SIZE)) with (KERNEL_START + 4194304 * m) by (rewrite u32_small; unfold is_u32, two32, KERNEL_START, PT_VADDR_SIZE; lia).
  replace (u32 (1048576 + 4194304 * (m - 1) + PT_VADDR_SIZE)) with (1048576 + 4194304 * m) by (rewrite u32_small; unfold is_u32, two32, PT_VADDR_SIZE; lia).
  pose proof (kernel_slot m ltac:(lia)) as Hslot.
  destruct (fill_tab s (m + 1) (KERNEL_START + 4194304 * m) (1048576 + 4194304 * m) (phys (tab 1))) as (s1 & v & E & Hv & Hr & Hp & Hmem & Hw);
    [lia|unfold KERNEL_START, PT_VADDR_SIZE; dlia|lia|apply Hini|apply Hini|rewrite Hc; eapply ini_chain; [| |exact Hini]; lia|by right|right; split; [done|lia]|].
  change (Z.lor PD_PRESENT PD_WRITE) with 3. change (Z.lor PT_PRESENT PT_WRITE) with 3. rewrite (bind_eq _ _ _ _ _ E). rewrite Hslot in Hw.
  pose proof Hr as (_ & _ & Hf & _ & Hcr). assert (ini (m + 1) s1) as Hini1 by (eapply ini_step; [lia|exact Hini|done|done|exact Hw]).
  destruct (Z.ltb_spec (1048576 + 4194304 * m) physmax).
  - destruct (IH (m + 1) s1) as (s' & E' & Hini' & Hr' & Hp'); [lia|lia|done|congruence|]. replace (m + 1 - 1) with m in E' by lia. rewrite E'.
    exists s'. split; [done|]. split; [done|]. split; [by eapply same_regs_trans|congruence].
  - exists s1. assert (m = ntabs) as -> by lia. done.
Qed.

Lemma ini_window m s s' v : is_u32 v -> ini m s -> (forall p j, wd s' p j = upd (phys (final_page s)) 1023 v (wd s) p j) -> final_page s' = final_page s -> 0 <= m -> ini m s'.
Proof.
  intros Hv [i1 i2 i3 i4 i5] Hw Hf Hm. rewrite i1 in *. constructor; [done|eapply mem_ext; [exact Hw|]; by apply mem_upd|..].
  - intros j Hj. rewrite Hw. upds. by apply i3.
  - rewrite Hw. by upds.
  - intros k j Hk Hj. rewrite Hw. upds. by apply i5.
Qed.

Lemma chain_boot w : w PAGE_DIRECTORY_BASE 768 = Some 16643 -> (forall j, 0 <= j < 1024 -> w 16384 j = Some (1048835 + 4096 * j)) -> maps_kernel PAGE_DIRECTORY_BASE 16384 w.
Proof.
  intros Hd Ht. exists 16643. split; [done|]. split; [done|]. split; [done|]. intros j Hj. exists (1048835 + 4096 * j). split; [by apply Ht|].
  rewrite land_mask by (unfold is_u32, two32; lia). dlia.
Qed.

(** Memory with an empty directory, but for the entry of [final_page]. *)
Record bare_dir s : Prop := {
  e_fin : final_page s = ke + 8192;
  e_mem : mem_ok (wd s);
  e_dir j : 0 <= j < 1024 -> wd s (phys ke) j = Some (if decide (j = 1023) then Z.lor (phys (ke + 8192)) 3 else 0);
  e_cr3 : cr3 s = PAGE_DIRECTORY_BASE;
  e_boot : wd s PAGE_DIRECTORY_BASE 768 = Some 16643;
  e_tab j : 0 <= j < 1024 -> wd s 16384 j = Some (1048835 + 4096 * j) }.

(** The first two tables. *)
Lemma first_tables s : bare_dir s -> exists s1 s2,
  _pt_fill_page koff ke (tab 0) 3 3 0 0 s = Ret (tt, s1) /\ _pt_fill_page koff ke (tab 1) 3 3 KERNEL_START KERNEL_PHYS_BASE s1 = Ret (tt, s2) /\
  ini 1 s2 /\ palloc s2 = palloc s.
Proof.
  intros [e1 e2 e3 e4 e5 e6]. pose proof lay_nums as (L1 & L2 & L3 & L4 & L5 & L6 & L7).
  assert (forall b, ke <= b -> phys b >= 1048576) as Hge by (intros b Hb'; unfold Pagetable.phys, KERNEL_START, KERNEL_PHYS_BASE; lia).
  destruct (fill_tab s 0 0 0 16384) as (s1 & v & E & Hv & Hr & Hp & Hmem & Hw); [lia|done|done|done|done|rewrite e4; by apply chain_boot|by left|by left|].
  change (vaddr_to_pdindex 0) with 0 in Hw. pose proof Hr as (_ & _ & Hf & _ & Hc).
  assert (forall p j, p < 1048576 -> wd s1 p j = wd s p j) as Hlow.
  { intros p j Hlt. pose proof (Hge ke ltac:(lia)). pose proof (Hge (pd_virtual ke) ltac:(pages; lia)). pose proof (Hge (ke + 8192) ltac:(lia)). pose proof (Hge (tab 0) ltac:(pages; lia)).
    rewrite Hw. unfold upd, filled. rewrite !decide_False by lia. done. }
  assert (ini 0 s1) as Hini.
  { constructor; [congruence|done|..].
    - intros j Hj. rewrite Hw. destruct (decide (j = 0)) as [->|]; [by upds|]. upds. rewrite e3 by done. unfold dirw. f_equal. upds. done.
    - rewrite Hw. by upds.
    - intros k j Hk. lia. }
  destruct (fill_tab s1 1 KERNEL_START KERNEL_PHYS_BASE 16384) as (s2 & v2 & E2 & Hv2 & Hr2 & Hp2 & Hmem2 & Hw2); [lia|done|done|congruence|done| |left; congruence|by left|].
  { rewrite Hc, e4. apply chain_boot; [by rewrite Hlow by done|]. intros j Hj. rewrite Hlow by lia. by apply e6. }
  exists s1, s2. split; [done|]. split; [done|]. split; [|congruence]. change 1 with (0 + 1). eapply (ini_step 0 s1 s2 v2); [lia|done|apply Hr2|done|exact Hw2].
Qed.

(** [pt_set] of the new directory. *)
Lemma first_set s : ini 1 s -> exists s', (modify (set_current ke) ;;; pt_set koff ke) s = Ret (tt, s') /\ ini 1 s' /\ current_pagedir s' = ke /\ cr3 s' = phys ke /\ palloc s' = palloc s.
Proof.
  intros Hini. pose proof lay_nums as (L1 & L2 & L3 & L4 & L5 & L6 & L7). destruct (ini_chain 1 s ltac:(lia) ltac:(lia) Hini) as (d & Ed & Hd & Eq & Hq).
  assert (is_u32 ke) as Hku by (unfold is_u32, two32; lia). assert (vaddr_to_pdindex ke = 768) as Hk by (rewrite pdindex_eq by done; dlia).
  assert (phys ke = 1048576 + 4096 * vaddr_to_ptindex ke) as Hpk.
  { unfold vaddr_to_ptindex, PT_ENTRY_COUNT. rewrite ADDR_TO_PN_div, u32_small by done. unfold Pagetable.phys, KERNEL_START, KERNEL_PHYS_BASE. dlia. }
  destruct (Hq _ (ptindex_range ke)) as (e & Ee & Em). rewrite <- Eq in Ee.
  destruct (mem_page (wd s) (ke + 8192) (i_mem _ _ Hini)) with (j := 1023) as (x & Ex & _); [dlia|lia|unfold KERNEL_START, KERNEL_PHYS_BASE; lia|lia|].
  pose proof (i_fin _ _ Hini) as Hf. destruct (virt_to_phys_raw koff (set_current ke s) ke d e x) as (s1 & v & E1 & Hv & Hw & (R1 & R2 & R3 & _) & Hp); cbn [current_pagedir final_page set_current mem].
  { by rewrite Hk. } { by rewrite Hf. } { done. } { done. } { rewrite Eq, Hf. pages. lia. } { lia. }
  { unfold is_u32, Pagetable.phys, KERNEL_START, KERNEL_PHYS_BASE, two32. lia. } { done. } { lia. }
  exists (set_cr3 (phys ke) (set_current ke s1)). split.
  { rewrite (bind_eq _ _ _ tt (set_current ke s) eq_refl). unfold pt_set. by rewrite (bind_eq _ _ _ _ _ E1). }
  split; [|done]. eapply (ini_window 1 s); [exact Hv|done|exact Hw|exact R3|lia].
Qed.

Lemma mem_zeroed p i n w : mem_ok w -> mem_ok (zeroed p i n w).
Proof. intros Hm q j H1 H2 H3 H4. unfold zeroed. destruct (decide _); [by exists 0|by apply Hm]. Qed.

(** A page behind the kernel cleared. *)
Lemma clear_page s a : mem_ok (wd s) -> a mod 4096 = 0 -> ke <= a -> a + 4096 <= physmax + koff ->
  exists s', zero_words koff a 0 PT_ENTRY_COUNT s = Ret (tt, s') /\ mem_ok (wd s') /\ (forall p j, wd s' p j = zeroed (phys a) 0 1024 (wd s) p j) /\ same_regs s s' /\ palloc s' = palloc s.
Proof.
  intros Hm Ha Hlo Hhi. destruct (zero_eq koff a 0 1024 s) as (s' & E & Hw & Hr & Hp); [|lia..|].
  - intros j Hj. destruct (mem_page (wd s) a Hm Ha Hlo Hhi j Hj) as (x & Ex & _). eauto.
  - exists s'. split; [done|]. split; [|done]. eapply mem_ext; [exact Hw|]. by apply mem_zeroed.
Qed.

Lemma wr_at p i x y s : wd s p i = Some x -> is_u32 y -> mem_ok (wd s) ->
  exists s', wr_phys p i y s = Ret (tt, s') /\ mem_ok (wd s') /\ (forall q j, wd s' q j = upd p i y (wd s) q j) /\ same_regs s s' /\ palloc s' = palloc s.
Proof.
  intros Ex Hy Hm. assert (phys (p + koff) = p) as Hp by (unfold Pagetable.phys; lia).
  destruct (st_word_eq koff (p + koff) i x y s) as (s' & E & Hw & Hr & Ha); [by rewrite Hp|]. unfold st_word in E. rewrite Hp in *. exists s'. split; [done|]. split; [|done].
  eapply mem_ext; [exact Hw|]. by apply mem_upd.
Qed.

Ltac sub3 := unfold upd, zeroed; repeat match goal with
  | |- context [decide ?Q] => first [rewrite (decide_False (P := Q)) by (unfold PAGE_DIRECTORY_BASE; pages; lia) | rewrite (decide_True (P := Q)) by (pages; lia)] end.

Lemma init_head s : loader_ran s -> exists s', (forall A (k : K A), (KASSERT (PAGE_ALIGNED ke) ;;; zero_words koff ke 0 PT_ENTRY_COUNT ;;; zero_words koff (pd_virtual ke) 0 PT_ENTRY_COUNT ;;;
    modify (set_final (ke + 8192)) ;;; KASSERT (PAGE_ALIGNED (ke + 8192)) ;;; zero_words koff (ke + 8192) 0 PT_ENTRY_COUNT ;;; k) s = k s') /\
  final_page s' = ke + 8192 /\ mem_ok (wd s') /\ (forall j, 0 <= j < 1024 -> wd s' (phys ke) j = Some 0) /\ cr3 s' = PAGE_DIRECTORY_BASE /\ palloc s' = page_init /\
  forall p j, p < 1048576 -> wd s' p j = wd s p j.
Proof.
  intros [b1 b2 b3 b4 b5]. pose proof lay_nums as (L1 & L2 & L3 & L4 & L5 & L6 & L7). assert (koff = 3220176896) as Hko by done.
  destruct (clear_page s ke b2) as (s1 & E1 & M1 & W1 & (_ & _ & _ & _ & R1) & P1); [done|lia|lia|].
  destruct (clear_page s1 (pd_virtual ke) M1) as (s2 & E2 & M2 & W2 & (_ & _ & _ & _ & R2) & P2); [pages; dlia|pages; lia|pages; lia|].
  destruct (clear_page (set_final (ke + 8192) s2) (ke + 8192) M2) as (s3 & E3 & M3 & W3 & (_ & _ & F3 & _ & R3) & P3); [dlia|lia|lia|].
  assert (forall a, a mod 4096 = 0 -> ke <= a <= ke + 8192 -> PAGE_ALIGNED a = true) as Hal.
  { intros a H1 H2. unfold PAGE_ALIGNED, PAGE_SIZE. rewrite u32_small by (unfold is_u32, two32; lia). by apply Z.eqb_eq. }
  exists s3. split.
  { intros A k. rewrite bind_assert by (apply Hal; [done|lia]). rewrite (bind_eq _ _ _ _ _ E1), (bind_eq _ _ _ _ _ E2), (bind_eq _ _ _ tt (set_final (ke + 8192) s2) eq_refl).
    rewrite bind_assert by (apply Hal; [dlia|lia]). by rewrite (bind_eq _ _ _ _ _ E3). }
  split; [done|]. split; [done|]. split; [|split; [cbn in R3; congruence|split; [cbn in P3; congruence|]]].
  - intros j Hj. rewrite W3. sub3. cbn [mem set_final]. rewrite W2. sub3. rewrite W1. by sub3.
  - intros p j Hp. rewrite W3. unfold zeroed at 1. rewrite decide_False by (pages; lia). cbn [mem set_final]. rewrite W2. unfold zeroed at 1. rewrite decide_False by (pages; lia).
    rewrite W1. unfold zeroed. by rewrite decide_False by (pages; lia).
Qed.

(** The entry that gives access to [final_page], in both directories. *)
Lemma init_window s : final_page s = ke + 8192 -> mem_ok (wd s) -> (forall j, 0 <= j < 1024 -> wd s (phys ke) j = Some 0) -> cr3 s = PAGE_DIRECTORY_BASE ->
  wd s PAGE_DIRECTORY_BASE 768 = Some 16643 -> (forall j, 0 <= j < 1024 -> wd s 16384 j = Some (1048835 + 4096 * j)) ->
  exists s', (forall A (k : K A), (wr_phys PAGE_DIRECTORY_BASE 1023 (Z.lor (phys (ke + 8192)) 3) ;;; (let! e := rd_phys PAGE_DIRECTORY_BASE 1023 in st_word koff ke 1023 e) ;;;
    st_word koff (pd_virtual ke) 1023 (ke + 8192) ;;; k) s = k s') /\ bare_dir s' /\ palloc s' = palloc s.
Proof.
  intros Hf Hm Hd Hc Hb Ht. pose proof lay_nums as (L1 & L2 & L3 & L4 & L5 & L6 & L7). assert (koff = 3220176896) as Hko by done.
  assert (is_u32 (Z.lor (phys (ke + 8192)) 3)) as Hu by (apply lor_u32; unfold is_u32, two32; [pages; lia|lia]).
  destruct (Hm PAGE_DIRECTORY_BASE 1023) as (x & Ex & _); [done|done|unfold PAGE_DIRECTORY_BASE; lia|lia|].
  destruct (wr_at PAGE_DIRECTORY_BASE 1023 x _ s Ex Hu Hm) as (s1 & E1 & M1 & W1 & (_ & _ & F1 & _ & R1) & P1).
  assert (wd s1 PAGE_DIRECTORY_BASE 1023 = Some (Z.lor (phys (ke + 8192)) 3)) as Ex1 by (rewrite W1; unfold upd; by rewrite decide_True).
  assert (rd_phys PAGE_DIRECTORY_BASE 1023 s1 = Ret (Z.lor (phys (ke + 8192)) 3, s1)) as Erd by (unfold rd_phys, bind, gets; by rewrite Ex1).
  destruct (mem_page (wd s1) ke M1) with (j := 1023) as (y & Ey & _); [done|lia|lia|lia|].
  destruct (wr_at (phys ke) 1023 y _ s1 Ey Hu M1) as (s2 & E2 & M2 & W2 & (_ & _ & F2 & _ & R2) & P2).
  destruct (mem_page (wd s2) (pd_virtual ke) M2) with (j := 1023) as (z & Ez & _); [pages; dlia|pages; lia|pages; lia|lia|].
  destruct (wr_at (phys (pd_virtual ke)) 1023 z (ke + 8192) s2 Ez ltac:(unfold is_u32, two32; lia) M2) as (s3 & E3 & M3 & W3 & (_ & _ & F3 & _ & R3) & P3).
  exists s3. split.
  { intros A k. rewrite (bind_eq _ _ _ _ _ E1), bind_bind, (bind_eq _ _ _ _ _ Erd). unfold st_word. by rewrite (bind_eq _ _ _ _ _ E2), (bind_eq _ _ _ _ _ E3). }
  split; [|congruence]. constructor; [congruence|done|..|congruence| |].
  - intros j Hj. rewrite W3. unfold upd. rewrite decide_False by (pages; lia). rewrite W2. unfold upd. destruct (decide (j = 1023)) as [->|]; [by rewrite decide_True|].
    rewrite decide_False by lia. rewrite W1. unfold upd. rewrite decide_False by lia. by apply Hd.
  - rewrite W3. sub3. rewrite W2. sub3. rewrite W1. by sub3.
  - intros j Hj. rewrite W3. sub3. rewrite W2. sub3. rewrite W1. sub3. by apply Ht.
Qed.

(** ** Memory for the page allocator *)

Lemma add_range_group start e g p : _pagegroup_create (PAGE_ALIGN_DOWN start) (PAGE_ALIGN_DOWN e) = Ret g -> pg_baseaddr g < pg_endaddr g ->
  page_add_range start e page_init = Ret (tt, p) -> pagegroup_list p = [g].
Proof. intros Eg Hlt. unfold page_add_range. rewrite Eg, (proj2 (Z.ltb_lt _ _) Hlt). intros [= <-]. reflexivity. Qed.

Lemma align_down_eq x : is_u32 x -> PAGE_ALIGN_DOWN x = 4096 * (x / 4096).
Proof. intros Hx. rewrite PAGE_ALIGN_DOWN_eq, u32_small by done. done. Qed.

(** The first range: aligned down at both ends. *)
Lemma first_range start e : 4096 <= start < two32 -> 0 <= e < two32 -> PAGE_ALIGN_DOWN start + 8192 <= PAGE_ALIGN_DOWN e ->
  exists p hi, page_add_range start e page_init = Ret (tt, p) /\ pl_owns [(PAGE_ALIGN_DOWN start, hi)] ∅ p /\ PAGE_ALIGN_DOWN start + 4096 <= hi <= PAGE_ALIGN_DOWN e.
Proof.
  intros Hs He Hlen. destruct (page_add_range_ok [] page_init start e page_init_ok Hs He Hlen ltac:(constructor)) as (p & γ & n & E & Hinv & HA & _).
  pose proof (align_down_eq start ltac:(unfold is_u32; lia)) as E1. pose proof (align_down_eq e ltac:(unfold is_u32; lia)) as E2.
  destruct (pagegroup_create_ok (PAGE_ALIGN_DOWN start) (PAGE_ALIGN_DOWN e)) as (g & n' & Eg & _ & _ & Eb & Ee & Hn & Hle); [rewrite E1; dlia|rewrite E1; dlia|rewrite E2; dlia|unfold two32 in *; rewrite E1, E2 in *; dlia|].
  exists p, (pg_endaddr g). split; [exact E|]. split; [|lia]. exists [γ]. split; [exact Hinv|]. split.
  - unfold ranges. rewrite (add_range_group _ _ _ _ Eg ltac:(lia) E). unfold range_of. cbn [fmap list_fmap]. by rewrite Eb.
  - intros x o. split; [intros Hx; exfalso; exact (not_elem_of_empty _ Hx)|]. intros (i & j & γ' & g' & HG & _ & Hin & _).
    destruct i; [|done]. injection HG as <-. rewrite HA in Hin. set_solver.
Qed.

(** All tables made: the allocator's memory is mapped. *)
Lemma ini_mapped s hi : ini (ntabs + 1) s -> hi <= physmax + koff -> boot_mapped koff [(tab (ntabs + 1), hi)] ke (ke + 8192) (tab 0) (wd s).
Proof.
  intros Hini Hhi. pose proof Hini as [i1 i2 i3 i4 i5]. pose proof lay_nums as (L1 & L2 & L3 & L4 & L5 & L6 & L7). assert (koff = 3220176896) as Hko by done.
  assert (forall a, kpage [(tab (ntabs + 1), hi)] a -> a mod 4096 = 0 /\ ke + 4096 * (ntabs + 4) <= a /\ a + 4096 <= physmax + koff) as Hk.
  { intros a (H1 & H2 & lo & h & Hin & H3 & H4). apply list_elem_of_singleton in Hin as [= -> ->]. pages. split; [done|]. lia. }
  constructor.
  - split; [by rewrite Hko|]. intros a (H1 & H2 & H3)%Hk. pages. lia.
  - intros a i (H1 & H2 & H3)%Hk Hi. apply mem_page; [done|done|lia|done|done].
  - intros a i Ha Hi. apply mem_page; [done|..|done]; destruct Ha as [->|[->| ->]]; pages; [dlia|dlia|dlia|lia..].
  - intros a b Ha (H1 & H2 & H3)%Hk. destruct Ha as [->|[->| ->]]; pages; lia.
  - split; [done|]. pages. lia.
  - intros i d Hi. unfold user_ix in Hi. rewrite i3 by lia. unfold dirw. rewrite !decide_False by lia. by intros [= <-].
  - split; [|split; [|pages; lia]].
    + destruct (mem_page (wd s) (ke + 8192) i2) with (j := 1023) as (x & Ex & _); [dlia|lia|lia|lia|eauto].
    + intros a (H1 & H2 & H3)%Hk. pages. lia.
  - intros a Ha. pose proof Ha as (H1 & H2 & H3)%Hk. assert (is_u32 a) as Hau by (unfold is_u32, two32; lia). rewrite pdindex_eq by done.
    set (m := a / 4194304 - 768). assert (0 <= m < ntabs) as Hm by (unfold m; dlia). replace (a / 4194304) with (768 + m) by (unfold m; lia). split; [lia|].
    destruct (tab_index (m + 1) ltac:(lia)) as (_ & _ & Htu & _ & Hta & _).
    exists (Z.lor (phys (tab (m + 1))) 3), (fill_word (1048576 + 4194304 * m) (vaddr_to_ptindex a)).
    split; [rewrite i3 by lia; unfold dirw; upds; do 3 f_equal; pages; lia|]. split; [apply lor_u32; [done|unfold is_u32, two32; lia]|].
    rewrite mask_lor, mask_aligned by (done || lia).
    assert (vaddr_to_ptindex a = (a / 4096) mod 1024) as Hpt by (unfold vaddr_to_ptindex, PT_ENTRY_COUNT; rewrite ADDR_TO_PN_div, u32_small by done; done).
    split; [rewrite i5 by (lia || apply ptindex_range); do 2 f_equal; lia|]. split.
    { rewrite fill_word_mask, Hpt; [|dlia|rewrite Hpt; unfold two32; dlia]. unfold Pagetable.phys. rewrite Hko. unfold m. dlia. }
    split; [intros b (B1 & B2 & B3)%Hk; pages; lia|]. pages. lia.
Qed.

(** [pt_init] on the machine the boot loader leaves. *)
Lemma init_ok s : loader_ran s -> exists s' hi, pt_init KERNEL_START ke mmap s = Ret (tt, s') /\
  boot_mapped koff [(tab (ntabs + 1), hi)] ke (ke + 8192) (tab 0) (wd s') /\ pl_owns [(tab (ntabs + 1), hi)] ∅ (palloc s') /\
  current_pagedir s' = ke /\ final_page s' = ke + 8192 /\ cr3 s' = phys ke /\ tab (ntabs + 1) + 4096 <= hi /\ page_add_range (tab (ntabs + 1) + 1024) (physmax + koff) page_init = Ret (tt, palloc s') /\
  wd s' (phys ke) (768 + ntabs) = Some (Z.lor (phys (tab (ntabs + 1))) 3).
Proof.
  intros Hb. pose proof lay_nums as (L1 & L2 & L3 & L4 & L5 & L6 & L7). assert (koff = 3220176896) as Hko by done.
  destruct (init_head s Hb) as (s1 & E1 & F1 & M1 & D1 & C1 & P1 & Low1). pose proof Hb as [b1 b2 b3 b4 b5].
  destruct (init_window s1 F1 M1 D1 C1) as (s2 & E2 & Hemp & P2); [by rewrite Low1 by done|intros j Hj; rewrite Low1 by lia; by apply b4|].
  destruct (first_tables s2 Hemp) as (s3 & s4 & E3 & E4 & Hini & P4). destruct (first_set s4 Hini) as (s5 & E5 & Hini5 & Hcur & Hcr & P5).
  destruct (map_memory_ok 1024 1 s5 ltac:(lia) ltac:(lia) Hini5 Hcr) as (s6 & E6 & Hini6 & (R1 & R2 & R3 & R4 & R5) & P6).
  pose proof align_down_eq as Hal.
  assert (is_u32 (tab (ntabs + 1) + 1024) /\ is_u32 (physmax + koff)) as [Hu1 Hu2] by (unfold is_u32, two32; pages; lia).
  destruct (first_range (tab (ntabs + 1) + 1024) (physmax + koff)) as (p & hi & Ep & Ho & Hhi); [unfold is_u32 in Hu1; pages; lia|exact Hu2|rewrite !Hal by done; pages; dlia|].
  rewrite !Hal in * by done. replace (4096 * ((tab (ntabs + 1) + 1024) / 4096)) with (tab (ntabs + 1)) in * by (pages; dlia).
  exists (set_palloc p s6), hi. split; [|split; [apply (ini_mapped s6); [exact Hini6|dlia]|]].
  - unfold pt_init. rewrite bind_gets, b1. rewrite !(u32_small (ke + 2 * PAGE_SIZE)) by (unfold is_u32, two32, PAGE_SIZE; lia). change (2 * PAGE_SIZE) with 8192. rewrite E1.
    rewrite <- Z.lor_assoc. change (Z.lor PT_PRESENT PT_WRITE) with 3. change (Z.lor PD_PRESENT PD_WRITE) with 3. change (PT_ENTRY_COUNT - 1) with 1023.
    replace (u32 (ke + 8192 - KERNEL_START + KERNEL_PHYS_BASE)) with (phys (ke + 8192)) by (rewrite u32_small; unfold is_u32, two32, Pagetable.phys, KERNEL_START, KERNEL_PHYS_BASE; lia).
    rewrite E2. replace (u32 (ke + 8192 + PAGE_SIZE)) with (tab 0) by (rewrite u32_small; unfold is_u32, two32; pages; lia).
    replace (u32 (tab 0 + PAGE_SIZE)) with (tab 1) by (rewrite u32_small; unfold is_u32, two32; pages; lia). rewrite (bind_eq _ _ _ _ _ E3), (bind_eq _ _ _ _ _ E4), <- bind_bind, (bind_eq _ _ _ _ _ E5).
    rewrite (bind_eq _ _ _ physmax s5) by (by rewrite (lay_mmap Hlay)). rewrite (bind_eq _ _ _ _ _ E6). unfold on_palloc. rewrite P6, P5, P4, P2, P1.
    rewrite !u32_small; [|unfold is_u32, two32, KERNEL_START, KERNEL_PHYS_BASE in *; lia|done]. replace (physmax + KERNEL_START - KERNEL_PHYS_BASE) with (physmax + koff) by lia. change PT_ENTRY_COUNT with 1024. by rewrite Ep.
  - split; [done|]. split; [cbn; congruence|]. split; [apply Hini6|]. split; [cbn; congruence|]. split; [lia|]. split; [exact Ep|]. cbn. rewrite (i_dir _ _ Hini6) by lia. unfold dirw. upds. do 3 f_equal. pages. lia.
Qed.
End init.

(** ** From the boot loader to the template *)

(** C9: [pt_init] and [pt_template_init] on the machine as the boot loader leaves it.
    [pt_init] returns with a page directory that maps the memory of the page
    allocator and is the one the processor uses.  The
    allocator's memory starts at the page of the last page table, which the new
    directory still refers to: [page_add_range] is called with the address of that
    table plus 1024 bytes and aligns it down.  [pt_template_init] then either
    establishes the invariant, or stops at its assertion when the allocator has no two
    pages. *)
Theorem pt_boot_correct ke physmax mmap s : layout ke physmax mmap -> loader_ran physmax s ->
  let koff := KERNEL_START - KERNEL_PHYS_BASE in let last := tab ke (ntabs physmax + 1) in
  exists s1 hi, pt_init KERNEL_START ke mmap s = Ret (tt, s1) /\ cr3 s1 = phys koff ke /\ last + 4096 <= hi /\ kpage [(last, hi)] last /\
    pword (mem s1) (phys koff ke) (768 + ntabs physmax) = Some (Z.lor (phys koff last) 3) /\
    ((pt_template_init koff s1 = Stop Assert /\ pa_alloc_n 2 (palloc s1) = Ret (None, palloc s1)) \/
     exists t s2, pt_template_init koff s1 = Ret (tt, s2) /\ template_pagedir s2 = t /\ ptinv koff [(last, hi)] {[(t, 1%nat)]} [] s2 /\ cr3 s2 = phys koff ke).
Proof.
  intros Hlay Hb koff last. destruct (init_ok ke physmax mmap Hlay s Hb) as (s1 & hi & E & Hm & Ho & Hc & Hf & Hr & Hhi & _ & Hlast).
  exists s1, hi. split; [exact E|]. split; [exact Hr|]. split; [exact Hhi|]. split.
  { destruct (tab_index ke physmax mmap Hlay (ntabs physmax + 1)) as (_ & _ & _ & Ha & _ & Hlt); [pose proof (lay_nums ke physmax mmap Hlay); lia|].
    split; [exact Ha|]. split; [exact Hlt|]. exists last, hi. split; [by apply list_elem_of_singleton|]. unfold last. lia. }
  split; [exact Hlast|]. assert (boot_mapped koff [(last, hi)] (current_pagedir s1) (final_page s1) (tab ke 0) (pword (mem s1))) as Hm' by (rewrite Hc, Hf; exact Hm).
  destruct (template_init_ok koff _ ∅ s1 _ Hm' Ho) as [?|(t & s2 & E2 & Ht & _ & Hinv & _ & _ & Hcr)]; [by left|right].
  exists t, s2. split; [exact E2|]. split; [exact Ht|]. rewrite union_empty_r_L in Hinv. split; [exact Hinv|]. by rewrite Hcr.
Qed.

(** ** A machine with two megabytes *)

Definition boot_dir : list Z := <[768%nat := 16643]> (replicate 1024 0).
Definition boot_tab : list Z := (fun k : nat => 1048835 + 4096 * Z.of_nat k) <$> seq 0 1024.
Definition boot_page (k : nat) : list Z := if decide (k = 2%nat) then boot_dir else if decide (k = 4%nat) then boot_tab else replicate 1024 0.
Definition boot_mem : gmap Z (list Z) := list_to_map ((fun k => (4096 * Z.of_nat k, boot_page k)) <$> seq 0 512).
Definition boot_map : list mmap_entry := [MmapEntry 0 654336 1; MmapEntry 1048576 1048576 1].
Definition boot_machine : pts pages := Pts boot_mem 0 0 1 0 PAGE_DIRECTORY_BASE [] page_init.

Lemma boot_mem_page k : (k < 512)%nat -> boot_mem !! (4096 * Z.of_nat k) = Some (boot_page k).
Proof.
  intros Hk. apply elem_of_list_to_map_1.
  - rewrite <- list_fmap_compose. apply NoDup_fmap_2; [intros x y; cbn; lia|apply NoDup_seq].
  - apply list_elem_of_fmap. exists k. split; [done|]. apply elem_of_seq. lia.
Qed.

Lemma boot_page_words k j : (j < 1024)%nat -> exists x, boot_page k !! j = Some x /\ is_u32 x.
Proof.
  intros Hj. unfold boot_page. destruct (decide _); [|destruct (decide _)].
  - unfold boot_dir. destruct (decide (j = 768%nat)) as [->|]; [by exists 16643|]. exists 0. split; [|done]. rewrite list_lookup_insert_ne by done. by apply lookup_replicate_2.
  - exists (1048835 + 4096 * Z.of_nat j). split; [unfold boot_tab; rewrite list_lookup_fmap, lookup_seq_lt by done; done|unfold is_u32, two32; lia].
  - exists 0. split; [by apply lookup_replicate_2|done].
Qed.

Lemma boot_machine_ok : loader_ran 2097152 boot_machine.
Proof.
  constructor; [done|..|done].
  - intros p j H1 H2 H3 H4. cbn [mem boot_machine]. unfold pword. replace p with (4096 * Z.of_nat (Z.to_nat (p / 4096))) by dlia. rewrite boot_mem_page by dlia. cbn [mbind option_bind].
    rewrite (proj2 (Z.leb_le 0 j)) by lia. apply boot_page_words. lia.
  - cbn [mem boot_machine]. unfold pword. change PAGE_DIRECTORY_BASE with (4096 * Z.of_nat 2). rewrite boot_mem_page by lia. done.
  - intros j Hj. cbn [mem boot_machine]. unfold pword. change (PAGE_DIRECTORY_BASE + 8192) with (4096 * Z.of_nat 4). rewrite boot_mem_page by lia. cbn [mbind option_bind].
    rewrite (proj2 (Z.leb_le 0 j)) by lia. unfold boot_page. rewrite decide_False, decide_True by done. unfold boot_tab. rewrite list_lookup_fmap, lookup_seq_lt by lia. cbn. do 2 f_equal. lia.
Qed.

Lemma boot_layout : layout KERNEL_START 2097152 boot_map.
Proof. constructor; [done|done|done|vm_compute; discriminate|vm_compute; discriminate]. Qed.

Lemma pt_boot_correct_witness : exists s1 hi, pt_init KERNEL_START KERNEL_START boot_map boot_machine = Ret (tt, s1) /\
  kpage [(KERNEL_START + 20480, hi)] (KERNEL_START + 20480).
Proof.
  destruct (pt_boot_correct KERNEL_START 2097152 boot_map boot_machine boot_layout boot_machine_ok) as (s1 & hi & E & _ & _ & Hk & _).
  exists s1, hi. exact (conj E Hk).
Defined.
