(* ===== verification/PagetableOps.v ===== *)
(** * Page tables: what the operations promise

    [pt_map], [pt_unmap], [pt_unmap_range], [pt_create_pagedir] and
    [pt_destroy_pagedir] against the walk of the processor, with the page allocator
    behind the interface [PageLaws], and their use with the buddy allocator of
    mm/page.c. *)

From S2P Require Import Prelude Page Slab SlabPages Vmmap Pagetable PagetableSpec PagetableRun PagetableInit.

Section ops.
Context {P : Type} `{PageLaws P}.
Variables (koff : Z) (R : list (Z * Z)).

Abbreviation phys := (phys koff).
Abbreviation K := (M (pts P)).
Abbreviation wd s := (pword (mem s)).
Abbreviation ptinv := (ptinv koff R).
Abbreviation tab_at := (tab_at koff).

Implicit Types s : pts P.

(** The translation the processor finds for [v] in the page directory [pd]. *)
Abbreviation walk s pd v := (mmu (wd s) (phys pd) v).

(** The entry [v] is given in [pd]; everything else stays as it was. *)
Definition maps (pds : list Z) s s' (pd v : Z) (e : option Z) : Prop :=
  forall pd' v', pd' ∈ pds -> user_addr v' ->
    walk s' pd' v' = if decide (pd' = pd /\ ADDR_TO_PN v' = ADDR_TO_PN v) then e else walk s pd' v'.

(** The pages in [hits] lose their translation in [pd]; everything else stays. *)
Definition unmaps (pds : list Z) s s' (pd : Z) (hits : Z -> bool) : Prop :=
  forall pd' v, pd' ∈ pds -> user_addr v ->
    walk s' pd' v = if decide (pd' = pd) then if hits (ADDR_TO_PN v) then None else walk s pd' v else walk s pd' v.

Lemma unmaps_trans pds s1 s2 s3 pd h1 h2 h : unmaps pds s1 s2 pd h1 -> unmaps pds s2 s3 pd h2 ->
  (forall n, h n = h1 n || h2 n) -> unmaps pds s1 s3 pd h.
Proof.
  intros H1 H2 Eh pd' v Hpd' Hv. rewrite H2, H1 by done. destruct (decide _); [|done]. rewrite Eh. by destruct (h1 _), (h2 _).
Qed.

Lemma map_table_ok B pds s pd i f : ptinv B pds s -> pd ∈ pds -> user_ix i -> 0 <= f < 4096 -> present f = true ->
  (map_table koff pd i f s = Ret (None, s) /\ table_alloc s = Ret (None, s)) \/
  exists t s' B', map_table koff pd i f s = Ret (Some t, s') /\ B ⊆ B' /\ table_ready koff R B' pds s s' pd i t.
Proof.
  intros Hinv Hpd Hi Hf Hfp. destruct (dir_facts koff R _ _ _ _ Hinv Hpd) as (Hk & _).
  destruct (pinv_page koff R _ _ _ _ i Hinv Hk ltac:(unfold user_ix in Hi; lia)) as (d & Ed & _). destruct (present d) eqn:Hpr.
  - right. destruct (map_table_old koff R B pds s pd i d f Hinv Hpd Hi Hf Ed Hpr) as (t & s' & E & Hr). by exists t, s', B.
  - destruct (map_table_new koff R B pds s pd i d f Hinv Hpd Hi Hf Hfp Ed Hpr) as [E|(t & s' & E & Hr)].
    + left. split; [done|]. unfold map_table in E. rewrite (bind_eq _ _ _ _ _ (ld_word_eq koff _ _ _ _ Ed)), Hpr in E. cbn [negb] in E.
      destruct (new_table koff R B pds s f Hinv Hf) as [Ea|(t & s0 & s2 & Ea & Ek & _ & Hkt & Hinv2 & Hr2 & _)]; [done|exfalso].
      rewrite (bind_eq _ _ _ _ _ Ea), Ek in E.
      destruct (wr_entry koff R _ pds s2 pd i (Z.lor (phys t) f) t Hinv2 Hpd Hi) as (s3 & E3 & _). by rewrite E3 in E.
    + right. exists t, s'. eexists. split; [done|]. split; [|done]. set_solver.
Qed.

Lemma aligned_absent p : PAGE_ALIGNED p = true -> is_u32 p -> present p = false.
Proof.
  unfold PAGE_ALIGNED, PAGE_SIZE. intros E Hp. rewrite u32_small in E by done. apply Z.eqb_eq in E. rewrite present_odd.
  rewrite (Z.div_mod p 4096), E, Z.add_0_r, Z.odd_mul by lia. done.
Qed.

(** C7: [pt_map] on a page directory in use.  Either there is no page for a
    page table, the result is [-ENOMEM] and nothing changed (slabs reclaimed by the
    failing allocation apart, which are not part of this state); or the result is 0, the
    page of [vaddr] is mapped with the new entry in [pd], and no other
    translation, in [pd] or in any other page directory, is touched. *)
Theorem pt_map_correct B pds s pd vaddr paddr pdflags ptflags :
  ptinv B pds s -> pd ∈ pds -> user_addr vaddr -> PAGE_ALIGNED vaddr = true ->
  is_u32 paddr -> PAGE_ALIGNED paddr = true -> is_flags pdflags = true -> is_flags ptflags = true -> present pdflags = true ->
  (pt_map koff pd vaddr paddr pdflags ptflags s = Ret (- ENOMEM, s) /\ table_alloc s = Ret (None, s)) \/
  exists s' B', pt_map koff pd vaddr paddr pdflags ptflags s = Ret (0, s') /\ B ⊆ B' /\ ptinv B' pds s' /\ same_regs s s' /\
    maps pds s s' pd vaddr (if present ptflags then Some (Z.lor paddr ptflags) else None).
Proof.
  intros Hinv Hpd Hv Hva Hp Hpa Hf1 Hf2 Hpr. unfold pt_map. rewrite Hva, Hpa, bind_assert by done.
  rewrite bind_assert by (unfold user_addr in Hv; lia). pose proof (proj1 (is_flags_iff _) Hf1) as Hf. pose proof (proj1 (is_flags_iff _) Hf2) as Hf'.
  destruct (map_table_ok B pds s pd _ pdflags Hinv Hpd (user_pdindex _ Hv) Hf Hpr) as [[E Ea]|(t & s1 & B' & E & Hsub & Hinv1 & Hr1 & Htab & Hsame)].
  { left. by rewrite (bind_eq _ _ _ _ _ E). }
  right. rewrite (bind_eq _ _ _ _ _ E), bind_assert by done.
  destruct (wr_table koff R B' pds s1 pd t vaddr (Z.lor paddr ptflags) Hinv1 Hpd Hv Htab) as (s' & Ew & Hinv' & Hr' & Hm).
  { apply lor_u32; [done|]. unfold is_u32, two32. lia. }
  exists s', B'. rewrite (bind_eq _ _ _ _ _ Ew). split; [done|]. split; [done|]. split; [done|]. split; [by eapply same_regs_trans|].
  intros pd' v' Hpd' Hv'. rewrite Hm, Hsame by done. unfold entry_of. by rewrite present_lor, aligned_absent.
Qed.

(** [pt_unmap] of an address in the user range: the page of [vaddr] has no
    translation in [pd] afterwards, and nothing else changes. *)
Theorem pt_unmap_correct B pds s pd vaddr : ptinv B pds s -> pd ∈ pds -> user_addr vaddr -> PAGE_ALIGNED vaddr = true ->
  exists s', Pagetable.pt_unmap koff pd vaddr s = Ret (tt, s') /\ ptinv B pds s' /\ same_regs s s' /\ maps pds s s' pd vaddr None.
Proof.
  intros Hinv Hpd Hv Hva. unfold Pagetable.pt_unmap. rewrite bind_assert by done. rewrite bind_assert by (unfold user_addr in Hv; lia).
  destruct (mmu_table koff R _ _ _ _ _ _ pd vaddr (proj2 Hinv) Hpd Hv) as (d & Ed & _ & Hm).
  rewrite (bind_eq _ _ _ _ _ (ld_word_eq koff _ _ _ _ Ed)). destruct (present d) eqn:Hpr.
  - destruct Hm as (t & Et & _). rewrite (bind_eq _ _ _ _ _ (ld_word_eq koff _ _ _ _ Et)).
    destruct (wr_table koff R B pds s pd t vaddr 0 Hinv Hpd Hv) as (s' & E & H1 & H2 & H3); [by exists d|done|]. by exists s'.
  - exists s. split; [done|]. split; [done|]. split; [done|]. intros pd' v' Hpd' Hv'. destruct (decide _) as [[-> E]|]; [|done].
    apply page_indices in E as [E1 E2]. rewrite <- Hm. unfold mmu. by rewrite E1, E2.
Qed.

(** ** Ranges *)

(** Words [i] to [i + n] of the table of [v] cleared. *)
Lemma clear_part_ok B pds s pd v i n (nz : bool) : ptinv B pds s -> pd ∈ pds ->
  user_ix (vaddr_to_pdindex v) \/ nz = false /\ vaddr_to_pdindex v = 768 -> 0 <= i -> 0 <= n -> i + n <= 1024 ->
  exists s', clear_part koff pd v i n nz s = Ret (tt, s') /\ ptinv B pds s' /\ same_regs s s' /\
    (forall p j, p ∈ pds -> wd s' (phys p) j = wd s (phys p) j /\ wd s' (phys (pd_virtual p)) j = wd s (phys (pd_virtual p)) j) /\
    unmaps pds s s' pd (fun pn => same_pt v pn && nz && ((i <=? pn mod PT_ENTRY_COUNT) && (pn mod PT_ENTRY_COUNT <? i + n))).
Proof.
  intros Hinv Hpd Hix Hi Hn Hle. destruct (dir_facts koff R _ _ _ _ Hinv Hpd) as (Hk & _).
  destruct (pinv_page koff R _ _ _ _ (vaddr_to_pdindex v) Hinv Hk) as (d & Ed & _); [unfold user_ix in Hix; lia|].
  unfold clear_part. rewrite (bind_eq _ _ _ _ _ (ld_word_eq koff _ _ _ _ Ed)). destruct (present d && nz) eqn:Hpn.
  - apply andb_true_iff in Hpn as [Hpr ->]. destruct Hix as [Hix|[]]; [|done].
    destruct (dir_table koff R _ _ _ _ _ _ Hinv Hpd Hix Ed Hpr) as (t & Et & Ht & _ & _ & Hdirs). rewrite (bind_eq _ _ _ _ _ (ld_word_eq koff _ _ _ _ Et)).
    assert (kpage R t) as Hkt by (eapply table_page; [apply (po_good _ _ _ _ _ _ _ _ (proj2 Hinv))|done]).
    destruct (zero_eq koff t i n s) as (s' & E & Hw & Hr & Hp); [|done|done|done|].
    { intros j Hj. destruct (pinv_page koff R _ _ _ _ j Hinv Hkt Hj) as (x & Ex & _). eauto. }
    assert (forall p j, p <> phys t -> wd s' p j = wd s p j) as Hout.
    { intros p j Hne. rewrite Hw. unfold zeroed. by rewrite decide_False by (by intros [? _]). }
    assert (tab_at s pd (vaddr_to_pdindex v) t) as Htab by (by exists d).
    destruct (table_change koff R B pds s s' pd (vaddr_to_pdindex v) t Hinv Hpd Hix Htab) as [Hinv' Hm]; try done.
    { intros j x Hx. rewrite Hw. unfold zeroed. destruct (decide _); [by exists 0|eauto]. }
    exists s'. split; [done|]. split; [done|]. split; [done|]. split.
    { intros p j Hin. destruct (Hdirs p Hin). split; apply Hout; congruence. }
    intros pd' v' Hpd' Hv'. rewrite Hm by done. destruct (decide (pd' = pd)) as [->|]; [|by rewrite decide_False by (by intros [])].
    rewrite andb_true_r. unfold same_pt. change (ADDR_TO_PN v' / PT_ENTRY_COUNT) with (vaddr_to_pdindex v'). change (ADDR_TO_PN v' mod PT_ENTRY_COUNT) with (vaddr_to_ptindex v').
    destruct (Z.eqb_spec (vaddr_to_pdindex v') (vaddr_to_pdindex v)) as [Ei|]; cbn [andb]; [|by rewrite decide_False by (by intros [])].
    rewrite decide_True by done. rewrite Hw. unfold zeroed. destruct (decide _) as [[_ Hj]|Hj].
    + rewrite (proj2 (Z.leb_le _ _)), (proj2 (Z.ltb_lt _ _)) by lia. done.
    + destruct (Z.leb_spec i (vaddr_to_ptindex v')), (Z.ltb_spec (vaddr_to_ptindex v') (i + n)); cbn [andb]; [lia|..]; symmetry; by rewrite (tab_mmu koff R B pds s pd t v') by (done || by rewrite Ei).
  - exists s. split; [done|]. split; [done|]. split; [done|]. split; [done|]. intros pd' v' Hpd' Hv'. destruct (decide _) as [->|]; [|done].
    destruct nz; [|by rewrite andb_false_r]. rewrite andb_true_r in Hpn. unfold same_pt.
    change (ADDR_TO_PN v' / PT_ENTRY_COUNT) with (vaddr_to_pdindex v'). destruct (Z.eqb_spec (vaddr_to_pdindex v') (vaddr_to_pdindex v)) as [Ei|]; [|done].
    destruct (_ && _); [|done]. unfold mmu. by rewrite Ei, Ed, Hpn.
Qed.

(** The tables of the entries [lo] to [hi]. *)
Definition tables s (pd lo hi t : Z) : Prop := exists j, lo <= j < hi /\ tab_at s pd j t.

Lemma table_free_eq B pds s t : ptinv B pds s -> (t, 0%nat) ∈ B ->
  exists p', table_free t s = Ret (tt, set_palloc p' s) /\ pl_owns R (B ∖ {[(t, 0%nat)]}) p'.
Proof.
  intros [Ho _] Ht. destruct (pl_free R B (palloc s) t 0 Ho Ht) as (p' & E & Ho'). exists p'. split; [|done].
  unfold table_free, on_palloc. change (npages_of 0) with 1 in E. by rewrite E.
Qed.

(** One table freed. *)
Lemma free_table_ok B pds s pd i t : ptinv B pds s -> pd ∈ pds -> user_ix i -> tab_at s pd i t ->
  exists s', (table_free t ;;; st_word koff (pd_virtual pd) i 0 ;;; st_word koff pd i 0) s = Ret (tt, s') /\
    ptinv (B ∖ {[(t, 0%nat)]}) pds s' /\ same_regs s s' /\
    (forall p j, wd s' p j = if decide (p = phys pd /\ j = i) then Some 0 else if decide (p = phys (pd_virtual pd) /\ j = i) then Some 0 else wd s p j).
Proof.
  intros Hinv Hpd Hi (d & Ed & Hpr & Et). destruct (dir_table koff R _ _ _ _ _ _ Hinv Hpd Hi Ed Hpr) as (t0 & Et0 & Ht & _).
  assert (t0 = t) as -> by congruence. destruct (table_free_eq B pds s t Hinv Ht) as (p' & Ef & Ho).
  destruct (dir_facts koff R _ _ _ _ Hinv Hpd) as (_ & _ & Hne & _).
  destruct (st_word_eq koff (pd_virtual pd) i t 0 (set_palloc p' s) Et) as (s1 & E1 & Hw1 & Hr1 & Hp1).
  destruct (st_word_eq koff pd i d 0 s1) as (s2 & E2 & Hw2 & Hr2 & Hp2).
  { rewrite Hw1. unfold upd. rewrite decide_False; [done|]. by intros [? _]. }
  assert (forall p j, wd s2 p j = if decide (p = phys pd /\ j = i) then Some 0 else if decide (p = phys (pd_virtual pd) /\ j = i) then Some 0 else wd s p j) as Hw.
  { intros p j. rewrite Hw2. unfold upd. by rewrite Hw1. }
  assert (same_regs s s2) as Hr by (eapply same_regs_trans; [exact Hr1|exact Hr2]).
  exists s2. split; [by rewrite (bind_eq _ _ _ _ _ Ef), (bind_eq _ _ _ _ _ E1)|]. split; [|done].
  eapply (pinv_entry koff R B _ pds s s2 pd i 0 0); try done.
  - by rewrite Hp2, Hp1.
  - intros a Ha. set_solver.
  - intros pd2 i2 d2 t2 Hp2' Hi2 Hn2 Hd2 Hpr2 Ht2. destruct (dir_table koff R _ _ _ _ _ _ Hinv Hp2' Hi2 Hd2 Hpr2) as (t3 & Et3 & Hin & _).
    assert (t3 = t2) as -> by congruence. split; [|done]. apply elem_of_difference. split; [done|]. intros [= ->]%elem_of_singleton.
    apply Hn2. by destruct (po_inj _ _ _ _ _ _ _ _ (proj2 Hinv) pd2 i2 d2 pd i d t) as [-> ->].
Qed.

(** The blocks left when the tables [T] are freed. *)
Definition minus_tables (B : gset (Z * nat)) (T : Z -> Prop) (B' : gset (Z * nat)) : Prop :=
  forall x, x ∈ B' <-> x ∈ B /\ ~ exists t, x = (t, 0%nat) /\ T t.

(** One entry of the directory in [pt_unmap_range]. *)
Lemma free_entry_ok B pds s pd i : ptinv B pds s -> pd ∈ pds -> user_ix i ->
  exists s' B', (let! d := ld_word koff pd i in if present d then let! pt := ld_word koff (pd_virtual pd) i in table_free pt ;;; st_word koff (pd_virtual pd) i 0 ;;; st_word koff pd i 0 else ret tt) s = Ret (tt, s') /\
    ptinv B' pds s' /\ same_regs s s' /\ minus_tables B (tab_at s pd i) B' /\ (forall j t, j <> i -> tab_at s' pd j t <-> tab_at s pd j t) /\
    unmaps pds s s' pd (fun pn => pn / PT_ENTRY_COUNT =? i).
Proof.
  intros Hinv Hpd Hi. destruct (dir_facts koff R _ _ _ _ Hinv Hpd) as (Hk & _ & Hne & _).
  destruct (pinv_page koff R _ _ _ _ i Hinv Hk ltac:(unfold user_ix in Hi; lia)) as (d & Ed & _).
  rewrite (bind_eq _ _ _ _ _ (ld_word_eq koff _ _ _ _ Ed)). destruct (present d) eqn:Hpr.
  - destruct (dir_table koff R _ _ _ _ _ _ Hinv Hpd Hi Ed Hpr) as (t & Et & Ht & _). rewrite (bind_eq _ _ _ _ _ (ld_word_eq koff _ _ _ _ Et)).
    assert (tab_at s pd i t) as Htab by (by exists d). destruct (free_table_ok B pds s pd i t Hinv Hpd Hi Htab) as (s' & E & Hinv' & Hr & Hw).
    exists s', (B ∖ {[(t, 0%nat)]}). split; [done|]. split; [done|]. split; [done|]. split; [|split].
    + intros x. rewrite elem_of_difference, elem_of_singleton. split; intros [H1 H2]; (split; [done|]).
      * intros (t2 & -> & d2 & _ & _ & Et2). apply H2. by assert (t2 = t) as -> by congruence.
      * intros ->. apply H2. by exists t.
    + intros j t2 Hj. unfold PagetableRun.tab_at. rewrite !Hw, !decide_False by (by intros [_ ?]). done.
    + intros pd' v Hpd' Hv. pose proof (user_pdindex v Hv) as Hiv. change (ADDR_TO_PN v / PT_ENTRY_COUNT) with (vaddr_to_pdindex v).
      destruct (dirs_apart koff R B pd' pd (po_good _ _ _ _ _ _ _ _ (proj2 Hinv))) as (Hap1 & Hap2 & _); [by apply (po_pds _ _ _ _ _ _ _ _ (proj2 Hinv))..|].
      destruct (decide (pd' = pd /\ vaddr_to_pdindex v = i)) as [[-> <-]|Hn].
      * rewrite decide_True, Z.eqb_refl by done. unfold mmu. by rewrite Hw, decide_True.
      * transitivity (walk s pd' v); [|destruct (decide _) as [->|]; [|done]; destruct (Z.eqb_spec (vaddr_to_pdindex v) i); [by destruct Hn|done]].
        apply mmu_same; [rewrite Hw, !decide_False; [done|by intros [? _]|intros [Hx Hy]; by destruct Hn; split; [apply Hap2|]]|].
        intros d2 Hd2 Hpr2. destruct (dir_table koff R _ _ _ _ _ _ Hinv Hpd' Hiv Hd2 Hpr2) as (t2 & _ & _ & -> & _ & Hdirs). destruct (Hdirs pd Hpd).
        rewrite Hw, !decide_False; [done|by intros [? _]..].
  - exists s, B. split; [done|]. split; [done|]. split; [done|]. split; [|split; [done|]].
    + intros x. split; [|by intros []]. intros Hx. split; [done|]. intros (t & _ & d2 & Ed2 & Hpr2 & _). congruence.
    + intros pd' v Hpd' Hv. change (ADDR_TO_PN v / PT_ENTRY_COUNT) with (vaddr_to_pdindex v). destruct (decide _) as [->|]; [|done].
      destruct (Z.eqb_spec (vaddr_to_pdindex v) i) as [Ei|]; [|done]. unfold mmu. by rewrite Ei, Ed, Hpr.
Qed.

Lemma free_tables_ok n : forall B pds s pd i, ptinv B pds s -> pd ∈ pds -> 1 <= i -> i + Z.of_nat n <= 768 ->
  exists s' B', free_tables koff n pd i s = Ret (tt, s') /\ ptinv B' pds s' /\ same_regs s s' /\ minus_tables B (tables s pd i (i + Z.of_nat n)) B' /\
    unmaps pds s s' pd (fun pn => (i <=? pn / PT_ENTRY_COUNT) && (pn / PT_ENTRY_COUNT <? i + Z.of_nat n)).
Proof.
  induction n as [|n IH]; intros B pds s pd i Hinv Hpd Hlo Hhi.
  - exists s, B. split; [done|]. split; [done|]. split; [done|]. split.
    + intros x. split; [|by intros []]. intros Hx. split; [done|]. intros (t & _ & j & Hj & _). lia.
    + intros pd' v Hpd' Hv. destruct (decide _); [|done]. destruct (Z.leb_spec i (ADDR_TO_PN v / PT_ENTRY_COUNT)); [|done].
      destruct (Z.ltb_spec (ADDR_TO_PN v / PT_ENTRY_COUNT) (i + Z.of_nat 0)); [lia|done].
  - destruct (free_entry_ok B pds s pd i Hinv Hpd) as (s1 & B1 & E1 & Hinv1 & Hr1 & HB1 & Htab & Hu1); [unfold user_ix; lia|].
    destruct (IH B1 pds s1 pd (i + 1) Hinv1 Hpd) as (s2 & B2 & E2 & Hinv2 & Hr2 & HB2 & Hu2); [lia|lia|].
    exists s2, B2. split.
    { cbn [free_tables]. rewrite <- E2, <- (bind_eq _ (fun _ => free_tables koff n pd (i + 1)) _ _ _ E1). by rewrite bind_bind. }
    split; [done|]. split; [by eapply same_regs_trans|]. split.
    + intros x. rewrite (HB2 x), (HB1 x). split.
      * intros [[Hx H1] H2]. split; [done|]. intros (t & -> & j & Hj & Ht). destruct (decide (j = i)) as [->|Hji]; [apply H1; by exists t|].
        apply H2. exists t. split; [done|]. exists j. split; [lia|]. by apply Htab.
      * intros [Hx Hn]. split; [split; [done|]|]; intros (t & -> & Ht); apply Hn; exists t; (split; [done|]).
        -- exists i. split; [lia|done].
        -- destruct Ht as (j & Hj & Ht). exists j. split; [lia|]. apply Htab; [lia|done].
    + eapply unmaps_trans; [exact Hu1|exact Hu2|]. intros m. cbn beta. generalize (m / PT_ENTRY_COUNT). intros q. rewrite Nat2Z.inj_succ. destruct (Z.eqb_spec q i), (Z.leb_spec i q), (Z.leb_spec (i + 1) q), (Z.ltb_spec q (i + Z.succ (Z.of_nat n))), (Z.ltb_spec q (i + 1 + Z.of_nat n)); done || lia.
Qed.

(** The first and the last whole page table of a range. *)
Lemma range_ends vlow vhigh : USER_MEM_LOW <= vlow < vhigh -> vhigh <= USER_MEM_HIGH -> PAGE_ALIGNED vlow = true -> PAGE_ALIGNED vhigh = true ->
  let lo := vaddr_to_pdindex (u32 (vlow + PAGE_SIZE * ((PT_ENTRY_COUNT - vaddr_to_ptindex vlow) mod PT_ENTRY_COUNT))) in
  let hi := vaddr_to_pdindex (u32 (vhigh - PAGE_SIZE * vaddr_to_ptindex vhigh)) in
  lo = (vlow + PT_VADDR_SIZE - 1) / PT_VADDR_SIZE /\ hi = vhigh / PT_VADDR_SIZE /\ 1 <= lo <= 768 /\ hi <= 768 /\
  user_ix (vaddr_to_pdindex vlow) /\ (user_ix (vaddr_to_pdindex vhigh) \/ negb (vaddr_to_ptindex vhigh =? 0) = false /\ vaddr_to_pdindex vhigh = 768).
Proof.
  unfold USER_MEM_LOW, USER_MEM_HIGH, PAGE_ALIGNED, PAGE_SIZE, PT_ENTRY_COUNT, PT_VADDR_SIZE, user_ix. intros Hlo Hhi Al Ah.
  rewrite u32_small in Al, Ah by (unfold is_u32, two32; lia). apply Z.eqb_eq in Al, Ah.
  assert (is_u32 vlow /\ is_u32 vhigh) as [Hul Huh] by (unfold is_u32, two32; lia).
  unfold vaddr_to_ptindex, PT_ENTRY_COUNT. rewrite !ADDR_TO_PN_div, !(u32_small vlow), !(u32_small vhigh) by done.
  rewrite !(u32_small (_ + _)), !(u32_small (_ - _)) by (unfold is_u32, two32; dlia). rewrite !pdindex_eq by (unfold is_u32, two32 in *; dlia).
  split; [dlia|]. split; [dlia|]. split; [dlia|]. split; [dlia|]. split; [dlia|].
  destruct (Z.eqb_spec ((vhigh / 4096) mod 1024) 0) as [E|E]; cbn [negb]; [|left; dlia]. destruct (decide (vhigh = 3221225472)) as [->|]; [right; done|left; dlia].
Qed.

(** C10: [pt_unmap_range] on a page directory in use: in [pd] exactly the pages the
    function reaches lose their translation, which are the ones [unmap_hits] of
    Vmmap.v gives for the finite map; no other page directory changes, and the page
    tables that lie between the ends are returned to the page allocator. *)
Theorem pt_unmap_range_correct B pds s pd vlow vhigh :
  ptinv B pds s -> pd ∈ pds -> USER_MEM_LOW <= vlow < vhigh -> vhigh <= USER_MEM_HIGH -> PAGE_ALIGNED vlow = true -> PAGE_ALIGNED vhigh = true ->
  exists s' B', Pagetable.pt_unmap_range koff pd vlow vhigh s = Ret (tt, s') /\ ptinv B' pds s' /\ same_regs s s' /\
    minus_tables B (tables s pd ((vlow + PT_VADDR_SIZE - 1) / PT_VADDR_SIZE) (vhigh / PT_VADDR_SIZE)) B' /\
    unmaps pds s s' pd (unmap_hits vlow vhigh).
Proof.
  intros Hinv Hpd Hlo Hhi Al Ah. destruct (range_ends vlow vhigh Hlo Hhi Al Ah) as (El & Eh & Hl & Hh & Hil & Hih).
  unfold Pagetable.pt_unmap_range. rewrite bind_assert by lia. rewrite Al, Ah, bind_assert by done. rewrite bind_assert by lia.
  pose proof (ptindex_range vlow) as Hr1. pose proof (ptindex_range vhigh) as Hr2.
  destruct (clear_part_ok B pds s pd vlow (vaddr_to_ptindex vlow) (PT_ENTRY_COUNT - vaddr_to_ptindex vlow) (negb (vaddr_to_ptindex vlow =? 0)) Hinv Hpd)
    as (s1 & E1 & Hinv1 & Hg1 & Hd1 & Hu1); [by left|unfold PT_ENTRY_COUNT; lia..|]. rewrite (bind_eq _ _ _ _ _ E1).
  destruct (clear_part_ok B pds s1 pd vhigh 0 (vaddr_to_ptindex vhigh) (negb (vaddr_to_ptindex vhigh =? 0)) Hinv1 Hpd)
    as (s2 & E2 & Hinv2 & Hg2 & Hd2 & Hu2); [done|lia..|]. rewrite (bind_eq _ _ _ _ _ E2).
  unfold unmap_hits. set (lo := vaddr_to_pdindex (u32 (vlow + _))) in *. set (hi := vaddr_to_pdindex (u32 (vhigh - _))) in *.
  destruct (free_tables_ok (Z.to_nat (hi - lo)) B pds s2 pd lo Hinv2 Hpd) as (s3 & B3 & E3 & Hinv3 & Hg3 & HB3 & Hu3); [lia|lia|].
  exists s3, B3. split; [done|]. split; [done|]. split; [by eapply same_regs_trans, same_regs_trans|]. rewrite <- El, <- Eh. split.
  - intros x. rewrite (HB3 x). assert (forall t, tables s2 pd lo (lo + Z.of_nat (Z.to_nat (hi - lo))) t <-> tables s pd lo hi t) as Ht; [|by setoid_rewrite Ht].
    intros t. unfold tables, PagetableRun.tab_at. split; intros (j & Hj & d & H1 & H2 & H3); exists j; (split; [lia|]); exists d;
      destruct (Hd1 pd j Hpd) as [A1 A2], (Hd2 pd j Hpd) as [A3 A4]; split; [congruence|split; [done|congruence]|congruence|split; [done|congruence]].
  - eapply unmaps_trans; [exact Hu1|eapply unmaps_trans; [exact Hu2|exact Hu3|intros m; reflexivity]|]. intros m. cbn beta.
    assert (0 <= m mod PT_ENTRY_COUNT < PT_ENTRY_COUNT) as Hm by (apply Z.mod_pos_bound; done). rewrite <- orb_assoc. f_equal; [|f_equal].
    + rewrite (proj2 (Z.ltb_lt _ (_ + _))) by lia. by rewrite andb_true_r.
    + rewrite (proj2 (Z.leb_le 0 _)) by lia. by rewrite Z.add_0_l.
    + generalize (m / PT_ENTRY_COUNT). intros q. destruct (Z.leb_spec lo q), (Z.ltb_spec q hi), (Z.ltb_spec q (lo + Z.of_nat (Z.to_nat (hi - lo)))); done || lia.
Qed.

(** ** Page directories *)

(** The tables of an entry are in use. *)
Lemma tab_in B pds s pd i t : ptinv B pds s -> pd ∈ pds -> user_ix i -> tab_at s pd i t -> (t, 0%nat) ∈ B.
Proof.
  intros Hinv Hpd Hi (d & Ed & Hpr & Et). destruct (dir_table koff R _ _ _ _ _ _ Hinv Hpd Hi Ed Hpr) as (t' & Et' & Ht & _). by assert (t' = t) as -> by congruence.
Qed.

Lemma tab_inj B pds s pd i pd' i' t : ptinv B pds s -> pd ∈ pds -> user_ix i -> tab_at s pd i t -> pd' ∈ pds -> user_ix i' -> tab_at s pd' i' t ->
  pd = pd' /\ i = i'.
Proof. intros [_ Hok] Hpd Hi (d & Ed & Hpr & Et) Hpd' Hi' (d' & Ed' & Hpr' & Et'). by eapply (po_inj _ _ _ _ _ _ _ _ Hok pd i d pd' i' d' t). Qed.

Lemma destroy_tables_ok B pds s pd n : forall Bc p i, ptinv B pds s -> pd ∈ pds -> 1 <= i -> i + Z.of_nat n <= 768 -> pl_owns R Bc p ->
  (forall j t, i <= j < 768 -> tab_at s pd j t -> (t, 0%nat) ∈ Bc) ->
  exists p' B', destroy_tables koff n pd i (set_palloc p s) = Ret (tt, set_palloc p' s) /\ pl_owns R B' p' /\ minus_tables Bc (tables s pd i (i + Z.of_nat n)) B'.
Proof.
  induction n as [|n IH]; intros Bc p i Hinv Hpd Hi Hn Ho Hin.
  - exists p, Bc. split; [done|]. split; [done|]. intros x. split; [|by intros []]. intros Hx. split; [done|]. intros (t & _ & j & Hj & _). lia.
  - destruct (dir_facts koff R _ _ _ _ Hinv Hpd) as (Hk & _). destruct (pinv_page koff R _ _ _ _ i Hinv Hk ltac:(lia)) as (d & Ed & _).
    assert (user_ix i) as Hui by (unfold user_ix; lia). cbn [destroy_tables]. rewrite (bind_eq _ _ _ _ _ (ld_word_eq koff pd i d (set_palloc p s) Ed)). destruct (present d) eqn:Hpr.
    + destruct (dir_table koff R _ _ _ _ _ _ Hinv Hpd Hui Ed Hpr) as (t & Et & _). assert (tab_at s pd i t) as Htab by (by exists d).
      rewrite bind_bind, (bind_eq _ _ _ _ _ (ld_word_eq koff (pd_virtual pd) i t (set_palloc p s) Et)).
      destruct (pl_free R Bc p t 0 Ho (Hin i t ltac:(lia) Htab)) as (p1 & Ef & Ho1).
      assert (table_free t (set_palloc p s) = Ret (tt, set_palloc p1 s)) as Ef'.
      { unfold table_free, on_palloc. change (npages_of 0) with 1 in Ef. cbn [palloc set_palloc]. by rewrite Ef. }
      rewrite (bind_eq _ _ _ _ _ Ef'). destruct (IH _ p1 (i + 1) Hinv Hpd ltac:(lia) ltac:(lia) Ho1) as (p' & B' & E & Ho' & HB).
      { intros j t' Hj Ht'. apply elem_of_difference. split; [apply (Hin j); [lia|done]|]. intros [= ->]%elem_of_singleton.
        destruct (tab_inj B pds s pd i pd j t Hinv) as [_ ?]; try done; [unfold user_ix; lia|lia]. }
      exists p', B'. split; [done|]. split; [done|]. intros x. rewrite (HB x), elem_of_difference, elem_of_singleton. split.
      * intros [[Hx Hne] H2]. split; [done|]. intros (t' & -> & j & Hj & Ht'). destruct (decide (j = i)) as [->|].
        -- destruct Htab as (_ & _ & _ & H3), Ht' as (_ & _ & _ & H4). apply Hne. by assert (t' = t) as -> by congruence.
        -- apply H2. exists t'. split; [done|]. exists j. split; [lia|done].
      * intros [Hx H2]. split; [split; [done|]|].
        -- intros ->. apply H2. exists t. split; [done|]. exists i. split; [lia|done].
        -- intros (t' & -> & j & Hj & Ht'). apply H2. exists t'. split; [done|]. exists j. split; [lia|done].
    + rewrite bind_ret. destruct (IH Bc p (i + 1) Hinv Hpd ltac:(lia) ltac:(lia) Ho) as (p' & B' & E & Ho' & HB).
      { intros j t' Hj. apply Hin. lia. }
      exists p', B'. split; [done|]. split; [done|]. intros x. rewrite (HB x). split; intros [Hx H2]; (split; [done|]).
      * intros (t' & -> & j & Hj & Ht'). apply H2. exists t'. split; [done|]. exists j. split; [|done]. destruct (decide (j = i)) as [->|]; [|lia].
        destruct Ht' as (d' & Ed' & Hpr' & _). congruence.
      * intros (t' & -> & j & Hj & Ht'). apply H2. exists t'. split; [done|]. exists j. split; [lia|done].
Qed.

(** A page directory taken out of use, with its blocks. *)
Lemma pt_ok_drop B B' pds cur tmpl fin w pd : pt_ok koff R B pds cur tmpl fin w -> good R B' -> pd <> cur ->
  (forall a, a <> pd -> (a, 1%nat) ∈ B -> (a, 1%nat) ∈ B') -> tmpl <> pd ->
  (forall pd' i d t, pd' ∈ pds -> pd' <> pd -> user_ix i -> w (phys pd') i = Some d -> present d = true -> w (phys (pd_virtual pd')) i = Some t -> (t, 0%nat) ∈ B -> (t, 0%nat) ∈ B') ->
  pt_ok koff R B' (filter (fun x => x <> pd) pds) cur tmpl fin w.
Proof.
  intros [a1 a2 a3 a4 [a5 a5'] a6 a7 a8 a9 a10 a11 a12] Hg Hcur H1 Ht Htab.
  assert (forall x, x ∈ filter (fun x => x <> pd) pds -> x <> pd /\ x ∈ pds) as Hf by (intros x; by rewrite list_elem_of_filter).
  constructor; try done.
  - intros x [Hn Hx]%Hf. apply H1; [done|]. by apply a4.
  - split; [by apply H1|]. intros [_ Hx]%Hf. done.
  - intros x i d [Hn Hx]%Hf Hi Hd Hpr. destruct (a7 x i d Hx Hi Hd Hpr) as (t & Et & Hin & Em). exists t. split; [done|]. split; [|done]. by eapply Htab.
  - intros x i d x' i' d' t [_ Hx]%Hf Hi Hd Hpr [_ Hx']%Hf. by apply (a8 x i d x' i' d' t).
  - intros x i [[_ Hx]%Hf| ->] Hi; apply a9; eauto.
  - destruct a10 as [Hc|Hc]; [left|by right]. apply list_elem_of_filter. split; [congruence|done].
Qed.

(** [pt_destroy_pagedir] of a page directory that is not the current one returns its
    page tables and its two pages to the page allocator, and nothing else; memory and the
    other page directories stay as they are. *)
Lemma destroy_pagedir_ok B pds s pd : ptinv B pds s -> pd ∈ pds -> pd <> current_pagedir s ->
  exists s' B', pt_destroy_pagedir koff pd s = Ret (tt, s') /\ ptinv B' (filter (fun x => x <> pd) pds) s' /\ same_regs s s' /\ mem s' = mem s /\
    forall x, x ∈ B' <-> x ∈ B /\ x <> (pd, 1%nat) /\ ~ exists t, x = (t, 0%nat) /\ tables s pd 1 768 t.
Proof.
  intros Hinv Hpd Hcur. pose proof Hinv as [Ho Hok]. destruct (dir_facts koff R _ _ _ _ Hinv Hpd) as ((Ha & Hr & _) & _).
  unfold pt_destroy_pagedir. rewrite bind_assert by (unfold PAGE_ALIGNED, PAGE_SIZE; rewrite u32_small by (unfold is_u32; lia); by apply Z.eqb_eq).
  rewrite bind_assert by done. change (USER_MEM_LOW / PT_VADDR_SIZE) with 1. change (Z.to_nat _) with 767%nat.
  destruct (destroy_tables_ok B pds s pd 767 B (palloc s) 1 Hinv Hpd ltac:(lia) ltac:(lia) Ho) as (p1 & B1 & E1 & Ho1 & HB1).
  { intros j t Hj. eapply tab_in; [done..|]. unfold user_ix. lia. }
  replace (set_palloc (palloc s) s) with s in E1 by (by destruct s). rewrite (bind_eq _ _ _ _ _ E1). unfold minus_tables in HB1.
  change (1 + Z.of_nat 767) with 768 in HB1.
  assert ((pd, 1%nat) ∈ B1) as Hin1. { apply HB1. split; [by apply (po_pds _ _ _ _ _ _ _ _ Hok)|]. by intros (t & ? & _). }
  destruct (pl_free R B1 p1 pd 1 Ho1 Hin1) as (p2 & Ef & Ho2). change (npages_of 1) with 2 in Ef. unfold on_palloc. cbn [palloc set_palloc]. rewrite Ef.
  eexists. exists (B1 ∖ {[(pd, 1%nat)]}). split; [done|].
  assert (forall x, x ∈ B1 ∖ {[(pd, 1%nat)]} <-> x ∈ B /\ x <> (pd, 1%nat) /\ ~ exists t, x = (t, 0%nat) /\ tables s pd 1 768 t) as HB.
  { intros x. rewrite elem_of_difference, elem_of_singleton, (HB1 x). tauto. }
  split; [split|]; [done| |done]. cbn. apply pt_ok_drop with B; [done|by eapply owns_good|done|..].
  - intros a Hne Hin. apply HB. split; [done|]. split; [congruence|]. by intros (t & ? & _).
  - destruct (po_tmpl _ _ _ _ _ _ _ _ Hok) as [_ Hnt]. intros E. by rewrite E in Hnt.
  - intros pd' i d t Hpd' Hne Hi Hd Hpr Ht Hin. apply HB. split; [done|]. split; [done|]. intros (t' & [= <-] & j & Hj & Htj).
    destruct (tab_inj B pds s pd' i pd j t Hinv) as [? _]; try done. by exists d.
Qed.

(** ** Creation *)

(** A copy of the template becomes a page directory in use. *)
Lemma pt_ok_add B pds cur tmpl fin w w' pd : pt_ok koff R ({[(pd, 1%nat)]} ∪ B) pds cur tmpl fin w -> pd ∉ pds -> pd <> tmpl ->
  (forall p j, w' p j = if decide (p = phys (pd_virtual pd) /\ 0 <= j < 1024) then w (phys (pd_virtual tmpl)) j
     else if decide (p = phys pd /\ 0 <= j < 1024) then w (phys tmpl) j else w p j) ->
  pt_ok koff R ({[(pd, 1%nat)]} ∪ B) (pd :: pds) cur tmpl fin w'.
Proof.
  set (B' := {[(pd, 1%nat)]} ∪ B). assert ((pd, 1%nat) ∈ B') as Hin by (unfold B'; set_solver). clearbody B'.
  intros [a1 a2 a3 a4 [a5 a5'] a6 a7 a8 a9 a10 [a11 a11'] a12] Hnew Hnt Hw. destruct (dir_pages R B' pd a1 Hin) as [Hkp Hkv], (dir_pages R B' tmpl a1 a5) as [Htp Htv].
  assert (forall p j, p <> phys pd -> p <> phys (pd_virtual pd) -> w' p j = w p j) as Hout by (intros p j H1 H2; rewrite Hw, !decide_False by (by intros [? _]); done).
  assert (forall x j, (x, 1%nat) ∈ B' -> x <> pd -> w' (phys x) j = w (phys x) j /\ w' (phys (pd_virtual x)) j = w (phys (pd_virtual x)) j) as Hdir.
  { intros x j Hx Hne. destruct (dirs_apart koff R B' x pd a1 Hx Hin) as (H1 & H2 & H3), (dirs_apart koff R B' pd x a1 Hin Hx) as (H4 & _).
    split; apply Hout; auto. }
  assert (forall j, 0 <= j < 1024 -> w' (phys pd) j = w (phys tmpl) j) as Hcopy.
  { intros j Hj. destruct (dirs_apart koff R B' pd pd a1 Hin Hin) as (H1 & _). rewrite Hw, decide_False, decide_True by (done || by intros [? _]). done. }
  assert (forall x, x ∈ pds -> x <> pd) as Hpds by (intros x Hx ->; done).
  assert (forall j, w' (phys tmpl) j = w (phys tmpl) j) as Htm by (intros j; by apply Hdir).
  assert (forall i d, user_ix i -> w' (phys pd) i = Some d -> present d = true -> False) as Habs.
  { intros i d Hi. rewrite Hcopy by (unfold user_ix in Hi; lia). intros Hd. rewrite (a6 i d Hi Hd). done. }
  constructor; try done.
  - intros a i Ha Hi. rewrite Hw. destruct (decide _); [by apply a3|]. destruct (decide _); by apply a3.
  - intros x [->|Hx]%elem_of_cons; [done|by apply a4].
  - split; [done|]. intros [E|]%elem_of_cons; [|done]. by subst.
  - intros i d. rewrite Htm. apply a6.
  - intros x i d [->|Hx]%elem_of_cons Hi Hd Hpr; [by edestruct Habs|]. destruct (Hdir x i (a4 x Hx) (Hpds x Hx)) as [E1 E2]. rewrite E1 in Hd. rewrite E2. by apply a7.
  - intros x i d x' i' d' t [->|Hx]%elem_of_cons Hi Hd Hpr; [by edestruct Habs|]. intros [->|Hx']%elem_of_cons Hi' Hd' Hpr'; [by edestruct Habs|].
    destruct (Hdir x i (a4 x Hx) (Hpds x Hx)) as [E1 E2], (Hdir x' i' (a4 x' Hx') (Hpds x' Hx')) as [E3 E4]. rewrite E1 in Hd. rewrite E3 in Hd'. rewrite E2, E4. by eapply a8.
  - intros x i Hx Hi. rewrite Htm. destruct (decide (x = pd)) as [->|Hne]; [by rewrite Hcopy by lia|].
    assert (x ∈ pds \/ x = cur) as Hx' by (destruct Hx as [[->|Hx]%elem_of_cons| ->]; [done|by left|by right]).
    rewrite <- (a9 x i Hx' Hi). destruct Hx' as [Hx'| ->]; [by apply Hdir; [apply a4|]|].
    destruct a10 as [Hc|[Hc _]]; [by apply Hdir; [apply a4|]|apply Hout; by apply Hc].
  - destruct a10 as [Hc|Hc]; [left; by apply elem_of_cons; right|by right].
  - split; [|done]. rewrite Hout; [done|..]; apply not_eq_sym; by apply a11'.
  - intros a Ha. destruct (a12 a Ha) as (H1 & d & e & E1 & H2 & E2 & H3 & H4 & H5). split; [done|]. exists d, e. rewrite Htm.
    split; [done|]. split; [done|]. split; [|done]. rewrite Hout; [done|by apply H4|by apply H4].
Qed.

(** [pt_create_pagedir]: no page directory and nothing changed when memory is short;
    otherwise a new page directory in which no user address has a
    translation, while the translations of all others stay. *)
Lemma create_pagedir_ok B pds s : ptinv B pds s ->
  (pt_create_pagedir koff s = Ret (None, s) /\ pa_alloc_n 2 (palloc s) = Ret (None, palloc s)) \/
  exists pd s', pt_create_pagedir koff s = Ret (Some pd, s') /\ (pd ∉ pds) /\ ptinv ({[(pd, 1%nat)]} ∪ B) (pd :: pds) s' /\ same_regs s s' /\
    ((pd, 1%nat) ∉ B) /\ (forall i t, user_ix i -> ~ tab_at s' pd i t) /\ (forall v, user_addr v -> walk s' pd v = None) /\ forall pd' v, pd' ∈ pds -> user_addr v -> walk s' pd' v = walk s pd' v.
Proof.
  intros [Ho Hok]. unfold pt_create_pagedir. destruct (pl_alloc R B (palloc s) 1 Ho) as [(pd & p1 & E & Hn & Ho1)|E]; [unfold PAGE_NSIZES; lia|..]; change (npages_of 1) with 2 in E;
    [right|left; split; [unfold bind, on_palloc; rewrite E; by destruct s|done]].
  assert (on_palloc (pa_alloc_n 2) s = Ret (Some pd, set_palloc p1 s)) as Ea by (unfold on_palloc; by rewrite E).
  set (B' := {[(pd, 1%nat)]} ∪ B) in *. assert ((pd, 1%nat) ∈ B') as Hin by set_solver. pose proof (owns_good R _ _ Ho1) as Hg.
  assert (pt_ok koff R B' pds (current_pagedir s) (template_pagedir s) (final_page s) (wd s)) as Hok1 by (eapply pt_ok_mono; [done|done|set_solver]).
  destruct (po_tmpl _ _ _ _ _ _ _ _ Hok1) as [Htm _]. destruct (dir_pages R B' pd Hg Hin) as [Hkp Hkv], (dir_pages R B' _ Hg Htm) as [Htp Htv].
  assert (pd ∉ pds) as Hnp by (intros Hx; apply Hn; by apply (po_pds _ _ _ _ _ _ _ _ Hok)).
  assert (pd <> template_pagedir s) as Hnt by (intros ->; apply Hn; by apply (po_tmpl _ _ _ _ _ _ _ _ Hok)).
  destruct (dirs_apart koff R B' _ pd Hg Htm Hin) as (H1 & _), (dirs_apart koff R B' pd _ Hg Hin Htm) as (H2 & _), (dirs_apart koff R B' pd pd Hg Hin Hin) as (H3 & _).
  assert (forall a, kpage R a -> forall j, 0 <= j < 1024 -> is_Some (wd s (phys a) j)) as Hmem.
  { intros a Ha j Hj. destruct (po_mem _ _ _ _ _ _ _ _ Hok a j Ha Hj) as (x & Ex & _). eauto. }
  destruct (copy_page_eq koff pd (template_pagedir s) (set_palloc p1 s) (Hmem _ Hkp) (Hmem _ Htp)) as (s1 & E1 & Hr1 & Hp1 & Hw1). cbn [mem set_palloc] in Hw1.
  assert (forall a, kpage R a -> phys a <> phys pd -> forall j, 0 <= j < 1024 -> is_Some (wd s1 (phys a) j)) as Hmem1.
  { intros a Ha Hne j Hj. rewrite Hw1, decide_False by (by intros [? _]). by apply Hmem. }
  destruct (copy_page_eq koff (pd_virtual pd) (pd_virtual (template_pagedir s)) s1) as (s2 & E2 & Hr2 & Hp2 & Hw2); [apply Hmem1; [done|congruence]|apply Hmem1; [done|congruence]|].
  assert (ptinv B' (pd :: pds) s2) as Hinv2.
  { split; [rewrite Hp2, Hp1; done|]. destruct Hr1 as (A1 & A2 & A3 & _), Hr2 as (C1 & C2 & C3 & _). rewrite C1, C2, C3, A1, A2, A3. cbn.
    apply pt_ok_add with (wd s); [done..|]. intros p j. rewrite Hw2. destruct (decide _); [|by rewrite Hw1].
    rewrite Hw1, decide_False; [done|]. intros [? _]. congruence. }
  assert (forall i d, user_ix i -> wd s2 (phys pd) i = Some d -> present d = false) as Habs.
  { intros i d Hi. rewrite Hw2, decide_False by (by intros [? _]). rewrite Hw1, decide_True by (split; [done|]; unfold user_ix in Hi; lia). by apply (po_tmpl_user _ _ _ _ _ _ _ _ Hok). }
  assert (forall v, user_addr v -> walk s2 pd v = None) as Hnone.
  { intros v Hv. unfold mmu. destruct (wd s2 (phys pd) (vaddr_to_pdindex v)) as [d|] eqn:Ed; [|done]. by rewrite (Habs _ _ (user_pdindex v Hv) Ed). }
  exists pd, s2. split; [rewrite (bind_eq _ _ _ _ _ Ea), bind_gets, (bind_eq _ _ _ _ _ E1), (bind_eq _ _ _ _ _ E2); done|]. split; [done|]. split; [done|]. split; [by eapply same_regs_trans|]. split; [done|]. split; [intros i t Hi (d & Ed & Hpr & _); by rewrite (Habs _ _ Hi Ed) in Hpr|]. split; [done|].
  intros pd' v Hpd' Hv. pose proof (user_pdindex v Hv) as Hi.
  destruct (dirs_apart koff R B' pd' pd Hg (po_pds _ _ _ _ _ _ _ _ Hok1 _ Hpd') Hin) as (H4 & H5 & _).
  assert (forall p j, p <> phys pd -> p <> phys (pd_virtual pd) -> wd s2 p j = wd s p j) as Hout by (intros p j Ha Hb; rewrite Hw2, decide_False, Hw1, decide_False by (by intros [? _]); done).
  apply mmu_same; [apply Hout; [intros Ex; apply Hnp; by rewrite <- (H5 Ex)|done]|].
  intros d Hd Hpr. destruct (po_tab _ _ _ _ _ _ _ _ Hok pd' _ d Hpd' Hi Hd Hpr) as (t & _ & Ht & ->).
  destruct (table_not_dir koff R B' t pd Hg) as [Ha Hb]; [set_solver|done|]. by apply Hout.
Qed.

Lemma filter_absent (x : Z) (l : list Z) : x ∉ l -> filter (fun y => y <> x) l = l.
Proof.
  induction l as [|y l IH]; [done|]. intros [Hne Hn]%not_elem_of_cons. rewrite filter_cons_True by done. by rewrite IH.
Qed.

(** C11: [pt_create_pagedir] and [pt_destroy_pagedir].  Without memory there is no page
    directory and nothing changes.  Otherwise the new page directory has no
    translation for any user address and leaves the others alone; destroying it
    returns exactly the pages it took and leaves the translations
    of all other page directories as they were. *)
Theorem pt_pagedir_roundtrip B pds s : ptinv B pds s ->
  (pt_create_pagedir koff s = Ret (None, s) /\ pa_alloc_n 2 (palloc s) = Ret (None, palloc s)) \/
  exists pd s1 s2, pt_create_pagedir koff s = Ret (Some pd, s1) /\ (pd ∉ pds) /\ ptinv ({[(pd, 1%nat)]} ∪ B) (pd :: pds) s1 /\
    (forall v, user_addr v -> walk s1 pd v = None) /\ pt_destroy_pagedir koff pd s1 = Ret (tt, s2) /\ ptinv B pds s2 /\
    forall pd' v, pd' ∈ pds -> user_addr v -> walk s1 pd' v = walk s pd' v /\ walk s2 pd' v = walk s pd' v.
Proof.
  intros Hinv. destruct (create_pagedir_ok B pds s Hinv) as [E|(pd & s1 & E1 & Hn & Hinv1 & (R1 & _) & HnB & Habs & Hnone & Hsame)]; [by left|right].
  assert (pd <> current_pagedir s1) as Hcur.
  { rewrite R1. intros ->. destruct (po_cur _ _ _ _ _ _ _ _ (proj2 Hinv)) as [|[Hc _]]; [done|].
    destruct (dir_facts koff R _ _ _ (current_pagedir s) Hinv1 ltac:(by apply elem_of_cons; left)) as (Hk & _). by apply (Hc _ Hk). }
  destruct (destroy_pagedir_ok _ _ s1 pd Hinv1 ltac:(by apply elem_of_cons; left) Hcur) as (s2 & B2 & E2 & Hinv2 & _ & Hm & HB).
  assert (B2 = B) as ->.
  { apply set_eq. intros x. rewrite (HB x), elem_of_union, elem_of_singleton. split; [by intros [[|] []]|]. intros Hx.
    split; [by right|]. split; [intros ->; done|]. intros (t & -> & j & Hj & Ht). by apply (Habs j t). }
  assert (filter (fun x => x <> pd) (pd :: pds) = pds) as Ef.
  { rewrite filter_cons_False by (by intros []). by apply filter_absent. }
  rewrite Ef in Hinv2. exists pd, s1, s2. split; [done|]. split; [done|]. split; [done|]. split; [done|]. split; [done|]. split; [done|].
  intros pd' v Hpd' Hv. rewrite Hm. by rewrite !Hsame.
Qed.

(** ** The current page directory *)

(** [pt_set] of a page directory in use: it is the current one and the processor's
    [cr3] holds its physical address. *)
Theorem pt_set_correct B pds s pd : ptinv B pds s -> pd ∈ pds ->
  exists s', pt_set koff pd s = Ret (tt, s') /\ ptinv B pds s' /\ current_pagedir s' = pd /\ cr3 s' = phys pd /\
    forall pd' v, pd' ∈ pds -> user_addr v -> walk s' pd' v = walk s pd' v.
Proof.
  intros Hinv Hpd. destruct (dir_facts koff R _ _ _ _ Hinv Hpd) as (Hk & _).
  destruct (virt_to_phys_eq koff R B pds s pd Hinv Hk) as (s1 & E1 & [Ho1 Hok1] & Hr1 & Hp1 & Hw1).
  exists (set_cr3 (phys pd) (set_current pd s1)). split; [unfold pt_set; by rewrite (bind_eq _ _ _ _ _ E1)|]. split.
  - split; [done|]. cbn. destruct Hok1 as [a1 a2 a3 a4 a5 a6 a7 a8 a9 a10 a11 a12]. constructor; try done; [|by left].
    intros x i Hx. apply a9. left. by destruct Hx as [Hx| ->].
  - split; [done|]. split; [done|]. intros pd' v Hpd' Hv. cbn. destruct (dir_facts koff R _ _ _ _ Hinv Hpd') as (_ & _ & _ & Hf & _).
    apply mmu_same; [by apply Hw1|]. intros d Hd Hpr. destruct (dir_table koff R _ _ _ _ _ _ Hinv Hpd' (user_pdindex v Hv) Hd Hpr) as (t & _ & _ & -> & Hf' & _). by apply Hw1.
Qed.
(** ** Permanent mappings of physical pages *)

Definition perm_entry (paddr i : Z) : Z := Z.lor (Z.lor (u32 (paddr + PAGE_SIZE * i)) PT_PRESENT) PT_WRITE.

Lemma perm_loop_ok n : forall s paddr count i, (forall j, 0 <= j < 1024 -> is_Some (wd s (phys (final_page s)) j)) -> 0 <= i -> i + Z.of_nat n <= count -> count <= 1024 ->
  exists s', perm_loop koff n i paddr count s = Ret (tt, s') /\ same_regs s s' /\ palloc s' = palloc s /\
    forall p j, wd s' p j = if decide (p = phys (final_page s) /\ 1024 - count + i <= j < 1024 - count + i + Z.of_nat n)
      then Some (perm_entry paddr (j - (1024 - count))) else wd s p j.
Proof.
  induction n as [|n IH]; intros s paddr count i Hall Hi Hn Hc.
  - exists s. split; [done|]. split; [done|]. split; [done|]. intros p j. by rewrite decide_False by lia.
  - cbn [perm_loop]. rewrite bind_gets. change PT_ENTRY_COUNT with 1024. destruct (Hall (1024 - count + i) ltac:(lia)) as [x Ex].
    destruct (st_word_eq koff (final_page s) _ x (perm_entry paddr i) s Ex) as (s1 & E1 & Hw1 & Hr1 & Hp1). unfold perm_entry in E1 at 1. rewrite (bind_eq _ _ _ _ _ E1).
    pose proof Hr1 as (_ & _ & Hf & _). destruct (IH s1 paddr count (i + 1)) as (s' & E & Hr & Hp & Hw); [|lia..|].
    { intros j Hj. rewrite Hf, Hw1. unfold upd. destruct (decide _); [done|by apply Hall]. }
    exists s'. split; [done|]. split; [by eapply same_regs_trans|]. split; [congruence|]. intros p j. rewrite Hw, Hf, Hw1. unfold upd.
    destruct (decide (p = phys (final_page s) /\ 1024 - count + i <= j < 1024 - count + i + Z.of_nat (S n))) as [[-> Hj]|Hj].
    + destruct (decide (j = 1024 - count + i)) as [->|]; [rewrite decide_False by lia; rewrite decide_True by done; do 2 f_equal; lia|by rewrite decide_True by lia].
    + rewrite !decide_False; [done|..]; intros [-> ?]; apply Hj; lia.
Qed.

(** [pt_phys_perm_map] of [count] pages, while entries are left: the
    address it returns is the one whose page the processor finds in the first of the new
    entries of [final_page], the pages follow each other, and the entries of
    earlier mappings stay. *)
Theorem pt_phys_perm_map_correct s paddr count : (forall j, 0 <= j < 1024 -> is_Some (wd s (phys (final_page s)) j)) ->
  PAGE_ALIGNED paddr = true -> 0 <= count -> 1 <= phys_map_count s -> phys_map_count s + count < 1024 ->
  let c := phys_map_count s + count in
  exists s' v, pt_phys_perm_map koff paddr count s = Ret (v, s') /\ phys_map_count s' = c /\ v = 4294967296 - 4096 * c /\
    (forall i, 0 <= i < count -> vaddr_to_pdindex (v + 4096 * i) = 1023 /\ wd s' (phys (final_page s)) (vaddr_to_ptindex (v + 4096 * i)) = Some (perm_entry paddr i)) /\
    (forall p j, p <> phys (final_page s) \/ 1024 - phys_map_count s <= j -> wd s' p j = wd s p j).
Proof.
  intros Hall Hal Hc0 Hc1 Hc2 c. unfold pt_phys_perm_map. rewrite bind_assert by done. rewrite bind_gets. rewrite u32_small by (unfold is_u32, two32; lia). fold c.
  rewrite (bind_eq _ _ _ tt (set_count c s) eq_refl). rewrite bind_assert by (change PT_ENTRY_COUNT with 1024; lia).
  destruct (perm_loop_ok (Z.to_nat count) (set_count c s) paddr c 0) as (s1 & E1 & Hr1 & Hp1 & Hw1); [done|lia..|]. rewrite (bind_eq _ _ _ _ _ E1). cbn [final_page set_count mem] in Hw1.
  assert (u32 (4294967295 - PAGE_SIZE * c + 1) = 4294967296 - 4096 * c) as -> by (rewrite u32_small; unfold is_u32, two32, PAGE_SIZE; lia).
  eexists (set_flushed _ s1), _. split; [done|]. split; [apply Hr1|]. split; [done|]. cbn [mem set_flushed]. split.
  - intros i Hi. assert (is_u32 (4294967296 - 4096 * c + 4096 * i)) as Hu by (unfold is_u32, two32; lia). rewrite pdindex_eq by done. split; [dlia|].
    unfold vaddr_to_ptindex, PT_ENTRY_COUNT. rewrite ADDR_TO_PN_div, u32_small by done. replace (((4294967296 - 4096 * c + 4096 * i) / 4096) mod 1024) with (1024 - c + i) by dlia.
    rewrite Hw1, decide_True by (split; [done|lia]). do 2 f_equal. lia.
  - intros p j Hpj. rewrite Hw1, decide_False; [done|]. intros [-> Hj]. destruct Hpj; [done|lia].
Qed.
End ops.

(** ** A page directory on the machine with two megabytes *)

Abbreviation demo_koff := (KERNEL_START - KERNEL_PHYS_BASE).
Abbreviation demo_boot_all := (pt_init KERNEL_START KERNEL_START boot_map ;;; pt_template_init demo_koff ;;; pt_create_pagedir demo_koff).

(** The allocator after [pt_init], and its first two blocks of two pages. *)
Definition demo_add : outcome (unit * pages) := page_add_range (tab KERNEL_START (ntabs 2097152 + 1) + 1024) (2097152 + demo_koff) page_init.
Definition two_blocks : bool :=
  match demo_add with
  | Ret (_, p) => match pa_alloc_n 2 p with Ret (Some _, p') => match pa_alloc_n 2 p' with Ret (Some _, _) => true | _ => false end | _ => false end
  | Stop _ => false
  end.

Lemma demo_pagedir : exists R B pd s, demo_boot_all boot_machine = Ret (Some pd, s) /\ ptinv demo_koff R B [pd] s.
Proof.
  destruct (init_ok KERNEL_START 2097152 boot_map boot_layout boot_machine boot_machine_ok) as (s1 & hi & E & Hm & Ho & Hc & Hf & _ & _ & Ea & _).
  set (R := [(tab KERNEL_START (ntabs 2097152 + 1), hi)]) in *. fold demo_add in Ea. assert (two_blocks = true) as H2 by (vm_compute; reflexivity). unfold two_blocks in H2. rewrite Ea in H2.
  assert (boot_mapped demo_koff R (current_pagedir s1) (final_page s1) (tab KERNEL_START 0) (pword (mem s1))) as Hm' by (rewrite Hc, Hf; exact Hm).
  destruct (template_init_ok demo_koff R ∅ s1 _ Hm' Ho) as [[_ En]|(t & s2 & E2 & _ & Et & Hinv & _)]; [by rewrite En in H2|]. rewrite Et in H2.
  destruct (create_pagedir_ok demo_koff R _ _ s2 Hinv) as [[_ En]|(pd & s3 & E3 & _ & Hinv3 & _)]; [by rewrite En in H2|].
  exists R, ({[(pd, 1%nat)]} ∪ ({[(t, 1%nat)]} ∪ ∅)), pd, s3. split; [|exact Hinv3]. by rewrite (bind_eq _ _ _ _ _ E), (bind_eq _ _ _ _ _ E2).
Qed.

Lemma pt_map_correct_witness : exists R B pd s, ptinv demo_koff R B [pd] s /\
  ((pt_map demo_koff pd 4194304 1572864 7 7 s = Ret (- ENOMEM, s) /\ table_alloc s = Ret (None, s)) \/
   exists s' B', pt_map demo_koff pd 4194304 1572864 7 7 s = Ret (0, s') /\ B ⊆ B' /\ ptinv demo_koff R B' [pd] s' /\ same_regs s s' /\
     maps demo_koff [pd] s s' pd 4194304 (Some 1572871)).
Proof.
  destruct demo_pagedir as (R & B & pd & s & _ & Hinv). exists R, B, pd, s. split; [exact Hinv|].
  apply (pt_map_correct demo_koff R B [pd] s pd 4194304 1572864 7 7);
    [exact Hinv|by apply list_elem_of_singleton|done|reflexivity|done|reflexivity|reflexivity|reflexivity|reflexivity].
Defined.

Lemma pt_unmap_range_correct_witness : exists R B pd s s' B', ptinv demo_koff R B [pd] s /\
  Pagetable.pt_unmap_range demo_koff pd 4198400 12587008 s = Ret (tt, s') /\ ptinv demo_koff R B' [pd] s' /\ unmaps demo_koff [pd] s s' pd (unmap_hits 4198400 12587008).
Proof.
  destruct demo_pagedir as (R & B & pd & s & _ & Hinv).
  destruct (pt_unmap_range_correct demo_koff R B [pd] s pd 4198400 12587008) as (s' & B' & E & Hinv' & _ & _ & Hu);
    [exact Hinv|by apply list_elem_of_singleton|done|done|reflexivity|reflexivity|].
  exists R, B, pd, s, s', B'. exact (conj Hinv (conj E (conj Hinv' Hu))).
Defined.

Lemma pt_unmap_correct_witness : exists R B pd s s', ptinv demo_koff R B [pd] s /\
  Pagetable.pt_unmap demo_koff pd 4198400 s = Ret (tt, s') /\ maps demo_koff [pd] s s' pd 4198400 None.
Proof.
  destruct demo_pagedir as (R & B & pd & s & _ & Hinv).
  destruct (pt_unmap_correct demo_koff R B [pd] s pd 4198400) as (s' & E & _ & _ & Hm); [exact Hinv|by apply list_elem_of_singleton|done|reflexivity|].
  exists R, B, pd, s, s'. exact (conj Hinv (conj E Hm)).
Defined.

Lemma pt_pagedir_roundtrip_witness : exists R B pd s, ptinv demo_koff R B [pd] s /\
  ((pt_create_pagedir demo_koff s = Ret (None, s) /\ pa_alloc_n 2 (palloc s) = Ret (None, palloc s)) \/
   exists pd' s1 s2, pt_create_pagedir demo_koff s = Ret (Some pd', s1) /\ pt_destroy_pagedir demo_koff pd' s1 = Ret (tt, s2) /\ ptinv demo_koff R B [pd] s2).
Proof.
  destruct demo_pagedir as (R & B & pd & s & _ & Hinv). exists R, B, pd, s. split; [exact Hinv|].
  destruct (pt_pagedir_roundtrip demo_koff R B [pd] s Hinv) as [E|(pd' & s1 & s2 & E1 & _ & _ & _ & E2 & Hinv2 & _)]; [by left|right].
  exists pd', s1, s2. exact (conj E1 (conj E2 Hinv2)).
Defined.

Lemma pt_set_correct_witness : exists R B pd s s', ptinv demo_koff R B [pd] s /\ pt_set demo_koff pd s = Ret (tt, s') /\ cr3 s' = phys demo_koff pd.
Proof.
  destruct demo_pagedir as (R & B & pd & s & _ & Hinv).
  destruct (pt_set_correct demo_koff R B [pd] s pd Hinv) as (s' & E & _ & _ & Hc & _); [by apply list_elem_of_singleton|].
  exists R, B, pd, s, s'. exact (conj Hinv (conj E Hc)).
Defined.
